(* ===== verification/_CoqProject ===== *)
-Q . S2P
Prelude.v
CLib.v
Lexer.v
Parser.v
Sys.v
Resolver.v
Hop.v
Peek.v
Reveal.v
Spy.v
Redirection.v
Jobs.v
JobControl.v
Pipeline.v
Snoop.v
Prompt.v
Execute.v
Frame.v
Main.v
Kalloc.v
Proc.v
ProcInv.v
ProcSteps.v
Mlfq.v
ProcSync.v
Pipe.v
Bio.v
Log.v
LogSpec.v
LogCrash.v
LogSys.v
Vm.v
VmSpec.v
VmUser.v
VmAlloc.v
VmKmem.v
VmLife.v
Kvm.v
VmCopy.v
VmBytes.v
VmCopyio.v
Grep.v
StrLib.v
Fs.v
FsBlock.v
FsFile.v
FsRw.v
FsTrunc.v
FsInode.v
Mkfs.v
FsDir.v
FsDirSpec.v
SysFs.v
FsRef.v
File.v
FileRw.v
FileInv.v
FileCalls.v
Sh.v
ShGrammar.v
ShSim.v
ShParse.v
ShRun.v
Console.v
ConsoleSpec.v
KFiles.v
FileRun.v
Exec.v
ExecSpace.v
ExecLoad.v
ExecSpec.v
Syscall.v
Printf.v
Spinlock.v
Virtio.v
VirtioInv.v
Sleeplock.v
Umalloc.v
UmallocFree.v
UmallocRun.v
