(* ===== verification/Prelude.v ===== *)
(** * Verification of c-shell and of the xv6 kernel of this repository

    The repository holds two programs: a Unix shell written in C
    ([c-shell/]) and the xv6 teaching kernel for RISC-V with a multi-level
    feedback queue scheduler ([xv6/]). This development models the C code of
    both as executable functions and proves what makes it correct.

    ** How the code is modelled

    A C function that changes state is a function in the state monad with
    failure [M] of this file: the state of the component is a record, and
    [None] is the end of the defined behaviour, that is a write outside a
    fixed-size array in the shell and a panic, a use after free or a wait that
    never ends in the kernel. A pure function is a Rocq function. Integers keep
    their width: [int32], [u32] and [u64] wrap as the machine does. Loops that
    are not structural have fuel that the model shows to be enough, or a
    measure: the lexer has one unit per character, [wait_loop] one per event,
    [freerange_loop] one per page. Where kernel code waits in a loop around
    [sleep], the model has one pass of the loop, from taking the lock to
    sleeping or returning, and theorems range over all interleavings of passes.
    The operating system under the shell (files, descriptors, processes,
    signals) is the state machine of [Sys]; child processes, signal arrival,
    the traced program and the clock are data the theorems quantify over.

    ** The shell

    - [CLib] the C library functions the shell uses ([strtol], [snprintf],
      [strtok], ...) and the sorting loop of [spy].
    - [Lexer] ([lexer.c]) and [Parser] ([parser.c]): the tokenizer and the
      syntax check, each proved equal to a grammar given as an inductive
      relation; printing and lexing round-trip.
    - [Sys] files, descriptors and processes; [Resolver] ([resolver.c],
      [locate.c]), [Hop] ([hop.c]), [Peek] ([peek.c]), [Reveal] ([reveal.c]),
      [Spy] ([spy.c]), [Snoop] ([snoop.c]), [Prompt] ([prompt.c]): the
      builtins, with what each prints and changes.
    - [Redirection] ([redirection.c]): input concatenation and delayed delivery
      of redirected output. [Execute] ([execute.c]): redirections of builtins.
    - [Jobs] ([jobs.c]): the job table refines a finite map, its invariant
      holds in every reachable state, and the foreground wait follows a
      specification over the stream of child events. [JobControl]: the
      terminal and the job control builtins ([term.c], [ping.c], [resume.c],
      [activities.c]).
    - [Pipeline] ([pipeline.c]): descriptors, process groups and programs of
      the stages of a pipeline, foreground and background.
    - [Frame] and [Main] ([main.c]): at every prompt, after any input, the
      descriptor table is the initial one and the job table is well formed.

    ** The kernel

    - [Kalloc] ([kalloc.c]): every page is on the free list once or held once.
    - [Spinlock] ([spinlock.c]): instructions of any number of CPUs, interleaved;
      locks exclude and keep interrupts off. [Sleeplock] ([sleeplock.c]): sleep
      locks over [SleepChan], which exclude and lose no wakeup.
    - [Proc] ([proc.c], [sysproc.c], the timer part of [trap.c]): processes
      and the scheduler. The calls into [vm.c], [file.c] and [fs.c] are the
      class [KernelOps]. [ProcInv] and [ProcSteps]: the invariant of the
      process table over the interleavings of the critical sections of any
      number of CPUs. [Mlfq]: strict priority, time
      slices and the boost. [ProcSync]: sleep and wakeup, kill, wait;
      what sleeping promises to its clients is the class [SleepChan], with the
      process table as instance.
    - [Pipe] ([pipe.c]): a pipe is a FIFO queue for any interleaving of its
      users, and no one sleeps on it without a reason.
    - [Bio] ([bio.c]): the buffer cache shows one view of the disk.
      [Log] ([log.c]), [LogSpec], [LogCrash] and [LogSys]: event by event, the
      log refines a disk that changes all at once when the last open call
      ends, across crashes at any moment; reserved log space is there.
    - [Vm] ([vm.c]): page tables in memory, over the allocator interface
      [PageAlloc], which [VmKmem] instantiates with [Kalloc]. [VmSpec] shows a
      page table to be a finite map from page numbers to entries; [VmUser],
      [VmAlloc], [VmLife] and [VmCopy]: growing, copying and freeing
      an address space, running out of memory included; no page is lost and
      none is shared. [Kvm]: the page table of the kernel and the stacks of the
      processes. [VmBytes] and [VmCopyio]: copying between the kernel and
      the user's view of memory, in which lazy allocation does not show.
    - [Fs], [FsDir] ([fs.c]): blocks, inodes, file contents, directories and
      paths, on the blocks that the cache and the log show to a transaction.
      [FsBlock]: the bitmap is a set of blocks, [balloc] and [bfree] add and
      remove one. [FsFile] and [FsRw]: a file is an array of bytes, which
      [readi] and [writei] read and write, with disk full and failing copies as
      outcomes; [FsTrunc]: [itrunc] frees exactly the blocks of the file;
      [FsInode]: an inode that is written is read back.
      [FsDirSpec]: a directory is a finite map from names to inode numbers,
      which [dirlookup] looks up and [dirlink] extends. The fuel of the loops is computed from the sizes involved, and the
      theorems show that it is enough.
    - [SysFs] ([sysfile.c] inside a transaction), [File] ([file.c], the system
      calls of [sysfile.c], [pipealloc], and the files of a process in [kfork]
      and [kexit]): the table of open files, descriptors and current
      directories, over the interface [FileOps] to pipes and devices. [FsRef]
      is a small logic of references to inodes and of their locks, in which
      each function of [fs.c] and [sysfile.c] has a specification that says
      what it takes and what it gives back. [FileInv] has the invariant of the
      file table and the laws [FileLaws] of pipes; it and [FileCalls]
      show that each system call keeps it; [KFiles] that [pipe.c] and
      [console.c] satisfy the laws; [FileRun] that after any sequence of calls
      every reference count is the number of references. [FileRw]: what
      [filewrite] leaves in a file, cut into transactions. Its loop has fuel
      for one turn per transaction, which is enough.
    - [Mkfs] ([mkfs/mkfs.c]): the image that the tool writes is a file system
      for the kernel, in which every argument is found with its bytes. The loop
      of [iappend] has fuel for one turn per byte, which is enough.
    - [Virtio] ([virtio_disk.c], [virtio.h]): the disk driver, beside a device
      that takes and finishes requests in any order. [VirtioInv]: the invariant
      of the descriptors and of the two rings, and the refinement of a disk
      that carries out each request once. Freeing a chain has fuel for all
      descriptors and an interrupt for the entries the device is ahead, which
      is enough.
    - [StrLib] ([string.c], [ulib.c]): byte and string routines on memory.
    - [Grep] ([user/grep.c]): the matcher decides the language of a pattern, and
      the loop prints the matching lines however the input is read.
    - [Sh] ([user/sh.c], the parser): [ShGrammar] is the grammar of its lines,
      [ShSim] the same parser on tokens, [ShParse] the theorem that the parser
      accepts the lines of the grammar and builds their trees. [ShRun]: the
      processes, pipes and descriptors that a line is run with, also while a
      process waits, and the main loop. The fuel of the parser is the length of the line, which is enough.
    - [Console] ([console.c]), [ConsoleSpec]: the input buffer is a line editor,
      and a reader gets the edited lines.
    - [Umalloc] ([user/umalloc.c]), with the circular free list and
      the invariant of the heap; [UmallocFree] and [UmallocRun] show
      that [free] and [malloc] keep it for every sequence of calls with
      requests below 2 GB, that
      blocks do not overlap and that no memory is lost. The walks of the list
      have fuel for two rounds, which is enough.
    - [Exec] ([exec.c], [elf.h] and the page tables of [proc.c]): running a
      program. [ExecSpace]: a new address space and its growth; [ExecLoad]: the
      segments of the file are loaded in order over zeros; the
      guard page, the arguments and their addresses on the stack; [ExecSpec]:
      [kexec] either leaves the process as it was or replaces its program, and
      loses no page. The loops have fuel for the pages of a segment and the
      bytes of an argument, which is enough.
    - [Syscall] ([syscall.c], [sys_exec]): the arguments of system calls are
      fetched from user memory, and [exec] runs the program with the very
      strings that are there, or leaves the process unchanged.
    - [Printf] ([user/printf.c], [printk.c], [atoi]): formatted output. The
      buffer of [printint] is large enough for 64-bit numbers, and the two
      implementations of the format print what the format means.
    ** Not modelled

    Of the kernel: trap entry and return,
    the UART and the interrupt controller, start-up and assembly, which program
    the hardware; memory
    that is not sequentially consistent. The
    round-robin build of the scheduler. The disk driver and the device take
    turns between the passes of the driver, not between its single stores. In [fs.c] and the system calls on files
    a call runs to its end before the next one begins, so that waiting for an
    inode that another process holds, or in a pipe, does not show there. The other user
    programs and the tests.

    The theorems that are claims of the manifest carry their number in their
    comment; each one with hypotheses has a [_witness], which applies it to a
    concrete case. *)
From Stdlib Require Import ZArith Lia Ascii String.
From stdpp Require Export base tactics option list strings gmap pretty sorting.
Export Stdlib.ZArith.ZArith Stdlib.micromega.Lia Stdlib.Strings.Ascii.

Declare Scope cshell_scope.
Delimit Scope cshell_scope with cshell.
Global Open Scope Z_scope.
Global Open Scope cshell_scope.

(** ** C strings

    A C string is the list of its characters before the terminating NUL;
    file contents and other byte buffers are lists of characters too. *)

Abbreviation cstr := (list ascii) (only parsing).

(** [lit "hop"] is the C string literal. *)
Definition lit : string → list ascii := list_ascii_of_string.
Arguments lit _%_string : simpl never.

Abbreviation c_nul := ("000"%char).
Abbreviation c_tab := ("009"%char).
Abbreviation c_nl := ("010"%char).
Abbreviation c_vt := ("011"%char).
Abbreviation c_ff := ("012"%char).
Abbreviation c_cr := ("013"%char).
Abbreviation c_sp := (" "%char).
Abbreviation c_dquote := ("034"%char).
Abbreviation c_squote := ("'"%char).
Abbreviation c_bslash := ("\"%char).

(** Boolean character equality, [==] on [char]. *)
Infix "=c" := Ascii.eqb (at level 70) : cshell_scope.

Lemma ceq_true a b : (a =c b) = true ↔ a = b.
Proof. apply Ascii.eqb_eq. Qed.
Lemma ceq_false a b : (a =c b) = false ↔ a ≠ b.
Proof. apply Ascii.eqb_neq. Qed.

(** String equality, [strcmp(a, b) == 0]. *)
Definition streq (a b : list ascii) : bool := bool_decide (a = b).
Infix "=s" := streq (at level 70) : cshell_scope.

Lemma streq_true a b : (a =s b) = true ↔ a = b.
Proof. apply bool_decide_eq_true. Qed.
Lemma streq_false a b : (a =s b) = false ↔ a ≠ b.
Proof. apply bool_decide_eq_false. Qed.
Lemma streq_refl a : (a =s a) = true.
Proof. by apply streq_true. Qed.

(** Reading [s[i]] of a C string: the NUL past the end. *)
Definition char_at (s : list ascii) (i : nat) : ascii := default c_nul (s !! i).

(** A list with no NUL, that is a list that is a C string. *)
Definition no_nul (s : list ascii) : Prop := Forall (λ c, c ≠ c_nul) s.
#[export] Instance no_nul_dec s : Decision (no_nul s).
Proof. apply _. Defined.

(** What a C function sees of a buffer: the characters before the first NUL. *)
Fixpoint cstring (s : list ascii) : list ascii :=
  match s with
  | [] => []
  | c :: s' => if c =c c_nul then [] else c :: cstring s'
  end.

Lemma cstring_no_nul s : no_nul s → cstring s = s.
Proof.
  induction 1 as [|c s Hc _ IH]; [done|]. simpl.
  apply ceq_false in Hc. by rewrite Hc, IH.
Qed.
Lemma no_nul_cstring s : no_nul (cstring s).
Proof.
  induction s as [|c s IH]; [constructor|]. simpl.
  destruct (c =c c_nul) eqn:E; constructor; [by apply ceq_false|done].
Qed.

(** ** Machine integers *)

(** Two's complement conversion to a signed [w]-bit integer. *)
Definition swrap (w : Z) (z : Z) : Z := (z + 2 ^ (w - 1)) mod 2 ^ w - 2 ^ (w - 1).
Definition int32 : Z → Z := swrap 32.
Definition u32 (z : Z) : Z := z mod 2 ^ 32.
Definition u64 (z : Z) : Z := z mod 2 ^ 64.
Definition LONG_MAX : Z := 2 ^ 63 - 1.
Definition LONG_MIN : Z := - 2 ^ 63.

Lemma int32_id z : - 2 ^ 31 ≤ z < 2 ^ 31 → int32 z = z.
Proof. intros. unfold int32, swrap. rewrite Z.mod_small; lia. Qed.
Lemma int32_range z : - 2 ^ 31 ≤ int32 z < 2 ^ 31.
Proof.
  unfold int32, swrap. pose proof (Z.mod_pos_bound (z + 2 ^ (32 - 1)) (2 ^ 32)). lia.
Qed.
Lemma u32_id z : 0 ≤ z < 2 ^ 32 → u32 z = z.
Proof. intros. unfold u32. by apply Z.mod_small. Qed.
Lemma u32_range z : 0 ≤ u32 z < 2 ^ 32.
Proof. apply Z.mod_pos_bound. lia. Qed.
Lemma u64_id z : 0 ≤ z < 2 ^ 64 → u64 z = z.
Proof. intros. unfold u64. by apply Z.mod_small. Qed.
Lemma u64_range z : 0 ≤ u64 z < 2 ^ 64.
Proof. apply Z.mod_pos_bound. lia. Qed.

(** ** A state monad with failure

    [M S A] threads a state [S]. [None] is the end of the defined behaviour:
    a write outside a fixed-size array in the shell, a [panic] in the kernel. *)

Definition M (S A : Type) : Type := S → option (A * S).

#[export] Instance M_ret S : MRet (M S) := λ A a s, Some (a, s).
#[export] Instance M_bind S : MBind (M S) := λ A B f m s,
  match m s with
  | Some (a, s') => f a s'
  | None => None
  end.
#[export] Instance M_fmap S : FMap (M S) := λ A B f m s,
  match m s with
  | Some (a, s') => Some (f a, s')
  | None => None
  end.

Definition stuck {S A} : M S A := λ _, None.
Definition gets {S A} (f : S → A) : M S A := λ s, Some (f s, s).
Definition modify {S} (f : S → S) : M S unit := λ s, Some (tt, f s).
Definition when {S} (b : bool) (m : M S unit) : M S unit := if b then m else mret ().

(** The loop [for (x : xs) body]. *)
Fixpoint mfor {S A} (xs : list A) (body : A → M S unit) : M S unit :=
  match xs with
  | [] => mret ()
  | x :: xs' => body x ;; mfor xs' body
  end.

Lemma bind_Some {S A B} (m : M S A) (f : A → M S B) s r :
  (m ≫= f) s = Some r ↔ ∃ a s', m s = Some (a, s') ∧ f a s' = Some r.
Proof.
  unfold mbind, M_bind. split.
  - destruct (m s) as [[a s']|]; naive_solver.
  - intros (a & s' & -> & ?). done.
Qed.

Lemma bind_eq {S A B} (m : M S A) (f : A → M S B) s a s' :
  m s = Some (a, s') → (m ≫= f) s = f a s'.
Proof. unfold mbind, M_bind. by intros ->. Qed.

Lemma bind_assoc {S A B C} (m : M S A) (f : A → M S B) (g : B → M S C) s :
  ((m ≫= f) ≫= g) s = (m ≫= λ a, f a ≫= g) s.
Proof. unfold mbind, M_bind. by destruct (m s) as [[a s']|]. Qed.

Lemma bind_cong {S A B} (m : M S A) (f g : A → M S B) s :
  (∀ a s', m s = Some (a, s') → f a s' = g a s') → (m ≫= f) s = (m ≫= g) s.
Proof. unfold mbind, M_bind. destruct (m s) as [[a s']|]; [|done]. auto. Qed.

Lemma mfor_app {S A} (xs ys : list A) (body : A → M S unit) s :
  mfor (xs ++ ys) body s = (mfor xs body ;; mfor ys body) s.
Proof.
  revert s; induction xs as [|x xs IH]; intros s; [done|].
  simpl. unfold mbind, M_bind. destruct (body x s) as [[[] s']|]; [|done].
  rewrite IH. done.
Qed.

(** A loop whose body never fails and keeps an invariant ends in a state
    that satisfies it. *)
Lemma mfor_inv {S A} (P : S → Prop) (xs : list A) (body : A → M S unit) s :
  P s → (∀ x s, x ∈ xs → P s → ∃ s', body x s = Some ((), s') ∧ P s') →
  ∃ s', mfor xs body s = Some ((), s') ∧ P s'.
Proof.
  revert s; induction xs as [|x xs IH]; intros s Hs Hb; [by exists s|].
  destruct (Hb x s) as (s1 & E1 & H1); [set_solver|done|].
  destruct (IH s1) as (s2 & E2 & H2); [done|set_solver|].
  exists s2. split; [|done]. simpl. by rewrite (bind_eq _ _ _ _ _ E1).
Qed.

(** [preserves P m]: whenever [m] returns, it keeps [P]. *)
Definition preserves {S A} (P : S → Prop) (m : M S A) : Prop :=
  ∀ s a s', P s → m s = Some (a, s') → P s'.

Section preserves.
Context {S : Type} (P : S → Prop).

Lemma preserves_ret {A} (a : A) : preserves P (mret a).
Proof. by intros s ? ? Hs [= _ <-]. Qed.
Lemma preserves_gets {A} (f : S → A) : preserves P (gets f).
Proof. by intros s ? ? Hs [= _ <-]. Qed.
Lemma preserves_stuck {A} : preserves P (stuck (A := A)).
Proof. by intros s ? ? Hs ?. Qed.
Lemma preserves_modify f : (∀ s, P s → P (f s)) → preserves P (modify f).
Proof. intros Hf s ? ? Hs [= _ <-]. auto. Qed.
Lemma preserves_bind {A B} (m : M S A) (f : A → M S B) :
  preserves P m → (∀ a, preserves P (f a)) → preserves P (m ≫= f).
Proof.
  intros Hm Hf s b s' Hs (a & s1 & E1 & E2)%bind_Some. eapply Hf; [|exact E2]. by eapply Hm.
Qed.
Lemma preserves_mfor {A} (xs : list A) body :
  (∀ x, preserves P (body x)) → preserves P (mfor xs body).
Proof.
  intros Hb. induction xs as [|x xs IH]; [apply preserves_ret|].
  apply preserves_bind; [apply Hb|done].
Qed.
End preserves.

(** Unfold the monad in the goal. *)
Ltac msimpl :=
  unfold mret, M_ret, mbind, M_bind, fmap, M_fmap, gets, modify, when, stuck; simpl.

(** ** Lists *)

Section spans.
Context {A : Type} (p : A → bool).

(** The longest prefix whose elements satisfy [p], and what follows it. *)
Fixpoint take_while (l : list A) : list A :=
  match l with
  | [] => []
  | x :: l' => if p x then x :: take_while l' else []
  end.
Fixpoint drop_while (l : list A) : list A :=
  match l with
  | [] => []
  | x :: l' => if p x then drop_while l' else l
  end.

Lemma take_drop_while l : take_while l ++ drop_while l = l.
Proof. induction l as [|x l IH]; simpl; [done|]. destruct (p x); simpl; congruence. Qed.
Lemma take_while_all l : Forall p (take_while l).
Proof.
  induction l as [|x l IH]; simpl; [constructor|].
  destruct (p x) eqn:E; constructor; [by rewrite E|done].
Qed.
Lemma drop_while_head l x k : drop_while l = x :: k → p x = false.
Proof.
  induction l as [|y l IH]; simpl; [done|]. destruct (p y) eqn:E; [done|]. congruence.
Qed.
Lemma drop_while_length l : (length (drop_while l) ≤ length l)%nat.
Proof. induction l as [|x l IH]; simpl; [lia|]. destruct (p x); simpl; lia. Qed.
Lemma take_while_app l k :
  Forall p l → take_while (l ++ k) = l ++ take_while k.
Proof. induction 1 as [|x l Hx _ IH]; simpl; [done|]. destruct (p x); [congruence|done]. Qed.
Lemma drop_while_app l k :
  Forall p l → drop_while (l ++ k) = drop_while k.
Proof. induction 1 as [|x l Hx _ IH]; simpl; [done|]. destruct (p x); [congruence|done]. Qed.
End spans.

(** The first index whose element satisfies [p]: the loop
    [for (i...) if (p(a[i])) { found = i; break; }]. *)
Fixpoint index_of {A} (p : A → bool) (l : list A) : option nat :=
  match l with
  | [] => None
  | x :: l' => if p x then Some O else S <$> index_of p l'
  end.

Lemma index_of_Some {A} (p : A → bool) l i :
  index_of p l = Some i ↔
  ∃ x, l !! i = Some x ∧ p x = true ∧ (∀ j y, (j < i)%nat → l !! j = Some y → p y = false).
Proof.
  revert i; induction l as [|x l IH]; intros i; simpl.
  { split; [done|]. intros (y & Hy & _). by rewrite lookup_nil in Hy. }
  destruct (p x) eqn:E.
  - split.
    + intros [= <-]. exists x. split_and!; [done|done|lia].
    + intros (y & Hy & Hp & Hl). destruct i as [|i]; [done|].
      specialize (Hl O x ltac:(lia) eq_refl). congruence.
  - split.
    + intros (j & Hj & ->)%fmap_Some. apply IH in Hj as (y & Hy & Hp & Hl).
      exists y. split_and!; [done|done|]. intros [|k] z Hk Hz; [naive_solver|].
      apply (Hl k z); [lia|done].
    + intros (y & Hy & Hp & Hl). destruct i as [|i]; simpl in Hy; [congruence|].
      apply fmap_Some. exists i. split; [|done]. apply IH. exists y.
      split_and!; [done|done|]. intros j z Hj Hz. apply (Hl (S j) z); [lia|done].
Qed.

Lemma index_of_None {A} (p : A → bool) l :
  index_of p l = None ↔ ∀ x, x ∈ l → p x = false.
Proof.
  induction l as [|x l IH]; simpl.
  { split; [|done]. intros _ y Hy. by apply elem_of_nil in Hy. }
  destruct (p x) eqn:E.
  - split; [done|]. intros H. specialize (H x (list_elem_of_here _ _)). congruence.
  - rewrite fmap_None, IH. split.
    + intros H y [->|Hy]%elem_of_cons; [done|by apply H].
    + intros H y Hy. apply H. by right.
Qed.

Lemma index_of_lt {A} (p : A → bool) l i : index_of p l = Some i → (i < length l)%nat.
Proof. intros (x & Hx & _)%index_of_Some. by eapply lookup_lt_Some. Qed.

Lemma drop_length_take {A} n (l : list A) : drop (length (take n l)) l = drop n l.
Proof.
  rewrite length_take. destruct (decide (n ≤ length l)%nat).
  - by rewrite Nat.min_l by done.
  - rewrite Nat.min_r, !drop_ge by lia. done.
Qed.

Lemma list_alter_insert {A} (f : A → A) i (l : list A) x :
  l !! i = Some x → alter f i l = <[i := f x]> l.
Proof.
  revert i; induction l as [|y l IH]; intros [|i] Hi; simplify_eq/=; [done|]. f_equal. auto.
Qed.
Lemma list_alter_ge {A} (f : A → A) i (l : list A) :
  l !! i = None → alter f i l = l.
Proof. revert i; induction l as [|y l IH]; intros [|i] Hi; simplify_eq/=; f_equal; auto. Qed.

Lemma list_insert_fmap_same {A B} (f : A → B) (l : list A) k x y : l !! k = Some x → f y = f x → f <$> <[k := y]> l = f <$> l.
Proof. intros Hk E. rewrite list_fmap_insert, E. apply list_insert_id. by rewrite list_lookup_fmap, Hk. Qed.
Lemma fmap_alter_same {A B} (g : A → B) (f : A → A) i (l : list A) :
  (∀ x, g (f x) = g x) → g <$> alter f i l = g <$> l.
Proof.
  intros Hf. revert i; induction l as [|y l IH]; intros [|i]; cbn; [done|done|by rewrite Hf|].
  f_equal. apply IH.
Qed.

(** ** Automation *)

(** Case analysis on every boolean test of the goal, then substitution. *)
Ltac break_if :=
  match goal with
  | |- context [if ?b then _ else _] => destruct b eqn:?
  | H : context [if ?b then _ else _] |- _ => destruct b eqn:?
  end.

Create HintDb cshell.
#[export] Hint Resolve preserves_ret preserves_gets preserves_stuck preserves_modify
  preserves_mfor : cshell.

(** Split a [preserves] goal along the program text. *)
Ltac preserve :=
  repeat match goal with
    | |- preserves _ (mbind _ _) => apply preserves_bind; [|intros ?]
    | |- preserves _ (mret _) => apply preserves_ret
    | |- preserves _ (gets _) => apply preserves_gets
    | |- preserves _ stuck => apply preserves_stuck
    | |- preserves _ (mfor _ _) => apply preserves_mfor; intros ?
    | |- preserves _ (match ?x with _ => _ end) => destruct x
    end;
  try done.

#[export] Hint Resolve Z.mod_pos_bound no_nul_cstring : cshell.
#[export] Hint Rewrite @length_app @length_take @length_drop @length_insert
  @length_fmap @app_nil_r : cshell.
