(* ===== verification/CLib.v ===== *)
(** The C library functions the sources call on strings and numbers:
    [isspace], [strtol], [strtok], [strchr], [strstr], [strcmp], [snprintf]
    and the [%d]/[%ld] conversions of [printf]. *)
From S2P Require Import Prelude.

(** ** Characters and numbers *)

Definition isspace (c : ascii) : bool :=
  (c =c c_sp) || (c =c c_tab) || (c =c c_nl) || (c =c c_vt) || (c =c c_ff) || (c =c c_cr).

Definition char_code (c : ascii) : Z := Z.of_nat (nat_of_ascii c).
Definition isdigit (c : ascii) : bool := (48 <=? char_code c) && (char_code c <=? 57).
Definition digit_val (c : ascii) : Z := char_code c - 48.
Definition digit_char (d : Z) : ascii := ascii_of_nat (48 + Z.to_nat d).

(** The value of a digit string read after the number [n]. *)
Definition dec_value (n : Z) (s : list ascii) : Z :=
  foldl (λ acc c, acc * 10 + digit_val c) n s.

(** The decimal digits of [n], least significant last; the fuel is at least
    the number of binary digits. *)
Fixpoint dec_digits (fuel : nat) (n : Z) (acc : list ascii) : list ascii :=
  match fuel with
  | O => acc
  | S fuel =>
    let acc := digit_char (n mod 10) :: acc in
    if n <? 10 then acc else dec_digits fuel (n / 10) acc
  end.

(** [printf("%d")] and [printf("%ld")]. *)
Definition itoa (z : Z) : list ascii :=
  let n := Z.abs z in
  let ds := dec_digits (S (Z.to_nat (Z.log2 n))) n [] in
  if z <? 0 then "-"%char :: ds else ds.

Definition clamp_long (z : Z) : Z := Z.max LONG_MIN (Z.min LONG_MAX z).

(** [strtol(s, &endp, 10)]: the value and the text [endp] points to. *)
Definition strtol (s : list ascii) : Z * list ascii :=
  let s1 := drop_while isspace s in
  let '(neg, s2) :=
    match s1 with
    | c :: s' => if c =c "-" then (true, s') else if c =c "+" then (false, s') else (false, s1)
    | [] => (false, s1)
    end in
  let ds := take_while isdigit s2 in
  match ds with
  | [] => (0, s)
  | _ => (clamp_long (if neg : bool then - dec_value 0 ds else dec_value 0 ds),
          drop_while isdigit s2)
  end.

(** ** Strings *)

(** [snprintf(buf, size, ...)] when the formatted text is [s]. *)
Definition snprintf (size : nat) (s : list ascii) : list ascii := take (size - 1) s.
(** [strncpy(dst, s, size - 1); dst[size - 1] = 0]. *)
Definition strncpy_nul (size : nat) (s : list ascii) : list ascii := take (size - 1) s.

(** [strchr(s, c) != NULL] for a [c] other than NUL. *)
Definition strchr (s : list ascii) (c : ascii) : bool := existsb (λ d, d =c c) s.

Fixpoint starts_with (p s : list ascii) : bool :=
  match p, s with
  | [], _ => true
  | c :: p', d :: s' => (c =c d) && starts_with p' s'
  | _ :: _, [] => false
  end.

(** [strstr(s, p) != NULL]. *)
Fixpoint strstr (s p : list ascii) : bool :=
  starts_with p s || match s with [] => false | _ :: s' => strstr s' p end.

(** The tokens that [strtok(s, ":")], [strtok(NULL, ":")], ... return in turn:
    the maximal non-empty runs without the delimiter. *)
Fixpoint strtok_go (delim : ascii) (cur s : list ascii) : list (list ascii) :=
  match s with
  | [] => if bool_decide (cur = []) then [] else [cur]
  | c :: s' =>
    if c =c delim then
      if bool_decide (cur = []) then strtok_go delim [] s'
      else cur :: strtok_go delim [] s'
    else strtok_go delim (cur ++ [c]) s'
  end.
Definition strtok_all (delim : ascii) (s : list ascii) : list (list ascii) :=
  strtok_go delim [] s.

(** [strcmp(a, b) <= 0]: characters compare as unsigned bytes. *)
Fixpoint strcmp_le (a b : list ascii) : bool :=
  match a, b with
  | [], _ => true
  | _ :: _, [] => false
  | c :: a', d :: b' =>
    if c =c d then strcmp_le a' b' else char_code c <? char_code d
  end.

(** ** Lemmas *)

Lemma char_code_inj c d : char_code c = char_code d → c = d.
Proof.
  unfold char_code. intros H%Nat2Z.inj.
  by rewrite <-(ascii_nat_embedding c), H, ascii_nat_embedding.
Qed.

Lemma digit_char_code d : 0 ≤ d < 10 → char_code (digit_char d) = 48 + d.
Proof.
  intros Hd. unfold char_code, digit_char. rewrite nat_ascii_embedding; lia.
Qed.

Lemma isdigit_digit_char d : 0 ≤ d < 10 → isdigit (digit_char d) = true.
Proof. intros. unfold isdigit. rewrite digit_char_code by done. lia. Qed.

Lemma digit_val_char d : 0 ≤ d < 10 → digit_val (digit_char d) = d.
Proof. intros. unfold digit_val. rewrite digit_char_code by done. lia. Qed.

Lemma dec_digits_value fuel n acc :
  0 ≤ n < 2 ^ Z.of_nat fuel → (0 < fuel)%nat →
  dec_value 0 (dec_digits fuel n acc) = dec_value n acc ∧
  (Forall isdigit acc → Forall isdigit (dec_digits fuel n acc)) ∧
  (length acc < length (dec_digits fuel n acc))%nat.
Proof.
  revert n acc; induction fuel as [|fuel IH]; intros n acc Hn Hf; [lia|].
  pose proof (Z.mod_pos_bound n 10 ltac:(lia)) as Hm. cbn [dec_digits].
  destruct (n <? 10) eqn:E.
  - unfold dec_value. simpl. rewrite digit_val_char by done.
    split_and!; [by rewrite Z.mod_small by lia| |simpl; lia].
    constructor; [by rewrite isdigit_digit_char|done].
  - rewrite Nat2Z.inj_succ, Z.pow_succ_r in Hn by lia.
    assert (0 ≤ n / 10 < 2 ^ Z.of_nat fuel) as Hq.
    { split; [apply Z.div_pos; lia|]. apply Z.div_lt_upper_bound; lia. }
    destruct fuel as [|fuel']; [simpl in Hq; assert (10 ≤ n) by lia;
      pose proof (Z.div_le_lower_bound n 10 1); lia|].
    destruct (IH (n / 10) (digit_char (n mod 10)   :: acc) Hq ltac:(lia)) as (Hv & Hd & Hl).
    split_and!.
    + rewrite Hv. unfold dec_value. simpl. rewrite digit_val_char by done.
      f_equal. pose proof (Z.div_mod n 10). lia.
    + intros Ha. apply Hd. constructor; [by rewrite isdigit_digit_char|done].
    + cbn [length] in Hl. lia.
Qed.

Lemma itoa_abs_digits z :
  let ds := dec_digits (S (Z.to_nat (Z.log2 (Z.abs z)))) (Z.abs z) [] in
  dec_value 0 ds = Z.abs z ∧ Forall isdigit ds ∧ ds ≠ [].
Proof.
  intros ds. assert (0 ≤ Z.abs z < 2 ^ Z.of_nat (S (Z.to_nat (Z.log2 (Z.abs z))))) as Hb.
  { split; [lia|]. rewrite Nat2Z.inj_succ, Z2Nat.id by apply Z.log2_nonneg.
    destruct (decide (z = 0)) as [->|]; [done|]. apply Z.log2_spec. lia. }
  destruct (dec_digits_value _ _ [] Hb ltac:(lia)) as (Hv & Hd & Hl).
  split_and!; [done|by apply Hd|]. intros E. unfold ds in E. rewrite E in Hl. simpl in Hl. lia.
Qed.

Lemma isdigit_not_space c : isdigit c = true → isspace c = false.
Proof. by destruct c as [[] [] [] [] [] [] [] []]. Qed.

Lemma isdigit_not_sign c : isdigit c = true → (c =c "-") = false ∧ (c =c "+") = false.
Proof. by destruct c as [[] [] [] [] [] [] [] []]. Qed.

Lemma itoa_chars z : Forall (λ c, isdigit c = true ∨ c = "-"%char) (itoa z).
Proof.
  destruct (itoa_abs_digits z) as (_ & Hd & _). unfold itoa.
  assert (Forall (λ c, isdigit c = true ∨ c = "-"%char)
    (dec_digits (S (Z.to_nat (Z.log2 (Z.abs z)))) (Z.abs z) [])) as H.
  { eapply Forall_impl; [exact Hd|]. intros c Hc. left. by apply Is_true_eq_true. }
  destruct (z <? 0); [constructor; [by right|]|]; exact H.
Qed.

Lemma itoa_cons z : ∃ c s, itoa z = c :: s ∧ isspace c = false.
Proof.
  destruct (itoa_abs_digits z) as (_ & _ & Hne). pose proof (itoa_chars z) as Hc.
  unfold itoa in *. destruct (z <? 0); [by eexists _, _|].
  destruct (dec_digits _ _ _) as [|c s]; [done|]. exists c, s. split; [done|].
  apply Forall_cons in Hc as [[Hc| ->] _]; [by apply isdigit_not_space|done].
Qed.

Lemma dec_digits_length fuel n acc k :
  0 ≤ n < 10 ^ Z.of_nat k → (0 < k)%nat →
  (length (dec_digits fuel n acc) ≤ k + length acc)%nat.
Proof.
  revert n acc k; induction fuel as [|fuel IH]; intros n acc k Hn Hk; simpl; [lia|].
  destruct (n <? 10) eqn:E; simpl; [lia|].
  destruct k as [|[|k]]; [lia|simpl in Hn; lia|].
  assert (0 ≤ n / 10 < 10 ^ Z.of_nat (S k)) as Hq.
  { rewrite Nat2Z.inj_succ, Z.pow_succ_r in Hn by lia.
    split; [apply Z.div_pos; lia|]. apply Z.div_lt_upper_bound; lia. }
  specialize (IH (n / 10) (digit_char (n mod 10) :: acc) (S k) Hq ltac:(lia)).
  simpl in IH. lia.
Qed.

(** A [long] has at most 20 characters in decimal. *)
Lemma itoa_length z : LONG_MIN ≤ z ≤ LONG_MAX → (length (itoa z) ≤ 20)%nat.
Proof.
  intros Hz. unfold itoa, LONG_MIN, LONG_MAX in *.
  pose proof (dec_digits_length (S (Z.to_nat (Z.log2 (Z.abs z)))) (Z.abs z) [] 19) as Hl.
  specialize (Hl ltac:(change (10 ^ Z.of_nat 19) with 10000000000000000000; lia) ltac:(lia)).
  set (ds := dec_digits _ _ _) in *. change (length []) with O in Hl.
  destruct (z <? 0); cbn [length]; lia.
Qed.

(** [strtol] reads back what [%ld] prints, and stops where the digits stop. *)
Lemma strtol_itoa z rest :
  LONG_MIN ≤ z ≤ LONG_MAX →
  match rest with [] => True | c :: _ => isdigit c = false end →
  strtol (itoa z ++ rest) = (z, rest).
Proof.
  intros Hz Hr. destruct (itoa_abs_digits z) as (Hv & Hd & Hne).
  unfold itoa. set (ds := dec_digits _ _ _) in *.
  assert (take_while isdigit (ds ++ rest) = ds) as Ht.
  { rewrite take_while_app by done. destruct rest as [|c r]; simpl; [by rewrite app_nil_r|].
    rewrite Hr. by rewrite app_nil_r. }
  assert (drop_while isdigit (ds ++ rest) = rest) as Hdr.
  { rewrite drop_while_app by done. destruct rest as [|c r]; simpl; [done|]. by rewrite Hr. }
  destruct ds as [|d ds']; [done|].
  assert (isdigit d = true) as Hd0 by (apply Forall_cons in Hd as [? _]; by destruct (isdigit d)).
  destruct (z <? 0) eqn:E; unfold strtol.
  - simpl (drop_while isspace _). cbn [app]. simpl (("-" =c "-")).
    cbv iota beta. rewrite app_comm_cons, Ht, Hdr. cbv iota.
    rewrite Hv. f_equal. unfold clamp_long, LONG_MIN, LONG_MAX in *. lia.
  - simpl (drop_while isspace _). cbn [app].
    rewrite (isdigit_not_space d Hd0). cbv iota beta.
    destruct (isdigit_not_sign d Hd0) as [-> ->]. cbv iota beta.
    rewrite app_comm_cons, Ht, Hdr. cbv iota.
    rewrite Hv. f_equal. unfold clamp_long, LONG_MIN, LONG_MAX in *. lia.
Qed.

Lemma strcmp_le_refl a : strcmp_le a a = true.
Proof. induction a as [|c a IH]; simpl; [done|]. by rewrite Ascii.eqb_refl. Qed.

Lemma strcmp_le_total a b : strcmp_le a b = true ∨ strcmp_le b a = true.
Proof.
  revert b; induction a as [|c a IH]; intros [|d b]; simpl; auto.
  rewrite (Ascii.eqb_sym d c). destruct (c =c d) eqn:E; [apply IH|].
  apply ceq_false in E. destruct (decide (char_code c < char_code d)) as [|Hn]; [left; lia|].
  right. assert (char_code c ≠ char_code d) by (by intros ?%char_code_inj). lia.
Qed.

Lemma strcmp_le_antisym a b : strcmp_le a b = true → strcmp_le b a = true → a = b.
Proof.
  revert b; induction a as [|c a IH]; intros [|d b]; simpl; try done.
  rewrite (Ascii.eqb_sym d c). destruct (c =c d) eqn:E.
  - apply ceq_true in E as ->. intros. f_equal. by apply IH.
  - lia.
Qed.

Lemma strcmp_le_trans a b c :
  strcmp_le a b = true → strcmp_le b c = true → strcmp_le a c = true.
Proof.
  revert b c; induction a as [|x a IH]; intros [|y b] [|z c]; simpl; try done.
  destruct (x =c y) eqn:E1, (y =c z) eqn:E2; rewrite ?ceq_true, ?ceq_false in *; subst.
  - rewrite Ascii.eqb_refl. apply IH.
  - intros _ ?. by rewrite (proj2 (ceq_false y z)).
  - intros ? _. by rewrite (proj2 (ceq_false x z)).
  - intros H1 H2. destruct (x =c z) eqn:E3; [|lia]. apply ceq_true in E3 as ->. lia.
Qed.

(** Every token [strtok] returns is a non-empty run without the delimiter. *)
Lemma strtok_go_tokens delim cur s :
  delim ∉ cur → Forall (λ t, t ≠ [] ∧ delim ∉ t) (strtok_go delim cur s).
Proof.
  revert cur; induction s as [|c s IH]; intros cur Hc; simpl.
  - case_bool_decide; constructor; [done|constructor].
  - destruct (c =c delim) eqn:E.
    + case_bool_decide; [|constructor; [done|]]; apply IH; apply not_elem_of_nil.
    + apply ceq_false in E. apply IH. rewrite not_elem_of_app, list_elem_of_singleton.
      naive_solver.
Qed.

Lemma starts_with_app p s : starts_with p s = true ↔ ∃ k, s = p ++ k.
Proof.
  revert s; induction p as [|c p IH]; intros s; simpl; [naive_solver|].
  destruct s as [|d s]; [naive_solver|]. rewrite andb_true_iff, ceq_true, IH. naive_solver.
Qed.

(** The exchange sort the shell writes out three times: for job numbers in
    [jobs_print_activities], for descriptors in [run_spy] and for call
    statistics in [print_summary].

      for (a = 0; a < n; a++)
        for (b = a + 1; b < n; b++)
          if (x[b] before x[a]) swap(x[a], x[b]);

    The array is the list of its elements. [exchange_pass h t] is the inner
    loop when [x[a]] is [h] and [x[a+1..n)] is [t]. *)

Section sort.
Context {A : Type} (before : A → A → bool).

Fixpoint exchange_pass (h : A) (t : list A) : A * list A :=
  match t with
  | [] => (h, [])
  | x :: t' =>
    if before x h then let '(m, r) := exchange_pass x t' in (m, h :: r)
    else let '(m, r) := exchange_pass h t' in (m, x :: r)
  end.

(** The outer loop; [n] is the number of positions left. *)
Fixpoint exchange_loop (n : nat) (l : list A) : list A :=
  match n, l with
  | S n, h :: t => let '(m, r) := exchange_pass h t in m :: exchange_loop n r
  | _, _ => l
  end.
Definition exchange_sort (l : list A) : list A := exchange_loop (length l) l.

Lemma exchange_pass_perm h t m r : exchange_pass h t = (m, r) → m :: r ≡ₚ h :: t.
Proof.
  revert h m r; induction t as [|x t IH]; intros h m r; simpl.
  { by intros [= <- <-]. }
  destruct (before x h).
  - destruct (exchange_pass x t) as [m' r'] eqn:E. intros [= <- <-].
    by rewrite Permutation_swap, (IH _ _ _ E).
  - destruct (exchange_pass h t) as [m' r'] eqn:E. intros [= <- <-].
    rewrite Permutation_swap, (IH _ _ _ E). apply Permutation_swap.
Qed.

Lemma exchange_pass_length h t m r : exchange_pass h t = (m, r) → length r = length t.
Proof. intros E. apply exchange_pass_perm, Permutation_length in E. by injection E. Qed.

Lemma exchange_loop_perm n l : exchange_loop n l ≡ₚ l.
Proof.
  revert l; induction n as [|n IH]; intros [|h t]; simpl; try done.
  destruct (exchange_pass h t) as [m r] eqn:E. rewrite IH. by apply exchange_pass_perm.
Qed.

(** The result is a rearrangement of the input, whatever the test. *)
Lemma exchange_sort_perm l : exchange_sort l ≡ₚ l.
Proof. apply exchange_loop_perm. Qed.

(** [x] may stand before [y]. *)
Definition may_precede (x y : A) : Prop := before y x = false.

Context (Hirr : ∀ x, before x x = false).
Context (Htrans : ∀ x y z, may_precede x y → may_precede y z → may_precede x z).
Context (Hasym : ∀ x y, before x y = true → before y x = false).

Lemma exchange_pass_min h t m r :
  exchange_pass h t = (m, r) → may_precede m h ∧ Forall (may_precede m) r.
Proof.
  revert h m r; induction t as [|x t IH]; intros h m r; simpl.
  { intros [= <- <-]. split; [apply Hirr|constructor]. }
  destruct (before x h) eqn:Hb.
  - destruct (exchange_pass x t) as [m' r'] eqn:E. intros [= <- <-].
    apply IH in E as [H1 H2].
    assert (may_precede m' h) by (eapply Htrans; [exact H1|by apply Hasym]).
    split; [done|by constructor].
  - destruct (exchange_pass h t) as [m' r'] eqn:E. intros [= <- <-].
    apply IH in E as [H1 H2]. split; [done|]. constructor; [|done].
    by eapply Htrans.
Qed.

Lemma exchange_loop_sorted n l :
  (length l ≤ n)%nat → StronglySorted may_precede (exchange_loop n l).
Proof.
  revert l; induction n as [|n IH]; intros [|h t] Hl; simpl in *;
    [constructor|lia|constructor|].
  destruct (exchange_pass h t) as [m r] eqn:E. constructor.
  - apply IH. rewrite (exchange_pass_length _ _ _ _ E). lia.
  - apply exchange_pass_min in E as [_ E]. by rewrite exchange_loop_perm.
Qed.

(** For a test that is a strict weak order the result is sorted. *)
Lemma exchange_sort_sorted l : StronglySorted may_precede (exchange_sort l).
Proof. by apply exchange_loop_sorted. Qed.

End sort.

Lemma StronglySorted_mono {A} (R R' : A → A → Prop) l :
  (∀ x y, R x y → R' x y) → StronglySorted R l → StronglySorted R' l.
Proof.
  intros HR. induction 1 as [|x l _ IH Hx]; constructor; [done|].
  eapply Forall_impl; [exact Hx|]. auto.
Qed.

(** The instance for [int] arrays in ascending order. *)
Lemma exchange_sort_Z (l : list Z) :
  exchange_sort Z.ltb l ≡ₚ l ∧ StronglySorted Z.le (exchange_sort Z.ltb l).
Proof.
  split; [apply exchange_sort_perm|].
  eapply StronglySorted_mono; [|apply exchange_sort_sorted]; unfold may_precede; intros; lia.
Qed.
