(* ===== verification/Lexer.v ===== *)
(** The tokenizer: [lex_input] of [c-shell/src/lexer.c] with the token types
    of [c-shell/include/lexer.h].

    A [Token *] list is a list of tokens, a C string the list of its
    characters. The loop over [input[i]] recurses on the part of the input
    not yet read; the outer loop carries fuel, one unit per character, which
    [lex_loop_fuel] shows to be enough. The word buffer has 4096 bytes: a
    store past its end is the result [LexOverflow] (undefined in C).

    The specification is the lexical grammar [lexes]: blanks separate tokens,
    [>>] is read in preference to two [>], and a word is a non-empty sequence
    of plain characters, backslash escapes, single-quoted and double-quoted
    parts. *)
From S2P Require Import Prelude.

Inductive TokenType :=
| TOKEN_OP_PIPE
| TOKEN_OP_AMP
| TOKEN_OP_SEMI
| TOKEN_OP_LT
| TOKEN_OP_GT
| TOKEN_OP_GTGT
| TOKEN_WORD.

#[export] Instance TokenType_eq_dec : EqDecision TokenType.
Proof. solve_decision. Defined.

Definition ttype_eqb (a b : TokenType) : bool := bool_decide (a = b).

Record Token := mkToken { type : TokenType; value : list ascii }.

#[export] Instance Token_eq_dec : EqDecision Token.
Proof. solve_decision. Defined.

(** ** The code *)

Definition is_blank (c : ascii) : bool :=
  (c =c c_sp) || (c =c c_tab) || (c =c c_nl) || (c =c c_cr).
Definition is_op (c : ascii) : bool :=
  (c =c "|") || (c =c "&") || (c =c ";") || (c =c "<") || (c =c ">").

Definition BUFFER_SIZE : nat := 4096.

(** [buffer[b_idx++] = c], with [buf] the [b_idx] characters stored so far. *)
Definition store (buf : list ascii) (c : ascii) : option (list ascii) :=
  if decide (length buf < BUFFER_SIZE)%nat then Some (buf ++ [c]) else None.

Inductive word_result :=
| WordDone (buf rest : list ascii) (sq dq explicit_empty : bool)
| WordSyntax
| WordOverflow.

(** The loop that reads one word, from [while (input[i] != '\0')]. *)
Fixpoint lex_word (s : list ascii) (sq dq explicit_empty : bool) (buf : list ascii)
  : word_result :=
  match s with
  | [] => WordDone buf [] sq dq explicit_empty
  | c :: s' =>
    if negb sq && negb dq && (is_blank c || is_op c) then
      WordDone buf s sq dq explicit_empty
    else if (c =c c_squote) && negb dq then lex_word s' (negb sq) dq true buf
    else if (c =c c_dquote) && negb sq then lex_word s' sq (negb dq) true buf
    else if c =c c_bslash then
      if sq then
        match store buf c with
        | Some b => lex_word s' sq dq explicit_empty b
        | None => WordOverflow
        end
      else if dq then
        match s' with
        | c1 :: s'' =>
          if (c1 =c c_dquote) || (c1 =c c_bslash) then
            match store buf c1 with
            | Some b => lex_word s'' sq dq explicit_empty b
            | None => WordOverflow
            end
          else
            match store buf c with
            | Some b => lex_word s' sq dq explicit_empty b
            | None => WordOverflow
            end
        | [] =>
          match store buf c with
          | Some b => lex_word s' sq dq explicit_empty b
          | None => WordOverflow
          end
        end
      else
        match s' with
        | [] => WordSyntax
        | c1 :: s'' =>
          if c1 =c c_nl then WordSyntax
          else
            match store buf c1 with
            | Some b => lex_word s'' sq dq explicit_empty b
            | None => WordOverflow
            end
        end
    else
      match store buf c with
      | Some b => lex_word s' sq dq explicit_empty b
      | None => WordOverflow
      end
  end.

Inductive lex_result :=
| LexOk (tokens : list Token)
| LexSyntax
| LexOverflow.

(** [add_t]: append a node at the tail of the list. *)
Definition add_t (tokens : list Token) (t : TokenType) (v : list ascii) : list Token :=
  tokens ++ [mkToken t v].

(** The outer loop of [lex_input]. *)
Fixpoint lex_loop (fuel : nat) (s : list ascii) (tokens : list Token) : lex_result :=
  match fuel with
  | O => LexOverflow
  | S fuel =>
    match s with
    | [] => LexOk tokens
    | c :: s' =>
      if is_blank c then lex_loop fuel s' tokens
      else if c =c ">" then
        match s' with
        | c1 :: s'' =>
          if c1 =c ">" then lex_loop fuel s'' (add_t tokens TOKEN_OP_GTGT (lit ">>"))
          else lex_loop fuel s' (add_t tokens TOKEN_OP_GT (lit ">"))
        | [] => lex_loop fuel s' (add_t tokens TOKEN_OP_GT (lit ">"))
        end
      else if c =c "<" then lex_loop fuel s' (add_t tokens TOKEN_OP_LT (lit "<"))
      else if c =c "|" then lex_loop fuel s' (add_t tokens TOKEN_OP_PIPE (lit "|"))
      else if c =c "&" then lex_loop fuel s' (add_t tokens TOKEN_OP_AMP (lit "&"))
      else if c =c ";" then lex_loop fuel s' (add_t tokens TOKEN_OP_SEMI (lit ";"))
      else
        match lex_word s false false false [] with
        | WordSyntax => LexSyntax
        | WordOverflow => LexOverflow
        | WordDone buf rest sq dq explicit_empty =>
          if sq || dq then LexSyntax
          else if decide (length buf < BUFFER_SIZE)%nat then
            if bool_decide (buf ≠ []) || explicit_empty then
              lex_loop fuel rest (add_t tokens TOKEN_WORD buf)
            else lex_loop fuel rest tokens
          else LexOverflow
        end
    end
  end.

(** [lex_input]; the input is read up to its first NUL. *)
Definition lex_input (input : list ascii) : lex_result :=
  let s := cstring input in lex_loop (S (length s)) s [].

(** ** The lexical grammar *)

Definition boundary (rest : list ascii) : Prop :=
  match rest with
  | [] => True
  | c :: _ => is_blank c || is_op c = true
  end.

Definition plain (c : ascii) : Prop :=
  is_blank c = false ∧ is_op c = false ∧ c ≠ c_squote ∧ c ≠ c_dquote ∧ c ≠ c_bslash.

(** What stands between double quotes: [dq_body raw v] when the text [raw]
    denotes the value [v]. A backslash escapes a double quote or a backslash
    and is an ordinary character before anything else. *)
Inductive dq_body : list ascii → list ascii → Prop :=
| dq_nil : dq_body [] []
| dq_escape c raw v :
    c = c_dquote ∨ c = c_bslash → dq_body raw v → dq_body (c_bslash :: c :: raw) (c :: v)
| dq_backslash c raw v :
    c ≠ c_dquote → c ≠ c_bslash → dq_body (c :: raw) v →
    dq_body (c_bslash :: c :: raw) (c_bslash :: v)
| dq_char c raw v :
    c ≠ c_dquote → c ≠ c_bslash → dq_body raw v → dq_body (c :: raw) (c :: v).

(** One part of a word. *)
Inductive word_part : list ascii → list ascii → Prop :=
| part_plain c : plain c → word_part [c] [c]
| part_escape c : c ≠ c_nl → word_part [c_bslash; c] [c]
| part_squote w : c_squote ∉ w → word_part (c_squote :: w ++ [c_squote]) w
| part_dquote raw w : dq_body raw w → word_part (c_dquote :: raw ++ [c_dquote]) w.

Inductive word_parts : list ascii → list ascii → Prop :=
| parts_nil : word_parts [] []
| parts_cons raw1 v1 raw2 v2 :
    word_part raw1 v1 → word_parts raw2 v2 → word_parts (raw1 ++ raw2) (v1 ++ v2).

Inductive op_char : ascii → TokenType → Prop :=
| op_lt : op_char "<" TOKEN_OP_LT
| op_pipe : op_char "|" TOKEN_OP_PIPE
| op_amp : op_char "&" TOKEN_OP_AMP
| op_semi : op_char ";" TOKEN_OP_SEMI.

(** [lexes s ts]: the text [s] is the token sequence [ts]. *)
Inductive lexes : list ascii → list Token → Prop :=
| lexes_nil : lexes [] []
| lexes_blank c s ts : is_blank c = true → lexes s ts → lexes (c :: s) ts
| lexes_op c t s ts : op_char c t → lexes s ts → lexes (c :: s) (mkToken t [c] :: ts)
| lexes_gtgt s ts : lexes s ts → lexes (lit ">>" ++ s) (mkToken TOKEN_OP_GTGT (lit ">>") :: ts)
| lexes_gt s ts : head s ≠ Some ">"%char → lexes s ts →
    lexes (lit ">" ++ s) (mkToken TOKEN_OP_GT (lit ">") :: ts)
| lexes_word raw v s ts :
    raw ≠ [] → word_parts raw v → boundary s → lexes s ts →
    lexes (raw ++ s) (mkToken TOKEN_WORD v :: ts).

(** Every word fits the 4096-byte buffer with its NUL. *)
Definition words_fit (ts : list Token) : Prop :=
  Forall (λ t, type t = TOKEN_WORD → (length (value t) < BUFFER_SIZE)%nat) ts.

Lemma BUFFER_SIZE_pos : (0 < BUFFER_SIZE)%nat.
Proof. apply Nat.lt_0_succ. Qed.

(** ** Characters *)

Ltac char_cases :=
  repeat match goal with
  | H : (?a =c _) = true |- _ => apply ceq_true in H; try subst a
  | H : (_ =c _) = false |- _ => apply ceq_false in H
  | H : _ || _ = false |- _ => apply orb_false_iff in H as [? ?]
  | H : _ || _ = true |- _ => apply orb_true_iff in H as [?|?]
  end.

Lemma ceq_ne a b : a ≠ b → (a =c b) = false.
Proof. apply ceq_false. Qed.

Lemma store_fits buf c :
  (length buf < BUFFER_SIZE)%nat → store buf c = Some (buf ++ [c]).
Proof. intros. unfold store. by rewrite decide_True. Qed.

Lemma store_Some buf c b : store buf c = Some b → b = buf ++ [c].
Proof. unfold store. case_decide; naive_solver. Qed.

(** ** A word of the grammar is read as its value *)

Lemma lex_word_squote w rest ee buf :
  c_squote ∉ w → (length buf + length w ≤ BUFFER_SIZE)%nat →
  lex_word (w ++ c_squote :: rest) true false ee buf =
  lex_word rest false false true (buf ++ w).
Proof.
  revert ee buf; induction w as [|c w IH]; intros ee buf Hw Hlen; simpl.
  { by rewrite app_nil_r. }
  apply not_elem_of_cons in Hw as [Hc Hw]. rewrite (ceq_ne c) by done. simpl.
  simpl in Hlen. rewrite andb_false_r.
  rewrite (store_fits buf c) by lia.
  replace (buf ++ c :: w) with ((buf ++ [c]) ++ w) by by rewrite <-app_assoc.
  destruct (c =c c_bslash); apply IH; rewrite ?length_app; simpl; try done; lia.
Qed.

Lemma lex_word_dquote raw w rest ee buf :
  dq_body raw w → (length buf + length w ≤ BUFFER_SIZE)%nat →
  lex_word (raw ++ c_dquote :: rest) false true ee buf =
  lex_word rest false false true (buf ++ w).
Proof.
  intros Hb; revert ee buf.
  induction Hb as [|c raw v Hc _ IH|c raw v H1 H2 _ IH|c raw v H1 H2 _ IH];
    intros ee buf Hlen; simpl in Hlen.
  - simpl. by rewrite app_nil_r.
  - replace (buf ++ c :: v) with ((buf ++ [c]) ++ v) by by rewrite <-app_assoc.
    rewrite <-(IH ee) by (rewrite length_app; simpl; lia).
    destruct Hc as [-> | ->]; cbn [app lex_word]; rewrite store_fits by lia; done.
  - replace (buf ++ c_bslash :: v) with ((buf ++ [c_bslash]) ++ v)
      by by rewrite <-app_assoc.
    rewrite <-(IH ee) by (rewrite length_app; simpl; lia).
    simpl. rewrite (ceq_ne c c_dquote), (ceq_ne c c_bslash), (store_fits buf c_bslash)
      by (done || lia). done.
  - replace (buf ++ c :: v) with ((buf ++ [c]) ++ v) by by rewrite <-app_assoc.
    rewrite <-(IH ee) by (rewrite length_app; simpl; lia).
    simpl. rewrite andb_false_r, (ceq_ne c c_dquote), (ceq_ne c c_bslash), store_fits
      by (done || lia). done.
Qed.

Lemma lex_word_part raw v rest ee buf :
  word_part raw v → (length buf + length v ≤ BUFFER_SIZE)%nat →
  ∃ q, lex_word (raw ++ rest) false false ee buf =
       lex_word rest false false (ee || q) (buf ++ v) ∧ (v ≠ [] ∨ q = true).
Proof.
  intros [c (H1 & H2 & H3 & H4 & H5)|c Hc|w Hw|raw' w Hw] Hlen; simpl in Hlen.
  - exists false. split; [|by left]. rewrite orb_false_r. simpl.
    rewrite H1, H2, (ceq_ne c c_squote), (ceq_ne c c_dquote), (ceq_ne c c_bslash),
      store_fits by (done || lia). done.
  - exists false. split; [|by left]. rewrite orb_false_r. simpl.
    rewrite (ceq_ne c c_nl), store_fits by (done || lia). done.
  - exists true. split; [|by right]. rewrite orb_true_r.
    rewrite <-app_comm_cons, <-app_assoc. cbn. by apply lex_word_squote.
  - exists true. split; [|by right]. rewrite orb_true_r.
    rewrite <-app_comm_cons, <-app_assoc. cbn. by apply lex_word_dquote.
Qed.

Lemma lex_word_parts raw v rest ee buf :
  word_parts raw v → (length buf + length v ≤ BUFFER_SIZE)%nat →
  ∃ q, lex_word (raw ++ rest) false false ee buf =
       lex_word rest false false (ee || q) (buf ++ v) ∧ (raw = [] ∨ v ≠ [] ∨ q = true).
Proof.
  intros Hp; revert ee buf.
  induction Hp as [|raw1 v1 raw2 v2 H1 _ IH]; intros ee buf Hlen.
  { exists false. rewrite app_nil_r, orb_false_r. auto. }
  rewrite length_app in Hlen. rewrite <-(app_assoc raw1), (app_assoc buf).
  destruct (lex_word_part raw1 v1 (raw2 ++ rest) ee buf H1) as (q1 & -> & C1); [lia|].
  destruct (IH (ee || q1) (buf ++ v1)) as (q2 & -> & _); [rewrite length_app; lia|].
  exists (q1 || q2). rewrite orb_assoc. split; [done|]. right.
  destruct C1 as [C1 | ->]; [left; by destruct v1|by right].
Qed.

Lemma lex_word_boundary rest ee buf :
  boundary rest → lex_word rest false false ee buf = WordDone buf rest false false ee.
Proof. destruct rest as [|c rest]; [done|]. simpl. by intros ->. Qed.

(** ** What the word loop reads is a word of the grammar *)

Lemma lex_word_squote_inv s ee buf b rest ee' :
  lex_word s true false ee buf = WordDone b rest false false ee' →
  ∃ w rest1, s = w ++ c_squote :: rest1 ∧ c_squote ∉ w ∧
    lex_word rest1 false false true (buf ++ w) = WordDone b rest false false ee'.
Proof.
  revert ee buf; induction s as [|c s IH]; intros ee buf; [done|]. simpl.
  destruct (c =c c_squote) eqn:E; simpl; char_cases.
  { exists [], s. rewrite app_nil_r. split_and!; [done|apply not_elem_of_nil|done]. }
  rewrite andb_false_r.
  assert (match store buf c with
          | Some b0 => lex_word s true false ee b0
          | None => WordOverflow
          end = WordDone b rest false false ee' → ∃ w rest1,
            c :: s = w ++ c_squote :: rest1 ∧ c_squote ∉ w ∧
            lex_word rest1 false false true (buf ++ w) = WordDone b rest false false ee')
    as Hstep; [|by destruct (c =c c_bslash)].
  destruct (store buf c) as [b0|] eqn:S; [|done]. apply store_Some in S as ->.
  intros (w & rest1 & -> & Hw & H)%IH. exists (c :: w), rest1.
  rewrite <-app_assoc in H. split_and!; [done| |done]. apply not_elem_of_cons. auto.
Qed.

Lemma lex_word_dquote_inv s ee buf b rest ee' :
  lex_word s false true ee buf = WordDone b rest false false ee' →
  ∃ raw w rest1, s = raw ++ c_dquote :: rest1 ∧ dq_body raw w ∧
    lex_word rest1 false false true (buf ++ w) = WordDone b rest false false ee'.
Proof.
  remember (length s) as n eqn:Hn. revert s ee buf Hn.
  induction n as [n IH] using lt_wf_ind; intros [|c s] ee buf Hn; [done|].
  simpl in Hn. cbn [lex_word negb andb]. rewrite andb_false_r, andb_true_r.
  destruct (c =c c_dquote) eqn:E1; char_cases; simpl.
  { exists [], [], s. rewrite app_nil_r. split_and!; [done|constructor|done]. }
  assert (∀ d s1 ee, (length s1 < n)%nat →
    match store buf d with
    | Some b0 => lex_word s1 false true ee b0
    | None => WordOverflow
    end = WordDone b rest false false ee' →
    ∃ raw w rest1, s1 = raw ++ c_dquote :: rest1 ∧ dq_body raw w ∧
      lex_word rest1 false false true (buf ++ d :: w) = WordDone b rest false false ee')
    as Hstep.
  { intros d s1 ee1 Hlt. destruct (store buf d) as [b0|] eqn:S; [|done].
    apply store_Some in S as ->. intros (raw & w & r & -> & Hb & Hl)%(IH (length s1)); try done.
    exists raw, w, r. by rewrite <-app_assoc in Hl. }
  destruct (c =c c_bslash) eqn:E2; char_cases.
  - destruct s as [|c1 s]; [by destruct (store buf c_bslash)|].
    simpl in Hn. destruct ((c1 =c c_dquote) || (c1 =c c_bslash)) eqn:E3.
    + intros (raw & w & r & -> & Hb & Hl)%Hstep; [|lia].
      exists (c_bslash :: c1 :: raw), (c1 :: w), r. split_and!; [done| |done].
      constructor; [char_cases; auto|done].
    + char_cases. intros (raw & w & r & Hr & Hb & Hl)%Hstep; [|simpl; lia].
      destruct raw as [|c2 raw]; simplify_eq/=.
      exists (c_bslash :: c2 :: raw), (c_bslash :: w), r. split_and!; [done| |done].
      by constructor.
  - intros (raw & w & r & -> & Hb & Hl)%Hstep; [|lia].
    exists (c :: raw), (c :: w), r. split_and!; [done| |done]. by constructor.
Qed.

Lemma lex_word_inv s ee buf b rest ee' :
  lex_word s false false ee buf = WordDone b rest false false ee' →
  ∃ raw v, s = raw ++ rest ∧ word_parts raw v ∧ b = buf ++ v ∧ boundary rest.
Proof.
  remember (length s) as n eqn:Hn. revert s ee buf Hn.
  induction n as [n IH] using lt_wf_ind; intros [|c s] ee buf Hn; cbn [lex_word].
  { intros [= -> <- _]. exists [], []. rewrite (app_nil_r b). split_and!; done || apply parts_nil. }
  simpl in Hn. cbn [negb andb]. rewrite !andb_true_r.
  destruct (is_blank c || is_op c) eqn:E0.
  { intros [= -> <- _]. exists [], []. rewrite (app_nil_r b). split_and!; done || apply parts_nil. }
  assert (∀ raw1 v1 s1 ee1, word_part raw1 v1 → (length s1 < n)%nat →
    lex_word s1 false false ee1 (buf ++ v1) = WordDone b rest false false ee' →
    ∃ raw v, raw1 ++ s1 = raw ++ rest ∧ word_parts raw v ∧ b = buf ++ v ∧ boundary rest)
    as Hstep.
  { intros raw1 v1 s1 ee1 Hp Hlt (raw & v & -> & Hps & -> & ?)%(IH (length s1)); try done.
    exists (raw1 ++ raw), (v1 ++ v). rewrite !app_assoc. split_and!; [done|by constructor|done..]. }
  destruct (c =c c_squote) eqn:E1; char_cases.
  { intros (w & r & -> & Hw & Hl)%lex_word_squote_inv.
    rewrite length_app in Hn; simpl in Hn.
    eapply (Hstep (c_squote :: w ++ [c_squote])) in Hl; [|by constructor|lia].
    rewrite <-app_comm_cons, <-app_assoc in Hl. done. }
  destruct (c =c c_dquote) eqn:E2; char_cases.
  { intros (raw & w & r & -> & Hw & Hl)%lex_word_dquote_inv.
    rewrite length_app in Hn; simpl in Hn.
    eapply (Hstep (c_dquote :: raw ++ [c_dquote])) in Hl; [|by constructor|lia].
    rewrite <-app_comm_cons, <-app_assoc in Hl. done. }
  destruct (c =c c_bslash) eqn:E3; char_cases.
  - destruct s as [|c1 s]; [done|]. destruct (c1 =c c_nl) eqn:E4; [done|]. char_cases.
    destruct (store buf c1) as [b0|] eqn:S; [|done]. apply store_Some in S as ->.
    simpl in Hn. by apply (Hstep [c_bslash; c1]); [constructor|lia].
  - destruct (store buf c) as [b0|] eqn:S; [|done]. apply store_Some in S as ->.
    apply (Hstep [c]); [by repeat constructor|lia].
Qed.

(** ** The outer loop *)

Lemma word_parts_head raw v :
  word_parts raw v → raw ≠ [] →
  ∃ c raw', raw = c :: raw' ∧ is_blank c = false ∧ is_op c = false.
Proof.
  intros Hp Hne. destruct Hp as [|raw1 v1 raw2 v2 [c (?&?&_)|c|w|raw' w] _]; [done|..];
    simpl; eauto.
Qed.

Lemma not_op c t : op_char c t → is_blank c = false ∧ (c =c ">") = false.
Proof. by intros []. Qed.

Lemma is_op_false c :
  is_op c = false →
  (c =c "|") = false ∧ (c =c "&") = false ∧ (c =c ";") = false ∧
  (c =c "<") = false ∧ (c =c ">") = false.
Proof. unfold is_op. intros H. by repeat apply orb_false_iff in H as [H ?]. Qed.

Lemma lex_loop_complete s ts fuel toks :
  lexes s ts → words_fit ts → (length s < fuel)%nat →
  lex_loop fuel s toks = LexOk (toks ++ ts).
Proof.
  intros Hl; revert fuel toks.
  induction Hl as [|c s ts Hc _ IH|c t s ts Hc _ IH|s ts _ IH|s ts Hh _ IH
                  |raw v s ts Hne Hp Hb _ IH];
    intros [|fuel] toks Hfit Hlen; try (simpl in Hlen; lia); cbn [lex_loop].
  - by rewrite app_nil_r.
  - rewrite Hc. apply IH; [done|simpl in Hlen; lia].
  - apply Forall_cons in Hfit as [_ Hfit]. simpl in Hlen.
    rewrite cons_middle, app_assoc. destruct Hc; simpl; (apply IH; [done|lia]).
  - apply Forall_cons in Hfit as [_ Hfit]. simpl in Hlen.
    rewrite cons_middle, app_assoc. apply IH; [done|lia].
  - apply Forall_cons in Hfit as [_ Hfit]. simpl in Hlen.
    rewrite cons_middle, app_assoc. simpl. destruct s as [|c1 s]; [by apply IH; [|lia]|].
    rewrite (ceq_ne c1) by naive_solver. by apply IH; [|lia].
  - apply Forall_cons in Hfit as [Hv Hfit]. simpl in Hv. specialize (Hv eq_refl).
    destruct (word_parts_head raw v Hp Hne) as (c & raw' & -> & Hbl & Hop).
    simpl in Hlen. rewrite length_app in Hlen.
    destruct (lex_word_parts (c :: raw') v s false [] Hp) as (q & Hw & Hq); [simpl; lia|].
    rewrite (lex_word_boundary s) in Hw by done. cbn [app orb] in Hw |- *.
    rewrite Hbl. destruct (is_op_false c Hop) as (-> & -> & -> & -> & ->).
    rewrite Hw. cbn [orb]. rewrite decide_True by done.
    replace (bool_decide (v ≠ []) || q) with true.
    { rewrite cons_middle, app_assoc. apply IH; [done|lia]. }
    destruct Hq as [?|[Hq | ->]]; [done| |by rewrite orb_true_r].
    by rewrite bool_decide_eq_true_2.
Qed.

Lemma lex_loop_sound fuel s toks r :
  lex_loop fuel s toks = LexOk r → ∃ ts, r = toks ++ ts ∧ lexes s ts ∧ words_fit ts.
Proof.
  revert s toks; induction fuel as [|fuel IH]; intros s toks; [done|]. cbn [lex_loop].
  assert (∀ t s1 s2, lex_loop fuel s1 (toks ++ [t]) = LexOk r →
    (∀ ts, lexes s1 ts → lexes s2 (t :: ts)) →
    (type t = TOKEN_WORD → (length (value t) < BUFFER_SIZE)%nat) →
    ∃ ts, r = toks ++ ts ∧ lexes s2 ts ∧ words_fit ts) as Hstep.
  { intros t s1 s2 H Hlex Hfit. apply IH in H as (ts & -> & Hts & Hf).
    exists (t :: ts). rewrite <-app_assoc. split_and!; [done|by apply Hlex|by constructor]. }
  destruct s as [|c s].
  { intros [= <-]. exists []. rewrite app_nil_r. split_and!; [done|constructor|constructor]. }
  destruct (is_blank c) eqn:Eb.
  { intros (ts & -> & ? & ?)%IH. exists ts. split_and!; [done|by constructor|done]. }
  destruct (c =c ">") eqn:E1; char_cases.
  { destruct s as [|c1 s].
    { intros H. eapply Hstep; [exact H|intros ts Hts; by apply (lexes_gt [])|done]. }
    destruct (c1 =c ">") eqn:E2; char_cases; intros H.
    - eapply Hstep; [exact H|intros ts Hts; by apply (lexes_gtgt s)|done].
    - eapply Hstep; [exact H|intros ts Hts; apply (lexes_gt (c1 :: s)); [naive_solver|done]|done]. }
  destruct (c =c "<") eqn:E3; char_cases.
  { intros H. eapply Hstep; [exact H|intros; apply lexes_op; [constructor|done]|done]. }
  destruct (c =c "|") eqn:E4; char_cases.
  { intros H. eapply Hstep; [exact H|intros; apply lexes_op; [constructor|done]|done]. }
  destruct (c =c "&") eqn:E5; char_cases.
  { intros H. eapply Hstep; [exact H|intros; apply lexes_op; [constructor|done]|done]. }
  destruct (c =c ";") eqn:E6; char_cases.
  { intros H. eapply Hstep; [exact H|intros; apply lexes_op; [constructor|done]|done]. }
  assert (is_op c = false) as Eop by (unfold is_op; by rewrite !(ceq_ne c)).
  destruct (lex_word (c :: s) false false false []) as [buf rest sq dq ee| |] eqn:W;
    [|done..].
  destruct sq, dq; try done. cbn [orb].
  apply lex_word_inv in W as W'. destruct W' as (raw & v & Hs & Hp & -> & Hb).
  assert (raw ≠ []) as Hne.
  { intros ->. simpl in Hs. subst rest. simpl in Hb. by rewrite Eb, Eop in Hb. }
  cbn [app]. case_decide as Hlen; [|done].
  replace (bool_decide (v ≠ []) || ee) with true.
  - intros H. eapply Hstep; [exact H| |done]. intros ts Hts. rewrite Hs. by constructor.
  - destruct (lex_word_parts raw v rest false [] Hp) as (q & Hw & Hq); [simpl; lia|].
    rewrite <-Hs, W, (lex_word_boundary rest) in Hw by done. injection Hw as ->.
    destruct Hq as [?|[Hq | ->]]; [done| |by rewrite orb_true_r].
    by rewrite bool_decide_eq_true_2.
Qed.

(** ** Properties *)

Lemma lex_input_complete input ts :
  lexes (cstring input) ts → words_fit ts → lex_input input = LexOk ts.
Proof. intros Hl Hf. unfold lex_input. rewrite (lex_loop_complete _ ts); [done..|lia]. Qed.

(** C2: [lex_input] implements the lexical grammar. It returns the token list
    [ts] exactly when the input, up to its NUL, is the token sequence [ts] of
    the grammar [lexes] and every word is shorter than the word buffer; in
    particular the loop always ends, tokens are read with maximal munch and
    quotes and escapes are removed from words. *)
Theorem lex_input_grammar input ts :
  lex_input input = LexOk ts ↔ lexes (cstring input) ts ∧ words_fit ts.
Proof.
  split.
  - unfold lex_input. intros (ts' & -> & ? & ?)%lex_loop_sound. done.
  - intros [Hl Hf]. by apply lex_input_complete.
Qed.

(** Printing a token so that it reads back: words between double quotes, with
    a backslash before double quotes and backslashes. *)
Definition quote_char (c : ascii) : list ascii :=
  if (c =c c_dquote) || (c =c c_bslash) then [c_bslash; c] else [c].
Definition print_token (t : Token) : list ascii :=
  match type t with
  | TOKEN_WORD => c_dquote :: (value t ≫= quote_char) ++ [c_dquote]
  | _ => value t
  end.
Definition print_tokens (ts : list Token) : list ascii :=
  ts ≫= λ t, print_token t ++ [c_sp].

(** The text of each operator. *)
Definition op_text (t : TokenType) : list ascii :=
  match t with
  | TOKEN_OP_PIPE => lit "|"
  | TOKEN_OP_AMP => lit "&"
  | TOKEN_OP_SEMI => lit ";"
  | TOKEN_OP_LT => lit "<"
  | TOKEN_OP_GT => lit ">"
  | TOKEN_OP_GTGT => lit ">>"
  | TOKEN_WORD => []
  end.

(** A token the lexer can produce: an operator with its text, or a word with
    no NUL that fits the buffer. *)
Definition wf_token (t : Token) : Prop :=
  match type t with
  | TOKEN_WORD => no_nul (value t) ∧ (length (value t) < BUFFER_SIZE)%nat
  | op => value t = op_text op
  end.

#[export] Instance wf_token_dec t : Decision (wf_token t).
Proof. unfold wf_token. destruct (type t); apply _. Defined.

Lemma dq_body_quote v : dq_body (v ≫= quote_char) v.
Proof.
  induction v as [|c v IH]; [constructor|].
  rewrite bind_cons. unfold quote_char at 1.
  destruct ((c =c c_dquote) || (c =c c_bslash)) eqn:E; char_cases; simpl;
    constructor; auto.
Qed.

Lemma no_nul_quote v : no_nul v → no_nul (v ≫= quote_char).
Proof.
  induction 1 as [|c v Hc _ IH]; [constructor|]. rewrite bind_cons.
  unfold quote_char at 1. destruct (_ || _); repeat constructor; done.
Qed.

Lemma print_tokens_lexes ts : Forall wf_token ts → lexes (print_tokens ts) ts.
Proof.
  induction 1 as [|[t v] ts Ht _ IH]; [constructor|].
  unfold print_tokens. rewrite bind_cons. fold (print_tokens ts).
  assert (lexes (c_sp :: print_tokens ts) ts) as IH' by by constructor.
  rewrite <-app_assoc. cbn [app]. unfold print_token. unfold wf_token in Ht. destruct t; simpl in *; try subst v;
    try (apply lexes_op; [constructor|done]).
  - by apply lexes_gt.
  - by apply lexes_gtgt.
  - pose proof (part_dquote _ _ (dq_body_quote v)) as Hp.
    pose proof (parts_cons _ _ _ _ Hp parts_nil) as Hps. rewrite !app_nil_r in Hps.
    rewrite app_comm_cons. by apply lexes_word.
Qed.

Lemma no_nul_print_tokens ts : Forall wf_token ts → no_nul (print_tokens ts).
Proof.
  induction 1 as [|[t v] ts Ht _ IH]; [constructor|].
  unfold print_tokens. rewrite bind_cons. apply Forall_app. split; [|done].
  apply Forall_app. split; [|by repeat constructor]. unfold print_token.
  unfold wf_token in Ht. destruct t; simpl in *; subst; repeat constructor; try done.
  apply Forall_app. split; [apply no_nul_quote; naive_solver|by repeat constructor].
Qed.

(** lexing undoes printing. Any sequence of operators and words (words
    without NUL and shorter than the buffer), printed with the words in double
    quotes and a blank after each token, lexes to the same sequence. *)
Theorem lex_print_roundtrip ts :
  Forall wf_token ts → lex_input (print_tokens ts) = LexOk ts.
Proof.
  intros Hts. apply lex_input_complete.
  - rewrite cstring_no_nul by by apply no_nul_print_tokens. by apply print_tokens_lexes.
  - eapply Forall_impl; [exact Hts|]. intros [t v] Ht E. simpl in *. subst. apply Ht.
Qed.

Lemma lex_print_roundtrip_witness :
  lex_input (print_tokens [mkToken TOKEN_WORD (lit "a b"); mkToken TOKEN_OP_GT (lit ">");
                           mkToken TOKEN_OP_GTGT (lit ">>"); mkToken TOKEN_WORD []])
  = LexOk [mkToken TOKEN_WORD (lit "a b"); mkToken TOKEN_OP_GT (lit ">");
           mkToken TOKEN_OP_GTGT (lit ">>"); mkToken TOKEN_WORD []].
Proof. apply lex_print_roundtrip. apply (bool_decide_unpack _). vm_compute. exact I. Defined.

Lemma lex_word_overflow w buf ee rest :
  Forall plain w → (BUFFER_SIZE < length buf + length w)%nat →
  (length buf ≤ BUFFER_SIZE)%nat →
  lex_word (w ++ rest) false false ee buf = WordOverflow.
Proof.
  intros Hw; revert buf ee. induction Hw as [|c w (H1 & H2 & H3 & H4 & H5) _ IH];
    intros buf ee Hlt Hle; simpl in *; [lia|].
  rewrite H1, H2, (ceq_ne c c_squote), (ceq_ne c c_dquote), (ceq_ne c c_bslash) by done.
  simpl. unfold store. case_decide; [|done]. apply IH; rewrite length_app; simpl; lia.
Qed.

(** the word buffer is not checked. A line that starts with a run of
    4096 or more plain characters makes [lex_input] store past the end of
    [buffer[4096]], whatever follows. *)
Theorem lex_input_long_word_overflow w rest :
  Forall plain w → no_nul w → (BUFFER_SIZE ≤ length w)%nat → boundary (cstring rest) →
  lex_input (w ++ rest) = LexOverflow.
Proof.
  intros Hw Hn Hlen Hb. unfold lex_input.
  replace (cstring (w ++ rest)) with (w ++ cstring rest).
  2:{ clear -Hn. induction Hn as [|c w Hc _ IH]; [done|]. simpl.
      by rewrite (ceq_ne c), IH by done. }
  destruct Hw as [|c w (H1 & H2 & Hs) Hw]; [pose proof BUFFER_SIZE_pos; simpl in Hlen; lia|].
  set (l := _ ++ _). change l with (c :: w ++ cstring rest) at 2. cbn [lex_loop].
  rewrite H1. destruct (is_op_false c H2) as (-> & -> & -> & -> & ->).
  destruct (decide (length (c :: w) = BUFFER_SIZE)) as [E|E].
  - assert (word_parts (c :: w) (c :: w)) as Hp.
    { assert (Forall plain (c :: w)) as F by (by constructor).
      clear -F. induction F as [|d k Hd _ IH]; [constructor|].
      apply (parts_cons [d] [d]); [by constructor|done]. }
    destruct (lex_word_parts _ _ (cstring rest) false [] Hp) as (q & Hq & _); [by rewrite E|].
    rewrite (lex_word_boundary (cstring rest)) in Hq by done.
    change (c :: w ++ cstring rest) with ((c :: w) ++ cstring rest).
    rewrite Hq. cbn [orb app]. by rewrite decide_False by (rewrite E; lia).
  - change (c :: w ++ cstring rest) with ((c :: w) ++ cstring rest).
    rewrite lex_word_overflow; [done|by constructor|..]; simpl in *; lia.
Qed.

Lemma lex_input_long_word_overflow_witness :
  lex_input (replicate 5000 "a"%char ++ lit " x") = LexOverflow.
Proof.
  apply lex_input_long_word_overflow.
  - apply Forall_replicate. repeat split; done.
  - apply Forall_replicate. done.
  - rewrite length_replicate. apply (bool_decide_unpack _). vm_compute. exact I.
  - reflexivity.
Defined.
