(* ===== verification/Parser.v ===== *)
(** The syntax check: [valid_syntax] of [c-shell/src/parser.c].

    The README calls the shell's grammar right-linear; [rule] is that grammar
    read off the code, [derives] its language, and [valid_syntax_grammar]
    shows that the check accepts exactly that language. *)
From S2P Require Import Prelude Lexer.

(** ** The code *)

Definition is_redir (t : TokenType) : bool :=
  ttype_eqb t TOKEN_OP_LT || ttype_eqb t TOKEN_OP_GT || ttype_eqb t TOKEN_OP_GTGT.
Definition is_separator (t : TokenType) : bool :=
  ttype_eqb t TOKEN_OP_PIPE || ttype_eqb t TOKEN_OP_AMP || ttype_eqb t TOKEN_OP_SEMI.

(** The body of the loop for [curr] with [next = curr->next], and its
    repetition; [first] is [prev == NULL]. *)
Fixpoint syntax_loop (first : bool) (toks : list Token) : bool :=
  match toks with
  | [] => true
  | curr :: rest =>
    let next := type <$> head rest in
    if first && negb (ttype_eqb (type curr) TOKEN_WORD) then false
    else if is_redir (type curr) &&
            match next with None => true | Some n => negb (ttype_eqb n TOKEN_WORD) end
    then false
    else if ttype_eqb (type curr) TOKEN_OP_PIPE &&
            match next with None => true | Some n => is_separator n end
    then false
    else if ttype_eqb (type curr) TOKEN_OP_SEMI &&
            match next with None => true | Some n => is_separator n end
    then false
    else if ttype_eqb (type curr) TOKEN_OP_AMP &&
            match next with None => false | Some n => is_separator n end
    then false
    else syntax_loop false rest
  end.

Definition valid_syntax (head : list Token) : bool :=
  match head with
  | [] => true
  | _ => syntax_loop true head
  end.

(** ** The right-linear grammar *)

(** [LINE]: a whole line. [CMD]: inside a command. [FILE]: a redirection
    target is due. [NEXT]: after [|] or [;]. [BG]: after [&]. *)
Inductive nonterminal := LINE | CMD | FILE | NEXT | BG.

Inductive empty_rule : nonterminal → Prop :=
| empty_LINE : empty_rule LINE
| empty_CMD : empty_rule CMD
| empty_BG : empty_rule BG.

Inductive rule : nonterminal → TokenType → nonterminal → Prop :=
| rule_word N : rule N TOKEN_WORD CMD
| rule_redir N t : N = CMD ∨ N = NEXT ∨ N = BG → is_redir t = true → rule N t FILE
| rule_pipe : rule CMD TOKEN_OP_PIPE NEXT
| rule_semi : rule CMD TOKEN_OP_SEMI NEXT
| rule_amp : rule CMD TOKEN_OP_AMP BG.

Inductive derives : nonterminal → list TokenType → Prop :=
| derives_empty N : empty_rule N → derives N []
| derives_rule N t N' w : rule N t N' → derives N' w → derives N (t :: w).

(** ** The check and the grammar agree *)

(** What the check has still to ensure about the next token, by nonterminal. *)
Definition next_ok (N : nonterminal) (next : option TokenType) : bool :=
  match N, next with
  | LINE, None | CMD, None | BG, None => true
  | FILE, None | NEXT, None => false
  | LINE, Some n | FILE, Some n => ttype_eqb n TOKEN_WORD
  | CMD, Some _ => true
  | NEXT, Some n | BG, Some n => negb (is_separator n)
  end.

Lemma derives_next_ok N w : derives N w → next_ok N (head w) = true.
Proof.
  destruct 1 as [N []|N t N' w Hr _]; try done.
  destruct Hr as [[]|N t [->|[->| ->]] Ht| | |]; try done; by destruct t.
Qed.

(** The nonterminal reached after a token. *)
Definition after (t : TokenType) : nonterminal :=
  match t with
  | TOKEN_WORD => CMD
  | TOKEN_OP_LT | TOKEN_OP_GT | TOKEN_OP_GTGT => FILE
  | TOKEN_OP_PIPE | TOKEN_OP_SEMI => NEXT
  | TOKEN_OP_AMP => BG
  end.

(** Each round of the loop checks that the next token may follow this one. *)
Lemma syntax_loop_cons first curr rest :
  syntax_loop first (curr :: rest) =
  (negb first || ttype_eqb (type curr) TOKEN_WORD) &&
  next_ok (after (type curr)) (type <$> head rest) && syntax_loop false rest.
Proof.
  cbn [syntax_loop]. destruct first, (type curr), (head rest) as [[[] ?]|]; done.
Qed.

Lemma rule_after N t : next_ok N (Some t) = true → rule N t (after t).
Proof. destruct N, t; simpl; try done; intros _; constructor; auto. Qed.

Lemma rule_after_inv N t N' : rule N t N' → N' = after t.
Proof. by destruct 1 as [|? []| | |]. Qed.

Lemma syntax_loop_derives N toks :
  syntax_loop false toks && next_ok N (type <$> head toks) = true ↔
  derives N (type <$> toks).
Proof.
  revert N; induction toks as [|[t v] toks IH]; intros N.
  { simpl. split; [intros H; apply derives_empty; destruct N; done || constructor|].
    by intros ?%derives_next_ok. }
  rewrite syntax_loop_cons, fmap_cons. simpl. rewrite !andb_true_iff. split.
  - intros [[Ha Hl] Hn]. eapply derives_rule; [by apply rule_after|].
    apply IH. by rewrite Hl, Ha.
  - intros Hd. apply derives_next_ok in Hd as Hn. simpl in Hn.
    inversion Hd as [|? ? N' ? Hr Hd']; subst. apply rule_after_inv in Hr as ->.
    apply IH in Hd' as [? ?]%andb_true_iff. done.
Qed.

(** C3: [valid_syntax] accepts exactly the lines the right-linear grammar
    derives: a line starts with a word, every redirection operator is followed
    by a word, [|] and [;] are followed by a word or a redirection, [&] by one
    of these or the end of the line, and nothing else is required. *)
Theorem valid_syntax_grammar toks :
  valid_syntax toks = true ↔ derives LINE (type <$> toks).
Proof.
  rewrite <-syntax_loop_derives. destruct toks as [|[t v] toks]; [done|].
  unfold valid_syntax. rewrite !syntax_loop_cons. simpl.
  rewrite !andb_true_iff. naive_solver.
Qed.

(** ** What the check gives the executor *)

Lemma syntax_loop_lookup first toks i t :
  syntax_loop first toks = true → toks !! i = Some t →
  next_ok (after (type t)) (type <$> toks !! S i) = true.
Proof.
  revert first toks; induction i as [|i IH]; intros first [|c toks] Hs Hi; try done;
    rewrite syntax_loop_cons, !andb_true_iff in Hs; destruct Hs as [[_ Hn] Hs].
  - simplify_eq/=. by destruct toks.
  - by apply (IH false toks).
Qed.

Lemma valid_syntax_lookup toks i t :
  valid_syntax toks = true → toks !! i = Some t →
  next_ok (after (type t)) (type <$> toks !! S i) = true.
Proof. destruct toks; [done|]. apply syntax_loop_lookup. Qed.

(** In an accepted line a redirection operator is followed by its file. *)
Lemma valid_syntax_redir toks i t :
  valid_syntax toks = true → toks !! i = Some t → is_redir (type t) = true →
  ∃ w, toks !! S i = Some w ∧ type w = TOKEN_WORD.
Proof.
  intros Hv Hi Hr. pose proof (valid_syntax_lookup _ _ _ Hv Hi) as Hn.
  assert (after (type t) = FILE) as E by by destruct (type t).
  rewrite E in Hn. destruct (toks !! S i) as [w|]; [|done].
  exists w. split; [done|]. simpl in Hn. by apply bool_decide_eq_true in Hn.
Qed.
