(* ===== verification/Sys.v ===== *)
(** The operating system as the shell sees it.

    [sys] is the state the shell's system calls read and change: the current
    directory, regular files by absolute path, the shell's descriptor table,
    its output streams, the terminal's foreground group, the children it
    started, the signals it sent and those that will reach it.
    [Posix] collects the questions whose answer is the environment's:
    file types, permissions, directory contents, links, variables.

    A file is named by its absolute path: [abspath] puts the current directory
    in front of a relative name; two different absolute paths are two files.
    Contents are sequences of bytes and [write] appends, since every file the
    shell writes is opened with [O_APPEND] or truncated. *)
From S2P Require Import Prelude CLib.

Inductive ftype := S_IFREG | S_IFDIR | S_IFCHR | S_IFBLK | S_IFIFO | S_IFSOCK | S_IFLNK.
#[export] Instance ftype_eq_dec : EqDecision ftype.
Proof. solve_decision. Defined.

(** What [readlink] answers: the target, [EACCES], or another error. *)
Inductive link_result := LinkTo (target : list ascii) | LinkEACCES | LinkError.

(** The environment's answers; the first argument is the current directory. *)
Class Posix := {
  os_stat : list ascii → list ascii → option ftype;
  os_lstat : list ascii → list ascii → option ftype;
  os_access_x : list ascii → list ascii → bool;
  os_realpath : list ascii → list ascii → option (list ascii);
  os_chdir : list ascii → list ascii → option (list ascii);
  os_readdir : list ascii → list ascii → option (list (list ascii));
  os_readlink : list ascii → link_result;
  os_getenv : list ascii → option (list ascii);
  (** may the file at this absolute path be opened for reading, for writing? *)
  os_can_read : list ascii → bool;
  os_can_write : list ascii → bool;
  (** the text [perror] prints for the current [errno] *)
  os_error : list ascii;
}.

(** What a descriptor refers to. [OTemp] is a filled temporary input file
    positioned at its start: its contents stay readable after [unlink]. *)
Inductive fdobj :=
| OTty
| OPipeR (id : nat)
| OPipeW (id : nat)
| OFile (path : list ascii)
| OTemp (contents : list ascii).
#[export] Instance fdobj_eq_dec : EqDecision fdobj.
Proof. solve_decision. Defined.

Inductive signal := SIGHUP | SIGINT | SIGTERM | SIGCONT | SIGTSTP | SIGTTOU | SIGTTIN | SIGCHLD.
#[export] Instance signal_eq_dec : EqDecision signal.
Proof. solve_decision. Defined.

(** Their numbers on Linux. *)
Definition signo (s : signal) : Z :=
  match s with
  | SIGHUP => 1 | SIGINT => 2 | SIGTERM => 15 | SIGCONT => 18
  | SIGTSTP => 20 | SIGTTIN => 21 | SIGTTOU => 22 | SIGCHLD => 17
  end.

(** A child as [execv] finds it. *)
Record child := mkChild {
  c_pid : Z;
  c_path : list ascii;
  c_args : list (list ascii);
  c_pgid : Z;
  c_fds : gmap nat fdobj;
  c_default : list signal;
}.

(** The status [waitpid] reports, as the [WIF...] macros distinguish it. *)
Inductive wstatus := WExited (code : Z) | WSignaled (sig : Z) | WStopped (sig : Z) | WContinued.
#[export] Instance wstatus_eq_dec : EqDecision wstatus.
Proof. solve_decision. Defined.

(** One signal the process receives while it waits in [sigsuspend]: [SIGCHLD]
    with what [waitpid] then reports and what the children wrote to files
    meanwhile, or [SIGALRM]. An [early] alarm arrives just before the process
    is suspended: its handler runs, but it does not end the suspension. *)
Inductive delivery :=
| DChild (events : list (Z * wstatus)) (written : list (list ascii * list ascii))
| DAlarm (early : bool).

(** What the terminal gives to a process that reads it: a line, the end of
    file, or a signal that interrupts the read ([SIGCHLD] when there are events). *)
Inductive tty_event :=
| TLine (text : list ascii)
| TEof
| TIntr (events : list (Z * wstatus)) (written : list (list ascii * list ascii)).

Inductive disposition := SigDfl | SigIgn | SigHandler (name : string).
#[export] Instance disposition_eq_dec : EqDecision disposition.
Proof. solve_decision. Defined.

Record sys := mkSys {
  cwd : list ascii;
  files : gmap (list ascii) (list ascii);
  fds : gmap nat fdobj;
  out : list ascii;
  err : list ascii;
  npipes : nat;
  forks : list Z;
  children : list child;
  kills : list (Z * Z);
  fg : Z;
  deliveries : list delivery;
  tty : list tty_event;
  stdin_eof : bool;
  self_pid : Z;
  shell_pgid : Z;
  dispositions : list (signal * disposition);
}.

Definition set_cwd v s := mkSys v (files s) (fds s) (out s) (err s) (npipes s) (forks s)
  (children s) (kills s) (fg s) (deliveries s) (tty s) (stdin_eof s) (self_pid s) (shell_pgid s)
  (dispositions s).
Definition set_files v s := mkSys (cwd s) v (fds s) (out s) (err s) (npipes s) (forks s)
  (children s) (kills s) (fg s) (deliveries s) (tty s) (stdin_eof s) (self_pid s) (shell_pgid s)
  (dispositions s).
Definition set_fds v s := mkSys (cwd s) (files s) v (out s) (err s) (npipes s) (forks s)
  (children s) (kills s) (fg s) (deliveries s) (tty s) (stdin_eof s) (self_pid s) (shell_pgid s)
  (dispositions s).
Definition set_out v s := mkSys (cwd s) (files s) (fds s) v (err s) (npipes s) (forks s)
  (children s) (kills s) (fg s) (deliveries s) (tty s) (stdin_eof s) (self_pid s) (shell_pgid s)
  (dispositions s).
Definition set_err v s := mkSys (cwd s) (files s) (fds s) (out s) v (npipes s) (forks s)
  (children s) (kills s) (fg s) (deliveries s) (tty s) (stdin_eof s) (self_pid s) (shell_pgid s)
  (dispositions s).
Definition set_npipes v s := mkSys (cwd s) (files s) (fds s) (out s) (err s) v (forks s)
  (children s) (kills s) (fg s) (deliveries s) (tty s) (stdin_eof s) (self_pid s) (shell_pgid s)
  (dispositions s).
Definition set_forks v s := mkSys (cwd s) (files s) (fds s) (out s) (err s) (npipes s) v
  (children s) (kills s) (fg s) (deliveries s) (tty s) (stdin_eof s) (self_pid s) (shell_pgid s)
  (dispositions s).
Definition set_children v s := mkSys (cwd s) (files s) (fds s) (out s) (err s) (npipes s)
  (forks s) v (kills s) (fg s) (deliveries s) (tty s) (stdin_eof s) (self_pid s) (shell_pgid s)
  (dispositions s).
Definition set_kills v s := mkSys (cwd s) (files s) (fds s) (out s) (err s) (npipes s) (forks s)
  (children s) v (fg s) (deliveries s) (tty s) (stdin_eof s) (self_pid s) (shell_pgid s)
  (dispositions s).
Definition set_fg v s := mkSys (cwd s) (files s) (fds s) (out s) (err s) (npipes s) (forks s)
  (children s) (kills s) v (deliveries s) (tty s) (stdin_eof s) (self_pid s) (shell_pgid s)
  (dispositions s).
Definition set_deliveries v s := mkSys (cwd s) (files s) (fds s) (out s) (err s) (npipes s)
  (forks s) (children s) (kills s) (fg s) v (tty s) (stdin_eof s) (self_pid s) (shell_pgid s)
  (dispositions s).
Definition set_tty v s := mkSys (cwd s) (files s) (fds s) (out s) (err s) (npipes s) (forks s)
  (children s) (kills s) (fg s) (deliveries s) v (stdin_eof s) (self_pid s) (shell_pgid s)
  (dispositions s).
Definition set_stdin_eof v s := mkSys (cwd s) (files s) (fds s) (out s) (err s) (npipes s)
  (forks s) (children s) (kills s) (fg s) (deliveries s) (tty s) v (self_pid s) (shell_pgid s)
  (dispositions s).
Definition set_self_pid v s := mkSys (cwd s) (files s) (fds s) (out s) (err s) (npipes s)
  (forks s) (children s) (kills s) (fg s) (deliveries s) (tty s) (stdin_eof s) v (shell_pgid s)
  (dispositions s).
Definition set_shell_pgid v s := mkSys (cwd s) (files s) (fds s) (out s) (err s) (npipes s)
  (forks s) (children s) (kills s) (fg s) (deliveries s) (tty s) (stdin_eof s) (self_pid s) v
  (dispositions s).
Definition set_dispositions v s := mkSys (cwd s) (files s) (fds s) (out s) (err s) (npipes s)
  (forks s) (children s) (kills s) (fg s) (deliveries s) (tty s) (stdin_eof s) (self_pid s)
  (shell_pgid s) v.

(** ** Descriptors *)

(** The lowest descriptor from [n] on that is not open. *)
Fixpoint lowest_from (fuel n : nat) (t : gmap nat fdobj) : nat :=
  match fuel with
  | O => n
  | S fuel => match t !! n with None => n | Some _ => lowest_from fuel (S n) t end
  end.
Definition lowest_free (t : gmap nat fdobj) : nat := lowest_from (S (size t)) 0 t.

Definition alloc_fd (o : fdobj) : M sys nat := λ s,
  let n := lowest_free (fds s) in Some (n, set_fds (<[n := o]> (fds s)) s).
Definition close (fd : nat) : M sys unit := modify (λ s, set_fds (delete fd (fds s)) s).
Definition dup2 (old new : nat) : M sys unit := modify (λ s,
  match fds s !! old with
  | Some o => set_fds (<[new := o]> (fds s)) s
  | None => s
  end).

(** ** Files *)

Definition abspath (cwd name : list ascii) : list ascii :=
  match name with
  | c :: _ => if c =c "/" then name else cwd ++ "/"%char :: name
  | [] => cwd ++ ["/"%char]
  end.
Definition the_path (name : list ascii) : M sys (list ascii) := gets (λ s, abspath (cwd s) name).

Definition contents (p : list ascii) (s : sys) : list ascii := default [] (files s !! p).

(** [write] to the file at the absolute path [p]. *)
Definition append_file (p data : list ascii) : M sys unit :=
  modify (λ s, set_files (<[p := contents p s ++ data]> (files s)) s).

(** [unlink]. *)
Definition unlink (name : list ascii) : M sys unit :=
  p ← the_path name; modify (λ s, set_files (delete p (files s)) s).

Section posix.
Context `{Posix}.

(** [open(name, O_WRONLY | O_CREAT | (append ? O_APPEND : O_TRUNC))]: the
    descriptor and the absolute path, or [None] for [-1]. *)
Definition open_write (append : bool) (name : list ascii) : M sys (option (nat * list ascii)) :=
  p ← the_path name;
  if os_can_write p then
    modify (λ s, set_files (<[p := if append then contents p s else []]> (files s)) s);;
    fd ← alloc_fd (OFile p); mret (Some (fd, p))
  else mret None.

(** [open(name, O_RDONLY)]. *)
Definition open_read (name : list ascii) : M sys (option (nat * list ascii)) :=
  p ← the_path name;
  there ← gets (λ s, bool_decide (is_Some (files s !! p)));
  if there && os_can_read p then fd ← alloc_fd (OFile p); mret (Some (fd, p))
  else mret None.

End posix.

(** [sizeof(buf)] of the copy loops. *)
Definition CHUNK : nat := 4096.

Lemma CHUNK_pos : (0 < CHUNK)%nat.
Proof. apply Nat.lt_0_succ. Qed.

(** [while ((n = read(src, buf, sizeof(buf))) > 0) for each dst: write(dst, buf, n)],
    with [off] the read offset. The fuel is the size of the source. *)
Fixpoint copy_loop (fuel : nat) (src : list ascii) (off : nat) (dsts : list (list ascii))
  : M sys unit :=
  match fuel with
  | O => stuck
  | S fuel =>
    chunk ← gets (λ s, take CHUNK (drop off (contents src s)));
    match chunk with
    | [] => mret ()
    | _ => mfor dsts (λ d, append_file d chunk);;
           copy_loop fuel src (off + length chunk) dsts
    end
  end.
Definition copy_file (src : list ascii) (dsts : list (list ascii)) : M sys unit :=
  n ← gets (λ s, length (contents src s)); copy_loop (S n) src 0 dsts.

(** ** Output *)

(** [printf] followed by [fflush]: the text goes where descriptor 1 points. *)
Definition puts (text : list ascii) : M sys unit := modify (λ s,
  match fds s !! 1%nat with
  | Some (OFile p) => set_files (<[p := contents p s ++ text]> (files s)) s
  | Some OTty => set_out (out s ++ text) s
  | _ => s
  end).
Definition eputs (text : list ascii) : M sys unit := modify (λ s, set_err (err s ++ text) s).

Definition line (s : list ascii) : list ascii := s ++ [c_nl].

Definition perror `{Posix} (msg : list ascii) : M sys unit :=
  eputs (line (msg ++ lit ": " ++ os_error)).

(** [kill(pid, sig)]. *)
Definition send_signal (pid sig : Z) : M sys unit :=
  modify (λ s, set_kills (kills s ++ [(pid, sig)]) s).

(** Normal form of updated states: one update per field, outermost the last
    field changed in the order files, descriptors, errors. *)
Lemma set_fds_set_fds a b s : set_fds a (set_fds b s) = set_fds a s.
Proof. done. Qed.
Lemma set_files_set_files a b s : set_files a (set_files b s) = set_files a s.
Proof. done. Qed.
Lemma set_err_set_err a b s : set_err a (set_err b s) = set_err a s.
Proof. done. Qed.
Lemma set_files_set_fds a b s : set_files a (set_fds b s) = set_fds b (set_files a s).
Proof. done. Qed.
Lemma set_fds_set_err a b s : set_fds a (set_err b s) = set_err b (set_fds a s).
Proof. done. Qed.
Lemma set_files_set_err a b s : set_files a (set_err b s) = set_err b (set_files a s).
Proof. done. Qed.
Lemma set_fds_id s : set_fds (fds s) s = s.
Proof. by destruct s. Qed.
Lemma set_files_id s : set_files (files s) s = s.
Proof. by destruct s. Qed.
Lemma fds_set_files a s : fds (set_files a s) = fds s.
Proof. done. Qed.
Create HintDb sys.
#[export] Hint Rewrite set_fds_set_fds set_files_set_files set_err_set_err set_files_set_fds
  set_fds_set_err set_files_set_err set_fds_id set_files_id : sys.

(** Run an operation on a component of a larger state. *)
Definition zoom {S T A} (get : T → S) (put : S → T → T) (m : M S A) : M T A := λ t,
  match m (get t) with
  | Some (a, s) => Some (a, put s t)
  | None => None
  end.

(** ** Lemmas *)

Lemma lowest_from_spec fuel n t :
  (∀ m, (n ≤ m < n + fuel)%nat → is_Some (t !! m)) ∨ t !! lowest_from fuel n t = None.
Proof.
  revert n; induction fuel as [|fuel IH]; intros n; [left; lia|]. simpl.
  destruct (t !! n) as [o|] eqn:E; [|by right].
  destruct (IH (S n)) as [IH'|]; [left|by right].
  intros m Hm. destruct (decide (m = n)) as [->|]; [by rewrite E|]. apply IH'. lia.
Qed.

(** Allocation returns a descriptor that was closed. *)
Lemma lowest_free_closed t : t !! lowest_free t = None.
Proof.
  unfold lowest_free. destruct (lowest_from_spec (S (size t)) 0 t) as [Hall|]; [|done].
  assert (set_seq (C:=gset nat) 0 (S (size t)) ⊆ dom t) as Hsub.
  { intros m Hm%elem_of_set_seq. apply elem_of_dom. apply Hall. lia. }
  apply subseteq_size in Hsub. rewrite size_set_seq, size_dom in Hsub. lia.
Qed.

Lemma alloc_close o s n s1 :
  alloc_fd o s = Some (n, s1) → fds s !! n = None ∧ fds s1 = <[n := o]> (fds s) ∧
  set_fds (fds s) s1 = s.
Proof.
  intros [= <- <-]. split_and!; [apply lowest_free_closed|done|by destruct s].
Qed.

Lemma contents_insert p q c s :
  contents p (set_files (<[q := c]> (files s)) s) = if decide (q = p) then c else contents p s.
Proof. unfold contents. simpl. rewrite lookup_insert. by case_decide. Qed.

(** A state that differs from another in its files only. *)
Definition same_but_files (s s' : sys) : Prop := s' = set_files (files s') s.
Lemma same_but_files_refl s : same_but_files s s.
Proof. by destruct s. Qed.
Lemma same_but_files_trans s1 s2 s3 :
  same_but_files s1 s2 → same_but_files s2 s3 → same_but_files s1 s3.
Proof. unfold same_but_files. intros -> ->. done. Qed.

Lemma append_files_spec dsts data s :
  NoDup dsts →
  ∃ s', mfor dsts (λ d, append_file d data) s = Some ((), s') ∧ same_but_files s s' ∧
    ∀ p, files s' !! p = if decide (p ∈ dsts) then Some (contents p s ++ data) else files s !! p.
Proof.
  revert s; induction dsts as [|d dsts IH]; intros s Hnd.
  { exists s. split_and!; [done|apply same_but_files_refl|].
    intros p. rewrite decide_False; [done|apply not_elem_of_nil]. }
  apply NoDup_cons in Hnd as [Hd Hnd]. simpl.
  rewrite (bind_eq _ _ _ () (set_files (<[d := contents d s ++ data]> (files s)) s)) by done.
  destruct (IH (set_files (<[d:=contents d s ++ data]> (files s)) s) Hnd) as (s' & -> & E & Hp).
  exists s'. split_and!; [done|by rewrite E|]. intros p. rewrite Hp. simpl.
  rewrite contents_insert. destruct (decide (d = p)) as [->|Hne].
  - rewrite (decide_False (P := p ∈ dsts)), lookup_insert_eq, decide_True by set_solver. done.
  - rewrite lookup_insert_ne by done. destruct (decide (p ∈ dsts)).
    + rewrite decide_True by set_solver. done.
    + rewrite decide_False by set_solver. done.
Qed.

Lemma copy_loop_spec fuel src off dsts s :
  NoDup dsts → src ∉ dsts → (length (contents src s) - off < fuel)%nat →
  (∀ d, d ∈ dsts → is_Some (files s !! d)) →
  ∃ s', copy_loop fuel src off dsts s = Some ((), s') ∧ same_but_files s s' ∧
    ∀ p, files s' !! p =
      if decide (p ∈ dsts) then Some (contents p s ++ drop off (contents src s))
      else files s !! p.
Proof.
  revert off s; induction fuel as [|fuel IH]; intros off s Hnd Hsrc Hf Hd; [lia|].
  cbn [copy_loop]. rewrite (bind_eq _ _ _ (take CHUNK (drop off (contents src s))) s) by done.
  destruct (take CHUNK (drop off (contents src s))) as [|c chunk] eqn:Hch.
  { assert (drop off (contents src s) = []) as ->.
    { pose proof CHUNK_pos. destruct CHUNK; [lia|].
      destruct (drop off (contents src s)); [done|discriminate Hch]. }
    exists s. split_and!; [done|apply same_but_files_refl|]. intros p. case_decide as Hp; [|done].
    rewrite app_nil_r. destruct (Hd p Hp) as [x Hx]. unfold contents. by rewrite Hx. }
  set (k := c :: chunk) in *.
  destruct (append_files_spec dsts k s Hnd) as (s1 & E1 & Heq1 & H1).
  rewrite (bind_eq _ _ _ _ _ E1).
  assert (contents src s1 = contents src s) as Hsrc1.
  { unfold contents. by rewrite H1, decide_False. }
  assert (0 < length k ≤ length (contents src s) - off)%nat as Hk.
  { split; [simpl; lia|]. rewrite <-Hch, length_take, length_drop. lia. }
  destruct (IH (off + length k)%nat s1 Hnd Hsrc) as (s2 & E2 & Heq2 & H2).
  { rewrite Hsrc1. lia. }
  { intros d Hin. rewrite H1, decide_True by done. eauto. }
  exists s2. split_and!; [done|by eapply same_but_files_trans|]. intros p. rewrite H2.
  case_decide as Hp; [|by rewrite H1, decide_False].
  unfold contents at 1. rewrite H1, decide_True by done. simpl. rewrite Hsrc1. f_equal.
  rewrite <-app_assoc. f_equal. rewrite <-drop_drop.
  change (S (length chunk)) with (length k). rewrite <-Hch, drop_length_take.
  apply take_drop.
Qed.

(** The copy loop ends and appends the source, byte for byte, to each
    destination, whatever the chunk boundaries. *)
Lemma copy_file_spec src dsts s :
  NoDup dsts → src ∉ dsts → (∀ d, d ∈ dsts → is_Some (files s !! d)) →
  ∃ s', copy_file src dsts s = Some ((), s') ∧ same_but_files s s' ∧
    ∀ p, files s' !! p =
      if decide (p ∈ dsts) then Some (contents p s ++ contents src s) else files s !! p.
Proof.
  intros Hnd Hsrc Hd. unfold copy_file.
  rewrite (bind_eq _ _ _ (length (contents src s)) s) by done.
  apply copy_loop_spec; [done..|lia|done].
Qed.

(** The loop ends as long as the source is not one of the destinations, even
    when a destination is listed twice. *)
Lemma append_files_total src dsts data s :
  src ∉ dsts →
  ∃ s', mfor dsts (λ d, append_file d data) s = Some ((), s') ∧ same_but_files s s' ∧
    files s' !! src = files s !! src.
Proof.
  intros Hsrc.
  apply (mfor_inv (λ s', same_but_files s s' ∧ files s' !! src = files s !! src)).
  { split; [apply same_but_files_refl|done]. }
  intros d s1 Hd [H1 H2]. eexists. split; [reflexivity|]. split.
  - eapply same_but_files_trans; [exact H1|done].
  - simpl. rewrite lookup_insert_ne; [done|]. by intros ->.
Qed.

Lemma copy_loop_total fuel src off dsts s :
  src ∉ dsts → (length (contents src s) - off < fuel)%nat →
  ∃ s', copy_loop fuel src off dsts s = Some ((), s') ∧ same_but_files s s'.
Proof.
  revert off s; induction fuel as [|fuel IH]; intros off s Hsrc Hf; [lia|].
  cbn [copy_loop]. rewrite (bind_eq _ _ _ (take CHUNK (drop off (contents src s))) s) by done.
  destruct (take CHUNK (drop off (contents src s))) as [|c chunk] eqn:Hch.
  { exists s. split; [done|apply same_but_files_refl]. }
  set (k := c :: chunk) in *.
  destruct (append_files_total src dsts k s Hsrc) as (s1 & E1 & Heq1 & H1).
  rewrite (bind_eq _ _ _ _ _ E1).
  assert (0 < length k ≤ length (contents src s) - off)%nat as Hk.
  { split; [simpl; lia|]. rewrite <-Hch, length_take, length_drop. lia. }
  destruct (IH (off + length k)%nat s1 Hsrc) as (s2 & E2 & Heq2).
  { unfold contents in *. rewrite H1. lia. }
  exists s2. split; [done|by eapply same_but_files_trans].
Qed.

Lemma copy_file_total src dsts s :
  src ∉ dsts → ∃ s', copy_file src dsts s = Some ((), s') ∧ same_but_files s s'.
Proof.
  intros Hsrc. unfold copy_file. rewrite (bind_eq _ _ _ (length (contents src s)) s) by done.
  apply copy_loop_total; [done|lia].
Qed.

(** ** Opening and closing *)

Section open_close.
Context `{Posix}.

Lemma open_write_spec append name s :
  let p := abspath (cwd s) name in
  os_can_write p = true →
  ∃ fd, open_write append name s =
    Some (Some (fd, p),
      set_fds (<[fd := OFile p]> (fds s))
        (set_files (<[p := if append then contents p s else []]> (files s)) s)) ∧
    fds s !! fd = None.
Proof.
  intros p Hw. exists (lowest_free (fds s)). split; [|apply lowest_free_closed].
  unfold open_write. rewrite (bind_eq _ _ _ p s) by done. rewrite Hw. done.
Qed.

Lemma open_read_spec name s :
  let p := abspath (cwd s) name in
  is_Some (files s !! p) → os_can_read p = true →
  ∃ fd, open_read name s = Some (Some (fd, p), set_fds (<[fd := OFile p]> (fds s)) s) ∧
    fds s !! fd = None.
Proof.
  intros p Hf Hr. exists (lowest_free (fds s)). split; [|apply lowest_free_closed].
  unfold open_read. rewrite (bind_eq _ _ _ p s) by done.
  rewrite (bind_eq _ _ _ (bool_decide (is_Some (files s !! p))) s) by done.
  rewrite bool_decide_true by done. by rewrite Hr.
Qed.

Lemma open_read_missing name s :
  files s !! abspath (cwd s) name = None → open_read name s = Some (None, s).
Proof.
  intros Hf. unfold open_read. rewrite (bind_eq _ _ _ (abspath (cwd s) name) s) by done.
  rewrite (bind_eq _ _ _ (bool_decide (is_Some (files s !! abspath (cwd s) name))) s) by done.
  rewrite bool_decide_false; [done|]. rewrite Hf. apply is_Some_None.
Qed.

(** Opening for reading never changes anything but the descriptor table. *)
Lemma open_read_Some name s r s' :
  open_read name s = Some (r, s') →
  s' = set_fds (fds s') s ∧
  match r with
  | Some (fd, p) => p = abspath (cwd s) name ∧ fds s !! fd = None ∧
                    fds s' = <[fd := OFile p]> (fds s) ∧ is_Some (files s !! p)
  | None => s' = s
  end.
Proof.
  unfold open_read. rewrite (bind_eq _ _ _ (abspath (cwd s) name) s) by done.
  rewrite (bind_eq _ _ _ (bool_decide (is_Some (files s !! abspath (cwd s) name))) s) by done.
  destruct (bool_decide _ && os_can_read _) eqn:E.
  - intros [= <- <-]. apply andb_true_iff in E as [E%bool_decide_eq_true _].
    split_and!; [done|done|apply lowest_free_closed|done|done].
  - intros [= <- <-]. by destruct s.
Qed.

Lemma close_all l s :
  mfor l close s = Some ((), set_fds (foldr delete (fds s) l) s).
Proof.
  revert s; induction l as [|fd l IH]; intros s; simpl; [by destruct s|].
  rewrite (bind_eq _ _ _ () (set_fds (delete fd (fds s)) s)) by done. rewrite IH. simpl.
  assert (foldr delete (delete fd (fds s)) l = delete fd (foldr delete (fds s) l)) as ->; [|done].
  clear IH. induction l as [|x l IH]; simpl; [done|]. rewrite IH. apply delete_delete.
Qed.

End open_close.

(** ** A concrete environment, for the examples

    Everything may be read and written but [/ro]; there is one directory
    [/h/d] below the home [/h], and [/bin/ls] and [/h/prog] are executable. *)
Definition demo_posix : Posix := {|
  os_stat c n :=
    let p := abspath c n in
    if (p =s lit "/h") || (p =s lit "/h/d") || (p =s lit "/h/.") || (p =s lit "/") then Some S_IFDIR
    else if (p =s lit "/bin/ls") || (p =s lit "/h/prog") || (p =s lit "/h/a") || (p =s lit "/h/b")
    then Some S_IFREG else None;
  os_lstat c n :=
    let p := abspath c n in
    if (p =s lit "/h") || (p =s lit "/h/d") || (p =s lit "/h/./d") then Some S_IFDIR else Some S_IFREG;
  os_access_x c n :=
    let p := abspath c n in (p =s lit "/bin/ls") || (p =s lit "/h/prog");
  os_realpath c n := Some (abspath c n);
  os_chdir c n :=
    let p := abspath c n in
    if p =s lit "/h/.." then Some (lit "/")
    else if p =s lit "/h/d/.." then Some (lit "/h")
    else if (p =s lit "/h") || (p =s lit "/h/d") || (p =s lit "/") then Some p else None;
  os_readdir c n :=
    let p := abspath c n in
    if (p =s lit "/h") || (p =s lit "/h/.") then
      Some (lit <$> ["prog"; ".hidden"; "d"; ".."; "."; "b"; "a"]%string)
    else if (p =s lit "/h/d") || (p =s lit "/h/./d") then Some (lit <$> ["."; "x y"; ".."]%string)
    else None;
  os_readlink n := LinkError;
  os_getenv v := if v =s lit "PATH" then Some (lit "/usr/bin::/bin") else Some (lit "/h");
  os_can_read p := true;
  os_can_write p := negb (p =s lit "/ro");
  os_error := lit "error";
|}.

Definition demo_sys : sys := {|
  cwd := lit "/h";
  files := {[ lit "/h/a" := lit "one"; lit "/h/b" := lit "two" ]};
  fds := {[ 0%nat := OTty; 1%nat := OTty; 2%nat := OTty ]};
  out := []; err := []; npipes := 0; forks := [101; 102; 103; 104]; children := [];
  kills := []; fg := 100; deliveries := []; tty := []; stdin_eof := false;
  self_pid := 100; shell_pgid := 100; dispositions := [];
|}.
