(* ===== verification/Resolver.v ===== *)
(** Finding commands: [c-shell/src/resolver.c] and [c-shell/src/locate.c].

    Both look in the current directory and then in the directories of [PATH];
    [resolve_command_path] returns the first executable, [run_locate] prints
    every one. *)
From S2P Require Import Prelude CLib Lexer Sys.

(** [getcwd(buf, size)]: fails when the path does not fit. *)
Definition getcwd (size : nat) (s : sys) : option (list ascii) :=
  if decide (length (cwd s) < size)%nat then Some (cwd s) else None.

Section code.
Context `{Posix}.

(** [is_exe] of resolver.c; [is_executable] of locate.c is the same test. *)
Definition is_exe (path : list ascii) (s : sys) : bool :=
  bool_decide (os_stat (cwd s) path = Some S_IFREG) && os_access_x (cwd s) path.

(** [snprintf(full_path, sizeof(full_path), "%s/%s", dir, cmd)]. *)
Definition full_path (dir cmd : list ascii) : list ascii :=
  snprintf 8192 (dir ++ "/"%char :: cmd).

(** The loop over [strtok(path_copy, ":")]. *)
Fixpoint search_path (dirs : list (list ascii)) (cmd : list ascii) (s : sys) : option (list ascii) :=
  match dirs with
  | [] => None
  | dir :: rest =>
    if is_exe (full_path dir cmd) s then Some (full_path dir cmd) else search_path rest cmd s
  end.

Definition path_dirs : list (list ascii) :=
  match os_getenv (lit "PATH") with
  | Some env => strtok_all ":" env
  | None => []
  end.

Definition resolve_command_path (cmd : list ascii) (s : sys) : option (list ascii) :=
  if strchr cmd "/" then if is_exe cmd s then Some cmd else None
  else
    let skip_cwd := char_at cmd 0 =c "%" in
    let search_cmd := if skip_cwd then drop 1 cmd else cmd in
    let in_cwd :=
      if skip_cwd then None
      else
        match getcwd 4096 s with
        | Some d => if is_exe (full_path d search_cmd) s then Some (full_path d search_cmd) else None
        | None => None
        end in
    match in_cwd with
    | Some p => Some p
    | None => search_path path_dirs search_cmd s
    end.

(** [run_locate] for one command: the loop over [PATH] prints as it goes;
    [found] is the flag of the code. *)
Fixpoint locate_path (dirs : list (list ascii)) (cmd : list ascii) (found : bool) : M sys bool :=
  match dirs with
  | [] => mret found
  | dir :: rest =>
    e ← gets (is_exe (full_path dir cmd));
    if e : bool then puts (line (full_path dir cmd));; locate_path rest cmd true
    else locate_path rest cmd found
  end.

Definition locate_one (cmd : list ascii) : M sys unit :=
  c ← gets (getcwd 4096);
  found ← match c with
          | Some d =>
            e ← gets (is_exe (full_path d cmd));
            if e : bool then puts (line (full_path d cmd));; mret true else mret false
          | None => mret false
          end;
  found ← locate_path path_dirs cmd found;
  if found : bool then mret ()
  else eputs (line (lit "locate: command not found (" ++ cmd ++ lit ")")).

Definition run_locate (tokens : list Token) : M sys unit :=
  match tail tokens with
  | [] => eputs (line (lit "locate: invalid syntax"))
  | args => mfor args (λ t, locate_one (value t))
  end.

(** ** The search order *)

(** Where a plain command name is looked for, in order. *)
Definition candidates (cmd : list ascii) (s : sys) : list (list ascii) :=
  (λ d, full_path d cmd) <$> (option_list (getcwd 4096 s) ++ path_dirs).
Definition located (cmd : list ascii) (s : sys) : list (list ascii) :=
  filter (λ p, is_exe p s = true) (candidates cmd s).

Lemma search_path_first dirs cmd s :
  search_path dirs cmd s = head (filter (λ p, is_exe p s = true) ((λ d, full_path d cmd) <$> dirs)).
Proof.
  induction dirs as [|d dirs IH]; [done|]. rewrite fmap_cons, filter_cons. simpl.
  destruct (is_exe (full_path d cmd) s) eqn:E; [by rewrite decide_True|by rewrite decide_False].
Qed.

(** A name without a slash, not marked with [%], runs the first of the
    located files. *)
Lemma resolve_plain cmd s :
  strchr cmd "/" = false → (char_at cmd 0 =c "%") = false →
  resolve_command_path cmd s = head (located cmd s).
Proof.
  intros Hs Hp. unfold resolve_command_path, located, candidates. rewrite Hs, Hp. cbv zeta iota.
  rewrite search_path_first. destruct (getcwd 4096 s) as [d|]; simpl; [|done].
  rewrite filter_cons. destruct (is_exe (full_path d cmd) s) eqn:E.
  - by rewrite decide_True.
  - by rewrite decide_False.
Qed.

(** [%cmd] skips the current directory. *)
Lemma resolve_percent cmd s :
  strchr cmd "/" = false →
  resolve_command_path ("%"%char :: cmd) s =
  head (filter (λ p, is_exe p s = true) ((λ d, full_path d cmd) <$> path_dirs)).
Proof.
  intros Hs. unfold resolve_command_path. simpl strchr. rewrite Hs. simpl. by rewrite drop_0, search_path_first.
Qed.

(** Printing to the terminal. *)
Definition printed (text : list ascii) (s : sys) : sys := set_out (out s ++ text) s.
Lemma puts_tty text s : fds s !! 1%nat = Some OTty → puts text s = Some ((), printed text s).
Proof. intros E. unfold puts, modify. by rewrite E. Qed.
Lemma printed_printed a b s : printed b (printed a s) = printed (a ++ b) s.
Proof. unfold printed. simpl. by rewrite app_assoc. Qed.
Lemma printed_nil s : printed [] s = s.
Proof. unfold printed. rewrite app_nil_r. by destruct s. Qed.

Definition unlines (ls : list (list ascii)) : list ascii := mjoin (line <$> ls).

Lemma is_exe_printed p text s : is_exe p (printed text s) = is_exe p s.
Proof. done. Qed.

Lemma locate_path_spec dirs cmd found s :
  fds s !! 1%nat = Some OTty →
  let hits := filter (λ p, is_exe p s = true) ((λ d, full_path d cmd) <$> dirs) in
  locate_path dirs cmd found s =
  Some (found || negb (bool_decide (hits = [])), printed (unlines hits) s).
Proof.
  revert found s; induction dirs as [|d dirs IH]; intros found s Hfd hits.
  { simpl. rewrite printed_nil. by destruct found. }
  unfold hits. rewrite fmap_cons, filter_cons. cbn [locate_path].
  rewrite (bind_eq _ _ _ (is_exe (full_path d cmd) s) s) by done.
  destruct (is_exe (full_path d cmd) s) eqn:E.
  - rewrite (bind_eq _ _ _ _ _ (puts_tty _ _ Hfd)), IH by done. rewrite decide_True by done.
    rewrite printed_printed. cbn. f_equal. f_equal. by destruct found.
  - rewrite IH by done. by rewrite decide_False.
Qed.

Lemma locate_one_spec cmd s :
  fds s !! 1%nat = Some OTty →
  locate_one cmd s = Some ((),
    let s1 := printed (unlines (located cmd s)) s in
    if decide (located cmd s = [])
    then set_err (err s ++ line (lit "locate: command not found (" ++ cmd ++ lit ")")) s1
    else s1).
Proof.
  intros Hfd. unfold locate_one. rewrite (bind_eq _ _ _ (getcwd 4096 s) s) by done.
  set (here := filter (λ p, is_exe p s = true)
                 ((λ d, full_path d cmd) <$> option_list (getcwd 4096 s))).
  rewrite (bind_eq _ _ _ (negb (bool_decide (here = []))) (printed (unlines here) s)).
  2:{ unfold here. destruct (getcwd 4096 s) as [d|]; [|simpl; by rewrite printed_nil].
      rewrite (bind_eq _ _ _ (is_exe (full_path d cmd) s) s) by done. simpl.
      rewrite filter_cons. destruct (is_exe (full_path d cmd) s) eqn:E.
      - rewrite (bind_eq _ _ _ _ _ (puts_tty _ _ Hfd)). rewrite decide_True by done.
        unfold unlines. simpl. by rewrite app_nil_r.
      - rewrite decide_False by done. simpl. by rewrite printed_nil. }
  rewrite (bind_eq _ _ _ _ _ (locate_path_spec path_dirs cmd _ (printed (unlines here) s) Hfd)).
  assert (located cmd s = here ++ filter (λ p, is_exe p s = true)
            ((λ d, full_path d cmd) <$> path_dirs)) as ->.
  { unfold located, candidates. by rewrite fmap_app, filter_app. }
  set (rest := filter _ ((λ d, full_path d cmd) <$> path_dirs)).
  rewrite printed_printed. unfold unlines. rewrite fmap_app, join_app.
  destruct here as [|h here']; [|by rewrite bool_decide_false, decide_False by done].
  rewrite bool_decide_true by done. cbn [app negb orb].
  destruct (decide (rest = [])) as [->|Hne]; [done|]. by rewrite bool_decide_false by done.
Qed.

(** [locate] prints, for each argument, every executable of that name in
    the current directory and along [PATH], in search order, or reports that
    there is none; and the command the shell runs for a plain name is the
    first line [locate] prints for it. *)
Theorem locate_agrees_with_resolver cmd s :
  fds s !! 1%nat = Some OTty →
  (∃ s', locate_one cmd s = Some ((), s') ∧ out s' = out s ++ unlines (located cmd s) ∧
     err s' = (if decide (located cmd s = [])
               then err s ++ line (lit "locate: command not found (" ++ cmd ++ lit ")") else err s)) ∧
  (strchr cmd "/" = false → (char_at cmd 0 =c "%") = false →
     resolve_command_path cmd s = head (located cmd s)).
Proof.
  intros Hfd. split; [|apply resolve_plain].
  eexists. split; [by apply locate_one_spec|]. by case_decide.
Qed.

End code.

Lemma locate_agrees_with_resolver_witness :
  fds demo_sys !! 1%nat = Some OTty ∧
  @located demo_posix (lit "ls") demo_sys = [lit "/bin/ls"] ∧
  (∃ s', @locate_one demo_posix (lit "ls") demo_sys = Some ((), s') ∧
     out s' = out demo_sys ++ unlines (@located demo_posix (lit "ls") demo_sys) ∧
     err s' = (if decide (@located demo_posix (lit "ls") demo_sys = [])
               then err demo_sys ++ line (lit "locate: command not found (" ++ lit "ls" ++ lit ")")
               else err demo_sys)) ∧
  (strchr (lit "ls") "/" = false → (char_at (lit "ls") 0 =c "%") = false →
     @resolve_command_path demo_posix (lit "ls") demo_sys =
     head (@located demo_posix (lit "ls") demo_sys)).
Proof.
  split; [done|]. split; [by vm_compute|].
  exact (@locate_agrees_with_resolver demo_posix (lit "ls") demo_sys eq_refl).
Defined.
