(* ===== verification/Hop.v ===== *)
(** Changing directory and the frecency database: [c-shell/src/hop.c].

    The database is a text file of lines "visits last path" that is read and
    rewritten as a whole. Scores are doubles in the code; a count times a
    power of two is exact, so a score is kept in quarters as an integer, with
    the conversion of the count to a double written out ([to_double]). *)
From S2P Require Import Prelude CLib Lexer Sys Resolver.

Definition MAX_ENTRIES : nat := 256.
Definition PATH_MAX : nat := 4096.

Record FrecencyEntry := mkEntry { e_path : list ascii; visits : Z; last_access : Z }.
#[export] Instance FrecencyEntry_eq_dec : EqDecision FrecencyEntry.
Proof. solve_decision. Defined.

(** The static variables of hop.c and prompt.c with the system; [now] is what
    [time(NULL)] returns during the command. *)
Record hstate := mkHstate { h_sys : sys; shell_home : list ascii; prev_dir : list ascii; now : Z }.
Definition put_hsys (s : sys) (h : hstate) : hstate := mkHstate s (shell_home h) (prev_dir h) (now h).
Definition set_prev_dir (d : list ascii) (h : hstate) : hstate :=
  mkHstate (h_sys h) (shell_home h) d (now h).
Definition hsys {A} : M sys A → M hstate A := zoom h_sys put_hsys.

(** ** Reading and writing the database *)

(** [fgets(line, size, fp)]: the line and what is left of the file. *)
Fixpoint fgets_go (n : nat) (s : list ascii) : list ascii * list ascii :=
  match n, s with
  | S n, c :: s' => if c =c c_nl then ([c], s') else let '(l, r) := fgets_go n s' in (c :: l, r)
  | _, _ => ([], s)
  end.
Definition fgets (size : nat) (s : list ascii) : option (list ascii * list ascii) :=
  match s with [] => None | _ => Some (fgets_go (size - 1) s) end.

(** [%ld] of [sscanf]: the number and the rest, if there is a number. *)
Definition scan_ld (s : list ascii) : option (Z * list ascii) :=
  let '(v, rest) := strtol s in
  if decide (length rest < length s)%nat then Some (v, rest) else None.

(** [sscanf(line, "%ld %ld %[^\n]", &visits, &last, path)]: [Some None] when
    fewer than three items match; [None] when [path[PATH_MAX]] overflows. *)
Definition scan_entry (l : list ascii) : option (option FrecencyEntry) :=
  match scan_ld l with
  | None => Some None
  | Some (v, r1) =>
    match scan_ld (drop_while isspace r1) with
    | None => Some None
    | Some (t, r2) =>
      let p := take_while (λ c, negb (c =c c_nl)) (drop_while isspace r2) in
      if decide (p = []) then Some None
      else if decide (length p < PATH_MAX)%nat
      then Some (Some (mkEntry (strncpy_nul PATH_MAX p) v t))
      else None
    end
  end.

(** The loop of [load_entries]; every round reads at least one character, so
    the length of the file is fuel enough ([load_loop_fuel]). *)
Fixpoint load_loop (fuel : nat) (text : list ascii) (entries : list FrecencyEntry)
  : option (list FrecencyEntry) :=
  match fuel with
  | O => None
  | S fuel =>
    if decide (length entries < MAX_ENTRIES)%nat then
      match fgets (PATH_MAX + 64) text with
      | None => Some entries
      | Some (l, rest) =>
        match scan_entry (cstring l) with
        | None => None
        | Some None => load_loop fuel rest entries
        | Some (Some e) => load_loop fuel rest (entries ++ [e])
        end
      end
    else Some entries
  end.
Definition parse_db (text : list ascii) : option (list FrecencyEntry) :=
  load_loop (S (length text)) text [].

Definition format_entry (e : FrecencyEntry) : list ascii :=
  line (itoa (visits e) ++ lit " " ++ itoa (last_access e) ++ lit " " ++ e_path e).
Definition format_db (es : list FrecencyEntry) : list ascii := mjoin (format_entry <$> es).

Section code.
Context `{Posix}.

Definition frecency_db_path : list ascii :=
  snprintf PATH_MAX (default (lit "/tmp") (os_getenv (lit "HOME")) ++ lit "/.cshell_frecency").

Definition load_entries : M sys (list FrecencyEntry) :=
  r ← open_read frecency_db_path;
  match r with
  | None => mret []
  | Some (fd, p) =>
    text ← gets (contents p);
    close fd;;
    match parse_db text with Some es => mret es | None => stuck end
  end.

Definition save_entries (es : list FrecencyEntry) : M sys unit :=
  r ← open_write false frecency_db_path;
  match r with
  | None => mret ()
  | Some (fd, p) => append_file p (format_db es);; close fd
  end.

(** ** Visits *)

(** The update [record_visit] makes to the entries; [visits += 1] on
    [LONG_MAX] overflows. *)
Definition add_visit (dir : list ascii) (t : Z) (es : list FrecencyEntry)
  : option (list FrecencyEntry) :=
  match index_of (λ e, e_path e =s dir) es with
  | Some i =>
    match es !! i with
    | Some e =>
      if visits e <? LONG_MAX then Some (<[i := mkEntry (e_path e) (visits e + 1) t]> es) else None
    | None => None
    end
  | None =>
    if decide (length es < MAX_ENTRIES)%nat
    then Some (es ++ [mkEntry (strncpy_nul PATH_MAX dir) 1 t])
    else Some es
  end.

Definition record_visit (dir : list ascii) (t : Z) : M sys unit :=
  es ← load_entries;
  match add_visit dir t es with
  | Some es' => save_entries es'
  | None => stuck
  end.

(** ** Scores *)

(** [(double)n] for a 64-bit [n]: rounded to 53 significant bits, ties to even. *)
Definition to_double (n : Z) : Z :=
  let a := Z.abs n in
  if a <? 2 ^ 53 then n
  else
    let k := Z.log2 a - 52 in
    let q := a / 2 ^ k in
    let r := a mod 2 ^ k in
    let up := (2 ^ (k - 1) <? r) || ((2 ^ (k - 1) =? r) && Z.odd q) in
    Z.sgn n * ((if up then q + 1 else q) * 2 ^ k).

(** [score_of], in quarters: the multipliers are 4, 2, 0.5 and 0.25. *)
Definition score_of (v last t : Z) : Z :=
  let age_secs := t - last in
  let multiplier :=
    if age_secs <? 3600 then 16
    else if age_secs <? 86400 then 8
    else if age_secs <? 604800 then 2
    else 1 in
  to_double v * multiplier.

(** The loop of [frecency_lookup]; [best] starts as [None] with the score
    [-1.0]. *)
Fixpoint best_entry (name : list ascii) (t : Z) (es : list FrecencyEntry)
    (best : option FrecencyEntry) (best_score : Z) (s : sys) : option FrecencyEntry :=
  match es with
  | [] => best
  | e :: rest =>
    if negb (strstr (e_path e) name) then best_entry name t rest best best_score s
    else if negb (bool_decide (os_stat (cwd s) (e_path e) = Some S_IFDIR))
    then best_entry name t rest best best_score s
    else
      let sc := score_of (visits e) (last_access e) t in
      if best_score <? sc then best_entry name t rest (Some e) sc s
      else best_entry name t rest best best_score s
  end.

Definition frecency_lookup (name : list ascii) (t : Z) : M sys (option (list ascii)) :=
  es ← load_entries;
  s ← gets id;
  mret (strncpy_nul PATH_MAX ∘ e_path <$> best_entry name t es None (-4) s).

(** ** Moving *)

Definition resolve_direct (name : list ascii) (s : sys) : option (list ascii) :=
  if bool_decide (os_stat (cwd s) name = Some S_IFDIR) then os_realpath (cwd s) name else None.

Definition no_such_directory : M hstate bool :=
  hsys (eputs (line (lit "hop: no such directory")));; mret false.

Definition do_chdir (target : list ascii) : M hstate bool :=
  old_cwd ← gets (λ h, default [] (getcwd PATH_MAX (h_sys h)));
  r ← gets (λ h, os_chdir (cwd (h_sys h)) target);
  match r with
  | None => no_such_directory
  | Some d =>
    hsys (modify (set_cwd d));;
    new_cwd ← gets (λ h, getcwd PATH_MAX (h_sys h));
    t ← gets now;
    match new_cwd with
    | Some c => hsys (record_visit c t)
    | None => mret ()
    end;;
    when (negb (old_cwd =s [])) (modify (set_prev_dir (strncpy_nul PATH_MAX old_cwd)));;
    mret true
  end.

Definition hop_one (arg : list ascii) : M hstate bool :=
  if arg =s lit "." then mret true
  else if arg =s lit "~" then d ← gets shell_home; do_chdir d
  else if arg =s lit ".." then
    c ← gets (λ h, getcwd PATH_MAX (h_sys h));
    match c with
    | None => mret true
    | Some d => if d =s lit "/" then mret true else do_chdir (lit "..")
    end
  else if arg =s lit "-" then
    d ← gets prev_dir;
    if d =s [] then mret true else do_chdir d
  else
    r ← gets (λ h, resolve_direct arg (h_sys h));
    match r with
    | Some d => do_chdir d
    | None =>
      t ← gets now;
      f ← hsys (frecency_lookup arg t);
      match f with
      | Some d => do_chdir d
      | None => no_such_directory
      end
    end.

Fixpoint hop_args (args : list Token) : M hstate unit :=
  match args with
  | [] => mret ()
  | a :: rest => ok ← hop_one (value a); if ok : bool then hop_args rest else mret ()
  end.

Definition run_hop (tokens : list Token) : M hstate unit :=
  match tail tokens with
  | [] => _ ← hop_one (lit "~"); mret ()
  | args => hop_args args
  end.
End code.

(** ** The database round trip *)

(** An entry the format can carry: a path that starts with a character other
    than a blank, contains no newline and no NUL and fits its buffer, and two
    [long] values. *)
Definition entry_ok (e : FrecencyEntry) : Prop :=
  match e_path e with [] => False | c :: _ => isspace c = false end ∧
  Forall (λ c, c ≠ c_nl ∧ c ≠ c_nul) (e_path e) ∧ (length (e_path e) < PATH_MAX)%nat ∧
  LONG_MIN ≤ visits e ≤ LONG_MAX ∧ LONG_MIN ≤ last_access e ≤ LONG_MAX.

#[export] Instance entry_ok_dec e : Decision (entry_ok e).
Proof. unfold entry_ok. destruct (e_path e); apply _. Defined.

Lemma fgets_go_line n l rest :
  Forall (λ c, c ≠ c_nl) l → (length l < n)%nat →
  fgets_go n (l ++ c_nl :: rest) = (l ++ [c_nl], rest).
Proof.
  revert n; induction l as [|c l IH]; intros [|n] Hl Hn; simpl in *; [lia|done|lia|].
  apply Forall_cons in Hl as [Hc Hl]. apply ceq_false in Hc. rewrite Hc.
  by rewrite IH by (done || lia).
Qed.

Lemma fgets_go_app n s : (fgets_go n s).1 ++ (fgets_go n s).2 = s.
Proof.
  revert n; induction s as [|c s IH]; intros [|n]; simpl; [done..|].
  destruct (c =c c_nl); [done|]. specialize (IH n). destruct (fgets_go n s). simpl in *. congruence.
Qed.

Lemma fgets_shrinks size s l rest :
  (1 < size)%nat → fgets size s = Some (l, rest) → (length rest < length s)%nat.
Proof.
  intros Hs. destruct s as [|c s]; [done|]. unfold fgets. destruct (size - 1)%nat as [|n] eqn:E; [lia|].
  intros [= H]. pose proof (fgets_go_app n s) as Ha. simpl in H.
  destruct (c =c c_nl); [injection H as <- <-; simpl; lia|].
  destruct (fgets_go n s) as [l' r'] eqn:El. injection H as <- <-. simpl in *.
  rewrite <-Ha, length_app. lia.
Qed.

(** More fuel than the length of the text never changes the result. *)
Lemma load_loop_fuel f1 f2 text es :
  (length text < f1)%nat → (f1 ≤ f2)%nat → load_loop f1 text es = load_loop f2 text es.
Proof.
  revert f2 text es; induction f1 as [|f1 IH]; intros f2 text es Hl Hle; [lia|].
  destruct f2 as [|f2]; [lia|]. cbn [load_loop]. case_decide; [|done].
  destruct (fgets (PATH_MAX + 64) text) as [[l rest]|] eqn:E; [|done].
  apply fgets_shrinks in E; [|unfold PATH_MAX; lia].
  destruct (scan_entry (cstring l)) as [[e|]|]; [..|done]; apply IH; lia.
Qed.

Lemma scan_ld_itoa z rest :
  LONG_MIN ≤ z ≤ LONG_MAX → match rest with [] => True | c :: _ => isdigit c = false end →
  scan_ld (itoa z ++ rest) = Some (z, rest).
Proof.
  intros Hz Hr. unfold scan_ld. rewrite strtol_itoa by done. rewrite decide_True; [done|].
  destruct (itoa_cons z) as (c & s & -> & _). rewrite length_app. simpl. lia.
Qed.

Lemma format_line_ok e :
  entry_ok e → no_nul (format_entry e) ∧ (length (format_entry e) < PATH_MAX + 64)%nat ∧
  Forall (λ c, c ≠ c_nl)
    (itoa (visits e) ++ lit " " ++ itoa (last_access e) ++ lit " " ++ e_path e).
Proof.
  intros (_ & Hp & Hlen & Hv & Ht).
  assert (∀ z, Forall (λ c, c ≠ c_nl ∧ c ≠ c_nul) (itoa z)) as Hi.
  { intros z. eapply Forall_impl; [apply itoa_chars|]. by intros c [Hd| ->]; split; try intros ->. }
  assert (Forall (λ c, c ≠ c_nl ∧ c ≠ c_nul)
    (itoa (visits e) ++ lit " " ++ itoa (last_access e) ++ lit " " ++ e_path e)) as Hall.
  { rewrite !Forall_app. split_and!; try done; by repeat constructor. }
  split_and!.
  - unfold format_entry, line, no_nul. apply Forall_app. split; [|by repeat constructor].
    eapply Forall_impl; [exact Hall|]. by intros c [_ ?].
  - pose proof (itoa_length _ Hv). pose proof (itoa_length _ Ht).
    unfold format_entry, line. rewrite !length_app. change (length (lit " ")) with 1%nat.
    change (length [c_nl]) with 1%nat. lia.
  - eapply Forall_impl; [exact Hall|]. by intros c [? _].
Qed.

Lemma scan_format e : entry_ok e → scan_entry (format_entry e) = Some (Some e).
Proof.
  intros (Hh & Hp & Hlen & Hv & Ht). unfold format_entry, line, scan_entry.
  rewrite <-!app_assoc, scan_ld_itoa by done.
  change (lit " ") with [" "%char]. cbn [app].
  assert (∀ r, drop_while isspace (" "%char :: itoa (last_access e) ++ r) = itoa (last_access e) ++ r) as Hd.
  { intros r. destruct (itoa_cons (last_access e)) as (c & s & -> & Hc). simpl. by rewrite Hc. }
  rewrite Hd, scan_ld_itoa by done.
  destruct e as [path v t]. simpl in *. destruct path as [|c path]; [done|].
  change (drop_while isspace (" "%char :: (c :: path) ++ [c_nl])) with
    (drop_while isspace ((c :: path) ++ [c_nl])).
  replace (drop_while isspace ((c :: path) ++ [c_nl])) with ((c :: path) ++ [c_nl])
    by (cbn [app drop_while]; by rewrite Hh).
  replace (take_while _ ((c :: path) ++ [c_nl])) with (c :: path).
  - rewrite decide_False, decide_True by done. unfold strncpy_nul. rewrite take_ge; [done|]. lia.
  - rewrite take_while_app.
    + simpl. by rewrite app_nil_r.
    + eapply Forall_impl; [exact Hp|]. intros d [Hd' _]. apply ceq_false in Hd'. by rewrite Hd'.
Qed.

Lemma load_loop_format fuel es acc :
  Forall entry_ok es → (length acc + length es ≤ MAX_ENTRIES)%nat →
  (length (format_db es) < fuel)%nat → load_loop fuel (format_db es) acc = Some (acc ++ es).
Proof.
  revert fuel acc; induction es as [|e es IH]; intros fuel acc Hes Hlen Hf.
  { destruct fuel; [simpl in Hf; lia|]. simpl. rewrite app_nil_r. by case_decide. }
  apply Forall_cons in Hes as [He Hes]. destruct fuel as [|fuel]; [simpl in Hf; lia|].
  simpl in Hlen. cbn [load_loop]. rewrite decide_True by lia.
  change (format_db (e :: es)) with (format_entry e ++ format_db es) in *.
  destruct (format_line_ok e He) as (Hnn & Hl & Hnl).
  assert (fgets (PATH_MAX + 64) (format_entry e ++ format_db es) =
          Some (format_entry e, format_db es)) as ->.
  { unfold fgets. destruct (format_entry e ++ format_db es) as [|c0 l0] eqn:E0.
    { by destruct (itoa_cons (visits e)) as (c & s & Ec & _);
        unfold format_entry, line in E0; rewrite Ec in E0. }
    rewrite <-E0. f_equal. unfold format_entry, line in *. rewrite <-app_assoc. cbn [app].
    rewrite length_app in Hl. change (length [c_nl]) with 1%nat in Hl.
    by rewrite fgets_go_line by (done || lia). }
  rewrite cstring_no_nul by done. rewrite scan_format by done.
  rewrite length_app in Hf. rewrite IH; [by rewrite <-app_assoc|done| |].
  - rewrite length_app. simpl. lia.
  - unfold format_entry, line in Hf. rewrite length_app in Hf.
    change (length [c_nl]) with 1%nat in Hf. lia.
Qed.

Lemma parse_format es :
  Forall entry_ok es → (length es ≤ MAX_ENTRIES)%nat → parse_db (format_db es) = Some es.
Proof. intros Hes Hl. unfold parse_db. apply load_loop_format; [done|done|lia]. Qed.

Section database.
Context `{Posix}.
#[local] Opaque snprintf PATH_MAX.

Definition db_file (s : sys) : list ascii := abspath (cwd s) frecency_db_path.

(** The file, where there is one, can be read and holds well-formed entries
    whose counts leave room for [k] more visits. *)
Definition db_ok (k : Z) (s : sys) : Prop :=
  os_can_read (db_file s) = true ∧
  ∀ text, files s !! db_file s = Some text →
    ∃ es, text = format_db es ∧ Forall entry_ok es ∧ (length es ≤ MAX_ENTRIES)%nat ∧
          Forall (λ e, visits e ≤ LONG_MAX - k) es.

(** The entries [load_entries] finds. *)
Definition db_entries (s : sys) : list FrecencyEntry :=
  match files s !! db_file s with
  | Some text => default [] (parse_db text)
  | None => []
  end.

Lemma load_entries_spec k s :
  db_ok k s → load_entries s = Some (db_entries s, s) ∧ Forall entry_ok (db_entries s) ∧
    (length (db_entries s) ≤ MAX_ENTRIES)%nat ∧
    Forall (λ e, visits e ≤ LONG_MAX - k) (db_entries s).
Proof.
  intros [Hr Hdb]. unfold load_entries, db_entries.
  destruct (files s !! db_file s) as [text|] eqn:Ef.
  - destruct (Hdb text eq_refl) as (es & -> & Hes & Hl & Hv).
    destruct (open_read_spec frecency_db_path s (ex_intro _ _ Ef) Hr)
      as (fd & Eo & Hfd).
    rewrite (bind_eq _ _ _ _ _ Eo). fold (db_file s). unfold gets, close, modify, mbind, M_bind.
    unfold contents. simpl. rewrite Ef. simpl. rewrite (parse_format es Hes Hl). simpl.
    split; [|done]. unfold mret, M_ret. do 2 f_equal. rewrite set_fds_set_fds, delete_insert_id by done.
    apply set_fds_id.
  - rewrite (bind_eq _ _ _ _ _ (open_read_missing _ _ Ef)).
    split_and!; [done|constructor|simpl; lia|constructor].
Qed.

(** The state after [save_entries]. *)
Definition saved (es : list FrecencyEntry) (s : sys) : sys :=
  if os_can_write (db_file s) then set_files (<[db_file s := format_db es]> (files s)) s else s.

Lemma save_entries_spec es s : save_entries es s = Some ((), saved es s).
Proof.
  unfold save_entries, saved. destruct (os_can_write (db_file s)) eqn:Hw.
  - destruct (open_write_spec false frecency_db_path s Hw) as (fd & Eo & Hfd).
    rewrite (bind_eq _ _ _ _ _ Eo). fold (db_file s).
    unfold append_file, close, modify, mbind, M_bind. do 2 f_equal.
    unfold contents. simpl. rewrite lookup_insert_eq. simpl. rewrite delete_insert_id by done.
    rewrite insert_insert_eq. by destruct s.
  - unfold open_write. rewrite (bind_eq _ _ _ None s); [done|].
    rewrite (bind_eq _ _ _ (db_file s) s) by done. by rewrite Hw.
Qed.

(** C34: what [save_entries] writes [load_entries] reads back, when the database
    can be written and read: paths, counts
    and times of up to 256 entries survive the text format, for paths of 1 to
    4095 characters that do not start with a blank and contain no newline and no
    NUL, and counts and times that fit a [long]. *)
Theorem frecency_db_roundtrip es s :
  os_can_write (db_file s) = true → os_can_read (db_file s) = true →
  Forall entry_ok es → (length es ≤ MAX_ENTRIES)%nat →
  ∃ s', save_entries es s = Some ((), s') ∧ load_entries s' = Some (es, s').
Proof.
  intros Hw Hr Hes Hl. exists (saved es s). split; [apply save_entries_spec|].
  assert (files (saved es s) !! db_file (saved es s) = Some (format_db es)) as Ef.
  { unfold saved. rewrite Hw. by apply lookup_insert_eq. }
  destruct (load_entries_spec 0 (saved es s)) as [-> _].
  - split; [unfold saved; by rewrite Hw|]. intros text. rewrite Ef. intros [= <-].
    exists es. split_and!; try done. eapply Forall_impl; [exact Hes|]. intros e (_ & _ & _ & ? & _). lia.
  - unfold db_entries. rewrite Ef. by rewrite parse_format.
Qed.

(** The count recorded for a directory. *)
Definition count_of (d : list ascii) (es : list FrecencyEntry) : Z :=
  match list_find (λ e, e_path e = d) es with Some (_, e) => visits e | None => 0 end.

Lemma index_of_list_find d es :
  index_of (λ e, e_path e =s d) es = fst <$> list_find (λ e, e_path e = d) es.
Proof.
  induction es as [|e es IH]; [done|]. simpl. rewrite IH. unfold streq.
  destruct (decide (e_path e = d)) as [Hd|Hd].
  - by rewrite bool_decide_true.
  - rewrite bool_decide_false by done. by destruct (list_find _ es) as [[i x]|].
Qed.

Lemma count_of_cons d e es :
  count_of d (e :: es) = if decide (e_path e = d) then visits e else count_of d es.
Proof.
  unfold count_of. simpl. case_decide; [done|].
  by destruct (list_find _ es) as [[i x]|].
Qed.

Lemma count_of_insert d es i e e' :
  es !! i = Some e → e_path e' = e_path e →
  (∀ k x, (k < i)%nat → es !! k = Some x → e_path x ≠ e_path e) →
  count_of d (<[i := e']> es) = if decide (e_path e = d) then visits e' else count_of d es.
Proof.
  revert i; induction es as [|x es IH]; intros [|i] Hi Hp Hfirst; simplify_eq/=.
  - rewrite !count_of_cons, Hp. by case_decide.
  - rewrite !count_of_cons, IH; [|done|done|].
    + case_decide as Hx; [|done]. rewrite decide_False; [done|]. intros <-.
      by apply (Hfirst O x); [lia|..].
    + intros k y Hk Hy. apply (Hfirst (S k) y); [lia|done].
Qed.

Lemma count_of_app d es e :
  count_of d (es ++ [e]) =
  match list_find (λ e, e_path e = d) es with
  | Some (_, x) => visits x
  | None => if decide (e_path e = d) then visits e else 0
  end.
Proof.
  induction es as [|x es IH]; simpl.
  - by rewrite count_of_cons.
  - rewrite count_of_cons, IH. destruct (decide (e_path x = d)); [done|].
    by destruct (list_find _ es) as [[i y]|].
Qed.

(** A directory whose name can be stored. *)
Definition dir_ok (d : list ascii) : Prop := entry_ok (mkEntry d 1 0).

Lemma add_visit_spec d t es k :
  0 < k → Forall entry_ok es → (length es ≤ MAX_ENTRIES)%nat →
  Forall (λ e, visits e ≤ LONG_MAX - k) es → dir_ok d → LONG_MIN ≤ t ≤ LONG_MAX →
  k ≤ LONG_MAX →
  ∃ es', add_visit d t es = Some es' ∧ Forall entry_ok es' ∧ (length es' ≤ MAX_ENTRIES)%nat ∧
    Forall (λ e, visits e ≤ LONG_MAX - (k - 1)) es' ∧
    (∀ d', d' ≠ d → count_of d' es' = count_of d' es) ∧
    ((length es < MAX_ENTRIES)%nat ∨ is_Some (list_find (λ e, e_path e = d) es) →
     count_of d es' = count_of d es + 1).
Proof.
  intros Hk Hes Hl Hv Hd Ht Hkm. unfold add_visit. rewrite index_of_list_find.
  destruct (list_find (λ e, e_path e = d) es) as [[i e]|] eqn:Ef; simpl.
  - apply list_find_Some in Ef as Hf. destruct Hf as (Hi & He & Hfirst). rewrite Hi.
    pose proof (Forall_lookup_1 _ _ _ _ Hv Hi) as Hve. simpl in Hve.
    pose proof (Forall_lookup_1 _ _ _ _ Hes Hi) as (H1 & H2 & H3 & H4 & H5).
    assert (visits e <? LONG_MAX = true) as -> by lia.
    assert (∀ k' x, (k' < i)%nat → es !! k' = Some x → e_path x ≠ e_path e) as Hf'.
    { intros k' x Hk' Hx. rewrite He. by eapply Hfirst. }
    eexists. split_and!; [done|..].
    + apply Forall_insert; [done|]. unfold entry_ok. simpl. split_and!; try done; lia.
    + by rewrite length_insert.
    + apply Forall_insert; [|simpl; lia]. eapply Forall_impl; [exact Hv|]. simpl. lia.
    + intros d' Hne. rewrite (count_of_insert d' es i e) by done. rewrite decide_False by congruence. done.
    + intros _. rewrite (count_of_insert d es i e) by done. rewrite decide_True by done.
      simpl. unfold count_of. by rewrite Ef.
  - destruct (decide (length es < MAX_ENTRIES)%nat) as [Hlt|Hge].
    + assert (strncpy_nul PATH_MAX d = d) as ->.
      { unfold strncpy_nul. apply take_ge. destruct Hd as (_ & _ & ? & _). simpl in *. lia. }
      eexists. split_and!; [done|..].
      * apply Forall_app. split; [done|]. constructor; [|done].
        destruct Hd as (? & ? & ? & ? & _). unfold entry_ok; simpl in *; split_and!; try done; lia.
      * rewrite length_app. simpl. lia.
      * apply Forall_app. split; [|constructor; [simpl; lia|done]].
        eapply Forall_impl; [exact Hv|]. simpl. lia.
      * intros d' Hne. rewrite count_of_app. unfold count_of.
        destruct (list_find _ es) as [[??]|]; [done|]. rewrite decide_False; [done|]. simpl. congruence.
      * intros _. rewrite count_of_app. unfold count_of. rewrite Ef. rewrite decide_True by done. done.
    + eexists. split_and!; try done.
      * eapply Forall_impl; [exact Hv|]. simpl. lia.
      * intros [?|[? ?]]; [lia|done].
Qed.

Lemma record_visit_spec d t k s :
  0 < k ≤ LONG_MAX → db_ok k s → dir_ok d → LONG_MIN ≤ t ≤ LONG_MAX →
  ∃ es', add_visit d t (db_entries s) = Some es' ∧
    record_visit d t s = Some ((), saved es' s) ∧ db_ok (k - 1) (saved es' s).
Proof.
  intros Hk Hdb Hd Ht. destruct (load_entries_spec k s Hdb) as (El & Hes & Hl & Hv).
  destruct (add_visit_spec d t _ k ltac:(lia) Hes Hl Hv Hd Ht ltac:(lia))
    as (es' & Ea & Hes' & Hl' & Hv' & _).
  exists es'. split; [done|]. split.
  - unfold record_visit. rewrite (bind_eq _ _ _ _ _ El), Ea. apply save_entries_spec.
  - destruct Hdb as [Hr Hdb]. unfold saved. destruct (os_can_write (db_file s)).
    + split; [done|]. intros text. simpl.
      change (db_file (set_files _ s)) with (db_file s). rewrite lookup_insert_eq.
      intros [= <-]. by exists es'.
    + split; [done|]. intros text Htext. destruct (Hdb text Htext) as (es & -> & ? & ? & Hb).
      exists es. split_and!; try done. eapply Forall_impl; [exact Hb|]. simpl. lia.
Qed.

(** arriving in a directory adds one to the count stored for it, or
    stores it with count 1 when there is room, and leaves the counts of all
    other directories alone; nothing but the database file changes. *)
Theorem record_visit_counts d t k s :
  0 < k ≤ LONG_MAX → db_ok k s → os_can_write (db_file s) = true → dir_ok d →
  LONG_MIN ≤ t ≤ LONG_MAX →
  (length (db_entries s) < MAX_ENTRIES)%nat ∨ is_Some (list_find (λ e, e_path e = d) (db_entries s)) →
  ∃ text, record_visit d t s = Some ((), set_files (<[db_file s := text]> (files s)) s) ∧
    let s' := set_files (<[db_file s := text]> (files s)) s in
    count_of d (db_entries s') = count_of d (db_entries s) + 1 ∧
    ∀ d', d' ≠ d → count_of d' (db_entries s') = count_of d' (db_entries s).
Proof.
  intros Hk Hdb Hw Hd Ht Hroom. destruct (load_entries_spec k s Hdb) as (El & Hes & Hl & Hv).
  destruct (add_visit_spec d t _ k ltac:(lia) Hes Hl Hv Hd Ht ltac:(lia))
    as (es' & Ea & Hes' & Hl' & _ & Hoth & Hcnt).
  destruct (record_visit_spec d t k s Hk Hdb Hd Ht) as (es'' & Ea' & Er & _).
  rewrite Ea in Ea'. injection Ea' as <-. exists (format_db es'). unfold saved in Er. rewrite Hw in Er.
  split; [done|]. cbv zeta. set (s' := set_files _ s).
  assert (db_entries s' = es') as ->; [|by split; [apply Hcnt|]].
  unfold db_entries, s'. change (db_file (set_files _ s)) with (db_file s). simpl.
  rewrite lookup_insert_eq. by rewrite parse_format.
Qed.
End database.

(** ** The best match *)

Section lookup.
Context `{Posix}.
#[local] Opaque snprintf PATH_MAX.

Definition eligible (name : list ascii) (s : sys) (e : FrecencyEntry) : bool :=
  strstr (e_path e) name && bool_decide (os_stat (cwd s) (e_path e) = Some S_IFDIR).
Definition entry_score (t : Z) (e : FrecencyEntry) : Z := score_of (visits e) (last_access e) t.

(** [e] is the first of the best among the eligible entries of [es]. *)
Definition is_best (name : list ascii) (t : Z) (s : sys) (es : list FrecencyEntry) (e : FrecencyEntry)
  : Prop :=
  ∃ pre post, es = pre ++ e :: post ∧ eligible name s e = true ∧
    Forall (λ x, eligible name s x = true → entry_score t x < entry_score t e) pre ∧
    Forall (λ x, eligible name s x = true → entry_score t x ≤ entry_score t e) post.

Lemma best_entry_cons name t s x es best sc :
  best_entry name t (x :: es) best sc s =
  if eligible name s x && (sc <? entry_score t x) then best_entry name t es (Some x) (entry_score t x) s
  else best_entry name t es best sc s.
Proof.
  unfold eligible, entry_score. simpl.
  by destruct (strstr _ _), (bool_decide _); simpl; try destruct (sc <? _).
Qed.

Lemma best_entry_go name t s es best sc :
  match best_entry name t es best sc s with
  | Some e =>
    (best = Some e ∧ Forall (λ x, eligible name s x = true → entry_score t x ≤ sc) es) ∨
    (sc < entry_score t e ∧ is_best name t s es e)
  | None => best = None ∧ Forall (λ x, eligible name s x = true → entry_score t x ≤ sc) es
  end.
Proof.
  revert best sc; induction es as [|x es IH]; intros best sc.
  { simpl. destruct best; auto. }
  rewrite best_entry_cons. destruct (eligible name s x && (sc <? entry_score t x)) eqn:E.
  - apply andb_true_iff in E as [Hel Hsc].
    specialize (IH (Some x) (entry_score t x)).
    destruct (best_entry name t es (Some x) (entry_score t x) s) as [e|] eqn:Eb; [|by destruct IH].
    right. destruct IH as [[[= <-] Hle]|[Hlt (pre & post & -> & He & Hpre & Hpost)]].
    + split; [lia|]. by exists [], es.
    + split; [lia|]. exists (x :: pre), post. split_and!; [done|done| |done].
      constructor; [|done]. intros _. lia.
  - assert (eligible name s x = true → entry_score t x ≤ sc) as Hx.
    { intros Hel. rewrite Hel in E. simpl in E. lia. }
    specialize (IH best sc). destruct (best_entry name t es best sc s) as [e|].
    + destruct IH as [[-> Hle]|[Hlt (pre & post & -> & He & Hpre & Hpost)]]; [left|right].
      * split; [done|]. by constructor.
      * split; [done|]. exists (x :: pre), post. split_and!; [done|done| |done].
        constructor; [|done]. intros Hel. specialize (Hx Hel). lia.
    + destruct IH as [-> Hle]. split; [done|]. by constructor.
Qed.

Lemma entry_path_short e : entry_ok e → strncpy_nul PATH_MAX (e_path e) = e_path e.
Proof. intros (_ & _ & ? & _). unfold strncpy_nul. apply take_ge. lia. Qed.

(** [frecency_lookup] answers with the path of an entry whose score is
    the highest among the stored paths that contain the name and are
    directories, the earliest one on a tie; it finds nothing only if no such
    entry has a score above -1. The database is not changed. *)
Theorem frecency_lookup_best name t k s :
  db_ok k s →
  ∃ r, frecency_lookup name t s = Some (r, s) ∧
    match r with
    | Some p => ∃ e, p = e_path e ∧ is_best name t s (db_entries s) e
    | None => Forall (λ e, eligible name s e = true → entry_score t e ≤ -4) (db_entries s)
    end.
Proof.
  intros Hdb. destruct (load_entries_spec k s Hdb) as (El & Hes & _).
  unfold frecency_lookup. rewrite (bind_eq _ _ _ _ _ El). eexists. split; [reflexivity|].
  pose proof (best_entry_go name t s (db_entries s) None (-4)) as Hb. unfold id.
  destruct (best_entry name t (db_entries s) None (-4) s) as [e|]; simpl; [|by destruct Hb].
  destruct Hb as [[? _]|[_ Hb]]; [done|]. exists e. split; [|done].
  destruct Hb as (pre & post & E & _). rewrite E in Hes. apply Forall_app in Hes as [_ Hes].
  apply Forall_cons in Hes as [He _]. by apply entry_path_short.
Qed.

(** ** Moving *)

(** Moving on success: the new directory is current, the old one is
    remembered and the visit is recorded. *)
Lemma do_chdir_ok k h target d :
  let s := h_sys h in
  0 < k ≤ LONG_MAX → (length (cwd s) < PATH_MAX)%nat → cwd s ≠ [] →
  os_chdir (cwd s) target = Some d → db_ok k (set_cwd d s) → dir_ok d →
  LONG_MIN ≤ now h ≤ LONG_MAX →
  ∃ es', do_chdir target h =
    Some (true, mkHstate (saved es' (set_cwd d s)) (shell_home h) (cwd s) (now h)) ∧
    db_ok (k - 1) (saved es' (set_cwd d s)).
Proof.
  intros s Hk Hlen Hne Hch Hdb Hd Ht.
  destruct (record_visit_spec d (now h) k (set_cwd d s) Hk Hdb Hd Ht) as (es' & _ & Er & Hdb').
  exists es'. split; [|done]. unfold do_chdir.
  rewrite (bind_eq _ _ _ (cwd s) h).
  2:{ unfold gets, getcwd. fold s. by rewrite decide_True. }
  rewrite (bind_eq _ _ _ (Some d) h) by (unfold gets; fold s; by rewrite Hch).
  rewrite (bind_eq _ _ _ () (put_hsys (set_cwd d s) h)) by done.
  rewrite (bind_eq _ _ _ (Some d) (put_hsys (set_cwd d s) h)).
  2:{ unfold gets, getcwd. simpl. destruct Hd as (_ & _ & ? & _). by rewrite decide_True. }
  rewrite (bind_eq _ _ _ (now h) (put_hsys (set_cwd d s) h)) by done.
  rewrite (bind_eq _ _ _ () (put_hsys (saved es' (set_cwd d s)) h)).
  2:{ unfold hsys, zoom. simpl. by rewrite Er. }
  rewrite (proj2 (streq_false _ _)) by done.
  unfold when, negb, modify, mbind, M_bind, mret, M_ret. unfold strncpy_nul.
  rewrite take_ge by lia. done.
Qed.

Lemma cwd_saved es s : cwd (saved es s) = cwd s.
Proof. unfold saved. by destruct (os_can_write _). Qed.

(** The database does not move when the shell does, for an absolute [HOME]. *)
Definition absolute_db : Prop := ∀ c, abspath c frecency_db_path = frecency_db_path.

Lemma db_ok_cwd k d s : absolute_db → db_ok k s → db_ok k (set_cwd d s).
Proof. intros Ha. unfold db_ok, db_file. simpl. by rewrite !Ha. Qed.

Lemma hop_dash h : prev_dir h ≠ [] → hop_one (lit "-") h = do_chdir (prev_dir h) h.
Proof.
  intros Hne. unfold hop_one. rewrite !(proj2 (streq_false _ _)) by done. rewrite streq_refl.
  rewrite (bind_eq _ _ _ (prev_dir h) h) by done. by rewrite (proj2 (streq_false _ _)) by done.
Qed.

(** [hop -] goes back. After a successful move from [c] to [d], [hop -]
    succeeds, the current directory is [c] again and [hop -] would now lead
    to [d]; both arrivals are recorded. *)
Theorem hop_back k h target d :
  let c := cwd (h_sys h) in
  1 < k ≤ LONG_MAX → absolute_db → db_ok k (h_sys h) → LONG_MIN ≤ now h ≤ LONG_MAX →
  dir_ok c → dir_ok d → os_chdir c target = Some d → os_chdir d c = Some c →
  ∃ h1 h2, do_chdir target h = Some (true, h1) ∧ cwd (h_sys h1) = d ∧ prev_dir h1 = c ∧
    hop_one (lit "-") h1 = Some (true, h2) ∧ cwd (h_sys h2) = c ∧ prev_dir h2 = d ∧
    db_ok (k - 2) (h_sys h2).
Proof.
  intros c Hk Ha Hdb Ht Hc Hd Hgo Hback.
  assert (∀ x, dir_ok x → (length x < PATH_MAX)%nat ∧ x ≠ []) as Hx.
  { intros x (Hh & _ & ? & _). split; [done|]. simpl in Hh. by intros ->. }
  destruct (Hx c Hc) as [Hcl Hcn], (Hx d Hd) as [Hdl Hdn].
  destruct (do_chdir_ok k h target d ltac:(lia) Hcl Hcn Hgo (db_ok_cwd _ _ _ Ha Hdb) Hd Ht)
    as (es1 & E1 & Hdb1).
  set (h1 := mkHstate (saved es1 _) _ _ _) in *. exists h1.
  assert (cwd (h_sys h1) = d) as Hcwd1 by (simpl; by rewrite cwd_saved).
  rewrite <-Hcwd1 in Hback, Hdl, Hdn.
  destruct (do_chdir_ok (k - 1) h1 c c ltac:(lia) Hdl Hdn Hback (db_ok_cwd _ _ _ Ha Hdb1) Hc Ht)
    as (es2 & E2 & Hdb2).
  eexists. split_and!; [exact E1|exact Hcwd1|reflexivity|rewrite hop_dash by done; exact E2|..].
  - simpl. by rewrite cwd_saved.
  - exact Hcwd1.
  - replace (k - 2) with (k - 1 - 1) by lia. exact Hdb2.
Qed.

(** A failed move says so and changes nothing else. *)
Definition hop_failed (h : hstate) : hstate :=
  put_hsys (set_err (err (h_sys h) ++ line (lit "hop: no such directory")) (h_sys h)) h.

Lemma load_entries_state s es s' : load_entries s = Some (es, s') → s' = s.
Proof.
  intros (r & s1 & Eo & Er)%bind_Some. destruct (open_read_Some _ _ _ _ Eo) as [Hs1 Hr].
  destruct r as [[fd p]|]; [|by injection Er as _ <-; subst].
  destruct Hr as (_ & Hfd & Hfds & _).
  unfold gets, close, modify, mbind, M_bind in Er. destruct (parse_db _) as [es'|]; [|done].
  injection Er as _ <-. rewrite Hs1. autorewrite with sys. simpl. rewrite Hfds.
  by rewrite delete_insert_id, set_fds_id by done.
Qed.

Lemma frecency_lookup_state name t s r s' : frecency_lookup name t s = Some (r, s') → s' = s.
Proof.
  intros (es & s1 & El & Er)%bind_Some. apply load_entries_state in El as ->.
  by injection Er as _ <-.
Qed.

Lemma do_chdir_false target h h' : do_chdir target h = Some (false, h') → h' = hop_failed h.
Proof.
  unfold do_chdir. intros (c & h1 & [= <- <-] & E)%bind_Some.
  apply bind_Some in E as (r & h2 & [= <- <-] & E).
  destruct (os_chdir _ _) as [d|]; [|by injection E as <-].
  apply bind_Some in E as (? & ? & _ & E). apply bind_Some in E as (? & ? & _ & E).
  apply bind_Some in E as (? & ? & _ & E). apply bind_Some in E as (? & ? & _ & E).
  apply bind_Some in E as (? & ? & _ & E). done.
Qed.

Lemma hop_one_false arg h h' : hop_one arg h = Some (false, h') → h' = hop_failed h.
Proof.
  unfold hop_one. destruct (arg =s _); [done|]. destruct (arg =s _).
  { intros (d & h1 & [= _ <-] & E)%bind_Some. by eapply do_chdir_false. }
  destruct (arg =s _).
  { intros (d & h1 & [= <- <-] & E)%bind_Some. destruct (getcwd _ _) as [d|]; [|done].
    destruct (d =s _); [done|]. by eapply do_chdir_false. }
  destruct (arg =s _).
  { intros (d & h1 & [= <- <-] & E)%bind_Some. destruct (prev_dir h =s []); [done|].
    by eapply do_chdir_false. }
  intros (r & h1 & [= <- <-] & E)%bind_Some.
  destruct (resolve_direct _ _); [by eapply do_chdir_false|].
  apply bind_Some in E as (t & h2 & [= <- <-] & E). apply bind_Some in E as (f & h3 & Ef & E).
  unfold hsys, zoom in Ef.
  destruct (frecency_lookup arg (now h) (h_sys h)) as [[f' s']|] eqn:El; [|done].
  apply frecency_lookup_state in El as ->. injection Ef as -> <-.
  assert (put_hsys (h_sys h) h = h) as Eh by by destruct h.
  rewrite Eh in E. destruct f as [d|]; [by eapply do_chdir_false|]. by injection E as <-.
Qed.

(** All the arguments are followed in turn, each successfully. *)
Fixpoint hops (args : list Token) (h : hstate) : option hstate :=
  match args with
  | [] => Some h
  | a :: rest =>
    match hop_one (value a) h with
    | Some (true, h1) => hops rest h1
    | _ => None
    end
  end.

(** [hop] with several arguments follows them in order and stops at the
    first one that leads nowhere: the shell stays where the last successful
    move put it, with that move's previous directory, the error is reported
    once and the remaining arguments are not looked at. *)
Theorem hop_stops_at_failure name pre bad post h h1 h2 :
  hops pre h = Some h1 → hop_one (value bad) h1 = Some (false, h2) →
  run_hop (name :: pre ++ bad :: post) h = Some ((), hop_failed h1).
Proof.
  intros Hpre Hbad. assert (run_hop (name :: pre ++ bad :: post) h = hop_args (pre ++ bad :: post) h) as ->.
  { unfold run_hop. simpl. by destruct pre. }
  revert h Hpre; induction pre as [|a pre IH]; intros h Hpre; simpl in *.
  - injection Hpre as ->. rewrite (bind_eq _ _ _ _ _ Hbad). by rewrite (hop_one_false _ _ _ Hbad).
  - destruct (hop_one (value a) h) as [[[] h']|] eqn:Ea; [|done..].
    rewrite (bind_eq _ _ _ _ _ Ea). by apply IH.
Qed.
End lookup.

(** ** The theorems at concrete states *)

Definition demo_entries : list FrecencyEntry :=
  [mkEntry (lit "/h") 3 1000; mkEntry (lit "/h/d") 2 900000].
Definition demo_hop : hstate :=
  mkHstate (set_files (<[lit "/h/.cshell_frecency" := format_db demo_entries]> (files demo_sys)) demo_sys)
    (lit "/h") [] 1000000.

Lemma demo_entries_ok : Forall entry_ok demo_entries.
Proof. apply (bool_decide_unpack _). vm_compute. exact I. Qed.

Lemma demo_db_ok : @db_ok demo_posix 5 (h_sys demo_hop).
Proof.
  split; [done|]. intros text Ht. exists demo_entries.
  assert (text = format_db demo_entries) as -> by (vm_compute in Ht; injection Ht as <-; reflexivity).
  split_and!; [done|apply demo_entries_ok|simpl; unfold MAX_ENTRIES; lia|].
  repeat constructor; simpl; unfold LONG_MAX; lia.
Qed.

Lemma frecency_db_roundtrip_witness :
  ∃ s', @save_entries demo_posix demo_entries demo_sys = Some ((), s') ∧
        @load_entries demo_posix s' = Some (demo_entries, s').
Proof.
  apply (@frecency_db_roundtrip demo_posix); [reflexivity|reflexivity|apply demo_entries_ok|].
  simpl. unfold MAX_ENTRIES. lia.
Defined.

Lemma record_visit_counts_witness :
  let s := h_sys demo_hop in
  ∃ text, @record_visit demo_posix (lit "/h/d") 1000000 s =
      Some ((), set_files (<[@db_file demo_posix s := text]> (files s)) s) ∧
    let s' := set_files (<[@db_file demo_posix s := text]> (files s)) s in
    count_of (lit "/h/d") (@db_entries demo_posix s') =
      count_of (lit "/h/d") (@db_entries demo_posix s) + 1 ∧
    ∀ d', d' ≠ lit "/h/d" → count_of d' (@db_entries demo_posix s') = count_of d' (@db_entries demo_posix s).
Proof.
  intros s. apply (@record_visit_counts demo_posix (lit "/h/d") 1000000 5 s).
  - unfold LONG_MAX. lia.
  - apply demo_db_ok.
  - reflexivity.
  - apply (bool_decide_unpack (entry_ok _)). vm_compute. exact I.
  - unfold LONG_MAX, LONG_MIN. lia.
  - left. by apply (bool_decide_unpack _); vm_compute.
Defined.

(** "h" is in both paths; the recent visits of [/h/d] weigh more. *)
Lemma frecency_lookup_best_witness :
  let s := h_sys demo_hop in
  ∃ r, @frecency_lookup demo_posix (lit "h") 900100 s = Some (r, s) ∧
    match r with
    | Some p => ∃ e, p = e_path e ∧
                  @is_best demo_posix (lit "h") 900100 s (@db_entries demo_posix s) e
    | None => Forall (λ e, @eligible demo_posix (lit "h") s e = true → entry_score 900100 e ≤ -4)
                (@db_entries demo_posix s)
    end.
Proof. intros s. apply (@frecency_lookup_best demo_posix (lit "h") 900100 5 s). apply demo_db_ok. Defined.

Lemma hop_back_witness :
  ∃ h1 h2, @do_chdir demo_posix (lit "d") demo_hop = Some (true, h1) ∧
    cwd (h_sys h1) = lit "/h/d" ∧ prev_dir h1 = lit "/h" ∧
    @hop_one demo_posix (lit "-") h1 = Some (true, h2) ∧ cwd (h_sys h2) = lit "/h" ∧
    prev_dir h2 = lit "/h/d" ∧ @db_ok demo_posix (5 - 2) (h_sys h2).
Proof.
  apply (@hop_back demo_posix 5 demo_hop (lit "d") (lit "/h/d")).
  - unfold LONG_MAX. lia.
  - intros c. reflexivity.
  - apply demo_db_ok.
  - simpl. unfold LONG_MAX, LONG_MIN. lia.
  - apply (bool_decide_unpack (entry_ok _)). vm_compute. exact I.
  - apply (bool_decide_unpack (entry_ok _)). vm_compute. exact I.
  - reflexivity.
  - reflexivity.
Defined.

Lemma hop_stops_at_failure_witness :
  let w x := mkToken TOKEN_WORD (lit x) in
  ∃ h1, @run_hop demo_posix [w "hop"; w "d"; w "nowhere"; w ".."]%string demo_hop =
        Some ((), @hop_failed h1) ∧ cwd (h_sys h1) = lit "/h/d".
Proof.
  intros w.
  destruct (@hops demo_posix [w "d"%string] demo_hop) as [h1|] eqn:E1; [|by vm_compute in E1].
  destruct (@hop_one demo_posix (lit "nowhere") h1) as [[b h2]|] eqn:E2.
  2:{ vm_compute in E1. injection E1 as <-. by vm_compute in E2. }
  assert (b = false) as ->.
  { vm_compute in E1. injection E1 as <-. vm_compute in E2. by injection E2. }
  exists h1. split.
  - exact (@hop_stops_at_failure demo_posix (w "hop"%string) [w "d"%string] (w "nowhere"%string)
      [w ".."%string] demo_hop h1 h2 E1 E2).
  - vm_compute in E1. by injection E1 as <-.
Defined.
