(* ===== verification/Peek.v ===== *)
(** Showing files: [c-shell/src/peek.c].

    A stream read with [getline] is the list of its lines, each with its
    newline except possibly the last. What a function prints is returned as
    text; [None] is undefined behaviour: [line[strlen(line)-1]] of a line
    that starts with a NUL, or more than 100 file arguments.

    The reverse printing of a file reads it backwards in blocks of
    [CHUNK_SIZE] bytes. The specification numbers the lines in forward order
    ([numbered]) and prints them in either direction. *)
From S2P Require Import Prelude CLib Lexer Sys.

Definition CHUNK_SIZE : nat := 4096.

(** ** The code *)

Definition is_non_empty (l : list ascii) : bool :=
  negb (char_at l 0 =c c_nl) && negb (char_at l 0 =c c_cr).

(** The lines [getline] returns in turn. *)
Fixpoint lines_go (cur s : list ascii) : list (list ascii) :=
  match s with
  | [] => if decide (cur = []) then [] else [cur]
  | c :: s' => if c =c c_nl then (cur ++ [c]) :: lines_go [] s' else lines_go (cur ++ [c]) s'
  end.
Definition getlines (s : list ascii) : list (list ascii) := lines_go [] s.

(** [count_non_empty_lines], of a file that can be opened. *)
Fixpoint count_non_empty (ls : list (list ascii)) : nat :=
  match ls with
  | [] => 0
  | l :: rest => if is_non_empty l then S (count_non_empty rest) else count_non_empty rest
  end.

(** [printf("%d ", n)] when lines are numbered and this one is not empty. *)
Definition number (flag_n : bool) (n : Z) (l : list ascii) : list ascii :=
  if flag_n && is_non_empty l then itoa n ++ [c_sp] else [].
(** [printf("%s", line); if (line[strlen(line)-1] != '\n') printf("\n")]. *)
Definition print_line (l : list ascii) : option (list ascii) :=
  let t := cstring l in
  match last t with
  | None => None
  | Some c => Some (t ++ if c =c c_nl then [] else [c_nl])
  end.

Fixpoint print_forward (ls : list (list ascii)) (flag_n : bool) (line_num : Z)
  : option (list ascii * Z) :=
  match ls with
  | [] => Some ([], line_num)
  | l :: rest =>
    let next := if flag_n && is_non_empty l then line_num + 1 else line_num in
    t ← print_line l;
    '(ts, n) ← print_forward rest flag_n next;
    Some (number flag_n line_num l ++ t ++ ts, n)
  end.

(** The second loop of [print_reverse_buffered], over the lines from the last
    to the first. *)
Fixpoint print_down (ls : list (list ascii)) (flag_n : bool) (offset total : Z)
  : option (list ascii) :=
  match ls with
  | [] => Some []
  | l :: rest =>
    let next := if flag_n && is_non_empty l then total - 1 else total in
    t ← print_line l;
    ts ← print_down rest flag_n offset next;
    Some (number flag_n (offset + total) l ++ t ++ ts)
  end.
Definition print_reverse_buffered (ls : list (list ascii)) (flag_n : bool) (offset : Z)
  : option (list ascii * Z) :=
  let lines := cstring <$> ls in
  let total := Z.of_nat (count_non_empty lines) in
  ts ← print_down (reverse lines) flag_n offset total;
  Some (ts, total).

(** Printing the bytes [line_start, line_end) of the file in the reverse loop,
    with the line number after it. *)
Definition emit (file : list ascii) (flag_n : bool) (line_start line_end : nat) (line_num : Z)
  : list ascii * Z :=
  let len := (line_end - line_start)%nat in
  let line_buf := take len (drop line_start file) in
  let numbered := flag_n && is_non_empty line_buf in
  (number flag_n line_num line_buf ++ cstring line_buf ++
     (if char_at line_buf (len - 1) =c c_nl then [] else [c_nl]),
   if numbered then line_num - 1 else line_num).

(** The inner loop [for (i = read_size - 1; i >= 0; i--)]; [k] is [i + 1].
    The state is [line_end], [*line_num] and the text printed so far. *)
Fixpoint scan_chunk (k : nat) (buf file : list ascii) (pos : nat) (flag_n : bool)
    (st : nat * Z * list ascii) : nat * Z * list ascii :=
  match k with
  | O => st
  | S i =>
    let '(line_end, line_num, out) := st in
    let st' :=
      if char_at buf i =c c_nl then
        let line_start := (pos + i + 1)%nat in
        if decide (0 < line_end - line_start)%nat then
          let '(t, n) := emit file flag_n line_start line_end line_num in
          (line_start, n, out ++ t)
        else (line_start, line_num, out ++ [c_nl])
      else st in
    scan_chunk i buf file pos flag_n st'
  end.

(** The loop [while (pos > 0)]; the fuel is at least [pos]. *)
Fixpoint chunk_loop (fuel pos : nat) (file : list ascii) (flag_n : bool)
    (st : nat * Z * list ascii) : option (nat * Z * list ascii) :=
  match fuel with
  | O => None
  | S fuel =>
    if decide (pos = 0)%nat then Some st
    else
      let read_size := if decide (pos < CHUNK_SIZE)%nat then pos else CHUNK_SIZE in
      let pos' := (pos - read_size)%nat in
      let buf := take read_size (drop pos' file) in
      chunk_loop fuel pos' file flag_n (scan_chunk read_size buf file pos' flag_n st)
  end.

(** [print_reverse_chunked]: the text and the final [*line_num]. *)
Definition print_reverse_chunked (file : list ascii) (flag_n : bool) (line_num : Z)
  : option (list ascii * Z) :=
  let filesize := length file in
  if decide (filesize = 0)%nat then Some ([], line_num)
  else
    let filesize := if char_at file (filesize - 1) =c c_nl then (filesize - 1)%nat else filesize in
    if decide (filesize = 0)%nat then Some ([], line_num)
    else
      '(line_end, n, out) ← chunk_loop (S filesize) filesize file flag_n (filesize, line_num, []);
      if decide (0 < line_end)%nat then
        let '(t, n') := emit file flag_n 0 line_end n in Some (out ++ t, n')
      else Some (out, n).

(** ** The command *)

Record opts := mkOpts { flag_n : bool; flag_r : bool }.

(** The characters of an option after the dash. *)
Fixpoint parse_flags (s : list ascii) (o : opts) : option opts :=
  match s with
  | [] => Some o
  | c :: s' =>
    if c =c "n" then parse_flags s' (mkOpts true (flag_r o))
    else if c =c "r" then parse_flags s' (mkOpts (flag_n o) true)
    else None
  end.

Definition MAX_FILES : nat := 100.

Inductive parsed := PArgs (o : opts) (names : list (list ascii)) | PSyntax | POverflow.

Fixpoint parse_args (args : list Token) (o : opts) (names : list (list ascii)) : parsed :=
  match args with
  | [] => PArgs o names
  | t :: rest =>
    if (char_at (value t) 0 =c "-") && (1 <? Z.of_nat (length (value t))) then
      match parse_flags (drop 1 (value t)) o with
      | Some o' => parse_args rest o' names
      | None => PSyntax
      end
    else if decide (length names < MAX_FILES)%nat then parse_args rest o (names ++ [value t])
    else POverflow
  end.

(** Reading the stream [stdin] to its end. The end-of-file mark stays set;
    a signal ends the read without setting it and is left for the shell. *)
Fixpoint read_tty (evs : list tty_event) : option (list (list ascii) * list tty_event * bool) :=
  match evs with
  | [] => None
  | TLine l :: rest => '(ls, evs', e) ← read_tty rest; Some (l :: ls, evs', e)
  | TEof :: rest => Some ([], rest, true)
  | TIntr _ _ :: _ => Some ([], evs, false)
  end.
Definition read_stdin : M sys (list (list ascii)) := λ s,
  if stdin_eof s then Some ([], s)
  else
    match fds s !! 0%nat with
    | Some (OTemp c) => Some (getlines c, set_stdin_eof true s)
    | Some OTty =>
      match read_tty (tty s) with
      | Some (ls, evs, e) => Some (ls, set_stdin_eof e (set_tty evs s))
      | None => None
      end
    | _ => Some ([], set_stdin_eof true s)
    end.

Definition lift {S A} (o : option A) : M S A := match o with Some a => mret a | None => stuck end.

Section command.
Context `{Posix}.

(** The part shared by the two loops over the files: [stat] and its errors;
    [k] runs when the argument names something other than a directory. *)
Definition with_file {A} (name : list ascii) (dflt : A) (k : M sys A) : M sys A :=
  st ← gets (λ s, os_stat (cwd s) name);
  match st with
  | None => eputs (line (lit "peek: no such file or directory"));; mret dflt
  | Some S_IFDIR => eputs (line (lit "peek: is a directory"));; mret dflt
  | Some _ => k
  end.

(** One file of the loop for [-rn]; [offset] is carried along. *)
Definition peek_rn (name : list ascii) (offset : Z) : M sys Z :=
  if name =s lit "-" then
    ls ← read_stdin;
    '(t, total) ← lift (print_reverse_buffered ls true offset);
    puts t;; mret (offset + total)
  else
    with_file name offset (
      r ← open_read name;
      match r with
      | None => perror (lit "peek");; mret offset
      | Some (fd, p) =>
        file ← gets (contents p);
        let nonempty := Z.of_nat (count_non_empty (getlines file)) in
        '(t, _) ← lift (print_reverse_chunked file true (offset + nonempty));
        puts t;; close fd;; mret (offset + nonempty)
      end).

(** One file of the other loop; [line_num] is carried along. *)
Definition peek_one (o : opts) (name : list ascii) (line_num : Z) : M sys Z :=
  if name =s lit "-" then
    ls ← read_stdin;
    if flag_r o then
      '(t, _) ← lift (print_reverse_buffered ls (flag_n o) 0); puts t;; mret line_num
    else
      '(t, n) ← lift (print_forward ls (flag_n o) line_num); puts t;; mret n
  else
    with_file name line_num (
      r ← open_read name;
      match r with
      | None => perror (lit "peek");; mret line_num
      | Some (fd, p) =>
        file ← gets (contents p);
        '(t, n) ← lift (if flag_r o then print_reverse_chunked file (flag_n o) line_num
                        else print_forward (getlines file) (flag_n o) line_num);
        puts t;; close fd;; mret n
      end).

Fixpoint peek_all (f : list ascii → Z → M sys Z) (names : list (list ascii)) (n : Z) : M sys unit :=
  match names with
  | [] => mret ()
  | name :: rest => n' ← f name n; peek_all f rest n'
  end.

Definition run_peek (tokens : list Token) : M sys unit :=
  match parse_args (tail tokens) (mkOpts false false) [] with
  | PSyntax => eputs (line (lit "peek: invalid syntax"))
  | POverflow => stuck
  | PArgs o names =>
    let names := if decide (names = []) then [lit "-"] else names in
    if flag_r o && flag_n o then peek_all peek_rn names 0
    else peek_all (peek_one o) names 1
  end.
End command.

(** ** The specification *)

(** A line as it is shown, always ended by a newline. *)
Definition shown (l : list ascii) : list ascii :=
  l ++ match last l with Some c => if c =c c_nl then [] else [c_nl] | None => [c_nl] end.

(** The lines with their numbers, counting the non-empty ones up from [k]. *)
Fixpoint numbered (fl : bool) (k : Z) (ls : list (list ascii)) : list (list ascii) :=
  match ls with
  | [] => []
  | l :: rest =>
    (number fl k l ++ shown l) :: numbered fl (if is_non_empty l then k + 1 else k) rest
  end.

Definition count (ls : list (list ascii)) : Z := Z.of_nat (count_non_empty ls).

Lemma count_app l1 l2 : count (l1 ++ l2) = count l1 + count l2.
Proof.
  unfold count. induction l1 as [|l l1 IH]; simpl; [done|].
  destruct (is_non_empty l); simpl in *; lia.
Qed.

Lemma numbered_app fl k l1 l2 :
  numbered fl k (l1 ++ l2) = numbered fl k l1 ++ numbered fl (k + count l1) l2.
Proof.
  revert k; induction l1 as [|l l1 IH]; intros k; simpl.
  { unfold count. simpl. by rewrite Z.add_0_r. }
  rewrite IH. unfold count. simpl. destruct (is_non_empty l); do 2 f_equal; f_equal; lia.
Qed.

(** Lines as [getline] returns them from a file without NULs. *)
Definition line_ok (l : list ascii) : Prop := l ≠ [] ∧ no_nul l.

Lemma print_line_ok l : line_ok l → print_line l = Some (shown l).
Proof.
  intros [Hne Hn]. unfold print_line, shown. rewrite cstring_no_nul by done.
  by destruct (last l) as [c|] eqn:E; [|apply last_None in E].
Qed.

Lemma print_forward_numbered ls fl k :
  Forall line_ok ls →
  print_forward ls fl k = Some (mjoin (numbered fl k ls), if fl then k + count ls else k).
Proof.
  intros Hls; revert k; induction Hls as [|l ls Hl _ IH]; intros k; simpl.
  { unfold count. simpl. rewrite Z.add_0_r. by destruct fl. }
  rewrite (print_line_ok l Hl). simpl. unfold number, count in *. simpl.
  destruct fl; simpl.
  - destruct (is_non_empty l); simpl; rewrite IH; simpl; rewrite <-?app_assoc; do 2 f_equal; lia.
  - rewrite IH. simpl. do 3 f_equal. clear. revert k. destruct (is_non_empty l); [|done].
    intros k. assert (∀ j, numbered false k ls = numbered false j ls) as Hk; [|by rewrite (Hk (k + 1))].
    revert k; induction ls as [|x ls IHl]; intros k j; simpl; [done|]. f_equal. apply IHl.
Qed.

Lemma print_down_numbered ls fl offset :
  Forall line_ok ls →
  print_down (reverse ls) fl offset (count ls) = Some (mjoin (reverse (numbered fl (offset + 1) ls))).
Proof.
  assert (∀ ls total, Forall line_ok ls → fl = true → total = count ls →
    print_down (reverse ls) fl offset total = Some (mjoin (reverse (numbered fl (offset + 1) ls)))) as Ht.
  { intros ks. induction ks as [|l ks IH] using rev_ind; intros total Hok Hfl ->; [done|].
    apply Forall_app in Hok as [Hks [Hl _]%Forall_cons].
    rewrite numbered_app, !reverse_app, count_app. cbn.
    rewrite (print_line_ok l Hl). cbn. unfold number, count in *. cbn. rewrite Hfl in *. cbn.
    destruct (is_non_empty l); cbn; rewrite IH by (done || lia); cbn;
      rewrite <-?app_assoc; [do 3 f_equal; lia|done]. }
  destruct fl; [intros; by apply Ht|]. clear Ht. generalize (count ls) as total, (offset + 1) as k.
  intros total k Hok. revert total. induction ls as [|l ks IH] using rev_ind; intros total; [done|].
  apply Forall_app in Hok as [Hks [Hl _]%Forall_cons].
  rewrite numbered_app, !reverse_app. cbn. rewrite (print_line_ok l Hl). cbn.
  by rewrite IH.
Qed.

(** ** Blocks do not matter *)

Section reverse.
Context (file : list ascii) (fl : bool).

(** Scanning one block and then everything below it is scanning everything:
    [scan_chunk n file file 0] is the scan that reads the file at once. *)
Lemma scan_chunk_split k pos i st :
  (i ≤ k)%nat →
  scan_chunk (pos + i) file file 0 fl st =
  scan_chunk pos file file 0 fl (scan_chunk i (take k (drop pos file)) file pos fl st).
Proof.
  revert st; induction i as [|i IH]; intros st Hi; [by rewrite Nat.add_0_r|].
  rewrite Nat.add_succ_r. cbn [scan_chunk]. destruct st as [[e n] o].
  replace (char_at (take k (drop pos file)) i) with (char_at file (pos + i)).
  - rewrite Nat.add_0_l. apply IH. lia.
  - unfold char_at. by rewrite lookup_take_lt, lookup_drop by lia.
Qed.

Lemma chunk_loop_scan fuel pos st :
  (pos < fuel)%nat →
  chunk_loop fuel pos file fl st = Some (scan_chunk pos file file 0 fl st).
Proof.
  revert pos st; induction fuel as [|fuel IH]; intros pos st Hf; [lia|]. cbn [chunk_loop].
  destruct (decide (pos = 0)%nat) as [->|Hpos]; [done|].
  set (r := if decide (pos < CHUNK_SIZE)%nat then pos else CHUNK_SIZE).
  assert (0 < r ≤ pos)%nat as Hr.
  { unfold r. case_decide; [lia|]. unfold CHUNK_SIZE in *. lia. }
  rewrite IH by lia. f_equal. symmetry.
  rewrite <-(scan_chunk_split r (pos - r) r) by lia. f_equal. lia.
Qed.

(** The segments between newlines, last one first: [rp] is the part before
    the current position, reversed, and [tail] the segment being read. *)
Fixpoint rsegs (rp tail : list ascii) : list (list ascii) :=
  match rp with
  | [] => [tail]
  | c :: rp' => if c =c c_nl then tail :: rsegs rp' [c] else rsegs rp' (c :: tail)
  end.

(** Printing segments in turn, counting down. *)
Definition show_seg (s : list ascii) (n : Z) : list ascii * Z :=
  (number fl n s ++ cstring s ++ (if default c_nul (last s) =c c_nl then [] else [c_nl]),
   if fl && is_non_empty s && negb (bool_decide (s = [])) then n - 1 else n).
Fixpoint print_segs (segs : list (list ascii)) (n : Z) (out : list ascii) : list ascii * Z :=
  match segs with
  | [] => (out, n)
  | [] :: rest => print_segs rest n (out ++ [c_nl])
  | s :: rest => let '(t, n') := show_seg s n in print_segs rest n' (out ++ t)
  end.

Definition slice (a b : nat) : list ascii := take (b - a) (drop a file).

Lemma emit_show a b n :
  (a < b ≤ length file)%nat → emit file fl a b n = show_seg (slice a b) n ∧ slice a b ≠ [].
Proof.
  intros Hab. assert (length (slice a b) = b - a)%nat as Hl.
  { unfold slice. rewrite length_take, length_drop. lia. }
  assert (slice a b ≠ []) as Hne by (intros E; rewrite E in Hl; simpl in Hl; lia).
  split; [|done]. unfold emit, show_seg. fold (slice a b).
  rewrite (bool_decide_false (slice a b = [])), andb_true_r by done.
  assert (char_at (slice a b) (b - a - 1) = default c_nul (last (slice a b))) as ->; [|done].
  unfold char_at. rewrite last_lookup, Hl. do 2 f_equal. lia.
Qed.

(** The last step of [print_reverse_chunked]. *)
Definition finish (st : nat * Z * list ascii) : list ascii * Z :=
  let '(line_end, n, out) := st in
  if decide (0 < line_end)%nat then
    let '(t, n') := emit file fl 0 line_end n in (out ++ t, n')
  else (out, n).

Lemma slice_cons a b c :
  file !! a = Some c → (a < b)%nat → slice a b = c :: slice (S a) b.
Proof.
  intros Ha Hab. unfold slice. rewrite (drop_S file c a Ha).
  replace (b - a)%nat with (S (b - S a)) by lia. done.
Qed.

Lemma scan_print n e num out :
  (n ≤ e ≤ length file)%nat → (0 < e)%nat →
  finish (scan_chunk n file file 0 fl (e, num, out)) =
  print_segs (rsegs (reverse (take n file)) (slice n e)) num out.
Proof.
  revert e num out; induction n as [|i IH]; intros e num out Hn He.
  { rewrite take_0. change (reverse []) with (@nil ascii). cbn [scan_chunk rsegs].
    unfold finish. rewrite decide_True by done.
    destruct (emit_show 0 e num ltac:(lia)) as [-> Hne].
    destruct (slice 0 e) as [|c s] eqn:Es; [done|]. cbn [print_segs].
    by destruct (show_seg (c :: s) num). }
  destruct (lookup_lt_is_Some_2 file i) as [c Hc]; [lia|].
  rewrite (take_S_r file i c Hc), reverse_snoc. cbn [scan_chunk rsegs].
  assert (char_at file i = c) as -> by (unfold char_at; by rewrite Hc). rewrite Nat.add_0_l.
  destruct (c =c c_nl) eqn:Ec.
  - replace (i + 1)%nat with (S i) by lia.
    assert (slice i (S i) = [c]) as Hone.
    { rewrite (slice_cons i (S i) c Hc) by lia. unfold slice. by rewrite Nat.sub_diag, take_0. }
    destruct (decide (0 < e - S i)%nat) as [Hlt|Hge].
    + destruct (emit_show (S i) e num ltac:(lia)) as [-> Hne].
      destruct (slice (S i) e) as [|d s] eqn:Es; [done|].
      cbn [print_segs]. destruct (show_seg (d :: s) num) as [t n'].
      rewrite IH by lia. by rewrite Hone.
    + assert (slice (S i) e = []) as -> by (unfold slice; replace (e - S i)%nat with O by lia; done).
      cbn [print_segs]. rewrite IH by lia. by rewrite Hone.
  - rewrite IH by lia. by rewrite (slice_cons i e c Hc) by lia.
Qed.
End reverse.

(** ** Segments and lines *)

(** The segments of a text in order; the last one has no newline. *)
Fixpoint segs (s : list ascii) : list ascii * list (list ascii) :=
  match s with
  | [] => ([], [])
  | c :: s' => let '(h, r) := segs s' in if c =c c_nl then ([c], h :: r) else (c :: h, r)
  end.
Definition seg_list (s : list ascii) : list (list ascii) := (segs s).1 :: (segs s).2.

Lemma rsegs_snoc rp c tail :
  ∃ init l, rsegs rp tail = init ++ [l] ∧
    rsegs (rp ++ [c]) tail = if c =c c_nl then init ++ [l; [c]] else init ++ [c :: l].
Proof.
  revert tail; induction rp as [|d rp IH]; intros tail; simpl.
  { exists [], tail. split; [done|]. by destruct (c =c c_nl). }
  destruct (d =c c_nl).
  - destruct (IH [d]) as (init & l & -> & ->). exists (tail :: init), l.
    split; [done|]. by destruct (c =c c_nl).
  - apply IH.
Qed.

Lemma rsegs_segs s : rsegs (reverse s) [] = reverse (seg_list s).
Proof.
  unfold seg_list. induction s as [|c s IH]; [done|].
  cbn [segs]. destruct (segs s) as [h r]. cbn [fst snd] in IH. rewrite reverse_cons in IH. rewrite (reverse_cons s c).
  destruct (rsegs_snoc (reverse s) c []) as (init & l & E1 & ->). rewrite E1 in IH.
  apply app_inj_2 in IH as [-> [= ->]]; [|done].
  destruct (c =c c_nl); cbn [fst snd]; rewrite !reverse_cons; [by rewrite <-app_assoc|done].
Qed.

Lemma lines_go_prefix cur s :
  cur ≠ [] →
  lines_go cur s = match getlines s with [] => [cur] | h :: r => (cur ++ h) :: r end.
Proof.
  revert cur; induction s as [|c s IH]; intros cur Hne; unfold getlines; simpl.
  { by rewrite decide_False. }
  destruct (c =c c_nl); [done|]. rewrite (IH (cur ++ [c])), (IH [c]) by (try by destruct cur; done).
  destruct (getlines s); [done|]. by rewrite <-app_assoc.
Qed.

Lemma getlines_cons c s :
  getlines (c :: s) =
  if c =c c_nl then [c] :: getlines s
  else match getlines s with [] => [[c]] | h :: r => (c :: h) :: r end.
Proof.
  unfold getlines at 1. simpl. destruct (c =c c_nl); [done|]. by rewrite lines_go_prefix.
Qed.

(** A file with a final newline: its lines are the segments before it, the
    last one completed. *)
Lemma getlines_newline t :
  ∃ init l, seg_list t = init ++ [l] ∧ getlines (t ++ [c_nl]) = init ++ [l ++ [c_nl]] ∧ c_nl ∉ l.
Proof.
  unfold seg_list. induction t as [|c t (init & l & E & Eg & Hl)].
  { exists [], []. split_and!; [done|done|set_solver]. }
  cbn [app segs]. destruct (segs t) as [h r]. simpl in E. rewrite getlines_cons, Eg.
  destruct (c =c c_nl) eqn:Ec.
  - exists ([c] :: init), l. simpl. split_and!; [by rewrite E|done|done].
  - apply ceq_false in Ec. destruct init as [|i init]; simpl in *; injection E as -> ->.
    + exists [], (c :: l). split_and!; [done|done|set_solver].
    + exists ((c :: i) :: init), l. by split_and!.
Qed.

Lemma getlines_open t c :
  last t = Some c → c ≠ c_nl → getlines t = seg_list t.
Proof.
  unfold seg_list. induction t as [|d t IH]; [done|]. intros Hl Hc. rewrite getlines_cons. cbn [segs].
  destruct t as [|e t'].
  - simpl in Hl. injection Hl as ->. by rewrite (proj2 (ceq_false _ _) Hc).
  - rewrite IH by done. destruct (segs (e :: t')) as [h r]. simpl. by destruct (d =c c_nl).
Qed.

Lemma getlines_ok s : no_nul s → Forall line_ok (getlines s).
Proof.
  induction 1 as [|c s Hc Hs IH]; [constructor|]. rewrite getlines_cons. destruct (c =c c_nl).
  - constructor; [split; [done|by repeat constructor]|done].
  - destruct (getlines s) as [|h r]; [by repeat constructor|].
    apply Forall_cons in IH as [[_ Hh] Hr]. constructor; [|done]. split; [done|by constructor].
Qed.

Lemma show_seg_line fl s n :
  line_ok s →
  show_seg fl s n = (number fl n s ++ shown s, if fl && is_non_empty s then n - 1 else n).
Proof.
  intros [Hne Hn]. unfold show_seg, shown. rewrite cstring_no_nul by done.
  rewrite bool_decide_false, andb_true_r by done.
  by destruct (last s) as [c|] eqn:E; [|apply last_None in E].
Qed.

(** Printing segments that are lines is printing the lines downwards. *)
Lemma print_segs_lines fl ls offset total out :
  Forall line_ok ls →
  Some ((print_segs fl ls (offset + total) out).1) =
  (λ ts, out ++ ts) <$> print_down ls fl offset total.
Proof.
  intros Hls; revert total out; induction Hls as [|l ls Hl _ IH]; intros total out.
  { simpl. by rewrite app_nil_r. }
  destruct l as [|c l]; [by destruct Hl|]. cbn [print_segs print_down].
  rewrite (print_line_ok _ Hl). cbn [mbind option_bind]. rewrite show_seg_line by done. set (b := fl && is_non_empty (c :: l)).
  replace (if b then offset + total - 1 else offset + total)
    with (offset + (if b then total - 1 else total)) by (destruct b; lia).
  rewrite IH. destruct (print_down ls fl offset _); cbn [mbind option_bind fmap option_fmap option_map]; [|done].
  by rewrite <-!app_assoc.
Qed.

(** The last segment is printed like the last line. *)
Lemma print_segs_last fl l rest n :
  no_nul l → c_nl ∉ l →
  print_segs fl (l :: rest) n [] =
  print_segs fl rest (if fl && is_non_empty (l ++ [c_nl]) then n - 1 else n)
    (number fl n (l ++ [c_nl]) ++ shown (l ++ [c_nl])).
Proof.
  intros Hnn Hnl. destruct l as [|c l]; cbn [print_segs].
  { unfold number, shown. simpl. by rewrite andb_false_r. }
  rewrite show_seg_line by done. f_equal. unfold shown. rewrite last_snoc. simpl (_ =c _).
  assert (number fl n (c :: l) = number fl n ((c :: l) ++ [c_nl])) as -> by done.
  assert (∀ d, last (c :: l) = Some d → (d =c c_nl) = false) as Hd.
  { intros d Hd. apply ceq_false. intros ->. apply Hnl. apply last_Some in Hd as [l' ->]. set_solver. }
  destruct (last (c :: l)) as [d|] eqn:E; [|by apply last_None in E].
  rewrite (Hd d eq_refl). by rewrite app_nil_r.
Qed.

Lemma print_reverse_chunked_scan file fl n m :
  (0 < m ≤ length file)%nat →
  m = (if char_at file (length file - 1) =c c_nl then length file - 1 else length file)%nat →
  print_reverse_chunked file fl n =
  Some (print_segs fl (reverse (seg_list (take m file))) n []).
Proof.
  intros Hm Em. unfold print_reverse_chunked. rewrite decide_False by lia. cbv zeta. rewrite <-Em.
  rewrite decide_False by lia. rewrite chunk_loop_scan by lia.
  assert (slice file m m = []) as Hs by (unfold slice; by rewrite Nat.sub_diag, take_0).
  pose proof (scan_print file fl m m n [] ltac:(lia) ltac:(lia)) as Hp.
  rewrite Hs, rsegs_segs in Hp. rewrite <-Hp. cbn [mbind option_bind].
  destruct (scan_chunk m file file 0 fl (m, n, [])) as [[e k] o]. unfold finish.
  case_decide; [|done]. by destruct (emit file fl 0 e k).
Qed.

(** C35: [peek] shows the lines it should in either direction. For a file
    without NUL bytes other than the single newline, printing backwards in
    blocks gives the lines of the file in reverse order, each with the number
    it has in forward order, whatever the block boundaries; printing a
    buffered stream backwards gives the same, and printing forwards gives
    them in order. *)
Theorem peek_directions file fl offset :
  no_nul file → file ≠ [c_nl] →
  let ls := getlines file in
  let texts := numbered fl (offset + 1) ls in
  fst <$> print_reverse_chunked file fl (offset + count ls) = Some (mjoin (reverse texts)) ∧
  print_reverse_buffered ls fl offset = Some (mjoin (reverse texts), count ls) ∧
  fst <$> print_forward ls fl (offset + 1) = Some (mjoin texts).
Proof.
  intros Hnn Hne ls texts. pose proof (getlines_ok file Hnn) as Hok. fold ls in Hok. split_and!.
  - destruct (last file) as [c|] eqn:El.
    2:{ apply last_None in El. unfold texts, ls. rewrite El. done. }
    pose proof (print_down_numbered ls fl offset Hok) as Hd. fold texts in Hd.
    apply last_Some in El as [t ->]. apply Forall_app in Hnn as [Ht _].
    assert (char_at (t ++ [c]) (length (t ++ [c]) - 1) = c) as Hc.
    { unfold char_at. rewrite length_app. simpl. rewrite lookup_app_r by lia.
      replace (length t + 1 - 1 - length t)%nat with O by lia. done. }
    destruct (c =c c_nl) eqn:Ec.
    + apply ceq_true in Ec as ->.
      rewrite (print_reverse_chunked_scan _ _ _ (length t)).
      2:{ rewrite length_app. simpl. destruct t; [done|]. simpl. lia. }
      2:{ rewrite Hc, length_app. simpl. lia. }
      rewrite take_app_length. destruct (getlines_newline t) as (init & l & Es & Eg & Hl).
      rewrite Es. rewrite reverse_snoc.
      assert (ls = init ++ [l ++ [c_nl]]) as Els by exact Eg. clearbody texts. clearbody ls.
      rewrite Els, reverse_snoc in Hd.
      rewrite Els in Hok. apply Forall_app in Hok as [Hinit [[_ Hlast] _]%Forall_cons].
      apply Forall_app in Hlast as [Hlnn _].
      rewrite print_segs_last by done. cbn in Hd.
      rewrite print_line_ok in Hd by (split; [by destruct l|apply Forall_app; by repeat constructor]).
      cbn in Hd. rewrite Els. set (b := fl && is_non_empty (l ++ [c_nl])) in *.
      set (total := count (init ++ [l ++ [c_nl]])) in *.
      replace (if b then offset + total - 1 else offset + total)
        with (offset + (if b then total - 1 else total)) by (destruct b; lia).
      simpl. rewrite print_segs_lines by (by apply Forall_reverse).
      destruct (print_down (reverse init) fl offset _) as [ts|]; cbn in *; [|done].
      injection Hd as <-. by rewrite <-app_assoc.
    + apply ceq_false in Ec as Hcn.
      rewrite (print_reverse_chunked_scan _ _ _ (length (t ++ [c]))).
      2:{ rewrite length_app. simpl. lia. }
      2:{ by rewrite Hc, Ec. }
      rewrite firstn_all. rewrite <-(getlines_open (t ++ [c]) c) by (by rewrite ?last_snoc). fold ls.
      simpl. rewrite print_segs_lines by (by apply Forall_reverse). rewrite Hd. done.
  - unfold print_reverse_buffered.
    assert (cstring <$> ls = ls) as ->.
    { rewrite <-(list_fmap_id ls) at 2. apply list_fmap_ext. intros i l Hl.
      apply cstring_no_nul. by apply (Forall_lookup_1 _ _ _ _ Hok) in Hl as [_ ?]. }
    fold (count ls). rewrite print_down_numbered by done. done.
  - by rewrite print_forward_numbered.
Qed.

(** the exception is real: [peek -r] of a file that holds one empty line
    prints nothing, although reading the same bytes from a stream prints the
    line. *)
Theorem peek_reverse_lone_newline fl n :
  print_reverse_chunked [c_nl] fl n = Some ([], n) ∧
  print_reverse_buffered (getlines [c_nl]) fl n = Some ([c_nl], 0).
Proof. split; [done|]. by destruct fl. Qed.

Lemma peek_directions_witness :
  let file := lit "one" ++ [c_nl; c_nl] ++ lit "two" in
  let ls := getlines file in
  let texts := numbered true (4 + 1) ls in
  fst <$> print_reverse_chunked file true (4 + count ls) = Some (mjoin (reverse texts)) ∧
  print_reverse_buffered ls true 4 = Some (mjoin (reverse texts), count ls) ∧
  fst <$> print_forward ls true (4 + 1) = Some (mjoin texts).
Proof.
  apply (peek_directions (lit "one" ++ [c_nl; c_nl] ++ lit "two") true 4).
  - apply (bool_decide_unpack _). vm_compute. exact I.
  - by vm_compute.
Defined.
