(* ===== verification/Reveal.v ===== *)
(** Listing directories: [c-shell/src/reveal.c].

    [reveal_dir] recurses into subdirectories with [-t]; the fuel bounds the
    depth and [None] stands for a recursion that is still going on when it
    runs out. [reveal_dir_lists] shows that the height of the directory tree
    is fuel enough and that the output is the listing of the tree. [qsort]
    with [strcmp] is a sort by a total order, so its result does not depend
    on the algorithm. *)
From S2P Require Import Prelude CLib Lexer Sys Resolver Hop.

(** ** Sorting names *)

Definition name_le (a b : list ascii) : Prop := strcmp_le a b = true.
#[export] Instance name_le_dec : RelDecision name_le.
Proof. intros a b. unfold name_le. apply _. Defined.
#[export] Instance name_le_total : Total name_le.
Proof. intros a b. apply strcmp_le_total. Qed.
#[export] Instance name_le_trans : Transitive name_le.
Proof. intros a b c. apply strcmp_le_trans. Qed.
#[export] Instance name_le_antisym : AntiSymm (=) name_le.
Proof. intros a b. apply strcmp_le_antisym. Qed.

Section code.
Context `{Posix}.

Definition skipped (flag_a : bool) (name : list ascii) : bool :=
  (name =s lit ".") || (name =s lit "..") || (negb flag_a && (char_at name 0 =c ".")).

(** [read_sorted_entries]; [None] for a count of [-1]. *)
Definition read_sorted_entries (path : list ascii) (flag_a : bool) (s : sys)
  : option (list (list ascii)) :=
  match os_readdir (cwd s) path with
  | None => None
  | Some names => Some (merge_sort name_le (filter (λ n, skipped flag_a n = false) names))
  end.

Definition print_entry_name (name : list ascii) : M sys unit :=
  if strchr name " " then puts (lit "'" ++ name ++ lit "'") else puts name.

Definition join_path (prefix name : list ascii) : list ascii := prefix ++ "/"%char :: name.
Definition child_rel (rel_prefix name : list ascii) : list ascii :=
  if decide (rel_prefix = []) then snprintf PATH_MAX name
  else snprintf PATH_MAX (join_path rel_prefix name).

Fixpoint reveal_dir (fuel : nat) (abs_path rel_prefix : list ascii) (flag_a flag_t : bool)
  : M sys unit :=
  match fuel with
  | O => stuck
  | S fuel =>
    r ← gets (read_sorted_entries abs_path flag_a);
    match r with
    | None => eputs (line (lit "reveal: no such directory"))
    | Some names =>
      mfor names (λ name,
        let rel := child_rel rel_prefix name in
        let child_abs := snprintf PATH_MAX (join_path abs_path name) in
        is_dir ← gets (λ s, bool_decide (os_lstat (cwd s) child_abs = Some S_IFDIR));
        print_entry_name rel;;
        (if is_dir && flag_t then puts (line (lit "/")) else puts (line []));;
        if is_dir && flag_t then reveal_dir fuel child_abs rel flag_a flag_t else mret ())
    end
  end.

(** The options of [run_reveal]. *)
Record ropts := mkRopts { flag_a : bool; flag_t : bool }.
Fixpoint parse_rflags (s : list ascii) (o : ropts) : option ropts :=
  match s with
  | [] => Some o
  | c :: s' =>
    if c =c "a" then parse_rflags s' (mkRopts true (flag_t o))
    else if c =c "t" then parse_rflags s' (mkRopts (flag_a o) true)
    else None
  end.

(** The loop over the arguments; [None] is "invalid syntax" inside it. *)
Fixpoint parse_rargs (args : list Token) (o : ropts) (arg : option (list ascii)) (arg_count : nat)
  : option (ropts * option (list ascii) * nat) :=
  match args with
  | [] => Some (o, arg, arg_count)
  | t :: rest =>
    if (char_at (value t) 0 =c "-") && (1 <? Z.of_nat (length (value t))) then
      if decide (arg_count = 0)%nat then
        match parse_rflags (drop 1 (value t)) o with
        | Some o' => parse_rargs rest o' arg arg_count
        | None => None
        end
      else None
    else parse_rargs rest o (Some (value t)) (S arg_count)
  end.

Definition reveal_syntax : M sys unit := eputs (line (lit "reveal: invalid syntax")).
Definition reveal_missing : M sys unit := eputs (line (lit "reveal: no such directory")).

(** The path [run_reveal] lists; [None] for [-] without a previous directory. *)
Definition reveal_path (shell_home prev_dir : list ascii) (arg : option (list ascii))
  : option (list ascii) :=
  match arg with
  | None => Some (lit ".")
  | Some a =>
    if a =s lit "~" then Some shell_home
    else if a =s lit "." then Some (lit ".")
    else if a =s lit ".." then Some (lit "..")
    else if a =s lit "-" then if prev_dir =s [] then None else Some prev_dir
    else Some a
  end.

Definition run_reveal (fuel : nat) (shell_home prev_dir : list ascii) (tokens : list Token) : M sys unit :=
  match parse_rargs (tail tokens) (mkRopts false false) None 0 with
  | None => reveal_syntax
  | Some (o, arg, arg_count) =>
    if decide (1 < arg_count)%nat then reveal_syntax
    else
      match reveal_path shell_home prev_dir arg with
      | None => reveal_missing
      | Some path =>
        st ← gets (λ s, os_stat (cwd s) path);
        if bool_decide (st = Some S_IFDIR) then reveal_dir fuel path [] (flag_a o) (flag_t o)
        else reveal_missing
      end
  end.

(** ** The listing of a tree *)

(** A directory tree: the entries of a directory are sorted by name. A link
    to a directory is a [NotDir]. *)
Inductive entry := NotDir | Dir (children : list (list ascii * entry)).

Definition quoted (name : list ascii) : list ascii :=
  if strchr name " " then lit "'" ++ name ++ lit "'" else name.
Definition is_Dir (e : entry) : bool := match e with Dir _ => true | NotDir => false end.
Definition rel_of (rel_prefix name : list ascii) : list ascii :=
  if decide (rel_prefix = []) then name else join_path rel_prefix name.

(** What is printed for the contents of an entry whose path, relative to the
    directory asked for, is [rel]. *)
Fixpoint listing (fa ft : bool) (rel : list ascii) (e : entry) : list ascii :=
  match e with
  | NotDir => []
  | Dir l =>
    mjoin (map (λ p : list ascii * entry, let '(n, e') := p in
      if skipped fa n then []
      else quoted (rel_of rel n) ++ line (if is_Dir e' && ft then lit "/" else []) ++
           (if is_Dir e' && ft then listing fa ft (rel_of rel n) e' else [])) l)
  end.

Fixpoint height (e : entry) : nat :=
  match e with NotDir => 0 | Dir l => S (list_max (map (λ p, height p.2) l)) end.

(** The directory at [abs] holds exactly the entries [l] besides [.] and
    [..], in whatever order [readdir] gives them, and the paths fit their
    buffers. *)
Inductive holds (c : list ascii) : list ascii → list ascii → entry → Prop :=
| holds_notdir abs rel : os_lstat c abs ≠ Some S_IFDIR → holds c abs rel NotDir
| holds_dir abs rel raw l :
    os_readdir c abs = Some raw →
    filter (λ n, n ≠ lit "." ∧ n ≠ lit "..") raw ≡ₚ l.*1 →
    StronglySorted name_le (l.*1) →
    (∀ n e, (n, e) ∈ l →
       (length (join_path abs n) < PATH_MAX)%nat ∧ (length (rel_of rel n) < PATH_MAX)%nat ∧
       (is_Dir e = true → os_lstat c (join_path abs n) = Some S_IFDIR) ∧
       holds c (join_path abs n) (rel_of rel n) e) →
    holds c abs rel (Dir l).

Lemma sorted_entries_spec c abs rel l fa s :
  cwd s = c → holds c abs rel (Dir l) →
  read_sorted_entries abs fa s = Some (filter (λ n, skipped fa n = false) (l.*1)).
Proof.
  intros Hc Hh. inversion Hh as [|? ? raw ? Hr Hp Hs _]; subst.
  unfold read_sorted_entries. rewrite Hr. f_equal.
  assert (filter (λ n, skipped fa n = false) raw ≡ₚ filter (λ n, skipped fa n = false) (l.*1)) as Hperm.
  { rewrite <-Hp, list_filter_filter.
    erewrite list_filter_iff; [reflexivity|]. intros n. simpl.
    unfold skipped. rewrite !orb_false_iff, !streq_false. naive_solver. }
  apply (StronglySorted_unique name_le).
  - apply StronglySorted_merge_sort; apply _.
  - clear -Hs. induction Hs as [|n ns _ IH Hn]; [constructor|]. rewrite filter_cons.
    case_decide; [|done]. constructor; [done|]. apply Forall_forall. intros m Hm.
    apply list_elem_of_filter in Hm as [_ Hm]. by apply (proj1 (Forall_forall _ _) Hn).
  - by rewrite merge_sort_Permutation.
Qed.

Lemma print_entry_name_spec name s :
  fds s !! 1%nat = Some OTty → print_entry_name name s = Some ((), printed (quoted name) s).
Proof. intros Hfd. unfold print_entry_name, quoted. destruct (strchr name " "); by apply puts_tty. Qed.

Lemma snprintf_fits n s : (length s < n)%nat → snprintf n s = s.
Proof. intros. unfold snprintf. apply take_ge. lia. Qed.

(** The effect of listing one entry of a directory. *)
Definition entry_text (fa ft : bool) (rel : list ascii) (p : list ascii * entry) : list ascii :=
  let '(n, e') := p in
  if skipped fa n then []
  else quoted (rel_of rel n) ++ line (if is_Dir e' && ft then lit "/" else []) ++
       (if is_Dir e' && ft then listing fa ft (rel_of rel n) e' else []).

Lemma list_max_le x l : x ∈ l → (x ≤ list_max l)%nat.
Proof. induction 1; simpl; lia. Qed.

Lemma reveal_dir_listing fuel c abs rel l fa ft s :
  (height (Dir l) ≤ fuel)%nat → cwd s = c → holds c abs rel (Dir l) → fds s !! 1%nat = Some OTty →
  reveal_dir fuel abs rel fa ft s = Some ((), printed (listing fa ft rel (Dir l)) s).
Proof.
  revert abs rel l s; induction fuel as [|fuel IH]; intros abs rel l s Hf Hc Hh Hfd.
  { simpl in Hf. lia. }
  cbn [reveal_dir]. rewrite (bind_eq _ _ _ (read_sorted_entries abs fa s) s) by done.
  rewrite (sorted_entries_spec c abs rel l fa s Hc Hh).
  change (listing fa ft rel (Dir l)) with (mjoin (map (entry_text fa ft rel) l)).
  inversion Hh as [|? ? raw ? Hr Hp Hs Hch]; subst. clear Hh Hr Hp Hs.
  assert (∀ p, p ∈ l → (height p.2 ≤ fuel)%nat) as Hh.
  { intros p Hin. simpl in Hf. apply Nat.succ_le_mono in Hf. etrans; [|exact Hf].
    apply list_max_le. apply list_elem_of_In, in_map_iff. exists p. split; [done|].
    by apply list_elem_of_In. }
  clear Hf. set (c := cwd s) in *. assert (cwd s = c) as Hc by done. clearbody c.
  revert s Hc Hfd. induction l as [|[n e] l IHl]; intros s Hc Hfd; [by rewrite printed_nil|].
  rewrite fmap_cons, filter_cons. cbn [map entry_text fst].
  destruct (skipped fa n) eqn:Esk.
  { rewrite decide_False by done. apply IHl; [|intros; apply Hh; by right|done|done].
    intros n' e' Hin. apply Hch. by right. }
  rewrite decide_True by done. cbn [mfor].
  destruct (Hch n e) as (Hla & Hlr & Hld & Hhe); [by left|].
  assert (child_rel rel n = rel_of rel n) as Erel.
  { unfold child_rel, rel_of in *. case_decide; by apply snprintf_fits. }
  rewrite Erel, (snprintf_fits PATH_MAX (join_path abs n)) by done.
  assert (∃ is_dir, bool_decide (os_lstat c (join_path abs n) = Some S_IFDIR) = is_dir ∧ is_dir = is_Dir e)
    as (is_dir & Hd & ->).
  { eexists. split; [done|]. destruct e as [|l']; [apply bool_decide_false|apply bool_decide_true].
    - by inversion Hhe.
    - by apply Hld. }
  rewrite bind_assoc, (bind_eq _ _ _ (is_Dir e) s) by (unfold gets; by rewrite Hc, Hd).
  rewrite bind_assoc, (bind_eq _ _ _ _ _ (print_entry_name_spec (rel_of rel n) s Hfd)).
  rewrite bind_assoc.
  rewrite (bind_eq _ _ _ () (printed (line (if is_Dir e && ft then lit "/" else []))
    (printed (quoted (rel_of rel n)) s))) by (destruct (is_Dir e && ft); by apply puts_tty).
  rewrite printed_printed.
  set (s2 := printed _ s).
  rewrite (bind_eq _ _ _ () (printed (if is_Dir e && ft then listing fa ft (rel_of rel n) e else []) s2)).
  - rewrite IHl; [|intros n' e' Hin; apply Hch; by right|intros; apply Hh; by right|done|done].
    unfold s2. rewrite !printed_printed. do 3 f_equal. simpl. by rewrite <-!app_assoc.
  - destruct (is_Dir e && ft) eqn:E; [|by rewrite printed_nil].
    destruct e as [|l']; [done|]. apply IH; [|done|done|done].
    apply (Hh (n, Dir l')). by left.
Qed.

(** [reveal] lists a directory tree completely and in order. For a
    directory whose contents are the tree [Dir l], [reveal_dir] with the
    height of the tree as recursion depth returns, and prints the entries of
    each directory in [strcmp] order, without [.] and [..] and, unless asked,
    without hidden names; with [-t] each directory is marked with a slash and
    followed by its own contents under its relative path, and links to
    directories are not entered. *)
Theorem reveal_dir_lists c abs l fa ft s :
  cwd s = c → holds c abs [] (Dir l) → fds s !! 1%nat = Some OTty →
  reveal_dir (height (Dir l)) abs [] fa ft s =
  Some ((), printed (listing fa ft [] (Dir l)) s).
Proof. intros. by eapply reveal_dir_listing. Qed.
End code.

(** The demonstration environment: [/h] with a subdirectory [d]. *)
Definition demo_tree : entry :=
  Dir [(lit ".hidden", NotDir); (lit "a", NotDir); (lit "b", NotDir);
       (lit "d", Dir [(lit "x y", NotDir)]); (lit "prog", NotDir)].

Lemma reveal_dir_lists_witness :
  listing false true [] demo_tree =
    unlines [lit "a"; lit "b"; lit "d/"; lit "'d/x y'"; lit "prog"] ∧
  @reveal_dir demo_posix (height demo_tree) (lit ".") [] false true demo_sys =
  Some ((), printed (listing false true [] demo_tree) demo_sys).
Proof.
  split; [by vm_compute|].
  apply (@reveal_dir_lists demo_posix (lit "/h") (lit ".")); [done| |done].
  eapply (@holds_dir demo_posix); [reflexivity| | |].
  - apply (bool_decide_unpack _). vm_compute. exact I.
  - repeat constructor.
  - intros n e Hin. set_unfold in Hin. destruct_or!; simplify_eq;
      (split; [apply (bool_decide_unpack _); vm_compute; exact I|]);
      (split; [apply (bool_decide_unpack _); vm_compute; exact I|]); (split; [done|]).
    1-3,5: by constructor.
    eapply (@holds_dir demo_posix); [reflexivity| | |].
    + apply (bool_decide_unpack _). vm_compute. exact I.
    + repeat constructor.
    + intros n e Hin. set_unfold in Hin. destruct_or!; simplify_eq.
      split_and!; [apply (bool_decide_unpack _); vm_compute; exact I..|done|by constructor].
Defined.
