(* ===== verification/Spy.v ===== *)
(** Open files of a process: [c-shell/src/spy.c].

    Rows are collected as lists of lines and printed in order. [/proc] is
    part of the environment: links and directories through [Posix], the
    [maps] file through the file system. *)
From S2P Require Import Prelude CLib Lexer Sys Resolver Hop.

Definition SEEN_MAX : nat := 256.
Definition NUMS_MAX : nat := 1024.

(** [strcspn(s, "\n")] characters of [s]. *)
Definition until_nl (s : list ascii) : list ascii := take_while (λ c, negb (c =c c_nl)) s.

(** The path of one line of [maps]: from the first slash on, without the
    newline, cut to 511 characters. [None] for a line without a slash. *)
Definition map_path (l : list ascii) : option (list ascii) :=
  let slash := drop_while (λ c, negb (c =c "/")) (cstring l) in
  match slash with
  | [] => None
  | _ => Some (take 511 (until_nl slash))
  end.

(** The lines [fgets(line, 1024, fp)] returns in turn. *)
Fixpoint fgets_all (fuel : nat) (text : list ascii) : list (list ascii) :=
  match fuel with
  | O => []
  | S fuel =>
    match fgets 1024 text with
    | None => []
    | Some (l, rest) => l :: fgets_all fuel rest
    end
  end.

(** The loop over [maps]: the paths printed, given the ones seen so far. *)
Fixpoint mem_paths (ls : list (list ascii)) (seen : list (list ascii)) : list (list ascii) :=
  match ls with
  | [] => []
  | l :: rest =>
    match map_path l with
    | None => mem_paths rest seen
    | Some p =>
      if existsb (λ q, q =s p) seen then mem_paths rest seen
      else p :: mem_paths rest (if decide (length seen < SEEN_MAX)%nat then seen ++ [p] else seen)
    end
  end.

(** The descriptor numbers of a directory listing, as stored in [nums]. *)
Fixpoint fd_nums (names : list (list ascii)) (nums : list Z) : list Z :=
  match names with
  | [] => nums
  | n :: rest =>
    if char_at n 0 =c "." then fd_nums rest nums
    else
      let '(v, endp) := strtol n in
      if negb (char_at endp 0 =c c_nul) then fd_nums rest nums
      else fd_nums rest (if decide (length nums < NUMS_MAX)%nat then nums ++ [int32 v] else nums)
  end.

Section code.
Context `{Posix}.

Definition type_of (path : list ascii) (s : sys) : list ascii :=
  match os_stat (cwd s) path with
  | None => lit "REG"
  | Some S_IFDIR => lit "DIR"
  | Some S_IFCHR => lit "CHR"
  | Some S_IFBLK => lit "BLK"
  | Some S_IFIFO => lit "FIFO"
  | Some S_IFSOCK => lit "SOCK"
  | Some _ => lit "REG"
  end.

Definition row (pid : Z) (fd path : list ascii) (s : sys) : list ascii :=
  itoa pid ++ lit "    " ++ fd ++ lit "    " ++ type_of path s ++ lit "    " ++ path.

(** [readlink(link, target, sizeof(target) - 1)] with a 512-byte buffer. *)
Definition link_target (link : list ascii) : option (list ascii) :=
  match os_readlink link with
  | LinkTo t => if decide (t = []) then None else Some (take 511 t)
  | _ => None
  end.

(** The row of a link, when it can be read. *)
Definition link_row (pid : Z) (fd link : list ascii) (s : sys) : list (list ascii) :=
  match link_target link with
  | Some t => [row pid fd t s]
  | None => []
  end.

Definition proc_path (size : nat) (pid : Z) (rest : list ascii) : list ascii :=
  snprintf size (lit "/proc/" ++ itoa pid ++ rest).

Definition fd_rows (pid : Z) (s : sys) : list (list ascii) :=
  let fddir := proc_path 64 pid (lit "/fd") in
  match os_readdir (cwd s) fddir with
  | None => []
  | Some names =>
    n ← exchange_sort Z.ltb (fd_nums names []);
    link_row pid (snprintf 16 (itoa n)) (snprintf 96 (fddir ++ lit "/" ++ itoa n)) s
  end.

(** [for each row: printf("...\n")]. *)
Definition print_rows (rows : list (list ascii)) : M sys unit := mfor rows (λ r, puts (line r)).

Definition spy_none : M sys unit := eputs (line (lit "spy: no such process")).

(** [run_spy] once the process is known. *)
Definition spy_pid (pid : Z) : M sys unit :=
  st ← gets (λ s, os_stat (cwd s) (proc_path 64 pid []));
  match st with
  | None => spy_none
  | Some _ =>
    match os_readlink (proc_path 300 pid (lit "/cwd")) with
    | LinkEACCES => eputs (line (lit "spy: permission denied"))
    | _ =>
      puts (line (lit "PID    FD    TYPE   PATH"));;
      s ← gets id;
      print_rows (link_row pid (lit "cwd") (proc_path 300 pid (lit "/cwd")) s);;
      print_rows (link_row pid (lit "txt") (proc_path 300 pid (lit "/exe")) s);;
      r ← open_read (proc_path 64 pid (lit "/maps"));
      match r with
      | None => mret ()
      | Some (fd, p) =>
        text ← gets (contents p);
        print_rows ((λ q, row pid (lit "mem") q s) <$>
                    mem_paths (fgets_all (S (length text)) text) []);;
        close fd
      end;;
      print_rows (fd_rows pid s)
    end
  end.

Definition run_spy (tokens : list Token) : M sys unit :=
  match tail tokens with
  | [] => pid ← gets self_pid; spy_pid pid
  | [t] =>
    let '(v, endp) := strtol (value t) in
    if negb (char_at endp 0 =c c_nul) || (char_at (value t) 0 =c c_nul) || (v <? 0) then spy_none
    else spy_pid (int32 v)
  | _ => eputs (line (lit "spy: invalid syntax"))
  end.
End code.

(** ** The mapped files *)

(** The paths of the lines, in order. *)
Definition all_paths (ls : list (list ascii)) : list (list ascii) := omap map_path ls.

Lemma seen_in (p : list ascii) seen : existsb (λ q, q =s p) seen = true ↔ p ∈ seen.
Proof.
  rewrite existsb_exists. split.
  - intros (q & Hq & ->%streq_true). by apply list_elem_of_In.
  - intros Hp. exists p. split; [by apply list_elem_of_In|apply streq_refl].
Qed.

Lemma mem_paths_spec ls seen :
  NoDup seen → (size (list_to_set (C := gset (list ascii)) (seen ++ all_paths ls)) ≤ SEEN_MAX)%nat →
  NoDup (mem_paths ls seen) ∧
  (∀ p, p ∈ mem_paths ls seen ↔ p ∈ all_paths ls ∧ p ∉ seen) ∧
  sublist (mem_paths ls seen) (all_paths ls).
Proof.
  revert seen; induction ls as [|l ls IH]; intros seen Hnd Hsz; cbn [mem_paths].
  { split_and!; [constructor|set_solver|done]. }
  change (all_paths (l :: ls)) with
    (match map_path l with Some p => p :: all_paths ls | None => all_paths ls end) in *.
  destruct (map_path l) as [p|] eqn:Ep; [|by apply IH].
  destruct (existsb (λ q, q =s p) seen) eqn:Es.
  - apply seen_in in Es. destruct (IH seen Hnd) as (H1 & H2 & H3).
    { etrans; [|exact Hsz]. apply subseteq_size. set_solver. }
    split_and!; [done| |by apply sublist_cons]. intros q. rewrite H2. set_solver.
  - assert (p ∉ seen) as Hp by (intros ?%seen_in; congruence).
    assert (length seen < SEEN_MAX)%nat as Hlt.
    { assert (S (length seen) ≤ SEEN_MAX)%nat; [|lia]. etrans; [|exact Hsz].
      assert (size (list_to_set (C := gset (list ascii)) (p :: seen)) = S (length seen)) as <-.
      { rewrite size_list_to_set by (by constructor). done. }
      apply subseteq_size. set_solver. }
    rewrite decide_True by done. destruct (IH (seen ++ [p])) as (H1 & H2 & H3).
    { apply NoDup_app. split_and!; [done| |apply NoDup_singleton]. set_solver. }
    { etrans; [|exact Hsz]. apply subseteq_size. set_solver. }
    split_and!.
    + constructor; [|done]. rewrite H2. set_solver.
    + intros q. rewrite elem_of_cons, H2. destruct (decide (q = p)) as [->|]; set_solver.
    + by apply sublist_skip.
Qed.

(** [spy] reports every mapped file once. When the process maps at most
    256 different files, the "mem" rows are the distinct paths of its [maps]
    file, each exactly once, in the order of the file; and the descriptor
    rows come in ascending order, one for every listed descriptor number. *)
Theorem spy_rows ls names :
  (size (list_to_set (C := gset (list ascii)) (all_paths ls)) ≤ SEEN_MAX)%nat →
  NoDup (mem_paths ls []) ∧ (∀ p, p ∈ mem_paths ls [] ↔ p ∈ all_paths ls) ∧
  sublist (mem_paths ls []) (all_paths ls) ∧
  StronglySorted Z.le (exchange_sort Z.ltb (fd_nums names [])) ∧
  exchange_sort Z.ltb (fd_nums names []) ≡ₚ fd_nums names [].
Proof.
  intros Hsz. destruct (mem_paths_spec ls []) as (H1 & H2 & H3); [constructor|done|].
  destruct (exchange_sort_Z (fd_nums names [])) as [Hp Hs].
  split_and!; [done| |done|done|done]. intros p. rewrite H2. set_solver.
Qed.

Lemma spy_rows_witness :
  let ls := [lit "1-2 r-- /lib/a"; lit "3-4 rw-"; lit "5-6 r-x /bin/x"; lit "7-8 r-- /lib/a"] in
  let names := lit <$> ["."; ".."; "2"; "10"; "0"; "x1"]%string in
  mem_paths ls [] = [lit "/lib/a"; lit "/bin/x"] ∧
  NoDup (mem_paths ls []) ∧ (∀ p, p ∈ mem_paths ls [] ↔ p ∈ all_paths ls) ∧
  sublist (mem_paths ls []) (all_paths ls) ∧
  StronglySorted Z.le (exchange_sort Z.ltb (fd_nums names [])) ∧
  exchange_sort Z.ltb (fd_nums names []) ≡ₚ fd_nums names [].
Proof.
  intros ls names. split; [by vm_compute|]. apply (spy_rows ls names).
  apply (bool_decide_unpack _). vm_compute. exact I.
Defined.
