(* ===== verification/Redirection.v ===== *)
(** Redirection: [c-shell/src/redirection.c].

    [setup_input] concatenates the [<] files into a temporary file;
    [outreg_validate] opens every [>]/[>>] target once, before the command
    runs; [outreg_register] remembers the targets of a child and
    [outreg_finalize] copies what the child wrote to its temporary file into
    them. The registry is the array [registry[OUTREG_MAX]], an entry with
    [used == 0] being [None]. *)
From S2P Require Import Prelude CLib Sys.

Definition OUTREG_MAX : nat := 128.
Definition OUTREG_FILES_MAX : nat := 16.

Record OutSpec := mkOutSpec { o_pid : Z; o_files : list (list ascii) }.

Record rstate := mkRstate { r_sys : sys; registry : list (option OutSpec) }.
Definition put_sys (s : sys) (r : rstate) : rstate := mkRstate s (registry r).
Definition put_registry (g : list (option OutSpec)) (r : rstate) : rstate := mkRstate (r_sys r) g.
(** System calls made from code that also holds the registry. *)
Definition on_sys {A} : M sys A → M rstate A := zoom r_sys put_sys.

Definition tmp_in_name (cmd_index : Z) : list ascii :=
  snprintf 64 (lit ".cshell_tmp_in_" ++ itoa cmd_index).
Definition tmp_out_name (pid : Z) : list ascii :=
  snprintf 64 (lit ".cshell_tmp_out_" ++ itoa pid).

Section code.
Context `{Posix}.

(** The loop of [setup_input] over the input files; [tmp] is the path of the
    temporary file. [false] when a file cannot be opened. *)
Fixpoint concat_inputs (in_files : list (list ascii)) (tmp : list ascii) : M sys bool :=
  match in_files with
  | [] => mret true
  | f :: rest =>
    r ← open_read f;
    match r with
    | None => mret false
    | Some (fd, p) => copy_file p [tmp];; close fd;; concat_inputs rest tmp
    end
  end.

(** [setup_input]: [-1] for no redirection, [-2] for an unreadable file, or
    the descriptor of the temporary file, rewound. *)
Definition setup_input (in_files : list (list ascii)) (cmd_index : Z) : M sys Z :=
  match in_files with
  | [] => mret (-1)
  | _ =>
    let name := tmp_in_name cmd_index in
    r ← open_write false name;
    match r with
    | None => perror (lit "cshell: tmpfile failed");; mret (-1)
    | Some (tmp_fd, tmp) =>
      ok ← concat_inputs in_files tmp;
      if ok : bool then
        modify (λ s, set_fds (<[tmp_fd := OTemp (contents tmp s)]> (fds s)) s);;
        mret (Z.of_nat tmp_fd)
      else
        eputs (line (lit "cshell: no such file or directory"));;
        close tmp_fd;; unlink name;; mret (-2)
    end
  end.

(** [outreg_validate]: targets with their mode ([true] is [>>]); [opened] is
    [fds[0..i)], an array of [OUTREG_FILES_MAX] descriptors. *)
Fixpoint validate_loop (targets : list (list ascii * bool)) (opened : list nat) : M sys Z :=
  match targets with
  | [] => mfor opened close;; mret 0
  | (f, mode) :: rest =>
    r ← open_write mode f;
    match r with
    | None =>
      eputs (line (lit "cshell: unable to create file for writing"));;
      mfor opened close;; mret (-1)
    | Some (fd, _) =>
      if decide (length opened < OUTREG_FILES_MAX)%nat then validate_loop rest (opened ++ [fd])
      else stuck
    end
  end.
Definition outreg_validate (targets : list (list ascii * bool)) : M sys Z :=
  validate_loop targets [].

(** [outreg_register]. *)
Definition outreg_register (pid : Z) (out_files : list (list ascii)) : M rstate unit :=
  match out_files with
  | [] => mret ()
  | _ =>
    modify (λ r,
      match index_of (λ o, bool_decide (o = None)) (registry r) with
      | None => r
      | Some slot =>
        put_registry (<[slot := Some (mkOutSpec pid (take OUTREG_FILES_MAX out_files))]>
                        (registry r)) r
      end)
  end.

(** [open] of every target with [O_WRONLY | O_CREAT | O_APPEND]; a failed
    open is [None]. *)
Fixpoint open_targets (fs : list (list ascii)) : M sys (list (option (nat * list ascii))) :=
  match fs with
  | [] => mret []
  | f :: rest => r ← open_write true f; rs ← open_targets rest; mret (r :: rs)
  end.

Definition the_fds (rs : list (option (nat * list ascii))) : list nat :=
  omap (fmap fst) rs.
Definition the_paths (rs : list (option (nat * list ascii))) : list (list ascii) :=
  omap (fmap snd) rs.

(** Copy the file [tmpname] into every target and remove it: the body shared
    by [outreg_finalize] and [exec_cmd]. *)
Definition deliver_output (tmpname : list ascii) (targets : list (list ascii)) : M sys unit :=
  rs ← open_targets targets;
  t ← open_read tmpname;
  match t with
  | Some (tmp_fd, tmp) => copy_file tmp (the_paths rs);; close tmp_fd
  | None => mret ()
  end;;
  unlink tmpname;;
  mfor (the_fds rs) close.

(** [outreg_finalize]: the first entry of that pid. *)
Definition outreg_finalize (pid : Z) : M rstate unit :=
  slot ← gets (λ r, index_of (λ o, match o with
                                   | Some s => bool_decide (o_pid s = pid)
                                   | None => false
                                   end) (registry r));
  match slot with
  | None => mret ()
  | Some i =>
    spec ← gets (λ r, registry r !! i);
    match spec with
    | Some (Some s) =>
      on_sys (deliver_output (tmp_out_name pid) (o_files s));;
      modify (λ r, put_registry (<[i := None]> (registry r)) r)
    | _ => mret ()
    end
  end.

End code.

(** ** The inputs *)

Section inputs.
Context `{Posix}.

(** [cat f1 f2 ...]: the contents of the files, one after the other. *)
Definition cat_files (s : sys) (fs : list (list ascii)) : list ascii :=
  mjoin ((λ f, contents (abspath (cwd s) f) s) <$> fs).

Lemma cat_files_insert tmp c s fs :
  Forall (λ f, abspath (cwd s) f ≠ tmp) fs →
  cat_files (set_files (<[tmp := c]> (files s)) s) fs = cat_files s fs.
Proof.
  intros Hfs. unfold cat_files. f_equal. apply list_fmap_ext. intros i f Hf.
  rewrite contents_insert, decide_False; [done|]. apply not_eq_sym.
  eapply Forall_lookup in Hfs; [|exact Hf]. done.
Qed.

(** The file can be read and is not the temporary file. *)
Definition input_ok (s : sys) (tmp f : list ascii) : Prop :=
  is_Some (files s !! abspath (cwd s) f) ∧
  os_can_read (abspath (cwd s) f) = true ∧ abspath (cwd s) f ≠ tmp.

(** One round of the loop: the temporary file grows by the file read. *)
Lemma concat_inputs_step f fs tmp s :
  is_Some (files s !! tmp) → input_ok s tmp f →
  concat_inputs (f :: fs) tmp s =
  concat_inputs fs tmp
    (set_files (<[tmp := contents tmp s ++ contents (abspath (cwd s) f) s]> (files s)) s).
Proof.
  intros Htmp (Hf & Hr & Hne). cbn [concat_inputs].
  destruct (open_read_spec f s Hf Hr) as (fd & Eo & Hfd).
  rewrite (bind_eq _ _ _ _ _ Eo). set (p := abspath (cwd s) f) in *.
  set (s1 := set_fds _ s).
  destruct (copy_file_spec p [tmp] s1) as (s2 & Ec & Heq & Hp).
  { apply NoDup_singleton. } { by rewrite list_elem_of_singleton. }
  { intros d ->%list_elem_of_singleton. done. }
  rewrite (bind_eq _ _ _ _ _ Ec).
  rewrite (bind_eq _ _ _ () (set_fds (delete fd (fds s2)) s2)) by done. f_equal.
  rewrite Heq. unfold s1. simpl. rewrite delete_insert_id by done.
  assert (files s2 = <[tmp := contents tmp s ++ contents p s]> (files s)) as ->; [|by destruct s].
  apply map_eq. intros q. rewrite Hp, lookup_insert. unfold s1, contents. simpl.
  destruct (decide (tmp = q)) as [<-|].
  - by rewrite decide_True by by apply list_elem_of_singleton.
  - rewrite decide_False; [done|]. by rewrite list_elem_of_singleton.
Qed.

Lemma concat_inputs_ok in_files tmp s :
  is_Some (files s !! tmp) → Forall (input_ok s tmp) in_files →
  concat_inputs in_files tmp s =
  Some (true, set_files (<[tmp := contents tmp s ++ cat_files s in_files]> (files s)) s).
Proof.
  revert s; induction in_files as [|f fs IH]; intros s Htmp Hfs.
  { simpl. rewrite app_nil_r. destruct Htmp as [c Hc]. unfold contents. rewrite Hc. simpl.
    rewrite insert_id by done. by destruct s. }
  apply Forall_cons in Hfs as [Hf Hfs]. rewrite concat_inputs_step by done.
  rewrite IH; simpl.
  - rewrite contents_insert, decide_True, insert_insert_eq, <-app_assoc by done.
    rewrite cat_files_insert; [done|]. eapply Forall_impl; [exact Hfs|]. by intros ? (_ & _ & ?).
  - rewrite lookup_insert_eq. eauto.
  - eapply Forall_impl; [exact Hfs|]. intros g (? & ? & ?). unfold input_ok. simpl.
    by rewrite lookup_insert_ne.
Qed.

(** At the first missing file the loop stops; only the temporary file has
    changed. *)
Lemma concat_inputs_missing pre f post tmp s :
  is_Some (files s !! tmp) → Forall (input_ok s tmp) pre →
  files s !! abspath (cwd s) f = None → abspath (cwd s) f ≠ tmp →
  ∃ c, concat_inputs (pre ++ f :: post) tmp s =
       Some (false, set_files (<[tmp := c]> (files s)) s).
Proof.
  revert s; induction pre as [|g pre IH]; intros s Htmp Hpre Hf Hne.
  { exists (contents tmp s). simpl. rewrite (bind_eq _ _ _ _ _ (open_read_missing _ _ Hf)).
    destruct Htmp as [c Hc]. unfold contents. rewrite Hc. simpl. rewrite insert_id by done.
    by destruct s. }
  apply Forall_cons in Hpre as [Hg Hpre]. cbn [app]. rewrite concat_inputs_step by done.
  edestruct IH as (c & ->); simpl.
  - rewrite lookup_insert_eq. eauto.
  - eapply Forall_impl; [exact Hpre|]. intros h (? & ? & ?). unfold input_ok. simpl.
    by rewrite lookup_insert_ne.
  - by rewrite lookup_insert_ne.
  - done.
  - exists c. simpl. by rewrite insert_insert_eq.
Qed.

(** [setup_input] on readable files returns a fresh descriptor that reads
    the concatenation of the files in the order given; nothing else of the
    descriptor table changes, and the only file created is the temporary one. *)
Theorem setup_input_concatenates in_files idx s :
  let tmp := abspath (cwd s) (tmp_in_name idx) in
  in_files ≠ [] → os_can_write tmp = true → Forall (input_ok s tmp) in_files →
  ∃ fd s', setup_input in_files idx s = Some (Z.of_nat fd, s') ∧
    fds s !! fd = None ∧
    fds s' = <[fd := OTemp (cat_files s in_files)]> (fds s) ∧
    files s' = <[tmp := cat_files s in_files]> (files s) ∧
    out s' = out s ∧ err s' = err s.
Proof.
  intros tmp Hne Hw Hfs. destruct in_files as [|f0 fs0]; [done|].
  set (l := f0 :: fs0) in *. unfold setup_input. cbv beta iota. unfold l at 1.
  destruct (open_write_spec false (tmp_in_name idx) s Hw) as (fd & Eo & Hfd).
  rewrite (bind_eq _ _ _ _ _ Eo). fold tmp. set (s1 := set_fds _ _).
  rewrite (bind_eq _ _ _ _ _ (concat_inputs_ok l tmp s1
    ltac:(unfold s1; simpl; rewrite lookup_insert_eq; eauto)
    ltac:(eapply Forall_impl; [exact Hfs|]; intros g (? & ? & ?); unfold input_ok, s1; simpl;
          by rewrite lookup_insert_ne))).
  assert (contents tmp s1 = []) as E1 by (unfold contents, s1; simpl; by rewrite lookup_insert_eq).
  assert (cat_files s1 l = cat_files s l) as E2.
  { unfold s1. apply (cat_files_insert tmp [] s).
    eapply Forall_impl; [exact Hfs|]. by intros ? (_ & _ & ?). }
  rewrite E1, E2. cbn [app]. eexists fd, _. split; [reflexivity|]. simpl.
  unfold contents. simpl. rewrite lookup_insert_eq. unfold s1. simpl.
  by rewrite !insert_insert_eq.
Qed.

(** C37: when one of the input files does not exist, [setup_input] reports it
    on standard error and returns [-2]; every descriptor it opened is closed,
    the temporary file is removed and no other file has changed. *)
Theorem setup_input_missing pre f post idx s :
  let tmp := abspath (cwd s) (tmp_in_name idx) in
  os_can_write tmp = true → Forall (input_ok s tmp) pre →
  files s !! abspath (cwd s) f = None → abspath (cwd s) f ≠ tmp →
  setup_input (pre ++ f :: post) idx s =
  Some (-2, set_err (err s ++ line (lit "cshell: no such file or directory"))
              (set_files (delete tmp (files s)) s)).
Proof.
  intros tmp Hw Hpre Hf Hne.
  assert (pre ++ f :: post ≠ []) as Hl by by destruct pre.
  destruct (open_write_spec false (tmp_in_name idx) s Hw) as (fd & Eo & Hfd).
  fold tmp in Eo. set (s1 := set_fds _ _) in Eo.
  destruct (concat_inputs_missing pre f post tmp s1) as (c & Ec).
  { unfold s1. simpl. rewrite lookup_insert_eq. eauto. }
  { eapply Forall_impl; [exact Hpre|]. intros g (? & ? & ?). unfold input_ok, s1. simpl.
    by rewrite lookup_insert_ne. }
  { unfold s1. simpl. by rewrite lookup_insert_ne. }
  { done. }
  remember (pre ++ f :: post) as l. destruct l as [|f0 fs0]; [done|]. unfold setup_input.
  rewrite (bind_eq _ _ _ _ _ Eo). cbv beta iota. rewrite (bind_eq _ _ _ _ _ Ec).
  cbv beta iota. unfold eputs, close, unlink, the_path, modify, gets.
  unfold mbind, M_bind, mret, M_ret. cbv beta iota. do 2 f_equal. unfold s1.
  autorewrite with sys. simpl. rewrite !delete_insert_eq, delete_id by done. fold tmp.
  by rewrite <-(fds_set_files (delete tmp (files s)) s) at 1; rewrite set_fds_id.
Qed.

End inputs.

(** ** The outputs *)

Section outputs.
Context `{Posix}.

(** The files after every target has been opened in its mode. *)
Definition open_effect (c : list ascii) (targets : list (list ascii * bool))
    (m : gmap (list ascii) (list ascii)) : gmap (list ascii) (list ascii) :=
  foldl (λ m t, <[abspath c t.1 := if t.2 : bool then default [] (m !! abspath c t.1) else []]> m)
    m targets.

Lemma validate_loop_spec targets opened s t0 :
  (length opened + length targets ≤ OUTREG_FILES_MAX)%nat →
  foldr delete (fds s) opened = t0 →
  Forall (λ t, os_can_write (abspath (cwd s) t.1) = true) targets →
  validate_loop targets opened s =
  Some (0, set_fds t0 (set_files (open_effect (cwd s) targets (files s)) s)).
Proof.
  revert opened s; induction targets as [|[f mode] ts IH]; intros opened s Hlen Ht0 Hw.
  { simpl. rewrite (bind_eq _ _ _ _ _ (close_all opened s)), Ht0. by destruct s. }
  apply Forall_cons in Hw as [Hf Hw]. cbn [validate_loop].
  destruct (open_write_spec mode f s Hf) as (fd & Eo & Hfd).
  rewrite (bind_eq _ _ _ _ _ Eo). simpl in Hlen. rewrite decide_True by lia.
  rewrite IH; [done| | |done].
  - rewrite length_app. simpl. lia.
  - simpl. rewrite foldr_app. simpl. by rewrite delete_insert_id.
Qed.

(** When every target can be opened, each [>] target is left empty, each
    [>>] target keeps its contents, and no descriptor stays open. *)
Lemma outreg_validate_ok targets s :
  (length targets ≤ OUTREG_FILES_MAX)%nat →
  Forall (λ t, os_can_write (abspath (cwd s) t.1) = true) targets →
  outreg_validate targets s =
  Some (0, set_files (open_effect (cwd s) targets (files s)) s).
Proof.
  intros Hlen Hw. unfold outreg_validate.
  rewrite (validate_loop_spec targets [] s (fds s)); [by destruct s|simpl; lia|done..].
Qed.

Lemma validate_loop_fail pre f mode post opened s t0 :
  (length opened + length pre ≤ OUTREG_FILES_MAX)%nat →
  foldr delete (fds s) opened = t0 →
  Forall (λ t, os_can_write (abspath (cwd s) t.1) = true) pre →
  os_can_write (abspath (cwd s) f) = false →
  validate_loop (pre ++ (f, mode) :: post) opened s =
  Some (-1, set_err (err s ++ line (lit "cshell: unable to create file for writing"))
     (set_fds t0 (set_files (open_effect (cwd s) pre (files s)) s))).
Proof.
  revert opened s; induction pre as [|[g m] pre IH]; intros opened s Hlen Ht0 Hw Hf.
  { cbn [app validate_loop]. rewrite (bind_eq _ _ _ None s).
    2:{ unfold open_write. rewrite (bind_eq _ _ _ (abspath (cwd s) f) s) by done. by rewrite Hf. }
    cbv beta iota. set (s1 := set_err (err s ++ line (lit "cshell: unable to create file for writing")) s).
    rewrite (bind_eq _ _ _ () s1) by done.
    rewrite (bind_eq _ _ _ _ _ (close_all opened s1)). unfold s1. simpl. rewrite Ht0. by destruct s. }
  apply Forall_cons in Hw as [Hg Hw]. cbn [app validate_loop].
  destruct (open_write_spec m g s Hg) as (fd & Eo & Hfd).
  rewrite (bind_eq _ _ _ _ _ Eo). simpl in Hlen. rewrite decide_True by lia.
  rewrite IH; [done| | |done|done].
  - rewrite length_app. simpl. lia.
  - simpl. rewrite foldr_app. simpl. by rewrite delete_insert_id.
Qed.

(** a target that cannot be opened makes [outreg_validate] report the
    error, close every descriptor it opened and return [-1]; the targets
    before it have been opened in their mode (truncated for [>]) and the ones
    after it are not touched. *)
Theorem outreg_validate_error pre f mode post s :
  (length pre ≤ OUTREG_FILES_MAX)%nat →
  Forall (λ t, os_can_write (abspath (cwd s) t.1) = true) pre →
  os_can_write (abspath (cwd s) f) = false →
  outreg_validate (pre ++ (f, mode) :: post) s =
  Some (-1, set_err (err s ++ line (lit "cshell: unable to create file for writing"))
     (set_files (open_effect (cwd s) pre (files s)) s)).
Proof.
  intros Hlen Hw Hf. unfold outreg_validate.
  rewrite (validate_loop_fail pre f mode post [] s (fds s)); [by destruct s|simpl; lia|done..].
Qed.

(** [outreg_validate] writes past [fds[OUTREG_FILES_MAX]]: with more than
    16 writable targets its behaviour is undefined. *)
Theorem outreg_validate_overflow targets s :
  (OUTREG_FILES_MAX < length targets)%nat →
  Forall (λ t, os_can_write (abspath (cwd s) t.1) = true) targets →
  outreg_validate targets s = None.
Proof.
  unfold outreg_validate. intros Hlen.
  assert (OUTREG_FILES_MAX < length (A:=nat) [] + length targets ∧
    length (A:=nat) [] ≤ OUTREG_FILES_MAX)%nat as [Hl Hle] by (simpl; lia).
  clear Hlen. revert Hl Hle. generalize (@nil nat) as opened. revert s.
  induction targets as [|[f mode] ts IH]; intros s opened Hl Hle Hw; simpl in Hl; [lia|].
  apply Forall_cons in Hw as [Hf Hw]. cbn [validate_loop].
  destruct (open_write_spec mode f s Hf) as (fd & Eo & _).
  rewrite (bind_eq _ _ _ _ _ Eo). case_decide; [|done].
  apply IH; rewrite ?length_app; simpl; [lia..|done].
Qed.

Lemma open_targets_spec fs s :
  Forall (λ f, os_can_write (abspath (cwd s) f) = true) fs →
  ∃ rs t1, open_targets fs s =
      Some (rs, set_fds t1 (set_files (open_effect (cwd s) ((λ f, (f, true)) <$> fs) (files s)) s)) ∧
    the_paths rs = (abspath (cwd s) <$> fs) ∧ foldr delete t1 (the_fds rs) = fds s.
Proof.
  revert s; induction fs as [|f fs IH]; intros s Hw.
  { exists [], (fds s). split_and!; [by destruct s|done|done]. }
  apply Forall_cons in Hw as [Hf Hw]. cbn [open_targets].
  destruct (open_write_spec true f s Hf) as (fd & Eo & Hfd).
  rewrite (bind_eq _ _ _ _ _ Eo).
  edestruct IH as (rs & t1 & E & Hp & Ht); [|rewrite (bind_eq _ _ _ _ _ E)].
  { exact Hw. }
  eexists (Some (fd, abspath (cwd s) f) :: rs), t1. split_and!; [done|..].
  - rewrite fmap_cons.
    change (the_paths (Some (fd, abspath (cwd s) f) :: rs)) with (abspath (cwd s) f :: the_paths rs).
    by rewrite Hp.
  - change (the_fds (Some (fd, abspath (cwd s) f) :: rs)) with (fd :: the_fds rs).
    cbn [foldr]. rewrite Ht. by apply delete_insert_id.
Qed.

Lemma open_effect_append c fs m p :
  open_effect c ((λ f, (f, true)) <$> fs) m !! p =
  if decide (p ∈ abspath c <$> fs) then Some (default [] (m !! p)) else m !! p.
Proof.
  unfold open_effect. revert m; induction fs as [|f fs IH]; intros m.
  { rewrite decide_False; [done|apply not_elem_of_nil]. }
  rewrite !fmap_cons. cbn [foldl fst snd]. rewrite IH, lookup_insert. clear IH.
  destruct (decide (abspath c f = p)), (decide (p ∈ abspath c <$> fs)),
    (decide (p ∈ abspath c f :: (abspath c <$> fs))); subst; try done; set_solver.
Qed.

(** Delivering a temporary file: every target grows by its contents, the
    temporary file is gone, the descriptor table is as before. *)
Lemma deliver_output_spec tmpname targets s :
  let tmp := abspath (cwd s) tmpname in
  let paths := abspath (cwd s) <$> targets in
  Forall (λ f, os_can_write (abspath (cwd s) f) = true) targets →
  NoDup paths → tmp ∉ paths → is_Some (files s !! tmp) → os_can_read tmp = true →
  ∃ m, deliver_output tmpname targets s = Some ((), set_files m s) ∧
    ∀ p, m !! p = if decide (p = tmp) then None
                  else if decide (p ∈ paths) then Some (contents p s ++ contents tmp s)
                  else files s !! p.
Proof.
  intros tmp paths Hw Hnd Htmp Hex Hr. unfold deliver_output.
  destruct (open_targets_spec targets s Hw) as (rs & t1 & E1 & Hp & Ht).
  rewrite (bind_eq _ _ _ _ _ E1). set (m1 := open_effect _ _ _) in *.
  assert (∀ p, m1 !! p = if decide (p ∈ paths) then Some (contents p s) else files s !! p) as Hm1
    by (intros p; apply open_effect_append).
  set (s1 := set_fds t1 (set_files m1 s)).
  destruct (open_read_spec tmpname s1) as (fd & E2 & Hfd).
  { unfold s1. simpl. fold tmp. by rewrite Hm1, decide_False. }
  { done. }
  rewrite (bind_eq _ _ _ _ _ E2). unfold s1 at 1. simpl (cwd _). fold tmp.
  set (s2 := set_fds _ s1). rewrite Hp. fold paths.
  destruct (copy_file_spec tmp paths s2) as (s3 & E3 & Heq & H3); [done|done| |].
  { intros d Hd. unfold s2, s1. simpl. rewrite Hm1, decide_True by done. eauto. }
  unfold tmp at 1 in E3. unfold mbind, M_bind. fold tmp in E3. rewrite E3.
  unfold close at 1, modify. cbv beta iota. unfold unlink, the_path, gets, modify.
  unfold mbind, M_bind. cbv beta iota. rewrite close_all.
  exists (delete tmp (files s3)). split.
  { do 2 f_equal. replace (foldr delete _ _) with (fds (set_files (delete tmp (files s3)) s)).
    - rewrite Heq. unfold s2, s1. by autorewrite with sys.
    - rewrite Heq. unfold s2. simpl. rewrite delete_insert_id by done. by rewrite Ht. }
  intros p. unfold s2, s1 in H3. simpl in H3.
  destruct (decide (p = tmp)) as [->|Hne]; [apply lookup_delete_eq|].
  rewrite lookup_delete_ne, H3 by done. case_decide as Hin.
  - f_equal. unfold contents at 1 2. simpl. rewrite !Hm1, decide_True, decide_False by done. done.
  - by rewrite Hm1, decide_False.
Qed.

(** Without the temporary file nothing is delivered: the targets are opened
    (and created if need be) and closed again. *)
Lemma deliver_output_no_tmp tmpname targets s :
  let tmp := abspath (cwd s) tmpname in
  let paths := abspath (cwd s) <$> targets in
  Forall (λ f, os_can_write (abspath (cwd s) f) = true) targets →
  tmp ∉ paths → files s !! tmp = None →
  ∃ m, deliver_output tmpname targets s = Some ((), set_files m s) ∧
    ∀ p, m !! p = if decide (p ∈ paths) then Some (contents p s) else files s !! p.
Proof.
  intros tmp paths Hw Htmp Hno. unfold deliver_output.
  destruct (open_targets_spec targets s Hw) as (rs & t1 & E1 & Hp & Ht).
  rewrite (bind_eq _ _ _ _ _ E1). set (m1 := open_effect _ _ _) in *.
  assert (∀ p, m1 !! p = if decide (p ∈ paths) then Some (contents p s) else files s !! p) as Hm1
    by (intros p; apply open_effect_append).
  set (s1 := set_fds t1 (set_files m1 s)).
  assert (files s1 !! abspath (cwd s1) tmpname = None) as Hno1.
  { unfold s1. simpl. fold tmp. by rewrite Hm1, decide_False. }
  rewrite (bind_eq _ _ _ _ _ (open_read_missing tmpname s1 Hno1)).
  unfold mbind, M_bind, mret, M_ret, unlink, the_path, gets, modify. cbv beta iota.
  unfold mbind, M_bind. cbv beta iota. rewrite close_all.
  exists m1. split; [|done]. do 2 f_equal. unfold s1. simpl. rewrite Ht.
  rewrite delete_id by (simpl; fold tmp; by rewrite Hm1, decide_False).
  by autorewrite with sys.
Qed.

(** Whatever can be opened, delivery ends and changes files only, provided the
    temporary file is not one of its own targets. *)
Lemma open_targets_total fs s :
  ∃ rs t1 m, open_targets fs s = Some (rs, set_fds t1 (set_files m s)) ∧
    the_paths rs ⊆ (abspath (cwd s) <$> fs) ∧ foldr delete t1 (the_fds rs) = fds s.
Proof.
  revert s; induction fs as [|f fs IH]; intros s.
  { exists [], (fds s), (files s). split_and!; [by destruct s|done|done]. }
  cbn [open_targets]. destruct (os_can_write (abspath (cwd s) f)) eqn:Hf.
  - destruct (open_write_spec true f s Hf) as (fd & Eo & Hfd).
    rewrite (bind_eq _ _ _ _ _ Eo).
    edestruct IH as (rs & t1 & m & E & Hp & Ht). rewrite (bind_eq _ _ _ _ _ E).
    eexists (Some (fd, abspath (cwd s) f) :: rs), t1, m. split_and!; [done|..].
    + rewrite fmap_cons. simpl in Hp.
      change (the_paths (Some (fd, abspath (cwd s) f) :: rs))
        with (abspath (cwd s) f :: the_paths rs). set_solver.
    + change (the_fds (Some (fd, abspath (cwd s) f) :: rs)) with (fd :: the_fds rs).
      cbn [foldr]. rewrite Ht. by apply delete_insert_id.
  - rewrite (bind_eq _ _ _ None s).
    2:{ unfold open_write. rewrite (bind_eq _ _ _ (abspath (cwd s) f) s) by done. by rewrite Hf. }
    destruct (IH s) as (rs & t1 & m & E & Hp & Ht). rewrite (bind_eq _ _ _ _ _ E).
    exists (None :: rs), t1, m. split_and!; [done|rewrite fmap_cons; set_solver|done].
Qed.

Lemma deliver_output_total tmpname targets s :
  abspath (cwd s) tmpname ∉ abspath (cwd s) <$> targets →
  ∃ m, deliver_output tmpname targets s = Some ((), set_files m s).
Proof.
  intros Htmp. unfold deliver_output.
  destruct (open_targets_total targets s) as (rs & t1 & m & E1 & Hp & Ht).
  rewrite (bind_eq _ _ _ _ _ E1). set (s1 := set_fds t1 (set_files m s)).
  destruct (open_read tmpname s1) as [[r s2]|] eqn:E2.
  2:{ unfold open_read, the_path, gets, alloc_fd, mbind, M_bind, mret, M_ret in E2.
      by destruct (bool_decide _ && _). }
  rewrite (bind_eq _ _ _ _ _ E2). destruct (open_read_Some _ _ _ _ E2) as [Hs2 Hr].
  destruct r as [[fd p]|].
  - destruct Hr as (-> & Hfd & Hfds & _).
    destruct (copy_file_total (abspath (cwd s1) tmpname) (the_paths rs) s2) as (s3 & E3 & Heq3).
    { unfold s1. simpl. set_solver. }
    unfold mbind, M_bind. rewrite E3. unfold close at 1, modify. cbv beta iota.
    unfold unlink, the_path, gets, modify, mbind, M_bind. cbv beta iota. rewrite close_all.
    exists (delete (abspath (cwd s) tmpname) (files s3)). do 2 f_equal.
    assert (fds s3 = <[fd := OFile (abspath (cwd s1) tmpname)]> t1) as Hfds3
      by (rewrite Heq3; exact Hfds).
    assert (s3 = set_fds (fds s3) (set_files (files s3) s)) as Hs3.
    { rewrite Heq3, Hs2. unfold s1. by autorewrite with sys. }
    simpl. rewrite Hfds3, delete_insert_id, Ht by done. rewrite Hs3.
    autorewrite with sys. by rewrite <-(fds_set_files (delete (abspath (cwd s) tmpname) (files s3)) s) at 1; rewrite set_fds_id.
  - subst s2. unfold mbind, M_bind, mret, M_ret, unlink, the_path, gets, modify. cbv beta iota.
    unfold mbind, M_bind. cbv beta iota. rewrite close_all.
    exists (delete (abspath (cwd s) tmpname) m). do 2 f_equal.
    unfold s1. simpl. rewrite Ht. by autorewrite with sys.
Qed.

(** ** The registry *)

Definition entry_of (pid : Z) (o : option OutSpec) : bool :=
  match o with
  | Some s => bool_decide (o_pid s = pid)
  | None => false
  end.

(** [outreg_finalize] when the first entry of the pid is entry [i]. *)
Lemma outreg_finalize_found pid i sp r :
  index_of (entry_of pid) (registry r) = Some i → registry r !! i = Some (Some sp) →
  outreg_finalize pid r =
  match deliver_output (tmp_out_name pid) (o_files sp) (r_sys r) with
  | Some (_, s') => Some ((), mkRstate s' (<[i := None]> (registry r)))
  | None => None
  end.
Proof.
  intros Hi Hsp. unfold outreg_finalize.
  rewrite (bind_eq _ _ _ (Some i) r) by (unfold gets; by rewrite <-Hi).
  rewrite (bind_eq _ _ _ (Some (Some sp)) r) by (unfold gets; by rewrite Hsp).
  unfold on_sys, zoom, modify, mbind, M_bind. by destruct (deliver_output _ _ _) as [[[] ?]|].
Qed.

Lemma outreg_finalize_unknown pid r :
  index_of (entry_of pid) (registry r) = None → outreg_finalize pid r = Some ((), r).
Proof.
  intros Hi. unfold outreg_finalize.
  by rewrite (bind_eq _ _ _ None r) by (unfold gets; by rewrite <-Hi).
Qed.

(** Registering a pid that has no entry puts its entry in the first free
    slot, where [outreg_finalize] finds it. *)
Lemma outreg_register_spec pid fs r i :
  fs ≠ [] → index_of (λ o, bool_decide (o = None)) (registry r) = Some i →
  index_of (entry_of pid) (registry r) = None →
  let g := <[i := Some (mkOutSpec pid (take OUTREG_FILES_MAX fs))]> (registry r) in
  outreg_register pid fs r = Some ((), put_registry g r) ∧
  index_of (entry_of pid) g = Some i ∧ g !! i = Some (Some (mkOutSpec pid (take OUTREG_FILES_MAX fs))) ∧
  <[i := None]> g = registry r.
Proof.
  intros Hne Hi Hno g. apply index_of_lt in Hi as Hlt. apply index_of_Some in Hi as Hi'.
  destruct Hi' as (x & Hx & ->%bool_decide_eq_true & _).
  assert (g !! i = Some (Some (mkOutSpec pid (take OUTREG_FILES_MAX fs)))) as Hg
    by by apply list_lookup_insert_eq.
  split_and!; [|..|done|].
  - destruct fs; [done|]. unfold outreg_register, modify. by rewrite Hi.
  - apply index_of_Some. eexists. split_and!; [exact Hg|by apply bool_decide_eq_true|].
    intros j y Hj Hy. unfold g in Hy. rewrite list_lookup_insert_ne in Hy by lia.
    apply (proj1 (index_of_None _ _) Hno). by eapply list_elem_of_lookup_2.
  - unfold g. rewrite list_insert_insert_eq. by apply list_insert_id.
Qed.

(** The life of a redirected command: the targets are validated, the child's
    pid is registered, the child writes [data] to its temporary file, and the
    shell finalizes it when it has exited. *)
Definition redirected_run (pid : Z) (targets : list (list ascii * bool)) (data : list ascii)
  : M rstate Z :=
  v ← on_sys (outreg_validate targets);
  outreg_register pid (targets.*1);;
  on_sys (modify (λ s, set_files (<[abspath (cwd s) (tmp_out_name pid) := data]> (files s)) s));;
  outreg_finalize pid;;
  mret v.

Lemma open_effect_lookup c targets m p :
  NoDup (abspath c <$> targets.*1) →
  open_effect c targets m !! p =
  match list_find (λ t, abspath c t.1 = p) targets with
  | Some (_, (_, mode)) => Some (if mode then default [] (m !! p) else [])
  | None => m !! p
  end.
Proof.
  unfold open_effect. revert m; induction targets as [|[f mode] ts IH]; intros m Hnd; [done|].
  rewrite !fmap_cons in Hnd. apply NoDup_cons in Hnd as [Hf Hnd]. simpl in Hf.
  cbn [foldl fst snd]. rewrite (IH _ Hnd), lookup_insert. simpl.
  destruct (decide (abspath c f = p)) as [Hfp|Hne].
  - destruct (list_find _ ts) as [[k [g md]]|] eqn:E; [|by rewrite Hfp].
    apply list_find_Some in E as (Hk & Hg & _). destruct Hf. simpl in Hg. rewrite Hfp, <-Hg.
    apply list_elem_of_fmap. exists g. split; [done|]. apply list_elem_of_fmap.
    exists (g, md). split; [done|]. by eapply list_elem_of_lookup_2.
  - by destruct (list_find _ ts) as [[k [g md]]|].
Qed.

(** C8: what a command writes to its redirected output reaches every target,
    when the targets are at most 16 different files that can be written (and
    none is the temporary file, which can be read), the registry has a free
    entry and none yet for the process, and the directory does not change in
    between. After validation, registration and finalization, a [>] target holds
    exactly the command's output and a [>>] target its old contents followed
    by the output; the temporary file is gone, the registry entry is free
    again, no descriptor is left open and no other file has changed. *)
Theorem redirected_output_delivered pid targets data r i :
  let s := r_sys r in
  let path (f : list ascii) := abspath (cwd s) f in
  let tmp := path (tmp_out_name pid) in
  targets ≠ [] → (length targets ≤ OUTREG_FILES_MAX)%nat →
  Forall (λ t, os_can_write (path t.1) = true) targets →
  NoDup (path <$> targets.*1) → tmp ∉ path <$> targets.*1 → os_can_read tmp = true →
  index_of (λ o, bool_decide (o = None)) (registry r) = Some i →
  index_of (entry_of pid) (registry r) = None →
  ∃ m, redirected_run pid targets data r = Some (0, mkRstate (set_files m s) (registry r)) ∧
    (∀ f (mode : bool), (f, mode) ∈ targets →
       m !! path f = Some ((if mode then contents (path f) s else []) ++ data)) ∧
    m !! tmp = None ∧
    (∀ p, p ≠ tmp → p ∉ path <$> targets.*1 → m !! p = files s !! p).
Proof.
  intros s path tmp Hne Hlen Hw Hnd Htmp Hr Hi Hno. unfold redirected_run.
  rewrite (bind_eq _ _ _ 0 (mkRstate (set_files (open_effect (cwd s) targets (files s)) s)
    (registry r))).
  2:{ unfold on_sys, zoom. fold s. by rewrite outreg_validate_ok. }
  set (m1 := open_effect (cwd s) targets (files s)).
  destruct (outreg_register_spec pid (targets.*1) (mkRstate (set_files m1 s) (registry r)) i)
    as (E1 & Hf & Hl & Hback); [by destruct targets|done|done|].
  rewrite (bind_eq _ _ _ _ _ E1). simpl in Hf, Hl, Hback. rewrite take_ge in Hf, Hl, Hback
    by by rewrite length_fmap.
  set (g := <[i := _]> (registry r)) in *.
  set (s2 := set_files (<[tmp := data]> m1) s).
  rewrite (bind_eq _ _ _ () (mkRstate s2 g)).
  2:{ unfold on_sys, zoom, modify, put_registry. simpl. rewrite take_ge by by rewrite length_fmap.
      done. }
  destruct (deliver_output_spec (tmp_out_name pid) (targets.*1) s2) as (m & Em & Hm).
  { by apply Forall_fmap. } { done. } { done. } { simpl. rewrite lookup_insert_eq. eauto. } { done. }
  rewrite (bind_eq _ _ _ () (mkRstate (set_files m s2) (registry r))).
  2:{ rewrite (outreg_finalize_found pid i _ (mkRstate s2 g) Hf Hl). simpl. rewrite Em. by rewrite Hback. }
  exists m. unfold s2 in *. simpl in Hm. fold path tmp in Hm.
  assert (∀ p, p ≠ tmp → default [] (<[tmp:=data]> m1 !! p) = default [] (m1 !! p)) as Hdef.
  { intros p Hp. by rewrite lookup_insert_ne. }
  split_and!; [done|..].
  - intros f mode Hin.
    assert (path f ∈ path <$> targets.*1) as Hpin.
    { apply list_elem_of_fmap. exists f. split; [done|]. apply list_elem_of_fmap. by exists (f, mode). }
    assert (path f ≠ tmp) as Hpne by (intros E; by rewrite E in Hpin).
    rewrite Hm, decide_False, decide_True by done. unfold contents at 1 2. simpl.
    rewrite lookup_insert_eq, Hdef by done. simpl. unfold m1.
    rewrite open_effect_lookup by done. fold (path f).
    destruct (list_find_elem_of (λ t, abspath (cwd s) t.1 = path f) targets (f, mode) Hin eq_refl)
      as [[k [f' mode']] Hk].
    rewrite Hk. apply list_find_Some in Hk as (Hk & Hp' & _).
    assert ((f', mode') = (f, mode)) as [= -> ->]; [|done].
    apply list_elem_of_lookup in Hin as [k' Hk'].
    assert (k = k') as ->; [|congruence].
    eapply NoDup_lookup; [exact Hnd|..]; rewrite !list_lookup_fmap, ?Hk, ?Hk'; simpl; [done|].
    f_equal. symmetry. exact Hp'.
  - by rewrite Hm, decide_True.
  - intros p Hp Hnin. rewrite Hm, !decide_False, lookup_insert_ne by done. unfold m1.
    rewrite open_effect_lookup by done.
    destruct (list_find _ targets) as [[k [f md]]|] eqn:E; [|done].
    apply list_find_Some in E as (Hk & Hg & _). destruct Hnin. simpl in Hg. rewrite <-Hg.
    apply list_elem_of_fmap. exists f. split; [done|]. apply list_elem_of_fmap.
    exists (f, md). split; [done|]. by eapply list_elem_of_lookup_2.
Qed.

(** the temporary output file is looked up by a relative name. If the
    shell has changed directory since the command was started, so that the
    file is not in the current directory, [outreg_finalize] frees the entry
    and delivers nothing: every target keeps the contents it had. *)
Theorem outreg_finalize_lost pid i sp r :
  let s := r_sys r in
  let path (f : list ascii) := abspath (cwd s) f in
  index_of (entry_of pid) (registry r) = Some i → registry r !! i = Some (Some sp) →
  Forall (λ f, os_can_write (path f) = true) (o_files sp) →
  path (tmp_out_name pid) ∉ path <$> o_files sp → files s !! path (tmp_out_name pid) = None →
  ∃ m, outreg_finalize pid r = Some ((), mkRstate (set_files m s) (<[i := None]> (registry r))) ∧
    ∀ p, default [] (m !! p) = contents p s.
Proof.
  intros s path Hi Hsp Hw Htmp Hno. rewrite (outreg_finalize_found pid i sp r Hi Hsp). fold s.
  destruct (deliver_output_no_tmp (tmp_out_name pid) (o_files sp) s Hw Htmp Hno) as (m & -> & Hm).
  exists m. split; [done|]. intros p. rewrite Hm. by case_decide.
Qed.

End outputs.

(** ** The theorems at concrete states *)

Definition demo_reg : rstate := mkRstate demo_sys (replicate OUTREG_MAX None).

Lemma setup_input_concatenates_witness :
  ∃ fd s', @setup_input demo_posix [lit "a"; lit "b"] 0 demo_sys = Some (Z.of_nat fd, s') ∧
    fds demo_sys !! fd = None ∧
    fds s' = <[fd := OTemp (cat_files demo_sys [lit "a"; lit "b"])]> (fds demo_sys) ∧
    files s' = <[abspath (cwd demo_sys) (tmp_in_name 0) :=
                   cat_files demo_sys [lit "a"; lit "b"]]> (files demo_sys) ∧
    out s' = out demo_sys ∧ err s' = err demo_sys.
Proof.
  apply (@setup_input_concatenates demo_posix); [done|reflexivity|].
  repeat constructor; try (by vm_compute; eauto); by vm_compute.
Defined.

Lemma setup_input_missing_witness :
  @setup_input demo_posix ([lit "a"] ++ lit "nope" :: [lit "b"]) 3 demo_sys =
  Some (-2, set_err (err demo_sys ++ line (lit "cshell: no such file or directory"))
    (set_files (delete (abspath (cwd demo_sys) (tmp_in_name 3)) (files demo_sys)) demo_sys)).
Proof.
  apply (@setup_input_missing demo_posix); [reflexivity| |reflexivity|by vm_compute].
  repeat constructor; try (by vm_compute; eauto); by vm_compute.
Defined.

Lemma outreg_validate_error_witness :
  @outreg_validate demo_posix ([(lit "a", false)] ++ (lit "/ro", true) :: [(lit "b", false)]) demo_sys =
  Some (-1, set_err (err demo_sys ++ line (lit "cshell: unable to create file for writing"))
    (set_files (open_effect (cwd demo_sys) [(lit "a", false)] (files demo_sys)) demo_sys)).
Proof.
  apply (@outreg_validate_error demo_posix); [apply (bool_decide_unpack _); vm_compute; exact I| |reflexivity].
  repeat constructor.
Defined.

Lemma outreg_validate_overflow_witness :
  @outreg_validate demo_posix (replicate 17 (lit "a", true)) demo_sys = None.
Proof.
  apply (@outreg_validate_overflow demo_posix).
  - apply (bool_decide_unpack _). vm_compute. exact I.
  - apply Forall_replicate. reflexivity.
Defined.

Lemma redirected_output_delivered_witness :
  let targets := [(lit "a", false); (lit "b", true)] in
  let path f := abspath (cwd demo_sys) f in
  ∃ m, @redirected_run demo_posix 101 targets (lit "out") demo_reg =
      Some (0, mkRstate (set_files m demo_sys) (registry demo_reg)) ∧
    (∀ f (mode : bool), (f, mode) ∈ targets →
       m !! path f = Some ((if mode then contents (path f) demo_sys else []) ++ lit "out")) ∧
    m !! path (tmp_out_name 101) = None ∧
    (∀ p, p ≠ path (tmp_out_name 101) → p ∉ path <$> targets.*1 → m !! p = files demo_sys !! p).
Proof.
  apply (@redirected_output_delivered demo_posix 101 [(lit "a", false); (lit "b", true)]
    (lit "out") demo_reg 0); try done; try reflexivity.
  - apply (bool_decide_unpack _). vm_compute. exact I.
  - repeat constructor.
  - apply (bool_decide_unpack _). vm_compute. exact I.
  - apply (bool_decide_unpack _). vm_compute. exact I.
Defined.

(** The command was started in [/h] and finishes when the shell is in [/h/d]. *)
Lemma outreg_finalize_lost_witness :
  let r := mkRstate (set_cwd (lit "/h/d") (set_files (<[lit "/h/.cshell_tmp_out_7" := lit "data"]>
                       (files demo_sys)) demo_sys)) [Some (mkOutSpec 7 [lit "o"])] in
  ∃ m, @outreg_finalize demo_posix 7 r =
      Some ((), mkRstate (set_files m (r_sys r)) [None]) ∧
    ∀ p, default [] (m !! p) = contents p (r_sys r).
Proof.
  intros r. apply (@outreg_finalize_lost demo_posix 7 0 (mkOutSpec 7 [lit "o"]) r);
    try reflexivity.
  - repeat constructor.
  - apply (bool_decide_unpack _). vm_compute. exact I.
Defined.
