(* ===== verification/Jobs.v ===== *)
(** The job table and its signal machinery: [c-shell/src/jobs.c] and
    [c-shell/include/jobs.h].

    The table is the array [jobs[JOBS_MAX]], an entry with [used == 0] being
    [None]. The [SIGCHLD] handler only appends to the pending queue; the queue
    is drained by [jobs_process_pending] when the shell is idle and by
    [jobs_wait_foreground] while it waits. What jobs.c needs of the rest of
    the shell is the interface [Host]: printing, sending signals, finishing
    the redirected output of a child and being suspended until a signal.

    [jobs_wait_foreground] returns [Blocked] when no further signal ever
    arrives: the shell then stays in [sigsuspend]. Its loop carries fuel
    [wait_fuel], one unit per queued event, per signal still to come and per
    event these report; [wait_loop_total] shows that this is enough. *)
From S2P Require Import Prelude CLib Sys.

Definition JOBS_MAX : nat := 64.
Definition JOB_MAX_PROCS : nat := 32.
Definition PENDING_MAX : nat := 256.
Definition NOTIF_MAX : nat := 64.
Definition NOTIF_LEN : nat := 256.
Definition INT_MAX : Z := 2 ^ 31 - 1.

Inductive JobState := JOB_RUNNING | JOB_STOPPED.
#[export] Instance JobState_eq_dec : EqDecision JobState.
Proof. solve_decision. Defined.

(** One process of a job: [pids[i]], [names[i]] and [done[i]]. *)
Record Proc := mkProc { p_pid : Z; p_name : list ascii; p_done : bool }.
#[export] Instance Proc_eq_dec : EqDecision Proc.
Proof. solve_decision. Defined.

Record Job := mkJob {
  job_number : Z;
  job_pgid : Z;
  job_procs : list Proc;
  job_cmdline : list ascii;
  job_state : JobState;
  job_background : bool;
}.
#[export] Instance Job_eq_dec : EqDecision Job.
Proof. solve_decision. Defined.

Definition set_state (st : JobState) (j : Job) : Job :=
  mkJob (job_number j) (job_pgid j) (job_procs j) (job_cmdline j) st (job_background j).
(** [j->done[idx] = 1]. *)
Definition set_done (idx : nat) (j : Job) : Job :=
  mkJob (job_number j) (job_pgid j)
    (alter (λ p, mkProc (p_pid p) (p_name p) true) idx (job_procs j))
    (job_cmdline j) (job_state j) (job_background j).

(** What the job table uses of the rest of the shell. *)
Class Host (F : Type) := {
  h_puts : list ascii → M F unit;
  h_kill : Z → Z → M F unit;
  h_finalize : Z → M F unit;
  (** the signals that will end a suspension, and taking the next one *)
  h_deliveries : F → list delivery;
  h_next : F → option (delivery * F);
}.

Record jstate (F : Type) := mkJstate {
  jobs : list (option Job);
  next_job_number : Z;
  pending : list (Z * wstatus);
  notif_queue : list (list ascii);
  g_timed_out : bool;
  ext : F;
}.
Arguments mkJstate {F}.
Arguments jobs {F}.
Arguments next_job_number {F}.
Arguments pending {F}.
Arguments notif_queue {F}.
Arguments g_timed_out {F}.
Arguments ext {F}.

Section code.
Context {F : Type} `{Host F}.

Definition set_jobs v (s : jstate F) :=
  mkJstate v (next_job_number s) (pending s) (notif_queue s) (g_timed_out s) (ext s).
Definition set_next v (s : jstate F) :=
  mkJstate (jobs s) v (pending s) (notif_queue s) (g_timed_out s) (ext s).
Definition set_pending v (s : jstate F) :=
  mkJstate (jobs s) (next_job_number s) v (notif_queue s) (g_timed_out s) (ext s).
Definition set_notifs v (s : jstate F) :=
  mkJstate (jobs s) (next_job_number s) (pending s) v (g_timed_out s) (ext s).
Definition set_timed_out v (s : jstate F) :=
  mkJstate (jobs s) (next_job_number s) (pending s) (notif_queue s) v (ext s).
Definition set_ext (v : F) (s : jstate F) :=
  mkJstate (jobs s) (next_job_number s) (pending s) (notif_queue s) (g_timed_out s) v.
Definition on_ext {A} : M F A → M (jstate F) A := zoom ext set_ext.

(** ** Notifications *)

Definition queue_notification (msg : list ascii) : M (jstate F) unit := modify (λ s,
  if decide (length (notif_queue s) < NOTIF_MAX)%nat
  then set_notifs (notif_queue s ++ [strncpy_nul NOTIF_LEN msg]) s
  else s).

Definition jobs_flush_notifications : M (jstate F) unit :=
  ns ← gets notif_queue;
  mfor ns (λ m, on_ext (h_puts (line m)));;
  modify (set_notifs []).

(** ** The table *)

Definition jobs_init : M (jstate F) unit := modify (λ s,
  set_notifs [] (set_pending [] (set_next 1 (set_jobs (replicate JOBS_MAX None) s)))).

Definition free_slot (o : option Job) : bool := bool_decide (o = None).

(** [jobs_register]; [next_job_number++] at [INT_MAX] is a signed overflow. *)
Definition jobs_register (pgid : Z) (ps : list (Z * option (list ascii)))
    (cmdline : option (list ascii)) (background : bool) (st : JobState) : M (jstate F) Z :=
  slot ← gets (λ s, index_of free_slot (jobs s));
  match slot with
  | None => mret (-1)
  | Some i =>
    n ← gets next_job_number;
    if n <? INT_MAX then
      let procs := (λ p, mkProc p.1 (default (lit "?") p.2) false) <$> take JOB_MAX_PROCS ps in
      modify (λ s, set_next (n + 1)
        (set_jobs (<[i := Some (mkJob n pgid procs (default [] cmdline) st background)]> (jobs s)) s));;
      mret n
    else stuck
  end.

Definition has_number (n : Z) (o : option Job) : bool :=
  match o with Some j => job_number j =? n | None => false end.
Definition has_pgid (g : Z) (o : option Job) : bool :=
  match o with Some j => job_pgid j =? g | None => false end.
Definition is_stopped (o : option Job) : bool :=
  match o with Some j => bool_decide (job_state j = JOB_STOPPED) | None => false end.

Definition jobs_remove (n : Z) : M (jstate F) unit := modify (λ s,
  match index_of (has_number n) (jobs s) with
  | Some i => set_jobs (<[i := None]> (jobs s)) s
  | None => s
  end).

(** A [Job *] is the index of the entry it points to. *)
Definition jobs_find_by_number (n : Z) (s : jstate F) : option nat :=
  index_of (has_number n) (jobs s).
Definition jobs_find_by_pgid (g : Z) (s : jstate F) : option nat :=
  index_of (has_pgid g) (jobs s).
Definition deref (i : nat) (s : jstate F) : option Job := mjoin (jobs s !! i).

Definition proc_index (pid : Z) (j : Job) : option nat :=
  index_of (λ p, p_pid p =? pid) (job_procs j).

(** [jobs_find_by_pid]: the entry and, in it, the index of the process. *)
Fixpoint find_by_pid (pid : Z) (l : list (option Job)) : option (nat * nat) :=
  match l with
  | [] => None
  | o :: l' =>
    match o ≫= proc_index pid with
    | Some p => Some (O, p)
    | None => prod_map S id <$> find_by_pid pid l'
    end
  end.
Definition jobs_find_by_pid (pid : Z) (s : jstate F) : option (nat * nat) :=
  find_by_pid pid (jobs s).

Definition jobs_has_stopped (s : jstate F) : bool := existsb is_stopped (jobs s).

(** [j->...] assignments through a pointer. *)
Definition update_job (i : nat) (f : Job → Job) : M (jstate F) unit :=
  modify (λ s, set_jobs (alter (fmap f) i (jobs s)) s).

(** ** Display *)

Definition used_numbers (l : list (option Job)) : list Z := omap (fmap job_number) l.

Definition state_name (st : JobState) : list ascii :=
  match st with JOB_STOPPED => lit "Stopped" | JOB_RUNNING => lit "Running" end.

Definition show_proc (st : JobState) (p : Proc) : list ascii :=
  if p_done p then []
  else line (lit "  " ++ itoa (p_pid p) ++ lit " " ++ p_name p ++ lit " " ++ state_name st).
Definition show_job (j : Job) : list ascii :=
  line (lit "[" ++ itoa (job_number j) ++ lit "] pgid " ++ itoa (job_pgid j)) ++
  mjoin (show_proc (job_state j) <$> job_procs j).

Definition jobs_print_activities : M (jstate F) unit :=
  l ← gets jobs;
  mfor (exchange_sort Z.ltb (used_numbers l)) (λ n,
    o ← gets (λ s, jobs_find_by_number n s ≫= λ i, deref i s);
    match o with
    | None => mret ()
    | Some j => on_ext (h_puts (show_job j))
    end).

(** ** Events *)

(** [jobs_sigchld_handler]: [events] is what [waitpid] reports in turn. *)
Definition jobs_sigchld_handler (events : list (Z * wstatus)) : M (jstate F) unit :=
  modify (λ s, set_pending
    (foldl (λ q e, if decide (length q < PENDING_MAX)%nat then q ++ [e] else q) (pending s) events) s).

Definition take_pending : M (jstate F) (option (Z * wstatus)) := λ s,
  match pending s with
  | [] => Some (None, s)
  | e :: q => Some (Some e, set_pending q s)
  end.

Definition completion_msg (status : wstatus) (p0 : Proc) : list ascii :=
  snprintf 256 (p_name p0 ++ lit " with pid " ++ itoa (p_pid p0) ++
    match status with
    | WSignaled _ => lit " exited abnormally"
    | _ => lit " exited normally"
    end).

(** What [handle_tracked_event] does once the process of an exit is known. *)
Definition process_exited (i idx : nat) (status : wstatus) : M (jstate F) unit :=
  update_job i (set_done idx);;
  o ← gets (deref i);
  match o with
  | None => stuck
  | Some j =>
    let all_done := forallb p_done (job_procs j) in
    if all_done && job_background j then
      match job_procs j with
      | p0 :: _ => queue_notification (completion_msg status p0);; jobs_remove (job_number j)
      | [] => stuck
      end
    else if all_done then jobs_remove (job_number j)
    else mret ()
  end.

Definition handle_tracked_event (pid : Z) (status : wstatus) : M (jstate F) unit :=
  on_ext (h_finalize pid);;
  r ← gets (jobs_find_by_pid pid);
  match r with
  | None => mret ()
  | Some (i, idx) =>
    match status with
    | WStopped _ => update_job i (set_state JOB_STOPPED)
    | WContinued => update_job i (set_state JOB_RUNNING)
    | _ => process_exited i idx status
    end
  end.

Fixpoint drain (fuel : nat) : M (jstate F) unit :=
  match fuel with
  | O => stuck
  | S fuel =>
    r ← take_pending;
    match r with
    | None => mret ()
    | Some (pid, status) => handle_tracked_event pid status;; drain fuel
    end
  end.
(** [jobs_process_pending]; [SIGCHLD] is blocked meanwhile. *)
Definition jobs_process_pending : M (jstate F) unit :=
  n ← gets (λ s, length (pending s)); drain (S n).

(** ** Waiting for the foreground job *)

Inductive wait_result := Waited (done_count : nat) (stopped : bool) | Blocked.

(** The search [pids[i] == pid && !done_local[i]]; reading [done_local] at an
    index of [JOB_MAX_PROCS] or more is out of bounds. *)
Fixpoint find_waiting (pids : list Z) (i : nat) (done_local : list bool) (pid : Z)
  : option (option nat) :=
  match pids with
  | [] => Some None
  | p :: rest =>
    if p =? pid then
      match done_local !! i with
      | None => None
      | Some true => find_waiting rest (S i) done_local pid
      | Some false => Some (Some i)
      end
    else find_waiting rest (S i) done_local pid
  end.

(** The loop of [jobs_wait_foreground]. [suspended] is true when an early
    alarm has been handled and the process is still in [sigsuspend]; [abort]
    says whether [abort_flag] is the address of [g_timed_out] or [NULL]. *)
Fixpoint wait_loop (fuel : nat) (suspended : bool) (pids : list Z) (abort : bool)
    (done_local : list bool) (done_count : nat) : M (jstate F) wait_result :=
  match fuel with
  | O => stuck
  | S fuel =>
    if decide (length pids ≤ done_count)%nat then mret (Waited done_count false)
    else
      timed_out ← gets g_timed_out;
      if negb suspended && abort && timed_out then mret (Waited done_count false)
      else
        ev ← (if suspended then mret None else take_pending);
        match ev with
        | None =>
          d ← gets (λ s, h_next (ext s));
          match d with
          | None => mret Blocked
          | Some (DChild events _, f) =>
            modify (set_ext f);; jobs_sigchld_handler events;;
            wait_loop fuel false pids abort done_local done_count
          | Some (DAlarm early, f) =>
            modify (set_ext f);; modify (set_timed_out true);;
            wait_loop fuel early pids abort done_local done_count
          end
        | Some (pid, status) =>
          match find_waiting pids 0 done_local pid with
          | None => stuck
          | Some (Some idx) =>
            match status with
            | WStopped _ => mret (Waited done_count true)
            | WContinued => wait_loop fuel false pids abort done_local done_count
            | _ =>
              on_ext (h_finalize pid);;
              wait_loop fuel false pids abort (<[idx := true]> done_local) (S done_count)
            end
          | Some None =>
            handle_tracked_event pid status;;
            wait_loop fuel false pids abort done_local done_count
          end
        end
  end.

Definition delivery_size (d : delivery) : nat :=
  match d with DChild events _ => S (length events) | DAlarm _ => 1 end.
Definition wait_fuel (s : jstate F) : nat :=
  S (length (pending s) + sum_list (delivery_size <$> h_deliveries (ext s))).

Definition jobs_wait_foreground (pids : list Z) (abort : bool) : M (jstate F) wait_result :=
  fuel ← gets wait_fuel;
  wait_loop fuel false pids abort (replicate JOB_MAX_PROCS false) 0.

(** ** Shutdown *)

Definition jobs_sighup_all : M (jstate F) unit :=
  l ← gets jobs;
  mfor (omap id l) (λ j, on_ext (h_kill (- job_pgid j) (signo SIGHUP))).

End code.

(** ** The invariant *)

Section invariant.
Context {F : Type} `{Host F}.
Implicit Types s : jstate F.

Record jobs_wf (s : jstate F) : Prop := {
  wf_len : length (jobs s) = JOBS_MAX;
  wf_nodup : NoDup (used_numbers (jobs s));
  wf_numbers : Forall (λ n, 0 < n < next_job_number s) (used_numbers (jobs s));
  wf_next : 0 < next_job_number s ≤ INT_MAX;
  wf_procs : Forall (λ o, match o with
               | Some j => (length (job_procs j) ≤ JOB_MAX_PROCS)%nat
               | None => True end) (jobs s);
  wf_pending : (length (pending s) ≤ PENDING_MAX)%nat;
  wf_notifs : (length (notif_queue s) ≤ NOTIF_MAX)%nat;
  wf_notif_len : Forall (λ m, length m < NOTIF_LEN)%nat (notif_queue s);
}.

Lemma wf_ext s s' :
  jobs s' = jobs s → next_job_number s' = next_job_number s → pending s' = pending s →
  notif_queue s' = notif_queue s → jobs_wf s → jobs_wf s'.
Proof. intros E1 E2 E3 E4 []. split; rewrite ?E1, ?E2, ?E3, ?E4; done. Qed.

Lemma used_numbers_app l1 l2 : used_numbers (l1 ++ l2) = used_numbers l1 ++ used_numbers l2.
Proof. apply omap_app. Qed.

Lemma used_numbers_elem n l :
  n ∈ used_numbers l ↔ ∃ i j, l !! i = Some (Some j) ∧ job_number j = n.
Proof.
  unfold used_numbers. rewrite list_elem_of_omap. split.
  - intros (o & Ho & Hn). apply list_elem_of_lookup in Ho as [i Hi].
    destruct o as [j|]; simplify_eq/=. eauto.
  - intros (i & j & Hi & <-). exists (Some j). split; [by eapply list_elem_of_lookup_2|done].
Qed.

(** What an update of one entry does to the numbers in use. *)
Lemma used_numbers_insert l i o x :
  l !! i = Some x →
  used_numbers (<[i := o]> l) =
  used_numbers (take i l) ++ option_list (job_number <$> o) ++ used_numbers (drop (S i) l) ∧
  used_numbers l =
  used_numbers (take i l) ++ option_list (job_number <$> x) ++ used_numbers (drop (S i) l).
Proof.
  intros Hi. apply lookup_lt_Some in Hi as Hlt. split.
  - rewrite insert_take_drop by done. rewrite used_numbers_app. f_equal.
    by destruct o.
  - rewrite <-(take_drop_middle l i x Hi) at 1. rewrite used_numbers_app. f_equal. by destruct x.
Qed.

(** Replacing an entry by one with the same number, or by none, keeps the
    invariant. *)
Lemma wf_insert s i x o :
  jobs_wf s → jobs s !! i = Some x →
  (job_number <$> o = None ∨ job_number <$> o = job_number <$> x) →
  match o with Some j => (length (job_procs j) ≤ JOB_MAX_PROCS)%nat | None => True end →
  jobs_wf (set_jobs (<[i := o]> (jobs s)) s).
Proof.
  intros [] Hi Ho Hp.
  destruct (used_numbers_insert (jobs s) i o x Hi) as [E1 E2].
  split; simpl; try done.
  - by rewrite length_insert.
  - rewrite E1. rewrite E2 in wf_nodup0. destruct Ho as [->| ->]; [|done].
    eapply sublist_NoDup; [exact wf_nodup0|]. apply sublist_app; [done|].
    by apply sublist_inserts_l.
  - rewrite E1. rewrite E2 in wf_numbers0. destruct Ho as [->| ->]; [|done].
    rewrite !Forall_app in *. simpl. naive_solver.
  - by apply Forall_insert.
Qed.

Lemma wf_update s i f :
  jobs_wf s → (∀ j, job_number (f j) = job_number j ∧ length (job_procs (f j)) = length (job_procs j)) →
  jobs_wf (set_jobs (alter (fmap f) i (jobs s)) s).
Proof.
  intros Hwf Hf. destruct (jobs s !! i) as [x|] eqn:Hi.
  - rewrite (list_alter_insert _ i (jobs s) x Hi). eapply wf_insert; [done|exact Hi|..].
    + destruct x as [j|]; simpl; [right; by rewrite (proj1 (Hf j))|auto].
    + destruct x as [j|]; simpl; [|done]. rewrite (proj2 (Hf j)).
      exact (Forall_lookup_1 _ _ _ _ (wf_procs _ Hwf) Hi).
  - rewrite list_alter_ge by done. by destruct s.
Qed.

Lemma on_ext_wf {A} (m : M F A) : preserves jobs_wf (on_ext m).
Proof.
  intros s a s' Hs. unfold on_ext, zoom. destruct (m (ext s)) as [[x f]|]; [|done].
  intros [= <- <-]. by eapply wf_ext; [..|exact Hs].
Qed.

Lemma jobs_init_wf s : ∃ s', jobs_init s = Some ((), s') ∧ jobs_wf s'.
Proof.
  eexists. split; [reflexivity|]. split; simpl; try done; try (by constructor);
    try (unfold PENDING_MAX, NOTIF_MAX; lia).
  by repeat constructor.
Qed.

Lemma queue_notification_wf msg : preserves jobs_wf (queue_notification msg).
Proof.
  apply preserves_modify. intros s []. destruct (decide _) as [Hl|]; [|done].
  split; simpl; try done.
  - rewrite length_app. simpl. lia.
  - apply Forall_app. split; [done|]. constructor; [|done].
    unfold strncpy_nul, NOTIF_LEN. rewrite length_take. lia.
Qed.

Lemma jobs_flush_wf : preserves jobs_wf jobs_flush_notifications.
Proof.
  unfold jobs_flush_notifications. preserve; [apply on_ext_wf|].
  apply preserves_modify. intros s []. split; simpl; try done; try (by constructor);
    unfold NOTIF_MAX; lia.
Qed.

Lemma jobs_remove_wf n : preserves jobs_wf (jobs_remove n).
Proof.
  apply preserves_modify. intros s Hs. destruct (index_of _ _) as [i|] eqn:Hi; [|done].
  apply index_of_Some in Hi as (x & Hx & _). eapply wf_insert; eauto.
Qed.

Lemma update_job_wf i f :
  (∀ j, job_number (f j) = job_number j ∧ length (job_procs (f j)) = length (job_procs j)) →
  preserves jobs_wf (update_job i f).
Proof. intros Hf. apply preserves_modify. intros s Hs. by apply wf_update. Qed.

Lemma jobs_register_wf g ps c b st : preserves jobs_wf (jobs_register g ps c b st).
Proof.
  intros s a s' Hs. unfold jobs_register.
  rewrite (bind_eq _ _ _ (index_of free_slot (jobs s)) s) by done.
  destruct (index_of free_slot (jobs s)) as [i|] eqn:Hi; [|by intros [= <- <-]].
  rewrite (bind_eq _ _ _ (next_job_number s) s) by done.
  destruct (next_job_number s <? INT_MAX) eqn:Hn; [|done].
  apply index_of_Some in Hi as (x & Hx & ->%bool_decide_eq_true & _).
  intros [= <- <-]. destruct Hs. set (j := mkJob _ _ _ _ _ _).
  destruct (used_numbers_insert (jobs s) i (Some j) None Hx) as [E1 E2]. simpl in E1, E2.
  assert (next_job_number s ∉ used_numbers (jobs s)) as Hfresh.
  { intros Hin. apply (proj1 (Forall_forall _ _) wf_numbers0) in Hin. lia. }
  split; simpl; try done.
  - by rewrite length_insert.
  - rewrite E1. rewrite E2 in wf_nodup0, Hfresh. rewrite <-Permutation_middle.
    by constructor.
  - rewrite E1. rewrite E2 in wf_numbers0. rewrite <-Permutation_middle. constructor; [lia|].
    eapply Forall_impl; [exact wf_numbers0|]. simpl. lia.
  - lia.
  - apply Forall_insert; [done|]. simpl. rewrite length_fmap, length_take. lia.
Qed.

Lemma jobs_sigchld_wf evs : preserves jobs_wf (jobs_sigchld_handler evs).
Proof.
  apply preserves_modify. intros s []. split; simpl; try done.
  clear -wf_pending0. revert wf_pending0. generalize (pending s) as q.
  induction evs as [|e evs IH]; intros q Hq; simpl; [done|]. apply IH.
  case_decide; [|done]. rewrite length_app. simpl. lia.
Qed.

Lemma take_pending_wf : preserves jobs_wf take_pending.
Proof.
  intros s a s' Hs. unfold take_pending. destruct (pending s) as [|e q] eqn:E; intros [= <- <-].
  - done.
  - destruct Hs. split; simpl; try done. rewrite E in wf_pending0. simpl in wf_pending0. lia.
Qed.

Lemma handle_tracked_event_wf pid st : preserves jobs_wf (handle_tracked_event pid st).
Proof.
  unfold handle_tracked_event, process_exited.
  preserve; try apply on_ext_wf; try apply queue_notification_wf; try apply jobs_remove_wf;
    apply update_job_wf; intros j; simpl; by rewrite ?length_alter.
Qed.

Lemma drain_wf fuel : preserves jobs_wf (drain fuel).
Proof.
  induction fuel as [|fuel IH]; [apply preserves_stuck|]. simpl.
  preserve; [apply take_pending_wf|apply handle_tracked_event_wf].
Qed.

Lemma wait_loop_wf fuel b pids abort dl c : preserves jobs_wf (wait_loop fuel b pids abort dl c).
Proof.
  revert b dl c; induction fuel as [|fuel IH]; intros b dl c; [apply preserves_stuck|].
  cbn [wait_loop]. preserve; try apply IH; try apply take_pending_wf; try apply jobs_sigchld_wf;
    try apply handle_tracked_event_wf; try apply on_ext_wf;
    apply preserves_modify; intros s' Hs'; by eapply wf_ext; [..|exact Hs'].
Qed.

(** One operation of the shell on the job table, by any of its callers; the
    handler may run whenever [SIGCHLD] is not blocked. *)
Inductive jobs_step : jstate F → jstate F → Prop :=
| step_register g ps c b st s n s' :
    jobs_register g ps c b st s = Some (n, s') → jobs_step s s'
| step_remove n s s' : jobs_remove n s = Some ((), s') → jobs_step s s'
| step_set_state i st s s' : update_job i (set_state st) s = Some ((), s') → jobs_step s s'
| step_sigchld evs s s' : jobs_sigchld_handler evs s = Some ((), s') → jobs_step s s'
| step_process s s' : jobs_process_pending s = Some ((), s') → jobs_step s s'
| step_wait pids abort s r s' : jobs_wait_foreground pids abort s = Some (r, s') → jobs_step s s'
| step_flush s s' : jobs_flush_notifications s = Some ((), s') → jobs_step s s'
| step_rest s (f : F) (b : bool) : jobs_step s (set_timed_out b (set_ext f s)).

(** The states reached from [jobs_init]. *)
Inductive jobs_reachable : jstate F → Prop :=
| reach_init s0 s : jobs_init s0 = Some ((), s) → jobs_reachable s
| reach_step s s' : jobs_reachable s → jobs_step s s' → jobs_reachable s'.

(** C36: every reachable job table is well formed: it has 64 entries, the job
    numbers in use are distinct, positive and below the next number (which
    never passes [INT_MAX]), no job has more than 32 processes, and the
    pending and notification queues stay within their arrays. *)
Theorem jobs_reachable_wf s : jobs_reachable s → jobs_wf s.
Proof.
  induction 1 as [s0 s Hi|s s' _ IH Hs].
  - destruct (jobs_init_wf s0) as (s1 & E & Hwf). congruence.
  - destruct Hs as [????? s n s' E|n s s' E|i st s s' E|evs s s' E|s s' E|pids ab s r s' E|s s' E|s f b].
    + by eapply jobs_register_wf.
    + by eapply jobs_remove_wf.
    + eapply (update_job_wf i (set_state st)); [|exact IH|exact E]. by intros j.
    + by eapply jobs_sigchld_wf.
    + revert IH E. apply preserves_bind; [apply preserves_gets|intros n; apply drain_wf].
    + revert IH E. apply preserves_bind; [apply preserves_gets|intros n; apply wait_loop_wf].
    + by eapply jobs_flush_wf.
    + by eapply wf_ext; [..|exact IH].
Qed.

End invariant.

(** ** The table as a finite map *)

Section table.
Context {F : Type} `{Host F}.
Implicit Types s : jstate F.

(** The abstract job table: jobs by number. *)
Definition table (s : jstate F) : gmap Z Job :=
  list_to_map ((λ j, (job_number j, j)) <$> omap id (jobs s)).

Lemma used_numbers_keys l :
  ((λ j, (job_number j, j)) <$> omap id l).*1 = used_numbers l.
Proof. induction l as [|[j|] l IH]; simpl; [done|by f_equal|done]. Qed.

Lemma table_lookup s n j :
  jobs_wf s → table s !! n = Some j ↔ ∃ i, jobs s !! i = Some (Some j) ∧ job_number j = n.
Proof.
  intros Hwf. unfold table. rewrite <-elem_of_list_to_map.
  2:{ rewrite used_numbers_keys. apply Hwf. }
  rewrite list_elem_of_fmap. split.
  - intros (j' & [= -> ->] & (o & Ho & ?)%list_elem_of_omap). simplify_eq/=.
    apply list_elem_of_lookup in Ho as [i Hi]. eauto.
  - intros (i & Hi & <-). exists j. split; [done|]. apply list_elem_of_omap.
    exists (Some j). split; [by eapply list_elem_of_lookup_2|done].
Qed.

(** Two entries with the same number are the same entry. *)
Lemma same_number s i1 i2 j1 j2 :
  jobs_wf s → jobs s !! i1 = Some (Some j1) → jobs s !! i2 = Some (Some j2) →
  job_number j1 = job_number j2 → i1 = i2.
Proof.
  intros Hwf H1 H2 E. destruct (decide (i1 = i2)) as [|Hne]; [done|exfalso].
  pose proof (wf_nodup _ Hwf) as Hnd.
  destruct (used_numbers_insert (jobs s) i1 None (Some j1) H1) as [En Eo]. simpl in En, Eo.
  rewrite Eo, <-Permutation_middle in Hnd. apply NoDup_cons in Hnd as [Hnin _]. apply Hnin.
  rewrite <-En. apply used_numbers_elem. exists i2, j2. split; [|done].
  by rewrite list_lookup_insert_ne.
Qed.

Lemma find_by_number_spec s n :
  jobs_wf s → (jobs_find_by_number n s ≫= λ i, deref i s) = table s !! n.
Proof.
  intros Hwf. unfold jobs_find_by_number. destruct (index_of _ _) as [i|] eqn:Hi; simpl.
  - apply index_of_Some in Hi as (x & Hx & Hn & _). destruct x as [j|]; [|done].
    unfold deref. rewrite Hx. simpl. symmetry. apply table_lookup; [done|].
    exists i. split; [done|]. by apply Z.eqb_eq.
  - destruct (table s !! n) as [j|] eqn:E; [|done].
    apply table_lookup in E as (i & Hj & <-); [|done].
    pose proof (proj1 (index_of_None _ _) Hi (Some j) (list_elem_of_lookup_2 _ _ _ Hj)) as Hf.
    simpl in Hf. lia.
Qed.

(** Filling a free entry with a job of a fresh number inserts it. *)
Lemma table_insert s s' i j :
  jobs_wf s → jobs_wf s' → jobs s !! i = Some None → jobs s' = <[i := Some j]> (jobs s) →
  table s' = <[job_number j := j]> (table s).
Proof.
  intros Hwf Hwf' Hi E. apply lookup_lt_Some in Hi as Hlt.
  apply map_eq. intros n. apply option_eq. intros j'. rewrite (table_lookup s'), E by done.
  destruct (decide (n = job_number j)) as [->|Hne].
  - rewrite lookup_insert_eq. split.
    + intros (k & Hk & En). destruct (decide (k = i)) as [->|Hki].
      * rewrite list_lookup_insert_eq in Hk by done. congruence.
      * destruct Hki. symmetry. eapply (same_number s' i k j j'); rewrite ?E; try done.
        by rewrite list_lookup_insert_eq.
    + intros [= <-]. exists i. by rewrite list_lookup_insert_eq.
  - rewrite lookup_insert_ne, table_lookup by done. split; intros (k & Hk & <-); exists k;
      (split; [|done]); destruct (decide (k = i)) as [->|Hki].
    + rewrite list_lookup_insert_eq in Hk by done. congruence.
    + by rewrite list_lookup_insert_ne in Hk.
    + congruence.
    + by rewrite list_lookup_insert_ne.
Qed.

Lemma table_delete s n s' :
  jobs_wf s → jobs_remove n s = Some ((), s') → table s' = delete n (table s).
Proof.
  intros Hwf E. pose proof (jobs_remove_wf n _ _ _ Hwf E) as Hwf'. injection E as <-.
  apply map_eq. intros m. apply option_eq. intros j.
  rewrite table_lookup by done. destruct (index_of _ _) as [i|] eqn:Hi.
  - apply index_of_Some in Hi as (x & Hx & Hn & _). destruct x as [jn|]; [|done].
    simpl in Hn. apply lookup_lt_Some in Hx as Hlt. rewrite lookup_delete_Some, table_lookup by done.
    simpl. split.
    + intros (k & Hk & <-). destruct (decide (k = i)) as [->|Hki].
      { by rewrite list_lookup_insert_eq in Hk. }
      rewrite list_lookup_insert_ne in Hk by done. split; [|by exists k].
      intros ->. destruct Hki. eapply (same_number s k i j jn); eauto. lia.
    + intros (Hne & k & Hk & <-). exists k. split; [|done].
      rewrite list_lookup_insert_ne; [done|]. intros ->. rewrite Hx in Hk. simplify_eq. lia.
  - rewrite lookup_delete_Some, table_lookup by done. split; [|naive_solver].
    intros (k & Hk & <-). split; [|by exists k]. intros ->.
    pose proof (proj1 (index_of_None _ _) Hi (Some j) (list_elem_of_lookup_2 _ _ _ Hk)) as Hf.
    simpl in Hf. lia.
Qed.

(** What [jobs_register] stores. *)
Definition new_job (n pgid : Z) (ps : list (Z * option (list ascii)))
    (cmdline : option (list ascii)) (background : bool) (st : JobState) : Job :=
  mkJob n pgid ((λ p, mkProc p.1 (default (lit "?") p.2) false) <$> take JOB_MAX_PROCS ps)
    (default [] cmdline) st background.

Lemma register_cases s g ps c b st n s' :
  jobs_wf s → jobs_register g ps c b st s = Some (n, s') →
  (n = -1 ∧ s' = s ∧ index_of free_slot (jobs s) = None) ∨
  (n = next_job_number s ∧ ∃ i, jobs s !! i = Some None ∧
     s' = set_next (n + 1) (set_jobs (<[i := Some (new_job n g ps c b st)]> (jobs s)) s)).
Proof.
  intros Hwf. unfold jobs_register.
  rewrite (bind_eq _ _ _ (index_of free_slot (jobs s)) s) by done.
  destruct (index_of free_slot (jobs s)) as [i|] eqn:Hi.
  - rewrite (bind_eq _ _ _ (next_job_number s) s) by done.
    destruct (_ <? _); [|done]. intros [= <- <-]. right.
    apply index_of_Some in Hi as (x & Hx & ->%bool_decide_eq_true & _). eauto.
  - intros [= <- <-]. auto.
Qed.

Lemma table_full s :
  jobs_wf s → index_of free_slot (jobs s) = None → size (table s) = JOBS_MAX.
Proof.
  intros Hwf Hn. unfold table. rewrite map_size_list_to_map.
  2:{ rewrite used_numbers_keys. apply Hwf. }
  rewrite length_fmap, <-(wf_len _ Hwf).
  assert (∀ o, o ∈ jobs s → o ≠ None) as Hall.
  { intros o Ho. pose proof (proj1 (index_of_None _ _) Hn o Ho) as Hf.
    by apply bool_decide_eq_false in Hf. }
  clear -Hall. induction (jobs s) as [|[j|] l IH]; simpl; [done|f_equal; set_solver|].
  destruct (Hall None); [set_solver|done].
Qed.

(** the array with its linear searches implements a finite map from job
    numbers to jobs. [jobs_find_by_number] is lookup, [jobs_remove] is
    deletion, and [jobs_register] either returns [-1] and changes nothing,
    which happens only when all 64 entries are used, or inserts the job
    under a number no job had, with its processes (at most 32 of them) not
    done. *)
Theorem jobs_table_refines s :
  jobs_wf s →
  (∀ n, (jobs_find_by_number n s ≫= λ i, deref i s) = table s !! n) ∧
  (∀ n s', jobs_remove n s = Some ((), s') → table s' = delete n (table s)) ∧
  (∀ g ps c b st n s', jobs_register g ps c b st s = Some (n, s') →
     (n = -1 ∧ s' = s ∧ size (table s) = JOBS_MAX) ∨
     (0 < n ∧ table s !! n = None ∧ table s' = <[n := new_job n g ps c b st]> (table s))).
Proof.
  intros Hwf. split_and!.
  - intros n. by apply find_by_number_spec.
  - intros n s'. by apply table_delete.
  - intros g ps c b st n s' E.
    pose proof (jobs_register_wf _ _ _ _ _ _ _ _ Hwf E) as Hwf'.
    destruct (register_cases _ _ _ _ _ _ _ _ Hwf E) as [(-> & -> & Hf)|(-> & i & Hi & Es)].
    + left. split_and!; [done|done|by apply table_full].
    + right. split_and!.
      * apply Hwf.
      * destruct (table s !! next_job_number s) as [j|] eqn:Ej; [|done].
        apply table_lookup in Ej as (k & Hk & En); [|done].
        assert (next_job_number s ∈ used_numbers (jobs s)) as Hin
          by (apply used_numbers_elem; eauto).
        apply (proj1 (Forall_forall _ _) (wf_numbers _ Hwf)) in Hin. lia.
      * eapply (table_insert s s' i); [done|done|done|by rewrite Es].
Qed.
End table.

(** ** Events *)

(** What jobs.c relies on of its host: finishing the output of a child and
    printing never fail in the states [h_ok] and leave the coming signals
    alone, and a suspension takes the coming signals one by one. *)
Class HostLaws (F : Type) `{Host F} := {
  h_ok : F → Prop;
  h_finalize_ok pid f : h_ok f → ∃ f', h_finalize pid f = Some ((), f') ∧ h_ok f' ∧
    h_deliveries f' = h_deliveries f;
  h_puts_ok msg f : h_ok f → ∃ f', h_puts msg f = Some ((), f') ∧ h_ok f' ∧
    h_deliveries f' = h_deliveries f;
  h_next_ok f : h_ok f →
    match h_deliveries f with
    | [] => h_next f = None
    | d :: ds => ∃ f', h_next f = Some (d, f') ∧ h_ok f' ∧ h_deliveries f' = ds
    end;
}.

Section events.
Context {F : Type} `{HostLaws F}.
Implicit Types s : jstate F.

Lemma find_by_pid_Some pid l i idx :
  find_by_pid pid l = Some (i, idx) →
  ∃ j p, l !! i = Some (Some j) ∧ job_procs j !! idx = Some p ∧ p_pid p = pid.
Proof.
  revert i; induction l as [|o l IH]; intros i; simpl; [done|].
  destruct (o ≫= proc_index pid) as [k|] eqn:E.
  - intros [= <- <-]. destruct o as [j|]; simpl in E; [|done].
    apply index_of_Some in E as (p & Hp & Hpid & _). exists j, p.
    split_and!; [done|done|by apply Z.eqb_eq].
  - intros ([i' k] & Hk & [= -> ->])%fmap_Some. apply IH in Hk. naive_solver.
Qed.

(** The process is found in the entry that holds it when no other entry does. *)
Lemma find_by_pid_unique pid l i j idx :
  l !! i = Some (Some j) → proc_index pid j = Some idx →
  (∀ k j', k ≠ i → l !! k = Some (Some j') → proc_index pid j' = None) →
  find_by_pid pid l = Some (i, idx).
Proof.
  revert i; induction l as [|o l IH]; intros i Hi Hidx Hother; [done|]. simpl.
  destruct i as [|i]; simplify_eq/=; [by rewrite Hidx|].
  assert (o ≫= proc_index pid = None) as ->.
  { destruct o as [j'|]; [|done]. by apply (Hother O j'). }
  rewrite (IH i Hi Hidx); [done|]. intros k j' Hk Hj'. apply (Hother (S k) j'); [lia|done].
Qed.

Definition is_exit (st : wstatus) : bool :=
  match st with WExited _ | WSignaled _ => true | _ => false end.

Lemma process_exited_total i idx st s j p :
  jobs s !! i = Some (Some j) → job_procs j !! idx = Some p →
  ∃ s', process_exited i idx st s = Some ((), s') ∧ ext s' = ext s ∧ pending s' = pending s ∧
    g_timed_out s' = g_timed_out s.
Proof.
  intros Hi Hp. unfold process_exited. set (s1 := set_jobs (alter (fmap (set_done idx)) i (jobs s)) s).
  rewrite (bind_eq _ _ _ () s1) by done.
  assert (deref i s1 = Some (set_done idx j)) as Hd.
  { unfold deref, s1. simpl. rewrite list_lookup_alter_eq, Hi. done. }
  rewrite (bind_eq _ _ _ (Some (set_done idx j)) s1) by (unfold gets; by rewrite Hd).
  assert (is_Some (job_procs (set_done idx j) !! idx)) as [p' Hp'].
  { simpl. rewrite list_lookup_alter_eq, Hp. eauto. }
  assert (∀ n s2, ext s2 = ext s → pending s2 = pending s → g_timed_out s2 = g_timed_out s →
    ∃ s', jobs_remove n s2 = Some ((), s') ∧ ext s' = ext s ∧ pending s' = pending s ∧
      g_timed_out s' = g_timed_out s) as Hrem.
  { intros n s2 E1 E2 E3. eexists. split; [reflexivity|].
    by destruct (index_of (has_number n) (jobs s2)). }
  destruct (forallb _ _), (job_background _); simpl; [|by apply Hrem|by eexists|by eexists].
  destruct (alter _ idx (job_procs j)) as [|p0 ps] eqn:Eps.
  { simpl in Hp'. by rewrite Eps in Hp'. }
  unfold queue_notification, mbind, M_bind, modify. apply Hrem; by destruct (decide _).
Qed.

Lemma handle_tracked_event_total pid st s :
  h_ok (ext s) →
  ∃ s', handle_tracked_event pid st s = Some ((), s') ∧ h_ok (ext s') ∧
    h_deliveries (ext s') = h_deliveries (ext s) ∧ pending s' = pending s ∧
    g_timed_out s' = g_timed_out s.
Proof.
  intros Hok. destruct (h_finalize_ok pid (ext s) Hok) as (f' & Ef & Hok' & Hd).
  unfold handle_tracked_event. rewrite (bind_eq _ _ _ () (set_ext f' s)).
  2:{ unfold on_ext, zoom. by rewrite Ef. }
  rewrite (bind_eq _ _ _ (jobs_find_by_pid pid (set_ext f' s)) (set_ext f' s)) by done.
  destruct (jobs_find_by_pid pid (set_ext f' s)) as [[i idx]|] eqn:E; [|by eexists].
  apply find_by_pid_Some in E as (j & p & Hj & Hp & _).
  destruct st; try (by eexists);
    (edestruct (process_exited_total i idx) as (s' & E & He & Hpd & Hto); [exact Hj|exact Hp|];
     exists s'; split; [exact E|]; rewrite He, Hpd, Hto; done).
Qed.

Lemma drain_total fuel s :
  h_ok (ext s) → (length (pending s) < fuel)%nat →
  ∃ s', drain fuel s = Some ((), s') ∧ h_ok (ext s') ∧ pending s' = [].
Proof.
  revert s; induction fuel as [|fuel IH]; intros s Hok Hl; [lia|]. cbn [drain].
  destruct (pending s) as [|[pid st] q] eqn:Eq.
  { rewrite (bind_eq _ _ _ None s) by (unfold take_pending; by rewrite Eq). by exists s. }
  rewrite (bind_eq _ _ _ (Some (pid, st)) (set_pending q s)) by (unfold take_pending; by rewrite Eq).
  destruct (handle_tracked_event_total pid st (set_pending q s) Hok) as (s1 & E1 & Hok1 & _ & Hp1 & _).
  rewrite (bind_eq _ _ _ _ _ E1). simpl in Hp1, Hl. apply IH; [done|]. rewrite Hp1. lia.
Qed.

(** draining the queue always ends, with the queue empty: whatever
    events the handler has recorded, [jobs_process_pending] returns. *)
Theorem jobs_process_pending_total s :
  h_ok (ext s) →
  ∃ s', jobs_process_pending s = Some ((), s') ∧ h_ok (ext s') ∧ pending s' = [].
Proof.
  intros Hok. unfold jobs_process_pending.
  rewrite (bind_eq _ _ _ (length (pending s)) s) by done. apply drain_total; [done|lia].
Qed.


Lemma index_of_number s i j :
  jobs_wf s → jobs s !! i = Some (Some j) → index_of (has_number (job_number j)) (jobs s) = Some i.
Proof.
  intros Hwf Hi. apply index_of_Some. exists (Some j). split_and!; [done|simpl; lia|].
  intros k [jk|] Hk Hj; simpl; [|done]. apply Z.eqb_neq. intros E.
  assert (k = i) by (by eapply (same_number s)). lia.
Qed.

(** After the exit of process [idx] of the job [j] at entry [i]: it is marked
    done; when it was the last one the entry is freed, with a notification if
    the job runs in the background. *)
Definition after_exit (st : wstatus) (i : nat) (j : Job) (idx : nat) (f : F) (s : jstate F)
  : jstate F :=
  if forallb p_done (job_procs (set_done idx j)) then
    set_jobs (<[i := None]> (jobs s))
      (if job_background j && bool_decide (length (notif_queue s) < NOTIF_MAX)%nat
       then set_notifs (notif_queue s ++
              [completion_msg st (default (mkProc 0 [] true) (head (job_procs j)))]) (set_ext f s)
       else set_ext f s)
  else set_jobs (<[i := Some (set_done idx j)]> (jobs s)) (set_ext f s).

Lemma handle_exit s pid st i j idx :
  jobs_wf s → h_ok (ext s) → is_exit st = true →
  jobs s !! i = Some (Some j) → proc_index pid j = Some idx →
  (∀ k j', k ≠ i → jobs s !! k = Some (Some j') → proc_index pid j' = None) →
  ∃ f, h_ok f ∧ handle_tracked_event pid st s = Some ((), after_exit st i j idx f s).
Proof.
  intros Hwf Hok Hst Hi Hidx Hother.
  destruct (h_finalize_ok pid (ext s) Hok) as (f & Ef & Hok' & _). exists f. split; [done|].
  unfold handle_tracked_event. rewrite (bind_eq _ _ _ () (set_ext f s)).
  2:{ unfold on_ext, zoom. by rewrite Ef. }
  assert (jobs_find_by_pid pid (set_ext f s) = Some (i, idx)) as Efind
    by (by eapply find_by_pid_unique).
  rewrite (bind_eq _ _ _ (Some (i, idx)) (set_ext f s)) by (unfold gets; by rewrite Efind).
  transitivity (process_exited i idx st (set_ext f s)); [by destruct st|].
  unfold process_exited. set (s1 := set_jobs (<[i := Some (set_done idx j)]> (jobs s)) (set_ext f s)).
  rewrite (bind_eq _ _ _ () s1).
  2:{ unfold update_job, modify, s1. simpl. by rewrite (list_alter_insert _ _ _ _ Hi). }
  apply lookup_lt_Some in Hi as Hlt.
  assert (jobs s1 !! i = Some (Some (set_done idx j))) as Hi1
    by (simpl; by apply list_lookup_insert_eq).
  rewrite (bind_eq _ _ _ (Some (set_done idx j)) s1)
    by (unfold gets, deref; by rewrite Hi1).
  unfold after_exit. destruct (forallb p_done (job_procs (set_done idx j))) eqn:Edone.
  2:{ done. }
  assert (jobs_wf s1) as Hwf1.
  { eapply (wf_insert (set_ext f s)); [by eapply wf_ext; [..|exact Hwf]|exact Hi|by right|].
    simpl. rewrite length_alter. exact (Forall_lookup_1 _ _ _ _ (wf_procs _ Hwf) Hi). }
  pose proof (index_of_number s1 i _ Hwf1 Hi1) as En. simpl in En.
  apply index_of_Some in Hidx as (p & Hp & _). simpl in Edone.
  destruct (job_procs j) as [|p0 ps] eqn:Eps; [done|].
  assert (completion_msg st (default (mkProc 0 [] true) (head (job_procs (set_done idx j)))) =
          completion_msg st p0) as Em by (simpl; rewrite Eps; by destruct idx).
  simpl. simpl in Em. rewrite Eps in Em |- *. simpl in Edone, Em |- *.
  destruct (job_background j); simpl.
  - destruct (alter _ idx (p0 :: ps)) as [|p1 ps1] eqn:Ea; [by destruct idx|]. simpl in Em.
    rewrite Em. unfold queue_notification, jobs_remove, mbind, M_bind, modify. simpl.
    case_decide as Hn; [rewrite bool_decide_true by done|rewrite bool_decide_false by done];
      simpl; rewrite En; unfold set_jobs; simpl; rewrite list_insert_insert_eq; [|done].
    unfold strncpy_nul, completion_msg, snprintf, NOTIF_LEN. rewrite take_take.
    by rewrite Nat.min_id.
  - unfold jobs_remove, modify. simpl. rewrite En. unfold set_jobs. simpl.
    by rewrite list_insert_insert_eq.
Qed.

Definition pids_of (j : Job) : list Z := p_pid <$> job_procs j.
Definition undone (j : Job) : list Z := p_pid <$> filter (λ p, p_done p = false) (job_procs j).

Lemma pids_of_set_done idx j : pids_of (set_done idx j) = pids_of j.
Proof.
  unfold pids_of. simpl. revert idx; induction (job_procs j) as [|p ps IH]; intros [|idx]; simpl;
    [done..|]. f_equal. apply IH.
Qed.

Lemma undone_set_done idx j p :
  job_procs j !! idx = Some p → p_done p = false → p_pid p :: undone (set_done idx j) ≡ₚ undone j.
Proof.
  unfold undone. simpl. revert idx; induction (job_procs j) as [|q ps IH]; intros [|idx] Hp Hd;
    simplify_eq/=.
  - rewrite !filter_cons. simpl. rewrite Hd. simpl. done.
  - rewrite !filter_cons. case_decide; simpl; [|by apply IH].
    rewrite <-(IH idx) by done. apply Permutation_swap.
Qed.

Lemma undone_nil j : forallb p_done (job_procs j) = true ↔ undone j = [].
Proof.
  unfold undone. induction (job_procs j) as [|p ps IH]; simpl; [done|].
  rewrite filter_cons. destruct (p_done p); simpl; [by rewrite IH|]. by split.
Qed.

Lemma undone_index j pid :
  NoDup (pids_of j) → pid ∈ undone j →
  ∃ idx p, proc_index pid j = Some idx ∧ job_procs j !! idx = Some p ∧ p_pid p = pid ∧ p_done p = false.
Proof.
  unfold pids_of, undone, proc_index. intros Hnd Hin.
  apply list_elem_of_fmap in Hin as (p & -> & [Hd Hin]%list_elem_of_filter).
  apply list_elem_of_lookup in Hin as [idx Hp]. exists idx, p. split_and!; [|done..].
  apply index_of_Some. exists p. split_and!; [done|lia|]. intros k q Hk Hq.
  apply Z.eqb_neq. intros E. assert (k = idx); [|lia].
  eapply (NoDup_lookup _ _ _ (p_pid p)); [exact Hnd|..];
    rewrite list_lookup_fmap, ?Hq, ?Hp; simpl; congruence.
Qed.

(** No entry but [i] holds a process of [pids]. *)
Definition only_in (i : nat) (pids : list Z) (l : list (option Job)) : Prop :=
  ∀ k j' pid, k ≠ i → l !! k = Some (Some j') → pid ∈ pids → proc_index pid j' = None.

Lemma wf_tail s e q : jobs_wf s → pending s = e :: q → jobs_wf (set_pending q s).
Proof.
  intros [] Hp. split; try done. simpl. rewrite Hp in wf_pending0. simpl in wf_pending0. lia.
Qed.

Lemma drain_exit fuel i pid st q s j :
  pending s = (pid, st) :: q → jobs_wf s → h_ok (ext s) → jobs s !! i = Some (Some j) →
  NoDup (pids_of j) → pid ∈ undone j → is_exit st = true → only_in i (pids_of j) (jobs s) →
  ∃ f idx, h_ok f ∧ pid :: undone (set_done idx j) ≡ₚ undone j ∧
    drain (S fuel) s = drain fuel (after_exit st i j idx f (set_pending q s)).
Proof.
  intros Hp Hwf Hok Hi Hnd Hin Hst Hon.
  destruct (undone_index j _ Hnd Hin) as (idx & p & Hidx & Hpp & <- & Hdn).
  destruct (handle_exit (set_pending q s) (p_pid p) st i j idx) as (f & Hokf & Eh); try done.
  { by eapply wf_tail. }
  { intros k j' Hk Hj'. eapply Hon; [exact Hk|exact Hj'|].
    apply list_elem_of_fmap_2. by eapply list_elem_of_lookup_2. }
  exists f, idx. split_and!; [done|by apply undone_set_done|]. cbn [drain].
  rewrite (bind_eq _ _ _ (Some (p_pid p, st)) (set_pending q s))
    by (unfold take_pending; by rewrite Hp).
  cbv beta iota. by rewrite (bind_eq _ _ _ _ _ Eh).
Qed.

Lemma drain_completes fuel i pid st evs s j :
  (S (length evs) < fuel)%nat → pending s = evs ++ [(pid, st)] → jobs_wf s → h_ok (ext s) →
  jobs s !! i = Some (Some j) → job_background j = true → NoDup (pids_of j) →
  undone j ≡ₚ (evs ++ [(pid, st)]).*1 → Forall (λ e, is_exit e.2 = true) (evs ++ [(pid, st)]) →
  only_in i (pids_of j) (jobs s) → (length (notif_queue s) < NOTIF_MAX)%nat →
  ∃ s', drain fuel s = Some ((), s') ∧ jobs s' = <[i := None]> (jobs s) ∧ pending s' = [] ∧
    notif_queue s' = notif_queue s ++
      [completion_msg st (default (mkProc 0 [] true) (head (job_procs j)))].
Proof.
  revert fuel s j; induction evs as [|[q sq] evs IH];
    intros fuel s j Hf Hp Hwf Hok Hi Hbg Hnd Hun Hex Hon Hnq;
    (destruct fuel as [|fuel]; [simpl in Hf; lia|]); cbn [app] in *;
    rewrite fmap_cons in Hun; apply Forall_cons in Hex as [Hst Hex]; simpl in Hst, Hun;
    (edestruct drain_exit as (f & idx & Hokf & Hun1 & ->);
      [exact Hp|exact Hwf|exact Hok|exact Hi|exact Hnd|rewrite Hun; by left|exact Hst|exact Hon|]);
    rewrite Hun in Hun1; apply Permutation_cons_inv in Hun1.
  - unfold after_exit. rewrite (proj2 (undone_nil (set_done idx j))) by by apply Permutation_nil_r.
    rewrite Hbg, bool_decide_true by done.
    destruct fuel as [|fuel]; [simpl in Hf; lia|]. eexists. split; [reflexivity|done].
  - unfold after_exit. destruct (forallb p_done (job_procs (set_done idx j))) eqn:Ed.
    { apply undone_nil in Ed. rewrite Ed in Hun1. apply Permutation_nil_l in Hun1.
      by destruct evs. }
    apply lookup_lt_Some in Hi as Hlt.
    set (s1 := set_jobs _ _).
    edestruct (IH fuel s1) as (s' & E & Hj & Hpd & Hn); [simpl in Hf; lia|done| |exact Hokf|
      by apply list_lookup_insert_eq|done|by rewrite pids_of_set_done|exact Hun1|done| |exact Hnq|].
    + eapply (wf_insert (set_ext f (set_pending (evs ++ [(pid, st)]) s))); [|exact Hi|by right|].
      * eapply wf_ext; [..|by eapply wf_tail]; done.
      * simpl. rewrite length_alter. exact (Forall_lookup_1 _ _ _ _ (wf_procs _ Hwf) Hi).
    + rewrite pids_of_set_done. intros k j' pid' Hk Hj'. simpl in Hj'.
      rewrite list_lookup_insert_ne in Hj' by done. by apply (Hon k).
    + exists s'. split_and!; [exact E| |done|].
      * rewrite Hj. simpl. by rewrite list_insert_insert_eq.
      * rewrite Hn. simpl. destruct (job_procs j) as [|p0 ps]; [done|]. by destruct idx.
Qed.

(** a background job that finishes is reported once and forgotten. If the
    queued events are exits of exactly the processes of the job that still
    run, in any order, then draining the queue frees the job's entry, leaves
    every other entry alone and queues one message, for the job's first
    process, that says how the last process to be reported ended. *)
Theorem background_job_completes i j evs pid st s :
  jobs_wf s → h_ok (ext s) → pending s = evs ++ [(pid, st)] →
  jobs s !! i = Some (Some j) → job_background j = true → NoDup (pids_of j) →
  undone j ≡ₚ (evs ++ [(pid, st)]).*1 → Forall (λ e, is_exit e.2 = true) (evs ++ [(pid, st)]) →
  only_in i (pids_of j) (jobs s) → (length (notif_queue s) < NOTIF_MAX)%nat →
  ∃ s', jobs_process_pending s = Some ((), s') ∧ jobs s' = <[i := None]> (jobs s) ∧
    pending s' = [] ∧
    notif_queue s' = notif_queue s ++
      [completion_msg st (default (mkProc 0 [] true) (head (job_procs j)))].
Proof.
  intros Hwf Hok Hp. intros. unfold jobs_process_pending.
  rewrite (bind_eq _ _ _ (length (pending s)) s) by done.
  eapply drain_completes; try done. rewrite Hp, length_app. simpl. lia.
Qed.
End events.

(** ** Waiting *)

(** The specification of a foreground wait: [waiting] is the set of processes
    not yet gone, the events come one at a time from a stream, and events of
    other processes do not matter. *)
Fixpoint fg_outcome (waiting : gset Z) (count : nat) (stream : list (Z * wstatus)) : wait_result :=
  if decide (waiting = ∅) then Waited count false
  else
    match stream with
    | [] => Blocked
    | (pid, status) :: rest =>
      if decide (pid ∈ waiting) then
        match status with
        | WStopped _ => Waited count true
        | WContinued => fg_outcome waiting count rest
        | _ => fg_outcome (waiting ∖ {[pid]}) (S count) rest
        end
      else fg_outcome waiting count rest
    end.

Definition events_of (d : delivery) : list (Z * wstatus) :=
  match d with DChild events _ => events | DAlarm _ => [] end.

Section wait.
Context {F : Type} `{HostLaws F}.
Implicit Types s : jstate F.

(** All the events the shell will see: the queued ones, then those of the
    coming signals. *)
Definition stream (s : jstate F) : list (Z * wstatus) :=
  pending s ++ mjoin (events_of <$> h_deliveries (ext s)).

Fixpoint waiting (pids : list Z) (dl : list bool) : list Z :=
  match pids, dl with
  | p :: pids', d :: dl' => if d then waiting pids' dl' else p :: waiting pids' dl'
  | _, _ => []
  end.

Lemma waiting_sub pids dl p : p ∈ waiting pids dl → p ∈ pids.
Proof.
  revert dl; induction pids as [|q pids IH]; intros [|d dl]; simpl; [set_solver..|].
  destruct d; set_solver.
Qed.

Lemma waiting_NoDup pids dl : NoDup pids → NoDup (waiting pids dl).
Proof.
  intros Hnd; revert dl; induction Hnd as [|p pids Hp _ IH]; intros [|d dl]; simpl;
    try constructor; destruct d; [done|constructor; [|done]]. intros ?%waiting_sub. done.
Qed.

Lemma waiting_init pids n : (length pids ≤ n)%nat → waiting pids (replicate n false) = pids.
Proof.
  revert n; induction pids as [|p pids IH]; intros [|n] Hn; simpl in *; [done|done|lia|].
  by rewrite IH by lia.
Qed.

Lemma waiting_done pids dl idx pid :
  pids !! idx = Some pid → dl !! idx = Some false →
  pid :: waiting pids (<[idx := true]> dl) ≡ₚ waiting pids dl.
Proof.
  revert pids dl; induction idx as [|idx IH]; intros [|p pids] [|d dl] Hp Hd; simplify_eq/=; [done|].
  destruct d; [by apply IH|]. rewrite <-(IH pids dl) by done. apply Permutation_swap.
Qed.

Lemma find_waiting_spec pids i dl pid :
  (length pids + i ≤ length dl)%nat →
  if decide (pid ∈ waiting pids (drop i dl)) then
    ∃ k, find_waiting pids i dl pid = Some (Some (i + k)%nat) ∧ pids !! k = Some pid ∧
         dl !! (i + k)%nat = Some false
  else find_waiting pids i dl pid = Some None.
Proof.
  revert i; induction pids as [|p pids IH]; intros i Hl; [by rewrite decide_False by set_solver|].
  simpl in Hl. destruct (lookup_lt_is_Some_2 dl i) as [d Hd]; [lia|].
  rewrite (drop_S dl d i Hd). cbn [waiting find_waiting]. rewrite Hd.
  specialize (IH (S i) ltac:(lia)).
  destruct (decide (pid ∈ waiting pids (drop (S i) dl))) as [Hin|Hnin].
  - destruct IH as (k & Hk & Hp & Hdk). destruct (p =? pid) eqn:E, d.
    1,3,4: rewrite decide_True by set_solver; exists (S k); by rewrite <-Nat.add_succ_comm.
    rewrite decide_True by set_solver. exists O. rewrite Nat.add_0_r.
    apply Z.eqb_eq in E as ->. done.
  - destruct (p =? pid) eqn:E, d.
    1,3: by rewrite decide_False.
    + apply Z.eqb_eq in E as ->. rewrite decide_True by set_solver. exists O.
      by rewrite Nat.add_0_r.
    + apply Z.eqb_neq in E. by rewrite decide_False by set_solver.
Qed.

Lemma handler_append (evs q : list (Z * wstatus)) :
  (length q + length evs ≤ PENDING_MAX)%nat →
  foldl (λ q e, if decide (length q < PENDING_MAX)%nat then q ++ [e] else q) q evs = q ++ evs.
Proof.
  revert q; induction evs as [|e evs IH]; intros q Hl; simpl in *; [by rewrite app_nil_r|].
  rewrite decide_True, IH, <-app_assoc by (rewrite ?length_app; simpl; lia). done.
Qed.

Definition batches_fit (ds : list delivery) : Prop :=
  Forall (λ d, length (events_of d) ≤ PENDING_MAX)%nat ds.

(** A suspension with nothing queued: the next delivery becomes the queue. *)
Lemma wait_suspend fuel sus pids dl c s :
  h_ok (ext s) → pending s = [] → (c < length pids)%nat → batches_fit (h_deliveries (ext s)) →
  match h_deliveries (ext s) with
  | [] => wait_loop (S fuel) sus pids false dl c s = Some (Blocked, s)
  | d :: ds => ∃ s' sus', wait_loop (S fuel) sus pids false dl c s = wait_loop fuel sus' pids false dl c s' ∧
      h_ok (ext s') ∧ h_deliveries (ext s') = ds ∧ pending s' = events_of d ∧
      (sus' = true → pending s' = [])
  end.
Proof.
  intros Hok Hp Hc Hb. pose proof (h_next_ok (ext s) Hok) as Hn. cbn [wait_loop].
  rewrite decide_False by lia. rewrite (bind_eq _ _ _ (g_timed_out s) s) by done.
  rewrite andb_false_r. cbn [andb].
  rewrite (bind_eq _ _ _ None s) by (destruct sus; [done|unfold take_pending; by rewrite Hp]).
  destruct (h_deliveries (ext s)) as [|d ds].
  { rewrite (bind_eq _ _ _ None s) by (unfold gets; by rewrite Hn). done. }
  destruct Hn as (f & En & Hokf & Hds). apply Forall_cons in Hb as [Hd _].
  rewrite (bind_eq _ _ _ (Some (d, f)) s) by (unfold gets; by rewrite En).
  destruct d as [evs w|early]; simpl in Hd.
  - eexists (set_pending evs (set_ext f s)), false. split_and!; try done.
    rewrite (bind_eq _ _ _ () (set_ext f s)) by done.
    rewrite (bind_eq _ _ _ () (set_pending evs (set_ext f s))); [done|].
    unfold jobs_sigchld_handler, modify. simpl. rewrite Hp. by rewrite (handler_append evs []).
  - by exists (set_timed_out true (set_ext f s)), early.
Qed.

(** With an event queued: the loop handles it. *)
Lemma wait_event fuel pids dl c s pid st q :
  h_ok (ext s) → pending s = (pid, st) :: q → (length pids ≤ length dl)%nat → NoDup pids →
  (length (waiting pids dl) + c)%nat = length pids → (c < length pids)%nat →
  let next dl' c' := ∃ s', wait_loop (S fuel) false pids false dl c s =
       wait_loop fuel false pids false dl' c' s' ∧ h_ok (ext s') ∧ pending s' = q ∧
       h_deliveries (ext s') = h_deliveries (ext s) in
  if decide (pid ∈ waiting pids dl) then
    match st with
    | WStopped _ => ∃ s', wait_loop (S fuel) false pids false dl c s = Some (Waited c true, s') ∧ h_ok (ext s')
    | WContinued => next dl c
    | _ => ∃ dl', next dl' (S c) ∧ length dl' = length dl ∧ pid :: waiting pids dl' ≡ₚ waiting pids dl
    end
  else next dl c.
Proof.
  intros Hok Hp Hl Hnd Hw Hc next. subst next.
  pose proof (find_waiting_spec pids 0 dl pid ltac:(lia)) as Hf. rewrite drop_0 in Hf.
  set (s0 := set_pending q s).
  assert (∀ r, wait_loop (S fuel) false pids false dl c s = r ↔
    match find_waiting pids 0 dl pid with
    | None => None
    | Some (Some idx) =>
      match st with
      | WStopped _ => Some (Waited c true, s0)
      | WContinued => wait_loop fuel false pids false dl c s0
      | _ => (on_ext (h_finalize pid);;
              wait_loop fuel false pids false (<[idx := true]> dl) (S c)) s0
      end
    | Some None => (handle_tracked_event pid st;; wait_loop fuel false pids false dl c) s0
    end = r) as Hstep.
  { intros r. cbn [wait_loop]. rewrite decide_False by lia.
    rewrite (bind_eq _ _ _ (g_timed_out s) s) by done. rewrite andb_false_r. cbn [andb].
    rewrite (bind_eq _ _ _ (Some (pid, st)) s0) by (unfold take_pending; by rewrite Hp).
    destruct (find_waiting pids 0 dl pid) as [[idx|]|]; [destruct st|..]; done. }
  destruct (decide (pid ∈ waiting pids dl)) as [Hin|Hnin].
  - destruct Hf as (k & Hk & Hpk & Hdk). rewrite Nat.add_0_l in Hk, Hdk. rewrite Hk in Hstep.
    destruct (h_finalize_ok pid (ext s0) Hok) as (f & Ef & Hokf & Hdf).
    assert ((on_ext (h_finalize pid)) s0 = Some ((), set_ext f s0)) as Efin
      by (unfold on_ext, zoom; by rewrite Ef).
    destruct st.
    1,2: exists (<[k := true]> dl); split_and!; [|by rewrite length_insert|by apply waiting_done];
      exists (set_ext f s0); split_and!; [|done..]; apply Hstep; by rewrite (bind_eq _ _ _ _ _ Efin).
    + exists s0. split; [by apply Hstep|done].
    + exists s0. split_and!; [by apply Hstep|done..].
  - rewrite Hf in Hstep. destruct (handle_tracked_event_total pid st s0 Hok) as (s1 & E1 & Hok1 & Hd1 & Hp1 & _).
    exists s1. split_and!; [apply Hstep; by rewrite (bind_eq _ _ _ _ _ E1)|done..].
Qed.

Lemma wait_loop_outcome fuel sus pids dl c s :
  h_ok (ext s) → (wait_fuel s ≤ fuel)%nat → (sus = true → pending s = []) →
  (length pids ≤ length dl)%nat → NoDup pids → (length (waiting pids dl) + c)%nat = length pids →
  batches_fit (h_deliveries (ext s)) →
  ∃ s', wait_loop fuel sus pids false dl c s =
        Some (fg_outcome (list_to_set (waiting pids dl)) c (stream s), s') ∧ h_ok (ext s').
Proof.
  revert sus dl c s; induction fuel as [|fuel IH]; intros sus dl c s Hok Hf Hsus Hl Hnd Hw Hb.
  { unfold wait_fuel in Hf. lia. }
  pose proof (waiting_NoDup pids dl Hnd) as Hndw.
  destruct (decide (length pids ≤ c)%nat) as [Hle|Hlt].
  { assert (waiting pids dl = []) as -> by (apply length_zero_iff_nil; lia).
    exists s. cbn [wait_loop]. rewrite decide_True by done. split; [by destruct (stream s)|done]. }
  assert (list_to_set (C := gset Z) (waiting pids dl) ≠ ∅) as Hne.
  { destruct (waiting pids dl); [simpl in Hw; lia|set_solver]. }
  unfold wait_fuel in Hf. unfold stream. destruct (pending s) as [|[pid st] q] eqn:Hp.
  - pose proof (wait_suspend fuel sus pids dl c s Hok Hp ltac:(lia) Hb) as Hs.
    destruct (h_deliveries (ext s)) as [|d ds] eqn:Hd.
    + exists s. rewrite Hs. split; [|done]. simpl. by rewrite decide_False.
    + destruct Hs as (s' & sus' & -> & Hok' & Hd' & Hp' & Hsus').
      apply Forall_cons in Hb as [Hbd Hb].
      edestruct (IH sus' dl c s') as (s'' & -> & Hok''); try done.
      { unfold wait_fuel. rewrite Hd', Hp'. change (sum_list (delivery_size <$> d :: ds))
          with (delivery_size d + sum_list (delivery_size <$> ds))%nat in Hf.
        destruct d; simpl events_of; simpl delivery_size in Hf; cbn [length] in *; lia. }
      { by rewrite Hd'. }
      exists s''. split; [|done]. do 2 f_equal. unfold stream. rewrite Hp', Hd'. done.
  - assert (sus = false) as -> by (destruct sus; [by specialize (Hsus eq_refl)|done]).
    pose proof (wait_event fuel pids dl c s pid st q Hok Hp Hl Hnd Hw ltac:(lia)) as Hs.
    cbv zeta in Hs. cbn [app fg_outcome]. rewrite (decide_False (P := _ = ∅)) by done.
    assert (∀ dl' c', (∃ s', wait_loop (S fuel) false pids false dl c s =
         wait_loop fuel false pids false dl' c' s' ∧ h_ok (ext s') ∧ pending s' = q ∧
         h_deliveries (ext s') = h_deliveries (ext s)) → length dl' = length dl →
        (length (waiting pids dl') + c')%nat = length pids →
        ∃ s', wait_loop (S fuel) false pids false dl c s =
          Some (fg_outcome (list_to_set (waiting pids dl')) c'
                  (q ++ mjoin (events_of <$> h_deliveries (ext s))), s') ∧ h_ok (ext s')) as Hnext.
    { intros dl' c' (s' & -> & Hok' & Hp' & Hd') Hl' Hw'.
      edestruct (IH false dl' c' s') as (s'' & -> & Hok''); try done.
      - unfold wait_fuel. rewrite Hp', Hd'. simpl in Hf. lia.
      - lia.
      - by rewrite Hd'.
      - exists s''. split; [|done]. unfold stream. by rewrite Hp', Hd'. }
    destruct (decide (pid ∈ waiting pids dl)) as [Hin|Hnin].
    + rewrite (decide_True (P := pid ∈ list_to_set _)) by set_solver.
      destruct st; [| |exact Hs|by apply Hnext];
        destruct Hs as (dl' & Hn & Hl' & Hperm);
        (assert (list_to_set (waiting pids dl) ∖ {[pid]} = list_to_set (C := gset Z) (waiting pids dl')) as ->;
         [rewrite <-Hperm in Hndw |- *; apply NoDup_cons in Hndw as [? ?]; set_solver|]);
        apply Hnext; try done; apply Permutation_length in Hperm; simpl in Hperm; lia.
    + rewrite (decide_False (P := pid ∈ list_to_set _)) by set_solver. by apply Hnext.
Qed.

Lemma wait_foreground_outcome pids s :
  (length pids ≤ JOB_MAX_PROCS)%nat → NoDup pids → h_ok (ext s) →
  batches_fit (h_deliveries (ext s)) →
  ∃ s', jobs_wait_foreground pids false s =
        Some (fg_outcome (list_to_set pids) 0 (stream s), s') ∧ h_ok (ext s').
Proof.
  intros Hl Hnd Hok Hb. unfold jobs_wait_foreground.
  rewrite (bind_eq _ _ _ (wait_fuel s) s) by done.
  destruct (wait_loop_outcome (wait_fuel s) false pids (replicate JOB_MAX_PROCS false) 0 s)
    as (s' & E & Hok'); rewrite ?length_replicate, ?waiting_init by done; try done.
  rewrite waiting_init in E by done. by exists s'.
Qed.

(** C30: waiting for a foreground job follows its specification. For at most
    32 distinct processes, [jobs_wait_foreground] returns exactly what the
    specification says of the stream of events, however signals batch them,
    as long as no delivery brings more than the 256 events the queue has room
    for (what is beyond them is dropped):
    all processes gone, or one of them stopped with the number gone before
    it, or blocked because the stream ends first. *)
Theorem jobs_wait_foreground_outcome pids s :
  (length pids ≤ JOB_MAX_PROCS)%nat → NoDup pids → h_ok (ext s) →
  batches_fit (h_deliveries (ext s)) →
  ∃ s', jobs_wait_foreground pids false s =
        Some (fg_outcome (list_to_set pids) 0 (stream s), s').
Proof.
  intros Hl Hnd Hok Hb. destruct (wait_foreground_outcome pids s Hl Hnd Hok Hb) as (s' & E & _).
  by exists s'.
Qed.

(** The wait blocks when one of the processes never reports and none stops. *)
Lemma fg_outcome_missing W c evs pid :
  pid ∈ W → Forall (λ e, e.1 ≠ pid ∧ ∀ sig, e.2 ≠ WStopped sig) evs → fg_outcome W c evs = Blocked.
Proof.
  intros Hpid Hevs. revert W c Hpid. induction Hevs as [|[q st] evs [Hq Hst] _ IH]; intros W c Hpid; simpl.
  - rewrite decide_False by set_solver. done.
  - rewrite decide_False by set_solver. simpl in Hq, Hst.
    case_decide; [|by apply IH]. destruct st as [| |sig|]; [..|by apply IH].
    1,2: apply IH; set_solver.
    by destruct (Hst sig).
Qed.
End wait.

(** ** Timeouts, bounds and display *)

Section more.
Context {F : Type} `{HostLaws F}.
Implicit Types s : jstate F.

(** the timeout of a wait can be lost. The flag is tested before
    [sigsuspend] but [SIGALRM] is not blocked in between: if the alarm comes
    in that window and no other signal follows, the flag is set and the wait
    blocks all the same. *)
Theorem wait_alarm_race pids s :
  pids ≠ [] → h_ok (ext s) → pending s = [] → g_timed_out s = false →
  h_deliveries (ext s) = [DAlarm true] →
  ∃ s', jobs_wait_foreground pids true s = Some (Blocked, s') ∧ g_timed_out s' = true.
Proof.
  intros Hne Hok Hp Hto Hd. unfold jobs_wait_foreground.
  rewrite (bind_eq _ _ _ (wait_fuel s) s) by done. unfold wait_fuel. rewrite Hp, Hd. cbn [length].
  change (S (0 + sum_list (delivery_size <$> [DAlarm true]))) with 2%nat.
  pose proof (h_next_ok (ext s) Hok) as Hn. rewrite Hd in Hn. destruct Hn as (f & En & Hokf & Hdf).
  pose proof (h_next_ok f Hokf) as Hn2. rewrite Hdf in Hn2.
  destruct pids as [|p pids]; [done|]. cbn [wait_loop length].
  rewrite decide_False by lia. unfold mbind, M_bind, gets, take_pending, modify. cbn.
  rewrite Hto. cbn. rewrite Hp. cbn. rewrite En. cbn.
  rewrite decide_False by lia. cbn. rewrite Hn2. by eexists.
Qed.

(** When the alarm comes during the suspension the wait returns at once. *)
Lemma wait_alarm pids s ds :
  pids ≠ [] → h_ok (ext s) → pending s = [] → g_timed_out s = false →
  h_deliveries (ext s) = DAlarm false :: ds →
  ∃ s', jobs_wait_foreground pids true s = Some (Waited 0 false, s') ∧ g_timed_out s' = true ∧
    h_ok (ext s') ∧ h_deliveries (ext s') = ds ∧ jobs s' = jobs s.
Proof.
  intros Hne Hok Hp Hto Hd. unfold jobs_wait_foreground.
  rewrite (bind_eq _ _ _ (wait_fuel s) s) by done. unfold wait_fuel. rewrite Hp, Hd. cbn [length].
  change (S (0 + sum_list (delivery_size <$> DAlarm false :: ds)))
    with (S (S (sum_list (delivery_size <$> ds)))).
  pose proof (h_next_ok (ext s) Hok) as Hn. rewrite Hd in Hn. destruct Hn as (f & En & Hokf & Hdf).
  destruct pids as [|p pids]; [done|]. cbn [wait_loop length].
  rewrite decide_False by lia. unfold mbind, M_bind, gets, take_pending, modify. cbn.
  rewrite Hto. cbn. rewrite Hp. cbn. rewrite En. cbn.
  rewrite decide_False by lia. by eexists.
Qed.

Lemma find_waiting_overflow pids dl i pid k :
  pids !! k = Some pid → (∀ m, (m < k)%nat → pids !! m ≠ Some pid) →
  (length dl ≤ i + k)%nat → find_waiting pids i dl pid = None.
Proof.
  revert i k; induction pids as [|p pids IH]; intros i k Hk Hfirst Hl; [done|].
  destruct k as [|k]; simplify_eq/=.
  - rewrite Z.eqb_refl. by rewrite lookup_ge_None_2 by lia.
  - assert (p ≠ pid) as Hpne by (intros ->; by apply (Hfirst O ltac:(lia))).
    apply Z.eqb_neq in Hpne as ->. eapply IH; [exact Hk| |lia].
    intros m Hm. apply (Hfirst (S m)). lia.
Qed.

(** [done_local] has room for 32 processes but a foreground pipeline can
    have more: when an event of a process after the 32nd is the first to be
    handled, the array is accessed out of bounds. *)
Theorem wait_foreground_overflow pids s pid st q k :
  pending s = (pid, st) :: q → pids !! k = Some pid → NoDup pids → (JOB_MAX_PROCS ≤ k)%nat →
  jobs_wait_foreground pids false s = None.
Proof.
  intros Hp Hk Hnd Hle. unfold jobs_wait_foreground.
  rewrite (bind_eq _ _ _ (wait_fuel s) s) by done.
  apply lookup_lt_Some in Hk as Hlt. unfold wait_fuel. cbn [wait_loop].
  rewrite decide_False by lia. rewrite (bind_eq _ _ _ (g_timed_out s) s) by done.
  cbn [negb andb]. rewrite (bind_eq _ _ _ (Some (pid, st)) (set_pending q s))
    by (unfold take_pending; by rewrite Hp).
  rewrite (find_waiting_overflow pids _ 0 pid k); [done|done| |rewrite length_replicate; lia].
  intros m Hm Hpm. assert (m = k) by (by eapply NoDup_lookup). lia.
Qed.

Lemma print_jobs s ns :
  jobs_wf s → (∀ n, n ∈ ns → is_Some (table s !! n)) →
  mfor ns (λ n, o ← gets (λ s, jobs_find_by_number n s ≫= λ i, deref i s);
    match o with
    | None => mret ()
    | Some j => on_ext (h_puts (show_job j))
    end) s =
  mfor (omap (λ n, table s !! n) ns) (λ j, on_ext (h_puts (show_job j))) s.
Proof.
  intros Hwf. assert (∀ s', jobs s' = jobs s → jobs_wf s' → (∀ n, n ∈ ns → is_Some (table s !! n)) →
    mfor ns (λ n, o ← gets (λ s, jobs_find_by_number n s ≫= λ i, deref i s);
      match o with None => mret () | Some j => on_ext (h_puts (show_job j)) end) s' =
    mfor (omap (λ n, table s !! n) ns) (λ j, on_ext (h_puts (show_job j))) s') as Hgen; [|by apply Hgen].
  induction ns as [|n ns IH]; intros s' Hj Hwf' Hall; [done|].
  destruct (Hall n) as [j Hn]; [by left|].
  replace (omap (λ n, table s !! n) (n :: ns)) with (j :: omap (λ n, table s !! n) ns)
    by (simpl; by rewrite Hn).
  cbn [mfor]. assert ((jobs_find_by_number n s' ≫= λ i, deref i s') = Some j) as Ef.
  { rewrite find_by_number_spec by done. unfold table. by rewrite Hj. }
  rewrite bind_assoc, (bind_eq _ _ _ (Some j) s') by (unfold gets; by rewrite Ef).
  apply bind_cong. intros [] s1 E1. pose proof (on_ext_wf _ _ _ _ Hwf' E1) as Hwf1.
  unfold on_ext, zoom in E1. destruct (h_puts (show_job j) (ext s')) as [[u f]|]; [|done].
  injection E1 as _ <-. apply IH; [done|done|]. intros m Hm. apply Hall. by right.
Qed.

(** [activities] shows every job of the table exactly once, in ascending
    order of job numbers, that is in the order the jobs were started. *)
Theorem activities_in_order s :
  jobs_wf s →
  ∃ js, js ≡ₚ omap id (jobs s) ∧ StronglySorted (λ a b, job_number a < job_number b) js ∧
    jobs_print_activities s = mfor js (λ j, on_ext (h_puts (show_job j))) s.
Proof.
  intros Hwf. set (ns := exchange_sort Z.ltb (used_numbers (jobs s))).
  destruct (exchange_sort_Z (used_numbers (jobs s))) as [Hperm Hsort]. fold ns in Hperm, Hsort.
  assert (∀ n, n ∈ ns → is_Some (table s !! n)) as Hall.
  { intros n Hn. rewrite Hperm in Hn. apply used_numbers_elem in Hn as (i & j & Hi & <-).
    exists j. apply table_lookup; [done|]. eauto. }
  assert (NoDup ns) as Hnd by (rewrite Hperm; apply Hwf).
  exists (omap (λ n, table s !! n) ns). split_and!.
  - rewrite (omap_Permutation _ _ _ Hperm).
    assert (∀ l, (∀ j, Some j ∈ l → table s !! job_number j = Some j) →
      omap (λ n, table s !! n) (used_numbers l) = omap id l) as Hom.
    { induction l as [|[j|] l IH]; intros Hl; simpl; [done| |apply IH; set_solver].
      rewrite (Hl j) by set_solver. f_equal. apply IH. set_solver. }
    rewrite Hom; [done|]. intros j Hj. apply table_lookup; [done|].
    apply list_elem_of_lookup in Hj as [i Hi]. eauto.
  - clear Hperm. induction Hsort as [|n ns' _ IH Hle]; simpl; [constructor|].
    destruct (Hall n) as [j Hj]; [by left|]. rewrite Hj. apply NoDup_cons in Hnd as [Hn Hnd].
    constructor; [apply IH; [set_solver|done]|].
    apply Forall_forall. intros j' (m & Hm & Hj')%list_elem_of_omap.
    apply table_lookup in Hj as (? & _ & <-), Hj' as (? & _ & <-); [|done..].
    pose proof (proj1 (Forall_forall _ _) Hle _ Hm).
    assert (job_number j ≠ job_number j') by (by intros E; rewrite E in Hn). lia.
  - unfold jobs_print_activities. rewrite (bind_eq _ _ _ (jobs s) s) by done.
    by apply print_jobs.
Qed.
End more.

(** ** The theorems at concrete tables

    The smallest host: it prints and delivers nothing, and its state is the
    list of the signals to come. *)
Definition quiet_host : Host (list delivery) := {|
  h_puts _ := mret ();
  h_kill _ _ := mret ();
  h_finalize _ := mret ();
  h_deliveries ds := ds;
  h_next ds := match ds with [] => None | d :: ds' => Some (d, ds') end;
|}.
Definition quiet_laws : @HostLaws (list delivery) quiet_host.
Proof.
  refine (@Build_HostLaws _ quiet_host (λ _, True) _ _ _); [by eexists..|].
  intros [|d ds]; simpl; eauto.
Defined.

(** A table whose first job, numbered 1, runs two processes in the background
    and whose second was stopped; the exits of the first job are queued. *)
Definition demo_job1 : Job :=
  mkJob 1 101 [mkProc 101 (lit "cat") false; mkProc 102 (lit "wc") false] (lit "cat | wc") JOB_RUNNING true.
Definition demo_job2 : Job :=
  mkJob 2 103 [mkProc 103 (lit "vi") false] (lit "vi") JOB_STOPPED false.
Definition demo_jobs (evs : list (Z * wstatus)) (ds : list delivery) : jstate (list delivery) :=
  mkJstate (Some demo_job2 :: Some demo_job1 :: replicate 62 None) 3 evs [] false ds.

Lemma demo_jobs_wf evs ds : (length evs ≤ PENDING_MAX)%nat → jobs_wf (demo_jobs evs ds).
Proof.
  intros Hl. split; simpl; try done; try (by constructor); try (unfold NOTIF_MAX; lia).
  - by apply (bool_decide_unpack _); vm_compute.
  - repeat constructor; simpl; lia.
  - unfold JOB_MAX_PROCS. repeat constructor; simpl; lia.
Qed.

Lemma jobs_reachable_wf_witness :
  ∃ s, @jobs_reachable _ quiet_host s ∧ jobs_find_by_number 1 s = Some O ∧ jobs_wf s.
Proof.
  assert (∃ s, @jobs_reachable _ quiet_host s ∧ jobs_find_by_number 1 s = Some O) as (s & Hr & Hs).
  { eexists. split.
    - eapply (@reach_step _ quiet_host); [by eapply (reach_init (demo_jobs [] []))|].
      eapply (step_register 101 [(101, Some (lit "ls"))] (Some (lit "ls")) true JOB_RUNNING).
      vm_compute. reflexivity.
    - reflexivity. }
  exists s. split_and!; [done|done|]. exact (@jobs_reachable_wf _ quiet_host s Hr).
Defined.

Lemma jobs_table_refines_witness :
  let s := demo_jobs [] [] in
  jobs_wf s ∧
  (∀ n, (jobs_find_by_number n s ≫= λ i, deref i s) = table s !! n) ∧
  (∀ n s', jobs_remove n s = Some ((), s') → table s' = delete n (table s)) ∧
  (∀ g ps c b st n s', jobs_register g ps c b st s = Some (n, s') →
     (n = -1 ∧ s' = s ∧ size (table s) = JOBS_MAX) ∨
     (0 < n ∧ table s !! n = None ∧ table s' = <[n := new_job n g ps c b st]> (table s))).
Proof.
  intros s. assert (jobs_wf s) as Hwf by (apply demo_jobs_wf; simpl; unfold PENDING_MAX; lia).
  split; [done|]. exact (jobs_table_refines s Hwf).
Defined.

Lemma jobs_process_pending_total_witness :
  let s := demo_jobs [(103, WContinued); (7, WExited 0); (102, WStopped 20)] [] in
  ∃ s', @jobs_process_pending _ quiet_host s = Some ((), s') ∧
    @h_ok _ quiet_host quiet_laws (ext s') ∧ pending s' = [].
Proof. intros s. exact (@jobs_process_pending_total _ quiet_host quiet_laws s I). Defined.

Lemma background_job_completes_witness :
  let s := demo_jobs ([(102, WExited 0)] ++ [(101, WSignaled 9)]) [] in
  ∃ s', @jobs_process_pending _ quiet_host s = Some ((), s') ∧
    jobs s' = <[1%nat := None]> (jobs s) ∧ pending s' = [] ∧
    notif_queue s' = notif_queue s ++ [lit "cat with pid 101 exited abnormally"].
Proof.
  intros s.
  apply (@background_job_completes _ quiet_host quiet_laws 1 demo_job1 [(102, WExited 0)] 101 (WSignaled 9) s);
    try done.
  - apply demo_jobs_wf. simpl. unfold PENDING_MAX. lia.
  - by apply (bool_decide_unpack _); vm_compute.
  - apply Permutation_swap.
  - by repeat constructor.
  - intros k j' pid Hk Hj Hpid. unfold s in Hj. simpl in Hj.
    destruct k as [|[|k]]; [|done|].
    + simplify_eq/=. unfold proc_index, pids_of in *. simpl in *. set_unfold in Hpid.
      by destruct Hpid as [->|[->|[]]].
    + simpl in Hj. apply (lookup_replicate_1 62) in Hj as [? _]. done.
  - simpl. unfold NOTIF_MAX. lia.
Defined.

Lemma jobs_wait_foreground_outcome_witness :
  let s := demo_jobs [(103, WContinued)]
             [DChild [(202, WExited 0); (101, WExited 0)] []; DAlarm true; DChild [(201, WSignaled 2)] []] in
  fg_outcome (list_to_set [201; 202]) 0 (@stream _ quiet_host s) = Waited 2 false ∧
  ∃ s', @jobs_wait_foreground _ quiet_host [201; 202] false s =
        Some (fg_outcome (list_to_set [201; 202]) 0 (@stream _ quiet_host s), s').
Proof.
  intros s. split; [by vm_compute|].
  apply (@jobs_wait_foreground_outcome _ quiet_host quiet_laws).
  - simpl. unfold JOB_MAX_PROCS. lia.
  - by apply (bool_decide_unpack _); vm_compute.
  - exact I.
  - by apply (bool_decide_unpack _); vm_compute.
Defined.

Lemma wait_alarm_race_witness :
  let s := demo_jobs [] [DAlarm true] in
  ∃ s', @jobs_wait_foreground _ quiet_host [101; 102] true s = Some (Blocked, s') ∧
    g_timed_out s' = true.
Proof. intros s. by apply (@wait_alarm_race _ quiet_host quiet_laws). Defined.

Lemma wait_foreground_overflow_witness :
  let s := demo_jobs [(232, WExited 0)] [] in
  @jobs_wait_foreground _ quiet_host (seqZ 200 40) false s = None.
Proof.
  intros s. apply (@wait_foreground_overflow _ quiet_host _ s 232 (WExited 0) [] 32); try done.
  - apply NoDup_seqZ.
Defined.

Lemma activities_in_order_witness :
  let s := demo_jobs [] [] in
  ∃ js, js ≡ₚ omap id (jobs s) ∧ StronglySorted (λ a b, job_number a < job_number b) js ∧
    @jobs_print_activities _ quiet_host s =
    mfor js (λ j, @on_ext _ _ (@h_puts _ quiet_host (show_job j))) s.
Proof.
  intros s. apply (@activities_in_order _ quiet_host). apply demo_jobs_wf. simpl.
  unfold PENDING_MAX. lia.
Defined.
