(* ===== verification/JobControl.v ===== *)
(** Terminal and signal set-up: [c-shell/src/term.c], and the shell as the
    host of the job table.

    [tcsetpgrp] makes a process group the terminal's foreground group; it
    fails, and changes nothing, for a group number that is not positive. *)
From S2P Require Import Prelude CLib Sys Redirection Jobs Lexer.

Definition tcsetpgrp (pgid : Z) : M sys unit :=
  modify (λ s, if 0 <? pgid then set_fg pgid s else s).

(** [sigaction] and [signal]: the last disposition set counts. *)
Definition sigaction (sig : signal) (d : disposition) : M sys unit :=
  modify (λ s, set_dispositions ((sig, d) :: dispositions s) s).
Definition disposition_of (sig : signal) (s : sys) : disposition :=
  match list_find (λ p, p.1 = sig) (dispositions s) with
  | Some (_, (_, d)) => d
  | None => SigDfl
  end.

Definition term_init : M sys unit :=
  modify (λ s, set_shell_pgid (self_pid s) s);;
  g ← gets shell_pgid;
  tcsetpgrp g;;
  sigaction SIGINT (SigHandler "noop_handler");;
  sigaction SIGTSTP (SigHandler "noop_handler");;
  sigaction SIGTTOU SigIgn;;
  sigaction SIGTTIN SigIgn;;
  sigaction SIGCHLD (SigHandler "jobs_sigchld_handler").

Definition term_shell_pgid : M sys Z := gets shell_pgid.
Definition term_give_to (pgid : Z) : M sys unit := tcsetpgrp pgid.
Definition term_reclaim : M sys unit := g ← gets shell_pgid; tcsetpgrp g.

(** Giving the terminal away and taking it back restores the foreground group
    of an initialised shell. *)
Lemma term_give_reclaim pgid s :
  0 < shell_pgid s → fg s = shell_pgid s →
  (term_give_to pgid;; term_reclaim) s = Some ((), s).
Proof.
  intros Hpos Hfg. unfold term_give_to, term_reclaim, tcsetpgrp, modify, gets, mbind, M_bind.
  apply Z.ltb_lt in Hpos as Hb. destruct (0 <? pgid); simpl; rewrite Hb, <-Hfg; by destruct s.
Qed.

(** ** The shell as a host *)

Section host.
Context `{Posix}.

(** What children wrote while the shell was suspended. *)
Definition apply_written (w : list (list ascii * list ascii)) (s : sys) : sys :=
  foldl (λ s p, set_files (<[p.1 := contents p.1 s ++ p.2]> (files s)) s) s w.

Definition next_delivery (r : rstate) : option (delivery * rstate) :=
  match deliveries (r_sys r) with
  | [] => None
  | d :: ds =>
    let s := set_deliveries ds (r_sys r) in
    Some (d, put_sys (match d with DChild _ w => apply_written w s | DAlarm _ => s end) r)
  end.

#[export] Instance shell_host : Host rstate := {|
  h_puts msg := on_sys (puts msg);
  h_kill pid sig := on_sys (send_signal pid sig);
  h_finalize := outreg_finalize;
  h_deliveries r := deliveries (r_sys r);
  h_next := next_delivery;
|}.

(** No registered command has its own temporary file as a target. *)
Definition registry_ok (r : rstate) : Prop :=
  Forall (λ o, match o with
    | Some sp => abspath (cwd (r_sys r)) (tmp_out_name (o_pid sp)) ∉
                 abspath (cwd (r_sys r)) <$> o_files sp
    | None => True
    end) (registry r).

Lemma registry_ok_sys s r : cwd s = cwd (r_sys r) → registry_ok r → registry_ok (put_sys s r).
Proof. unfold registry_ok. simpl. by intros ->. Qed.

Lemma apply_written_spec w s :
  cwd (apply_written w s) = cwd s ∧ deliveries (apply_written w s) = deliveries s.
Proof.
  revert s; induction w as [|[p d] w IH]; intros s; [done|]. simpl.
  destruct (IH (set_files (<[p := contents p s ++ d]> (files s)) s)) as [-> ->]. done.
Qed.

Lemma puts_total msg s :
  ∃ s', puts msg s = Some ((), s') ∧ cwd s' = cwd s ∧ deliveries s' = deliveries s.
Proof.
  unfold puts, modify. eexists. split; [reflexivity|].
  by destruct (fds s !! 1%nat) as [[]|].
Qed.

(** What waiting never changes: the terminal, the descriptors, the signals
    sent, the children, the directory and the error output. *)
Definition kept (r r' : rstate) : Prop :=
  let s := r_sys r in let s' := r_sys r' in
  s' = set_files (files s') (set_out (out s') (set_deliveries (deliveries s') s)).
Lemma kept_refl r : kept r r.
Proof. unfold kept. by destruct r as [[] ?]. Qed.
Lemma kept_trans r1 r2 r3 : kept r1 r2 → kept r2 r3 → kept r1 r3.
Proof. unfold kept. simpl. intros E1 E2. rewrite E2, E1. done. Qed.

Lemma apply_written_kept w s :
  apply_written w s = set_files (files (apply_written w s)) s.
Proof.
  revert s; induction w as [|[p d] w IH]; intros s; [by destruct s|]. simpl. rewrite IH at 1. done.
Qed.

(** The redirection layer and the terminal keep the job table's promises: a
    child's output is always finished, with everything but files and printed
    output as in [r0], as long as no command redirects its output to its own
    temporary file. *)
Definition shell_host_laws (r0 : rstate) : HostLaws rstate.
Proof.
  refine {| h_ok r := registry_ok r ∧ kept r0 r |}.
  - intros pid r [Hok Hk]. simpl.
    destruct (index_of (entry_of pid) (registry r)) as [i|] eqn:Hi.
    2:{ exists r. split; [by apply outreg_finalize_unknown|done]. }
    destruct (proj1 (index_of_Some _ _ _) Hi) as (o & Ho & Hp & _).
    destruct o as [sp|]; [|done]. simpl in Hp. apply bool_decide_eq_true in Hp.
    pose proof (Forall_lookup_1 _ _ _ _ Hok Ho) as Hsp. cbv beta iota in Hsp.
    rewrite Hp in Hsp. destruct (deliver_output_total _ _ _ Hsp) as (m & Em).
    eexists. split; [rewrite (outreg_finalize_found pid i sp r Hi Ho), Em; reflexivity|].
    split; [|done]. split.
    + unfold registry_ok. simpl. apply Forall_insert; [done|done].
    + eapply kept_trans; [exact Hk|]. unfold kept. simpl. by destruct (r_sys r).
  - intros msg r [Hok Hk]. simpl. unfold on_sys, zoom, puts, modify.
    eexists. split; [reflexivity|].
    assert (∀ s', kept r (put_sys s' r) → cwd s' = cwd (r_sys r) → deliveries s' = deliveries (r_sys r) →
      (registry_ok (put_sys s' r) ∧ kept r0 (put_sys s' r)) ∧
      deliveries (r_sys (put_sys s' r)) = deliveries (r_sys r)) as Hall.
    { intros s' Hks Hc Hd. split; [|done]. split; [by apply registry_ok_sys|by eapply kept_trans]. }
    destruct (fds (r_sys r) !! 1%nat) as [[]|]; apply Hall; try done; unfold kept; simpl;
      by destruct (r_sys r).
  - intros r [Hok Hk]. simpl. unfold next_delivery.
    destruct (deliveries (r_sys r)) as [|d ds]; [done|].
    eexists. split; [reflexivity|]. destruct d as [evs w|early].
    + destruct (apply_written_spec w (set_deliveries ds (r_sys r))) as [Hc Hd].
      split; [|simpl; by rewrite Hd]. split; [by apply registry_ok_sys|].
      eapply kept_trans; [exact Hk|]. unfold kept. simpl. rewrite Hd. rewrite apply_written_kept at 1.
      simpl. rewrite apply_written_kept. simpl. by destruct (r_sys r).
    + split; [|done]. split; [by apply registry_ok_sys|]. eapply kept_trans; [exact Hk|].
      unfold kept. simpl. by destruct (r_sys r).
Defined.
End host.

(** The job-control commands: [c-shell/src/ping.c], [c-shell/src/resume.c] and
    [c-shell/src/activities.c], on the state of the job table with the shell
    as its host.

    A command that waits returns [None] when the shell stays suspended
    forever ([Blocked] of the job table). [(int)] and [(pid_t)] conversions
    of a [long] wrap to 32 bits. *)

Abbreviation shell := (jstate rstate).

Section code.
Context `{Posix}.

(** System calls on the shell's state. *)
Definition sh_sys {A} (m : M sys A) : M shell A := on_ext (on_sys m).
Definition sys_of (s : shell) : sys := r_sys (ext s).

(** ** [ping] *)

Definition ping_syntax : M shell unit := sh_sys (eputs (line (lit "ping: invalid syntax"))).
Definition ping_none : M shell unit := sh_sys (eputs (line (lit "ping: no such process found"))).

Definition ping_sent (target sig_str : list ascii) (pid sig : Z) : M shell unit :=
  sh_sys (send_signal pid sig);;
  sh_sys (puts (line (lit "Sent signal " ++ sig_str ++ lit " to " ++ target))).

(** The part of [run_ping] after the signal has been read. *)
Definition ping_target (target sig_str : list ascii) (actual_sig : Z) : M shell unit :=
  if char_at target 0 =c "%" then
    if char_at target 1 =c c_nul then ping_none
    else
      let '(jn, endp) := strtol (drop 1 target) in
      if negb (char_at endp 0 =c c_nul) then ping_none
      else
        o ← gets (λ s, jobs_find_by_number (int32 jn) s ≫= λ i, deref i s);
        match o with
        | None => ping_none
        | Some j => ping_sent target sig_str (- job_pgid j) actual_sig
        end
  else
    let '(pidval, endp) := strtol target in
    if negb (char_at endp 0 =c c_nul) then ping_none
    else
      o ← gets (jobs_find_by_pid (int32 pidval));
      match o with
      | None => ping_none
      | Some _ => ping_sent target sig_str (int32 pidval) actual_sig
      end.

Definition run_ping (tokens : list Token) : M shell unit :=
  match tail tokens with
  | [t1; t2] =>
    let sig_str := value t2 in
    if char_at sig_str 0 =c c_nul then ping_syntax
    else
      let '(sig_val, endp) := strtol sig_str in
      if negb (char_at endp 0 =c c_nul) || (sig_val <? 0) then ping_syntax
      else ping_target (value t1) sig_str (Z.rem sig_val 64)
  | _ => ping_syntax
  end.

(** ** [resume] *)

Record resume_args := mkResume { r_number : Z; r_fg : bool; r_timeout : Z }.

(** The parsing part of [run_resume]; [None] is "invalid syntax". *)
Definition parse_timeout (rest : list Token) : option Z :=
  match rest with
  | [t] =>
    let '(timeout, endp) := strtol (value t) in
    if negb (char_at endp 0 =c c_nul) || (char_at (value t) 0 =c c_nul) || (timeout <? 0)
    then None else Some timeout
  | _ => None
  end.
Definition parse_resume (args : list Token) : option resume_args :=
  match args with
  | [] => None
  | t :: args =>
    if negb (char_at (value t) 0 =c "%") || (char_at (value t) 1 =c c_nul) then None
    else
      let '(job_number, endp) := strtol (drop 1 (value t)) in
      if negb (char_at endp 0 =c c_nul) then None
      else
        match args with
        | [] => None
        | m :: args =>
          fg ← (if value m =s lit "fg" then Some true
                else if value m =s lit "bg" then Some false else None);
          match args with
          | [] => Some (mkResume job_number fg (-1))
          | o :: args =>
            if negb fg || negb (value o =s lit "--timeout") then None
            else timeout ← parse_timeout args; Some (mkResume job_number fg timeout)
          end
        end
  end.

Definition CMDLINE_MAX : nat := 1024.

(** The three ends of a foreground wait in [run_resume]. *)
Definition report_timeout (j : Job) : M shell unit :=
  sh_sys (send_signal (- job_pgid j) (signo SIGTERM));;
  sh_sys (puts (line (lit "resume: job timed out")));;
  jobs_remove (job_number j).
Definition report_stopped (j : Job) : M shell unit :=
  o ← gets (jobs_find_by_number (job_number j));
  match o with Some i => update_job i (set_state JOB_STOPPED) | None => mret () end;;
  sh_sys (puts (line (lit "[" ++ itoa (job_number j) ++ lit "] + Stopped    " ++
                      strncpy_nul CMDLINE_MAX (job_cmdline j)))).
Definition finish_job (j : Job) (pids : list Z) : M shell unit :=
  mfor pids (λ pid, on_ext (outreg_finalize pid));;
  jobs_remove (job_number j).

Definition after_wait (j : Job) (pids : list Z) (timeout : Z) (done_count : nat) (stopped : bool)
  : M shell unit :=
  sh_sys term_reclaim;;
  timed_out ← gets g_timed_out;
  (if (0 <=? timeout) && timed_out && negb stopped && bool_decide (done_count < length pids)%nat
   then report_timeout j
   else if stopped then report_stopped j
   else finish_job j pids);;
  jobs_flush_notifications.

(** The foreground part of [run_resume]; [None] when the wait never ends. *)
Definition resume_fg (j : Job) (timeout : Z) : M shell (option unit) :=
  sh_sys (puts (line (job_cmdline j)));;
  let pids := p_pid <$> job_procs j in
  sh_sys (term_give_to (job_pgid j));;
  when (0 <=? timeout) (modify (set_timed_out false));;
  r ← jobs_wait_foreground pids (0 <=? timeout);
  match r with
  | Blocked => mret None
  | Waited done_count stopped => after_wait j pids timeout done_count stopped;; mret (Some ())
  end.

Definition run_resume (tokens : list Token) : M shell (option unit) :=
  match parse_resume (tail tokens) with
  | None => sh_sys (eputs (line (lit "resume: invalid syntax")));; mret (Some ())
  | Some a =>
    o ← gets (jobs_find_by_number (int32 (r_number a)));
    match o with
    | None => sh_sys (eputs (line (lit "resume: no such job")));; mret (Some ())
    | Some i =>
      oj ← gets (deref i);
      match oj with
      | None => stuck
      | Some j =>
        sh_sys (send_signal (- job_pgid j) (signo SIGCONT));;
        update_job i (set_state JOB_RUNNING);;
        if r_fg a then resume_fg j (r_timeout a)
        else
          sh_sys (puts (line (lit "[" ++ itoa (job_number j) ++ lit "] + Running    " ++ job_cmdline j)));;
          mret (Some ())
      end
    end
  end.

(** ** [activities] *)

Definition run_activities (tokens : list Token) : M shell unit := jobs_print_activities.

(** ** Lemmas on system calls *)

Definition put_sys_of (s' : sys) (s : shell) : shell := set_ext (put_sys s' (ext s)) s.

Lemma sh_sys_eq {A} (m : M sys A) s a s' :
  m (sys_of s) = Some (a, s') → sh_sys m s = Some (a, put_sys_of s' s).
Proof. intros E. unfold sh_sys, on_ext, on_sys, zoom. unfold sys_of in E. by rewrite E. Qed.

Lemma sh_sys_wf {A} (m : M sys A) : preserves jobs_wf (sh_sys m).
Proof. apply on_ext_wf. Qed.

Lemma sh_puts text s :
  ∃ s', sh_sys (puts text) s = Some ((), put_sys_of s' s) ∧ kills s' = kills (sys_of s) ∧
    fg s' = fg (sys_of s) ∧ shell_pgid s' = shell_pgid (sys_of s) ∧ cwd s' = cwd (sys_of s) ∧
    deliveries s' = deliveries (sys_of s).
Proof.
  eexists. split; [apply sh_sys_eq; reflexivity|].
  by destruct (fds (sys_of s) !! 1%nat) as [[]|].
Qed.

(** ** [ping] *)

(** A process or process group of a job in the table. *)
Definition tracked (s : shell) (x : Z) : Prop :=
  (∃ i j, jobs s !! i = Some (Some j) ∧ x = - job_pgid j) ∨
  (∃ i j p, jobs s !! i = Some (Some j) ∧ p ∈ job_procs j ∧ x = p_pid p).

(** At most one signal was sent, to a tracked target. *)
Definition ping_effect (s s' : shell) : Prop :=
  jobs s' = jobs s ∧
  (kills (sys_of s') = kills (sys_of s) ∨
   ∃ x sig, kills (sys_of s') = kills (sys_of s) ++ [(x, sig)] ∧ 0 ≤ sig < 64 ∧ tracked s x).

Lemma ping_error msg s :
  ∃ s', sh_sys (eputs msg) s = Some ((), s') ∧ ping_effect s s'.
Proof. eexists. split; [apply sh_sys_eq; reflexivity|]. split; [done|]. by left. Qed.

Lemma ping_sent_effect target sig_str x sig s :
  tracked s x → 0 ≤ sig < 64 →
  ∃ s', ping_sent target sig_str x sig s = Some ((), s') ∧ ping_effect s s'.
Proof.
  intros Ht Hsig. unfold ping_sent.
  rewrite (bind_eq _ _ _ () (put_sys_of (set_kills (kills (sys_of s) ++ [(x, sig)]) (sys_of s)) s))
    by (by apply sh_sys_eq).
  set (s1 := put_sys_of _ s).
  destruct (sh_puts (line (lit "Sent signal " ++ sig_str ++ lit " to " ++ target)) s1)
    as (s' & -> & Hk & _). eexists. split; [done|]. split; [done|]. right. exists x, sig.
  split; [|done]. unfold sys_of at 1. simpl. by rewrite Hk.
Qed.

Lemma ping_target_effect target sig_str sig s :
  0 ≤ sig < 64 → ∃ s', ping_target target sig_str sig s = Some ((), s') ∧ ping_effect s s'.
Proof.
  intros Hsig. unfold ping_target, ping_none. destruct (_ =c _).
  - destruct (_ =c _); [apply ping_error|].
    destruct (strtol (drop 1 target)) as [jn endp]. destruct (negb _); [apply ping_error|].
    rewrite (bind_eq _ _ _ (jobs_find_by_number (int32 jn) s ≫= λ i, deref i s) s) by done.
    destruct (jobs_find_by_number (int32 jn) s ≫= λ i, deref i s) as [j|] eqn:E; [|apply ping_error].
    apply ping_sent_effect; [|done]. left.
    destruct (jobs_find_by_number (int32 jn) s) as [i|]; simpl in E; [|done].
    exists i, j. split; [|done]. unfold deref in E. by destruct (jobs s !! i) as [[]|]; simplify_eq/=.
  - destruct (strtol target) as [pidval endp]. destruct (negb _); [apply ping_error|].
    rewrite (bind_eq _ _ _ (jobs_find_by_pid (int32 pidval) s) s) by done.
    destruct (jobs_find_by_pid (int32 pidval) s) as [[i idx]|] eqn:E; [|apply ping_error].
    apply ping_sent_effect; [|done]. right.
    apply find_by_pid_Some in E as (j & p & Hi & Hp & Hpid).
    exists i, j, p. split_and!; [done|by eapply list_elem_of_lookup_2|done].
Qed.

(** [ping] never signals a process the shell does not track. On every
    argument list it returns, leaves the job table alone and sends at most
    one signal: its number is the argument modulo 64 and its target is the
    process group of a job in the table or a process of such a job. *)
Theorem ping_only_tracked tokens s :
  ∃ s', run_ping tokens s = Some ((), s') ∧ ping_effect s s'.
Proof.
  unfold run_ping, ping_syntax.
  destruct (tail tokens) as [|t1 [|t2 [|t3 ts]]]; try apply ping_error.
  destruct (_ =c _); [apply ping_error|].
  destruct (strtol (value t2)) as [sig_val endp]. destruct (negb _ || _) eqn:E; [apply ping_error|].
  apply ping_target_effect. apply orb_false_iff in E as [_ E].
  rewrite Z.rem_mod_nonneg by lia. apply Z.mod_pos_bound. lia.
Qed.

(** ** [resume] *)

Lemma update_job_table i f (s : shell) j :
  jobs_wf s → jobs s !! i = Some (Some j) → (∀ j, job_number (f j) = job_number j) →
  ∃ s', update_job i f s = Some ((), s') ∧ jobs s' = <[i := Some (f j)]> (jobs s) ∧
    ext s' = ext s ∧ pending s' = pending s.
Proof.
  intros Hwf Hi Hf. eexists. split; [reflexivity|]. simpl.
  split; [|done]. by rewrite (list_alter_insert _ _ _ _ Hi).
Qed.

Lemma finalize_all_ok (L : HostLaws rstate) pids s :
  @h_ok _ _ L (ext s) →
  ∃ s', mfor pids (λ pid, on_ext (outreg_finalize pid)) s = Some ((), s') ∧
    @h_ok _ _ L (ext s') ∧ jobs s' = jobs s.
Proof.
  intros Hok.
  apply (mfor_inv (λ s', @h_ok _ _ L (ext s') ∧ jobs s' = jobs s)); [done|].
  intros pid s1 _ [Hok1 Hj1]. destruct (@h_finalize_ok _ _ L pid (ext s1) Hok1) as (f & Ef & Hokf & _).
  exists (set_ext f s1). split; [|done]. unfold on_ext, zoom. simpl in Ef. by rewrite Ef.
Qed.

Lemma flush_ok (L : HostLaws rstate) s :
  @h_ok _ _ L (ext s) →
  ∃ s', jobs_flush_notifications s = Some ((), s') ∧ @h_ok _ _ L (ext s') ∧ jobs s' = jobs s ∧
    notif_queue s' = [].
Proof.
  intros Hok. unfold jobs_flush_notifications.
  rewrite (bind_eq _ _ _ (notif_queue s) s) by done.
  destruct (mfor_inv (λ s', @h_ok _ _ L (ext s') ∧ jobs s' = jobs s) (notif_queue s)
    (λ m, on_ext (h_puts (line m))) s) as (s1 & E1 & Hok1 & Hj1); [done| |].
  { intros m s1 _ [Hok1 Hj1]. destruct (@h_puts_ok _ _ L (line m) (ext s1) Hok1) as (f & Ef & Hokf & _).
    exists (set_ext f s1). split; [|done]. unfold on_ext, zoom. by rewrite Ef. }
  rewrite (bind_eq _ _ _ _ _ E1). by eexists.
Qed.

Lemma h_ok_sys r0 s s' :
  @h_ok _ _ (shell_host_laws r0) (ext s) → kept (ext s) (put_sys s' (ext s)) → cwd s' = cwd (sys_of s) →
  @h_ok _ _ (shell_host_laws r0) (ext (put_sys_of s' s)).
Proof.
  simpl. intros [Hok Hk] Hks Hc. split; [by apply registry_ok_sys|by eapply kept_trans].
Qed.

Lemma reclaim_ok r0 s :
  @h_ok _ _ (shell_host_laws r0) (ext s) → 0 < shell_pgid (r_sys r0) →
  sh_sys term_reclaim s = Some ((), put_sys_of (set_fg (shell_pgid (r_sys r0)) (sys_of s)) s).
Proof.
  intros [_ Hk] Hpos. apply sh_sys_eq. unfold term_reclaim, tcsetpgrp, gets, modify, mbind, M_bind.
  assert (shell_pgid (sys_of s) = shell_pgid (r_sys r0)) as -> by (unfold sys_of; by rewrite Hk).
  by rewrite (proj2 (Z.ltb_lt _ _) Hpos).
Qed.


(** The part before the wait: the command line is shown and the group gets the
    terminal. *)
Lemma resume_fg_start j timeout s :
  ∃ s1, (sh_sys (puts (line (job_cmdline j)));; sh_sys (term_give_to (job_pgid j));;
         when (0 <=? timeout) (modify (set_timed_out false))) s = Some ((), s1) ∧
    jobs s1 = jobs s ∧ next_job_number s1 = next_job_number s ∧ pending s1 = pending s ∧
    notif_queue s1 = notif_queue s ∧ registry (ext s1) = registry (ext s) ∧
    cwd (sys_of s1) = cwd (sys_of s) ∧ shell_pgid (sys_of s1) = shell_pgid (sys_of s) ∧
    deliveries (sys_of s1) = deliveries (sys_of s).
Proof.
  destruct (sh_puts (line (job_cmdline j)) s) as (s' & E1 & _ & _ & Hp & Hc & Hd).
  rewrite (bind_eq _ _ _ _ _ E1). set (s2 := put_sys_of s' s).
  assert (∃ v, sh_sys (term_give_to (job_pgid j)) s2 = Some ((), put_sys_of (set_fg v s') s2)) as (v & E2).
  { unfold sh_sys, on_ext, on_sys, zoom, term_give_to, tcsetpgrp, modify. simpl.
    destruct (0 <? job_pgid j); [by eexists|]. exists (fg s'). unfold put_sys_of. simpl. by destruct s'. }
  rewrite (bind_eq _ _ _ _ _ E2).
  destruct (0 <=? timeout); eexists; (split; [reflexivity|]); by split_and!.
Qed.

Lemma sh_puts_ok (L : HostLaws rstate) msg s :
  @h_ok _ _ L (ext s) → ∃ f, sh_sys (puts msg) s = Some ((), set_ext f s) ∧ @h_ok _ _ L f.
Proof.
  intros Hok. destruct (@h_puts_ok _ _ L msg (ext s) Hok) as (f & Ef & Hf & _). exists f.
  split; [|done]. unfold sh_sys, on_ext, zoom at 1. simpl in Ef. by rewrite Ef.
Qed.

Lemma report_stopped_ok (L : HostLaws rstate) j s :
  @h_ok _ _ L (ext s) → jobs_wf s →
  ∃ s', report_stopped j s = Some ((), s') ∧ @h_ok _ _ L (ext s') ∧ jobs_wf s' ∧
    ∀ j', table s' !! job_number j = Some j' → job_state j' = JOB_STOPPED.
Proof.
  intros Hok Hwf. unfold report_stopped.
  rewrite (bind_eq _ _ _ (jobs_find_by_number (job_number j) s) s) by done.
  destruct (jobs_find_by_number (job_number j) s) as [i|] eqn:Ei.
  - apply index_of_Some in Ei as (x & Hx & Hn & _). destruct x as [jx|]; [|done]. simpl in Hn.
    destruct (update_job_table i (set_state JOB_STOPPED) s jx Hwf Hx) as (s2 & E2 & Hj2 & Hext & _);
      [done|].
    rewrite (bind_eq _ _ _ _ _ E2).
    destruct (sh_puts_ok L (line (lit "[" ++ itoa (job_number j) ++ lit "] + Stopped    " ++
      strncpy_nul CMDLINE_MAX (job_cmdline j))) s2) as (f & Ef & Hf); [by rewrite Hext|].
    rewrite Ef. eexists. split; [done|].
    assert (jobs_wf (set_ext f s2)) as Hwf2.
    { apply (wf_ext s2); [done..|]. eapply (update_job_wf i (set_state JOB_STOPPED));
        [|exact Hwf|exact E2]. by intros ?. }
    split_and!; [done|done|]. intros j' Hj'.
    apply table_lookup in Hj' as (k & Hk & Hnk); [|done]. simpl in Hk. rewrite Hj2 in Hk.
    apply lookup_lt_Some in Hx as Hlt. destruct (decide (k = i)) as [->|Hki].
    { rewrite list_lookup_insert_eq in Hk by done. by injection Hk as <-. }
    rewrite list_lookup_insert_ne in Hk by done. destruct Hki.
    eapply (same_number s); [done|exact Hk|exact Hx|]. lia.
  - rewrite (bind_eq _ _ _ () s) by done.
    destruct (sh_puts_ok L (line (lit "[" ++ itoa (job_number j) ++ lit "] + Stopped    " ++
      strncpy_nul CMDLINE_MAX (job_cmdline j))) s Hok) as (f & -> & Hf).
    eexists. split; [done|].
    split_and!; [done|by eapply wf_ext; [..|exact Hwf]|].
    assert (table (set_ext f s) = table s) as -> by done.
    rewrite <-find_by_number_spec, Ei by done. done.
Qed.

Lemma finish_job_ok (L : HostLaws rstate) j pids s :
  @h_ok _ _ L (ext s) → jobs_wf s →
  ∃ s', finish_job j pids s = Some ((), s') ∧ @h_ok _ _ L (ext s') ∧ jobs_wf s' ∧
    table s' !! job_number j = None.
Proof.
  intros Hok Hwf. unfold finish_job. destruct (finalize_all_ok L pids s Hok) as (s2 & E2 & Hok2 & Hj2).
  rewrite (bind_eq _ _ _ _ _ E2).
  assert (jobs_wf s2) as Hwf2.
  { revert Hwf E2. apply preserves_mfor. intros. apply on_ext_wf. }
  destruct (jobs_remove (job_number j) s2) as [[[] s3]|] eqn:E3; [|done].
  exists s3. split_and!; [done| |by eapply jobs_remove_wf|].
  - injection E3 as <-. by destruct (index_of _ (jobs s2)).
  - rewrite (table_delete s2 _ _ Hwf2 E3). apply lookup_delete_eq.
Qed.

(** What [after_wait] leaves behind when there is no timeout. *)
Lemma after_wait_spec r0 j pids n (stopped : bool) s :
  @h_ok _ _ (shell_host_laws r0) (ext s) → 0 < shell_pgid (r_sys r0) → jobs_wf s →
  ∃ s', after_wait j pids (-1) n stopped s = Some ((), s') ∧
    fg (sys_of s') = shell_pgid (r_sys r0) ∧ notif_queue s' = [] ∧
    (if stopped then ∀ j', table s' !! job_number j = Some j' → job_state j' = JOB_STOPPED
     else table s' !! job_number j = None).
Proof.
  intros Hok Hpos Hwf. unfold after_wait. rewrite (bind_eq _ _ _ _ _ (reclaim_ok r0 s Hok Hpos)).
  set (s1 := put_sys_of _ s). rewrite (bind_eq _ _ _ (g_timed_out s1) s1) by done.
  change (0 <=? -1) with false. cbn [andb].
  assert (jobs_wf s1) as Hwf1 by (by eapply wf_ext; [..|exact Hwf]).
  set (L := shell_host_laws (ext s1)).
  assert (@h_ok _ _ L (ext s1)) as Hok1.
  { split; [|apply kept_refl]. destruct Hok as [Hr _]. by apply registry_ok_sys. }
  assert (∃ s2, (if stopped then report_stopped j else finish_job j pids) s1 = Some ((), s2) ∧
    @h_ok _ _ L (ext s2) ∧
    (if stopped then ∀ j', table s2 !! job_number j = Some j' → job_state j' = JOB_STOPPED
     else table s2 !! job_number j = None)) as (s2 & E2 & Hok2 & Ht2).
  { destruct stopped.
    - destruct (report_stopped_ok L j s1 Hok1 Hwf1) as (s2 & ? & ? & _ & ?). by exists s2.
    - destruct (finish_job_ok L j pids s1 Hok1 Hwf1) as (s2 & ? & ? & _ & ?). by exists s2. }
  rewrite (bind_eq _ _ _ _ _ E2).
  destruct (flush_ok L s2 Hok2) as (s3 & E3 & [_ Hk] & Hj3 & Hn3). exists s3.
  split_and!; [done| |done|].
  - unfold sys_of. by rewrite Hk.
  - assert (table s3 = table s2) as -> by (unfold table; by rewrite Hj3). done.
Qed.

(** The wait of [resume_fg] follows the stream of events. *)
Lemma resume_fg_wait j s :
  jobs_wf s → registry_ok (ext s) →
  (length (pids_of j) ≤ JOB_MAX_PROCS)%nat → NoDup (pids_of j) →
  batches_fit (deliveries (sys_of s)) →
  ∃ r0 s2, shell_pgid (r_sys r0) = shell_pgid (sys_of s) ∧
    @h_ok _ _ (shell_host_laws r0) (ext s2) ∧ jobs_wf s2 ∧
    resume_fg j (-1) s =
    match fg_outcome (list_to_set (pids_of j)) 0 (stream s) with
    | Blocked => Some (None, s2)
    | Waited n st => (after_wait j (pids_of j) (-1) n st;; mret (Some ())) s2
    end.
Proof.
  intros Hwf Hreg Hl Hnd Hb.
  destruct (resume_fg_start j (-1) s) as (s1 & E1 & Hj & Hn & Hp & Hq & Hr & Hc & Hg & Hd).
  unfold sys_of in Hc, Hg, Hd, Hb |- *.
  assert (@h_ok _ _ (shell_host_laws (ext s1)) (ext s1)) as Hok1.
  { split; [|apply kept_refl]. unfold registry_ok. rewrite Hr, Hc. done. }
  destruct (@wait_foreground_outcome _ _ (shell_host_laws (ext s1)) (pids_of j) s1 Hl Hnd Hok1)
    as (s2 & E2 & Hok2); [simpl; by rewrite Hd|].
  assert (stream s1 = stream s) as Hst by (unfold stream; rewrite Hp; simpl; by rewrite Hd).
  rewrite Hst in E2. exists (ext s1), s2. split_and!; [done|done| |].
  - assert (jobs_wf s1) as Hwf1 by (by eapply wf_ext; [..|exact Hwf]).
    revert Hwf1 E2. apply preserves_bind; [apply preserves_gets|intros n; apply wait_loop_wf].
  - unfold resume_fg.
    apply bind_Some in E1 as ([] & sa & Ea & E1). rewrite (bind_eq _ _ _ _ _ Ea).
    apply bind_Some in E1 as ([] & sb & Eb & E1). rewrite (bind_eq _ _ _ _ _ Eb).
    rewrite (bind_eq _ _ _ _ _ E1). change (0 <=? -1) with false.
    rewrite (bind_eq _ _ _ _ _ E2). by destruct (fg_outcome _ _ _).
Qed.

(** [resume %n fg] ends as its wait does. For a job of distinct
    processes the wait follows the stream of events: when all processes are
    gone the job is removed from the table, when one of them stops the job
    stays, marked stopped; in both cases the terminal is the shell's again
    and the notifications are flushed. Only if the events never come does
    the shell stay suspended. *)
Theorem resume_fg_outcome j s :
  jobs_wf s → registry_ok (ext s) → 0 < shell_pgid (sys_of s) →
  (length (pids_of j) ≤ JOB_MAX_PROCS)%nat → NoDup (pids_of j) →
  batches_fit (deliveries (sys_of s)) →
  match fg_outcome (list_to_set (pids_of j)) 0 (stream s) with
  | Blocked => ∃ s', resume_fg j (-1) s = Some (None, s')
  | Waited _ stopped =>
    ∃ s', resume_fg j (-1) s = Some (Some (), s') ∧
      fg (sys_of s') = shell_pgid (sys_of s) ∧ notif_queue s' = [] ∧
      (if stopped then ∀ j', table s' !! job_number j = Some j' → job_state j' = JOB_STOPPED
       else table s' !! job_number j = None)
  end.
Proof.
  intros Hwf Hreg Hpos Hl Hnd Hb.
  destruct (resume_fg_wait j s Hwf Hreg Hl Hnd Hb) as (r0 & s2 & Hg & Hok2 & Hwf2 & ->).
  destruct (fg_outcome _ _ _) as [n st|]; [|by eexists].
  destruct (after_wait_spec r0 j (pids_of j) n st s2 Hok2) as (s3 & E3 & Hfg & Hnq & Ht);
    [by rewrite Hg|done|].
  rewrite (bind_eq _ _ _ _ _ E3). exists s3. split_and!; [done|by rewrite Hfg|done|done].
Qed.

(** resuming in the foreground a job one of whose processes is already
    gone never returns: [run_resume] waits for every process of the job, also
    for those already reported, and no event for them will come again. *)
Theorem resume_fg_partly_done_blocks j p s :
  jobs_wf s → registry_ok (ext s) →
  (length (pids_of j) ≤ JOB_MAX_PROCS)%nat → NoDup (pids_of j) →
  batches_fit (deliveries (sys_of s)) → p ∈ job_procs j →
  Forall (λ e, e.1 ≠ p_pid p ∧ ∀ sig, e.2 ≠ WStopped sig) (stream s) →
  ∃ s', resume_fg j (-1) s = Some (None, s').
Proof.
  intros Hwf Hreg Hl Hnd Hb Hp Hev.
  destruct (resume_fg_wait j s Hwf Hreg Hl Hnd Hb) as (r0 & s2 & _ & _ & _ & ->).
  rewrite (fg_outcome_missing _ _ _ (p_pid p)); [by eexists| |done].
  by apply elem_of_list_to_set, list_elem_of_fmap_2.
Qed.
End code.

(** ** The theorems at concrete states *)

Definition demo_shell (evs : list (Z * wstatus)) : shell :=
  mkJstate (Some demo_job2 :: Some demo_job1 :: replicate 62 None) 3 evs [] false demo_reg.

Lemma demo_shell_wf evs : (length evs ≤ PENDING_MAX)%nat → jobs_wf (demo_shell evs).
Proof. intros Hl. destruct (demo_jobs_wf evs [] Hl). by split. Qed.

Lemma demo_registry_ok : registry_ok demo_reg.
Proof. by apply Forall_replicate. Qed.

Lemma resume_fg_outcome_witness :
  let s := demo_shell [(102, WExited 0); (101, WExited 1)] in
  fg_outcome (list_to_set (pids_of demo_job1)) 0 (@stream _ (@shell_host demo_posix) s) = Waited 2 false ∧
  match fg_outcome (list_to_set (pids_of demo_job1)) 0 (@stream _ (@shell_host demo_posix) s) with
  | Blocked => ∃ s', @resume_fg demo_posix demo_job1 (-1) s = Some (None, s')
  | Waited _ stopped =>
    ∃ s', @resume_fg demo_posix demo_job1 (-1) s = Some (Some (), s') ∧
      fg (sys_of s') = shell_pgid (sys_of s) ∧ notif_queue s' = [] ∧
      (if stopped then ∀ j', table s' !! job_number demo_job1 = Some j' → job_state j' = JOB_STOPPED
       else table s' !! job_number demo_job1 = None)
  end.
Proof.
  intros s. split; [by vm_compute|].
  apply (@resume_fg_outcome demo_posix demo_job1 s).
  - apply demo_shell_wf. simpl. unfold PENDING_MAX. lia.
  - apply demo_registry_ok.
  - done.
  - simpl. unfold JOB_MAX_PROCS. lia.
  - by apply (bool_decide_unpack _); vm_compute.
  - constructor.
Defined.

Lemma resume_fg_partly_done_blocks_witness :
  let j := mkJob 1 101 [mkProc 101 (lit "cat") true; mkProc 102 (lit "wc") false] (lit "cat | wc")
             JOB_RUNNING true in
  let s := demo_shell [(102, WExited 0)] in
  ∃ s', @resume_fg demo_posix j (-1) s = Some (None, s').
Proof.
  intros j s. apply (@resume_fg_partly_done_blocks demo_posix j (mkProc 101 (lit "cat") true) s).
  - apply demo_shell_wf. simpl. unfold PENDING_MAX. lia.
  - apply demo_registry_ok.
  - simpl. unfold JOB_MAX_PROCS. lia.
  - by apply (bool_decide_unpack _); vm_compute.
  - constructor.
  - by left.
  - repeat constructor; simpl; done.
Defined.
