(* ===== verification/Pipeline.v ===== *)
(** Running command lines: [c-shell/src/pipeline.c].

    A [Token *] into the token list is the rest of the list from that token
    on, [NULL] being the empty list; the pointer [end_excl] is the length of
    the rest it points to, so that [p != end_excl] compares lengths.

    [fork] takes the next process number from [forks] (or [-1]). What the
    child does before [execv] runs on a copy of the state at the time of the
    fork: the files it creates are shared, its descriptors are recorded in
    the list of children. A fixed-size array that is overrun is [stuck]; a
    wait that never ends is the result [None]. *)
From S2P Require Import Prelude CLib Lexer Sys Resolver Redirection Jobs JobControl.

Definition ARRAY_MAX : nat := 128.

(** [build_cmdline] with [outsize]; [out] is the text so far. *)
Fixpoint build_cmdline (t : list Token) (end_len outsize : nat) (out : list ascii) : list ascii :=
  match t with
  | [] => out
  | tok :: rest =>
    if decide (length t = end_len) then out
    else
      let len := length (value tok) in
      let need_space := if decide (0 < length out)%nat then 1%nat else 0%nat in
      if decide (outsize ≤ length out + len + need_space + 1)%nat then out
      else build_cmdline rest end_len outsize
             (out ++ (if decide (0 < length out)%nat then [c_sp] else []) ++ value tok)
  end.

(** The starts of the stages after the first: [p->next] for every [|]. *)
Fixpoint stage_starts (p : list Token) (end_len : nat) : list (list Token) :=
  match p with
  | [] => []
  | tok :: rest =>
    if decide (length p = end_len) then []
    else if ttype_eqb (type tok) TOKEN_OP_PIPE then rest :: stage_starts rest end_len
    else stage_starts rest end_len
  end.

Record stage := mkStage {
  args : list (list ascii);
  in_files : list (list ascii);
  out_files : list (list ascii * bool);
}.

(** The loop that splits a stage into arguments and redirections; a step may
    skip two tokens, so it carries fuel. [None]: an array is overrun. *)
Fixpoint parse_stage (fuel : nat) (curr : list Token) (end_len : nat) (st : stage) : option stage :=
  match fuel with
  | O => None
  | S fuel =>
    match curr with
    | [] => Some st
    | tok :: rest =>
      if decide (length curr = end_len) then Some st
      else if ttype_eqb (type tok) TOKEN_OP_PIPE then Some st
      else if decide (127 ≤ length (args st))%nat then Some st
      else
        match rest with
        | next :: rest' =>
          if ttype_eqb (type tok) TOKEN_OP_LT then
            if decide (length (in_files st) < ARRAY_MAX)%nat then
              parse_stage fuel rest' end_len
                (mkStage (args st) (in_files st ++ [value next]) (out_files st))
            else None
          else if ttype_eqb (type tok) TOKEN_OP_GT || ttype_eqb (type tok) TOKEN_OP_GTGT then
            if decide (length (out_files st) < ARRAY_MAX)%nat then
              parse_stage fuel rest' end_len
                (mkStage (args st) (in_files st)
                   (out_files st ++ [(value next, ttype_eqb (type tok) TOKEN_OP_GTGT)]))
            else None
          else parse_stage fuel rest end_len
                 (mkStage (args st ++ [value tok]) (in_files st) (out_files st))
        | [] => parse_stage fuel rest end_len
                  (mkStage (args st ++ [value tok]) (in_files st) (out_files st))
        end
    end
  end.
Definition read_stage (curr : list Token) (end_len : nat) : option stage :=
  parse_stage (S (length curr)) curr end_len (mkStage [] [] []).

(** [pipe]. *)
Definition pipe : M sys (nat * nat) :=
  id ← gets npipes;
  modify (set_npipes (S id));;
  r ← alloc_fd (OPipeR id);
  w ← alloc_fd (OPipeW id);
  mret (r, w).
Fixpoint make_pipes (n : nat) : M sys (list (nat * nat)) :=
  match n with
  | O => mret []
  | S n => p ← pipe; ps ← make_pipes n; mret (p :: ps)
  end.
Definition close_pipes (ps : list (nat * nat)) : M sys unit :=
  mfor ps (λ p, close p.1;; close p.2).

Section code.
Context `{Posix}.

(** [fork], in the parent. *)
Definition fork : M sys Z := λ s,
  match forks s with
  | [] => None
  | pid :: rest => Some (pid, set_forks rest s)
  end.

(** What child [i] of [n] does before [execv]. *)
Definition child_setup (i n : nat) (pid : Z) (tmp_in : Z) (out_count : nat) (pipes : list (nat * nat))
  : M sys unit :=
  (if 0 <=? tmp_in then dup2 (Z.to_nat tmp_in) 0
   else if decide (0 < i)%nat then
     match pipes !! (i - 1)%nat with Some p => dup2 p.1 0 | None => stuck end
   else mret ());;
  (if decide (0 < out_count)%nat then
     r ← open_write false (tmp_out_name pid);
     match r with
     | Some (fd, _) => dup2 fd 1;; close fd
     | None => mret ()
     end
   else if decide (i < n - 1)%nat then
     match pipes !! i with Some p => dup2 p.2 1 | None => stuck end
   else mret ());;
  close_pipes pipes;;
  when (0 <=? tmp_in) (close (Z.to_nat tmp_in)).

(** The signals a child sets back to their default. *)
Definition child_signals : list signal := [SIGINT; SIGTSTP; SIGTTOU; SIGTTIN; SIGCHLD].

(** [setpgid] with a group number 0 makes the process its own group. *)
Definition group_of (pid pgid : Z) : Z := if pgid =? 0 then pid else pgid.

(** The child's part: it is recorded as [execv] finds it. *)
Definition run_child (i n : nat) (pid tmp_in pgid : Z) (path : list ascii) (st : stage)
    (pipes : list (nat * nat)) : M sys unit := λ s,
  match child_setup i n pid tmp_in (length (out_files st)) pipes s with
  | None => None
  | Some (_, c) =>
    let mypgid := if decide (i = 0)%nat then pid else pgid in
    let ch := mkChild pid path (args st) (group_of pid mypgid) (fds c) child_signals in
    Some ((), set_children (children s ++ [ch]) (set_files (files c) s))
  end.

(** Fork child [i]. A failed [fork] returns [-1] and there is no child. *)
Definition spawn (i n : nat) (tmp_in pgid : Z) (path : list ascii) (st : stage)
    (pipes : list (nat * nat)) : M sys Z :=
  pid ← fork;
  when (0 <? pid) (run_child i n pid tmp_in pgid path st pipes);;
  mret pid.

(** Close and remove the temporary input file of stage [i]. *)
Definition drop_tmp_in (tmp_in : Z) (i : nat) : M sys unit :=
  when (0 <=? tmp_in) (close (Z.to_nat tmp_in);; unlink (tmp_in_name (Z.of_nat i))).

Definition display_name (cmd : list ascii) : list ascii :=
  if char_at cmd 0 =c "%" then drop 1 cmd else cmd.

(** The state of the loop over the stages. *)
Record launch := mkLaunch { l_pgid : Z; l_live : list (Z * list ascii); l_not_found : bool }.

(** One round of that loop. *)
Definition launch_stage (i n : nat) (pipes : list (nat * nat)) (curr : list Token) (end_len : nat)
    (l : launch) : M rstate launch :=
  match read_stage curr end_len with
  | None => stuck
  | Some st =>
    match args st with
    | [] => mret l
    | cmd :: _ =>
      tmp_in ← on_sys (setup_input (in_files st) (Z.of_nat i));
      if tmp_in =? -2 then mret l
      else
        v ← on_sys (outreg_validate (out_files st));
        if v <? 0 then on_sys (drop_tmp_in tmp_in i);; mret l
        else
          path ← on_sys (gets (resolve_command_path cmd));
          match path with
          | None =>
            on_sys (eputs (line (lit "cshell: command not found (" ++ display_name cmd ++ lit ")")));;
            on_sys (drop_tmp_in tmp_in i);;
            mret (mkLaunch (l_pgid l) (l_live l) (l_not_found l || bool_decide (n = 1)%nat))
          | Some p =>
            child ← on_sys (spawn i n tmp_in (l_pgid l) p st pipes);
            let pgid := if decide (i = 0)%nat then child else l_pgid l in
            on_sys (drop_tmp_in tmp_in i);;
            outreg_register child ((out_files st).*1);;
            mret (mkLaunch pgid (l_live l ++ [(child, cmd)]) (l_not_found l))
          end
    end
  end.

Fixpoint launch_stages (i n : nat) (pipes : list (nat * nat)) (starts : list (list Token))
    (end_len : nat) (l : launch) : M rstate launch :=
  match starts with
  | [] => mret l
  | c :: rest =>
    l' ← launch_stage i n pipes c end_len l; launch_stages (S i) n pipes rest end_len l'
  end.

(** [launch_group] up to the decision between foreground and background. *)
Definition start_group (start : list Token) (end_len : nat) : M rstate launch :=
  let starts := start :: stage_starts start end_len in
  let n := length starts in
  if decide (n ≤ ARRAY_MAX)%nat then
    pipes ← on_sys (make_pipes (n - 1));
    l ← launch_stages 0 n pipes starts end_len (mkLaunch 0 [] false);
    on_sys (close_pipes pipes);;
    mret l
  else stuck.

Definition named (live : list (Z * list ascii)) : list (Z * option (list ascii)) :=
  prod_map id Some <$> live.

(** The foreground half of the end of [launch_group]. *)
Definition run_foreground (l : launch) (cmdline : list ascii) : M shell (option bool) :=
  let pids := (l_live l).*1 in
  sh_sys (term_give_to (l_pgid l));;
  r ← jobs_wait_foreground pids false;
  match r with
  | Blocked => mret None
  | Waited _ stopped =>
    sh_sys term_reclaim;;
    (if stopped then
       num ← jobs_register (l_pgid l) (named (l_live l)) (Some cmdline) false JOB_STOPPED;
       sh_sys (puts (line (lit "[" ++ itoa num ++ lit "] + Stopped    " ++ cmdline)))
     else mfor pids (λ pid, on_ext (outreg_finalize pid)));;
    jobs_flush_notifications;;
    mret (Some false)
  end.

Definition launch_group (start : list Token) (end_len : nat) (background : bool)
  : M shell (option bool) :=
  let cmdline := build_cmdline start end_len 1024 [] in
  l ← on_ext (start_group start end_len);
  match l_live l with
  | [] => mret (Some (l_not_found l))
  | (pid0, _) :: _ =>
    if background then
      num ← jobs_register (l_pgid l) (named (l_live l)) (Some cmdline) true JOB_RUNNING;
      sh_sys (puts (line (lit "[" ++ itoa num ++ lit "] " ++ itoa pid0)));;
      mret (Some false)
    else run_foreground l cmdline
  end.

(** The first [;] or [&] from [p] on. *)
Fixpoint find_sep (p : list Token) : option (list Token) :=
  match p with
  | [] => None
  | tok :: rest =>
    if ttype_eqb (type tok) TOKEN_OP_SEMI || ttype_eqb (type tok) TOKEN_OP_AMP then Some p
    else find_sep rest
  end.

(** The loop of [execute_pipeline]; every round drops at least a separator. *)
Fixpoint pipeline_loop (fuel : nat) (group_start : list Token) : M shell (option unit) :=
  match fuel with
  | O => stuck
  | S fuel =>
    match group_start with
    | [] => mret (Some ())
    | _ =>
      let sep := find_sep group_start in
      let background :=
        match sep with Some (t :: _) => ttype_eqb (type t) TOKEN_OP_AMP | _ => false end in
      r ← launch_group group_start (length (default [] sep)) background;
      match r with
      | None => mret None
      | Some lone_not_found =>
        if negb background && lone_not_found then mret (Some ())
        else
          match sep with
          | Some (_ :: rest) => pipeline_loop fuel rest
          | _ => mret (Some ())
          end
      end
    end
  end.
Definition execute_pipeline (tokens : list Token) : M shell (option unit) :=
  pipeline_loop (S (length tokens)) tokens.
End code.

(** ** Descriptors *)

Section descriptors.
Context `{Posix}.

Definition has_fds (t : gmap nat fdobj) (s : sys) : Prop := fds s = t.
Definition r_has_fds (t : gmap nat fdobj) (r : rstate) : Prop := fds (r_sys r) = t.

Lemma on_sys_preserves {A} (P : sys → Prop) (m : M sys A) :
  preserves P m → preserves (λ r, P (r_sys r)) (on_sys m).
Proof.
  intros Hm r a r' Hr. unfold on_sys, zoom. destruct (m (r_sys r)) as [[x s]|] eqn:E; [|done].
  intros [= <- <-]. simpl. by eapply Hm.
Qed.

Lemma copy_file_fds t src dsts : preserves (has_fds t) (copy_file src dsts).
Proof.
  unfold copy_file. preserve. generalize 0%nat as off. revert a.
  intros a. generalize (S a) as fuel. clear a. intros fuel.
  induction fuel as [|fuel IH]; intros off; [apply preserves_stuck|]. cbn [copy_loop].
  preserve. by apply preserves_modify.
Qed.

Lemma concat_inputs_fds t fs tmp : preserves (has_fds t) (concat_inputs fs tmp).
Proof.
  induction fs as [|f fs IH]; cbn [concat_inputs]; [preserve|].
  intros s b s' Hs (r & s1 & E1 & E)%bind_Some. destruct (open_read_Some _ _ _ _ E1) as [_ Hr].
  destruct r as [[fd p]|]; [|by injection E as _ <-; subst].
  destruct Hr as (_ & Hfd & Hfds & _). apply bind_Some in E as ([] & s2 & E2 & E).
  apply bind_Some in E as ([] & s3 & E3 & E). eapply IH; [|exact E].
  apply (copy_file_fds (fds s1)) in E2; [|done]. injection E3 as <-. unfold has_fds in *. simpl.
  rewrite E2, Hfds. by rewrite delete_insert_id.
Qed.

Lemma setup_input_fds fs i s v s' :
  setup_input fs i s = Some (v, s') →
  (0 ≤ v ∧ fds s !! Z.to_nat v = None ∧ is_Some (fds s' !! Z.to_nat v) ∧
   delete (Z.to_nat v) (fds s') = fds s) ∨
  (v < 0 ∧ fds s' = fds s).
Proof.
  unfold setup_input. destruct fs as [|f fs]; [intros [= <- <-]; by right|].
  destruct (os_can_write (abspath (cwd s) (tmp_in_name i))) eqn:Hw.
  - destruct (open_write_spec false (tmp_in_name i) s Hw) as (fd & Eo & Hfd).
    rewrite (bind_eq _ _ _ _ _ Eo). intros (ok & s2 & E2 & E)%bind_Some.
    apply (concat_inputs_fds (<[fd := OFile (abspath (cwd s) (tmp_in_name i))]> (fds s))) in E2; [|done].
    unfold has_fds in E2. destruct ok.
    + injection E as <- <-. left. rewrite Nat2Z.id. split_and!; [lia|done|simpl..].
      { rewrite lookup_insert_eq. eauto. }
      rewrite E2, insert_insert_eq. by apply delete_insert_id.
    + right. injection E as <- <-. split; [lia|]. simpl. rewrite E2. by apply delete_insert_id.
  - rewrite (bind_eq _ _ _ None s).
    2:{ unfold open_write. rewrite (bind_eq _ _ _ (abspath (cwd s) (tmp_in_name i)) s) by done. by rewrite Hw. }
    intros [= <- <-]. right. split; [lia|done].
Qed.

Lemma validate_loop_fds ts opened s v s' t0 :
  foldr delete (fds s) opened = t0 → validate_loop ts opened s = Some (v, s') → fds s' = t0.
Proof.
  revert opened s; induction ts as [|[f m] ts IH]; intros opened s Ht; cbn [validate_loop].
  { rewrite (bind_eq _ _ _ _ _ (close_all opened s)). by intros [= _ <-]. }
  destruct (os_can_write (abspath (cwd s) f)) eqn:Hw.
  - destruct (open_write_spec m f s Hw) as (fd & Eo & Hfd). rewrite (bind_eq _ _ _ _ _ Eo).
    case_decide; [|done]. apply IH. simpl. rewrite foldr_app. simpl. by rewrite delete_insert_id.
  - rewrite (bind_eq _ _ _ None s).
    2:{ unfold open_write. rewrite (bind_eq _ _ _ (abspath (cwd s) f) s) by done. by rewrite Hw. }
    rewrite (bind_eq _ _ _ () (set_err (err s ++ line (lit "cshell: unable to create file for writing")) s))
      by done.
    rewrite (bind_eq _ _ _ _ _ (close_all opened _)). by intros [= _ <-].
Qed.

Lemma outreg_validate_fds t ts : preserves (has_fds t) (outreg_validate ts).
Proof. intros s v s' Hs E. by eapply (validate_loop_fds ts [] s). Qed.

Lemma spawn_fds t i n tmp_in pgid p st pipes :
  preserves (has_fds t) (spawn i n tmp_in pgid p st pipes).
Proof.
  unfold spawn. apply preserves_bind; [|intros pid; apply preserves_bind; [|intros []; preserve]].
  - intros s pid s' Hs. unfold fork. destruct (forks s); [done|]. by intros [= _ <-].
  - unfold when. destruct (0 <? pid); [|preserve]. intros s [] s' Hs. unfold run_child.
    destruct (child_setup _ _ _ _ _ _ s) as [[_ c]|]; [|done]. by intros [= <-].
Qed.

Lemma drop_tmp_in_fds v i s s' :
  drop_tmp_in v i s = Some ((), s') →
  fds s' = if 0 <=? v then delete (Z.to_nat v) (fds s) else fds s.
Proof. unfold drop_tmp_in, when. destruct (0 <=? v); by intros [= <-]. Qed.

Lemma register_fds t pid fs : preserves (r_has_fds t) (outreg_register pid fs).
Proof.
  unfold outreg_register. destruct fs; [preserve|]. apply preserves_modify. intros r Hr.
  by destruct (index_of _ _).
Qed.

Lemma on_sys_Some {A} (m : M sys A) r a r' :
  on_sys m r = Some (a, r') → ∃ s', m (r_sys r) = Some (a, s') ∧ r' = put_sys s' r.
Proof.
  unfold on_sys, zoom. destruct (m (r_sys r)) as [[x s]|]; [|done]. intros [= <- <-]. eauto.
Qed.

Lemma launch_stage_fds t i n pipes c e l : preserves (r_has_fds t) (launch_stage i n pipes c e l).
Proof.
  unfold launch_stage. destruct (read_stage c e) as [st|]; [|preserve].
  destruct (args st) as [|cmd rest]; [preserve|].
  intros r l' r' Hr (v & r1 & E1 & E)%bind_Some.
  apply on_sys_Some in E1 as (s1 & E1 & ->).
  apply setup_input_fds in E1. unfold r_has_fds in Hr. rewrite Hr in E1.
  (* after the temporary input file is dropped the table is as before *)
  assert (∀ s2 s3, fds s2 = fds s1 → drop_tmp_in v i s2 = Some ((), s3) → fds s3 = t) as Hdrop.
  { intros s2 s3 H2 Hd%drop_tmp_in_fds. rewrite Hd, H2.
    destruct E1 as [(Hv & _ & _ & <-)|(Hv & ->)]; destruct (0 <=? v) eqn:?; done || lia. }
  destruct (v =? -2) eqn:Ev.
  { injection E as _ <-. unfold r_has_fds. simpl. destruct E1 as [?|[_ ?]]; [lia|done]. }
  apply bind_Some in E as (w & r2 & E2 & E). apply on_sys_Some in E2 as (s2 & E2 & ->).
  apply (outreg_validate_fds (fds s1)) in E2; [|done]. unfold has_fds in E2.
  destruct (w <? 0).
  { apply bind_Some in E as ([] & r3 & E3 & E). apply on_sys_Some in E3 as (s3 & E3 & ->).
    injection E as _ <-. by eapply Hdrop. }
  apply bind_Some in E as (path & r3 & E3 & E). injection E3 as <- <-.
  destruct (resolve_command_path cmd _) as [p|].
  - apply bind_Some in E as (child & r4 & E4 & E). apply on_sys_Some in E4 as (s4 & E4 & ->).
    apply (spawn_fds (fds s1)) in E4; [|done].
    apply bind_Some in E as ([] & r5 & E5 & E). apply on_sys_Some in E5 as (s5 & E5 & ->).
    apply bind_Some in E as ([] & r6 & E6 & E). injection E as _ <-.
    eapply (register_fds t); [|exact E6]. unfold r_has_fds. simpl. by eapply Hdrop.
  - apply bind_Some in E as ([] & r4 & E4 & E). apply on_sys_Some in E4 as (s4 & E4 & ->).
    apply bind_Some in E as ([] & r5 & E5 & E). apply on_sys_Some in E5 as (s5 & E5 & ->).
    injection E as _ <-. injection E4 as <-. eapply Hdrop; [|exact E5]. done.
Qed.

Lemma launch_stages_fds t i n pipes cs e l : preserves (r_has_fds t) (launch_stages i n pipes cs e l).
Proof.
  revert i l; induction cs as [|c cs IH]; intros i l; cbn [launch_stages]; [preserve|].
  apply preserves_bind; [apply launch_stage_fds|intros l'; apply IH].
Qed.

(** ** Pipes *)

Definition pipe_fds (ps : list (nat * nat)) : list nat := mjoin ((λ p, [p.1; p.2]) <$> ps).

Lemma close_pipes_spec ps s :
  close_pipes ps s = Some ((), set_fds (foldr delete (fds s) (pipe_fds ps)) s).
Proof.
  rewrite <-close_all. unfold close_pipes, pipe_fds. revert s.
  induction ps as [|p ps IH]; intros s; [done|]. cbn [mfor fmap list_fmap mjoin list_join app].
  rewrite bind_assoc. apply bind_cong. intros [] s1 _. apply bind_cong. intros [] s2 _. apply IH.
Qed.

(** The table [t] is [base] with the pipes [ps], numbered from [k], open. *)
Record piped (base : gmap nat fdobj) (k : nat) (ps : list (nat * nat)) (t : gmap nat fdobj) : Prop := {
  piped_closed : ∀ fd, fd ∈ pipe_fds ps → base !! fd = None;
  piped_base : ∀ fd, fd ∉ pipe_fds ps → t !! fd = base !! fd;
  piped_ends : ∀ i p, ps !! i = Some p →
    t !! p.1 = Some (OPipeR (k + i)) ∧ t !! p.2 = Some (OPipeW (k + i));
}.

Lemma pipe_spec s :
  ∃ r w, pipe s = Some ((r, w), set_fds (<[w := OPipeW (npipes s)]> (<[r := OPipeR (npipes s)]> (fds s)))
                                  (set_npipes (S (npipes s)) s)) ∧
    fds s !! r = None ∧ fds s !! w = None ∧ r ≠ w.
Proof.
  eexists _, _. split; [reflexivity|].
  pose proof (lowest_free_closed (fds s)) as Hr.
  pose proof (lowest_free_closed (<[lowest_free (fds s) := OPipeR (npipes s)]> (fds s))) as Hw.
  split_and!; [done|..].
  - apply lookup_insert_None in Hw. apply Hw.
  - apply lookup_insert_None in Hw. apply Hw.
Qed.

Lemma make_pipes_spec n s :
  ∃ ps t, make_pipes n s = Some (ps, set_fds t (set_npipes (npipes s + n)%nat s)) ∧
    length ps = n ∧ piped (fds s) (npipes s) ps t.
Proof.
  revert s; induction n as [|n IH]; intros s.
  { exists [], (fds s). split_and!; [|done|].
    - simpl. rewrite Nat.add_0_r. by destruct s.
    - split; [intros fd Hfd; by apply elem_of_nil in Hfd|done|done]. }
  cbn [make_pipes]. destruct (pipe_spec s) as (r & w & Ep & Hr & Hw & Hrw).
  rewrite (bind_eq _ _ _ _ _ Ep). set (s1 := set_fds _ _).
  destruct (IH s1) as (ps & t & Em & Hl & [Hc Hb He]). rewrite (bind_eq _ _ _ _ _ Em).
  exists ((r, w) :: ps), t. simpl in Hc, Hb, He. split_and!.
  - unfold s1. simpl. by rewrite Nat.add_succ_r.
  - simpl. by rewrite Hl.
  - assert (∀ fd, fd ∈ pipe_fds ps → fd ≠ r ∧ fd ≠ w ∧ fds s !! fd = None) as Hps.
    { intros fd Hfd. specialize (Hc fd Hfd). rewrite !lookup_insert_None in Hc. naive_solver. }
    split.
    + intros fd Hfd. change (pipe_fds ((r, w) :: ps)) with (r :: w :: pipe_fds ps) in Hfd.
      rewrite !elem_of_cons in Hfd. destruct Hfd as [->|[->|Hfd]]; [done|done|by apply Hps].
    + intros fd Hfd. change (pipe_fds ((r, w) :: ps)) with (r :: w :: pipe_fds ps) in Hfd.
      rewrite !not_elem_of_cons in Hfd. destruct Hfd as (? & ? & ?).
      rewrite Hb by done. by rewrite !lookup_insert_ne.
    + intros [|i] p Hi; simplify_eq/=.
      * assert (r ∉ pipe_fds ps) by (intros ?%Hps; naive_solver).
        assert (w ∉ pipe_fds ps) by (intros ?%Hps; naive_solver).
        rewrite !Hb by done. rewrite Nat.add_0_r.
        by rewrite lookup_insert_ne, !lookup_insert_eq by done.
      * rewrite <-Nat.add_succ_comm. by apply He.
Qed.

Lemma foldr_delete_lookup (t : gmap nat fdobj) l fd :
  foldr delete t l !! fd = if decide (fd ∈ l) then None else t !! fd.
Proof.
  induction l as [|x l IH]; cbn [foldr]; [by rewrite decide_False by set_solver|].
  destruct (decide (x = fd)) as [->|Hne].
  - rewrite lookup_delete_eq, decide_True by set_solver. done.
  - rewrite lookup_delete_ne, IH by done. destruct (decide (fd ∈ l)).
    + by rewrite decide_True by set_solver.
    + by rewrite decide_False by set_solver.
Qed.

Lemma piped_close base k ps t : piped base k ps t → foldr delete t (pipe_fds ps) = base.
Proof.
  intros [Hc Hb _]. apply map_eq. intros fd. rewrite foldr_delete_lookup. case_decide as Hfd.
  - by rewrite Hc.
  - by apply Hb.
Qed.

(** Starting a pipeline leaks no descriptor. Whatever the commands, the
    redirections and the errors, when all stages have been started the shell's
    descriptor table is exactly the one it had before: every pipe end and
    every temporary file has been closed. *)
Lemma start_group_no_leak start e r l r' :
  start_group start e r = Some (l, r') → fds (r_sys r') = fds (r_sys r).
Proof.
  unfold start_group. cbv zeta. set (n := length _). case_decide; [|done].
  intros (ps & r1 & E1 & E)%bind_Some. apply on_sys_Some in E1 as (s1 & E1 & ->).
  destruct (make_pipes_spec (n - 1) (r_sys r)) as (ps' & t & Em & _ & Hp).
  rewrite Em in E1. injection E1 as <- <-.
  apply bind_Some in E as (l1 & r2 & E2 & E).
  apply (launch_stages_fds t) in E2; [|done]. unfold r_has_fds in E2.
  apply bind_Some in E as ([] & r3 & E3 & E). apply on_sys_Some in E3 as (s3 & E3 & ->).
  rewrite close_pipes_spec in E3. injection E3 as <-. injection E as _ <-. simpl.
  rewrite E2. by eapply piped_close.
Qed.
End descriptors.

(** ** Wiring *)

Definition word (w : list ascii) : Token := mkToken TOKEN_WORD w.
Definition pipe_tok : Token := mkToken TOKEN_OP_PIPE (lit "|").

(** The tokens of [c1 | c2 | ...], each command a list of words. *)
Fixpoint pipeline_tokens (cmds : list (list (list ascii))) : list Token :=
  match cmds with
  | [] => []
  | c :: rest =>
    (word <$> c) ++ match rest with [] => [] | _ => pipe_tok :: pipeline_tokens rest end
  end.

(** One stage as it should come out: its words, its program, its process. *)
Record planned := mkPlanned { w_args : list (list ascii); w_path : list ascii; w_pid : Z }.

(** The descriptors stage [i] of [n] should have: its standard input is the
    pipe before it, its standard output the pipe after it, the first pipe
    having number [k]; everything else is the shell's. *)
Definition child_fds (base : gmap nat fdobj) (k i n : nat) : gmap nat fdobj :=
  let t := if decide (0 < i)%nat then <[0%nat := OPipeR (k + (i - 1))]> base else base in
  if decide (i < n - 1)%nat then <[1%nat := OPipeW (k + i)]> t else t.

Section wiring.
Context `{Posix}.

Lemma stage_starts_words ws rest e :
  (length rest = e ∨ e < length rest)%nat →
  stage_starts ((word <$> ws) ++ rest) e = stage_starts rest e.
Proof.
  intros He. induction ws as [|w ws IH]; [done|]. cbn [fmap list_fmap app stage_starts].
  rewrite decide_False; [apply IH|]. cbn [length]. rewrite length_app. lia.
Qed.

Lemma stage_starts_end rest : stage_starts rest (length rest) = [].
Proof. destruct rest; [done|]. cbn [stage_starts]. by rewrite decide_True. Qed.

(** The rests of the token list at which the stages start. *)
Fixpoint starts_of (cmds : list (list (list ascii))) (tail : list Token) : list (list Token) :=
  match cmds with
  | [] => []
  | c :: rest => (pipeline_tokens (c :: rest) ++ tail) :: starts_of rest tail
  end.

Lemma stage_starts_pipeline c cmds tail :
  (pipeline_tokens (c :: cmds) ++ tail) ::
    stage_starts (pipeline_tokens (c :: cmds) ++ tail) (length tail) = starts_of (c :: cmds) tail.
Proof.
  revert c; induction cmds as [|d cmds IH]; intros c.
  - cbn [pipeline_tokens starts_of]. rewrite app_nil_r, stage_starts_words by auto.
    by rewrite stage_starts_end.
  - change (starts_of (c :: d :: cmds) tail)
      with ((pipeline_tokens (c :: d :: cmds) ++ tail) :: starts_of (d :: cmds) tail).
    rewrite <-(IH d). f_equal.
    change (pipeline_tokens (c :: d :: cmds)) with ((word <$> c) ++ pipe_tok :: pipeline_tokens (d :: cmds)).
    rewrite <-app_assoc, stage_starts_words by (right; rewrite length_app; cbn [length]; lia).
    cbn [app stage_starts]. rewrite decide_False; [done|].
    cbn [length]. rewrite length_app. lia.
Qed.

Lemma parse_words fuel ws rest e acc :
  (length ws + length acc ≤ 127)%nat → (length ws < fuel)%nat →
  (length rest = e ∨ (e < length rest)%nat ∧ ∃ r, rest = pipe_tok :: r) →
  parse_stage fuel ((word <$> ws) ++ rest) e (mkStage acc [] []) = Some (mkStage (acc ++ ws) [] []).
Proof.
  revert fuel acc; induction ws as [|w ws IH]; intros fuel acc Hl Hf Hr;
    (destruct fuel as [|fuel]; [simpl in Hf; lia|]).
  - rewrite app_nil_r. cbn [fmap list_fmap app parse_stage].
    destruct Hr as [<-|(He & r & ->)].
    + destruct rest; [done|]. by rewrite decide_True.
    + rewrite decide_False by lia. done.
  - cbn [fmap list_fmap app parse_stage]. cbn [length] in Hl, Hf.
    rewrite decide_False by (cbn [length]; rewrite length_app; lia).
    change (ttype_eqb (type (word w)) TOKEN_OP_PIPE) with false. cbv iota.
    cbn [args in_files out_files]. rewrite decide_False by lia.
    assert (parse_stage fuel ((word <$> ws) ++ rest) e (mkStage (acc ++ [w]) [] []) =
            Some (mkStage (acc ++ w :: ws) [] [])) as E.
    { rewrite IH; [by rewrite <-app_assoc| |lia|done]. rewrite length_app. simpl. lia. }
    destruct ((word <$> ws) ++ rest) as [|x xs]; done.
Qed.

Lemma read_stage_pipeline c cmds tail :
  (length c ≤ 127)%nat →
  read_stage (pipeline_tokens (c :: cmds) ++ tail) (length tail) = Some (mkStage c [] []).
Proof.
  intros Hc. unfold read_stage. destruct cmds as [|d cmds].
  - cbn [pipeline_tokens]. rewrite app_nil_r.
    rewrite (parse_words _ c tail _ []); [done|simpl; lia| |by left].
    rewrite length_app, length_fmap. lia.
  - change (pipeline_tokens (c :: d :: cmds)) with ((word <$> c) ++ pipe_tok :: pipeline_tokens (d :: cmds)).
    rewrite <-app_assoc. rewrite (parse_words _ c _ _ []); [done|simpl; lia| |].
    + rewrite length_app, length_fmap. lia.
    + right. split; [|by eexists]. cbn [app length]. rewrite length_app. lia.
Qed.

(** The child's set-up without redirections. *)
Lemma child_setup_plain base k ps t i n pid s :
  fds s = t → piped base k ps t → length ps = (n - 1)%nat → (i < n)%nat →
  is_Some (base !! 0%nat) → is_Some (base !! 1%nat) →
  child_setup i n pid (-1) 0 ps s = Some ((), set_fds (child_fds base k i n) s).
Proof.
  intros Hs Hp Hl Hi [o0 H0] [o1 H1].
  assert (∀ fd, is_Some (base !! fd) → fd ∉ pipe_fds ps) as Hnot.
  { intros fd [o Ho] Hin. apply (piped_closed _ _ _ _ Hp) in Hin. congruence. }
  assert (∀ j p, ps !! j = Some p → p.1 ∈ pipe_fds ps ∧ p.2 ∈ pipe_fds ps) as Hin.
  { intros j p Hj. unfold pipe_fds.
    split; apply list_elem_of_join; exists [p.1; p.2]; (split; [set_solver|]);
      apply list_elem_of_fmap; exists p; (split; [done|by eapply list_elem_of_lookup_2]). }
  unfold child_setup. change (0 <=? -1) with false. cbn [when].
  set (t1 := if decide (0 < i)%nat then <[0%nat := OPipeR (k + (i - 1))]> t else t).
  rewrite (bind_eq _ _ _ () (set_fds t1 s)).
  2:{ unfold t1. case_decide as Hi0; [|subst; by destruct s].
      destruct (lookup_lt_is_Some_2 ps (i - 1)) as [p Hpi]; [lia|]. rewrite Hpi.
      unfold dup2, modify. rewrite Hs. by rewrite (proj1 (piped_ends _ _ _ _ Hp _ _ Hpi)). }
  rewrite (decide_False (P := (0 < 0)%nat)) by lia.
  set (t2 := if decide (i < n - 1)%nat then <[1%nat := OPipeW (k + i)]> t1 else t1).
  rewrite (bind_eq _ _ _ () (set_fds t2 s)).
  2:{ unfold t2. case_decide as Hin1; [|done].
      destruct (lookup_lt_is_Some_2 ps i) as [p Hpi]; [lia|]. rewrite Hpi.
      unfold dup2, modify. simpl.
      assert (t1 !! p.2 = Some (OPipeW (k + i))) as ->; [|done].
      unfold t1. pose proof (proj2 (piped_ends _ _ _ _ Hp _ _ Hpi)) as Hpw.
      case_decide; [|done]. rewrite lookup_insert_ne; [done|]. intros E.
      apply (Hnot 0%nat); [by rewrite H0|]. rewrite E. by eapply Hin. }
  rewrite (bind_eq _ _ _ _ _ (close_pipes_spec ps (set_fds t2 s))).
  unfold mret, M_ret. do 2 f_equal. rewrite set_fds_set_fds. f_equal. simpl.
  apply map_eq. intros fd. rewrite foldr_delete_lookup. unfold child_fds.
  assert (0%nat ∉ pipe_fds ps ∧ 1%nat ∉ pipe_fds ps) as [Hn0 Hn1]
    by (split; apply Hnot; eauto).
  case_decide as Hfd.
  - assert (fd ≠ 0%nat ∧ fd ≠ 1%nat) as [? ?] by (split; intros ->; done).
    pose proof (piped_closed _ _ _ _ Hp fd Hfd) as Hb.
    destruct (decide (i < n - 1)%nat), (decide (0 < i)%nat); by rewrite ?lookup_insert_ne.
  - pose proof (piped_base _ _ _ _ Hp fd Hfd) as Hb. unfold t2, t1.
    destruct (decide (i < n - 1)%nat), (decide (0 < i)%nat);
      rewrite ?lookup_insert; repeat case_decide; done || congruence.
Qed.

(** The child that should result. *)
Definition planned_child (base : gmap nat fdobj) (k n : nat) (pgid : Z) (i : nat) (w : planned) : child :=
  mkChild (w_pid w) (w_path w) (w_args w) (if decide (i = 0)%nat then w_pid w else pgid)
    (child_fds base k i n) child_signals.

Definition plan_ok (s : sys) (w : planned) : Prop :=
  (length (w_args w) ≤ 127)%nat ∧ 0 < w_pid w ∧
  ∃ cmd rest, w_args w = cmd :: rest ∧ resolve_command_path cmd s = Some (w_path w).

Definition cmd_name (w : planned) : list ascii := default [] (head (w_args w)).

(** One plain stage: the planned child is there, nothing else has changed. *)
Lemma launch_stage_plain base k ps i n w ws tail l r fk :
  let s := r_sys r in
  piped base k ps (fds s) → length ps = (n - 1)%nat → (i < n)%nat →
  is_Some (base !! 0%nat) → is_Some (base !! 1%nat) →
  plan_ok s w → forks s = w_pid w :: fk → (0 < l_pgid l ∨ i = 0%nat) →
  launch_stage i n ps (pipeline_tokens (w_args w :: ws) ++ tail) (length tail) l r =
  Some (mkLaunch (if decide (i = 0)%nat then w_pid w else l_pgid l)
          (l_live l ++ [(w_pid w, cmd_name w)]) (l_not_found l),
        put_sys (set_children (children s ++ [planned_child base k n (l_pgid l) i w]) (set_forks fk s)) r).
Proof.
  intros s Hp Hl Hi H0 H1 (Hlen & Hpid & cmd & rest & Ea & Er) Hf Hg.
  unfold launch_stage. rewrite read_stage_pipeline by done. cbn [args in_files out_files]. rewrite Ea.
  rewrite (bind_eq _ _ _ (-1) r) by (unfold on_sys, zoom; simpl; by destruct r).
  change (-1 =? -2) with false. cbv iota.
  rewrite (bind_eq _ _ _ 0 r) by (unfold on_sys, zoom; simpl; by destruct r).
  change (0 <? 0) with false. cbv iota.
  rewrite (bind_eq _ _ _ (Some (w_path w)) r)
    by (unfold on_sys, zoom, gets; fold s; rewrite Er; by destruct r).
  set (s1 := set_forks fk s).
  set (ch := planned_child base k n (l_pgid l) i w).
  assert (spawn i n (-1) (l_pgid l) (w_path w) (mkStage (cmd :: rest) [] []) ps s =
          Some (w_pid w, set_children (children s ++ [ch]) s1)) as Es.
  { unfold spawn. rewrite (bind_eq _ _ _ (w_pid w) s1) by (unfold fork; by rewrite Hf).
    rewrite (proj2 (Z.ltb_lt _ _) Hpid). cbn [when].
    rewrite (bind_eq _ _ _ () (set_children (children s ++ [ch]) s1)); [done|].
    unfold run_child. cbn [out_files length args].
    rewrite (child_setup_plain base k ps (fds s) i n (w_pid w) s1) by done.
    change (files (set_fds (child_fds base k i n) s1)) with (files s1). rewrite set_files_id.
    change (children s1) with (children s). do 3 f_equal.
    change (fds (set_fds (child_fds base k i n) s1)) with (child_fds base k i n).
    unfold ch, planned_child. rewrite Ea. do 2 f_equal. unfold group_of. case_decide.
    - by destruct (w_pid w =? 0).
    - destruct (l_pgid l =? 0) eqn:E; [lia|done]. }
  rewrite (bind_eq _ _ _ (w_pid w) (put_sys (set_children (children s ++ [ch]) s1) r))
    by (unfold on_sys, zoom; fold s; by rewrite Es).
  rewrite (bind_eq _ _ _ () (put_sys (set_children (children s ++ [ch]) s1) r)) by done.
  rewrite (bind_eq _ _ _ () (put_sys (set_children (children s ++ [ch]) s1) r)) by done.
  unfold cmd_name. by rewrite Ea.
Qed.

Lemma plan_ok_env s s' w : cwd s' = cwd s → plan_ok s w → plan_ok s' w.
Proof.
  intros Hc (? & ? & cmd & rest & ? & Hr). split_and!; [done|done|]. exists cmd, rest. split; [done|].
  rewrite <-Hr. unfold resolve_command_path, is_exe, getcwd. rewrite Hc.
  assert (∀ ds x, search_path ds x s' = search_path ds x s) as Hsp.
  { induction ds as [|d ds IH]; intros x; [done|]. simpl. unfold is_exe. rewrite Hc, IH. done. }
  by rewrite Hsp.
Qed.

Lemma launch_stages_plain base k ps i n ws tail l r fk :
  let s := r_sys r in
  piped base k ps (fds s) → length ps = (n - 1)%nat → (i + length ws = n)%nat →
  is_Some (base !! 0%nat) → is_Some (base !! 1%nat) → Forall (plan_ok s) ws →
  forks s = (w_pid <$> ws) ++ fk → (0 < l_pgid l ∨ i = 0%nat) →
  let pgid := if decide (i = 0)%nat then default (l_pgid l) (w_pid <$> head ws) else l_pgid l in
  launch_stages i n ps (starts_of (w_args <$> ws) tail) (length tail) l r =
  Some (mkLaunch pgid (l_live l ++ ((λ w, (w_pid w, cmd_name w)) <$> ws)) (l_not_found l),
        put_sys (set_children (children s ++ imap (λ j, planned_child base k n pgid (i + j)) ws)
                   (set_forks fk s)) r).
Proof.
  revert i l r; induction ws as [|w ws IH]; intros i l r s Hp Hl Hn H0 H1 Hok Hf Hg pgid.
  { cbn [fmap list_fmap starts_of launch_stages imap]. rewrite !app_nil_r. simpl in Hf.
    unfold pgid, mret, M_ret. simpl. do 2 f_equal.
    - destruct l. simpl. f_equal. by case_decide.
    - destruct r as [[] ?]. unfold put_sys, s in *. simpl in *. by rewrite <-Hf. }
  apply Forall_cons in Hok as [Hw Hok]. rewrite fmap_cons. cbn [starts_of launch_stages].
  rewrite fmap_cons in Hf. cbn [app] in Hf. cbn [length] in Hn.
  rewrite (bind_eq _ _ _ _ _ (launch_stage_plain base k ps i n w (w_args <$> ws) tail l r _
    Hp Hl ltac:(lia) H0 H1 Hw Hf Hg)).
  destruct (id Hw) as (_ & Hpid & _).
  set (l1 := mkLaunch _ _ _). set (r1 := put_sys _ r).
  assert (l_pgid l1 = pgid) as Hpg by (unfold pgid; simpl; by case_decide).
  rewrite (IH (S i) l1 r1); [|done|done|lia|done|done| |done|].
  - rewrite (decide_False (P := S i = 0%nat)) by lia. rewrite Hpg. do 2 f_equal.
    + f_equal. simpl. by rewrite <-app_assoc.
    + unfold r1, put_sys. cbn [registry r_sys]. f_equal. unfold set_children, set_forks. simpl. f_equal.
      rewrite <-app_assoc. f_equal. cbn [app]. f_equal.
      * unfold planned_child. rewrite Nat.add_0_r. f_equal. unfold pgid. by case_decide.
      * apply imap_ext. intros j x _. simpl. by rewrite Nat.add_succ_r.
  - eapply Forall_impl; [exact Hok|]. intros x. by apply plan_ok_env.
  - left. rewrite Hpg. unfold pgid. simpl. case_decide; [done|]. by destruct Hg.
Qed.

(** C7: a pipeline is wired as written. Starting [c1 | ... | cn] of at most 128 plain
    resolvable commands of at most 127 words each, when the forks succeed and
    standard input and output are open, forks one child per stage, in order, with the words
    of the stage as arguments and the resolved file as program; all children
    are in the process group of the first; child [i] reads from the pipe
    before it and writes to the pipe after it, the first and last keep the
    shell's input and output, and no child holds any other pipe end. The
    shell's own descriptors are as before. *)
Theorem pipeline_wiring ws tail r fk :
  let s := r_sys r in
  let n := length ws in
  let pgid := default 0 (w_pid <$> head ws) in
  (0 < n ≤ ARRAY_MAX)%nat → Forall (plan_ok s) ws → forks s = (w_pid <$> ws) ++ fk →
  is_Some (fds s !! 0%nat) → is_Some (fds s !! 1%nat) →
  start_group (pipeline_tokens (w_args <$> ws) ++ tail) (length tail) r =
  Some (mkLaunch pgid ((λ w, (w_pid w, cmd_name w)) <$> ws) false,
        put_sys (set_children (children s ++ imap (planned_child (fds s) (npipes s) n pgid) ws)
          (set_forks fk (set_npipes (npipes s + (n - 1)) s))) r).
Proof.
  intros s n pgid Hn Hok Hf H0 H1. unfold start_group.
  assert ((pipeline_tokens (w_args <$> ws) ++ tail) ::
    stage_starts (pipeline_tokens (w_args <$> ws) ++ tail) (length tail) =
    starts_of (w_args <$> ws) tail) as ->.
  { destruct ws as [|w ws]; [unfold n in Hn; simpl in Hn; lia|].
    rewrite fmap_cons. apply stage_starts_pipeline. }
  assert (length (starts_of (w_args <$> ws) tail) = n) as ->.
  { unfold n. clear. induction ws as [|w ws IH]; [done|]. rewrite fmap_cons.
    cbn [starts_of length]. by rewrite IH. }
  cbv zeta. rewrite decide_True by lia.
  destruct (make_pipes_spec (n - 1) s) as (ps & t & Em & Hl & Hp).
  set (s1 := set_fds t (set_npipes (npipes s + (n - 1)) s)) in *.
  rewrite (bind_eq _ _ _ ps (put_sys s1 r)) by (unfold on_sys, zoom; fold s; by rewrite Em).
  assert (Forall (plan_ok s1) ws) as Hok1
    by (eapply Forall_impl; [exact Hok|]; intros x; by apply plan_ok_env).
  rewrite (bind_eq _ _ _ _ _ (launch_stages_plain (fds s) (npipes s) ps 0 n ws tail
    (mkLaunch 0 [] false) (put_sys s1 r) fk Hp Hl eq_refl H0 H1 Hok1 Hf ltac:(by right))).
  cbn [l_pgid l_live l_not_found app]. rewrite (decide_True (P := 0%nat = 0%nat)) by done. fold pgid.
  set (cs := imap _ ws).
  rewrite (bind_eq _ _ _ () (put_sys (set_fds (fds s) (set_children (children s ++ cs) (set_forks fk s1))) r)).
  - unfold mret, M_ret. by do 2 f_equal.
  - unfold on_sys, zoom. rewrite close_pipes_spec. unfold put_sys. cbn [r_sys registry].
    change (fds (set_children _ (set_forks fk s1))) with t. by rewrite (piped_close _ _ _ _ Hp).
Qed.
End wiring.

(** ** The foreground group *)

Section foreground.
Context `{Posix}.

Definition next_is (k : Z) (s : shell) : Prop := next_job_number s = k.

Lemma on_ext_next {A} k (m : M rstate A) : preserves (next_is k) (on_ext m).
Proof.
  intros s a s' Hs. unfold on_ext, zoom. destruct (m (ext s)) as [[x f]|]; [|done]. by intros [= <- <-].
Qed.

Lemma handle_tracked_event_next k pid st : preserves (next_is k) (handle_tracked_event pid st).
Proof.
  unfold handle_tracked_event, process_exited, queue_notification, jobs_remove, update_job.
  preserve; try apply on_ext_next; apply preserves_modify; intros s Hs; try done;
    (by destruct (decide _)) || (by destruct (index_of _ _)).
Qed.

Lemma wait_next k pids abort : preserves (next_is k) (jobs_wait_foreground pids abort).
Proof.
  unfold jobs_wait_foreground. preserve. generalize false as sus, (replicate JOB_MAX_PROCS false) as dl, 0%nat as c.
  induction a as [|fuel IH]; intros sus dl c; [apply preserves_stuck|]. cbn [wait_loop].
  preserve; try apply IH; try apply handle_tracked_event_next; try apply on_ext_next;
    try (by apply preserves_modify).
  intros s e s' Hs. unfold take_pending. destruct (pending s); by intros [= _ <-].
Qed.

Lemma sh_sys_next {A} k (m : M sys A) : preserves (next_is k) (sh_sys m).
Proof. apply on_ext_next. Qed.

(** a foreground pipeline runs to its end. For at most 32 children the
    shell gives them the terminal and waits: when all are gone it returns
    with the terminal its own again and the job table has no new entry; when
    one stops, the group is entered in the table as a stopped job with a new
    number, the group, all its processes and the command line, if the table
    has room; notifications are flushed in both cases. Only if the events
    never come does it stay suspended. *)
Theorem run_foreground_outcome l cmdline s :
  jobs_wf s → registry_ok (ext s) → 0 < shell_pgid (sys_of s) → next_job_number s < INT_MAX →
  (length (l_live l) ≤ JOB_MAX_PROCS)%nat → NoDup ((l_live l).*1) →
  batches_fit (deliveries (sys_of s)) →
  match fg_outcome (list_to_set ((l_live l).*1)) 0 (stream s) with
  | Blocked => ∃ s', run_foreground l cmdline s = Some (None, s')
  | Waited _ stopped =>
    ∃ s1 s', run_foreground l cmdline s = Some (Some false, s') ∧
      jobs_wait_foreground ((l_live l).*1) false
        (put_sys_of (if 0 <? l_pgid l then set_fg (l_pgid l) (sys_of s) else sys_of s) s) =
        Some (fg_outcome (list_to_set ((l_live l).*1)) 0 (stream s), s1) ∧
      fg (sys_of s') = shell_pgid (sys_of s) ∧ notif_queue s' = [] ∧
      (if stopped then
         size (table s1) = JOBS_MAX ∨
         table s' = <[next_job_number s :=
           new_job (next_job_number s) (l_pgid l) (named (l_live l)) (Some cmdline) false JOB_STOPPED]>
           (table s1)
       else table s' = table s1)
  end.
Proof.
  intros Hwf Hreg Hpos Hnext Hl Hnd Hb. set (pids := (l_live l).*1) in *.
  set (sg := if 0 <? l_pgid l then set_fg (l_pgid l) (sys_of s) else sys_of s).
  set (s0 := put_sys_of sg s).
  assert (cwd sg = cwd (sys_of s) ∧ shell_pgid sg = shell_pgid (sys_of s) ∧
    deliveries sg = deliveries (sys_of s)) as (Hc & Hg & Hd)
    by (unfold sg; by destruct (0 <? l_pgid l)).
  assert (sh_sys (term_give_to (l_pgid l)) s = Some ((), s0)) as E0.
  { unfold sh_sys, on_ext, on_sys, zoom, term_give_to, tcsetpgrp, modify. done. }
  assert (jobs_wf s0) as Hwf0 by (by eapply wf_ext; [..|exact Hwf]).
  assert (@h_ok _ _ (shell_host_laws (ext s0)) (ext s0)) as Hok0.
  { split; [|apply kept_refl]. by apply registry_ok_sys. }
  assert (stream s0 = stream s) as Hst by (unfold stream; simpl; by rewrite Hd).
  destruct (@wait_foreground_outcome _ _ (shell_host_laws (ext s0)) pids s0) as (s1 & E1 & Hok1);
    [unfold pids; by rewrite length_fmap|done|done|simpl; by rewrite Hd|].
  assert (jobs_wf s1) as Hwf1.
  { revert Hwf0 E1. apply preserves_bind; [apply preserves_gets|intros n; apply wait_loop_wf]. }
  assert (next_job_number s1 = next_job_number s) as Hn1
    by exact (wait_next (next_job_number s) pids false s0 _ s1 eq_refl E1).
  rewrite Hst in E1. unfold run_foreground. fold pids. rewrite (bind_eq _ _ _ _ _ E0), (bind_eq _ _ _ _ _ E1).
  destruct (fg_outcome _ _ _) as [n stopped|]; [|by eexists].
  exists s1. assert (0 < shell_pgid (r_sys (ext s0))) as Hpos0 by (simpl; by rewrite Hg).
  rewrite (bind_eq _ _ _ _ _ (reclaim_ok (ext s0) s1 Hok1 Hpos0)).
  set (s2 := put_sys_of _ s1). set (L := shell_host_laws (ext s2)).
  assert (@h_ok _ _ L (ext s2)) as Hok2.
  { split; [|apply kept_refl]. destruct Hok1 as [Hr _]. by apply registry_ok_sys. }
  assert (jobs_wf s2) as Hwf2 by (by eapply wf_ext; [..|exact Hwf1]).
  set (tail := if stopped then _ else _).
  assert (∃ s3, tail s2 = Some ((), s3) ∧ @h_ok _ _ L (ext s3) ∧
    (if stopped then size (table s1) = JOBS_MAX ∨
         table s3 = <[next_job_number s :=
           new_job (next_job_number s) (l_pgid l) (named (l_live l)) (Some cmdline) false JOB_STOPPED]>
           (table s1)
     else table s3 = table s1)) as (s3 & E3 & Hok3 & Ht3).
  { unfold tail. destruct stopped.
    - destruct (jobs_register (l_pgid l) (named (l_live l)) (Some cmdline) false JOB_STOPPED s2)
        as [[num s3]|] eqn:Er.
      2:{ unfold jobs_register, gets, mbind, M_bind in Er.
          destruct (index_of free_slot (jobs s2)); [|done].
          change (next_job_number s2) with (next_job_number s1) in Er. rewrite Hn1 in Er.
          by rewrite (proj2 (Z.ltb_lt _ _) Hnext) in Er. }
      pose proof (jobs_register_wf _ _ _ _ _ _ _ _ Hwf2 Er) as Hwf3.
      rewrite (bind_eq _ _ _ _ _ Er).
      assert (ext s3 = ext s2) as Hext.
      { destruct (register_cases _ _ _ _ _ _ _ _ Hwf2 Er) as [(_ & -> & _)|(_ & i & _ & ->)]; done. }
      destruct (sh_puts_ok L (line (lit "[" ++ itoa num ++ lit "] + Stopped    " ++ cmdline)) s3)
        as (f & Ef & Hf); [by rewrite Hext|].
      exists (set_ext f s3). split_and!; [done|done|].
      change (table (set_ext f s3)) with (table s3).
      destruct (register_cases _ _ _ _ _ _ _ _ Hwf2 Er) as [(_ & -> & Hfull)|(-> & i & Hi & Es)].
      + left. by apply (table_full s2).
      + right. rewrite (table_insert s2 s3 i _ Hwf2 Hwf3 Hi ltac:(by rewrite Es)). simpl. by rewrite Hn1.
    - destruct (finalize_all_ok L pids s2 Hok2) as (s3 & E3 & Hok3 & Hj3). exists s3.
      split_and!; [done|done|]. unfold table. by rewrite Hj3. }
  rewrite (bind_eq _ _ _ _ _ E3).
  destruct (flush_ok L s3 Hok3) as (s4 & E4 & [_ Hk4] & Hj4 & Hn4).
  rewrite (bind_eq _ _ _ _ _ E4). exists s4. split_and!; [done|done| |done|].
  - unfold sys_of. rewrite Hk4. simpl. by rewrite Hg.
  - assert (table s4 = table s3) as -> by (unfold table; by rewrite Hj4). done.
Qed.
End foreground.

(** ** The theorems at concrete command lines *)

(** [nope < a | ls >> b | prog]: the first command is not found. *)
Definition demo_line : list Token :=
  [word (lit "nope"); mkToken TOKEN_OP_LT (lit "<"); word (lit "a"); pipe_tok;
   word (lit "ls"); mkToken TOKEN_OP_GTGT (lit ">>"); word (lit "b"); pipe_tok; word (lit "prog")].

(** When the first stage is not started the group number stays 0, although
    the next child has made itself a group: the number handed to the
    terminal, entered in the job table and used (negated) by [kill] is not
    the children's. *)
Lemma first_stage_missing_pgid :
  ∃ l r', @start_group demo_posix demo_line 0 demo_reg = Some (l, r') ∧
    l_pgid l = 0 ∧ c_pgid <$> children (r_sys r') = [101; 102].
Proof.
  destruct (@start_group demo_posix demo_line 0 demo_reg) as [[l r']|] eqn:E; [|by vm_compute in E].
  exists l, r'. split; [done|]. vm_compute in E. by injection E as <- <-.
Qed.

Lemma pipeline_wiring_witness :
  let ws := [mkPlanned [lit "ls"; lit "-l"] (lit "/bin/ls") 101; mkPlanned [lit "prog"] (lit "/h/prog") 102;
             mkPlanned [lit "%ls"] (lit "/bin/ls") 103] in
  let tail := [mkToken TOKEN_OP_SEMI (lit ";"); word (lit "ls")] in
  @start_group demo_posix (pipeline_tokens (w_args <$> ws) ++ tail) (length tail) demo_reg =
  Some (mkLaunch 101 ((λ w, (w_pid w, cmd_name w)) <$> ws) false,
        put_sys (set_children (children demo_sys ++
                   imap (planned_child (fds demo_sys) (npipes demo_sys) 3 101) ws)
          (set_forks [104] (set_npipes (npipes demo_sys + 2) demo_sys))) demo_reg).
Proof.
  intros ws tail. apply (@pipeline_wiring demo_posix ws tail demo_reg [104]).
  - simpl. unfold ARRAY_MAX. lia.
  - repeat constructor; simpl; try lia; (eexists _, _; split; [reflexivity|vm_compute; reflexivity]).
  - done.
  - vm_compute. eauto.
  - vm_compute. eauto.
Defined.

Lemma run_foreground_outcome_witness :
  let l := mkLaunch 201 [(201, lit "cat"); (202, lit "wc")] false in
  let s := demo_shell [(201, WExited 0); (202, WStopped 20)] in
  fg_outcome (list_to_set ((l_live l).*1)) 0 (@stream _ (@shell_host demo_posix) s) = Waited 1 true ∧
  match fg_outcome (list_to_set ((l_live l).*1)) 0 (@stream _ (@shell_host demo_posix) s) with
  | Blocked => ∃ s', @run_foreground demo_posix l (lit "cat | wc") s = Some (None, s')
  | Waited _ stopped =>
    ∃ s1 s', @run_foreground demo_posix l (lit "cat | wc") s = Some (Some false, s') ∧
      @jobs_wait_foreground _ (@shell_host demo_posix) ((l_live l).*1) false
        (put_sys_of (if 0 <? l_pgid l then set_fg (l_pgid l) (sys_of s) else sys_of s) s) =
        Some (fg_outcome (list_to_set ((l_live l).*1)) 0 (@stream _ (@shell_host demo_posix) s), s1) ∧
      fg (sys_of s') = shell_pgid (sys_of s) ∧ notif_queue s' = [] ∧
      (if stopped then
         size (table s1) = JOBS_MAX ∨
         table s' = <[next_job_number s := new_job (next_job_number s) (l_pgid l) (named (l_live l))
           (Some (lit "cat | wc")) false JOB_STOPPED]> (table s1)
       else table s' = table s1)
  end.
Proof.
  intros l s. split; [by vm_compute|].
  apply (@run_foreground_outcome demo_posix l (lit "cat | wc") s).
  - apply demo_shell_wf. simpl. unfold PENDING_MAX. lia.
  - apply demo_registry_ok.
  - done.
  - simpl. unfold INT_MAX. lia.
  - simpl. unfold JOB_MAX_PROCS. lia.
  - by apply (bool_decide_unpack _); vm_compute.
  - constructor.
Defined.
