(* ===== verification/Snoop.v ===== *)
(** Tracing system calls: [c-shell/src/snoop.c].

    Times are doubles in the code: they are a parameter here, a type with
    the conversion of a [long], addition, division and the [%.3f] conversion.
    A traced process is the list of its stops as [waitpid] reports them; a
    list that ends without the process ending is a wait that never returns
    ([None]). *)
From S2P Require Import Prelude CLib Lexer Sys Resolver Redirection Pipeline.

(** The syscall names of x86_64 the program knows. *)
Definition syscall_names : list (Z * string) := [
  (0, "read"); (1, "write"); (2, "open"); (3, "close"); (4, "stat"); (5, "fstat");
  (6, "lstat"); (7, "poll"); (8, "lseek"); (9, "mmap"); (10, "mprotect"); (11, "munmap");
  (12, "brk"); (13, "rt_sigaction"); (14, "rt_sigprocmask"); (16, "ioctl"); (17, "pread64");
  (18, "pwrite64"); (19, "readv"); (20, "writev"); (21, "access"); (22, "pipe");
  (23, "select"); (24, "sched_yield"); (25, "mremap"); (28, "madvise"); (32, "dup");
  (33, "dup2"); (34, "pause"); (35, "nanosleep"); (39, "getpid"); (41, "socket");
  (42, "connect"); (43, "accept"); (44, "sendto"); (45, "recvfrom"); (56, "clone");
  (57, "fork"); (58, "vfork"); (59, "execve"); (60, "exit"); (61, "wait4"); (62, "kill");
  (63, "uname"); (72, "fcntl"); (73, "flock"); (74, "fsync"); (79, "getcwd"); (80, "chdir");
  (82, "rename"); (83, "mkdir"); (84, "rmdir"); (87, "unlink"); (89, "readlink");
  (90, "chmod"); (92, "chown"); (95, "umask"); (96, "gettimeofday"); (97, "getrlimit");
  (99, "sysinfo"); (100, "times"); (102, "getuid"); (104, "getgid"); (107, "geteuid");
  (108, "getegid"); (109, "setpgid"); (110, "getppid"); (111, "getpgrp"); (112, "setsid");
  (131, "sigaltstack"); (137, "statfs"); (158, "arch_prctl"); (186, "gettid"); (201, "time");
  (202, "futex"); (217, "getdents64"); (218, "set_tid_address"); (228, "clock_gettime");
  (229, "clock_getres"); (230, "clock_nanosleep"); (231, "exit_group"); (232, "epoll_wait");
  (257, "openat"); (262, "newfstatat"); (273, "set_robust_list"); (302, "prlimit64");
  (318, "getrandom"); (332, "statx"); (334, "rseq"); (435, "clone3"); (439, "faccessat2")
]%string.

Definition lookup_syscall_name (num : Z) : list ascii :=
  match list_find (λ p, p.1 = num) syscall_names with
  | Some (_, (_, name)) => lit name
  | None => snprintf 32 (lit "syscall_" ++ itoa num)
  end.

Definition STATS_MAX : nat := 512.

(** One stop of the traced process. A system-call stop carries the call number
    of the registers, if they could be read, and the clock at that time. *)
Record timespec := mkTimespec { tv_sec : Z; tv_nsec : Z }.

Inductive tstop :=
| TSyscall (orig_rax : option Z) (time : timespec)
| TTrap
| TSignal (sig : Z)
| TOther
| TEnded.

(** Pad to the left-justified width of [%-13s]. *)
Definition pad (width : nat) (s : list ascii) : list ascii := s ++ replicate (width - length s) c_sp.

Section code.
Context {dbl : Type} (of_long : Z → dbl) (dadd ddiv : dbl → dbl → dbl) (fmt3 : dbl → list ascii).

Definition time_diff (a b : timespec) : dbl :=
  dadd (of_long (tv_sec b - tv_sec a)) (ddiv (of_long (tv_nsec b - tv_nsec a)) (of_long 1000000000)).

Record SyscallStat := mkStat { sysno : Z; calls : Z; total_time : dbl; first_seq : Z }.

(** [stats[0..stats_count)] and [seq_counter]. *)
Record snstate := mkSn { stats : list SyscallStat; seq_counter : Z }.

(** [record_call]. *)
Definition record_call (st : snstate) (n : Z) (dt : dbl) : snstate :=
  match index_of (λ x, sysno x =? n) (stats st) with
  | Some i =>
    mkSn (alter (λ x, mkStat (sysno x) (calls x + 1) (dadd (total_time x) dt) (first_seq x)) i (stats st))
         (seq_counter st)
  | None =>
    if decide (length (stats st) < STATS_MAX)%nat
    then mkSn (stats st ++ [mkStat n 1 dt (seq_counter st)]) (seq_counter st + 1)
    else st
  end.

(** The swap test of [print_summary]. *)
Definition summary_before (b a : SyscallStat) : bool :=
  (calls a <? calls b) || ((calls b =? calls a) && (first_seq b <? first_seq a)).

Definition summary_line (x : SyscallStat) : list ascii :=
  line (pad 13 (lookup_syscall_name (sysno x)) ++ lit " " ++ pad 7 (itoa (calls x)) ++ lit " " ++
        fmt3 (total_time x) ++ lit "s").
Definition print_summary (st : snstate) : M sys unit :=
  eputs (line (pad 13 (lit "syscall") ++ lit " " ++ pad 7 (lit "calls") ++ lit " " ++ lit "time") ++
         mjoin (summary_line <$> exchange_sort summary_before (stats st))).

(** [trace_loop]: [entry] is the call entered and its time when [in_syscall].
    The result has the signals passed on by [ptrace(PTRACE_SYSCALL, ...)]. *)
Fixpoint trace_loop (stops : list tstop) (entry : option (Z * timespec)) (sig_to_deliver : Z)
    (st : snstate) : option (snstate * list Z) :=
  match stops with
  | [] => None
  | stop :: rest =>
    r ← match stop with
        | TEnded => Some (st, [])
        | TSyscall None _ => trace_loop rest entry 0 st
        | TSyscall (Some n) t =>
          match entry with
          | None => trace_loop rest (Some (n, t)) 0 st
          | Some (n0, t0) => trace_loop rest None 0 (record_call st n0 (time_diff t0 t))
          end
        | TTrap => trace_loop rest entry 0 st
        | TSignal sig => trace_loop rest entry sig st
        | TOther => trace_loop rest entry 0 st
        end;
    Some (r.1, sig_to_deliver :: r.2)
  end.

(** How the traced process behaves: its first stop or exit, and the stops
    after it; and whether a process can be attached. *)
Context (first_exits : Z → bool) (stops_of : Z → list tstop) (attachable : Z → bool).
Context `{Posix}.

Definition snoop_no_process : M rstate (option unit) :=
  on_sys (eputs (line (lit "snoop: no such process")));; mret (Some ()).
Definition snoop_not_found : M rstate (option unit) :=
  on_sys (eputs (line (lit "snoop: command not found")));; mret (Some ()).

(** [trace_loop(child)] from fresh counters, then the summary; [finalize] for
    the output of a child the shell started. *)
Definition trace_and_report (child : Z) (finalize : bool) : M rstate (option unit) :=
  match trace_loop (stops_of child) None 0 (mkSn [] 0) with
  | None => mret None
  | Some (st, _) =>
    when finalize (outreg_finalize child);;
    on_sys (print_summary st);;
    mret (Some ())
  end.

Definition SNOOP_FILES_MAX : nat := 16.

(** The loop that takes the redirections out of the traced command; the
    arrays have room for 16 files each. *)
Fixpoint snoop_args (fuel : nat) (p : list Token) (st : stage) : option stage :=
  match fuel with
  | O => None
  | S fuel =>
    match p with
    | [] => Some st
    | tok :: rest =>
      if decide (127 ≤ length (args st))%nat then Some st
      else
        match rest with
        | next :: rest' =>
          if ttype_eqb (type tok) TOKEN_OP_LT then
            if decide (length (in_files st) < SNOOP_FILES_MAX)%nat then
              snoop_args fuel rest' (mkStage (args st) (in_files st ++ [value next]) (out_files st))
            else None
          else if ttype_eqb (type tok) TOKEN_OP_GT || ttype_eqb (type tok) TOKEN_OP_GTGT then
            if decide (length (out_files st) < SNOOP_FILES_MAX)%nat then
              snoop_args fuel rest' (mkStage (args st) (in_files st)
                (out_files st ++ [(value next, ttype_eqb (type tok) TOKEN_OP_GTGT)]))
            else None
          else snoop_args fuel rest (mkStage (args st ++ [value tok]) (in_files st) (out_files st))
        | [] => snoop_args fuel rest (mkStage (args st ++ [value tok]) (in_files st) (out_files st))
        end
    end
  end.

(** What the traced child does before [execv]. *)
Definition snoop_child (pid tmp_in : Z) (out_count : nat) : M sys unit :=
  when (0 <=? tmp_in) (dup2 (Z.to_nat tmp_in) 0);;
  (if decide (0 < out_count)%nat then
     r ← open_write false (tmp_out_name pid);
     match r with
     | Some (fd, _) => dup2 fd 1;; close fd
     | None => mret ()
     end
   else mret ());;
  when (0 <=? tmp_in) (close (Z.to_nat tmp_in)).

(** The traced child keeps the shell's process group and signals. *)
Definition run_snoop_child (pid tmp_in : Z) (path : list ascii) (st : stage) : M sys unit := λ s,
  match snoop_child pid tmp_in (length (out_files st)) s with
  | None => None
  | Some (_, c) =>
    Some ((), set_children (children s ++ [mkChild pid path (args st) (shell_pgid s) (fds c) []])
                (set_files (files c) s))
  end.

Definition drop_snoop_in (tmp_in : Z) : M sys unit :=
  when (0 <=? tmp_in) (close (Z.to_nat tmp_in);; unlink (lit ".cshell_tmp_in_9002")).

(** [snoop cmd ...], once the arguments are known. *)
Definition snoop_command (cmd : list ascii) (st : stage) : M rstate (option unit) :=
  path ← on_sys (gets (resolve_command_path cmd));
  match path with
  | None => snoop_not_found
  | Some p =>
    tmp_in ← (if decide (0 < length (in_files st))%nat then on_sys (setup_input (in_files st) 9002)
              else mret (-1));
    if bool_decide (0 < length (in_files st))%nat && (tmp_in <? 0) then mret (Some ())
    else
      v ← (if decide (0 < length (out_files st))%nat then on_sys (outreg_validate (out_files st))
           else mret 0);
      if v <? 0 then on_sys (drop_snoop_in tmp_in);; mret (Some ())
      else
        child ← on_sys fork;
        on_sys (when (0 <? child) (run_snoop_child child tmp_in p st));;
        on_sys (drop_snoop_in tmp_in);;
        outreg_register child ((out_files st).*1);;
        if first_exits child then outreg_finalize child;; mret (Some ())
        else trace_and_report child true
  end.

Definition run_snoop (tokens : list Token) : M rstate (option unit) :=
  match tail tokens with
  | [] => snoop_not_found
  | t :: rest =>
    if value t =s lit "-p" then
      match rest with
      | [] => snoop_no_process
      | pid_tok :: _ =>
        let '(pidval, endp) := strtol (value pid_tok) in
        if negb (char_at endp 0 =c c_nul) || (char_at (value pid_tok) 0 =c c_nul) then snoop_no_process
        else if attachable (int32 pidval) then trace_and_report (int32 pidval) false
        else snoop_no_process
      end
    else
      match snoop_args (S (length (t :: rest))) (t :: rest) (mkStage [] [] []) with
      | None => stuck
      | Some st =>
        match args st with
        | [] => snoop_not_found
        | cmd :: _ => snoop_command cmd st
        end
      end
  end.
End code.

(** ** What is counted *)

Section counting.
Context {dbl : Type} (of_long : Z → dbl) (dadd ddiv : dbl → dbl → dbl).
Abbreviation record := (record_call dadd).
Abbreviation diff := (time_diff of_long dadd ddiv).

(** The stops before the process ends, if it does. *)
Fixpoint until_end (stops : list tstop) : option (list tstop) :=
  match stops with
  | [] => None
  | TEnded :: _ => Some []
  | s :: rest => cons s <$> until_end rest
  end.

(** The calls that were entered and left again: system-call stops alternate
    between entry and exit. *)
Fixpoint completed (stops : list tstop) (entry : option (Z * timespec)) : list (Z * dbl) :=
  match stops with
  | [] => []
  | TSyscall (Some n) t :: rest =>
    match entry with
    | None => completed rest (Some (n, t))
    | Some (n0, t0) => (n0, diff t0 t) :: completed rest None
    end
  | _ :: rest => completed rest entry
  end.

Definition signal_of (s : tstop) : Z := match s with TSignal sig => sig | _ => 0 end.

Definition record_all (st : snstate) (cs : list (Z * dbl)) : snstate :=
  foldl (λ st c, record st c.1 c.2) st cs.

Lemma trace_loop_spec stops entry sig st :
  trace_loop of_long dadd ddiv stops entry sig st =
  (λ ss, (record_all st (completed ss entry), sig :: (signal_of <$> ss))) <$> until_end stops.
Proof.
  revert entry sig st; induction stops as [|s stops IH]; intros entry sig st; [done|].
  destruct s as [[n|] t| |sg| |]; cbn [trace_loop until_end]; try done;
    try (rewrite IH; by destruct (until_end stops)).
  destruct entry as [[n0 t0]|]; rewrite IH; by destruct (until_end stops).
Qed.

(** The number of calls counted for a system call. *)
Definition calls_of (n : Z) (st : @snstate dbl) : Z :=
  match list_find (λ x, sysno x = n) (stats st) with Some (_, x) => calls x | None => 0 end.

Record counts_wf (st : @snstate dbl) : Prop := {
  cw_nodup : NoDup (sysno <$> stats st);
  cw_seq : first_seq <$> stats st = seqZ 0 (Z.of_nat (length (stats st)));
  cw_next : seq_counter st = Z.of_nat (length (stats st));
}.

Lemma index_of_sysno n (l : list (@SyscallStat dbl)) :
  index_of (λ x, sysno x =? n) l = fst <$> list_find (λ x, sysno x = n) l.
Proof.
  induction l as [|x l IH]; [done|]. cbn [index_of list_find]. rewrite IH.
  destruct (decide (sysno x = n)) as [E|E].
  - by rewrite (proj2 (Z.eqb_eq _ _) E).
  - rewrite (proj2 (Z.eqb_neq _ _) E). by destruct (list_find _ l) as [[i y]|].
Qed.

Lemma list_find_alter (f : @SyscallStat dbl → SyscallStat) i l n :
  (∀ x, sysno (f x) = sysno x) →
  list_find (λ x, sysno x = n) (alter f i l) =
  match list_find (λ x, sysno x = n) l with
  | Some (k, x) => Some (k, if decide (k = i) then f x else x)
  | None => None
  end.
Proof.
  intros Hf. revert i; induction l as [|y l IH]; intros i; [by destruct i|].
  destruct i as [|i].
  - change (alter f 0%nat (y :: l)) with (f y :: l). cbn [list_find]. rewrite Hf.
    destruct (decide (sysno y = n)); [done|].
    destruct (list_find _ l) as [[k x]|]; done.
  - change (alter f (S i) (y :: l)) with (y :: alter f i l). cbn [list_find]. rewrite IH.
    destruct (decide (sysno y = n)); [done|].
    destruct (list_find _ l) as [[k x]|]; simpl; [|done].
    destruct (decide (k = i)) as [->|].
    + by rewrite decide_True.
    + by rewrite decide_False by congruence.
Qed.

Lemma list_find_none_iff n (l : list (@SyscallStat dbl)) :
  list_find (λ x, sysno x = n) l = None ↔ n ∉ sysno <$> l.
Proof.
  rewrite list_find_None, Forall_forall, list_elem_of_fmap. naive_solver.
Qed.

Lemma record_call_spec st n dt :
  counts_wf st → (length (stats st) < STATS_MAX)%nat ∨ n ∈ sysno <$> stats st →
  counts_wf (record st n dt) ∧
  (∀ m, calls_of m (record st n dt) = calls_of m st + (if decide (m = n) then 1 else 0)) ∧
  (∀ m, m ∈ sysno <$> stats (record st n dt) ↔ m = n ∨ m ∈ sysno <$> stats st).
Proof.
  intros [Hnd Hseq Hnext] Hroom. unfold record_call. rewrite index_of_sysno.
  destruct (list_find (λ x, sysno x = n) (stats st)) as [[i x]|] eqn:Ef; cbn [fmap option_fmap option_map fst].
  - assert (n ∈ sysno <$> stats st) as Hin.
    { destruct (decide (n ∈ sysno <$> stats st)) as [|Hn]; [done|].
      apply list_find_none_iff in Hn. congruence. }
    set (f := λ x : SyscallStat, mkStat (sysno x) (calls x + 1) (dadd (total_time x) dt) (first_seq x)).
    split_and!.
    + split; cbn [stats seq_counter]; rewrite ?length_alter, ?(fmap_alter_same _ f) by done; done.
    + intros m. unfold calls_of. cbn [stats]. rewrite (list_find_alter f) by done.
      destruct (list_find (λ x, sysno x = m) (stats st)) as [[k y]|] eqn:Em.
      * apply list_find_Some in Em as (Hk & Hm & _). apply list_find_Some in Ef as (Hi & Hn & _).
        destruct (decide (k = i)) as [->|Hki].
        { rewrite decide_True by congruence. done. }
        rewrite decide_False; [lia|]. intros ->. destruct Hki.
        eapply (NoDup_lookup _ _ _ n Hnd); rewrite list_lookup_fmap, ?Hk, ?Hi; simpl; congruence.
      * rewrite decide_False; [lia|]. intros ->. congruence.
    + intros m. cbn [stats]. rewrite (fmap_alter_same sysno f) by done. set_solver.
  - apply list_find_none_iff in Ef as Hnin. destruct Hroom as [Hroom|?]; [|done].
    rewrite decide_True by done. split_and!.
    + split; cbn [stats seq_counter]; rewrite ?fmap_app, ?length_app; cbn [length fmap list_fmap].
      * apply NoDup_app. split_and!; [done|set_solver|apply NoDup_singleton].
      * rewrite Hseq, Hnext, Nat2Z.inj_add, seqZ_app by lia. done.
      * rewrite Hnext. lia.
    + intros m. unfold calls_of. cbn [stats].
      destruct (list_find (λ x, sysno x = m) (stats st)) as [[k y]|] eqn:Em.
      * rewrite (list_find_app_l _ _ _ _ _ Em). rewrite decide_False; [lia|]. intros ->. congruence.
      * rewrite list_find_app_r by done. simpl. destruct (decide (n = m)) as [->|].
        -- by rewrite decide_True.
        -- by rewrite decide_False.
    + intros m. cbn [stats]. rewrite fmap_app. set_solver.
Qed.

(** How often [n] is called in [cs]. *)
Definition occurrences (n : Z) (cs : list (Z * dbl)) : Z :=
  Z.of_nat (length (filter (λ c, c.1 = n) cs)).

Lemma record_all_spec cs st :
  counts_wf st →
  (size (list_to_set (C := gset Z) ((sysno <$> stats st) ++ cs.*1)) ≤ STATS_MAX)%nat →
  counts_wf (record_all st cs) ∧
  ∀ n, calls_of n (record_all st cs) = calls_of n st + occurrences n cs.
Proof.
  revert st; induction cs as [|[n dt] cs IH]; intros st Hwf Hsz.
  { split; [done|]. intros n. unfold occurrences. simpl. lia. }
  rewrite fmap_cons in Hsz. cbn [fst] in Hsz.
  assert ((length (stats st) < STATS_MAX)%nat ∨ n ∈ sysno <$> stats st) as Hroom.
  { destruct (decide (n ∈ sysno <$> stats st)) as [|Hn]; [by right|left].
    assert (S (length (stats st)) ≤ STATS_MAX)%nat; [|lia]. etrans; [|exact Hsz].
    assert (size (list_to_set (C := gset Z) (n :: (sysno <$> stats st))) = S (length (stats st))) as <-.
    { rewrite size_list_to_set by (constructor; [done|apply Hwf]). simpl. by rewrite length_fmap. }
    apply subseteq_size. set_solver. }
  destruct (record_call_spec st n dt Hwf Hroom) as (Hwf' & Hc & Hin).
  destruct (IH (record st n dt) Hwf') as (Hwf'' & Hc').
  { etrans; [|exact Hsz]. apply subseteq_size. intros m. rewrite !elem_of_list_to_set, !elem_of_app, Hin.
    set_solver. }
  split; [done|]. intros m. change (record_all st ((n, dt) :: cs)) with (record_all (record st n dt) cs).
  rewrite Hc', Hc. unfold occurrences. rewrite filter_cons. cbn [fst].
  destruct (decide (m = n)) as [->|].
  - rewrite decide_True by done. simpl length. lia.
  - rewrite decide_False by congruence. lia.
Qed.

Lemma summary_order (l : list (@SyscallStat dbl)) :
  StronglySorted (λ a b, calls b < calls a ∨ calls a = calls b ∧ first_seq a ≤ first_seq b)
    (exchange_sort summary_before l).
Proof.
  eapply StronglySorted_mono; [|apply exchange_sort_sorted]; unfold may_precede, summary_before; lia.
Qed.

(** [snoop] counts what the traced process did. For a process that ends
    and uses at most 512 different calls, the counters after [trace_loop] say
    for every call how often it was entered and left; every signal that
    stopped the process is passed on exactly once, when it is next resumed;
    and the summary lists every counter, the most frequent call first and
    equally frequent ones in the order of their first use. *)
Theorem snoop_counts stops ss :
  until_end stops = Some ss →
  (size (list_to_set (C := gset Z) ((completed ss None).*1)) ≤ STATS_MAX)%nat →
  ∃ st, trace_loop of_long dadd ddiv stops None 0 (mkSn [] 0) = Some (st, 0 :: (signal_of <$> ss)) ∧
    (∀ n, calls_of n st = occurrences n (completed ss None)) ∧
    exchange_sort summary_before (stats st) ≡ₚ stats st ∧
    StronglySorted (λ a b, calls b < calls a ∨ calls a = calls b ∧ first_seq a ≤ first_seq b)
      (exchange_sort summary_before (stats st)).
Proof.
  intros Hend Hsz. eexists. rewrite trace_loop_spec, Hend. split; [reflexivity|].
  destruct (record_all_spec (completed ss None) (mkSn [] 0)) as (_ & Hc).
  { split; simpl; [constructor|done|done]. } { done. }
  split_and!; [|apply exchange_sort_perm|apply summary_order].
  intros n. by rewrite Hc.
Qed.
End counting.

(** Times in whole nanoseconds. *)
Lemma snoop_counts_witness :
  let t n := mkTimespec 0 n in
  let stops := [TSyscall (Some 1) (t 0); TSignal 10; TSyscall (Some 1) (t 5); TTrap; TSyscall (Some 0) (t 6);
                TSyscall (Some 0) (t 9); TSyscall (Some 1) (t 10); TSyscall (Some 1) (t 12); TEnded] in
  let ss := take 8 stops in
  let dv a b := a in
  ∃ st, trace_loop id Z.add dv stops None 0 (mkSn [] 0) = Some (st, 0 :: (signal_of <$> ss)) ∧
    (∀ n, calls_of n st = occurrences n (completed id Z.add dv ss None)) ∧
    exchange_sort summary_before (stats st) ≡ₚ stats st ∧
    StronglySorted (λ a b, calls b < calls a ∨ calls a = calls b ∧ first_seq a ≤ first_seq b)
      (exchange_sort summary_before (stats st)).
Proof.
  intros t stops ss dv. apply (snoop_counts id Z.add dv stops ss); [reflexivity|].
  apply (bool_decide_unpack _). vm_compute. exact I.
Defined.
