(* ===== verification/Prompt.v ===== *)
(** The prompt: [c-shell/src/prompt.c].

    The home of the shell is the directory it was started in; below it the
    prompt abbreviates the current directory with [~]. The user and host
    names are the environment's: [None] when [getpwuid] or [gethostname]
    fails. *)
From S2P Require Import Prelude CLib Sys Resolver Hop.

(** [strncmp(a, b, n) == 0]. *)
Definition strncmp_eq (a b : list ascii) (n : nat) : bool := take n a =s take n b.

Section code.
Context `{Posix}.

(** [init_homedir]; [false] when the program exits with [EXIT_FAILURE]. *)
Definition init_homedir : M hstate bool :=
  d ← gets (λ h, getcwd PATH_MAX (h_sys h));
  match d with
  | None => hsys (perror (lit "getcwd failed during shell home initialization"));; mret false
  | Some d => modify (λ h, mkHstate (h_sys h) d (prev_dir h) (now h));; mret true
  end.

(** The [path] shown by [display_prompt]. *)
Definition prompt_path (shell_home cwd : list ascii) : list ascii :=
  let h_len := length shell_home in
  if cwd =s shell_home then snprintf PATH_MAX (lit "~")
  else if strncmp_eq cwd shell_home h_len && (char_at cwd h_len =c "/") then
    snprintf PATH_MAX (lit "~" ++ drop h_len cwd)
  else snprintf PATH_MAX cwd.

Definition display_prompt (username hostname : option (list ascii)) : M hstate unit :=
  let username := default (lit "not_found") username in
  let hostname := default (lit "not_found") hostname in
  d ← gets (λ h, getcwd PATH_MAX (h_sys h));
  match d with
  | None => hsys (perror (lit "getcwd failed"))
  | Some cwd =>
    home ← gets shell_home;
    hsys (puts (lit "<" ++ username ++ lit "@" ++ hostname ++ lit ":" ++ prompt_path home cwd ++ lit "> "))
  end.

Definition get_shell_home : M hstate (list ascii) := gets shell_home.
End code.

(** ** The abbreviation *)

(** What the reader of the prompt does: a leading [~] stands for the home. *)
Definition expand (home p : list ascii) : list ascii :=
  match p with
  | c :: r => if c =c "~" then home ++ r else p
  | [] => p
  end.

Lemma take_below {A} (l k : list A) : take (length k) l = k ↔ ∃ r, l = k ++ r.
Proof.
  split.
  - intros E. exists (drop (length k) l). rewrite <-E at 1. by rewrite take_drop.
  - intros (r & ->). by rewrite take_app_length.
Qed.

#[local] Opaque PATH_MAX.
Lemma PATH_MAX_big : (2 < PATH_MAX)%nat.
Proof. apply Nat.ltb_lt. reflexivity. Qed.

Lemma snprintf_short n (s : list ascii) : (length s < n)%nat → snprintf n s = s.
Proof. intros. unfold snprintf. apply take_ge. lia. Qed.

(** The path in the prompt is faithful: for a shell started in any
    directory and a current directory that fits its buffer, expanding the [~]
    gives back the current directory, whatever its name, and the [~] is used
    exactly for the home itself and the directories below it. A directory
    whose name merely begins like the home ([/home/ab] for [/home/a]) is
    shown in full. *)
Theorem prompt_path_roundtrip home d :
  home ≠ [] → head d = Some "/"%char → (length d < PATH_MAX)%nat →
  expand home (prompt_path home d) = d ∧
  (head (prompt_path home d) = Some "~"%char ↔ d = home ∨ ∃ r, d = home ++ "/"%char :: r).
Proof.
  intros Hh Hd Hlen. pose proof PATH_MAX_big. unfold prompt_path.
  destruct (d =s home) eqn:E.
  { apply streq_true in E as ->. rewrite snprintf_short by (simpl; lia). simpl.
    rewrite app_nil_r. split; [done|]. split; [by left|done]. }
  apply streq_false in E. unfold strncmp_eq. rewrite (firstn_all home).
  destruct (take (length home) d =s home) eqn:Ep; simpl.
  - apply streq_true, take_below in Ep as (r & ->).
    unfold char_at. rewrite lookup_app_r, Nat.sub_diag, drop_app_length by lia.
    destruct r as [|c r]; simpl.
    { by rewrite app_nil_r in E. }
    destruct (c =c "/") eqn:Ec.
    + apply ceq_true in Ec as ->. rewrite snprintf_short.
      2:{ destruct home; [done|]. rewrite length_app in *. simpl in *. lia. }
      split; [done|]. split; [intros _; right; by exists r|done].
    + rewrite snprintf_short by done. destruct home as [|h home]; [done|].
      injection Hd as ->. simpl. split; [done|]. split; [done|].
      intros [?|(r' & Er)]; [done|]. apply ceq_false in Ec. injection Er as Er.
      apply app_inv_head in Er. congruence.
  - apply streq_false in Ep. rewrite snprintf_short by done. destruct d as [|c d]; [done|].
    injection Hd as ->. simpl. split; [done|]. split; [done|].
    intros [?|(r & Er)]; [done|]. destruct Ep. apply take_below. eauto.
Qed.

Lemma prompt_path_roundtrip_witness :
  let home := lit "/home/a" in let d := lit "/home/a/src" in
  expand home (prompt_path home d) = d ∧
  (head (prompt_path home d) = Some "~"%char ↔ d = home ∨ ∃ r, d = home ++ "/"%char :: r).
Proof. apply prompt_path_roundtrip; [done|reflexivity|apply Nat.ltb_lt; vm_compute; reflexivity]. Defined.

Example prompt_sibling : prompt_path (lit "/home/a") (lit "/home/ab") = lit "/home/ab".
Proof. vm_compute. reflexivity. Qed.
