(* ===== verification/Execute.v ===== *)
(** Running a command line: [c-shell/src/execute.c].

    A line whose first word is a builtin runs in the shell's own process,
    with the shell's standard input and output redirected for the duration
    of the command; any other line is a pipeline. A command that waits
    returns [None] when the shell stays suspended forever. *)
From S2P Require Import Prelude CLib Lexer Sys Resolver Hop Peek.
From S2P Require Import Reveal Spy Redirection Jobs JobControl Pipeline Snoop.

(** The whole state of the shell: the job table with the registry and the
    system, the static variables of prompt.c and hop.c, and the time. *)
Record cshell := mkCshell {
  c_shell : shell;
  c_home : list ascii;
  c_prev : list ascii;
  c_now : Z;
}.
Definition c_sys (c : cshell) : sys := sys_of (c_shell c).
Definition put_shell (s : shell) (c : cshell) : cshell := mkCshell s (c_home c) (c_prev c) (c_now c).
Definition on_shell {A} : M shell A → M cshell A := zoom c_shell put_shell.
Definition on_csys {A} (m : M sys A) : M cshell A := on_shell (sh_sys m).
Definition get_hop (c : cshell) : hstate := mkHstate (c_sys c) (c_home c) (c_prev c) (c_now c).
Definition put_hop (h : hstate) (c : cshell) : cshell :=
  mkCshell (put_sys_of (h_sys h) (c_shell c)) (shell_home h) (prev_dir h) (now h).
Definition on_hop {A} : M hstate A → M cshell A := zoom get_hop put_hop.

(** What [snoop] relies on: arithmetic on doubles and its format, and what
    [ptrace] and [waitpid] report of a traced process. *)
Class Tracer := {
  tr_double : Type;
  tr_of_long : Z → tr_double;
  tr_add : tr_double → tr_double → tr_double;
  tr_div : tr_double → tr_double → tr_double;
  tr_fmt3 : tr_double → list ascii;
  tr_first_exits : Z → bool;
  tr_stops : Z → list tstop;
  tr_attachable : Z → bool;
}.

(** [dup]: the lowest free descriptor, for the same object. *)
Definition dup (fd : nat) : M sys (option nat) :=
  o ← gets (λ s, fds s !! fd);
  match o with
  | Some obj => n ← alloc_fd obj; mret (Some n)
  | None => mret None
  end.

(** The arrays of [exec_cmd] have 16 entries. *)
Definition FILES_MAX : nat := 16.

(** The loop of [strip_redirections] over the tokens after the first:
    the remaining tokens, the input files and the output files with their
    modes. [None] is a write past the end of an array. *)
Fixpoint strip_loop (toks : list Token) (ins : list (list ascii)) (outs : list (list ascii * bool))
  : option (list Token * list (list ascii) * list (list ascii * bool)) :=
  match toks with
  | [] => Some ([], ins, outs)
  | curr :: rest =>
    let is_redir := ttype_eqb (type curr) TOKEN_OP_LT || ttype_eqb (type curr) TOKEN_OP_GT
                    || ttype_eqb (type curr) TOKEN_OP_GTGT in
    let keep (_ : unit) :=
      '(ts, i, o) ← strip_loop rest ins outs; Some (curr :: ts, i, o) in
    match rest with
    | word :: after =>
      if is_redir && ttype_eqb (type word) TOKEN_WORD then
        if ttype_eqb (type curr) TOKEN_OP_LT then
          if decide (length ins < FILES_MAX)%nat then strip_loop after (ins ++ [value word]) outs
          else None
        else if decide (length outs < FILES_MAX)%nat then
          strip_loop after ins (outs ++ [(value word, ttype_eqb (type curr) TOKEN_OP_GTGT)])
        else None
      else keep ()
    | [] => keep ()
    end
  end.

Definition strip_redirections (tokens : list Token)
  : option (list Token * list (list ascii) * list (list ascii * bool)) :=
  match tokens with
  | [] => None
  | t :: rest => '(ts, i, o) ← strip_loop rest [] []; Some (t :: ts, i, o)
  end.

Section code.
Context `{Posix} `{Tracer} (reveal_fuel : nat).

(** [M]'s operations that always come back. *)
Definition always {S} (m : M S unit) : M S (option unit) := m;; mret (Some ()).

Definition run_builtin (tokens : list Token) : M cshell (option unit) :=
  match tokens with
  | [] => mret (Some ())
  | t :: _ =>
    let name := value t in
    if name =s lit "hop" then always (on_hop (run_hop tokens))
    else if name =s lit "reveal" then
      home ← gets c_home; prev ← gets c_prev;
      always (on_csys (run_reveal reveal_fuel home prev tokens))
    else if name =s lit "locate" then always (on_csys (run_locate tokens))
    else if name =s lit "peek" then always (on_csys (run_peek tokens))
    else if name =s lit "activities" then always (on_shell (run_activities tokens))
    else if name =s lit "resume" then on_shell (run_resume tokens)
    else if name =s lit "ping" then always (on_shell (run_ping tokens))
    else if name =s lit "spy" then always (on_csys (run_spy tokens))
    else if name =s lit "snoop" then
      on_shell (on_ext (run_snoop tr_of_long tr_add tr_div tr_fmt3 tr_first_exits tr_stops
                          tr_attachable tokens))
    else mret (Some ())
  end.

Definition is_builtin_name (name : list ascii) : bool :=
  (name =s lit "hop") || (name =s lit "reveal") || (name =s lit "locate") || (name =s lit "peek") ||
  (name =s lit "activities") || (name =s lit "resume") || (name =s lit "ping") ||
  (name =s lit "spy") || (name =s lit "snoop").

Definition builtin_tmp_name (pid : Z) : list ascii :=
  snprintf 64 (lit ".cshell_tmp_out_builtin_" ++ itoa pid).

(** The input half of [exec_cmd]: [ok] and [saved_stdin]. *)
Definition redirect_in (ins : list (list ascii)) : M sys (bool * option nat) :=
  match ins with
  | [] => mret (true, None)
  | _ =>
    tmp_in ← setup_input ins 9001;
    if tmp_in <? 0 then mret (false, None)
    else
      saved ← dup 0;
      dup2 (Z.to_nat tmp_in) 0;;
      close (Z.to_nat tmp_in);;
      unlink (lit ".cshell_tmp_in_9001");;
      mret (true, saved)
  end.

(** The output half: [ok], [saved_stdout] and [tmp_out_fd]. *)
Definition redirect_out (ok : bool) (outs : list (list ascii * bool))
  : M sys (bool * option nat * option nat) :=
  if ok && bool_decide (outs ≠ []) then
    v ← outreg_validate outs;
    if v <? 0 then mret (false, None, None)
    else
      pid ← gets self_pid;
      r ← open_write false (builtin_tmp_name pid);
      saved ← dup 1;
      match r with Some (fd, _) => dup2 fd 1 | None => mret () end;;
      mret (true, saved, fst <$> r)
  else mret (ok, None, None).

(** Undoing the redirections and delivering the output. *)
Definition restore_out (saved tmp_fd : option nat) (outs : list (list ascii * bool)) : M sys unit :=
  match saved with
  | None => mret ()
  | Some fd =>
    dup2 fd 1;; close fd;;
    match tmp_fd with Some t => close t | None => mret () end;;
    pid ← gets self_pid;
    deliver_output (builtin_tmp_name pid) (outs.*1)
  end.
Definition restore_in (saved : option nat) : M sys unit :=
  match saved with
  | None => mret ()
  | Some fd => dup2 fd 0;; close fd
  end.

(** The body of [exec_cmd] around the command [body]. *)
Definition with_redirections (ins : list (list ascii)) (outs : list (list ascii * bool))
    (body : M cshell (option unit)) : M cshell (option unit) :=
  '(ok, saved_stdin) ← on_csys (redirect_in ins);
  '(ok, saved_stdout, tmp_out_fd) ← on_csys (redirect_out ok outs);
  r ← (if ok : bool then body else mret (Some ()));
  match r with
  | None => mret None
  | Some _ =>
    on_csys (restore_out saved_stdout tmp_out_fd outs);;
    on_csys (restore_in saved_stdin);;
    mret (Some ())
  end.

Definition exec_cmd (tokens : list Token) : M cshell (option unit) :=
  match tokens with
  | [] => mret (Some ())
  | t :: _ =>
    if negb (is_builtin_name (value t)) then on_shell (execute_pipeline tokens)
    else
      match strip_redirections tokens with
      | None => stuck
      | Some (tokens', ins, outs) => with_redirections ins outs (run_builtin tokens')
      end
  end.
End code.

(** ** Taking the redirections out of a line *)

(** The pieces of a command line: a token that is not a redirection operator,
    [< file], [> file] or [>> file]. *)
Inductive item := IArg (t : Token) | IIn (f : list ascii) | IOut (f : list ascii) (append : bool).
Definition item_ok (i : item) : Prop :=
  match i with
  | IArg t => type t ≠ TOKEN_OP_LT ∧ type t ≠ TOKEN_OP_GT ∧ type t ≠ TOKEN_OP_GTGT
  | _ => True
  end.
#[export] Instance item_ok_dec i : Decision (item_ok i).
Proof. destruct i; simpl; apply _. Defined.
Definition render (i : item) : list Token :=
  match i with
  | IArg t => [t]
  | IIn f => [mkToken TOKEN_OP_LT (lit "<"); mkToken TOKEN_WORD f]
  | IOut f true => [mkToken TOKEN_OP_GTGT (lit ">>"); mkToken TOKEN_WORD f]
  | IOut f false => [mkToken TOKEN_OP_GT (lit ">"); mkToken TOKEN_WORD f]
  end.
Definition item_arg (i : item) : option Token := match i with IArg t => Some t | _ => None end.
Definition item_in (i : item) : option (list ascii) := match i with IIn f => Some f | _ => None end.
Definition item_out (i : item) : option (list ascii * bool) :=
  match i with IOut f m => Some (f, m) | _ => None end.

Lemma strip_loop_arg t rest ins outs :
  item_ok (IArg t) →
  strip_loop (t :: rest) ins outs = '(ts, i, o) ← strip_loop rest ins outs; Some (t :: ts, i, o).
Proof.
  intros (H1 & H2 & H3). cbn [strip_loop]. unfold ttype_eqb. rewrite !bool_decide_false by done.
  by destruct rest.
Qed.

Lemma strip_loop_items items ins outs :
  Forall item_ok items → (length ins ≤ FILES_MAX)%nat → (length outs ≤ FILES_MAX)%nat →
  strip_loop (items ≫= render) ins outs =
  if decide (length ins + length (omap item_in items) ≤ FILES_MAX ∧
             length outs + length (omap item_out items) ≤ FILES_MAX)%nat
  then Some (omap item_arg items, ins ++ omap item_in items, outs ++ omap item_out items)
  else None.
Proof.
  intros Hok. revert ins outs; induction Hok as [|x items Hx _ IH]; intros ins outs Hi Ho.
  { simpl. rewrite !app_nil_r, decide_True by lia. done. }
  rewrite bind_cons. destruct x as [t|f|f m].
  - cbn [render app omap list_omap item_arg item_in item_out]. rewrite strip_loop_arg by done.
    rewrite IH by done. by case_decide.
  - cbn [render app omap list_omap item_arg item_in item_out length strip_loop type value].
    change (ttype_eqb TOKEN_OP_LT TOKEN_OP_LT) with true.
    change (ttype_eqb TOKEN_WORD TOKEN_WORD) with true. cbn [orb andb].
    destruct (decide (length ins < FILES_MAX)%nat).
    + rewrite IH; [|rewrite length_app; simpl; lia|done]. rewrite length_app. simpl length.
      rewrite <-app_assoc. repeat case_decide; done || lia.
    + rewrite decide_False by lia. done.
  - assert (strip_loop (render (IOut f m) ++ (items ≫= render)) ins outs =
      if decide (length outs < FILES_MAX)%nat
      then strip_loop (items ≫= render) ins (outs ++ [(f, m)]) else None) as -> by by destruct m.
    cbn [omap list_omap item_arg item_in item_out length].
    destruct (decide (length outs < FILES_MAX)%nat).
    + rewrite IH; [|done|rewrite length_app; simpl; lia]. rewrite length_app. simpl length.
      rewrite <-app_assoc. repeat case_decide; done || lia.
    + rewrite decide_False by lia. done.
Qed.

(** [strip_redirections] splits a builtin's line completely: the builtin
    sees its name and exactly the tokens that are not part of a redirection,
    in their order, as if no redirection had been typed; the input and output
    files come out in the order they were written, with their modes. With
    more than 16 input or 16 output redirections it writes past the end of
    the arrays of [exec_cmd]. *)
Theorem strip_redirections_split name items :
  Forall item_ok items →
  strip_redirections (name :: (items ≫= render)) =
  if decide (length (omap item_in items) ≤ FILES_MAX ∧ length (omap item_out items) ≤ FILES_MAX)%nat
  then Some (name :: omap item_arg items, omap item_in items, omap item_out items)
  else None.
Proof.
  intros Hok. unfold strip_redirections. rewrite strip_loop_items by (done || simpl; lia).
  simpl. by case_decide.
Qed.

Lemma strip_redirections_split_witness :
  let w s := mkToken TOKEN_WORD (lit s) in
  strip_redirections (w "peek"%string ::
    ([IArg (w "-n"%string); IIn (lit "a"); IOut (lit "o") true; IArg (w "-"%string)] ≫= render)) =
  Some ([w "peek"; w "-n"; w "-"]%string, [lit "a"], [(lit "o", true)]).
Proof.
  intros w. rewrite (strip_redirections_split (w "peek"%string)); [reflexivity|].
  apply (bool_decide_unpack _). vm_compute. exact I.
Defined.
