(* ===== verification/Frame.v ===== *)
(** What running a command leaves alone.

    Every command line, builtin or pipeline, redirected or not, failing or
    not, gives the shell back its descriptor table unchanged and keeps the job
    table well formed. The proofs follow the program text with the rules for
    [leads] (a Hoare triple for the state monad) and [preserves]. *)
From S2P Require Import Prelude CLib Lexer Sys Resolver Hop Peek Reveal.
From S2P Require Import Spy Redirection Jobs JobControl Pipeline Snoop Execute.

(** From [P], [m] returns in [Q] if it returns. *)
Definition leads {S A} (P : S → Prop) (m : M S A) (Q : S → Prop) : Prop :=
  ∀ s a s', P s → m s = Some (a, s') → Q s'.

Lemma leads_bind {S A B} (P R Q : S → Prop) (m : M S A) (f : A → M S B) :
  leads P m R → (∀ a, leads R (f a) Q) → leads P (m ≫= f) Q.
Proof. intros Hm Hf s b s' Hs (a & s1 & E1 & E2)%bind_Some. eapply Hf; [|exact E2]. by eapply Hm. Qed.

Lemma leads_assoc {S A B C} (P Q : S → Prop) (m : M S A) (f : A → M S B) (g : B → M S C) :
  leads P (m ≫= λ a, f a ≫= g) Q → leads P ((m ≫= f) ≫= g) Q.
Proof. intros H s a s' Hs E. rewrite bind_assoc in E. by eapply H. Qed.

Lemma leads_seq {S A B C} (P R Q : S → Prop) (m1 : M S A) (m2 : M S B) (k : B → M S C) :
  leads P (m1;; m2) R → (∀ b, leads R (k b) Q) → leads P (m1 ≫= λ _, m2 ≫= k) Q.
Proof.
  intros H1 H2 s a s' Hs E. rewrite <-(bind_assoc m1 (λ _, m2) k) in E.
  by eapply (leads_bind P R Q).
Qed.

Lemma leads_preserves {S A} (P : S → Prop) (m : M S A) : preserves P m → leads P m P.
Proof. done. Qed.

Lemma preserves_and {S A} (P Q : S → Prop) (m : M S A) :
  preserves P m → preserves Q m → preserves (λ s, P s ∧ Q s) m.
Proof. intros HP HQ s a s' [H1 H2] E. split; [by eapply HP|by eapply HQ]. Qed.

Lemma zoom_preserves {S T A} (get : T → S) put (P : S → Prop) (m : M S A) :
  (∀ s t, get (put s t) = s) → preserves P m → preserves (λ t, P (get t)) (zoom get put m).
Proof.
  intros Hg Hm t a t' Ht. unfold zoom. destruct (m (get t)) as [[x s]|] eqn:E; [|done].
  intros [= <- <-]. rewrite Hg. by eapply Hm.
Qed.

(** ** System calls and the commands that only make them *)

Section sys_commands.
Context `{Posix}.
Context (t : gmap nat fdobj).
Abbreviation keeps := (preserves (has_fds t)).

Lemma puts_fds text : keeps (puts text).
Proof. apply preserves_modify. intros s Hs. by destruct (fds s !! 1%nat) as [[]|]. Qed.
Lemma eputs_fds text : keeps (eputs text).
Proof. by apply preserves_modify. Qed.
Lemma unlink_fds name : keeps (unlink name).
Proof. unfold unlink, the_path. preserve. by apply preserves_modify. Qed.
Lemma append_file_fds p d : keeps (append_file p d).
Proof. by apply preserves_modify. Qed.
Lemma read_stdin_fds : keeps read_stdin.
Proof.
  intros s a s' Hs. unfold read_stdin. destruct (stdin_eof s); [by intros [= _ <-]|].
  destruct (fds s !! 0%nat) as [[]|]; try (by intros [= _ <-]).
  destruct (read_tty (tty s)) as [[[ls evs] e]|]; [|done]. by intros [= _ <-].
Qed.
Lemma lift_fds {A} (o : option A) : keeps (lift o).
Proof. destruct o; [apply preserves_ret|apply preserves_stuck]. Qed.

(** Opening a file, working and closing it again. *)
Lemma open_read_fds {A} name (k : option (nat * list ascii) → M sys A) :
  keeps (k None) →
  (∀ fd p, t !! fd = None → leads (has_fds (<[fd := OFile p]> t)) (k (Some (fd, p))) (has_fds t)) →
  keeps (open_read name ≫= k).
Proof.
  intros HN HS s a s' Hs (r & s1 & E1 & E)%bind_Some.
  destruct (open_read_Some _ _ _ _ E1) as [_ Hr]. destruct r as [[fd p]|].
  - destruct Hr as (_ & Hfd & Hfds & _). rewrite Hs in Hfd, Hfds. by eapply HS.
  - subst s1. by eapply HN.
Qed.
Lemma open_write_fds {A} b name (k : option (nat * list ascii) → M sys A) :
  keeps (k None) →
  (∀ fd p, t !! fd = None → leads (has_fds (<[fd := OFile p]> t)) (k (Some (fd, p))) (has_fds t)) →
  keeps (open_write b name ≫= k).
Proof.
  intros HN HS s a s' Hs (r & s1 & E1 & E)%bind_Some.
  unfold open_write, the_path, gets in E1. unfold mbind, M_bind, mret, M_ret in E1.
  destruct (os_can_write _); [|injection E1 as <- <-; by eapply HN].
  injection E1 as <- <-. eapply HS; [|  |exact E].
  - rewrite <-Hs. apply lowest_free_closed.
  - unfold has_fds in *. simpl. by rewrite Hs.
Qed.
Lemma close_leads fd p :
  t !! fd = None → leads (has_fds (<[fd := OFile p]> t)) (close fd) (has_fds t).
Proof.
  intros Hfd s a s' Hs [= _ <-]. unfold has_fds in *. simpl. rewrite Hs. by apply delete_insert_id.
Qed.
End sys_commands.

#[export] Hint Resolve puts_fds eputs_fds unlink_fds append_file_fds read_stdin_fds lift_fds
  copy_file_fds close_leads : cshell.

(** Follow the program text of a command that keeps the descriptors. *)
Ltac keep :=
  repeat match goal with
    | |- preserves _ (open_read _ ≫= _) => apply open_read_fds; [|intros ???]
    | |- preserves _ (open_write _ _ ≫= _) => apply open_write_fds; [|intros ???]
    | |- preserves _ (perror _) => apply eputs_fds
    | |- leads _ (close _) _ => by apply close_leads
    | |- leads _ (close _ ≫= _) _ => eapply leads_bind; [by apply close_leads|intros []]
    | |- leads _ ((_ ≫= _) ≫= _) _ => apply leads_assoc
    | |- leads _ (_ ≫= _) _ => eapply leads_bind; [apply leads_preserves|intros ?]
    | |- leads ?P _ ?P => apply leads_preserves
    | |- preserves _ (when ?b _) => destruct b; unfold when
    | |- preserves _ (mbind _ _) => apply preserves_bind; [|intros ?]
    | |- preserves _ (mret _) => apply preserves_ret
    | |- preserves _ (gets _) => apply preserves_gets
    | |- preserves _ stuck => apply preserves_stuck
    | |- preserves _ (mfor _ _) => apply preserves_mfor; intros ?
    | |- preserves _ (let '(_, _) := ?x in _) => destruct x
    | |- leads _ (let '(_, _) := ?x in _) _ => destruct x
    | |- preserves _ (match ?x with _ => _ end) => destruct x
    | |- preserves _ _ => solve [auto with cshell]
    end.

Section builtins.
Context `{Posix}.
Context (t : gmap nat fdobj).
Abbreviation keeps := (preserves (has_fds t)).

Lemma run_locate_fds tokens : keeps (run_locate tokens).
Proof.
  assert (∀ dirs cmd f, keeps (locate_path dirs cmd f)) as Hp.
  { induction dirs as [|d dirs IH]; intros cmd f; cbn [locate_path]; keep; apply IH. }
  unfold run_locate, locate_one. keep; apply Hp.
Qed.

Lemma reveal_dir_fds fuel p rel a b : keeps (reveal_dir fuel p rel a b).
Proof.
  revert p rel; induction fuel as [|fuel IH]; intros p rel; cbn [reveal_dir]; [keep|].
  unfold print_entry_name. keep; apply IH.
Qed.
Lemma run_reveal_fds fuel home prev tokens : keeps (run_reveal fuel home prev tokens).
Proof. unfold run_reveal, reveal_syntax, reveal_missing. keep; apply reveal_dir_fds. Qed.

Lemma print_rows_fds rows : keeps (print_rows rows).
Proof. unfold print_rows. keep. Qed.
End builtins.

#[export] Hint Resolve print_rows_fds : cshell.

Section builtins2.
Context `{Posix}.
Context (t : gmap nat fdobj).
Abbreviation keeps := (preserves (has_fds t)).

Lemma run_spy_fds tokens : keeps (run_spy tokens).
Proof. unfold run_spy, spy_pid, spy_none. keep. Qed.

Lemma run_peek_fds tokens : keeps (run_peek tokens).
Proof.
  assert (∀ f names n, (∀ name n, keeps (f name n)) → keeps (peek_all f names n)) as Hall.
  { intros f names. induction names as [|x names IH]; intros n Hf; cbn [peek_all]; keep; auto. }
  unfold run_peek. keep; apply Hall; intros name k; unfold peek_rn, peek_one, with_file; keep.
Qed.

Lemma load_entries_fds : keeps load_entries.
Proof. unfold load_entries. keep. Qed.
Lemma record_visit_fds d n : keeps (record_visit d n).
Proof. unfold record_visit, save_entries. keep; try apply load_entries_fds. Qed.
Lemma frecency_lookup_fds name n : keeps (frecency_lookup name n).
Proof. unfold frecency_lookup. keep; apply load_entries_fds. Qed.

Abbreviation hkeeps := (preserves (λ h, has_fds t (h_sys h))).
Lemma hsys_fds {A} (m : M sys A) : keeps m → hkeeps (hsys m).
Proof. apply zoom_preserves. done. Qed.

Lemma do_chdir_fds d : hkeeps (do_chdir d).
Proof.
  unfold do_chdir, no_such_directory. keep; try (apply hsys_fds);
    try apply eputs_fds; try apply record_visit_fds; by apply preserves_modify.
Qed.
Lemma hop_one_fds a : hkeeps (hop_one a).
Proof.
  unfold hop_one, no_such_directory. keep; try apply do_chdir_fds; apply hsys_fds;
    [apply frecency_lookup_fds|apply eputs_fds].
Qed.
Lemma run_hop_fds tokens : hkeeps (run_hop tokens).
Proof.
  assert (∀ args, hkeeps (hop_args args)) as Ha.
  { induction args as [|a args IH]; cbn [hop_args]; keep; apply hop_one_fds || apply IH. }
  unfold run_hop. keep; apply hop_one_fds || apply Ha.
Qed.

(** Finishing the output of a child. *)
Lemma deliver_output_fds name targets : keeps (deliver_output name targets).
Proof.
  intros s [] s' Hs (rs & s1 & E1 & E)%bind_Some.
  destruct (open_targets_total targets s) as (rs' & t1 & m & E1' & _ & Ht).
  rewrite E1' in E1. injection E1 as <- <-. rewrite <-bind_assoc in E.
  apply bind_Some in E as ([] & s2 & E2 & E). apply bind_Some in E as ([] & s3 & E3 & E).
  rewrite close_all in E. injection E as <-. unfold has_fds in *. simpl.
  assert (fds s3 = t1) as ->; [|congruence].
  apply (unlink_fds t1) in E3; [done|]. revert E2. apply (open_read_fds t1); [keep|intros ???; keep|done].
Qed.
End builtins2.

Section registry.
Context `{Posix}.
Context (t : gmap nat fdobj).
Abbreviation rkeeps := (preserves (r_has_fds t)).

Lemma on_sys_fds {A} (m : M sys A) : preserves (has_fds t) m → rkeeps (on_sys m).
Proof. apply on_sys_preserves. Qed.

Lemma finalize_fds pid : rkeeps (outreg_finalize pid).
Proof.
  unfold outreg_finalize. keep. apply on_sys_fds, deliver_output_fds.
Qed.

Lemma next_delivery_fds r d r' : r_has_fds t r → next_delivery r = Some (d, r') → r_has_fds t r'.
Proof.
  unfold next_delivery, r_has_fds. destruct (deliveries (r_sys r)) as [|d0 ds]; [done|].
  intros Hr [= <- <-]. destruct d0 as [evs w|]; simpl; [|done]. by rewrite apply_written_kept.
Qed.
End registry.

(** ** The job table over a host

    What the host's operations keep, the job table's operations keep. *)

Section jobs.
Context {F : Type} `{Host F} (P : F → Prop).
Context (Hputs : ∀ msg, preserves P (h_puts msg)).
Context (Hfin : ∀ pid, preserves P (h_finalize pid)).
Context (Hkill : ∀ pid sig, preserves P (h_kill pid sig)).
Context (Hnext : ∀ f d f', P f → h_next f = Some (d, f') → P f').
Abbreviation jkeeps := (preserves (λ s : jstate F, P (ext s))).

Lemma on_ext_keeps {A} (m : M F A) : preserves P m → jkeeps (on_ext m).
Proof. apply zoom_preserves. done. Qed.
Lemma jobs_flush_keeps : jkeeps jobs_flush_notifications.
Proof. unfold jobs_flush_notifications. keep. apply on_ext_keeps, Hputs. Qed.
Lemma jobs_register_keeps g ps c b st : jkeeps (jobs_register g ps c b st).
Proof. unfold jobs_register. keep. Qed.
Lemma jobs_remove_keeps n : jkeeps (jobs_remove n).
Proof. apply preserves_modify. intros s Hs. by destruct (index_of _ _). Qed.
Lemma handle_tracked_keeps pid st : jkeeps (handle_tracked_event pid st).
Proof.
  unfold handle_tracked_event, process_exited, queue_notification. keep;
    try apply jobs_remove_keeps; try apply on_ext_keeps, Hfin; try by apply preserves_modify.
  all: apply preserves_modify; intros s Hs; by destruct (decide _).
Qed.
Lemma take_pending_keeps : jkeeps take_pending.
Proof. intros s a s' Hs. unfold take_pending. by destruct (pending s); intros [= _ <-]. Qed.
Lemma jobs_process_pending_keeps : jkeeps jobs_process_pending.
Proof.
  unfold jobs_process_pending. keep. generalize (S a). intros n.
  induction n as [|n IH]; cbn [drain]; keep; try apply IH;
    [apply take_pending_keeps|apply handle_tracked_keeps].
Qed.
Lemma jobs_wait_foreground_keeps pids ab : jkeeps (jobs_wait_foreground pids ab).
Proof.
  unfold jobs_wait_foreground. keep. generalize false at 1. generalize (replicate JOB_MAX_PROCS false).
  generalize 0%nat. induction a as [|a IH]; intros n dl b; cbn [wait_loop]; [keep|].
  case_decide; [keep|]. apply preserves_bind; [keep|intros timed_out].
  destruct (negb b && ab && timed_out); [keep|].
  apply preserves_bind; [destruct b; keep; apply take_pending_keeps|intros [[pid st]|]].
  { keep; try apply IH; try apply handle_tracked_keeps; apply on_ext_keeps, Hfin. }
  intros s x s' Hs (d & s1 & [= <- <-] & E)%bind_Some.
  destruct (h_next (ext s)) as [[d f]|] eqn:En; [|by injection E as _ <-].
  apply Hnext in En; [|done]. destruct d; apply bind_Some in E as ([] & s2 & [= <-] & E);
    apply bind_Some in E as ([] & s3 & [= <-] & E); by eapply IH, E.
Qed.
Lemma jobs_print_activities_keeps : jkeeps jobs_print_activities.
Proof. unfold jobs_print_activities. keep. apply on_ext_keeps, Hputs. Qed.
Lemma jobs_sighup_all_keeps : jkeeps jobs_sighup_all.
Proof. unfold jobs_sighup_all. keep. apply on_ext_keeps, Hkill. Qed.
End jobs.

(** ** The shell *)

Section shell.
Context `{Posix}.
Context (t : gmap nat fdobj).

(** The descriptor table is [t] and the job table is well formed. *)
Definition shell_inv (s : shell) : Prop := fds (sys_of s) = t ∧ jobs_wf s.
Abbreviation skeeps := (preserves shell_inv).

Lemma skeeps_split {A} (m : M shell A) :
  preserves (λ s, r_has_fds t (ext s)) m → preserves jobs_wf m → skeeps m.
Proof. intros H1 H2. by apply preserves_and. Qed.

Lemma host_fds :
  (∀ msg, preserves (r_has_fds t) (h_puts msg)) ∧
  (∀ pid, preserves (r_has_fds t) (h_finalize pid)) ∧
  (∀ pid sig, preserves (r_has_fds t) (h_kill pid sig)) ∧
  (∀ f d f', r_has_fds t f → h_next f = Some (d, f') → r_has_fds t f').
Proof.
  split_and!; intros.
  - apply on_sys_fds, puts_fds.
  - apply finalize_fds.
  - apply on_sys_fds. by apply preserves_modify.
  - by eapply next_delivery_fds.
Qed.

Lemma sh_ext_inv {A} (m : M rstate A) : preserves (r_has_fds t) m → skeeps (on_ext m).
Proof. intros Hm. apply skeeps_split; [by apply on_ext_keeps|apply on_ext_wf]. Qed.
Lemma sh_sys_inv {A} (m : M sys A) : preserves (has_fds t) m → skeeps (sh_sys m).
Proof. intros Hm. by apply sh_ext_inv, on_sys_fds. Qed.

Lemma jobs_flush_inv : skeeps jobs_flush_notifications.
Proof. apply skeeps_split; [apply jobs_flush_keeps, host_fds|apply jobs_flush_wf]. Qed.
Lemma jobs_register_inv g ps c b st : skeeps (jobs_register g ps c b st).
Proof. apply skeeps_split; [apply jobs_register_keeps|apply jobs_register_wf]. Qed.
Lemma jobs_remove_inv n : skeeps (jobs_remove n).
Proof. apply skeeps_split; [apply jobs_remove_keeps|apply jobs_remove_wf]. Qed.
Lemma set_state_inv i st : skeeps (update_job i (set_state st)).
Proof. apply skeeps_split; [by apply preserves_modify|by apply update_job_wf]. Qed.
Lemma jobs_process_pending_inv : skeeps jobs_process_pending.
Proof.
  apply skeeps_split; [apply jobs_process_pending_keeps, host_fds|].
  unfold jobs_process_pending. keep. apply drain_wf.
Qed.
Lemma jobs_wait_inv pids ab : skeeps (jobs_wait_foreground pids ab).
Proof.
  apply skeeps_split; [apply jobs_wait_foreground_keeps; apply host_fds|].
  unfold jobs_wait_foreground. keep. apply wait_loop_wf.
Qed.
Lemma jobs_sigchld_inv evs : skeeps (jobs_sigchld_handler evs).
Proof. apply skeeps_split; [by apply preserves_modify|apply jobs_sigchld_wf]. Qed.
Lemma jobs_print_activities_inv : skeeps jobs_print_activities.
Proof.
  apply skeeps_split; [apply jobs_print_activities_keeps, host_fds|].
  unfold jobs_print_activities. keep. apply on_ext_wf.
Qed.
Lemma jobs_sighup_all_inv : skeeps jobs_sighup_all.
Proof.
  apply skeeps_split; [apply jobs_sighup_all_keeps, host_fds|].
  unfold jobs_sighup_all. keep. apply on_ext_wf.
Qed.
Lemma tcsetpgrp_fds g : preserves (has_fds t) (tcsetpgrp g).
Proof. apply preserves_modify. intros s Hs. by destruct (0 <? g). Qed.
Lemma reclaim_fds : preserves (has_fds t) term_reclaim.
Proof. unfold term_reclaim. keep. apply tcsetpgrp_fds. Qed.
Lemma send_signal_fds p sig : preserves (has_fds t) (send_signal p sig).
Proof. by apply preserves_modify. Qed.
Lemma set_timed_out_inv b : skeeps (modify (set_timed_out b)).
Proof.
  apply preserves_modify. intros s [H1 H2]. split; [done|]. by eapply wf_ext; [..|exact H2].
Qed.
End shell.

#[export] Hint Resolve jobs_flush_inv jobs_register_inv jobs_remove_inv set_state_inv jobs_wait_inv
  jobs_print_activities_inv set_timed_out_inv tcsetpgrp_fds reclaim_fds send_signal_fds finalize_fds
  jobs_process_pending_inv jobs_sigchld_inv jobs_sighup_all_inv : cshell.
#[export] Hint Extern 2 (preserves (shell_inv _) (sh_sys _)) => apply sh_sys_inv : cshell.
#[export] Hint Extern 2 (preserves (shell_inv _) (on_ext _)) => apply sh_ext_inv : cshell.
#[export] Hint Extern 2 (preserves (r_has_fds _) (on_sys _)) => apply on_sys_fds : cshell.

Section commands.
Context `{Posix} `{Tracer} (reveal_fuel : nat).
Context (t : gmap nat fdobj).
Abbreviation skeeps := (preserves (shell_inv t)).

Lemma run_ping_inv tokens : skeeps (run_ping tokens).
Proof. unfold run_ping, ping_syntax, ping_target, ping_none, ping_sent. keep. Qed.

Lemma run_resume_inv tokens : skeeps (run_resume tokens).
Proof.
  unfold run_resume, resume_fg, after_wait, report_timeout, report_stopped, finish_job, term_give_to.
  keep.
Qed.

Lemma execute_pipeline_inv tokens : skeeps (execute_pipeline tokens).
Proof.
  unfold execute_pipeline. generalize (S (length tokens)) as fuel. intros fuel.
  revert tokens; induction fuel as [|fuel IH]; intros ts; cbn [pipeline_loop]; [keep|].
  assert (∀ s e, preserves (r_has_fds t) (start_group s e)) as Hstart.
  { intros s e r l r' Hr E. unfold r_has_fds. by rewrite (start_group_no_leak _ _ _ _ _ E). }
  unfold launch_group, run_foreground, term_give_to. keep; try apply IH; apply sh_ext_inv, Hstart.
Qed.

(** [drop_snoop_in] undoes [setup_input]. *)
Lemma snoop_in_dropped ins i v s s1 s2 s3 :
  setup_input ins i s = Some (v, s1) → fds s2 = fds s1 →
  drop_snoop_in v s2 = Some ((), s3) → fds s3 = fds s.
Proof.
  intros E1%setup_input_fds E2. unfold drop_snoop_in, when.
  destruct E1 as [(Hv & _ & _ & E)|[Hv E]].
  - rewrite (proj2 (Z.leb_le _ _) Hv). intros [= <-]. simpl. by rewrite E2.
  - rewrite (proj2 (Z.leb_gt _ _) Hv). intros [= <-]. by rewrite E2.
Qed.

Lemma trace_and_report_fds child b :
  preserves (r_has_fds t)
    (trace_and_report tr_of_long tr_add tr_div tr_fmt3 tr_stops child b).
Proof. unfold trace_and_report, print_summary. keep. Qed.

Lemma snoop_command_fds cmd st :
  preserves (r_has_fds t)
    (snoop_command tr_of_long tr_add tr_div tr_fmt3 tr_first_exits tr_stops cmd st).
Proof.
  unfold snoop_command. apply preserves_bind; [keep|intros [path|]].
  2:{ unfold snoop_not_found. keep. }
  intros r a r' Hr (v & r1 & E1 & E)%bind_Some.
  assert (∃ i, on_sys (setup_input (in_files st) i) r = Some (v, r1)) as (i & Es).
  { clear E. destruct (decide (0 < length (in_files st))%nat) as [Hd|Hd]; [by exists 9002|].
    exists 0. injection E1 as <- <-.
    destruct (in_files st); [|simpl in Hd; lia]. by destruct r. }
  apply on_sys_Some in Es as (s1 & Es & ->). clear E1.
  destruct (_ && _) eqn:Hb.
  { injection E as _ <-. apply andb_true_iff in Hb as [_ Hv%Z.ltb_lt].
    apply setup_input_fds in Es as [?|[_ E]]; [lia|]. by unfold r_has_fds; simpl; rewrite E. }
  apply bind_Some in E as (w & r2 & E2 & E).
  assert (r_has_fds (fds s1) r2) as H2.
  { clear E. destruct (decide (0 < length (out_files st))%nat); [|by injection E2 as _ <-].
    apply on_sys_Some in E2 as (s2 & E2 & ->).
    by apply (outreg_validate_fds (fds s1)) in E2. }
  destruct (w <? 0).
  { apply bind_Some in E as ([] & r3 & E3 & E). apply on_sys_Some in E3 as (s3 & E3 & ->).
    injection E as _ <-. unfold r_has_fds in *. simpl. rewrite <-Hr. by eapply snoop_in_dropped. }
  apply bind_Some in E as (child & r3 & E3 & E). apply on_sys_Some in E3 as (s3 & E3 & ->).
  assert (fds s3 = fds s1) as H3.
  { unfold fork in E3. destruct (forks (r_sys r2)); [done|]. by injection E3 as _ <-. }
  apply bind_Some in E as ([] & r4 & E4 & E). apply on_sys_Some in E4 as (s4 & E4 & ->).
  assert (fds s4 = fds s1) as H4.
  { unfold when in E4. destruct (0 <? child); [|by injection E4 as <-].
    unfold run_snoop_child in E4. simpl in E4. destruct (snoop_child _ _ _ s3) as [[? c]|]; [|done].
    by injection E4 as <-. }
  apply bind_Some in E as ([] & r5 & E5 & E). apply on_sys_Some in E5 as (s5 & E5 & ->).
  pose proof (snoop_in_dropped _ _ _ _ _ _ _ Es H4 E5) as H5. rewrite Hr in H5.
  apply bind_Some in E as ([] & r6 & E6 & E). apply (register_fds t) in E6; [|done].
  destruct (tr_first_exits child).
  - apply bind_Some in E as ([] & r7 & E7 & E). apply (finalize_fds t) in E7; [|done].
    by injection E as _ <-.
  - by eapply trace_and_report_fds.
Qed.

Lemma run_snoop_fds tokens :
  preserves (r_has_fds t) (run_snoop tr_of_long tr_add tr_div tr_fmt3 tr_first_exits tr_stops
    tr_attachable tokens).
Proof.
  unfold run_snoop, snoop_not_found, snoop_no_process.
  keep; apply trace_and_report_fds || apply snoop_command_fds.
Qed.

(** The invariant of the whole shell. *)
Definition cshell_inv (c : cshell) : Prop := shell_inv t (c_shell c).
Abbreviation ckeeps := (preserves cshell_inv).

Lemma on_shell_inv {A} (m : M shell A) : skeeps m → ckeeps (on_shell m).
Proof. by apply (zoom_preserves c_shell put_shell). Qed.
Lemma on_hop_inv {A} (m : M hstate A) :
  preserves (λ h, has_fds t (h_sys h)) m → ckeeps (on_hop m).
Proof.
  intros Hm c a c' [Hc Hwf]. unfold on_hop, zoom.
  destruct (m (get_hop c)) as [[x h]|] eqn:E; [|done]. intros [= <- <-]. split.
  - by apply Hm in E.
  - by eapply wf_ext; [..|exact Hwf].
Qed.
Lemma run_builtin_inv tokens : ckeeps (run_builtin reveal_fuel tokens).
Proof.
  unfold run_builtin, always. keep.
  all: try apply on_hop_inv, run_hop_fds.
  all: try apply on_shell_inv.
  all: try apply sh_sys_inv.
  all: try apply run_reveal_fds.
  all: try apply run_locate_fds.
  all: try apply run_peek_fds.
  all: try apply run_spy_fds.
  all: try apply run_ping_inv.
  all: try apply run_resume_inv.
  all: try apply jobs_print_activities_inv.
  all: apply sh_ext_inv, run_snoop_fds.
Qed.
End commands.

(** ** Redirecting the shell itself *)

Section redirect.
Context `{Posix} `{Tracer} (reveal_fuel : nat).

(** The table while descriptor [std] points elsewhere and [saved] holds what
    it pointed to before. *)
Definition saved_in (t : gmap nat fdobj) (std : nat) (saved : option nat) (t' : gmap nat fdobj) : Prop :=
  match saved with
  | None => t' = t
  | Some fd => t !! fd = None ∧
      ∃ o o', t !! std = Some o ∧ t' = <[std := o']> (<[fd := o]> t)
  end.

Lemma dup_spec std s o :
  fds s !! std = Some o →
  dup std s = Some (Some (lowest_free (fds s)),
                    set_fds (<[lowest_free (fds s) := o]> (fds s)) s).
Proof. intros E. unfold dup. rewrite (bind_eq _ _ _ (Some o) s); [done|]. unfold gets. by rewrite E. Qed.

Lemma redirect_in_fds ins s ok saved s' :
  is_Some (fds s !! 0%nat) → redirect_in ins s = Some ((ok, saved), s') →
  saved_in (fds s) 0 saved (fds s').
Proof.
  intros [o Ho]. unfold redirect_in. destruct ins as [|f ins]; [by intros [= _ <- <-]|].
  intros (v & s1 & E1 & E)%bind_Some. apply setup_input_fds in E1.
  destruct (v <? 0) eqn:Hv.
  { injection E as _ <- <-. destruct E1 as [?|[_ ?]]; [lia|done]. }
  destruct E1 as [(_ & Hf & [ov Hov] & Hd)|[? _]]; [|lia]. set (n := Z.to_nat v) in *.
  assert (n ≠ 0%nat) as Hn by (intros Hn; rewrite Hn in Hf; congruence).
  assert (fds s1 !! 0%nat = Some o) as Hz by (by rewrite <-Ho, <-Hd, lookup_delete_ne).
  rewrite (bind_eq _ _ _ _ _ (dup_spec _ _ _ Hz)) in E.
  pose proof (lowest_free_closed (fds s1)) as Hm. set (m := lowest_free (fds s1)) in *.
  assert (m ≠ n) by congruence. assert (m ≠ 0%nat) by congruence.
  apply bind_Some in E as ([] & s2 & E2 & E). unfold dup2, modify in E2. simpl in E2.
  rewrite lookup_insert_ne, Hov in E2 by done. injection E2 as <-.
  injection E as _ <- <-. simpl. split; [by rewrite <-Hd, lookup_delete_ne|].
  exists o, ov. split; [done|]. rewrite delete_insert_ne, delete_insert_ne, Hd by done. done.
Qed.

Lemma restore_in_fds t std fd o o' :
  t !! fd = None → t !! std = Some o →
  leads (has_fds (<[std := o']> (<[fd := o]> t))) (dup2 fd std;; close fd) (has_fds t).
Proof.
  intros Hfd Hstd s [] s' Hs ([] & s1 & E1 & E)%bind_Some. unfold dup2, modify in E1.
  assert (fd ≠ std) by congruence. unfold has_fds in *.
  rewrite Hs, lookup_insert_ne, lookup_insert_eq in E1 by done. injection E1 as <-.
  injection E as <-. simpl. rewrite insert_insert_eq, (insert_insert_ne t) by done.
  rewrite delete_insert_id by by rewrite lookup_insert_ne. by apply insert_id.
Qed.

(** While the output is redirected a third descriptor is the temporary file. *)
Lemma redirect_out_fds ok outs s ok' saved tmp s' :
  is_Some (fds s !! 1%nat) → redirect_out ok outs s = Some ((ok', saved, tmp), s') →
  ∃ t', saved_in t' 1 saved (fds s') ∧
    match tmp with
    | None => t' = fds s
    | Some fd => fds s !! fd = None ∧ is_Some saved ∧ ∃ p, t' = <[fd := OFile p]> (fds s)
    end.
Proof.
  intros [o Ho]. unfold redirect_out. destruct (ok && _).
  2:{ intros [= _ <- <- <-]. by exists (fds s). }
  intros (v & s1 & E1 & E)%bind_Some. apply (outreg_validate_fds (fds s)) in E1; [|done].
  unfold has_fds in E1. destruct (v <? 0); [injection E as _ <- <- <-; by exists (fds s)|].
  apply bind_Some in E as (pid & s2 & [= <- <-] & E).
  apply bind_Some in E as (r & s2 & E2 & E).
  unfold open_write, the_path, gets, mbind, M_bind, mret, M_ret in E2.
  destruct (os_can_write _); injection E2 as <- <-.
  - set (p := cwd s1 ++ _) in *. simpl in E. pose proof (lowest_free_closed (fds s1)) as Hn. rewrite E1 in *.
    set (n := lowest_free (fds s)) in *. assert (n ≠ 1%nat) by congruence.
    set (t' := <[n := OFile p]> (fds s)) in *.
    assert (t' !! 1%nat = Some o) as Ho1 by (unfold t'; by rewrite lookup_insert_ne).
    rewrite (bind_eq _ _ _ _ _ (dup_spec 1 (set_fds t' _) o Ho1)) in E. simpl in E.
    pose proof (lowest_free_closed t') as Hm. set (m := lowest_free t') in *.
    assert (m ≠ n) by (intros Hmn; unfold t' in Hm; rewrite Hmn, lookup_insert_eq in Hm; done).
    apply bind_Some in E as ([] & s3 & E3 & E). injection E as _ <- <- <-.
    unfold dup2, modify in E3. simpl in E3.
    rewrite lookup_insert_ne in E3 by done. unfold t' in E3 at 1.
    rewrite lookup_insert_eq in E3. injection E3 as <-. simpl.
    exists t'. split; [|split_and!; [done|eauto|by exists p]]. split; [done|]. by exists o, (OFile p).
  - rewrite <-E1 in Ho. rewrite (bind_eq _ _ _ _ _ (dup_spec 1 s1 o Ho)) in E. simpl in E.
    apply bind_Some in E as ([] & s3 & E3 & E). injection E as _ <- <- <-.
    injection E3 as <-. rewrite <-E1. exists (fds s1). split; [|done]. simpl.
    pose proof (lowest_free_closed (fds s1)) as Hm. split; [done|]. exists o, o. split; [done|].
    symmetry. apply insert_id. rewrite lookup_insert_ne by congruence. done.
Qed.

Lemma restore_out_fds t saved tmp outs t' t'' :
  saved_in t' 1 saved t'' →
  match tmp with
  | None => t' = t
  | Some fd => t !! fd = None ∧ is_Some saved ∧ ∃ p, t' = <[fd := OFile p]> t
  end →
  leads (has_fds t'') (restore_out saved tmp outs) (has_fds t).
Proof.
  intros Hs Ht. unfold restore_out. destruct saved as [fd|].
  2:{ simpl in Hs. subst t''. destruct tmp; [destruct Ht as (_ & [? ?] & _); done|].
      subst t'. apply leads_preserves. keep. }
  destruct Hs as (Hfd & o & o' & Ho & ->).
  eapply leads_seq; [by apply restore_in_fds|intros []].
  eapply leads_bind; [|intros []; apply leads_preserves; keep; apply deliver_output_fds].
  destruct tmp as [n|].
  - destruct Ht as (Hn & _ & p & ->). by apply close_leads.
  - subst t'. apply leads_preserves. keep.
Qed.

Lemma on_csys_Some {A} (m : M sys A) c a c' :
  on_csys m c = Some (a, c') →
  ∃ s', m (c_sys c) = Some (a, s') ∧ c_sys c' = s' ∧ (jobs_wf (c_shell c) → jobs_wf (c_shell c')).
Proof.
  unfold on_csys, on_shell, sh_sys, on_ext, on_sys, zoom, c_sys, sys_of.
  destruct (m _) as [[x s']|]; [|done]. intros [= <- <-]. exists s'. split_and!; [done|done|].
  intros Hwf. by eapply wf_ext; [..|exact Hwf].
Qed.

(** Whatever the command keeps, whatever table it starts from, is kept around
    it, and the table is restored. *)
Lemma with_redirections_inv ins outs body c c' :
  (∀ t, preserves (cshell_inv t) body) →
  is_Some (fds (c_sys c) !! 0%nat) → is_Some (fds (c_sys c) !! 1%nat) →
  jobs_wf (c_shell c) → with_redirections ins outs body c = Some (Some (), c') →
  cshell_inv (fds (c_sys c)) c'.
Proof.
  intros Hbody Hin Hout Hwf ([ok si] & c1 & E1 & E)%bind_Some.
  apply on_csys_Some in E1 as (s1 & E1 & <- & Hwf1). apply redirect_in_fds in E1; [|done].
  assert (is_Some (fds (c_sys c1) !! 1%nat)) as Hout1.
  { destruct si as [fd|]; [|by rewrite E1]. destruct E1 as (_ & o & o' & _ & ->).
    rewrite lookup_insert_ne, lookup_insert by done. by case_decide. }
  apply bind_Some in E as ([[ok' so] tmp] & c2 & E2 & E).
  apply on_csys_Some in E2 as (s2 & E2 & <- & Hwf2).
  apply redirect_out_fds in E2 as (t' & Hso & Htmp); [|done].
  apply bind_Some in E as (r & c3 & E3 & E).
  assert (cshell_inv (fds (c_sys c2)) c3) as [H3 Hwf3].
  { destruct ok'; [eapply Hbody; [|exact E3]|injection E3 as _ <-]; split; auto. }
  destruct r as [[]|]; [|done].
  apply bind_Some in E as ([] & c4 & E4 & E). apply on_csys_Some in E4 as (s4 & E4 & <- & Hwf4).
  eapply (restore_out_fds (fds (c_sys c1))) in E4; [|done|done|exact H3].
  apply bind_Some in E as ([] & c5 & E5 & E). apply on_csys_Some in E5 as (s5 & E5 & <- & Hwf5).
  injection E as <-. split; [|auto].
  destruct si as [fd|]; simpl in E5, E1.
  - destruct E1 as (Hfd & o & o' & Ho & Et). rewrite Et in E4. by eapply restore_in_fds.
  - injection E5 as E5. change (fds (c_sys c5) = fds (c_sys c)). by rewrite <-E5, <-E1.
Qed.

Lemma exec_cmd_inv tokens c c' :
  is_Some (fds (c_sys c) !! 0%nat) → is_Some (fds (c_sys c) !! 1%nat) →
  jobs_wf (c_shell c) → exec_cmd reveal_fuel tokens c = Some (Some (), c') →
  cshell_inv (fds (c_sys c)) c'.
Proof.
  intros Hin Hout Hwf. unfold exec_cmd. destruct tokens as [|tok ts].
  { intros [= <-]. by split. }
  destruct (negb _).
  - apply on_shell_inv; [apply execute_pipeline_inv|by split].
  - destruct (strip_redirections _) as [[[ts' ins] outs]|]; [|done].
    apply with_redirections_inv; [|done..]. intros t. apply run_builtin_inv.
Qed.
End redirect.
