(* ===== verification/Main.v ===== *)
(** The main loop: [c-shell/src/main.c].

    Each round flushes the notifications, shows the prompt and reads a line.
    An interrupted read handles the finished jobs; the end of the file ends
    the shell, after one warning if there are stopped jobs. The read is from
    the stream [stdin], whose end-of-file flag stays set until [clearerr]. *)
From S2P Require Import Prelude CLib Lexer Parser Sys Resolver Hop.
From S2P Require Import Redirection Jobs JobControl Pipeline Prompt Execute Frame.

(** What [getline(&line, &len, stdin)] reports; the events of an interrupted
    read are those of the [SIGCHLD] that interrupted it, if any. *)
Inductive read_result :=
| RLine (text : list ascii)
| REof
| REintr (events : list (Z * wstatus)).

(** [None] when the terminal gives nothing more: the shell waits. *)
Definition getline_stdin : M sys (option read_result) := λ s,
  if stdin_eof s then Some (Some REof, s)
  else
    match fds s !! 0%nat with
    | Some OTty =>
      match tty s with
      | [] => Some (None, s)
      | TLine text :: evs => Some (Some (RLine text), set_tty evs s)
      | TEof :: evs => Some (Some REof, set_stdin_eof true (set_tty evs s))
      | TIntr events written :: evs =>
        Some (Some (REintr events), apply_written written (set_tty evs s))
      end
    | _ => Some (Some REof, set_stdin_eof true s)
    end.
Definition clearerr_stdin : M sys unit := modify (set_stdin_eof false).

(** The state of the loop. *)
Record mstate := mkMstate { m_shell : cshell; eof_warned : bool }.
Definition put_cshell (c : cshell) (m : mstate) : mstate := mkMstate c (eof_warned m).
Definition set_warned (b : bool) (m : mstate) : mstate := mkMstate (m_shell m) b.
Definition on_c {A} : M cshell A → M mstate A := zoom m_shell put_cshell.
Definition m_sys (m : mstate) : sys := c_sys (m_shell m).

(** How a round ends. *)
Inductive round := Next | Break | Wait.

Section code.
Context `{Posix} `{Tracer} (reveal_fuel : nat) (username hostname : option (list ascii)).

Definition invalid_syntax : M mstate round :=
  on_c (on_csys (eputs (line (lit "cshell: invalid syntax"))));; mret Next.

(** A line: [lex_input], [valid_syntax], [exec_cmd]. *)
Definition run_line (text : list ascii) : M mstate round :=
  match lex_input text with
  | LexOverflow => stuck
  | LexSyntax => invalid_syntax
  | LexOk [] => mret Next
  | LexOk tokens =>
    if valid_syntax tokens then
      r ← on_c (exec_cmd reveal_fuel tokens);
      mret (match r with Some _ => Next | None => Wait end)
    else invalid_syntax
  end.

(** The body of [while (1)]. *)
Definition main_round : M mstate round :=
  on_c (on_shell jobs_flush_notifications);;
  on_c (on_hop (display_prompt username hostname));;
  r ← on_c (on_csys getline_stdin);
  match r with
  | None => mret Wait
  | Some (REintr events) =>
    on_c (on_shell (jobs_sigchld_handler events));;
    on_c (on_shell jobs_process_pending);;
    on_c (on_csys clearerr_stdin);;
    mret Next
  | Some REof =>
    stopped ← gets (λ m, jobs_has_stopped (c_shell (m_shell m)));
    warned ← gets eof_warned;
    if stopped && negb warned then
      on_c (on_csys (eputs (line (lit "cshell: there are stopped jobs"))));;
      modify (set_warned true);;
      on_c (on_csys clearerr_stdin);;
      mret Next
    else
      on_c (on_csys (puts [c_nl]));;
      mret Break
  | Some (RLine text) =>
    modify (set_warned false);;
    run_line text
  end.

(** The loop; the result says whether the shell ended or waits forever. *)
Fixpoint main_loop (fuel : nat) : M mstate bool :=
  match fuel with
  | O => stuck
  | S fuel =>
    r ← main_round;
    match r with
    | Next => main_loop fuel
    | Wait => mret false
    | Break => on_c (on_shell jobs_sighup_all);; mret true
    end
  end.

(** What [main] does before the loop; [false] when it exits at once. *)
Definition main_init : M mstate bool :=
  ok ← on_c (on_hop init_homedir);
  if ok : bool then
    on_c (on_csys term_init);;
    on_c (on_shell jobs_init);;
    modify (set_warned false);;
    mret true
  else mret false.

(** ** The state at the prompt *)

(** The states in which a round starts. *)
Inductive at_prompt : mstate → mstate → Prop :=
| prompt_start m0 m : main_init m0 = Some (true, m) → at_prompt m0 m
| prompt_next m0 m m' : at_prompt m0 m → main_round m = Some (Next, m') → at_prompt m0 m'.

Lemma on_c_inv {A} t (m : M cshell A) :
  preserves (cshell_inv t) m → preserves (λ s, cshell_inv t (m_shell s)) (on_c m).
Proof. by apply (zoom_preserves m_shell put_cshell). Qed.

Lemma on_csys_inv {A} t (m : M sys A) :
  preserves (has_fds t) m → preserves (cshell_inv t) (on_csys m).
Proof. intros Hm. by apply on_shell_inv, sh_sys_inv. Qed.

Lemma display_prompt_fds t u h : preserves (λ s, has_fds t (h_sys s)) (display_prompt u h).
Proof. unfold display_prompt. keep; apply hsys_fds; auto with cshell. apply eputs_fds. Qed.

Lemma getline_fds t : preserves (has_fds t) getline_stdin.
Proof.
  intros s a s' Hs. unfold getline_stdin. destruct (stdin_eof s); [by intros [= _ <-]|].
  destruct (fds s !! 0%nat) as [[]|]; try (by intros [= _ <-]).
  destruct (tty s) as [|[text| |evs w] q]; try (by intros [= _ <-]).
  intros [= _ <-]. unfold has_fds. by rewrite apply_written_kept.
Qed.

Lemma run_line_inv t text m m' :
  is_Some (t !! 0%nat) → is_Some (t !! 1%nat) → cshell_inv t (m_shell m) →
  run_line text m = Some (Next, m') → cshell_inv t (m_shell m').
Proof.
  intros Hin Hout Hinv. unfold run_line.
  assert (∀ m', invalid_syntax m = Some (Next, m') → cshell_inv t (m_shell m')) as Hbad.
  { intros m1. revert Hinv. unfold invalid_syntax.
    apply (preserves_bind (λ s, cshell_inv t (m_shell s))); [|intros []; keep].
    apply on_c_inv, on_csys_inv, eputs_fds. }
  destruct (lex_input text) as [[|tok ts]| |]; [by intros [= <-]| |apply Hbad|done].
  destruct (valid_syntax _); [|apply Hbad].
  intros (r & m1 & E1 & E)%bind_Some. unfold on_c, zoom in E1.
  destruct (exec_cmd _ _ _) as [[[[]|] c]|] eqn:Ee; [|injection E1 as <- <-; discriminate E|done].
  injection E1 as <- <-. injection E as <-. destruct Hinv as [Hf Hwf]. rewrite <-Hf in Hin, Hout.
  apply exec_cmd_inv in Ee; [|done..]. simpl. by rewrite <-Hf.
Qed.

Lemma main_round_inv t m m' :
  is_Some (t !! 0%nat) → is_Some (t !! 1%nat) → cshell_inv t (m_shell m) →
  main_round m = Some (Next, m') → cshell_inv t (m_shell m').
Proof.
  intros Hin Hout Hinv ([] & m1 & E1 & E)%bind_Some.
  apply (on_c_inv t) in E1; [|apply on_shell_inv, jobs_flush_inv|done].
  apply bind_Some in E as ([] & m2 & E2 & E).
  apply (on_c_inv t) in E2; [|apply on_hop_inv, display_prompt_fds|done].
  apply bind_Some in E as (r & m3 & E3 & E).
  apply (on_c_inv t) in E3; [|apply on_csys_inv, getline_fds|done].
  destruct r as [[text| |evs]|]; [| | |done].
  - apply bind_Some in E as ([] & m4 & [= <-] & E). eapply run_line_inv; [done..| |exact E]. done.
  - apply bind_Some in E as (st & m4 & [= <- <-] & E). apply bind_Some in E as (w & m5 & [= <- <-] & E).
    destruct (_ && _).
    + revert E3 E. apply (preserves_bind (λ s, cshell_inv t (m_shell s))).
      { apply on_c_inv, on_csys_inv, eputs_fds. }
      intros []. keep. apply on_c_inv, on_csys_inv. by apply preserves_modify.
    + apply bind_Some in E as ([] & m4 & _ & E). discriminate E.
  - revert E3 E. apply (preserves_bind (λ s, cshell_inv t (m_shell s))).
    { apply on_c_inv, on_shell_inv, jobs_sigchld_inv. }
    intros []. keep; apply on_c_inv; [apply on_shell_inv, jobs_process_pending_inv|].
    apply on_csys_inv. by apply preserves_modify.
Qed.

Lemma m_sys_fds {A} t (m : M sys A) :
  preserves (has_fds t) m → preserves (λ s, has_fds t (m_sys s)) (on_c (on_csys m)).
Proof.
  intros Hm. apply (zoom_preserves m_shell put_cshell (λ c, has_fds t (c_sys c))); [done|].
  apply (zoom_preserves c_shell put_shell (λ s, has_fds t (sys_of s))); [done|].
  apply (zoom_preserves ext set_ext (λ r, has_fds t (r_sys r))); [done|].
  by apply on_sys_preserves.
Qed.
Lemma term_init_fds t : preserves (has_fds t) term_init.
Proof. unfold term_init, sigaction. keep. Qed.

Lemma main_init_inv m m' :
  main_init m = Some (true, m') → cshell_inv (fds (m_sys m)) (m_shell m').
Proof.
  intros (ok & m1 & E1 & E)%bind_Some. destruct ok; [|done].
  assert (fds (m_sys m1) = fds (m_sys m)) as H1.
  { unfold on_c, on_hop, init_homedir, zoom, gets, modify, hsys, perror, eputs, mbind, M_bind,
      mret, M_ret in E1. cbv beta iota in E1.
    destruct (getcwd _ _); [by injection E1 as <-|]. unfold zoom in E1. discriminate E1. }
  apply bind_Some in E as ([] & m2 & E2 & E).
  apply (m_sys_fds (fds (m_sys m))) in E2; [|apply term_init_fds|done].
  apply bind_Some in E as ([] & m3 & E3 & E). injection E as <-.
  unfold on_c, on_shell, zoom in E3.
  destruct (jobs_init_wf (c_shell (m_shell m2))) as (s' & Es & Hwf). rewrite Es in E3.
  injection E3 as <-. split; [|exact Hwf]. injection Es as <-. exact E2.
Qed.

(** C1: Whenever the shell shows its prompt, after any sequence of lines,
    signals and errors since [main] started with standard input and output
    open, its descriptor table is exactly
    the one it was started with (no pipe end, temporary file or saved
    descriptor is left open, standard input and output are restored after
    every builtin) and its job table is well formed: 64 entries, distinct job
    numbers, at most 32 processes each, and queues within their arrays. *)
Theorem prompt_invariant m0 m :
  is_Some (fds (m_sys m0) !! 0%nat) → is_Some (fds (m_sys m0) !! 1%nat) → at_prompt m0 m →
  fds (m_sys m) = fds (m_sys m0) ∧ jobs_wf (c_shell (m_shell m)).
Proof.
  intros Hin Hout Hr. induction Hr as [m0 m Hi|m0 m m' Hr IH E].
  - by apply main_init_inv.
  - eapply main_round_inv in E; [exact E|done|done|]. split; apply IH; done.
Qed.

(** ** The end of the input *)

(** A state that differs in what was printed and in the notifications only. *)
Definition printed_only (m m' : mstate) : Prop :=
  eof_warned m' = eof_warned m ∧ jobs (c_shell (m_shell m')) = jobs (c_shell (m_shell m)) ∧
  ∃ o, m_sys m' = set_out o (m_sys m).

Lemma printed_only_trans m1 m2 m3 : printed_only m1 m2 → printed_only m2 m3 → printed_only m1 m3.
Proof.
  intros (Hw1 & Hj1 & o1 & H1) (Hw2 & Hj2 & o2 & H2). split_and!; [congruence..|].
  exists o2. by rewrite H2, H1.
Qed.

Lemma puts_out text s : fds s !! 1%nat = Some OTty → puts text s = Some ((), set_out (out s ++ text) s).
Proof. intros E. unfold puts, modify. by rewrite E. Qed.

Lemma flush_shown m :
  fds (m_sys m) !! 1%nat = Some OTty →
  ∃ m', on_c (on_shell jobs_flush_notifications) m = Some ((), m') ∧ printed_only m m'.
Proof.
  intros Hout. set (s := c_shell (m_shell m)). set (ns := notif_queue s).
  destruct (mfor_inv (λ s', jobs s' = jobs s ∧ ∃ o, sys_of s' = set_out o (sys_of s)) ns
    (λ x, on_ext (h_puts (line x))) s) as (s1 & E & Hj & o & Hs).
  { split; [done|]. exists (out (sys_of s)). unfold sys_of. by destruct (ext s) as [[] ?]. }
  { intros x s1 _ (Hj & o & Hs).
    assert (fds (sys_of s1) !! 1%nat = Some OTty) as E by by rewrite Hs.
    eexists. split; [apply (sh_sys_eq (puts (line x))); by apply puts_out|].
    split; [done|]. eexists. unfold sys_of in *. simpl. rewrite Hs. done. }
  eexists. split.
  { unfold on_c, on_shell, zoom, jobs_flush_notifications. fold s.
    rewrite (bind_eq _ _ _ ns s) by done. rewrite (bind_eq _ _ _ _ _ E). reflexivity. }
  split_and!; [done|exact Hj|by exists o].
Qed.

Lemma prompt_shown m :
  fds (m_sys m) !! 1%nat = Some OTty → (length (cwd (m_sys m)) < PATH_MAX)%nat →
  ∃ m', on_c (on_hop (display_prompt username hostname)) m = Some ((), m') ∧ printed_only m m'.
Proof.
  intros Hout Hcwd. unfold on_c, on_hop, display_prompt, zoom.
  rewrite (bind_eq _ _ _ (Some (cwd (m_sys m))) (get_hop (m_shell m))).
  2:{ unfold gets, getcwd. simpl. by rewrite decide_True. }
  rewrite (bind_eq _ _ _ (c_home (m_shell m)) (get_hop (m_shell m))) by done.
  unfold hsys, zoom. change (h_sys (get_hop (m_shell m))) with (m_sys m).
  rewrite puts_out by done. eexists. split; [reflexivity|]. split_and!; [done..|]. by eexists.
Qed.

Lemma on_c_sys_eq {A} (f : M sys A) m a s' :
  f (m_sys m) = Some (a, s') →
  ∃ m', on_c (on_csys f) m = Some (a, m') ∧ m_sys m' = s' ∧ eof_warned m' = eof_warned m ∧
    jobs (c_shell (m_shell m')) = jobs (c_shell (m_shell m)).
Proof.
  intros E. unfold on_c, on_csys, on_shell, sh_sys, on_ext, on_sys, zoom.
  unfold m_sys, c_sys, sys_of in E. rewrite E. eexists. split; [reflexivity|]. done.
Qed.

(** Is the end of the file answered with a warning? *)
Definition warns (m : mstate) : bool :=
  jobs_has_stopped (c_shell (m_shell m)) && negb (eof_warned m).
Definition warning : list ascii := line (lit "cshell: there are stopped jobs").

(** A terminal to read from and to print to. *)
Definition interactive (m : mstate) : Prop :=
  fds (m_sys m) !! 0%nat = Some OTty ∧ fds (m_sys m) !! 1%nat = Some OTty ∧
  stdin_eof (m_sys m) = false ∧ (length (cwd (m_sys m)) < PATH_MAX)%nat.

Lemma eof_round m evs :
  interactive m → tty (m_sys m) = TEof :: evs →
  ∃ m' o, main_round m = Some (if warns m then Next else Break, m') ∧
    eof_warned m' = eof_warned m || warns m ∧
    jobs (c_shell (m_shell m')) = jobs (c_shell (m_shell m)) ∧
    m_sys m' = set_out o (set_err (err (m_sys m) ++ if warns m then warning else [])
                 (set_stdin_eof (negb (warns m)) (set_tty evs (m_sys m)))).
Proof.
  intros (Hin & Hout & Heof & Hcwd) Htty. unfold main_round.
  destruct (flush_shown m Hout) as (m1 & E1 & P1). rewrite (bind_eq _ _ _ _ _ E1).
  destruct (prompt_shown m1) as (m2 & E2 & P2);
    [destruct P1 as (_ & _ & o & ->); done..|]. rewrite (bind_eq _ _ _ _ _ E2).
  destruct (printed_only_trans _ _ _ P1 P2) as (Hw & Hj & o & Hs).
  destruct (on_c_sys_eq getline_stdin m2 (Some REof)
    (set_stdin_eof true (set_tty evs (m_sys m2)))) as (m3 & E3 & Hs3 & Hw3 & Hj3).
  { unfold getline_stdin. rewrite Hs. simpl. by rewrite Heof, Hin, Htty. }
  rewrite (bind_eq _ _ _ _ _ E3). unfold warns, jobs_has_stopped. rewrite <-Hj, <-Hj3, <-Hw, <-Hw3.
  rewrite (bind_eq _ _ _ (existsb is_stopped (jobs (c_shell (m_shell m3)))) m3) by done.
  rewrite (bind_eq _ _ _ (eof_warned m3) m3) by done.
  destruct (_ && _).
  - destruct (on_c_sys_eq (eputs warning) m3 () _ eq_refl) as (m4 & E4 & Hs4 & Hw4 & Hj4).
    fold warning. rewrite (bind_eq _ _ _ _ _ E4).
    rewrite (bind_eq _ _ _ () (set_warned true m4)) by done.
    destruct (on_c_sys_eq clearerr_stdin (set_warned true m4) () _ eq_refl)
      as (m5 & E5 & Hs5 & Hw5 & Hj5).
    rewrite (bind_eq _ _ _ _ _ E5). eexists m5, o.
    split_and!; [done|rewrite Hw5; by destruct (eof_warned m3)|by rewrite Hj5|].
    rewrite Hs5. change (m_sys (set_warned true m4)) with (m_sys m4). by rewrite Hs4, Hs3, Hs.
  - destruct (on_c_sys_eq (puts [c_nl]) m3 () (set_out (out (m_sys m3) ++ [c_nl]) (m_sys m3)))
      as (m4 & E4 & Hs4 & Hw4 & Hj4).
    { apply puts_out. by rewrite Hs3, Hs. }
    rewrite (bind_eq _ _ _ _ _ E4). eexists m4, _.
    split_and!; [done|by rewrite orb_false_r|done|].
    rewrite Hs4, Hs3, Hs. simpl. by rewrite app_nil_r.
Qed.

(** The signals the shell sends when it ends. *)
Definition hangups (l : list (option Job)) : list (Z * Z) :=
  (λ j, (- job_pgid j, signo SIGHUP)) <$> omap id l.

Lemma sighup_all_spec m :
  ∃ m', on_c (on_shell jobs_sighup_all) m = Some ((), m') ∧
    m_sys m' = set_kills (kills (m_sys m) ++ hangups (jobs (c_shell (m_shell m)))) (m_sys m).
Proof.
  assert (∀ js s, ∃ s', mfor js (λ j, on_ext (h_kill (- job_pgid j) (signo SIGHUP))) s = Some ((), s') ∧
    sys_of s' = set_kills (kills (sys_of s) ++ ((λ j, (- job_pgid j, signo SIGHUP)) <$> js)) (sys_of s))
    as Hall.
  { induction js as [|j js IH]; intros s.
    { exists s. split; [done|]. simpl. rewrite app_nil_r. unfold sys_of. by destruct (ext s) as [[] ?]. }
    cbn [mfor]. rewrite (bind_eq _ _ _ () (put_sys_of (set_kills (kills (sys_of s) ++
      [(- job_pgid j, signo SIGHUP)]) (sys_of s)) s)) by done.
    destruct (IH (put_sys_of (set_kills (kills (sys_of s) ++ [(- job_pgid j, signo SIGHUP)])
      (sys_of s)) s)) as (s' & -> & Hs).
    exists s'. split; [done|]. rewrite Hs, fmap_cons. unfold sys_of, put_sys_of. simpl.
    by rewrite <-app_assoc. }
  destruct (Hall (omap id (jobs (c_shell (m_shell m)))) (c_shell (m_shell m))) as (s' & E & Hs).
  eexists. split.
  - unfold on_c, on_shell, zoom, jobs_sighup_all.
    rewrite (bind_eq _ _ _ (jobs (c_shell (m_shell m))) (c_shell (m_shell m))) by done.
    rewrite E. reflexivity.
  - exact Hs.
Qed.

(** C38: Ctrl-D at the prompt ends the shell. If there are stopped jobs and
    no warning was given since the last line, the first end of file is
    answered with the warning and only the second one ends the shell;
    otherwise the first does. When it ends, every job in the table, running
    or stopped, has been sent [SIGHUP] through its process group, in table
    order, and nothing but the warning was written to standard error. *)
Theorem eof_ends_shell m evs :
  let n := if warns m then 2%nat else 1%nat in
  interactive m → tty (m_sys m) = replicate n TEof ++ evs →
  ∃ m', main_loop n m = Some (true, m') ∧
    kills (m_sys m') = kills (m_sys m) ++ hangups (jobs (c_shell (m_shell m))) ∧
    err (m_sys m') = err (m_sys m) ++ (if warns m then warning else []) ∧
    tty (m_sys m') = evs.
Proof.
  intros n Hi Htty.
  assert (∀ m evs, warns m = false → interactive m → tty (m_sys m) = TEof :: evs →
    ∃ m', main_loop 1 m = Some (true, m') ∧
    kills (m_sys m') = kills (m_sys m) ++ hangups (jobs (c_shell (m_shell m))) ∧
    err (m_sys m') = err (m_sys m) ∧ tty (m_sys m') = evs) as Hlast.
  { clear. intros m evs Hw Hi Htty. destruct (eof_round m evs Hi Htty) as (m1 & o & E1 & _ & Hj & Hs).
    rewrite Hw in *. cbn [main_loop]. rewrite (bind_eq _ _ _ _ _ E1).
    destruct (sighup_all_spec m1) as (m2 & E2 & Hs2). rewrite (bind_eq _ _ _ _ _ E2).
    exists m2. rewrite Hs2, Hs, Hj. split_and!; [done|done|simpl; by rewrite app_nil_r|done]. }
  subst n. destruct (warns m) eqn:Hw; simpl in Htty.
  2:{ destruct (Hlast m evs Hw Hi Htty) as (m' & E & Hk & He & Ht). exists m'.
      split_and!; [done|done|by rewrite app_nil_r|done]. }
  destruct (eof_round m (TEof :: evs) Hi Htty) as (m1 & o & E1 & Hw1 & Hj & Hs).
  rewrite Hw in *. cbn [main_loop]. rewrite (bind_eq _ _ _ _ _ E1).
  destruct (Hlast m1 evs) as (m' & E & Hk & He & Ht).
  - unfold warns. rewrite Hw1, orb_true_r. by rewrite andb_false_r.
  - destruct Hi as (? & ? & ? & ?). unfold interactive. by rewrite Hs.
  - by rewrite Hs.
  - exists m'. cbn [main_loop] in E. rewrite E, Hk, He, Hj, Hs. done.
Qed.
End code.

(** ** The theorems at concrete states *)

(** Times in whole nanoseconds, a process that is never traced. *)
Definition demo_tracer : Tracer := {|
  tr_double := Z;
  tr_of_long := id;
  tr_add := Z.add;
  tr_div a b := a / b;
  tr_fmt3 := itoa;
  tr_first_exits _ := true;
  tr_stops _ := [];
  tr_attachable _ := false;
|}.

Definition demo_main (l : list (option Job)) (evs : list tty_event) : mstate :=
  mkMstate (mkCshell (mkJstate l 3 [] [] false (put_sys (set_tty evs demo_sys) demo_reg))
    (lit "/h") [] 1000000) false.

Abbreviation demo_round := (@main_round demo_posix demo_tracer 10 (Some (lit "u")) (Some (lit "host"))).
Abbreviation demo_loop := (@main_loop demo_posix demo_tracer 10 (Some (lit "u")) (Some (lit "host"))).

(** A line with a builtin that reads one file and writes another. *)
Definition demo_session : list tty_event :=
  [TLine (lit "peek -n < a > o" ++ [c_nl]); TEof].

Lemma prompt_invariant_witness :
  let m0 := demo_main [] demo_session in
  ∃ m, at_prompt (H := demo_posix) (H0 := demo_tracer) 10 (Some (lit "u")) (Some (lit "host")) m0 m ∧
    files (m_sys m) !! lit "/h/o" = Some (lit "1 one" ++ [c_nl]) ∧
    fds (m_sys m) = fds (m_sys m0) ∧ jobs_wf (c_shell (m_shell m)).
Proof.
  intros m0. destruct (@main_init demo_posix m0) as [[[] m1]|] eqn:E1; [|by vm_compute in E1..].
  destruct (demo_round m1) as [[r m2]|] eqn:E2;
    [|by vm_compute in E1; injection E1 as <-; vm_compute in E2].
  assert (r = Next ∧ files (m_sys m2) !! lit "/h/o" = Some (lit "1 one" ++ [c_nl])) as [-> Hf].
  { vm_compute in E1. injection E1 as <-. vm_compute in E2. injection E2 as <- <-.
    by split; vm_compute. }
  assert (at_prompt (H := demo_posix) (H0 := demo_tracer) 10 (Some (lit "u")) (Some (lit "host")) m0 m2)
    as Hr.
  { eapply prompt_next; [by apply prompt_start|exact E2]. }
  exists m2. split; [done|]. split; [done|].
  exact (@prompt_invariant demo_posix demo_tracer 10 _ _ m0 m2
    ltac:(eexists; reflexivity) ltac:(eexists; reflexivity) Hr).
Defined.

(** Two jobs, one of them stopped. *)
Lemma eof_ends_shell_witness :
  let m := demo_main [Some (set_state JOB_STOPPED demo_job1); Some demo_job2] [TEof; TEof; TEof] in
  warns m = true ∧
  ∃ m', demo_loop 2 m = Some (true, m') ∧
    kills (m_sys m') = kills (m_sys m) ++ hangups (jobs (c_shell (m_shell m))) ∧
    err (m_sys m') = err (m_sys m) ++ warning ∧
    tty (m_sys m') = [TEof].
Proof.
  intros m. split; [reflexivity|].
  apply (@eof_ends_shell demo_posix demo_tracer 10 (Some (lit "u")) (Some (lit "host")) m [TEof]).
  - split_and!; [reflexivity..|]. apply Nat.ltb_lt. vm_compute. reflexivity.
  - reflexivity.
Defined.

(** [peek] with a redirected input ends the shell: it reads the stream
    [stdin] to its end, the end-of-file flag of the stream survives the
    restoring of the descriptor, and the next [getline] of the main loop
    reports an end of file that nobody typed. Here the line "hop d" is never
    read. *)
Theorem peek_redirect_ends_shell :
  let hop_line := TLine (lit "hop d" ++ [c_nl]) in
  ∃ m', demo_loop 2 (demo_main [] [TLine (lit "peek < a" ++ [c_nl]); hop_line]) = Some (true, m') ∧
    tty (m_sys m') = [hop_line] ∧ cwd (m_sys m') = lit "/h".
Proof. eexists. split; [vm_compute; reflexivity|]. by split. Qed.
