(* ===== verification/Kalloc.v ===== *)
(** The physical page allocator of the kernel: [xv6/kernel/kalloc.c].

    The free list is threaded through the free pages themselves: the first
    word of a free page is the address of the next one. A page is modelled by
    its first word and the byte that fills the rest of it. [None] is a panic
    or the use of memory that does not exist. The operations run under
    [kmem.lock]. *)
From S2P Require Import Prelude.

Definition PGSIZE : Z := 4096.
Definition KERNBASE : Z := 0x80000000.
Definition PHYSTOP : Z := KERNBASE + 128 * 1024 * 1024.
Definition PGROUNDUP (sz : Z) : Z := Z.land (u64 (sz + PGSIZE - 1)) (Z.lnot (PGSIZE - 1)).
Definition PGROUNDDOWN (a : Z) : Z := Z.land a (Z.lnot (PGSIZE - 1)).

Record page := mkPage { word0 : Z; fill : Z }.
Record kmem := mkKmem { freelist : Z; pages : gmap Z page }.

Definition set_freelist r s := mkKmem r (pages s).
Definition set_page pa pg s := mkKmem (freelist s) (<[pa := pg]> (pages s)).

(** [memset(pa, c, PGSIZE)]: every byte of the page is [c]. *)
Definition memset_page (pa c : Z) : M kmem unit :=
  modify (set_page pa (mkPage (c * 0x0101010101010101) c)).

Section code.
(** [end], the first address after the kernel, set by the linker. *)
Context (kernel_end : Z).

Definition kfree (pa : Z) : M kmem unit :=
  if negb (pa mod PGSIZE =? 0) || (pa <? kernel_end) || (PHYSTOP <=? pa) then stuck
  else
    memset_page pa 1;;
    head ← gets freelist;
    modify (λ s, set_page pa (mkPage head 1) s);;
    modify (set_freelist pa).

Definition kalloc : M kmem Z :=
  r ← gets freelist;
  (if r =? 0 then mret ()
   else
     o ← gets (λ s, pages s !! r);
     match o with
     | None => stuck
     | Some pg => modify (set_freelist (word0 pg))
     end);;
  when (negb (r =? 0)) (memset_page r 5);;
  mret r.

(** The loop of [freerange]; the fuel bounds the number of pages. *)
Fixpoint freerange_loop (fuel : nat) (p pa_end : Z) : M kmem unit :=
  match fuel with
  | O => stuck
  | S fuel =>
    if p + PGSIZE <=? pa_end then kfree p;; freerange_loop fuel (p + PGSIZE) pa_end
    else mret ()
  end.
Definition freerange (pa_start pa_end : Z) : M kmem unit :=
  freerange_loop (S (Z.to_nat ((pa_end - pa_start) / PGSIZE))) (PGROUNDUP pa_start) pa_end.

Definition kinit : M kmem unit := freerange kernel_end PHYSTOP.
End code.

(** ** The free list as a list *)

Lemma PGROUNDUP_spec a :
  0 ≤ a < 2 ^ 63 → a ≤ PGROUNDUP a < a + PGSIZE ∧ PGROUNDUP a mod PGSIZE = 0.
Proof.
  intros Ha. unfold PGROUNDUP, PGSIZE. rewrite u64_id by lia.
  replace (4096 - 1) with (Z.ones 12) by reflexivity.
  rewrite <-Z.ldiff_land, Z.ldiff_ones_r, Z.shiftr_div_pow2, Z.shiftl_mul_pow2 by lia.
  change (2 ^ 12) with 4096. split; [|by rewrite Z.mod_mul].
  pose proof (Z.div_mod (a + 4096 - 1) 4096). pose proof (Z.mod_pos_bound (a + 4096 - 1) 4096). lia.
Qed.

Fixpoint chain (m : gmap Z page) (r : Z) (l : list Z) : Prop :=
  match l with
  | [] => r = 0
  | p :: l' => r = p ∧ p ≠ 0 ∧ ∃ pg, m !! p = Some pg ∧ chain m (word0 pg) l'
  end.

Lemma chain_insert m r l pa pg : pa ∉ l → chain m r l → chain (<[pa := pg]> m) r l.
Proof.
  revert r; induction l as [|p l IH]; intros r Hpa; [done|]. simpl.
  intros (-> & Hp & q & Hq & Hc). split_and!; [done|done|]. exists q.
  rewrite lookup_insert_ne by set_solver. split; [done|]. apply IH; [set_solver|done].
Qed.

Section spec.
Context (kernel_end : Z) (Hend : 0 < kernel_end < PHYSTOP).

(** A page the allocator may handle. *)
Definition valid (pa : Z) : Prop := pa mod PGSIZE = 0 ∧ kernel_end ≤ pa < PHYSTOP.

(** The free list holds the pages [l]. *)
Record kmem_ok (s : kmem) (l : list Z) : Prop := {
  ok_chain : chain (pages s) (freelist s) l;
  ok_nodup : NoDup l;
  ok_valid : Forall valid l;
}.

Lemma kfree_spec pa l s :
  kmem_ok s l → valid pa → pa ∉ l →
  ∃ s', kfree kernel_end pa s = Some ((), s') ∧ kmem_ok s' (pa :: l) ∧
    ∀ q, q ≠ pa → pages s' !! q = pages s !! q.
Proof.
  intros [Hc Hnd Hv] [Ha Hr] Hpa. unfold kfree.
  rewrite (proj2 (Z.eqb_eq _ _) Ha), (proj2 (Z.ltb_ge _ _)), (proj2 (Z.leb_gt _ _)) by lia.
  eexists. split; [reflexivity|]. split.
  - split; simpl; [|by constructor|by constructor].
    split_and!; [done|lia|]. eexists. rewrite lookup_insert_eq. split; [done|]. simpl.
    apply chain_insert; [done|]. by apply chain_insert.
  - intros q Hq. simpl. by rewrite !lookup_insert_ne.
Qed.

(** A page outside the memory the allocator manages, or not aligned, is a panic. *)
Lemma kfree_panics pa s : ¬ valid pa → kfree kernel_end pa s = None.
Proof.
  intros Hv. unfold kfree. destruct (negb (pa mod PGSIZE =? 0)) eqn:E1; [done|].
  destruct (pa <? kernel_end) eqn:E2; [done|]. destruct (PHYSTOP <=? pa) eqn:E3; [done|].
  destruct Hv. split; lia.
Qed.

Lemma kalloc_empty s : kmem_ok s [] → kalloc s = Some (0, s).
Proof. intros [Hc _ _]. simpl in Hc. unfold kalloc, gets, mbind, M_bind. by rewrite Hc. Qed.

Lemma kalloc_spec p l s :
  kmem_ok s (p :: l) →
  ∃ s', kalloc s = Some (p, s') ∧ kmem_ok s' l ∧
    pages s' !! p = Some (mkPage (5 * 0x0101010101010101) 5) ∧
    ∀ q, q ≠ p → pages s' !! q = pages s !! q.
Proof.
  intros [(Hf & Hp & pg & Hpg & Hc) Hnd Hv].
  apply NoDup_cons in Hnd as [Hpl Hnd]. apply Forall_cons in Hv as [_ Hv].
  unfold kalloc. rewrite (bind_eq _ _ _ (freelist s) s) by done. rewrite Hf.
  rewrite (proj2 (Z.eqb_neq _ _) Hp).
  rewrite (bind_eq _ _ _ () (set_freelist (word0 pg) s)).
  2:{ rewrite (bind_eq _ _ _ (Some pg) s); [done|]. unfold gets. by rewrite Hpg. }
  eexists. split; [reflexivity|]. split_and!.
  - split; simpl; [by apply chain_insert|done|done].
  - simpl. by rewrite lookup_insert_eq.
  - intros q Hq. simpl. by rewrite lookup_insert_ne.
Qed.

(** ** Start-up *)

(** The [n] pages from [p] on. *)
Definition pages_from (p : Z) (n : nat) : list Z := (λ k, p + Z.of_nat k * PGSIZE) <$> seq 0 n.
(** All pages between the kernel and the end of memory. *)
Definition all_pages : list Z :=
  pages_from (PGROUNDUP kernel_end) (Z.to_nat ((PHYSTOP - PGROUNDUP kernel_end) / PGSIZE)).

Lemma pages_from_cons p n : pages_from p (S n) = p :: pages_from (p + PGSIZE) n.
Proof.
  unfold pages_from. cbn [seq]. rewrite fmap_cons. f_equal; [lia|].
  rewrite <-fmap_S_seq, <-list_fmap_compose. apply list_fmap_ext. intros i k _. simpl. lia.
Qed.

Lemma pages_from_elem q p n :
  q ∈ pages_from p n ↔ ∃ k, (k < n)%nat ∧ q = p + Z.of_nat k * PGSIZE.
Proof.
  unfold pages_from. rewrite list_elem_of_fmap. setoid_rewrite elem_of_seq.
  split; intros (k & ? & ?); exists k; [lia|]. split; [done|lia].
Qed.

Lemma freerange_loop_spec n fuel p l s :
  kmem_ok s l → (n < fuel)%nat → p mod PGSIZE = 0 → kernel_end ≤ p →
  p + Z.of_nat n * PGSIZE ≤ PHYSTOP < p + (Z.of_nat n + 1) * PGSIZE →
  Forall (λ q, q < p) l →
  ∃ s', freerange_loop kernel_end fuel p PHYSTOP s = Some ((), s') ∧
    kmem_ok s' (reverse (pages_from p n) ++ l).
Proof.
  revert fuel p l s; induction n as [|n IH]; intros fuel p l s Hok Hf Ha Hp Hn Hl;
    (destruct fuel as [|fuel]; [lia|]); cbn [freerange_loop].
  { rewrite (proj2 (Z.leb_gt _ _)) by lia. by exists s. }
  rewrite (proj2 (Z.leb_le _ _)) by (unfold PGSIZE in *; lia).
  destruct (kfree_spec p l s Hok) as (s1 & E1 & Hok1 & _).
  { split; [done|]. unfold PGSIZE in *. lia. }
  { intros Hin. eapply Forall_forall in Hl; [|exact Hin]. lia. }
  rewrite (bind_eq _ _ _ _ _ E1).
  destruct (IH fuel (p + PGSIZE) (p :: l) s1 Hok1) as (s2 & E2 & Hok2).
  - unfold PGSIZE in *; lia.
  - unfold PGSIZE in *. replace (p + 4096) with (p + 1 * 4096) by lia. by rewrite Z.mod_add.
  - unfold PGSIZE. lia.
  - unfold PGSIZE in *; lia.
  - constructor; [unfold PGSIZE; lia|]. eapply Forall_impl; [exact Hl|].
    simpl. unfold PGSIZE. lia.
  - exists s2. split; [done|]. rewrite pages_from_cons, reverse_cons, <-app_assoc. exact Hok2.
Qed.

Lemma kinit_spec s :
  freelist s = 0 → ∃ s', kinit kernel_end s = Some ((), s') ∧ kmem_ok s' (reverse all_pages).
Proof.
  intros Hf. assert (0 ≤ kernel_end < 2 ^ 63) as Hb by (unfold PHYSTOP, KERNBASE in *; lia).
  destruct (PGROUNDUP_spec kernel_end Hb) as [Hr Hal].
  assert (PHYSTOP mod PGSIZE = 0) as Hphys by reflexivity.
  set (p := PGROUNDUP kernel_end) in *. assert (p ≤ PHYSTOP) as Hple.
  { unfold PGSIZE in *. pose proof (Z.div_mod p 4096). pose proof (Z.div_mod PHYSTOP 4096). lia. }
  pose proof (Z.div_mod (PHYSTOP - p) PGSIZE ltac:(done)) as Hdm.
  pose proof (Z.mod_pos_bound (PHYSTOP - p) PGSIZE ltac:(done)) as Hmb.
  pose proof (Z.div_pos (PHYSTOP - p) PGSIZE ltac:(lia) ltac:(done)) as Hdp.
  destruct (freerange_loop_spec (Z.to_nat ((PHYSTOP - p) / PGSIZE))
    (S (Z.to_nat ((PHYSTOP - kernel_end) / PGSIZE))) p [] s) as (s' & E & Hok).
  - split; [exact Hf|constructor|constructor].
  - pose proof (Z.div_le_mono (PHYSTOP - p) (PHYSTOP - kernel_end) PGSIZE ltac:(done) ltac:(lia)). lia.
  - done.
  - unfold PGSIZE in *; lia.
  - rewrite Z2Nat.id by done. lia.
  - constructor.
  - exists s'. split; [exact E|]. by rewrite app_nil_r in Hok.
Qed.

(** ** Every page has one owner *)

(** The kernel's use of the allocator: [held] are the pages handed out. A
    page is freed by who holds it. *)
Inductive use : kmem → list Z → kmem → list Z → Prop :=
| use_alloc s held p s' : kalloc s = Some (p, s') → p ≠ 0 → use s held s' (p :: held)
| use_full s held s' : kalloc s = Some (0, s') → use s held s' held
| use_free s held1 p held2 s' :
    kfree kernel_end p s = Some ((), s') → use s (held1 ++ p :: held2) s' (held1 ++ held2).

Inductive used : kmem → list Z → Prop :=
| used_init s0 s : freelist s0 = 0 → kinit kernel_end s0 = Some ((), s) → used s []
| used_step s held s' held' : used s held → use s held s' held' → used s' held'.

Lemma use_preserves s held s' held' l :
  kmem_ok s l → NoDup (l ++ held) → Forall valid held → use s held s' held' →
  ∃ l', kmem_ok s' l' ∧ l' ++ held' ≡ₚ l ++ held.
Proof.
  intros Hok Hnd Hv Hu. revert Hok Hnd Hv.
  destruct Hu as [s1 held1 p s2 E Hp|s1 held1 s2 E|s1 h1 p h2 s2 E]; intros Hok Hnd Hv.
  - destruct l as [|q l]; [rewrite (kalloc_empty _ Hok) in E; congruence|].
    destruct (kalloc_spec q l s1 Hok) as (s3 & E3 & Hok3 & _). rewrite E3 in E.
    injection E as -> ->. exists l. split; [done|]. symmetry. apply Permutation_middle.
  - destruct l as [|q l].
    { rewrite (kalloc_empty _ Hok) in E. injection E as ->. by exists []. }
    destruct (kalloc_spec q l s1 Hok) as (s3 & E3 & Hok3 & _). rewrite E3 in E.
    injection E as -> _. destruct (ok_chain _ _ Hok) as (_ & ? & _). done.
  - assert (p ∉ l) as Hpl.
    { intros Hin. apply NoDup_app in Hnd as (_ & Hd & _). apply (Hd p Hin). set_solver. }
    assert (valid p) as Hvp by (apply Forall_app in Hv as [_ Hv]; by apply Forall_cons in Hv as [? _]).
    destruct (kfree_spec p l s1 Hok Hvp Hpl) as (s3 & E3 & Hok3 & _). rewrite E3 in E.
    injection E as <-. exists (p :: l). split; [done|]. rewrite <-Permutation_middle.
    simpl. by rewrite <-Permutation_middle.
Qed.

Lemma all_pages_ok : NoDup all_pages ∧ Forall valid all_pages.
Proof.
  assert (0 ≤ kernel_end < 2 ^ 63) as Hb by (unfold PHYSTOP, KERNBASE in *; lia).
  destruct (PGROUNDUP_spec kernel_end Hb) as [Hr Hal]. unfold all_pages. split.
  - unfold pages_from. apply NoDup_fmap_2_strong; [|apply NoDup_seq].
    intros x y _ _. unfold PGSIZE. lia.
  - apply Forall_forall. intros q (k & Hk & ->)%pages_from_elem. split.
    { by rewrite Z.mod_add. }
    set (p := PGROUNDUP kernel_end) in *. unfold PGSIZE in *.
    pose proof (Z.div_mod (PHYSTOP - p) 4096 ltac:(done)).
    pose proof (Z.mod_pos_bound (PHYSTOP - p) 4096 ltac:(done)). lia.
Qed.

(** C10: From [kinit] on, whatever the sequence of [kalloc] and [kfree] calls
    in which a page is freed only by its holder, every page of memory between
    the kernel and the top is at each moment either on the free list, once,
    or held, once: no page is lost and none is handed out twice. The list in
    memory, followed through the first words of the free pages, is exactly
    that set of free pages, and [kalloc] fails only when it is empty. *)
Theorem pages_have_one_owner s held :
  used s held →
  ∃ free, kmem_ok s free ∧ free ++ held ≡ₚ all_pages ∧ NoDup (free ++ held) ∧
    (∀ s', kalloc s = Some (0, s') → free = []).
Proof.
  intros Hu. destruct all_pages_ok as [Hnd Hv].
  assert (∃ free, kmem_ok s free ∧ free ++ held ≡ₚ all_pages) as (free & Hok & Hp).
  { induction Hu as [s0 s Hf E|s held s' held' _ (l & Hok & Hp) Hstep].
    - destruct (kinit_spec s0 Hf) as (s1 & E1 & Hok). rewrite E1 in E. injection E as <-.
      exists (reverse all_pages). split; [done|]. by rewrite app_nil_r, reverse_Permutation.
    - destruct (use_preserves s held s' held' l Hok) as (l' & Hok' & Hp').
      + by rewrite Hp.
      + rewrite <-Hp in Hv. by apply Forall_app in Hv as [_ ?].
      + done.
      + exists l'. split; [done|]. by rewrite Hp', Hp. }
  exists free. split_and!; [done|done|by rewrite Hp|].
  intros s' E. destruct free as [|p free]; [done|].
  destruct (kalloc_spec p free s Hok) as (s1 & E1 & _). rewrite E1 in E. injection E as -> _.
  destruct (ok_chain _ _ Hok) as (_ & ? & _). done.
Qed.
End spec.

(** A machine with two pages of memory above the kernel, one of them held. *)
Lemma pages_have_one_owner_witness :
  let e := PHYSTOP - 2 * PGSIZE in
  ∃ s free, used e s [PHYSTOP - PGSIZE] ∧ kmem_ok e s free ∧
    free ++ [PHYSTOP - PGSIZE] ≡ₚ all_pages e ∧ NoDup (free ++ [PHYSTOP - PGSIZE]) ∧
    (∀ s', kalloc s = Some (0, s') → free = []).
Proof.
  intros e. assert (0 < e < PHYSTOP) as He by (unfold e, PHYSTOP, KERNBASE, PGSIZE; lia).
  destruct (kinit e (mkKmem 0 ∅)) as [[[] s0]|] eqn:E0; [|by vm_compute in E0].
  destruct (kalloc s0) as [[p s1]|] eqn:E1; [|by vm_compute in E0; injection E0 as <-; vm_compute in E1].
  assert (p = PHYSTOP - PGSIZE) as ->.
  { vm_compute in E0. injection E0 as <-. vm_compute in E1. by injection E1 as <- _. }
  assert (used e s1 [PHYSTOP - PGSIZE]) as Hu.
  { eapply used_step; [eapply used_init; [|exact E0]; reflexivity|]. eapply use_alloc; [exact E1|done]. }
  destruct (pages_have_one_owner e He s1 _ Hu) as (free & H1 & H2 & H3 & H4).
  by exists s1, free.
Defined.
