(* ===== verification/Proc.v ===== *)
(** Processes and the scheduler of the kernel: [xv6/kernel/proc.c], with the
    timer interrupt of [trap.c] and the process system calls of [sysproc.c].

    The kernel state holds the process table, the counters and what the CPUs
    run. Each operation is the sequence of its critical sections; the locks
    make them atomic and are not state here. A process is its index in the
    table. [None] is a panic, an access outside an array or an overflow of a
    signed counter.

    [sched] hands the CPU back to the scheduler, which then clears [c->proc]:
    here it is the moment a process leaves its CPU. Where the code waits in a
    loop around [sleep], the model has one pass of the loop, which says
    whether the process goes around again. *)
From S2P Require Import Prelude Kalloc.

Definition NPROC : nat := 64.
Definition NOFILE : nat := 16.
Definition MAXVA : Z := 2 ^ 38.
Definition TRAMPOLINE : Z := MAXVA - PGSIZE.
Definition TRAPFRAME : Z := TRAMPOLINE - PGSIZE.
Definition KSTACK (i : nat) : Z := TRAMPOLINE - (Z.of_nat i + 1) * 2 * PGSIZE.
Definition PTE_R : Z := 2.
Definition PTE_W : Z := 4.
Definition PTE_X : Z := 8.

Definition MLFQ_LEVELS : Z := 4.
Definition MLFQ_BOOST_INTERVAL : Z := 48.
Definition mlfq_slice : list Z := [1; 4; 8; 16].

Inductive procstate := UNUSED | USED | SLEEPING | RUNNABLE | RUNNING | ZOMBIE.
#[export] Instance procstate_eq_dec : EqDecision procstate.
Proof. solve_decision. Defined.

(** A wait channel: the address of a process, of [ticks], or another one. *)
Inductive channel := ChProc (i : nat) | ChTicks | ChOther (addr : Z).
#[export] Instance channel_eq_dec : EqDecision channel.
Proof. solve_decision. Defined.

Record proc := mkproc {
  state : procstate;
  chan : option channel;
  killed_flag : bool;
  xstate : Z;
  pid : Z;
  parent : option nat;
  kstack : Z;
  sz : Z;
  pagetable : Z;
  trapframe : Z;
  tf : list Z;
  context : Z * Z;
  ofile : list Z;
  p_cwd : Z;
  name : list ascii;
  mlfq_priority : Z;
  mlfq_ticks_used : Z;
  mlfq_qtime : Z;
}.

Definition set_state v p := mkproc v (chan p) (killed_flag p) (xstate p) (pid p) (parent p) (kstack p)
  (sz p) (pagetable p) (trapframe p) (tf p) (context p) (ofile p) (p_cwd p) (name p)
  (mlfq_priority p) (mlfq_ticks_used p) (mlfq_qtime p).
Definition set_chan v p := mkproc (state p) v (killed_flag p) (xstate p) (pid p) (parent p) (kstack p)
  (sz p) (pagetable p) (trapframe p) (tf p) (context p) (ofile p) (p_cwd p) (name p)
  (mlfq_priority p) (mlfq_ticks_used p) (mlfq_qtime p).
Definition set_killed v p := mkproc (state p) (chan p) v (xstate p) (pid p) (parent p) (kstack p)
  (sz p) (pagetable p) (trapframe p) (tf p) (context p) (ofile p) (p_cwd p) (name p)
  (mlfq_priority p) (mlfq_ticks_used p) (mlfq_qtime p).
Definition set_xstate v p := mkproc (state p) (chan p) (killed_flag p) v (pid p) (parent p) (kstack p)
  (sz p) (pagetable p) (trapframe p) (tf p) (context p) (ofile p) (p_cwd p) (name p)
  (mlfq_priority p) (mlfq_ticks_used p) (mlfq_qtime p).
Definition set_pid v p := mkproc (state p) (chan p) (killed_flag p) (xstate p) v (parent p) (kstack p)
  (sz p) (pagetable p) (trapframe p) (tf p) (context p) (ofile p) (p_cwd p) (name p)
  (mlfq_priority p) (mlfq_ticks_used p) (mlfq_qtime p).
Definition set_parent v p := mkproc (state p) (chan p) (killed_flag p) (xstate p) (pid p) v (kstack p)
  (sz p) (pagetable p) (trapframe p) (tf p) (context p) (ofile p) (p_cwd p) (name p)
  (mlfq_priority p) (mlfq_ticks_used p) (mlfq_qtime p).
Definition set_kstack v p := mkproc (state p) (chan p) (killed_flag p) (xstate p) (pid p) (parent p) v
  (sz p) (pagetable p) (trapframe p) (tf p) (context p) (ofile p) (p_cwd p) (name p)
  (mlfq_priority p) (mlfq_ticks_used p) (mlfq_qtime p).
Definition set_sz v p := mkproc (state p) (chan p) (killed_flag p) (xstate p) (pid p) (parent p)
  (kstack p) v (pagetable p) (trapframe p) (tf p) (context p) (ofile p) (p_cwd p) (name p)
  (mlfq_priority p) (mlfq_ticks_used p) (mlfq_qtime p).
Definition set_pagetable v p := mkproc (state p) (chan p) (killed_flag p) (xstate p) (pid p) (parent p)
  (kstack p) (sz p) v (trapframe p) (tf p) (context p) (ofile p) (p_cwd p) (name p)
  (mlfq_priority p) (mlfq_ticks_used p) (mlfq_qtime p).
Definition set_trapframe v p := mkproc (state p) (chan p) (killed_flag p) (xstate p) (pid p) (parent p)
  (kstack p) (sz p) (pagetable p) v (tf p) (context p) (ofile p) (p_cwd p) (name p)
  (mlfq_priority p) (mlfq_ticks_used p) (mlfq_qtime p).
Definition set_tf v p := mkproc (state p) (chan p) (killed_flag p) (xstate p) (pid p) (parent p)
  (kstack p) (sz p) (pagetable p) (trapframe p) v (context p) (ofile p) (p_cwd p) (name p)
  (mlfq_priority p) (mlfq_ticks_used p) (mlfq_qtime p).
Definition set_context v p := mkproc (state p) (chan p) (killed_flag p) (xstate p) (pid p) (parent p)
  (kstack p) (sz p) (pagetable p) (trapframe p) (tf p) v (ofile p) (p_cwd p) (name p)
  (mlfq_priority p) (mlfq_ticks_used p) (mlfq_qtime p).
Definition set_ofile v p := mkproc (state p) (chan p) (killed_flag p) (xstate p) (pid p) (parent p)
  (kstack p) (sz p) (pagetable p) (trapframe p) (tf p) (context p) v (p_cwd p) (name p)
  (mlfq_priority p) (mlfq_ticks_used p) (mlfq_qtime p).
Definition set_p_cwd v p := mkproc (state p) (chan p) (killed_flag p) (xstate p) (pid p) (parent p)
  (kstack p) (sz p) (pagetable p) (trapframe p) (tf p) (context p) (ofile p) v (name p)
  (mlfq_priority p) (mlfq_ticks_used p) (mlfq_qtime p).
Definition set_name v p := mkproc (state p) (chan p) (killed_flag p) (xstate p) (pid p) (parent p)
  (kstack p) (sz p) (pagetable p) (trapframe p) (tf p) (context p) (ofile p) (p_cwd p) v
  (mlfq_priority p) (mlfq_ticks_used p) (mlfq_qtime p).
Definition set_prio v p := mkproc (state p) (chan p) (killed_flag p) (xstate p) (pid p) (parent p)
  (kstack p) (sz p) (pagetable p) (trapframe p) (tf p) (context p) (ofile p) (p_cwd p) (name p)
  v (mlfq_ticks_used p) (mlfq_qtime p).
Definition set_used v p := mkproc (state p) (chan p) (killed_flag p) (xstate p) (pid p) (parent p)
  (kstack p) (sz p) (pagetable p) (trapframe p) (tf p) (context p) (ofile p) (p_cwd p) (name p)
  (mlfq_priority p) v (mlfq_qtime p).
Definition set_qtime v p := mkproc (state p) (chan p) (killed_flag p) (xstate p) (pid p) (parent p)
  (kstack p) (sz p) (pagetable p) (trapframe p) (tf p) (context p) (ofile p) (p_cwd p) (name p)
  (mlfq_priority p) (mlfq_ticks_used p) v.

(** What the process code calls of the rest of the kernel, on its state [K]:
    page tables and user memory (vm.c), files (file.c) and inodes (fs.c). *)
Class KernelOps (K : Type) := {
  k_kalloc : M K Z;
  k_kfree : Z → M K unit;
  k_uvmcreate : M K Z;
  k_mappages : Z → Z → Z → Z → Z → M K bool;
  k_uvmunmap : Z → Z → Z → bool → M K unit;
  k_uvmfree : Z → Z → M K unit;
  k_uvmcopy : Z → Z → Z → M K bool;
  k_uvmalloc : Z → Z → Z → Z → M K Z;
  k_uvmdealloc : Z → Z → Z → M K Z;
  k_copyout_int : Z → Z → Z → Z → M K bool;
  k_filedup : Z → M K Z;
  k_fileclose : Z → M K unit;
  k_idup : Z → M K Z;
  k_iput : Z → M K unit;
  k_begin_op : M K unit;
  k_end_op : M K unit;
  k_namei : list ascii → M K Z;
  k_trampoline : Z;
  k_forkret : Z;
}.

Record kstate (K : Type) := mkKstate {
  procs : list proc;
  cpus : list (option nat);
  initproc : option nat;
  nextpid : Z;
  mlfq_seq_counter : Z;
  mlfq_last_boost : Z;
  ticks : Z;
  kern : K;
}.
Arguments mkKstate {K}.
Arguments procs {K}.
Arguments cpus {K}.
Arguments initproc {K}.
Arguments nextpid {K}.
Arguments mlfq_seq_counter {K}.
Arguments mlfq_last_boost {K}.
Arguments ticks {K}.
Arguments kern {K}.

Section setters.
Context {K : Type}.
Definition set_procs v (s : kstate K) := mkKstate v (cpus s) (initproc s) (nextpid s)
  (mlfq_seq_counter s) (mlfq_last_boost s) (ticks s) (kern s).
Definition set_cpus v (s : kstate K) := mkKstate (procs s) v (initproc s) (nextpid s)
  (mlfq_seq_counter s) (mlfq_last_boost s) (ticks s) (kern s).
Definition set_initproc v (s : kstate K) := mkKstate (procs s) (cpus s) v (nextpid s)
  (mlfq_seq_counter s) (mlfq_last_boost s) (ticks s) (kern s).
Definition set_nextpid v (s : kstate K) := mkKstate (procs s) (cpus s) (initproc s) v
  (mlfq_seq_counter s) (mlfq_last_boost s) (ticks s) (kern s).
Definition set_seq v (s : kstate K) := mkKstate (procs s) (cpus s) (initproc s) (nextpid s)
  v (mlfq_last_boost s) (ticks s) (kern s).
Definition set_last_boost v (s : kstate K) := mkKstate (procs s) (cpus s) (initproc s) (nextpid s)
  (mlfq_seq_counter s) v (ticks s) (kern s).
Definition set_ticks v (s : kstate K) := mkKstate (procs s) (cpus s) (initproc s) (nextpid s)
  (mlfq_seq_counter s) (mlfq_last_boost s) v (kern s).
Definition set_kern (v : K) (s : kstate K) := mkKstate (procs s) (cpus s) (initproc s) (nextpid s)
  (mlfq_seq_counter s) (mlfq_last_boost s) (ticks s) v.

(** An operation of the rest of the kernel. *)
Definition on_kern {A} (m : M K A) : M (kstate K) A := λ s,
  match m (kern s) with
  | Some (a, k) => Some (a, set_kern k s)
  | None => None
  end.

(** Reading and writing the fields of a process. *)
Definition the_proc (i : nat) : M (kstate K) proc := λ s,
  match procs s !! i with Some p => Some (p, s) | None => None end.
Definition upd (i : nat) (f : proc → proc) : M (kstate K) unit :=
  modify (λ s, set_procs (alter f i (procs s)) s).
(** [for (p = proc; p < &proc[NPROC]; p++)]. *)
Definition for_procs (body : nat → M (kstate K) unit) : M (kstate K) unit := mfor (seq 0 NPROC) body.
Definition is_state (st : procstate) (p : proc) : bool := bool_decide (state p = st).
End setters.

Definition INT_MAX : Z := 2 ^ 31 - 1.

Section code.
Context {K : Type} `{KernelOps K}.
Abbreviation km := (M (kstate K)).

(** ** The multi-level feedback queue *)

Definition mlfq_next_seq : km Z :=
  v ← gets mlfq_seq_counter; modify (set_seq (u64 (v + 1)));; mret v.

Definition mlfq_enqueue (i : nat) : km unit :=
  upd i (set_used 0);; v ← mlfq_next_seq; upd i (set_qtime v).

(** The body of the loop, between [acquire] and [release] of the lock. *)
Definition boost_proc (i : nat) : km unit :=
  p ← the_proc i;
  when (negb (is_state UNUSED p)) (upd i (set_prio 0);; mlfq_enqueue i).
Definition mlfq_boost_all : km unit := for_procs boost_proc.

Definition mlfq_maybe_boost : km unit :=
  now ← gets ticks;
  last ← gets mlfq_last_boost;
  if MLFQ_BOOST_INTERVAL <=? u32 (now - last)
  then modify (set_last_boost now);; mlfq_boost_all
  else mret ().

Definition mlfq_higher_priority_exists (prio : Z) (s : kstate K) : bool :=
  existsb (λ q, is_state RUNNABLE q && (mlfq_priority q <? prio)) (procs s).

(** [mlfq_slice[prio]]. *)
Definition slice_of (prio : Z) : option Z :=
  if prio <? 0 then None else mlfq_slice !! Z.to_nat prio.

(** [sched]; the process has changed its state before. *)
Definition sched (i : nat) : km unit :=
  p ← the_proc i;
  if is_state RUNNING p then stuck
  else modify (λ s, set_cpus ((λ c, if decide (c = Some i) then None else c) <$> cpus s) s).

Definition yield (i : nat) : km unit := upd i (set_state RUNNABLE);; sched i.

(** The accounting of [mlfq_tick], between [acquire] and [release] of the
    process's lock: [need_yield]. *)
Definition mlfq_account (i : nat) : km bool :=
  upd i (λ p, set_used (mlfq_ticks_used p + 1) p);;
  p ← the_proc i;
  match slice_of (mlfq_priority p) with
  | None => stuck
  | Some slice =>
    if slice <=? mlfq_ticks_used p then
      when (mlfq_priority p <? MLFQ_LEVELS - 1) (upd i (λ p, set_prio (mlfq_priority p + 1) p));;
      mlfq_enqueue i;;
      mret true
    else mret false
  end.

Definition mlfq_tick (i : nat) : km unit :=
  mlfq_maybe_boost;;
  need_yield ← mlfq_account i;
  p ← the_proc i;
  higher ← gets (mlfq_higher_priority_exists (mlfq_priority p));
  when (need_yield || higher) (yield i).

(** The scan of [scheduler] for the runnable process with the smallest
    (priority, qtime); [best] with its priority and qtime. *)
Fixpoint mlfq_scan (i : nat) (ps : list proc) (best : option nat) (best_prio best_qtime : Z)
  : option nat :=
  match ps with
  | [] => best
  | p :: rest =>
    if is_state RUNNABLE p &&
       (bool_decide (best = None) || (mlfq_priority p <? best_prio) ||
        ((mlfq_priority p =? best_prio) && (mlfq_qtime p <? best_qtime)))
    then mlfq_scan (S i) rest (Some i) (mlfq_priority p) (mlfq_qtime p)
    else mlfq_scan (S i) rest best best_prio best_qtime
  end.
Definition mlfq_pick (s : kstate K) : option nat := mlfq_scan 0 (procs s) None MLFQ_LEVELS 0.

(** The candidate is checked again under its lock, and run. *)
Definition scheduler_claim (c : nat) (i : nat) : km unit :=
  p ← the_proc i;
  when (is_state RUNNABLE p)
    (upd i (set_state RUNNING);; modify (λ s, set_cpus (<[c := Some i]> (cpus s)) s)).

(** One round of the scheduler's loop built with [SCHEDULER=MLFQ]. *)
Definition scheduler_round (c : nat) : km unit :=
  best ← gets mlfq_pick;
  match best with
  | Some i => scheduler_claim c i
  | None => mret ()
  end.

(** ** Sleeping and waking *)

Definition sleep_prepare (i : nat) (c : option channel) : km unit :=
  match c with None => stuck | Some _ => upd i (set_chan c) end.

Definition sleep (i : nat) : km unit :=
  p ← the_proc i;
  match chan p with
  | None => mret ()
  | Some _ => upd i (set_state SLEEPING);; sched i
  end.

(** The body of the loop, under the lock of the process. *)
Definition wakeup_proc (c : option channel) (i : nat) : km unit :=
  p ← the_proc i;
  if decide (chan p = c) then
    upd i (set_chan None);;
    when (is_state SLEEPING p) (mlfq_enqueue i;; upd i (set_state RUNNABLE))
  else mret ().
Definition wakeup (c : option channel) : km unit := for_procs (wakeup_proc c).

(** The section of [kkill] for the process it has found. *)
Definition kill_proc (i : nat) : km Z :=
  upd i (set_killed true);;
  p ← the_proc i;
  when (is_state SLEEPING p) (mlfq_enqueue i;; upd i (set_state RUNNABLE));;
  mret 0.
Definition kkill (n : Z) : km Z :=
  o ← gets (λ s, index_of (λ p, pid p =? n) (procs s));
  match o with
  | None => mret (-1)
  | Some i => kill_proc i
  end.

Definition setkilled (i : nat) : km unit := upd i (set_killed true).
Definition killed (i : nat) : km bool := p ← the_proc i; mret (killed_flag p).

(** The loop goes on to the end of the table: the last match counts. *)
Definition mlfq_priority_of (n : Z) (s : kstate K) : Z :=
  foldl (λ r p, if (pid p =? n) && negb (is_state UNUSED p) then mlfq_priority p else r) (-1) (procs s).

(** ** Creating and destroying processes *)

(** [nextpid] is an [int]: its overflow is undefined, and stops the model. *)
Definition allocpid : km Z :=
  n ← gets nextpid;
  if n <? INT_MAX then modify (set_nextpid (n + 1));; mret n else stuck.

Definition proc_pagetable (tf_addr : Z) : km Z :=
  pt ← on_kern k_uvmcreate;
  if pt =? 0 then mret 0
  else
    ok ← on_kern (k_mappages pt TRAMPOLINE PGSIZE k_trampoline (Z.lor PTE_R PTE_X));
    if negb ok then on_kern (k_uvmfree pt 0);; mret 0
    else
      ok ← on_kern (k_mappages pt TRAPFRAME PGSIZE tf_addr (Z.lor PTE_R PTE_W));
      if negb ok then
        on_kern (k_uvmunmap pt TRAMPOLINE 1 false);; on_kern (k_uvmfree pt 0);; mret 0
      else mret pt.

Definition proc_freepagetable (pt size : Z) : km unit :=
  on_kern (k_uvmunmap pt TRAMPOLINE 1 false);;
  on_kern (k_uvmunmap pt TRAPFRAME 1 false);;
  on_kern (k_uvmfree pt size).

(** The assignments of [freeproc]. *)
Definition reset_proc (p : proc) : proc :=
  set_state UNUSED (set_xstate 0 (set_killed false (set_chan None (set_name [] (set_pid 0
    (set_sz 0 (set_pagetable 0 (set_trapframe 0 p)))))))).
Definition freeproc (i : nat) : km unit :=
  p ← the_proc i;
  when (negb (trapframe p =? 0)) (on_kern (k_kfree (trapframe p)));;
  when (negb (pagetable p =? 0)) (proc_freepagetable (pagetable p) (sz p));;
  upd i reset_proc.

(** A page from [kalloc] is filled with 5s. *)
Definition fresh_tf : list Z := replicate 36 (5 * 0x0101010101010101).

(** The assignments of [allocproc] to the entry it found. *)
Definition new_proc (n : Z) (p : proc) : proc :=
  set_qtime 0 (set_used 0 (set_prio 0 (set_state USED (set_pid n p)))).

(** [allocproc] from the label [found] on; [None] is the null pointer. *)
Definition allocproc_found (i : nat) : km (option nat) :=
  n ← allocpid;
  upd i (new_proc n);;
  page ← on_kern k_kalloc;
  upd i (set_trapframe page);; upd i (set_tf fresh_tf);;
  if page =? 0 then freeproc i;; mret None
  else
    pt ← proc_pagetable page;
    upd i (set_pagetable pt);;
    if pt =? 0 then freeproc i;; mret None
    else
      upd i (λ p, set_context (k_forkret, kstack p + PGSIZE) p);;
      mret (Some i).
Definition allocproc : km (option nat) :=
  o ← gets (λ s, index_of (is_state UNUSED) (procs s));
  match o with
  | None => mret None
  | Some i => allocproc_found i
  end.

Definition procinit : km unit :=
  for_procs (λ i, upd i (set_state UNUSED);; upd i (set_kstack (KSTACK i))).

Definition userinit : km unit :=
  o ← allocproc;
  modify (set_initproc o);;
  match o with
  | None => stuck
  | Some i =>
    root ← on_kern (k_namei (lit "/"));
    upd i (set_p_cwd root);;
    mlfq_enqueue i;;
    upd i (set_state RUNNABLE)
  end.

(** [growproc]: [sz + n] is computed in [uint64]. *)
Definition growproc (i : nat) (n : Z) : km Z :=
  p ← the_proc i;
  if 0 <? n then
    if TRAPFRAME <? u64 (sz p + n) then mret (-1)
    else
      s' ← on_kern (k_uvmalloc (pagetable p) (sz p) (u64 (sz p + n)) PTE_W);
      if s' =? 0 then mret (-1) else upd i (set_sz s');; mret 0
  else if n <? 0 then
    s' ← on_kern (k_uvmdealloc (pagetable p) (sz p) (u64 (sz p + n)));
    upd i (set_sz s');; mret 0
  else mret 0.

(** The loop of [kfork] over the open files. *)
Fixpoint dup_files (fs : list Z) : km (list Z) :=
  match fs with
  | [] => mret []
  | f :: rest =>
    g ← (if f =? 0 then mret 0 else on_kern (k_filedup f));
    gs ← dup_files rest;
    mret (g :: gs)
  end.
(** [np->ofile[i]] is only written where the parent has a file open. *)
Definition merge_files (dups old : list Z) : list Z :=
  zip_with (λ d o, if d =? 0 then o else d) dups old.

(** The register [a0] in the trapframe. *)
Definition A0 : nat := 14.

(** [kfork] for the entry [np], up to the [release] of its lock: the pid of
    the child, or [None] if it had to be given up. *)
Definition kfork_child (i np : nat) : km (option Z) :=
  p ← the_proc i;
  q ← the_proc np;
  ok ← on_kern (k_uvmcopy (pagetable p) (pagetable q) (sz p));
  if negb ok then freeproc np;; mret None
  else
    upd np (set_sz (sz p));;
    upd np (set_tf (<[A0 := 0]> (tf p)));;
    fs ← dup_files (ofile p);
    upd np (set_ofile (merge_files fs (ofile q)));;
    c ← on_kern (k_idup (p_cwd p));
    upd np (set_p_cwd c);;
    upd np (set_name (take 15 (name p)));;
    q ← the_proc np;
    mret (Some (pid q)).
(** The last section of [kfork], under the lock of the child again. *)
Definition kfork_start (np : nat) : km unit := mlfq_enqueue np;; upd np (set_state RUNNABLE).

Definition kfork (i : nat) : km Z :=
  o ← allocproc;
  match o with
  | None => mret (-1)
  | Some np =>
    r ← kfork_child i np;
    match r with
    | None => mret (-1)
    | Some n => upd np (set_parent (Some i));; kfork_start np;; mret n
    end
  end.

(** The body of the loop of [reparent]. *)
Definition reparent_proc (i j : nat) : km unit :=
  p ← the_proc j;
  if decide (parent p = Some i) then
    ini ← gets initproc;
    upd j (set_parent ini);;
    wakeup (ChProc <$> ini)
  else mret ().
Definition reparent (i : nat) : km unit := for_procs (reparent_proc i).

Definition exit_close (i fd : nat) : km unit :=
  p ← the_proc i;
  match ofile p !! fd with
  | None => stuck
  | Some f =>
    if f =? 0 then mret ()
    else on_kern (k_fileclose f);; upd i (λ p, set_ofile (<[fd := 0]> (ofile p)) p)
  end.
Definition close_files (i : nat) : km unit := mfor (seq 0 NOFILE) (exit_close i).

(** The end of [kexit], under the lock of the process. *)
Definition kexit_zombie (i : nat) (status : Z) : km unit :=
  upd i (set_xstate status);;
  upd i (set_state ZOMBIE);;
  sched i.

Definition kexit (i : nat) (status : Z) : km unit :=
  ini ← gets initproc;
  if decide (ini = Some i) then stuck
  else
    close_files i;;
    on_kern k_begin_op;;
    p ← the_proc i;
    on_kern (k_iput (p_cwd p));;
    on_kern k_end_op;;
    upd i (set_p_cwd 0);;
    reparent i;;
    p ← the_proc i;
    wakeup (ChProc <$> parent p);;
    kexit_zombie i status.

(** One pass of the loop of [kwait]: the value it returns, or [None] when the
    process has prepared to sleep and will go around again. *)
Definition is_child (i : nat) (p : proc) : bool := bool_decide (parent p = Some i).

(** The section of [kwait] for the zombie child [j], under its lock. *)
Definition kwait_reap (i : nat) (addr : Z) (j : nat) : km (option Z) :=
  pp ← the_proc j;
  p ← the_proc i;
  ok ← (if addr =? 0 then mret true
        else on_kern (k_copyout_int (pagetable p) (sz p) addr (xstate pp)));
  if negb ok then mret (Some (-1))
  else
    upd j (set_parent None);;
    freeproc j;;
    mret (Some (pid pp)).
Definition kwait_pass (i : nat) (addr : Z) : km (option Z) :=
  z ← gets (λ s, index_of (λ p, is_child i p && is_state ZOMBIE p) (procs s));
  match z with
  | Some j => kwait_reap i addr j
  | None =>
    havekids ← gets (λ s, existsb (is_child i) (procs s));
    k ← killed i;
    if negb havekids || k then mret (Some (-1))
    else sleep_prepare i (Some (ChProc i));; mret None
  end.

(** ** Time and system calls *)

Definition count_tick : km unit := t ← gets ticks; modify (set_ticks (u32 (t + 1))).

(** [clockintr] on CPU [cpuid]: one of them counts the ticks. The next
    interrupt it asks for is outside the model. *)
Definition clockintr (cpuid : nat) : km unit :=
  if decide (cpuid = 0%nat) then count_tick;; wakeup (Some ChTicks) else mret ().

(** A timer interrupt on CPU [cpuid] while it runs process [i], or none. *)
Definition timer_interrupt (cpuid : nat) (i : option nat) : km unit :=
  clockintr cpuid;;
  match i with
  | Some i => mlfq_tick i
  | None => mret ()
  end.

Definition sys_getpid (i : nat) : km Z := p ← the_proc i; mret (pid p).

Definition SBRK_EAGER : Z := 1.
Definition sys_sbrk (i : nat) (n t : Z) : km Z :=
  p ← the_proc i;
  let addr := sz p in
  if (t =? SBRK_EAGER) || (n <? 0) then
    r ← growproc i n;
    if r <? 0 then mret (-1) else mret addr
  else if u64 (addr + n) <? addr then mret (-1)
  else if TRAPFRAME <? u64 (addr + n) then mret (-1)
  else upd i (set_sz (u64 (addr + n)));; mret addr.

(** One pass of the loop of [sys_pause] that started at [ticks0]. *)
Definition sys_pause_pass (i : nat) (n ticks0 : Z) : km (option Z) :=
  t ← gets ticks;
  if u32 (t - ticks0) <? u32 (if n <? 0 then 0 else n) then
    k ← killed i;
    if k : bool then mret (Some (-1))
    else sleep_prepare i (Some ChTicks);; mret None
  else mret (Some 0).

Definition sys_kill (n : Z) : km Z := kkill n.
Definition sys_uptime : km Z := gets ticks.
Definition sys_getmlfq (n : Z) : km Z := r ← gets (mlfq_priority_of n); mret (u64 r).
End code.
