(* ===== verification/ProcInv.v ===== *)
(** The invariant of the process table, kept by every operation of Proc.v.

    [Inv R b] is the invariant together with what is known of the states of
    some processes ([R]) and a bound [b] on the queue counter; [keeps n R R' m]
    says that [m] leads from [Inv R b] to [Inv R' (b + n)]: it takes at most
    [n] numbers from the counter. *)
From S2P Require Import Prelude Kalloc Proc.

(** A process that takes part in scheduling. *)
Definition queued (p : proc) : Prop := state p ≠ UNUSED ∧ state p ≠ USED.

(** A well-formed process, given the next pid and the next queue number. *)
Record proc_ok (np sq : Z) (p : proc) : Prop := {
  ok_slice : ∃ sl, slice_of (mlfq_priority p) = Some sl ∧ 0 ≤ mlfq_ticks_used p < sl;
  ok_unused : state p = UNUSED → pid p = 0;
  ok_pid : state p ≠ UNUSED → 0 < pid p < np;
  ok_qtime : queued p → 0 < mlfq_qtime p < sq;
  ok_chan : state p = SLEEPING → chan p ≠ None;
}.

Record table_ok (ps : list proc) (cs : list (option nat)) (np sq : Z) : Prop := {
  t_len : length ps = NPROC;
  t_procs : ∀ i p, ps !! i = Some p → proc_ok np sq p;
  t_pids : ∀ i j p q, ps !! i = Some p → ps !! j = Some q →
    state p ≠ UNUSED → state q ≠ UNUSED → pid p = pid q → i = j;
  t_qtimes : ∀ i j p q, ps !! i = Some p → ps !! j = Some q →
    queued p → queued q → mlfq_qtime p = mlfq_qtime q → i = j;
  t_cpu : ∀ c i, cs !! c = Some (Some i) → ∃ p, ps !! i = Some p ∧ state p = RUNNING;
  t_running : ∀ i p, ps !! i = Some p → state p = RUNNING → ∃ c, cs !! c = Some (Some i);
  t_one : ∀ c c' i, cs !! c = Some (Some i) → cs !! c' = Some (Some i) → c = c';
  t_next : 0 < np;
}.

Lemma proc_ok_mono np sq np' sq' p : np ≤ np' → sq ≤ sq' → proc_ok np sq p → proc_ok np' sq' p.
Proof.
  intros Hn Hs []. split; [done|done|intros h; specialize (ok_pid0 h); lia
    |intros h; specialize (ok_qtime0 h); lia|done].
Qed.

(** Replacing one process: the new one is well formed, its pid and its queue
    number are its own or fresh, and it is running exactly if the old one was. *)
Lemma table_ok_set ps cs np sq np' sq' i p p' :
  table_ok ps cs np sq → ps !! i = Some p → np ≤ np' → sq ≤ sq' → proc_ok np' sq' p' →
  (state p' ≠ UNUSED → (state p ≠ UNUSED ∧ pid p' = pid p) ∨ np ≤ pid p') →
  (queued p' → (queued p ∧ mlfq_qtime p' = mlfq_qtime p) ∨ sq ≤ mlfq_qtime p') →
  (state p' = RUNNING ↔ state p = RUNNING) →
  table_ok (<[i := p']> ps) cs np' sq'.
Proof.
  intros [] Hi Hn Hs Hok Hpid Hq Hrun.
  assert (∀ j q, <[i := p']> ps !! j = Some q → (j = i ∧ q = p') ∨ (j ≠ i ∧ ps !! j = Some q)) as Hl.
  { intros j q Hj. destruct (decide (j = i)) as [->|].
    - rewrite list_lookup_insert_eq in Hj by (by eapply lookup_lt_Some). naive_solver.
    - rewrite list_lookup_insert_ne in Hj by done. by right. }
  split.
  - by rewrite length_insert.
  - intros j q [[-> ->]|[? Hq']]%Hl; [done|]. eapply proc_ok_mono; [done|done|by eapply t_procs0].
  - intros j k q r [[-> ->]|[? Hj]]%Hl [[-> ->]|[? Hk]]%Hl Hq' Hr Heq; [done|..|by eapply t_pids0].
    + destruct (Hpid Hq') as [[? ?]|Hf].
      * eapply t_pids0; [exact Hi|exact Hk|done|done|congruence].
      * pose proof (ok_pid _ _ _ (t_procs0 _ _ Hk) Hr). lia.
    + destruct (Hpid Hr) as [[? ?]|Hf].
      * eapply t_pids0; [exact Hj|exact Hi|done|done|congruence].
      * pose proof (ok_pid _ _ _ (t_procs0 _ _ Hj) Hq'). lia.
  - intros j k q r [[-> ->]|[? Hj]]%Hl [[-> ->]|[? Hk]]%Hl Hq' Hr Heq; [done|..|by eapply t_qtimes0].
    + destruct (Hq Hq') as [[? ?]|Hf].
      * eapply t_qtimes0; [exact Hi|exact Hk|done|done|congruence].
      * pose proof (ok_qtime _ _ _ (t_procs0 _ _ Hk) Hr). lia.
    + destruct (Hq Hr) as [[? ?]|Hf].
      * eapply t_qtimes0; [exact Hj|exact Hi|done|done|congruence].
      * pose proof (ok_qtime _ _ _ (t_procs0 _ _ Hj) Hq'). lia.
  - intros c j Hc. destruct (t_cpu0 c j Hc) as (q & Hj & Hst).
    destruct (decide (j = i)) as [->|].
    + exists p'. rewrite list_lookup_insert_eq by (by eapply lookup_lt_Some).
      split; [done|]. apply Hrun. congruence.
    + exists q. by rewrite list_lookup_insert_ne.
  - intros j q [[-> ->]|[? Hj]]%Hl Hst; [|by eapply t_running0].
    eapply t_running0; [exact Hi|by apply Hrun].
  - done.
  - lia.
Qed.

(** A change that touches none of the fields the invariant speaks of. *)
Definition neutral (f : proc → proc) : Prop :=
  ∀ p, state (f p) = state p ∧ pid (f p) = pid p ∧ mlfq_priority (f p) = mlfq_priority p ∧
    mlfq_ticks_used (f p) = mlfq_ticks_used p ∧ mlfq_qtime (f p) = mlfq_qtime p ∧
    (chan p ≠ None → chan (f p) ≠ None).

Lemma neutral_ok np sq f p : neutral f → proc_ok np sq p → proc_ok np sq (f p).
Proof.
  intros Hf []. destruct (Hf p) as (Es & Ep & Epr & Eu & Eq & Ec).
  split; unfold queued; rewrite ?Es, ?Ep, ?Epr, ?Eu, ?Eq; auto.
Qed.

(** Putting a process on a CPU and taking it off. *)
Lemma table_ok_claim ps cs np sq i p c :
  table_ok ps cs np sq → ps !! i = Some p → state p = RUNNABLE → cs !! c = Some None →
  table_ok (<[i := set_state RUNNING p]> ps) (<[c := Some i]> cs) np sq.
Proof.
  intros Ht Hi Hst Hc. destruct Ht.
  assert (∀ j q, <[i := set_state RUNNING p]> ps !! j = Some q →
    (j = i ∧ q = set_state RUNNING p) ∨ (j ≠ i ∧ ps !! j = Some q)) as Hl.
  { intros j q Hj. destruct (decide (j = i)) as [->|].
    - rewrite list_lookup_insert_eq in Hj by (by eapply lookup_lt_Some). naive_solver.
    - rewrite list_lookup_insert_ne in Hj by done. by right. }
  assert (∀ d j, <[c := Some i]> cs !! d = Some (Some j) →
    (d = c ∧ j = i) ∨ (d ≠ c ∧ cs !! d = Some (Some j))) as Hlc.
  { intros d j Hd. destruct (decide (d = c)) as [->|].
    - rewrite list_lookup_insert_eq in Hd by (by eapply lookup_lt_Some). naive_solver.
    - rewrite list_lookup_insert_ne in Hd by done. by right. }
  assert (∀ d, cs !! d ≠ Some (Some i)) as Hni.
  { intros d Hd. destruct (t_cpu0 d i Hd) as (q & Hq & ?). congruence. }
  assert (state p ≠ UNUSED ∧ state p ≠ USED) as Hqp by (rewrite Hst; done).
  split.
  - by rewrite length_insert.
  - intros j q [[-> ->]|[? Hq']]%Hl; [|by eapply t_procs0].
    destruct (t_procs0 _ _ Hi). split; simpl; try done.
    + intros _. apply ok_pid0. by rewrite Hst.
    + intros _. by apply ok_qtime0.
  - intros j k q r [[-> ->]|[? Hj]]%Hl [[-> ->]|[? Hk]]%Hl Hq' Hr Heq; [done|..|by eapply t_pids0].
    + eapply t_pids0; [exact Hi|exact Hk|by rewrite Hst|done|done].
    + eapply t_pids0; [exact Hj|exact Hi|done|by rewrite Hst|done].
  - intros j k q r [[-> ->]|[? Hj]]%Hl [[-> ->]|[? Hk]]%Hl Hq' Hr Heq; [done|..|by eapply t_qtimes0].
    + eapply t_qtimes0; [exact Hi|exact Hk|done|done|done].
    + eapply t_qtimes0; [exact Hj|exact Hi|done|done|done].
  - intros d j [[-> ->]|[? Hd]]%Hlc.
    + eexists. rewrite list_lookup_insert_eq by (by eapply lookup_lt_Some). done.
    + destruct (t_cpu0 d j Hd) as (q & Hq & ?). exists q.
      rewrite list_lookup_insert_ne; [done|]. intros ->. by destruct (Hni d).
  - intros j q [[-> ->]|[? Hj]]%Hl Hr.
    + exists c. by rewrite list_lookup_insert_eq by (by eapply lookup_lt_Some).
    + destruct (t_running0 j q Hj Hr) as (d & Hd). exists d.
      rewrite list_lookup_insert_ne; [done|]. intros ->. congruence.
  - intros d d' j [[-> ->]|[? Hd]]%Hlc [[-> Hj]|[? Hd']]%Hlc; [done|..|by eapply t_one0].
    + by destruct (Hni d').
    + subst j. by destruct (Hni d).
  - done.
Qed.

Definition leave (i : nat) (cs : list (option nat)) : list (option nat) :=
  (λ c, if decide (c = Some i) then None else c) <$> cs.

Lemma table_ok_leave ps cs np sq i p p' :
  table_ok ps cs np sq → ps !! i = Some p → state p = RUNNING → state p' ≠ RUNNING → queued p' →
  pid p' = pid p → mlfq_qtime p' = mlfq_qtime p → proc_ok np sq p' →
  table_ok (<[i := p']> ps) (leave i cs) np sq.
Proof.
  intros Ht Hi Hst Hst' Hq Hpid Hqt Hok. destruct Ht.
  assert (∀ j q, <[i := p']> ps !! j = Some q → (j = i ∧ q = p') ∨ (j ≠ i ∧ ps !! j = Some q)) as Hl.
  { intros j q Hj. destruct (decide (j = i)) as [->|].
    - rewrite list_lookup_insert_eq in Hj by (by eapply lookup_lt_Some). naive_solver.
    - rewrite list_lookup_insert_ne in Hj by done. by right. }
  assert (∀ d j, leave i cs !! d = Some (Some j) ↔ j ≠ i ∧ cs !! d = Some (Some j)) as Hlc.
  { intros d j. unfold leave. rewrite list_lookup_fmap. destruct (cs !! d) as [x|]; simpl; [|naive_solver].
    case_decide as Hx; [naive_solver|]. split; [|naive_solver]. intros [= ->]. naive_solver. }
  assert (queued p) as Hqp by (unfold queued; rewrite Hst; done).
  split.
  - by rewrite length_insert.
  - intros j q [[-> ->]|[? Hq']]%Hl; [done|by eapply t_procs0].
  - intros j k q r [[-> ->]|[? Hj]]%Hl [[-> ->]|[? Hk]]%Hl Hq' Hr Heq; [done|..|by eapply t_pids0].
    + eapply t_pids0; [exact Hi|exact Hk|by rewrite Hst|done|congruence].
    + eapply t_pids0; [exact Hj|exact Hi|done|by rewrite Hst|congruence].
  - intros j k q r [[-> ->]|[? Hj]]%Hl [[-> ->]|[? Hk]]%Hl Hq' Hr Heq; [done|..|by eapply t_qtimes0].
    + eapply t_qtimes0; [exact Hi|exact Hk|done|done|congruence].
    + eapply t_qtimes0; [exact Hj|exact Hi|done|done|congruence].
  - intros d j [Hji Hd]%Hlc. destruct (t_cpu0 d j Hd) as (q & ? & ?). exists q.
    by rewrite list_lookup_insert_ne.
  - intros j q [[-> ->]|[? Hj]]%Hl Hr; [done|]. destruct (t_running0 j q Hj Hr) as (d & Hd).
    exists d. by apply Hlc.
  - intros d d' j [_ Hd]%Hlc [_ Hd']%Hlc. by eapply t_one0.
  - done.
Qed.

(** ** The rules *)

Section rules.
Context {K : Type} `{KernelOps K}.
Implicit Types (R : gmap nat procstate) (s : kstate K).
Abbreviation km := (M (kstate K)).

Definition has_state (i : nat) (st : procstate) (s : kstate K) : Prop :=
  ∃ p, procs s !! i = Some p ∧ state p = st.

Record Inv (R : gmap nat procstate) (b : Z) (s : kstate K) : Prop := {
  inv_table : table_ok (procs s) (cpus s) (nextpid s) (mlfq_seq_counter s);
  inv_seq : 0 < mlfq_seq_counter s ≤ b;
  inv_known : ∀ i st, R !! i = Some st → has_state i st s;
}.

Definition keeps {A} (n : nat) (R R' : gmap nat procstate) (m : km A) : Prop :=
  ∀ b s a s', b + Z.of_nat n < 2 ^ 64 → Inv R b s → m s = Some (a, s') →
    Inv R' (b + Z.of_nat n) s'.

Lemma inv_mono R R' b b' s : R' ⊆ R → b ≤ b' → Inv R b s → Inv R' b' s.
Proof.
  intros HR Hb []. split; [done|lia|]. intros i st Hi. apply inv_known0. by eapply lookup_weaken.
Qed.

Lemma keeps_mono {A} n n' R1 R1' R2 R2' (m : km A) :
  keeps n R1 R2 m → (n ≤ n')%nat → R1 ⊆ R1' → R2' ⊆ R2 → keeps n' R1' R2' m.
Proof.
  intros Hm Hn H1 H2 b s a s' Hb Hs E. eapply inv_mono; [exact H2| |eapply Hm; [|  |exact E]].
  - instantiate (1 := b). lia.
  - lia.
  - by eapply inv_mono; [exact H1| |exact Hs].
Qed.

Lemma keeps_bind {A B} n1 n2 R1 R2 R3 (m : km A) (f : A → km B) :
  keeps n1 R1 R2 m → (∀ a, keeps n2 R2 R3 (f a)) → keeps (n1 + n2) R1 R3 (m ≫= f).
Proof.
  intros Hm Hf b s x s' Hb Hs (a & s1 & E1 & E2)%bind_Some.
  replace (b + Z.of_nat (n1 + n2)) with ((b + Z.of_nat n1) + Z.of_nat n2) by lia.
  eapply Hf; [lia| |exact E2]. eapply Hm; [lia|exact Hs|exact E1].
Qed.
Lemma keeps_ret {A} R (a : A) : keeps 0 R R (mret a).
Proof. intros b s x s' Hb Hs [= _ <-]. by rewrite Z.add_0_r. Qed.
Lemma keeps_gets {A} R (f : kstate K → A) : keeps 0 R R (gets f).
Proof. intros b s x s' Hb Hs [= _ <-]. by rewrite Z.add_0_r. Qed.
Lemma keeps_stuck {A} n R R' : keeps n R R' (stuck (A := A)).
Proof. intros b s x s' Hb Hs E. done. Qed.
Lemma keeps_kern {A} R (m : M K A) : keeps 0 R R (on_kern m).
Proof.
  intros b s x s' Hb [] E. unfold on_kern in E. destruct (m (kern s)) as [[a k]|]; [|done].
  injection E as <- <-. rewrite Z.add_0_r. by split.
Qed.
Lemma keeps_when n R b (m : km unit) : keeps n R R m → keeps n R R (when b m).
Proof.
  intros Hm. destruct b; [done|]. unfold when. eapply keeps_mono; [apply keeps_ret|lia|done|done].
Qed.
Lemma keeps_mfor {A} n R (xs : list A) (body : A → km unit) :
  (∀ x, keeps n R R (body x)) → keeps (n * length xs) R R (mfor xs body).
Proof.
  intros Hb. induction xs as [|x xs IH]; simpl.
  - rewrite Nat.mul_0_r. apply keeps_ret.
  - rewrite Nat.mul_succ_r, Nat.add_comm. eapply keeps_bind; [apply Hb|by intros []].
Qed.

(** Reading a process: its state is the known one, and it is well formed. *)
Lemma keeps_the_proc {A} n R R' i (k : proc → km A) :
  (∀ p, (∀ st, R !! i = Some st → state p = st) → keeps n R R' (k p)) →
  keeps n R R' (the_proc i ≫= k).
Proof.
  intros Hk b s a s' Hb Hs (p & s1 & E1 & E2)%bind_Some. unfold the_proc in E1.
  destruct (procs s !! i) as [q|] eqn:Hq; [|done]. injection E1 as <- <-.
  eapply Hk; [|done|exact Hs|exact E2]. intros st Hst.
  destruct (inv_known _ _ _ Hs _ _ Hst) as (q' & ? & <-). congruence.
Qed.

(** The state after [upd]. *)
Lemma upd_eq i f s p :
  procs s !! i = Some p → upd i f s = Some ((), set_procs (<[i := f p]> (procs s)) s).
Proof. intros E. unfold upd, modify. by rewrite (list_alter_insert _ _ _ _ E). Qed.
Lemma upd_none i f s : procs s !! i = None → upd i f s = Some ((), s).
Proof. intros E. unfold upd, modify. rewrite list_alter_ge by done. by destruct s. Qed.

Lemma known_insert R s i p p' ps' :
  (∀ j st, R !! j = Some st → has_state j st s) → procs s !! i = Some p →
  (∀ st, R !! i = Some st → state p' = st) → ps' = <[i := p']> (procs s) →
  ∀ j st, R !! j = Some st → ∃ q, ps' !! j = Some q ∧ state q = st.
Proof.
  intros HR Hi Hp' -> j st Hj. destruct (decide (j = i)) as [->|].
  - exists p'. rewrite list_lookup_insert_eq by (by eapply lookup_lt_Some). auto.
  - destruct (HR j st Hj) as (q & ? & ?). exists q. by rewrite list_lookup_insert_ne.
Qed.

Lemma keeps_neutral R i f : neutral f → keeps 0 R R (upd i f).
Proof.
  intros Hf b s [] s' Hb [Ht Hseq HR] E. rewrite Z.add_0_r.
  destruct (procs s !! i) as [p|] eqn:Hi.
  2:{ rewrite upd_none in E by done. by injection E as <-. }
  rewrite (upd_eq _ _ _ _ Hi) in E. injection E as <-. destruct (Hf p) as (Es & Ep & _ & _ & Eq & _).
  split; simpl; [|done|].
  - eapply table_ok_set; [exact Ht|exact Hi|lia|lia|by apply neutral_ok, (t_procs _ _ _ _ Ht i)|..].
    + rewrite Es. intros Hn. by left.
    + unfold queued. rewrite Es. intros Hn. by left.
    + by rewrite Es.
  - intros j st Hj. eapply known_insert; [exact HR|exact Hi| |done|exact Hj].
    intros st' Hst'. rewrite Es. destruct (HR i st' Hst') as (q & ? & ?). congruence.
Qed.

(** The state after [mlfq_enqueue]. *)
Lemma enqueue_eq i s p :
  procs s !! i = Some p → 0 ≤ mlfq_seq_counter s < 2 ^ 64 - 1 →
  mlfq_enqueue i s = Some ((), set_seq (mlfq_seq_counter s + 1)
    (set_procs (<[i := set_qtime (mlfq_seq_counter s) (set_used 0 p)]> (procs s)) s)).
Proof.
  intros Hi Hs. unfold mlfq_enqueue. rewrite (bind_eq _ _ _ _ _ (upd_eq _ _ _ _ Hi)).
  unfold mlfq_next_seq. rewrite (bind_eq _ _ _ (mlfq_seq_counter s)
    (set_seq (mlfq_seq_counter s + 1) (set_procs (<[i := set_used 0 p]> (procs s)) s))).
  2:{ unfold gets, modify, mbind, M_bind, mret, M_ret. simpl. rewrite u64_id by lia. done. }
  rewrite (upd_eq i _ _ (set_used 0 p)).
  2:{ simpl. by rewrite list_lookup_insert_eq by (by eapply lookup_lt_Some). }
  simpl. by rewrite list_insert_insert_eq.
Qed.
Lemma enqueue_none i s :
  procs s !! i = None → 0 ≤ mlfq_seq_counter s < 2 ^ 64 - 1 →
  mlfq_enqueue i s = Some ((), set_seq (mlfq_seq_counter s + 1) s).
Proof.
  intros Hi Hs. unfold mlfq_enqueue. rewrite (bind_eq _ _ _ _ _ (upd_none _ _ _ Hi)).
  unfold mlfq_next_seq, gets, modify, mbind, M_bind, mret, M_ret. simpl.
  rewrite u64_id by lia. by rewrite upd_none.
Qed.

(** A fresh queue number, with a level that has a slice and an allowed change
    of state: what [mlfq_enqueue] and the assignments around it amount to. *)
Lemma requeue R b s i p p' :
  Inv R b s → procs s !! i = Some p → mlfq_qtime p' = mlfq_seq_counter s → mlfq_ticks_used p' = 0 →
  0 ≤ mlfq_priority p' < MLFQ_LEVELS → pid p' = pid p → (state p' = UNUSED ↔ state p = UNUSED) →
  (state p' = RUNNING ↔ state p = RUNNING) → (state p' = SLEEPING → chan p' ≠ None) →
  (∀ st, R !! i = Some st → state p' = st) →
  Inv R (b + 1) (set_seq (mlfq_seq_counter s + 1) (set_procs (<[i := p']> (procs s)) s)).
Proof.
  intros [Ht Hseq HR] Hi Hq Hu Hp Hpid Hun Hrun Hch Hst.
  pose proof (t_procs _ _ _ _ Ht i p Hi) as [Hsl Hpu Hpp Hpq Hpc].
  split; simpl; [|lia|].
  - eapply table_ok_set; [exact Ht|exact Hi|lia|lia| | | |done].
    + split.
      * rewrite Hu. unfold slice_of. rewrite (proj2 (Z.ltb_ge _ _)) by lia.
        assert (mlfq_priority p' = 0 ∨ mlfq_priority p' = 1 ∨ mlfq_priority p' = 2 ∨ mlfq_priority p' = 3)
          as [-> | [-> | [-> | ->]]] by (unfold MLFQ_LEVELS in *; lia); eexists; split; done || lia.
      * intros Hs. rewrite Hpid. apply Hpu. by apply Hun.
      * intros Hs. rewrite Hpid. apply Hpp. by rewrite <-Hun.
      * intros _. rewrite Hq. lia.
      * done.
    + intros Hs. left. split; [by rewrite <-Hun|done].
    + intros _. right. lia.
  - intros j st Hj. eapply known_insert; [exact HR|exact Hi|exact Hst|done|exact Hj].
Qed.

Lemma slice_range v sl : slice_of v = Some sl → 0 ≤ v < MLFQ_LEVELS.
Proof.
  unfold slice_of. destruct (v <? 0) eqn:E; [done|]. intros Hs%lookup_lt_Some.
  unfold mlfq_slice, MLFQ_LEVELS in *. simpl in Hs. lia.
Qed.
Lemma prio_range np sq p : proc_ok np sq p → 0 ≤ mlfq_priority p < MLFQ_LEVELS.
Proof. intros [(sl & Hs & _) _ _ _ _]. by eapply slice_range. Qed.

Lemma keeps_enqueue R i : keeps 1 R R (mlfq_enqueue i).
Proof.
  intros b s [] s' Hb Hs E. pose proof (inv_seq _ _ _ Hs) as Hq.
  destruct (procs s !! i) as [p|] eqn:Hi.
  - rewrite (enqueue_eq i s p) in E by (done || lia). injection E as <-.
    pose proof (t_procs _ _ _ _ (inv_table _ _ _ Hs) i p Hi) as Hok.
    change (b + Z.of_nat 1) with (b + 1). eapply requeue; [exact Hs|exact Hi|done|done|..]; simpl.
    + by eapply prio_range. + done. + done. + done.
    + apply (ok_chan _ _ _ Hok).
    + intros st Hst. destruct (inv_known _ _ _ Hs _ _ Hst) as (q & ? & <-). congruence.
  - rewrite enqueue_none in E by (done || lia). injection E as <-. destruct Hs. split; simpl; [|lia|done].
    destruct inv_table0. split; try done.
    intros j q Hj. eapply proc_ok_mono; [| |by eapply t_procs0]; lia.
Qed.

(** ** Single critical sections *)

(** [upd] followed by [mlfq_enqueue] of the same process. *)
Lemma upd_enqueue_eq i f s p :
  procs s !! i = Some p → 0 ≤ mlfq_seq_counter s < 2 ^ 64 - 1 →
  (upd i f;; mlfq_enqueue i) s = Some ((), set_seq (mlfq_seq_counter s + 1)
    (set_procs (<[i := set_qtime (mlfq_seq_counter s) (set_used 0 (f p))]> (procs s)) s)).
Proof.
  intros Hi Hs. rewrite (bind_eq _ _ _ _ _ (upd_eq _ _ _ _ Hi)).
  rewrite (enqueue_eq i _ (f p)); [|simpl|done].
  - simpl. by rewrite list_insert_insert_eq.
  - by rewrite list_lookup_insert_eq by (by eapply lookup_lt_Some).
Qed.

(** What is known of a process, read back. *)
Lemma known_state R b s i p st :
  Inv R b s → procs s !! i = Some p → R !! i = Some st → state p = st.
Proof. intros Hs Hi Hst. destruct (inv_known _ _ _ Hs _ _ Hst) as (q & ? & <-). congruence. Qed.

Lemma keeps_boost_proc R i : keeps 1 R R (boost_proc i).
Proof.
  intros b s [] s' Hb Hs (p & s1 & E1 & E)%bind_Some. unfold the_proc in E1.
  destruct (procs s !! i) as [q|] eqn:Hi; [|done]. injection E1 as -> <-.
  pose proof (inv_seq _ _ _ Hs) as Hq.
  unfold is_state in E. case_bool_decide as Hst; simpl in E.
  { injection E as <-. by eapply inv_mono; [| |exact Hs]; [|lia]. }
  unfold when in E. rewrite (upd_enqueue_eq i _ s p) in E by (done || lia). injection E as <-.
  eapply requeue; [exact Hs|exact Hi|done|done|..]; simpl; try done.
  - apply (ok_chan _ _ _ (t_procs _ _ _ _ (inv_table _ _ _ Hs) i p Hi)).
  - intros st. by eapply known_state.
Qed.

Lemma keeps_boost_all R : keeps NPROC R R mlfq_boost_all.
Proof.
  unfold mlfq_boost_all, for_procs.
  eapply (keeps_mono (1 * length (seq 0 NPROC))); [apply keeps_mfor, keeps_boost_proc|by rewrite length_seq|done..].
Qed.

Lemma keeps_maybe_boost R : keeps NPROC R R mlfq_maybe_boost.
Proof.
  unfold mlfq_maybe_boost. change NPROC with (0 + (0 + NPROC))%nat.
  eapply keeps_bind; [apply keeps_gets|intros now]. eapply keeps_bind; [apply keeps_gets|intros last].
  destruct (_ <=? _); [|eapply keeps_mono; [apply keeps_ret|lia|done|done]].
  change NPROC with (0 + NPROC)%nat. eapply keeps_bind; [|intros _; apply keeps_boost_all].
  intros b s [] s' Hb [] [= <-]. rewrite Z.add_0_r. by split.
Qed.

(** No process is known to be asleep. *)
Definition awake R : Prop := ∀ i, R !! i ≠ Some SLEEPING.

(** A sleeping process becomes runnable, at the tail of its queue. *)
Lemma wake_one R b s i p p0 :
  awake R → Inv R b s → mlfq_seq_counter s < 2 ^ 64 - 1 → procs s !! i = Some p →
  state p0 = SLEEPING → state p = SLEEPING → pid p0 = pid p → mlfq_priority p0 = mlfq_priority p →
  Inv R (b + 1) (set_seq (mlfq_seq_counter s + 1)
    (set_procs (<[i := set_state RUNNABLE (set_qtime (mlfq_seq_counter s) (set_used 0 p0))]>
      (procs s)) s)).
Proof.
  intros HR Hs Hq Hi Hst0 Hst Hpid Hpr.
  eapply requeue; [exact Hs|exact Hi|done|done|..]; simpl; try done.
  - rewrite Hpr. eapply prio_range, (t_procs _ _ _ _ (inv_table _ _ _ Hs) i p Hi).
  - by rewrite Hst.
  - by rewrite Hst.
  - intros st Hi'. pose proof (known_state _ _ _ _ _ _ Hs Hi Hi') as E.
    rewrite Hst in E. subst st. by destruct (HR i).
Qed.

Lemma keeps_wakeup_proc R c i : awake R → keeps 1 R R (wakeup_proc c i).
Proof.
  intros HR b s [] s' Hb Hs (p & s1 & E1 & E)%bind_Some. unfold the_proc in E1.
  destruct (procs s !! i) as [q|] eqn:Hi; [|done]. injection E1 as -> <-.
  pose proof (inv_seq _ _ _ Hs) as Hq. destruct (decide (chan p = c)).
  2:{ injection E as <-. by eapply inv_mono; [| |exact Hs]; [|lia]. }
  unfold is_state in E. case_bool_decide as Hst; unfold when in E.
  - rewrite <-(bind_assoc (upd i (set_chan None))), (bind_eq _ _ _ _ _ (upd_enqueue_eq i _ s p Hi ltac:(lia))) in E.
    rewrite (upd_eq i _ _ (set_qtime (mlfq_seq_counter s) (set_used 0 (set_chan None p)))) in E.
    2:{ simpl. by rewrite list_lookup_insert_eq by (by eapply lookup_lt_Some). }
    injection E as <-. simpl. rewrite list_insert_insert_eq. (eapply wake_one; [exact HR|exact Hs|lia|exact Hi|done..]).
  - rewrite (bind_eq _ _ _ _ _ (upd_eq _ _ _ _ Hi)) in E. injection E as <-.
    eapply (inv_mono R R b); [done|lia|]. destruct Hs as [Ht ? HR']. split; simpl; [|done|].
    + pose proof (t_procs _ _ _ _ Ht i p Hi) as []. eapply table_ok_set; [exact Ht|exact Hi|lia|lia|..].
      * by split.
      * by left.
      * by left.
      * done.
    + intros j st Hj. eapply known_insert; [exact HR'|exact Hi| |done|exact Hj].
      intros st' Hst'. simpl. destruct (HR' i st' Hst') as (q & ? & <-). congruence.
Qed.

Lemma keeps_wakeup R c : awake R → keeps NPROC R R (wakeup c).
Proof.
  intros HR. unfold wakeup, for_procs.
  eapply (keeps_mono (1 * length (seq 0 NPROC))); [|by rewrite length_seq|done..].
  apply keeps_mfor. intros i. by apply keeps_wakeup_proc.
Qed.

Lemma keeps_kill_proc R i : awake R → keeps 1 R R (kill_proc i).
Proof.
  intros HR. unfold kill_proc. change 1%nat with (0 + 1)%nat. eapply keeps_bind; [by apply keeps_neutral|intros _].
  intros b s x s' Hb Hs (p & s1 & E1 & E)%bind_Some. unfold the_proc in E1.
  destruct (procs s !! i) as [q|] eqn:Hi; [|done]. injection E1 as -> <-.
  pose proof (inv_seq _ _ _ Hs) as Hq. unfold is_state in E. case_bool_decide as Hst; unfold when in E.
  - rewrite bind_assoc, (bind_eq _ _ _ _ _ (enqueue_eq i s p Hi ltac:(lia))) in E.
    erewrite bind_eq in E.
    2:{ apply (upd_eq i _ _ (set_qtime (mlfq_seq_counter s) (set_used 0 p))). simpl.
        by rewrite list_lookup_insert_eq by (by eapply lookup_lt_Some). }
    injection E as _ <-. simpl. rewrite list_insert_insert_eq. (eapply wake_one; [exact HR|exact Hs|lia|exact Hi|done..]).
  - injection E as _ <-. by eapply inv_mono; [| |exact Hs]; [|lia].
Qed.

Lemma keeps_kkill R n : awake R → keeps 1 R R (kkill n).
Proof.
  intros HR. unfold kkill. change 1%nat with (0 + 1)%nat.
  eapply keeps_bind; [apply keeps_gets|intros [i|]]; [by apply keeps_kill_proc|].
  eapply keeps_mono; [apply keeps_ret|lia|done|done].
Qed.

Lemma set_procs_twice l l' s : set_procs l (set_procs l' s) = set_procs l s.
Proof. done. Qed.

(** Setting a process's used ticks below its slice, or demoting it. *)
Lemma keeps_account R i : keeps 1 R R (mlfq_account i).
Proof.
  intros b s x s' Hb Hs E. pose proof (inv_seq _ _ _ Hs) as Hq.
  unfold mlfq_account in E. destruct (procs s !! i) as [p|] eqn:Hi.
  2:{ rewrite (bind_eq _ _ _ _ _ (upd_none _ _ _ Hi)) in E.
      unfold the_proc, mbind, M_bind in E. by rewrite Hi in E. }
  pose proof (t_procs _ _ _ _ (inv_table _ _ _ Hs) i p Hi) as Hok.
  destruct (ok_slice _ _ _ Hok) as (sl & Hsl & Hused). pose proof (slice_range _ _ Hsl) as Hpr.
  rewrite (bind_eq _ _ _ _ _ (upd_eq _ _ _ _ Hi)) in E.
  set (p1 := set_used (mlfq_ticks_used p + 1) p) in E. set (s1 := set_procs _ s) in E.
  assert (procs s1 !! i = Some p1) as Hi1.
  { unfold s1. simpl. by rewrite list_lookup_insert_eq by (by eapply lookup_lt_Some). }
  rewrite (bind_eq _ _ _ p1 s1) in E by (unfold the_proc; by rewrite Hi1).
  change (mlfq_priority p1) with (mlfq_priority p) in E. rewrite Hsl in E.
  change (mlfq_ticks_used p1) with (mlfq_ticks_used p + 1) in E.
  change (b + Z.of_nat 1) with (b + 1).
  destruct (sl <=? mlfq_ticks_used p + 1) eqn:Hle.
  - set (f := if mlfq_priority p <? MLFQ_LEVELS - 1 then λ p, set_prio (mlfq_priority p + 1) p else id).
    assert (when (mlfq_priority p <? MLFQ_LEVELS - 1) (upd i (λ p, set_prio (mlfq_priority p + 1) p)) s1
      = upd i f s1) as Ew.
    { unfold f, when. destruct (_ <? _); [done|]. unfold upd, modify, mret, M_ret.
      rewrite (list_alter_insert _ _ _ _ Hi1). unfold id. rewrite list_insert_id by done. by destruct s. }
    assert ((upd i f;; mlfq_enqueue i;; mret true) s1 = Some (x, s')) as E'.
    { revert E. unfold mbind, M_bind. by rewrite Ew. }
    rewrite <-(bind_assoc (upd i f)) in E'.
    assert (0 ≤ mlfq_seq_counter s1 < 2 ^ 64 - 1) as Hq1 by (unfold s1; simpl; lia).
    rewrite (bind_eq _ _ _ _ _ (upd_enqueue_eq i f s1 p1 Hi1 Hq1)) in E'.
    injection E' as _ <-. unfold s1. simpl. rewrite list_insert_insert_eq, set_procs_twice.
    eapply requeue; [exact Hs|exact Hi|..]; unfold f; destruct (_ <? _) eqn:Hlt; simpl; try done; try lia.
    + apply (ok_chan _ _ _ Hok).
    + apply (ok_chan _ _ _ Hok).
    + intros st. by eapply known_state.
    + intros st. by eapply known_state.
  - injection E as _ <-. apply (inv_mono R R b); [done|lia|]. destruct Hs as [Ht ? HR]. split; simpl; [|done|].
    + destruct Hok. eapply table_ok_set; [exact Ht|exact Hi|lia|lia|..].
      * split; simpl; try done. exists sl. split; [done|lia].
      * by left.
      * by left.
      * done.
    + intros j st Hj. eapply known_insert; [exact HR|exact Hi| |done|exact Hj].
      intros st' Hst'. simpl. destruct (HR i st' Hst') as (q & ? & <-). congruence.
Qed.

(** Leaving the CPU in another state. *)
Lemma keeps_leave R i st f :
  R !! i = Some RUNNING → neutral f →
  st = RUNNABLE ∨ st = ZOMBIE ∨ st = SLEEPING →
  ∀ b s s', Inv R b s → (st = SLEEPING → ∀ p, procs s !! i = Some p → chan p ≠ None) →
  (upd i (λ p, set_state st (f p));; sched i) s = Some ((), s') → Inv (<[i := st]> R) b s'.
Proof.
  intros HRi Hf Hst b s s' Hs Hch E. destruct (inv_known _ _ _ Hs _ _ HRi) as (p & Hi & Hrun).
  rewrite (bind_eq _ _ _ _ _ (upd_eq _ _ _ _ Hi)) in E. set (p' := set_state st (f p)) in E.
  unfold sched in E.
  rewrite (bind_eq _ _ _ p' (set_procs (<[i := p']> (procs s)) s)) in E.
  2:{ unfold the_proc. simpl. by rewrite list_lookup_insert_eq by (by eapply lookup_lt_Some). }
  assert (state p' ≠ RUNNING) as Hnr by (unfold p'; simpl; naive_solver).
  unfold is_state in E. rewrite bool_decide_false in E by done. injection E as <-.
  destruct Hs as [Ht ? HR]. destruct (Hf p) as (Es & Ep & Epr & Eu & Eq & Ec).
  split; simpl; [|done|].
  - pose proof (t_procs _ _ _ _ Ht i p Hi) as [Hsl _ Hpid Hq _].
    eapply table_ok_leave; [exact Ht|exact Hi|done|done| |done|done|].
    + unfold queued, p'. simpl. naive_solver.
    + split; unfold p'; simpl.
      * by rewrite Epr, Eu.
      * naive_solver.
      * intros _. rewrite Ep. apply Hpid. by rewrite Hrun.
      * intros _. rewrite Eq. apply Hq. unfold queued. by rewrite Hrun.
      * intros ->. apply Ec. by eapply Hch.
  - intros j st' Hj. destruct (decide (j = i)) as [->|Hne].
    + rewrite lookup_insert_eq in Hj. injection Hj as <-. exists p'. simpl.
      by rewrite list_lookup_insert_eq by (by eapply lookup_lt_Some).
    + rewrite lookup_insert_ne in Hj by done. destruct (HR j st' Hj) as (q & ? & ?).
      exists q. simpl. by rewrite list_lookup_insert_ne.
Qed.

Lemma keeps_yield R i : R !! i = Some RUNNING → keeps 0 R (<[i := RUNNABLE]> R) (yield i).
Proof.
  intros HR b s [] s' Hb Hs E. rewrite Z.add_0_r.
  eapply (keeps_leave R i RUNNABLE id); [done|by intros p|by left|exact Hs|done|exact E].
Qed.

Lemma keeps_sleep R i : R !! i = Some RUNNING → keeps 0 R (delete i R) (sleep i).
Proof.
  intros HR b s [] s' Hb Hs (p & s1 & E1 & E)%bind_Some. unfold the_proc in E1.
  destruct (procs s !! i) as [q|] eqn:Hi; [|done]. injection E1 as -> <-. rewrite Z.add_0_r.
  destruct (chan p) as [c|] eqn:Hc.
  - apply (inv_mono (<[i := SLEEPING]> R) _ b); [|done|].
    { apply map_subseteq_spec. intros j x [? Hj]%lookup_delete_Some. by rewrite lookup_insert_ne. }
    eapply (keeps_leave R i SLEEPING id); [done|by intros p'|auto|exact Hs| |exact E].
    intros _ p' Hp'. assert (p' = p) as -> by congruence. by rewrite Hc.
  - injection E as <-. eapply inv_mono; [apply delete_subseteq|done|exact Hs].
Qed.

Lemma keeps_mlfq_tick i : keeps (NPROC + 1) {[i := RUNNING]} ∅ (mlfq_tick i).
Proof.
  unfold mlfq_tick. eapply keeps_bind; [apply keeps_maybe_boost|intros _].
  change 1%nat with (1 + 0)%nat. eapply keeps_bind; [apply keeps_account|intros need].
  apply keeps_the_proc. intros p _. change 0%nat with (0 + 0)%nat.
  eapply keeps_bind; [apply keeps_gets|intros higher]. unfold when. destruct (_ || _).
  - eapply keeps_mono; [apply (keeps_yield {[i := RUNNING]}); apply lookup_insert_eq|done|done|].
    apply map_empty_subseteq.
  - eapply keeps_mono; [apply keeps_ret|done|done|apply map_empty_subseteq].
Qed.

(** The scheduler takes a runnable process to an idle CPU. *)
Lemma claim_inv R b s c i s' :
  Inv R b s → R !! i = None → cpus s !! c = Some None → scheduler_claim c i s = Some ((), s') →
  Inv R b s'.
Proof.
  intros Hs HRi Hc (p & s1 & E1 & E)%bind_Some. unfold the_proc in E1.
  destruct (procs s !! i) as [q|] eqn:Hi; [|done]. injection E1 as -> <-.
  unfold is_state in E. case_bool_decide as Hst; unfold when in E; [|by injection E as <-].
  rewrite (bind_eq _ _ _ _ _ (upd_eq _ _ _ _ Hi)) in E. injection E as <-.
  destruct Hs as [Ht ? HR]. split; simpl; [|done|].
  - by apply table_ok_claim.
  - intros j st Hj. eapply known_insert; [exact HR|exact Hi| |done|exact Hj].
    intros st' Hst'. congruence.
Qed.
End rules.
