(* ===== verification/ProcSteps.v ===== *)
(** The life of processes: every operation keeps the invariant, and so does
    every sequence of operations by the CPUs from boot on. *)
From S2P Require Import Prelude Kalloc Proc ProcInv.

Section life.
Context {K : Type} `{KernelOps K}.
Implicit Types (R : gmap nat procstate) (s : kstate K).
Abbreviation km := (M (kstate K)).
Abbreviation keeps := (ProcInv.keeps (K := K)).
Abbreviation Inv := (ProcInv.Inv (K := K)).

Lemma keeps_at {A} n R R' (m : km A) b s a s' :
  keeps n R R' m → b + Z.of_nat n < 2 ^ 64 → Inv R b s → m s = Some (a, s') → Inv R' (b + Z.of_nat n) s'.
Proof. intros Hm. apply Hm. Qed.
Lemma keeps_at0 {A} R R' (m : km A) b s a s' :
  keeps 0 R R' m → b < 2 ^ 64 → Inv R b s → m s = Some (a, s') → Inv R' b s'.
Proof. intros Hm Hb Hs E. rewrite <-(Z.add_0_r b). eapply (Hm b s a s'); [lia|done|done]. Qed.

(** What is read of a process may be added to what is known. *)
Lemma learn R b s i p : Inv R b s → procs s !! i = Some p → Inv (<[i := state p]> R) b s.
Proof.
  intros [Ht Hq HR] Hi. split; [done|done|]. intros j st Hj. destruct (decide (j = i)) as [->|].
  - rewrite lookup_insert_eq in Hj. injection Hj as <-. by exists p.
  - rewrite lookup_insert_ne in Hj by done. by apply HR.
Qed.

(** Follow the program text where every change is neutral. *)
Ltac step0 :=
  repeat match goal with
    | |- keeps 0 _ _ (the_proc _ ≫= _) => apply keeps_the_proc; intros ? ?
    | |- keeps 0 _ _ (mbind _ _) => eapply (keeps_bind 0 0); [|intros ?]
    | |- keeps 0 _ _ (mret _) => apply keeps_ret
    | |- keeps 0 _ _ (gets _) => apply keeps_gets
    | |- keeps 0 _ _ (on_kern _) => apply keeps_kern
    | |- keeps 0 _ _ (upd _ _) => apply keeps_neutral; by intros ?
    | |- keeps 0 _ _ stuck => apply keeps_stuck
    | |- keeps 0 _ _ (when _ _) => apply keeps_when
    | |- keeps 0 _ _ (match ?x with _ => _ end) => destruct x
    end.

Lemma keeps_reset R i st :
  R !! i = Some st → st ≠ RUNNING → keeps 0 R (<[i := UNUSED]> R) (upd i reset_proc).
Proof.
  intros HRi Hst b s [] s' Hb Hs E. rewrite Z.add_0_r.
  destruct (inv_known _ _ _ Hs _ _ HRi) as (p & Hi & Hp).
  rewrite (upd_eq _ _ _ _ Hi) in E. injection E as <-. destruct Hs as [Ht ? HR].
  split; simpl; [|done|].
  - pose proof (t_procs _ _ _ _ Ht i p Hi) as []. eapply table_ok_set; [exact Ht|exact Hi|lia|lia|..].
    + split; simpl; try done. by intros [].
    + done.
    + by intros [].
    + simpl. by rewrite Hp.
  - intros j st' Hj. destruct (decide (j = i)) as [->|].
    + rewrite lookup_insert_eq in Hj. injection Hj as <-. exists (reset_proc p). simpl.
      by rewrite list_lookup_insert_eq by (by eapply lookup_lt_Some).
    + rewrite lookup_insert_ne in Hj by done. destruct (HR j st' Hj) as (q & ? & ?).
      exists q. simpl. by rewrite list_lookup_insert_ne.
Qed.

Lemma keeps_freepagetable R pt size : keeps 0 R R (proc_freepagetable pt size).
Proof. unfold proc_freepagetable. step0. Qed.
Lemma keeps_pagetable R a : keeps 0 R R (proc_pagetable a).
Proof. unfold proc_pagetable. step0. Qed.

Lemma keeps_freeproc R i st :
  R !! i = Some st → st ≠ RUNNING → keeps 0 R (<[i := UNUSED]> R) (freeproc i).
Proof.
  intros HRi Hst. unfold freeproc. apply keeps_the_proc. intros p _.
  eapply (keeps_bind 0 0); [apply keeps_when, keeps_kern|intros _].
  eapply (keeps_bind 0 0); [apply keeps_when, keeps_freepagetable|intros _].
  by eapply keeps_reset.
Qed.

(** No process is known to be unused. *)
Definition no_unused R : Prop := ∀ i, R !! i ≠ Some UNUSED.

Lemma new_proc_inv R b s i p :
  Inv R b s → procs s !! i = Some p → state p = UNUSED → R !! i = None →
  Inv (<[i := USED]> R) b
    (set_procs (<[i := new_proc (nextpid s) p]> (procs s)) (set_nextpid (nextpid s + 1) s)).
Proof.
  intros [Ht Hseq HR] Hi Hst HRi. pose proof (t_next _ _ _ _ Ht) as Hnp. split; simpl; [|done|].
  - eapply table_ok_set; [exact Ht|exact Hi|lia|lia|..].
    + split; simpl; try done; try lia.
      * exists 1. split; [done|lia].
      * by intros [].
    + simpl. right. lia.
    + by intros [].
    + simpl. by rewrite Hst.
  - intros j st' Hj. destruct (decide (j = i)) as [->|].
    + rewrite lookup_insert_eq in Hj. injection Hj as <-. exists (new_proc (nextpid s) p). simpl.
      by rewrite list_lookup_insert_eq by (by eapply lookup_lt_Some).
    + rewrite lookup_insert_ne in Hj by done. destruct (HR j st' Hj) as (q & ? & ?).
      exists q. simpl. by rewrite list_lookup_insert_ne.
Qed.

(** [allocproc]: a fresh process in state [USED], or nothing changed. *)
Definition allocated R b (o : option nat) s' : Prop :=
  match o with
  | Some i => R !! i = None ∧ Inv (<[i := USED]> R) b s'
  | None => Inv R b s'
  end.
Lemma allocproc_found_inv R b s i o s' :
  no_unused R → b < 2 ^ 64 → Inv R b s → has_state i UNUSED s →
  allocproc_found i s = Some (o, s') → allocated R b o s'.
Proof.
  intros HR Hb Hs (p & Hi & Hst). unfold allocproc_found, allocated.
  assert (R !! i = None) as HRi.
  { destruct (R !! i) as [st|] eqn:E; [|done].
    pose proof (known_state _ _ _ _ _ _ Hs Hi E) as E'. rewrite Hst in E'. subst st. by destruct (HR i). }
  intros (n & s1 & E1 & E)%bind_Some. unfold allocpid in E1.
  rewrite (bind_eq _ _ _ (nextpid s) s) in E1 by done.
  destruct (nextpid s <? INT_MAX); [|done]. injection E1 as <- <-.
  rewrite (bind_eq _ _ _ _ _ (upd_eq i (new_proc (nextpid s)) (set_nextpid (nextpid s + 1) s) p Hi)) in E.
  pose proof (new_proc_inv R b s i p Hs Hi Hst HRi) as H1. simpl in E.
  set (s1 := set_procs _ _) in *. set (R1 := <[i := USED]> R) in *.
  assert (∀ s2 s3, Inv R1 b s2 → freeproc i s2 = Some ((), s3) → Inv R b s3) as Hfree.
  { intros s2 s3 H2 E3. eapply keeps_at0 in E3;
      [|eapply (keeps_freeproc R1 i USED); [apply lookup_insert_eq|done]|done|exact H2].
    eapply inv_mono; [|done|exact E3]. unfold R1. rewrite insert_insert_eq. by apply insert_subseteq. }
  apply bind_Some in E as (page & s2 & E2 & E). eapply keeps_at0 in E2; [|apply keeps_kern|done|exact H1].
  apply bind_Some in E as ([] & s3 & E3 & E).
  eapply keeps_at0 in E3; [|by apply keeps_neutral|done|exact E2].
  apply bind_Some in E as ([] & s4 & E4 & E).
  eapply keeps_at0 in E4; [|by apply keeps_neutral|done|exact E3].
  destruct (page =? 0).
  { apply bind_Some in E as ([] & s5 & E5 & E). injection E as <- <-. by eapply Hfree. }
  apply bind_Some in E as (pt & s5 & E5 & E). eapply keeps_at0 in E5; [|apply keeps_pagetable|done|exact E4].
  apply bind_Some in E as ([] & s6 & E6 & E).
  eapply keeps_at0 in E6; [|by apply keeps_neutral|done|exact E5].
  destruct (pt =? 0).
  { apply bind_Some in E as ([] & s7 & E7 & E). injection E as <- <-. by eapply Hfree. }
  apply bind_Some in E as ([] & s7 & E7 & E).
  eapply keeps_at0 in E7; [|by apply keeps_neutral|done|exact E6]. injection E as <- <-. by split.
Qed.

Lemma allocproc_inv R b s o s' :
  no_unused R → b < 2 ^ 64 → Inv R b s → allocproc s = Some (o, s') → allocated R b o s'.
Proof.
  intros HR Hb Hs. unfold allocproc.
  rewrite (bind_eq _ _ _ (index_of (is_state UNUSED) (procs s)) s) by done.
  destruct (index_of (is_state UNUSED) (procs s)) as [i|] eqn:Hix; [|by intros [= <- <-]].
  apply index_of_Some in Hix as (p & Hi & Hst%bool_decide_eq_true & _).
  eapply allocproc_found_inv; [done|done|done|by exists p].
Qed.

(** A new process enters the queues. *)
Lemma keeps_start R i : R !! i = Some USED → keeps 1 R (<[i := RUNNABLE]> R) (kfork_start i).
Proof.
  intros HRi b s [] s' Hb Hs E. unfold kfork_start in E. destruct (inv_known _ _ _ Hs _ _ HRi) as (p & Hi & Hp).
  pose proof (inv_seq _ _ _ Hs) as Hq.
  rewrite (bind_eq _ _ _ _ _ (enqueue_eq i s p Hi ltac:(lia))) in E.
  rewrite (upd_eq i _ _ (set_qtime (mlfq_seq_counter s) (set_used 0 p))) in E.
  2:{ simpl. by rewrite list_lookup_insert_eq by (by eapply lookup_lt_Some). }
  injection E as <-. simpl. rewrite list_insert_insert_eq.
  pose proof (t_procs _ _ _ _ (inv_table _ _ _ Hs) i p Hi) as Hok.
  set (p' := set_state RUNNABLE _).
  assert (Inv (delete i R) (b + 1) (set_seq (mlfq_seq_counter s + 1)
    (set_procs (<[i := p']> (procs s)) s))) as Hd.
  { eapply requeue; [eapply inv_mono; [apply delete_subseteq|done|exact Hs]|exact Hi|done|done|..];
      simpl; try done.
    - by eapply prio_range.
    - by rewrite Hp.
    - by rewrite Hp.
    - intros st. by rewrite lookup_delete_eq. }
  change (b + Z.of_nat 1) with (b + 1). apply (learn _ _ _ i p') in Hd.
  - simpl in Hd. by rewrite insert_delete_eq in Hd.
  - simpl. by rewrite list_lookup_insert_eq by (by eapply lookup_lt_Some).
Qed.

Lemma keeps_dup_files R fs : keeps 0 R R (dup_files fs).
Proof. induction fs as [|f fs IH]; simpl; step0. apply IH. Qed.

(** The child of [kfork] is still [USED] when its lock is released. *)
Lemma kfork_child_inv R i np b s r s' :
  b < 2 ^ 64 → R !! np = None → Inv (<[np := USED]> R) b s → kfork_child i np s = Some (r, s') →
  match r with Some _ => Inv (<[np := USED]> R) b s' | None => Inv R b s' end.
Proof.
  intros Hb HR Hs E. set (R1 := <[np := USED]> R) in *.
  assert (R ⊆ R1) as Hsub by (by apply insert_subseteq).
  assert (keeps 0 R1 R (kfork_child i np)) as Hfree.
  { unfold kfork_child. apply keeps_the_proc; intros p _. apply keeps_the_proc; intros q _.
    eapply (keeps_bind 0 0); [apply keeps_kern|intros ok]. destruct (negb ok).
    - eapply (keeps_bind 0 0); [by eapply keeps_freeproc; [apply lookup_insert_eq|]|intros _].
      eapply keeps_mono; [apply keeps_ret|done|reflexivity|]. unfold R1. rewrite insert_insert_eq. by apply insert_subseteq.
    - eapply keeps_mono; [|done|reflexivity|exact Hsub]. step0. apply keeps_dup_files. }
  destruct r as [n|]; [|by eapply (keeps_at0 R1 R)].
  unfold kfork_child in E. apply bind_Some in E as (p & s1 & E1 & E). apply bind_Some in E as (q & s2 & E2 & E).
  apply bind_Some in E as (ok & s3 & E3 & E).
  assert (s2 = s) as ->.
  { unfold the_proc in E1, E2. destruct (procs s !! i); [|done]. injection E1 as _ <-.
    destruct (procs s !! np); [|done]. by injection E2 as _ <-. }
  eapply (keeps_at0 R1 R1) in E3; [|apply keeps_kern|done|done].
  destruct ok; [|by apply bind_Some in E as (? & ? & _ & ?)]. cbn [negb] in E.
  revert E. apply (keeps_at0 R1 R1); [|done|done]. step0. apply keeps_dup_files.
Qed.

Lemma kfork_inv i b s n s' :
  b + 1 < 2 ^ 64 → Inv {[i := RUNNING]} b s → kfork i s = Some (n, s') →
  Inv {[i := RUNNING]} (b + 1) s'.
Proof.
  intros Hb Hs (o & s1 & E1 & E)%bind_Some.
  assert (∀ s2, Inv {[i := RUNNING]} b s2 → Inv {[i := RUNNING]} (b + 1) s2) as Hup.
  { intros s2 H2. by eapply inv_mono; [| |exact H2]; [|lia]. }
  apply (allocproc_inv {[i := RUNNING]} b) in E1; [|by intros j [_ ?]%lookup_singleton_Some|lia|done].
  destruct o as [np|]; [|injection E as _ <-; by apply Hup].
  destruct E1 as [HRnp H1]. apply bind_Some in E as (r & s2 & E2 & E).
  apply (kfork_child_inv {[i := RUNNING]} i np b) in E2; [|lia|done|done].
  destruct r as [m|]; [|injection E as _ <-; by apply Hup].
  apply bind_Some in E as ([] & s3 & E3 & E). eapply (keeps_at0 _ _ _ b) in E3; [|by apply keeps_neutral|lia|exact E2].
  apply bind_Some in E as ([] & s4 & E4 & [= _ <-]).
  eapply (keeps_at _ _ _ _ b) in E4; [|apply keeps_start, lookup_insert_eq|simpl; lia|exact E3].
  eapply inv_mono; [|reflexivity|exact E4]. rewrite insert_insert_eq. by apply insert_subseteq.
Qed.

Lemma keeps_exit_close R i fd : keeps 0 R R (exit_close i fd).
Proof. unfold exit_close. step0. Qed.
Lemma keeps_close_files R i : keeps 0 R R (close_files i).
Proof.
  unfold close_files. change 0%nat with (0 * length (seq 0 NOFILE))%nat at 1.
  apply keeps_mfor, keeps_exit_close.
Qed.

Lemma keeps_reparent_proc R i j : awake R → keeps NPROC R R (reparent_proc i j).
Proof.
  intros HR. apply keeps_the_proc. intros p _. destruct (decide (parent p = Some i)).
  - change NPROC with (0 + (0 + NPROC))%nat. eapply keeps_bind; [apply keeps_gets|intros ini].
    eapply keeps_bind; [by apply keeps_neutral|intros _]. by apply keeps_wakeup.
  - eapply keeps_mono; [apply keeps_ret|lia|done|done].
Qed.

Lemma keeps_reparent R i : awake R → keeps (NPROC * NPROC) R R (reparent i).
Proof.
  intros HR. unfold reparent, for_procs.
  eapply (keeps_mono (NPROC * length (seq 0 NPROC))); [|by rewrite length_seq|done..].
  apply keeps_mfor. intros j. by apply keeps_reparent_proc.
Qed.

Lemma awake_running i : awake {[i := RUNNING]}.
Proof. intros j [_ ?]%lookup_singleton_Some. done. Qed.

Lemma keeps_kexit_zombie R i status :
  R !! i = Some RUNNING → keeps 0 R (<[i := ZOMBIE]> R) (kexit_zombie i status).
Proof.
  intros HR. eapply (keeps_bind 0 0); [by apply keeps_neutral|intros _].
  intros b s [] s' Hb Hs E. rewrite Z.add_0_r.
  eapply (keeps_leave R i ZOMBIE id); [done|by intros ?|auto|exact Hs|done|exact E].
Qed.

Lemma keeps_kexit i status : keeps (NPROC * NPROC + NPROC) {[i := RUNNING]} ∅ (kexit i status).
Proof.
  unfold kexit. pose proof (awake_running i) as Haw.
  eapply (keeps_bind 0 (NPROC * NPROC + NPROC)); [apply keeps_gets|intros ini]. destruct (decide _); [apply keeps_stuck|].
  eapply (keeps_bind 0 (NPROC * NPROC + NPROC)); [apply keeps_close_files|intros _].
  eapply (keeps_bind 0 (NPROC * NPROC + NPROC)); [apply keeps_kern|intros _]. apply keeps_the_proc. intros p _.
  do 2 (eapply (keeps_bind 0 (NPROC * NPROC + NPROC)); [apply keeps_kern|intros _]).
  eapply (keeps_bind 0 (NPROC * NPROC + NPROC)); [by apply keeps_neutral|intros _].
  eapply (keeps_bind (NPROC * NPROC) NPROC); [by apply keeps_reparent|intros _]. apply keeps_the_proc. intros p' _.
  eapply (keeps_bind NPROC 0); [by apply keeps_wakeup|intros _].
  eapply keeps_mono; [apply (keeps_kexit_zombie {[i := RUNNING]}), lookup_insert_eq|done|reflexivity|].
  apply map_empty_subseteq.
Qed.

Lemma kwait_reap_inv i j addr b s r s' :
  b < 2 ^ 64 → Inv {[i := RUNNING]} b s → has_state j ZOMBIE s → kwait_reap i addr j s = Some (r, s') →
  Inv {[i := RUNNING]} b s'.
Proof.
  intros Hb Hs (p & Hp & Hz). pose proof (learn _ _ _ j p Hs Hp) as Hs'. rewrite Hz in Hs'.
  assert (j ≠ i) as Hji.
  { intros ->. pose proof (known_state _ _ _ _ _ RUNNING Hs Hp ltac:(apply lookup_insert_eq)). congruence. }
  assert (∀ st, ({[i := RUNNING]} : gmap nat procstate) ⊆ <[j := st]> {[i := RUNNING]}) as Hsub.
  { intros st. apply insert_subseteq. by rewrite lookup_singleton_ne. }
  eapply (keeps_at0 (<[j := ZOMBIE]> {[i := RUNNING]})); [|done|exact Hs'].
  apply keeps_the_proc. intros pp _. apply keeps_the_proc. intros q _.
  eapply (keeps_bind 0 0); [destruct (addr =? 0); step0|intros ok]. destruct (negb ok).
  { eapply keeps_mono; [apply keeps_ret|done|reflexivity|apply Hsub]. }
  eapply (keeps_bind 0 0); [by apply keeps_neutral|intros _].
  eapply (keeps_bind 0 0); [eapply keeps_freeproc; [apply lookup_insert_eq|done]|intros _].
  eapply keeps_mono; [apply keeps_ret|done|reflexivity|]. rewrite insert_insert_eq. apply Hsub.
Qed.

Lemma kwait_inv i addr b s r s' :
  b < 2 ^ 64 → Inv {[i := RUNNING]} b s → kwait_pass i addr s = Some (r, s') → Inv {[i := RUNNING]} b s'.
Proof.
  intros Hb Hs. unfold kwait_pass.
  rewrite (bind_eq _ _ _ (index_of (λ p, is_child i p && is_state ZOMBIE p) (procs s)) s) by done.
  destruct (index_of _ (procs s)) as [j|] eqn:Hj.
  2:{ eapply (keeps_at0 {[i := RUNNING]}); [|done|done]. unfold killed, sleep_prepare. step0. }
  apply index_of_Some in Hj as (p & Hp & [_ Hz%bool_decide_eq_true]%andb_true_iff & _).
  eapply kwait_reap_inv; [done|done|by exists p].
Qed.

Lemma keeps_growproc R i n : keeps 0 R R (growproc i n).
Proof. unfold growproc. step0. Qed.
Lemma keeps_sbrk R i n t : keeps 0 R R (sys_sbrk i n t).
Proof. unfold sys_sbrk. step0; apply keeps_growproc. Qed.
Lemma keeps_pause R i n t0 : keeps 0 R R (sys_pause_pass i n t0).
Proof. unfold sys_pause_pass, killed, sleep_prepare. step0. Qed.
Lemma keeps_count_tick R : keeps 0 R R count_tick.
Proof.
  eapply (keeps_bind 0 0); [apply keeps_gets|intros t]. intros b s [] s' Hb [] [= <-]. rewrite Z.add_0_r. by split.
Qed.
Lemma keeps_clockintr R c : awake R → keeps NPROC R R (clockintr c).
Proof.
  intros HR. unfold clockintr. destruct (decide (c = 0%nat)).
  - eapply (keeps_bind 0 NPROC); [apply keeps_count_tick|intros _; by apply keeps_wakeup].
  - eapply keeps_mono; [apply keeps_ret|lia|done|done].
Qed.
Lemma keeps_timer c i : keeps (NPROC + (NPROC + 1)) {[i := RUNNING]} ∅ (timer_interrupt c (Some i)).
Proof.
  unfold timer_interrupt. eapply keeps_bind; [apply keeps_clockintr, awake_running|intros _].
  apply keeps_mlfq_tick.
Qed.
Lemma keeps_timer_idle c R : awake R → keeps NPROC R R (timer_interrupt c None).
Proof.
  intros HR. unfold timer_interrupt. change NPROC with (NPROC + 0)%nat.
  eapply keeps_bind; [by apply keeps_clockintr|intros _; apply keeps_ret].
Qed.

(** ** The machine *)

(** One critical section of an operation: what a CPU does between [acquire]
    and [release] of the lock of a process ([wait_lock], [tickslock],
    [mlfq_boost_lock] for those of no process). The sections of the operations of
    different CPUs come in any order; what a CPU has read in an earlier
    section may be out of date ([now], the children it has seen). *)
Inductive section_step : kstate K → kstate K → Prop :=
| cs_count_tick s s' : count_tick s = Some ((), s') → section_step s s'
| cs_wakeup c i s s' : wakeup_proc c i s = Some ((), s') → section_step s s'
| cs_last_boost now s :
    MLFQ_BOOST_INTERVAL ≤ u32 (now - mlfq_last_boost s) → section_step s (set_last_boost now s)
| cs_boost i s s' : boost_proc i s = Some ((), s') → section_step s s'
| cs_account i s r s' : has_state i RUNNING s → mlfq_account i s = Some (r, s') → section_step s s'
| cs_kill n i p s r s' :
    procs s !! i = Some p → pid p = n → kill_proc i s = Some (r, s') → section_step s s'
| cs_fork i j s r s' :
    has_state i RUNNING s → has_state j UNUSED s →
    (o ← allocproc_found j; match o with Some np => kfork_child i np | None => mret None end) s = Some (r, s') →
    section_step s s'
| cs_parent j par s s' : upd j (set_parent par) s = Some ((), s') → section_step s s'
| cs_start j s s' : has_state j USED s → kfork_start j s = Some ((), s') → section_step s s'
| cs_close i fd s s' : has_state i RUNNING s → exit_close i fd s = Some ((), s') → section_step s s'
| cs_cwd i s s' : has_state i RUNNING s → upd i (set_p_cwd 0) s = Some ((), s') → section_step s s'
| cs_zombie i status s s' :
    has_state i RUNNING s → kexit_zombie i status s = Some ((), s') → section_step s s'
| cs_reap i addr j p s r s' :
    has_state i RUNNING s → procs s !! j = Some p → parent p = Some i → state p = ZOMBIE →
    kwait_reap i addr j s = Some (r, s') → section_step s s'.

(** One step of the machine: a section as above, or a whole operation, by a CPU
    that is idle or by the process it runs. *)
Inductive kstep : kstate K → kstate K → Prop :=
| step_section s s' : section_step s s' → kstep s s'
| step_claim c i s s' :
    cpus s !! c = Some None → scheduler_claim c i s = Some ((), s') → kstep s s'
| step_timer c i s s' :
    cpus s !! c = Some (Some i) → timer_interrupt c (Some i) s = Some ((), s') → kstep s s'
| step_timer_idle c s s' :
    cpus s !! c = Some None → timer_interrupt c None s = Some ((), s') → kstep s s'
| step_clock c s s' : clockintr c s = Some ((), s') → kstep s s'
| step_tick i s s' : has_state i RUNNING s → mlfq_tick i s = Some ((), s') → kstep s s'
| step_yield i s s' : has_state i RUNNING s → yield i s = Some ((), s') → kstep s s'
| step_fork i s n s' : has_state i RUNNING s → kfork i s = Some (n, s') → kstep s s'
| step_exit i status s s' : has_state i RUNNING s → kexit i status s = Some ((), s') → kstep s s'
| step_wait i addr s r s' :
    has_state i RUNNING s → kwait_pass i addr s = Some (r, s') → kstep s s'
| step_prepare i c s s' : has_state i RUNNING s → sleep_prepare i c s = Some ((), s') → kstep s s'
| step_sleep i s s' : has_state i RUNNING s → sleep i s = Some ((), s') → kstep s s'
| step_wakeup c s s' : wakeup c s = Some ((), s') → kstep s s'
| step_kill n s r s' : kkill n s = Some (r, s') → kstep s s'
| step_setkilled i s s' : setkilled i s = Some ((), s') → kstep s s'
| step_sbrk i n t s r s' : has_state i RUNNING s → sys_sbrk i n t s = Some (r, s') → kstep s s'
| step_pause i n t0 s r s' :
    has_state i RUNNING s → sys_pause_pass i n t0 s = Some (r, s') → kstep s s'
| step_other s (k : K) : kstep s (set_kern k s).

(** The zeroed memory the kernel starts with, and [procinit], [userinit]. *)
Definition zero_proc : proc :=
  mkproc UNUSED None false 0 0 None 0 0 0 0 [] (0, 0) (replicate NOFILE 0) 0 [] 0 0 0.
Definition boot_state (ncpu : nat) (k : K) : kstate K :=
  mkKstate (replicate NPROC zero_proc) (replicate ncpu None) None 1 1 0 0 k.
Definition boot : km unit := procinit;; userinit.

(** At most this many queue numbers are taken by one operation. *)
Definition STEP_MAX : Z := 4224.

(** The reachable states, as long as the 64-bit queue counter is far from
    its end. *)
Inductive kreach : kstate K → Prop :=
| kreach_boot ncpu k s : boot (boot_state ncpu k) = Some ((), s) → kreach s
| kreach_step s s' : kreach s → mlfq_seq_counter s + STEP_MAX < 2 ^ 64 → kstep s s' → kreach s'.

Definition kinv (s : kstate K) : Prop :=
  table_ok (procs s) (cpus s) (nextpid s) (mlfq_seq_counter s) ∧ 0 < mlfq_seq_counter s.

Lemma kinv_Inv s : kinv s → Inv ∅ (mlfq_seq_counter s) s.
Proof. intros (Ht & Hq). split; [done|lia|]. intros i st Hi. by rewrite lookup_empty in Hi. Qed.
Lemma kinv_running s i : kinv s → has_state i RUNNING s → Inv {[i := RUNNING]} (mlfq_seq_counter s) s.
Proof.
  intros Hk (p & Hp & Hr). apply kinv_Inv in Hk. apply (learn _ _ _ i p) in Hk; [|done].
  by rewrite Hr in Hk.
Qed.

Lemma Inv_kinv R b s : Inv R b s → kinv s.
Proof. intros [Ht Hq _]. split; [done|lia]. Qed.

Lemma awake_empty : awake ∅.
Proof. intros j Hj. by rewrite lookup_empty in Hj. Qed.

(** An operation that keeps the invariant, from any state and from one where
    process [i] runs. *)
Lemma keeps_kinv {A} n (m : km A) s a s' :
  m s = Some (a, s') → keeps n ∅ ∅ m → mlfq_seq_counter s + Z.of_nat n < 2 ^ 64 → kinv s → kinv s'.
Proof. intros E Hm Hb Hk. eapply Inv_kinv, Hm; [exact Hb|by apply kinv_Inv|exact E]. Qed.
Lemma keeps_running {A} n R (m : km A) i s a s' :
  m s = Some (a, s') → keeps n {[i := RUNNING]} R m → mlfq_seq_counter s + Z.of_nat n < 2 ^ 64 → kinv s →
  has_state i RUNNING s → kinv s'.
Proof. intros E Hm Hb Hk Hr. eapply Inv_kinv, Hm; [exact Hb|by apply kinv_running|exact E]. Qed.

Lemma section_kinv s s' :
  mlfq_seq_counter s + STEP_MAX < 2 ^ 64 → kinv s → section_step s s' → kinv s'.
Proof.
  intros Hb Hk Hstep. unfold STEP_MAX in Hb.
  revert Hb Hk. destruct Hstep as [s s' E|c i s s' E|now s _|i s s' E|i s r s' Hr E|n i p s r s' _ _ E
    |i j s r s' Hr Hj E|j par s s' E|j s s' Hj E|i fd s s' _ E|i s s' _ E|i st s s' Hr E
    |i addr j p s r s' Hr Hj _ Hz E]; intros Hb Hk.
  - eapply keeps_kinv; [exact E|apply keeps_count_tick|lia|done].
  - eapply keeps_kinv; [exact E|apply keeps_wakeup_proc, awake_empty|lia|done].
  - by destruct Hk.
  - eapply keeps_kinv; [exact E|apply keeps_boost_proc|lia|done].
  - eapply keeps_kinv; [exact E|apply keeps_account|lia|done].
  - eapply keeps_kinv; [exact E|apply keeps_kill_proc, awake_empty|lia|done].
  - apply bind_Some in E as (o & s1 & E1 & E).
    apply (allocproc_found_inv {[i := RUNNING]} (mlfq_seq_counter s)) in E1;
      [|by intros k [_ ?]%lookup_singleton_Some|lia|by apply kinv_running|done].
    destruct o as [np|]; [|injection E as _ <-; by eapply Inv_kinv].
    destruct E1 as [HR H1]. eapply kfork_child_inv in E; [|  |exact HR|exact H1]; [|lia].
    destruct r; by eapply Inv_kinv.
  - eapply keeps_kinv; [exact E|by apply keeps_neutral|lia|done].
  - destruct Hj as (p & Hp & Hu). pose proof (learn _ _ _ j p (kinv_Inv _ Hk) Hp) as Hs. rewrite Hu in Hs.
    eapply Inv_kinv, (keeps_start (<[j := USED]> ∅)); [apply lookup_insert_eq| |exact Hs|exact E]. simpl. lia.
  - eapply keeps_kinv; [exact E|apply keeps_exit_close|lia|done].
  - eapply keeps_kinv; [exact E|by apply keeps_neutral|lia|done].
  - eapply keeps_running; [exact E|apply keeps_kexit_zombie, lookup_insert_eq|lia|done|done].
  - eapply Inv_kinv, kwait_reap_inv; [|by apply (kinv_running s i)|by exists p|exact E]. lia.
Qed.

Lemma kstep_kinv s s' :
  mlfq_seq_counter s + STEP_MAX < 2 ^ 64 → kinv s → kstep s s' → kinv s'.
Proof.
  intros Hb Hk Hstep.
  revert Hb Hk. destruct Hstep as [s s' Hs|c i s s' Hc E|c i s s' Hc E|c s s' _ E|c s s' E|i s s' Hr E
    |i s s' Hr E|i s n s' Hr E|i st s s' Hr E|i a s r s' Hr E
    |i c s s' Hr E|i s s' Hr E|c s s' E|n s r s' E|i s s' E|i n t s r s' Hr E|i n t0 s r s' Hr E|s k];
    intros Hb Hk; [by eapply section_kinv|unfold STEP_MAX in Hb..].
  - by eapply Inv_kinv, (claim_inv ∅); [apply kinv_Inv| |exact Hc|exact E].
  - eapply keeps_running; [exact E|apply keeps_timer| |done| ].
    + change (Z.of_nat (NPROC + (NPROC + 1))) with 129. lia.
    + destruct Hk as [Ht _]. by eapply t_cpu.
  - eapply keeps_kinv; [exact E|apply keeps_timer_idle, awake_empty| |done]. unfold NPROC. lia.
  - eapply keeps_kinv; [exact E|apply keeps_clockintr, awake_empty| |done]. unfold NPROC. lia.
  - eapply keeps_running; [exact E|apply keeps_mlfq_tick| |done|done]. unfold NPROC. lia.
  - eapply keeps_running; [exact E|apply keeps_yield, lookup_insert_eq|lia|done|done].
  - eapply Inv_kinv, kfork_inv; [|by apply (kinv_running s i)|exact E]. lia.
  - eapply keeps_running; [exact E|apply keeps_kexit| |done|done].
    change (Z.of_nat (NPROC * NPROC + NPROC)) with 4160. lia.
  - eapply Inv_kinv, kwait_inv; [|by apply (kinv_running s i)|exact E]. lia.
  - eapply (keeps_kinv 0); [exact E|unfold sleep_prepare; step0|lia|done].
  - eapply keeps_running; [exact E|apply keeps_sleep, lookup_insert_eq|lia|done|done].
  - eapply keeps_kinv; [exact E|apply keeps_wakeup, awake_empty| |done]. unfold NPROC. lia.
  - eapply keeps_kinv; [exact E|apply keeps_kkill, awake_empty|lia|done].
  - eapply (keeps_kinv 0); [exact E|unfold setkilled; step0|lia|done].
  - eapply keeps_kinv; [exact E|apply keeps_sbrk|lia|done].
  - eapply keeps_kinv; [exact E|apply keeps_pause|lia|done].
  - done.
Qed.

Lemma boot_state_ok ncpu k : Inv ∅ 1 (boot_state ncpu k).
Proof.
  assert (∀ i p, replicate NPROC zero_proc !! i = Some p → p = zero_proc) as Hz.
  { intros i p Hi%lookup_replicate_1. apply Hi. }
  assert (∀ c i, replicate ncpu (A := option nat) None !! c ≠ Some (Some i)) as Hc.
  { intros c i Hi%lookup_replicate_1. destruct Hi as [? _]. done. }
  split; [|simpl; lia|by intros i st Hi; rewrite lookup_empty in Hi].
  unfold boot_state; split; cbn [procs cpus nextpid mlfq_seq_counter].
  - apply length_replicate.
  - intros i p ->%Hz. split; simpl; try done; [|by intros []]. exists 1. split; [done|lia].
  - intros i j p q ->%Hz _ Hp. done.
  - intros i j p q ->%Hz _ [? _]. done.
  - intros c i Hi. by destruct (Hc c i).
  - intros i p ->%Hz Hr. done.
  - intros c c' i Hi. by destruct (Hc c i).
  - lia.
Qed.

Lemma procinit_ok s0 :
  Inv ∅ 1 s0 → Forall (λ p, state p = UNUSED) (procs s0) →
  ∃ s, procinit s0 = Some ((), s) ∧ Inv ∅ 1 s ∧ Forall (λ p, state p = UNUSED) (procs s).
Proof.
  intros H0 Hall0. unfold procinit, for_procs.
  apply (mfor_inv (λ s, Inv ∅ 1 s ∧ Forall (λ p, state p = UNUSED) (procs s))); [done|].
  intros i s1 _ [Hs Hall].
  assert (upd i (Proc.set_state UNUSED) s1 = Some ((), s1)) as Eu.
  { destruct (procs s1 !! i) as [p|] eqn:Hi; [|by rewrite upd_none].
    rewrite (upd_eq _ _ _ _ Hi). assert (Proc.set_state UNUSED p = p) as ->.
    { pose proof (Forall_lookup_1 _ _ _ _ Hall Hi) as Hp. destruct p. simpl in Hp. by subst. }
    rewrite list_insert_id by done. by destruct s1. }
  eexists. split; [rewrite (bind_eq _ _ _ _ _ Eu); reflexivity|]. split.
  - eapply (keeps_at0 ∅ ∅ (upd i (set_kstack (KSTACK i)))); [|done|exact Hs|reflexivity].
    by apply keeps_neutral.
  - cbn [procs set_procs]. by apply Forall_alter.
Qed.

Lemma boot_kinv s0 s :
  Inv ∅ 1 s0 → Forall (λ p, state p = UNUSED) (procs s0) → boot s0 = Some ((), s) → kinv s.
Proof.
  intros H0 Hall0. unfold boot. intros ([] & s1 & E1 & E)%bind_Some.
  destruct (procinit_ok s0 H0 Hall0) as (s1' & E1' & H1 & _). rewrite E1' in E1. injection E1 as ->.
  apply bind_Some in E as (o & s2 & E2 & E).
  apply (allocproc_inv ∅ 1) in E2; [|by intros j Hj; rewrite lookup_empty in Hj|done|done].
  apply bind_Some in E as ([] & s3 & [= <-] & E). destruct o as [i|]; [|done].
  destruct E2 as [_ H2]. set (s3 := set_initproc (Some i) s2) in *.
  assert (Inv (<[i := USED]> ∅) 1 s3) as H3 by (destruct H2; by split).
  apply bind_Some in E as (root & s4 & E4 & E). eapply (keeps_at0 _ _ _ 1) in E4; [|apply keeps_kern|lia|exact H3].
  apply bind_Some in E as ([] & s5 & E5 & E). eapply (keeps_at0 _ _ _ 1) in E5; [|by apply keeps_neutral|lia|exact E4].
  eapply Inv_kinv, (keeps_start (<[i := USED]> ∅) i); [apply lookup_insert_eq| |exact E5|exact E]. lia.
Qed.

(** C4: The process table is well formed in every state reachable from boot
    by the operations of any number of CPUs, interleaved at the granularity
    of their critical sections: a boost, a wakeup, a fork, an exit and a wait
    may run in one go or be broken up where they release a lock, with
    sections and operations of other CPUs in between, and timer interrupts
    come on any CPU (CPU 0 alone counts the ticks). In all of them every level
    indexes [mlfq_slice] and every process has used less than the slice of
    its level; live processes have distinct positive pids below [nextpid] and
    free entries have pid 0; processes in the queues have distinct arrival
    numbers, so the choice of the scheduler is never ambiguous; a sleeping
    process has a channel; and exactly the running processes are on a CPU,
    each on one. The states considered are those before [nextpid], an [int],
    and the 64-bit queue counter come to their ends. *)
Theorem process_table_invariant s :
  kreach s → table_ok (procs s) (cpus s) (nextpid s) (mlfq_seq_counter s).
Proof.
  intros Hr. enough (kinv s) by apply H0.
  induction Hr as [ncpu k s E|s s' _ IH Hb Hstep]; [|by eapply kstep_kinv].
  eapply boot_kinv; [apply boot_state_ok| |exact E]. by apply Forall_replicate.
Qed.
End life.

(** ** A concrete kernel *)

(** Memory never runs out, all calls succeed. *)
Definition demo_kernel : KernelOps unit := {|
  k_kalloc := mret (PHYSTOP - PGSIZE);
  k_kfree _ := mret ();
  k_uvmcreate := mret (PHYSTOP - 2 * PGSIZE);
  k_mappages _ _ _ _ _ := mret true;
  k_uvmunmap _ _ _ _ := mret ();
  k_uvmfree _ _ := mret ();
  k_uvmcopy _ _ _ := mret true;
  k_uvmalloc _ _ n _ := mret n;
  k_uvmdealloc _ _ n := mret n;
  k_copyout_int _ _ _ _ := mret true;
  k_filedup f := mret f;
  k_fileclose _ := mret ();
  k_idup i := mret i;
  k_iput _ := mret ();
  k_begin_op := mret ();
  k_end_op := mret ();
  k_namei _ := mret 1;
  k_trampoline := 4096;
  k_forkret := 8192;
|}.

(** Boot, the first process gets CPU 0 and forks, and a tick ends its slice. *)
Lemma process_table_invariant_witness :
  ∃ s0 s1 s2 s, @boot _ demo_kernel (boot_state 2 ()) = Some ((), s0) ∧
    scheduler_round 0 s0 = Some ((), s1) ∧ @kfork _ demo_kernel 0 s1 = Some (2, s2) ∧
    timer_interrupt 0 (Some 0%nat) s2 = Some ((), s) ∧
    table_ok (procs s) (cpus s) (nextpid s) (mlfq_seq_counter s).
Proof.
  destruct (@boot _ demo_kernel (boot_state 2 ())) as [[[] s0]|] eqn:E0; [|by vm_compute in E0].
  pose proof (@kreach_boot _ demo_kernel 2 () s0 E0) as R0.
  vm_compute in E0. injection E0 as E0.
  destruct (scheduler_round 0 s0) as [[[] s1]|] eqn:E1; [|by rewrite <-E0 in E1; vm_compute in E1].
  assert (scheduler_claim 0 0 s0 = Some ((), s1)) as Ec.
  { rewrite <-E1, <-E0. vm_compute. reflexivity. }
  assert (@kreach _ demo_kernel s1) as R1.
  { eapply kreach_step; [exact R0|rewrite <-E0; vm_compute; reflexivity|].
    eapply step_claim; [|exact Ec]. rewrite <-E0. reflexivity. }
  rewrite <-E0 in E1. vm_compute in E1. injection E1 as E1.
  destruct (@kfork _ demo_kernel 0 s1) as [[n s2]|] eqn:E2; [|by rewrite <-E1 in E2; vm_compute in E2].
  assert (@kreach _ demo_kernel s2) as R2.
  { eapply kreach_step; [exact R1|rewrite <-E1; vm_compute; reflexivity|].
    eapply step_fork; [|exact E2]. eexists. split; [rewrite <-E1; reflexivity|reflexivity]. }
  rewrite <-E1 in E2. vm_compute in E2. injection E2 as <- E2.
  destruct (timer_interrupt 0 (Some 0%nat) s2) as [[[] s3]|] eqn:E3; [|by rewrite <-E2 in E3; vm_compute in E3].
  assert (@kreach _ demo_kernel s3) as R3.
  { eapply kreach_step; [exact R2|rewrite <-E2; vm_compute; reflexivity|].
    eapply (step_timer 0); [|exact E3]. rewrite <-E2. reflexivity. }
  exists s0, s1, s2, s3. split_and!.
  - rewrite <-E0. vm_compute. reflexivity.
  - rewrite <-E0, <-E1. vm_compute. reflexivity.
  - rewrite <-E1, <-E2. vm_compute. reflexivity.
  - exact E3.
  - exact (@process_table_invariant _ demo_kernel s3 R3).
Defined.

(** Two processes: the first runs on CPU 0, its child is runnable. *)
Definition demo_state : kstate unit :=
  match (@boot _ demo_kernel;; scheduler_round 0;; @kfork _ demo_kernel 0) (boot_state 2 ()) with
  | Some (_, s) => s
  | None => boot_state 2 ()
  end.

Lemma demo_state_kinv : kinv demo_state.
Proof.
  destruct (@boot _ demo_kernel (boot_state 2 ())) as [[[] s0]|] eqn:E0; [|by vm_compute in E0].
  assert (kinv s0) as H0.
  { eapply (@boot_kinv _ demo_kernel); [apply boot_state_ok| |exact E0]. by apply Forall_replicate. }
  destruct (scheduler_round 0 s0) as [[[] s1]|] eqn:E1;
    [|by vm_compute in E0; injection E0 as <-; vm_compute in E1].
  destruct (@kfork _ demo_kernel 0 s1) as [[n s2]|] eqn:E2;
    [|by vm_compute in E0; injection E0 as <-; vm_compute in E1; injection E1 as <-; vm_compute in E2].
  assert (demo_state = s2) as ->.
  { unfold demo_state. by rewrite (bind_eq _ _ _ _ _ E0), (bind_eq _ _ _ _ _ E1), E2. }
  assert (kinv s1) as H1.
  { eapply (@kstep_kinv _ demo_kernel s0 s1); [|exact H0|].
    - vm_compute in E0. injection E0 as <-. vm_compute. reflexivity.
    - eapply (step_claim 0 0); vm_compute in E0; injection E0 as <-; [reflexivity|].
      rewrite <-E1. vm_compute. reflexivity. }
  eapply (@kstep_kinv _ demo_kernel s1 s2); [|exact H1|eapply step_fork; [|exact E2]];
    vm_compute in E0; injection E0 as <-; vm_compute in E1; injection E1 as <-.
  - vm_compute. reflexivity.
  - eexists. split; [reflexivity|reflexivity].
Qed.
