(* ===== verification/Mlfq.v ===== *)
(** What the scheduler promises: strict priority with first come first served
    inside a level, the time slices, the boost. *)
From S2P Require Import Prelude Kalloc Proc ProcInv ProcSteps.

Section mlfq.
Context {K : Type} `{KernelOps K}.
Implicit Types (s : kstate K) (p : proc).

(** ** The choice *)

(** [p] goes before [q]: a higher level, or the same and an earlier arrival. *)
Definition before p q : Prop :=
  mlfq_priority p < mlfq_priority q ∨
  mlfq_priority p = mlfq_priority q ∧ mlfq_qtime p < mlfq_qtime q.

Definition runnable_at (i : nat) p s : Prop := procs s !! i = Some p ∧ state p = RUNNABLE.

(** The scan of the rest of the table, given the best so far. *)
Lemma mlfq_scan_spec i ps best bp bq (all : list proc) :
  (∀ j, ps !! j = all !! (i + j)%nat) →
  (∀ b, best = Some b → ∃ p, (b < i)%nat ∧ all !! b = Some p ∧ state p = RUNNABLE ∧
     mlfq_priority p = bp ∧ mlfq_qtime p = bq ∧
     ∀ j q, (j < i)%nat → all !! j = Some q → state q = RUNNABLE → ¬ before q p) →
  (best = None → ∀ j q, (j < i)%nat → all !! j = Some q → state q ≠ RUNNABLE) →
  match mlfq_scan i ps best bp bq with
  | Some b => ∃ p, all !! b = Some p ∧ state p = RUNNABLE ∧
      ∀ j q, all !! j = Some q → state q = RUNNABLE → ¬ before q p
  | None => ∀ j q, all !! j = Some q → state q ≠ RUNNABLE
  end.
Proof.
  revert i best bp bq; induction ps as [|p ps IH]; intros i best bp bq Hps Hb Hn; cbn [mlfq_scan].
  { assert (∀ j q, all !! j = Some q → (j < i)%nat) as Hlt.
    { intros j q Hj. destruct (decide (j < i)%nat); [done|]. specialize (Hps (j - i)%nat).
      replace (i + (j - i))%nat with j in Hps by lia. rewrite Hj, lookup_nil in Hps. done. }
    destruct best as [b|].
    - destruct (Hb b eq_refl) as (q & _ & Hq & Hst & _ & _ & Hmin). exists q. split_and!; eauto.
    - intros j q Hj. eapply Hn; eauto. }
  assert (all !! i = Some p) as Hi by (specialize (Hps 0%nat); by rewrite Nat.add_0_r in Hps).
  assert (∀ j, ps !! j = all !! (S i + j)%nat) as Hps'.
  { intros j. specialize (Hps (S j)). simpl in Hps. rewrite Hps. f_equal. lia. }
  unfold is_state. case_bool_decide as Hrun; simpl.
  - destruct (bool_decide (best = None) || (mlfq_priority p <? bp) ||
      ((mlfq_priority p =? bp) && (mlfq_qtime p <? bq))) eqn:Hc.
    + apply IH; [done| |done]. intros b [= <-]. exists p. split_and!; [lia|done..|].
      intros j q Hj Hq Hst Hbef. destruct (decide (j = i)) as [->|].
      { assert (q = p) as -> by congruence. unfold before in Hbef. lia. }
      destruct best as [b|].
      * destruct (Hb b eq_refl) as (r & _ & _ & _ & Hp & Ht & Hmin).
        apply (Hmin j q); [lia|done|done|]. simpl in Hc. unfold before in *. lia.
      * eapply (Hn eq_refl j q); [lia|done|done].
    + destruct best as [b|]; [|done]. simpl in Hc. apply IH; [done| |done].
      intros b' [= <-]. destruct (Hb b eq_refl) as (r & Hlt & Hr & Hst & Hp & Ht & Hmin).
      exists r. split_and!; [lia|done..|]. intros j q Hj Hq Hstq.
      destruct (decide (j = i)) as [->|]; [|apply (Hmin j); [lia|done|done]].
      assert (q = p) as -> by congruence. unfold before. lia.
  - apply IH; [done| |].
    + intros b Eb. destruct (Hb b Eb) as (r & Hlt & Hr & Hst & Hp & Ht & Hmin).
      exists r. split_and!; [lia|done..|]. intros j q Hj Hq Hstq.
      destruct (decide (j = i)) as [->|]; [congruence|]. apply (Hmin j); [lia|done|done].
    + intros Eb j q Hj Hq. destruct (decide (j = i)) as [->|]; [congruence|].
      apply (Hn Eb j); [lia|done].
Qed.

Lemma mlfq_pick_spec s :
  match mlfq_pick s with
  | Some i => ∃ p, runnable_at i p s ∧ ∀ j q, runnable_at j q s → ¬ before q p
  | None => ∀ j q, ¬ runnable_at j q s
  end.
Proof.
  unfold mlfq_pick. pose proof (mlfq_scan_spec 0 (procs s) None MLFQ_LEVELS 0 (procs s)) as Hsc.
  destruct (mlfq_scan _ _ _ _ _) as [i|].
  - destruct Hsc as (p & Hp & Hst & Hmin); [done|done|lia|]. exists p. split; [done|].
    intros j q [Hq Hs]. by eapply Hmin.
  - intros j q [Hq Hs]. revert Hs. eapply Hsc; [done|done|lia|exact Hq].
Qed.

(** C6: Strict priority, first come first served. In a well-formed table, a
    round of the scheduler on an idle CPU runs a process exactly when one is
    runnable, and then the one that goes before every other runnable process:
    no runnable process has a higher level, and of those on its level it
    arrived first. It is then running on that CPU; nothing else changes. *)
Theorem scheduler_strict_priority c s :
  table_ok (procs s) (cpus s) (nextpid s) (mlfq_seq_counter s) →
  match mlfq_pick s with
  | Some i => ∃ p, runnable_at i p s ∧ (∀ j q, runnable_at j q s → j ≠ i → before p q) ∧
      scheduler_round c s =
        Some ((), set_cpus (<[c := Some i]> (cpus s))
                    (set_procs (<[i := set_state RUNNING p]> (procs s)) s))
  | None => (∀ j q, ¬ runnable_at j q s) ∧ scheduler_round c s = Some ((), s)
  end.
Proof.
  intros Ht. pose proof (mlfq_pick_spec s) as Hp. unfold scheduler_round.
  rewrite (bind_eq _ _ _ (mlfq_pick s) s) by done. destruct (mlfq_pick s) as [i|]; [|done].
  destruct Hp as (p & [Hi Hst] & Hmin). exists p. split_and!; [done| |].
  - intros j q [Hj Hq] Hne. specialize (Hmin j q (conj Hj Hq)). unfold before in *.
    destruct (decide (mlfq_qtime p = mlfq_qtime q)); [|lia]. destruct Hne.
    eapply (t_qtimes _ _ _ _ Ht); [exact Hj|exact Hi| | |done]; unfold queued; by rewrite ?Hq, ?Hst.
  - unfold scheduler_claim. rewrite (bind_eq _ _ _ p s) by (unfold the_proc; by rewrite Hi).
    unfold is_state. rewrite bool_decide_true by done. unfold when.
    by rewrite (bind_eq _ _ _ _ _ (upd_eq _ _ _ _ Hi)).
Qed.

(** ** The slices *)

(** Level and ticks used after one more tick. *)
Definition charge (lu : Z * Z) : Z * Z :=
  let '(l, u) := lu in
  let slice := default 16 (slice_of l) in
  if slice <=? u + 1 then (Z.min (l + 1) 3, 0) else (l, u + 1).

(** Where a process that started fresh at the top is after [k] ticks: the
    slices 1, 4 and 8, then 16 ticks at a time at the bottom. *)
Definition after_ticks (k : Z) : Z * Z :=
  if k <? 1 then (0, k) else if k <? 5 then (1, k - 1) else if k <? 13 then (2, k - 5)
  else (3, (k - 13) mod 16).

Lemma after_ticks_charge k : 0 ≤ k → charge (after_ticks k) = after_ticks (k + 1).
Proof.
  intros Hk. unfold after_ticks.
  destruct (k <? 1) eqn:E1.
  { replace k with 0 by lia. reflexivity. }
  rewrite (proj2 (Z.ltb_ge (k + 1) 1)) by lia. destruct (k <? 5) eqn:E5.
  { unfold charge. change (default 16 (slice_of 1)) with 4.
    destruct (4 <=? k - 1 + 1) eqn:E; [replace k with 4 by lia; reflexivity|].
    rewrite (proj2 (Z.ltb_lt (k + 1) 5)) by lia. f_equal. lia. }
  rewrite (proj2 (Z.ltb_ge (k + 1) 5)) by lia. destruct (k <? 13) eqn:E13.
  { unfold charge. change (default 16 (slice_of 2)) with 8.
    destruct (8 <=? k - 5 + 1) eqn:E; [replace k with 12 by lia; reflexivity|].
    rewrite (proj2 (Z.ltb_lt (k + 1) 13)) by lia. f_equal. lia. }
  rewrite (proj2 (Z.ltb_ge (k + 1) 13)) by lia.
  unfold charge. change (default 16 (slice_of 3)) with 16. change (Z.min (3 + 1) 3) with 3.
  pose proof (Z.mod_pos_bound (k - 13) 16 ltac:(lia)) as Hb.
  replace (k + 1 - 13) with (k - 13 + 1) by lia.
  rewrite <-(Z.add_mod_idemp_l (k - 13) 1 16) by lia.
  destruct (16 <=? (k - 13) mod 16 + 1) eqn:E.
  - replace ((k - 13) mod 16) with 15 by lia. reflexivity.
  - rewrite (Z.mod_small ((k - 13) mod 16 + 1)) by lia. reflexivity.
Qed.

(** What [mlfq_account] does to the process it charges. *)
Lemma account_spec i s p sl :
  procs s !! i = Some p → 0 ≤ mlfq_seq_counter s < 2 ^ 64 - 1 →
  slice_of (mlfq_priority p) = Some sl →
  ∃ p' s', mlfq_account i s = Some (sl <=? mlfq_ticks_used p + 1, s') ∧
    procs s' = <[i := p']> (procs s) ∧ state p' = state p ∧
    (mlfq_priority p', mlfq_ticks_used p') = charge (mlfq_priority p, mlfq_ticks_used p) ∧
    mlfq_seq_counter s ≤ mlfq_seq_counter s' ≤ mlfq_seq_counter s + 1 ∧
    mlfq_last_boost s' = mlfq_last_boost s.
Proof.
  intros Hi Hq Hsl. pose proof (slice_range _ _ Hsl) as Hpr. unfold MLFQ_LEVELS in Hpr.
  assert ((i < length (procs s))%nat) as Hlt by (by eapply lookup_lt_Some).
  unfold mlfq_account. rewrite (bind_eq _ _ _ _ _ (upd_eq _ _ _ _ Hi)).
  set (p1 := set_used (mlfq_ticks_used p + 1) p). set (s1 := set_procs _ s).
  assert (procs s1 !! i = Some p1) as Hi1 by (unfold s1; simpl; by rewrite list_lookup_insert_eq).
  rewrite (bind_eq _ _ _ p1 s1) by (unfold the_proc; by rewrite Hi1).
  change (mlfq_priority p1) with (mlfq_priority p). rewrite Hsl.
  change (mlfq_ticks_used p1) with (mlfq_ticks_used p + 1).
  unfold charge. rewrite Hsl. simpl (default _ _). destruct (sl <=? mlfq_ticks_used p + 1) eqn:Hle.
  - assert (0 ≤ mlfq_seq_counter s1 < 2 ^ 64 - 1) as Hq1 by (unfold s1; simpl; lia).
    unfold when, MLFQ_LEVELS. destruct (mlfq_priority p <? 4 - 1) eqn:Hlow.
    + rewrite <-(bind_assoc (upd i _)), (bind_eq _ _ _ _ _ (upd_enqueue_eq i _ s1 p1 Hi1 Hq1)).
      eexists _, _. split; [reflexivity|]. unfold s1. simpl. rewrite list_insert_insert_eq.
      split_and!; [reflexivity|done| |lia|lia|done]. f_equal. simpl. lia.
    + rewrite (bind_eq _ _ _ () s1) by done.
      rewrite (bind_eq _ _ _ _ _ (enqueue_eq i s1 p1 Hi1 Hq1)).
      eexists _, _. split; [reflexivity|]. unfold s1. simpl. rewrite list_insert_insert_eq.
      split_and!; [reflexivity|done| |lia|lia|done]. f_equal. simpl. lia.
  - eexists p1, s1. split_and!; [done|done|done|done|unfold s1; simpl; lia|unfold s1; simpl; lia|done].
Qed.

Fixpoint charge_n (n : nat) (i : nat) : M (kstate K) unit :=
  match n with
  | O => mret ()
  | S n => charge_n n i;; _ ← mlfq_account i; mret ()
  end.

(** A process that never gives up the CPU sinks through the queues on
    schedule. Charged [n] ticks from a fresh start at the top, it is on level
    0 before its first tick, on level 1 up to tick 4, on level 2 up to tick
    12 and on level 3 from tick 13 on, with the slices 1, 4, 8 and then 16
    at a time; no other process is touched. *)
Theorem mlfq_slices n i s p :
  procs s !! i = Some p → mlfq_priority p = 0 → mlfq_ticks_used p = 0 →
  0 ≤ mlfq_seq_counter s → mlfq_seq_counter s + Z.of_nat n < 2 ^ 64 - 1 →
  ∃ p' s', charge_n n i s = Some ((), s') ∧ procs s' = <[i := p']> (procs s) ∧
    (mlfq_priority p', mlfq_ticks_used p') = after_ticks (Z.of_nat n).
Proof.
  intros Hi Hp Hu Hq0 Hq.
  assert (∃ p' s', charge_n n i s = Some ((), s') ∧ procs s' = <[i := p']> (procs s) ∧
    (mlfq_priority p', mlfq_ticks_used p') = after_ticks (Z.of_nat n) ∧
    0 ≤ mlfq_seq_counter s' ≤ mlfq_seq_counter s + Z.of_nat n) as (p' & s' & ? & ? & ? & _);
    [|by exists p', s'].
  induction n as [|n IH].
  { exists p, s. split_and!; [done|by rewrite list_insert_id|by rewrite Hp, Hu|lia|lia]. }
  destruct IH as (p1 & s1 & E1 & Hs1 & Ha & Hq1); [lia|]. cbn [charge_n].
  rewrite (bind_eq _ _ _ _ _ E1).
  assert (procs s1 !! i = Some p1) as Hi1.
  { rewrite Hs1. by rewrite list_lookup_insert_eq by (by eapply lookup_lt_Some). }
  assert (∃ sl, slice_of (mlfq_priority p1) = Some sl) as (sl & Hsl).
  { unfold after_ticks in Ha. repeat case_match; injection Ha as -> _; by eexists. }
  destruct (account_spec i s1 p1 sl Hi1 ltac:(lia) Hsl) as (p2 & s2 & E2 & Hs2 & _ & Hc & Hq2 & _).
  rewrite (bind_eq _ _ _ _ _ E2). exists p2, s2. split_and!; [done| | |lia|lia].
  - by rewrite Hs2, Hs1, list_insert_insert_eq.
  - rewrite Hc, Ha, after_ticks_charge by lia. f_equal. lia.
Qed.

(** ** The boost *)

Definition boosted (n : Z) p : proc := set_qtime n (set_used 0 (set_prio 0 p)).

(** The loop of [mlfq_boost_all] from index [i] on. *)
Lemma boost_loop_spec l i s :
  (∀ j, (i + j < length (procs s))%nat ↔ (j < l)%nat) →
  0 ≤ mlfq_seq_counter s → mlfq_seq_counter s + Z.of_nat l < 2 ^ 64 →
  ∃ s', mfor (seq i l) boost_proc s = Some ((), s') ∧
    (∃ ps n, s' = set_seq n (set_procs ps s) ∧
      mlfq_seq_counter s ≤ n ≤ mlfq_seq_counter s + Z.of_nat l) ∧
    ∀ j p, procs s !! j = Some p → ∃ n, procs s' !! j = Some
      (if decide ((i ≤ j)%nat ∧ state p ≠ UNUSED) then boosted n p else p).
Proof.
  revert i s; induction l as [|l IH]; intros i s Hlen Hq0 Hq; cbn [seq mfor].
  { exists s. split_and!; [done|by exists (procs s), (mlfq_seq_counter s); destruct s; simpl; split; [|lia]|].
    intros j p Hj. exists 0. rewrite decide_False; [done|]. intros [Hij _].
    apply lookup_lt_Some in Hj. specialize (Hlen (j - i)%nat). lia. }
  assert ((i < length (procs s))%nat) as Hi.
  { replace i with (i + 0)%nat by lia. apply Hlen. lia. }
  apply lookup_lt_is_Some in Hi as [p Hp].
  assert (∃ s1 p1 n, boost_proc i s = Some ((), s1) ∧
    s1 = set_seq n (set_procs (<[i := p1]> (procs s)) s) ∧
    mlfq_seq_counter s ≤ n ≤ mlfq_seq_counter s + 1 ∧
    p1 = if decide (state p ≠ UNUSED) then boosted (mlfq_seq_counter s) p else p)
    as (s1 & p1 & n & E1 & -> & Hn & Hp1).
  { unfold boost_proc. rewrite (bind_eq _ _ _ p s) by (unfold the_proc; by rewrite Hp).
    unfold is_state. destruct (decide (state p = UNUSED)) as [Hu|Hu].
    - rewrite bool_decide_true by done. exists s, p, (mlfq_seq_counter s).
      split_and!; [done| |lia|lia|by rewrite decide_False by auto].
      rewrite list_insert_id by done. by destruct s.
    - rewrite bool_decide_false by done. cbn [negb when].
      rewrite (upd_enqueue_eq i _ s p Hp) by lia. eexists _, _, _.
      split_and!; [reflexivity|reflexivity|lia|lia|by rewrite decide_True]. }
  rewrite (bind_eq _ _ _ _ _ E1).
  destruct (IH (S i) (set_seq n (set_procs (<[i := p1]> (procs s)) s))) as (s2 & E2 & Hform & Hall).
  { intros j. simpl. rewrite length_insert. specialize (Hlen (S j)). lia. }
  { simpl. lia. } { simpl. lia. }
  exists s2. split_and!; [done| |].
  - destruct Hform as (ps & m & -> & Hm). simpl in Hm. exists ps, m. split; [done|lia].
  - intros j q Hj. simpl in Hall. destruct (decide (j = i)) as [->|Hne].
    + assert (q = p) as -> by congruence.
      destruct (Hall i p1) as (m & Hm).
      { by rewrite list_lookup_insert_eq by (by eapply lookup_lt_Some). }
      exists (mlfq_seq_counter s). rewrite Hm, decide_False by lia. rewrite Hp1. f_equal.
      destruct (decide (state p = UNUSED)); [by rewrite !decide_False by naive_solver|].
      by rewrite !decide_True by done.
    + destruct (Hall j q) as (m & Hm); [by rewrite list_lookup_insert_ne|].
      exists m. rewrite Hm. f_equal.
      destruct (decide ((S i ≤ j)%nat ∧ state q ≠ UNUSED)) as [[??]|Hn1].
      * by rewrite decide_True by (split; [lia|done]).
      * rewrite decide_False; [done|]. intros [? ?]. apply Hn1. split; [lia|done].
Qed.

Lemma boost_all_spec s :
  length (procs s) = NPROC → 0 ≤ mlfq_seq_counter s → mlfq_seq_counter s + Z.of_nat NPROC < 2 ^ 64 →
  ∃ s', mlfq_boost_all s = Some ((), s') ∧
    (∃ ps n, s' = set_seq n (set_procs ps s) ∧
      mlfq_seq_counter s ≤ n ≤ mlfq_seq_counter s + Z.of_nat NPROC) ∧
    ∀ j p, procs s !! j = Some p → ∃ n, procs s' !! j = Some
      (if decide (state p ≠ UNUSED) then boosted n p else p).
Proof.
  intros Hlen Hq0 Hq. unfold mlfq_boost_all, for_procs.
  destruct (boost_loop_spec NPROC 0 s) as (s' & E & Hform & Hall); [|done|done|].
  { intros j. by rewrite Hlen. }
  exists s'. split_and!; [done|done|]. intros j p Hj. destruct (Hall j p Hj) as (n & Hn).
  exists n. rewrite Hn. f_equal. destruct (decide (state p = UNUSED)).
  - by rewrite !decide_False by naive_solver.
  - by rewrite !decide_True by (split; [lia|done] || done).
Qed.

(** The priority boost, on the tick where it is due (48 or more ticks
    after the last one, in 32-bit arithmetic that survives the wrap of the
    tick counter). After [mlfq_tick] of the running process [i], every other
    process that is not unused is on level 0 with a fresh slice, whatever its
    level was, so nothing starves; but [i] itself, boosted and then charged
    this tick against the one-tick slice of level 0, has been moved down to
    level 1 and yields, so it never runs on level 0. *)
Theorem boost_on_tick i s p s' :
  table_ok (procs s) (cpus s) (nextpid s) (mlfq_seq_counter s) → 0 < mlfq_seq_counter s →
  mlfq_seq_counter s + Z.of_nat NPROC + 1 < 2 ^ 64 →
  MLFQ_BOOST_INTERVAL ≤ u32 (ticks s - mlfq_last_boost s) →
  procs s !! i = Some p → state p = RUNNING → mlfq_tick i s = Some ((), s') →
  mlfq_last_boost s' = ticks s ∧
  (∀ j q, j ≠ i → procs s !! j = Some q → state q ≠ UNUSED →
     ∃ q', procs s' !! j = Some q' ∧ mlfq_priority q' = 0 ∧ mlfq_ticks_used q' = 0 ∧ state q' = state q) ∧
  ∃ p', procs s' !! i = Some p' ∧ mlfq_priority p' = 1 ∧ state p' = RUNNABLE.
Proof.
  intros Ht Hq0 Hq Hdue Hi Hrun. unfold mlfq_tick, mlfq_maybe_boost.
  rewrite bind_assoc, (bind_eq _ _ _ (ticks s) s) by done.
  rewrite bind_assoc, (bind_eq _ _ _ (mlfq_last_boost s) s) by done.
  rewrite (proj2 (Z.leb_le _ _) Hdue). set (s0 := set_last_boost (ticks s) s).
  rewrite bind_assoc, (bind_eq _ _ _ () s0) by done.
  destruct (boost_all_spec s0) as (s1 & E1 & (ps & n1 & Hs1 & Hn1) & Hall);
    [apply (t_len _ _ _ _ Ht)|unfold s0; simpl; lia..|].
  rewrite (bind_eq _ _ _ _ _ E1). destruct (Hall i p Hi) as (n & Hp1).
  rewrite decide_True in Hp1 by (by rewrite Hrun).
  assert (mlfq_seq_counter s1 = n1) as Hseq1 by by rewrite Hs1. unfold s0 in Hn1. simpl in Hn1.
  destruct (account_spec i s1 (boosted n p) 1 Hp1) as (p2 & s2 & E2 & Hs2 & Hst2 & Hc2 & Hq2 & Hb2);
    [lia|done|]. change (1 <=? mlfq_ticks_used (boosted n p) + 1) with true in E2.
  change (charge _) with (1, 0) in Hc2. injection Hc2 as Hpr2 Hu2.
  assert (procs s2 !! i = Some p2) as Hi2.
  { rewrite Hs2. by rewrite list_lookup_insert_eq by (by eapply lookup_lt_Some). }
  rewrite (bind_eq _ _ _ _ _ E2), (bind_eq _ _ _ p2 s2) by (unfold the_proc; by rewrite Hi2).
  rewrite (bind_eq _ _ _ (mlfq_higher_priority_exists (mlfq_priority p2) s2) s2) by done.
  cbn [orb when]. unfold yield. rewrite (bind_eq _ _ _ _ _ (upd_eq _ _ _ _ Hi2)).
  set (p3 := set_state RUNNABLE p2). unfold sched.
  set (s3 := set_procs (<[i := p3]> (procs s2)) s2).
  assert (procs s3 !! i = Some p3) as Hi3.
  { unfold s3. simpl. by rewrite list_lookup_insert_eq by (by eapply lookup_lt_Some). }
  rewrite (bind_eq _ _ _ p3 s3) by (unfold the_proc; by rewrite Hi3).
  unfold is_state. rewrite bool_decide_false by done. intros [= <-].
  split_and!.
  - simpl. unfold s3. simpl. rewrite Hb2, Hs1. done.
  - intros j q Hne Hj Hst. destruct (Hall j q Hj) as (m & Hm). rewrite decide_True in Hm by done.
    exists (boosted m q). split_and!; [|done..]. simpl.
    by rewrite list_lookup_insert_ne, Hs2, list_lookup_insert_ne.
  - exists p3. simpl. split_and!; [by rewrite list_lookup_insert_eq by (by eapply lookup_lt_Some)|done..].
Qed.
End mlfq.

(** ** The theorems at a concrete state *)

Lemma scheduler_strict_priority_witness :
  ∃ p, runnable_at 1 p demo_state ∧ (∀ j q, runnable_at j q demo_state → j ≠ 1%nat → before p q) ∧
    scheduler_round 1 demo_state =
      Some ((), set_cpus (<[1%nat := Some 1%nat]> (cpus demo_state))
                  (set_procs (<[1%nat := set_state RUNNING p]> (procs demo_state)) demo_state)).
Proof.
  pose proof (scheduler_strict_priority 1 demo_state (proj1 demo_state_kinv)) as Hs.
  assert (mlfq_pick demo_state = Some 1%nat) as E by (vm_compute; reflexivity).
  rewrite E in Hs. exact Hs.
Defined.

(** Fourteen ticks: the bottom level, one tick into its slice. *)
Lemma mlfq_slices_witness :
  ∃ p p' s', procs demo_state !! 0%nat = Some p ∧ charge_n 14 0 demo_state = Some ((), s') ∧
    procs s' = <[0%nat := p']> (procs demo_state) ∧
    (mlfq_priority p', mlfq_ticks_used p') = (3, 1).
Proof.
  destruct (procs demo_state !! 0%nat) as [p|] eqn:E; [|by vm_compute in E].
  edestruct (mlfq_slices 14 0 demo_state p) as (p' & s' & H1 & H2 & H3).
  - exact E.
  - vm_compute in E. injection E as <-. reflexivity.
  - vm_compute in E. injection E as <-. reflexivity.
  - apply Z.leb_le. vm_compute. reflexivity.
  - apply Z.ltb_lt. vm_compute. reflexivity.
  - exists p, p', s'. split; [reflexivity|]. split; [exact H1|]. split; [exact H2|].
    rewrite H3. reflexivity.
Defined.

Lemma kinv_set_ticks {K} n (s : kstate K) : kinv s → kinv (set_ticks n s).
Proof. done. Qed.

Lemma boost_on_tick_witness :
  let s := set_ticks 48 demo_state in
  ∃ s', mlfq_tick 0 s = Some ((), s') ∧ mlfq_last_boost s' = ticks s ∧
  (∀ j q, j ≠ 0%nat → procs s !! j = Some q → state q ≠ UNUSED →
     ∃ q', procs s' !! j = Some q' ∧ mlfq_priority q' = 0 ∧ mlfq_ticks_used q' = 0 ∧ state q' = state q) ∧
  ∃ p', procs s' !! 0%nat = Some p' ∧ mlfq_priority p' = 1 ∧ state p' = RUNNABLE.
Proof.
  intros s. destruct (mlfq_tick 0 s) as [[[] s']|] eqn:E; [|by vm_compute in E].
  exists s'. split; [reflexivity|].
  destruct (procs s !! 0%nat) as [p|] eqn:Ep; [|by vm_compute in Ep].
  apply (boost_on_tick 0 s p s').
  - exact (proj1 (kinv_set_ticks 48 demo_state demo_state_kinv)).
  - apply Z.ltb_lt. vm_compute. reflexivity.
  - apply Z.ltb_lt. vm_compute. reflexivity.
  - apply Z.leb_le. vm_compute. reflexivity.
  - exact Ep.
  - vm_compute in Ep. injection Ep as <-. reflexivity.
  - exact E.
Defined.
