(* ===== verification/ProcSync.v ===== *)
(** Sleeping, waking, killing and waiting. *)
From S2P Require Import Prelude Kalloc Proc ProcInv ProcSteps.

Section sync.
Context {K : Type} `{KernelOps K}.
Implicit Types (s : kstate K) (p : proc).

(** ** What [wakeup] does to one process *)

Lemma enqueue_some i s p :
  procs s !! i = Some p →
  ∃ n v, mlfq_enqueue i s =
    Some ((), set_seq n (set_procs (<[i := set_qtime v (set_used 0 p)]> (procs s)) s)).
Proof.
  intros Hi. unfold mlfq_enqueue. rewrite (bind_eq _ _ _ _ _ (upd_eq _ _ _ _ Hi)).
  eexists _, _. unfold mlfq_next_seq. rewrite bind_assoc.
  rewrite (bind_eq _ _ _ _ _ eq_refl : (gets mlfq_seq_counter ≫= _) (set_procs _ s) = _).
  rewrite bind_assoc, (bind_eq _ _ _ _ _ eq_refl : (modify _ ≫= _) _ = _).
  cbn [mret M_ret]. erewrite (bind_eq (mret _)) by reflexivity.
  rewrite (upd_eq i _ _ (set_used 0 p)).
  2:{ simpl. by rewrite list_lookup_insert_eq by (by eapply lookup_lt_Some). }
  simpl. by rewrite list_insert_insert_eq.
Qed.

(** The process after a wakeup of [d]. *)
Record woken (d : option channel) p p' : Prop := {
  w_chan : chan p' = if decide (chan p = d) then None else chan p;
  w_state : state p' = if decide (chan p = d ∧ state p = SLEEPING) then RUNNABLE else state p;
  w_rest : pid p' = pid p ∧ parent p' = parent p ∧ killed_flag p' = killed_flag p;
}.

Lemma woken_trans d p p1 p2 : woken d p p1 → woken d p1 p2 → woken d p p2.
Proof.
  intros [Hc1 Hs1 (?&?&?)] [Hc2 Hs2 (?&?&?)]. split; [| |split_and!; congruence].
  - rewrite Hc2, Hc1. destruct (decide (chan p = d)) as [<-|]; [by repeat case_decide|].
    by rewrite decide_False.
  - rewrite Hs2, Hc1, Hs1. repeat case_decide; naive_solver.
Qed.

(** Only the queues and the process table change. *)
Definition same_rest s s' : Prop := ∃ ps n, s' = set_seq n (set_procs ps s).

Lemma wakeup_proc_spec d i s p :
  procs s !! i = Some p →
  ∃ s' p', wakeup_proc d i s = Some ((), s') ∧ same_rest s s' ∧
    procs s' = <[i := p']> (procs s) ∧ woken d p p'.
Proof.
  intros Hi. unfold wakeup_proc. rewrite (bind_eq _ _ _ p s) by (unfold the_proc; by rewrite Hi).
  destruct (decide (chan p = d)) as [Hd|Hd].
  2:{ exists s, p. split_and!; [done| |by rewrite list_insert_id|].
      - exists (procs s), (mlfq_seq_counter s). by destruct s.
      - split; [by rewrite decide_False|by rewrite decide_False by naive_solver|done]. }
  rewrite (bind_eq _ _ _ _ _ (upd_eq _ _ _ _ Hi)). unfold is_state.
  set (s1 := set_procs _ s). assert (procs s1 !! i = Some (set_chan None p)) as Hi1.
  { unfold s1. simpl. by rewrite list_lookup_insert_eq by (by eapply lookup_lt_Some). }
  case_bool_decide as Hst; unfold when.
  - destruct (enqueue_some i s1 (set_chan None p) Hi1) as (n & v & E).
    rewrite (bind_eq _ _ _ _ _ E).
    rewrite (upd_eq i _ _ (set_qtime v (set_used 0 (set_chan None p)))).
    2:{ simpl. by rewrite list_lookup_insert_eq by (by eapply lookup_lt_Some). }
    eexists _, _. split; [reflexivity|]. unfold s1. simpl. rewrite !list_insert_insert_eq.
    split_and!; [by eexists _, _|reflexivity|]. split; simpl; [by rewrite decide_True|by rewrite decide_True|done].
  - exists s1, (set_chan None p). split_and!; [done|by exists (<[i := set_chan None p]> (procs s)), (mlfq_seq_counter s); destruct s|done|].
    split; simpl; [by rewrite decide_True|by rewrite decide_False by naive_solver|done].
Qed.

Lemma wakeup_loop d xs s :
  Forall (λ i, i < length (procs s))%nat xs →
  ∃ s', mfor xs (wakeup_proc d) s = Some ((), s') ∧ same_rest s s' ∧
    length (procs s') = length (procs s) ∧
    ∀ i p, procs s !! i = Some p →
      ∃ p', procs s' !! i = Some p' ∧ (i ∈ xs → woken d p p') ∧ (i ∉ xs → p' = p).
Proof.
  revert s; induction xs as [|x xs IH]; intros s Hxs.
  { exists s. split_and!; [done| |done|].
    - exists (procs s), (mlfq_seq_counter s). by destruct s.
    - intros i p Hi. exists p. split_and!; [done| |done]. by intros ?%elem_of_nil. }
  apply Forall_cons in Hxs as [[p Hp]%lookup_lt_is_Some Hxs]. cbn [mfor].
  destruct (wakeup_proc_spec d x s p Hp) as (s1 & p1 & E1 & (ps & n & Hs1) & Hps & Hw).
  rewrite (bind_eq _ _ _ _ _ E1).
  destruct (IH s1) as (s2 & E2 & (ps2 & n2 & Hs2) & Hlen & Hall).
  { by rewrite Hps, length_insert. }
  exists s2. split_and!; [done| |by rewrite Hlen, Hps, length_insert|].
  { exists ps2, n2. by rewrite Hs2, Hs1. }
  intros i q Hi. destruct (decide (i = x)) as [->|Hne].
  - assert (q = p) as -> by congruence. destruct (Hall x p1) as (p2 & Hp2 & Hin & Hnin).
    { rewrite Hps. by rewrite list_lookup_insert_eq by (by eapply lookup_lt_Some). }
    exists p2. split_and!; [done| |set_solver]. intros _.
    destruct (decide (x ∈ xs)); [eapply woken_trans; [exact Hw|auto]|by rewrite (Hnin n0)].
  - destruct (Hall i q) as (p2 & Hp2 & Hin & Hnin); [by rewrite Hps, list_lookup_insert_ne|].
    exists p2. split_and!; [done|set_solver|set_solver].
Qed.

Lemma wakeup_spec d s :
  length (procs s) = NPROC →
  ∃ s', wakeup d s = Some ((), s') ∧ same_rest s s' ∧ length (procs s') = NPROC ∧
    ∀ i p, procs s !! i = Some p → ∃ p', procs s' !! i = Some p' ∧ woken d p p'.
Proof.
  intros Hlen. destruct (wakeup_loop d (seq 0 NPROC) s) as (s' & E & Hr & Hl & Hall).
  { apply Forall_forall. intros i Hi%elem_of_seq. lia. }
  exists s'. split_and!; [exact E|done|congruence|].
  intros i p Hi. destruct (Hall i p Hi) as (p' & Hp' & Hw & _). exists p'. split; [done|].
  apply Hw, elem_of_seq. apply lookup_lt_Some in Hi. lia.
Qed.

(** Any number of wakeups, by other CPUs. *)
Definition wakeups (ws : list channel) : M (kstate K) unit := mfor ws (λ c, wakeup (Some c)).

Lemma wakeups_spec ws s :
  length (procs s) = NPROC →
  ∃ s', wakeups ws s = Some ((), s') ∧ length (procs s') = NPROC ∧
    ∀ i p, procs s !! i = Some p → ∃ p', procs s' !! i = Some p' ∧
      chan p' = (if decide (chan p ∈ Some <$> ws) then None else chan p) ∧
      state p' = (if decide (chan p ∈ Some <$> ws ∧ state p = SLEEPING) then RUNNABLE else state p).
Proof.
  revert s; induction ws as [|c ws IH]; intros s Hlen.
  { exists s. split_and!; [done|done|]. intros i p Hi. exists p. split; [done|].
    rewrite !decide_False; [done|..]; [intros [?%elem_of_nil _]; done|by intros ?%elem_of_nil]. }
  destruct (wakeup_spec (Some c) s Hlen) as (s1 & E1 & _ & Hlen1 & H1).
  destruct (IH s1 Hlen1) as (s2 & E2 & Hlen2 & H2). exists s2.
  split_and!; [|done|].
  { unfold wakeups. cbn [mfor]. by rewrite (bind_eq _ _ _ _ _ E1). }
  intros i p Hi. destruct (H1 i p Hi) as (p1 & Hp1 & [Hc1 Hs1 _]).
  destruct (H2 i p1 Hp1) as (p2 & Hp2 & Hc2 & Hs2). exists p2. split; [done|].
  assert (chan p ∈ Some <$> c :: ws ↔ chan p = Some c ∨ chan p ∈ Some <$> ws) as Hin.
  { rewrite fmap_cons. apply elem_of_cons. }
  assert ((None : option channel) ∉ Some <$> ws) as HN.
  { intros (x & ? & _)%list_elem_of_fmap. done. }
  rewrite Hc2, Hs2, Hc1, Hs1. destruct (decide (chan p = Some c)) as [Hc|Hc].
  - rewrite (decide_False (P := None ∈ Some <$> ws)) by done.
    rewrite (decide_True (P := chan p ∈ Some <$> c :: ws)) by (apply Hin; auto).
    split; [done|]. rewrite (decide_False (P := _ ∧ _ = SLEEPING)) by naive_solver.
    repeat case_decide; naive_solver.
  - split; repeat case_decide; naive_solver.
Qed.

(** C32: No wakeup is lost. A process prepares to sleep on a channel, lets go
    of its locks and sleeps, while other CPUs issue any wakeups between the
    two calls and after. If the channel was woken in between, the process
    does not go to sleep; if it is woken later, the process becomes runnable;
    it stays asleep exactly if its channel is never woken. *)
Theorem no_lost_wakeup i c ws1 ws2 s p :
  length (procs s) = NPROC → procs s !! i = Some p → state p = RUNNING →
  ∃ s' p', (sleep_prepare i (Some c);; wakeups ws1;; sleep i;; wakeups ws2) s = Some ((), s') ∧
    procs s' !! i = Some p' ∧
    state p' = (if decide (c ∈ ws1) then RUNNING else if decide (c ∈ ws2) then RUNNABLE else SLEEPING).
Proof.
  intros Hlen Hi Hrun. unfold sleep_prepare.
  assert (∀ ws : list channel, Some c ∈ Some <$> ws ↔ c ∈ ws) as Hin.
  { intros ws. rewrite list_elem_of_fmap. naive_solver. }
  rewrite (bind_eq _ _ _ _ _ (upd_eq _ _ _ _ Hi)). set (p1 := set_chan (Some c) p).
  set (s1 := set_procs _ s). assert (procs s1 !! i = Some p1) as Hi1.
  { unfold s1. simpl. by rewrite list_lookup_insert_eq by (by eapply lookup_lt_Some). }
  destruct (wakeups_spec ws1 s1) as (s2 & E2 & Hlen2 & H2); [unfold s1; simpl; by rewrite length_insert|].
  rewrite (bind_eq _ _ _ _ _ E2). destruct (H2 i p1 Hi1) as (p2 & Hi2 & Hc2 & Hs2).
  unfold sleep. rewrite bind_assoc, (bind_eq _ _ _ p2 s2) by (unfold the_proc; by rewrite Hi2).
  change (chan p1) with (Some c) in Hc2, Hs2. change (state p1) with (state p) in Hs2.
  rewrite (decide_False (P := _ ∧ state p = SLEEPING)) in Hs2 by (rewrite Hrun; naive_solver).
  destruct (decide (c ∈ ws1)) as [Hw1|Hw1].
  - rewrite decide_True in Hc2 by by apply Hin. rewrite Hc2.
    rewrite (bind_eq _ _ _ () s2) by done.
    destruct (wakeups_spec ws2 s2 Hlen2) as (s3 & E3 & _ & H3).
    destruct (H3 i p2 Hi2) as (p3 & Hi3 & _ & Hs3). exists s3, p3. split_and!; [done|done|].
    rewrite Hs3, decide_False, Hs2; [done|]. rewrite Hs2, Hrun. naive_solver.
  - rewrite decide_False in Hc2 by by rewrite Hin. rewrite Hc2.
    rewrite bind_assoc, (bind_eq _ _ _ _ _ (upd_eq _ _ _ _ Hi2)). unfold sched.
    set (p3 := set_state SLEEPING p2). set (s3 := set_procs _ s2).
    assert (procs s3 !! i = Some p3) as Hi3.
    { unfold s3. simpl. by rewrite list_lookup_insert_eq by (by eapply lookup_lt_Some). }
    rewrite bind_assoc, (bind_eq _ _ _ p3 s3) by (unfold the_proc; by rewrite Hi3).
    unfold is_state. rewrite bool_decide_false by done.
    erewrite (bind_eq (modify _)) by reflexivity. set (s4 := set_cpus _ s3).
    destruct (wakeups_spec ws2 s4) as (s5 & E5 & _ & H5).
    { unfold s4, s3. simpl. by rewrite length_insert. }
    destruct (H5 i p3 Hi3) as (p5 & Hi5 & _ & Hs5). exists s5, p5. split_and!; [done|done|].
    rewrite Hs5. change (chan p3) with (chan p2). change (state p3) with SLEEPING. rewrite Hc2.
    destruct (decide (c ∈ ws2)) as [Hw2|Hw2].
    + rewrite decide_True; [done|]. split; [by apply Hin|done].
    + rewrite decide_False; [done|]. rewrite Hin. naive_solver.
Qed.

(** ** Killing process 0 *)

(** In a well-formed table the entries with pid 0 are the free ones. *)
Lemma pid_zero_unused ps cs np sq :
  table_ok ps cs np sq → index_of (λ p, pid p =? 0) ps = index_of (is_state UNUSED) ps.
Proof.
  intros [_ Hok _ _ _ _ _ _].
  assert (∀ p, p ∈ ps → (pid p =? 0) = is_state UNUSED p) as Heq.
  { intros p (i & Hi)%list_elem_of_lookup. destruct (Hok i p Hi) as [_ Hu Hp _ _].
    unfold is_state. case_bool_decide as Hs.
    - apply Z.eqb_eq. auto.
    - apply Z.eqb_neq. specialize (Hp Hs). lia. }
  clear Hok. induction ps as [|p ps IH]; [done|]. simpl.
  rewrite (Heq p) by set_solver. rewrite IH; [done|]. set_solver.
Qed.

(** The entry [i] has been marked killed. *)
Definition marked (i : nat) s : Prop := ∃ p, procs s !! i = Some p ∧ killed_flag p = true.

Lemma on_kern_marked {A} i (m : M K A) : preserves (marked i) (on_kern m).
Proof.
  intros s a s' Hs. unfold on_kern. destruct (m (kern s)) as [[x k]|]; [|done]. by intros [= _ <-].
Qed.
Lemma upd_marked i j f :
  (∀ p, killed_flag (f p) = killed_flag p) → preserves (marked i) (upd (K := K) j f).
Proof.
  intros Hf. apply preserves_modify. intros s (p & Hp & Hk). destruct (decide (i = j)) as [->|].
  - exists (f p). simpl. rewrite list_lookup_alter_eq, Hp. by rewrite Hf.
  - exists p. simpl. by rewrite list_lookup_alter_ne.
Qed.

(** The entry [allocproc] returns keeps a mark made while it was free. *)
Lemma allocproc_marked i j s s' :
  marked i s → allocproc s = Some (Some j, s') →
  index_of (is_state UNUSED) (procs s) = Some j ∧ marked i s'.
Proof.
  intros Hs. unfold allocproc.
  rewrite (bind_eq _ _ _ (index_of (is_state UNUSED) (procs s)) s) by done.
  destruct (index_of (is_state UNUSED) (procs s)) as [k|]; [|done]. unfold allocproc_found.
  intros (n & s1 & E1 & E)%bind_Some.
  assert (marked i s1) as H1.
  { unfold allocpid in E1. rewrite (bind_eq _ _ _ (nextpid s) s) in E1 by done.
    destruct (_ <? _); [|done]. by injection E1 as _ <-. }
  apply bind_Some in E as ([] & s2 & E2 & E). apply (upd_marked i) in E2; [|done..].
  apply bind_Some in E as (page & s3 & E3 & E). apply (on_kern_marked i) in E3; [|done].
  apply bind_Some in E as ([] & s4 & E4 & E). apply (upd_marked i) in E4; [|done..].
  apply bind_Some in E as ([] & s5 & E5 & E). apply (upd_marked i) in E5; [|done..].
  destruct (page =? 0); [by apply bind_Some in E as ([] & s6 & _ & ?)|].
  apply bind_Some in E as (pt & s6 & E6 & E).
  assert (marked i s6) as H6.
  {
    assert (preserves (marked i) (proc_pagetable (K := K) page)) as Hp.
    { unfold proc_pagetable. preserve; apply on_kern_marked. }
    eapply Hp; [|exact E6]. done. }
  apply bind_Some in E as ([] & s7 & E7 & E). apply (upd_marked i) in E7; [|done..].
  destruct (pt =? 0); [by apply bind_Some in E as ([] & s8 & _ & ?)|].
  apply bind_Some in E as ([] & s8 & E8 & E). apply (upd_marked i) in E8; [|done..].
  injection E as <- <-. done.
Qed.

(** [kill(0)] succeeds and hits a process that does not exist yet: the
    search by pid finds the first free entry of the table, whose pid is 0,
    and marks it killed. [allocproc] does not clear the mark, so the next
    process to be created, by anyone, is born killed and exits at its first
    return to user space. *)
Theorem kill_zero_hits_next_process s i :
  table_ok (procs s) (cpus s) (nextpid s) (mlfq_seq_counter s) →
  index_of (is_state UNUSED) (procs s) = Some i →
  ∃ s1, kkill 0 s = Some (0, s1) ∧
    ∀ j s2, allocproc s1 = Some (Some j, s2) → j = i ∧ killed i s2 = Some (true, s2).
Proof.
  intros Ht Hfree. pose proof (pid_zero_unused _ _ _ _ Ht) as Hz. rewrite Hfree in Hz.
  destruct (proj1 (index_of_Some _ _ _) Hfree) as (p & Hi & Hst & Hfirst).
  unfold kkill. rewrite (bind_eq _ _ _ (index_of (λ p, pid p =? 0) (procs s)) s) by done. rewrite Hz. unfold kill_proc.
  rewrite (bind_eq _ _ _ _ _ (upd_eq _ _ _ _ Hi)).
  set (p1 := set_killed true p). set (s1 := set_procs _ s).
  assert (procs s1 !! i = Some p1) as Hi1.
  { unfold s1. simpl. by rewrite list_lookup_insert_eq by (by eapply lookup_lt_Some). }
  rewrite (bind_eq _ _ _ p1 s1) by (unfold the_proc; by rewrite Hi1).
  apply bool_decide_eq_true in Hst.
  assert (is_state SLEEPING p1 = false) as -> by (apply bool_decide_eq_false; simpl; by rewrite Hst).
  exists s1. split; [done|]. intros j s2 E.
  apply (allocproc_marked i) in E as [Hj (q & Hq & Hk)]; [|by exists p1].
  split; [|unfold killed, mbind, M_bind, the_proc; by rewrite Hq, Hk].
  assert (index_of (is_state UNUSED) (procs s1) = Some i) as E1; [|congruence].
  apply index_of_Some. exists p1. split_and!; [done|by apply bool_decide_eq_true|].
  intros k r Hk' Hr. unfold s1 in Hr. simpl in Hr. rewrite list_lookup_insert_ne in Hr by lia.
  by eapply Hfirst.
Qed.

(** ** Waiting for a child *)

(** What [freeproc] and the assignment before it leave of a reaped child. *)
Definition reaped p : proc := reset_proc (set_parent None p).

Lemma freeproc_procs i s s' p :
  procs s !! i = Some p → freeproc i s = Some ((), s') → procs s' = <[i := reset_proc p]> (procs s).
Proof.
  intros Hi (q & s1 & E1 & E)%bind_Some. unfold the_proc in E1. rewrite Hi in E1. injection E1 as <- <-.
  assert (∀ (m : M (kstate K) unit) s0 s1, preserves (λ s, procs s = procs s0) m →
    m s0 = Some ((), s1) → procs s1 = procs s0) as Hsame by (intros m s0 s1 Hm; by apply Hm).
  assert (∀ l A (m : M K A), preserves (λ s, procs s = l) (on_kern m)) as Hkern.
  { intros l A m s0 a s1 Hs. unfold on_kern. destruct (m (kern s0)) as [[x k]|]; [|done].
    by intros [= _ <-]. }
  apply bind_Some in E as ([] & s2 & E2 & E). apply Hsame in E2.
  2:{ unfold when. destruct (negb _); [apply Hkern|apply preserves_ret]. }
  apply bind_Some in E as ([] & s3 & E3 & E). apply Hsame in E3.
  2:{ unfold when, proc_freepagetable. preserve; apply Hkern. }
  rewrite (upd_eq i _ _ p) in E by congruence. injection E as <-. simpl. by rewrite E3, E2.
Qed.

(** One pass of [wait] by a process [i] that passes no address. If a
    child has exited, the first one in the table is reaped: its pid is
    returned and its entry is free again (pid 0, no parent, no channel,
    not killed); otherwise, if there is no child or [i] has been killed, the
    result is -1 and nothing has changed; otherwise [i] is prepared to sleep
    on its own address, which an exiting child wakes. *)
Theorem kwait_pass_spec i s p r s' :
  procs s !! i = Some p → kwait_pass i 0 s = Some (r, s') →
  match index_of (λ q, is_child i q && is_state ZOMBIE q) (procs s) with
  | Some j => ∃ q, procs s !! j = Some q ∧ r = Some (pid q) ∧ procs s' = <[j := reaped q]> (procs s)
  | None =>
    if existsb (is_child i) (procs s) && negb (killed_flag p)
    then r = None ∧ procs s' = <[i := set_chan (Some (ChProc i)) p]> (procs s)
    else r = Some (-1) ∧ s' = s
  end.
Proof.
  intros Hi. unfold kwait_pass.
  rewrite (bind_eq _ _ _ (index_of (λ q, is_child i q && is_state ZOMBIE q) (procs s)) s) by done.
  destruct (index_of _ (procs s)) as [j|] eqn:Hj.
  - apply index_of_Some in Hj as (q & Hq & _). unfold kwait_reap.
    rewrite (bind_eq _ _ _ q s) by (unfold the_proc; by rewrite Hq).
    rewrite (bind_eq _ _ _ p s) by (unfold the_proc; by rewrite Hi).
    rewrite (bind_eq _ _ _ true s) by done. cbn [negb].
    rewrite (bind_eq _ _ _ _ _ (upd_eq _ _ _ _ Hq)). intros ([] & s1 & E1 & E)%bind_Some.
    injection E as <- <-. exists q. split_and!; [done|done|]. eapply freeproc_procs in E1.
    + rewrite E1. simpl. by rewrite list_insert_insert_eq.
    + simpl. by rewrite list_lookup_insert_eq by (by eapply lookup_lt_Some).
  - rewrite (bind_eq _ _ _ (existsb (is_child i) (procs s)) s) by done.
    rewrite (bind_eq _ _ _ (killed_flag p) s).
    2:{ unfold killed. rewrite (bind_eq _ _ _ p s) by (unfold the_proc; by rewrite Hi). done. }
    destruct (existsb _ _); simpl; [|by intros [= <- <-]].
    destruct (killed_flag p); simpl; [by intros [= <- <-]|].
    rewrite (bind_eq _ _ _ _ _ (upd_eq _ _ _ _ Hi)). by intros [= <- <-].
Qed.
End sync.

(** ** The theorems at a concrete state *)

Lemma no_lost_wakeup_witness :
  ∃ s' p', (sleep_prepare 0 (Some ChTicks);; wakeups [ChProc 1; ChTicks];; sleep 0;; wakeups [ChTicks])
      demo_state = Some ((), s') ∧ procs s' !! 0%nat = Some p' ∧ state p' = RUNNING.
Proof.
  destruct (procs demo_state !! 0%nat) as [p|] eqn:E; [|by vm_compute in E].
  apply (no_lost_wakeup 0 ChTicks [ChProc 1; ChTicks] [ChTicks] demo_state p).
  - vm_compute. reflexivity.
  - exact E.
  - vm_compute in E. injection E as <-. reflexivity.
Defined.

Lemma kill_zero_hits_next_process_witness :
  ∃ s1, kkill 0 demo_state = Some (0, s1) ∧
    ∀ j s2, @allocproc _ demo_kernel s1 = Some (Some j, s2) → j = 2%nat ∧ killed 2 s2 = Some (true, s2).
Proof.
  apply (@kill_zero_hits_next_process _ demo_kernel demo_state 2 (proj1 demo_state_kinv)).
  vm_compute. reflexivity.
Defined.

(** The first process has a child, which is still running. *)
Lemma kwait_pass_spec_witness :
  ∃ p s', procs demo_state !! 0%nat = Some p ∧
    @kwait_pass _ demo_kernel 0 0 demo_state = Some (None, s') ∧
    procs s' = <[0%nat := set_chan (Some (ChProc 0)) p]> (procs demo_state).
Proof.
  destruct (procs demo_state !! 0%nat) as [p|] eqn:Ep; [|by vm_compute in Ep].
  destruct (@kwait_pass _ demo_kernel 0 0 demo_state) as [[r s']|] eqn:E; [|by vm_compute in E].
  pose proof (@kwait_pass_spec _ demo_kernel 0 demo_state p r s' Ep E) as Hs.
  assert (index_of (λ q, is_child 0 q && is_state ZOMBIE q) (procs demo_state) = None) as H1
    by (vm_compute; reflexivity).
  assert (existsb (is_child 0) (procs demo_state) = true) as H2 by (vm_compute; reflexivity).
  assert (killed_flag p = false) as H3 by (vm_compute in Ep; injection Ep as <-; reflexivity).
  rewrite H1, H2, H3 in Hs. destruct Hs as [-> Hs]. exists p, s'. split_and!; [reflexivity|reflexivity|exact Hs].
Defined.

(** What the sleeping primitives of [xv6/kernel/proc.c] promise to the code
    that waits on a channel (pipes, sleep locks): an interface, and the proof
    that the process table implements it. *)

(** [waiting s t c]: process [t] has announced that it sleeps on [c] and has
    not been woken since. [chan_ok] is what the operations need to succeed. *)
Class SleepChan (S : Type) := {
  chan_wakeup : channel → M S unit;
  chan_prepare : nat → channel → M S unit;
  chan_ok : S → Prop;
  chan_is_proc : nat → Prop;
  waiting : S → nat → channel → Prop;
  chan_wakeup_spec : ∀ c s, chan_ok s →
    ∃ s', chan_wakeup c s = Some ((), s') ∧ chan_ok s' ∧
      ∀ t d, waiting s' t d ↔ waiting s t d ∧ d ≠ c;
  chan_prepare_spec : ∀ t c s, chan_ok s → chan_is_proc t →
    ∃ s', chan_prepare t c s = Some ((), s') ∧ chan_ok s' ∧
      ∀ u d, waiting s' u d ↔ if decide (u = t) then d = c else waiting s u d;
}.

Section kstate_chan.
Context {K : Type}.
Implicit Types (s : kstate K) (p : proc).

Definition waits s (t : nat) (c : channel) : Prop := ∃ p, procs s !! t = Some p ∧ chan p = Some c.

Lemma wakeup_waits c s :
  length (procs s) = NPROC →
  ∃ s', wakeup (Some c) s = Some ((), s') ∧ length (procs s') = NPROC ∧
    ∀ t d, waits s' t d ↔ waits s t d ∧ d ≠ c.
Proof.
  intros Hlen. destruct (wakeup_spec (Some c) s Hlen) as (s' & E & _ & Hlen' & Hall).
  exists s'. split_and!; [done|done|]. intros t d. split.
  - intros (p' & Hp' & Hd). apply lookup_lt_Some in Hp' as Ht. rewrite Hlen', <-Hlen in Ht.
    apply lookup_lt_is_Some in Ht as [p Hp]. destruct (Hall t p Hp) as (p2 & Hp2 & [Hc _ _]).
    simplify_eq. rewrite Hd in Hc. case_decide as Hpc; [done|]. split; [by exists p|congruence].
  - intros [(p & Hp & Hd) Hne]. destruct (Hall t p Hp) as (p' & Hp' & [Hc _ _]). exists p'.
    split; [done|]. rewrite Hc, decide_False; congruence.
Qed.

Lemma prepare_waits t c s :
  length (procs s) = NPROC → (t < NPROC)%nat →
  ∃ s', sleep_prepare t (Some c) s = Some ((), s') ∧ length (procs s') = NPROC ∧
    ∀ u d, waits s' u d ↔ if decide (u = t) then d = c else waits s u d.
Proof.
  intros Hlen Ht. rewrite <-Hlen in Ht. apply lookup_lt_is_Some in Ht as [p Hp].
  unfold sleep_prepare. rewrite (upd_eq _ _ _ _ Hp). eexists. split; [reflexivity|].
  unfold waits. simpl. rewrite length_insert. split; [done|]. intros u d.
  case_decide as Hu; [subst u|].
  - rewrite list_lookup_insert_eq by (by eapply lookup_lt_Some). split; [|intros ->; by eauto].
    intros (q & [= <-] & Hq). simpl in Hq. congruence.
  - by rewrite list_lookup_insert_ne.
Qed.

#[export] Instance kstate_chan : SleepChan (kstate K) := {
  chan_wakeup c := wakeup (Some c);
  chan_prepare t c := sleep_prepare t (Some c);
  chan_ok s := length (procs s) = NPROC;
  chan_is_proc t := (t < NPROC)%nat;
  waiting := waits;
  chan_wakeup_spec := wakeup_waits;
  chan_prepare_spec := prepare_waits;
}.
End kstate_chan.
