(* ===== verification/Pipe.v ===== *)
(** Pipes of the kernel: [xv6/kernel/pipe.c].

    A pipe is a ring of [PIPESIZE] bytes with two 32-bit counters that only
    grow and wrap around. [pipewrite] and [piperead] run under the lock of the
    pipe except while they sleep, so the model has one definition for what
    they do from taking the lock until they sleep or return: a pass. What the
    process finds when it asks whether it was killed is an argument of a pass,
    for each turn of the loop, because another CPU may kill it at any moment.

    The process table is known through the interface [SleepChan], the memory
    of a process through [UserMem]. [None] is the use of a pipe that was
    freed. *)
From S2P Require Import Prelude Kalloc Proc ProcSync.

Definition PIPESIZE : Z := 512.

Record pipe := mkPipe {
  data : list ascii;
  nread : Z;
  nwrite : Z;
  readopen : bool;
  writeopen : bool;
}.

(** The addresses of the two counters, on which processes sleep. *)
Definition chan_nread (pa : Z) : channel := ChOther (pa + 536).
Definition chan_nwrite (pa : Z) : channel := ChOther (pa + 540).

(** The memory of a user process, through its page table (vm.c): [copyin] and
    [copyout] of one byte, which fail at an address that is not mapped. *)
Class UserMem (U : Type) := {
  copyin : U → Z → option ascii;
  copyout : U → Z → ascii → option U;
  copyout_copyin : ∀ u a c u', copyout u a c = Some u' → copyin u' a = Some c;
  copyout_other : ∀ u a c u' b, copyout u a c = Some u' → b ≠ a → copyin u' b = copyin u b;
}.

Record pworld (S : Type) := mkPworld {
  table : S;
  kpages : kmem;
  pipes : gmap Z pipe;
}.
Arguments mkPworld {S}.
Arguments table {S}.
Arguments kpages {S}.
Arguments pipes {S}.

(** How a pass of [pipewrite] ends: at the end of the function with value
    [r], with the early [return -1], or asleep. *)
Inductive wstatus := WDone (r : Z) | WAborted | WAsleep.
(** How a pass of [piperead] ends; the memory of the process when it is done. *)
Inductive rstatus (U : Type) := RDone (u : U) (r : Z) | RKilled | RAsleep.
Arguments RDone {U}.
Arguments RKilled {U}.
Arguments RAsleep {U}.

Section code.
Context {S : Type} `{SleepChan S} {U : Type} `{UserMem U} (kernel_end : Z).
Abbreviation pm := (M (pworld S)).

Definition on_table {A} (m : M S A) : pm A := λ w,
  match m (table w) with
  | Some (a, s) => Some (a, mkPworld s (kpages w) (pipes w))
  | None => None
  end.
Definition on_pages {A} (m : M kmem A) : pm A := λ w,
  match m (kpages w) with
  | Some (a, k) => Some (a, mkPworld (table w) k (pipes w))
  | None => None
  end.
Definition the_pipe (pa : Z) : pm pipe := λ w,
  match pipes w !! pa with Some p => Some (p, w) | None => None end.
Definition set_pipe (pa : Z) (p : pipe) : pm unit :=
  modify (λ w, mkPworld (table w) (kpages w) (<[pa := p]> (pipes w))).

Definition pipeclose (pa : Z) (writable : bool) : pm unit :=
  p ← the_pipe pa;
  (if writable then
     set_pipe pa (mkPipe (data p) (nread p) (nwrite p) (readopen p) false);;
     on_table (chan_wakeup (chan_nread pa))
   else
     set_pipe pa (mkPipe (data p) (nread p) (nwrite p) false (writeopen p));;
     on_table (chan_wakeup (chan_nwrite pa)));;
  p ← the_pipe pa;
  if negb (readopen p) && negb (writeopen p) then
    on_pages (kfree kernel_end pa);;
    modify (λ w, mkPworld (table w) (kpages w) (delete pa (pipes w)))
  else mret ().

(** [pi->data[pi->nwrite++ % PIPESIZE] = ch]. *)
Definition put (ch : ascii) (p : pipe) : pipe :=
  mkPipe (<[Z.to_nat (nwrite p mod PIPESIZE) := ch]> (data p)) (nread p) (u32 (nwrite p + 1))
    (readopen p) (writeopen p).
(** [pi->nread++]. *)
Definition advance (p : pipe) : pipe :=
  mkPipe (data p) (u32 (nread p + 1)) (nwrite p) (readopen p) (writeopen p).

(** The loop of [pipewrite] by process [t], with [m = n - i] bytes to go. The
    result has the number of bytes stored in the pipe so far. *)
Fixpoint write_loop (u : U) (killed : Z → bool) (t : nat) (pa addr : Z) (m : nat) (i : Z)
  : pm (Z * wstatus) :=
  match m with
  | O => on_table (chan_wakeup (chan_nread pa));; mret (i, WDone i)
  | Datatypes.S m =>
    p ← the_pipe pa;
    if negb (readopen p) || killed i then mret (i, WAborted)
    else if nwrite p =? u32 (nread p + PIPESIZE) then
      on_table (chan_wakeup (chan_nread pa));;
      on_table (chan_prepare t (chan_nwrite pa));;
      mret (i, WAsleep)
    else
      match copyin u (u64 (addr + i)) with
      | None =>
        on_table (chan_wakeup (chan_nread pa));;
        mret (i, WDone (if i =? 0 then -1 else i))
      | Some ch =>
        set_pipe pa (put ch p);;
        write_loop u killed t pa addr m (i + 1)
      end
  end.
Definition pipewrite_pass (u : U) (killed : Z → bool) (t : nat) (pa addr n i : Z) : pm (Z * wstatus) :=
  _ ← the_pipe pa;
  write_loop u killed t pa addr (Z.to_nat (n - i)) i.

(** The loop of [piperead] that copies, with [m = n - i] bytes to go. *)
Fixpoint read_loop (u : U) (pa addr : Z) (m : nat) (i : Z) : pm (Z * rstatus U) :=
  let finish r := on_table (chan_wakeup (chan_nwrite pa));; mret (i, RDone u r) in
  match m with
  | O => finish i
  | Datatypes.S m =>
    p ← the_pipe pa;
    if nread p =? nwrite p then finish i
    else
      match data p !! Z.to_nat (nread p mod PIPESIZE) with
      | None => stuck
      | Some ch =>
        match copyout u (u64 (addr + i)) ch with
        | None => finish (if i =? 0 then -1 else i)
        | Some u' => set_pipe pa (advance p);; read_loop u' pa addr m (i + 1)
        end
      end
  end.
Definition piperead_pass (u : U) (killed : bool) (t : nat) (pa addr n : Z) : pm (Z * rstatus U) :=
  p ← the_pipe pa;
  if (nread p =? nwrite p) && writeopen p then
    if killed then mret (0, RKilled)
    else on_table (chan_prepare t (chan_nread pa));; mret (0, RAsleep)
  else read_loop u pa addr (Z.to_nat n) 0.
End code.

(** ** The ring as a queue *)

(** The number of bytes in the pipe and the bytes, oldest first. *)
Definition used (p : pipe) : nat := Z.to_nat (u32 (nwrite p - nread p)).
Definition byte_at (p : pipe) (k : nat) : ascii :=
  default c_nul (data p !! Z.to_nat (u32 (nread p + Z.of_nat k) mod PIPESIZE)).
Definition contents (p : pipe) : list ascii := byte_at p <$> seq 0 (used p).

Record pipe_ok (p : pipe) : Prop := {
  po_data : length (data p) = Z.to_nat PIPESIZE;
  po_nread : 0 ≤ nread p < 2 ^ 32;
  po_nwrite : 0 ≤ nwrite p < 2 ^ 32;
  po_used : Z.of_nat (used p) ≤ PIPESIZE;
}.

(** Counters wrap around at a multiple of [PIPESIZE]. *)
Lemma u32_mod_PIPESIZE z : u32 z mod PIPESIZE = z mod PIPESIZE.
Proof.
  unfold u32, PIPESIZE. apply Z.mod_mod_divide. exists (2 ^ 23). reflexivity.
Qed.

Lemma u32_sub_sub a b : u32 (u32 a - b) = u32 (a - b).
Proof. unfold u32. by rewrite Zminus_mod_idemp_l. Qed.

Lemma used_zero p : pipe_ok p → (nread p =? nwrite p) = bool_decide (used p = O).
Proof.
  intros [_ Hr Hw _]. unfold used, u32. destruct (Z.eqb_spec (nread p) (nwrite p)) as [E|E].
  - rewrite E, Z.sub_diag, bool_decide_true; [done|reflexivity].
  - rewrite bool_decide_false; [done|]. pose proof (Z.mod_pos_bound (nwrite p - nread p) (2 ^ 32)).
    destruct (decide (nread p ≤ nwrite p)).
    + rewrite Z.mod_small by lia. lia.
    + rewrite <-(Z.mod_add _ 1), Z.mod_small by lia. lia.
Qed.

Lemma used_full p :
  pipe_ok p → (nwrite p =? u32 (nread p + PIPESIZE)) = bool_decide (used p = Z.to_nat PIPESIZE).
Proof.
  intros [_ Hr Hw _]. unfold used, u32, PIPESIZE.
  assert ((nwrite p - nread p) mod 2 ^ 32 = 512 ↔ nwrite p = (nread p + 512) mod 2 ^ 32) as E.
  { split; intros E.
    - rewrite <-E, Zplus_mod_idemp_r. replace (nread p + (nwrite p - nread p)) with (nwrite p) by lia.
      by rewrite Z.mod_small by lia.
    - rewrite E, Zminus_mod_idemp_l. replace (nread p + 512 - nread p) with 512 by lia. done. }
  pose proof (Z.mod_pos_bound (nwrite p - nread p) (2 ^ 32)).
  destruct (Z.eqb_spec (nwrite p) ((nread p + 512) mod 2 ^ 32)) as [E1|E1].
  - apply E in E1. rewrite E1. by rewrite bool_decide_true.
  - rewrite bool_decide_false; [done|]. intros E2. apply E1, E. lia.
Qed.

Lemma contents_length p : length (contents p) = used p.
Proof. unfold contents. by rewrite length_fmap, length_seq. Qed.

Lemma contents_empty p : pipe_ok p → (nread p =? nwrite p) = bool_decide (contents p = []).
Proof.
  intros Hp. rewrite (used_zero _ Hp), <-contents_length. apply bool_decide_ext.
  split; [apply nil_length_inv|by intros ->].
Qed.

Lemma contents_full p :
  pipe_ok p → (nwrite p =? u32 (nread p + PIPESIZE)) = bool_decide (length (contents p) = Z.to_nat PIPESIZE).
Proof. intros Hp. by rewrite (used_full _ Hp), contents_length. Qed.

Lemma put_ok ch p :
  pipe_ok p → (used p < Z.to_nat PIPESIZE)%nat →
  pipe_ok (put ch p) ∧ contents (put ch p) = contents p ++ [ch].
Proof.
  intros [Hd Hr Hw Hu] Hlt.
  assert (used (put ch p) = Datatypes.S (used p)) as HS.
  { unfold used in *. simpl. rewrite u32_sub_sub.
    replace (nwrite p + 1 - nread p) with (1 + (nwrite p - nread p)) by lia. unfold u32, PIPESIZE in *.
    pose proof (Z.mod_pos_bound (nwrite p - nread p) (2 ^ 32)).
    rewrite <-Zplus_mod_idemp_r, (Z.mod_small (1 + _)) by lia. lia. }
  assert (Z.of_nat (used p) = u32 (nwrite p - nread p)) as Hused.
  { unfold used. apply Z2Nat.id, u32_range. }
  assert (∀ k, u32 (nread p + Z.of_nat k) mod PIPESIZE = (nread p + Z.of_nat k) mod PIPESIZE) as Hix
    by (intros; apply u32_mod_PIPESIZE).
  split.
  - split; simpl; [by rewrite length_insert|done|apply u32_range|]. rewrite HS. lia.
  - unfold contents. rewrite HS, seq_S, fmap_app. f_equal.
    + apply list_fmap_ext. intros k j Hk%lookup_seq. unfold byte_at. simpl.
      rewrite list_lookup_insert_ne; [done|]. rewrite Hix. intros E. unfold PIPESIZE in *.
      apply Z2Nat.inj in E; [|apply Z.mod_pos_bound; lia..].
      assert ((nwrite p - nread p) mod 512 = Z.of_nat j mod 512) as E2.
      { rewrite Zminus_mod, E, <-Zminus_mod. f_equal. lia. }
      rewrite <-u32_mod_PIPESIZE in E2. unfold PIPESIZE in E2. rewrite <-Hused in E2.
      rewrite !Z.mod_small in E2 by lia. lia.
    + simpl. f_equal. unfold byte_at. simpl. rewrite Hix.
      assert ((nread p + Z.of_nat (used p)) mod PIPESIZE = nwrite p mod PIPESIZE) as ->.
      { rewrite Hused, <-Zplus_mod_idemp_r, u32_mod_PIPESIZE, Zplus_mod_idemp_r. f_equal. lia. }
      rewrite list_lookup_insert_eq; [done|]. rewrite Hd. unfold PIPESIZE.
      pose proof (Z.mod_pos_bound (nwrite p) 512). lia.
Qed.

Lemma advance_ok p :
  pipe_ok p → used p ≠ O →
  ∃ ch, data p !! Z.to_nat (nread p mod PIPESIZE) = Some ch ∧ contents p = ch :: contents (advance p) ∧
    pipe_ok (advance p).
Proof.
  intros [Hd Hr Hw Hu] Hne.
  assert (used p = Datatypes.S (used (advance p))) as HS.
  { unfold used in *. simpl. unfold u32 in *. rewrite Zminus_mod_idemp_r.
    replace (nwrite p - (nread p + 1)) with ((nwrite p - nread p) - 1) by lia.
    pose proof (Z.mod_pos_bound (nwrite p - nread p) (2 ^ 32)).
    rewrite <-(Zminus_mod_idemp_l (nwrite p - nread p)), (Z.mod_small (_ - 1)) by lia. lia. }
  destruct (lookup_lt_is_Some_2 (data p) (Z.to_nat (nread p mod PIPESIZE))) as [ch Hch].
  { rewrite Hd. unfold PIPESIZE. pose proof (Z.mod_pos_bound (nread p) 512). lia. }
  exists ch. split_and!; [done| |].
  - unfold contents. rewrite HS. simpl seq. rewrite fmap_cons. f_equal.
    + unfold byte_at. rewrite u32_mod_PIPESIZE, Z.add_0_r, Hch. done.
    + rewrite <-fmap_S_seq, <-list_fmap_compose. apply list_fmap_ext. intros k j _. unfold byte_at. simpl.
      assert (u32 (nread p + Z.of_nat (Datatypes.S j)) = u32 (u32 (nread p + 1) + Z.of_nat j)) as ->; [|done].
      unfold u32. rewrite Zplus_mod_idemp_l. f_equal. lia.
  - split; simpl; [done|apply u32_range|done|]. lia.
Qed.

(** ** The passes *)

Section spec.
Context {S : Type} `{SleepChan S} {U : Type} `{UserMem U} (kernel_end : Z).
Implicit Types (w : pworld S) (p : pipe) (u : U).

(** The bytes of the memory [u] at [addr + i], ..., [addr + j - 1]. *)
Definition user_bytes u (addr i j : Z) : list ascii :=
  omap (λ k, copyin u (u64 (addr + i + Z.of_nat k))) (seq 0 (Z.to_nat (j - i))).

Lemma user_bytes_nil u addr i : user_bytes u addr i i = [].
Proof. unfold user_bytes. by rewrite Z.sub_diag. Qed.

Lemma user_bytes_cons u addr i j c :
  i < j → copyin u (u64 (addr + i)) = Some c →
  user_bytes u addr i j = c :: user_bytes u addr (i + 1) j.
Proof.
  intros Hij Hc. unfold user_bytes.
  replace (Z.to_nat (j - i)) with (Datatypes.S (Z.to_nat (j - (i + 1)))) by lia.
  simpl. rewrite Z.add_0_r, Hc. f_equal. rewrite <-fmap_S_seq.
  generalize (seq 0 (Z.to_nat (j - (i + 1)))). intros l.
  apply list_omap_ext, Forall2_fmap_l, Forall_Forall2_diag, Forall_true. intros k. simpl.
  do 2 f_equal. lia.
Qed.

Lemma user_bytes_ext u u' addr i j :
  (∀ k, i ≤ k < j → copyin u' (u64 (addr + k)) = copyin u (u64 (addr + k))) →
  user_bytes u' addr i j = user_bytes u addr i j.
Proof.
  intros E. unfold user_bytes.
  apply list_omap_ext, Forall_Forall2_diag, Forall_forall. intros k Hk%elem_of_seq.
  rewrite <-Z.add_assoc. apply E. lia.
Qed.

(** [w'] has the pipe [p'] at [pa] and is otherwise as [w]; its processes
    wait as [ws] says. *)
Record after (pa : Z) p' (ws : nat → channel → Prop) w w' : Prop := {
  af_pipes : pipes w' = <[pa := p']> (pipes w);
  af_pages : kpages w' = kpages w;
  af_ok : chan_ok (table w');
  af_wait : ∀ t d, waiting (table w') t d ↔ ws t d;
}.

Lemma on_table_wakeup c w :
  chan_ok (table w) →
  ∃ s', on_table (chan_wakeup c) w = Some ((), mkPworld s' (kpages w) (pipes w)) ∧ chan_ok s' ∧
    ∀ t d, waiting s' t d ↔ waiting (table w) t d ∧ d ≠ c.
Proof.
  intros Hok. destruct (chan_wakeup_spec c _ Hok) as (s' & E & ? & ?). exists s'.
  unfold on_table. by rewrite E.
Qed.

Lemma on_table_prepare t c w :
  chan_ok (table w) → chan_is_proc t →
  ∃ s', on_table (chan_prepare t c) w = Some ((), mkPworld s' (kpages w) (pipes w)) ∧ chan_ok s' ∧
    ∀ v d, waiting s' v d ↔ if decide (v = t) then d = c else waiting (table w) v d.
Proof.
  intros Hok Ht. destruct (chan_prepare_spec t c _ Hok Ht) as (s' & E & ? & ?). exists s'.
  unfold on_table. by rewrite E.
Qed.

Lemma the_pipe_eq {A} pa p w (k : pipe → M (pworld S) A) :
  pipes w !! pa = Some p → (the_pipe pa ≫= k) w = k p w.
Proof. intros Hp. apply bind_eq. unfold the_pipe. by rewrite Hp. Qed.

(** The processes that wait after a pass of [pipewrite]. *)
Definition write_waits (st : wstatus) (t : nat) (pa : Z) w (v : nat) (d : channel) : Prop :=
  match st with
  | WDone _ => waiting (table w) v d ∧ d ≠ chan_nread pa
  | WAborted => waiting (table w) v d
  | WAsleep => if decide (v = t) then d = chan_nwrite pa else waiting (table w) v d ∧ d ≠ chan_nread pa
  end.

(** A pass of [pipewrite] that stored bytes [i], ..., [i' - 1] ended for the
    reason its status gives. *)
Definition write_reason (st : wstatus) u (killed : Z → bool) (addr n i' : Z) p' : Prop :=
  match st with
  | WDone r => (i' = n ∧ r = n) ∨ (i' < n ∧ copyin u (u64 (addr + i')) = None ∧ r = if i' =? 0 then -1 else i')
  | WAborted => i' < n ∧ (readopen p' = false ∨ killed i' = true)
  | WAsleep => i' < n ∧ length (contents p') = Z.to_nat PIPESIZE ∧ readopen p' = true ∧ killed i' = false
  end.

Definition same_ends p p' : Prop := readopen p' = readopen p ∧ writeopen p' = writeopen p.

Lemma write_loop_spec u killed t pa addr n m i w p :
  chan_ok (table w) → chan_is_proc t → pipes w !! pa = Some p → pipe_ok p →
  i ≤ n → m = Z.to_nat (n - i) →
  ∃ i' st w' p', write_loop u killed t pa addr m i w = Some ((i', st), w') ∧
    after pa p' (write_waits st t pa w) w w' ∧ pipe_ok p' ∧ same_ends p p' ∧ i ≤ i' ∧
    contents p' = contents p ++ user_bytes u addr i i' ∧
    length (user_bytes u addr i i') = Z.to_nat (i' - i) ∧
    write_reason st u killed addr n i' p'.
Proof.
  revert i w p. induction m as [|m IH]; intros i w p Hok Ht Hp Hpok Hin Hm.
  { destruct (on_table_wakeup (chan_nread pa) w Hok) as (s' & E & Hok' & Hw).
    exists i, (WDone i), (mkPworld s' (kpages w) (pipes w)), p. cbn [write_loop].
    rewrite (bind_eq _ _ _ _ _ E), user_bytes_nil, app_nil_r.
    split_and!; [done| |done|done|lia|done|by rewrite Z.sub_diag|].
    - split; simpl; [by rewrite insert_id|done|done|done].
    - left. lia. }
  cbn [write_loop]. rewrite (the_pipe_eq _ _ _ _ Hp).
  destruct (negb (readopen p) || killed i) eqn:Eab.
  { exists i, WAborted, w, p. rewrite user_bytes_nil, app_nil_r.
    split_and!; [done| |done|done|lia|done|by rewrite Z.sub_diag|].
    - split; simpl; [by rewrite insert_id|done|done|done].
    - split; [lia|]. destruct (readopen p); [by right|by left]. }
  apply orb_false_iff in Eab as [Ero Ek]. apply negb_false_iff in Ero.
  rewrite (contents_full _ Hpok). case_bool_decide as Hfull.
  { destruct (on_table_wakeup (chan_nread pa) w Hok) as (s1 & E1 & Hok1 & Hw1).
    rewrite (bind_eq _ _ _ _ _ E1).
    destruct (on_table_prepare t (chan_nwrite pa) (mkPworld s1 (kpages w) (pipes w)) Hok1 Ht)
      as (s2 & E2 & Hok2 & Hw2).
    rewrite (bind_eq _ _ _ _ _ E2). eexists i, WAsleep, _, p. rewrite user_bytes_nil, app_nil_r.
    split_and!; [done| |done|done|lia|done|by rewrite Z.sub_diag|split_and!; [lia|done..]].
    split; simpl; [by rewrite insert_id|done|done|]. intros v d. rewrite Hw2.
    case_decide; [done|apply Hw1]. }
  destruct (copyin u (u64 (addr + i))) as [ch|] eqn:Ec.
  2:{ destruct (on_table_wakeup (chan_nread pa) w Hok) as (s' & E & Hok' & Hw).
    rewrite (bind_eq _ _ _ _ _ E). eexists i, (WDone _), _, p. rewrite user_bytes_nil, app_nil_r.
    split_and!; [done| |done|done|lia|done|by rewrite Z.sub_diag|].
    - split; simpl; [by rewrite insert_id|done|done|done].
    - right. split_and!; [lia|done|done]. }
  destruct (put_ok ch p Hpok) as [Hpok' Hct].
  { rewrite <-contents_length. destruct Hpok as [_ _ _ Hu]. rewrite <-contents_length in Hu.
    unfold PIPESIZE in *. lia. }
  set (w1 := mkPworld (table w) (kpages w) (<[pa := put ch p]> (pipes w))).
  rewrite (bind_eq _ _ _ () w1) by done.
  destruct (IH (i + 1) w1 (put ch p)) as (i' & st & w' & p' & E & [Af1 Af2 Af3 Af4] & Hok' & [Hs1 Hs2] & Hle & Hc & Hl & Hr);
    [done|done|by unfold w1; simpl; rewrite lookup_insert_eq|done|lia|lia|].
  exists i', st, w', p'. rewrite (user_bytes_cons u addr i i' ch) by (lia || done).
  split_and!; [done| |done|done|lia| |simpl; rewrite Hl; lia|done].
  - split; [|done|done|].
    + rewrite Af1. unfold w1. simpl. by rewrite insert_insert_eq.
    + intros v d. rewrite Af4. by destruct st.
  - rewrite Hc, Hct, <-app_assoc. done.
Qed.

(** The processes that wait after a pass of [piperead]. *)
Definition read_waits (st : rstatus U) (t : nat) (pa : Z) w (v : nat) (d : channel) : Prop :=
  match st with
  | RDone _ _ => waiting (table w) v d ∧ d ≠ chan_nwrite pa
  | RKilled => waiting (table w) v d
  | RAsleep => if decide (v = t) then d = chan_nread pa else waiting (table w) v d
  end.

(** Why a pass of [piperead] that delivered [i'] of [n] bytes ended. *)
Definition read_reason (st : rstatus U) (addr n i' : Z) p p' : Prop :=
  match st with
  | RDone u' r =>
    (r = i' ∧ (i' = n ∨ contents p' = [])) ∨
    (r = (if i' =? 0 then -1 else i') ∧ i' < n ∧
     ∃ ch, head (contents p') = Some ch ∧ copyout u' (u64 (addr + i')) ch = None)
  | RKilled | RAsleep => i' = 0 ∧ p' = p ∧ contents p = [] ∧ writeopen p = true
  end.

(** The memory after the bytes [bs] were copied to [addr + i] and on. *)
Definition delivered u u' (addr i : Z) (bs : list ascii) : Prop :=
  let i' := i + Z.of_nat (length bs) in
  user_bytes u' addr i i' = bs ∧
  ∀ a, (∀ k, i ≤ k < i' → a ≠ u64 (addr + k)) → copyin u' a = copyin u a.

Lemma delivered_nil u addr i : delivered u u addr i [].
Proof. split; [|done]. simpl. by rewrite Z.add_0_r, user_bytes_nil. Qed.

Lemma u64_addr_inj addr a b : 0 ≤ a < 2 ^ 64 → 0 ≤ b < 2 ^ 64 → u64 (addr + a) = u64 (addr + b) → a = b.
Proof.
  unfold u64. intros Ha Hb E. rewrite <-(Z.mod_small a (2 ^ 64)), <-(Z.mod_small b (2 ^ 64)) by lia.
  replace a with (addr + a - addr) by lia. replace b with (addr + b - addr) by lia.
  by rewrite Zminus_mod, E, <-Zminus_mod.
Qed.

Lemma delivered_cons u u1 u' addr i ch bs :
  0 ≤ i → i + 1 + Z.of_nat (length bs) < 2 ^ 64 →
  copyout u (u64 (addr + i)) ch = Some u1 → delivered u1 u' addr (i + 1) bs →
  delivered u u' addr i (ch :: bs).
Proof.
  intros Hi Hlt Hout [Hbs Hoth]. unfold delivered. simpl length.
  replace (i + Z.of_nat (Datatypes.S (length bs))) with (i + 1 + Z.of_nat (length bs)) by lia. split.
  - rewrite (user_bytes_cons _ _ _ _ ch); [by rewrite Hbs|lia|].
    rewrite Hoth; [by eapply copyout_copyin|]. intros k Hk E%u64_addr_inj; lia.
  - intros a Ha. rewrite Hoth by (intros k Hk; apply Ha; lia).
    eapply copyout_other; [exact Hout|]. apply Ha. lia.
Qed.

Lemma read_loop_spec u t pa addr n m i w p :
  chan_ok (table w) → pipes w !! pa = Some p → pipe_ok p →
  0 ≤ i ≤ n → n < 2 ^ 31 → m = Z.to_nat (n - i) →
  ∃ i' u' r w' p' bs, read_loop u pa addr m i w = Some ((i', RDone u' r), w') ∧
    after pa p' (read_waits (RDone u' r) t pa w) w w' ∧ pipe_ok p' ∧ same_ends p p' ∧
    i' = i + Z.of_nat (length bs) ∧ i' ≤ n ∧ contents p = bs ++ contents p' ∧ delivered u u' addr i bs ∧
    read_reason (RDone u' r) addr n i' p p'.
Proof.
  revert i u w p. induction m as [|m IH]; intros i u w p Hok Hp Hpok Hin Hn Hm; cbn [read_loop].
  { destruct (on_table_wakeup (chan_nwrite pa) w Hok) as (s' & E & Hok' & Hw).
    rewrite (bind_eq _ _ _ _ _ E). eexists i, u, i, _, p, [].
    split_and!; [done| |done|done|simpl; lia|lia|done|apply delivered_nil|left; split; [done|left; lia]].
    split; simpl; [by rewrite insert_id|done|done|done]. }
  rewrite (the_pipe_eq _ _ _ _ Hp), (contents_empty _ Hpok). case_bool_decide as He.
  { destruct (on_table_wakeup (chan_nwrite pa) w Hok) as (s' & E & Hok' & Hw).
    rewrite (bind_eq _ _ _ _ _ E). eexists i, u, i, _, p, [].
    split_and!; [done| |done|done|simpl; lia|lia|done|apply delivered_nil|left; by auto].
    split; simpl; [by rewrite insert_id|done|done|done]. }
  destruct (advance_ok p Hpok) as (ch & Hch & Hct & Hpok').
  { rewrite <-contents_length. by intros ?%nil_length_inv. }
  rewrite Hch. destruct (copyout u (u64 (addr + i)) ch) as [u1|] eqn:Ec.
  2:{ destruct (on_table_wakeup (chan_nwrite pa) w Hok) as (s' & E & Hok' & Hw).
    rewrite (bind_eq _ _ _ _ _ E). eexists i, u, _, _, p, [].
    split_and!; [done| |done|done|simpl; lia|lia|done|apply delivered_nil|].
    - split; simpl; [by rewrite insert_id|done|done|done].
    - right. split_and!; [done|lia|]. exists ch. by rewrite Hct. }
  set (w1 := mkPworld (table w) (kpages w) (<[pa := advance p]> (pipes w))).
  rewrite (bind_eq _ _ _ () w1) by done.
  destruct (IH (i + 1) u1 w1 (advance p))
    as (i' & u' & r & w' & p' & bs & E & [Af1 Af2 Af3 Af4] & Hok' & [Hs1 Hs2] & Hi' & Hle & Hc & Hdel & Hr);
    [done|by unfold w1; simpl; rewrite lookup_insert_eq|done|lia|lia|lia|].
  exists i', u', r, w', p', (ch :: bs).
  split_and!; [done| |done|done|simpl; lia|done|by rewrite Hct, Hc| |done].
  - split; [|done|done|done]. rewrite Af1. unfold w1. simpl. by rewrite insert_insert_eq.
  - eapply delivered_cons; [lia| |done|done]. lia.
Qed.

Lemma piperead_pass_spec u killed t pa addr n w p :
  chan_ok (table w) → chan_is_proc t → pipes w !! pa = Some p → pipe_ok p → 0 ≤ n < 2 ^ 31 →
  ∃ i st w' p' bs, piperead_pass u killed t pa addr n w = Some ((i, st), w') ∧
    after pa p' (read_waits st t pa w) w w' ∧ pipe_ok p' ∧ same_ends p p' ∧
    i = Z.of_nat (length bs) ∧ contents p = bs ++ contents p' ∧
    (∀ u' r, st = RDone u' r → delivered u u' addr 0 bs ∧ (contents p ≠ [] ∨ writeopen p = false)) ∧
    read_reason st addr n i p p'.
Proof.
  intros Hok Ht Hp Hpok Hn. unfold piperead_pass. rewrite (the_pipe_eq _ _ _ _ Hp), (contents_empty _ Hpok).
  destruct (bool_decide (contents p = []) && writeopen p) eqn:Ew.
  - apply andb_true_iff in Ew as [He%bool_decide_eq_true Hwo]. destruct killed.
    + exists 0, RKilled, w, p, []. split_and!; try done.
      split; simpl; [by rewrite insert_id|done|done|done].
    + destruct (on_table_prepare t (chan_nread pa) w Hok Ht) as (s' & E & Hok' & Hw).
      rewrite (bind_eq _ _ _ _ _ E). eexists 0, RAsleep, _, p, []. split_and!; try done.
      split; simpl; [by rewrite insert_id|done|done|done].
  - destruct (read_loop_spec u t pa addr n (Z.to_nat n) 0 w p)
      as (i & u' & r & w' & p' & bs & E & Haf & Hok' & Hse & Hi & Hle & Hc & Hdel & Hr); try done; try lia.
    exists i, (RDone u' r), w', p', bs. split_and!; try done.
    intros ? ? [= <- <-]. split; [done|].
    apply andb_false_iff in Ew as [He%bool_decide_eq_false|?]; auto.
Qed.

Lemma pipeclose_spec pa writable w p w' :
  chan_ok (table w) → pipes w !! pa = Some p → pipeclose kernel_end pa writable w = Some ((), w') →
  chan_ok (table w') ∧
  (∀ t d, waiting (table w') t d ↔
     waiting (table w) t d ∧ d ≠ (if writable then chan_nread pa else chan_nwrite pa)) ∧
  let p' := mkPipe (data p) (nread p) (nwrite p) (readopen p && writable) (writeopen p && negb writable) in
  pipes w' !! pa = if readopen p' || writeopen p' then Some p' else None.
Proof.
  intros Hok Hp. unfold pipeclose. rewrite (the_pipe_eq _ _ _ _ Hp).
  set (p' := mkPipe (data p) (nread p) (nwrite p) (readopen p && writable) (writeopen p && negb writable)).
  set (c := if writable then chan_nread pa else chan_nwrite pa).
  set (w1 := mkPworld (table w) (kpages w) (<[pa := p']> (pipes w))).
  destruct (on_table_wakeup c w1 Hok) as (s' & E & Hok' & Hw).
  set (w2 := mkPworld s' (kpages w) (<[pa := p']> (pipes w))).
  rewrite (bind_eq _ _ _ () w2); last first.
  { etransitivity; [|exact E]. unfold w1, p', c.
    destruct writable; simpl; rewrite andb_true_r, andb_false_r; reflexivity. }
  rewrite (the_pipe_eq _ p') by (simpl; by rewrite lookup_insert_eq).
  rewrite <-negb_orb. destruct (readopen p' || writeopen p') eqn:Eo; cbn [negb].
  - intros [= <-]. split_and!; [done|done|]. apply lookup_insert_eq.
  - intros ([] & w3 & E3 & E4)%bind_Some. unfold on_pages in E3.
    destruct (kfree kernel_end pa (kpages w2)) as [[[] k]|]; [|done].
    injection E3 as <-. injection E4 as <-.
    split_and!; [done|done|]. apply lookup_delete_eq.
Qed.

(** ** Every interleaving of the users of one pipe *)

Inductive label := LWrite (bs : list ascii) (st : wstatus) | LRead (bs : list ascii) | LClose | LOther.

(** A step on the pipe at [pa]: a pass of some process, a close, or anything
    in the rest of the kernel that leaves the pipe alone and makes no process
    wait for it. *)
Inductive pipe_step (pa : Z) : pworld S → label → pworld S → Prop :=
  | step_write u killed t addr n i i' st w w' :
      chan_is_proc t → i ≤ n →
      pipewrite_pass u killed t pa addr n i w = Some ((i', st), w') →
      pipe_step pa w (LWrite (user_bytes u addr i i') st) w'
  | step_read u killed t addr n i u' r w w' :
      chan_is_proc t → 0 ≤ n < 2 ^ 31 →
      piperead_pass u killed t pa addr n w = Some ((i, RDone u' r), w') →
      pipe_step pa w (LRead (user_bytes u' addr 0 i)) w'
  | step_read_none u killed t addr n i st w w' :
      chan_is_proc t → 0 ≤ n < 2 ^ 31 →
      piperead_pass u killed t pa addr n w = Some ((i, st), w') → (st = RKilled ∨ st = RAsleep) →
      pipe_step pa w (LRead []) w'
  | step_close writable w w' :
      pipeclose kernel_end pa writable w = Some ((), w') → pipe_step pa w LClose w'
  | step_other w w' :
      pipes w' !! pa = pipes w !! pa → chan_ok (table w') →
      (∀ t d, waiting (table w') t d → d = chan_nread pa ∨ d = chan_nwrite pa → waiting (table w) t d) →
      pipe_step pa w LOther w'.

Inductive pipe_run (pa : Z) : pworld S → list label → pworld S → Prop :=
  | run_nil w : pipe_run pa w [] w
  | run_snoc w ls w1 l w2 : pipe_run pa w ls w1 → pipe_step pa w1 l w2 → pipe_run pa w (ls ++ [l]) w2.

(** What the writers put in and what the readers got, in order. *)
Definition sent (ls : list label) : list ascii :=
  concat ((λ l, match l with LWrite bs _ => bs | _ => [] end) <$> ls).
Definition received (ls : list label) : list ascii :=
  concat ((λ l, match l with LRead bs => bs | _ => [] end) <$> ls).

Lemma sent_snoc ls l : sent (ls ++ [l]) = sent ls ++ match l with LWrite bs _ => bs | _ => [] end.
Proof. unfold sent. rewrite fmap_app, concat_app. simpl. by rewrite app_nil_r. Qed.
Lemma received_snoc ls l : received (ls ++ [l]) = received ls ++ match l with LRead bs => bs | _ => [] end.
Proof. unfold received. rewrite fmap_app, concat_app. simpl. by rewrite app_nil_r. Qed.

(** One step against the queue: bytes enter at the end and leave at the front. *)
Lemma pipe_step_queue pa w l w' p :
  chan_ok (table w) → pipes w !! pa = Some p → pipe_ok p → pipe_step pa w l w' →
  chan_ok (table w') ∧
  match pipes w' !! pa with
  | Some p' => pipe_ok p' ∧ contents p ++ sent [l] = received [l] ++ contents p'
  | None => sent [l] = [] ∧ received [l] = []
  end.
Proof.
  intros Hok Hp Hpok. unfold sent, received.
  destruct 1 as [u k t addr n i i' st w w' Ht Hin E|u k t addr n i u' r w w' Ht Hn E
    |u k t addr n i st w w' Ht Hn E Hst|b w w' E|w w' Hsame Hok' _]; simpl; rewrite ?app_nil_r.
  - destruct (write_loop_spec u k t pa addr n (Z.to_nat (n - i)) i w p)
      as (i2 & st2 & w2 & p' & E' & [Af1 _ Af3 _] & Hpok' & _ & _ & Hc & _); try done.
    unfold pipewrite_pass in E. rewrite (the_pipe_eq _ _ _ _ Hp), E' in E. injection E as -> -> ->.
    split; [done|]. rewrite Af1, lookup_insert_eq. by rewrite Hc.
  - destruct (piperead_pass_spec u k t pa addr n w p)
      as (i2 & st2 & w2 & p' & bs & E' & [Af1 _ Af3 _] & Hpok' & _ & Hi & Hc & Hd & _); try done.
    rewrite E' in E. injection E as -> -> ->. split; [done|]. rewrite Af1, lookup_insert_eq.
    destruct (Hd u' r eq_refl) as [[Hbs _] _]. split; [done|]. rewrite Hi, Z.add_0_l in *. by rewrite Hbs, Hc.
  - destruct (piperead_pass_spec u k t pa addr n w p)
      as (i2 & st2 & w2 & p' & bs & E' & [Af1 _ Af3 _] & Hpok' & _ & Hi & Hc & _ & Hr); try done.
    rewrite E' in E. injection E as -> -> ->. split; [done|]. rewrite Af1, lookup_insert_eq.
    split; [done|]. by destruct Hst as [-> | ->]; destruct Hr as (? & -> & ?).
  - destruct (pipeclose_spec pa b w p w') as (Hok' & _ & Hp'); try done. split; [done|].
    rewrite Hp'. destruct (_ || _); [|done]. split; [|done]. by destruct Hpok; split.
  - split; [done|]. by rewrite Hsame, Hp.
Qed.
End spec.

Section runs.
Context {S : Type} `{SleepChan S} {U : Type} `{UserMem U} (kernel_end : Z).
Implicit Types (w : pworld S) (p : pipe).

(** A pipe that was freed is not used any more. *)
Lemma pipe_step_freed pa w l w' :
  pipes w !! pa = None → pipe_step (U := U) kernel_end pa w l w' →
  l = LOther ∧ pipes w' !! pa = None ∧
  ∀ t d, waiting (table w') t d → d = chan_nread pa ∨ d = chan_nwrite pa → waiting (table w) t d.
Proof.
  intros Hp Hs.
  assert (∀ A (k : pipe → M (pworld S) A), (the_pipe pa ≫= k) w = None) as Hstuck.
  { intros A k. msimpl. unfold the_pipe. by rewrite Hp. }
  destruct Hs as [u k t addr n i i' st w w' Ht Hin E|u k t addr n i u' r w w' Ht Hn E
    |u k t addr n i st w w' Ht Hn E Hst|b w w' E|w w' Hsame Hok' Hw].
  - unfold pipewrite_pass in E. by rewrite Hstuck in E.
  - unfold piperead_pass in E. by rewrite Hstuck in E.
  - unfold piperead_pass in E. by rewrite Hstuck in E.
  - unfold pipeclose in E. by rewrite Hstuck in E.
  - by rewrite Hsame.
Qed.

(** C9: A pipe is a FIFO queue. Take any interleaving of passes of
    [pipewrite] and [piperead] by any processes, closes of its ends, and other
    activity of the kernel. The bytes the readers find in their buffers,
    followed by at most 512 bytes still in the ring, are the bytes that were
    in the pipe and those the writers had in theirs, in the same order,
    however often the 32-bit counters wrap around. *)
Theorem pipe_is_fifo pa w p ls w' :
  chan_ok (table w) → pipes w !! pa = Some p → pipe_ok p →
  pipe_run (U := U) kernel_end pa w ls w' →
  ∃ q, contents p ++ sent ls = received ls ++ q ∧ (length q ≤ Z.to_nat PIPESIZE)%nat ∧
    ∀ p', pipes w' !! pa = Some p' → pipe_ok p' ∧ contents p' = q.
Proof.
  intros Hok Hp Hpok Hrun.
  enough (chan_ok (table w') ∧ ∃ q, contents p ++ sent ls = received ls ++ q ∧ (length q ≤ Z.to_nat PIPESIZE)%nat ∧
    ∀ p', pipes w' !! pa = Some p' → pipe_ok p' ∧ contents p' = q) by naive_solver.
  assert (∀ p', pipe_ok p' → (length (contents p') ≤ Z.to_nat PIPESIZE)%nat) as Hlen.
  { intros p' [_ _ _ Hu]. rewrite contents_length. lia. }
  induction Hrun as [w|w ls w1 l w2 Hrun IH Hstep].
  { split; [done|]. exists (contents p). unfold sent, received. simpl. rewrite app_nil_r.
    split_and!; [done|by apply Hlen|]. intros p' Hp'. by simplify_eq. }
  destruct (IH Hok Hp) as (Hok1 & q & Hq & Hle & Hcur).
  rewrite sent_snoc, received_snoc. destruct (pipes w1 !! pa) as [p1|] eqn:Hp1.
  - destruct (Hcur p1 eq_refl) as [Hpok1 <-].
    destruct (pipe_step_queue kernel_end pa w1 l w2 p1 Hok1 Hp1 Hpok1 Hstep) as [Hok2 Hst].
    split; [done|]. unfold sent, received in Hst. simpl in Hst. rewrite !app_nil_r in Hst.
    destruct (pipes w2 !! pa) as [p2|].
    + destruct Hst as [Hpok2 Hst]. exists (contents p2).
      split_and!; [by rewrite app_assoc, Hq, <-!app_assoc, Hst|by apply Hlen|].
      intros p' [= <-]. done.
    + destruct Hst as [-> ->]. exists (contents p1). rewrite !app_nil_r. by split_and!.
  - destruct (pipe_step_freed pa w1 l w2 Hp1 Hstep) as (-> & Hp2 & _).
    split; [by inversion Hstep|]. exists q. rewrite !app_nil_r, Hp2. by split_and!.
Qed.

(** The processes that wait for the pipe have a reason to. *)
Definition wait_ok (pa : Z) w : Prop :=
  ∀ t, (waiting (table w) t (chan_nread pa) →
          ∃ p, pipes w !! pa = Some p ∧ contents p = [] ∧ writeopen p = true) ∧
       (waiting (table w) t (chan_nwrite pa) →
          ∃ p, pipes w !! pa = Some p ∧ length (contents p) = Z.to_nat PIPESIZE ∧ readopen p = true).

(** Not a [pipewrite] that stored some bytes and then found itself killed. *)
Definition not_cut_short (l : label) : Prop :=
  match l with LWrite bs WAborted => bs = [] | _ => True end.

Lemma chan_nread_nwrite pa : chan_nread pa ≠ chan_nwrite pa.
Proof. intros [= ?]. lia. Qed.

Lemma write_wait_ok u k t pa addr n i i' st w w' p :
  chan_ok (table w) → chan_is_proc t → pipes w !! pa = Some p → pipe_ok p → i ≤ n →
  pipewrite_pass (U := U) u k t pa addr n i w = Some ((i', st), w') →
  not_cut_short (LWrite (user_bytes u addr i i') st) → wait_ok pa w → wait_ok pa w'.
Proof.
  intros Hok Ht Hp Hpok Hin E Hcut Hw v. destruct (Hw v) as [Hwr Hww].
  destruct (write_loop_spec u k t pa addr n (Z.to_nat (n - i)) i w p)
    as (i2 & st2 & w2 & p' & E' & [Af1 _ Af3 Af4] & Hpok' & [Hse Hse2] & Hle & Hc & Hl & Hr); try done.
  unfold pipewrite_pass in E. rewrite (the_pipe_eq _ _ _ _ Hp), E' in E. injection E as -> -> ->.
  rewrite !Af4, Af1, lookup_insert_eq. pose proof (chan_nread_nwrite pa) as Hne.
  assert (length (contents p) = Z.to_nat PIPESIZE → contents p' = contents p) as Hfull.
  { intros Hfull. destruct Hpok' as [_ _ _ Hu]. rewrite <-contents_length, Hc, length_app in Hu.
    rewrite Hc. rewrite (nil_length_inv (user_bytes u addr i i')) by lia. apply app_nil_r. }
  destruct st as [r| |]; simpl in *.
  - split; [naive_solver|]. intros [(q & Hq & Hqf & Hqr)%Hww _]. simplify_eq. exists p'.
    split_and!; [done|by rewrite Hfull|congruence].
  - rewrite Hcut, app_nil_r in Hc. split.
    + intros (q & Hq & Hqe & Hqw)%Hwr. simplify_eq. exists p'. split_and!; [done|congruence|congruence].
    + intros (q & Hq & Hqe & Hqw)%Hww. simplify_eq. exists p'. split_and!; [done|congruence|congruence].
  - destruct Hr as (_ & Hfl & Hro & _). case_decide; subst.
    + split; [naive_solver|]. intros _. by exists p'.
    + split; [naive_solver|]. intros _. by exists p'.
Qed.

Lemma read_wait_ok u k t pa addr n i st w w' p :
  chan_ok (table w) → chan_is_proc t → pipes w !! pa = Some p → pipe_ok p → 0 ≤ n < 2 ^ 31 →
  piperead_pass (U := U) u k t pa addr n w = Some ((i, st), w') → wait_ok pa w → wait_ok pa w'.
Proof.
  intros Hok Ht Hp Hpok Hn E Hw v. destruct (Hw v) as [Hwr Hww].
  destruct (piperead_pass_spec u k t pa addr n w p)
    as (i2 & st2 & w2 & p' & bs & E' & [Af1 _ Af3 Af4] & Hpok' & [Hse Hse2] & Hi & Hc & Hd & Hr); try done.
  rewrite E' in E. injection E as -> -> ->.
  rewrite !Af4, Af1, lookup_insert_eq. pose proof (chan_nread_nwrite pa) as Hne.
  destruct st as [u' r| |]; simpl in *.
  - split; [|naive_solver]. intros [(q & Hq & Hqe & Hqw)%Hwr _]. simplify_eq.
    destruct (Hd u' r eq_refl) as [_ [?|?]]; congruence.
  - destruct Hr as (_ & -> & _ & _). rewrite Hp in *. done.
  - destruct Hr as (_ & -> & He & Hwo). case_decide; subst; [|by rewrite Hp in *].
    split; [intros _; by exists p|]. intros Hx. by destruct Hne.
Qed.

Lemma close_wait_ok pa b w w' p :
  chan_ok (table w) → pipes w !! pa = Some p →
  pipeclose kernel_end pa b w = Some ((), w') → wait_ok pa w → wait_ok pa w'.
Proof.
  intros Hok Hp E Hw v. destruct (Hw v) as [Hwr Hww].
  destruct (pipeclose_spec kernel_end pa b w p w' Hok Hp E) as (Hok' & Hwait & Hp').
  rewrite !Hwait, Hp'. destruct b; simpl; rewrite ?andb_true_r, ?andb_false_r, ?orb_false_r.
  - split; [naive_solver|]. intros [(q & Hq & Hqf & Hqr)%Hww _]. simplify_eq. rewrite Hqr. by eauto.
  - split; [|naive_solver]. intros [(q & Hq & Hqf & Hqr)%Hwr _]. simplify_eq. rewrite Hqr. by eauto.
Qed.

(** No process is left asleep on a pipe without a reason. In any
    interleaving in which no writer is killed between storing its first byte
    and the end of its pass, a process waits for data only while the pipe is
    empty and has a writer, and waits for room only while the pipe is full
    and has a reader. *)
Theorem pipe_waits_justified pa w p ls w' :
  chan_ok (table w) → pipes w !! pa = Some p → pipe_ok p → wait_ok pa w →
  pipe_run (U := U) kernel_end pa w ls w' → Forall not_cut_short ls → wait_ok pa w'.
Proof.
  intros Hok Hp Hpok Hw Hrun.
  enough (Forall not_cut_short ls → wait_ok pa w' ∧ chan_ok (table w') ∧
    ∀ p', pipes w' !! pa = Some p' → pipe_ok p') as Hgoal by (intros Hls; apply Hgoal, Hls).
  induction Hrun as [w|w ls w1 l w2 Hrun IH Hstep].
  { intros _. split_and!; [done|done|]. intros p' Hp'. by simplify_eq. }
  intros [Hls [Hl _]%Forall_cons]%Forall_app.
  destruct (IH Hok Hp Hw Hls) as (Hw1 & Hok1 & Hpok1). destruct (pipes w1 !! pa) as [p1|] eqn:Hp1.
  - specialize (Hpok1 p1 eq_refl).
    destruct (pipe_step_queue kernel_end pa w1 l w2 p1 Hok1 Hp1 Hpok1 Hstep) as [Hok2 Hq].
    split_and!; [|done|]; last first.
    { intros p' Hp'. rewrite Hp' in Hq. by destruct Hq. }
    destruct Hstep as [u k t addr n i i' st w1 w2 Ht Hin E|u k t addr n i u' r w1 w2 Ht Hn E
      |u k t addr n i st w1 w2 Ht Hn E Hst|b w1 w2 E|w1 w2 Hsame Hok' Hle].
    + exact (write_wait_ok _ _ _ _ _ _ _ _ _ _ _ _ Hok1 Ht Hp1 Hpok1 Hin E Hl Hw1).
    + exact (read_wait_ok _ _ _ _ _ _ _ _ _ _ _ Hok1 Ht Hp1 Hpok1 Hn E Hw1).
    + exact (read_wait_ok _ _ _ _ _ _ _ _ _ _ _ Hok1 Ht Hp1 Hpok1 Hn E Hw1).
    + exact (close_wait_ok _ _ _ _ _ Hok1 Hp1 E Hw1).
    + intros v. rewrite Hsame. destruct (Hw1 v) as [? ?]. split; intros ?; eauto.
  - destruct (pipe_step_freed pa w1 l w2 Hp1 Hstep) as (-> & Hp2 & Hle).
    split_and!; [|by inversion Hstep|by rewrite Hp2]. intros v. destruct (Hw1 v) as [Hr2 Hw2].
    rewrite Hp1 in Hr2, Hw2. split.
    + intros Hv. destruct Hr2 as (? & ? & _); [apply Hle; auto|done].
    + intros Hv. destruct Hw2 as (? & ? & _); [apply Hle; auto|done].
Qed.

(** A writer that is killed in the middle of a [pipewrite] can leave a
    reader asleep although the pipe has data: the early return of [pipewrite]
    does not wake the readers for the bytes already stored. Here a reader
    waits on an empty pipe with a writer; the writer stores its first byte
    and is then found killed: the reader still waits, and the byte is there. *)
Theorem killed_writer_strands_reader u killed t r pa addr n w p c :
  chan_ok (table w) → chan_is_proc t → pipes w !! pa = Some p → pipe_ok p →
  contents p = [] → readopen p = true → waiting (table w) r (chan_nread pa) →
  2 ≤ n → copyin u (u64 addr) = Some c → killed 0 = false → killed 1 = true →
  ∃ w' p', pipewrite_pass (U := U) u killed t pa addr n 0 w = Some ((1, WAborted), w') ∧
    pipes w' !! pa = Some p' ∧ contents p' = [c] ∧ waiting (table w') r (chan_nread pa).
Proof.
  intros Hok Ht Hp Hpok He Hro Hwait Hn Hc Hk0 Hk1.
  destruct (put_ok c p Hpok) as [Hpok' Hcont]; [rewrite <-contents_length, He; simpl; unfold PIPESIZE; lia|].
  exists (mkPworld (table w) (kpages w) (<[pa := put c p]> (pipes w))), (put c p).
  split; [|split_and!; [apply lookup_insert_eq|by rewrite Hcont, He|exact Hwait]].
  unfold pipewrite_pass. rewrite (the_pipe_eq _ _ _ _ Hp).
  replace (Z.to_nat (n - 0)) with (Datatypes.S (Datatypes.S (Z.to_nat (n - 2)))) by lia.
  cbn [write_loop]. rewrite (the_pipe_eq _ _ _ _ Hp), Hro, Hk0, (contents_full _ Hpok), He.
  rewrite bool_decide_false by done. cbn [negb orb]. rewrite Z.add_0_r, Hc.
  erewrite (bind_eq (set_pipe _ _)) by reflexivity.
  rewrite (the_pipe_eq _ (put c p)) by apply lookup_insert_eq. change (0 + 1) with 1. rewrite Hk1, orb_true_r. done.
Qed.
End runs.

(** ** A pipe at work *)

#[export] Instance gmap_UserMem : UserMem (gmap Z ascii).
Proof.
  refine {| copyin u a := u !! a;
            copyout u a c := match u !! a with Some _ => Some (<[a := c]> u) | None => None end |}.
  - intros u a c u' E. destruct (u !! a); [|done]. injection E as <-. apply lookup_insert_eq.
  - intros u a c u' b E Hb. destruct (u !! a); [|done]. injection E as <-. by apply lookup_insert_ne.
Defined.

Definition idle_proc : proc :=
  mkproc RUNNING None false 0 1 None 0 0 0 0 [] (0, 0) [] 0 [] 0 0 0.
(** Two counters about to wrap around, and an empty ring. *)
Definition demo_pipe : pipe :=
  mkPipe (replicate (Z.to_nat PIPESIZE) "x"%char) (2 ^ 32 - 1) (2 ^ 32 - 1) true true.
Definition demo_world : pworld (kstate unit) :=
  mkPworld (mkKstate (replicate NPROC idle_proc) [] None 2 1 0 0 ()) (mkKmem 0 ∅) {[ 0x87000000 := demo_pipe ]}.
Definition demo_user : gmap Z ascii := list_to_map (zip [0; 1; 2] (lit "hi!")).

Lemma demo_pipe_ok : pipe_ok demo_pipe ∧ contents demo_pipe = [].
Proof. split; [split; vm_compute; intuition congruence|reflexivity]. Qed.

Lemma demo_waits t c : ¬ waiting (table demo_world) t c.
Proof.
  intros (p & Hp & Hc). apply lookup_replicate in Hp as [-> _]. done.
Qed.

(** Process 1 writes "hi!" and process 2 reads. *)
Lemma demo_run :
  ∃ w', pipe_run (U := gmap Z ascii) 0x80000000 0x87000000 demo_world
    [LWrite (lit "hi!") (WDone 3); LRead (lit "hi!")] w'.
Proof.
  set (k := λ _ : Z, false).
  destruct (pipewrite_pass demo_user k 1 0x87000000 0 3 0 demo_world) as [[[i st] w1]|] eqn:E1;
    [|by vm_compute in E1].
  assert ((i, st) = (3, WDone 3)) as [= -> ->] by (vm_compute in E1; congruence).
  destruct (piperead_pass demo_user false 2 0x87000000 0 3 w1) as [[[j rt] w2]|] eqn:E2; last first.
  { exfalso. assert (w1 = default demo_world (snd <$> pipewrite_pass demo_user k 1 0x87000000 0 3 0 demo_world)) as ->
      by by rewrite E1. vm_compute in E2. done. }
  assert (j = 3 ∧ ∃ u' r, rt = RDone u' r ∧ user_bytes u' 0 0 3 = lit "hi!") as (-> & u' & r & -> & Hu).
  { assert (w1 = default demo_world (snd <$> pipewrite_pass demo_user k 1 0x87000000 0 3 0 demo_world)) as ->
      by by rewrite E1.
    vm_compute in E2. injection E2 as <- <- _. split; [done|]. eexists _, _. split; [done|]. reflexivity. }
  exists w2. apply (run_snoc _ _ _ [LWrite (lit "hi!") (WDone 3)] w1).
  - apply (run_snoc _ _ _ [] demo_world); [constructor|].
    refine (step_write _ _ demo_user k 1 0 3 0 3 (WDone 3) _ _ _ _ E1); [change (1 < 64)%nat|]; lia.
  - rewrite <-Hu. eapply step_read; [|..|exact E2]; [change (2 < 64)%nat|]; lia.
Qed.

Lemma pipe_is_fifo_witness :
  ∃ (w' : pworld (kstate unit)) q, contents demo_pipe ++ lit "hi!" = lit "hi!" ++ q ∧
    ∀ p', pipes w' !! 0x87000000 = Some p' → pipe_ok p' ∧ contents p' = q.
Proof.
  destruct demo_run as [w' Hrun]. exists w'.
  destruct (pipe_is_fifo 0x80000000 0x87000000 demo_world demo_pipe
    [LWrite (lit "hi!") (WDone 3); LRead (lit "hi!")] w') as (q & Hq & _ & Hp);
    [reflexivity|reflexivity|apply demo_pipe_ok|exact Hrun|].
  exists q. split; [exact Hq|exact Hp].
Defined.

Lemma pipe_waits_justified_witness :
  ∃ w' : pworld (kstate unit), wait_ok 0x87000000 w'.
Proof.
  destruct demo_run as [w' Hrun]. exists w'.
  apply (pipe_waits_justified 0x80000000 0x87000000 demo_world demo_pipe
    [LWrite (lit "hi!") (WDone 3); LRead (lit "hi!")] w');
    [reflexivity|reflexivity|apply demo_pipe_ok| |exact Hrun|by repeat constructor].
  intros t. split; intros []%demo_waits.
Defined.

(** Process 2 waits for data. *)
Definition waiting_world : pworld (kstate unit) :=
  mkPworld (mkKstate (<[2%nat := set_chan (Some (chan_nread 0x87000000)) idle_proc]> (replicate NPROC idle_proc))
    [] None 2 1 0 0 ()) (mkKmem 0 ∅) {[ 0x87000000 := demo_pipe ]}.

Lemma killed_writer_strands_reader_witness :
  ∃ w' p', pipewrite_pass demo_user (λ i, 1 <=? i) 1 0x87000000 0 3 0 waiting_world = Some ((1, WAborted), w') ∧
    pipes w' !! 0x87000000 = Some p' ∧ contents p' = lit "h" ∧
    waiting (table w') 2 (chan_nread 0x87000000).
Proof.
  apply (killed_writer_strands_reader demo_user (λ i, 1 <=? i) 1 2 0x87000000 0 3 waiting_world demo_pipe "h"%char);
    try reflexivity; try (apply demo_pipe_ok); try lia.
  - change (1 < 64)%nat. lia.
  - eexists. split; reflexivity.
Defined.
