(* ===== verification/Bio.v ===== *)
(** The buffer cache of the kernel: [xv6/kernel/bio.c].

    The cache has [NBUF] buffers and a list of them from the most to the least
    recently used; the list is the sequence of their indices, which is what
    the [prev] and [next] pointers thread together. The sleep lock of a buffer
    is a flag. The disk is a map from block numbers to blocks; every write to
    it is also recorded in order, so that a crash in the middle of an
    operation can be described. The operations run under [bcache.lock].

    [None] is a panic, or waiting for the lock of a buffer that is held. *)
From S2P Require Import Prelude.

Definition BSIZE : nat := 1024.
Definition NBUF : nat := 30.
Definition ROOTDEV : Z := 1.

(** The bytes of a block. *)
Abbreviation block := (list Z).
Definition zero_block : block := replicate BSIZE 0.

(** A buffer. *)
Record buf := mkBuf {
  valid : bool;
  dev : Z;
  blockno : Z;
  locked : bool;
  refcnt : Z;
  data : block;
}.

Record bworld := mkBworld {
  bufs : list buf;
  lru : list nat;
  disk : gmap Z block;
  writes : list (Z * block);
}.

Definition on_disk (d : gmap Z block) (n : Z) : block := default zero_block (d !! n).

Definition set_refcnt v b := mkBuf (valid b) (dev b) (blockno b) (locked b) v (data b).
Definition set_locked v b := mkBuf (valid b) (dev b) (blockno b) v (refcnt b) (data b).
Definition set_buf_data v b := mkBuf (valid b) (dev b) (blockno b) (locked b) (refcnt b) v.
Definition set_valid v b := mkBuf v (dev b) (blockno b) (locked b) (refcnt b) (data b).

Abbreviation bm := (M bworld).

Definition the_buf (i : nat) : bm buf := λ s,
  match bufs s !! i with Some b => Some (b, s) | None => None end.
Definition set_buf (i : nat) (b : buf) : bm unit :=
  modify (λ s, mkBworld (<[i := b]> (bufs s)) (lru s) (disk s) (writes s)).
Definition set_lru (l : list nat) : bm unit :=
  modify (λ s, mkBworld (bufs s) l (disk s) (writes s)).

(** [binit] links the buffers so that the last one is in front. *)
Definition empty_buf : buf := mkBuf false 0 0 false 0 zero_block.
Definition binit : bm unit :=
  modify (λ s, mkBworld (replicate NBUF empty_buf) (reverse (seq 0 NBUF)) (disk s) (writes s)).

(** The first buffer along a list of indices that satisfies [p]. *)
Fixpoint find_buf (p : buf → bool) (bs : list buf) (l : list nat) : option nat :=
  match l with
  | [] => None
  | i :: l' =>
    match bs !! i with
    | Some b => if p b then Some i else find_buf p bs l'
    | None => find_buf p bs l'
    end
  end.

(** [acquiresleep(&b->lock)] *)
Definition acquire_buf (i : nat) : bm unit :=
  b ← the_buf i;
  if locked b then stuck else set_buf i (set_locked true b).

Definition bget (d n : Z) : bm nat :=
  s ← gets id;
  match find_buf (λ b, (dev b =? d) && (blockno b =? n)) (bufs s) (lru s) with
  | Some i =>
    b ← the_buf i;
    set_buf i (set_refcnt (u32 (refcnt b + 1)) b);;
    acquire_buf i;;
    mret i
  | None =>
    match find_buf (λ b, refcnt b =? 0) (bufs s) (reverse (lru s)) with
    | Some i =>
      b ← the_buf i;
      set_buf i (mkBuf false d n (locked b) 1 (data b));;
      acquire_buf i;;
      mret i
    | None => stuck
    end
  end.

Definition bread (d n : Z) : bm nat :=
  i ← bget d n;
  b ← the_buf i;
  (if valid b then mret ()
   else
     dd ← gets disk;
     set_buf i (set_valid true (set_buf_data (on_disk dd (blockno b)) b)));;
  mret i.

Definition bwrite (i : nat) : bm unit :=
  b ← the_buf i;
  if locked b then
    modify (λ s, mkBworld (bufs s) (lru s) (<[blockno b := data b]> (disk s)) (writes s ++ [(blockno b, data b)]))
  else stuck.

Definition brelse (i : nat) : bm unit :=
  b ← the_buf i;
  if locked b then
    let c := u32 (refcnt b - 1) in
    set_buf i (set_refcnt c (set_locked false b));;
    if c =? 0 then
      l ← gets lru;
      set_lru (i :: filter (λ j, j ≠ i) l)
    else mret ()
  else stuck.

Definition bpin (i : nat) : bm unit :=
  b ← the_buf i; set_buf i (set_refcnt (u32 (refcnt b + 1)) b).
Definition bunpin (i : nat) : bm unit :=
  b ← the_buf i; set_buf i (set_refcnt (u32 (refcnt b - 1)) b).

(** The holder of a buffer changes its contents. *)
Definition set_data (i : nat) (d : block) : bm unit :=
  b ← the_buf i; set_buf i (set_buf_data d b).
Definition get_data (i : nat) : bm block := b ← the_buf i; mret (data b).

(** ** What the cache promises *)

(** [R] has the reference count and the lock of every block in use; [v] is the
    contents of the blocks as the kernel sees them. *)
Abbreviation refs := (gmap Z (Z * bool)).

(** Buffer [b] is for block [n]. *)
Definition caches (b : buf) (n : Z) : Prop := dev b = ROOTDEV ∧ blockno b = n.

Record cache_inv (s : bworld) (R : refs) (v : Z → block) : Prop := {
  ci_len : length (bufs s) = NBUF;
  ci_lru : lru s ≡ₚ seq 0 NBUF;
  ci_nonneg : ∀ i b, bufs s !! i = Some b → 0 ≤ refcnt b;
  ci_used : ∀ i b, bufs s !! i = Some b → 0 < refcnt b →
    dev b = ROOTDEV ∧ R !! blockno b = Some (refcnt b, locked b);
  ci_refs : ∀ n c l, R !! n = Some (c, l) → 0 < c < 2 ^ 31 ∧
    ∃ i b, bufs s !! i = Some b ∧ caches b n ∧ refcnt b = c ∧ locked b = l ∧ valid b = true;
  ci_free : ∀ i b, bufs s !! i = Some b → refcnt b = 0 → locked b = false;
  ci_uniq : ∀ i j b b' n, bufs s !! i = Some b → bufs s !! j = Some b' → caches b n → caches b' n → i = j;
  ci_cached : ∀ i b n, bufs s !! i = Some b → caches b n → valid b = true → v n = data b;
  ci_uncached : ∀ n, (∀ i b, bufs s !! i = Some b → caches b n → valid b = false) → v n = on_disk (disk s) n;
  ci_clean : ∀ n, R !! n = None → v n = on_disk (disk s) n;
}.

(** The caller holds block [n] in buffer [i]. *)
Definition holds (s : bworld) (i : nat) (n : Z) : Prop :=
  ∃ b, bufs s !! i = Some b ∧ caches b n ∧ 0 < refcnt b ∧ valid b = true.

Lemma find_buf_Some p bs l i : find_buf p bs l = Some i → i ∈ l ∧ ∃ b, bs !! i = Some b ∧ p b = true.
Proof.
  induction l as [|j l IH]; simpl; [done|]. rewrite elem_of_cons.
  destruct (bs !! j) as [b|] eqn:Hj; [|naive_solver]. destruct (p b) eqn:E; [|naive_solver].
  intros [= <-]. eauto.
Qed.
Lemma find_buf_None p bs l i b : find_buf p bs l = None → i ∈ l → bs !! i = Some b → p b = false.
Proof.
  induction l as [|j l IH]; simpl; [intros _ []%not_elem_of_nil|]. intros Hf Hi Hb.
  apply elem_of_cons in Hi as [->|Hi].
  - rewrite Hb in Hf. by destruct (p b).
  - destruct (bs !! j) as [b1|]; [destruct (p b1); [done|]|]; by apply IH.
Qed.

Section inv.
Context (s : bworld) (R : refs) (v : Z → block) (Hinv : cache_inv s R v).

Lemma in_lru i b : bufs s !! i = Some b → i ∈ lru s.
Proof.
  intros Hi%lookup_lt_Some. rewrite (ci_len _ _ _ Hinv) in Hi.
  rewrite (ci_lru _ _ _ Hinv). apply elem_of_seq. lia.
Qed.

Lemma unreferenced i b n : bufs s !! i = Some b → caches b n → refcnt b = 0 → R !! n = None.
Proof.
  intros Hi Hc H0. destruct (R !! n) as [[c l]|] eqn:E; [|done]. exfalso.
  destruct (ci_refs _ _ _ Hinv n c l E) as (? & j & b' & Hj & Hc' & ? & _).
  pose proof (ci_uniq _ _ _ Hinv _ _ _ _ _ Hi Hj Hc Hc'). simplify_eq. lia.
Qed.

(** Every operation replaces one buffer, and with it what is known of one
    block. *)
Lemma update_inv i b n b' l' d' w' R' v' :
  bufs s !! i = Some b → (∀ j b2, bufs s !! j = Some b2 → caches b2 n → j = i) →
  caches b n ∨ refcnt b = 0 → l' ≡ₚ seq 0 NBUF →
  caches b' n → valid b' = true → data b' = v' n → 0 ≤ refcnt b' < 2 ^ 31 →
  (refcnt b' = 0 → locked b' = false) →
  R' !! n = (if refcnt b' =? 0 then None else Some (refcnt b', locked b')) →
  (R' !! n = None → v' n = on_disk d' n) →
  (∀ m, m ≠ n → R' !! m = R !! m ∧ v' m = v m ∧ on_disk d' m = on_disk (disk s) m) →
  cache_inv (mkBworld (<[i := b']> (bufs s)) l' d' w') R' v'.
Proof.
  intros Hi Honly Hb Hl Hc' Hval Hdat Hcnt Hfree HR Hclean Hoth.
  assert (∀ j b2, <[i := b']> (bufs s) !! j = Some b2 →
    (j = i ∧ b2 = b') ∨ (j ≠ i ∧ bufs s !! j = Some b2)) as Hlook.
  { intros j b2 Hj. destruct (decide (j = i)) as [->|Hne].
    - rewrite list_lookup_insert_eq in Hj by (by eapply lookup_lt_Some). left. by simplify_eq.
    - rewrite list_lookup_insert_ne in Hj by done. by right. }
  assert (<[i := b']> (bufs s) !! i = Some b') as Hnew
    by (apply list_lookup_insert_eq; by eapply lookup_lt_Some).
  assert (∀ j b2, j ≠ i → bufs s !! j = Some b2 → <[i := b']> (bufs s) !! j = Some b2) as Hold
    by (intros; by rewrite list_lookup_insert_ne).
  assert (∀ j b2, j ≠ i → bufs s !! j = Some b2 → 0 < refcnt b2 → blockno b2 ≠ n) as Hne.
  { intros j b2 Hj Hb2 Hpos E. destruct (ci_used _ _ _ Hinv j b2 Hb2 Hpos) as [? _].
    apply Hj. by eapply Honly. }
  assert (R !! n = None ∨ caches b n) as HRn.
  { destruct (R !! n) as [[c l]|] eqn:E; [|by left]. right.
    destruct (ci_refs _ _ _ Hinv n c l E) as (_ & j & b2 & Hj & Hcj & _).
    rewrite <-(Honly _ _ Hj Hcj) in Hi. by simplify_eq. }
  split; simpl.
  - by rewrite length_insert, (ci_len _ _ _ Hinv).
  - done.
  - intros j b2 [[-> ->]|[? ?]]%Hlook; [lia|by eapply (ci_nonneg _ _ _ Hinv)].
  - intros j b2 [[-> ->]|[Hj Hb2]]%Hlook Hpos.
    + destruct Hc' as [? <-]. split; [done|]. rewrite HR. by rewrite (proj2 (Z.eqb_neq _ _)) by lia.
    + destruct (ci_used _ _ _ Hinv j b2 Hb2 Hpos) as [? HRb]. split; [done|].
      rewrite (proj1 (Hoth _ (Hne j b2 Hj Hb2 Hpos))). done.
  - intros m c l HRm. destruct (decide (m = n)) as [->|Hmn].
    + rewrite HR in HRm. destruct (Z.eqb_spec (refcnt b') 0); [done|]. injection HRm as <- <-.
      split; [lia|]. exists i, b'. by split_and!.
    + rewrite (proj1 (Hoth m Hmn)) in HRm. destruct (ci_refs _ _ _ Hinv m c l HRm) as (Hc & j & b2 & Hj & Hcj & Hrest).
      split; [done|]. exists j, b2. split; [|done]. apply Hold; [|done].
      intros ->. simplify_eq. destruct Hb as [[_ <-]|?], Hcj as [_ <-]; [done|lia].
  - intros j b2 [[-> ->]|[? ?]]%Hlook; [done|by eapply (ci_free _ _ _ Hinv)].
  - intros j k b2 b3 m [[-> ->]|[? ?]]%Hlook [[-> ->]|[? ?]]%Hlook Hc2 Hc3; [done| | |by eapply (ci_uniq _ _ _ Hinv)].
    + destruct Hc' as [_ <-], Hc2 as [? <-]. symmetry. by eapply Honly.
    + destruct Hc' as [_ <-], Hc3 as [? <-]. by eapply Honly.
  - intros j b2 m [[-> ->]|[Hj Hb2]]%Hlook Hcm Hvm.
    + destruct Hc' as [_ <-], Hcm as [_ <-]. done.
    + destruct (decide (m = n)) as [->|Hmn]; [by destruct Hj; eapply Honly|].
      rewrite (proj1 (proj2 (Hoth m Hmn))). by eapply (ci_cached _ _ _ Hinv).
  - intros m Hm. destruct (decide (m = n)) as [->|Hmn]; [specialize (Hm i b' Hnew Hc'); congruence|].
    destruct (Hoth m Hmn) as (_ & -> & ->). destruct (decide (caches b m)) as [Hbm|Hbm].
    + apply (ci_clean _ _ _ Hinv). eapply unreferenced; [exact Hi|exact Hbm|].
      destruct Hb as [[_ E]|?]; [|done]. destruct Hbm as [_ E']. congruence.
    + apply (ci_uncached _ _ _ Hinv). intros j b2 Hj Hcj. apply (Hm j); [|done].
      apply Hold; [|done]. intros ->. simplify_eq.
  - intros m Hm. destruct (decide (m = n)) as [->|Hmn]; [by apply Hclean|].
    destruct (Hoth m Hmn) as (E & -> & ->). apply (ci_clean _ _ _ Hinv). by rewrite <-E.
Qed.
End inv.

(** Buffers in use are not recycled. *)
Definition keeps_held (s s' : bworld) : Prop := ∀ j m, holds s j m → holds s' j m.

Lemma the_buf_eq {A} i b s (k : buf → bm A) : bufs s !! i = Some b → (the_buf i ≫= k) s = k b s.
Proof. intros Hi. apply bind_eq. unfold the_buf. by rewrite Hi. Qed.

Lemma keeps_held_insert s i b b' n l d w :
  bufs s !! i = Some b → caches b n ∨ refcnt b = 0 → caches b' n → valid b' = true →
  (0 < refcnt b → 0 < refcnt b') →
  keeps_held s (mkBworld (<[i := b']> (bufs s)) l d w).
Proof.
  intros Hi Hb Hc' Hv Hr j m (b2 & Hj & Hc & Hpos & Hval). unfold holds. simpl.
  destruct (decide (j = i)) as [->|Hne].
  - simplify_eq. exists b'. rewrite list_lookup_insert_eq by (by eapply lookup_lt_Some).
    split_and!; [done| |by apply Hr|done]. destruct Hb as [Hb|?]; [|lia].
    destruct Hb as [_ <-], Hc as [_ <-]. done.
  - exists b2. by rewrite list_lookup_insert_ne.
Qed.

Section ops.
Context (s : bworld) (R : refs) (v : Z → block) (Hinv : cache_inv s R v).

Lemma holds_unique i n b :
  bufs s !! i = Some b → caches b n → ∀ j b2, bufs s !! j = Some b2 → caches b2 n → j = i.
Proof. intros Hi Hc j b2 Hj Hc2. by eapply (ci_uniq _ _ _ Hinv). Qed.

Lemma holds_refs i n :
  holds s i n → ∃ b, bufs s !! i = Some b ∧ caches b n ∧ valid b = true ∧ data b = v n ∧
    R !! n = Some (refcnt b, locked b) ∧ 0 < refcnt b < 2 ^ 31.
Proof.
  intros (b & Hi & Hc & Hpos & Hval). exists b.
  destruct (ci_used _ _ _ Hinv i b Hi Hpos) as [_ HR]. destruct Hc as [Hd <-].
  destruct (ci_refs _ _ _ Hinv _ _ _ HR) as [? _].
  split_and!; try done; try lia. symmetry. by eapply (ci_cached _ _ _ Hinv).
Qed.

(** A cached block is found in its buffer. *)
Lemma find_cached i b n :
  bufs s !! i = Some b → caches b n →
  find_buf (λ b, (dev b =? ROOTDEV) && (blockno b =? n)) (bufs s) (lru s) = Some i.
Proof.
  intros Hi [Hd Hn]. destruct (find_buf _ _ _) as [j|] eqn:E.
  - apply find_buf_Some in E as (_ & b2 & Hj & [?%Z.eqb_eq ?%Z.eqb_eq]%andb_true_iff).
    f_equal. by eapply (ci_uniq _ _ _ Hinv).
  - eapply find_buf_None in E; [|by eapply in_lru|exact Hi].
    apply andb_false_iff in E as [?%Z.eqb_neq|?%Z.eqb_neq]; done.
Qed.

(** If not all buffers are in use, there is one to recycle. *)
Lemma find_free :
  (size R < NBUF)%nat →
  ∃ i b, find_buf (λ b, refcnt b =? 0) (bufs s) (reverse (lru s)) = Some i ∧ bufs s !! i = Some b ∧ refcnt b = 0.
Proof.
  intros Hsz. destruct (find_buf _ _ _) as [i|] eqn:E.
  { apply find_buf_Some in E as (_ & b & Hi & Hb%Z.eqb_eq). eauto. }
  exfalso. assert (∀ i b, bufs s !! i = Some b → 0 < refcnt b) as Hall.
  { intros i b Hi. eapply find_buf_None in E; [|by apply elem_of_reverse; eapply in_lru|exact Hi].
    apply Z.eqb_neq in E. pose proof (ci_nonneg _ _ _ Hinv i b Hi). lia. }
  set (ns := blockno <$> bufs s).
  assert (NoDup ns) as Hnd.
  { apply NoDup_fmap_2_strong; [|].
    - intros x y Hx Hy Hxy. apply list_elem_of_lookup in Hx as [i Hi], Hy as [j Hj].
      destruct (ci_used _ _ _ Hinv _ _ Hi (Hall _ _ Hi)) as [? _].
      destruct (ci_used _ _ _ Hinv _ _ Hj (Hall _ _ Hj)) as [? _].
      assert (i = j) as -> by (by eapply (ci_uniq _ _ _ Hinv i j x y (blockno x))). congruence.
    - apply NoDup_alt. intros i j b Hi Hj.
      destruct (ci_used _ _ _ Hinv _ _ Hi (Hall _ _ Hi)) as [? _].
      by eapply (ci_uniq _ _ _ Hinv i j b b (blockno b)). }
  assert (list_to_set ns ⊆ dom R) as Hsub.
  { intros n Hn%elem_of_list_to_set. apply list_elem_of_fmap in Hn as (b & -> & Hb).
    apply list_elem_of_lookup in Hb as [i Hi].
    destruct (ci_used _ _ _ Hinv _ _ Hi (Hall _ _ Hi)) as [_ HR]. apply elem_of_dom. eauto. }
  apply subseteq_size in Hsub. rewrite size_list_to_set in Hsub by done.
  rewrite size_dom in Hsub. unfold ns in Hsub. rewrite length_fmap, (ci_len _ _ _ Hinv) in Hsub. lia.
Qed.
End ops.

(** The world after buffer [i] was replaced. *)
Definition with_buf (i : nat) (b : buf) (s : bworld) : bworld :=
  mkBworld (<[i := b]> (bufs s)) (lru s) (disk s) (writes s).

Lemma with_buf_lookup i b b' s : bufs s !! i = Some b → bufs (with_buf i b' s) !! i = Some b'.
Proof. intros Hi. apply list_lookup_insert_eq. by eapply lookup_lt_Some. Qed.

Lemma with_buf_twice i b b' s : with_buf i b' (with_buf i b s) = with_buf i b' s.
Proof. unfold with_buf. simpl. by rewrite list_insert_insert_eq. Qed.

Lemma set_buf_eq i b s : set_buf i b s = Some ((), with_buf i b s).
Proof. done. Qed.

Lemma acquire_buf_eq i b s :
  bufs s !! i = Some b → locked b = false → acquire_buf i s = Some ((), with_buf i (set_locked true b) s).
Proof. intros Hi Hl. unfold acquire_buf. by rewrite (the_buf_eq _ _ _ _ Hi), Hl. Qed.

Section specs.
Context (s : bworld) (R : refs) (v : Z → block) (Hinv : cache_inv s R v).

(** Block [n] can be read: no one holds its lock, and it is referenced or
    there is a buffer to recycle. *)
Definition readable (n c : Z) : Prop :=
  (R !! n = Some (c, false) ∧ c + 1 < 2 ^ 31) ∨ (R !! n = None ∧ (size R < NBUF)%nat ∧ c = 0).

Lemma bget_spec n c :
  readable n c →
  ∃ i b b1, bget ROOTDEV n s = Some (i, with_buf i b1 s) ∧ bufs s !! i = Some b ∧
    (∀ j b2, bufs s !! j = Some b2 → caches b2 n → j = i) ∧ (caches b n ∨ refcnt b = 0) ∧
    (refcnt b = 0 ∨ refcnt b = c) ∧
    caches b1 n ∧ locked b1 = true ∧ refcnt b1 = c + 1 ∧ (valid b1 = true → data b1 = v n) ∧
    (valid b1 = false → v n = on_disk (disk s) n).
Proof.
  intros Hrd. unfold bget. rewrite (bind_eq _ _ _ s s) by done.
  destruct (find_buf (λ b, (dev b =? ROOTDEV) && (blockno b =? n)) (bufs s) (lru s)) as [i|] eqn:E.
  - apply find_buf_Some in E as (_ & b & Hi & [Hd%Z.eqb_eq Hn%Z.eqb_eq]%andb_true_iff).
    assert (caches b n) as Hc by done.
    assert (refcnt b = c ∧ locked b = false ∧ 0 ≤ c ∧ c + 1 < 2 ^ 31) as (Hcnt & Hl & Hc0 & Hc1).
    { pose proof (ci_nonneg _ _ _ Hinv i b Hi). destruct Hrd as [[HR ?]|(HR & _ & ->)].
      - destruct (ci_refs _ _ _ Hinv _ _ _ HR) as (? & j & b2 & Hj & Hcj & ? & ? & _).
        rewrite (ci_uniq _ _ _ Hinv i j b b2 n Hi Hj Hc Hcj) in Hi. by simplify_eq.
      - destruct (decide (refcnt b = 0)) as [E0|E0].
        + split_and!; [done|by apply (ci_free _ _ _ Hinv i b)|lia|lia].
        + destruct (ci_used _ _ _ Hinv i b Hi) as [_ HR2]; [lia|]. rewrite Hn, HR in HR2. done. }
    rewrite (the_buf_eq _ _ _ _ Hi), (bind_eq _ _ _ _ _ (set_buf_eq _ _ _)).
    erewrite bind_eq by (eapply acquire_buf_eq; [by eapply with_buf_lookup|exact Hl]).
    rewrite with_buf_twice. eexists i, b, _. split; [done|]. rewrite u32_id by lia. simpl.
    split_and!; [done|intros j b2 Hj Hcj; exact (eq_sym (ci_uniq _ _ _ Hinv i j b b2 n Hi Hj Hc Hcj))|by left|by right|done|done|lia| |].
    + intros Hv. symmetry. exact (ci_cached _ _ _ Hinv i b n Hi Hc Hv).
    + intros Hv. apply (ci_uncached _ _ _ Hinv). intros j b2 Hj Hcj.
      rewrite (ci_uniq _ _ _ Hinv i j b b2 n Hi Hj Hc Hcj) in Hi. by simplify_eq.
  - assert (∀ j b2, bufs s !! j = Some b2 → caches b2 n → False) as Hno.
    { intros j b2 Hj Hc. by rewrite (find_cached _ _ _ Hinv j b2 n Hj Hc) in E. }
    destruct Hrd as [[HR _]|(HR & Hsz & ->)].
    { destruct (ci_refs _ _ _ Hinv _ _ _ HR) as (_ & j & b2 & Hj & Hcj & _). by destruct (Hno j b2). }
    destruct (find_free _ _ _ Hinv Hsz) as (i & b & Ef & Hi & H0). rewrite Ef.
    rewrite (the_buf_eq _ _ _ _ Hi), (bind_eq _ _ _ _ _ (set_buf_eq _ _ _)).
    erewrite bind_eq by (eapply acquire_buf_eq; [by eapply with_buf_lookup|by apply (ci_free _ _ _ Hinv i b)]).
    rewrite with_buf_twice. eexists i, b, _. split; [done|]. simpl.
    split_and!; [done|intros j b2 Hj Hcj; by destruct (Hno j b2)|by right|by left|done|done|done|done|].
    intros _. by apply (ci_clean _ _ _ Hinv).
Qed.

Lemma bread_spec n c :
  readable n c →
  ∃ i s', bread ROOTDEV n s = Some (i, s') ∧ cache_inv s' (<[n := (c + 1, true)]> R) v ∧
    holds s' i n ∧ disk s' = disk s ∧ writes s' = writes s ∧ keeps_held s s'.
Proof.
  intros Hrd.
  destruct (bget_spec n c Hrd) as (i & b & b1 & E & Hi & Honly & Hb & Hcb & Hc1 & Hl1 & Hr1 & Hval & Hinval).
  assert (0 ≤ c ∧ c + 1 < 2 ^ 31) as [Hc0 Hcb1].
  { destruct Hrd as [[HR ?]|(_ & _ & ->)]; [|lia].
    destruct (ci_refs _ _ _ Hinv _ _ _ HR) as [? _]. lia. }
  set (b' := mkBuf true ROOTDEV n true (c + 1) (v n)).
  exists i, (with_buf i b' s). split.
  { unfold bread. rewrite (bind_eq _ _ _ _ _ E), (the_buf_eq _ b1) by (by eapply with_buf_lookup).
    destruct b1 as [vb d1 n1 l1 r1 dat1], Hc1 as [Hd1 Hn1]. simpl in *. subst. destruct vb.
    - rewrite (bind_eq _ _ _ () (with_buf i b' s)); [done|]. unfold b'. by rewrite <-Hval.
    - erewrite bind_eq; [done|]. rewrite (bind_eq _ _ _ (disk s) (with_buf i _ s)) by done.
      rewrite set_buf_eq, with_buf_twice. unfold b'. by rewrite <-Hinval. }
  split_and!; [|exists b'; split_and!; [by eapply with_buf_lookup|done|simpl; lia|done]|done|done|].
  - eapply (update_inv s R v Hinv i b n b'); try done; simpl; [apply (ci_lru _ _ _ Hinv)|lia|lia| | |].
    + rewrite lookup_insert_eq. by rewrite (proj2 (Z.eqb_neq _ _)) by lia.
    + by rewrite lookup_insert_eq.
    + intros m Hm. by rewrite lookup_insert_ne.
  - eapply keeps_held_insert; try done. intros _. simpl. lia.
Qed.

(** The other operations, on a block the caller holds. *)
Lemma get_data_spec i n : holds s i n → get_data i s = Some (v n, s).
Proof.
  intros (b & Hi & Hc & Hv & <- & _)%(holds_refs _ _ _ Hinv). unfold get_data.
  by rewrite (the_buf_eq _ _ _ _ Hi).
Qed.

Lemma set_data_spec i n c d :
  holds s i n → R !! n = Some (c, true) →
  ∃ s', set_data i d s = Some ((), s') ∧ cache_inv s' R (λ m, if decide (m = n) then d else v m) ∧
    disk s' = disk s ∧ writes s' = writes s ∧ keeps_held s s'.
Proof.
  intros (b & Hi & Hc & Hv & Hd & HR & Hpos)%(holds_refs _ _ _ Hinv) HRc. simplify_eq.
  unfold set_data. rewrite (the_buf_eq _ _ _ _ Hi), set_buf_eq. eexists. split; [done|].
  split_and!; [|done|done|].
  - eapply (update_inv s R v Hinv i b n); try done; simpl.
    + eapply holds_unique; done.
    + by left.
    + apply (ci_lru _ _ _ Hinv).
    + by rewrite decide_True.
    + lia.
    + lia.
    + rewrite HR. by rewrite (proj2 (Z.eqb_neq _ _)) by lia.
    + congruence.
    + intros m Hm. by rewrite decide_False.
  - eapply keeps_held_insert; try done. by left.
Qed.

Lemma bwrite_spec i n c :
  holds s i n → R !! n = Some (c, true) →
  ∃ s', bwrite i s = Some ((), s') ∧ cache_inv s' R v ∧ disk s' = <[n := v n]> (disk s) ∧
    writes s' = writes s ++ [(n, v n)] ∧ keeps_held s s'.
Proof.
  intros (b & Hi & Hc & Hv & Hd & HR & Hpos)%(holds_refs _ _ _ Hinv) HRc.
  assert (locked b = true ∧ refcnt b = c) as [Hl <-] by (split; congruence).
  unfold bwrite. rewrite (the_buf_eq _ _ _ _ Hi), Hl. eexists. split; [done|].
  rewrite (proj2 Hc), Hd. split_and!; [|done|done|by intros j m ?].
  rewrite <-(list_insert_id (bufs s) i b) by done.
  eapply (update_inv s R v Hinv i b n); try done.
  - eapply holds_unique; done.
  - by left.
  - apply (ci_lru _ _ _ Hinv).
  - lia.
  - lia.
  - rewrite HR. by rewrite (proj2 (Z.eqb_neq _ _)) by lia.
  - congruence.
  - intros m Hm. unfold on_disk. by rewrite lookup_insert_ne.
Qed.
End specs.

(** A reference count is changed under the lock of the cache. *)
Definition with_refs (n c : Z) (l : bool) (R : refs) : refs :=
  if c =? 0 then delete n R else <[n := (c, l)]> R.

Lemma with_refs_lookup n c l R :
  with_refs n c l R !! n = (if c =? 0 then None else Some (c, l)) ∧
  ∀ m, m ≠ n → with_refs n c l R !! m = R !! m.
Proof.
  unfold with_refs. destruct (c =? 0); split; intros;
    by rewrite ?lookup_delete_eq, ?lookup_insert_eq, ?lookup_delete_ne, ?lookup_insert_ne.
Qed.

Section counts.
Context (s : bworld) (R : refs) (v : Z → block) (Hinv : cache_inv s R v).

Lemma recount i b n c l lr :
  bufs s !! i = Some b → caches b n → valid b = true → data b = v n → 0 ≤ c < 2 ^ 31 →
  lr ≡ₚ seq 0 NBUF → (c = 0 → l = false ∧ v n = on_disk (disk s) n) →
  let s' := mkBworld (<[i := mkBuf true ROOTDEV n l c (v n)]> (bufs s)) lr (disk s) (writes s) in
  cache_inv s' (with_refs n c l R) v ∧
  (∀ j m, m ≠ n → holds s j m → holds s' j m) ∧ (0 < c → holds s' i n).
Proof.
  intros Hi Hc Hv Hd Hcr Hlr H0 s'. split_and!.
  - eapply (update_inv s R v Hinv i b n); try done; simpl.
    + eapply holds_unique; done.
    + by left.
    + naive_solver.
    + apply with_refs_lookup.
    + rewrite (proj1 (with_refs_lookup _ _ _ _)). destruct (Z.eqb_spec c 0); [naive_solver|done].
    + intros m Hm. split_and!; [by apply with_refs_lookup|done|done].
  - intros j m Hm (b2 & Hj & Hc2 & Hrest). exists b2. split; [|done]. simpl.
    rewrite list_lookup_insert_ne; [done|]. intros ->. simplify_eq.
    destruct Hc as [_ <-], Hc2 as [_ <-]. done.
  - intros Hpos. exists (mkBuf true ROOTDEV n l c (v n)). split; [|by split_and!].
    simpl. apply list_lookup_insert_eq. by eapply lookup_lt_Some.
Qed.

Lemma set_refcnt_eta b n c : caches b n → valid b = true → data b = v n →
  set_refcnt c b = mkBuf true ROOTDEV n (locked b) c (v n).
Proof. destruct b. intros [? ?] ? ?. simpl in *. by subst. Qed.

Lemma brelse_spec i n c :
  holds s i n → R !! n = Some (c, true) → (c = 1 → v n = on_disk (disk s) n) →
  ∃ s', brelse i s = Some ((), s') ∧ cache_inv s' (with_refs n (c - 1) false R) v ∧
    disk s' = disk s ∧ writes s' = writes s ∧
    (∀ j m, m ≠ n → holds s j m → holds s' j m) ∧ (1 < c → holds s' i n).
Proof.
  intros (b & Hi & Hc & Hv & Hd & HR & Hpos)%(holds_refs _ _ _ Hinv) HRc Hcl.
  assert (locked b = true ∧ refcnt b = c) as [Hl <-] by (split; congruence).
  unfold brelse. rewrite (the_buf_eq _ _ _ _ Hi), Hl. rewrite u32_id by lia.
  rewrite (bind_eq _ _ _ _ _ (set_buf_eq _ _ _)).
  assert (set_refcnt (refcnt b - 1) (set_locked false b) = mkBuf true ROOTDEV n false (refcnt b - 1) (v n)) as ->
    by exact (set_refcnt_eta (set_locked false b) n _ Hc Hv Hd).
  destruct (Z.eqb_spec (refcnt b - 1) 0) as [E|E].
  - rewrite (bind_eq _ _ _ (lru s) (with_buf i (mkBuf true ROOTDEV n false (refcnt b - 1) (v n)) s)) by done.
    assert (i :: filter (λ j, j ≠ i) (lru s) ≡ₚ seq 0 NBUF) as Hlr.
    { pose proof (in_lru _ _ _ Hinv i b Hi) as Hin. rewrite (ci_lru _ _ _ Hinv) in *.
      apply NoDup_Permutation.
      - constructor; [|apply NoDup_filter, NoDup_seq]. by intros [? _]%list_elem_of_filter.
      - apply NoDup_seq.
      - intros x. rewrite elem_of_cons, list_elem_of_filter. destruct (decide (x = i)); naive_solver. }
    destruct (recount i b n (refcnt b - 1) false _ Hi Hc Hv Hd ltac:(lia) Hlr) as (H1 & H2 & H3).
    { intros _. split; [done|]. apply Hcl. lia. }
    eexists. split; [done|]. split_and!; [exact H1|done|done|exact H2|]. intros ?. lia.
  - destruct (recount i b n (refcnt b - 1) false _ Hi Hc Hv Hd ltac:(lia) (ci_lru _ _ _ Hinv)) as (H1 & H2 & H3);
      [lia|].
    eexists. split; [done|]. split_and!; [exact H1|done|done|exact H2|]. intros ?. apply H3. lia.
Qed.

Lemma bpin_spec i n c l :
  holds s i n → R !! n = Some (c, l) → c + 1 < 2 ^ 31 →
  ∃ s', bpin i s = Some ((), s') ∧ cache_inv s' (<[n := (c + 1, l)]> R) v ∧
    disk s' = disk s ∧ writes s' = writes s ∧ keeps_held s s'.
Proof.
  intros Hh HRc Hb. pose proof Hh as (b & Hi & Hc & Hv & Hd & HR & Hpos)%(holds_refs _ _ _ Hinv).
  assert (locked b = l ∧ refcnt b = c) as [<- <-] by (split; congruence).
  unfold bpin. rewrite (the_buf_eq _ _ _ _ Hi), set_buf_eq, u32_id by lia.
  destruct (recount i b n (refcnt b + 1) (locked b) _ Hi Hc Hv Hd ltac:(lia) (ci_lru _ _ _ Hinv)) as (H1 & H2 & H3);
    [lia|].
  rewrite (set_refcnt_eta b n) by done.
  eexists. split; [done|]. unfold with_refs in H1. rewrite (proj2 (Z.eqb_neq _ _)) in H1 by lia.
  split_and!; [exact H1|done|done|]. intros j m Hj. destruct (decide (m = n)) as [->|]; [|by apply H2].
  destruct Hj as (b2 & Hj & Hc2 & _). rewrite (ci_uniq _ _ _ Hinv j i b2 b n) by done. apply H3. lia.
Qed.

Lemma bunpin_spec i n c l :
  holds s i n → R !! n = Some (c, l) → 1 < c →
  ∃ s', bunpin i s = Some ((), s') ∧ cache_inv s' (<[n := (c - 1, l)]> R) v ∧
    disk s' = disk s ∧ writes s' = writes s ∧ keeps_held s s'.
Proof.
  intros Hh HRc Hb. pose proof Hh as (b & Hi & Hc & Hv & Hd & HR & Hpos)%(holds_refs _ _ _ Hinv).
  assert (locked b = l ∧ refcnt b = c) as [<- <-] by (split; congruence).
  unfold bunpin. rewrite (the_buf_eq _ _ _ _ Hi), set_buf_eq, u32_id by lia.
  destruct (recount i b n (refcnt b - 1) (locked b) _ Hi Hc Hv Hd ltac:(lia) (ci_lru _ _ _ Hinv)) as (H1 & H2 & H3);
    [lia|].
  rewrite (set_refcnt_eta b n) by done.
  eexists. split; [done|]. unfold with_refs in H1. rewrite (proj2 (Z.eqb_neq _ _)) in H1 by lia.
  split_and!; [exact H1|done|done|]. intros j m Hj. destruct (decide (m = n)) as [->|]; [|by apply H2].
  destruct Hj as (b2 & Hj & Hc2 & _). rewrite (ci_uniq _ _ _ Hinv j i b2 b n) by done. apply H3. lia.
Qed.
End counts.

(** Only the values of the view matter. *)
#[export] Instance cache_inv_proper s R :
  Proper (pointwise_relation Z (=) ==> iff) (cache_inv s R).
Proof.
  assert (∀ v v' : Z → block, (∀ n, v n = v' n) → cache_inv s R v → cache_inv s R v') as G.
  { intros v v' E []. split; try done; intros; rewrite <-E; eauto. }
  intros v v' E. split; apply G; [exact E|intros n; symmetry; apply E].
Qed.

Lemma size_set_of_list (l : list Z) : (size (list_to_set (C := gset Z) l) ≤ length l)%nat.
Proof.
  induction l as [|x l IH]; [done|]. simpl. rewrite size_union_alt, size_singleton.
  assert (size (list_to_set l ∖ {[x]} : gset Z) ≤ size (list_to_set l : gset Z))%nat
    by (apply subseteq_size; set_solver). lia.
Qed.

(** With every buffer in use, no other block can be read. *)
Lemma bread_full s R v n :
  cache_inv s R v → size R = NBUF → R !! n = None → bread ROOTDEV n s = None.
Proof.
  intros Hinv Hsz Hn.
  assert (∀ i b, bufs s !! i = Some b → 0 < refcnt b) as Hall.
  { intros i b Hi. destruct (decide (refcnt b = 0)) as [H0|]; [|pose proof (ci_nonneg _ _ _ Hinv i b Hi); lia].
    exfalso. assert (dom R ⊆ list_to_set (C := gset Z) (blockno <$> delete i (bufs s))) as Hsub.
    { intros m [[c l] Hm]%elem_of_dom. destruct (ci_refs _ _ _ Hinv m c l Hm) as (Hc & j & b2 & Hj & [_ <-] & Hr & _).
      apply elem_of_list_to_set, list_elem_of_fmap. exists b2. split; [done|].
      assert (j ≠ i) as Hji by (intros ->; simplify_eq; lia).
      apply list_elem_of_lookup. destruct (decide (j < i)%nat).
      - exists j. by rewrite list_lookup_delete_lt by lia.
      - exists (j - 1)%nat. rewrite list_lookup_delete_ge by lia. by replace (S (j - 1)) with j by lia. }
    apply subseteq_size in Hsub. rewrite size_dom, Hsz in Hsub.
    pose proof (size_set_of_list (blockno <$> delete i (bufs s))) as Hle.
    rewrite length_fmap, length_delete, (ci_len _ _ _ Hinv) in Hle by (by eexists). unfold NBUF in *. lia. }
  assert (bget ROOTDEV n s = None) as E; [|unfold bread, mbind, M_bind; by rewrite E].
  unfold bget. rewrite (bind_eq _ _ _ s s) by done.
  destruct (find_buf _ (bufs s) (lru s)) as [i|] eqn:E.
  { apply find_buf_Some in E as (_ & b & Hi & [_ Hb%Z.eqb_eq]%andb_true_iff).
    destruct (ci_used _ _ _ Hinv i b Hi (Hall i b Hi)) as [_ HR]. congruence. }
  destruct (find_buf _ (bufs s) (reverse (lru s))) as [i|] eqn:E2; [|done].
  apply find_buf_Some in E2 as (_ & b & Hi & Hb%Z.eqb_eq). specialize (Hall i b Hi). lia.
Qed.
