(* ===== verification/Log.v ===== *)
(** The log of the file system: [xv6/kernel/log.c], over the buffer cache.

    A transaction collects the blocks that file system calls have changed; the
    last call to end writes them to the log area of the disk, then the header
    that commits them, then their home locations, and clears the header. After
    a crash [initlog] replays a committed log.

    The header is read and written as the bytes the machine has: a
    little-endian [int] and an array of them. [begin_op] and [sys_sync] wait in
    a loop, of which the model has one pass, which says whether the caller may
    go on. [None] is a panic or an access outside an array. *)
From S2P Require Import Prelude Kalloc Proc ProcSync Bio.

Definition MAXOPBLOCKS : Z := 10.
Definition LOGBLOCKS : Z := MAXOPBLOCKS * 3.

(** ** Integers in a block *)

Definition le32 (z : Z) : list Z :=
  [z mod 256; (z / 256) mod 256; (z / 65536) mod 256; (z / 16777216) mod 256].
Definition get32 (off : nat) (d : block) : Z :=
  let b k := default 0 (d !! (off + k)%nat) in
  b 0%nat + 256 * b 1%nat + 65536 * b 2%nat + 16777216 * b 3%nat.
Definition put32 (off : nat) (z : Z) (d : block) : block :=
  take off d ++ le32 (u32 z) ++ drop (off + 4) d.
(** Reading an [int]. *)
Definition get_int (off : nat) (d : block) : Z := int32 (get32 off d).
(** An array of [int]s at [off]. *)
Fixpoint put_ints (off : nat) (zs : list Z) (d : block) : block :=
  match zs with
  | [] => d
  | z :: zs' => put_ints (off + 4) zs' (put32 off z d)
  end.
Definition get_ints (off k : nat) (d : block) : list Z :=
  (λ i, get_int (off + 4 * i)%nat d) <$> seq 0 k.

(** ** State *)

(** [log] with its in-memory header [lh]. *)
Record log := mkLog {
  start : Z;
  outstanding : Z;
  committing : bool;
  ncommit : Z;
  lh_n : Z;
  lh_block : list Z;
}.

Record lworld (S : Type) := mkLworld {
  ltable : S;
  lbio : bworld;
  llog : log;
}.
Arguments mkLworld {S}.
Arguments ltable {S}.
Arguments lbio {S}.
Arguments llog {S}.

Definition set_start v l := mkLog v (outstanding l) (committing l) (ncommit l) (lh_n l) (lh_block l).
Definition set_outstanding v l := mkLog (start l) v (committing l) (ncommit l) (lh_n l) (lh_block l).
Definition set_committing v l := mkLog (start l) (outstanding l) v (ncommit l) (lh_n l) (lh_block l).
Definition set_ncommit v l := mkLog (start l) (outstanding l) (committing l) v (lh_n l) (lh_block l).
Definition set_lh n bs l := mkLog (start l) (outstanding l) (committing l) (ncommit l) n bs.

(** [&log], on which processes wait. *)
Definition chan_log : channel := ChOther 0x80020000.

Section code.
Context {S : Type} `{SleepChan S}.
Abbreviation lm := (M (lworld S)).

Definition on_bio {A} (m : M bworld A) : lm A := λ s,
  match m (lbio s) with
  | Some (a, b) => Some (a, mkLworld (ltable s) b (llog s))
  | None => None
  end.
Definition on_ltable {A} (m : M S A) : lm A := λ s,
  match m (ltable s) with
  | Some (a, t) => Some (a, mkLworld t (lbio s) (llog s))
  | None => None
  end.
Definition the_log : lm log := gets llog.
Definition set_log (f : log → log) : lm unit := modify (λ s, mkLworld (ltable s) (lbio s) (f (llog s))).

(** One turn of the loop of [install_trans]. *)
Definition install_one (recovering : bool) (tail : nat) : lm unit :=
  l ← the_log;
  match lh_block l !! tail with
  | None => stuck
  | Some dst =>
    lbuf ← on_bio (bread ROOTDEV (start l + Z.of_nat tail + 1));
    dbuf ← on_bio (bread ROOTDEV dst);
    d ← on_bio (get_data lbuf);
    on_bio (set_data dbuf d);;
    on_bio (bwrite dbuf);;
    when (negb recovering) (on_bio (bunpin dbuf));;
    on_bio (brelse lbuf);;
    on_bio (brelse dbuf)
  end.
Definition install_trans (recovering : bool) : lm unit :=
  l ← the_log;
  mfor (seq 0 (Z.to_nat (lh_n l))) (install_one recovering).

Definition read_head : lm unit :=
  l ← the_log;
  buf ← on_bio (bread ROOTDEV (start l));
  d ← on_bio (get_data buf);
  let n := get_int 0 d in
  if LOGBLOCKS <? n then stuck
  else
    set_log (set_lh n (get_ints 4 (Z.to_nat n) d ++ drop (Z.to_nat n) (lh_block l)));;
    on_bio (brelse buf).

Definition put_head (n : Z) (bs : list Z) (d : block) : block :=
  put_ints 4 (take (Z.to_nat n) bs) (put32 0 n d).
Definition write_head : lm unit :=
  l ← the_log;
  buf ← on_bio (bread ROOTDEV (start l));
  d ← on_bio (get_data buf);
  on_bio (set_data buf (put_head (lh_n l) (lh_block l) d));;
  on_bio (bwrite buf);;
  on_bio (brelse buf).

Definition clear_lh : lm unit := set_log (λ l, set_lh 0 (lh_block l) l).

Definition recover_from_log : lm unit :=
  read_head;;
  install_trans true;;
  clear_lh;;
  write_head.

Definition initlog (logstart : Z) : lm unit :=
  set_log (set_start logstart);;
  recover_from_log.

(** One pass of the loop of [begin_op]: true when the call may start. *)
Definition begin_op_pass (t : nat) : lm bool :=
  l ← the_log;
  if committing l || (LOGBLOCKS <? lh_n l + (outstanding l + 1) * MAXOPBLOCKS) then
    on_ltable (chan_prepare t chan_log);; mret false
  else set_log (λ l, set_outstanding (outstanding l + 1) l);; mret true.

(** One turn of the loop of [write_log]. *)
Definition write_log_one (tail : nat) : lm unit :=
  l ← the_log;
  match lh_block l !! tail with
  | None => stuck
  | Some src =>
    to ← on_bio (bread ROOTDEV (start l + Z.of_nat tail + 1));
    from ← on_bio (bread ROOTDEV src);
    d ← on_bio (get_data from);
    on_bio (set_data to d);;
    on_bio (bwrite to);;
    on_bio (brelse from);;
    on_bio (brelse to)
  end.
Definition write_log : lm unit :=
  l ← the_log;
  mfor (seq 0 (Z.to_nat (lh_n l))) write_log_one.

Definition commit : lm unit :=
  l ← the_log;
  if 0 <? lh_n l then
    write_log;;
    write_head;;
    install_trans false;;
    clear_lh;;
    write_head
  else mret ().

Definition end_op : lm unit :=
  set_log (λ l, set_outstanding (outstanding l - 1) l);;
  l ← the_log;
  if committing l then stuck
  else if outstanding l =? 0 then
    set_log (set_committing true);;
    commit;;
    set_log (set_committing false);;
    set_log (λ l, set_ncommit (ncommit l + 1) l);;
    on_ltable (chan_wakeup chan_log)
  else on_ltable (chan_wakeup chan_log).

Definition log_write (i : nat) : lm unit :=
  l ← the_log;
  if LOGBLOCKS <=? lh_n l then stuck
  else if outstanding l <? 1 then stuck
  else
    b ← on_bio (the_buf i);
    let bs := lh_block l in
    match index_of (Z.eqb (blockno b)) (take (Z.to_nat (lh_n l)) bs) with
    | Some k => set_log (set_lh (lh_n l) (<[k := blockno b]> bs))
    | None =>
      set_log (set_lh (lh_n l) (<[Z.to_nat (lh_n l) := blockno b]> bs));;
      on_bio (bpin i);;
      set_log (λ l, set_lh (lh_n l + 1) (lh_block l) l)
    end.

(** [sys_sync] up to its first wait, and a later pass: true when it returns. *)
Definition sys_sync_start (t : nat) : lm (option Z) :=
  l ← the_log;
  if committing l || (0 <? outstanding l) then
    on_ltable (chan_prepare t chan_log);; mret (Some (ncommit l + 1))
  else mret None.
Definition sys_sync_pass (t : nat) (n : Z) : lm bool :=
  l ← the_log;
  if ncommit l <? n then on_ltable (chan_prepare t chan_log);; mret false else mret true.

(** How the rest of the file system changes a block: read it, change it,
    [log_write] it, release it. *)
Definition update_block (n : Z) (f : block → block) : lm unit :=
  i ← on_bio (bread ROOTDEV n);
  d ← on_bio (get_data i);
  on_bio (set_data i (f d));;
  log_write i;;
  on_bio (brelse i).

(** A reboot on disk [d]: nothing but the disk is left. *)
Definition reboot (logstart : Z) (d : gmap Z block) (t : S) : option (unit * lworld S) :=
  (on_bio binit;; initlog logstart)
    (mkLworld t (mkBworld [] [] d []) (mkLog 0 0 false 0 0 (replicate (Z.to_nat LOGBLOCKS) 0))).
End code.

(** ** Reading back what was written *)

Lemma length_le32 z : length (le32 z) = 4%nat.
Proof. done. Qed.

Lemma length_put32 off z d : (off + 4 ≤ length d)%nat → length (put32 off z d) = length d.
Proof. intros. unfold put32. rewrite !length_app, length_take, length_drop, length_le32. lia. Qed.

Lemma put32_lookup off z d k :
  (off + 4 ≤ length d)%nat → put32 off z d !! k =
    (if decide (off ≤ k < off + 4)%nat then le32 (u32 z) !! (k - off)%nat else d !! k).
Proof.
  intros Hd. unfold put32. case_decide as Hk.
  - rewrite lookup_app_r, length_take, Nat.min_l by (rewrite ?length_take; lia).
    by rewrite lookup_app_l by (rewrite ?length_le32; lia).
  - destruct (decide (k < off)%nat).
    + rewrite lookup_app_l by (rewrite ?length_take; lia). rewrite lookup_take. by rewrite decide_True.
    + rewrite lookup_app_r, length_take, Nat.min_l by (rewrite ?length_take; lia).
      rewrite lookup_app_r, length_le32 by (rewrite ?length_le32; lia).
      rewrite lookup_drop. f_equal. lia.
Qed.

Lemma le32_value z :
  0 ≤ z < 2 ^ 32 →
  z mod 256 + 256 * ((z / 256) mod 256) + 65536 * ((z / 65536) mod 256) + 16777216 * ((z / 16777216) mod 256) = z.
Proof.
  intros Hz. replace (z / 65536) with (z / 256 / 256) by (rewrite Z.div_div by lia; done).
  replace (z / 16777216) with (z / 256 / 256 / 256) by (rewrite !Z.div_div by lia; done).
  pose proof (Z.div_mod z 256). pose proof (Z.div_mod (z / 256) 256).
  pose proof (Z.div_mod (z / 256 / 256) 256).
  assert (z / 256 / 256 / 256 < 256) by (rewrite !Z.div_div by lia; apply Z.div_lt_upper_bound; lia).
  assert (0 ≤ z / 256 / 256 / 256) by (rewrite !Z.div_div by lia; apply Z.div_pos; lia).
  rewrite (Z.mod_small (z / 256 / 256 / 256)) by lia. lia.
Qed.

Lemma get32_put32 off z d : (off + 4 ≤ length d)%nat → get32 off (put32 off z d) = u32 z.
Proof.
  intros Hd. unfold get32. rewrite !put32_lookup by done. rewrite !decide_True by lia.
  replace (off + 0 - off)%nat with 0%nat by lia. replace (off + 1 - off)%nat with 1%nat by lia.
  replace (off + 2 - off)%nat with 2%nat by lia. replace (off + 3 - off)%nat with 3%nat by lia.
  simpl. apply le32_value, u32_range.
Qed.

Lemma get32_put32_ne off off' z d :
  (off + 4 ≤ length d)%nat → (off' + 4 ≤ off ∨ off + 4 ≤ off')%nat →
  get32 off' (put32 off z d) = get32 off' d.
Proof. intros Hd Hoff. unfold get32. rewrite !put32_lookup by done. by rewrite !decide_False by lia. Qed.

Lemma int32_u32 z : - 2 ^ 31 ≤ z < 2 ^ 31 → int32 (u32 z) = z.
Proof.
  intros Hz. unfold int32, swrap, u32. rewrite Zplus_mod_idemp_l. change (32 - 1) with 31.
  rewrite Z.mod_small by lia. lia.
Qed.

Definition is_int (z : Z) : Prop := - 2 ^ 31 ≤ z < 2 ^ 31.

Lemma put_ints_spec off zs d :
  (off + 4 * length zs ≤ length d)%nat → Forall is_int zs →
  length (put_ints off zs d) = length d ∧
  get_ints off (length zs) (put_ints off zs d) = zs ∧
  ∀ o, (o + 4 ≤ off)%nat → get32 o (put_ints off zs d) = get32 o d.
Proof.
  revert off d; induction zs as [|z zs IH]; intros off d Hlen Hzs; [done|].
  apply Forall_cons in Hzs as [Hz Hzs]. simpl in Hlen. cbn [put_ints].
  destruct (IH (off + 4)%nat (put32 off z d)) as (Hl & Hg & Ho); [rewrite length_put32; lia|done|].
  rewrite length_put32 in Hl by lia. split_and!; [done| |].
  - unfold get_ints in *. simpl. f_equal.
    + replace (off + 0)%nat with off by lia. unfold get_int.
      rewrite Ho, get32_put32 by lia. by apply int32_u32.
    + rewrite <-Hg at 2. rewrite <-fmap_S_seq, <-list_fmap_compose. apply list_fmap_ext.
      intros i x _. simpl. f_equal. lia.
  - intros o Hoff. rewrite Ho by lia. apply get32_put32_ne; lia.
Qed.

(** The header read back is the header written. *)
Lemma put_head_spec n bs d :
  0 ≤ n ≤ LOGBLOCKS → length bs = Z.to_nat LOGBLOCKS → Forall is_int bs → length d = BSIZE →
  length (put_head n bs d) = BSIZE ∧ get_int 0 (put_head n bs d) = n ∧
  get_ints 4 (Z.to_nat n) (put_head n bs d) = take (Z.to_nat n) bs.
Proof.
  unfold LOGBLOCKS, MAXOPBLOCKS. intros Hn Hbs Hint Hd. unfold put_head.
  assert (length (take (Z.to_nat n) bs) = Z.to_nat n) as Hlt by (rewrite ?length_take; lia).
  unfold BSIZE in *.
  destruct (put_ints_spec 4 (take (Z.to_nat n) bs) (put32 0 n d)) as (Hl & Hg & Ho).
  { rewrite Hlt, length_put32 by lia. lia. }
  { by apply Forall_take. }
  rewrite length_put32 in Hl by lia. split_and!; [lia| |by rewrite Hlt in Hg].
  unfold get_int. rewrite Ho, get32_put32 by lia. apply int32_u32. lia.
Qed.
