(* ===== verification/LogSpec.v ===== *)
(** The log survives crashes: the proofs about [Log]. *)
From S2P Require Import Prelude Kalloc Proc ProcSync Bio Log.

(** A view with the contents of one block replaced. *)
Definition upd (v : Z → block) (n : Z) (d : block) : Z → block := λ m, if decide (m = n) then d else v m.

Lemma view_upd_eq v n d : upd v n d n = d.
Proof. unfold upd. by rewrite decide_True. Qed.
Lemma view_upd_ne v n d m : m ≠ n → upd v n d m = v m.
Proof. intros. unfold upd. by rewrite decide_False. Qed.
Lemma upd_same v n : pointwise_relation Z (=) (upd v n (v n)) v.
Proof. intros m. unfold upd. by case_decide; subst. Qed.

Section turns.
Context {S : Type} `{SleepChan S}.
Implicit Types (s : lworld S).

Definition with_bio (b : bworld) s : lworld S := mkLworld (ltable s) b (llog s).

Lemma on_bio_last {A} (m : M bworld A) t l b0 a b :
  m b0 = Some (a, b) → on_bio m (mkLworld (S := S) t b0 l) = Some (a, mkLworld t b l).
Proof. intros E. unfold on_bio. simpl. by rewrite E. Qed.
Lemma on_bio_eq {A B} (m : M bworld A) (k : A → M (lworld S) B) t l b0 a b :
  m b0 = Some (a, b) → (on_bio m ≫= k) (mkLworld t b0 l) = k a (mkLworld t b l).
Proof. intros E. by apply bind_eq, on_bio_last. Qed.

Lemma refs_small (R : refs) n : R !! n = None → (size R < NBUF)%nat → readable R n 0.
Proof. intros. right. by split_and!. Qed.
Lemma refs_known (R : refs) n c : R !! n = Some (c, false) → c + 1 < 2 ^ 31 → readable R n c.
Proof. intros. left. by split_and!. Qed.

(** One turn of [write_log]: a block of the transaction goes to its place in
    the log. *)
Lemma write_log_one_spec s R v tail src :
  cache_inv (lbio s) R v → lh_block (llog s) !! tail = Some src →
  let to := start (llog s) + Z.of_nat tail + 1 in
  R !! src = Some (1, false) → R !! to = None → (size R < NBUF)%nat →
  ∃ b, write_log_one tail s = Some ((), with_bio b s) ∧
    cache_inv b R (upd v to (v src)) ∧ disk b = <[to := v src]> (disk (lbio s)) ∧
    writes b = writes (lbio s) ++ [(to, v src)].
Proof.
  destruct s as [t b0 l]. unfold with_bio. simpl. intros Hc Hblk.
  set (to := start l + Z.of_nat tail + 1). intros Hsrc Hto Hsz. unfold write_log_one, the_log.
  erewrite (bind_eq (gets _)) by reflexivity. simpl. rewrite Hblk. fold to.
  assert (src ≠ to) as Hne by congruence.
  destruct (bread_spec _ _ _ Hc to 0 (refs_small _ _ Hto Hsz)) as (i & b1 & E1 & Hc1 & Hi1 & Hd1 & Hw1 & Hk1).
  rewrite (on_bio_eq _ _ _ _ _ _ _ E1).
  destruct (bread_spec _ _ _ Hc1 src 1) as (j & b2 & E2 & Hc2 & Hj2 & Hd2 & Hw2 & Hk2).
  { apply refs_known; [by rewrite lookup_insert_ne|lia]. }
  rewrite (on_bio_eq _ _ _ _ _ _ _ E2), (on_bio_eq _ _ _ _ _ _ _ (get_data_spec _ _ _ Hc2 j src Hj2)).
  destruct (set_data_spec _ _ _ Hc2 i to 1 (v src)) as (b3 & E3 & Hc3 & Hd3 & Hw3 & Hk3).
  { by apply Hk2. } { rewrite lookup_insert_ne, lookup_insert_eq by done. done. }
  rewrite (on_bio_eq _ _ _ _ _ _ _ E3). fold (upd v to (v src)) in Hc3.
  destruct (bwrite_spec _ _ _ Hc3 i to 1) as (b4 & E4 & Hc4 & Hd4 & Hw4 & Hk4).
  { by apply Hk3, Hk2. } { rewrite lookup_insert_ne, lookup_insert_eq by done. done. }
  rewrite (on_bio_eq _ _ _ _ _ _ _ E4).
  destruct (brelse_spec _ _ _ Hc4 j src 2) as (b5 & E5 & Hc5 & Hd5 & Hw5 & Hk5 & _).
  { by apply Hk4, Hk3. } { by rewrite lookup_insert_eq. } { done. }
  rewrite (on_bio_eq _ _ _ _ _ _ _ E5).
  destruct (brelse_spec _ _ _ Hc5 i to 1) as (b6 & E6 & Hc6 & Hd6 & Hw6 & _ & _).
  { apply Hk5; [done|]. by apply Hk4, Hk3, Hk2. }
  { unfold with_refs. simpl. by rewrite !lookup_insert_ne, lookup_insert_eq by done. }
  { intros _. rewrite Hd5, Hd4, view_upd_eq. unfold on_disk. by rewrite lookup_insert_eq. }
  rewrite (on_bio_last _ _ _ _ _ _ E6). exists b6. split_and!; [done| | |].
  - unfold with_refs in Hc6. simpl in Hc6.
    rewrite insert_insert_eq, <-insert_insert_ne, delete_insert_id in Hc6.
    + by rewrite insert_id in Hc6.
    + by rewrite insert_id.
    + done.
  - rewrite Hd6, Hd5, Hd4, Hd3, Hd2, Hd1, view_upd_eq. done.
  - rewrite Hw6, Hw5, Hw4, Hw3, Hw2, Hw1, view_upd_eq. done.
Qed.

Lemma delete_insert_fresh (R : refs) n x : R !! n = None → delete n (<[n := x]> R) = R.
Proof. apply delete_insert_id. Qed.

(** One turn of [install_trans] in a commit: the block is unpinned. *)
Lemma install_one_spec s R v tail dst :
  cache_inv (lbio s) R v → lh_block (llog s) !! tail = Some dst →
  let lg := start (llog s) + Z.of_nat tail + 1 in
  R !! dst = Some (1, false) → R !! lg = None → (size R < NBUF)%nat →
  ∃ b, install_one false tail s = Some ((), with_bio b s) ∧
    cache_inv b (delete dst R) (upd v dst (v lg)) ∧ disk b = <[dst := v lg]> (disk (lbio s)) ∧
    writes b = writes (lbio s) ++ [(dst, v lg)].
Proof.
  destruct s as [t b0 l]. unfold with_bio. simpl. intros Hc Hblk.
  set (lg := start l + Z.of_nat tail + 1). intros Hdst Hlg Hsz. unfold install_one, the_log.
  erewrite (bind_eq (gets _)) by reflexivity. simpl. rewrite Hblk. fold lg.
  assert (dst ≠ lg) as Hne by congruence.
  destruct (bread_spec _ _ _ Hc lg 0 (refs_small _ _ Hlg Hsz)) as (i & b1 & E1 & Hc1 & Hi1 & Hd1 & Hw1 & Hk1).
  rewrite (on_bio_eq _ _ _ _ _ _ _ E1).
  destruct (bread_spec _ _ _ Hc1 dst 1) as (j & b2 & E2 & Hc2 & Hj2 & Hd2 & Hw2 & Hk2).
  { apply refs_known; [by rewrite lookup_insert_ne|lia]. }
  rewrite (on_bio_eq _ _ _ _ _ _ _ E2), (on_bio_eq _ _ _ _ _ _ _ (get_data_spec _ _ _ Hc2 i lg (Hk2 _ _ Hi1))).
  destruct (set_data_spec _ _ _ Hc2 j dst 2 (v lg)) as (b3 & E3 & Hc3 & Hd3 & Hw3 & Hk3).
  { done. } { by rewrite lookup_insert_eq. }
  rewrite (on_bio_eq _ _ _ _ _ _ _ E3). fold (upd v dst (v lg)) in Hc3.
  destruct (bwrite_spec _ _ _ Hc3 j dst 2) as (b4 & E4 & Hc4 & Hd4 & Hw4 & Hk4).
  { by apply Hk3. } { by rewrite lookup_insert_eq. }
  rewrite (on_bio_eq _ _ _ _ _ _ _ E4). cbn [negb when].
  destruct (bunpin_spec _ _ _ Hc4 j dst 2 true) as (b5 & E5 & Hc5 & Hd5 & Hw5 & Hk5).
  { by apply Hk4, Hk3. } { by rewrite lookup_insert_eq. } { done. }
  rewrite (on_bio_eq _ _ _ _ _ _ _ E5). simpl in Hc5.
  destruct (brelse_spec _ _ _ Hc5 i lg 1) as (b6 & E6 & Hc6 & Hd6 & Hw6 & Hk6 & _).
  { by apply Hk5, Hk4, Hk3, Hk2. }
  { by rewrite !lookup_insert_ne, lookup_insert_eq by done. }
  { intros _. rewrite Hd5, Hd4, Hd3, Hd2, Hd1, view_upd_ne by done. unfold on_disk.
    rewrite lookup_insert_ne by done. by apply (ci_clean _ _ _ Hc). }
  rewrite (on_bio_eq _ _ _ _ _ _ _ E6).
  unfold with_refs in Hc6. simpl in Hc6. rewrite insert_insert_eq, <-insert_insert_ne, delete_insert_fresh in Hc6;
    [|by rewrite lookup_insert_ne|done].
  destruct (brelse_spec _ _ _ Hc6 j dst 1) as (b7 & E7 & Hc7 & Hd7 & Hw7 & _ & _).
  { by apply Hk6, Hk5, Hk4, Hk3. } { by rewrite lookup_insert_eq. }
  { intros _. rewrite Hd6, Hd5, Hd4, view_upd_eq. unfold on_disk. by rewrite lookup_insert_eq. }
  rewrite (on_bio_last _ _ _ _ _ _ E7). exists b7. split_and!; [done| | |].
  - unfold with_refs in Hc7. simpl in Hc7. by rewrite delete_insert_eq in Hc7.
  - rewrite Hd7, Hd6, Hd5, Hd4, Hd3, Hd2, Hd1, view_upd_eq. done.
  - rewrite Hw7, Hw6, Hw5, Hw4, Hw3, Hw2, Hw1, view_upd_eq. done.
Qed.

(** The same turn in a recovery, where nothing is pinned. *)
Lemma recover_one_spec s R v tail dst :
  cache_inv (lbio s) R v → lh_block (llog s) !! tail = Some dst →
  let lg := start (llog s) + Z.of_nat tail + 1 in
  R !! dst = None → R !! lg = None → dst ≠ lg → (Datatypes.S (size R) < NBUF)%nat →
  ∃ b, install_one true tail s = Some ((), with_bio b s) ∧
    cache_inv b R (upd v dst (v lg)) ∧ disk b = <[dst := v lg]> (disk (lbio s)) ∧
    writes b = writes (lbio s) ++ [(dst, v lg)].
Proof.
  destruct s as [t b0 l]. unfold with_bio. simpl. intros Hc Hblk.
  set (lg := start l + Z.of_nat tail + 1). intros Hdst Hlg Hne Hsz. unfold install_one, the_log.
  erewrite (bind_eq (gets _)) by reflexivity. simpl. rewrite Hblk. fold lg.
  destruct (bread_spec _ _ _ Hc lg 0 (refs_small _ _ Hlg ltac:(lia))) as (i & b1 & E1 & Hc1 & Hi1 & Hd1 & Hw1 & Hk1).
  rewrite (on_bio_eq _ _ _ _ _ _ _ E1).
  destruct (bread_spec _ _ _ Hc1 dst 0) as (j & b2 & E2 & Hc2 & Hj2 & Hd2 & Hw2 & Hk2).
  { apply refs_small; [by rewrite lookup_insert_ne|]. rewrite map_size_insert_None by done. done. }
  rewrite (on_bio_eq _ _ _ _ _ _ _ E2), (on_bio_eq _ _ _ _ _ _ _ (get_data_spec _ _ _ Hc2 i lg (Hk2 _ _ Hi1))).
  destruct (set_data_spec _ _ _ Hc2 j dst 1 (v lg)) as (b3 & E3 & Hc3 & Hd3 & Hw3 & Hk3).
  { done. } { by rewrite lookup_insert_eq. }
  rewrite (on_bio_eq _ _ _ _ _ _ _ E3). fold (upd v dst (v lg)) in Hc3.
  destruct (bwrite_spec _ _ _ Hc3 j dst 1) as (b4 & E4 & Hc4 & Hd4 & Hw4 & Hk4).
  { by apply Hk3. } { by rewrite lookup_insert_eq. }
  rewrite (on_bio_eq _ _ _ _ _ _ _ E4). cbn [negb when].
  erewrite (bind_eq (mret ())) by reflexivity.
  destruct (brelse_spec _ _ _ Hc4 i lg 1) as (b6 & E6 & Hc6 & Hd6 & Hw6 & Hk6 & _).
  { by apply Hk4, Hk3, Hk2. }
  { by rewrite !lookup_insert_ne, lookup_insert_eq by done. }
  { intros _. rewrite Hd4, Hd3, Hd2, Hd1, view_upd_ne by done. unfold on_disk.
    rewrite lookup_insert_ne by done. by apply (ci_clean _ _ _ Hc). }
  rewrite (on_bio_eq _ _ _ _ _ _ _ E6).
  unfold with_refs in Hc6. simpl in Hc6. rewrite <-insert_insert_ne, delete_insert_fresh in Hc6;
    [|by rewrite lookup_insert_ne|done].
  destruct (brelse_spec _ _ _ Hc6 j dst 1) as (b7 & E7 & Hc7 & Hd7 & Hw7 & _ & _).
  { by apply Hk6, Hk4, Hk3. } { by rewrite lookup_insert_eq. }
  { intros _. rewrite Hd6, Hd4, view_upd_eq. unfold on_disk. by rewrite lookup_insert_eq. }
  rewrite (on_bio_last _ _ _ _ _ _ E7). exists b7. split_and!; [done| | |].
  - unfold with_refs in Hc7. simpl in Hc7. by rewrite delete_insert_fresh in Hc7.
  - rewrite Hd7, Hd6, Hd4, Hd3, Hd2, Hd1, view_upd_eq. done.
  - rewrite Hw7, Hw6, Hw4, Hw3, Hw2, Hw1, view_upd_eq. done.
Qed.

Lemma write_head_spec s R v :
  cache_inv (lbio s) R v →
  let st := start (llog s) in
  let h := put_head (lh_n (llog s)) (lh_block (llog s)) (v st) in
  R !! st = None → (size R < NBUF)%nat →
  ∃ b, write_head s = Some ((), with_bio b s) ∧ cache_inv b R (upd v st h) ∧
    disk b = <[st := h]> (disk (lbio s)) ∧ writes b = writes (lbio s) ++ [(st, h)].
Proof.
  destruct s as [t b0 l]. unfold with_bio. simpl. intros Hc. set (st := start l).
  intros Hst Hsz. unfold write_head, the_log. erewrite (bind_eq (gets _)) by reflexivity. simpl. fold st.
  destruct (bread_spec _ _ _ Hc st 0 (refs_small _ _ Hst Hsz)) as (i & b1 & E1 & Hc1 & Hi1 & Hd1 & Hw1 & Hk1).
  rewrite (on_bio_eq _ _ _ _ _ _ _ E1), (on_bio_eq _ _ _ _ _ _ _ (get_data_spec _ _ _ Hc1 i st Hi1)).
  set (h := put_head _ _ _).
  destruct (set_data_spec _ _ _ Hc1 i st 1 h) as (b3 & E3 & Hc3 & Hd3 & Hw3 & Hk3).
  { done. } { by rewrite lookup_insert_eq. }
  rewrite (on_bio_eq _ _ _ _ _ _ _ E3). fold (upd v st h) in Hc3.
  destruct (bwrite_spec _ _ _ Hc3 i st 1) as (b4 & E4 & Hc4 & Hd4 & Hw4 & Hk4).
  { by apply Hk3. } { by rewrite lookup_insert_eq. }
  rewrite (on_bio_eq _ _ _ _ _ _ _ E4).
  destruct (brelse_spec _ _ _ Hc4 i st 1) as (b5 & E5 & Hc5 & Hd5 & Hw5 & _ & _).
  { by apply Hk4, Hk3. } { by rewrite lookup_insert_eq. }
  { intros _. rewrite Hd4, view_upd_eq. unfold on_disk. by rewrite lookup_insert_eq. }
  rewrite (on_bio_last _ _ _ _ _ _ E5). exists b5. split_and!; [done| | |].
  - unfold with_refs in Hc5. simpl in Hc5. by rewrite delete_insert_fresh in Hc5.
  - by rewrite Hd5, Hd4, Hd3, Hd1, view_upd_eq.
  - by rewrite Hw5, Hw4, Hw3, Hw1, view_upd_eq.
Qed.

Lemma read_head_spec s R v :
  cache_inv (lbio s) R v →
  let st := start (llog s) in
  let n := get_int 0 (v st) in
  R !! st = None → (size R < NBUF)%nat → n ≤ LOGBLOCKS →
  ∃ b, read_head s = Some ((), mkLworld (ltable s) b (set_lh n (get_ints 4 (Z.to_nat n) (v st) ++
      drop (Z.to_nat n) (lh_block (llog s))) (llog s))) ∧
    cache_inv b R v ∧ disk b = disk (lbio s) ∧ writes b = writes (lbio s).
Proof.
  destruct s as [t b0 l]. simpl. intros Hc. set (st := start l). set (n := get_int 0 (v st)).
  intros Hst Hsz Hn. unfold read_head, the_log. erewrite (bind_eq (gets _)) by reflexivity. simpl. fold st.
  destruct (bread_spec _ _ _ Hc st 0 (refs_small _ _ Hst Hsz)) as (i & b1 & E1 & Hc1 & Hi1 & Hd1 & Hw1 & Hk1).
  rewrite (on_bio_eq _ _ _ _ _ _ _ E1), (on_bio_eq _ _ _ _ _ _ _ (get_data_spec _ _ _ Hc1 i st Hi1)).
  fold n. rewrite (proj2 (Z.ltb_ge _ _) Hn). erewrite (bind_eq (set_log _)) by reflexivity. simpl.
  destruct (brelse_spec _ _ _ Hc1 i st 1) as (b5 & E5 & Hc5 & Hd5 & Hw5 & _ & _).
  { done. } { by rewrite lookup_insert_eq. }
  { intros _. rewrite Hd1. by apply (ci_clean _ _ _ Hc). }
  rewrite (on_bio_last _ _ _ _ _ _ E5). exists b5. split_and!; [done| |congruence|congruence].
  unfold with_refs in Hc5. simpl in Hc5. by rewrite delete_insert_fresh in Hc5.
Qed.
End turns.

(** ** Sequences of writes *)

Definition apply_writes (ws : list (Z * block)) (d : gmap Z block) : gmap Z block :=
  foldl (λ d w, <[w.1 := w.2]> d) d ws.
Definition apply_view (ws : list (Z * block)) (v : Z → block) : Z → block :=
  foldl (λ v w, upd v w.1 w.2) v ws.

Lemma apply_view_cons w ws v : apply_view (w :: ws) v = apply_view ws (upd v w.1 w.2).
Proof. done. Qed.

#[export] Instance apply_view_proper ws :
  Proper (pointwise_relation Z (=) ==> pointwise_relation Z (=)) (apply_view ws).
Proof.
  induction ws as [|w ws IH]; intros v v' E; [exact E|]. apply IH. intros m. unfold upd.
  case_decide; [done|apply E].
Qed.

Lemma apply_view_notin ws v b : b ∉ ws.*1 → apply_view ws v b = v b.
Proof.
  revert v; induction ws as [|w ws IH]; intros v Hb; [done|]. rewrite fmap_cons in Hb.
  apply not_elem_of_cons in Hb as [? ?]. rewrite apply_view_cons, IH, view_upd_ne by done. done.
Qed.

(** The value of a block that is written does not depend on what was there. *)
Lemma apply_view_in ws v v' b : b ∈ ws.*1 → apply_view ws v b = apply_view ws v' b.
Proof.
  revert v v'; induction ws as [|w ws IH]; intros v v' Hb; [by apply elem_of_nil in Hb|].
  rewrite !apply_view_cons. destruct (decide (b ∈ ws.*1)) as [?|Hn]; [by apply IH|].
  rewrite !apply_view_notin by done. rewrite fmap_cons in Hb.
  apply elem_of_cons in Hb as [->|?]; [by rewrite !view_upd_eq|done].
Qed.

Lemma apply_view_elem ws v b d : (b, d) ∈ ws → NoDup (ws.*1) → apply_view ws v b = d.
Proof.
  revert v; induction ws as [|w ws IH]; intros v Hb Hnd; [by apply elem_of_nil in Hb|].
  rewrite fmap_cons in Hnd. apply NoDup_cons in Hnd as [Hw Hnd]. rewrite apply_view_cons.
  apply elem_of_cons in Hb as [<-|Hb]; [|by apply IH].
  rewrite apply_view_notin by done. apply view_upd_eq.
Qed.

Lemma on_disk_writes ws d b : on_disk (apply_writes ws d) b = apply_view ws (on_disk d) b.
Proof.
  revert d; induction ws as [|w ws IH]; intros d; [done|].
  change (apply_writes (w :: ws) d) with (apply_writes ws (<[w.1 := w.2]> d)). rewrite IH, apply_view_cons.
  assert (pointwise_relation Z (=) (on_disk (<[w.1 := w.2]> d)) (upd (on_disk d) w.1 w.2)) as E.
  { intros m. unfold on_disk, upd. case_decide; [subst; by rewrite lookup_insert_eq|by rewrite lookup_insert_ne]. }
  by rewrite (apply_view_proper ws _ _ E b).
Qed.

(** Replaying a list of writes after a part of it was already done. *)
Lemma apply_view_again ps ws v b :
  (∀ x, x ∈ ps.*1 → x ∈ ws.*1) → apply_view ws (apply_view ps v) b = apply_view ws v b.
Proof.
  intros Hsub. destruct (decide (b ∈ ws.*1)) as [?|Hn]; [by apply apply_view_in|].
  rewrite !apply_view_notin; auto.
Qed.

(** What [write_log] writes, with the log blocks from [k] on, and what
    [install_trans] writes. *)
Fixpoint log_entries (k : Z) (bs : list Z) (v : Z → block) : list (Z * block) :=
  match bs with [] => [] | b :: bs' => (k, v b) :: log_entries (k + 1) bs' v end.
Fixpoint home_entries (k : Z) (bs : list Z) (v : Z → block) : list (Z * block) :=
  match bs with [] => [] | b :: bs' => (b, v k) :: home_entries (k + 1) bs' v end.

Lemma log_entries_keys k bs v b : b ∈ (log_entries k bs v).*1 ↔ k ≤ b < k + Z.of_nat (length bs).
Proof.
  revert k; induction bs as [|x bs IH]; intros k; simpl.
  - split; [by intros ?%elem_of_nil|lia].
  - rewrite elem_of_cons, IH. lia.
Qed.
Lemma home_entries_keys k bs v : (home_entries k bs v).*1 = bs.
Proof. revert k; induction bs as [|x bs IH]; intros k; simpl; [done|]. by rewrite IH. Qed.

Lemma log_entries_length k bs v : length (log_entries k bs v) = length bs.
Proof. revert k; induction bs as [|x bs IH]; intros k; simpl; [done|]. by rewrite IH. Qed.
Lemma home_entries_length k bs v : length (home_entries k bs v) = length bs.
Proof. revert k; induction bs as [|x bs IH]; intros k; simpl; [done|]. by rewrite IH. Qed.

Lemma log_entries_ext k bs v v' : Forall (λ b, v b = v' b) bs → log_entries k bs v = log_entries k bs v'.
Proof. intros Hb. revert k; induction Hb as [|x bs Hx _ IH]; intros k; simpl; [done|]. by rewrite Hx, IH. Qed.
Lemma home_entries_ext k bs v v' :
  (∀ j, k ≤ j < k + Z.of_nat (length bs) → v j = v' j) → home_entries k bs v = home_entries k bs v'.
Proof.
  revert k; induction bs as [|x bs IH]; intros k Hv; [done|]. simpl in *.
  rewrite (Hv k) by lia. f_equal. apply IH. intros. apply Hv. lia.
Qed.

(** Blocks that were logged are found in the log. *)
Lemma home_of_log k bs v :
  (∀ b, b ∈ bs → b < k ∨ k + Z.of_nat (length bs) ≤ b) →
  home_entries k bs (apply_view (log_entries k bs v) v) = (λ b, (b, v b)) <$> bs.
Proof.
  revert k v; induction bs as [|x bs IH]; intros k v Hb; [done|].
  cbn [log_entries home_entries fmap list_fmap]. rewrite apply_view_cons. cbn [fst snd].
  assert (k ∉ (log_entries (k + 1) bs v).*1) as Hk by (rewrite log_entries_keys; lia).
  rewrite apply_view_notin, view_upd_eq by done. f_equal.
  assert (Forall (λ b, v b = upd v k (v x) b) bs) as Hext.
  { apply Forall_forall. intros b Hin. rewrite view_upd_ne; [done|]. specialize (Hb b). simpl in Hb.
    destruct Hb as [?|?]; [by right|lia|lia]. }
  rewrite (log_entries_ext _ _ _ _ Hext), IH.
  - apply list_fmap_ext. intros i b Hi%list_elem_of_lookup_2. f_equal. symmetry.
    by rewrite Forall_forall in Hext; apply Hext.
  - intros b Hin. specialize (Hb b). simpl in Hb. destruct Hb as [?|?]; [by right| |]; lia.
Qed.

Section loops.
Context {S : Type} `{SleepChan S}.
Implicit Types (s : lworld S).

Lemma with_bio_twice b b' s : with_bio b' (with_bio b s) = with_bio b' s.
Proof. done. Qed.

Lemma write_log_loop s R v k bs :
  cache_inv (lbio s) R v → (size R < NBUF)%nat →
  (∀ i src, bs !! i = Some src → lh_block (llog s) !! (k + i)%nat = Some src ∧ R !! src = Some (1, false)) →
  (∀ i, (i < length bs)%nat → R !! (start (llog s) + Z.of_nat (k + i) + 1) = None) →
  let ws := log_entries (start (llog s) + Z.of_nat k + 1) bs v in
  ∃ b, mfor (seq k (length bs)) write_log_one s = Some ((), with_bio b s) ∧
    cache_inv b R (apply_view ws v) ∧ disk b = apply_writes ws (disk (lbio s)) ∧
    writes b = writes (lbio s) ++ ws.
Proof.
  revert s v k; induction bs as [|src bs IH]; intros s v k Hc Hsz Hsrc Hlog ws.
  { exists (lbio s). split_and!; [by destruct s|done|done|by rewrite app_nil_r]. }
  destruct (Hsrc 0%nat src eq_refl) as [Hblk HR]. replace (k + 0)%nat with k in Hblk by lia.
  pose proof (Hlog 0%nat ltac:(simpl; lia)) as Hto. replace (k + 0)%nat with k in Hto by lia.
  destruct (write_log_one_spec s R v k src Hc Hblk HR Hto Hsz) as (b1 & E1 & Hc1 & Hd1 & Hw1).
  cbn [mfor seq length]. rewrite (bind_eq _ _ _ _ _ E1).
  destruct (IH (with_bio b1 s) _ (Datatypes.S k) Hc1 Hsz) as (b2 & E2 & Hc2 & Hd2 & Hw2).
  { intros i x Hi. replace (Datatypes.S k + i)%nat with (k + Datatypes.S i)%nat by lia. by apply Hsrc. }
  { intros i Hi. replace (Datatypes.S k + i)%nat with (k + Datatypes.S i)%nat by lia. apply Hlog. simpl. lia. }
  rewrite E2. exists b2. unfold ws. cbn [log_entries]. cbn [with_bio llog lbio] in *.
  replace (start (llog s) + Z.of_nat (Datatypes.S k) + 1) with (start (llog s) + Z.of_nat k + 1 + 1) in * by lia.
  assert (Forall (λ b, v b = upd v (start (llog s) + Z.of_nat k + 1) (v src) b) bs) as Hext.
  { apply Forall_forall. intros x [i Hi]%list_elem_of_lookup. rewrite view_upd_ne; [done|].
    destruct (Hsrc (Datatypes.S i) x Hi) as [_ ?]. congruence. }
  rewrite <-(log_entries_ext _ _ v) in Hc2, Hd2, Hw2 by exact Hext.
  rewrite apply_view_cons. split_and!; [done|done|by rewrite Hd2, Hd1|by rewrite Hw2, Hw1, <-app_assoc].
Qed.

(** The blocks of [bs] are released. *)
Definition released (R : refs) (bs : list Z) : refs := foldl (λ R b, delete b R) R bs.

Lemma released_lookup R bs b : released R bs !! b = if decide (b ∈ bs) then None else R !! b.
Proof.
  revert R; induction bs as [|x bs IH]; intros R.
  { rewrite decide_False; [done|]. by intros ?%elem_of_nil. }
  simpl. unfold released in IH. rewrite IH. destruct (decide (b = x)) as [->|Hne].
  - rewrite lookup_delete_eq, (decide_True (P := x ∈ x :: bs)) by (by left). by case_decide.
  - rewrite lookup_delete_ne by done. rewrite (decide_ext (b ∈ bs) (b ∈ x :: bs)); [done|].
    rewrite elem_of_cons. naive_solver.
Qed.

Lemma install_loop s R v k bs :
  cache_inv (lbio s) R v → (size R < NBUF)%nat → NoDup bs →
  (∀ i dst, bs !! i = Some dst → lh_block (llog s) !! (k + i)%nat = Some dst ∧ R !! dst = Some (1, false)) →
  (∀ i, (i < length bs)%nat → R !! (start (llog s) + Z.of_nat (k + i) + 1) = None) →
  let ws := home_entries (start (llog s) + Z.of_nat k + 1) bs v in
  ∃ b, mfor (seq k (length bs)) (install_one false) s = Some ((), with_bio b s) ∧
    cache_inv b (released R bs) (apply_view ws v) ∧ disk b = apply_writes ws (disk (lbio s)) ∧
    writes b = writes (lbio s) ++ ws.
Proof.
  revert s R v k; induction bs as [|dst bs IH]; intros s R v k Hc Hsz Hnd Hdst Hlog ws.
  { exists (lbio s). split_and!; [by destruct s|done|done|by rewrite app_nil_r]. }
  apply NoDup_cons in Hnd as [Hnin Hnd].
  destruct (Hdst 0%nat dst eq_refl) as [Hblk HR]. replace (k + 0)%nat with k in Hblk by lia.
  pose proof (Hlog 0%nat ltac:(simpl; lia)) as Hto. replace (k + 0)%nat with k in Hto by lia.
  destruct (install_one_spec s R v k dst Hc Hblk HR Hto Hsz) as (b1 & E1 & Hc1 & Hd1 & Hw1).
  cbn [mfor seq length]. rewrite (bind_eq _ _ _ _ _ E1).
  destruct (IH (with_bio b1 s) _ _ (Datatypes.S k) Hc1) as (b2 & E2 & Hc2 & Hd2 & Hw2); [|done|..].
  { rewrite map_size_delete, HR. lia. }
  { intros i x Hi. replace (Datatypes.S k + i)%nat with (k + Datatypes.S i)%nat by lia.
    destruct (Hdst (Datatypes.S i) x Hi) as [? ?]. split; [done|]. rewrite lookup_delete_ne; [done|].
    intros ->. by apply list_elem_of_lookup_2 in Hi. }
  { intros i Hi. replace (Datatypes.S k + i)%nat with (k + Datatypes.S i)%nat by lia.
    apply lookup_delete_None. right. apply Hlog. simpl. lia. }
  rewrite E2. exists b2. unfold ws. cbn [home_entries]. cbn [with_bio llog lbio] in *.
  replace (start (llog s) + Z.of_nat (Datatypes.S k) + 1) with (start (llog s) + Z.of_nat k + 1 + 1) in * by lia.
  assert (∀ j, start (llog s) + Z.of_nat k + 1 + 1 ≤ j < start (llog s) + Z.of_nat k + 1 + 1 + Z.of_nat (length bs) →
    v j = upd v dst (v (start (llog s) + Z.of_nat k + 1)) j) as Hext.
  { intros j Hj. rewrite view_upd_ne; [done|]. intros ->.
    pose proof (Hlog (Z.to_nat (dst - start (llog s) - Z.of_nat k - 1)) ltac:(simpl; lia)) as E.
    replace (start (llog s) + _ + 1) with dst in E by lia. congruence. }
  rewrite <-(home_entries_ext _ _ v) in Hc2, Hd2, Hw2 by exact Hext.
  rewrite apply_view_cons. split_and!; [done|done|by rewrite Hd2, Hd1|by rewrite Hw2, Hw1, <-app_assoc].
Qed.

Lemma recover_loop s v k bs :
  cache_inv (lbio s) ∅ v →
  (∀ i dst, bs !! i = Some dst → lh_block (llog s) !! (k + i)%nat = Some dst) →
  (∀ j dst, (j < length bs)%nat → dst ∈ bs → dst ≠ start (llog s) + Z.of_nat (k + j) + 1) →
  let ws := home_entries (start (llog s) + Z.of_nat k + 1) bs v in
  ∃ b, mfor (seq k (length bs)) (install_one true) s = Some ((), with_bio b s) ∧
    cache_inv b ∅ (apply_view ws v) ∧ disk b = apply_writes ws (disk (lbio s)) ∧
    writes b = writes (lbio s) ++ ws.
Proof.
  revert s v k; induction bs as [|dst bs IH]; intros s v k Hc Hdst Hlog ws.
  { exists (lbio s). split_and!; [by destruct s|done|done|by rewrite app_nil_r]. }
  pose proof (Hdst 0%nat dst eq_refl) as Hblk. replace (k + 0)%nat with k in Hblk by lia.
  destruct (recover_one_spec s ∅ v k dst Hc Hblk) as (b1 & E1 & Hc1 & Hd1 & Hw1);
    [done|done| |rewrite map_size_empty; unfold NBUF; lia|].
  { pose proof (Hlog 0%nat dst ltac:(simpl; lia) ltac:(by left)) as Hx. by replace (k + 0)%nat with k in Hx by lia. }
  cbn [mfor seq length]. rewrite (bind_eq _ _ _ _ _ E1).
  destruct (IH (with_bio b1 s) _ (Datatypes.S k) Hc1) as (b2 & E2 & Hc2 & Hd2 & Hw2).
  { intros i x Hi. replace (Datatypes.S k + i)%nat with (k + Datatypes.S i)%nat by lia. by apply Hdst. }
  { intros i x Hi Hx. replace (Datatypes.S k + i)%nat with (k + Datatypes.S i)%nat by lia.
    apply Hlog; [simpl; lia|by right]. }
  rewrite E2. exists b2. unfold ws. cbn [home_entries]. cbn [with_bio llog lbio] in *.
  replace (start (llog s) + Z.of_nat (Datatypes.S k) + 1) with (start (llog s) + Z.of_nat k + 1 + 1) in * by lia.
  assert (∀ j, start (llog s) + Z.of_nat k + 1 + 1 ≤ j < start (llog s) + Z.of_nat k + 1 + 1 + Z.of_nat (length bs) →
    v j = upd v dst (v (start (llog s) + Z.of_nat k + 1)) j) as Hext.
  { intros j Hj. rewrite view_upd_ne; [done|]. intros ->.
    apply (Hlog (Z.to_nat (dst - start (llog s) - Z.of_nat k - 1)) dst); [simpl; lia|by left|lia]. }
  rewrite <-(home_entries_ext _ _ v) in Hc2, Hd2, Hw2 by exact Hext.
  rewrite apply_view_cons. split_and!; [done|done|by rewrite Hd2, Hd1|by rewrite Hw2, Hw1, <-app_assoc].
Qed.
End loops.
