(* ===== verification/LogCrash.v ===== *)
(** Crash safety of the log: what the disk means at every moment, and that
    commits and recoveries, interrupted anywhere, keep it. *)
From S2P Require Import Prelude Kalloc Proc ProcSync Bio Log LogSpec.

Section crash.
(** The first block of the log area. *)
Context (st : Z).

(** Blocks outside the log area. *)
Definition home (b : Z) : Prop := ¬ (st ≤ b ≤ st + LOGBLOCKS).

(** What a disk stands for: its blocks with the committed log replayed. *)
Definition head_n (d : gmap Z block) : Z := get_int 0 (on_disk d st).
Definition head_blocks (d : gmap Z block) : list Z := get_ints 4 (Z.to_nat (head_n d)) (on_disk d st).
Definition replay (d : gmap Z block) : list (Z * block) := home_entries (st + 1) (head_blocks d) (on_disk d).
Record disk_repr (d : gmap Z block) (W : Z → block) : Prop := {
  dr_len : ∀ b, length (on_disk d b) = BSIZE;
  dr_n : 0 ≤ head_n d ≤ LOGBLOCKS;
  dr_home : Forall home (head_blocks d);
  dr_view : ∀ b, home b → W b = apply_view (replay d) (on_disk d) b;
}.

Lemma get_ints_length off k d : length (get_ints off k d) = k.
Proof. unfold get_ints. by rewrite length_fmap, length_seq. Qed.
Lemma head_blocks_length d : length (head_blocks d) = Z.to_nat (head_n d).
Proof. apply get_ints_length. Qed.
Lemma get_ints_is_int off k d : Forall is_int (get_ints off k d).
Proof. apply Forall_fmap, Forall_true. intros i. apply int32_range. Qed.

Lemma home_not_log b k : home b → 0 ≤ k ≤ LOGBLOCKS → b ≠ st + k.
Proof. unfold home. lia. Qed.

Lemma st_not_home : ¬ home st.
Proof. unfold home, LOGBLOCKS, MAXOPBLOCKS. lia. Qed.

(** Values of the entries have the length of a block. *)
Lemma apply_view_length ws v b :
  (∀ n, length (v n) = BSIZE) → Forall (λ w, length w.2 = BSIZE) ws → length (apply_view ws v b) = BSIZE.
Proof.
  intros Hv Hws. revert v Hv. induction Hws as [|w ws Hw _ IH]; intros v Hv; [done|].
  rewrite apply_view_cons. apply IH. intros n. unfold upd. by case_decide.
Qed.
Lemma log_entries_block k bs v :
  (∀ n, length (v n) = BSIZE) → Forall (λ w, length w.2 = BSIZE) (log_entries k bs v).
Proof. intros Hv. revert k; induction bs as [|x bs IH]; intros k; constructor; [apply Hv|apply IH]. Qed.
Lemma home_entries_block k bs v :
  (∀ n, length (v n) = BSIZE) → Forall (λ w, length w.2 = BSIZE) (home_entries k bs v).
Proof. intros Hv. revert k; induction bs as [|x bs IH]; intros k; constructor; [apply Hv|apply IH]. Qed.

Lemma disk_len_writes ws d :
  (∀ b, length (on_disk d b) = BSIZE) → Forall (λ w, length w.2 = BSIZE) ws →
  ∀ b, length (on_disk (apply_writes ws d) b) = BSIZE.
Proof. intros Hd Hws b. rewrite on_disk_writes. by apply apply_view_length. Qed.

(** Writes outside the header and the log leave both alone. *)
Lemma replay_same ws d :
  head_n d ≤ LOGBLOCKS → Forall home ws.*1 →
  head_n (apply_writes ws d) = head_n d ∧ head_blocks (apply_writes ws d) = head_blocks d ∧
  replay (apply_writes ws d) = replay d.
Proof.
  intros Hn Hws.
  assert (∀ k, 0 ≤ k ≤ LOGBLOCKS → on_disk (apply_writes ws d) (st + k) = on_disk d (st + k)) as E.
  { intros k Hk. rewrite on_disk_writes. apply apply_view_notin. intros Hin.
    rewrite Forall_forall in Hws. by apply (home_not_log (st + k) k (Hws _ Hin)). }
  assert (head_n (apply_writes ws d) = head_n d) as En.
  { unfold head_n. rewrite <-(Z.add_0_r st), E; [done|]. unfold LOGBLOCKS, MAXOPBLOCKS. lia. }
  assert (head_blocks (apply_writes ws d) = head_blocks d) as Eb.
  { unfold head_blocks. rewrite En, <-(Z.add_0_r st), E; [done|]. unfold LOGBLOCKS, MAXOPBLOCKS. lia. }
  split_and!; [done|done|]. unfold replay. rewrite Eb. apply home_entries_ext. intros j Hj.
  rewrite head_blocks_length in Hj. replace j with (st + (j - st)) by lia. apply E. lia.
Qed.

(** A recovery or a commit interrupted while it installs the blocks. *)
Lemma repr_installing d W k :
  disk_repr d W → disk_repr (apply_writes (take k (replay d)) d) W.
Proof.
  intros [Hlen Hn Hhome Hview].
  assert (∀ x, x ∈ (take k (replay d)).*1 → x ∈ (replay d).*1) as Hsub.
  { intros x. rewrite fmap_take. intros (i & Hx & _)%elem_of_take. by eapply list_elem_of_lookup_2. }
  destruct (replay_same (take k (replay d)) d) as (E1 & E2 & E3); [lia| |].
  { apply Forall_forall. intros x Hx%Hsub. unfold replay in Hx. rewrite home_entries_keys in Hx.
    by rewrite Forall_forall in Hhome; apply Hhome. }
  split; [|by rewrite E1|by rewrite E2|].
  - apply disk_len_writes; [done|]. apply Forall_take, home_entries_block, Hlen.
  - intros b Hb. rewrite E3, (Hview b Hb).
    rewrite (apply_view_proper (replay d) (on_disk (apply_writes (take k (replay d)) d))
      (apply_view (take k (replay d)) (on_disk d))) by (intros n; apply on_disk_writes).
    symmetry. by apply apply_view_again.
Qed.

(** A disk whose header is clear stands for its blocks. *)
Lemma repr_clear d :
  (∀ b, length (on_disk d b) = BSIZE) → head_n d = 0 → disk_repr d (on_disk d).
Proof.
  intros Hlen Hn. split; [done|unfold LOGBLOCKS, MAXOPBLOCKS; lia|..].
  - unfold head_blocks. rewrite Hn. constructor.
  - intros b _. unfold replay, head_blocks. by rewrite Hn.
Qed.

Lemma on_disk_snoc ws n h d b :
  on_disk (apply_writes (ws ++ [(n, h)]) d) b = upd (apply_view ws (on_disk d)) n h b.
Proof. rewrite on_disk_writes. unfold apply_view. by rewrite foldl_app. Qed.

(** Writing a clear header after all blocks were installed. *)
Lemma repr_cleared d W bs :
  disk_repr d W → length bs = Z.to_nat LOGBLOCKS → Forall is_int bs →
  disk_repr (apply_writes (replay d ++ [(st, put_head 0 bs (on_disk d st))]) d) W ∧
  head_n (apply_writes (replay d ++ [(st, put_head 0 bs (on_disk d st))]) d) = 0 ∧
  ∀ b, home b → on_disk (apply_writes (replay d ++ [(st, put_head 0 bs (on_disk d st))]) d) b = W b.
Proof.
  intros [Hlen Hn Hhome Hview] Hbs Hint. set (h := put_head 0 bs (on_disk d st)).
  destruct (put_head_spec 0 bs (on_disk d st)) as (Hhl & Hh0 & _);
    [unfold LOGBLOCKS, MAXOPBLOCKS; lia|done|done|done|]. fold h in Hhl, Hh0.
  set (d' := apply_writes (replay d ++ [(st, h)]) d).
  assert (∀ b, on_disk d' b = upd (apply_view (replay d) (on_disk d)) st h b) as Ed.
  { intros b. apply on_disk_snoc. }
  assert (∀ b, home b → on_disk d' b = W b) as EW.
  { intros b Hb. rewrite Ed, view_upd_ne; [by rewrite Hview|]. intros ->. by apply st_not_home. }
  assert (head_n d' = 0) as En by (unfold head_n; by rewrite Ed, view_upd_eq).
  split_and!; [|done|done]. destruct (repr_clear d') as [H1 H2 H3 H4]; [|done|].
  { apply disk_len_writes; [done|]. apply Forall_app. split; [apply home_entries_block, Hlen|by repeat constructor]. }
  split; [done|done|done|]. intros b Hb. by rewrite <-H4, EW.
Qed.

Context {S : Type} `{SleepChan S}.
Implicit Types (s : lworld S).

(** The blocks of the current transaction. *)
Definition in_trans (l : log) : list Z := take (Z.to_nat (lh_n l)) (lh_block l).

(** Between two calls: [V] is what a crash would leave, [W] what the kernel
    sees. *)
Record log_inv s (R : refs) (v V W : Z → block) : Prop := {
  li_cache : cache_inv (lbio s) R v;
  li_start : start (llog s) = st;
  li_n : 0 ≤ lh_n (llog s) ≤ LOGBLOCKS;
  li_arr : length (lh_block (llog s)) = Z.to_nat LOGBLOCKS;
  li_int : Forall is_int (lh_block (llog s));
  li_nodup : NoDup (in_trans (llog s));
  li_home : Forall home (in_trans (llog s));
  li_refs : ∀ b, R !! b = if decide (b ∈ in_trans (llog s)) then Some (1, false) else None;
  li_len : ∀ b, length (v b) = BSIZE;
  li_dlen : ∀ b, length (on_disk (disk (lbio s)) b) = BSIZE;
  li_clear : head_n (disk (lbio s)) = 0;
  li_V : ∀ b, home b → V b = on_disk (disk (lbio s)) b;
  li_W : ∀ b, home b → W b = v b;
  li_out : 0 ≤ outstanding (llog s);
}.
Definition log_ok s V W : Prop := ∃ R v, log_inv s R v V W.

Lemma binit_inv d t l :
  let s := mkLworld (S := S) t (mkBworld (replicate NBUF empty_buf) (reverse (seq 0 NBUF)) d []) l in
  cache_inv (lbio s) ∅ (on_disk d).
Proof.
  assert (∀ i b, replicate NBUF empty_buf !! i = Some b → b = empty_buf) as E
    by (intros i b [-> _]%lookup_replicate; done).
  split; cbn [lbio bufs lru disk].
  - apply length_replicate.
  - apply reverse_Permutation.
  - intros i b ->%E. cbn. lia.
  - intros i b ->%E. cbn. lia.
  - intros n c l0. by rewrite lookup_empty.
  - intros i b ->%E. done.
  - intros i j b b' n ->%E _ [? _]. done.
  - intros i b n ->%E [? _]. done.
  - done.
  - done.
Qed.

(** Recovery, from the state right after [binit]. *)
Lemma recover_spec d W t :
  disk_repr d W →
  ∃ s', reboot st d t = Some ((), s') ∧ log_ok s' W W ∧ lh_n (llog s') = 0 ∧ outstanding (llog s') = 0 ∧
    committing (llog s') = false ∧ ltable s' = t ∧ disk (lbio s') = apply_writes (writes (lbio s')) d ∧
    ∀ k, disk_repr (apply_writes (take k (writes (lbio s'))) d) W.
Proof.
  intros Hd. pose proof Hd as [Hlen Hn Hhome Hview]. unfold reboot.
  set (l0 := mkLog 0 0 false 0 0 (replicate (Z.to_nat LOGBLOCKS) 0)).
  pose proof (binit_inv d t (set_start st l0)) as Hc0. simpl in Hc0.
  set (b0 := mkBworld (replicate NBUF empty_buf) (reverse (seq 0 NBUF)) d []) in *.
  erewrite (bind_eq (on_bio binit)) by reflexivity. unfold initlog.
  erewrite (bind_eq (set_log _)) by reflexivity. cbn [ltable lbio llog].
  destruct (read_head_spec (mkLworld t b0 (set_start st l0)) ∅ (on_disk d)) as (b1 & E1 & Hc1 & Hd1 & Hw1);
    [done|done|by rewrite map_size_empty; unfold NBUF; lia|exact (proj2 Hn)|].
  set (bs := head_blocks d ++ drop (Z.to_nat (head_n d)) (replicate (Z.to_nat LOGBLOCKS) 0)).
  set (l1 := set_lh (head_n d) bs (set_start st l0)).
  change (read_head (mkLworld t b0 (set_start st l0)) = Some ((), mkLworld t b1 l1)) in E1.
  assert (length bs = Z.to_nat LOGBLOCKS) as Hbl.
  { unfold bs. rewrite length_app, head_blocks_length, length_drop, length_replicate. lia. }
  assert (Forall is_int bs) as Hbi.
  { apply Forall_app. split; [apply get_ints_is_int|]. apply Forall_drop, Forall_replicate. unfold is_int. lia. }
  destruct (recover_loop (mkLworld t b1 l1) (on_disk d) 0 (head_blocks d)) as (b2 & E2 & Hc2 & Hd2 & Hw2).
  { done. }
  { intros i dst Hi. change (bs !! i = Some dst). unfold bs. by rewrite lookup_app_l by (by eapply lookup_lt_Some). }
  { intros j dst Hj Hdst. rewrite head_blocks_length in Hj. rewrite Forall_forall in Hhome.
    change (start (llog (mkLworld t b1 l1))) with st.
    pose proof (home_not_log dst (Z.of_nat j + 1) (Hhome _ Hdst)). lia. }
  change (start (llog (mkLworld t b1 l1)) + Z.of_nat 0 + 1) with (st + 0 + 1) in Hc2, Hd2, Hw2.
  replace (st + 0 + 1) with (st + 1) in Hc2, Hd2, Hw2 by lia. fold (replay d) in Hc2, Hd2, Hw2.
  assert (install_trans true (mkLworld t b1 l1) = Some ((), mkLworld t b2 l1)) as E2'.
  { unfold install_trans, the_log. erewrite (bind_eq (gets _)) by reflexivity.
    change (lh_n (llog (mkLworld t b1 l1))) with (head_n d). rewrite <-head_blocks_length. exact E2. }
  destruct (write_head_spec (mkLworld t b2 (set_lh 0 bs l1)) ∅ _ Hc2) as (b3 & E3 & Hc3 & Hd3 & Hw3);
    [done|by rewrite map_size_empty; unfold NBUF; lia|].
  cbn [start llog set_lh set_start l1 lh_n lh_block lbio] in Hc3, Hd3, Hw3.
  cbn [lbio] in Hd1, Hw1, Hd2, Hw2.
  assert (apply_view (replay d) (on_disk d) st = on_disk d st) as Est.
  { apply apply_view_notin. unfold replay. rewrite home_entries_keys. intros Hin.
    rewrite Forall_forall in Hhome. by apply st_not_home, Hhome. }
  rewrite Est in Hc3, Hd3, Hw3. set (h := put_head 0 bs (on_disk d st)) in *.
  destruct (repr_cleared d W bs Hd Hbl Hbi) as (Hr & Hr0 & HrW). fold h in Hr, Hr0, HrW.
  assert (writes b3 = replay d ++ [(st, h)]) as Hws by (rewrite Hw3, Hw2, Hw1; done).
  assert (disk b3 = apply_writes (replay d ++ [(st, h)]) d) as Hdk.
  { rewrite Hd3, Hd2, Hd1. unfold apply_writes. rewrite foldl_app. done. }
  exists (mkLworld t b3 (set_lh 0 bs l1)). split.
  { unfold recover_from_log. rewrite (bind_eq _ _ _ _ _ E1), (bind_eq _ _ _ _ _ E2').
    unfold clear_lh. erewrite (bind_eq (set_log _)) by reflexivity. exact E3. } split_and!; [|done|done|done|done|simpl; congruence|].
  - eexists ∅, _. split; cbn [llog lbio start lh_n lh_block set_lh set_start l1 outstanding l0 committing]; try done.
    + constructor.
    + intros b. rewrite <-on_disk_snoc. apply (dr_len _ _ Hr).
    + intros b. rewrite Hdk. apply (dr_len _ _ Hr).
    + by rewrite Hdk.
    + intros b Hb. rewrite Hdk. symmetry. by apply HrW.
    + intros b Hb. rewrite <-on_disk_snoc. symmetry. by apply HrW.
  - intros k. cbn [lbio]. rewrite Hws. destruct (decide (k ≤ length (replay d))%nat).
    + rewrite take_app_le by done. by apply repr_installing.
    + rewrite take_ge; [done|]. rewrite length_app. simpl. lia.
Qed.

(** A commit interrupted before the header is written. *)
Lemma repr_logging d V bs v k :
  (∀ b, length (on_disk d b) = BSIZE) → (∀ b, length (v b) = BSIZE) → head_n d = 0 →
  (∀ b, home b → V b = on_disk d b) → Z.of_nat (length bs) ≤ LOGBLOCKS →
  disk_repr (apply_writes (take k (log_entries (st + 1) bs v)) d) V.
Proof.
  intros Hlen Hv Hn HV Hbs. set (ws := take k _).
  assert (∀ b, b ∈ ws.*1 → st < b ≤ st + LOGBLOCKS) as Hkeys.
  { intros b. unfold ws. rewrite fmap_take. intros (i & Hb & _)%elem_of_take.
    apply list_elem_of_lookup_2, log_entries_keys in Hb. lia. }
  assert (∀ b, b ∉ ws.*1 → on_disk (apply_writes ws d) b = on_disk d b) as Hsame.
  { intros b Hb. rewrite on_disk_writes. by apply apply_view_notin. }
  destruct (repr_clear (apply_writes ws d)) as [H1 H2 H3 H4].
  - apply disk_len_writes; [done|]. by apply Forall_take, log_entries_block.
  - unfold head_n. rewrite Hsame; [done|]. intros ?%Hkeys. lia.
  - split; [done|done|done|]. intros b Hb. rewrite <-H4 by done. rewrite Hsame; [by apply HV|].
    intros ?%Hkeys. unfold home in Hb. lia.
Qed.

(** The disk once the header of the transaction is written. *)
Lemma repr_committed d R v W bs arr :
  (∀ b, length (on_disk d b) = BSIZE) → (∀ b, length (v b) = BSIZE) →
  (∀ b, b ∉ bs → v b = on_disk d b) → (∀ b, home b → W b = v b) →
  length arr = Z.to_nat LOGBLOCKS → Forall is_int arr → Z.of_nat (length bs) ≤ LOGBLOCKS →
  bs = take (length bs) arr → NoDup bs → Forall home bs → R = log_entries (st + 1) bs v →
  let d' := apply_writes (R ++ [(st, put_head (Z.of_nat (length bs)) arr (on_disk d st))]) d in
  disk_repr d' W ∧ replay d' = (λ b, (b, v b)) <$> bs.
Proof.
  intros Hlen Hv Hclean HW Harr Hint Hle Hbs Hnd Hhome ->.
  set (ws := log_entries (st + 1) bs v). set (h := put_head _ arr _). intros d'.
  destruct (put_head_spec (Z.of_nat (length bs)) arr (on_disk d st)) as (Hh1 & Hh2 & Hh3); [lia|done|done|done|].
  fold h in Hh1, Hh2, Hh3. rewrite Nat2Z.id in Hh3. rewrite <-Hbs in Hh3.
  assert (∀ b, on_disk d' b = upd (apply_view ws (on_disk d)) st h b) as Ed by (intros b; apply on_disk_snoc).
  assert (head_n d' = Z.of_nat (length bs)) as En by (unfold head_n; by rewrite Ed, view_upd_eq).
  assert (head_blocks d' = bs) as Eb.
  { unfold head_blocks. by rewrite En, Nat2Z.id, Ed, view_upd_eq. }
  assert (replay d' = (λ b, (b, v b)) <$> bs) as Er.
  { unfold replay. rewrite Eb, <-(home_of_log (st + 1) bs v).
    - apply home_entries_ext. intros j Hj. rewrite Ed, view_upd_ne by lia. apply apply_view_in.
      apply log_entries_keys. done.
    - intros b Hb. rewrite Forall_forall in Hhome. specialize (Hhome b Hb). unfold home in Hhome. lia. }
  split; [|done]. split; [|rewrite En; lia|by rewrite Eb|].
  - apply disk_len_writes; [done|]. apply Forall_app. split; [by apply log_entries_block|by repeat constructor].
  - intros b Hb. rewrite Er, HW by done. destruct (decide (b ∈ bs)) as [Hin|Hnin].
    + symmetry. apply apply_view_elem.
      * apply list_elem_of_fmap. by exists b.
      * rewrite <-list_fmap_compose. by rewrite list_fmap_id.
    + rewrite apply_view_notin by (rewrite <-list_fmap_compose, list_fmap_id; done).
      rewrite Ed, view_upd_ne by (intros ->; by apply st_not_home).
      rewrite apply_view_notin; [by apply Hclean|]. unfold ws. rewrite log_entries_keys.
      unfold home in Hb. lia.
Qed.

(** ** Commit *)

Lemma refs_size s R v V W : log_inv s R v V W → size R = Z.to_nat (lh_n (llog s)).
Proof.
  intros Hinv.
  assert (dom R = list_to_set (C := gset Z) (in_trans (llog s))) as Hdom.
  { apply set_eq. intros b. rewrite elem_of_dom, (li_refs _ _ _ _ _ Hinv), elem_of_list_to_set.
    case_decide; split; intros; try done; by apply is_Some_None in H0. }
  rewrite <-size_dom, Hdom, size_list_to_set by apply (li_nodup _ _ _ _ _ Hinv).
  unfold in_trans. rewrite length_take, (li_arr _ _ _ _ _ Hinv).
  pose proof (li_n _ _ _ _ _ Hinv). lia.
Qed.

Lemma in_trans_length s R v V W : log_inv s R v V W → length (in_trans (llog s)) = Z.to_nat (lh_n (llog s)).
Proof.
  intros Hinv. unfold in_trans. rewrite length_take, (li_arr _ _ _ _ _ Hinv).
  pose proof (li_n _ _ _ _ _ Hinv). lia.
Qed.

(** Nothing is pinned: the cache shows the disk. *)
Lemma log_inv_empty s V :
  ∀ R v, cache_inv (lbio s) R v → (∀ b, R !! b = None) → start (llog s) = st → lh_n (llog s) = 0 →
  length (lh_block (llog s)) = Z.to_nat LOGBLOCKS → Forall is_int (lh_block (llog s)) →
  (∀ b, length (on_disk (disk (lbio s)) b) = BSIZE) → head_n (disk (lbio s)) = 0 →
  (∀ b, home b → V b = on_disk (disk (lbio s)) b) →
  0 ≤ outstanding (llog s) → log_ok s V V.
Proof.
  intros R v Hc HR Hst Hn Harr Hint Hdl Hcl HV Ho.
  assert (in_trans (llog s) = []) as Ein by (unfold in_trans; by rewrite Hn).
  assert (∀ b, v b = on_disk (disk (lbio s)) b) as Ev by (intros b; by apply (ci_clean _ _ _ Hc)).
  exists R, v. split; try done; rewrite ?Ein, ?Hn; try done.
  - constructor.
  - intros b. rewrite Ev. apply Hdl.
  - intros b Hb. rewrite Ev. by apply HV.
Qed.

(** The writes of a commit and what a crash after any of them leaves. *)
Definition crash_points (d : gmap Z block) (ws : list (Z * block)) (V W : Z → block) (m : nat) : Prop :=
  ∀ k, disk_repr (apply_writes (take k ws) d) (if decide (k ≤ m)%nat then V else W).

Lemma apply_writes_app ws ws' d : apply_writes (ws ++ ws') d = apply_writes ws' (apply_writes ws d).
Proof. unfold apply_writes. apply foldl_app. Qed.

(** A commit: the log, the header, the homes, the header again. *)
Lemma commit_writes t b0 l R v V W :
  log_inv (mkLworld t b0 l) R v V W → 0 < lh_n l → (Z.to_nat (lh_n l) < NBUF)%nat →
  let bs := in_trans l in
  let d := disk b0 in
  let ws1 := log_entries (st + 1) bs v in
  let d2 := apply_writes (ws1 ++ [(st, put_head (lh_n l) (lh_block l) (on_disk d st))]) d in
  let ws2 := replay d2 ++ [(st, put_head 0 (lh_block l) (on_disk d2 st))] in
  ∃ b R' v', commit (mkLworld t b0 l) = Some ((), mkLworld t b (set_lh 0 (lh_block l) l)) ∧
    cache_inv b R' v' ∧ (∀ x, R' !! x = None) ∧ disk_repr d2 W ∧
    disk b = apply_writes ws2 d2 ∧
    writes b = writes b0 ++ ws1 ++ [(st, put_head (lh_n l) (lh_block l) (on_disk d st))] ++ ws2.
Proof.
  intros Hinv Hpos Hsmall. pose proof (refs_size _ _ _ _ _ Hinv) as Hsz.
  pose proof (in_trans_length _ _ _ _ _ Hinv) as Hlen.
  destruct Hinv as [Hc Hst Hn Harr Hint Hnd Hhome HR Hvl Hdl Hcl HV HW Hout].
  cbn [llog lbio ltable] in Hc, Hst, Hn, Harr, Hint, Hnd, Hhome, HR, Hdl, Hcl, HV, Hout, Hsz, Hlen.
  intros bs d. fold bs d in Hnd, Hhome, HR, Hdl, Hcl, HV, Hlen.
  intros ws1. set (h1 := put_head (lh_n l) (lh_block l) (on_disk d st)). intros d2.
  set (h2 := put_head 0 (lh_block l) (on_disk d2 st)). intros ws2.
  assert (∀ i x, bs !! i = Some x → lh_block l !! i = Some x ∧ R !! x = Some (1, false)) as Hbs.
  { intros i x Hi. split; [by apply lookup_take_Some in Hi as [? _]|].
    rewrite HR, decide_True; [done|]. by eapply list_elem_of_lookup_2. }
  assert (∀ i, (i < length bs)%nat → R !! (st + Z.of_nat i + 1) = None) as Hlogfree.
  { intros i Hi. rewrite HR, decide_False; [done|]. intros Hin. rewrite Forall_forall in Hhome.
    pose proof (home_not_log _ (Z.of_nat i + 1) (Hhome _ Hin)). lia. }
  assert (R !! st = None) as Hstfree.
  { rewrite HR, decide_False; [done|]. intros Hin. rewrite Forall_forall in Hhome. by apply st_not_home, Hhome. }
  assert (v st = on_disk d st) as Hvst by by apply (ci_clean _ _ _ Hc).
  (* the log *)
  destruct (write_log_loop (mkLworld t b0 l) R v 0 bs Hc ltac:(lia)) as (b1 & E1 & Hc1 & Hd1 & Hw1).
  { exact Hbs. } { cbn [llog]. rewrite Hst. exact Hlogfree. }
  cbn [llog lbio] in Hc1, Hd1, Hw1. rewrite Hst in Hc1, Hd1, Hw1.
  replace (st + Z.of_nat 0 + 1) with (st + 1) in * by lia. fold ws1 in Hc1, Hd1, Hw1.
  assert (st ∉ ws1.*1) as Hst1 by (unfold ws1; rewrite log_entries_keys; lia).
  (* the header *)
  destruct (write_head_spec (mkLworld t b1 l) R _ Hc1) as (b2 & E2 & Hc2 & Hd2 & Hw2);
    [cbn [llog]; by rewrite Hst|lia|].
  cbn [llog lbio] in Hc2, Hd2, Hw2. rewrite Hst, apply_view_notin, Hvst in Hc2, Hd2, Hw2 by done.
  fold h1 in Hc2, Hd2, Hw2.
  assert (disk b2 = d2) as Hb2 by (rewrite Hd2, Hd1; unfold d2; by rewrite apply_writes_app).
  destruct (repr_committed d ws1 v W bs (lh_block l)) as [Hrepr Hreplay]; try done.
  { intros x Hx. apply (ci_clean _ _ _ Hc). by rewrite HR, decide_False. }
  { lia. } { rewrite Hlen. done. }
  rewrite Hlen, Z2Nat.id in Hrepr, Hreplay by lia. fold h1 in Hrepr, Hreplay. fold d2 in Hrepr, Hreplay.
  (* the homes *)
  destruct (install_loop (mkLworld t b2 l) R _ 0 bs Hc2 ltac:(lia) Hnd) as (b3 & E3 & Hc3 & Hd3 & Hw3).
  { exact Hbs. } { cbn [llog]. rewrite Hst. exact Hlogfree. }
  cbn [llog lbio] in Hc3, Hd3, Hw3. rewrite Hst in Hc3, Hd3, Hw3.
  replace (st + Z.of_nat 0 + 1) with (st + 1) in * by lia.
  assert (home_entries (st + 1) bs (upd (apply_view ws1 v) st h1) = replay d2) as Ehome.
  { rewrite Hreplay, <-(home_of_log (st + 1) bs v).
    - apply home_entries_ext. intros j Hj. apply view_upd_ne. lia.
    - intros x Hx. rewrite Forall_forall in Hhome. specialize (Hhome x Hx). unfold home in Hhome. lia. }
  rewrite Ehome in Hc3, Hd3, Hw3.
  assert (∀ x, released R bs !! x = None) as Hrel.
  { intros x. rewrite released_lookup, HR. by repeat case_decide. }
  (* the header again *)
  destruct (write_head_spec (mkLworld t b3 (set_lh 0 (lh_block l) l)) _ _ Hc3) as (b4 & E4 & Hc4 & Hd4 & Hw4).
  { apply Hrel. }
  { assert (released R bs = ∅) as -> by (apply map_empty; exact Hrel). rewrite map_size_empty. lia. }
  cbn [llog lbio lh_n lh_block set_lh start] in Hc4, Hd4, Hw4.
  assert (apply_view (replay d2) (upd (apply_view ws1 v) st h1) st = on_disk d2 st) as Eh.
  { rewrite apply_view_notin, view_upd_eq.
    - unfold d2. by rewrite on_disk_snoc, view_upd_eq.
    - rewrite Hreplay, <-list_fmap_compose, list_fmap_id. intros Hin.
      rewrite Forall_forall in Hhome. by apply st_not_home, Hhome. }
  rewrite Hst, Eh in Hc4, Hd4, Hw4. fold h2 in Hc4, Hd4, Hw4.
  eexists b4, _, _. split_and!; [|exact Hc4|exact Hrel|done| |].
  - unfold commit, the_log. erewrite (bind_eq (gets _)) by reflexivity. cbn [llog].
    rewrite (proj2 (Z.ltb_lt _ _) Hpos). unfold write_log, the_log.
    rewrite bind_assoc. erewrite (bind_eq (gets _)) by reflexivity. cbn [llog]. rewrite <-Hlen.
    rewrite (bind_eq _ _ _ _ _ E1), (bind_eq _ _ _ _ _ E2). unfold install_trans, the_log.
    rewrite bind_assoc. erewrite (bind_eq (gets _)) by reflexivity. cbn [llog with_bio ltable]. rewrite <-Hlen.
    rewrite (bind_eq _ _ _ _ _ E3). unfold clear_lh. erewrite (bind_eq (set_log _)) by reflexivity. exact E4.
  - rewrite Hd4, Hd3, Hb2. unfold ws2. by rewrite apply_writes_app.
  - rewrite Hw4, Hw3, Hw2, Hw1. unfold ws2. by rewrite <-!app_assoc.
Qed.

(** A crash after any number of the writes of a commit leaves the old or the
    new contents, and the new ones as soon as the header is written. *)
Lemma commit_spec t b0 l R v V W :
  log_inv (mkLworld t b0 l) R v V W → (Z.to_nat (lh_n l) < NBUF)%nat →
  ∃ b l' ws, commit (mkLworld t b0 l) = Some ((), mkLworld t b l') ∧
    log_ok (mkLworld t b l') W W ∧ l' = set_lh 0 (lh_block l) l ∧
    writes b = writes b0 ++ ws ∧ disk b = apply_writes ws (disk b0) ∧
    crash_points (disk b0) ws V W (Z.to_nat (lh_n l)).
Proof.
  intros Hinv Hsmall. pose proof (in_trans_length _ _ _ _ _ Hinv) as Hlen. cbn [llog] in Hlen.
  pose proof Hinv as [Hc Hst Hn Harr Hint Hnd Hhome HR Hvl Hdl Hcl HV HW Hout].
  cbn [llog lbio ltable] in Hc, Hst, Hn, Harr, Hint, Hnd, Hhome, HR, Hdl, Hcl, HV, Hout.
  destruct (Z.ltb_spec 0 (lh_n l)) as [Hpos|Hzero].
  - destruct (commit_writes _ _ _ _ _ _ _ Hinv Hpos Hsmall) as (b & R' & v' & E & Hc' & HR' & Hrepr & Hd & Hw).
    set (h1 := put_head (lh_n l) (lh_block l) (on_disk (disk b0) st)) in *.
    set (ws1 := log_entries (st + 1) (in_trans l) v) in *.
    set (d2 := apply_writes (ws1 ++ [(st, h1)]) (disk b0)) in *.
    set (h2 := put_head 0 (lh_block l) (on_disk d2 st)) in *.
    destruct (repr_cleared d2 W (lh_block l) Hrepr Harr Hint) as (Hr & Hr0 & HrW). fold h2 in Hr, Hr0, HrW.
    exists b, (set_lh 0 (lh_block l) l), (ws1 ++ [(st, h1)] ++ replay d2 ++ [(st, h2)]).
    split_and!; [done| |done|done|by rewrite Hd; unfold d2; rewrite <-apply_writes_app, <-!app_assoc|].
    + eapply log_inv_empty; try done; cbn [lbio llog].
      * intros x. rewrite Hd. apply (dr_len _ _ Hr).
      * by rewrite Hd.
      * intros x Hx. rewrite Hd. symmetry. by apply HrW.
    + assert (length ws1 = Z.to_nat (lh_n l)) as Hl1 by (unfold ws1; by rewrite log_entries_length).
      intros k. case_decide as Hk.
      * rewrite take_app_le by lia. apply repr_logging; try done. lia.
      * rewrite app_assoc, take_app_ge by (rewrite length_app; simpl; lia). rewrite apply_writes_app. fold d2.
        rewrite length_app, Hl1. cbn [length].
        destruct (decide (k - (Z.to_nat (lh_n l) + 1) ≤ length (replay d2))%nat).
        -- rewrite take_app_le by done. by apply repr_installing.
        -- rewrite take_ge; [done|]. rewrite length_app. cbn [length]. lia.
  - exists b0, l, []. assert (lh_n l = 0) as E0 by lia.
    assert (in_trans l = []) as Ein by (unfold in_trans; by rewrite E0).
    assert (∀ x, R !! x = None) as HRn by (intros x; by rewrite HR, Ein).
    assert (∀ x, home x → W x = V x) as EWV.
    { intros x Hx. rewrite HW, HV by done. by apply (ci_clean _ _ _ Hc). }
    split_and!.
    + unfold commit, the_log. erewrite (bind_eq (gets _)) by reflexivity. cbn [llog].
      by rewrite (proj2 (Z.ltb_ge _ _) Hzero).
    + eapply log_inv_empty; try done; cbn [lbio llog]. intros x Hx. rewrite EWV by done. by apply HV.
    + destruct l. cbn in *. by rewrite E0.
    + by rewrite app_nil_r.
    + done.
    + intros k. rewrite take_nil. destruct (repr_clear (disk b0)) as [H1 H2 H3 H4]; [done|done|].
      split; [done|done|done|]. intros x Hx. rewrite <-H4 by done.
      case_decide; [by apply HV|]. rewrite EWV by done. by apply HV.
Qed.
End crash.
