(* ===== verification/LogSys.v ===== *)
(** The log as the rest of the file system uses it: calls that begin, change
    blocks and end, crashes and recoveries, against a specification in which
    the contents of the disk change all at once. *)
From S2P Require Import Prelude Kalloc Proc ProcSync Bio Log LogSpec LogCrash.

Section sys.
Context (st : Z) {S : Type} `{SleepChan S}.
Implicit Types (s : lworld S) (V W : Z → block).

Definition sys_ok s V W : Prop :=
  chan_ok (ltable s) ∧ committing (llog s) = false ∧ log_ok st s V W.

(** The bookkeeping of calls does not touch the blocks. *)
Lemma log_inv_counts s R v V W (t : S) l' :
  log_inv st s R v V W → start l' = start (llog s) → lh_n l' = lh_n (llog s) →
  lh_block l' = lh_block (llog s) → 0 ≤ outstanding l' →
  log_inv st (mkLworld t (lbio s) l') R v V W.
Proof.
  intros [] Es En Eb Eo. assert (in_trans l' = in_trans (llog s)) as Ein by (unfold in_trans; by rewrite En, Eb).
  split; cbn [llog lbio]; rewrite ?Ein, ?Es, ?En, ?Eb; done.
Qed.

Lemma log_wakeup s :
  chan_ok (ltable s) →
  ∃ t', on_ltable (chan_wakeup chan_log) s = Some ((), mkLworld t' (lbio s) (llog s)) ∧ chan_ok t'.
Proof.
  intros Hok. destruct (chan_wakeup_spec chan_log _ Hok) as (t' & E & Hok' & _).
  exists t'. unfold on_ltable. by rewrite E.
Qed.

(** The last call to end commits. *)
Lemma end_op_commits s V W :
  sys_ok s V W → outstanding (llog s) = 1 → (Z.to_nat (lh_n (llog s)) < NBUF)%nat →
  ∃ s' ws, end_op s = Some ((), s') ∧ sys_ok s' W W ∧ lh_n (llog s') = 0 ∧ outstanding (llog s') = 0 ∧
    writes (lbio s') = writes (lbio s) ++ ws ∧ disk (lbio s') = apply_writes ws (disk (lbio s)) ∧
    crash_points st (disk (lbio s)) ws V W (Z.to_nat (lh_n (llog s))).
Proof.
  intros (Hok & Hcm & R & v & Hinv) Ho Hsmall. destruct s as [t b0 l]. cbn [llog lbio ltable] in *.
  set (l1 := set_committing true (set_outstanding (outstanding l - 1) l)).
  assert (log_inv st (mkLworld t b0 l1) R v V W) as Hinv1.
  { apply (log_inv_counts _ _ _ _ _ t l1 Hinv); try done. simpl. lia. }
  destruct (commit_spec st t b0 l1 R v V W Hinv1 Hsmall) as (b & l2 & ws & E & Hok2 & Hl2 & Hw & Hd & Hcp).
  set (l3 := set_ncommit (ncommit l2 + 1) (set_committing false l2)).
  destruct (log_wakeup (mkLworld t b l3) Hok) as (t' & Ew & Hok').
  exists (mkLworld t' b l3), ws. split_and!; try done.
  - unfold end_op. erewrite (bind_eq (set_log _)) by reflexivity. unfold the_log.
    erewrite (bind_eq (gets _)) by reflexivity. cbn [llog set_outstanding committing outstanding].
    rewrite Hcm, (proj2 (Z.eqb_eq _ _)) by lia. erewrite (bind_eq (set_log _)) by reflexivity.
    cbn [ltable lbio llog]. fold l1. rewrite (bind_eq _ _ _ _ _ E).
    erewrite (bind_eq (set_log _)) by reflexivity. erewrite (bind_eq (set_log _)) by reflexivity. exact Ew.
  - split_and!; [done|done|]. destruct Hok2 as (R2 & v2 & Hinv2). exists R2, v2.
    apply (log_inv_counts _ _ _ _ _ t' l3 Hinv2); try done. unfold l3. rewrite Hl2. simpl. lia.
  - cbn [llog]. unfold l3. rewrite Hl2. done.
  - cbn [llog]. unfold l3. rewrite Hl2. simpl. lia.
Qed.

(** Any other call that ends only gives up its reservation. *)
Lemma end_op_not_last s V W :
  sys_ok s V W → 1 < outstanding (llog s) →
  ∃ s', end_op s = Some ((), s') ∧ sys_ok s' V W ∧ lbio s' = lbio s ∧
    lh_n (llog s') = lh_n (llog s) ∧ outstanding (llog s') = outstanding (llog s) - 1.
Proof.
  intros (Hok & Hcm & R & v & Hinv) Ho. destruct s as [t b0 l]. cbn [llog lbio ltable] in *.
  set (l1 := set_outstanding (outstanding l - 1) l).
  destruct (log_wakeup (mkLworld t b0 l1) Hok) as (t' & Ew & Hok').
  exists (mkLworld t' b0 l1). split_and!; try done.
  - unfold end_op. erewrite (bind_eq (set_log _)) by reflexivity. unfold the_log.
    erewrite (bind_eq (gets _)) by reflexivity. cbn [llog set_outstanding committing outstanding ltable lbio].
    rewrite Hcm, (proj2 (Z.eqb_neq _ _)) by lia. exact Ew.
  - split_and!; [done|done|]. exists R, v. apply (log_inv_counts _ _ _ _ _ t' l1 Hinv); try done. simpl. lia.
Qed.

Lemma begin_op_spec s V W t :
  sys_ok s V W → chan_is_proc t →
  ∃ r s', begin_op_pass t s = Some (r, s') ∧ sys_ok s' V W ∧ lbio s' = lbio s ∧
    lh_n (llog s') = lh_n (llog s) ∧
    outstanding (llog s') = outstanding (llog s) + (if r then 1 else 0) ∧
    (r = true → lh_n (llog s) + (outstanding (llog s) + 1) * MAXOPBLOCKS ≤ LOGBLOCKS).
Proof.
  intros (Hok & Hcm & R & v & Hinv) Ht. destruct s as [t0 b0 l]. cbn [llog lbio ltable] in *.
  unfold begin_op_pass, the_log. erewrite (bind_eq (gets _)) by reflexivity. cbn [llog]. rewrite Hcm, orb_false_l.
  pose proof (li_out _ _ _ _ _ _ Hinv) as Hout. cbn [llog] in Hout.
  destruct (Z.ltb_spec LOGBLOCKS (lh_n l + (outstanding l + 1) * MAXOPBLOCKS)) as [Hfull|Hroom].
  - destruct (chan_prepare_spec t chan_log t0 Hok Ht) as (t' & E & Hok' & _).
    exists false, (mkLworld t' b0 l). split_and!; try done; [|split_and!; try done|cbn [llog]; lia].
    + unfold on_ltable, mbind, M_bind. cbn [ltable]. by rewrite E.
    + exists R, v. by apply (log_inv_counts _ _ _ _ _ t' l Hinv).
  - exists true, (mkLworld t0 b0 (set_outstanding (outstanding l + 1) l)).
    split_and!; try done. split_and!; try done. exists R, v.
    apply (log_inv_counts _ _ _ _ _ t0 _ Hinv); try done. simpl. lia.
Qed.

Lemma index_of_eqb n (bs : list Z) :
  match index_of (Z.eqb n) bs with Some k => bs !! k = Some n | None => n ∉ bs end.
Proof.
  destruct (index_of (Z.eqb n) bs) as [k|] eqn:E.
  - apply index_of_Some in E as (x & Hx & ->%Z.eqb_eq & _). done.
  - rewrite index_of_None in E. intros Hin%E. by rewrite Z.eqb_refl in Hin.
Qed.

(** [log_write] of a held block, already in the transaction. *)
Lemma log_write_absorbs t b0 l i n k c R v :
  cache_inv b0 R v → holds b0 i n → lh_n l < LOGBLOCKS → 1 ≤ outstanding l →
  index_of (Z.eqb n) (in_trans l) = Some k → R !! n = Some (c, true) →
  log_write i (mkLworld t b0 l) = Some ((), mkLworld (S := S) t b0 l).
Proof.
  intros Hc Hh Hn Ho Hk HR. unfold log_write, the_log. erewrite (bind_eq (gets _)) by reflexivity. cbn [llog].
  rewrite (proj2 (Z.leb_gt _ _) Hn), (proj2 (Z.ltb_ge _ _) Ho).
  destruct (holds_refs _ _ _ Hc i n Hh) as (b & Hb & [_ Hbn] & _).
  rewrite (on_bio_eq _ _ _ _ b0 b b0) by (unfold the_buf; by rewrite Hb). rewrite Hbn. fold (in_trans l). rewrite Hk.
  pose proof (index_of_eqb n (in_trans l)) as Hi. rewrite Hk in Hi. unfold in_trans in Hi.
  apply lookup_take_Some in Hi as [Hi _]. unfold set_log, modify. cbn [ltable lbio llog].
  rewrite list_insert_id by done. by destruct l.
Qed.

(** [log_write] of a block new to the transaction: it is pinned. *)
Lemma log_write_adds t b0 l i n c R v :
  cache_inv b0 R v → holds b0 i n → 0 ≤ lh_n l < LOGBLOCKS → 1 ≤ outstanding l →
  n ∉ in_trans l → R !! n = Some (c, true) → c + 1 < 2 ^ 31 →
  ∃ b, log_write i (mkLworld t b0 l) =
      Some ((), mkLworld (S := S) t b (set_lh (lh_n l + 1) (<[Z.to_nat (lh_n l) := n]> (lh_block l)) l)) ∧
    cache_inv b (<[n := (c + 1, true)]> R) v ∧ disk b = disk b0 ∧ writes b = writes b0 ∧ keeps_held b0 b.
Proof.
  intros Hc Hh [_ Hn] Ho Hk HR Hc1. unfold log_write, the_log.
  destruct (bpin_spec _ _ _ Hc i n c true Hh HR Hc1) as (b1 & E1 & Hc' & Hd & Hw & Hkeep).
  erewrite (bind_eq (gets _)) by reflexivity. cbn [llog].
  rewrite (proj2 (Z.leb_gt _ _) Hn), (proj2 (Z.ltb_ge _ _) Ho).
  destruct (holds_refs _ _ _ Hc i n Hh) as (b & Hb & [_ Hbn] & _).
  rewrite (on_bio_eq _ _ _ _ b0 b b0) by (unfold the_buf; by rewrite Hb). rewrite Hbn. fold (in_trans l).
  pose proof (index_of_eqb n (in_trans l)) as Hi.
  destruct (index_of (Z.eqb n) (in_trans l)) as [k|]; [by apply list_elem_of_lookup_2 in Hi|].
  exists b1. split_and!; [|done|done|done|done].
  erewrite (bind_eq (set_log _)) by reflexivity. cbn [ltable lbio llog].
  by rewrite (on_bio_eq _ _ _ _ _ _ _ E1).
Qed.

(** The blocks after one of them is changed. *)
Lemma li_len_upd v n d m : (∀ b, length (v b) = BSIZE) → length d = BSIZE → length (upd v n d m) = BSIZE.
Proof. intros Hv Hd. unfold upd. by case_decide. Qed.

Lemma update_absorbed t b0 l R v V W n f :
  log_inv st (mkLworld t b0 l) R v V W → 1 ≤ outstanding l → lh_n l < LOGBLOCKS → n ∈ in_trans l →
  (∀ d, length (f d) = length d) → home st n →
  ∃ b v', update_block n f (mkLworld t b0 l) = Some ((), mkLworld (S := S) t b l) ∧
    log_inv st (mkLworld t b l) R v' V (upd W n (f (W n))) ∧ disk b = disk b0 ∧ writes b = writes b0.
Proof.
  intros Hinv Ho Hroom Hin Hf Hhome. pose proof Hinv as [Hc Hst Hn Harr Hint Hnd Hh HR Hvl Hdl Hcl HV HW Hout].
  cbn [llog lbio] in *. assert (R !! n = Some (1, false)) as HRn by (by rewrite HR, decide_True).
  unfold update_block.
  destruct (bread_spec _ _ _ Hc n 1) as (i & b1 & E1 & Hc1 & Hi1 & Hd1 & Hw1 & Hk1); [apply refs_known; [done|lia]|].
  rewrite (on_bio_eq _ _ _ _ _ _ _ E1), (on_bio_eq _ _ _ _ _ _ _ (get_data_spec _ _ _ Hc1 i n Hi1)).
  destruct (set_data_spec _ _ _ Hc1 i n 2 (f (v n)) Hi1) as (b2 & E2 & Hc2 & Hd2 & Hw2 & Hk2);
    [by rewrite lookup_insert_eq|].
  rewrite (on_bio_eq _ _ _ _ _ _ _ E2). fold (upd v n (f (v n))) in Hc2.
  pose proof (index_of_eqb n (in_trans l)) as Hix.
  destruct (index_of (Z.eqb n) (in_trans l)) as [k|] eqn:Ek; [|done].
  erewrite bind_eq by (eapply log_write_absorbs; [exact Hc2|by apply Hk2|done|done|exact Ek|by rewrite lookup_insert_eq]).
  destruct (brelse_spec _ _ _ Hc2 i n 2) as (b3 & E3 & Hc3 & Hd3 & Hw3 & _);
    [by apply Hk2|by rewrite lookup_insert_eq|done|].
  rewrite (on_bio_last _ _ _ _ _ _ E3). unfold with_refs in Hc3. change (2 - 1) with 1 in Hc3. cbn [Z.eqb] in Hc3.
  rewrite insert_insert_eq, insert_id in Hc3 by done.
  exists b3, (upd v n (f (v n))). split_and!; [done| |congruence|congruence].
  assert (disk b3 = disk b0) as Ed by congruence.
  split; cbn [llog lbio]; rewrite ?Ed; try done.
  - intros b. apply li_len_upd; [done|]. by rewrite Hf.
  - intros b Hb. unfold upd. case_decide; [by rewrite HW|by apply HW].
Qed.

Lemma update_added t b0 l R v V W n f :
  log_inv st (mkLworld t b0 l) R v V W → 1 ≤ outstanding l → lh_n l < LOGBLOCKS → n ∉ in_trans l →
  (∀ d, length (f d) = length d) → home st n → is_int n →
  let l' := set_lh (lh_n l + 1) (<[Z.to_nat (lh_n l) := n]> (lh_block l)) l in
  ∃ b v', update_block n f (mkLworld t b0 l) = Some ((), mkLworld (S := S) t b l') ∧
    log_inv st (mkLworld t b l') (<[n := (1, false)]> R) v' V (upd W n (f (W n))) ∧
    disk b = disk b0 ∧ writes b = writes b0.
Proof.
  intros Hinv Ho Hroom Hin Hf Hhome Hni l'. pose proof (refs_size _ _ _ _ _ _ Hinv) as Hsz.
  pose proof Hinv as [Hc Hst Hn Harr Hint Hnd Hh HR Hvl Hdl Hcl HV HW Hout].
  cbn [llog lbio] in *. assert (R !! n = None) as HRn by (by rewrite HR, decide_False).
  unfold update_block.
  destruct (bread_spec _ _ _ Hc n 0) as (i & b1 & E1 & Hc1 & Hi1 & Hd1 & Hw1 & Hk1).
  { apply refs_small; [done|]. rewrite Hsz. unfold LOGBLOCKS, MAXOPBLOCKS, NBUF in *. lia. }
  rewrite (on_bio_eq _ _ _ _ _ _ _ E1), (on_bio_eq _ _ _ _ _ _ _ (get_data_spec _ _ _ Hc1 i n Hi1)).
  destruct (set_data_spec _ _ _ Hc1 i n 1 (f (v n)) Hi1) as (b2 & E2 & Hc2 & Hd2 & Hw2 & Hk2);
    [by rewrite lookup_insert_eq|].
  rewrite (on_bio_eq _ _ _ _ _ _ _ E2). fold (upd v n (f (v n))) in Hc2.
  destruct (log_write_adds t b2 l i n 1 _ _ Hc2) as (b3 & E3 & Hc3 & Hd3 & Hw3 & Hk3);
    [by apply Hk2|lia|done|done|by rewrite lookup_insert_eq|lia|].
  rewrite (bind_eq _ _ _ _ _ E3). fold l'.
  destruct (brelse_spec _ _ _ Hc3 i n 2) as (b4 & E4 & Hc4 & Hd4 & Hw4 & _);
    [by apply Hk3, Hk2|by rewrite lookup_insert_eq|done|].
  rewrite (on_bio_last _ _ _ _ _ _ E4). unfold with_refs in Hc4. change (2 - 1) with 1 in Hc4. cbn [Z.eqb] in Hc4. rewrite !insert_insert_eq in Hc4.
  exists b4, (upd v n (f (v n))). split_and!; [done| |congruence|congruence].
  assert (disk b4 = disk b0) as Ed by congruence.
  assert (in_trans l' = in_trans l ++ [n]) as Ein.
  { unfold in_trans, l'. cbn [lh_n lh_block set_lh]. replace (Z.to_nat (lh_n l + 1)) with (Datatypes.S (Z.to_nat (lh_n l))) by lia.
    assert (Z.to_nat (lh_n l) < length (lh_block l))%nat as Hlt by (rewrite Harr; lia).
    erewrite take_S_r by (by apply list_lookup_insert_eq). by rewrite take_insert_ge by lia. }
  split; cbn [llog lbio]; rewrite ?Ed, ?Ein; try done; cbn [l' lh_n lh_block set_lh].
  - lia.
  - by rewrite length_insert.
  - by apply Forall_insert.
  - apply NoDup_app. split_and!; [done| |apply NoDup_singleton]. intros x Hx ->%list_elem_of_singleton. done.
  - apply Forall_app. split; [done|by repeat constructor].
  - intros b. destruct (decide (b = n)) as [->|Hne].
    + rewrite lookup_insert_eq, decide_True by (apply elem_of_app; right; by left). done.
    + rewrite lookup_insert_ne, HR by done. apply decide_ext. rewrite elem_of_app, list_elem_of_singleton. naive_solver.
  - intros b. apply li_len_upd; [done|]. by rewrite Hf.
  - intros b Hb. unfold upd. case_decide; [by rewrite HW|by apply HW].
Qed.

Lemma on_bio_llog {A} (m : M bworld A) s a s' : on_bio m s = Some (a, s') → llog s' = llog s.
Proof. unfold on_bio. destruct (m (lbio s)) as [[? ?]|]; [|done]. by intros [= _ <-]. Qed.

(** [log_write] panics outside a call and when the log is full. *)
Lemma update_guards n f s s' :
  update_block n f s = Some ((), s') → lh_n (llog s) < LOGBLOCKS ∧ 1 ≤ outstanding (llog s).
Proof.
  intros (i & s1 & E1 & (d & s2 & E2 & ([] & s3 & E3 & ([] & s4 & E4 & _)%bind_Some)%bind_Some)%bind_Some)%bind_Some.
  apply on_bio_llog in E1, E2, E3. rewrite <-E1, <-E2, <-E3. clear E1 E2 E3.
  unfold log_write, the_log in E4. erewrite (bind_eq (gets _)) in E4 by reflexivity.
  destruct (Z.leb_spec LOGBLOCKS (lh_n (llog s3))); [done|].
  destruct (Z.ltb_spec (outstanding (llog s3)) 1); [done|]. lia.
Qed.

Lemma update_spec n f s s' V W :
  sys_ok s V W → home st n → is_int n → (∀ d, length (f d) = length d) →
  update_block n f s = Some ((), s') →
  sys_ok s' V (upd W n (f (W n))) ∧ disk (lbio s') = disk (lbio s) ∧ writes (lbio s') = writes (lbio s) ∧
  outstanding (llog s') = outstanding (llog s) ∧ lh_n (llog s') ≤ lh_n (llog s) + 1.
Proof.
  intros (Hok & Hcm & R & v & Hinv) Hh Hi Hf E. destruct (update_guards _ _ _ _ E) as [Hroom Ho].
  destruct s as [t b0 l]. cbn [ltable llog] in *. destruct (decide (n ∈ in_trans l)) as [Hin|Hnin].
  - destruct (update_absorbed t b0 l R v V W n f) as (b & v' & E' & Hinv' & Hd & Hw); try done.
    rewrite E' in E. injection E as <-. cbn [llog lbio]. split_and!; try done; [|lia]. split_and!; [done|done|].
    by exists R, v'.
  - destruct (update_added t b0 l R v V W n f) as (b & v' & E' & Hinv' & Hd & Hw); try done.
    rewrite E' in E. injection E as <-. cbn [llog lbio]. split_and!; try done. split_and!; [done|done|].
    by exists (<[n := (1, false)]> R), v'.
Qed.

(** With as many blocks in the transaction as the cache has buffers, the
    commit cannot read even the first block of the log. *)
Lemma end_op_full s V W :
  sys_ok s V W → outstanding (llog s) = 1 → Z.to_nat (lh_n (llog s)) = NBUF → end_op s = None.
Proof.
  intros (Hok & Hcm & R & v & Hinv) Ho Hn. pose proof (refs_size _ _ _ _ _ _ Hinv) as Hsz.
  destruct s as [t b0 l]. cbn [llog ltable] in *.
  pose proof Hinv as [Hc Hst Hnr Harr Hint Hnd Hh HR _ _ _ _ _ _]. cbn [llog lbio] in *.
  unfold end_op. erewrite (bind_eq (set_log _)) by reflexivity. unfold the_log.
  erewrite (bind_eq (gets _)) by reflexivity. cbn [llog set_outstanding committing outstanding].
  rewrite Hcm, (proj2 (Z.eqb_eq _ _)) by lia. erewrite (bind_eq (set_log _)) by reflexivity.
  cbn [ltable lbio llog]. unfold commit, the_log. rewrite bind_assoc.
  erewrite (bind_eq (gets _)) by reflexivity. cbn [llog lh_n set_committing set_outstanding].
  rewrite (proj2 (Z.ltb_lt _ _)) by (unfold NBUF in Hn; lia).
  set (l1 := set_committing true (set_outstanding (outstanding l - 1) l)).
  assert (write_log (mkLworld t b0 l1) = None) as Ew; [|unfold mbind, M_bind; by rewrite Ew].
  unfold write_log, the_log. erewrite (bind_eq (gets _)) by reflexivity. cbn [llog lh_n l1 set_committing set_outstanding].
  rewrite Hn. assert (write_log_one 0 (mkLworld t b0 l1) = None) as E1.
  { unfold write_log_one, the_log. erewrite (bind_eq (gets _)) by reflexivity.
    cbn [llog lh_block l1 set_committing set_outstanding start]. destruct (lh_block l !! 0%nat); [|done].
    assert (bread ROOTDEV (start l + Z.of_nat 0 + 1) b0 = None) as Eb.
    { eapply bread_full; [exact Hc|congruence|]. rewrite Hst, HR, decide_False; [done|]. intros Hin.
      rewrite Forall_forall in Hh. pose proof (home_not_log st _ 1 (Hh _ Hin)).
      unfold LOGBLOCKS, MAXOPBLOCKS in *. lia. }
    unfold mbind, M_bind, on_bio. cbn [lbio]. by rewrite Eb. }
  change (seq 0 NBUF) with (0%nat :: seq 1 29). cbn [mfor]. unfold mbind, M_bind. by rewrite E1.
Qed.

Lemma end_op_room s s' V W :
  sys_ok s V W → end_op s = Some ((), s') → outstanding (llog s) = 1 → (Z.to_nat (lh_n (llog s)) < NBUF)%nat.
Proof.
  intros Hok E Ho. destruct (decide (Z.to_nat (lh_n (llog s)) = NBUF)) as [Hf|Hf].
  - by rewrite (end_op_full _ _ _ Hok Ho Hf) in E.
  - destruct Hok as (_ & _ & R & v & Hinv). pose proof (li_n _ _ _ _ _ _ Hinv).
    unfold LOGBLOCKS, MAXOPBLOCKS, NBUF in *. lia.
Qed.

(** ** Crashes *)

(** The disks a crash can leave: between two operations, after some of the
    writes of an [end_op] (these are marked [true]), and after some of the
    writes of a recovery from such a disk, any number of times. *)
Inductive crash_disk s : bool → gmap Z block → Prop :=
  | cd_now : crash_disk s false (disk (lbio s))
  | cd_end s1 k :
      1 ≤ outstanding (llog s) → end_op s = Some ((), s1) →
      crash_disk s true
        (apply_writes (take k (drop (length (writes (lbio s))) (writes (lbio s1)))) (disk (lbio s)))
  | cd_again e d (t : S) s1 k :
      crash_disk s e d → reboot st d t = Some ((), s1) →
      crash_disk s e (apply_writes (take k (writes (lbio s1))) d).

Lemma sys_ok_disk s V W : sys_ok s V W → disk_repr st (disk (lbio s)) V.
Proof.
  intros (_ & _ & R & v & Hinv).
  destruct (repr_clear st (disk (lbio s))) as [H1 H2 H3 H4]; [apply (li_dlen _ _ _ _ _ _ Hinv)|apply (li_clear _ _ _ _ _ _ Hinv)|].
  split; [done|done|done|]. intros b Hb. rewrite <-H4 by done. by apply (li_V _ _ _ _ _ _ Hinv).
Qed.

(** A crash leaves the surviving contents, unless it hits the [end_op] of the
    only open call: then it may leave the contents the kernel saw. *)
Lemma crash_disk_repr s V W e d :
  sys_ok s V W → crash_disk s e d →
  disk_repr st d V ∨ e = true ∧ outstanding (llog s) = 1 ∧ disk_repr st d W.
Proof.
  intros Hok. induction 1 as [|s1 k Ho E|e d t s1 k Hd IH E].
  - left. by eapply sys_ok_disk.
  - destruct (decide (outstanding (llog s) = 1)) as [E1|E1].
    + pose proof (end_op_room _ _ _ _ Hok E E1) as Hroom.
      destruct (end_op_commits s V W Hok E1 Hroom) as (s' & ws & E' & _ & _ & _ & Hw & _ & Hcp).
      rewrite E' in E. injection E as <-. rewrite Hw, drop_app_length. specialize (Hcp k). case_decide; auto.
    + destruct (end_op_not_last s V W Hok ltac:(lia)) as (s' & E' & _ & Hb & _).
      rewrite E' in E. injection E as <-. rewrite Hb, drop_all, take_nil. left. by eapply sys_ok_disk.
  - destruct IH as [Hr|(He & H1 & Hr)]; destruct (recover_spec st _ _ t Hr) as (s' & E' & _ & _ & _ & _ & _ & _ & Hcp);
      rewrite E' in E; injection E as <-; auto.
Qed.

(** Recovery from a disk that stands for [V]. *)
Lemma reboot_ok d V t s :
  disk_repr st d V → chan_ok t → reboot st d t = Some ((), s) → sys_ok s V V ∧ outstanding (llog s) = 0.
Proof.
  intros Hd Ht E. destruct (recover_spec st d V t Hd) as (s1 & E1 & Hlog & _ & Ho & Hcm & Ht1 & _).
  rewrite E1 in E. injection E as <-. split; [|done]. split_and!; [by rewrite Ht1|done|done].
Qed.

(** ** The system and its specification *)

(** What happens to the log: process [t] asks to begin a call and may or has
    to wait, an open call applies [f] to block [n], a call ends, the machine
    crashes (inside an [end_op] or not) and starts again. *)
Inductive event : Type :=
  | EBegin (t : nat) (ok : bool)
  | EUpdate (n : Z) (f : block → block)
  | EEnd
  | ECrash (in_end : bool).

Inductive lstep : lworld S → event → lworld S → Prop :=
  | ls_begin t r s s' : chan_is_proc t → begin_op_pass t s = Some (r, s') → lstep s (EBegin t r) s'
  | ls_update n f s s' :
      home st n → is_int n → (∀ d, length (f d) = length d) →
      update_block n f s = Some ((), s') → lstep s (EUpdate n f) s'
  | ls_end s s' : 1 ≤ outstanding (llog s) → end_op s = Some ((), s') → lstep s EEnd s'
  | ls_crash e d t s s' :
      crash_disk s e d → chan_ok t → reboot st d t = Some ((), s') → lstep s (ECrash e) s'.

(** The specification: the contents that survive a crash, those the running
    kernel sees, and the number of open calls. Only an open call changes what
    the kernel sees; the surviving contents change when the last open call
    ends, and then take over everything the calls since then have done. *)
Definition astate : Type := (Z → block) * (Z → block) * Z.
Inductive astep : astate → event → astate → Prop :=
  | a_begin t V W c : astep (V, W, c) (EBegin t true) (V, W, c + 1)
  | a_wait t V W c : astep (V, W, c) (EBegin t false) (V, W, c)
  | a_update n f V W c : 1 ≤ c → astep (V, W, c) (EUpdate n f) (V, upd W n (f (W n)), c)
  | a_end V W c : 1 < c → astep (V, W, c) EEnd (V, W, c - 1)
  | a_commit V W : astep (V, W, 1) EEnd (W, W, 0)
  | a_crash e V W c : astep (V, W, c) (ECrash e) (V, V, 0)
  | a_crash_committed V W : astep (V, W, 1) (ECrash true) (W, W, 0).

(** A run of a labelled step relation. *)
Inductive lrun {A} (step : A → event → A → Prop) : A → list event → A → Prop :=
  | run_nil x : lrun step x [] x
  | run_snoc x tr y e z : lrun step x tr y → step y e z → lrun step x (tr ++ [e]) z.

(** Each step of the code is the step of the specification for that event. *)
Lemma lstep_simulated s e s' V W :
  sys_ok s V W → lstep s e s' →
  ∃ V' W', astep (V, W, outstanding (llog s)) e (V', W', outstanding (llog s')) ∧ sys_ok s' V' W'.
Proof.
  intros Hok. destruct 1 as [t r s s' Ht E|n f s s' Hh Hi Hf E|s s' Ho E|e d t s s' Hd Ht E].
  - destruct (begin_op_spec s V W t Hok Ht) as (r' & s1 & E' & Hok' & _ & _ & Ho' & _).
    rewrite E' in E. injection E as -> ->. rewrite Ho'. exists V, W. split; [|done].
    destruct r; [|rewrite Z.add_0_r]; constructor.
  - destruct (update_guards _ _ _ _ E) as [_ Ho]. destruct (update_spec n f s s' V W Hok Hh Hi Hf E) as (Hok' & _ & _ & Eo & _).
    eexists _, _. split; [|exact Hok']. rewrite Eo. by constructor.
  - destruct (decide (outstanding (llog s) = 1)) as [E1|E1].
    + pose proof (end_op_room _ _ _ _ Hok E E1) as Hroom.
      destruct (end_op_commits s V W Hok E1 Hroom) as (s1 & ws & E' & Hok' & _ & Ho' & _).
      rewrite E' in E. injection E as <-. exists W, W. split; [|done]. rewrite E1, Ho'. constructor.
    + destruct (end_op_not_last s V W Hok ltac:(lia)) as (s1 & E' & Hok' & _ & _ & Ho').
      rewrite E' in E. injection E as <-. exists V, W. split; [|done]. rewrite Ho'. constructor. lia.
  - destruct (crash_disk_repr s V W e d Hok Hd) as [Hr|(-> & Eo & Hr)];
      destruct (reboot_ok _ _ _ _ Hr Ht E) as [Hok' ->].
    + exists V, V. split; [constructor|done].
    + exists W, W. rewrite Eo. split; [constructor|done].
Qed.

Lemma lrun_simulated s0 V0 tr s :
  sys_ok s0 V0 V0 → outstanding (llog s0) = 0 → lrun lstep s0 tr s →
  ∃ V W, lrun astep (V0, V0, 0) tr (V, W, outstanding (llog s)) ∧ sys_ok s V W.
Proof.
  intros Hok0 Ho0 Hrun. induction Hrun as [x|x tr y e z _ IH Hyz].
  - exists V0, V0. rewrite Ho0. split; [constructor|done].
  - destruct (IH Hok0 Ho0) as (V & W & Hr & Hok).
    destruct (lstep_simulated _ _ _ _ _ Hok Hyz) as (V' & W' & Ha & Hok').
    exists V', W'. split; [by econstructor|done].
Qed.

(** C5: The log makes file system calls atomic across crashes. Start the
    kernel on a disk that stands for the contents [V0] and let calls begin,
    change blocks and end in any order, with crashes between any two
    operations, in the middle of an [end_op], of a recovery or of a recovery
    of a recovery. Event by event, the code does what the specification does
    for that event: the number of open calls is [outstanding]; only an open
    call changes the contents the kernel sees, by exactly its update; the
    surviving contents never change while a call stays open, and the end of
    the last open call makes them, all at once, what the kernel sees. Recovery succeeds
    from any disk a crash can leave, with no call open, and brings back exactly the surviving
    contents; only if the crash hit the [end_op] of the last open call may it
    bring back those the kernel saw instead, never a mixture. (An
    [end_op] with its commit is one step: [begin_op] waits while one is under
    way, and no call is open.) *)
Theorem log_is_atomic d0 t0 s0 V0 tr s :
  disk_repr st d0 V0 → chan_ok t0 → reboot st d0 t0 = Some ((), s0) → lrun lstep s0 tr s →
  ∃ V W, lrun astep (V0, V0, 0) tr (V, W, outstanding (llog s)) ∧ sys_ok s V W ∧
    ∀ e d t, crash_disk s e d → chan_ok t →
      ∃ s', reboot st d t = Some ((), s') ∧ outstanding (llog s') = 0 ∧
        (sys_ok s' V V ∨ e = true ∧ outstanding (llog s) = 1 ∧ sys_ok s' W W).
Proof.
  intros Hd0 Ht0 E0 Hrun. destruct (reboot_ok _ _ _ _ Hd0 Ht0 E0) as [Hok0 Ho0].
  destruct (lrun_simulated _ _ _ _ Hok0 Ho0 Hrun) as (V & W & Hr & Hok).
  exists V, W. split_and!; [done|done|]. intros e d t Hd Ht.
  destruct (crash_disk_repr s V W e d Hok Hd) as [Hrep|(-> & Eo & Hrep)];
    destruct (recover_spec st _ _ t Hrep) as (s' & E' & _);
    destruct (reboot_ok _ _ _ _ Hrep Ht E') as [Hok' Ho']; exists s'; split_and!; auto.
Qed.

(** ** Reservations *)

(** The calls that are open, with the number of blocks each has logged. *)
Definition reserved (ws : list nat) : Z := foldr (λ w r, (MAXOPBLOCKS - Z.of_nat w) + r) 0 ws.

Inductive calls : lworld S → list nat → Prop :=
  | calls_boot d V t s : disk_repr st d V → chan_ok t → reboot st d t = Some ((), s) → calls s []
  | calls_begin t s s' ws :
      calls s ws → chan_is_proc t → begin_op_pass t s = Some (true, s') → calls s' (0%nat :: ws)
  | calls_wait t s s' ws :
      calls s ws → chan_is_proc t → begin_op_pass t s = Some (false, s') → calls s' ws
  | calls_update n f s s' ws1 w ws2 :
      calls s (ws1 ++ w :: ws2) → home st n → is_int n → (∀ d, length (f d) = length d) →
      Z.of_nat w < MAXOPBLOCKS → update_block n f s = Some ((), s') →
      calls s' (ws1 ++ Datatypes.S w :: ws2)
  | calls_end s s' ws1 w ws2 :
      calls s (ws1 ++ w :: ws2) → end_op s = Some ((), s') → calls s' (ws1 ++ ws2).

Lemma reserved_app ws1 ws2 : reserved (ws1 ++ ws2) = reserved ws1 + reserved ws2.
Proof. induction ws1 as [|w ws1 IH]; simpl; [done|]. rewrite IH. lia. Qed.
Lemma reserved_bound ws :
  Forall (λ w, Z.of_nat w ≤ MAXOPBLOCKS) ws →
  0 ≤ reserved ws ≤ Z.of_nat (length ws) * MAXOPBLOCKS.
Proof. unfold MAXOPBLOCKS. induction 1 as [|w ws Hw _ IH]; simpl; [lia|]. unfold MAXOPBLOCKS in *. lia. Qed.

Lemma calls_inv s ws :
  calls s ws → (∃ V W, sys_ok s V W) ∧ outstanding (llog s) = Z.of_nat (length ws) ∧
    Forall (λ w, Z.of_nat w ≤ MAXOPBLOCKS) ws ∧ lh_n (llog s) + reserved ws ≤ LOGBLOCKS.
Proof.
  induction 1 as [d V t s Hd Ht E|t s s' ws _ IH Ht E|t s s' ws _ IH Ht E|n f s s' ws1 w ws2 _ IH Hh Hi Hf Hw E
    |s s' ws1 w ws2 _ IH E].
  - destruct (recover_spec st d V t Hd) as (s1 & E1 & Hlog & Hn & Ho & Hcm & Ht1 & _).
    rewrite E1 in E. injection E as <-. split_and!; [|by rewrite Ho|constructor|rewrite Hn; done].
    exists V, V. split_and!; [by rewrite Ht1|done|done].
  - destruct IH as ((V & W & Hok) & Ho & Hws & Hr).
    destruct (begin_op_spec s V W t Hok Ht) as (r & s1 & E1 & Hok1 & _ & Hn & Ho1 & Hroom).
    rewrite E1 in E. injection E as -> ->. split_and!; [by exists V, W|simpl; lia| |].
    + constructor; [unfold MAXOPBLOCKS; lia|done].
    + pose proof (reserved_bound ws Hws). specialize (Hroom eq_refl). simpl. lia.
  - destruct IH as ((V & W & Hok) & Ho & Hws & Hr).
    destruct (begin_op_spec s V W t Hok Ht) as (r & s1 & E1 & Hok1 & _ & Hn & Ho1 & _).
    rewrite E1 in E. injection E as -> ->. split_and!; [by exists V, W|lia|done|lia].
  - destruct IH as ((V & W & Hok) & Ho & Hws & Hr).
    destruct (update_spec n f s s' V W Hok Hh Hi Hf E) as (Hok' & _ & _ & Ho' & Hn').
    rewrite reserved_app in *. simpl in *. rewrite length_app in *. simpl in *.
    apply Forall_app in Hws as [Hw1 [Hw0 Hw2]%Forall_cons].
    split_and!; [by eexists _, _|lia| |lia]. apply Forall_app. split; [done|]. constructor; [lia|done].
  - destruct IH as ((V & W & Hok) & Ho & Hws & Hr). rewrite reserved_app in Hr. rewrite length_app in *. simpl in *.
    apply Forall_app in Hws as [Hw1 [Hw0 Hw2]%Forall_cons].
    pose proof (reserved_bound _ Hw1) as Hb1. pose proof (reserved_bound _ Hw2) as Hb2.
    assert (Forall (λ w, Z.of_nat w ≤ MAXOPBLOCKS) (ws1 ++ ws2)) as Hws' by (by apply Forall_app).
    rewrite reserved_app. destruct (decide (outstanding (llog s) = 1)) as [E1|E1].
    + pose proof (end_op_room _ _ _ _ Hok E E1) as Hroom.
      destruct (end_op_commits s V W Hok E1 Hroom) as (s1 & ws & E' & Hok' & Hn' & Ho' & _).
      rewrite E' in E. injection E as <-. split_and!; [by exists W, W|lia|done|].
      assert (ws1 = [] ∧ ws2 = []) as [-> ->]; [|simpl; unfold LOGBLOCKS, MAXOPBLOCKS; lia].
      split; apply nil_length_inv; lia.
    + destruct (end_op_not_last s V W Hok) as (s1 & E' & Hok' & _ & Hn' & Ho'); [lia|].
      rewrite E' in E. injection E as <-. split_and!; [by exists V, W|lia|done|lia].
Qed.

(** C31: The space a call reserves is there when it needs it. However calls
    begin, log blocks and end, an open call that has logged fewer than
    [MAXOPBLOCKS] blocks can log another one: [log_write] does not panic, for
    any home block, and the block then reads as it was written. *)
Theorem log_space_suffices s ws1 w ws2 n f :
  calls s (ws1 ++ w :: ws2) → Z.of_nat w < MAXOPBLOCKS →
  home st n → is_int n → (∀ d, length (f d) = length d) →
  ∃ s' V W, update_block n f s = Some ((), s') ∧ sys_ok s V W ∧ sys_ok s' V (upd W n (f (W n))).
Proof.
  intros Hc Hw Hh Hi Hf. destruct (calls_inv _ _ Hc) as ((V & W & Hok) & Ho & Hws & Hr).
  rewrite reserved_app in Hr. rewrite length_app in Ho. simpl in Hr, Ho.
  apply Forall_app in Hws as [Hw1 [Hw0 Hw2]%Forall_cons].
  pose proof (reserved_bound _ Hw1) as Hb1. pose proof (reserved_bound _ Hw2) as Hb2.
  pose proof Hok as (Hc1 & Hcm & R & v & Hinv). destruct s as [t b0 l]. cbn [llog ltable] in *.
  destruct (decide (n ∈ in_trans l)) as [Hin|Hnin].
  - destruct (update_absorbed t b0 l R v V W n f) as (b & v' & E & Hinv' & _); try done; [lia|lia|].
    eexists _, V, W. split_and!; [exact E|done|]. split_and!; [done|done|]. by exists R, v'.
  - destruct (update_added t b0 l R v V W n f) as (b & v' & E & Hinv' & _); try done; [lia|lia|].
    eexists _, V, W. split_and!; [exact E|done|]. split_and!; [done|done|]. by exists (<[n := (1, false)]> R), v'.
Qed.
End sys.

(** ** A session *)

Definition demo_table : kstate unit :=
  mkKstate (replicate NPROC (mkproc RUNNING None false 0 1 None 0 0 0 0 [] (0, 0) [] 0 [] 0 0 0)) [] None 2 1 0 0 ().
Definition fill_sevens (d : block) : block := (λ _, 7) <$> d.

(** An empty disk with its log at block 2. *)
Lemma empty_disk_repr : disk_repr 2 ∅ (on_disk ∅).
Proof. apply repr_clear; [|reflexivity]. intros b. unfold on_disk. rewrite lookup_empty. apply length_replicate. Qed.

(** The kernel starts, a call begins and writes block 100. *)
Lemma demo_calls :
  ∃ s0 s1 s2 : lworld (kstate unit),
    reboot 2 ∅ demo_table = Some ((), s0) ∧ begin_op_pass 1 s0 = Some (true, s1) ∧
    update_block 100 fill_sevens s1 = Some ((), s2) ∧ calls 2 s1 [0%nat].
Proof.
  destruct (recover_spec 2 ∅ (on_disk ∅) demo_table empty_disk_repr)
    as (s0 & E0 & Hlog & Hn & Ho & Hcm & Ht & _).
  assert (sys_ok 2 s0 (on_disk ∅) (on_disk ∅)) as Hok by (split_and!; [by rewrite Ht|done|done]).
  assert (chan_is_proc (S := kstate unit) 1) as Hp by (change (1 < 64)%nat; lia).
  destruct (begin_op_spec 2 s0 _ _ 1 Hok Hp) as (r & s1 & E1 & Hok1 & _ & Hn1 & Ho1 & _).
  assert (r = true) as ->.
  { unfold begin_op_pass, the_log in E1. erewrite (bind_eq (gets _)) in E1 by reflexivity.
    rewrite Hcm, Hn, Ho in E1. cbn in E1. injection E1. congruence. }
  destruct Hok1 as (Hc1 & Hcm1 & R & v & Hinv). destruct s1 as [t1 b1 l1]. cbn [llog ltable] in *.
  destruct (update_added 2 t1 b1 l1 R v (on_disk ∅) (on_disk ∅) 100 fill_sevens) as (b & v' & E2 & _).
  - done.
  - lia.
  - rewrite Hn1, Hn. done.
  - unfold in_trans. rewrite Hn1, Hn. by intros ?%elem_of_nil.
  - intros d. apply length_fmap.
  - unfold home, LOGBLOCKS, MAXOPBLOCKS. lia.
  - unfold is_int. lia.
  - eexists s0, _, _. split_and!; [done|exact E1|exact E2|].
    eapply calls_begin; [|exact Hp|exact E1].
    by apply (calls_boot 2 ∅ (on_disk ∅) demo_table s0 empty_disk_repr).
Qed.

Lemma log_space_suffices_witness :
  ∃ (s s' : lworld (kstate unit)) V W, update_block 100 fill_sevens s = Some ((), s') ∧
    sys_ok 2 s V W ∧ sys_ok 2 s' V (upd W 100 (fill_sevens (W 100))).
Proof.
  destruct demo_calls as (s0 & s1 & s2 & _ & _ & _ & Hc). exists s1.
  apply (log_space_suffices 2 s1 [] 0 [] 100 fill_sevens Hc).
  - reflexivity.
  - unfold home, LOGBLOCKS, MAXOPBLOCKS. lia.
  - unfold is_int. lia.
  - intros d. apply length_fmap.
Defined.

Lemma log_is_atomic_witness :
  ∃ (s0 s2 : lworld (kstate unit)) V W,
    let tr := [EBegin 1 true; EUpdate 100 fill_sevens] in
    lrun (lstep 2) s0 tr s2 ∧
    lrun astep (on_disk ∅, on_disk ∅, 0) tr (V, W, outstanding (llog s2)) ∧ sys_ok 2 s2 V W ∧
    ∀ e d (t : kstate unit), crash_disk 2 s2 e d → chan_ok t →
      ∃ s', reboot 2 d t = Some ((), s') ∧ outstanding (llog s') = 0 ∧
        (sys_ok 2 s' V V ∨ e = true ∧ outstanding (llog s2) = 1 ∧ sys_ok 2 s' W W).
Proof.
  destruct demo_calls as (s0 & s1 & s2 & E0 & E1 & E2 & _). exists s0, s2.
  assert (lrun (lstep 2) s0 [EBegin 1 true; EUpdate 100 fill_sevens] s2) as Hrun.
  { eapply (run_snoc _ _ [EBegin 1 true]); [eapply (run_snoc _ _ []); [apply run_nil|]|].
    - apply ls_begin; [change (1 < 64)%nat; lia|exact E1].
    - apply ls_update; [..|exact E2].
      + unfold home, LOGBLOCKS, MAXOPBLOCKS. lia.
      + unfold is_int. lia.
      + intros d. apply length_fmap. }
  destruct (log_is_atomic 2 ∅ demo_table s0 (on_disk ∅) [EBegin 1 true; EUpdate 100 fill_sevens] s2) as (V & W & H1 & H2 & H3);
    [apply empty_disk_repr|reflexivity|exact E0|exact Hrun|].
  exists V, W. split_and!; [exact Hrun|exact H1|exact H2|exact H3].
Defined.
