(* ===== verification/Vm.v ===== *)
(** Page tables of the kernel: [xv6/kernel/vm.c].

    Memory that is in use is a map from page addresses to the 512 words of the
    page; a page-table entry is a word, with its flags and address taken apart
    by the bit operations of [riscv.h]. The page allocator is known through
    the interface [PageAlloc], which [kalloc.c] implements. [None] is a panic
    or an access to a page that is not in use.

    A pointer to an entry is the page and the index in it. *)
From S2P Require Import Prelude Kalloc Proc.

(** What the allocator promises: [pa_ok a F] says that exactly the pages [F]
    are free. *)
Class PageAlloc (A : Type) := {
  pa_kalloc : M A Z;
  pa_kfree : Z → M A unit;
  pa_ok : A → gset Z → Prop;
  pa_valid : Z → Prop;
  pa_valid_range : ∀ p, pa_valid p → 0 < p < 2 ^ 56 ∧ p mod PGSIZE = 0;
  pa_ok_valid : ∀ a F p, pa_ok a F → p ∈ F → pa_valid p;
  pa_kalloc_spec : ∀ a F, pa_ok a F →
    (F = ∅ ∧ pa_kalloc a = Some (0, a)) ∨
    (∃ p a', p ∈ F ∧ pa_kalloc a = Some (p, a') ∧ pa_ok a' (F ∖ {[p]}));
  pa_kfree_spec : ∀ a F p, pa_ok a F → pa_valid p → p ∉ F →
    ∃ a', pa_kfree p a = Some ((), a') ∧ pa_ok a' (F ∪ {[p]});
}.

(** ** Entries *)

Definition PTE_V : Z := 1.
Definition PTE_U : Z := 16.
Definition PA2PTE (pa : Z) : Z := Z.shiftl (Z.shiftr pa 12) 10.
Definition PTE2PA (pte : Z) : Z := u64 (Z.shiftl (Z.shiftr pte 10) 12).
Definition PTE_FLAGS (pte : Z) : Z := Z.land pte 0x3FF.
Definition PX (level va : Z) : Z := Z.land (Z.shiftr va (12 + 9 * level)) 511.

Record vworld (A : Type) := mkVworld { alloc : A; words : gmap Z (list Z) }.
Arguments mkVworld {A}.
Arguments alloc {A}.
Arguments words {A}.

Section code.
Context {A : Type} `{PageAlloc A}.
Abbreviation vm := (M (vworld A)).

Definition kalloc_page : vm Z := λ w,
  match pa_kalloc (alloc w) with
  | Some (p, a) => Some (p, mkVworld a (words w))
  | None => None
  end.
(** A page that is freed must not be used any more. *)
Definition kfree_page (p : Z) : vm unit := λ w,
  match pa_kfree p (alloc w) with
  | Some (_, a) => Some ((), mkVworld a (delete p (words w)))
  | None => None
  end.
Definition set_page_words (p : Z) (ws : list Z) : vm unit :=
  modify (λ w, mkVworld (alloc w) (<[p := ws]> (words w))).
(** [memset(p, 0, PGSIZE)] *)
Definition clear_page (p : Z) : vm unit := set_page_words p (replicate 512 0).

(** [*pte] and [*pte = v]. *)
Definition load (p k : Z) : vm Z := λ w,
  match words w !! p ≫= (λ ws, ws !! Z.to_nat k) with Some v => Some (v, w) | None => None end.
Definition store (p k v : Z) : vm unit := λ w,
  match words w !! p with
  | Some ws => if decide (Z.to_nat k < length ws)%nat
               then set_page_words p (<[Z.to_nat k := v]> ws) w else None
  | None => None
  end.

(** One turn of the loop of [walk]: the next page table, or nothing. *)
Definition walk_level (level pagetable va : Z) (al : bool) : vm (option Z) :=
  let k := PX level va in
  pte ← load pagetable k;
  if Z.testbit pte 0 then mret (Some (PTE2PA pte))
  else if al then
    p ← kalloc_page;
    if p =? 0 then mret None
    else
      clear_page p;;
      store pagetable k (Z.lor (PA2PTE p) PTE_V);;
      mret (Some p)
  else mret None.

Definition walk (pagetable va : Z) (al : bool) : vm (option (Z * Z)) :=
  if MAXVA <=? va then stuck
  else
    o1 ← walk_level 2 pagetable va al;
    match o1 with
    | None => mret None
    | Some p1 =>
      o0 ← walk_level 1 p1 va al;
      match o0 with
      | None => mret None
      | Some p0 => mret (Some (p0, PX 0 va))
      end
    end.

Definition walkaddr (pagetable va : Z) : vm Z :=
  if MAXVA <=? va then mret 0
  else
    o ← walk pagetable va false;
    match o with
    | None => mret 0
    | Some (p, k) =>
      pte ← load p k;
      if negb (Z.testbit pte 0) then mret 0
      else if negb (Z.testbit pte 4) then mret 0
      else mret (PTE2PA pte)
    end.

(** The loop of [mappages]; [n] is the number of pages that are left. *)
Fixpoint mappages_loop (n : nat) (pagetable a last pa perm : Z) : vm Z :=
  match n with
  | O => stuck
  | S n =>
    o ← walk pagetable a true;
    match o with
    | None => mret (-1)
    | Some (p, k) =>
      pte ← load p k;
      if Z.testbit pte 0 then stuck
      else
        store p k (Z.lor (Z.lor (PA2PTE pa) perm) PTE_V);;
        if a =? last then mret 0
        else mappages_loop n pagetable (u64 (a + PGSIZE)) last (u64 (pa + PGSIZE)) perm
    end
  end.
Definition mappages (pagetable va size pa perm : Z) : vm Z :=
  if negb (va mod PGSIZE =? 0) || negb (size mod PGSIZE =? 0) || (size =? 0) then stuck
  else mappages_loop (Z.to_nat (size / PGSIZE)) pagetable va (u64 (va + size - PGSIZE)) pa perm.

Definition uvmcreate : vm Z :=
  p ← kalloc_page;
  if p =? 0 then mret 0 else clear_page p;; mret p.

(** One turn of the loop of [uvmunmap]. *)
Definition unmap_one (pagetable a : Z) (do_free : bool) : vm unit :=
  o ← walk pagetable a false;
  match o with
  | None => mret ()
  | Some (p, k) =>
    pte ← load p k;
    if Z.testbit pte 0 then
      when do_free (kfree_page (PTE2PA pte));;
      store p k 0
    else mret ()
  end.
(** The loop of [uvmunmap], with fuel for the number of pages. *)
Fixpoint unmap_loop (fuel : nat) (pagetable a last : Z) (do_free : bool) : vm unit :=
  match fuel with
  | O => stuck
  | S fuel =>
    if a <? last then
      unmap_one pagetable a do_free;;
      unmap_loop fuel pagetable (u64 (a + PGSIZE)) last do_free
    else mret ()
  end.
Definition uvmunmap (pagetable va npages : Z) (do_free : bool) : vm unit :=
  if negb (va mod PGSIZE =? 0) then stuck
  else unmap_loop (S (Z.to_nat npages)) pagetable va (u64 (va + npages * PGSIZE)) do_free.

Definition uvmdealloc (pagetable oldsz newsz : Z) : vm Z :=
  if oldsz <=? newsz then mret oldsz
  else
    when (PGROUNDUP newsz <? PGROUNDUP oldsz)
      (uvmunmap pagetable (PGROUNDUP newsz) (int32 ((PGROUNDUP oldsz - PGROUNDUP newsz) / PGSIZE)) true);;
    mret newsz.

(** The loop of [uvmalloc], from [a] to [newsz]. *)
Fixpoint uvmalloc_loop (fuel : nat) (pagetable oldsz a newsz xperm : Z) : vm Z :=
  match fuel with
  | O => stuck
  | S fuel =>
    if a <? newsz then
      mem ← kalloc_page;
      if mem =? 0 then uvmdealloc pagetable a oldsz;; mret 0
      else
        clear_page mem;;
        r ← mappages pagetable a PGSIZE mem (Z.lor (Z.lor PTE_R PTE_U) xperm);
        if r =? 0 then uvmalloc_loop fuel pagetable oldsz (u64 (a + PGSIZE)) newsz xperm
        else kfree_page mem;; uvmdealloc pagetable a oldsz;; mret 0
    else mret newsz
  end.
Definition uvmalloc (pagetable oldsz newsz xperm : Z) : vm Z :=
  if newsz <? oldsz then mret oldsz
  else
    uvmalloc_loop (S (Z.to_nat ((newsz - oldsz) / PGSIZE + 1))) pagetable (PGROUNDUP oldsz)
      (PGROUNDUP oldsz) newsz xperm.

(** [freewalk]; [depth] bounds the recursion, page tables have three levels. *)
Fixpoint freewalk (depth : nat) (pagetable : Z) : vm unit :=
  match depth with
  | O => stuck
  | S depth =>
    mfor (seq 0 512) (λ i,
      let k := Z.of_nat i in
      pte ← load pagetable k;
      if Z.testbit pte 0 && (Z.land pte (Z.lor (Z.lor PTE_R PTE_W) PTE_X) =? 0) then
        freewalk depth (PTE2PA pte);;
        store pagetable k 0
      else if Z.testbit pte 0 then stuck
      else mret ());;
    kfree_page pagetable
  end.
Definition uvmfree (pagetable sz : Z) : vm unit :=
  when (0 <? sz) (uvmunmap pagetable 0 (PGROUNDUP sz / PGSIZE) true);;
  freewalk 3 pagetable.

(** The loop of [uvmcopy]. *)
Fixpoint uvmcopy_loop (fuel : nat) (old new i sz : Z) : vm Z :=
  let err := uvmunmap new 0 (i / PGSIZE) true;; mret (-1) in
  match fuel with
  | O => stuck
  | S fuel =>
    if i <? sz then
      o ← walk old i false;
      match o with
      | None => uvmcopy_loop fuel old new (u64 (i + PGSIZE)) sz
      | Some (p, k) =>
        pte ← load p k;
        if Z.testbit pte 0 then
          mem ← kalloc_page;
          if mem =? 0 then err
          else
            ws ← gets (λ w, words w !! PTE2PA pte);
            match ws with
            | None => stuck
            | Some ws =>
              set_page_words mem ws;;
              r ← mappages new i PGSIZE mem (PTE_FLAGS pte);
              if r =? 0 then uvmcopy_loop fuel old new (u64 (i + PGSIZE)) sz
              else kfree_page mem;; err
            end
        else uvmcopy_loop fuel old new (u64 (i + PGSIZE)) sz
      end
    else mret 0
  end.
Definition uvmcopy (old new sz : Z) : vm Z :=
  uvmcopy_loop (S (Z.to_nat (sz / PGSIZE + 1))) old new 0 sz.

Definition uvmclear (pagetable va : Z) : vm unit :=
  o ← walk pagetable va false;
  match o with
  | None => stuck
  | Some (p, k) => pte ← load p k; store p k (Z.land pte (Z.lnot PTE_U))
  end.

Definition ismapped (pagetable va : Z) : vm bool :=
  o ← walk pagetable va false;
  match o with
  | None => mret false
  | Some (p, k) => pte ← load p k; mret (Z.testbit pte 0)
  end.

Definition vmfault (pagetable psz va : Z) : vm Z :=
  if psz <=? va then mret 0
  else
    let va := PGROUNDDOWN va in
    b ← ismapped pagetable va;
    if b : bool then mret 0
    else
      mem ← kalloc_page;
      if mem =? 0 then mret 0
      else
        clear_page mem;;
        r ← mappages pagetable va PGSIZE mem (Z.lor (Z.lor PTE_W PTE_U) PTE_R);
        if r =? 0 then mret mem else kfree_page mem;; mret 0.
End code.
