(* ===== verification/VmSpec.v ===== *)
(** Page tables as finite maps: the proofs about [Vm]. *)
From S2P Require Import Prelude Kalloc Proc Vm.

(** ** Entries *)

Lemma lor_add a b n : 0 ≤ n → 0 ≤ b < 2 ^ n → a mod 2 ^ n = 0 → Z.lor a b = a + b.
Proof.
  intros Hn Hb Ha. assert (Z.land a b = 0) as E.
  { apply Z.bits_inj'. intros i Hi. rewrite Z.land_spec, Z.bits_0. destruct (decide (i < n)).
    - rewrite <-(Z.mod_pow2_bits_low a n i), Ha, Z.bits_0 by lia. done.
    - destruct (decide (b = 0)) as [->|]; [by rewrite Z.bits_0, andb_false_r|].
      rewrite (Z.bits_above_log2 b), andb_false_r; [done|lia|].
      apply Z.log2_lt_pow2; [lia|]. apply Z.lt_le_trans with (2 ^ n); [lia|]. apply Z.pow_le_mono_r; lia. }
  by rewrite <-Z.lxor_lor, <-Z.add_nocarry_lxor.
Qed.

Lemma PA2PTE_mul p : PA2PTE p = p / 4096 * 1024.
Proof. unfold PA2PTE. by rewrite Z.shiftl_mul_pow2, Z.shiftr_div_pow2 by lia. Qed.

(** An entry gives back its address and its flags. *)
Lemma pte_parts p fl :
  p mod PGSIZE = 0 → 0 ≤ p < 2 ^ 56 → 0 ≤ fl < 1024 →
  PTE2PA (Z.lor (PA2PTE p) fl) = p ∧ PTE_FLAGS (Z.lor (PA2PTE p) fl) = fl.
Proof.
  unfold PGSIZE. intros Hp Hr Hf. rewrite PA2PTE_mul.
  rewrite (lor_add _ _ 10) by (lia || (change (2 ^ 10) with 1024; apply Z.mod_mul; lia)).
  split.
  - unfold PTE2PA. rewrite Z.shiftl_mul_pow2, Z.shiftr_div_pow2 by lia. change (2 ^ 10) with 1024.
    rewrite Z.div_add_l, (Z.div_small fl) by lia. rewrite Z.add_0_r. change (2 ^ 12) with 4096.
    replace (p / 4096 * 4096) with p by (pose proof (Z.div_mod p 4096); lia). apply u64_id. lia.
  - unfold PTE_FLAGS. change 0x3FF with (Z.ones 10). rewrite Z.land_ones by lia. change (2 ^ 10) with 1024.
    rewrite Z.add_comm, Z.mod_add by lia. by apply Z.mod_small.
Qed.

Lemma pte_bit p fl i :
  0 ≤ i < 10 → 0 ≤ fl → Z.testbit (Z.lor (PA2PTE p) fl) i = Z.testbit fl i.
Proof.
  intros Hi Hf. rewrite Z.lor_spec. unfold PA2PTE. by rewrite Z.shiftl_spec_low by lia.
Qed.

Lemma PX_mod level va : 0 ≤ level → PX level va = va / 2 ^ (12 + 9 * level) mod 512.
Proof.
  intros Hl. unfold PX. change 511 with (Z.ones 9). rewrite Z.land_ones, Z.shiftr_div_pow2 by lia. done.
Qed.
Lemma PX_range level va : 0 ≤ level → 0 ≤ PX level va < 512.
Proof. intros. rewrite PX_mod by done. apply Z.mod_pos_bound. lia. Qed.

(** The page number with the three indices [i], [j] and [k]. *)
Definition vpn_of (i j k : Z) : Z := i * 262144 + j * 512 + k.

Lemma vpn_of_inj i j k i' j' k' :
  0 ≤ j < 512 → 0 ≤ k < 512 → 0 ≤ j' < 512 → 0 ≤ k' < 512 →
  vpn_of i j k = vpn_of i' j' k' → i = i' ∧ j = j' ∧ k = k'.
Proof. unfold vpn_of. lia. Qed.

Lemma vpn_of_PX va : 0 ≤ va < MAXVA → vpn_of (PX 2 va) (PX 1 va) (PX 0 va) = va / PGSIZE.
Proof.
  unfold MAXVA, vpn_of, PGSIZE. intros Hva. rewrite !PX_mod by lia.
  change (2 ^ (12 + 9 * 0)) with 4096. change (2 ^ (12 + 9 * 1)) with (4096 * 512).
  change (2 ^ (12 + 9 * 2)) with (4096 * 262144). rewrite <-!Z.div_div by lia.
  set (n := va / 4096). assert (0 ≤ n < 2 ^ 26) as Hn.
  { unfold n. split; [apply Z.div_pos; lia|apply Z.div_lt_upper_bound; lia]. }
  replace (n / 262144) with (n / 512 / 512) by (rewrite Z.div_div by lia; done).
  rewrite (Z.mod_small (n / 512 / 512)).
  - pose proof (Z.div_mod n 512). pose proof (Z.div_mod (n / 512) 512). lia.
  - rewrite Z.div_div by lia. split; [apply Z.div_pos; lia|apply Z.div_lt_upper_bound; lia].
Qed.

(** ** The tree of page-table pages *)

(** A place in the tree: the root, the table below its entry [i], and the
    table below entry [j] of that one. *)
Inductive node := NRoot | NMid (i : Z) | NLeaf (i j : Z).

#[export] Instance node_eq_dec : EqDecision node.
Proof. solve_decision. Defined.

(** The pages of a tree and the entries [L] of its last level, by page number. *)
Record tree := mkTree { root : Z; mids : gmap Z Z; leaves : gmap (Z * Z) Z; L : gmap Z Z }.

Definition addr (T : tree) (n : node) : option Z :=
  match n with
  | NRoot => Some (root T)
  | NMid i => mids T !! i
  | NLeaf i j => leaves T !! (i, j)
  end.
Definition set_L l T := mkTree (root T) (mids T) (leaves T) l.

(** A directory entry. *)
Definition dir (o : option Z) : Z := match o with Some p => Z.lor (PA2PTE p) PTE_V | None => 0 end.

(** Entry [k] of the page at a node. *)
Definition entry (T : tree) (n : node) (k : Z) : Z :=
  match n with
  | NRoot => dir (mids T !! k)
  | NMid i => dir (leaves T !! (i, k))
  | NLeaf i j => default 0 (L T !! vpn_of i j k)
  end.

Definition page_is (m : gmap Z (list Z)) (p : Z) (f : Z → Z) : Prop :=
  ∃ ws, m !! p = Some ws ∧ length ws = 512%nat ∧ ∀ k, 0 ≤ k < 512 → ws !! Z.to_nat k = Some (f k).

Section tree.
Context {A : Type} `{PageAlloc A}.
Implicit Types (w : vworld A) (T : tree) (F : gset Z).

Record tree_inv (m : gmap Z (list Z)) F T : Prop := {
  ti_page : ∀ n p, addr T n = Some p → page_is m p (entry T n);
  ti_valid : ∀ n p, addr T n = Some p → pa_valid p ∧ p ∉ F;
  ti_inj : ∀ n n' p, addr T n = Some p → addr T n' = Some p → n = n';
  ti_mid : ∀ i p, mids T !! i = Some p → 0 ≤ i < 512;
  ti_leaf : ∀ i j p, leaves T !! (i, j) = Some p → 0 ≤ i < 512 ∧ 0 ≤ j < 512 ∧ is_Some (mids T !! i);
  ti_L : ∀ i j k e, 0 ≤ k < 512 → 0 ≤ j < 512 → L T !! vpn_of i j k = Some e → is_Some (leaves T !! (i, j));
}.

Record vm_inv w F T : Prop := {
  vi_alloc : pa_ok (alloc w) F;
  vi_tree : tree_inv (words w) F T;
}.

(** Pages that are neither free nor part of the tree are left alone. *)
Definition frame w w' F T : Prop :=
  ∀ p, p ∉ F → (∀ n, addr T n ≠ Some p) → words w' !! p = words w !! p.

Lemma page_is_ext m p f g : (∀ k, 0 ≤ k < 512 → f k = g k) → page_is m p f → page_is m p g.
Proof. intros E (ws & Hm & Hl & Hk). exists ws. split_and!; [done|done|]. intros k Hk'. rewrite <-E; auto. Qed.

Lemma page_is_other m p p' ws f : p ≠ p' → page_is m p f → page_is (<[p' := ws]> m) p f.
Proof. intros Hne (ws0 & Hm & Hr). exists ws0. by rewrite lookup_insert_ne. Qed.

Lemma load_page {B} w p k f (g : Z → M (vworld A) B) :
  page_is (words w) p f → 0 ≤ k < 512 → (load p k ≫= g) w = g (f k) w.
Proof.
  intros (ws & Hm & _ & Hk) Hr. apply bind_eq. unfold load. rewrite Hm. simpl. by rewrite Hk.
Qed.

Lemma store_page w p k v f :
  page_is (words w) p f → 0 ≤ k < 512 →
  ∃ ws, store p k v w = Some ((), mkVworld (alloc w) (<[p := ws]> (words w))) ∧
    page_is (<[p := ws]> (words w)) p (λ x, if decide (x = k) then v else f x).
Proof.
  intros (ws & Hm & Hl & Hk) Hr. exists (<[Z.to_nat k := v]> ws). split.
  - unfold store. rewrite Hm, decide_True by lia. done.
  - exists (<[Z.to_nat k := v]> ws). split_and!; [apply lookup_insert_eq|by rewrite length_insert|].
    intros x Hx. case_decide as E.
    + subst. apply list_lookup_insert_eq. lia.
    + rewrite list_lookup_insert_ne by lia. by apply Hk.
Qed.

Lemma dir_valid p : pa_valid p → Z.testbit (dir (Some p)) 0 = true ∧ PTE2PA (dir (Some p)) = p.
Proof.
  intros [Hr Ha]%pa_valid_range. unfold dir. split.
  - by rewrite pte_bit by (unfold PTE_V; lia).
  - apply pte_parts; [done|lia|unfold PTE_V; lia].
Qed.

(** Walking without allocating. *)
Lemma walk_lookup w F T va :
  vm_inv w F T → 0 ≤ va < MAXVA →
  walk (root T) va false w =
    Some ((λ p, (p, PX 0 va)) <$> leaves T !! (PX 2 va, PX 1 va), w).
Proof.
  intros [_ HT] Hva. unfold walk. rewrite (proj2 (Z.leb_gt _ _)) by lia. unfold walk_level.
  pose proof (PX_range 2 va) as H2. pose proof (PX_range 1 va) as H1.
  rewrite bind_assoc. rewrite (load_page _ _ _ (entry T NRoot)); [|by apply (ti_page _ _ _ HT)|lia].
  cbn [entry]. destruct (mids T !! PX 2 va) as [p1|] eqn:E1.
  - destruct (dir_valid p1) as [Hb Hp]; [by eapply (ti_valid _ _ _ HT (NMid _))|].
    rewrite Hb, Hp. erewrite (bind_eq (mret _)) by reflexivity. cbn beta iota.
    rewrite bind_assoc. rewrite (load_page _ _ _ (entry T (NMid (PX 2 va)))); [|by apply (ti_page _ _ _ HT)|lia].
    cbn [entry]. destruct (leaves T !! (PX 2 va, PX 1 va)) as [p0|] eqn:E0; [|done].
    destruct (dir_valid p0) as [Hb0 Hp0]; [by eapply (ti_valid _ _ _ HT (NLeaf _ _))|].
    by rewrite Hb0, Hp0.
  - destruct (leaves T !! (PX 2 va, PX 1 va)) as [p0|] eqn:E0; [|done].
    destruct (ti_leaf _ _ _ HT _ _ _ E0) as (_ & _ & [? ?]). congruence.
Qed.

(** ** Walking with allocation *)

Lemma page_is_zero m p : page_is (<[p := replicate 512 0]> m) p (λ _, 0).
Proof.
  exists (replicate 512 0). split_and!; [apply lookup_insert_eq|by rewrite length_replicate|].
  intros k Hk. apply lookup_replicate_2. lia.
Qed.

(** A new page hangs below entry [k] of the page of [parent]. *)
Definition grows T T' (parent c : node) (k p : Z) : Prop :=
  addr T c = None ∧ addr T' c = Some p ∧ (∀ n, n ≠ c → addr T' n = addr T n) ∧
  (∀ x, 0 ≤ x < 512 → entry T' c x = 0) ∧
  (∀ n x, n ≠ c → 0 ≤ x < 512 →
     entry T' n x = if decide (n = parent ∧ x = k) then dir (Some p) else entry T n x).

Lemma grow_pages m F T T' parent pp k c p ws :
  tree_inv m F T → grows T T' parent c k p → addr T parent = Some pp → p ∈ F → pa_valid p →
  let m' := <[pp := ws]> (<[p := replicate 512 0]> m) in
  page_is m' pp (λ x, if decide (x = k) then dir (Some p) else entry T parent x) →
  (∀ n q, addr T' n = Some q → page_is m' q (entry T' n)) ∧
  (∀ n q, addr T' n = Some q → pa_valid q ∧ q ∉ F ∖ {[p]}) ∧
  (∀ n n' q, addr T' n = Some q → addr T' n' = Some q → n = n').
Proof.
  intros HT (Hc & Hc' & Hoth & Hz & Hent) Hpp HpF Hpv m' Hpage.
  assert (parent ≠ c) as Hpc by congruence.
  assert (∀ n q, addr T n = Some q → q ≠ p) as Hne.
  { intros n q Hq ->. by apply (ti_valid _ _ _ HT n p) in Hq as [_ ?]. }
  assert (∀ n, n ≠ c → addr T' n ≠ Some p) as Hfresh.
  { intros n Hn. rewrite Hoth by done. intros E. by apply (Hne n p E). }
  split_and!.
  - intros n q Hq. destruct (decide (n = c)) as [->|Hn].
    + assert (q = p) as -> by congruence. apply page_is_ext with (λ _, 0); [intros; by rewrite Hz|].
      apply page_is_other; [by intros <-; eapply Hne|]. apply page_is_zero.
    + rewrite Hoth in Hq by done. destruct (decide (n = parent)) as [->|Hnp].
      * assert (q = pp) as -> by congruence. eapply page_is_ext; [|exact Hpage]. intros x Hx. simpl.
        rewrite Hent by done. by repeat case_decide; naive_solver.
      * apply page_is_ext with (entry T n).
        { intros x Hx. rewrite Hent by done. rewrite decide_False; [done|naive_solver]. }
        apply page_is_other; [|apply page_is_other; [by eapply Hne|by apply (ti_page _ _ _ HT)]].
        intros ->. apply Hnp. by eapply (ti_inj _ _ _ HT).
  - intros n q Hq. destruct (decide (n = c)) as [->|Hn].
    + assert (q = p) as -> by congruence. split; [done|set_solver].
    + rewrite Hoth in Hq by done. destruct (ti_valid _ _ _ HT n q Hq) as [? ?]. split; [done|set_solver].
  - intros n n' q Hq Hq'. destruct (decide (n = c)) as [->|Hn], (decide (n' = c)) as [->|Hn']; [done|..].
    + exfalso. apply (Hfresh n' Hn'). congruence.
    + exfalso. apply (Hfresh n Hn). congruence.
    + rewrite Hoth in Hq, Hq' by done. by eapply (ti_inj _ _ _ HT).
Qed.

(** One turn of [walk] that has to make the next table. *)
Lemma walk_level_grows w F T (T' : Z → tree) parent pp level va c :
  vm_inv w F T → addr T parent = Some pp → 0 ≤ level → entry T parent (PX level va) = 0 →
  (∀ p, p ∈ F → grows T (T' p) parent c (PX level va) p ∧
     ∀ m, (∀ n q, addr (T' p) n = Some q → page_is m q (entry (T' p) n)) →
       (∀ n q, addr (T' p) n = Some q → pa_valid q ∧ q ∉ F ∖ {[p]}) →
       (∀ n n' q, addr (T' p) n = Some q → addr (T' p) n' = Some q → n = n') →
       tree_inv m (F ∖ {[p]}) (T' p)) →
  (F = ∅ ∧ walk_level level pp va true w = Some (None, w)) ∨
  (∃ p w', p ∈ F ∧ walk_level level pp va true w = Some (Some p, w') ∧
     vm_inv w' (F ∖ {[p]}) (T' p) ∧ frame w w' F T).
Proof.
  intros [Hal HT] Hpp Hlv Hent Hgrow. pose proof (PX_range level va Hlv) as Hk. unfold walk_level.
  rewrite (load_page _ _ _ (entry T parent)) by (done || by apply (ti_page _ _ _ HT)). rewrite Hent, Z.bits_0.
  destruct (pa_kalloc_spec _ _ Hal) as [[-> E]|(p & a' & HpF & E & Hal')].
  - left. split; [done|]. rewrite (bind_eq _ _ _ 0 w); [done|]. unfold kalloc_page. rewrite E. by destruct w.
  - right. destruct (Hgrow p HpF) as [Hgr Hti].
    pose proof (pa_ok_valid _ _ _ Hal HpF) as Hpv. pose proof (pa_valid_range p Hpv) as [Hp0 _].
    rewrite (bind_eq _ _ _ p (mkVworld a' (words w))) by (unfold kalloc_page; by rewrite E).
    rewrite (proj2 (Z.eqb_neq _ _)) by lia. unfold clear_page, set_page_words.
    erewrite (bind_eq (modify _)) by reflexivity. cbn [alloc words].
    set (w1 := mkVworld a' (<[p := replicate 512 0]> (words w))).
    assert (pp ≠ p) as Hne.
    { intros ->. by apply (ti_valid _ _ _ HT parent p) in Hpp as [_ ?]. }
    destruct (store_page w1 pp (PX level va) (dir (Some p)) (entry T parent)) as (ws & Es & Hpage).
    { unfold w1. cbn [words]. apply page_is_other; [done|]. by apply (ti_page _ _ _ HT). }
    { done. }
    rewrite (bind_eq _ _ _ _ _ Es). cbn [alloc words w1] in *.
    destruct (grow_pages _ _ _ _ _ _ _ _ _ _ HT Hgr Hpp HpF Hpv Hpage) as (H1 & H2 & H3).
    exists p. eexists. split_and!; [done|reflexivity| |].
    + split; [exact Hal'|]. by apply Hti.
    + intros q HqF Hq. cbn [words]. rewrite !lookup_insert_ne; [done|set_solver|]. intros ->. by apply (Hq parent).
Qed.

Definition add_mid (i p : Z) T : tree := mkTree (root T) (<[i := p]> (mids T)) (leaves T) (L T).
Definition add_leaf (i j p : Z) T : tree := mkTree (root T) (mids T) (<[(i, j) := p]> (leaves T)) (L T).

Lemma add_mid_grows m F T i p :
  tree_inv m F T → mids T !! i = None → 0 ≤ i < 512 → p ∈ F →
  grows T (add_mid i p T) NRoot (NMid i) i p ∧
  ∀ m', (∀ n q, addr (add_mid i p T) n = Some q → page_is m' q (entry (add_mid i p T) n)) →
    (∀ n q, addr (add_mid i p T) n = Some q → pa_valid q ∧ q ∉ F ∖ {[p]}) →
    (∀ n n' q, addr (add_mid i p T) n = Some q → addr (add_mid i p T) n' = Some q → n = n') →
    tree_inv m' (F ∖ {[p]}) (add_mid i p T).
Proof.
  intros HT Hi Hr HpF. split.
  - split_and!; [done|apply lookup_insert_eq| | |].
    + intros [|i'|i' j'] Hn; simpl; [done| |done]. apply lookup_insert_ne. congruence.
    + intros x Hx. simpl. destruct (leaves T !! (i, x)) eqn:E; [|done].
      destruct (ti_leaf _ _ _ HT _ _ _ E) as (_ & _ & [? ?]). congruence.
    + intros n x Hn Hx. destruct n as [|i'|i' j']; cbn [entry add_mid add_leaf mids leaves L].
      * destruct (decide (x = i)) as [->|Hne].
        -- rewrite decide_True by done. by rewrite lookup_insert_eq.
        -- rewrite decide_False by naive_solver. by rewrite lookup_insert_ne.
      * by rewrite decide_False by naive_solver.
      * by rewrite decide_False by naive_solver.
  - intros m' H1 H2 H3. split; try done; simpl.
    + intros i' q. destruct (decide (i' = i)) as [->|]; [done|]. rewrite lookup_insert_ne by done.
      apply (ti_mid _ _ _ HT).
    + intros i' j' q Hq. destruct (ti_leaf _ _ _ HT _ _ _ Hq) as (? & ? & [p' Hp']). split_and!; try lia.
      destruct (decide (i' = i)) as [->|]; [rewrite lookup_insert_eq; by eexists|].
      rewrite lookup_insert_ne by done. by eexists.
    + apply (ti_L _ _ _ HT).
Qed.

Lemma add_leaf_grows m F T i j p :
  tree_inv m F T → leaves T !! (i, j) = None → is_Some (mids T !! i) → 0 ≤ j < 512 → p ∈ F →
  grows T (add_leaf i j p T) (NMid i) (NLeaf i j) j p ∧
  ∀ m', (∀ n q, addr (add_leaf i j p T) n = Some q → page_is m' q (entry (add_leaf i j p T) n)) →
    (∀ n q, addr (add_leaf i j p T) n = Some q → pa_valid q ∧ q ∉ F ∖ {[p]}) →
    (∀ n n' q, addr (add_leaf i j p T) n = Some q → addr (add_leaf i j p T) n' = Some q → n = n') →
    tree_inv m' (F ∖ {[p]}) (add_leaf i j p T).
Proof.
  intros HT Hij [pi Hi] Hr HpF. split.
  - split_and!; [done|apply lookup_insert_eq| | |].
    + intros [|i'|i' j'] Hn; simpl; [done|done|]. apply lookup_insert_ne. congruence.
    + intros x Hx. simpl. destruct (L T !! vpn_of i j x) eqn:E; [|done].
      destruct (ti_L _ _ _ HT i j x _ Hx Hr E) as [? ?]. congruence.
    + intros n x Hn Hx. destruct n as [|i'|i' j']; cbn [entry add_mid add_leaf mids leaves L].
      * by rewrite decide_False by naive_solver.
      * destruct (decide (i' = i ∧ x = j)) as [[-> ->]|Hne].
        -- rewrite decide_True by done. by rewrite lookup_insert_eq.
        -- rewrite decide_False by naive_solver. rewrite lookup_insert_ne by naive_solver. done.
      * by rewrite decide_False by naive_solver.
  - intros m' H1 H2 H3. split; try done; simpl.
    + apply (ti_mid _ _ _ HT).
    + intros i' j' q. destruct (decide ((i', j') = (i, j))) as [[= -> ->]|].
      * intros _. split_and!; try lia; [by eapply (ti_mid _ _ _ HT)..|by eexists].
      * rewrite lookup_insert_ne by done. apply (ti_leaf _ _ _ HT).
    + intros i' j' k e Hk Hj He. destruct (ti_L _ _ _ HT i' j' k e Hk Hj He) as [q Hq].
      destruct (decide ((i', j') = (i, j))) as [[= -> ->]|]; [rewrite lookup_insert_eq; by eexists|].
      rewrite lookup_insert_ne by done. by eexists.
Qed.

(** The tree has grown by pages that were free; nothing else has changed. *)
Record extends w F T w' F' T' : Prop := {
  ex_root : root T' = root T;
  ex_L : L T' = L T;
  ex_addr : ∀ n p, addr T n = Some p → addr T' n = Some p;
  ex_pages : ∀ p, (p ∈ F' ∨ ∃ n, addr T' n = Some p) ↔ (p ∈ F ∨ ∃ n, addr T n = Some p);
  ex_frame : frame w w' F T;
}.

Lemma extends_refl w F T : extends w F T w F T.
Proof. by split. Qed.

Lemma extends_trans w F T w1 F1 T1 w2 F2 T2 :
  (∀ n p, addr T1 n = Some p → p ∉ F1) →
  extends w F T w1 F1 T1 → extends w1 F1 T1 w2 F2 T2 → extends w F T w2 F2 T2.
Proof.
  intros Hd [Hr1 HL1 Ha1 Hp1 Hf1] [Hr2 HL2 Ha2 Hp2 Hf2]. split; [congruence|congruence|by auto| |].
  - intros p. by rewrite Hp2, Hp1.
  - intros p HpF Hp. assert (¬ (p ∈ F1 ∨ ∃ n, addr T1 n = Some p)) as Hno.
    { rewrite Hp1. intros [?|[n ?]]; [done|by apply (Hp n)]. }
    rewrite Hf2; [by apply Hf1|auto|]. intros n Hn. apply Hno. right. by exists n.
Qed.

Lemma grows_extends w w' F T T' parent c k p :
  grows T T' parent c k p → root T' = root T → L T' = L T → p ∈ F → frame w w' F T →
  (∀ n q, addr T n = Some q → q ∉ F) →
  extends w F T w' (F ∖ {[p]}) T'.
Proof.
  intros (Hc & Hc' & Hoth & _) Hr HL HpF Hfr Hd. split; [done|done| | |done].
  - intros n q Hq. rewrite Hoth; [done|]. congruence.
  - intros q. split.
    + intros [?|[n Hn]]; [set_solver|]. destruct (decide (n = c)) as [->|Hne].
      * left. congruence.
      * right. exists n. by rewrite <-Hoth.
    + intros [Hq|[n Hn]].
      * destruct (decide (q = p)) as [->|]; [right; by exists c|left; set_solver].
      * right. exists n. rewrite Hoth; [done|congruence].
Qed.

Lemma vm_inv_disjoint w F T : vm_inv w F T → ∀ n p, addr T n = Some p → p ∉ F.
Proof. intros [_ HT] n p Hp. by apply (ti_valid _ _ _ HT n p). Qed.

(** One turn of [walk] whose table is there. *)
Lemma walk_level_found w F T n pp level va al p :
  vm_inv w F T → addr T n = Some pp → 0 ≤ level → entry T n (PX level va) = dir (Some p) → pa_valid p →
  walk_level level pp va al w = Some (Some p, w).
Proof.
  intros [_ HT] Hpp Hl He Hp. unfold walk_level. pose proof (PX_range level va Hl).
  rewrite (load_page _ _ _ (entry T n)) by (done || by apply (ti_page _ _ _ HT)).
  destruct (dir_valid p Hp) as [Hb Ha]. by rewrite He, Hb, Ha.
Qed.

Lemma walk_root w F T va :
  vm_inv w F T →
  ∃ o w' F' T', walk_level 2 (root T) va true w = Some (o, w') ∧ vm_inv w' F' T' ∧ extends w F T w' F' T' ∧
    match o with Some p => mids T' !! PX 2 va = Some p | None => F' = ∅ end.
Proof.
  intros Hinv. pose proof Hinv as [_ HT]. pose proof (PX_range 2 va ltac:(lia)) as Hr.
  destruct (mids T !! PX 2 va) as [p|] eqn:Ep.
  - exists (Some p), w, F, T. split_and!; [|done|apply extends_refl|done].
    eapply (walk_level_found _ _ _ NRoot); [exact Hinv|reflexivity|lia|cbn [entry]; by rewrite Ep|].
    by eapply (ti_valid _ _ _ HT (NMid _)).
  - destruct (walk_level_grows w F T (λ p, add_mid (PX 2 va) p T) NRoot (root T) 2 va (NMid (PX 2 va)))
      as [[-> E]|(p & w' & HpF & E & Hinv' & Hfr)]; [exact Hinv|reflexivity|lia|cbn [entry]; by rewrite Ep| | |].
    { intros p HpF. by eapply add_mid_grows. }
    + exists None, w, ∅, T. split_and!; [done|done|apply extends_refl|done].
    + exists (Some p), w', (F ∖ {[p]}), (add_mid (PX 2 va) p T). split_and!; [done|done| |apply lookup_insert_eq].
      eapply grows_extends; [by eapply add_mid_grows|done|done|done|done|by eapply vm_inv_disjoint].
Qed.

Lemma walk_mid w F T va p1 :
  vm_inv w F T → mids T !! PX 2 va = Some p1 →
  ∃ o w' F' T', walk_level 1 p1 va true w = Some (o, w') ∧ vm_inv w' F' T' ∧ extends w F T w' F' T' ∧
    match o with Some p => leaves T' !! (PX 2 va, PX 1 va) = Some p | None => F' = ∅ end.
Proof.
  intros Hinv Hp1. pose proof Hinv as [_ HT]. pose proof (PX_range 1 va ltac:(lia)) as Hr.
  destruct (leaves T !! (PX 2 va, PX 1 va)) as [p|] eqn:Ep.
  - exists (Some p), w, F, T. split_and!; [|done|apply extends_refl|done].
    eapply (walk_level_found _ _ _ (NMid (PX 2 va))); [exact Hinv|exact Hp1|lia|cbn [entry]; by rewrite Ep|].
    by eapply (ti_valid _ _ _ HT (NLeaf _ _)).
  - destruct (walk_level_grows w F T (λ p, add_leaf (PX 2 va) (PX 1 va) p T) (NMid (PX 2 va)) p1 1 va (NLeaf (PX 2 va) (PX 1 va)))
      as [[-> E]|(p & w' & HpF & E & Hinv' & Hfr)]; [exact Hinv|exact Hp1|lia|cbn [entry]; by rewrite Ep| | |].
    { intros p HpF. eapply add_leaf_grows; [done|done|by eexists|done|done]. }
    + exists None, w, ∅, T. split_and!; [done|done|apply extends_refl|done].
    + exists (Some p), w', (F ∖ {[p]}), (add_leaf (PX 2 va) (PX 1 va) p T).
      split_and!; [done|done| |apply lookup_insert_eq].
      eapply grows_extends; [eapply add_leaf_grows; [done|done|by eexists|done|done]|done|done|done|done|by eapply vm_inv_disjoint].
Qed.

(** Walking with allocation: the entry is there unless memory has run out. *)
Lemma walk_alloc w F T va :
  vm_inv w F T → 0 ≤ va < MAXVA →
  ∃ o w' F' T', walk (root T) va true w = Some (o, w') ∧ vm_inv w' F' T' ∧ extends w F T w' F' T' ∧
    match o with
    | Some (p, k) => k = PX 0 va ∧ leaves T' !! (PX 2 va, PX 1 va) = Some p
    | None => F' = ∅
    end.
Proof.
  intros Hinv Hva. unfold walk. rewrite (proj2 (Z.leb_gt _ _)) by lia.
  destruct (walk_root w F T va Hinv) as (o1 & w1 & F1 & T1 & E1 & Hinv1 & Hex1 & Ho1).
  rewrite (bind_eq _ _ _ _ _ E1). destruct o1 as [p1|].
  2:{ exists None, w1, F1, T1. by split_and!. }
  destruct (walk_mid w1 F1 T1 va p1 Hinv1 Ho1) as (o0 & w2 & F2 & T2 & E2 & Hinv2 & Hex2 & Ho2).
  rewrite (bind_eq _ _ _ _ _ E2).
  assert (extends w F T w2 F2 T2) by exact (extends_trans _ _ _ _ _ _ _ _ _ (vm_inv_disjoint _ _ _ Hinv1) Hex1 Hex2).
  destruct o0 as [p0|].
  - exists (Some (p0, PX 0 va)), w2, F2, T2. by split_and!.
  - exists None, w2, F2, T2. by split_and!.
Qed.

(** Writing an entry of the last level. *)
Lemma store_leaf w F T i j k p (o : option Z) :
  vm_inv w F T → leaves T !! (i, j) = Some p → 0 ≤ k < 512 →
  ∃ w', store p k (default 0 o) w = Some ((), w') ∧
    vm_inv w' F (set_L (partial_alter (λ _, o) (vpn_of i j k) (L T)) T) ∧ frame w w' F T ∧ alloc w' = alloc w.
Proof.
  intros [Hal HT] Hp Hk. destruct (ti_leaf _ _ _ HT _ _ _ Hp) as (Hi & Hj & _).
  destruct (store_page w p k (default 0 o) (entry T (NLeaf i j))) as (ws & E & Hpage);
    [by apply (ti_page _ _ _ HT)|done|].
  eexists. split; [exact E|]. split_and!; [|intros q Hq Hn; simpl; rewrite lookup_insert_ne; [done|]|done].
  2:{ intros ->. by apply (Hn (NLeaf i j)). }
  split; [done|]. cbn [words].
  assert (∀ n, addr (set_L (partial_alter (λ _, o) (vpn_of i j k) (L T)) T) n = addr T n) as Ha by (by intros []).
  split; cbn [set_L mids leaves L].
  - intros n q. rewrite Ha. intros Hq. destruct (decide (n = NLeaf i j)) as [->|Hne].
    + assert (q = p) as -> by (simpl in Hq; congruence). eapply page_is_ext; [|exact Hpage]. intros x Hx.
      cbn [entry set_L L]. case_decide as Hx'; [subst; by rewrite lookup_partial_alter_eq|].
      rewrite lookup_partial_alter_ne; [done|]. intros E'%vpn_of_inj; lia.
    + apply page_is_other; [intros ->; apply Hne; by eapply (ti_inj _ _ _ HT)|].
      apply page_is_ext with (entry T n); [|by apply (ti_page _ _ _ HT)].
      intros x Hx. destruct n as [|i'|i' j']; try done. cbn [entry set_L L].
      destruct (ti_leaf _ _ _ HT _ _ _ Hq) as (_ & Hj' & _).
      rewrite lookup_partial_alter_ne; [done|]. intros E'%vpn_of_inj; try lia. destruct E' as (-> & -> & _). done.
  - intros n q. rewrite Ha. apply (ti_valid _ _ _ HT).
  - intros n n' q. rewrite !Ha. apply (ti_inj _ _ _ HT).
  - apply (ti_mid _ _ _ HT).
  - apply (ti_leaf _ _ _ HT).
  - intros i' j' k' e Hk' Hj'. destruct (decide (vpn_of i' j' k' = vpn_of i j k)) as [E'|Hne].
    + intros _. apply vpn_of_inj in E' as (-> & -> & _); try lia. by eexists.
    + rewrite lookup_partial_alter_ne by done. by apply (ti_L _ _ _ HT).
Qed.

(** ** Mapping pages *)

(** As [extends], but entries of the last level may change. *)
Record evolves w F T w' F' T' : Prop := {
  ev_root : root T' = root T;
  ev_addr : ∀ n p, addr T n = Some p → addr T' n = Some p;
  ev_pages : ∀ p, (p ∈ F' ∨ ∃ n, addr T' n = Some p) ↔ (p ∈ F ∨ ∃ n, addr T n = Some p);
  ev_frame : frame w w' F T;
}.

Lemma extends_evolves w F T w' F' T' : extends w F T w' F' T' → evolves w F T w' F' T'.
Proof. by intros []. Qed.
Lemma evolves_trans w F T w1 F1 T1 w2 F2 T2 :
  evolves w F T w1 F1 T1 → evolves w1 F1 T1 w2 F2 T2 → evolves w F T w2 F2 T2.
Proof.
  intros [Hr1 Ha1 Hp1 Hf1] [Hr2 Ha2 Hp2 Hf2]. split; [congruence|by auto| |].
  - intros p. by rewrite Hp2, Hp1.
  - intros p HpF Hp. assert (¬ (p ∈ F1 ∨ ∃ n, addr T1 n = Some p)) as Hno.
    { rewrite Hp1. intros [?|[n ?]]; [done|by apply (Hp n)]. }
    rewrite Hf2; [by apply Hf1|auto|]. intros n Hn. apply Hno. right. by exists n.
Qed.
Lemma set_L_evolves w w' F T l : frame w w' F T → evolves w F T w' F (set_L l T).
Proof. intros Hf. split; [done|by intros []| |done]. intros p. split; (intros [?|[n ?]]; [by left|right; exists n; by destruct n]). Qed.

Definition leaf_pte (pa perm : Z) : Z := Z.lor (Z.lor (PA2PTE pa) perm) PTE_V.

(** [n] pages from page number [vp] on are mapped to [pa] and on. *)
Fixpoint map_entries (n : nat) (vp pa perm : Z) (l : gmap Z Z) : gmap Z Z :=
  match n with
  | O => l
  | S n => map_entries n (vp + 1) (pa + PGSIZE) perm (<[vp := leaf_pte pa perm]> l)
  end.

(** Mapping one page that is not mapped. *)
Lemma map_one w F T a pa perm :
  vm_inv w F T → 0 ≤ a < MAXVA → L T !! (a / PGSIZE) = None →
  ∃ o w' F' T', walk (root T) a true w = Some (o, w') ∧ vm_inv w' F' T' ∧ evolves w F T w' F' T' ∧ L T' = L T ∧
    match o with
    | None => F' = ∅
    | Some (p, k) => ∃ w2,
        load p k w' = Some (0, w') ∧ store p k (leaf_pte pa perm) w' = Some ((), w2) ∧
        vm_inv w2 F' (set_L (<[a / PGSIZE := leaf_pte pa perm]> (L T)) T') ∧
        evolves w F T w2 F' (set_L (<[a / PGSIZE := leaf_pte pa perm]> (L T)) T')
    end.
Proof.
  intros Hinv Ha Hnone.
  destruct (walk_alloc w F T a Hinv Ha) as (o & w1 & F1 & T1 & E1 & Hinv1 & Hex1 & Ho).
  exists o, w1, F1, T1. split_and!; [done|done|by apply extends_evolves|apply (ex_L _ _ _ _ _ _ Hex1)|].
  destruct o as [[p k]|]; [|done]. destruct Ho as [-> Hp].
  pose proof (PX_range 0 a ltac:(lia)) as Hk.
  destruct (store_leaf w1 F1 T1 _ _ (PX 0 a) p (Some (leaf_pte pa perm)) Hinv1 Hp Hk) as (w2 & E2 & Hinv2 & Hfr2 & _).
  rewrite vpn_of_PX, (ex_L _ _ _ _ _ _ Hex1) in Hinv2 by done. exists w2. split_and!.
  - pose proof Hinv1 as [_ HT1].
    destruct (ti_page _ _ _ HT1 (NLeaf _ _) p Hp) as (ws & Hws & _ & Hent). unfold load. rewrite Hws. simpl.
    rewrite Hent by done. cbn [entry]. by rewrite vpn_of_PX, (ex_L _ _ _ _ _ _ Hex1), Hnone.
  - exact E2.
  - exact Hinv2.
  - eapply evolves_trans; [by apply extends_evolves|]. by apply set_L_evolves.
Qed.

Lemma mappages_loop_S n pt a last pa perm :
  mappages_loop (A := A) (S n) pt a last pa perm =
    (o ← walk pt a true;
     match o with
     | None => mret (-1)
     | Some (p, k) =>
       pte ← load p k;
       if Z.testbit pte 0 then stuck
       else
         store p k (leaf_pte pa perm);;
         if a =? last then mret 0
         else mappages_loop n pt (u64 (a + PGSIZE)) last (u64 (pa + PGSIZE)) perm
     end).
Proof. reflexivity. Qed.

Lemma mappages_loop_spec n w F T a pa perm :
  vm_inv w F T → 0 ≤ a → a mod PGSIZE = 0 → a + Z.of_nat (S n) * PGSIZE ≤ MAXVA → 0 ≤ pa →
  pa + Z.of_nat (S n) * PGSIZE < 2 ^ 64 →
  (∀ k, 0 ≤ k ≤ Z.of_nat n → L T !! (a / PGSIZE + k) = None) →
  ∃ r m w' F' T',
    mappages_loop (S n) (root T) a (a + Z.of_nat n * PGSIZE) pa perm w = Some (r, w') ∧
    vm_inv w' F' T' ∧ evolves w F T w' F' T' ∧ L T' = map_entries m (a / PGSIZE) pa perm (L T) ∧
    ((r = 0 ∧ m = S n) ∨ (r = -1 ∧ (m ≤ n)%nat ∧ F' = ∅)).
Proof.
  revert w F T a pa. induction n as [|n IH]; intros w F T a pa Hinv Ha Hal Hmax Hpa Hpamax Hnone.
  - destruct (map_one w F T a pa perm) as (o & w1 & F1 & T1 & E1 & Hinv1 & Hev1 & HL1 & Ho);
      [done|unfold PGSIZE in *; lia|by rewrite <-(Z.add_0_r (a / PGSIZE)); apply Hnone|].
    rewrite mappages_loop_S, (bind_eq _ _ _ _ _ E1). destruct o as [[p k]|].
    + destruct Ho as (w2 & El & Es & Hinv2 & Hev2). rewrite (bind_eq _ _ _ _ _ El), Z.bits_0.
      rewrite (bind_eq _ _ _ _ _ Es), (proj2 (Z.eqb_eq _ _)) by lia.
      eexists 0, 1%nat, w2, F1, _. split_and!; [done|exact Hinv2|exact Hev2|done|by left].
    + exists (-1), 0%nat, w1, F1, T1. split_and!; [done|done|done|done|right; split_and!; [done|lia|done]].
  - destruct (map_one w F T a pa perm) as (o & w1 & F1 & T1 & E1 & Hinv1 & Hev1 & HL1 & Ho);
      [done|unfold PGSIZE in *; lia|rewrite <-(Z.add_0_r (a / PGSIZE)); apply Hnone; lia|].
    rewrite mappages_loop_S, (bind_eq _ _ _ _ _ E1). destruct o as [[p k]|].
    2:{ exists (-1), 0%nat, w1, F1, T1. split_and!; [done|done|done|done|right; split_and!; [done|lia|done]]. }
    destruct Ho as (w2 & El & Es & Hinv2 & Hev2). rewrite (bind_eq _ _ _ _ _ El), Z.bits_0.
    rewrite (bind_eq _ _ _ _ _ Es), (proj2 (Z.eqb_neq _ _)) by (unfold PGSIZE; lia).
    assert ((a + PGSIZE) / PGSIZE = a / PGSIZE + 1) as Ediv.
    { unfold PGSIZE. replace (a + 4096) with (a + 1 * 4096) by lia. by rewrite Z.div_add. }
    rewrite (u64_id (a + PGSIZE)), (u64_id (pa + PGSIZE)) by (unfold MAXVA, PGSIZE in *; lia).
    destruct (IH w2 F1 _ (a + PGSIZE) (pa + PGSIZE) Hinv2) as (r & m & w3 & F3 & T3 & E3 & Hinv3 & Hev3 & HL3 & Hr).
    { unfold PGSIZE in *. lia. }
    { unfold PGSIZE in *. replace (a + 4096) with (a + 1 * 4096) by lia. by rewrite Z.mod_add. }
    { unfold PGSIZE in *. lia. } { unfold PGSIZE in *. lia. } { unfold PGSIZE in *. lia. }
    { intros x Hx. cbn [set_L L]. rewrite Ediv, lookup_insert_ne by lia.
      replace (a / PGSIZE + 1 + x) with (a / PGSIZE + (x + 1)) by lia. apply Hnone. lia. }
    cbn [set_L root L] in E3, HL3. rewrite (ev_root _ _ _ _ _ _ Hev1) in E3.
    replace (a + PGSIZE + Z.of_nat n * PGSIZE) with (a + Z.of_nat (S n) * PGSIZE) in E3 by lia.
    exists r, (S m), w3, F3, T3. split_and!; [exact E3|done|by eapply evolves_trans| |].
    + cbn [map_entries]. by rewrite HL3, Ediv.
    + destruct Hr as [[-> ->]|(-> & ? & ->)]; [by left|right; split_and!; [done|lia|done]].
Qed.
End tree.
