(* ===== verification/VmUser.v ===== *)
(** User address spaces: unmapping, freeing, growing and copying. *)
From S2P Require Import Prelude Kalloc Proc Vm VmSpec.

Section user.
Context {A : Type} `{PageAlloc A}.
Implicit Types (w : vworld A) (T : tree) (F : gset Z).

(** The pages that the entries with numbers in [P] map belong to the address
    space alone. *)
Record owns F T (P : Z → Prop) : Prop := {
  ow_bit : ∀ n e, P n → L T !! n = Some e → Z.testbit e 0 = true;
  ow_valid : ∀ n e, P n → L T !! n = Some e → pa_valid (PTE2PA e) ∧ PTE2PA e ∉ F;
  ow_tree : ∀ n e m, P n → L T !! n = Some e → addr T m ≠ Some (PTE2PA e);
  ow_inj : ∀ n e n' e', P n → P n' → L T !! n = Some e → L T !! n' = Some e' → PTE2PA e = PTE2PA e' → n = n';
}.

(** A page that is not part of the tree is freed. *)
Lemma free_page w F T p :
  vm_inv w F T → pa_valid p → p ∉ F → (∀ n, addr T n ≠ Some p) →
  ∃ w', kfree_page p w = Some ((), w') ∧ vm_inv w' (F ∪ {[p]}) T ∧
    ∀ q, q ≠ p → words w' !! q = words w !! q.
Proof.
  intros [Hal HT] Hv HF Hn. destruct (pa_kfree_spec _ _ p Hal Hv HF) as (a' & E & Hal').
  eexists. split; [unfold kfree_page; by rewrite E|]. split.
  - split; [done|]. cbn [words]. destruct HT as [H1 H2 H3 H4 H5 H6]. split; try done.
    + intros n q Hq. destruct (H1 n q Hq) as (ws & Hws & ?). exists ws. rewrite lookup_delete_ne; [done|].
      intros <-. by apply (Hn n).
    + intros n q Hq. destruct (H2 n q Hq) as [? ?]. split; [done|]. intros [?|Hqp%elem_of_singleton]%elem_of_union; [done|].
      subst. by apply (Hn n).
  - intros q Hq. cbn [words]. by rewrite lookup_delete_ne.
Qed.

(** The entry for page number [n], if there is one, is removed. *)
Definition without (n : Z) T : tree := set_L (delete n (L T)) T.

Lemma walk_entry w F T va :
  vm_inv w F T → 0 ≤ va < MAXVA →
  match leaves T !! (PX 2 va, PX 1 va) with
  | None => walk (root T) va false w = Some (None, w) ∧ L T !! (va / PGSIZE) = None
  | Some p => walk (root T) va false w = Some (Some (p, PX 0 va), w) ∧
              load p (PX 0 va) w = Some (default 0 (L T !! (va / PGSIZE)), w)
  end.
Proof.
  intros Hinv Hva. rewrite (walk_lookup w F T va Hinv Hva). pose proof Hinv as [_ HT].
  pose proof (PX_range 0 va ltac:(lia)). pose proof (PX_range 1 va ltac:(lia)).
  destruct (leaves T !! (PX 2 va, PX 1 va)) as [p|] eqn:Ep; (split; [done|]).
  - destruct (ti_page _ _ _ HT (NLeaf _ _) p Ep) as (ws & Hws & _ & Hent). unfold load. rewrite Hws. simpl.
    rewrite Hent by done. cbn [entry]. by rewrite vpn_of_PX.
  - rewrite <-vpn_of_PX by done. destruct (L T !! _) as [e|] eqn:E; [|done].
    apply (ti_L _ _ _ HT) in E as [? ?]; [congruence|lia|lia].
Qed.

Lemma unmap_loop_S fuel pt a last do_free :
  unmap_loop (A := A) (S fuel) pt a last do_free =
    (if a <? last then unmap_one pt a do_free;; unmap_loop fuel pt (u64 (a + PGSIZE)) last do_free
     else mret ()).
Proof. reflexivity. Qed.

(** The pages that the entries with numbers in [P] map. *)
Definition mapped_by T (P : Z → Prop) (p : Z) : Prop := ∃ n e, P n ∧ L T !! n = Some e ∧ p = PTE2PA e.

Lemma unmap_one_frees w F T va :
  vm_inv w F T → 0 ≤ va < MAXVA → owns F T (λ n, n = va / PGSIZE) →
  ∃ w' F', unmap_one (root T) va true w = Some ((), w') ∧ vm_inv w' F' (without (va / PGSIZE) T) ∧
    (∀ p, p ∈ F' ↔ p ∈ F ∨ mapped_by T (λ n, n = va / PGSIZE) p) ∧
    ∀ p, p ∉ F' → (∀ n, addr T n ≠ Some p) → words w' !! p = words w !! p.
Proof.
  intros Hinv Hva Hown. pose proof (walk_entry w F T va Hinv Hva) as Hw. unfold unmap_one.
  destruct (leaves T !! (PX 2 va, PX 1 va)) as [p|] eqn:Ep; destruct Hw as [Ew El].
  2:{ exists w, F. rewrite (bind_eq _ _ _ _ _ Ew). split_and!; [done| | |done].
      - unfold without. rewrite delete_id by done. by destruct T.
      - intros q. split; [by left|]. intros [?|(n & e & -> & He & _)]; [done|congruence]. }
  rewrite (bind_eq _ _ _ _ _ Ew), (bind_eq _ _ _ _ _ El). destruct (L T !! (va / PGSIZE)) as [e|] eqn:Ee.
  - change (default 0 (Some e)) with e. rewrite (ow_bit _ _ _ Hown _ _ eq_refl Ee).
    destruct (ow_valid _ _ _ Hown _ _ eq_refl Ee) as [Hv HF].
    destruct (free_page w F T (PTE2PA e) Hinv Hv HF) as (w1 & E1 & Hinv1 & Hfr1).
    { intros m. by apply (ow_tree _ _ _ Hown _ _ m eq_refl Ee). }
    unfold when. rewrite (bind_eq _ _ _ _ _ E1).
    destruct (store_leaf w1 _ T _ _ (PX 0 va) p None Hinv1 Ep (PX_range 0 va ltac:(lia))) as (w2 & E2 & Hinv2 & Hfr2 & _).
    rewrite vpn_of_PX in Hinv2 by done. exists w2, (F ∪ {[PTE2PA e]}). split_and!; [exact E2|exact Hinv2| |].
    + intros q. rewrite elem_of_union, elem_of_singleton. split.
      * intros [?| ->]; [by left|right]. by exists (va / PGSIZE), e.
      * intros [?|(n & e' & -> & He & ->)]; [by left|right]. congruence.
    + intros q Hq Hn. rewrite Hfr2, Hfr1; [done|set_solver|done|done].
  - exists w, F. change (default 0 None) with 0. rewrite Z.bits_0. split_and!; [done| | |done].
    + unfold without. rewrite delete_id by done. by destruct T.
    + intros q. split; [by left|]. intros [?|(n & e & -> & He & _)]; [done|congruence].
Qed.

Fixpoint without_range (c : nat) (n : Z) T : tree :=
  match c with O => T | S c => without_range c (n + 1) (without n T) end.

Lemma without_range_spec c n T :
  root (without_range c n T) = root T ∧ (∀ m, addr (without_range c n T) m = addr T m) ∧
  ∀ m, L (without_range c n T) !! m = if decide (n ≤ m < n + Z.of_nat c) then None else L T !! m.
Proof.
  revert n T; induction c as [|c IH]; intros n T.
  { split_and!; [done|done|]. intros m. by rewrite decide_False by lia. }
  destruct (IH (n + 1) (without n T)) as (Hr & Ha & HL). cbn [without_range]. split_and!.
  - by rewrite Hr.
  - intros m. rewrite Ha. by destruct m.
  - intros m. rewrite HL. cbn [without set_L L]. destruct (decide (m = n)) as [->|Hne].
    + rewrite lookup_delete_eq, (decide_True (P := n ≤ n < n + Z.of_nat (S c))) by lia. by case_decide.
    + rewrite lookup_delete_ne by done. destruct (decide (n + 1 ≤ m < n + 1 + Z.of_nat c)).
      * by rewrite decide_True by lia.
      * by rewrite decide_False by lia.
Qed.

(** What is left belongs to the address space when some pages are freed. *)
Lemma owns_without F F' T n P :
  owns F T P → (∀ p, p ∈ F' ↔ p ∈ F ∨ mapped_by T (λ x, x = n) p) → P n →
  owns F' (without n T) (λ x, P x ∧ x ≠ n).
Proof.
  intros [H1 H2 H3 H4] HF Hn. split; cbn [without set_L L].
  - intros x e [? ?]. rewrite lookup_delete_ne by done. by apply H1.
  - intros x e [Hx Hxn]. rewrite lookup_delete_ne by done. intros He. destruct (H2 x e Hx He) as [? ?].
    split; [done|]. rewrite HF. intros [?|(y & e' & -> & He' & E)]; [done|]. apply Hxn. by eapply H4.
  - intros x e m [? ?]. rewrite lookup_delete_ne by done. intros He. pose proof (H3 x e m). by destruct m; auto.
  - intros x e x' e' [? ?] [? ?]. rewrite !lookup_delete_ne by done. by apply H4.
Qed.

Lemma owns_sub F T (P Q : Z → Prop) : (∀ n, Q n → P n) → owns F T P → owns F T Q.
Proof. intros HPQ [H1 H2 H3 H4]. split; eauto. Qed.

Lemma page_succ a : (a + PGSIZE) / PGSIZE = a / PGSIZE + 1.
Proof. unfold PGSIZE. replace (a + 4096) with (a + 1 * 4096) by lia. by rewrite Z.div_add. Qed.
Lemma page_succ_mod a : a mod PGSIZE = 0 → (a + PGSIZE) mod PGSIZE = 0.
Proof. unfold PGSIZE. intros. replace (a + 4096) with (a + 1 * 4096) by lia. by rewrite Z.mod_add. Qed.

Lemma unmap_loop_frees c fuel w F T a :
  vm_inv w F T → 0 ≤ a → a mod PGSIZE = 0 → a + Z.of_nat c * PGSIZE ≤ MAXVA → (c < fuel)%nat →
  owns F T (λ n, a / PGSIZE ≤ n < a / PGSIZE + Z.of_nat c) →
  ∃ w' F', unmap_loop fuel (root T) a (a + Z.of_nat c * PGSIZE) true w = Some ((), w') ∧
    vm_inv w' F' (without_range c (a / PGSIZE) T) ∧
    (∀ p, p ∈ F' ↔ p ∈ F ∨ mapped_by T (λ n, a / PGSIZE ≤ n < a / PGSIZE + Z.of_nat c) p) ∧
    ∀ p, p ∉ F' → (∀ n, addr T n ≠ Some p) → words w' !! p = words w !! p.
Proof.
  revert fuel w F T a. induction c as [|c IH]; intros fuel w F T a Hinv Ha Hal Hmax Hfuel Hown;
    (destruct fuel as [|fuel]; [lia|]); rewrite unmap_loop_S.
  - rewrite (proj2 (Z.ltb_ge _ _)) by lia. exists w, F. split_and!; [done|done| |done].
    intros p. split; [by left|]. intros [?|(n & e & ? & _)]; [done|lia].
  - rewrite (proj2 (Z.ltb_lt _ _)) by (unfold PGSIZE; lia).
    destruct (unmap_one_frees w F T a) as (w1 & F1 & E1 & Hinv1 & HF1 & Hfr1);
      [done|unfold PGSIZE, MAXVA in *; lia|eapply owns_sub; [|exact Hown]; intros n ->; lia|].
    rewrite (bind_eq _ _ _ _ _ E1), u64_id by (unfold PGSIZE, MAXVA in *; lia).
    pose proof (page_succ a) as Es.
    destruct (IH fuel w1 F1 (without (a / PGSIZE) T) (a + PGSIZE)) as (w2 & F2 & E2 & Hinv2 & HF2 & Hfr2).
    { done. } { unfold PGSIZE in *; lia. } { by apply page_succ_mod. } { unfold PGSIZE in *; lia. } { lia. }
    { eapply owns_sub; [|eapply owns_without; [exact Hown|exact HF1|cbn beta; lia]]. intros n Hn. cbn beta in *. rewrite Es in Hn. lia. }
    replace (a + PGSIZE + Z.of_nat c * PGSIZE) with (a + Z.of_nat (S c) * PGSIZE) in E2 by lia.
    rewrite Es in Hinv2, HF2. exists w2, F2. split_and!; [exact E2|exact Hinv2| |].
    + intros p. rewrite HF2, HF1. split.
      * intros [[?|(n & e & -> & He & ->)]|(n & e & Hn & He & ->)]; [by left|right|right].
        -- exists (a / PGSIZE), e. split_and!; [lia|lia|done|done].
        -- cbn [without set_L L] in He. apply lookup_delete_Some in He as [_ He].
           exists n, e. split_and!; [lia|lia|done|done].
      * intros [?|(n & e & Hn & He & ->)]; [by left; left|]. destruct (decide (n = a / PGSIZE)) as [->|Hne].
        -- left. right. by exists (a / PGSIZE), e.
        -- right. exists n, e. split_and!; [lia|lia| |done]. cbn [without set_L L]. by rewrite lookup_delete_ne.
    + intros p Hp Hn. rewrite Hfr2; [|done|intros m; pose proof (Hn m); by destruct m]. apply Hfr1; [|done].
      intros Hp1. apply Hp, HF2. by left.
Qed.

Lemma uvmunmap_frees w F T va c :
  vm_inv w F T → 0 ≤ va → va mod PGSIZE = 0 → 0 ≤ c → va + c * PGSIZE ≤ MAXVA →
  owns F T (λ n, va / PGSIZE ≤ n < va / PGSIZE + c) →
  ∃ w' F', uvmunmap (root T) va c true w = Some ((), w') ∧
    vm_inv w' F' (without_range (Z.to_nat c) (va / PGSIZE) T) ∧
    (∀ p, p ∈ F' ↔ p ∈ F ∨ mapped_by T (λ n, va / PGSIZE ≤ n < va / PGSIZE + c) p) ∧
    ∀ p, p ∉ F' → (∀ n, addr T n ≠ Some p) → words w' !! p = words w !! p.
Proof.
  intros Hinv Hva Hal Hc Hmax Hown. unfold uvmunmap. rewrite Hal. cbn [Z.eqb negb].
  rewrite u64_id by (unfold PGSIZE, MAXVA in *; lia).
  destruct (unmap_loop_frees (Z.to_nat c) (S (Z.to_nat c)) w F T va) as (w' & F' & E & Hrest); try done.
  { rewrite Z2Nat.id by lia. done. } { lia. } { by rewrite Z2Nat.id by lia. }
  rewrite Z2Nat.id in E, Hrest by lia. by exists w', F'.
Qed.

(** ** Freeing the page tables *)

Lemma dir_no_leaf p :
  pa_valid p → Z.land (dir (Some p)) (Z.lor (Z.lor PTE_R PTE_W) PTE_X) = 0.
Proof.
  intros [Hr Ha]%pa_valid_range. destruct (pte_parts p PTE_V) as [_ Hf]; [done|lia|unfold PTE_V; lia|].
  unfold PTE_FLAGS in Hf. change (Z.lor (Z.lor PTE_R PTE_W) PTE_X) with (Z.land 0x3FF 14).
  unfold dir. by rewrite Z.land_assoc, Hf.
Qed.

(** Pages move between the tree and the free ones; no page is lost and no
    other page changes. *)
Record conserves w F T w' F' T' : Prop := {
  co_root : root T' = root T;
  co_pages : ∀ p, (p ∈ F' ∨ ∃ n, addr T' n = Some p) ↔ (p ∈ F ∨ ∃ n, addr T n = Some p);
  co_frame : frame w w' F T;
}.

Lemma conserves_refl w F T : conserves w F T w F T.
Proof. by split. Qed.
Lemma conserves_trans w F T w1 F1 T1 w2 F2 T2 :
  conserves w F T w1 F1 T1 → conserves w1 F1 T1 w2 F2 T2 → conserves w F T w2 F2 T2.
Proof.
  intros [Hr1 Hp1 Hf1] [Hr2 Hp2 Hf2]. split; [congruence| |].
  - intros p. by rewrite Hp2, Hp1.
  - intros p HpF Hp. assert (¬ (p ∈ F1 ∨ ∃ n, addr T1 n = Some p)) as Hno.
    { rewrite Hp1. intros [?|[n ?]]; [done|by apply (Hp n)]. }
    rewrite Hf2; [by apply Hf1|auto|]. intros n Hn. apply Hno. right. by exists n.
Qed.

(** The page below entry [k] of the page of [parent] is freed and the entry
    cleared: the reverse of growing. *)
Lemma shrink w F T T' parent pp c k q :
  vm_inv w F T → grows T' T parent c k q → root T' = root T → parent ≠ c → addr T parent = Some pp → 0 ≤ k < 512 →
  entry T' parent k = 0 →
  (∀ m F', (∀ n p, addr T' n = Some p → page_is m p (entry T' n)) →
     (∀ n p, addr T' n = Some p → pa_valid p ∧ p ∉ F') →
     (∀ n n' p, addr T' n = Some p → addr T' n' = Some p → n = n') → tree_inv m F' T') →
  ∃ w', (kfree_page q;; store pp k 0) w = Some ((), w') ∧ vm_inv w' (F ∪ {[q]}) T' ∧
    conserves w F T w' (F ∪ {[q]}) T'.
Proof.
  intros [Hal HT] (Hc' & Hc & Hoth & _ & Hent) Hroot Hpc Hpp Hk Hz Hti.
  destruct (ti_valid _ _ _ HT c q Hc) as [Hv HF].
  destruct (pa_kfree_spec _ _ q Hal Hv HF) as (a' & E & Hal').
  assert (pp ≠ q) as Hne by (intros ->; apply Hpc; by eapply (ti_inj _ _ _ HT)).
  set (w1 := mkVworld a' (delete q (words w))).
  rewrite (bind_eq _ _ _ () w1) by (unfold kfree_page; by rewrite E).
  assert (∀ n p, n ≠ c → addr T n = Some p → page_is (words w1) p (entry T n)) as Hpages.
  { intros n p Hn Hp. destruct (ti_page _ _ _ HT n p Hp) as (ws & Hws & ?). exists ws. cbn [words w1].
    rewrite lookup_delete_ne; [done|]. intros <-. apply Hn. by eapply (ti_inj _ _ _ HT). }
  destruct (store_page w1 pp k 0 (entry T parent) (Hpages parent pp Hpc Hpp) Hk) as (ws & Es & Hpage).
  assert (∀ n p, addr T' n = Some p → n ≠ c ∧ addr T n = Some p) as Hback.
  { intros n p Hp. assert (n ≠ c) as Hn by congruence. split; [done|]. by rewrite Hoth. }
  eexists. split; [exact Es|]. split.
  - split; [exact Hal'|]. cbn [words]. apply Hti.
    + intros n p (Hn & Hp)%Hback. destruct (decide (n = parent)) as [->|Hnp].
      * assert (p = pp) as -> by congruence. eapply page_is_ext; [|exact Hpage]. intros x Hx. cbn beta.
        case_decide as Hxk; [by subst|]. rewrite Hent by done. rewrite decide_False; [done|naive_solver].
      * apply page_is_other; [intros ->; apply Hnp; by eapply (ti_inj _ _ _ HT)|].
        apply page_is_ext with (entry T n); [|by apply Hpages]. intros x Hx. rewrite Hent by done.
        rewrite decide_False; [done|naive_solver].
    + intros n p (Hn & Hp)%Hback. destruct (ti_valid _ _ _ HT n p Hp) as [? ?]. split; [done|].
      intros [?|Hq%elem_of_singleton]%elem_of_union; [done|]. subst. apply Hn. by eapply (ti_inj _ _ _ HT).
    + intros n n' p (_ & Hp)%Hback (_ & Hp')%Hback. by eapply (ti_inj _ _ _ HT).
  - split; [done| |].
    + intros p. rewrite elem_of_union, elem_of_singleton. split.
      * intros [[?| ->]|[n [_ ?]%Hback]]; [by left|right; by exists c|right; by exists n].
      * intros [?|[n Hn]]; [by left; left|]. destruct (decide (n = c)) as [->|Hnc].
        -- left. right. congruence.
        -- right. exists n. by rewrite <-Hoth.
    + intros p HpF Hp. cbn [words]. rewrite lookup_insert_ne by (intros ->; by apply (Hp parent)).
      apply lookup_delete_ne. intros ->. by apply (Hp c).
Qed.
End user.

(** Freeing an address space: [freewalk] and [uvmfree] give every page back. *)

Section free.
Context {A : Type} `{PageAlloc A}.
Implicit Types (w : vworld A) (T : tree) (F : gset Z).

(** One turn of the loop of [freewalk]. *)
Definition free_entry (depth : nat) (pagetable : Z) (i : nat) : M (vworld A) unit :=
  pte ← load pagetable (Z.of_nat i);
  if Z.testbit pte 0 && (Z.land pte (Z.lor (Z.lor PTE_R PTE_W) PTE_X) =? 0) then
    freewalk depth (PTE2PA pte);; store pagetable (Z.of_nat i) 0
  else if Z.testbit pte 0 then stuck
  else mret ().

Lemma freewalk_S depth pt :
  freewalk (A := A) (S depth) pt = (mfor (seq 0 512) (free_entry depth pt);; kfree_page pt).
Proof. reflexivity. Qed.

Lemma free_entry_empty depth w F T n p k :
  vm_inv w F T → addr T n = Some p → (k < 512)%nat → entry T n (Z.of_nat k) = 0 →
  free_entry depth p k w = Some ((), w).
Proof.
  intros [_ HT] Hp Hk He. unfold free_entry.
  rewrite (load_page _ _ _ (entry T n)) by (lia || by apply (ti_page _ _ _ HT)). by rewrite He, Z.bits_0.
Qed.

Lemma free_entry_table depth w F T n p k q :
  vm_inv w F T → addr T n = Some p → (k < 512)%nat → entry T n (Z.of_nat k) = dir (Some q) → pa_valid q →
  free_entry depth p k w = (freewalk depth q;; store p (Z.of_nat k) 0) w.
Proof.
  intros [_ HT] Hp Hk He Hq. unfold free_entry.
  rewrite (load_page _ _ _ (entry T n)) by (lia || by apply (ti_page _ _ _ HT)).
  destruct (dir_valid q Hq) as [Hb Ha]. by rewrite He, Hb, Ha, (dir_no_leaf q Hq).
Qed.

(** A page whose entries are all empty is just freed. *)
Lemma free_entries_empty depth w F T n p ks :
  vm_inv w F T → addr T n = Some p → (∀ k, 0 ≤ k < 512 → entry T n k = 0) → (∀ k, k ∈ ks → (k < 512)%nat) →
  mfor ks (free_entry depth p) w = Some ((), w).
Proof.
  intros Hinv Hp Hz. induction ks as [|k ks IH]; intros Hks; [done|]. cbn [mfor].
  assert (k < 512)%nat as Hk by (apply Hks; left).
  rewrite (bind_eq _ _ _ () w) by (eapply free_entry_empty; [done|done|done|apply Hz; lia]).
  apply IH. intros x Hx. apply Hks. by right.
Qed.

Lemma freewalk_empty {B} depth w F T n p (g : M (vworld A) B) :
  vm_inv w F T → addr T n = Some p → (∀ k, 0 ≤ k < 512 → entry T n k = 0) →
  (freewalk (S depth) p;; g) w = (kfree_page p;; g) w.
Proof.
  intros Hinv Hp Hz. rewrite freewalk_S, bind_assoc. rewrite (bind_eq _ _ _ () w); [done|].
  eapply free_entries_empty; [done|done|done|]. intros k Hk%elem_of_seq. lia.
Qed.

(** ** A directory page *)
Section directory.
Variables (depth : nat) (parent : node) (child : Z → node) (pp : Z) (J : tree → Prop).
Hypothesis J_entry : ∀ T k, J T → 0 ≤ k < 512 → addr T parent = Some pp ∧ entry T parent k = dir (addr T (child k)).
Hypothesis J_free : ∀ w F T k q, vm_inv w F T → J T → 0 ≤ k < 512 → addr T (child k) = Some q →
  ∃ w' F' T', (freewalk depth q;; store pp k 0) w = Some ((), w') ∧ vm_inv w' F' T' ∧ conserves w F T w' F' T' ∧
    J T' ∧ addr T' (child k) = None ∧ ∀ x, x ≠ k → addr T' (child x) = addr T (child x).

Lemma free_directory n k w F T :
  vm_inv w F T → J T → (k + n = 512)%nat → (∀ x, 0 ≤ x < Z.of_nat k → addr T (child x) = None) →
  ∃ w' F' T', mfor (seq k n) (free_entry depth pp) w = Some ((), w') ∧ vm_inv w' F' T' ∧ conserves w F T w' F' T' ∧
    J T' ∧ ∀ x, 0 ≤ x < 512 → addr T' (child x) = None.
Proof.
  revert k w F T. induction n as [|n IH]; intros k w F T Hinv HJ Hkn Hnone.
  { exists w, F, T. split_and!; [done|done|apply conserves_refl|done|]. intros x Hx. apply Hnone. lia. }
  cbn [seq mfor]. destruct (J_entry T (Z.of_nat k) HJ ltac:(lia)) as [Hpp He].
  assert (∃ w1 F1 T1, free_entry depth pp k w = Some ((), w1) ∧ vm_inv w1 F1 T1 ∧ conserves w F T w1 F1 T1 ∧ J T1 ∧
    ∀ x, 0 ≤ x < Z.of_nat (S k) → addr T1 (child x) = None) as (w1 & F1 & T1 & E1 & Hinv1 & Hco1 & HJ1 & Hnone1).
  { destruct (addr T (child (Z.of_nat k))) as [q|] eqn:Eq.
    - destruct (J_free w F T (Z.of_nat k) q) as (w1 & F1 & T1 & E1 & Hinv1 & Hco1 & HJ1 & Hk1 & Hx1); [done|done|lia|done|].
      exists w1, F1, T1. split_and!; [|done|done|done|].
      + rewrite <-E1. eapply free_entry_table; [done|done|lia|done|]. by eapply (ti_valid _ _ _ (vi_tree _ _ _ Hinv)).
      + intros x Hx. destruct (decide (x = Z.of_nat k)) as [->|Hne]; [done|]. rewrite Hx1 by done. apply Hnone. lia.
    - exists w, F, T. split_and!; [|done|apply conserves_refl|done|].
      + eapply free_entry_empty; [done|done|lia|done].
      + intros x Hx. destruct (decide (x = Z.of_nat k)) as [->|Hne]; [done|]. apply Hnone. lia. }
  rewrite (bind_eq _ _ _ _ _ E1).
  destruct (IH (S k) w1 F1 T1 Hinv1 HJ1 ltac:(lia) Hnone1) as (w2 & F2 & T2 & E2 & Hinv2 & Hco2 & HJ2 & Hnone2).
  exists w2, F2, T2. split_and!; [done|done| |done|done]. by eapply conserves_trans.
Qed.
End directory.

(** ** The two levels of directories *)

Definition remove_leaf (i j : Z) T : tree := mkTree (root T) (mids T) (delete (i, j) (leaves T)) (L T).
Definition remove_mid (i : Z) T : tree := mkTree (root T) (delete i (mids T)) (leaves T) (L T).

Lemma remove_leaf_grows T i j q :
  leaves T !! (i, j) = Some q → L T = ∅ → grows (remove_leaf i j T) T (NMid i) (NLeaf i j) j q.
Proof.
  intros Hq HL. split_and!; [apply lookup_delete_eq|done| | |].
  - intros [|i'|i' j'] Hn; simpl; [done|done|]. rewrite lookup_delete_ne; [done|congruence].
  - intros x Hx. simpl. by rewrite HL.
  - intros [|i'|i' j'] x Hn Hx; cbn [entry remove_leaf mids leaves L].
    + by rewrite decide_False by naive_solver.
    + destruct (decide (NMid i' = NMid i ∧ x = j)) as [[[= ->] ->]|Hne]; [by rewrite Hq|].
      rewrite lookup_delete_ne; [done|]. intros [= -> ->]. by apply Hne.
    + by rewrite decide_False by naive_solver.
Qed.

Lemma remove_mid_grows T i q :
  mids T !! i = Some q → (∀ j, 0 ≤ j < 512 → leaves T !! (i, j) = None) →
  grows (remove_mid i T) T NRoot (NMid i) i q.
Proof.
  intros Hq Hl. split_and!; [apply lookup_delete_eq|done| | |].
  - intros [|i'|i' j'] Hn; simpl; [done| |done]. rewrite lookup_delete_ne; [done|congruence].
  - intros x Hx. simpl. by rewrite Hl.
  - intros [|i'|i' j'] x Hn Hx; cbn [entry remove_mid mids leaves L].
    + destruct (decide (NRoot = NRoot ∧ x = i)) as [[_ ->]|Hne]; [by rewrite Hq|].
      rewrite lookup_delete_ne; [done|]. intros ->. by apply Hne.
    + by rewrite decide_False by naive_solver.
    + by rewrite decide_False by naive_solver.
Qed.

(** A leaf page is freed from its directory. *)
Lemma free_leaf depth w F T i j p1 q :
  vm_inv w F T → L T = ∅ → mids T !! i = Some p1 → leaves T !! (i, j) = Some q →
  ∃ w' F', (freewalk (S depth) q;; store p1 j 0) w = Some ((), w') ∧
    vm_inv w' F' (remove_leaf i j T) ∧ conserves w F T w' F' (remove_leaf i j T).
Proof.
  intros Hinv HL Hp1 Hq. pose proof Hinv as [_ HT]. destruct (ti_leaf _ _ _ HT _ _ _ Hq) as (Hi & Hj & _).
  rewrite (freewalk_empty depth w F T (NLeaf i j) q) by (done || intros; cbn [entry]; by rewrite HL).
  destruct (shrink w F T (remove_leaf i j T) (NMid i) p1 (NLeaf i j) j q) as (w' & E & Hinv' & Hco); try done.
  - by apply remove_leaf_grows.
  - cbn [entry remove_leaf leaves]. by rewrite lookup_delete_eq.
  - intros m F' H1 H2 H3. split; try done; cbn [remove_leaf mids leaves L].
    + apply (ti_mid _ _ _ HT).
    + intros i' j' p [_ Hp]%lookup_delete_Some. by apply (ti_leaf _ _ _ HT) in Hp.
    + intros i' j' k e _ _. by rewrite HL.
  - by exists w', (F ∪ {[q]}).
Qed.

(** A middle page is freed from the root, with everything below it. *)
Lemma free_mid depth w F T i q :
  vm_inv w F T → L T = ∅ → mids T !! i = Some q →
  ∃ w' F' T', (freewalk (S (S depth)) q;; store (root T) i 0) w = Some ((), w') ∧
    vm_inv w' F' T' ∧ conserves w F T w' F' T' ∧ L T' = ∅ ∧ mids T' = delete i (mids T).
Proof.
  intros Hinv HL Hq. pose proof (ti_mid _ _ _ (vi_tree _ _ _ Hinv) _ _ Hq) as Hi.
  rewrite freewalk_S, bind_assoc.
  destruct (free_directory (S depth) (NMid i) (NLeaf i) q (λ T', L T' = ∅ ∧ mids T' = mids T))
    with (n := 512%nat) (k := 0%nat) (w := w) (F := F) (T := T)
    as (w1 & F1 & T1 & E1 & Hinv1 & Hco1 & [HL1 Hm1] & Hnone); [| |done|done|done|lia|].
  { intros T' k [HL' Hm'] Hk. split; [simpl; congruence|done]. }
  { intros w0 F0 T0 k q0 Hinv0 [HL0 Hm0] Hk Hq0.
    destruct (free_leaf depth w0 F0 T0 i k q q0) as (w' & F' & E & Hinv' & Hco'); [done|done|congruence|done|].
    exists w', F', (remove_leaf i k T0). split_and!; [done|done|done|done|done|apply lookup_delete_eq|].
    intros x Hx. apply lookup_delete_ne. congruence. }
  rewrite (bind_eq _ _ _ _ _ E1). rewrite <-Hm1 in Hq. pose proof Hinv1 as [_ HT1].
  destruct (shrink w1 F1 T1 (remove_mid i T1) NRoot (root T) (NMid i) i q) as (w2 & E2 & Hinv2 & Hco2); try done.
  - by apply remove_mid_grows.
  - simpl. by rewrite (co_root _ _ _ _ _ _ Hco1).
  - cbn [entry remove_mid mids]. by rewrite lookup_delete_eq.
  - intros m F' H1 H2 H3. split; try done; cbn [remove_mid mids leaves L].
    + intros x p [_ Hp]%lookup_delete_Some. by apply (ti_mid _ _ _ HT1) in Hp.
    + intros i' j' p Hp. destruct (ti_leaf _ _ _ HT1 _ _ _ Hp) as (? & Hj' & ?). split_and!; try lia.
      rewrite lookup_delete_ne; [done|]. intros <-. pose proof (Hnone j' Hj'). simpl in *. congruence.
    + intros i' j' k e _ _. by rewrite HL1.
  - exists w2, (F1 ∪ {[q]}), (remove_mid i T1). split_and!; [done|done| |done|simpl; by rewrite Hm1].
    by eapply conserves_trans.
Qed.

(** [freewalk] on a page table without mappings gives back every page of the
    tree, and nothing else. *)
Lemma freewalk_spec w F T :
  vm_inv w F T → L T = ∅ →
  ∃ w' F', freewalk 3 (root T) w = Some ((), w') ∧ pa_ok (alloc w') F' ∧
    (∀ p, p ∈ F' ↔ p ∈ F ∨ ∃ n, addr T n = Some p) ∧ frame w w' F T.
Proof.
  intros Hinv HL. rewrite freewalk_S.
  destruct (free_directory 2 NRoot NMid (root T) (λ T', L T' = ∅ ∧ root T' = root T))
    with (n := 512%nat) (k := 0%nat) (w := w) (F := F) (T := T)
    as (w1 & F1 & T1 & E1 & Hinv1 & Hco1 & [HL1 Hr1] & Hnone); [| |done|done|done|lia|].
  { intros T' k [HL' Hr'] Hk. split; [simpl; congruence|done]. }
  { intros w0 F0 T0 k q0 Hinv0 [HL0 Hr0] Hk Hq0.
    destruct (free_mid 0 w0 F0 T0 k q0) as (w' & F' & T' & E & Hinv' & Hco' & HL' & Hm'); [done|done|done|].
    rewrite Hr0 in E. exists w', F', T'. split_and!; [done|done|done|done| | |].
    - rewrite (co_root _ _ _ _ _ _ Hco'). done.
    - simpl. rewrite Hm'. apply lookup_delete_eq.
    - intros x Hx. simpl. rewrite Hm'. by apply lookup_delete_ne. }
  rewrite (bind_eq _ _ _ _ _ E1). pose proof Hinv1 as [Hal1 HT1].
  assert (∀ n p, addr T1 n = Some p → n = NRoot) as Honly.
  { intros [|i|i j] p Hp; [done|exfalso..].
    - pose proof (ti_mid _ _ _ HT1 _ _ Hp) as Hi. pose proof (Hnone i Hi). simpl in *. congruence.
    - destruct (ti_leaf _ _ _ HT1 _ _ _ Hp) as (Hi & _ & [p' Hp']). pose proof (Hnone i Hi). simpl in *. congruence. }
  destruct (ti_valid _ _ _ HT1 NRoot (root T1) eq_refl) as [Hv HF].
  destruct (pa_kfree_spec _ _ (root T1) Hal1 Hv HF) as (a' & E & Hal').
  eexists _, _. split; [unfold kfree_page; by rewrite <-Hr1, E|]. split_and!; [exact Hal'| |].
  - intros p. rewrite elem_of_union, elem_of_singleton, <-(co_pages _ _ _ _ _ _ Hco1). split.
    + intros [?| ->]; [by left|right]. by exists NRoot.
    + intros [?|[n Hn]]; [by left|]. right. rewrite (Honly n p Hn) in Hn. by injection Hn.
  - intros p HpF Hp. cbn [words]. rewrite Hr1, lookup_delete_ne by (intros <-; by apply (Hp NRoot)).
    by apply (co_frame _ _ _ _ _ _ Hco1).
Qed.
End free.
