(* ===== verification/VmAlloc.v ===== *)
(** Growing and freeing user memory: [uvmcreate], [uvmalloc], [uvmdealloc] and
    [uvmfree] of [xv6/kernel/vm.c]. *)
From S2P Require Import Prelude Kalloc Proc Vm VmSpec VmUser.

Lemma lor_flags a b : 0 ≤ a < 1024 → 0 ≤ b < 1024 → 0 ≤ Z.lor a b < 1024.
Proof.
  intros Ha Hb. assert (0 ≤ Z.lor a b) by (apply Z.lor_nonneg; lia). split; [done|].
  destruct (decide (Z.lor a b = 0)) as [->|]; [done|]. change 1024 with (2 ^ 10) in *.
  apply Z.log2_lt_pow2; [lia|]. rewrite Z.log2_lor by lia.
  apply Z.max_lub_lt; [destruct (decide (a = 0)) as [->|]|destruct (decide (b = 0)) as [->|]]; try done;
    apply Z.log2_lt_pow2; lia.
Qed.

Lemma leaf_pte_parts p perm :
  p mod PGSIZE = 0 → 0 ≤ p < 2 ^ 56 → 0 ≤ perm < 1024 →
  Z.testbit (leaf_pte p perm) 0 = true ∧ PTE2PA (leaf_pte p perm) = p ∧
  PTE_FLAGS (leaf_pte p perm) = Z.lor perm PTE_V.
Proof.
  intros Ha Hr Hperm. unfold leaf_pte. rewrite <-Z.lor_assoc.
  assert (0 ≤ Z.lor perm PTE_V < 1024) as Hfl by by apply lor_flags.
  destruct (pte_parts p (Z.lor perm PTE_V) Ha Hr Hfl) as [Hp Hf]. split_and!; [|done|done].
  rewrite pte_bit by lia. rewrite Z.lor_spec. change (Z.testbit PTE_V 0) with true. apply orb_true_r.
Qed.

Lemma map_entries_1 vp pa perm l : map_entries 1 vp pa perm l = <[vp := leaf_pte pa perm]> l.
Proof. reflexivity. Qed.

Section alloc.
Context {A : Type} `{PageAlloc A}.
Implicit Types (w : vworld A) (T : tree) (F : gset Z).

(** The page numbers of user memory. *)
Variable P : Z → Prop.

(** The pages the address space accounts for: the free ones, those of its
    tables and those it maps. *)
Definition pages_of F T (p : Z) : Prop :=
  p ∈ F ∨ (∃ n, addr T n = Some p) ∨ mapped_by T P p.

Lemma evolves_fresh w F T w' F' T' p :
  evolves w F T w' F' T' → p ∉ F → (∀ n, addr T n ≠ Some p) → p ∉ F' ∧ ∀ n, addr T' n ≠ Some p.
Proof.
  intros Hev HF Hn. assert (¬ (p ∈ F' ∨ ∃ n, addr T' n = Some p)) as Hno.
  { rewrite (ev_pages _ _ _ _ _ _ Hev). intros [?|[n ?]]; [done|by apply (Hn n)]. }
  split; [auto|]. intros n E. apply Hno. right. by exists n.
Qed.

Lemma owns_evolves w F T w' F' T' :
  owns F T P → evolves w F T w' F' T' → L T' = L T → owns F' T' P.
Proof.
  intros [H1 H2 H3 H4] Hev HL.
  assert (∀ n e, P n → L T !! n = Some e → PTE2PA e ∉ F' ∧ ∀ m, addr T' m ≠ Some (PTE2PA e)) as Hno.
  { intros n e Hn He. eapply evolves_fresh; [done|by apply (H2 n e)|intros m; by apply (H3 n e m)]. }
  split; rewrite ?HL; [done| | |done].
  - intros n e Hn He. split; [by apply (H2 n e)|by apply (Hno n e)].
  - intros n e m Hn He. by apply (Hno n e).
Qed.

(** A page that belongs to nobody yet is given to page number [n]. *)
Lemma owns_insert F T n p perm l :
  owns F T P → L T !! n = None → pa_valid p → ¬ pages_of F T p → 0 ≤ perm < 1024 →
  l = <[n := leaf_pte p perm]> (L T) → owns F (set_L l T) P.
Proof.
  intros [H1 H2 H3 H4] Hn Hv Hno Hperm ->. destruct (pa_valid_range p Hv) as [Hr Ha].
  destruct (leaf_pte_parts p perm Ha ltac:(lia) Hperm) as (Hb & Hp & _).
  split; cbn [set_L L].
  - intros x e Hx [[<- <-]|[_ He]]%lookup_insert_Some; [done|by eapply H1].
  - intros x e Hx [[<- <-]|[_ He]]%lookup_insert_Some; [|by eapply H2]. rewrite Hp. split; [done|].
    intros ?. apply Hno. by left.
  - intros x e m Hx [[<- <-]|[_ He]]%lookup_insert_Some.
    + rewrite Hp. intros E. apply Hno. right. left. exists m. by destruct m.
    + pose proof (H3 x e m Hx He). by destruct m.
  - intros x e x' e' Hx Hx' [[<- <-]|[_ He]]%lookup_insert_Some [[<- <-]|[_ He']]%lookup_insert_Some; [done|..].
    + rewrite Hp. intros ->. exfalso. apply Hno. right. right. by exists x', e'.
    + rewrite Hp. intros <-. exfalso. apply Hno. right. right. by exists x, e.
    + by apply H4.
Qed.

(** Mapping one page with [mappages]. *)
Lemma mappages_one w F T a mem perm :
  vm_inv w F T → owns F T P → P (a / PGSIZE) → 0 ≤ a → a mod PGSIZE = 0 → a + PGSIZE ≤ MAXVA →
  L T !! (a / PGSIZE) = None → pa_valid mem → ¬ pages_of F T mem → 0 ≤ perm < 1024 →
  ∃ r w' F' T', mappages (root T) a PGSIZE mem perm w = Some (r, w') ∧ vm_inv w' F' T' ∧
    evolves w F T w' F' T' ∧ owns F' T' P ∧
    ((r = 0 ∧ L T' = <[a / PGSIZE := leaf_pte mem perm]> (L T)) ∨ (r = -1 ∧ F' = ∅ ∧ L T' = L T)).
Proof.
  intros Hinv Hown HP Ha Hal Hmax Hnone Hv Hno Hperm. destruct (pa_valid_range mem Hv) as [Hr Hm].
  unfold mappages. rewrite Hal. change (PGSIZE mod PGSIZE =? 0) with true. change (PGSIZE =? 0) with false.
  cbn [Z.eqb negb orb]. change (Z.to_nat (PGSIZE / PGSIZE)) with 1%nat.
  rewrite u64_id by (unfold MAXVA, PGSIZE in *; lia). replace (a + PGSIZE - PGSIZE) with (a + Z.of_nat 0 * PGSIZE) by lia.
  destruct (mappages_loop_spec 0 w F T a mem perm) as (r & m & w' & F' & T' & E & Hinv' & Hev & HL & Hres);
    [done|done|done|unfold PGSIZE in *; lia|lia|unfold PGSIZE; lia| |].
  { intros k Hk. replace (a / PGSIZE + k) with (a / PGSIZE) by lia. done. }
  exists r, w', F', T'. split_and!; [exact E|done|done| |].
  - destruct Hres as [[-> ->]|(-> & Hm0 & ->)].
    + rewrite map_entries_1 in HL.
      assert (T' = set_L (<[a / PGSIZE := leaf_pte mem perm]> (L T)) (set_L (L T) T')) as ->.
      { destruct T'. simpl in *. by rewrite HL. }
      assert (evolves w F T w' F' (set_L (L T) T')) as Hev'.
      { destruct Hev as [He1 He2 He3 He4]. split; [done| | |done].
        - intros n p Hp. specialize (He2 n p Hp). by destruct n.
        - intros p. rewrite <-He3. split; (intros [?|[n ?]]; [by left|right; exists n; by destruct n]). }
      eapply (owns_insert _ _ (a / PGSIZE) mem perm); [by eapply owns_evolves|done|done| |done|done].
      destruct (evolves_fresh _ _ _ _ _ _ mem Hev') as [HF Hn].
      { intros ?. apply Hno. by left. } { intros n ?. apply Hno. right. left. by exists n. }
      intros [Hf|[[n ?]|(n & e & ? & He & Hp)]]; [done|by apply (Hn n)|]. apply Hno. right. right. by exists n, e.
    + assert (m = 0%nat) as -> by lia. by eapply owns_evolves.
  - destruct Hres as [[-> ->]|(-> & Hm0 & ->)]; [left; by rewrite map_entries_1 in HL|right].
    assert (m = 0%nat) as -> by lia. done.
Qed.

(** Pages move between the free ones, the tables and the mappings. Beside
    these, only pages that the entries with numbers in [Q] map are touched. *)
Record accounts (Q : Z → Prop) w F T w' F' T' : Prop := {
  ac_root : root T' = root T;
  ac_addr : ∀ n p, addr T n = Some p → addr T' n = Some p;
  ac_pages : ∀ p, pages_of F' T' p ↔ pages_of F T p;
  ac_sub : ∀ p, p ∈ F' ∨ (∃ n, addr T' n = Some p) → p ∈ F ∨ (∃ n, addr T n = Some p) ∨ mapped_by T Q p;
  ac_frame : ∀ p, p ∉ F → (∀ n, addr T n ≠ Some p) → ¬ mapped_by T Q p → words w' !! p = words w !! p;
}.

Lemma accounts_refl Q w F T : accounts Q w F T w F T.
Proof. split; [done|done|done|naive_solver|done]. Qed.

Lemma accounts_trans Q Q1 w F T w1 F1 T1 w2 F2 T2 :
  accounts Q w F T w1 F1 T1 → accounts Q1 w1 F1 T1 w2 F2 T2 →
  (∀ p, mapped_by T1 Q1 p → p ∈ F ∨ (∃ n, addr T n = Some p) ∨ mapped_by T Q p) →
  accounts Q w F T w2 F2 T2.
Proof.
  intros [Hr1 Ha1 Hp1 Hs1 Hf1] [Hr2 Ha2 Hp2 Hs2 Hf2] Hm. split; [congruence|by auto| | |].
  - intros p. by rewrite Hp2, Hp1.
  - intros p Hp. apply Hs2 in Hp as [?|[?|?]]; auto.
  - intros p HF Hn HQ. assert (¬ (p ∈ F ∨ (∃ n, addr T n = Some p) ∨ mapped_by T Q p)) as Hno.
    { intros [?|[[n ?]|?]]; [done|by apply (Hn n)|done]. }
    rewrite Hf2; [by apply Hf1|auto| |auto]. intros n E. apply Hno, Hs1. right. by exists n.
Qed.

Lemma accounts_weaken (Q : Z → Prop) w F T w' F' T' : accounts (λ _, False) w F T w' F' T' → accounts Q w F T w' F' T'.
Proof.
  intros [H1 H2 H3 H4 H5]. split; [done|done|done| |].
  - intros p Hp. destruct (H4 p Hp) as [?|[?|(? & ? & [] & _)]]; auto.
  - intros p HF Hn _. apply H5; [done|done|]. by intros (? & ? & [] & _).
Qed.

Lemma evolves_accounts Q w F T w' F' T' : evolves w F T w' F' T' → L T' = L T → accounts Q w F T w' F' T'.
Proof.
  intros Hev HL. pose proof (ev_pages _ _ _ _ _ _ Hev) as Hp. split.
  - apply (ev_root _ _ _ _ _ _ Hev).
  - apply (ev_addr _ _ _ _ _ _ Hev).
  - intros p. unfold pages_of, mapped_by. rewrite HL. specialize (Hp p). tauto.
  - intros p. specialize (Hp p). tauto.
  - intros p HF Hn _. by apply (ev_frame _ _ _ _ _ _ Hev).
Qed.

(** ** One page of user memory *)

(** A page taken from the allocator belongs to nobody else. *)
Lemma take_page w F T mem a' ws :
  vm_inv w F T → owns F T P → mem ∈ F → pa_ok a' (F ∖ {[mem]}) →
  vm_inv (mkVworld a' (<[mem := ws]> (words w))) (F ∖ {[mem]}) T ∧ owns (F ∖ {[mem]}) T P ∧
  (∀ n, addr T n ≠ Some mem) ∧ ¬ mapped_by T P mem ∧ ¬ pages_of (F ∖ {[mem]}) T mem.
Proof.
  intros [Hok HT] Hown HmF Hok'.
  assert (∀ n, addr T n ≠ Some mem) as Hmt.
  { intros n Hn. by apply (ti_valid _ _ _ HT n mem) in Hn as [_ ?]. }
  assert (¬ mapped_by T P mem) as Hmm.
  { intros (n & e & Hn & He & ->). by apply (ow_valid _ _ _ Hown n e Hn He). }
  split_and!; [| |done|done|].
  - destruct HT as [H1 H2 H3 H4 H5 H6]. split; [done|]. split; try done; cbn [words].
    + intros n p Hp. apply page_is_other; [|by apply H1]. intros ->. by apply (Hmt n).
    + intros n p Hp. destruct (H2 n p Hp). split; [done|set_solver].
  - destruct Hown as [H1 H2 H3 H4]. split; try done. intros n e Hn He. destruct (H2 n e Hn He). split; [done|set_solver].
  - intros [?|[[n ?]|?]]; [set_solver|by apply (Hmt n)|done].
Qed.

(** A fresh page with contents [ws] is mapped at [a]: the steps that
    [uvmalloc], [uvmcopy] and [vmfault] share. *)
Lemma user_page w F T a perm ws :
  vm_inv w F T → owns F T P → P (a / PGSIZE) → 0 ≤ a → a mod PGSIZE = 0 → a + PGSIZE ≤ MAXVA →
  L T !! (a / PGSIZE) = None → 0 ≤ perm < 1024 →
  (F = ∅ ∧ kalloc_page w = Some (0, w)) ∨
  ∃ mem w1 r w2, mem ∈ F ∧ mem ≠ 0 ∧ kalloc_page w = Some (mem, w1) ∧
    (set_page_words mem ws;; mappages (root T) a PGSIZE mem perm) w1 = Some (r, w2) ∧
    ((r = 0 ∧ words w2 !! mem = Some ws ∧ ∃ F' T', vm_inv w2 F' T' ∧ owns F' T' P ∧
       accounts (λ _, False) w F T w2 F' T' ∧ L T' = <[a / PGSIZE := leaf_pte mem perm]> (L T)) ∨
     (r = -1 ∧ ∃ w3 F' T', kfree_page mem w2 = Some ((), w3) ∧ vm_inv w3 F' T' ∧ owns F' T' P ∧
       accounts (λ _, False) w F T w3 F' T' ∧ L T' = L T)).
Proof.
  intros Hinv Hown HP Ha Hal Hmax Hnone Hperm. pose proof (vi_alloc _ _ _ Hinv) as Hok.
  destruct (pa_kalloc_spec _ _ Hok) as [[-> E]|(mem & a' & HmF & E & Hok')].
  { left. split; [done|]. unfold kalloc_page. rewrite E. by destruct w. }
  right. pose proof (pa_ok_valid _ _ _ Hok HmF) as Hv. pose proof (pa_valid_range mem Hv) as [Hr Hm].
  destruct (take_page w F T mem a' ws Hinv Hown HmF Hok') as (Hinv1 & Hown1 & Hmt & Hmm & Hno).
  set (w1 := mkVworld a' (words w)). set (wz := mkVworld a' (<[mem := ws]> (words w))) in *.
  destruct (mappages_one wz (F ∖ {[mem]}) T a mem perm) as (r & w2 & F' & T' & E2 & Hinv2 & Hev & Hown2 & Hres); try done.
  exists mem, w1, r, w2. split_and!; [done|lia|unfold kalloc_page; by rewrite E|exact E2|].
  destruct (evolves_fresh _ _ _ _ _ _ mem Hev) as [HmF' Hmt']; [set_solver|done|].
  assert (∀ p, p ≠ mem → (p ∈ F' ∨ ∃ n, addr T' n = Some p) ↔ (p ∈ F ∨ ∃ n, addr T n = Some p)) as Hpg.
  { intros p Hp. rewrite (ev_pages _ _ _ _ _ _ Hev), elem_of_difference, elem_of_singleton. naive_solver. }
  assert (∀ p, p ∉ F → (∀ n, addr T n ≠ Some p) → words w2 !! p = words w !! p) as Hfr.
  { intros p HF Hn. rewrite (ev_frame _ _ _ _ _ _ Hev p); [|set_solver|done]. cbn [words wz].
    apply lookup_insert_ne. set_solver. }
  destruct Hres as [[-> HL]|(-> & -> & HL)]; [left|right]; (split; [done|]).
  - split; [rewrite (ev_frame _ _ _ _ _ _ Hev mem); [apply lookup_insert_eq|set_solver|done]|].
    exists F', T'. split_and!; [done|done| |done].
    destruct (leaf_pte_parts mem perm Hm ltac:(lia) Hperm) as (_ & Hpa & _).
    assert (∀ p, mapped_by T' P p ↔ p = mem ∨ mapped_by T P p) as Hmap.
    { intros p. unfold mapped_by. rewrite HL. split.
      - intros (n & e & Hn & [[<- <-]|[_ He]]%lookup_insert_Some & ->); [by left|right]. by exists n, e.
      - intros [->|(n & e & Hn & He & ->)].
        + exists (a / PGSIZE), (leaf_pte mem perm). by rewrite lookup_insert_eq.
        + exists n, e. rewrite lookup_insert_ne; [done|]. congruence. }
    split; [apply (ev_root _ _ _ _ _ _ Hev)|apply (ev_addr _ _ _ _ _ _ Hev)| | |by auto].
    + intros p. unfold pages_of. rewrite Hmap. destruct (decide (p = mem)) as [->|Hne]; [tauto|]. specialize (Hpg p Hne). tauto.
    + intros p Hp. destruct (decide (p = mem)) as [->|Hne]; [by left|]. specialize (Hpg p Hne). tauto.
  - destruct (free_page w2 ∅ T' mem Hinv2 Hv HmF' Hmt') as (w3 & E3 & Hinv3 & Hfr3).
    exists w3, (∅ ∪ {[mem]}), T'. split_and!; [done|done| | |done].
    + destruct Hown2 as [H1 H2 H3 H4]. split; try done. intros n e Hn He. destruct (H2 n e Hn He) as [Hve _]. split; [done|].
      rewrite HL in He. intros [?|Hq%elem_of_singleton]%elem_of_union; [done|]. apply Hmm. by exists n, e.
    + apply evolves_accounts; [|done]. split; [apply (ev_root _ _ _ _ _ _ Hev)|apply (ev_addr _ _ _ _ _ _ Hev)| |].
      * intros p. destruct (decide (p = mem)) as [->|Hne]; [set_solver|]. rewrite <-(Hpg p Hne). set_solver.
      * intros p HF Hn. rewrite Hfr3 by set_solver. by apply Hfr.
Qed.

(** ** Shrinking *)

Lemma owns_range F F' T n c :
  owns F T P → (∀ p, p ∈ F' ↔ p ∈ F ∨ mapped_by T (λ x, n ≤ x < n + Z.of_nat c) p) →
  (∀ x, n ≤ x < n + Z.of_nat c → P x) → owns F' (without_range c n T) P.
Proof.
  intros [H1 H2 H3 H4] HF HP. destruct (without_range_spec c n T) as (_ & Ha & HL).
  split; [intros x e|intros x e|intros x e m|intros x e x' e']; rewrite !HL.
  - case_decide; [done|]. by apply H1.
  - case_decide as Hx; [done|]. intros HPx He. destruct (H2 x e HPx He) as [? ?]. split; [done|].
    rewrite HF. intros [?|(y & e' & Hy & He' & E)]; [done|]. apply Hx. assert (x = y) as -> by (eapply H4; eauto). done.
  - case_decide; [done|]. rewrite Ha. by apply H3.
  - repeat case_decide; try done. by apply H4.
Qed.

Lemma uvmunmap_spec w F T va c :
  vm_inv w F T → owns F T P → 0 ≤ va → va mod PGSIZE = 0 → 0 ≤ c → va + c * PGSIZE ≤ MAXVA →
  (∀ n, va / PGSIZE ≤ n < va / PGSIZE + c → P n) →
  ∃ w' F' T', uvmunmap (root T) va c true w = Some ((), w') ∧ vm_inv w' F' T' ∧ owns F' T' P ∧
    accounts (λ n, va / PGSIZE ≤ n < va / PGSIZE + c) w F T w' F' T' ∧
    (∀ p, p ∈ F' ↔ p ∈ F ∨ mapped_by T (λ n, va / PGSIZE ≤ n < va / PGSIZE + c) p) ∧
    (∀ n, addr T' n = addr T n) ∧
    ∀ n, L T' !! n = if decide (va / PGSIZE ≤ n < va / PGSIZE + c) then None else L T !! n.
Proof.
  intros Hinv Hown Hva Hal Hc Hmax HP.
  destruct (uvmunmap_frees w F T va c) as (w' & F' & E & Hinv' & HF & Hfr); try done; [by eapply owns_sub|].
  set (n0 := va / PGSIZE) in *.
  destruct (without_range_spec (Z.to_nat c) n0 T) as (Hr & Ha & HL). rewrite Z2Nat.id in HL by done.
  assert (owns F' (without_range (Z.to_nat c) n0 T) P) as Hown'.
  { eapply owns_range; [exact Hown| |]; rewrite Z2Nat.id by done; done. }
  exists w', F', (without_range (Z.to_nat c) n0 T). split_and!; try done. split; [done|intros n p; by rewrite Ha| | |].
  - intros p. unfold pages_of. rewrite HF. setoid_rewrite Ha. split.
    + intros [[?|(n & e & Hn & He & ->)]|[?|(n & e & Hn & He & ->)]].
      * by left.
      * right. right. exists n, e. split_and!; [by apply HP|done|done].
      * by right; left.
      * rewrite HL in He. case_decide; [done|]. right. right. by exists n, e.
    + intros [?|[?|(n & e & Hn & He & ->)]]; [by left; left|by right; left|].
      destruct (decide (n0 ≤ n < n0 + c)) as [Hr'|Hr'].
      * left. right. by exists n, e.
      * right. right. exists n, e. rewrite HL, decide_False by done. done.
  - intros p [Hp|Hp]; [apply HF in Hp; tauto|]. setoid_rewrite Ha in Hp. tauto.
  - intros p HpF Hn Hm. apply Hfr; [|done]. rewrite HF. tauto.
Qed.

(** The page numbers that shrinking from [oldsz] to [newsz] removes. *)
Definition between (newsz oldsz n : Z) : Prop := PGROUNDUP newsz / PGSIZE ≤ n < PGROUNDUP oldsz / PGSIZE.
#[global] Instance between_dec newsz oldsz n : Decision (between newsz oldsz n).
Proof. unfold between. apply _. Defined.

Lemma PGROUNDUP_mono a b : 0 ≤ a ≤ b → b < 2 ^ 63 → PGROUNDUP a ≤ PGROUNDUP b.
Proof.
  intros Ha Hb. destruct (PGROUNDUP_spec a) as [Ha1 Ha2]; [lia|]. destruct (PGROUNDUP_spec b) as [Hb1 Hb2]; [lia|].
  unfold PGSIZE in *. pose proof (Z.div_mod (PGROUNDUP a) 4096). pose proof (Z.div_mod (PGROUNDUP b) 4096). lia.
Qed.
Lemma PGROUNDUP_aligned a : 0 ≤ a < 2 ^ 63 → a mod PGSIZE = 0 → PGROUNDUP a = a.
Proof.
  intros Ha Hal. destruct (PGROUNDUP_spec a Ha) as [H1 H2]. unfold PGSIZE in *.
  pose proof (Z.div_mod (PGROUNDUP a) 4096). pose proof (Z.div_mod a 4096). lia.
Qed.

Lemma between_empty newsz oldsz n : PGROUNDUP oldsz ≤ PGROUNDUP newsz → ¬ between newsz oldsz n.
Proof. unfold between. intros Hle%(Z.div_le_mono _ _ PGSIZE); [lia|done]. Qed.

Lemma uvmdealloc_spec w F T oldsz newsz :
  vm_inv w F T → owns F T P → 0 ≤ newsz < 2 ^ 63 → 0 ≤ oldsz ≤ MAXVA → (∀ n, between newsz oldsz n → P n) →
  ∃ w' F' T', uvmdealloc (root T) oldsz newsz w = Some (Z.min oldsz newsz, w') ∧
    vm_inv w' F' T' ∧ owns F' T' P ∧ accounts (between newsz oldsz) w F T w' F' T' ∧
    ∀ n, L T' !! n = if decide (between newsz oldsz n) then None else L T !! n.
Proof.
  intros Hinv Hown Hn Ho HP. assert (MAXVA < 2 ^ 63) as Hmx by done. unfold uvmdealloc.
  assert (PGROUNDUP oldsz ≤ PGROUNDUP newsz → ∃ F' T', vm_inv w F' T' ∧ owns F' T' P ∧
    accounts (between newsz oldsz) w F T w F' T' ∧
    ∀ n, L T' !! n = if decide (between newsz oldsz n) then None else L T !! n) as Hsame.
  { intros Hle. exists F, T. split_and!; [done|done|apply accounts_refl|]. intros n.
    by rewrite decide_False by by apply between_empty. }
  destruct (decide (oldsz ≤ newsz)) as [Hle|Hlt].
  { rewrite (proj2 (Z.leb_le _ _) Hle), Z.min_l by done. exists w.
    destruct Hsame as (F' & T' & ?); [apply PGROUNDUP_mono; lia|]. by exists F', T'. }
  rewrite (proj2 (Z.leb_gt _ _)), Z.min_r by lia. unfold when.
  destruct (decide (PGROUNDUP newsz < PGROUNDUP oldsz)) as [Hl|Hg].
  2:{ rewrite (proj2 (Z.ltb_ge _ _)) by lia. exists w. destruct Hsame as (F' & T' & ?); [lia|]. by exists F', T'. }
  rewrite (proj2 (Z.ltb_lt _ _)) by lia.
  destruct (PGROUNDUP_spec newsz ltac:(lia)) as [Hn1 Hn2]. destruct (PGROUNDUP_spec oldsz ltac:(lia)) as [Ho1 Ho2].
  assert (PGROUNDUP oldsz ≤ MAXVA) as Homax.
  { rewrite <-(PGROUNDUP_aligned MAXVA) by done. apply PGROUNDUP_mono; lia. }
  assert (PGROUNDUP newsz + (PGROUNDUP oldsz - PGROUNDUP newsz) / PGSIZE * PGSIZE = PGROUNDUP oldsz ∧
    PGROUNDUP newsz / PGSIZE + (PGROUNDUP oldsz - PGROUNDUP newsz) / PGSIZE = PGROUNDUP oldsz / PGSIZE ∧
    0 ≤ (PGROUNDUP oldsz - PGROUNDUP newsz) / PGSIZE < 2 ^ 31) as (Hc1 & Hc2 & Hc3).
  { unfold MAXVA, PGSIZE in *. set (x := PGROUNDUP newsz) in *. set (y := PGROUNDUP oldsz) in *. clearbody x y.
    clear -Hn2 Ho2 Hl Homax Hn1 Hn. Z.to_euclidean_division_equations. lia. }
  rewrite int32_id by lia. set (c := (PGROUNDUP oldsz - PGROUNDUP newsz) / PGSIZE) in *.
  destruct (uvmunmap_spec w F T (PGROUNDUP newsz) c) as (w' & F' & T' & E & Hinv' & Hown' & Hac & _ & _ & HL);
    [done|done|lia|done|lia|lia|rewrite Hc2; exact HP|].
  rewrite Hc2 in Hac, HL. rewrite (bind_eq _ _ _ _ _ E). by exists w', F', T'.
Qed.

(** ** Growing *)

Lemma uvmalloc_loop_S fuel pt oldsz a newsz xperm :
  uvmalloc_loop (A := A) (S fuel) pt oldsz a newsz xperm =
    (if a <? newsz then
       mem ← kalloc_page;
       if mem =? 0 then uvmdealloc pt a oldsz;; mret 0
       else
         clear_page mem;;
         r ← mappages pt a PGSIZE mem (Z.lor (Z.lor PTE_R PTE_U) xperm);
         if r =? 0 then uvmalloc_loop fuel pt oldsz (u64 (a + PGSIZE)) newsz xperm
         else kfree_page mem;; uvmdealloc pt a oldsz;; mret 0
     else mret newsz).
Proof. reflexivity. Qed.

(** [n] maps a page of zeros that was free before. *)
Definition zero_page F w' T' (perm n : Z) : Prop :=
  ∃ p, L T' !! n = Some (leaf_pte p perm) ∧ p ∈ F ∧ words w' !! p = Some (replicate 512 0).

(** Memory has run out: what was mapped from [lo] on is taken back. *)
Definition alloc_failed w F T w' F' T' (lo a r : Z) : Prop :=
  r = 0 ∧ accounts (λ n, lo / PGSIZE ≤ n < a / PGSIZE) w F T w' F' T' ∧
  ∀ n, L T' !! n = if decide (lo / PGSIZE ≤ n < a / PGSIZE) then None else L T !! n.
Definition alloc_done w F T w' F' T' (a newsz perm r : Z) (c : nat) : Prop :=
  r = newsz ∧ accounts (λ _, False) w F T w' F' T' ∧
  (∀ n, a / PGSIZE ≤ n < a / PGSIZE + Z.of_nat c → zero_page F w' T' perm n) ∧
  ∀ n, ¬ (a / PGSIZE ≤ n < a / PGSIZE + Z.of_nat c) → L T' !! n = L T !! n.

Lemma alloc_back w F T w1 F1 T1 lo a :
  accounts (λ _, False) w F T w1 F1 T1 → L T1 = L T → vm_inv w1 F1 T1 → owns F1 T1 P →
  0 ≤ lo ≤ a → lo mod PGSIZE = 0 → a mod PGSIZE = 0 → a ≤ MAXVA →
  (∀ n, lo / PGSIZE ≤ n < a / PGSIZE → P n) →
  ∃ w' F' T', (uvmdealloc (root T) a lo;; mret 0) w1 = Some (0, w') ∧ vm_inv w' F' T' ∧ owns F' T' P ∧
    alloc_failed w F T w' F' T' lo a 0.
Proof.
  intros Hac HL1 Hinv1 Hown1 Hlo Hlom Ham Hmax HP. assert (MAXVA < 2 ^ 63) as Hmx by done.
  assert (∀ n, between lo a n ↔ lo / PGSIZE ≤ n < a / PGSIZE) as Hb.
  { intros n. unfold between. by rewrite !PGROUNDUP_aligned by (done || lia). }
  destruct (uvmdealloc_spec w1 F1 T1 a lo) as (w2 & F2 & T2 & E & Hinv2 & Hown2 & Hac2 & HL2);
    [done|done|lia|lia|intros n ?%Hb; by apply HP|].
  rewrite (ac_root _ _ _ _ _ _ _ Hac) in E. rewrite (bind_eq _ _ _ _ _ E).
  exists w2, F2, T2. split_and!; [done|done|done|]. split_and!; [done| |].
  - eapply (accounts_trans _ (between lo a)); [|exact Hac2|].
    + by apply accounts_weaken.
    + intros p (n & e & Hn%Hb & He & ->). right. right. exists n, e. by rewrite <-HL1.
  - intros n. rewrite HL2, HL1. apply decide_ext. apply Hb.
Qed.

(** A page mapped in one turn and the rest in later ones. *)
Lemma alloc_done_cons w F T w1 F1 T1 w' F' T' a newsz perm mem c :
  accounts (λ _, False) w F T w1 F1 T1 → owns F1 T1 P → mem ∈ F → PTE2PA (leaf_pte mem perm) = mem → P (a / PGSIZE) →
  L T1 = <[a / PGSIZE := leaf_pte mem perm]> (L T) → words w1 !! mem = Some (replicate 512 0) →
  vm_inv w1 F1 T1 →
  alloc_done w1 F1 T1 w' F' T' (a + PGSIZE) newsz perm newsz c →
  alloc_done w F T w' F' T' a newsz perm newsz (S c).
Proof.
  intros Hac1 Hown1 HmF Hpa HP HL1 Hz Hinv1 (_ & Hac2 & Hin & Hout). rewrite page_succ in Hin, Hout.
  assert (L T1 !! (a / PGSIZE) = Some (leaf_pte mem perm)) as Hl by (rewrite HL1; apply lookup_insert_eq).
  split_and!; [done| | |].
  - eapply accounts_trans; [done|done|]. by intros p (? & ? & [] & _).
  - intros n Hn. destruct (decide (n = a / PGSIZE)) as [->|Hne].
    + exists mem. rewrite Hout by lia. split_and!; [done|done|]. rewrite (ac_frame _ _ _ _ _ _ _ Hac2); [done| | |].
      * rewrite <-Hpa. by apply (ow_valid _ _ _ Hown1 _ _ HP Hl).
      * intros m. rewrite <-Hpa. by apply (ow_tree _ _ _ Hown1 _ _ m HP Hl).
      * by intros (? & ? & [] & _).
    + destruct (Hin n ltac:(lia)) as (p & Hp & HpF & Hw). exists p. split_and!; [done| |done].
      destruct (ac_sub _ _ _ _ _ _ _ Hac1 p (or_introl HpF)) as [?|[[m Hm]|(? & ? & [] & _)]]; [done|].
      apply (ac_addr _ _ _ _ _ _ _ Hac1) in Hm. by apply (vm_inv_disjoint _ _ _ Hinv1) in Hm.
  - intros n Hn. rewrite Hout by lia. rewrite HL1. apply lookup_insert_ne. lia.
Qed.

Lemma uvmalloc_loop_spec c fuel w F T lo a newsz xperm :
  vm_inv w F T → owns F T P → 0 ≤ lo ≤ a → lo mod PGSIZE = 0 → a mod PGSIZE = 0 → 0 ≤ xperm < 1024 →
  newsz ≤ a + Z.of_nat c * PGSIZE < newsz + PGSIZE → a + Z.of_nat c * PGSIZE ≤ MAXVA → (c < fuel)%nat →
  (∀ n, lo / PGSIZE ≤ n < a / PGSIZE + Z.of_nat c → P n) →
  (∀ n, a / PGSIZE ≤ n < a / PGSIZE + Z.of_nat c → L T !! n = None) →
  ∃ r w' F' T', uvmalloc_loop fuel (root T) lo a newsz xperm w = Some (r, w') ∧ vm_inv w' F' T' ∧ owns F' T' P ∧
    (alloc_done w F T w' F' T' a newsz (Z.lor (Z.lor PTE_R PTE_U) xperm) r c ∨ alloc_failed w F T w' F' T' lo a r).
Proof.
  revert fuel w F T a. induction c as [|c IH];
    intros fuel w F T a Hinv Hown Hlo Hlom Ham Hx Hnew Hmax Hfuel HP Hnone;
    (destruct fuel as [|fuel]; [lia|]); rewrite uvmalloc_loop_S.
  { rewrite (proj2 (Z.ltb_ge _ _)) by (unfold PGSIZE in *; lia). exists newsz, w, F, T. split_and!; [done|done|done|left].
    split_and!; [done|apply accounts_refl|lia|done]. }
  rewrite (proj2 (Z.ltb_lt _ _)) by (unfold PGSIZE in *; lia).
  assert (lo / PGSIZE ≤ a / PGSIZE) as Hla by (apply Z.div_le_mono; [done|lia]).
  set (perm := Z.lor (Z.lor PTE_R PTE_U) xperm). assert (0 ≤ perm < 1024) as Hperm by by apply lor_flags.
  assert (∀ n, lo / PGSIZE ≤ n < a / PGSIZE → P n) as HPa by (intros n ?; apply HP; lia).
  destruct (user_page w F T a perm (replicate 512 0)) as [[-> E]|(mem & w1 & r & w2 & HmF & Hm0 & E & E2 & Hres)];
    [done|done|apply HP; lia|lia|done|unfold PGSIZE in *; lia|apply Hnone; lia|done| |].
  - rewrite (bind_eq _ _ _ _ _ E). change (0 =? 0) with true.
    destruct (alloc_back w ∅ T w ∅ T lo a) as (w' & F' & T' & Ed & ? & ? & ?);
      [apply accounts_refl|done|done|done|lia|done|done|unfold PGSIZE in *; lia|done|].
    exists 0, w', F', T'. by split_and!; [| | |right].
  - rewrite (bind_eq _ _ _ _ _ E), (proj2 (Z.eqb_neq _ _) Hm0). unfold clear_page. rewrite <-bind_assoc.
    rewrite (bind_eq _ _ _ _ _ E2).
    destruct Hres as [(-> & Hz & F1 & T1 & Hinv1 & Hown1 & Hac1 & HL1)|(-> & w3 & F1 & T1 & E3 & Hinv1 & Hown1 & Hac1 & HL1)].
    2:{ change (-1 =? 0) with false. cbn iota. rewrite (bind_eq _ _ _ _ _ E3).
        destruct (alloc_back w F T w3 F1 T1 lo a) as (w' & F' & T' & Ed & ? & ? & ?);
          [done|done|done|done|lia|done|done|unfold PGSIZE in *; lia|done|].
        exists 0, w', F', T'. by split_and!; [| | |right]. }
    change (0 =? 0) with true. rewrite u64_id by (unfold MAXVA, PGSIZE in *; lia).
    destruct (IH fuel w2 F1 T1 (a + PGSIZE)) as (r & w' & F' & T' & Er & Hinv' & Hown' & Hres');
      [done|done|unfold PGSIZE; lia|done|by apply page_succ_mod|done|unfold PGSIZE in *; lia|unfold PGSIZE in *; lia|lia| | |].
    { rewrite page_succ. intros n ?. apply HP. lia. }
    { rewrite page_succ. intros n ?. rewrite HL1, lookup_insert_ne by lia. apply Hnone. lia. }
    rewrite (ac_root _ _ _ _ _ _ _ Hac1) in Er. exists r, w', F', T'. split_and!; [done|done|done|].
    pose proof (pa_ok_valid _ _ _ (vi_alloc _ _ _ Hinv) HmF) as Hv. destruct (pa_valid_range mem Hv) as [Hr Hma].
    destruct (leaf_pte_parts mem perm Hma ltac:(lia) Hperm) as (_ & Hpa & _).
    destruct Hres' as [Hdone|(-> & Hac2 & HL2)]; [left|right].
    + pose proof Hdone as (-> & _). eapply alloc_done_cons; try done. apply HP. lia.
    + rewrite page_succ in Hac2, HL2. split_and!; [done| |].
      * eapply (accounts_trans _ (λ n, lo / PGSIZE ≤ n < a / PGSIZE + 1)); [|exact Hac2|].
        -- by apply accounts_weaken.
        -- intros p (n & e & Hn & He & ->). rewrite HL1 in He.
           apply lookup_insert_Some in He as [[<- <-]|[Hne He]]; [left; by rewrite Hpa|].
           right. right. exists n, e. split_and!; [lia|lia|done|done].
      * intros n. rewrite HL2, HL1. destruct (decide (n = a / PGSIZE)) as [->|Hne].
        -- rewrite decide_True, decide_False by lia. symmetry. apply Hnone. lia.
        -- rewrite lookup_insert_ne by done. apply decide_ext. lia.
Qed.
End alloc.
