(* ===== verification/VmKmem.v ===== *)
(** The allocator of [Kalloc] as the allocator of [Vm], and a small address
    space to run the definitions on. *)
From S2P Require Import Prelude Kalloc Proc Vm VmSpec VmUser VmAlloc.

(** The free pages are the ones on the free list. *)
Definition free_set (kernel_end : Z) (s : kmem) (F : gset Z) : Prop :=
  ∃ l, kmem_ok kernel_end s l ∧ list_to_set l = F.

Section instance.
Context (kernel_end : Z) (Hend : 0 < kernel_end < PHYSTOP).

Lemma valid_range p : valid kernel_end p → 0 < p < 2 ^ 56 ∧ p mod PGSIZE = 0.
Proof. intros [Hm Hr]. unfold PHYSTOP, KERNBASE in *. split; [lia|done]. Qed.

Lemma free_set_valid s F p : free_set kernel_end s F → p ∈ F → valid kernel_end p.
Proof.
  intros (l & Hok & <-) Hp%elem_of_list_to_set. pose proof (ok_valid _ _ _ Hok) as Hv.
  by eapply Forall_forall in Hp; [|exact Hv].
Qed.

Lemma free_set_kalloc s F :
  free_set kernel_end s F →
  (F = ∅ ∧ kalloc s = Some (0, s)) ∨
  (∃ p s', p ∈ F ∧ kalloc s = Some (p, s') ∧ free_set kernel_end s' (F ∖ {[p]})).
Proof.
  intros ([|p l] & Hok & <-); [left; split; [done|by eapply kalloc_empty]|right].
  destruct (kalloc_spec kernel_end p l s Hok) as (s' & E & Hok' & _).
  exists p, s'. split_and!; [set_solver|done|]. exists l. split; [done|].
  pose proof (ok_nodup _ _ _ Hok) as [Hpl _]%NoDup_cons. set_solver.
Qed.

Lemma free_set_kfree s F p :
  free_set kernel_end s F → valid kernel_end p → p ∉ F →
  ∃ s', kfree kernel_end p s = Some ((), s') ∧ free_set kernel_end s' (F ∪ {[p]}).
Proof.
  intros (l & Hok & <-) Hv Hp. destruct (kfree_spec kernel_end Hend p l s Hok Hv) as (s' & E & Hok' & _); [set_solver|].
  exists s'. split; [done|]. exists (p :: l). split; [done|set_solver].
Qed.

(** [kalloc.c] keeps the promises of [PageAlloc]. *)
Definition kmem_alloc : PageAlloc kmem := {|
  pa_kalloc := kalloc;
  pa_kfree := kfree kernel_end;
  pa_ok := free_set kernel_end;
  pa_valid := valid kernel_end;
  pa_valid_range := valid_range;
  pa_ok_valid := free_set_valid;
  pa_kalloc_spec := free_set_kalloc;
  pa_kfree_spec := free_set_kfree;
|}.
End instance.

(** ** A small address space *)

Definition demo_end : Z := 0x80022000.
Lemma demo_end_ok : 0 < demo_end < PHYSTOP.
Proof. by vm_compute. Qed.
Definition demo_alloc : PageAlloc kmem := kmem_alloc demo_end demo_end_ok.
#[export] Existing Instance demo_alloc.

Definition pg (k : Z) : Z := 0x80030000 + k * PGSIZE.
Definition demo_free : list Z := [pg 10; pg 11; pg 12; pg 13].
Definition demo_kmem : kmem :=
  mkKmem (pg 10) {[ pg 10 := mkPage (pg 11) 1; pg 11 := mkPage (pg 12) 1;
                    pg 12 := mkPage (pg 13) 1; pg 13 := mkPage 0 1 ]}.

(** A process with one page of memory, and an empty page table for its child. *)
Definition demo_perm : Z := Z.lor (Z.lor PTE_R PTE_U) PTE_W.
Definition first_entry (v : Z) : list Z := <[0%nat := v]> (replicate 512 0).
Definition demo_world : vworld kmem := mkVworld demo_kmem
  {[ pg 0 := first_entry (dir (Some (pg 1))); pg 1 := first_entry (dir (Some (pg 2)));
     pg 2 := first_entry (leaf_pte (pg 3) demo_perm); pg 3 := replicate 512 7; pg 4 := replicate 512 0 ]}.
Definition demo_tree : tree := mkTree (pg 0) {[0 := pg 1]} {[(0, 0) := pg 2]} {[0 := leaf_pte (pg 3) demo_perm]}.
Definition demo_child : tree := mkTree (pg 4) ∅ ∅ ∅.
Definition demo_F : gset Z := list_to_set demo_free.
Definition demo_user (n : Z) : Prop := 0 ≤ n < 1000.

Lemma page_is_first m p v :
  m !! p = Some (first_entry v) → page_is m p (λ k, if decide (k = 0) then v else 0).
Proof.
  intros E. exists (first_entry v). split_and!; [done|unfold first_entry; by rewrite length_insert, length_replicate|].
  intros k Hk. unfold first_entry. case_decide as Hz.
  - subst. apply list_lookup_insert_eq. rewrite length_replicate. lia.
  - rewrite list_lookup_insert_ne by lia. apply lookup_replicate_2. lia.
Qed.

Lemma demo_free_ok : free_set demo_end demo_kmem demo_F.
Proof.
  exists demo_free. split; [|done]. split.
  - cbn [chain demo_free]. split_and!; [done|done|]. eexists. split; [reflexivity|].
    split_and!; [done|done|]. eexists. split; [reflexivity|].
    split_and!; [done|done|]. eexists. split; [reflexivity|].
    split_and!; [done|done|]. eexists. split; [reflexivity|]. done.
  - by apply (bool_decide_unpack _).
  - repeat constructor; by vm_compute.
Qed.

Lemma demo_addr n p :
  addr demo_tree n = Some p → (n = NRoot ∧ p = pg 0) ∨ (n = NMid 0 ∧ p = pg 1) ∨ (n = NLeaf 0 0 ∧ p = pg 2).
Proof.
  destruct n as [|i|i j]; cbn [addr demo_tree root mids leaves].
  - intros [= <-]. by left.
  - intros [<- <-]%lookup_singleton_Some. by right; left.
  - intros [[= <- <-] <-]%lookup_singleton_Some. by right; right.
Qed.

Lemma demo_inv : vm_inv demo_world demo_F demo_tree.
Proof.
  split; [exact demo_free_ok|]. split.
  - intros n p [[-> ->]|[[-> ->]|[-> ->]]]%demo_addr;
      (eapply page_is_ext; [|apply page_is_first; reflexivity]); intros k Hk; cbn [entry demo_tree mids leaves L].
    + destruct (decide (k = 0)) as [->|Hne]; [done|]. by rewrite lookup_singleton_ne.
    + destruct (decide (k = 0)) as [->|Hne]; [done|]. rewrite lookup_singleton_ne; [done|congruence].
    + destruct (decide (k = 0)) as [->|Hne]; [done|]. rewrite lookup_singleton_ne; [done|]. unfold vpn_of. lia.
  - intros n p [[-> ->]|[[-> ->]|[-> ->]]]%demo_addr; (split; [by vm_compute|]); by apply (bool_decide_unpack _).
  - intros n n' p [[-> ->]|[[-> ->]|[-> ->]]]%demo_addr [[-> Hp]|[[-> Hp]|[-> Hp]]]%demo_addr; try done.
  - intros i p; cbn [demo_tree mids]; intros [<- <-]%lookup_singleton_Some. lia.
  - intros i j p; cbn [demo_tree leaves]; intros [[= <- <-] <-]%lookup_singleton_Some. split_and!; try lia. by eexists.
  - intros i j k e Hk Hj; cbn [demo_tree L]; intros [E <-]%lookup_singleton_Some. unfold vpn_of in E.
    assert (i = 0 ∧ j = 0) as [-> ->] by lia. by eexists.
Qed.

Lemma demo_owns : owns demo_F demo_tree demo_user.
Proof.
  split; cbn [demo_tree L].
  - intros n e _ [<- <-]%lookup_singleton_Some. done.
  - intros n e _ [<- <-]%lookup_singleton_Some. split; [by vm_compute|by apply (bool_decide_unpack _)].
  - intros n e m _ [<- <-]%lookup_singleton_Some [[_ E]|[[_ E]|[_ E]]]%demo_addr; by vm_compute in E.
  - by intros n e n' e' _ _ [<- <-]%lookup_singleton_Some [<- <-]%lookup_singleton_Some.
Qed.

Lemma demo_child_inv : vm_inv demo_world demo_F demo_child.
Proof.
  assert (∀ n p, addr demo_child n = Some p → n = NRoot ∧ p = pg 4) as Honly.
  { intros [|i|i j] p; simpl; [intros [= <-]; done|by rewrite lookup_empty..]. }
  split; [exact demo_free_ok|]. split; try done.
  - intros n p [-> ->]%Honly. exists (replicate 512 0). split_and!; [done|done|].
    intros k Hk. cbn [entry demo_child mids]. rewrite lookup_empty. apply lookup_replicate_2. lia.
  - intros n p [-> ->]%Honly. split; [by vm_compute|by apply (bool_decide_unpack _)].
  - by intros n n' p [-> ->]%Honly [-> _]%Honly.
Qed.

Lemma demo_child_owns : owns demo_F demo_child demo_user.
Proof. split; intros *; cbn [demo_child L]; rewrite lookup_empty; done. Qed.
