(* ===== verification/VmLife.v ===== *)
(** The life of an address space: the theorems about [uvmcreate], [mappages],
    [uvmalloc] and [uvmfree]. *)
From S2P Require Import Prelude Kalloc Proc Vm VmSpec VmUser VmAlloc VmKmem.

Section life.
Context {A : Type} `{PageAlloc A}.
Implicit Types (w : vworld A) (T : tree) (F : gset Z).

(** [mappages] on page numbers that are not mapped maps all of them to
    consecutive physical pages and returns 0; or memory runs out, it returns -1
    and a prefix is mapped. It never panics; page-table pages come from the
    free pages only, and no page outside of the tables changes. *)
Theorem mappages_maps w F T va n pa perm :
  vm_inv w F T → 0 ≤ va → va mod PGSIZE = 0 → 0 < n → va + n * PGSIZE ≤ MAXVA →
  0 ≤ pa → pa + n * PGSIZE < 2 ^ 64 →
  (∀ k, 0 ≤ k < n → L T !! (va / PGSIZE + k) = None) →
  ∃ r m w' F' T', mappages (root T) va (n * PGSIZE) pa perm w = Some (r, w') ∧
    vm_inv w' F' T' ∧ evolves w F T w' F' T' ∧ L T' = map_entries m (va / PGSIZE) pa perm (L T) ∧
    ((r = 0 ∧ Z.of_nat m = n) ∨ (r = -1 ∧ Z.of_nat m < n ∧ F' = ∅)).
Proof.
  intros Hinv Hva Hal Hn Hmax Hpa Hpm Hnone. unfold mappages. rewrite Hal, Z.mod_mul by done.
  rewrite (proj2 (Z.eqb_neq (n * PGSIZE) 0)) by (unfold PGSIZE; lia). cbn [Z.eqb negb orb].
  rewrite Z.div_mul by done. rewrite u64_id by (unfold MAXVA, PGSIZE in *; lia).
  destruct (Z.to_nat n) as [|n'] eqn:En; [lia|].
  replace (va + n * PGSIZE - PGSIZE) with (va + Z.of_nat n' * PGSIZE) by lia.
  destruct (mappages_loop_spec n' w F T va pa perm) as (r & m & w' & F' & T' & E & Hinv' & Hev & HL & Hr);
    [done|done|done|lia|done|lia|intros k Hk; apply Hnone; lia|].
  exists r, m, w', F', T'. split_and!; try done.
  destruct Hr as [[-> ->]|(-> & ? & ->)]; [left; split; [done|lia]|right; split_and!; [done|lia|done]].
Qed.

(** A new address space: the root table is empty. *)
Lemma uvmcreate_spec w F :
  pa_ok (alloc w) F →
  (F = ∅ ∧ uvmcreate w = Some (0, w)) ∨
  ∃ p w', p ∈ F ∧ p ≠ 0 ∧ uvmcreate w = Some (p, w') ∧ vm_inv w' (F ∖ {[p]}) (mkTree p ∅ ∅ ∅) ∧
    ∀ q, q ≠ p → words w' !! q = words w !! q.
Proof.
  intros Hok. unfold uvmcreate.
  destruct (pa_kalloc_spec _ _ Hok) as [[-> E]|(p & a' & HpF & E & Hok')].
  { left. split; [done|]. rewrite (bind_eq _ _ _ 0 w); [done|]. unfold kalloc_page. rewrite E. by destruct w. }
  right. pose proof (pa_ok_valid _ _ _ Hok HpF) as Hv. pose proof (pa_valid_range p Hv) as [Hr Hm].
  exists p. eexists. split_and!; [done|lia| | |].
  - rewrite (bind_eq _ _ _ p (mkVworld a' (words w))) by (unfold kalloc_page; by rewrite E).
    rewrite (proj2 (Z.eqb_neq _ _)) by lia. reflexivity.
  - split; [exact Hok'|]. cbn [words].
    assert (∀ n q, addr (mkTree p ∅ ∅ ∅) n = Some q → n = NRoot ∧ q = p) as Honly.
    { intros [|i|i j] q; simpl; [intros [= ->]; done|by rewrite lookup_empty..]. }
    split.
    + intros n q [-> ->]%Honly. eapply page_is_ext; [|apply page_is_zero]. intros k Hk. simpl. by rewrite lookup_empty.
    + intros n q [-> ->]%Honly. split; [done|set_solver].
    + intros n n' q [-> ->]%Honly [-> _]%Honly. done.
    + done.
    + done.
    + done.
  - intros q Hq. cbn [words]. by apply lookup_insert_ne.
Qed.

Section user.
Variable P : Z → Prop.

(** [uvmalloc] from [oldsz] to [newsz], when the pages between are not
    mapped: it returns [newsz] and each page between them maps a page of zeros
    of its own that was free, readable, for the user and with the permissions
    asked for; or memory runs out, it returns 0 and the mappings are what they
    were. In both cases every page is still accounted for, and no page changes
    that was not free and is not a table of this address space. *)
Theorem uvmalloc_grows w F T oldsz newsz xperm :
  vm_inv w F T → owns F T P → 0 ≤ oldsz ≤ newsz → newsz ≤ MAXVA → 0 ≤ xperm < 1024 →
  (∀ n, between oldsz newsz n → P n) → (∀ n, between oldsz newsz n → L T !! n = None) →
  ∃ r w' F' T', uvmalloc (root T) oldsz newsz xperm w = Some (r, w') ∧
    vm_inv w' F' T' ∧ owns F' T' P ∧ accounts P (λ _, False) w F T w' F' T' ∧
    ((r = newsz ∧ (∀ n, ¬ between oldsz newsz n → L T' !! n = L T !! n) ∧
      ∀ n, between oldsz newsz n → zero_page F w' T' (Z.lor (Z.lor PTE_R PTE_U) xperm) n) ∨
     (r = 0 ∧ ∀ n, L T' !! n = L T !! n)).
Proof.
  intros Hinv Hown Ho Hmax Hx HP Hnone. unfold uvmalloc. rewrite (proj2 (Z.ltb_ge _ _)) by lia.
  assert (MAXVA < 2 ^ 63) as Hmx by done.
  pose proof (PGROUNDUP_mono oldsz newsz ltac:(lia) ltac:(lia)) as Hmono.
  destruct (PGROUNDUP_spec oldsz ltac:(lia)) as [Ho1 Ho2]. destruct (PGROUNDUP_spec newsz ltac:(lia)) as [Hn1 Hn2].
  assert (PGROUNDUP newsz ≤ MAXVA) as Hnmax.
  { rewrite <-(PGROUNDUP_aligned MAXVA) by done. apply PGROUNDUP_mono; lia. }
  set (lo := PGROUNDUP oldsz) in *. set (hi := PGROUNDUP newsz) in *.
  set (c := Z.to_nat ((hi - lo) / PGSIZE)).
  assert (lo + Z.of_nat c * PGSIZE = hi ∧ lo / PGSIZE + Z.of_nat c = hi / PGSIZE ∧
    Z.of_nat c ≤ (newsz - oldsz) / PGSIZE + 1) as (Hc1 & Hc2 & Hc3).
  { unfold c. rewrite Z2Nat.id by (apply Z.div_pos; [lia|done]). clear -Ho1 Ho2 Hn1 Hn2 Hmono Ho. clearbody lo hi.
    unfold PGSIZE in *. Z.to_euclidean_division_equations. lia. }
  assert (0 ≤ (newsz - oldsz) / PGSIZE) by (apply Z.div_pos; [lia|done]).
  destruct (uvmalloc_loop_spec P c (S (Z.to_nat ((newsz - oldsz) / PGSIZE + 1))) w F T lo lo newsz xperm)
    as (r & w' & F' & T' & E & Hinv' & Hown' & Hres); [done|done|lia|done|done|done|lia|lia|lia| | |].
  { intros n ?. apply HP. unfold between. fold lo hi. lia. }
  { intros n ?. apply Hnone. unfold between. fold lo hi. lia. }
  exists r, w', F', T'. split_and!; [done|done|done| |].
  - destruct Hres as [(_ & Hac & _)|(_ & [H1 H2 H3 H4 H5] & _)]; [done|]. split; [done|done|done| |].
    + intros p Hp. destruct (H4 p Hp) as [?|[?|(n & e & ? & _)]]; [by left|by right; left|lia].
    + intros p HF Hn _. apply H5; [done|done|]. intros (n & e & ? & _). lia.
  - destruct Hres as [(-> & _ & Hin & Hout)|(-> & _ & HL)]; [left|right]; (split; [done|]).
    + split; intros n Hn; [apply Hout|apply Hin]; unfold between in Hn; fold lo hi in Hn; lia.
    + intros n. rewrite HL. by rewrite decide_False by lia.
Qed.

(** The first step of [uvmfree]: nothing is mapped any more. *)
Lemma unmap_all w F T sz :
  vm_inv w F T → owns F T P → 0 ≤ sz ≤ MAXVA → (∀ n, 0 ≤ n < PGROUNDUP sz / PGSIZE → P n) →
  (∀ n e, L T !! n = Some e → 0 ≤ n < PGROUNDUP sz / PGSIZE) →
  ∃ w1 F1 T1, when (0 <? sz) (uvmunmap (root T) 0 (PGROUNDUP sz / PGSIZE) true) w = Some ((), w1) ∧
    vm_inv w1 F1 T1 ∧ L T1 = ∅ ∧ root T1 = root T ∧ (∀ n, addr T1 n = addr T n) ∧
    (∀ p, p ∈ F1 ↔ p ∈ F ∨ mapped_by T P p) ∧ ∀ p, ¬ pages_of P F T p → words w1 !! p = words w !! p.
Proof.
  intros Hinv Hown Hsz HP HL. assert (MAXVA < 2 ^ 63) as Hmx by done.
  destruct (decide (0 < sz)) as [Hpos|Hz].
  2:{ assert (sz = 0) as -> by lia. exists w, F, T. assert (L T = ∅) as HL0.
      { apply map_empty. intros n. destruct (L T !! n) eqn:En; [|done]. apply HL in En.
        change (PGROUNDUP 0 / PGSIZE) with 0 in En. lia. }
      split_and!; try done. intros p. split; [by left|].
      intros [?|(n & e & _ & He & _)]; [done|]. by rewrite HL0, lookup_empty in He. }
  rewrite (proj2 (Z.ltb_lt _ _) Hpos). destruct (PGROUNDUP_spec sz ltac:(lia)) as [Hs1 Hs2].
  assert (PGROUNDUP sz ≤ MAXVA) as Hmax.
  { rewrite <-(PGROUNDUP_aligned MAXVA) by done. apply PGROUNDUP_mono; lia. }
  set (c := PGROUNDUP sz / PGSIZE) in *.
  assert (c * PGSIZE = PGROUNDUP sz) as Hc by (unfold c; pose proof (Z.div_mod (PGROUNDUP sz) PGSIZE ltac:(done)); lia).
  destruct (uvmunmap_spec P w F T 0 c) as (w1 & F1 & T1 & E1 & Hinv1 & _ & Hac1 & HF1 & Ha1 & HL1);
    [done|done|lia|done|apply Z.div_pos; [lia|done]|lia|exact HP|].
  change (0 / PGSIZE) with 0 in *. exists w1, F1, T1.
  split_and!; [done|done| |by apply (ac_root _ _ _ _ _ _ _ _ Hac1)|done| |].
  - apply map_empty. intros n. rewrite HL1. case_decide; [done|].
    destruct (L T !! n) eqn:En; [|done]. by apply HL in En.
  - intros p. rewrite HF1. split; (intros [?|(n & e & Hn & He & ->)]; [by left|right; exists n, e; split_and!; try done]).
    + by apply HP.
    + by eapply HL.
    + by eapply HL.
  - intros p Hp. apply (ac_frame _ _ _ _ _ _ _ _ Hac1).
    + intros ?. apply Hp. by left.
    + intros n ?. apply Hp. right. left. by exists n.
    + intros (n & e & Hn & He & ->). apply Hp. right. right. exists n, e. split_and!; [by apply HP|done|done].
Qed.

Lemma uvmfree_pages w F T sz :
  vm_inv w F T → owns F T P → 0 ≤ sz ≤ MAXVA → (∀ n, 0 ≤ n < PGROUNDUP sz / PGSIZE → P n) →
  (∀ n e, L T !! n = Some e → 0 ≤ n < PGROUNDUP sz / PGSIZE) →
  ∃ w' F', uvmfree (root T) sz w = Some ((), w') ∧ pa_ok (alloc w') F' ∧
    (∀ p, p ∈ F' ↔ pages_of P F T p) ∧ ∀ p, ¬ pages_of P F T p → words w' !! p = words w !! p.
Proof.
  intros Hinv Hown Hsz HP HL. unfold uvmfree.
  destruct (unmap_all w F T sz Hinv Hown Hsz HP HL) as (w1 & F1 & T1 & E1 & Hinv1 & HL1 & Hr1 & Ha1 & HF1 & Hfr1).
  rewrite (bind_eq _ _ _ _ _ E1), <-Hr1.
  destruct (freewalk_spec w1 F1 T1 Hinv1 HL1) as (w2 & F2 & E2 & Hok2 & HF2 & Hfr2).
  exists w2, F2. split_and!; [done|done| |].
  - intros p. rewrite HF2, HF1. unfold pages_of. setoid_rewrite Ha1. tauto.
  - intros p Hp. rewrite Hfr2; [by apply Hfr1| |].
    + rewrite HF1. unfold pages_of in Hp. tauto.
    + intros n. rewrite Ha1. intros ?. apply Hp. right. left. by exists n.
Qed.
(** C26: [uvmfree] gives back every page of an address space that maps nothing
    at or above [PGROUNDUP(sz)], so once trampoline and trapframe are unmapped:
    it does not panic, however the mappings below are spread over the tables;
    afterwards the free pages are the
    ones that were free, the tables of the address space and the pages it
    mapped, and no other page has changed. *)
Theorem uvmfree_returns_all_pages w F T sz :
  vm_inv w F T → owns F T P → 0 ≤ sz ≤ MAXVA → (∀ n, 0 ≤ n < PGROUNDUP sz / PGSIZE → P n) →
  (∀ n e, L T !! n = Some e → 0 ≤ n < PGROUNDUP sz / PGSIZE) →
  ∃ w' F', uvmfree (root T) sz w = Some ((), w') ∧ pa_ok (alloc w') F' ∧
    (∀ p, p ∈ F' ↔ pages_of P F T p) ∧ ∀ p, ¬ pages_of P F T p → words w' !! p = words w !! p.
Proof.
  intros Hinv Hown Hsz HP HL. destruct (uvmfree_pages w F T sz Hinv Hown Hsz HP HL) as (w' & F' & E & Hok & HF & Hw). by exists w', F'.
Qed.
End user.
End life.

(** ** Witnesses *)

Lemma demo_unmapped n : 0 < n → L demo_tree !! n = None.
Proof. intros Hn. cbn [demo_tree L]. apply lookup_singleton_ne. lia. Qed.

Lemma mappages_maps_witness :
  ∃ r m w' F' T', mappages (root demo_tree) PGSIZE (2 * PGSIZE) (pg 20) PTE_R demo_world = Some (r, w') ∧
    vm_inv w' F' T' ∧ evolves demo_world demo_F demo_tree w' F' T' ∧
    L T' = map_entries m (PGSIZE / PGSIZE) (pg 20) PTE_R (L demo_tree) ∧
    ((r = 0 ∧ Z.of_nat m = 2) ∨ (r = -1 ∧ Z.of_nat m < 2 ∧ F' = ∅)).
Proof.
  apply (mappages_maps demo_world demo_F demo_tree PGSIZE 2 (pg 20) PTE_R);
    [exact demo_inv|by vm_compute..|].
  intros k Hk. change (PGSIZE / PGSIZE) with 1. apply demo_unmapped. lia.
Defined.

Lemma uvmalloc_grows_witness :
  ∃ r w' F' T', uvmalloc (root demo_tree) 100 5000 PTE_W demo_world = Some (r, w') ∧
    vm_inv w' F' T' ∧ owns F' T' demo_user ∧
    accounts demo_user (λ _, False) demo_world demo_F demo_tree w' F' T' ∧
    ((r = 5000 ∧ (∀ n, ¬ between 100 5000 n → L T' !! n = L demo_tree !! n) ∧
      ∀ n, between 100 5000 n → zero_page demo_F w' T' (Z.lor (Z.lor PTE_R PTE_U) PTE_W) n) ∨
     (r = 0 ∧ ∀ n, L T' !! n = L demo_tree !! n)).
Proof.
  assert (∀ n, between 100 5000 n → n = 1) as Hb.
  { unfold between. change (PGROUNDUP 100 / PGSIZE) with 1. change (PGROUNDUP 5000 / PGSIZE) with 2. lia. }
  apply (uvmalloc_grows demo_user demo_world demo_F demo_tree 100 5000 PTE_W);
    [exact demo_inv|exact demo_owns|by vm_compute..| |].
  - intros n ->%Hb. by vm_compute.
  - intros n ->%Hb. by apply demo_unmapped.
Defined.

Lemma uvmfree_returns_all_pages_witness :
  ∃ w' F', uvmfree (root demo_tree) 100 demo_world = Some ((), w') ∧ pa_ok (alloc w') F' ∧
    (∀ p, p ∈ F' ↔ pages_of demo_user demo_F demo_tree p) ∧
    ∀ p, ¬ pages_of demo_user demo_F demo_tree p → words w' !! p = words demo_world !! p.
Proof.
  apply (uvmfree_returns_all_pages demo_user demo_world demo_F demo_tree 100);
    [exact demo_inv|exact demo_owns|by vm_compute| |].
  - change (PGROUNDUP 100 / PGSIZE) with 1. unfold demo_user. lia.
  - change (PGROUNDUP 100 / PGSIZE) with 1. intros n e. cbn [demo_tree L]. intros [<- _]%lookup_singleton_Some. lia.
Defined.

(** The definitions run: the second page is allocated, and then everything is
    given back, eight pages in all. *)
Definition demo_run : M (vworld kmem) Z :=
  r ← uvmalloc (root demo_tree) 100 5000 PTE_W; uvmfree (root demo_tree) r;; mret r.
Fixpoint chain_length (fuel : nat) (m : gmap Z page) (r : Z) : nat :=
  match fuel with
  | O => 0
  | S fuel => if r =? 0 then 0 else S (chain_length fuel m (default 0 (word0 <$> m !! r)))
  end.
Example demo_run_ok :
  (λ x, (x.1, chain_length 100 (pages (alloc x.2)) (freelist (alloc x.2)))) <$> demo_run demo_world = Some (5000, 8%nat).
Proof. by vm_compute. Qed.
