(* ===== verification/Kvm.v ===== *)
(** The page table of the kernel: [kvmmake] and [kvmmap] of [xv6/kernel/vm.c],
    and [proc_mapstacks] of [proc.c].

    The end of the kernel's code and the address of the trampoline are set by
    the linker. A panic is the result [false] or [None]; that the first page
    cannot be allocated is not checked by the code, and is [None] of the monad. *)
From S2P Require Import Prelude Kalloc Proc Vm VmSpec VmUser VmAlloc VmKmem VmLife.

Definition UART0 : Z := 0x10000000.
Definition VIRTIO0 : Z := 0x10001000.
Definition PLIC : Z := 0x0c000000.

Section code.
Context {A : Type} `{PageAlloc A} (etext trampoline : Z).
Abbreviation vm := (M (vworld A)).

Definition kvmmap (kpgtbl va pa sz perm : Z) : vm bool :=
  r ← mappages kpgtbl va sz pa perm; mret (r =? 0).

(** The loop over the processes. *)
Fixpoint mapstacks_loop (kpgtbl : Z) (l : list nat) : vm bool :=
  match l with
  | [] => mret true
  | i :: l =>
    pa ← kalloc_page;
    if pa =? 0 then mret false
    else
      r ← kvmmap kpgtbl (KSTACK i) pa PGSIZE (Z.lor PTE_R PTE_W);
      if r : bool then mapstacks_loop kpgtbl l else mret false
  end.
Definition proc_mapstacks (kpgtbl : Z) : vm bool := mapstacks_loop kpgtbl (seq 0 NPROC).

Definition and_then (m k : vm bool) : vm bool := r ← m; if r : bool then k else mret false.
Definition kvmmake : vm (option Z) :=
  kpgtbl ← kalloc_page;
  if kpgtbl =? 0 then stuck
  else
    clear_page kpgtbl;;
    r ← and_then (kvmmap kpgtbl UART0 UART0 PGSIZE (Z.lor PTE_R PTE_W))
       (and_then (kvmmap kpgtbl VIRTIO0 VIRTIO0 PGSIZE (Z.lor PTE_R PTE_W))
       (and_then (kvmmap kpgtbl PLIC PLIC 0x4000000 (Z.lor PTE_R PTE_W))
       (and_then (kvmmap kpgtbl KERNBASE KERNBASE (etext - KERNBASE) (Z.lor PTE_R PTE_X))
       (and_then (kvmmap kpgtbl etext etext (PHYSTOP - etext) (Z.lor PTE_R PTE_W))
       (and_then (kvmmap kpgtbl TRAMPOLINE trampoline PGSIZE (Z.lor PTE_R PTE_X))
       (proc_mapstacks kpgtbl))))));
    mret (if r : bool then Some kpgtbl else None).
End code.

(** ** What is mapped *)

(** The process whose stack has page number [n]. *)
Definition stack_no (n : Z) : option nat :=
  let d := TRAMPOLINE / PGSIZE - n in
  if (0 <? d) && (d mod 2 =? 0) then Some (Z.to_nat (d / 2 - 1)) else None.
Definition stack_entry (stacks : list Z) (n : Z) : option Z :=
  (λ p, leaf_pte p (Z.lor PTE_R PTE_W)) <$> (stack_no n ≫= λ i, stacks !! i).
(** A range of pages that are mapped to themselves. *)
Definition direct (lo hi perm n : Z) (rest : option Z) : option Z :=
  if decide (lo ≤ n * PGSIZE < hi) then Some (leaf_pte (n * PGSIZE) perm) else rest.
(** The entry for page number [n] of the kernel. *)
Definition kernel_entry (etext trampoline : Z) (stacks : list Z) (n : Z) : option Z :=
  direct UART0 (VIRTIO0 + PGSIZE) (Z.lor PTE_R PTE_W) n
    (direct PLIC (PLIC + 0x4000000) (Z.lor PTE_R PTE_W) n
       (direct KERNBASE etext (Z.lor PTE_R PTE_X) n
          (direct etext PHYSTOP (Z.lor PTE_R PTE_W) n
             (if decide (n = TRAMPOLINE / PGSIZE) then Some (leaf_pte trampoline (Z.lor PTE_R PTE_X))
              else stack_entry stacks n)))).

Lemma tramp_page : TRAMPOLINE / PGSIZE = 67108863. Proof. reflexivity. Qed.
Lemma kstack_page i : KSTACK i / PGSIZE = 67108863 - 2 * (Z.of_nat i + 1) ∧ KSTACK i mod PGSIZE = 0.
Proof.
  unfold KSTACK. replace (TRAMPOLINE - (Z.of_nat i + 1) * 2 * PGSIZE) with ((67108863 - 2 * (Z.of_nat i + 1)) * PGSIZE) by (unfold TRAMPOLINE, MAXVA, PGSIZE; lia).
  split; [by apply Z.div_mul|by apply Z.mod_mul].
Qed.
Lemma stack_no_page n i : stack_no n = Some i ↔ n = 67108863 - 2 * (Z.of_nat i + 1).
Proof.
  unfold stack_no. rewrite tramp_page. pose proof (Z.div_mod (67108863 - n) 2 ltac:(lia)) as Hd.
  destruct ((0 <? 67108863 - n) && ((67108863 - n) mod 2 =? 0)) eqn:E.
  - split; [intros [= <-]; lia|intros ->]. f_equal. replace (67108863 - (67108863 - 2 * (Z.of_nat i + 1))) with ((Z.of_nat i + 1) * 2) by lia.
    rewrite Z.div_mul by lia. lia.
  - split; [done|intros ->]. replace (67108863 - (67108863 - 2 * (Z.of_nat i + 1))) with ((Z.of_nat i + 1) * 2) in E by lia.
    rewrite Z.mod_mul in E by lia. lia.
Qed.
Lemma stack_entry_snoc stacks p n :
  stack_entry (stacks ++ [p]) n = if decide (n = KSTACK (length stacks) / PGSIZE) then Some (leaf_pte p (Z.lor PTE_R PTE_W)) else stack_entry stacks n.
Proof.
  rewrite (proj1 (kstack_page _)). unfold stack_entry. case_decide as Hn.
  - rewrite (proj2 (stack_no_page n (length stacks)) Hn). cbn. by rewrite list_lookup_middle.
  - destruct (stack_no n) as [i|] eqn:E; [|done]. cbn. apply stack_no_page in E.
    destruct (decide (i < length stacks)%nat); [by rewrite lookup_app_l|].
    rewrite lookup_app_r, (lookup_ge_None_2 stacks) by lia. rewrite (lookup_ge_None_2 [p]); [done|cbn; lia].
Qed.

Lemma map_entries_lookup m : ∀ vp pa perm l n,
  map_entries m vp pa perm l !! n = if decide (vp ≤ n < vp + Z.of_nat m) then Some (leaf_pte (pa + (n - vp) * PGSIZE) perm) else l !! n.
Proof.
  induction m as [|m IH]; intros vp pa perm l n; cbn [map_entries]; [by rewrite decide_False by lia|]. rewrite IH.
  destruct (decide (n = vp)) as [->|Hne].
  - rewrite decide_False, decide_True, lookup_insert_eq by lia. do 2 f_equal. lia.
  - rewrite lookup_insert_ne by done. repeat case_decide; try lia; [|done]. do 2 f_equal. lia.
Qed.

Section spec.
Context {A : Type} `{PageAlloc A}.
Implicit Types (w : vworld A) (T : tree) (F : gset Z).

Record maps w F T (m : Z → option Z) : Prop := { mp_inv : vm_inv w F T; mp_map : ∀ n, L T !! n = m n }.
(** After a call: it went well, or no page is left. *)
Definition outcome w F T (b : bool) w' F' T' (m : Z → option Z) : Prop :=
  evolves w F T w' F' T' ∧ if b then maps w' F' T' m else F' = ∅.

Lemma maps_ext w F T m m' : (∀ n, m n = m' n) → maps w F T m → maps w F T m'.
Proof. intros E [? Hm]. split; [done|]. intros n. by rewrite Hm. Qed.

Lemma kvmmap_spec w F T m va pa k perm :
  maps w F T m → 0 ≤ va → va mod PGSIZE = 0 → 0 < k → va + k * PGSIZE ≤ MAXVA → 0 ≤ pa → pa + k * PGSIZE < 2 ^ 64 →
  (∀ n, va / PGSIZE ≤ n < va / PGSIZE + k → m n = None) →
  ∃ b w' F' T', kvmmap (root T) va pa (k * PGSIZE) perm w = Some (b, w') ∧
    outcome w F T b w' F' T' (λ n, if decide (va / PGSIZE ≤ n < va / PGSIZE + k) then Some (leaf_pte (pa + (n - va / PGSIZE) * PGSIZE) perm) else m n).
Proof.
  intros [Hi Hm] H1 H2 H3 H4 H5 H6 Hnone.
  destruct (mappages_maps w F T va k pa perm) as (r & j & w' & F' & T' & E & Hi' & Hev & HL & Hr); try done.
  { intros i ?. rewrite Hm. apply Hnone. lia. }
  exists (r =? 0), w', F', T'. unfold kvmmap. rewrite (bind_eq _ _ _ _ _ E). split; [done|]. split; [done|].
  destruct Hr as [[-> Hj]|(-> & _ & HF)]; [|exact HF]. split; [done|]. intros n. rewrite HL, map_entries_lookup, Hj. by rewrite Hm.
Qed.

Lemma kalloc_inv w F T :
  vm_inv w F T →
  (F = ∅ ∧ kalloc_page w = Some (0, w)) ∨
  ∃ p w', p ∈ F ∧ kalloc_page w = Some (p, w') ∧ pa_valid p ∧ vm_inv w' (F ∖ {[p]}) T ∧ (∀ n, addr T n ≠ Some p) ∧ words w' = words w.
Proof.
  intros [Hok [I1 I2 I3 I4 I5 I6]]. unfold kalloc_page.
  destruct (pa_kalloc_spec _ _ Hok) as [[-> E]|(p & a' & HpF & E & Hok')]; rewrite E; [left; by destruct w|right].
  exists p, (mkVworld a' (words w)). split_and!; [done|done|exact (pa_ok_valid _ _ _ Hok HpF)| | |done].
  - split; [done|]. split; try done. intros n q Hq. destruct (I2 n q Hq). split; [done|set_solver].
  - intros n Hn. by apply I2 in Hn as [_ ?].
Qed.

(** The stacks that are mapped belong to nothing else. *)
Definition apart F T (stacks : list Z) : Prop :=
  NoDup stacks ∧ ∀ p, p ∈ stacks → pa_valid p ∧ p ∉ F ∧ ∀ n, addr T n ≠ Some p.
Lemma apart_evolves w F T w' F' T' stacks : evolves w F T w' F' T' → apart F T stacks → apart F' T' stacks.
Proof.
  intros Hev [Hd Ha]. split; [done|]. intros p Hp. destruct (Ha p Hp) as (Hv & HF & Hn). split; [done|]. by eapply evolves_fresh.
Qed.

(** Pages come from the free ones, and no page beside them and the tables is
    touched. *)
Definition used w F T w' F' T' (stacks : list Z) : Prop :=
  root T' = root T ∧ (∀ p, (p ∈ F' ∨ (∃ n, addr T' n = Some p) ∨ p ∈ stacks) ↔ (p ∈ F ∨ ∃ n, addr T n = Some p)) ∧ frame w w' F T.

Lemma used_evolves w0 F0 T0 w F T w1 F1 T1 stacks :
  used w0 F0 T0 w F T stacks → evolves w F T w1 F1 T1 → used w0 F0 T0 w1 F1 T1 stacks.
Proof.
  intros (Hr & Hp & Hf) Hev. split_and!; [by rewrite (ev_root _ _ _ _ _ _ Hev)| |].
  - intros q. rewrite <-Hp. pose proof (ev_pages _ _ _ _ _ _ Hev q). tauto.
  - intros q H0 Hn0. assert (¬ (q ∈ F0 ∨ ∃ n, addr T0 n = Some q)) as Hno by (intros [?|[n ?]]; [done|by apply (Hn0 n)]).
    rewrite <-Hp in Hno. rewrite (ev_frame _ _ _ _ _ _ Hev); [by apply Hf|tauto|]. intros n Hn. apply Hno. right. left. by exists n.
Qed.
Lemma used_take w0 F0 T0 w F T w1 stacks p :
  used w0 F0 T0 w F T stacks → p ∈ F → words w1 = words w → used w0 F0 T0 w1 (F ∖ {[p]}) T (stacks ++ [p]).
Proof.
  intros (Hr & Hp & Hf) HpF Hw. split_and!; [done| |intros q ? ?; rewrite Hw; by apply Hf].
  intros q. rewrite <-Hp, elem_of_app, list_elem_of_singleton, elem_of_difference, elem_of_singleton. destruct (decide (q = p)) as [->|]; tauto.
Qed.
Lemma apart_take F T stacks p : apart F T stacks → p ∈ F → pa_valid p → (∀ n, addr T n ≠ Some p) → apart (F ∖ {[p]}) T (stacks ++ [p]).
Proof.
  intros [Hd Ha] HpF Hv Hpt. split.
  - apply NoDup_app. split_and!; [done| |apply NoDup_singleton]. intros q Hq ->%list_elem_of_singleton. by destruct (Ha p Hq) as (_ & ? & _).
  - intros q [Hq| ->%list_elem_of_singleton]%elem_of_app.
    + destruct (Ha q Hq) as (? & ? & ?). split_and!; [done|by intros [? _]%elem_of_difference|done].
    + split_and!; [done|intros [_ Hne]%elem_of_difference; by apply Hne, elem_of_singleton|done].
Qed.

Lemma mapstacks_spec base (Hbase : ∀ i, (i < NPROC)%nat → base (KSTACK i / PGSIZE) = None) w0 F0 T0 k : ∀ w F T stacks,
  used w0 F0 T0 w F T stacks → (length stacks + k = NPROC)%nat → apart F T stacks →
  maps w F T (λ n, match stack_entry stacks n with Some e => Some e | None => base n end) →
  ∃ b w' F' T' stacks', mapstacks_loop (root T) (seq (length stacks) k) w = Some (b, w') ∧
    used w0 F0 T0 w' F' T' stacks' ∧ apart F' T' stacks' ∧
    if b then length stacks' = NPROC ∧ maps w' F' T' (λ n, match stack_entry stacks' n with Some e => Some e | None => base n end) else F' = ∅.
Proof.
  induction k as [|k IH]; intros w F T stacks Hu Hk Ha Hm.
  { exists true, w, F, T, stacks. split_and!; [done|done|done|lia|done]. }
  cbn [seq mapstacks_loop]. destruct Hm as [Hi Hm].
  destruct (kalloc_inv w F T Hi) as [[HF E]|(p & w1 & HpF & E & Hv & Hi1 & Hpt & Hw1)].
  { exists false, w, F, T, stacks. rewrite (bind_eq _ _ _ _ _ E). split_and!; [done|done|done|done]. }
  pose proof (pa_valid_range p Hv) as [Hpr _]. rewrite (bind_eq _ _ _ _ _ E), (proj2 (Z.eqb_neq p 0)) by lia.
  destruct (kstack_page (length stacks)) as [Hks Hka].
  assert (KSTACK (length stacks) = (67108863 - 2 * (Z.of_nat (length stacks) + 1)) * PGSIZE) as Hkv.
  { rewrite <-Hks. pose proof (Z.div_mod (KSTACK (length stacks)) PGSIZE ltac:(done)). lia. }
  assert (Z.of_nat (length stacks) < 64) as Hlt by (unfold NPROC in Hk; lia).
  destruct (kvmmap_spec w1 (F ∖ {[p]}) T (λ n, match stack_entry stacks n with Some e => Some e | None => base n end) (KSTACK (length stacks)) p 1 (Z.lor PTE_R PTE_W))
    as (b & w2 & F2 & T2 & E2 & Hev & Hb); [by split|rewrite Hkv; unfold PGSIZE; lia|done|lia|rewrite Hkv; unfold MAXVA, PGSIZE; lia|lia|unfold PGSIZE; lia| |].
  { intros n Hn. assert (n = KSTACK (length stacks) / PGSIZE) as -> by lia. unfold stack_entry.
    rewrite (proj2 (stack_no_page _ (length stacks)) Hks). cbn. rewrite lookup_ge_None_2 by lia. cbn. apply Hbase. unfold NPROC. lia. }
  rewrite Z.mul_1_l in E2. rewrite (bind_eq _ _ _ _ _ E2).
  pose proof (apart_evolves _ _ _ _ _ _ _ Hev (apart_take _ _ _ _ Ha HpF Hv Hpt)) as Ha2.
  pose proof (used_evolves _ _ _ _ _ _ _ _ _ _ (used_take _ _ _ _ _ _ _ _ _ Hu HpF Hw1) Hev) as Hu2.
  destruct b; [|by exists false, w2, F2, T2, (stacks ++ [p])].
  destruct (IH w2 F2 T2 (stacks ++ [p]) Hu2) as (b & w' & F' & T' & st & E' & Hu' & Ha' & Hb'); [rewrite length_app; cbn; lia|done| |].
  { eapply maps_ext; [|exact Hb]. intros n. cbn beta. rewrite stack_entry_snoc.
    destruct (decide (n = KSTACK (length stacks) / PGSIZE)) as [->|Hne].
    - rewrite decide_True by lia. do 2 f_equal. lia.
    - by rewrite decide_False by lia. }
  rewrite length_app, Nat.add_1_r in E'. exists b, w', F', T', st. split_and!; try done. by rewrite <-(ev_root _ _ _ _ _ _ Hev).
Qed.

(** What [kvmmake] ends with, from the root table on. *)
Definition finished w0 F0 T0 (m : list Z → Z → option Z) (o : option (bool * vworld A)) : Prop :=
  ∃ b w' F' T' stacks, o = Some (b, w') ∧ used w0 F0 T0 w' F' T' stacks ∧ apart F' T' stacks ∧
    if b then length stacks = NPROC ∧ maps w' F' T' (m stacks) else F' = ∅.

Lemma map_then w0 F0 T0 fin w F T m va pa sz perm (k : M (vworld A) bool) :
  used w0 F0 T0 w F T [] → maps w F T m →
  0 ≤ va → va mod PGSIZE = 0 → 0 < sz → sz mod PGSIZE = 0 → va + sz ≤ MAXVA → 0 ≤ pa → pa + sz < 2 ^ 64 →
  (∀ n, va ≤ n * PGSIZE < va + sz → m n = None) →
  (∀ w1 F1 T1, used w0 F0 T0 w1 F1 T1 [] → maps w1 F1 T1 (λ n, if decide (va ≤ n * PGSIZE < va + sz) then Some (leaf_pte (pa + n * PGSIZE - va) perm) else m n) →
     finished w0 F0 T0 fin (k w1)) →
  finished w0 F0 T0 fin (and_then (kvmmap (root T0) va pa sz perm) k w).
Proof.
  intros Hu Hm H1 H2 H3 H4 H5 H6 H7 Hnone Hk. pose proof (Z.div_mod va PGSIZE ltac:(done)) as Hdv. pose proof (Z.div_mod sz PGSIZE ltac:(done)) as Hds.
  rewrite H2, Z.add_0_r in Hdv. rewrite H4, Z.add_0_r in Hds.
  assert (∀ n, va / PGSIZE ≤ n < va / PGSIZE + sz / PGSIZE ↔ va ≤ n * PGSIZE < va + sz) as Hrange by (intros n; unfold PGSIZE in *; lia).
  destruct (kvmmap_spec w F T m va pa (sz / PGSIZE) perm Hm H1 H2) as (b & w1 & F1 & T1 & E & Hev & Hb);
    [unfold PGSIZE in *; lia|unfold PGSIZE in *; lia|done|unfold PGSIZE in *; lia|intros n Hn; by apply Hnone, Hrange|].
  replace (sz / PGSIZE * PGSIZE) with sz in E by lia. unfold and_then. rewrite (proj1 Hu) in E. rewrite (bind_eq _ _ _ _ _ E).
  pose proof (used_evolves _ _ _ _ _ _ _ _ _ _ Hu Hev) as Hu1. destruct b.
  - apply (Hk w1 F1 T1 Hu1). eapply maps_ext; [|exact Hb]. intros n. cbn beta.
    destruct (decide (va ≤ n * PGSIZE < va + sz)) as [Hn|Hn]; [rewrite decide_True by by apply Hrange|by rewrite decide_False by by rewrite Hrange].
    do 2 f_equal. unfold PGSIZE in *. lia.
  - exists false, w1, F1, T1, []. split_and!; [done|done|split; [constructor|by intros ? ?%elem_of_nil]|done].
Qed.

Lemma stack_range stacks n e : stack_entry stacks n = Some e → length stacks = NPROC → 67108863 - 128 ≤ n < 67108863.
Proof.
  unfold stack_entry. destruct (stack_no n) as [i|] eqn:E; [|done]. cbn. destruct (stacks !! i) eqn:L; [|done]. intros _ Hl.
  apply stack_no_page in E. apply lookup_lt_Some in L. rewrite Hl in L. unfold NPROC in L. lia.
Qed.

Section calls.
Context (etext trampoline : Z) (He : KERNBASE < etext < PHYSTOP) (Hal : etext mod PGSIZE = 0) (Htr : 0 ≤ trampoline < 2 ^ 56).

(** The mappings in the order in which they are made. *)
Definition put_map (va pa sz perm : Z) (m : Z → option Z) (n : Z) : option Z :=
  if decide (va ≤ n * PGSIZE < va + sz) then Some (leaf_pte (pa + n * PGSIZE - va) perm) else m n.
Definition before_stacks : Z → option Z :=
  put_map TRAMPOLINE trampoline PGSIZE (Z.lor PTE_R PTE_X) (put_map etext etext (PHYSTOP - etext) (Z.lor PTE_R PTE_W)
    (put_map KERNBASE KERNBASE (etext - KERNBASE) (Z.lor PTE_R PTE_X) (put_map PLIC PLIC 0x4000000 (Z.lor PTE_R PTE_W)
      (put_map VIRTIO0 VIRTIO0 PGSIZE (Z.lor PTE_R PTE_W) (put_map UART0 UART0 PGSIZE (Z.lor PTE_R PTE_W) (λ _, None)))))).

Lemma entries_agree stacks n : length stacks = NPROC →
  match stack_entry stacks n with Some e => Some e | None => before_stacks n end = kernel_entry etext trampoline stacks n.
Proof.
  intros Hl. unfold kernel_entry, direct, before_stacks, put_map. rewrite tramp_page.
  unfold TRAMPOLINE, MAXVA, UART0, VIRTIO0, PLIC, PHYSTOP, KERNBASE, PGSIZE in *.
  destruct (stack_entry stacks n) as [e|] eqn:E.
  - apply stack_range in E; [|done]. by rewrite !decide_False by lia.
  - repeat case_decide; try lia; try done; do 2 f_equal; lia.
Qed.

Ltac map_addr := unfold TRAMPOLINE, MAXVA, UART0, VIRTIO0, PLIC, PHYSTOP, KERNBASE, PGSIZE in *; lia.
Ltac map_side := first [done | map_addr | let H := fresh in intros ? H; cbn beta; repeat (rewrite decide_False by map_addr); done].
Lemma kvm_calls w0 F0 T0 :
  vm_inv w0 F0 T0 → L T0 = ∅ →
  finished w0 F0 T0 (kernel_entry etext trampoline)
    (and_then (kvmmap (root T0) UART0 UART0 PGSIZE (Z.lor PTE_R PTE_W))
       (and_then (kvmmap (root T0) VIRTIO0 VIRTIO0 PGSIZE (Z.lor PTE_R PTE_W))
       (and_then (kvmmap (root T0) PLIC PLIC 0x4000000 (Z.lor PTE_R PTE_W))
       (and_then (kvmmap (root T0) KERNBASE KERNBASE (etext - KERNBASE) (Z.lor PTE_R PTE_X))
       (and_then (kvmmap (root T0) etext etext (PHYSTOP - etext) (Z.lor PTE_R PTE_W))
       (and_then (kvmmap (root T0) TRAMPOLINE trampoline PGSIZE (Z.lor PTE_R PTE_X))
       (proc_mapstacks (root T0))))))) w0).
Proof.
  intros Hi HL.
  assert ((etext - KERNBASE) mod PGSIZE = 0 ∧ (PHYSTOP - etext) mod PGSIZE = 0) as [Ha1 Ha2].
  { split; rewrite Zminus_mod, Hal; reflexivity. }
  assert (used w0 F0 T0 w0 F0 T0 []) as Hu0 by (split_and!; [done|intros p; rewrite elem_of_nil; tauto|done]).
  assert (maps w0 F0 T0 (λ _, None)) as Hm0 by (split; [done|intros n; by rewrite HL]).
  clear Hi HL. do 6 (eapply map_then; [eassumption|eassumption|map_side..|]; clear Hu0 Hm0; intros ??? Hu0 Hm0).
  match type of Hu0 with used _ _ _ ?w1 ?F1 ?T1 _ => rename w1 into w; rename F1 into F; rename T1 into T end.
  unfold proc_mapstacks. rewrite <-(proj1 Hu0).
  destruct (mapstacks_spec before_stacks) with (w0 := w0) (F0 := F0) (T0 := T0) (k := NPROC) (w := w) (F := F) (T := T) (stacks := [] : list Z)
    as (b & w' & F' & T' & st & E & Hu & Ha & Hb); [|done|done|split; [constructor|by intros ? ?%elem_of_nil]| |].
  - intros i Hi. rewrite (proj1 (kstack_page i)). unfold NPROC in Hi. unfold before_stacks, put_map. repeat (rewrite decide_False by map_addr). done.
  - eapply maps_ext; [|exact Hm0]. intros n. unfold stack_entry. by destruct (stack_no n).
  - exists b, w', F', T', st. split_and!; [exact E|done|done|]. destruct b; [|done]. destruct Hb as [Hl Hb]. split; [done|].
    eapply maps_ext; [|exact Hb]. intros n. cbn beta. by apply entries_agree.
Qed.
End calls.

(** C27: the page table of the kernel. If there is a free page for its root,
    [kvmmake] returns or panics, and panics only when no page is left. If it
    returns, the page table maps the devices, the code of the kernel (not
    writable), its data and the rest of memory (not executable) to themselves,
    the trampoline, and one page for the stack of each process, below a page
    that is not mapped; nothing else is mapped. The stacks are pages of their own, and no
    page is lost or touched beside the tables. *)
Theorem kvmmake_maps etext trampoline w F :
  pa_ok (alloc w) F → F ≠ ∅ → KERNBASE < etext < PHYSTOP → etext mod PGSIZE = 0 → 0 ≤ trampoline < 2 ^ 56 →
  ∃ r w' F' T stacks, kvmmake etext trampoline w = Some (r, w') ∧ apart F' T stacks ∧
    (∀ p, (p ∈ F' ∨ (∃ n, addr T n = Some p) ∨ p ∈ stacks) ↔ p ∈ F) ∧ (∀ p, p ∉ F → words w' !! p = words w !! p) ∧
    match r with
    | Some pt => pt = root T ∧ length stacks = NPROC ∧ vm_inv w' F' T ∧ ∀ n, L T !! n = kernel_entry etext trampoline stacks n
    | None => F' = ∅
    end.
Proof.
  intros Hok HF He Hal Htr. unfold kvmmake.
  destruct (uvmcreate_spec w F Hok) as [[-> _]|(pt & w0 & HpF & Hp0 & E0 & Hi0 & Hf0)]; [done|].
  unfold uvmcreate in E0. apply bind_Some in E0 as (p & wa & E1 & E0). rewrite (bind_eq _ _ _ _ _ E1).
  destruct (p =? 0) eqn:Ep; [injection E0 as <- _; done|]. apply bind_Some in E0 as ([] & wb & E2 & E0). injection E0 as -> ->.
  rewrite (bind_eq _ _ _ _ _ E2). set (T0 := mkTree pt ∅ ∅ ∅) in *. change pt with (root T0).
  destruct (kvm_calls etext trampoline He Hal Htr w0 (F ∖ {[pt]}) T0 Hi0 eq_refl) as (b & w' & F' & T' & st & E & (Hr & Hp & Hf) & Ha & Hb).
  rewrite (bind_eq _ _ _ _ _ E). exists (if b then Some (root T0) else None), w', F', T', st.
  assert (∀ n q, addr T0 n = Some q → q = pt) as Honly.
  { intros n q. destruct n; cbn; rewrite ?lookup_empty; [by intros [= <-]|done..]. }
  split_and!; [done|done| | |].
  - intros q. rewrite Hp, elem_of_difference, elem_of_singleton. split.
    + intros [[? _]|[n ->%Honly]]; done.
    + intros Hq. destruct (decide (q = pt)) as [->|]; [right; by exists NRoot|by left].
  - intros q Hq. rewrite Hf, Hf0; [done|by intros ->|by intros [? _]%elem_of_difference|by intros n ->%Honly].
  - destruct b; [|done]. destruct Hb as [Hl [Hi Hm]]. by split_and!.
Qed.
End spec.

Lemma kvmmake_maps_witness :
  ∃ r w' F' T stacks, kvmmake 0x80008000 0x80007000 demo_world = Some (r, w') ∧ apart F' T stacks ∧
    match r with Some pt => pt = root T ∧ ∀ n, L T !! n = kernel_entry 0x80008000 0x80007000 stacks n | None => F' = ∅ end.
Proof.
  destruct (kvmmake_maps 0x80008000 0x80007000 demo_world demo_F) as (r & w' & F' & T & st & E & Ha & _ & _ & Hr).
  - exact demo_free_ok.
  - intros E. assert (pg 10 ∈ (∅ : gset Z)) as Hin by (rewrite <-E; by apply (bool_decide_unpack _)). by apply elem_of_empty in Hin.
  - by vm_compute.
  - done.
  - done.
  - exists r, w', F', T, st. split; [exact E|]. split; [exact Ha|]. destruct r; [|exact Hr]. destruct Hr as (? & _ & _ & ?). by split.
Defined.
