(* ===== verification/VmCopy.v ===== *)
(** Copying an address space for [fork]: [uvmcopy] of [xv6/kernel/vm.c]. *)
From S2P Require Import Prelude Kalloc Proc Vm VmSpec VmUser VmAlloc VmKmem.

Section copy.
Context {A : Type} `{PageAlloc A}.
Implicit Types (w : vworld A) (T : tree) (F : gset Z).
Variable P : Z → Prop.

(** [p] is a table of the address space or a page it maps. *)
Definition holds T (p : Z) : Prop := (∃ n, addr T n = Some p) ∨ mapped_by T P p.

(** Two address spaces share no page. *)
Definition apart F To Tn : Prop := ∀ p, holds To p → ¬ pages_of P F Tn p.

(** An address space is untouched by what another one does. *)
Lemma old_kept (Q : Z → Prop) w F To Tn w' F' Tn' :
  vm_inv w F To → owns F To P → apart F To Tn → accounts P Q w F Tn w' F' Tn' → (∀ n, Q n → P n) →
  pa_ok (alloc w') F' →
  vm_inv w' F' To ∧ owns F' To P ∧ apart F' To Tn' ∧ ∀ p, holds To p → words w' !! p = words w !! p.
Proof.
  intros [_ HT] Hown Hap Hac HQ Hok.
  assert (apart F' To Tn') as Hap'. { intros p Hp. rewrite (ac_pages _ _ _ _ _ _ _ _ Hac). by apply Hap. }
  assert (∀ p, holds To p → p ∉ F') as HF'. { intros p Hp ?. apply (Hap' p Hp). by left. }
  assert (∀ p, holds To p → words w' !! p = words w !! p) as Hw.
  { intros p Hp. pose proof (Hap p Hp) as Hno. apply (ac_frame _ _ _ _ _ _ _ _ Hac).
    - intros ?. apply Hno. by left.
    - intros n ?. apply Hno. right. left. by exists n.
    - intros (n & e & Hn & He & ->). apply Hno. right. right. exists n, e. by auto. }
  split_and!; [| |done|done].
  - split; [done|]. destruct HT as [H1 H2 H3 H4 H5 H6]. split; try done.
    + intros n p Hp. destruct (H1 n p Hp) as (ws & Hws & ?). exists ws. rewrite Hw; [done|]. left. by exists n.
    + intros n p Hp. split; [by apply (H2 n p)|]. apply HF'. left. by exists n.
  - destruct Hown as [H1 H2 H3 H4]. split; try done. intros n e Hn He. split; [by apply (H2 n e)|].
    apply HF'. right. by exists n, e.
Qed.

(** Page number [n] of the copy: absent as in the original, or a page of its
    own with the same flags and the same contents. *)
Definition copied w F To w' Tn' (n : Z) : Prop :=
  match L To !! n with
  | None => L Tn' !! n = None
  | Some e => ∃ p, L Tn' !! n = Some (leaf_pte p (PTE_FLAGS e)) ∧ p ∈ F ∧ words w' !! p = words w !! PTE2PA e
  end.

Definition copy_done w F To Tn w' F' Tn' (i r : Z) (c : nat) : Prop :=
  r = 0 ∧ accounts P (λ _, False) w F Tn w' F' Tn' ∧
  (∀ n, i / PGSIZE ≤ n < i / PGSIZE + Z.of_nat c → copied w F To w' Tn' n) ∧
  ∀ n, ¬ (i / PGSIZE ≤ n < i / PGSIZE + Z.of_nat c) → L Tn' !! n = L Tn !! n.
Definition copy_failed w F Tn w' F' Tn' (i r : Z) : Prop :=
  r = -1 ∧ accounts P (λ n, 0 ≤ n < i / PGSIZE) w F Tn w' F' Tn' ∧
  ∀ n, L Tn' !! n = if decide (0 ≤ n < i / PGSIZE) then None else L Tn !! n.

Lemma uvmcopy_loop_S fuel old new i sz :
  uvmcopy_loop (A := A) (S fuel) old new i sz =
    (let err := uvmunmap new 0 (i / PGSIZE) true;; mret (-1) in
     if i <? sz then
       o ← walk old i false;
       match o with
       | None => uvmcopy_loop fuel old new (u64 (i + PGSIZE)) sz
       | Some (p, k) =>
         pte ← load p k;
         if Z.testbit pte 0 then
           mem ← kalloc_page;
           if mem =? 0 then err
           else
             ws ← gets (λ w, words w !! PTE2PA pte);
             match ws with
             | None => stuck
             | Some ws =>
               set_page_words mem ws;;
               r ← mappages new i PGSIZE mem (PTE_FLAGS pte);
               if r =? 0 then uvmcopy_loop fuel old new (u64 (i + PGSIZE)) sz
               else kfree_page mem;; err
             end
         else uvmcopy_loop fuel old new (u64 (i + PGSIZE)) sz
       end
     else mret 0).
Proof. reflexivity. Qed.

(** The error path takes back what has been copied. *)
Lemma copy_back w F Tn w1 F1 T1 i :
  accounts P (λ _, False) w F Tn w1 F1 T1 → L T1 = L Tn → vm_inv w1 F1 T1 → owns F1 T1 P →
  0 ≤ i ≤ MAXVA → i mod PGSIZE = 0 → (∀ n, 0 ≤ n < i / PGSIZE → P n) →
  ∃ w' F' T', (uvmunmap (root Tn) 0 (i / PGSIZE) true;; mret (-1)) w1 = Some (-1, w') ∧
    vm_inv w' F' T' ∧ owns F' T' P ∧ copy_failed w F Tn w' F' T' i (-1).
Proof.
  intros Hac HL1 Hinv1 Hown1 Hi Hal HP.
  assert (i / PGSIZE * PGSIZE = i) as Hd by (pose proof (Z.div_mod i PGSIZE ltac:(done)); lia).
  destruct (uvmunmap_spec P w1 F1 T1 0 (i / PGSIZE)) as (w2 & F2 & T2 & E & Hinv2 & Hown2 & Hac2 & _ & _ & HL2);
    [done|done|lia|done|apply Z.div_pos; [lia|done]|lia|exact HP|].
  change (0 / PGSIZE) with 0 in *. rewrite (ac_root _ _ _ _ _ _ _ _ Hac) in E. rewrite (bind_eq _ _ _ _ _ E).
  exists w2, F2, T2. split_and!; [done|done|done|]. split_and!; [done| |].
  - eapply accounts_trans; [by apply accounts_weaken|exact Hac2|].
    intros p (n & e & Hn & He & ->). right. right. exists n, e. by rewrite <-HL1.
  - intros n. by rewrite HL2, HL1.
Qed.

(** A page that is not mapped is skipped. *)
Lemma copy_done_skip w F To Tn w' F' Tn' i c :
  L To !! (i / PGSIZE) = None → L Tn !! (i / PGSIZE) = None →
  copy_done w F To Tn w' F' Tn' (i + PGSIZE) 0 c → copy_done w F To Tn w' F' Tn' i 0 (S c).
Proof.
  intros Ho Hn (_ & Hac & Hin & Hout). rewrite page_succ in Hin, Hout. split_and!; [done|done| |].
  - intros n Hr. destruct (decide (n = i / PGSIZE)) as [->|Hne]; [|apply Hin; lia].
    unfold copied. rewrite Ho. rewrite Hout by lia. done.
  - intros n Hr. apply Hout. lia.
Qed.
(** A failure after page [i] takes that page back as well. *)
Lemma copy_failed_cons w F Tn w1 F1 T1 w' F' Tn' i e :
  accounts P (λ _, False) w F Tn w1 F1 T1 → L T1 = partial_alter (λ _, e) (i / PGSIZE) (L Tn) →
  L Tn !! (i / PGSIZE) = None → (∀ e', e = Some e' → PTE2PA e' ∈ F) → 0 ≤ i →
  copy_failed w1 F1 T1 w' F' Tn' (i + PGSIZE) (-1) → copy_failed w F Tn w' F' Tn' i (-1).
Proof.
  intros Hac HL1 Hn He Hi (_ & Hac2 & HL2). rewrite page_succ in Hac2, HL2.
  assert (0 ≤ i / PGSIZE) by (apply Z.div_pos; [lia|done]). split_and!; [done| |].
  - eapply accounts_trans; [by apply accounts_weaken|exact Hac2|].
    intros p (n & e' & Hr & He' & ->). rewrite HL1 in He'.
    destruct (decide (n = i / PGSIZE)) as [->|Hne].
    + rewrite lookup_partial_alter_eq in He'. left. by apply He.
    + rewrite lookup_partial_alter_ne in He' by done. right. right. exists n, e'. split_and!; [lia|lia|done|done].
  - intros n. rewrite HL2, HL1. destruct (decide (n = i / PGSIZE)) as [->|Hne].
    + rewrite decide_True, decide_False by lia. done.
    + rewrite lookup_partial_alter_ne by done. apply decide_ext. lia.
Qed.

Lemma copy_done_cons w F To Tn w1 F1 T1 w' F' Tn' i mem e c :
  accounts P (λ _, False) w F Tn w1 F1 T1 → vm_inv w1 F1 T1 → owns F1 T1 P → mem ∈ F →
  PTE2PA (leaf_pte mem (PTE_FLAGS e)) = mem → P (i / PGSIZE) → L To !! (i / PGSIZE) = Some e →
  L T1 = <[i / PGSIZE := leaf_pte mem (PTE_FLAGS e)]> (L Tn) → words w1 !! mem = words w !! PTE2PA e →
  (∀ p, mapped_by To P p → words w1 !! p = words w !! p) →
  (∀ n, i / PGSIZE ≤ n < i / PGSIZE + Z.of_nat (S c) → P n) →
  copy_done w1 F1 To T1 w' F' Tn' (i + PGSIZE) 0 c → copy_done w F To Tn w' F' Tn' i 0 (S c).
Proof.
  intros Hac1 Hinv1 Hown1 HmF Hpa HP Ho HL1 Hz Hold HPr (_ & Hac2 & Hin & Hout). rewrite page_succ in Hin, Hout.
  assert (L T1 !! (i / PGSIZE) = Some (leaf_pte mem (PTE_FLAGS e))) as Hl by (rewrite HL1; apply lookup_insert_eq).
  split_and!; [done| | |].
  - eapply accounts_trans; [done|done|]. by intros p (? & ? & [] & _).
  - intros n Hn. unfold copied. destruct (decide (n = i / PGSIZE)) as [->|Hne].
    + rewrite Ho. exists mem. rewrite Hout by lia. split_and!; [done|done|].
      rewrite (ac_frame _ _ _ _ _ _ _ _ Hac2); [done| | |].
      * rewrite <-Hpa. by apply (ow_valid _ _ _ Hown1 _ _ HP Hl).
      * intros m. rewrite <-Hpa. by apply (ow_tree _ _ _ Hown1 _ _ m HP Hl).
      * by intros (? & ? & [] & _).
    + pose proof (Hin n ltac:(lia)) as Hc. unfold copied in Hc. destruct (L To !! n) as [e'|] eqn:En; [|done].
      destruct Hc as (p & Hp & HpF & Hw). exists p. split_and!; [done| |].
      * destruct (ac_sub _ _ _ _ _ _ _ _ Hac1 p (or_introl HpF)) as [?|[[m Hm]|(? & ? & [] & _)]]; [done|].
        apply (ac_addr _ _ _ _ _ _ _ _ Hac1) in Hm. by apply (vm_inv_disjoint _ _ _ Hinv1) in Hm.
      * rewrite Hw. apply Hold. exists n, e'. split_and!; [|done|done]. apply HPr. lia.
  - intros n Hn. rewrite Hout by lia. rewrite HL1. apply lookup_insert_ne. lia.
Qed.

Lemma PTE_FLAGS_range e : 0 ≤ PTE_FLAGS e < 1024.
Proof.
  unfold PTE_FLAGS. change 0x3FF with (Z.ones 10). rewrite Z.land_ones by lia. apply Z.mod_pos_bound. lia.
Qed.

(** The part of the loop that copies one page, followed by [k]. *)
Definition copy_page (new i pte : Z) (k : M (vworld A) Z) : M (vworld A) Z :=
  let err := uvmunmap new 0 (i / PGSIZE) true;; mret (-1) in
  mem ← kalloc_page;
  if mem =? 0 then err
  else
    ws ← gets (λ w, words w !! PTE2PA pte);
    match ws with
    | None => stuck
    | Some ws =>
      set_page_words mem ws;;
      r ← mappages new i PGSIZE mem (PTE_FLAGS pte);
      if r =? 0 then k else kfree_page mem;; err
    end.

Lemma copy_page_spec w F Tn i e ws k :
  vm_inv w F Tn → owns F Tn P → words w !! PTE2PA e = Some ws →
  0 ≤ i → i mod PGSIZE = 0 → i + PGSIZE ≤ MAXVA → (∀ n, 0 ≤ n ≤ i / PGSIZE → P n) → L Tn !! (i / PGSIZE) = None →
  (∃ w' F' T', copy_page (root Tn) i e k w = Some (-1, w') ∧ vm_inv w' F' T' ∧ owns F' T' P ∧
     copy_failed w F Tn w' F' T' i (-1)) ∨
  (∃ mem w1 F1 T1, copy_page (root Tn) i e k w = k w1 ∧ mem ∈ F ∧ vm_inv w1 F1 T1 ∧ owns F1 T1 P ∧
     accounts P (λ _, False) w F Tn w1 F1 T1 ∧ L T1 = <[i / PGSIZE := leaf_pte mem (PTE_FLAGS e)]> (L Tn) ∧
     words w1 !! mem = Some ws ∧ PTE2PA (leaf_pte mem (PTE_FLAGS e)) = mem).
Proof.
  intros Hinv Hown Ews Hi Hal Hmax HP Hn0. unfold copy_page. pose proof (PTE_FLAGS_range e) as Hfl.
  assert (0 ≤ i / PGSIZE) by (apply Z.div_pos; [lia|done]).
  destruct (user_page P w F Tn i (PTE_FLAGS e) ws) as [[-> E]|(mem & w1 & r & w2 & HmF & Hm0 & E & E2 & Hres)];
    [done|done|apply HP; lia|lia|done|done|done|done| |].
  { left. rewrite (bind_eq _ _ _ _ _ E). change (0 =? 0) with true. cbn iota.
    destruct (copy_back w ∅ Tn w ∅ Tn i) as (w' & F' & T' & Ed & ? & ? & ?);
      [apply accounts_refl|done|done|done|unfold PGSIZE in *; lia|done|intros n ?; apply HP; lia|].
    by exists w', F', T'. }
  assert (words w1 = words w) as Ew1.
  { unfold kalloc_page in E. destruct (pa_kalloc (alloc w)) as [[? ?]|]; [|done]. by injection E as _ <-. }
  rewrite (bind_eq _ _ _ _ _ E), (proj2 (Z.eqb_neq _ _) Hm0).
  rewrite (bind_eq _ _ _ (Some ws) w1) by (unfold gets; by rewrite Ew1, Ews). rewrite <-bind_assoc, (bind_eq _ _ _ _ _ E2).
  destruct Hres as [(-> & Hz & F1 & T1 & Hinv1 & Hown1 & Hac1 & HL1)|(-> & w3 & F1 & T1 & E3 & Hinv1 & Hown1 & Hac1 & HL1)].
  - right. exists mem, w2, F1, T1. split_and!; try done.
    pose proof (pa_ok_valid _ _ _ (vi_alloc _ _ _ Hinv) HmF) as Hv. destruct (pa_valid_range mem Hv) as [Hr Hma].
    apply (leaf_pte_parts mem (PTE_FLAGS e) Hma ltac:(lia) Hfl).
  - left. change (-1 =? 0) with false. cbn iota. rewrite (bind_eq _ _ _ _ _ E3).
    destruct (copy_back w F Tn w3 F1 T1 i) as (w' & F' & T' & Ed & ? & ? & ?);
      [done|done|done|done|unfold PGSIZE in *; lia|done|intros n ?; apply HP; lia|].
    by exists w', F', T'.
Qed.

(** One turn of the loop. *)
Lemma copy_turn fuel w F To i new sz :
  vm_inv w F To → owns F To P → P (i / PGSIZE) → 0 ≤ i → i + PGSIZE ≤ MAXVA → i < sz →
  uvmcopy_loop (S fuel) (root To) new i sz w =
    match L To !! (i / PGSIZE) with
    | None => uvmcopy_loop fuel (root To) new (i + PGSIZE) sz w
    | Some e => copy_page new i e (uvmcopy_loop fuel (root To) new (i + PGSIZE) sz) w
    end.
Proof.
  intros Hinv Hown HP Hi Hmax Hlt. rewrite uvmcopy_loop_S. cbv zeta.
  rewrite (proj2 (Z.ltb_lt _ _)) by done. rewrite u64_id by (unfold MAXVA, PGSIZE in *; lia).
  pose proof (walk_entry w F To i Hinv ltac:(unfold PGSIZE in *; lia)) as Hw.
  destruct (leaves To !! (PX 2 i, PX 1 i)) as [pg|]; destruct Hw as [Ew El]; rewrite (bind_eq _ _ _ _ _ Ew).
  2:{ by rewrite El. }
  rewrite (bind_eq _ _ _ _ _ El). destruct (L To !! (i / PGSIZE)) as [e|] eqn:Eo.
  - change (default 0 (Some e)) with e. by rewrite (ow_bit _ _ _ Hown _ _ HP Eo).
  - change (default 0 None) with 0. by rewrite Z.bits_0.
Qed.

Lemma uvmcopy_loop_spec c fuel w F To Tn i sz :
  vm_inv w F To → owns F To P → vm_inv w F Tn → owns F Tn P → apart F To Tn →
  (∀ p, mapped_by To P p → is_Some (words w !! p)) →
  0 ≤ i → i mod PGSIZE = 0 → sz ≤ i + Z.of_nat c * PGSIZE < sz + PGSIZE → i + Z.of_nat c * PGSIZE ≤ MAXVA →
  (c < fuel)%nat → (∀ n, 0 ≤ n < i / PGSIZE + Z.of_nat c → P n) →
  (∀ n, i / PGSIZE ≤ n < i / PGSIZE + Z.of_nat c → L Tn !! n = None) →
  ∃ r w' F' Tn', uvmcopy_loop fuel (root To) (root Tn) i sz w = Some (r, w') ∧ vm_inv w' F' Tn' ∧ owns F' Tn' P ∧
    (copy_done w F To Tn w' F' Tn' i r c ∨ copy_failed w F Tn w' F' Tn' i r).
Proof.
  revert fuel w F Tn i. induction c as [|c IH];
    intros fuel w F Tn i Hinvo Howno Hinv Hown Hap Hws Hi Hal Hsz Hmax Hfuel HP Hnone;
    (destruct fuel as [|fuel]; [lia|]); rewrite uvmcopy_loop_S; cbv zeta.
  { rewrite (proj2 (Z.ltb_ge _ _)) by (unfold PGSIZE in *; lia). exists 0, w, F, Tn. split_and!; [done|done|done|left].
    split_and!; [done|apply accounts_refl|lia|done]. }
  assert (0 ≤ i / PGSIZE) by (apply Z.div_pos; [lia|done]). rewrite <-uvmcopy_loop_S.
  rewrite (copy_turn fuel w F To i) by (done || unfold PGSIZE in *; lia || apply HP; lia).
  assert (∀ w1 F1 T1, vm_inv w1 F1 To → owns F1 To P → vm_inv w1 F1 T1 → owns F1 T1 P → apart F1 To T1 →
    (∀ p, mapped_by To P p → is_Some (words w1 !! p)) → root T1 = root Tn →
    (∀ n, n ≠ i / PGSIZE → L T1 !! n = L Tn !! n) →
    ∃ r w' F' Tn', uvmcopy_loop fuel (root To) (root Tn) (i + PGSIZE) sz w1 = Some (r, w') ∧ vm_inv w' F' Tn' ∧
      owns F' Tn' P ∧ (copy_done w1 F1 To T1 w' F' Tn' (i + PGSIZE) r c ∨ copy_failed w1 F1 T1 w' F' Tn' (i + PGSIZE) r)) as Hrest.
  { intros w1 F1 T1 ? ? ? ? ? ? <- HL1.
    apply IH; try done; [unfold PGSIZE in *; lia|by apply page_succ_mod|unfold PGSIZE in *; lia|unfold PGSIZE in *; lia|lia| |].
    - rewrite page_succ. intros n ?. apply HP. lia.
    - rewrite page_succ. intros n ?. rewrite HL1 by lia. apply Hnone. lia. }
  assert (L Tn !! (i / PGSIZE) = None) as Hn0 by (apply Hnone; lia).
  destruct (L To !! (i / PGSIZE)) as [e|] eqn:Eo.
  2:{ destruct (Hrest w F Tn) as (r & w' & F' & Tn' & E & ? & ? & Hres); try done.
      exists r, w', F', Tn'. split_and!; [done|done|done|]. destruct Hres as [Hd|Hf]; [left|right].
      - pose proof Hd as (-> & _). by apply copy_done_skip.
      - pose proof Hf as (-> & _). eapply (copy_failed_cons _ _ _ _ _ _ _ _ _ _ None); [apply accounts_refl| |done|done|done|done].
        symmetry. exact (delete_id _ _ Hn0). }
  assert (mapped_by To P (PTE2PA e)) as Hmap by (exists (i / PGSIZE), e; split_and!; [apply HP; lia|done|done]).
  destruct (Hws _ Hmap) as [ws Ews].
  destruct (copy_page_spec w F Tn i e ws (uvmcopy_loop fuel (root To) (root Tn) (i + PGSIZE) sz))
    as [(w' & F' & T' & E & ? & ? & ?)|(mem & w1 & F1 & T1 & E & HmF & Hinv1 & Hown1 & Hac1 & HL1 & Hz & Hpa)];
    [done|done|done|done|done|unfold PGSIZE in *; lia|intros n ?; apply HP; lia|done| |]; rewrite E.
  { exists (-1), w', F', T'. by split_and!; [| | |right]. }
  destruct (old_kept (λ _, False) w F To Tn w1 F1 T1) as (Hinvo1 & Howno1 & Hap1 & Hkeep);
    [done|done|done|done|done|by apply (vi_alloc _ _ _ Hinv1)|].
  destruct (Hrest w1 F1 T1) as (r & w' & F' & Tn' & Er & Hinv' & Hown' & Hres); try done.
  { intros p Hp. rewrite Hkeep by by right. by apply Hws. }
  { apply (ac_root _ _ _ _ _ _ _ _ Hac1). }
  { intros n Hn. rewrite HL1. by apply lookup_insert_ne. }
  exists r, w', F', Tn'. split_and!; [done|done|done|]. destruct Hres as [Hd|Hf]; [left|right].
  - pose proof Hd as (-> & _). eapply copy_done_cons; try done; [apply HP; lia|congruence| |intros n ?; apply HP; lia].
    intros p Hp. apply Hkeep. by right.
  - pose proof Hf as (-> & _).
    eapply (copy_failed_cons _ _ _ _ _ _ _ _ _ _ (Some (leaf_pte mem (PTE_FLAGS e)))); [done|exact HL1|done| |done|done].
    intros e' [= <-]. by rewrite Hpa.
Qed.

(** C25: [uvmcopy] for [fork]. It never panics and leaves the parent as it is:
    its tables, its mappings and the contents of its pages. When it returns 0,
    each page of the parent below [sz] is mapped in the child with the same
    flags, to a page of the child's own with the same contents, and a page the
    parent does not map is not mapped in the child. When it
    returns -1 the child maps what it mapped before. No page is lost, and
    parent and child share none. *)
Theorem uvmcopy_copies w F To Tn sz :
  vm_inv w F To → owns F To P → vm_inv w F Tn → owns F Tn P → apart F To Tn →
  (∀ p, mapped_by To P p → is_Some (words w !! p)) → 0 ≤ sz ≤ MAXVA →
  (∀ n, 0 ≤ n < PGROUNDUP sz / PGSIZE → P n) → (∀ n, 0 ≤ n < PGROUNDUP sz / PGSIZE → L Tn !! n = None) →
  ∃ r w' F' Tn', uvmcopy (root To) (root Tn) sz w = Some (r, w') ∧
    vm_inv w' F' To ∧ vm_inv w' F' Tn' ∧ owns F' Tn' P ∧ apart F' To Tn' ∧
    (∀ p, holds To p → words w' !! p = words w !! p) ∧ (∀ p, pages_of P F' Tn' p ↔ pages_of P F Tn p) ∧
    ((r = 0 ∧ (∀ n, 0 ≤ n < PGROUNDUP sz / PGSIZE → copied w F To w' Tn' n) ∧
      ∀ n, ¬ (0 ≤ n < PGROUNDUP sz / PGSIZE) → L Tn' !! n = L Tn !! n) ∨
     (r = -1 ∧ ∀ n, L Tn' !! n = L Tn !! n)).
Proof.
  intros Hinvo Howno Hinv Hown Hap Hws Hsz HP Hnone. assert (MAXVA < 2 ^ 63) as Hmx by done.
  destruct (PGROUNDUP_spec sz ltac:(lia)) as [Hs1 Hs2].
  assert (PGROUNDUP sz ≤ MAXVA) as Hmax.
  { rewrite <-(PGROUNDUP_aligned MAXVA) by done. apply PGROUNDUP_mono; lia. }
  set (c := Z.to_nat (PGROUNDUP sz / PGSIZE)).
  assert (Z.of_nat c = PGROUNDUP sz / PGSIZE) as Hc by (unfold c; rewrite Z2Nat.id; [done|apply Z.div_pos; [lia|done]]).
  assert (Z.of_nat c * PGSIZE = PGROUNDUP sz) as Hc'.
  { rewrite Hc. pose proof (Z.div_mod (PGROUNDUP sz) PGSIZE ltac:(done)). lia. }
  assert (0 ≤ sz / PGSIZE) by (apply Z.div_pos; [lia|done]).
  destruct (uvmcopy_loop_spec c (S (Z.to_nat (sz / PGSIZE + 1))) w F To Tn 0 sz)
    as (r & w' & F' & Tn' & E & Hinv' & Hown' & Hres); try done; [lia|lia| | | |].
  { pose proof (Z.div_mod sz PGSIZE ltac:(done)). pose proof (Z.mod_pos_bound sz PGSIZE ltac:(done)).
    unfold PGSIZE in *. lia. }
  { change (0 / PGSIZE) with 0. intros n ?. apply HP. lia. }
  { change (0 / PGSIZE) with 0. intros n ?. apply Hnone. lia. }
  assert (accounts P (λ n, 0 ≤ n < 0) w F Tn w' F' Tn') as Hac.
  { destruct Hres as [(_ & ? & _)|(_ & ? & _)]; [by apply accounts_weaken|done]. }
  destruct (old_kept (λ n, 0 ≤ n < 0) w F To Tn w' F' Tn') as (Ho1 & _ & Hap' & Hk);
    [done|done|done|done|intros; lia|by apply (vi_alloc _ _ _ Hinv')|].
  exists r, w', F', Tn'. split_and!; try done; [apply (ac_pages _ _ _ _ _ _ _ _ Hac)|].
  destruct Hres as [(-> & _ & Hin & Hout)|(-> & _ & HL)]; [left|right]; (split; [done|]).
  - change (0 / PGSIZE) with 0 in *. rewrite Hc in *. by split.
  - intros n. rewrite HL. change (0 / PGSIZE) with 0. by rewrite decide_False by lia.
Qed.
End copy.

Lemma demo_apart : apart demo_user demo_F demo_tree demo_child.
Proof.
  assert (∀ p, holds demo_user demo_tree p → p = pg 0 ∨ p = pg 1 ∨ p = pg 2 ∨ p = pg 3) as Hh.
  { intros p [[n [[_ ->]|[[_ ->]|[_ ->]]]%demo_addr]|(n & e & _ & He & ->)]; [tauto..|].
    cbn [demo_tree L] in He. apply lookup_singleton_Some in He as [<- <-]. right. right. right. by vm_compute. }
  intros p Hp%Hh [HF|[[n Hn]|(n & e & _ & He & _)]].
  - assert (p ∉ demo_F); [|done]. destruct Hp as [->|[->|[->| ->]]]; by apply (bool_decide_unpack _).
  - destruct n as [|i|i j]; cbn [demo_child addr root mids leaves] in Hn; [|by rewrite lookup_empty in Hn..].
    injection Hn as <-. destruct Hp as [Hp|[Hp|[Hp|Hp]]]; by vm_compute in Hp.
  - cbn [demo_child L] in He. by rewrite lookup_empty in He.
Qed.

Lemma uvmcopy_copies_witness :
  ∃ r w' F' Tn', uvmcopy (root demo_tree) (root demo_child) 100 demo_world = Some (r, w') ∧
    vm_inv w' F' demo_tree ∧ vm_inv w' F' Tn' ∧ owns F' Tn' demo_user ∧ apart demo_user F' demo_tree Tn' ∧
    (∀ p, holds demo_user demo_tree p → words w' !! p = words demo_world !! p) ∧
    (∀ p, pages_of demo_user F' Tn' p ↔ pages_of demo_user demo_F demo_child p) ∧
    ((r = 0 ∧ (∀ n, 0 ≤ n < PGROUNDUP 100 / PGSIZE → copied demo_world demo_F demo_tree w' Tn' n) ∧
      ∀ n, ¬ (0 ≤ n < PGROUNDUP 100 / PGSIZE) → L Tn' !! n = L demo_child !! n) ∨
     (r = -1 ∧ ∀ n, L Tn' !! n = L demo_child !! n)).
Proof.
  apply (uvmcopy_copies demo_user demo_world demo_F demo_tree demo_child 100);
    [exact demo_inv|exact demo_owns|exact demo_child_inv|exact demo_child_owns|exact demo_apart| |by vm_compute| |].
  - intros p (n & e & _ & He & ->). cbn [demo_tree L] in He. apply lookup_singleton_Some in He as [<- <-].
    exists (replicate 512 7). by vm_compute.
  - change (PGROUNDUP 100 / PGSIZE) with 1. unfold demo_user. lia.
  - intros n _. cbn [demo_child L]. apply lookup_empty.
Defined.
