(* ===== verification/VmBytes.v ===== *)
(** Moving bytes between the kernel and user memory: [copyout], [copyin] and
    [copyinstr] of [xv6/kernel/vm.c].

    A page is 512 words, little-endian; a kernel buffer is a list of bytes. *)
From S2P Require Import Prelude Kalloc Proc Vm.

(** ** Bytes of a page *)

Definition get_byte (ws : list Z) (o : Z) : Z :=
  Z.land (Z.shiftr (default 0 (ws !! Z.to_nat (o / 8))) (8 * (o mod 8))) 255.
Definition set_byte (ws : list Z) (o b : Z) : list Z :=
  let v := default 0 (ws !! Z.to_nat (o / 8)) in
  <[Z.to_nat (o / 8) := Z.lor (Z.ldiff v (Z.shiftl 255 (8 * (o mod 8)))) (Z.shiftl (Z.land b 255) (8 * (o mod 8)))]> ws.
Fixpoint set_bytes (ws : list Z) (o : Z) (bs : list Z) : list Z :=
  match bs with [] => ws | b :: bs => set_bytes (set_byte ws o b) (o + 1) bs end.
(** The [n] bytes from [o] on. *)
Definition get_bytes (ws : list Z) (o : Z) (n : nat) : list Z := (λ k, get_byte ws (o + Z.of_nat k)) <$> seq 0 n.

Section code.
Context {A : Type} `{PageAlloc A}.
Abbreviation vm := (M (vworld A)).

(** [memmove] between a kernel buffer and the page at [pa0], from [off] on. *)
Definition store_bytes (pa0 off : Z) (bs : list Z) : vm unit := λ w,
  match words w !! pa0 with
  | Some ws => set_page_words pa0 (set_bytes ws off bs) w
  | None => None
  end.
Definition load_bytes (pa0 off : Z) (n : nat) : vm (list Z) := λ w,
  match words w !! pa0 with
  | Some ws => Some (get_bytes ws off n, w)
  | None => None
  end.

(** [walkaddr], and [vmfault] when it gives nothing. *)
Definition fetch_page (pagetable psz va0 : Z) : vm Z :=
  pa0 ← walkaddr pagetable va0;
  if pa0 =? 0 then vmfault pagetable psz va0 else mret pa0.

(** [copyout]; [src] holds the bytes that are left, and each turn of the loop
    but the last fills a page. *)
Fixpoint copyout (fuel : nat) (pagetable psz dstva : Z) (src : list Z) : vm Z :=
  match fuel with
  | O => stuck
  | S fuel =>
    match src with
    | [] => mret 0
    | _ =>
      let va0 := PGROUNDDOWN dstva in
      if MAXVA <=? va0 then mret (-1)
      else
        pa0 ← fetch_page pagetable psz va0;
        if pa0 =? 0 then mret (-1)
        else
          o ← walk pagetable va0 false;
          match o with
          | None => stuck
          | Some (p, k) =>
            pte ← load p k;
            if negb (Z.testbit pte 2) then mret (-1)
            else
              let n := Nat.min (Z.to_nat (PGSIZE - (dstva - va0))) (length src) in
              store_bytes pa0 (dstva - va0) (take n src);;
              copyout fuel pagetable psz (u64 (va0 + PGSIZE)) (drop n src)
          end
    end
  end.

(** [copyin]; the result is the status and the bytes written to [dst]. *)
Fixpoint copyin (fuel : nat) (pagetable psz srcva : Z) (len : nat) : vm (Z * list Z) :=
  match fuel with
  | O => stuck
  | S fuel =>
    match len with
    | O => mret (0, [])
    | _ =>
      let va0 := PGROUNDDOWN srcva in
      pa0 ← fetch_page pagetable psz va0;
      if pa0 =? 0 then mret (-1, [])
      else
        let n := Nat.min (Z.to_nat (PGSIZE - (srcva - va0))) len in
        bs ← load_bytes pa0 (srcva - va0) n;
        r ← copyin fuel pagetable psz (u64 (va0 + PGSIZE)) (len - n);
        mret (r.1, bs ++ r.2)
    end
  end.

(** The inner loop of [copyinstr]: bytes up to a NUL, which is included, and
    whether it was found. *)
Fixpoint upto_nul (bs : list Z) : list Z * bool :=
  match bs with
  | [] => ([], false)
  | b :: bs => if b =? 0 then ([0], true) else let '(r, g) := upto_nul bs in (b :: r, g)
  end.
Fixpoint copyinstr (fuel : nat) (pagetable psz srcva : Z) (max : nat) : vm (Z * list Z) :=
  match fuel with
  | O => stuck
  | S fuel =>
    match max with
    | O => mret (-1, [])
    | _ =>
      let va0 := PGROUNDDOWN srcva in
      pa0 ← fetch_page pagetable psz va0;
      if pa0 =? 0 then mret (-1, [])
      else
        let n := Nat.min (Z.to_nat (PGSIZE - (srcva - va0))) max in
        bs ← load_bytes pa0 (srcva - va0) n;
        let '(r, got_null) := upto_nul bs in
        if got_null : bool then mret (0, r)
        else
          s ← copyinstr fuel pagetable psz (u64 (va0 + PGSIZE)) (max - n);
          mret (s.1, r ++ s.2)
    end
  end.
End code.

(** ** Lemmas on bytes *)

Lemma byte_bits v o i :
  0 ≤ o → Z.testbit (Z.land (Z.shiftr v (8 * (o mod 8))) 255) i =
    (bool_decide (0 ≤ i < 8) && Z.testbit v (i + 8 * (o mod 8))).
Proof.
  intros Ho. destruct (decide (0 ≤ i)) as [Hi|Hi].
  2:{ rewrite bool_decide_false by lia. apply Z.testbit_neg_r. lia. }
  pose proof (Z.mod_pos_bound o 8 ltac:(lia)). rewrite Z.land_spec, Z.shiftr_spec by lia.
  change 255 with (Z.ones 8). rewrite andb_comm. f_equal.
  destruct (decide (i < 8)); [rewrite Z.ones_spec_low, bool_decide_true by lia; done|].
  by rewrite Z.ones_spec_high, bool_decide_false by lia.
Qed.

Lemma mask_bits s j : 0 ≤ s → 0 ≤ j → Z.testbit (Z.shiftl 255 s) j = bool_decide (s ≤ j < s + 8).
Proof.
  intros Hs Hj. rewrite Z.shiftl_spec by lia. change 255 with (Z.ones 8). destruct (decide (s ≤ j)).
  - destruct (decide (j < s + 8)); [rewrite Z.ones_spec_low, bool_decide_true by lia; done|].
    by rewrite Z.ones_spec_high, bool_decide_false by lia.
  - by rewrite Z.testbit_neg_r, bool_decide_false by lia.
Qed.

Lemma get_set_byte ws o o' b :
  0 ≤ o → 0 ≤ o' → (Z.to_nat (o / 8) < length ws)%nat →
  get_byte (set_byte ws o b) o' = if decide (o' = o) then Z.land b 255 else get_byte ws o'.
Proof.
  intros Ho Ho' Hlen. unfold get_byte at 1, set_byte.
  pose proof (Z.div_mod o 8 ltac:(lia)) as Ed. pose proof (Z.mod_pos_bound o 8 ltac:(lia)).
  pose proof (Z.div_mod o' 8 ltac:(lia)) as Ed'. pose proof (Z.mod_pos_bound o' 8 ltac:(lia)).
  pose proof (Z.div_pos o 8 Ho ltac:(lia)). pose proof (Z.div_pos o' 8 Ho' ltac:(lia)).
  destruct (decide (o' / 8 = o / 8)) as [E|Hne].
  2:{ rewrite list_lookup_insert_ne, decide_False; [done|congruence|]. intros ?%Z2Nat.inj; lia. }
  rewrite E, list_lookup_insert_eq by done. unfold default, id at 1.
  set (v := default 0 (ws !! Z.to_nat (o / 8))).
  assert (get_byte ws o' = Z.land (Z.shiftr v (8 * (o' mod 8))) 255) as -> by (unfold get_byte, v; by rewrite E).
  apply Z.bits_inj'. intros i Hi. rewrite byte_bits by done.
  destruct (decide (i < 8)) as [H8|H8].
  - rewrite bool_decide_true by lia. rewrite Z.lor_spec, Z.ldiff_spec, mask_bits by lia. cbn [andb].
    rewrite Z.shiftl_spec by lia. destruct (decide (o' = o)) as [->|Hoo].
    + rewrite bool_decide_true by lia. cbn [negb]. rewrite andb_false_r. cbn [orb]. f_equal. lia.
    + rewrite byte_bits, (bool_decide_true (0 ≤ i < 8)) by (done || lia). cbn [andb].
      rewrite bool_decide_false by lia. cbn [negb]. rewrite andb_true_r.
      destruct (decide (8 * (o mod 8) ≤ i + 8 * (o' mod 8))).
      * rewrite Z.land_spec. change 255 with (Z.ones 8). rewrite Z.ones_spec_high by lia.
        by rewrite andb_false_r, orb_false_r.
      * rewrite (Z.testbit_neg_r (Z.land b 255)), orb_false_r by lia. done.
  - rewrite bool_decide_false by lia. cbn [andb]. destruct (decide (o' = o)) as [->|Hoo].
    + rewrite Z.land_spec. change 255 with (Z.ones 8). rewrite Z.ones_spec_high by lia. by rewrite andb_false_r.
    + by rewrite byte_bits, bool_decide_false by (done || lia).
Qed.

Lemma set_byte_length ws o b : length (set_byte ws o b) = length ws.
Proof. apply length_insert. Qed.

Definition is_byte (b : Z) : Prop := 0 ≤ b < 256.
Lemma land_byte b : is_byte b → Z.land b 255 = b.
Proof. unfold is_byte. intros. change 255 with (Z.ones 8). rewrite Z.land_ones by lia. by apply Z.mod_small. Qed.

(** The bytes of a page after writing [bs] at [o]. *)
Lemma get_set_bytes bs ws o o' :
  0 ≤ o → 0 ≤ o' → o + Z.of_nat (length bs) ≤ 8 * Z.of_nat (length ws) → Forall is_byte bs →
  length (set_bytes ws o bs) = length ws ∧
  get_byte (set_bytes ws o bs) o' =
    if decide (o ≤ o' < o + Z.of_nat (length bs)) then default 0 (bs !! Z.to_nat (o' - o)) else get_byte ws o'.
Proof.
  revert ws o. induction bs as [|b bs IH]; intros ws o Ho Ho' Hlen Hb; cbn [set_bytes length] in *.
  { by rewrite decide_False by lia. }
  apply Forall_cons in Hb as [Hb Hbs].
  destruct (IH (set_byte ws o b) (o + 1)) as [Hl Hg]; [lia|lia|rewrite set_byte_length; lia|done|].
  rewrite set_byte_length in Hl. split; [done|]. rewrite Hg, get_set_byte; [|lia|lia|].
  2:{ apply Nat2Z.inj_lt. rewrite Z2Nat.id by (apply Z.div_pos; lia). apply Z.div_lt_upper_bound; lia. }
  destruct (decide (o' = o)) as [->|Hne].
  - rewrite decide_False, (decide_True (P := o ≤ o < _)) by lia. rewrite land_byte by done.
    by replace (Z.to_nat (o - o)) with 0%nat by lia.
  - destruct (decide (o + 1 ≤ o' < o + 1 + Z.of_nat (length bs))).
    + rewrite decide_True by lia. by replace (Z.to_nat (o' - o)) with (S (Z.to_nat (o' - (o + 1)))) by lia.
    + by rewrite decide_False by lia.
Qed.

Lemma get_bytes_lookup ws o n k : (k < n)%nat → get_bytes ws o n !! k = Some (get_byte ws (o + Z.of_nat k)).
Proof. intros Hk. unfold get_bytes. by rewrite list_lookup_fmap, lookup_seq_lt by done. Qed.
