(* ===== verification/VmCopyio.v ===== *)
(** [copyout], [copyin] and [copyinstr] work on the user's view of memory: the
    bytes of the pages it may access, and zeros where a page that it was
    promised has not been allocated yet. Lazy allocation does not show. *)
From S2P Require Import Prelude Kalloc Proc Vm VmSpec VmUser VmAlloc VmKmem VmBytes.

Lemma PGROUNDDOWN_spec a : 0 ≤ a → PGROUNDDOWN a = a / PGSIZE * PGSIZE.
Proof.
  intros Ha. unfold PGROUNDDOWN, PGSIZE. replace (4096 - 1) with (Z.ones 12) by reflexivity.
  rewrite <-Z.ldiff_land, Z.ldiff_ones_r, Z.shiftr_div_pow2, Z.shiftl_mul_pow2 by lia. done.
Qed.

Section view.
Context {A : Type} `{PageAlloc A}.
Implicit Types (w : vworld A) (T : tree) (F : gset Z).
(** The first page number above user memory, and the size of the process. *)
Context (lim psz : Z) (Hpsz : 0 ≤ psz ≤ lim * PGSIZE) (Hlim : lim * PGSIZE ≤ MAXVA).

Definition user_page_no (n : Z) : Prop := 0 ≤ n < lim.

(** What is needed of an address space: the pages of user memory are its own
    and are there, and only they are accessible to the user. *)
Record user_inv w F T : Prop := {
  ui_inv : vm_inv w F T;
  ui_owns : owns F T user_page_no;
  ui_words : ∀ n e, user_page_no n → L T !! n = Some e → ∃ ws, words w !! PTE2PA e = Some ws ∧ length ws = 512%nat;
  ui_kernel : ∀ n e, ¬ user_page_no n → L T !! n = Some e → Z.testbit e 0 && Z.testbit e 4 = false;
}.

(** The byte the user sees at [va]. *)
Definition view w T (va : Z) : option Z :=
  if decide (user_page_no (va / PGSIZE)) then
    match L T !! (va / PGSIZE) with
    | Some e => if Z.testbit e 4 then (λ ws, get_byte ws (va mod PGSIZE)) <$> words w !! PTE2PA e else None
    | None => if decide (va / PGSIZE * PGSIZE < psz) then Some 0 else None
    end
  else None.

(** A page with all entries zero holds zero bytes. *)
Lemma get_byte_zero o : get_byte (replicate 512 0) o = 0.
Proof.
  unfold get_byte. destruct (replicate 512 0 !! Z.to_nat (o / 8)) as [v|] eqn:E.
  - apply lookup_replicate in E as [-> _]. unfold default, id. by rewrite Z.shiftr_0_l.
  - cbn [default]. by rewrite Z.shiftr_0_l.
Qed.

(** [walkaddr] on a page-aligned address. *)
Lemma walkaddr_spec w F T va :
  user_inv w F T → 0 ≤ va →
  walkaddr (root T) va w = Some
    (match L T !! (va / PGSIZE) with
     | Some e => if decide (va < MAXVA ∧ user_page_no (va / PGSIZE)) then (if Z.testbit e 4 then PTE2PA e else 0) else 0
     | None => 0
     end, w).
Proof.
  intros [Hinv Hown Hws Hk] Hva. unfold walkaddr. destruct (decide (va < MAXVA)) as [Hlt|Hge].
  2:{ rewrite (proj2 (Z.leb_le _ _)) by lia. destruct (L T !! _); [|done]. by rewrite decide_False by tauto. }
  rewrite (proj2 (Z.leb_gt _ _)) by lia. pose proof (walk_entry w F T va Hinv ltac:(lia)) as Hw.
  destruct (leaves T !! (PX 2 va, PX 1 va)) as [p|]; destruct Hw as [Ew El]; rewrite (bind_eq _ _ _ _ _ Ew).
  2:{ by rewrite El. }
  rewrite (bind_eq _ _ _ _ _ El). destruct (L T !! (va / PGSIZE)) as [e|] eqn:Ee; [|done].
  change (default 0 (Some e)) with e. destruct (decide (user_page_no (va / PGSIZE))) as [Hu|Hu].
  - rewrite decide_True by done. rewrite (ow_bit _ _ _ Hown _ _ Hu Ee). cbn [negb]. by destruct (Z.testbit e 4).
  - rewrite decide_False by tauto. pose proof (Hk _ _ Hu Ee) as Hb.
    by destruct (Z.testbit e 0), (Z.testbit e 4).
Qed.

(** ** Faulting a page in *)

Definition fault_perm : Z := Z.lor (Z.lor PTE_W PTE_U) PTE_R.

Lemma leaf_pte_bit p perm i : 0 < i < 10 → 0 ≤ perm → Z.testbit (leaf_pte p perm) i = Z.testbit perm i.
Proof.
  intros Hi Hp. unfold leaf_pte. rewrite <-Z.lor_assoc, pte_bit by (lia || (apply Z.lor_nonneg; unfold PTE_V; lia)).
  rewrite Z.lor_spec. unfold PTE_V. change 1 with (2 ^ 0). rewrite Z.pow2_bits_false by lia. apply orb_false_r.
Qed.

(** The contents of the pages that were mapped stay. *)
Definition keeps_words w T w' : Prop :=
  ∀ n e, user_page_no n → L T !! n = Some e → words w' !! PTE2PA e = words w !! PTE2PA e.

Lemma accounts_keeps w F T w' F' T' :
  user_inv w F T → accounts user_page_no (λ _, False) w F T w' F' T' → keeps_words w T w'.
Proof.
  intros [_ Hown _ _] Hac n e Hn He. apply (ac_frame _ _ _ _ _ _ _ _ Hac).
  - by apply (ow_valid _ _ _ Hown n e).
  - intros m. by apply (ow_tree _ _ _ Hown n e m).
  - by intros (? & ? & [] & _).
Qed.

Lemma user_inv_same w F T w' F' T' :
  user_inv w F T → vm_inv w' F' T' → owns F' T' user_page_no → keeps_words w T w' → L T' = L T → user_inv w' F' T'.
Proof.
  intros [_ _ Hw Hk] Hinv' Hown' Hkeep HL. split; [done|done| |]; rewrite HL; [|done].
  intros n e Hn He. rewrite (Hkeep n e Hn He). by apply (Hw n e).
Qed.

Lemma vmfault_spec w F T va0 :
  user_inv w F T → 0 ≤ va0 → va0 mod PGSIZE = 0 →
  ∃ r w' F' T', vmfault (root T) psz va0 w = Some (r, w') ∧ user_inv w' F' T' ∧ root T' = root T ∧
    accounts user_page_no (λ _, False) w F T w' F' T' ∧
    ((r = 0 ∧ L T' = L T) ∨
     (r ≠ 0 ∧ va0 < psz ∧ L T !! (va0 / PGSIZE) = None ∧ words w' !! r = Some (replicate 512 0) ∧
      pa_valid r ∧ L T' = <[va0 / PGSIZE := leaf_pte r fault_perm]> (L T))).
Proof.
  intros Hui Hva Hal. pose proof Hui as [Hinv Hown Hw Hk].
  assert (∃ r w' F' T', Some (0, w) = Some (r, w') ∧ user_inv w' F' T' ∧ root T' = root T ∧ accounts user_page_no (λ _, False) w F T w' F' T' ∧
    ((r = 0 ∧ L T' = L T) ∨ (r ≠ 0 ∧ va0 < psz ∧ L T !! (va0 / PGSIZE) = None ∧
      words w' !! r = Some (replicate 512 0) ∧ pa_valid r ∧ L T' = <[va0 / PGSIZE := leaf_pte r fault_perm]> (L T)))) as Hsame.
  { exists 0, w, F, T. split_and!; [done|done|done|apply accounts_refl|by left]. }
  unfold vmfault. destruct (decide (psz ≤ va0)) as [Hge|Hlt].
  { by rewrite (proj2 (Z.leb_le _ _) Hge). }
  rewrite (proj2 (Z.leb_gt _ _)), PGROUNDDOWN_spec by lia.
  replace (va0 / PGSIZE * PGSIZE) with va0 by (pose proof (Z.div_mod va0 PGSIZE ltac:(done)); lia).
  assert (user_page_no (va0 / PGSIZE)) as Hu.
  { split; [apply Z.div_pos; [lia|done]|]. apply Z.div_lt_upper_bound; [done|lia]. }
  assert (va0 + PGSIZE ≤ MAXVA) as Hmax.
  { pose proof (Z.div_mod va0 PGSIZE ltac:(done)). destruct Hu. unfold PGSIZE in *. lia. }
  assert (ismapped (root T) va0 w = Some (bool_decide (is_Some (L T !! (va0 / PGSIZE))), w)) as Em.
  { unfold ismapped. pose proof (walk_entry w F T va0 Hinv ltac:(unfold PGSIZE in *; lia)) as Hwk.
    destruct (leaves T !! (PX 2 va0, PX 1 va0)) as [p|]; destruct Hwk as [Ew El]; rewrite (bind_eq _ _ _ _ _ Ew).
    2:{ by rewrite El. }
    rewrite (bind_eq _ _ _ _ _ El). destruct (L T !! (va0 / PGSIZE)) as [e|] eqn:Ee.
    - change (default 0 (Some e)) with e. by rewrite (ow_bit _ _ _ Hown _ _ Hu Ee).
    - change (default 0 None) with 0. by rewrite Z.bits_0. }
  rewrite (bind_eq _ _ _ _ _ Em). destruct (L T !! (va0 / PGSIZE)) as [e|] eqn:Ee; [done|].
  change (bool_decide (is_Some None)) with false. cbn iota.
  destruct (user_page user_page_no w F T va0 fault_perm (replicate 512 0))
    as [[-> E]|(mem & w1 & r & w2 & HmF & Hm0 & E & E2 & Hres)]; [done|done|done|done|done|done|done|done| |].
  { by rewrite (bind_eq _ _ _ _ _ E). }
  rewrite (bind_eq _ _ _ _ _ E), (proj2 (Z.eqb_neq _ _) Hm0). unfold clear_page. rewrite <-bind_assoc.
  rewrite (bind_eq _ _ _ _ _ E2).
  destruct Hres as [(-> & Hz & F1 & T1 & Hinv1 & Hown1 & Hac1 & HL1)|(-> & w3 & F1 & T1 & E3 & Hinv1 & Hown1 & Hac1 & HL1)].
  2:{ change (-1 =? 0) with false. cbn iota. rewrite (bind_eq _ _ _ _ _ E3).
      pose proof (accounts_keeps _ _ _ _ _ _ Hui Hac1) as Hkw.
      exists 0, w3, F1, T1. split_and!; [done| |apply (ac_root _ _ _ _ _ _ _ _ Hac1)|done|by left].
      by eapply user_inv_same. }
  change (0 =? 0) with true. cbn iota. exists mem, w2, F1, T1.
  pose proof (accounts_keeps _ _ _ _ _ _ Hui Hac1) as Hkw.
  pose proof (pa_ok_valid _ _ _ (vi_alloc _ _ _ Hinv) HmF) as Hv. destruct (pa_valid_range mem Hv) as [Hr Hma].
  destruct (leaf_pte_parts mem fault_perm Hma ltac:(lia) ltac:(done)) as (_ & Hpa & _).
  split_and!; [done| |apply (ac_root _ _ _ _ _ _ _ _ Hac1)|done|by right; split_and!; try done; lia].
  split; [done|done| |]; rewrite HL1.
  - intros n e Hn [[<- <-]|[_ He]]%lookup_insert_Some.
    + rewrite Hpa. eexists. split; [done|]. by rewrite length_replicate.
    + rewrite (Hkw n e Hn He). by apply (Hw n e).
  - intros n e Hn [[<- <-]|[_ He]]%lookup_insert_Some; [done|by eapply Hk].
Qed.

(** What allocating pages lazily may do: pages move from the free ones to the
    tables and to mappings below the size of the process. *)
Record faulted w F T w' F' T' : Prop := {
  fa_acc : accounts user_page_no (λ _, False) w F T w' F' T';
  fa_old : ∀ n e, L T !! n = Some e → L T' !! n = Some e;
  fa_new : ∀ n e, L T' !! n = Some e → L T !! n = Some e ∨ user_page_no n ∧ n * PGSIZE < psz;
}.
Lemma faulted_refl w F T : faulted w F T w F T.
Proof. split; [apply accounts_refl|done|by left]. Qed.
Lemma faulted_trans w F T w1 F1 T1 w2 F2 T2 : faulted w F T w1 F1 T1 → faulted w1 F1 T1 w2 F2 T2 → faulted w F T w2 F2 T2.
Proof.
  intros [A1 O1 N1] [A2 O2 N2]. split; [|by auto|].
  - eapply accounts_trans; [done|done|]. by intros p (? & ? & [] & _).
  - intros n e [He| ?]%N2; [by apply N1|by right].
Qed.

(** The user may access the page that entry [e] maps at page number [n]. *)
Definition accessible T (n e : Z) : Prop := user_page_no n ∧ L T !! n = Some e ∧ Z.testbit e 4 = true.

Lemma view_same w T w' T' va : keeps_words w T w' → L T' = L T → view w' T' va = view w T va.
Proof.
  intros Hk HL. unfold view. rewrite HL. case_decide as Hu; [|done]. destruct (L T !! _) as [e|] eqn:Ee; [|done].
  destruct (Z.testbit e 4); [|done]. by rewrite (Hk _ _ Hu Ee).
Qed.

Lemma view_faulted w T w' T' r va n0 :
  keeps_words w T w' → L T !! n0 = None → n0 * PGSIZE < psz → words w' !! r = Some (replicate 512 0) → pa_valid r →
  L T' = <[n0 := leaf_pte r fault_perm]> (L T) → view w' T' va = view w T va.
Proof.
  intros Hk Hn0 Hlt Hz Hv HL. destruct (pa_valid_range r Hv) as [Hr Hma].
  destruct (leaf_pte_parts r fault_perm Hma ltac:(lia) ltac:(done)) as (_ & Hpa & _).
  unfold view. rewrite HL. case_decide as Hu; [|done]. destruct (decide (va / PGSIZE = n0)) as [E|Hne].
  - rewrite E, lookup_insert_eq, Hn0, (decide_True (P := n0 * PGSIZE < psz)) by done.
    rewrite leaf_pte_bit by done. change (Z.testbit fault_perm 4) with true. cbn iota. rewrite Hpa, Hz. cbn [fmap option_fmap option_map]. by rewrite get_byte_zero.
  - rewrite lookup_insert_ne by done. destruct (L T !! (va / PGSIZE)) as [e|] eqn:Ee; [|done].
    destruct (Z.testbit e 4); [|done]. by rewrite (Hk _ _ Hu Ee).
Qed.

Lemma fetch_page_spec w F T va0 :
  user_inv w F T → 0 ≤ va0 → va0 mod PGSIZE = 0 →
  ∃ r w' F' T', fetch_page (root T) psz va0 w = Some (r, w') ∧ user_inv w' F' T' ∧ root T' = root T ∧
    (∀ va, view w' T' va = view w T va) ∧ faulted w F T w' F' T' ∧
    ((r = 0 ∧ ∀ e, ¬ accessible T (va0 / PGSIZE) e) ∨
     (r ≠ 0 ∧ va0 < MAXVA ∧ ∃ e, accessible T' (va0 / PGSIZE) e ∧ PTE2PA e = r)).
Proof.
  intros Hui Hva Hal. pose proof Hui as [Hinv Hown Hw Hk]. unfold fetch_page.
  rewrite (bind_eq _ _ _ _ _ (walkaddr_spec w F T va0 Hui Hva)).
  assert (va0 / PGSIZE * PGSIZE = va0) as Hd by (pose proof (Z.div_mod va0 PGSIZE ltac:(done)); lia).
  assert (∀ e, accessible T (va0 / PGSIZE) e → PTE2PA e ≠ 0 ∧ va0 < MAXVA) as Hacc.
  { intros e (Hu & He & _). destruct (ow_valid _ _ _ Hown _ _ Hu He) as [Hv _]. destruct (pa_valid_range _ Hv).
    destruct Hu. unfold PGSIZE in *. lia. }
  assert ((∃ e, accessible T (va0 / PGSIZE) e) ∨
    ((∀ e, ¬ accessible T (va0 / PGSIZE) e) ∧
     match L T !! (va0 / PGSIZE) with
     | Some e => if decide (va0 < MAXVA ∧ user_page_no (va0 / PGSIZE)) then (if Z.testbit e 4 then PTE2PA e else 0) else 0
     | None => 0
     end = 0)) as [(e & Ha)|[Hno ->]].
  { destruct (L T !! (va0 / PGSIZE)) as [e|] eqn:Ee; [|right; split; [|done]; intros e (_ & ? & _); congruence].
    destruct (decide (user_page_no (va0 / PGSIZE))) as [Hu|Hu].
    - destruct (Z.testbit e 4) eqn:Eb; [left; by exists e|right]. split; [intros e' (_ & ? & ?); congruence|by case_decide].
    - right. split; [by intros e' (? & _)|]. by rewrite decide_False by tauto. }
  - pose proof Ha as (Hu & He & Hb). destruct (Hacc e Ha) as [Hp0 Hmx]. rewrite He, decide_True, Hb by done.
    rewrite (proj2 (Z.eqb_neq _ _) Hp0). exists (PTE2PA e), w, F, T. split_and!; try done; [apply faulted_refl|]. right. split_and!; [done|lia|by exists e].
  - change (0 =? 0) with true. cbn iota.
    destruct (vmfault_spec w F T va0 Hui Hva Hal) as (r & w' & F' & T' & E & Hui' & Hr & Hac & Hres).
    pose proof (accounts_keeps _ _ _ _ _ _ Hui Hac) as Hkw. exists r, w', F', T'. split_and!; [done|done|done| | |].
    + intros va. destruct Hres as [[-> HL]|(Hr0 & Hlt & Hn0 & Hz & Hv & HL)]; [by apply view_same|].
      eapply view_faulted; try done. lia.
    + split; [done| |]; intros n e He; destruct Hres as [[-> HL]|(Hr0 & Hlt & Hn0 & Hz & Hv & HL)]; rewrite ?HL in *; [done| |by left|].
      * rewrite lookup_insert_ne; [done|congruence].
      * apply lookup_insert_Some in He as [[<- _]|[_ He]]; [right|by left]. split; [|lia].
        split; [apply Z.div_pos; [lia|done]|]. apply Z.div_lt_upper_bound; [done|lia].
    + destruct Hres as [[-> HL]|(Hr0 & Hlt & Hn0 & Hz & Hv & HL)]; [by left|right]. split_and!; [done|lia|].
      destruct (pa_valid_range r Hv) as [Hrr Hma].
      destruct (leaf_pte_parts r fault_perm Hma ltac:(lia) ltac:(done)) as (_ & Hpa & _).
      exists (leaf_pte r fault_perm). split; [|done]. split_and!; [|by rewrite HL, lookup_insert_eq|by rewrite leaf_pte_bit].
      split; [apply Z.div_pos; [lia|done]|]. apply Z.div_lt_upper_bound; [done|lia].
Qed.

(** ** Writing and reading within a page *)

Lemma div_mod_in n o : 0 ≤ o < PGSIZE → (n * PGSIZE + o) / PGSIZE = n ∧ (n * PGSIZE + o) mod PGSIZE = o.
Proof.
  intros Ho. rewrite Z.div_add_l, Z.div_small, Z.add_0_r by (done || lia). split; [done|].
  rewrite Z.add_comm, Z.mod_add by done. by apply Z.mod_small.
Qed.

Lemma store_bytes_spec w F T n0 e off bs :
  user_inv w F T → accessible T n0 e → 0 ≤ off → off + Z.of_nat (length bs) ≤ PGSIZE → Forall is_byte bs →
  ∃ w', store_bytes (PTE2PA e) off bs w = Some ((), w') ∧ user_inv w' F T ∧
    ∀ va, view w' T va =
      if decide (n0 * PGSIZE + off ≤ va < n0 * PGSIZE + off + Z.of_nat (length bs))
      then bs !! Z.to_nat (va - (n0 * PGSIZE + off)) else view w T va.
Proof.
  intros Hui (Hu & He & Hb) Hoff Hlen Hbs. pose proof Hui as [Hinv Hown Hw Hk].
  destruct (Hw n0 e Hu He) as (ws & Hws & Hwl). set (p := PTE2PA e) in *.
  assert (∀ o, 0 ≤ o → length (set_bytes ws off bs) = length ws ∧ get_byte (set_bytes ws off bs) o =
    if decide (off ≤ o < off + Z.of_nat (length bs)) then default 0 (bs !! Z.to_nat (o - off)) else get_byte ws o) as Hget.
  { intros o Ho. apply get_set_bytes; [done|done| |done]. rewrite Hwl. unfold PGSIZE in *. lia. }
  eexists. split; [unfold store_bytes; by rewrite Hws|]. cbn [words].
  assert (∀ n e', user_page_no n → L T !! n = Some e' → PTE2PA e' = p → n = n0 ∧ e' = e) as Hinj.
  { intros n e' Hn He' E. assert (n = n0) as -> by by eapply (ow_inj _ _ _ Hown). split; congruence. }
  split.
  - split; [|done| |done]; cbn [words].
    + destruct Hinv as [Hok HT]. split; [done|]. destruct HT as [H1 H2 H3 H4 H5 H6]. split; try done.
      intros n q Hq. apply page_is_other; [|by apply H1]. intros ->. by apply (ow_tree _ _ _ Hown n0 e n).
    + intros n e' Hn He'. destruct (decide (PTE2PA e' = p)) as [E|Hne].
      * rewrite E, lookup_insert_eq. eexists. split; [done|]. destruct (Hget 0); [done|]. congruence.
      * rewrite lookup_insert_ne by done. by apply (Hw n e').
  - intros va. unfold view. cbn [words].
    pose proof (Z.div_mod va PGSIZE ltac:(done)) as Hd. pose proof (Z.mod_pos_bound va PGSIZE ltac:(done)) as Hm.
    destruct (decide (va / PGSIZE = n0)) as [E|Hne].
    + rewrite !E, decide_True by done. rewrite He, Hb. fold p. rewrite lookup_insert_eq, Hws. cbn [fmap option_fmap option_map].
      destruct (Hget (va mod PGSIZE)) as [_ ->]; [lia|]. rewrite E in Hd.
      destruct (decide (off ≤ va mod PGSIZE < off + Z.of_nat (length bs))) as [Hin|Hout].
      * rewrite decide_True by lia. replace (va - (n0 * PGSIZE + off)) with (va mod PGSIZE - off) by lia.
        destruct (lookup_lt_is_Some_2 bs (Z.to_nat (va mod PGSIZE - off))) as [b ->]; [lia|done].
      * rewrite decide_False by lia. by rewrite decide_True.
    + rewrite (decide_False (P := n0 * PGSIZE + off ≤ va < _)).
      2:{ intros Hin. apply Hne. replace va with (n0 * PGSIZE + (va - n0 * PGSIZE)) by lia. apply div_mod_in. lia. }
      case_decide as Hva; [|done]. destruct (L T !! (va / PGSIZE)) as [e'|] eqn:Ee; [|done].
      destruct (Z.testbit e' 4); [|done]. rewrite lookup_insert_ne; [done|]. intros Hp. symmetry in Hp.
      by destruct (Hinj _ _ Hva Ee Hp).
Qed.

Lemma load_bytes_spec w F T n0 e off n :
  user_inv w F T → accessible T n0 e → 0 ≤ off → off + Z.of_nat n ≤ PGSIZE →
  ∃ bs, load_bytes (PTE2PA e) off n w = Some (bs, w) ∧ length bs = n ∧
    ∀ k, (k < n)%nat → bs !! k = view w T (n0 * PGSIZE + off + Z.of_nat k).
Proof.
  intros [Hinv Hown Hw Hk] (Hu & He & Hb) Hoff Hn. destruct (Hw n0 e Hu He) as (ws & Hws & Hwl).
  exists (get_bytes ws off n). split_and!; [unfold load_bytes; by rewrite Hws|unfold get_bytes; by rewrite length_fmap, length_seq|].
  intros k Hkn. rewrite get_bytes_lookup by done.
  destruct (div_mod_in n0 (off + Z.of_nat k)) as [E1 E2]; [lia|]. rewrite Z.add_assoc in E1, E2.
  unfold view. rewrite E1, E2, decide_True, He, Hb, Hws by done. done.
Qed.

(** ** The loops *)

(** The user may write the byte at [va]. *)
Definition writable T (va : Z) : Prop := ∃ e, accessible T (va / PGSIZE) e ∧ Z.testbit e 2 = true.

(** The page of an address, and the offset in it. *)
Lemma page_split va : 0 ≤ va →
  PGROUNDDOWN va = va / PGSIZE * PGSIZE ∧ va - PGROUNDDOWN va = va mod PGSIZE ∧ 0 ≤ va mod PGSIZE < PGSIZE ∧
  PGROUNDDOWN va / PGSIZE = va / PGSIZE ∧ PGROUNDDOWN va mod PGSIZE = 0 ∧ 0 ≤ PGROUNDDOWN va.
Proof.
  intros Hva. rewrite PGROUNDDOWN_spec by done. pose proof (Z.div_mod va PGSIZE ltac:(done)).
  pose proof (Z.mod_pos_bound va PGSIZE ltac:(done)). pose proof (Z.div_pos va PGSIZE Hva ltac:(done)).
  rewrite Z.div_mul, Z.mod_mul by done. unfold PGSIZE in *. split_and!; try done; lia.
Qed.

Lemma copyout_S fuel pt dstva src :
  src ≠ [] →
  copyout (A := A) (S fuel) pt psz dstva src =
    (let va0 := PGROUNDDOWN dstva in
     if MAXVA <=? va0 then mret (-1)
     else
       pa0 ← fetch_page pt psz va0;
       if pa0 =? 0 then mret (-1)
       else
         o ← walk pt va0 false;
         match o with
         | None => stuck
         | Some (p, k) =>
           pte ← load p k;
           if negb (Z.testbit pte 2) then mret (-1)
           else
             let n := Nat.min (Z.to_nat (PGSIZE - (dstva - va0))) (length src) in
             store_bytes pa0 (dstva - va0) (take n src);;
             copyout fuel pt psz (u64 (va0 + PGSIZE)) (drop n src)
         end).
Proof. by destruct src. Qed.

(** Looking up the entry of a page that is mapped. *)
Lemma walk_mapped {B} w F T va0 e (g : option (Z * Z) → M (vworld A) B) (h : Z → M (vworld A) B) :
  vm_inv w F T → 0 ≤ va0 < MAXVA → L T !! (va0 / PGSIZE) = Some e →
  (∀ p k, g (Some (p, k)) = (load p k ≫= h)) → (walk (root T) va0 false ≫= g) w = h e w.
Proof.
  intros Hinv Hva He Hg. pose proof (walk_entry w F T va0 Hinv Hva) as Hw.
  destruct (leaves T !! (PX 2 va0, PX 1 va0)) as [p|]; destruct Hw as [Ew El]; rewrite (bind_eq _ _ _ _ _ Ew).
  - rewrite Hg, (bind_eq _ _ _ _ _ El), He. done.
  - congruence.
Qed.

(** The first [k] bytes of [src] have been written from [dstva] on and nothing
    else that the user sees has changed; [r] tells whether all were written. *)
Definition wrote w T w' T' (dstva : Z) (src : list Z) (k : nat) (r : Z) : Prop :=
  (k ≤ length src)%nat ∧
  (∀ va, view w' T' va =
     if decide (dstva ≤ va < dstva + Z.of_nat k) then src !! Z.to_nat (va - dstva) else view w T va) ∧
  ((r = 0 ∧ k = length src) ∨
   (r = -1 ∧ ∃ i, (i < length src)%nat ∧ ¬ writable T (dstva + Z.of_nat i))).

Lemma wrote_nothing w T w' T' dstva src :
  (0 < length src)%nat → (∀ va, view w' T' va = view w T va) → ¬ writable T dstva → wrote w T w' T' dstva src 0 (-1).
Proof.
  intros Hpos Hv Hnw. split_and!; [lia| |].
  - intros va. by rewrite decide_False by lia.
  - right. split; [done|]. exists 0%nat. split; [lia|]. by rewrite Z.add_0_r.
Qed.

Lemma wrote_cons w T w1 T1 w2 w' T' dstva next src n k r :
  (∀ va, view w1 T1 va = view w T va) → (∀ m e, L T !! m = Some e → L T1 !! m = Some e) →
  (n ≤ length src)%nat → (n = length src ∨ next = dstva + Z.of_nat n) →
  (∀ va, view w2 T1 va = if decide (dstva ≤ va < dstva + Z.of_nat n)
                         then take n src !! Z.to_nat (va - dstva) else view w1 T1 va) →
  wrote w2 T1 w' T' next (drop n src) k r → wrote w T w' T' dstva src (n + k) r.
Proof.
  intros Hv1 Hex Hn Hnext Hv2 (Hk & Hv' & Hr). rewrite length_drop in Hk, Hr. split_and!; [lia| |].
  - intros va. rewrite Hv', Hv2, Hv1. destruct (decide (next ≤ va < next + Z.of_nat k)) as [Hin|Hout].
    + destruct Hnext as [->| ->]; [lia|]. rewrite decide_True by lia. rewrite lookup_drop. f_equal. lia.
    + destruct (decide (dstva ≤ va < dstva + Z.of_nat n)).
      * rewrite decide_True by lia. apply lookup_take_lt. lia.
      * rewrite decide_False; [done|]. destruct Hnext as [->| ->]; lia.
  - destruct Hr as [[-> ->]|(-> & i & Hi & Hnw)]; [left; split; [done|lia]|right]. split; [done|].
    exists (n + i)%nat. split; [lia|]. destruct Hnext as [->| ->]; [lia|]. intros (e & (Hu & He & Hb) & Hw). apply Hnw.
    exists e. rewrite <-Z.add_assoc, <-Nat2Z.inj_add. split; [|done]. split_and!; [done|by apply Hex|done].
Qed.

(** [copyout] writes the user's memory. When it returns 0 the bytes from
    [dstva] on are those of [src] and every other byte the user sees is what
    it was. When it returns -1 it has written a prefix, and some byte of the
    destination was not in a page the user could write already: it is outside
    its memory, protected or not allocated yet. Allocating a page lazily on the
    way is invisible. *)
Theorem copyout_writes fuel w F T dstva src :
  user_inv w F T → 0 ≤ dstva < 2 ^ 64 → Forall is_byte src → (length src < fuel)%nat →
  ∃ r k w' F' T', copyout fuel (root T) psz dstva src w = Some (r, w') ∧ user_inv w' F' T' ∧ root T' = root T ∧
    wrote w T w' T' dstva src k r.
Proof.
  revert w F T dstva src. induction fuel as [|fuel IH]; intros w F T dstva src Hui Hd Hbs Hfuel; [lia|].
  destruct (decide (src = [])) as [->|Hne].
  { exists 0, 0%nat, w, F, T. split_and!; try done. split_and!; [done| |by left]. intros va. by rewrite decide_False by (simpl; lia). }
  assert (0 < length src)%nat as Hpos by (destruct src; [done|simpl; lia]).
  rewrite copyout_S by done. cbv zeta.
  destruct (page_split dstva) as (H1 & H2 & H3 & H4 & H5 & H6); [lia|]. set (va0 := PGROUNDDOWN dstva) in *.
  destruct (decide (MAXVA ≤ va0)) as [Hge|Hlt].
  { rewrite (proj2 (Z.leb_le _ _) Hge). exists (-1), 0%nat, w, F, T. split_and!; try done.
    apply wrote_nothing; [done|done|]. intros (e & ((_ & Hu) & _) & _). rewrite <-H4 in Hu. unfold PGSIZE in *. lia. }
  rewrite (proj2 (Z.leb_gt _ _)) by lia.
  destruct (fetch_page_spec w F T va0 Hui H6 H5) as (pa & w1 & F1 & T1 & E1 & Hui1 & Hr1 & Hv1 & Hex1 & Hres).
  rewrite (bind_eq _ _ _ _ _ E1). destruct Hres as [[-> Hno]|(Hpa & _ & e & Hacc & Hpe)].
  { exists (-1), 0%nat, w1, F1, T1. split_and!; try done. apply wrote_nothing; [done|done|].
    intros (e & Hacc & _). rewrite <-H4 in Hacc. by apply (Hno e). }
  rewrite (proj2 (Z.eqb_neq _ _) Hpa), <-Hr1. pose proof Hacc as (Hu & He & Hb).
  erewrite (walk_mapped w1 F1 T1 va0 e); [|apply (ui_inv _ _ _ Hui1)|lia|done|reflexivity]. cbn beta.
  destruct (Z.testbit e 2) eqn:Ew; cbn [negb].
  2:{ exists (-1), 0%nat, w1, F1, T1. split_and!; try done. apply wrote_nothing; [done|done|].
      intros (e' & (_ & He' & _) & Hw'). apply (fa_old _ _ _ _ _ _ Hex1) in He'. rewrite <-H4 in He'. congruence. }
  rewrite H2. set (n := Nat.min (Z.to_nat (PGSIZE - dstva mod PGSIZE)) (length src)).
  destruct (store_bytes_spec w1 F1 T1 (va0 / PGSIZE) e (dstva mod PGSIZE) (take n src)) as (w2 & E2 & Hui2 & Hv2);
    [done|done|lia|rewrite length_take; lia|by apply Forall_take|].
  rewrite <-Hpe, (bind_eq _ _ _ _ _ E2).
  rewrite u64_id by (unfold MAXVA, PGSIZE in *; lia).
  destruct (IH w2 F1 T1 (va0 + PGSIZE) (drop n src)) as (r & k & w' & F' & T' & E' & Hui' & Hr' & Hwr);
    [done|unfold MAXVA, PGSIZE in *; lia|by apply Forall_drop|rewrite length_drop; lia|].
  exists r, (n + k)%nat, w', F', T'. split_and!; [done|done|congruence|].
  assert (va0 / PGSIZE * PGSIZE + dstva mod PGSIZE = dstva) as Ed by (rewrite H4; lia). rewrite Ed in Hv2.
  rewrite length_take_le in Hv2 by lia. eapply wrote_cons; [exact Hv1|exact (fa_old _ _ _ _ _ _ Hex1)|lia| |exact Hv2|exact Hwr]. lia.
Qed.

(** The user may read the byte at [va]. *)
Definition readable T (va : Z) : Prop := ∃ e, accessible T (va / PGSIZE) e.

(** [bs] are the bytes the user sees from [srcva] on. *)
Definition seen w T (srcva : Z) (bs : list Z) : Prop :=
  ∀ k, (k < length bs)%nat → bs !! k = view w T (srcva + Z.of_nat k).

Lemma seen_app w T srcva next bs bs' :
  (bs' ≠ [] → next = srcva + Z.of_nat (length bs)) → seen w T srcva bs → seen w T next bs' → seen w T srcva (bs ++ bs').
Proof.
  intros Hnext Hs Hs' k Hk. rewrite length_app in Hk. destruct (decide (k < length bs)%nat) as [Hlt|Hge].
  - rewrite lookup_app_l by done. by apply Hs.
  - rewrite lookup_app_r, Hs' by lia. f_equal. rewrite Hnext; [lia|]. intros ->. simpl in Hk. lia.
Qed.

(** One turn of the loops that read: a page is fetched and [n] bytes of it
    are taken. *)
Lemma read_turn {B} w F T srcva n (k : list Z → M (vworld A) B) (fail : B) :
  user_inv w F T → 0 ≤ srcva → Z.of_nat n ≤ PGSIZE - srcva mod PGSIZE →
  let va0 := PGROUNDDOWN srcva in
  let run := (pa0 ← fetch_page (root T) psz va0;
              if pa0 =? 0 then mret fail else bs ← load_bytes pa0 (srcva - va0) n; k bs) in
  ∃ w1 F1 T1, user_inv w1 F1 T1 ∧ root T1 = root T ∧ (∀ va, view w1 T1 va = view w T va) ∧
    faulted w F T w1 F1 T1 ∧
    ((run w = Some (fail, w1) ∧ ¬ readable T srcva) ∨
     (∃ bs, run w = k bs w1 ∧ length bs = n ∧ seen w T srcva bs ∧ va0 < MAXVA)).
Proof.
  intros Hui Hs Hn va0 run. destruct (page_split srcva Hs) as (H1 & H2 & H3 & H4 & H5 & H6). fold va0 in H1, H2, H4, H5, H6.
  destruct (fetch_page_spec w F T va0 Hui H6 H5) as (pa & w1 & F1 & T1 & E1 & Hui1 & Hr1 & Hv1 & Hex1 & Hres).
  exists w1, F1, T1. split_and!; try done. unfold run. rewrite (bind_eq _ _ _ _ _ E1).
  destruct Hres as [[-> Hno]|(Hpa & Hmx & e & Hacc & Hpe)]; [left|right].
  - split; [done|]. intros (e & Hacc). rewrite <-H4 in Hacc. by apply (Hno e).
  - rewrite (proj2 (Z.eqb_neq _ _) Hpa).
    destruct (load_bytes_spec w1 F1 T1 (va0 / PGSIZE) e (srcva - va0) n) as (bs & E2 & Hl & Hb); [done|done|lia|lia|].
    exists bs. split_and!; [by rewrite <-Hpe, (bind_eq _ _ _ _ _ E2)|done| |done].
    intros k' Hk. rewrite Hb, Hv1 by lia. f_equal. rewrite H4, <-H1. lia.
Qed.

Lemma readable_mono T T1 va : (∀ m e, L T !! m = Some e → L T1 !! m = Some e) → readable T va → readable T1 va.
Proof. intros Hex (e & Hu & He & Hb). exists e. split_and!; [done|by apply Hex|done]. Qed.

(** [copyin] reads the user's memory: the bytes it returns are those the
    user sees from [srcva] on, all [len] of them when it returns 0; when it
    returns -1, some byte asked for was not in a page the user could read
    already. What the user sees does not change. *)
Theorem copyin_reads fuel w F T srcva len :
  user_inv w F T → 0 ≤ srcva < 2 ^ 64 → (len < fuel)%nat →
  ∃ r bs w' F' T', copyin fuel (root T) psz srcva len w = Some ((r, bs), w') ∧ user_inv w' F' T' ∧ faulted w F T w' F' T' ∧ root T' = root T ∧
    (∀ va, view w' T' va = view w T va) ∧ seen w T srcva bs ∧
    ((r = 0 ∧ length bs = len) ∨
     (r = -1 ∧ (length bs ≤ len)%nat ∧ ∃ i, (i < len)%nat ∧ ¬ readable T (srcva + Z.of_nat i))).
Proof.
  revert w F T srcva len. induction fuel as [|fuel IH]; intros w F T srcva len Hui Hs Hfuel; [lia|].
  destruct len as [|len].
  { exists 0, [], w, F, T. split_and!; try done; [apply faulted_refl|intros k Hk; simpl in Hk; lia|by left]. }
  cbn [copyin]. destruct (page_split srcva) as (H1 & H2 & H3 & H4 & H5 & H6); [lia|].
  set (n := Nat.min (Z.to_nat (PGSIZE - (srcva - PGROUNDDOWN srcva))) (S len)).
  destruct (read_turn w F T srcva n (λ bs, r ← copyin fuel (root T) psz (u64 (PGROUNDDOWN srcva + PGSIZE)) (S len - n);
      mret (r.1, bs ++ r.2)) (-1, [])) as (w1 & F1 & T1 & Hui1 & Hr1 & Hv1 & Hex1 & Hres); [done|lia|lia|].
  destruct Hres as [[-> Hnr]|(bs & -> & Hl & Hseen & Hmx)].
  { exists (-1), [], w1, F1, T1. split_and!; try done; [intros k Hk; simpl in Hk; lia|right]. split_and!; [done|simpl; lia|].
    exists 0%nat. split; [lia|]. by rewrite Z.add_0_r. }
  rewrite u64_id by (unfold MAXVA, PGSIZE in *; lia).
  destruct (IH w1 F1 T1 (PGROUNDDOWN srcva + PGSIZE) (S len - n)%nat) as (r & bs' & w' & F' & T' & E' & Hui' & Hf' & Hr' & Hv' & Hseen' & Hres);
    [done|unfold MAXVA, PGSIZE in *; lia|lia|].
  rewrite Hr1 in E'. rewrite (bind_eq _ _ _ _ _ E').
  exists r, (bs ++ bs'), w', F', T'. split_and!; [done|done|by eapply faulted_trans|congruence|by intros; rewrite Hv'| |].
  - eapply (seen_app _ _ _ (PGROUNDDOWN srcva + PGSIZE)); [|done|].
    + intros Hne. assert (0 < length bs')%nat by (destruct bs'; [done|simpl; lia]).
      destruct Hres as [[_ ?]|(_ & ? & _)]; lia.
    + intros k Hk. rewrite <-Hv1. by apply Hseen'.
  - rewrite length_app. destruct Hres as [[-> ?]|(-> & ? & i & Hi & Hnr)]; [left; split; [done|lia]|right].
    split_and!; [done|lia|]. exists (n + i)%nat. split; [lia|]. intros Hrd. apply Hnr. eapply readable_mono; [exact (fa_old _ _ _ _ _ _ Hex1)|].
    replace (PGROUNDDOWN srcva + PGSIZE + Z.of_nat i) with (srcva + Z.of_nat (n + i)) by lia. done.
Qed.

Lemma upto_nul_spec bs :
  let '(r, g) := upto_nul bs in
  r `prefix_of` bs ∧ if g then ∃ s, r = s ++ [0] ∧ Forall (λ b, b ≠ 0) s else r = bs ∧ Forall (λ b, b ≠ 0) bs.
Proof.
  induction bs as [|b bs IH]; cbn [upto_nul]; [by split; [exists []|]|].
  destruct (b =? 0) eqn:Eb.
  - assert (b = 0) as -> by lia. split; [by exists bs|]. by exists [].
  - destruct (upto_nul bs) as [r g]. destruct IH as [Hp Hg]. split; [by apply prefix_cons|].
    destruct g; [destruct Hg as (s & -> & Hs); exists (b :: s); split; [done|]|destruct Hg as [-> Hs]; split; [done|]];
      constructor; (done || lia).
Qed.

Lemma seen_prefix w T srcva r bs : r `prefix_of` bs → seen w T srcva bs → seen w T srcva r.
Proof.
  intros [bs' ->] Hs k Hk. rewrite <-Hs by (rewrite length_app; lia). by rewrite lookup_app_l.
Qed.

(** What [copyinstr] returns: the bytes up to the first NUL; or no NUL is
    among the first [max] bytes, or before a byte the user could not read. *)
Lemma copyinstr_spec fuel w F T srcva max :
  user_inv w F T → 0 ≤ srcva < 2 ^ 64 → (max < fuel)%nat →
  ∃ r bs w' F' T', copyinstr fuel (root T) psz srcva max w = Some ((r, bs), w') ∧ user_inv w' F' T' ∧ faulted w F T w' F' T' ∧ root T' = root T ∧
    (∀ va, view w' T' va = view w T va) ∧ seen w T srcva bs ∧ (length bs ≤ max)%nat ∧
    ((r = 0 ∧ ∃ s, bs = s ++ [0] ∧ Forall (λ b, b ≠ 0) s) ∨
     (r = -1 ∧ Forall (λ b, b ≠ 0) bs ∧
      (length bs = max ∨ ∃ i, (i < max)%nat ∧ ¬ readable T (srcva + Z.of_nat i)))).
Proof.
  revert w F T srcva max. induction fuel as [|fuel IH]; intros w F T srcva max Hui Hs Hfuel; [lia|].
  destruct max as [|max].
  { exists (-1), [], w, F, T. split_and!; try done; [apply faulted_refl|intros k Hk; simpl in Hk; lia|right]. split_and!; [done|done|by left]. }
  cbn [copyinstr]. destruct (page_split srcva) as (H1 & H2 & H3 & H4 & H5 & H6); [lia|].
  set (n := Nat.min (Z.to_nat (PGSIZE - (srcva - PGROUNDDOWN srcva))) (S max)).
  destruct (read_turn w F T srcva n (λ bs, let '(r, got_null) := upto_nul bs in
      if got_null : bool then mret (0, r)
      else s ← copyinstr fuel (root T) psz (u64 (PGROUNDDOWN srcva + PGSIZE)) (S max - n);
      mret (s.1, r ++ s.2)) (-1, [])) as (w1 & F1 & T1 & Hui1 & Hr1 & Hv1 & Hex1 & Hres); [done|lia|lia|].
  destruct Hres as [[-> Hnr]|(bs & -> & Hl & Hseen & Hmx)].
  { exists (-1), [], w1, F1, T1. split_and!; try done; [intros k Hk; simpl in Hk; lia|simpl; lia|right]. split_and!; [done|done|].
    right. exists 0%nat. split; [lia|]. by rewrite Z.add_0_r. }
  pose proof (upto_nul_spec bs) as Hu. destruct (upto_nul bs) as [s g]. destruct Hu as [Hpre Hg].
  pose proof (prefix_length _ _ Hpre) as Hsl. pose proof (seen_prefix _ _ _ _ _ Hpre Hseen) as Hss. destruct g.
  { exists 0, s, w1, F1, T1. split_and!; try done; [lia|by left]. }
  destruct Hg as [-> Hnz]. rewrite u64_id by (unfold MAXVA, PGSIZE in *; lia).
  destruct (IH w1 F1 T1 (PGROUNDDOWN srcva + PGSIZE) (S max - n)%nat)
    as (r & bs' & w' & F' & T' & E' & Hui' & Hf' & Hr' & Hv' & Hseen' & Hl' & Hres); [done|unfold MAXVA, PGSIZE in *; lia|lia|].
  rewrite Hr1 in E'. rewrite (bind_eq _ _ _ _ _ E').
  exists r, (bs ++ bs'), w', F', T'. split_and!; [done|done|by eapply faulted_trans|congruence|by intros; rewrite Hv'| |rewrite length_app; lia|].
  - eapply (seen_app _ _ _ (PGROUNDDOWN srcva + PGSIZE)); [|done|].
    + intros Hne. assert (0 < length bs')%nat by (destruct bs'; [done|simpl; lia]). lia.
    + intros k Hk. rewrite <-Hv1. by apply Hseen'.
  - destruct Hres as [(-> & s & -> & Hs')|(-> & Hs' & Hm)]; [left|right]; (split; [done|]).
    + exists (bs ++ s). split; [by rewrite app_assoc|by apply Forall_app].
    + split; [by apply Forall_app|]. rewrite length_app. destruct Hm as [?|(i & Hi & Hnr)]; [left; lia|right].
      exists (n + i)%nat. split; [lia|]. intros Hrd. apply Hnr. eapply readable_mono; [exact (fa_old _ _ _ _ _ _ Hex1)|].
      replace (PGROUNDDOWN srcva + PGSIZE + Z.of_nat i) with (srcva + Z.of_nat (n + i)) by lia. done.
Qed.
End view.

(** ** Witnesses *)

Lemma demo_user_inv : user_inv 1000 demo_world demo_F demo_tree.
Proof.
  split; [exact demo_inv|exact demo_owns| |].
  - intros n e _. cbn [demo_tree L]. intros [<- <-]%lookup_singleton_Some. exists (replicate 512 7). by vm_compute.
  - intros n e Hn. cbn [demo_tree L]. intros [<- <-]%lookup_singleton_Some. destruct Hn. split; lia.
Qed.

(** Six bytes across the end of the first page, into one that is not allocated yet. *)
Lemma copyout_writes_witness :
  ∃ r k w' F' T', copyout 7 (root demo_tree) 8192 4093 [1; 2; 3; 4; 5; 6] demo_world = Some (r, w') ∧
    user_inv 1000 w' F' T' ∧ root T' = root demo_tree ∧
    wrote 1000 8192 demo_world demo_tree w' T' 4093 [1; 2; 3; 4; 5; 6] k r.
Proof.
  apply (copyout_writes 1000 8192 ltac:(by vm_compute) ltac:(by vm_compute) 7 demo_world demo_F demo_tree 4093);
    [exact demo_user_inv|lia|repeat constructor; by vm_compute|simpl; lia].
Defined.

Lemma copyin_reads_witness :
  ∃ r bs w' F' T', copyin 7 (root demo_tree) 8192 4093 6 demo_world = Some ((r, bs), w') ∧
    user_inv 1000 w' F' T' ∧ faulted 1000 8192 demo_world demo_F demo_tree w' F' T' ∧ root T' = root demo_tree ∧
    (∀ va, view 1000 8192 w' T' va = view 1000 8192 demo_world demo_tree va) ∧
    seen 1000 8192 demo_world demo_tree 4093 bs ∧
    ((r = 0 ∧ length bs = 6%nat) ∨
     (r = -1 ∧ (length bs ≤ 6)%nat ∧ ∃ i, (i < 6)%nat ∧ ¬ readable 1000 demo_tree (4093 + Z.of_nat i))).
Proof.
  apply (copyin_reads 1000 8192 ltac:(by vm_compute) ltac:(by vm_compute) 7 demo_world demo_F demo_tree 4093 6);
    [exact demo_user_inv|lia|lia].
Defined.

(** Writing and reading back. *)
Example copy_roundtrip_run :
  (λ x, x.1) <$> (r ← copyout 7 (root demo_tree) 8192 4093 [1; 2; 3; 4; 5; 6];
                  s ← copyin 9 (root demo_tree) 8192 4092 8; mret (r, s)) demo_world =
  Some (0, (0, [0; 1; 2; 3; 4; 5; 6; 0])).
Proof. by vm_compute. Qed.
