(* ===== verification/Grep.v ===== *)
(** [xv6/user/grep.c]: the pattern matcher and the loop over the input.

    Patterns and lines are lists of characters without the final NUL. The
    matcher is proved to decide the language of the pattern; the loop, which
    reads pieces of any size into a buffer of 1024 bytes, prints exactly the
    lines that match. *)
From S2P Require Import Prelude CLib.

(** ** The matcher *)

(** The loop of [matchstar]; [here] is [matchhere] on the rest of the pattern. *)
Fixpoint matchstar (here : list ascii → bool) (c : ascii) (text : list ascii) : bool :=
  here text ||
  match text with
  | [] => false
  | x :: t => ((x =c c) || (c =c ".")) && matchstar here c t
  end.

Fixpoint matchhere (re text : list ascii) : bool :=
  match re with
  | [] => true
  | c :: re1 =>
    let one := match text with
               | [] => false
               | x :: t => if (c =c ".") || (c =c x) then matchhere re1 t else false
               end in
    match re1 with
    | [] => if c =c "$" then match text with [] => true | _ => false end else one
    | d :: re2 => if d =c "*" then matchstar (matchhere re2) c text else one
    end
  end.

(** The loop of [match] over the suffixes of the text. *)
Fixpoint match_loop (re text : list ascii) : bool :=
  if matchhere re text then true
  else match text with [] => false | _ :: t => match_loop re t end.
Definition match_re (re text : list ascii) : bool :=
  match re with
  | [] => match_loop re text
  | c :: re1 => if c =c "^" then matchhere re1 text else match_loop re text
  end.

(** ** The language of a pattern *)

Inductive item := One (c : ascii) | Star (c : ascii).

(** A pattern as items, and whether it ends in [$]. *)
Fixpoint items (re : list ascii) : list item * bool :=
  match re with
  | [] => ([], false)
  | c :: re1 =>
    match re1 with
    | [] => if c =c "$" then ([], true) else ([One c], false)
    | d :: re2 => if d =c "*" then (Star c :: (items re2).1, (items re2).2)
                  else (One c :: (items re1).1, (items re1).2)
    end
  end.

Definition fits (c x : ascii) : Prop := c = "."%char ∨ c = x.

Inductive in_items : list item → list ascii → Prop :=
  | in_nil : in_items [] []
  | in_one c x r s : fits c x → in_items r s → in_items (One c :: r) (x :: s)
  | in_star_end c r s : in_items r s → in_items (Star c :: r) s
  | in_star_more c x r s : fits c x → in_items (Star c :: r) s → in_items (Star c :: r) (x :: s).

(** A prefix of the text is in the language, all of it if the pattern is anchored. *)
Definition prefix_in (p : list item * bool) (text : list ascii) : Prop :=
  ∃ mid post, text = mid ++ post ∧ in_items p.1 mid ∧ (p.2 = true → post = []).

Lemma fits_true c x : (c =c ".") || (c =c x) = true ↔ fits c x.
Proof. rewrite orb_true_iff, !ceq_true. done. Qed.

Lemma prefix_one c r b text :
  prefix_in (One c :: r, b) text ↔ ∃ x t, text = x :: t ∧ fits c x ∧ prefix_in (r, b) t.
Proof.
  split.
  - intros (mid & post & -> & Hin & Hb). inversion Hin; subst. exists x, (s ++ post). split_and!; try done. by exists s, post.
  - intros (x & t & -> & Hf & mid & post & -> & Hin & Hb). exists (x :: mid), post. split_and!; [done|by constructor|done].
Qed.

Lemma prefix_star c r b text :
  prefix_in (Star c :: r, b) text ↔
    prefix_in (r, b) text ∨ ∃ x t, text = x :: t ∧ fits c x ∧ prefix_in (Star c :: r, b) t.
Proof.
  split.
  - intros (mid & post & -> & Hin & Hb). inversion Hin; subst; [left; by exists mid, post|right].
    exists x, (s ++ post). split_and!; try done. by exists s, post.
  - intros [(mid & post & -> & Hin & Hb)|(x & t & -> & Hf & mid & post & -> & Hin & Hb)].
    + exists mid, post. split_and!; [done|by constructor|done].
    + exists (x :: mid), post. split_and!; [done|by constructor|done].
Qed.

Lemma matchstar_spec here r b c text :
  (∀ t, here t = true ↔ prefix_in (r, b) t) →
  matchstar here c text = true ↔ prefix_in (Star c :: r, b) text.
Proof.
  intros Hh. induction text as [|x t IH]; cbn [matchstar]; rewrite prefix_star, orb_true_iff, Hh.
  - split; [intros [?|?]; [by left|done]|intros [?|(? & ? & ? & _)]; [by left|done]].
  - rewrite andb_true_iff, IH.
    assert ((x =c c) || (c =c ".") = true ↔ fits c x) as Hf.
    { rewrite orb_true_iff, !ceq_true. unfold fits. split; intros [-> | ->]; auto. }
    rewrite Hf. split.
    + intros [?|[? ?]]; [by left|right]. by exists x, t.
    + intros [?|(x' & t' & [= <- <-] & ? & ?)]; [by left|by right].
Qed.

Lemma matchhere_spec re text : matchhere re text = true ↔ prefix_in (items re) text.
Proof.
  remember (length re) as n eqn:Hn. revert re text Hn.
  induction (lt_wf n) as [n _ IH]. intros re text ->.
  destruct re as [|c re1]; [split; [intros _; exists [], text; split_and!; [done|constructor|done]|done]|].
  assert (∀ t, matchhere re1 t = true ↔ prefix_in (items re1) t) as IH1.
  { intros t. eapply IH; [|done]. simpl. lia. }
  assert (match text with
          | [] => false
          | x :: t => if (c =c ".") || (c =c x) then matchhere re1 t else false
          end = true ↔ prefix_in (One c :: (items re1).1, (items re1).2) text) as Hone.
  { rewrite prefix_one. destruct text as [|x t]; [split; [done|by intros (? & ? & ? & _)]|].
    destruct ((c =c ".") || (c =c x)) eqn:Ef.
    - apply fits_true in Ef. rewrite IH1, (surjective_pairing (items re1)). split.
      + intros Hp. by exists x, t.
      + by intros (x' & t' & [= <- <-] & _ & Hp).
    - split; [done|]. intros (x' & t' & [= <- <-] & Hf & _). apply fits_true in Hf. congruence. }
  destruct re1 as [|d re2]; cbn [matchhere items] in *.
  - destruct (c =c "$") eqn:Ed; [|exact Hone]. destruct text as [|x t].
    + split; [intros _|done]. exists [], []. split_and!; [done|constructor|done].
    + split; [done|]. intros (mid & post & E & Hin & Hb). inversion Hin; subst. rewrite (Hb eq_refl) in E. done.
  - destruct (d =c "*") eqn:Es; [|exact Hone]. apply matchstar_spec. intros t. rewrite <-surjective_pairing.
    eapply IH; [|done]. simpl. lia.
Qed.

Lemma match_loop_spec re text :
  match_loop re text = true ↔ ∃ pre t, text = pre ++ t ∧ prefix_in (items re) t.
Proof.
  induction text as [|x text IH]; cbn [match_loop].
  - destruct (matchhere re []) eqn:E.
    + split; [intros _|done]. exists [], []. split; [done|by apply matchhere_spec].
    + split; [done|]. intros (pre & t & Ht & Hp). symmetry in Ht. apply app_eq_nil in Ht as [-> ->].
      apply matchhere_spec in Hp. congruence.
  - destruct (matchhere re (x :: text)) eqn:E.
    + split; [intros _|done]. exists [], (x :: text). split; [done|by apply matchhere_spec].
    + rewrite IH. split.
      * intros (pre & t & -> & Hp). by exists (x :: pre), t.
      * intros ([|y pre] & t & Ht & Hp); simplify_eq/=; [apply matchhere_spec in Hp; congruence|]. by exists pre, t.
Qed.

(** A leading [^] ties the match to the start of the text. *)
Definition split_start (re : list ascii) : bool * list ascii :=
  match re with
  | [] => (false, re)
  | c :: re1 => if c =c "^" then (true, re1) else (false, re)
  end.

(** C28: the matcher decides the language of the pattern: a text matches when
    some part of it is a word of the pattern, at the start of the text if the
    pattern begins with [^] and up to its end if it ends with [$]. *)
Theorem match_language re text :
  match_re re text = true ↔
  ∃ pre mid post, text = pre ++ mid ++ post ∧ in_items (items (split_start re).2).1 mid ∧
    ((split_start re).1 = true → pre = []) ∧ ((items (split_start re).2).2 = true → post = []).
Proof.
  unfold match_re, split_start. destruct re as [|c re1]; [|destruct (c =c "^") eqn:E]; cbn [fst snd].
  2:{ rewrite matchhere_spec. split.
      - intros (mid & post & -> & Hin & Hp). by exists [], mid, post.
      - intros (pre & mid & post & -> & Hin & Hpre & Hp). rewrite (Hpre eq_refl). by exists mid, post. }
  all: rewrite match_loop_spec; split;
    [intros (pre & t & -> & mid & post & -> & Hin & Hp); by exists pre, mid, post
    |intros (pre & mid & post & -> & Hin & _ & Hp); exists pre, (mid ++ post); split; [done|by exists mid, post]].
Qed.

(** ** The loop over the input *)

(** [sizeof(buf)] *)
Definition BUFSZ : nat := 1024.

(** [strchr(p, '\n')]: the line before the newline and what follows it. The
    buffer is a C string, so the search stops at a NUL. *)
Fixpoint split_line (p : list ascii) : option (list ascii * list ascii) :=
  match p with
  | [] => None
  | c :: p' =>
    if c =c c_nul then None
    else if c =c c_nl then Some ([], p')
    else match split_line p' with Some (l, r) => Some (c :: l, r) | None => None end
  end.

(** The inner loop: complete lines are matched and written. The result is what
    is left in the buffer and the output. *)
Fixpoint scan_lines (fuel : nat) (pattern p : list ascii) : list ascii * list ascii :=
  match fuel with
  | O => (p, [])
  | S fuel =>
    match split_line p with
    | None => (p, [])
    | Some (l, r) =>
      let '(rest, out) := scan_lines fuel pattern r in
      (rest, (if match_re pattern l then l ++ [c_nl] else []) ++ out)
    end
  end.

(** [read(fd, buf + m, want)] on a file with the bytes [inp] left: up to [want]
    bytes, [s] or fewer of them, at least one if there is one. *)
Definition read_chunk (want s : nat) (inp : list ascii) : list ascii := take (Nat.min want (S s)) inp.

(** [grep]; [sched] says how much each [read] returns. *)
Fixpoint grep (fuel : nat) (sched : nat → nat) (pattern buf inp : list ascii) : list ascii :=
  match fuel with
  | O => []
  | S fuel =>
    let got := read_chunk (BUFSZ - length buf - 1) (sched fuel) inp in
    match got with
    | [] => []
    | _ =>
      let p := buf ++ got in
      let '(rest, out) := scan_lines (S (length p)) pattern p in
      out ++ grep fuel sched pattern rest (drop (length got) inp)
    end
  end.

(** ** The loop prints the matching lines *)

(** The lines of a text that end in a newline; [cur] is the line being read. *)
Fixpoint lines_from (cur s : list ascii) : list (list ascii) :=
  match s with
  | [] => []
  | c :: s => if c =c c_nl then cur :: lines_from [] s else lines_from (cur ++ [c]) s
  end.
Definition print_line (pattern l : list ascii) : list ascii := if match_re pattern l then l ++ [c_nl] else [].
Definition matching_lines (pattern s : list ascii) : list ascii := concat (print_line pattern <$> lines_from [] s).

(** No line is too long for the buffer. *)
Definition short_lines (s : list ascii) : Prop :=
  ∀ a l b, s = a ++ l ++ b → c_nl ∉ l → (length l < BUFSZ - 1)%nat.

Lemma lines_from_line l cur s : c_nl ∉ l → lines_from cur (l ++ c_nl :: s) = (cur ++ l) :: lines_from [] s.
Proof.
  revert cur; induction l as [|c l IH]; intros cur Hl; cbn [app lines_from].
  - rewrite Ascii.eqb_refl. by rewrite app_nil_r.
  - assert ((c =c c_nl) = false) as -> by (apply ceq_false; set_solver).
    rewrite IH by set_solver. by rewrite <-app_assoc.
Qed.
Lemma lines_from_none l cur : c_nl ∉ l → lines_from cur l = [].
Proof.
  revert cur; induction l as [|c l IH]; intros cur Hl; [done|]. cbn [lines_from].
  assert ((c =c c_nl) = false) as -> by (apply ceq_false; set_solver). apply IH. set_solver.
Qed.

Lemma split_line_spec p :
  no_nul p →
  match split_line p with
  | None => c_nl ∉ p
  | Some (l, r) => p = l ++ c_nl :: r ∧ c_nl ∉ l
  end.
Proof.
  induction 1 as [|c p Hc _ IH]; cbn [split_line]; [set_solver|].
  apply ceq_false in Hc as ->. destruct (c =c c_nl) eqn:En.
  - apply ceq_true in En as ->. split; [done|set_solver].
  - apply ceq_false in En. destruct (split_line p) as [[l r]|]; [|set_solver].
    destruct IH as [-> Hl]. split; [done|set_solver].
Qed.

Lemma scan_lines_spec fuel pattern p :
  no_nul p → (length p < fuel)%nat →
  ∃ done_part rest out, scan_lines fuel pattern p = (rest, out) ∧ p = done_part ++ rest ∧ c_nl ∉ rest ∧
    ∀ more, matching_lines pattern (p ++ more) = out ++ matching_lines pattern (rest ++ more).
Proof.
  revert p; induction fuel as [|fuel IH]; intros p Hn Hf; [lia|]. cbn [scan_lines].
  pose proof (split_line_spec p Hn) as Hs. destruct (split_line p) as [[l r]|].
  2:{ by exists [], p, []. }
  destruct Hs as [-> Hl]. unfold no_nul in Hn. rewrite Forall_app, Forall_cons in Hn. destruct Hn as (_ & _ & Hr).
  rewrite length_app in Hf. simpl in Hf.
  destruct (IH r Hr ltac:(lia)) as (dp & rest & out & -> & -> & Hrest & Hout).
  exists (l ++ c_nl :: dp), rest, (print_line pattern l ++ out). split_and!; [done|by rewrite <-app_assoc|done|].
  intros more. rewrite <-app_assoc, <-app_comm_cons. unfold matching_lines at 1. rewrite lines_from_line by done.
  rewrite fmap_cons, <-(app_assoc (print_line pattern l)), <-Hout. done.
Qed.

Lemma short_lines_suffix a s : short_lines (a ++ s) → short_lines s.
Proof. intros Hs b l d -> Hl. apply (Hs (a ++ b) l d); [by rewrite <-app_assoc|done]. Qed.

Lemma grep_from fuel sched pattern buf inp :
  c_nl ∉ buf → no_nul (buf ++ inp) → short_lines (buf ++ inp) → (length inp < fuel)%nat →
  grep fuel sched pattern buf inp = matching_lines pattern (buf ++ inp).
Proof.
  revert buf inp; induction fuel as [|fuel IH]; intros buf inp Hb Hn Hs Hf; [lia|]. cbn [grep].
  assert (length buf < BUFSZ - 1)%nat as Hlen by by apply (Hs [] buf inp).
  set (got := read_chunk (BUFSZ - length buf - 1) (sched fuel) inp).
  assert (got ++ drop (length got) inp = inp) as Happ.
  { unfold got, read_chunk. set (k := Nat.min _ _). destruct (decide (k ≤ length inp)%nat).
    - rewrite length_take_le by done. apply take_drop.
    - rewrite take_ge, drop_ge by lia. apply app_nil_r. }
  destruct got as [|c got'] eqn:Eg.
  { assert (inp = []) as ->.
    { destruct inp as [|x inp']; [done|]. unfold got, read_chunk in Eg.
      destruct (Nat.min (BUFSZ - length buf - 1) (S (sched fuel))) eqn:Em; [lia|done]. }
    rewrite app_nil_r. unfold matching_lines. by rewrite lines_from_none. }
  set (p := buf ++ c :: got') in *. set (inp' := drop (length (c :: got')) inp) in *.
  assert (buf ++ inp = p ++ inp') as Eall by (unfold p; by rewrite <-app_assoc, Happ). rewrite Eall in *.
  assert (no_nul p) as Hnp by (unfold no_nul in *; by apply Forall_app in Hn as [? _]).
  destruct (scan_lines_spec (S (length p)) pattern p Hnp ltac:(lia)) as (dp & rest & out & -> & Ep & Hrest & Hout).
  rewrite Hout. f_equal. rewrite Ep, <-app_assoc in Hn, Hs. apply IH; [done| | |].
  - unfold no_nul in *. by apply Forall_app in Hn as [_ ?].
  - by eapply short_lines_suffix.
  - assert (length inp = length (c :: got') + length inp')%nat by (rewrite <-Happ at 1; by rewrite length_app).
    simpl in *. lia.
Qed.

(** C29: [grep] on a text whose lines fit its buffer writes exactly the lines
    that match, in order, however [read] cuts the text into pieces; a last line
    without a newline is not looked at. *)
Theorem grep_prints_matching_lines fuel sched pattern inp :
  no_nul inp → short_lines inp → (length inp < fuel)%nat →
  grep fuel sched pattern [] inp = matching_lines pattern inp.
Proof. intros Hn Hs Hf. apply grep_from; [set_solver|done|done|done]. Qed.

(** The bound on the lines is needed: after 1023 bytes without a newline there
    is no room for [read], which returns 0, and the rest of the input is lost. *)
Lemma grep_long_line :
  ∃ inp, no_nul inp ∧ grep 3000 (λ _, 4096%nat) (lit "foo") [] inp = [] ∧
    matching_lines (lit "foo") inp = lit "foo" ++ [c_nl].
Proof.
  exists (replicate 1023 "x"%char ++ c_nl :: lit "foo" ++ [c_nl]). split_and!.
  - apply (bool_decide_unpack _). by vm_compute.
  - by vm_compute.
  - by vm_compute.
Qed.

Lemma short_lines_bound s : (length s < BUFSZ - 1)%nat → short_lines s.
Proof. intros Hs a l b -> _. rewrite !length_app in Hs. lia. Qed.

Lemma grep_prints_matching_lines_witness :
  let inp := lit "one" ++ c_nl :: lit "two" ++ c_nl :: lit "tree" in
  grep 20 (λ n, (n mod 3)%nat) (lit "^t.*o$") [] inp = matching_lines (lit "^t.*o$") inp ∧
  matching_lines (lit "^t.*o$") inp = lit "two" ++ [c_nl].
Proof.
  intros inp. split; [|by vm_compute].
  apply (grep_prints_matching_lines 20 (λ n, (n mod 3)%nat) (lit "^t.*o$") inp).
  - apply (bool_decide_unpack _). by vm_compute.
  - apply short_lines_bound. apply Nat.ltb_lt. by vm_compute.
  - apply Nat.ltb_lt. by vm_compute.
Defined.
