(* ===== verification/StrLib.v ===== *)
(** Byte and string routines: [xv6/kernel/string.c] and [xv6/user/ulib.c].

    Memory is a function from addresses to bytes. Loops over a count are
    structural; a loop that ends at a NUL has fuel, which the length of the
    string bounds. *)
From S2P Require Import Prelude.

Definition mem : Type := Z → Z.
Definition upd (m : mem) (a v : Z) : mem := λ x, if x =? a then v else m x.
Definition uchar (v : Z) : Z := v mod 256.

(** ** The code *)

Fixpoint memset_loop (n : nat) (m : mem) (dst c : Z) : mem :=
  match n with O => m | S n => memset_loop n (upd m dst (uchar c)) (dst + 1) c end.
Definition memset (m : mem) (dst c : Z) (n : nat) : mem := memset_loop n m dst c.

Fixpoint memcmp (n : nat) (m : mem) (s1 s2 : Z) : Z :=
  match n with
  | O => 0
  | S n => if m s1 =? m s2 then memcmp n m (s1 + 1) (s2 + 1) else m s1 - m s2
  end.

(** The loops of [memmove], upwards and downwards. *)
Fixpoint move_up (n : nat) (m : mem) (d s : Z) : mem :=
  match n with O => m | S n => move_up n (upd m d (m s)) (d + 1) (s + 1) end.
Fixpoint move_down (n : nat) (m : mem) (d s : Z) : mem :=
  match n with O => m | S n => move_down n (upd m (d - 1) (m (s - 1))) (d - 1) (s - 1) end.

Definition memmove (m : mem) (dst src : Z) (n : nat) : mem :=
  if (n =? 0)%nat then m
  else if (src <? dst) && (dst <? src + Z.of_nat n)
  then move_down n m (dst + Z.of_nat n) (src + Z.of_nat n)
  else move_up n m dst src.
(** [memmove] of the user library. *)
Definition umemmove (m : mem) (dst src : Z) (n : nat) : mem :=
  if dst <? src then move_up n m dst src
  else move_down n m (dst + Z.of_nat n) (src + Z.of_nat n).

Fixpoint strncmp (n : nat) (m : mem) (p q : Z) : Z :=
  match n with
  | O => 0
  | S n => if negb (m p =? 0) && (m p =? m q) then strncmp n m (p + 1) (q + 1) else m p - m q
  end.

(** The second loop of [strncpy]. *)
Fixpoint pad_loop (n : nat) (m : mem) (s : Z) : mem :=
  match n with O => m | S n => pad_loop n (upd m s 0) (s + 1) end.
Fixpoint strncpy (n : nat) (m : mem) (s t : Z) : mem :=
  match n with
  | O => m
  | S n =>
    let m' := upd m s (m t) in
    if negb (m t =? 0) then strncpy n m' (s + 1) (t + 1) else pad_loop n m' (s + 1)
  end.

(** The loop of [safestrcpy] with [n - 1] characters to go, and the final NUL. *)
Fixpoint safestrcpy_loop (n : nat) (m : mem) (s t : Z) : mem :=
  match n with
  | O => upd m s 0
  | S n =>
    let m' := upd m s (m t) in
    if negb (m t =? 0) then safestrcpy_loop n m' (s + 1) (t + 1) else upd m' (s + 1) 0
  end.
Definition safestrcpy (m : mem) (s t n : Z) : mem :=
  if n <=? 0 then m else safestrcpy_loop (Z.to_nat (n - 1)) m s t.

Fixpoint strlen_loop (fuel : nat) (m : mem) (s n : Z) : option Z :=
  match fuel with
  | O => None
  | S fuel => if m (s + n) =? 0 then Some n else strlen_loop fuel m s (n + 1)
  end.
Definition strlen (fuel : nat) (m : mem) (s : Z) : option Z := strlen_loop fuel m s 0.

Fixpoint strcpy (fuel : nat) (m : mem) (s t : Z) : option mem :=
  match fuel with
  | O => None
  | S fuel =>
    let m' := upd m s (m t) in
    if negb (m t =? 0) then strcpy fuel m' (s + 1) (t + 1) else Some m'
  end.

Fixpoint strcmp (fuel : nat) (m : mem) (p q : Z) : option Z :=
  match fuel with
  | O => None
  | S fuel => if negb (m p =? 0) && (m p =? m q) then strcmp fuel m (p + 1) (q + 1) else Some (m p - m q)
  end.

Fixpoint strchr (fuel : nat) (m : mem) (s c : Z) : option Z :=
  match fuel with
  | O => None
  | S fuel => if m s =? 0 then Some 0 else if m s =? c then Some s else strchr fuel m (s + 1) c
  end.

(** ** Moving bytes *)

(** Bytes [d .. d + n) are those that were at [s .. s + n), the rest is unchanged. *)
Definition moved (m m' : mem) (d s : Z) (n : nat) : Prop :=
  ∀ a, m' a = if decide (d ≤ a < d + Z.of_nat n) then m (s + (a - d)) else m a.

Lemma mem_upd_eq m a v : upd m a v a = v.
Proof. unfold upd. by rewrite Z.eqb_refl. Qed.
Lemma mem_upd_ne m a v x : x ≠ a → upd m a v x = m x.
Proof. intros. unfold upd. by rewrite (proj2 (Z.eqb_neq x a)). Qed.

Lemma move_up_moved n m d s : (d ≤ s ∨ s + Z.of_nat n ≤ d) → moved m (move_up n m d s) d s n.
Proof.
  revert m d s; induction n as [|n IH]; intros m d s Hd a; cbn [move_up].
  { by rewrite decide_False by lia. }
  rewrite (IH (upd m d (m s)) (d + 1) (s + 1)) by lia. destruct (decide (a = d)) as [->|Hne].
  - rewrite decide_False, decide_True, mem_upd_eq by lia. f_equal. lia.
  - destruct (decide (d + 1 ≤ a < d + 1 + Z.of_nat n)).
    + rewrite decide_True, mem_upd_ne by lia. f_equal. lia.
    + by rewrite decide_False, mem_upd_ne by lia.
Qed.

Lemma move_down_moved n m d s :
  (s ≤ d ∨ d + Z.of_nat n ≤ s) → moved m (move_down n m (d + Z.of_nat n) (s + Z.of_nat n)) d s n.
Proof.
  revert m; induction n as [|n IH]; intros m Hd a; cbn [move_down].
  { by rewrite decide_False by lia. }
  replace (d + Z.of_nat (S n) - 1) with (d + Z.of_nat n) by lia.
  replace (s + Z.of_nat (S n) - 1) with (s + Z.of_nat n) by lia. rewrite IH by lia.
  destruct (decide (a = d + Z.of_nat n)) as [->|Hne].
  - rewrite decide_False, decide_True, mem_upd_eq by lia. f_equal. lia.
  - destruct (decide (d ≤ a < d + Z.of_nat n)).
    + rewrite decide_True, mem_upd_ne by lia. done.
    + by rewrite decide_False, mem_upd_ne by lia.
Qed.

(** both versions of [memmove], the kernel's and the user library's, move
    [n] bytes however source and destination overlap, and write nothing else. *)
Theorem memmove_moves m dst src n :
  moved m (memmove m dst src n) dst src n ∧ moved m (umemmove m dst src n) dst src n.
Proof.
  unfold memmove, umemmove. split.
  - destruct n as [|n]; [intros a; by rewrite decide_False by lia|]. cbn [Nat.eqb].
    destruct ((src <? dst) && (dst <? src + Z.of_nat (S n))) eqn:E.
    + apply andb_true_iff in E. apply move_down_moved. lia.
    + apply andb_false_iff in E as [?%Z.ltb_ge|?%Z.ltb_ge]; apply move_up_moved; lia.
  - destruct (dst <? src) eqn:E; [apply move_up_moved|apply move_down_moved]; lia.
Qed.

(** ** Strings *)

(** The string [s], without its NUL, is at [p]. *)
Definition holds_str (m : mem) (p : Z) (s : list Z) : Prop :=
  Forall (λ c, 0 < c < 256) s ∧ (∀ k c, s !! k = Some c → m (p + Z.of_nat k) = c) ∧ m (p + Z.of_nat (length s)) = 0.

Lemma holds_nil m p : holds_str m p [] → m p = 0.
Proof. intros (_ & _ & H). by rewrite Z.add_0_r in H. Qed.
Lemma holds_cons m p c s : holds_str m p (c :: s) → m p = c ∧ 0 < c < 256 ∧ holds_str m (p + 1) s.
Proof.
  intros ([Hc Hs]%Forall_cons & Hk & Hn). split_and!; [|lia|lia|].
  - rewrite <-(Hk 0%nat c) by done. f_equal. lia.
  - split_and!; [done| |].
    + intros k d Hd. rewrite <-(Hk (S k) d) by done. f_equal. lia.
    + rewrite <-Hn. f_equal. simpl. lia.
Qed.
Lemma holds_upd m p s a v : holds_str m p s → ¬ (p ≤ a ≤ p + Z.of_nat (length s)) → holds_str (upd m a v) p s.
Proof.
  intros (Hs & Hk & Hn) Ha. split_and!; [done| |].
  - intros k c Hc. rewrite mem_upd_ne; [by apply Hk|]. apply lookup_lt_Some in Hc. lia.
  - rewrite mem_upd_ne by lia. done.
Qed.

Lemma strlen_spec m p s fuel : holds_str m p s → (length s < fuel)%nat → strlen fuel m p = Some (Z.of_nat (length s)).
Proof.
  unfold strlen. cut (∀ k q, holds_str m (p + k) s → (length s < fuel)%nat → q = k + Z.of_nat (length s) →
    strlen_loop fuel m p k = Some q).
  { intros Hc Hh Hf. apply (Hc 0); [by rewrite Z.add_0_r|done|lia]. }
  revert fuel; induction s as [|c s IH]; intros fuel k q Hh Hf ->; (destruct fuel as [|fuel]; [simpl in Hf; lia|]);
    cbn [strlen_loop].
  - rewrite (holds_nil _ _ Hh). simpl. f_equal. lia.
  - apply holds_cons in Hh as (Hc & Hr & Hh). rewrite (proj2 (Z.eqb_neq _ _)) by lia.
    apply IH; [by rewrite Z.add_assoc|simpl in Hf; lia|simpl; lia].
Qed.

(** What [n] bytes at [s] hold after a copy: [src] and NULs after it. *)
Definition padded (src : list Z) (k : nat) : Z := default 0 (src !! k).

(** The buffer of [n] bytes at [s] does not meet the string at [t]. *)
Definition disjoint (s : Z) (n : nat) (t : Z) (src : list Z) : Prop :=
  s + Z.of_nat n ≤ t ∨ t + Z.of_nat (length src) < s.

Lemma pad_loop_spec n m s a :
  pad_loop n m s a = if decide (s ≤ a < s + Z.of_nat n) then 0 else m a.
Proof.
  revert m s; induction n as [|n IH]; intros m s; cbn [pad_loop]; [by rewrite decide_False by lia|]. rewrite IH.
  destruct (decide (a = s)) as [->|Hne].
  - by rewrite decide_False, decide_True, mem_upd_eq by lia.
  - rewrite mem_upd_ne by done. destruct (decide (s + 1 ≤ a < s + 1 + Z.of_nat n)); [by rewrite decide_True by lia|].
    by rewrite decide_False by lia.
Qed.

Lemma strncpy_spec src n m s t a :
  holds_str m t src → disjoint s n t src →
  strncpy n m s t a = if decide (s ≤ a < s + Z.of_nat n) then padded src (Z.to_nat (a - s)) else m a.
Proof.
  revert src m s t; induction n as [|n IH]; intros src m s t Hh Hd; cbn [strncpy]; [by rewrite decide_False by lia|].
  destruct src as [|c src].
  - rewrite (holds_nil _ _ Hh). cbn [Z.eqb negb]. rewrite pad_loop_spec. unfold padded. rewrite lookup_nil. cbn [default].
    destruct (decide (a = s)) as [->|Hne]; [by rewrite decide_False, decide_True, mem_upd_eq by lia|].
    rewrite mem_upd_ne by done. destruct (decide (s + 1 ≤ a < s + 1 + Z.of_nat n)); [by rewrite decide_True by lia|].
    by rewrite decide_False by lia.
  - apply holds_cons in Hh as (Hc & Hr & Hh). rewrite (proj2 (Z.eqb_neq (m t) 0)) by lia. cbn [negb].
    unfold disjoint in Hd. simpl in Hd.
    rewrite (IH src); [|apply holds_upd; [done|lia]|unfold disjoint; lia].
    destruct (decide (a = s)) as [->|Hne].
    + rewrite decide_False, decide_True, mem_upd_eq by lia. rewrite Z.sub_diag. simpl. unfold padded. simpl. lia.
    + rewrite mem_upd_ne by done. destruct (decide (s + 1 ≤ a < s + 1 + Z.of_nat n)).
      * rewrite decide_True by lia. unfold padded.
        by replace (Z.to_nat (a - s)) with (S (Z.to_nat (a - (s + 1)))) by lia.
      * by rewrite decide_False by lia.
Qed.

Lemma safestrcpy_loop_spec src n m s t :
  holds_str m t src → disjoint s (S n) t src →
  let m' := safestrcpy_loop n m s t in
  holds_str m' s (take n src) ∧ ∀ a, ¬ (s ≤ a < s + Z.of_nat (S n)) → m' a = m a.
Proof.
  revert src m s t; induction n as [|n IH]; intros src m s t Hh Hd; cbn [safestrcpy_loop].
  - split; [|intros a Ha; apply mem_upd_ne; lia]. split_and!; [by constructor|done|]. cbn [take length]. rewrite Z.add_0_r. apply mem_upd_eq.
  - destruct src as [|c src].
    + rewrite (holds_nil _ _ Hh). cbn [Z.eqb negb take]. split.
      * split_and!; [by constructor|done|]. cbn [length]. rewrite Z.add_0_r, mem_upd_ne, mem_upd_eq by lia. done.
      * intros a Ha. rewrite !mem_upd_ne by lia. done.
    + apply holds_cons in Hh as (Hc & Hr & Hh). rewrite (proj2 (Z.eqb_neq (m t) 0)) by lia. cbn [negb take].
      unfold disjoint in Hd. simpl in Hd.
      destruct (IH src (upd m s (m t)) (s + 1) (t + 1)) as [(H1 & H2 & H3) Hf];
        [apply holds_upd; [done|lia]|unfold disjoint; lia|].
      split.
      * split_and!; [by constructor| |].
        -- intros [|k] d Hk; simpl in Hk; simplify_eq.
           ++ rewrite Z.add_0_r, Hf, mem_upd_eq by lia. lia.
           ++ rewrite <-(H2 k d Hk). f_equal. lia.
        -- rewrite <-H3. f_equal. simpl. lia.
      * intros a Ha. rewrite Hf, mem_upd_ne by lia. done.
Qed.

(** copying a string into a buffer of [n] bytes: [strncpy] stores exactly
    [n] bytes, the string and NULs after it (so a string of [n] bytes or more
    is left without a NUL); [safestrcpy] stores as much of the string as fits
    with its NUL. Neither writes outside the buffer. *)
Theorem bounded_copies src n m s t :
  holds_str m t src → (0 < n)%nat → disjoint s n t src →
  (∀ a, strncpy n m s t a = if decide (s ≤ a < s + Z.of_nat n) then padded src (Z.to_nat (a - s)) else m a) ∧
  holds_str (safestrcpy m s t (Z.of_nat n)) s (take (n - 1) src) ∧
  ∀ a, ¬ (s ≤ a < s + Z.of_nat n) → safestrcpy m s t (Z.of_nat n) a = m a.
Proof.
  intros Hh Hn Hd. split; [intros a; by apply strncpy_spec|].
  unfold safestrcpy. rewrite (proj2 (Z.leb_gt _ _)) by lia. replace (Z.to_nat (Z.of_nat n - 1)) with (n - 1)%nat by lia.
  destruct (safestrcpy_loop_spec src (n - 1) m s t Hh) as [H1 H2]; [by replace (S (n - 1)) with n by lia|].
  replace (S (n - 1)) with n in H2 by lia. done.
Qed.

Definition demo_mem : mem := λ a, if a =? 100 then 104 else if a =? 101 then 105 else 0.
Lemma bounded_copies_witness :
  (∀ a, strncpy 4 demo_mem 200 100 a = if decide (200 ≤ a < 204) then padded [104; 105] (Z.to_nat (a - 200)) else demo_mem a) ∧
  holds_str (safestrcpy demo_mem 200 100 4) 200 [104; 105] ∧
  ∀ a, ¬ (200 ≤ a < 204) → safestrcpy demo_mem 200 100 4 a = demo_mem a.
Proof.
  apply (bounded_copies [104; 105] 4 demo_mem 200 100); [|lia|right; simpl; lia]. split_and!.
  - repeat constructor; lia.
  - intros [|[|k]] c Hc; simpl in Hc; simplify_eq; done.
  - done.
Defined.

(** ** Comparing *)

Lemma strcmp_spec m p q s1 s2 fuel :
  holds_str m p s1 → holds_str m q s2 → (length s1 < fuel)%nat →
  ∃ r, strcmp fuel m p q = Some r ∧ (r = 0 ↔ s1 = s2).
Proof.
  revert p q s2 fuel; induction s1 as [|c s1 IH]; intros p q s2 fuel H1 H2 Hf;
    (destruct fuel as [|fuel]; [simpl in Hf; lia|]); cbn [strcmp].
  - rewrite (holds_nil _ _ H1). cbn [Z.eqb negb andb]. eexists. split; [done|]. destruct s2 as [|d s2].
    + by rewrite (holds_nil _ _ H2).
    + apply holds_cons in H2 as (E & ? & _). split; [intros; exfalso; lia|done].
  - apply holds_cons in H1 as (E1 & Hc & H1). rewrite E1, (proj2 (Z.eqb_neq c 0)) by lia. cbn [negb andb].
    destruct s2 as [|d s2].
    + rewrite (holds_nil _ _ H2), (proj2 (Z.eqb_neq c 0)) by lia. eexists. split; [done|]. split; [intros; exfalso; lia|done].
    + apply holds_cons in H2 as (E2 & Hd & H2). rewrite E2. destruct (c =? d) eqn:E.
      * assert (c = d) as -> by lia. destruct (IH (p + 1) (q + 1) s2 fuel H1 H2 ltac:(simpl in Hf; lia)) as (r & Er & Hr).
        exists r. split; [done|]. rewrite Hr. split; [by intros ->|by intros [= ->]].
      * eexists. split; [done|]. split; [intros; exfalso; lia|]. intros [= -> _]. lia.
Qed.

(** [strncmp] looks at the first [n] characters. *)
Lemma strncmp_spec n m p q s1 s2 :
  holds_str m p s1 → holds_str m q s2 → strncmp n m p q = 0 ↔ take n s1 = take n s2.
Proof.
  revert p q s1 s2; induction n as [|n IH]; intros p q s1 s2 H1 H2; cbn [strncmp]; [done|].
  destruct s1 as [|c s1].
  - rewrite (holds_nil _ _ H1). cbn [Z.eqb negb andb]. destruct s2 as [|d s2].
    + by rewrite (holds_nil _ _ H2).
    + apply holds_cons in H2 as (E & ? & _). split; [intros; exfalso; lia|done].
  - apply holds_cons in H1 as (E1 & Hc & H1). rewrite E1, (proj2 (Z.eqb_neq c 0)) by lia. cbn [negb andb].
    destruct s2 as [|d s2].
    + rewrite (holds_nil _ _ H2), (proj2 (Z.eqb_neq c 0)) by lia. split; [intros; exfalso; lia|done].
    + apply holds_cons in H2 as (E2 & Hd & H2). rewrite E2. cbn [take]. destruct (c =? d) eqn:E.
      * assert (c = d) as -> by lia. rewrite (IH _ _ s1 s2 H1 H2). split; [by intros ->|by intros [= ->]].
      * split; [intros; exfalso; lia|]. intros [= -> _]. lia.
Qed.

Lemma memset_spec n m dst c a :
  memset m dst c n a = if decide (dst ≤ a < dst + Z.of_nat n) then uchar c else m a.
Proof.
  unfold memset. revert m dst; induction n as [|n IH]; intros m dst; cbn [memset_loop]; [by rewrite decide_False by lia|].
  rewrite IH. destruct (decide (a = dst)) as [->|Hne].
  - by rewrite decide_False, decide_True, mem_upd_eq by lia.
  - rewrite mem_upd_ne by done. destruct (decide (dst + 1 ≤ a < dst + 1 + Z.of_nat n)); [by rewrite decide_True by lia|].
    by rewrite decide_False by lia.
Qed.
