(* ===== verification/Fs.v ===== *)
(** The file system above the log: [xv6/kernel/fs.c].

    A call runs inside a transaction and sees, through the buffer cache and the
    log, one map of blocks; [bread] reads it and a changed buffer that is given
    to [log_write] changes it. A block is 1024 bytes, in which bitmaps, inodes,
    arrays of block numbers and directory entries are little-endian, as the
    machine has them.

    The inode table is a list; a pointer to an inode is an index into it.
    [None] is a panic, an access outside of memory, or waiting for a lock that
    the caller itself holds. *)
From S2P Require Import Prelude.

Definition BSIZE : Z := 1024.
Definition BPB : Z := BSIZE * 8.
Definition NDIRECT : Z := 12.
Definition NINDIRECT : Z := BSIZE / 4.
Definition MAXFILE : Z := NDIRECT + NINDIRECT.
Definition DINODE_SIZE : Z := 64.
Definition IPB : Z := BSIZE / DINODE_SIZE.
Definition FSMAGIC : Z := 0x10203040.
Definition ROOTINO : Z := 1.
Definition ROOTDEV : Z := 1.
Definition DIRSIZ : nat := 14.
Definition DIRENT_SIZE : Z := 16.
Definition NINODE : nat := 50.
Definition T_DIR : Z := 1.

(** ** Bytes *)

(** [memmove] into and out of a buffer. *)
Definition slice (o n : Z) (d : list Z) : list Z := take (Z.to_nat n) (drop (Z.to_nat o) d).
Definition put (o : Z) (bs d : list Z) : list Z :=
  take (Z.to_nat o) d ++ bs ++ drop (Z.to_nat o + length bs) d.

(** Little-endian integers. *)
Fixpoint le_enc (n : nat) (v : Z) : list Z :=
  match n with O => [] | S n => v mod 256 :: le_enc n (v / 256) end.
Fixpoint le_dec (bs : list Z) : Z :=
  match bs with [] => 0 | b :: bs => b + 256 * le_dec bs end.
Definition get_uint (o : Z) (d : list Z) : Z := le_dec (slice o 4 d).
Definition put_uint (o v : Z) (d : list Z) : list Z := put o (le_enc 4 v) d.
Definition get_short (o : Z) (d : list Z) : Z := swrap 16 (le_dec (slice o 2 d)).
Definition put_short (o v : Z) (d : list Z) : list Z := put o (le_enc 2 v) d.

(** ** State *)

Record superblock := mkSb {
  magic : Z; sb_size : Z; nblocks : Z; ninodes : Z; nlog : Z; logstart : Z; inodestart : Z; bmapstart : Z;
}.

(** The in-memory inode; [locked] is its sleep-lock. *)
Record inode := mkInode {
  dev : Z; inum : Z; ref : Z; locked : bool; valid : bool;
  type : Z; major : Z; minor : Z; nlink : Z; size : Z; addrs : list Z;
}.
Definition set_ref v p := mkInode (dev p) (inum p) v (locked p) (valid p) (type p) (major p) (minor p) (nlink p) (size p) (addrs p).
Definition set_locked v p := mkInode (dev p) (inum p) (ref p) v (valid p) (type p) (major p) (minor p) (nlink p) (size p) (addrs p).
Definition set_valid v p := mkInode (dev p) (inum p) (ref p) (locked p) v (type p) (major p) (minor p) (nlink p) (size p) (addrs p).
Definition set_size v p := mkInode (dev p) (inum p) (ref p) (locked p) (valid p) (type p) (major p) (minor p) (nlink p) v (addrs p).
Definition set_addr (i : nat) v p := mkInode (dev p) (inum p) (ref p) (locked p) (valid p) (type p) (major p) (minor p) (nlink p) (size p) (<[i := v]> (addrs p)).

Record fsw := mkFsw { blk : gmap Z (list Z); itable : list inode }.
Abbreviation fs := (M fsw).

(** [bread] and [brelse]; and [log_write] of a buffer with new contents. *)
Definition block_at (b : Z) : fs (list Z) := λ w,
  match blk w !! b with Some d => Some (d, w) | None => None end.
Definition write_block (b : Z) (d : list Z) : fs unit := λ w,
  match blk w !! b with Some _ => Some ((), mkFsw (<[b := d]> (blk w)) (itable w)) | None => None end.
Definition the_ip (ip : nat) : fs inode := λ w,
  match itable w !! ip with Some p => Some (p, w) | None => None end.
Definition upd_ip (ip : nat) (f : inode → inode) : fs unit := λ w,
  match itable w !! ip with
  | Some p => Some ((), mkFsw (blk w) (<[ip := f p]> (itable w)))
  | None => None
  end.

(** ** Blocks *)

Definition readsb : fs superblock :=
  d ← block_at 1;
  let g k := get_uint (4 * k) d in
  mret (mkSb (g 0) (g 1) (g 2) (g 3) (g 4) (g 5) (g 6) (g 7)).

Definition bzero (bno : Z) : fs unit :=
  d ← block_at bno; write_block bno (replicate (Z.to_nat BSIZE) 0).

Section code.
Context (sb : superblock).

Definition BBLOCK (b : Z) : Z := b / BPB + bmapstart sb.
Definition IBLOCK (i : Z) : Z := i / IPB + inodestart sb.

(** Is bit [bi] of a bitmap block set? *)
Definition bit_set (d : list Z) (bi : Z) : bool := Z.testbit (default 0 (d !! Z.to_nat (bi / 8))) (bi mod 8).
Definition mark_used (d : list Z) (bi : Z) : list Z :=
  alter (λ v, Z.lor v (Z.shiftl 1 (bi mod 8))) (Z.to_nat (bi / 8)) d.
Definition mark_free (d : list Z) (bi : Z) : list Z :=
  alter (λ v, Z.land v (Z.lnot (Z.shiftl 1 (bi mod 8)))) (Z.to_nat (bi / 8)) d.

(** The inner loop of [balloc]: the first free bit from [bi] on. *)
Fixpoint find_free (n : nat) (d : list Z) (b bi : Z) : option Z :=
  match n with
  | O => None
  | S n =>
    if (bi <? BPB) && (b + bi <? sb_size sb) then
      if bit_set d bi then find_free n d b (bi + 1) else Some bi
    else None
  end.
(** The outer loop; the fuel is the number of bitmap blocks. *)
Fixpoint balloc_loop (fuel : nat) (b : Z) : fs Z :=
  match fuel with
  | O => stuck
  | S fuel =>
    if b <? sb_size sb then
      d ← block_at (BBLOCK b);
      match find_free (Z.to_nat BPB) d b 0 with
      | Some bi => write_block (BBLOCK b) (mark_used d bi);; bzero (b + bi);; mret (b + bi)
      | None => balloc_loop fuel (b + BPB)
      end
    else mret 0
  end.
Definition balloc : fs Z := balloc_loop (S (Z.to_nat (sb_size sb / BPB + 1))) 0.

Definition bfree (b : Z) : fs unit :=
  d ← block_at (BBLOCK b);
  let bi := b mod BPB in
  if bit_set d bi then write_block (BBLOCK b) (mark_free d bi) else stuck.

(** ** Inodes *)

(** Where the inode is in its block. *)
Definition doff (inum : Z) : Z := DINODE_SIZE * (inum mod IPB).

(** The loop of [iget]: an entry for [inum], or the first unused one. *)
Fixpoint iget_scan (tab : list inode) (i : nat) (d n : Z) (empty : option nat) : nat + option nat :=
  match tab with
  | [] => inr empty
  | p :: tab =>
    if (0 <? ref p) && (dev p =? d) && (inum p =? n) then inl i
    else iget_scan tab (S i) d n
           (match empty with None => if ref p =? 0 then Some i else None | _ => empty end)
  end.
Definition iget (d n : Z) : fs nat :=
  tab ← gets itable;
  match iget_scan tab 0 d n None with
  | inl i => upd_ip i (λ p, set_ref (ref p + 1) p);; mret i
  | inr None => stuck
  | inr (Some i) =>
    upd_ip i (λ p, mkInode d n 1 (locked p) false (type p) (major p) (minor p) (nlink p) (size p) (addrs p));; mret i
  end.

Fixpoint ialloc_loop (fuel : nat) (d n ty : Z) : fs (option nat) :=
  match fuel with
  | O => mret None
  | S fuel =>
    if n <? ninodes sb then
      blkd ← block_at (IBLOCK n);
      if get_short (doff n) blkd =? 0 then
        let cleared := put (doff n) (replicate (Z.to_nat DINODE_SIZE) 0) blkd in
        write_block (IBLOCK n) (put_short (doff n) ty cleared);;
        ip ← iget d n; mret (Some ip)
      else ialloc_loop fuel d (n + 1) ty
    else mret None
  end.
Definition ialloc (d ty : Z) : fs (option nat) := ialloc_loop (Z.to_nat (ninodes sb)) d 1 ty.

(** [struct dinode] at offset [o]. *)
Fixpoint put_uints (o : Z) (vs : list Z) (d : list Z) : list Z :=
  match vs with [] => d | v :: vs => put_uints (o + 4) vs (put_uint o v d) end.
Definition get_uints (o : Z) (n : nat) (d : list Z) : list Z := (λ k, get_uint (o + 4 * Z.of_nat k) d) <$> seq 0 n.
Definition put_dinode (o : Z) (p : inode) (d : list Z) : list Z :=
  put_uints (o + 12) (addrs p)
    (put_uint (o + 8) (size p)
      (put_short (o + 6) (nlink p)
        (put_short (o + 4) (minor p)
          (put_short (o + 2) (major p)
            (put_short o (type p) d))))).

Definition iupdate (ip : nat) : fs unit :=
  p ← the_ip ip;
  d ← block_at (IBLOCK (inum p));
  write_block (IBLOCK (inum p)) (put_dinode (doff (inum p)) p d).

Definition idup (ip : nat) : fs nat := upd_ip ip (λ p, set_ref (ref p + 1) p);; mret ip.

Definition ilock (ip : nat) : fs unit :=
  p ← the_ip ip;
  if (ref p <? 1) || locked p then stuck
  else
    upd_ip ip (set_locked true);;
    if valid p then mret ()
    else
      d ← block_at (IBLOCK (inum p));
      let o := doff (inum p) in
      upd_ip ip (λ p, mkInode (dev p) (inum p) (ref p) (locked p) true
        (get_short o d) (get_short (o + 2) d) (get_short (o + 4) d) (get_short (o + 6) d)
        (get_uint (o + 8) d) (get_uints (o + 12) 13 d));;
      if get_short o d =? 0 then stuck else mret ().

Definition iunlock (ip : nat) : fs unit :=
  p ← the_ip ip;
  if negb (locked p) || (ref p <? 1) then stuck else upd_ip ip (set_locked false).

Definition ifree (n : Z) : fs unit :=
  d ← block_at (IBLOCK n);
  write_block (IBLOCK n) (put_short (doff n) 0 d).

(** ** Contents *)

(** An address of the inode itself, allocated if there is none. *)
Definition bmap_slot (ip : nat) (i : nat) : fs Z :=
  p ← the_ip ip;
  match addrs p !! i with
  | None => stuck
  | Some addr =>
    if addr =? 0 then
      addr ← balloc;
      if addr =? 0 then mret 0 else upd_ip ip (set_addr i addr);; mret addr
    else mret addr
  end.
Definition bmap (ip : nat) (bn : Z) : fs Z :=
  if bn <? NDIRECT then bmap_slot ip (Z.to_nat bn)
  else
    let bn := bn - NDIRECT in
    if bn <? NINDIRECT then
      addr ← bmap_slot ip (Z.to_nat NDIRECT);
      if addr =? 0 then mret 0
      else
        a ← block_at addr;
        let e := get_uint (4 * bn) a in
        if e =? 0 then
          e ← balloc;
          when (negb (e =? 0)) (a ← block_at addr; write_block addr (put_uint (4 * bn) e a));;
          mret e
        else mret e
    else stuck.

Definition itrunc (ip : nat) : fs unit :=
  mfor (seq 0 (Z.to_nat NDIRECT)) (λ i,
    p ← the_ip ip;
    let a := default 0 (addrs p !! i) in
    when (negb (a =? 0)) (bfree a;; upd_ip ip (set_addr i 0)));;
  p ← the_ip ip;
  let ind := default 0 (addrs p !! Z.to_nat NDIRECT) in
  when (negb (ind =? 0))
    (a ← block_at ind;
     mfor (seq 0 (Z.to_nat NINDIRECT)) (λ j,
       let e := get_uint (4 * Z.of_nat j) a in when (negb (e =? 0)) (bfree e));;
     bfree ind;;
     upd_ip ip (set_addr (Z.to_nat NDIRECT) 0));;
  upd_ip ip (set_size 0);;
  iupdate ip.

Definition iput (ip : nat) : fs unit :=
  p ← the_ip ip;
  let last := (ref p =? 1) && valid p && (nlink p =? 0) in
  when last
    (if locked p then stuck
     else
       upd_ip ip (set_locked true);;
       itrunc ip;;
       upd_ip ip (set_valid false);;
       upd_ip ip (set_locked false));;
  upd_ip ip (λ p, set_ref (ref p - 1) p);;
  when last (ifree (inum p)).
Definition iunlockput (ip : nat) : fs unit := iunlock ip;; iput ip.

(** [ireclaim], in turns of its loop. *)
Definition reclaim_one (d n : Z) : fs unit :=
  blkd ← block_at (IBLOCK n);
  when (negb (get_short (doff n) blkd =? 0) && (get_short (doff n + 6) blkd =? 0))
    (ip ← iget d n; ilock ip;; iunlock ip;; iput ip).
Definition ireclaim (d : Z) : fs unit :=
  mfor (seq 1 (Z.to_nat (ninodes sb) - 1)) (λ n, reclaim_one d (Z.of_nat n)).

(** [struct stat] and [stati]. *)
Record stat := mkStat { st_dev : Z; st_ino : Z; st_type : Z; st_nlink : Z; st_size : Z }.
Definition stati (ip : nat) : fs stat :=
  p ← the_ip ip; mret (mkStat (dev p) (inum p) (type p) (nlink p) (size p)).

(** The loop of [readi]: [tot] bytes have been read, [n] are wanted. The
    bytes are handed to [either_copyout], which says whether it could store
    them; the result has them too. *)
Section reading.
Context (either_copyout : Z → list Z → bool).
Fixpoint readi_loop (fuel : nat) (ip : nat) (off tot n : Z) (acc : list Z) : fs (Z * list Z) :=
  match fuel with
  | O => stuck
  | S fuel =>
    if tot <? n then
      addr ← bmap ip (off / BSIZE);
      if addr =? 0 then mret (tot, acc)
      else
        d ← block_at addr;
        let m := Z.min (n - tot) (BSIZE - off mod BSIZE) in
        let bs := slice (off mod BSIZE) m d in
        if either_copyout tot bs then readi_loop fuel ip (off + m) (tot + m) n (acc ++ bs)
        else mret (-1, acc)
    else mret (tot, acc)
  end.
Definition readi (ip : nat) (off n : Z) : fs (Z * list Z) :=
  p ← the_ip ip;
  if (size p <? off) || (u32 (off + n) <? off) then mret (0, [])
  else
    let n := if size p <? u32 (off + n) then size p - off else n in
    readi_loop (S (Z.to_nat ((off mod BSIZE + n) / BSIZE + 1))) ip off 0 n [].
End reading.

(** The loop of [writei]: [either_copyin tot m] gives the bytes that were
    copied into the block, and whether these are all [m]. The result is the
    count and the offset reached. *)
Section writing.
Context (either_copyin : Z → Z → list Z * bool).
Fixpoint writei_loop (fuel : nat) (ip : nat) (off tot n : Z) : fs (Z * Z) :=
  match fuel with
  | O => stuck
  | S fuel =>
    if tot <? n then
      addr ← bmap ip (off / BSIZE);
      if addr =? 0 then mret (tot, off)
      else
        d ← block_at addr;
        let m := Z.min (n - tot) (BSIZE - off mod BSIZE) in
        let '(bs, ok) := either_copyin tot m in
        write_block addr (put (off mod BSIZE) bs d);;
        if ok : bool then writei_loop fuel ip (off + m) (tot + m) n else mret (tot, off)
    else mret (tot, off)
  end.
Definition writei (ip : nat) (off n : Z) : fs Z :=
  p ← the_ip ip;
  if (size p <? off) || (u32 (off + n) <? off) then mret (-1)
  else if MAXFILE * BSIZE <? u32 (off + n) then mret (-1)
  else
    r ← writei_loop (S (Z.to_nat ((off mod BSIZE + n) / BSIZE + 1))) ip off 0 n;
    p ← the_ip ip;
    when (size p <? r.2) (upd_ip ip (set_size r.2));;
    iupdate ip;;
    mret r.1.
End writing.
End code.

(** [fsinit]; the recovery that [initlog] does is the log's. The super block it
    reads is the [sb] of everything above. *)
Definition fsinit (initlog : superblock → fs unit) (d : Z) : fs superblock :=
  sb ← readsb;
  if negb (magic sb =? FSMAGIC) then stuck
  else initlog sb;; ireclaim sb d;; mret sb.
