(* ===== verification/FsBlock.v ===== *)
(** Bytes in blocks, and the allocation of blocks. *)
From S2P Require Import Prelude Fs.

(** ** Slices *)

Lemma put_length o bs d : 0 ≤ o → o + Z.of_nat (length bs) ≤ Z.of_nat (length d) → length (put o bs d) = length d.
Proof. intros Ho Hl. unfold put. rewrite !length_app, length_take, length_drop. lia. Qed.

Lemma put_lookup o bs d k :
  0 ≤ o → o + Z.of_nat (length bs) ≤ Z.of_nat (length d) →
  put o bs d !! k = if decide (o ≤ Z.of_nat k < o + Z.of_nat (length bs)) then bs !! (k - Z.to_nat o)%nat else d !! k.
Proof.
  intros Ho Hl. unfold put. case_decide as Hk.
  - rewrite lookup_app_r by (rewrite length_take; lia). rewrite length_take_le by lia.
    by rewrite lookup_app_l by lia.
  - destruct (decide (k < Z.to_nat o)%nat).
    + rewrite lookup_app_l by (rewrite length_take; lia). by rewrite lookup_take_lt by lia.
    + rewrite lookup_app_r by (rewrite length_take; lia). rewrite length_take_le by lia.
      rewrite lookup_app_r by lia. rewrite lookup_drop. f_equal. lia.
Qed.

Lemma slice_lookup o n d k : slice o n d !! k = if decide (k < Z.to_nat n)%nat then d !! (Z.to_nat o + k)%nat else None.
Proof.
  unfold slice. case_decide; [rewrite lookup_take_lt by done; apply lookup_drop|]. apply lookup_take_ge. lia.
Qed.

Lemma slice_length o n d : 0 ≤ o → 0 ≤ n → o + n ≤ Z.of_nat (length d) → length (slice o n d) = Z.to_nat n.
Proof. intros Ho Hn Hl. unfold slice. rewrite length_take, length_drop. lia. Qed.

Lemma slice_put_same o bs d :
  0 ≤ o → o + Z.of_nat (length bs) ≤ Z.of_nat (length d) → slice o (Z.of_nat (length bs)) (put o bs d) = bs.
Proof.
  intros Ho Hl. apply list_eq. intros k. rewrite slice_lookup. case_decide as Hk.
  - rewrite put_lookup, decide_True by lia. f_equal. lia.
  - symmetry. apply lookup_ge_None_2. lia.
Qed.

Lemma slice_put_other o bs d o' n :
  0 ≤ o → 0 ≤ o' → 0 ≤ n → o + Z.of_nat (length bs) ≤ Z.of_nat (length d) →
  (o' + n ≤ o ∨ o + Z.of_nat (length bs) ≤ o') → slice o' n (put o bs d) = slice o' n d.
Proof.
  intros Ho Ho' Hn Hl Hd. apply list_eq. intros k. rewrite !slice_lookup. case_decide as Hk; [|done].
  by rewrite put_lookup, decide_False by lia.
Qed.

(** ** Integers *)

Lemma le_enc_length n v : length (le_enc n v) = n.
Proof. revert v; induction n as [|n IH]; intros v; simpl; [done|]. by rewrite IH. Qed.

Lemma le_dec_enc n v : 0 ≤ v < 256 ^ Z.of_nat n → le_dec (le_enc n v) = v.
Proof.
  revert v; induction n as [|n IH]; intros v Hv; cbn [le_enc le_dec]; [simpl in Hv; lia|].
  rewrite Nat2Z.inj_succ, Z.pow_succ_r in Hv by lia. rewrite IH.
  - pose proof (Z.div_mod v 256). lia.
  - split; [apply Z.div_pos; lia|apply Z.div_lt_upper_bound; lia].
Qed.

Lemma get_put_uint o v d :
  0 ≤ o → o + 4 ≤ Z.of_nat (length d) → 0 ≤ v < 2 ^ 32 → get_uint o (put_uint o v d) = v.
Proof.
  intros Ho Hl Hv. unfold get_uint, put_uint. change 4 with (Z.of_nat (length (le_enc 4 v))) at 1.
  rewrite slice_put_same by (rewrite ?le_enc_length; lia). by apply le_dec_enc.
Qed.
Lemma get_put_uint_other o o' v d :
  0 ≤ o → 0 ≤ o' → o + 4 ≤ Z.of_nat (length d) → (o' + 4 ≤ o ∨ o + 4 ≤ o') →
  get_uint o' (put_uint o v d) = get_uint o' d.
Proof.
  intros. unfold get_uint, put_uint. by rewrite slice_put_other by (rewrite ?le_enc_length; lia).
Qed.
Lemma put_uint_length o v d : 0 ≤ o → o + 4 ≤ Z.of_nat (length d) → length (put_uint o v d) = length d.
Proof. intros. apply put_length; [done|]. rewrite le_enc_length. lia. Qed.

(** ** Bitmaps *)

Lemma bit_mark d bi bi' (b : bool) (f : Z → Z) :
  0 ≤ bi → 0 ≤ bi' → (Z.to_nat (bi / 8) < length d)%nat →
  (∀ v i, 0 ≤ i → Z.testbit (f v) i = if decide (i = bi mod 8) then b else Z.testbit v i) →
  bit_set (alter f (Z.to_nat (bi / 8)) d) bi' = if decide (bi' = bi) then b else bit_set d bi'.
Proof.
  intros Hb Hb' Hl Hf. unfold bit_set.
  pose proof (Z.div_mod bi 8 ltac:(lia)) as E. pose proof (Z.div_mod bi' 8 ltac:(lia)) as E'.
  pose proof (Z.div_pos bi 8 Hb ltac:(lia)). pose proof (Z.div_pos bi' 8 Hb' ltac:(lia)).
  pose proof (Z.mod_pos_bound bi' 8 ltac:(lia)).
  destruct (decide (bi' / 8 = bi / 8)) as [Eq|Hne].
  - rewrite Eq. destruct (lookup_lt_is_Some_2 d (Z.to_nat (bi / 8)) Hl) as [v Hv].
    rewrite list_lookup_alter_eq, Hv. change (default 0 (f <$> Some v)) with (f v). rewrite Hf by lia.
    destruct (decide (bi' mod 8 = bi mod 8)); [by rewrite decide_True by lia|by rewrite decide_False by congruence].
  - rewrite list_lookup_alter_ne by lia. by rewrite decide_False by congruence.
Qed.

Lemma bit_mark_used d bi bi' :
  0 ≤ bi → 0 ≤ bi' → (Z.to_nat (bi / 8) < length d)%nat →
  bit_set (mark_used d bi) bi' = if decide (bi' = bi) then true else bit_set d bi'.
Proof.
  intros ? ? ?. apply bit_mark; try done. intros v i Hi. pose proof (Z.mod_pos_bound bi 8 ltac:(lia)).
  rewrite Z.lor_spec, Z.shiftl_1_l. destruct (decide (i = bi mod 8)) as [->|].
  - rewrite Z.pow2_bits_true by lia. apply orb_true_r.
  - rewrite Z.pow2_bits_false by lia. apply orb_false_r.
Qed.
Lemma bit_mark_free d bi bi' :
  0 ≤ bi → 0 ≤ bi' → (Z.to_nat (bi / 8) < length d)%nat →
  bit_set (mark_free d bi) bi' = if decide (bi' = bi) then false else bit_set d bi'.
Proof.
  intros ? ? ?. apply bit_mark; try done. intros v i Hi. pose proof (Z.mod_pos_bound bi 8 ltac:(lia)).
  rewrite Z.land_spec, Z.lnot_spec, Z.shiftl_1_l by lia. destruct (decide (i = bi mod 8)) as [->|].
  - rewrite Z.pow2_bits_true by lia. apply andb_false_r.
  - rewrite Z.pow2_bits_false by lia. apply andb_true_r.
Qed.

(** ** The layout of the disk *)

Section layout.
Context (sb : superblock).

(** The first block that holds file data. *)
Definition dstart : Z := bmapstart sb + sb_size sb / BPB + 1.
Record layout_ok : Prop := {
  lo_inode : 1 < inodestart sb;
  lo_inodes : inodestart sb + ninodes sb / IPB + 1 ≤ bmapstart sb;
  lo_data : dstart ≤ sb_size sb;
  lo_size : 0 < sb_size sb < 2 ^ 31;
  lo_ninodes : 0 ≤ ninodes sb < 2 ^ 16;
}.
Context (Hsb : layout_ok).

Definition used (w : fsw) (b : Z) : bool := bit_set (default [] (blk w !! BBLOCK sb b)) (b mod BPB).
Definition is_bitmap (b : Z) : Prop := bmapstart sb ≤ b < dstart.

Record fs_inv (w : fsw) : Prop := {
  fi_block : ∀ b, 0 ≤ b < sb_size sb → ∃ d, blk w !! b = Some d ∧ length d = Z.to_nat BSIZE;
  fi_meta : ∀ b, 0 ≤ b < dstart → used w b = true;
}.

Lemma BBLOCK_range b : 0 ≤ b < sb_size sb → is_bitmap (BBLOCK sb b) ∧ 0 ≤ BBLOCK sb b < dstart.
Proof.
  intros Hb. destruct Hsb. unfold is_bitmap, dstart, BBLOCK in *.
  pose proof (Z.div_pos b BPB ltac:(lia) ltac:(done)). pose proof (Z.div_le_mono b (sb_size sb) BPB ltac:(done) ltac:(lia)).
  pose proof (Z.div_pos (ninodes sb) IPB ltac:(lia) ltac:(done)). lia.
Qed.

Lemma dstart_pos : 0 < dstart ≤ sb_size sb.
Proof.
  destruct Hsb. unfold dstart in *. pose proof (Z.div_pos (ninodes sb) IPB ltac:(lia) ltac:(done)).
  assert (0 ≤ sb_size sb / BPB); [|lia]. apply Z.div_pos; [|done]. lia.
Qed.

Lemma block_at_eq w b d : blk w !! b = Some d → block_at b w = Some (d, w).
Proof. unfold block_at. by intros ->. Qed.
Lemma write_block_eq w b d d' : blk w !! b = Some d → write_block b d' w = Some ((), mkFsw (<[b := d']> (blk w)) (itable w)).
Proof. unfold write_block. by intros ->. Qed.

Lemma find_free_spec n d b bi :
  0 ≤ bi →
  match find_free sb n d b bi with
  | Some r => bi ≤ r < BPB ∧ b + r < sb_size sb ∧ bit_set d r = false ∧ ∀ x, bi ≤ x < r → bit_set d x = true
  | None => BPB ≤ bi + Z.of_nat n → ∀ x, bi ≤ x < BPB → b + x < sb_size sb → bit_set d x = true
  end.
Proof.
  revert bi; induction n as [|n IH]; intros bi Hbi; cbn [find_free]; [intros; lia|].
  destruct (bi <? BPB) eqn:E1, (b + bi <? sb_size sb) eqn:E2; cbn [andb]; try (intros; lia).
  destruct (bit_set d bi) eqn:Ed.
  - specialize (IH (bi + 1) ltac:(lia)). destruct (find_free sb n d b (bi + 1)) as [r|].
    + destruct IH as (H1 & H2 & H3 & H4). split_and!; [lia|lia|lia|done|]. intros x Hx.
      destruct (decide (x = bi)) as [->|]; [done|]. apply H4. lia.
    + intros Hn x Hx Hs. destruct (decide (x = bi)) as [->|]; [done|]. apply IH; lia.
  - split_and!; [lia|lia|lia|done|]. intros x Hx. lia.
Qed.

(** The state in which block [b] has just been allocated. *)
Record allocated (w : fsw) (b : Z) (w' : fsw) : Prop := {
  al_range : dstart ≤ b < sb_size sb;
  al_free : used w b = false;
  al_inv : fs_inv w';
  al_used : ∀ c, 0 ≤ c < sb_size sb → used w' c = if decide (c = b) then true else used w c;
  al_zero : blk w' !! b = Some (replicate (Z.to_nat BSIZE) 0);
  al_frame : ∀ c, c ≠ b → ¬ is_bitmap c → blk w' !! c = blk w !! c;
  al_itable : itable w' = itable w;
}.

(** Changing one bit of the bitmap and the contents of one data block. *)
Lemma bitmap_update w b d0 (v : bool) nd (blk' : gmap Z (list Z)) :
  fs_inv w → dstart ≤ b < sb_size sb → blk w !! BBLOCK sb b = Some d0 →
  length nd = Z.to_nat BSIZE →
  (∀ x, 0 ≤ x < BPB → bit_set nd x = if decide (x = b mod BPB) then v else bit_set d0 x) →
  (∀ c, is_bitmap c → blk' !! c = if decide (c = BBLOCK sb b) then Some nd else blk w !! c) →
  (∀ c, 0 ≤ c < sb_size sb → ¬ is_bitmap c → ∃ d, blk' !! c = Some d ∧ length d = Z.to_nat BSIZE) →
  let w' := mkFsw blk' (itable w) in
  fs_inv w' ∧ ∀ c, 0 ≤ c < sb_size sb → used w' c = if decide (c = b) then v else used w c.
Proof.
  intros [Hb Hm] Hr Hd0 Hnd Hbit Hbm Hoth w'. pose proof dstart_pos as Hds.
  assert (∀ c, 0 ≤ c < sb_size sb → used w' c = if decide (c = b) then v else used w c) as Hused.
  { intros c Hc. destruct (BBLOCK_range c Hc) as [Hc1 _]. unfold used. cbn [blk w']. rewrite (Hbm _ Hc1).
    pose proof (Z.mod_pos_bound c BPB ltac:(done)). case_decide as E.
    - change (default [] (Some nd)) with nd. rewrite Hbit, E, Hd0 by done. change (default [] (Some d0)) with d0.
      assert (c / BPB = b / BPB) as Eq by (unfold BBLOCK in E; lia).
      pose proof (Z.div_mod c BPB ltac:(done)). pose proof (Z.div_mod b BPB ltac:(done)).
      destruct (decide (c mod BPB = b mod BPB)) as [E'|E'].
      + rewrite decide_True; [done|]. rewrite Eq, E' in *. lia.
      + rewrite decide_False; [done|congruence].
    - rewrite decide_False; [done|]. intros ->. done. }
  split; [|done]. split.
  - intros c Hc. destruct (decide (bmapstart sb ≤ c < dstart)) as [Hbc|Hbc]; [|by apply Hoth].
    cbn [blk w']. rewrite Hbm by done. case_decide; [by exists nd|]. by apply Hb.
  - intros c Hc. rewrite Hused by lia. rewrite decide_False by lia. by apply Hm.
Qed.

Lemma mark_length d bi : length (mark_used d bi) = length d ∧ length (mark_free d bi) = length d.
Proof. unfold mark_used, mark_free. by rewrite !length_alter. Qed.

Lemma bit_index x (d : list Z) : 0 ≤ x < BPB → length d = Z.to_nat BSIZE → (Z.to_nat (x / 8) < length d)%nat.
Proof.
  intros Hx ->. assert (x / 8 < BSIZE) by (apply Z.div_lt_upper_bound; [lia|unfold BPB in *; lia]).
  pose proof (Z.div_pos x 8). unfold BSIZE in *. lia.
Qed.

Lemma balloc_loop_spec fuel w b :
  fs_inv w → 0 ≤ b → b mod BPB = 0 → (0 < fuel)%nat → sb_size sb ≤ b + Z.of_nat fuel * BPB - BPB →
  (∀ c, 0 ≤ c < b → c < sb_size sb → used w c = true) →
  (balloc_loop sb fuel b w = Some (0, w) ∧ ∀ c, 0 ≤ c < sb_size sb → used w c = true) ∨
  ∃ r w', balloc_loop sb fuel b w = Some (r, w') ∧ allocated w r w' ∧ ∀ c, 0 ≤ c < r → used w c = true.
Proof.
  revert b; induction fuel as [|fuel IH]; intros b Hinv Hb Hbm Hpos Hfuel Hused; [lia|].
  cbn [balloc_loop]. destruct (b <? sb_size sb) eqn:Eb.
  2:{ left. split; [done|]. intros c Hc. apply Hused; lia. }
  destruct (BBLOCK_range b) as [Hbb Hbr]; [lia|]. pose proof dstart_pos as Hds.
  destruct (fi_block _ Hinv (BBLOCK sb b)) as (d & Hd & Hdl); [lia|].
  rewrite (bind_eq _ _ _ _ _ (block_at_eq _ _ _ Hd)).
  assert (∀ x, 0 ≤ x < BPB → BBLOCK sb (b + x) = BBLOCK sb b ∧ (b + x) mod BPB = x) as Hbx.
  { intros x Hx. unfold BBLOCK. pose proof (Z.div_mod b BPB ltac:(done)) as E.
    replace (b + x) with (x + b / BPB * BPB) by lia. rewrite Z.div_add, Z.mod_add, Z.div_small, Z.mod_small by (done || lia). lia. }
  assert (∀ x, 0 ≤ x < BPB → used w (b + x) = bit_set d x) as Hux.
  { intros x Hx. unfold used. destruct (Hbx x Hx) as [-> ->]. by rewrite Hd. }
  pose proof (find_free_spec (Z.to_nat BPB) d b 0 ltac:(lia)) as Hff.
  destruct (find_free sb (Z.to_nat BPB) d b 0) as [bi|].
  2:{ apply IH; try done.
      - unfold BPB, BSIZE in *. lia.
      - replace (b + BPB) with (b + 1 * BPB) by lia. by rewrite Z.mod_add.
      - unfold BPB, BSIZE in *. lia.
      - lia.
      - intros c Hc Hcs. destruct (decide (c < b)); [apply Hused; lia|].
        replace c with (b + (c - b)) by lia. rewrite Hux by lia. apply Hff; lia. }
  right. destruct Hff as (Hbi & Hbs & Hfree & Hprev). exists (b + bi).
  assert (used w (b + bi) = false) as Huf by by rewrite Hux.
  assert (dstart ≤ b + bi) as Hge.
  { destruct (decide (dstart ≤ b + bi)); [done|]. rewrite (fi_meta _ Hinv) in Huf by lia. done. }
  destruct (Hbx bi Hbi) as [Ebb Ebm].
  rewrite (bind_eq _ _ _ _ _ (write_block_eq _ _ _ (mark_used d bi) Hd)).
  set (w1 := mkFsw (<[BBLOCK sb b := mark_used d bi]> (blk w)) (itable w)).
  destruct (fi_block _ Hinv (b + bi)) as (d0 & Hd0 & _); [lia|].
  assert (blk w1 !! (b + bi) = Some d0) as Hd1.
  { cbn [blk w1]. rewrite lookup_insert_ne; [done|]. unfold is_bitmap in *. lia. }
  unfold bzero. rewrite bind_assoc. rewrite (bind_eq _ _ _ _ _ (block_at_eq _ _ _ Hd1)).
  rewrite (bind_eq _ _ _ _ _ (write_block_eq _ _ _ (replicate (Z.to_nat BSIZE) 0) Hd1)). cbn [blk itable w1].
  eexists. split; [reflexivity|].
  destruct (bitmap_update w (b + bi) d true (mark_used d bi)
    (<[b + bi := replicate (Z.to_nat BSIZE) 0]> (<[BBLOCK sb b := mark_used d bi]> (blk w)))) as [Hinv' Hused'].
  { done. } { lia. } { by rewrite Ebb. } { rewrite (proj1 (mark_length d bi)). done. }
  { intros x Hx. rewrite Ebm. apply bit_mark_used; [lia|lia|]. by apply bit_index. }
  { intros c Hc. rewrite Ebb. rewrite lookup_insert_ne by (unfold is_bitmap in *; lia).
    case_decide as E; [subst; apply lookup_insert_eq|by rewrite lookup_insert_ne]. }
  { intros c Hc Hnb. destruct (decide (c = b + bi)) as [->|Hne].
    - rewrite lookup_insert_eq. eexists. split; [done|]. by rewrite length_replicate.
    - rewrite !lookup_insert_ne; [by apply (fi_block _ Hinv)|intros <-; done|done]. }
  split.
  - split; [lia|done|done|done| | |done]; cbn [blk].
    + apply lookup_insert_eq.
    + intros c Hc Hnb. rewrite !lookup_insert_ne; [done|intros <-; done|done].
  - intros c Hc. destruct (decide (c < b)); [apply Hused; lia|]. replace c with (b + (c - b)) by lia.
    rewrite Hux by lia. apply Hprev. lia.
Qed.

(** [balloc] takes the first free block and clears it; it gives 0 when every
    block is in use. *)
Lemma balloc_spec w :
  fs_inv w →
  (balloc sb w = Some (0, w) ∧ ∀ c, 0 ≤ c < sb_size sb → used w c = true) ∨
  ∃ r w', balloc sb w = Some (r, w') ∧ allocated w r w' ∧ ∀ c, 0 ≤ c < r → used w c = true.
Proof.
  intros Hinv. apply balloc_loop_spec; [done|lia|done|lia| |intros; lia].
  destruct Hsb. pose proof (Z.div_mod (sb_size sb) BPB ltac:(done)). pose proof (Z.mod_pos_bound (sb_size sb) BPB ltac:(done)).
  pose proof (Z.div_pos (sb_size sb) BPB ltac:(lia) ltac:(done)). unfold BPB, BSIZE in *. lia.
Qed.

(** [bfree] of a data block that is in use. *)
Lemma bfree_spec w b :
  fs_inv w → dstart ≤ b < sb_size sb → used w b = true →
  ∃ w', bfree sb b w = Some ((), w') ∧ fs_inv w' ∧ itable w' = itable w ∧
    (∀ c, 0 ≤ c < sb_size sb → used w' c = if decide (c = b) then false else used w c) ∧
    ∀ c, ¬ is_bitmap c → blk w' !! c = blk w !! c.
Proof.
  intros Hinv Hb Hu. pose proof dstart_pos as Hds. destruct (BBLOCK_range b) as [Hbb Hbr]; [lia|].
  destruct (fi_block _ Hinv (BBLOCK sb b)) as (d & Hd & Hdl); [lia|]. unfold bfree.
  rewrite (bind_eq _ _ _ _ _ (block_at_eq _ _ _ Hd)). unfold used in Hu. rewrite Hd in Hu.
  change (default [] (Some d)) with d in Hu. rewrite Hu.
  rewrite (write_block_eq _ _ _ _ Hd). eexists. split; [reflexivity|].
  pose proof (Z.mod_pos_bound b BPB ltac:(done)).
  destruct (bitmap_update w b d false (mark_free d (b mod BPB)) (<[BBLOCK sb b := mark_free d (b mod BPB)]> (blk w))) as [Hinv' Hused'].
  { done. } { done. } { done. } { rewrite (proj2 (mark_length d _)). done. }
  { intros x Hx. apply bit_mark_free; [lia|lia|]. by apply bit_index. }
  { intros c Hc. case_decide as E; [subst; apply lookup_insert_eq|by rewrite lookup_insert_ne]. }
  { intros c Hc Hnb. rewrite lookup_insert_ne; [by apply (fi_block _ Hinv)|intros <-; done]. }
  split_and!; [done|done|done|]. intros c Hnb. cbn [blk]. apply lookup_insert_ne. intros <-. done.
Qed.
End layout.
