(* ===== verification/FsFile.v ===== *)
(** The contents of a file: [bmap], [readi] and [writei] of [xv6/kernel/fs.c]
    against an array of bytes. *)
From S2P Require Import Prelude Fs FsBlock.

Lemma MAXFILE_val : MAXFILE = 268.
Proof. reflexivity. Qed.
(** [lia] with the sizes of the file system. *)
Ltac fslia := rewrite ?MAXFILE_val in *; unfold BSIZE, NDIRECT in *; lia.

Section file.
Context (sb : superblock) (Hsb : layout_ok sb).
Implicit Types (w : fsw) (p : inode).

(** The block number in slot [j] of a file; slot [MAXFILE] is the indirect
    block, and 0 is none. *)
Definition indirect p : Z := default 0 (addrs p !! Z.to_nat NDIRECT).
Definition fblock w p (j : Z) : Z :=
  if j <? NDIRECT then default 0 (addrs p !! Z.to_nat j)
  else if j =? MAXFILE then indirect p
  else if indirect p =? 0 then 0
  else get_uint (4 * (j - NDIRECT)) (default [] (blk w !! indirect p)).

Definition zeros : list Z := replicate (Z.to_nat BSIZE) 0.
(** Block [i] of the contents; a block that is not there reads as zeros. *)
Definition fdata w p (i : Z) : list Z :=
  if fblock w p i =? 0 then zeros else default [] (blk w !! fblock w p i).
Definition fbyte w p (k : Z) : Z := default 0 (fdata w p (k / BSIZE) !! Z.to_nat (k mod BSIZE)).

(** A file in the inode table at [ip]: its blocks are data blocks in use, no
    two slots share one, and every block below the size is there. *)
Record file_inv w (ip : nat) p : Prop := {
  fv_ip : itable w !! ip = Some p;
  fv_len : length (addrs p) = 13%nat;
  fv_slot : ∀ j, 0 ≤ j ≤ MAXFILE → fblock w p j ≠ 0 →
    dstart sb ≤ fblock w p j < sb_size sb ∧ used sb w (fblock w p j) = true;
  fv_inj : ∀ i j, 0 ≤ i ≤ MAXFILE → 0 ≤ j ≤ MAXFILE → fblock w p i ≠ 0 → fblock w p i = fblock w p j → i = j;
  fv_dense : ∀ i, 0 ≤ i → i * BSIZE < size p → fblock w p i ≠ 0;
  fv_size : 0 ≤ size p ≤ MAXFILE * BSIZE;
  fv_inum : 0 ≤ inum p < ninodes sb;
}.

(** Everything about an inode but its block numbers. *)
Definition same_meta p p' : Prop :=
  dev p' = dev p ∧ inum p' = inum p ∧ ref p' = ref p ∧ locked p' = locked p ∧ valid p' = valid p ∧
  type p' = type p ∧ major p' = major p ∧ minor p' = minor p ∧ nlink p' = nlink p.

(** What an operation on the file does to the rest: blocks of others stay,
    the file takes only blocks that were free. *)
Record others_kept w (ip : nat) p w' p' : Prop := {
  ok_blocks : ∀ c, 0 ≤ c < sb_size sb → used sb w c = true → ¬ is_bitmap sb c →
    (∀ j, 0 ≤ j ≤ MAXFILE → fblock w p j ≠ c) → blk w' !! c = blk w !! c;
  ok_used : ∀ c, 0 ≤ c < sb_size sb → used sb w c = true → used sb w' c = true;
  ok_own : ∀ j, 0 ≤ j ≤ MAXFILE → fblock w' p' j ≠ 0 →
    fblock w' p' j = fblock w p j ∨ used sb w (fblock w' p' j) = false;
  ok_keep : ∀ j, 0 ≤ j ≤ MAXFILE → fblock w p j ≠ 0 → fblock w' p' j = fblock w p j;
  ok_table : ∀ j, j ≠ ip → itable w' !! j = itable w !! j;
}.

Lemma others_refl w ip p : others_kept w ip p w p.
Proof. split; auto. Qed.

Lemma others_trans w ip p w1 p1 w2 p2 :
  (∀ j, 0 ≤ j ≤ MAXFILE → fblock w1 p1 j ≠ 0 → dstart sb ≤ fblock w1 p1 j < sb_size sb) →
  (∀ j, 0 ≤ j ≤ MAXFILE → fblock w2 p2 j ≠ 0 → dstart sb ≤ fblock w2 p2 j < sb_size sb) →
  others_kept w ip p w1 p1 → others_kept w1 ip p1 w2 p2 → others_kept w ip p w2 p2.
Proof.
  intros Hr1 Hr2 [Hb1 Hu1 Ho1 Hk1 Ht1] [Hb2 Hu2 Ho2 Hk2 Ht2]. pose proof (dstart_pos sb Hsb) as Hds. split.
  - intros c Hc Hu Hnb Hno. rewrite Hb2; [by apply Hb1|done|by apply Hu1|done|].
    intros j Hj E. destruct (decide (c = 0)) as [->|Hc0].
    + destruct (decide (fblock w p j = 0)) as [E0|E0]; [by apply (Hno j)|]. rewrite (Hk1 j Hj E0) in E. done.
    + destruct (Ho1 j Hj ltac:(congruence)) as [E'|E']; [apply (Hno j Hj); congruence|]. rewrite E in E'. congruence.
  - intros c Hc Hu. by apply Hu2, Hu1.
  - intros j Hj Hne. destruct (Ho2 j Hj Hne) as [E|E].
    + rewrite E in *. destruct (Ho1 j Hj Hne) as [E1|E1]; [by left|by right].
    + right. destruct (used sb w (fblock w2 p2 j)) eqn:Eu; [|done].
      assert (0 ≤ fblock w2 p2 j < sb_size sb) as Hr by (specialize (Hr2 j Hj Hne); lia).
      by rewrite (Hu1 _ Hr Eu) in E.
  - intros j Hj Hne. rewrite Hk2 by (rewrite ?Hk1; done). by apply Hk1.
  - intros j Hj. by rewrite Ht2, Ht1.
Qed.

(** ** Adding a block *)

Lemma fs_used_ext w w' c :
  0 ≤ c < sb_size sb → (∀ b, is_bitmap sb b → blk w' !! b = blk w !! b) → used sb w' c = used sb w c.
Proof. intros Hc Hb. unfold used. by rewrite Hb by (by apply BBLOCK_range). Qed.

Lemma data_not_bitmap c : dstart sb ≤ c → ¬ is_bitmap sb c.
Proof. unfold is_bitmap. lia. Qed.

(** A block [r] that was free becomes slot [idx]. *)
Lemma grow_file w ip p r w1 w2 p2 idx :
  file_inv w ip p → allocated sb w r w1 → 0 ≤ idx ≤ MAXFILE → fblock w p idx = 0 →
  itable w2 = <[ip := p2]> (itable w) → length (addrs p2) = 13%nat → same_meta p p2 → size p2 = size p →
  (∀ j, 0 ≤ j ≤ MAXFILE → fblock w2 p2 j = if decide (j = idx) then r else fblock w p j) →
  (∀ c, is_bitmap sb c → blk w2 !! c = blk w1 !! c) →
  (∀ c, ¬ is_bitmap sb c → c ≠ r → (idx = MAXFILE ∨ c ≠ fblock w p MAXFILE) → blk w2 !! c = blk w !! c) →
  blk w2 !! r = Some zeros →
  file_inv w2 ip p2 ∧ others_kept w ip p w2 p2 ∧ ∀ i, 0 ≤ i < MAXFILE → fdata w2 p2 i = fdata w p i.
Proof.
  intros Hf Hal Hidx Hz Hit Hlen Hmeta Hsz Hfb Hbm Hfr Hr0. destruct Hal as [Hrr Hrf Hinv1 Hu1 _ _ _].
  pose proof (dstart_pos sb Hsb) as Hds. pose proof Hf as [Hip _ Hslot Hinj Hdense Hsize Hinum].
  assert (∀ c, 0 ≤ c < sb_size sb → used sb w2 c = if decide (c = r) then true else used sb w c) as Hu2.
  { intros c Hc. rewrite (fs_used_ext w1 w2) by done. by apply Hu1. }
  assert (∀ j, 0 ≤ j ≤ MAXFILE → fblock w p j ≠ r) as Hnr.
  { intros j Hj E. destruct (Hslot j Hj) as [_ Hu]; [lia|]. rewrite E in Hu. congruence. }
  split_and!.
  - split; try done.
    + rewrite Hit. apply list_lookup_insert_eq. by eapply lookup_lt_Some.
    + intros j Hj. rewrite Hfb by done. case_decide as E; intros Hne.
      * split; [done|]. rewrite Hu2 by lia. by rewrite decide_True.
      * destruct (Hslot j Hj Hne) as [? Hu]. split; [done|]. rewrite Hu2 by lia. by case_decide.
    + intros i j Hi Hj. rewrite !Hfb by done. repeat case_decide; subst; try done.
      * intros _ E. symmetry in E. by apply Hnr in E.
      * intros _ E. by apply Hnr in E.
      * by apply Hinj.
    + intros i Hi Hlt. rewrite Hsz in Hlt. rewrite Hfb by fslia.
      case_decide; [lia|]. by apply Hdense.
    + by rewrite Hsz.
    + destruct Hmeta as (_ & -> & _). done.
  - split.
    + intros c Hc Hu Hnb Hno. apply Hfr; [done| |right; by apply not_eq_sym, Hno; fslia].
      intros ->. congruence.
    + intros c Hc Hu. rewrite Hu2 by done. by case_decide.
    + intros j Hj. rewrite Hfb by done. case_decide; [by right|by left].
    + intros j Hj Hne. rewrite Hfb by done. case_decide; [congruence|done].
    + intros j Hj. rewrite Hit. by apply list_lookup_insert_ne.
  - intros i Hi. unfold fdata. rewrite Hfb by lia. case_decide as E.
    + subst. rewrite Hz. rewrite (proj2 (Z.eqb_neq r 0)) by lia. rewrite Hr0. done.
    + destruct (decide (fblock w p i = 0)) as [E0|E0]; [by rewrite E0|].
      rewrite (proj2 (Z.eqb_neq _ 0)) by done. destruct (Hslot i ltac:(lia) E0) as [Hr _].
      rewrite Hfr; [done|apply data_not_bitmap; lia|apply Hnr; lia|right].
      intros Ei. apply (Hinj i MAXFILE) in Ei; [lia|lia|fslia|done].
Qed.

(** ** [bmap] *)

(** The file has possibly gained blocks of zeros; its contents are the same. *)
Record extends_file w ip p w' p' : Prop := {
  xf_inv : fs_inv sb w';
  xf_file : file_inv w' ip p';
  xf_others : others_kept w ip p w' p';
  xf_data : ∀ i, 0 ≤ i < MAXFILE → fdata w' p' i = fdata w p i;
  xf_meta : same_meta p p' ∧ size p' = size p;
}.
(** Every block is in use. *)
Definition full w : Prop := ∀ c, 0 ≤ c < sb_size sb → used sb w c = true.

Lemma file_slot_range w ip p :
  file_inv w ip p → ∀ j, 0 ≤ j ≤ MAXFILE → fblock w p j ≠ 0 → dstart sb ≤ fblock w p j < sb_size sb.
Proof. intros Hf j Hj Hne. by apply (fv_slot _ _ _ Hf). Qed.

Lemma extends_file_refl w ip p : fs_inv sb w → file_inv w ip p → extends_file w ip p w p.
Proof. intros. split; try done. apply others_refl. Qed.
Lemma extends_file_trans w ip p w1 p1 w2 p2 :
  extends_file w ip p w1 p1 → extends_file w1 ip p1 w2 p2 → extends_file w ip p w2 p2.
Proof.
  intros [_ Hf1 Ho1 Hd1 [Hm1 Hs1]] [Hi2 Hf2 Ho2 Hd2 [Hm2 Hs2]]. split; try done.
  - eapply (others_trans w ip p w1 p1); [by eapply file_slot_range|by eapply file_slot_range|done|done].
  - intros i Hi. by rewrite Hd2, Hd1.
  - unfold same_meta in *. destruct_and!. split_and!; congruence.
Qed.

Lemma get_uint_zeros o : get_uint o zeros = 0.
Proof.
  unfold get_uint. assert (∀ bs, Forall (λ b, b = 0) bs → le_dec bs = 0) as Hz.
  { induction 1 as [|b bs -> _ IH]; cbn [le_dec]; lia. }
  apply Hz. unfold slice. apply Forall_take, Forall_drop. unfold zeros. by apply Forall_replicate.
Qed.

Lemma set_addr_lookup i j v p : (i < length (addrs p))%nat →
  default 0 (addrs (set_addr i v p) !! j) = if decide (j = i) then v else default 0 (addrs p !! j).
Proof.
  intros Hi. cbn [set_addr addrs]. case_decide; [subst; by rewrite list_lookup_insert_eq|by rewrite list_lookup_insert_ne].
Qed.

(** The slot that entry [i] of the inode is. *)
Definition slot_of (i : nat) : Z := if decide (i < 12)%nat then Z.of_nat i else MAXFILE.

Lemma fblock_set_addr w w' p i r j :
  (i ≤ 12)%nat → length (addrs p) = 13%nat → 0 ≤ j ≤ MAXFILE → fblock w p (slot_of i) = 0 → r ≠ 0 →
  (i = 12%nat → blk w' !! r = Some zeros) →
  (indirect p ≠ 0 → blk w' !! indirect p = blk w !! indirect p) →
  fblock w' (set_addr i r p) j = if decide (j = slot_of i) then r else fblock w p j.
Proof.
  intros Hi Hlen Hj Hz Hr Hzero Hind. unfold fblock, slot_of, indirect in *. change (Z.to_nat NDIRECT) with 12%nat in *.
  rewrite !set_addr_lookup by lia.
  destruct (j <? NDIRECT) eqn:E1.
  { assert (0 ≤ j < 12) by (unfold NDIRECT in *; lia). destruct (decide (i < 12)%nat) as [H12|H12].
    - destruct (decide (j = Z.of_nat i)) as [->|]; [by rewrite decide_True by lia|by rewrite decide_False by lia].
    - rewrite decide_False by lia. rewrite decide_False by fslia. done. }
  assert (12 ≤ j) by (unfold NDIRECT in *; lia).
  destruct (decide (i < 12)%nat) as [H12|H12].
  - rewrite (decide_False (P := 12%nat = i)) by lia. rewrite (decide_False (P := j = Z.of_nat i)) by lia.
    destruct (j =? MAXFILE); [done|]. destruct (default 0 (addrs p !! 12%nat) =? 0) eqn:E; [done|].
    rewrite Hind by lia. done.
  - assert (i = 12%nat) as -> by lia. rewrite (decide_True (P := 12%nat = 12%nat)) by done.
    change (MAXFILE <? NDIRECT) with false in Hz. change (MAXFILE =? MAXFILE) with true in Hz. cbn iota in Hz.
    destruct (j =? MAXFILE) eqn:E2; [by rewrite decide_True by lia|]. rewrite decide_False by lia.
    rewrite (proj2 (Z.eqb_neq r 0)) by done. rewrite Hz, Hzero by done. cbn [Z.eqb].
    change (default [] (Some zeros)) with zeros. apply get_uint_zeros.
Qed.

Lemma bmap_slot_spec w ip p i :
  fs_inv sb w → file_inv w ip p → (i ≤ 12)%nat →
  ∃ w' p', bmap_slot sb ip i w = Some (fblock w' p' (slot_of i), w') ∧ extends_file w ip p w' p' ∧
    (fblock w p (slot_of i) ≠ 0 → w' = w ∧ p' = p) ∧ (fblock w' p' (slot_of i) = 0 → full w').
Proof.
  intros Hinv Hf Hi. pose proof Hf as [Hip Hlen _ _ _ _ _]. unfold bmap_slot.
  rewrite (bind_eq _ _ _ p w) by (unfold the_ip; by rewrite Hip).
  destruct (lookup_lt_is_Some_2 (addrs p) i) as [a Ha]; [lia|]. rewrite Ha.
  assert (fblock w p (slot_of i) = a) as Efb.
  { unfold fblock, slot_of, indirect. change (Z.to_nat NDIRECT) with 12%nat. destruct (decide (i < 12)%nat).
    - rewrite (proj2 (Z.ltb_lt _ _)), Nat2Z.id, Ha by fslia. done.
    - assert (i = 12%nat) as -> by lia. change (MAXFILE <? NDIRECT) with false. change (MAXFILE =? MAXFILE) with true. by rewrite Ha. }
  destruct (decide (a = 0)) as [->|Hne].
  2:{ rewrite (proj2 (Z.eqb_neq a 0) Hne). exists w, p. rewrite Efb. split_and!; [done|by apply extends_file_refl|done|done]. }
  change (0 =? 0) with true. cbn iota.
  destruct (balloc_spec sb Hsb w Hinv) as [[E Hfull]|(r & w1 & E & Hal & _)]; rewrite (bind_eq _ _ _ _ _ E).
  { exists w, p. rewrite Efb. split_and!; [done|by apply extends_file_refl|done|done]. }
  pose proof Hal as [Hrr Hrf Hinv1 Hu1 Hz1 Hfr1 Hit1]. pose proof (dstart_pos sb Hsb) as Hds.
  rewrite (proj2 (Z.eqb_neq r 0)) by lia.
  set (p2 := set_addr i r p). set (w2 := mkFsw (blk w1) (<[ip := p2]> (itable w))).
  rewrite (bind_eq _ _ _ () w2) by (unfold upd_ip; by rewrite Hit1, Hip).
  assert (∀ j, 0 ≤ j ≤ MAXFILE → fblock w2 p2 j = if decide (j = slot_of i) then r else fblock w p j) as Hfb.
  { intros j Hj. apply fblock_set_addr; try done; [lia|]. intros Hi0. cbn [blk w2].
    pose proof (fv_slot _ _ _ Hf MAXFILE ltac:(fslia)) as Hs. change (fblock w p MAXFILE) with (indirect p) in Hs.
    destruct (Hs Hi0) as [Hr Hu]. apply Hfr1; [|apply data_not_bitmap; lia]. intros E'. rewrite E' in Hu. congruence. }
  assert (0 ≤ slot_of i ≤ MAXFILE) as Hslot by (unfold slot_of; case_decide; fslia).
  destruct (grow_file w ip p r w1 w2 p2 (slot_of i)) as (Hf2 & Ho2 & Hd2); try done.
  { cbn [p2 set_addr addrs]. by rewrite length_insert. }
  { intros c Hc Hcr _. by apply Hfr1. }
  exists w2, p2. rewrite Hfb, decide_True by done. split_and!; [done| |congruence|lia].
  split; try done. split; [|apply (fi_meta _ _ Hinv1)]. apply (fi_block _ _ Hinv1).
Qed.

(** Entry [k] of the indirect block is set to [r]. *)
Lemma fblock_set_entry w w' p k r j d :
  0 ≤ k < NINDIRECT → 0 ≤ j ≤ MAXFILE → indirect p ≠ 0 → blk w !! indirect p = Some d → length d = Z.to_nat BSIZE →
  blk w' !! indirect p = Some (put_uint (4 * k) r d) → 0 ≤ r < 2 ^ 32 →
  fblock w' p j = if decide (j = NDIRECT + k) then r else fblock w p j.
Proof.
  intros Hk Hj Hi Hd Hl Hd' Hr. change NINDIRECT with 256 in Hk. unfold fblock. destruct (j <? NDIRECT) eqn:E1.
  { rewrite decide_False by fslia. done. }
  destruct (j =? MAXFILE) eqn:E2; [rewrite decide_False by fslia; done|].
  rewrite (proj2 (Z.eqb_neq _ 0)) by done. rewrite Hd, Hd'.
  change (default [] (Some ?x)) with x.
  assert (Z.of_nat (length d) = 1024) as Hl' by (rewrite Hl; done).
  destruct (decide (j = NDIRECT + k)) as [->|Hne].
  - replace (NDIRECT + k - NDIRECT) with k by lia. apply get_put_uint; lia.
  - apply get_put_uint_other; fslia.
Qed.

(** A block [r] that was free becomes entry [k] of the indirect block. *)
Lemma grow_entry w ip p k r w2 d :
  file_inv w ip p → allocated sb w r w2 → 0 ≤ k < NINDIRECT → fblock w p (NDIRECT + k) = 0 →
  indirect p ≠ 0 → blk w !! indirect p = Some d → length d = Z.to_nat BSIZE →
  let w3 := mkFsw (<[indirect p := put_uint (4 * k) r d]> (blk w2)) (itable w2) in
  blk w2 !! indirect p = Some d ∧ extends_file w ip p w3 p ∧ fblock w3 p (NDIRECT + k) = r.
Proof.
  intros Hf Hal Hk Hz Hi Hd Hdl w3. pose proof Hal as [Hrr Hrf Hinv2 Hu2 Hz2 Hfr2 Hit2].
  pose proof (dstart_pos sb Hsb) as Hds. assert (0 ≤ r < 2 ^ 32) as Hr32 by (destruct Hsb; lia).
  destruct (fv_slot _ _ _ Hf MAXFILE ltac:(fslia) Hi) as [Hr1 Hu1]. change (fblock w p MAXFILE) with (indirect p) in *.
  assert (indirect p ≠ r) as Hir by (intros E'; rewrite E' in Hu1; congruence).
  assert (¬ is_bitmap sb (indirect p)) as Hnb by (apply data_not_bitmap; lia).
  assert (∀ j, 0 ≤ j ≤ MAXFILE → fblock w3 p j = if decide (j = NDIRECT + k) then r else fblock w p j) as Hfb.
  { intros j Hj. apply (fblock_set_entry w w3 p k r j d); try done. cbn [blk w3]. apply lookup_insert_eq. }
  assert (0 ≤ NDIRECT + k < MAXFILE) as Hkm by (change NINDIRECT with 256 in Hk; fslia).
  split; [rewrite Hfr2; done|]. split; [|rewrite Hfb, decide_True by (done || lia); done].
  destruct (grow_file w ip p r w2 w3 p (NDIRECT + k)) as (Hf3 & Ho3 & Hd3).
  { done. } { done. } { lia. } { done. }
  { cbn [itable w3]. rewrite Hit2. symmetry. apply list_insert_id, (fv_ip _ _ _ Hf). }
  { apply (fv_len _ _ _ Hf). } { done. } { done. } { done. }
  { intros c Hc. cbn [blk w3]. rewrite lookup_insert_ne; [done|]. intros <-. done. }
  { intros c Hnbc Hcr Hci. cbn [blk w3]. destruct Hci as [Hci|Hci]; [lia|]. rewrite lookup_insert_ne by done. by apply Hfr2. }
  { cbn [blk w3]. by rewrite lookup_insert_ne. }
  split; try done. split.
  - intros b Hb. cbn [blk w3]. destruct (decide (b = indirect p)) as [->|Hne].
    + rewrite lookup_insert_eq. eexists. split; [done|]. change NINDIRECT with 256 in Hk.
      rewrite put_uint_length; [done|lia|]. rewrite Hdl. change (Z.of_nat (Z.to_nat BSIZE)) with 1024. lia.
    + rewrite lookup_insert_ne by done. by apply (fi_block _ _ Hinv2).
  - intros b Hb. rewrite (fs_used_ext w2 w3); [by apply (fi_meta _ _ Hinv2)|lia|].
    intros c Hc. cbn [blk w3]. apply lookup_insert_ne. intros <-. done.
Qed.

(** [bmap] gives the block in slot [bn], which it allocates if need be; the
    contents of the file stay as they are, and 0 means that the disk is full. *)
Lemma bmap_spec w ip p bn :
  fs_inv sb w → file_inv w ip p → 0 ≤ bn < MAXFILE →
  ∃ w' p', bmap sb ip bn w = Some (fblock w' p' bn, w') ∧ extends_file w ip p w' p' ∧
    (fblock w p bn ≠ 0 → w' = w ∧ p' = p) ∧ (fblock w' p' bn = 0 → full w').
Proof.
  intros Hinv Hf Hbn. unfold bmap. destruct (bn <? NDIRECT) eqn:E1.
  { destruct (bmap_slot_spec w ip p (Z.to_nat bn) Hinv Hf) as (w' & p' & E & ?); [fslia|].
    replace (slot_of (Z.to_nat bn)) with bn in * by (unfold slot_of; rewrite decide_True by fslia; lia). by exists w', p'. }
  assert (0 ≤ bn - NDIRECT < NINDIRECT) as Hk by (change NINDIRECT with 256; fslia).
  rewrite (proj2 (Z.ltb_lt _ _)) by lia. set (k := bn - NDIRECT) in *.
  destruct (bmap_slot_spec w ip p 12 Hinv Hf) as (w1 & p1 & E & Hx1 & Hsame & Hfull1); [lia|].
  change (slot_of 12) with MAXFILE in *. change (Z.to_nat NDIRECT) with 12%nat. rewrite (bind_eq _ _ _ _ _ E). clear E.
  change (fblock w1 p1 MAXFILE) with (indirect p1) in *. change (fblock w p MAXFILE) with (indirect p) in *.
  assert (∀ w0 p0, fblock w0 p0 bn = if indirect p0 =? 0 then 0 else get_uint (4 * k) (default [] (blk w0 !! indirect p0))) as Hfb.
  { intros w0 p0. unfold fblock. rewrite E1, (proj2 (Z.eqb_neq bn MAXFILE)) by lia. done. }
  assert (fblock w p bn ≠ 0 → w1 = w ∧ p1 = p) as Hsame'.
  { rewrite Hfb. intros Hne. apply Hsame. intros E. rewrite E in Hne. done. }
  destruct (decide (indirect p1 = 0)) as [E0|E0].
  { rewrite E0. change (0 =? 0) with true. cbn iota. exists w1, p1. rewrite Hfb, E0. split_and!; try done. intros _. by apply Hfull1. }
  rewrite (proj2 (Z.eqb_neq _ 0) E0). pose proof Hx1 as [Hinv1 Hf1 _ _ _].
  destruct (fi_block _ _ Hinv1 (indirect p1)) as (d & Hd & Hdl).
  { pose proof (file_slot_range _ _ _ Hf1 MAXFILE ltac:(fslia) E0). change (fblock w1 p1 MAXFILE) with (indirect p1) in *.
    pose proof (dstart_pos sb Hsb). lia. }
  rewrite (bind_eq _ _ _ _ _ (block_at_eq _ _ _ Hd)). cbv zeta.
  assert (fblock w1 p1 bn = get_uint (4 * k) d) as Ee by (rewrite Hfb, (proj2 (Z.eqb_neq _ 0) E0), Hd; done).
  rewrite <-Ee. destruct (decide (fblock w1 p1 bn = 0)) as [Ez|Hne].
  2:{ rewrite (proj2 (Z.eqb_neq _ 0) Hne). by exists w1, p1. }
  rewrite Ez. change (0 =? 0) with true. cbn iota.
  destruct (balloc_spec sb Hsb w1 Hinv1) as [[E Hfull]|(r & w2 & E & Hal & _)]; rewrite (bind_eq _ _ _ _ _ E).
  { exists w1, p1. rewrite Ez. by split_and!. }
  replace bn with (NDIRECT + k) in * by lia.
  destruct (grow_entry w1 ip p1 k r w2 d Hf1 Hal Hk Ez E0 Hd Hdl) as (Hd2 & Hx3 & Er).
  pose proof (al_range _ _ _ _ Hal) as Hrr. pose proof (dstart_pos sb Hsb) as Hds.
  rewrite (proj2 (Z.eqb_neq r 0)) by lia. cbn [negb when].
  rewrite (bind_assoc (block_at _)). rewrite (bind_eq _ _ _ _ _ (block_at_eq _ _ _ Hd2)).
  rewrite (bind_eq _ _ _ _ _ (write_block_eq _ _ _ (put_uint (4 * k) r d) Hd2)).
  eexists _, p1. rewrite Er. split_and!; [reflexivity|by eapply extends_file_trans| |lia].
  intros Hne. destruct (Hsame' Hne) as [-> ->]. congruence.
Qed.
End file.

(** A small disk with one file of three bytes, to run the definitions on. *)

(** Blocks 2 and 3 hold inodes, 4 is the bitmap, 5 to 15 are data. *)
Definition demo_sb : superblock := mkSb FSMAGIC 16 11 16 0 2 2 4.
Definition demo_blocks : gmap Z (list Z) :=
  <[4 := put 0 [63] zeros]> (<[5 := put 0 [104; 105; 33] zeros]> (list_to_map ((λ b, (b, zeros)) <$> seqZ 0 16))).
Definition demo_inode : inode := mkInode 1 3 1 true true 2 0 0 1 3 (5 :: replicate 12 0).
Definition demo_fs : fsw := mkFsw demo_blocks [demo_inode].

Lemma demo_layout : layout_ok demo_sb.
Proof. split; by vm_compute. Qed.

Lemma demo_fs_inv : fs_inv demo_sb demo_fs.
Proof.
  assert (Forall (λ b, match blk demo_fs !! b with Some d => length d = Z.to_nat BSIZE | None => False end) (seqZ 0 16)) as H1.
  { repeat (constructor; [by vm_compute|]). constructor. }
  assert (Forall (λ b, used demo_sb demo_fs b = true) (seqZ 0 5)) as H2.
  { repeat (constructor; [by vm_compute|]). constructor. }
  split.
  - intros b Hb. change (sb_size demo_sb) with 16 in Hb. rewrite Forall_forall in H1.
    specialize (H1 b ltac:(apply elem_of_seqZ; lia)). cbn beta in H1.
    destruct (blk demo_fs !! b) as [d|]; [by exists d|done].
  - intros b Hb. change (dstart demo_sb) with 5 in Hb. rewrite Forall_forall in H2. apply H2, elem_of_seqZ. lia.
Qed.

Lemma demo_fblock j : 0 ≤ j ≤ MAXFILE → fblock demo_fs demo_inode j = if decide (j = 0) then 5 else 0.
Proof.
  intros Hj. unfold fblock, indirect. cbn [demo_inode addrs]. change (Z.to_nat NDIRECT) with 12%nat.
  destruct (decide (j = 0)) as [->|Hne]; [done|]. destruct (j <? NDIRECT) eqn:E.
  - destruct (Z.to_nat j) as [|k] eqn:Ek; [lia|]. cbn [lookup list_lookup].
    destruct (replicate 12 0 !! k) eqn:El; [|done]. by apply lookup_replicate in El as [-> _].
  - by destruct (j =? MAXFILE).
Qed.

Lemma demo_file : file_inv demo_sb demo_fs 0 demo_inode.
Proof.
  split; try done.
  - intros j Hj. rewrite demo_fblock by done. case_decide; [|done]. intros _. by vm_compute.
  - intros i j Hi Hj. rewrite !demo_fblock by done. by repeat case_decide; subst.
  - intros i Hi Hlt. cbn [demo_inode size] in Hlt. unfold BSIZE in Hlt. assert (i = 0) as -> by lia. by vm_compute.
Qed.
