(* ===== verification/FsRw.v ===== *)
(** Reading and writing a file: [readi], [writei] and [itrunc] of
    [xv6/kernel/fs.c]. *)
From S2P Require Import Prelude Fs FsBlock FsFile.

Section rw.
Context (sb : superblock) (Hsb : layout_ok sb).
Implicit Types (w : fsw) (p : inode).

Abbreviation fs_inv := (fs_inv sb).
Abbreviation file_inv := (file_inv sb).
Abbreviation others_kept := (others_kept sb).

Lemma off_split off : off = off / BSIZE * BSIZE + off mod BSIZE ∧ 0 ≤ off mod BSIZE < BSIZE.
Proof. pose proof (Z.div_mod off BSIZE ltac:(done)). pose proof (Z.mod_pos_bound off BSIZE ltac:(done)). lia. Qed.

Lemma bn_range off : 0 ≤ off < MAXFILE * BSIZE → 0 ≤ off / BSIZE < MAXFILE.
Proof. intros [? ?]. split; [apply Z.div_pos; [lia|done]|]. apply Z.div_lt_upper_bound; [done|lia]. Qed.

Lemma fdata_block w ip p i :
  fs_inv w → file_inv w ip p → 0 ≤ i < MAXFILE → fblock w p i ≠ 0 →
  ∃ d, blk w !! fblock w p i = Some d ∧ length d = Z.to_nat BSIZE ∧ fdata w p i = d.
Proof.
  intros Hinv Hf Hi Hne. pose proof (file_slot_range _ _ _ _ Hf i ltac:(lia) Hne) as Hr. pose proof (dstart_pos sb Hsb).
  destruct (fi_block _ _ Hinv (fblock w p i)) as (d & Hd & Hl); [lia|]. exists d. split_and!; [done|done|].
  unfold fdata. by rewrite (proj2 (Z.eqb_neq _ 0) Hne), Hd.
Qed.

(** New contents for a block of the file. *)
Lemma set_data w ip p i d' :
  fs_inv w → file_inv w ip p → 0 ≤ i < MAXFILE → fblock w p i ≠ 0 → length d' = Z.to_nat BSIZE →
  let w' := mkFsw (<[fblock w p i := d']> (blk w)) (itable w) in
  fs_inv w' ∧ file_inv w' ip p ∧ others_kept w ip p w' p ∧
  (∀ j, 0 ≤ j ≤ MAXFILE → fblock w' p j = fblock w p j) ∧
  ∀ j, 0 ≤ j < MAXFILE → fdata w' p j = if decide (j = i) then d' else fdata w p j.
Proof.
  intros Hinv Hf Hi Hne Hl w'. pose proof (dstart_pos sb Hsb) as Hds.
  pose proof (file_slot_range _ _ _ _ Hf i ltac:(lia) Hne) as Hr. set (a := fblock w p i) in *.
  assert (¬ is_bitmap sb a) as Hnb by (apply data_not_bitmap; lia).
  assert (∀ c, 0 ≤ c < sb_size sb → used sb w' c = used sb w c) as Hu.
  { intros c Hc. apply fs_used_ext; [done|done|]. intros b Hb. cbn [blk w']. apply lookup_insert_ne. intros <-. done. }
  assert (∀ j, 0 ≤ j ≤ MAXFILE → fblock w' p j = fblock w p j) as Hfb.
  { intros j Hj. unfold fblock. destruct (j <? NDIRECT); [done|]. destruct (j =? MAXFILE) eqn:Ej; [done|].
    destruct (indirect p =? 0) eqn:E0; [done|]. cbn [blk w']. rewrite lookup_insert_ne; [done|]. intros E.
    assert (i = MAXFILE) as ->; [|lia]. eapply (fv_inj _ _ _ _ Hf); [lia|fslia|done|exact E]. }
  destruct Hf as [Hip Hlen Hslot Hinj Hdense Hsize Hinum]. split_and!; [| | |done|].
  - split.
    + intros b Hb. cbn [blk w']. destruct (decide (b = a)) as [->|]; [rewrite lookup_insert_eq; by exists d'|].
      rewrite lookup_insert_ne by done. by apply (fi_block _ _ Hinv).
    + intros b Hb. rewrite Hu by lia. by apply (fi_meta _ _ Hinv).
  - split; try done.
    + intros j Hj. rewrite Hfb by done. intros Hj0. destruct (Hslot j Hj Hj0). split; [done|]. rewrite Hu; [done|lia].
    + intros j j' Hj Hj'. rewrite !Hfb by done. by apply Hinj.
    + intros j Hj Hlt. rewrite Hfb by fslia. by apply Hdense.
  - split.
    + intros c Hc _ _ Hno. cbn [blk w']. apply lookup_insert_ne. apply Hno. lia.
    + intros c Hc. by rewrite Hu.
    + intros j Hj _. left. by apply Hfb.
    + intros j Hj _. by apply Hfb.
    + done.
  - intros j Hj. unfold fdata. rewrite Hfb by lia. case_decide as E.
    + subst. fold a. rewrite (proj2 (Z.eqb_neq a 0)) by done. cbn [blk w']. by rewrite lookup_insert_eq.
    + destruct (decide (fblock w p j = 0)) as [E0|E0]; [by rewrite E0|]. rewrite (proj2 (Z.eqb_neq _ 0)) by done.
      cbn [blk w']. rewrite lookup_insert_ne; [done|]. intros Ea. apply E. eapply Hinj; [lia|lia|done|done].
Qed.

(** The bytes of the file after [bs] is stored at [off], within one block. *)
Lemma fbyte_put w p w' p' off bs :
  0 ≤ off < MAXFILE * BSIZE → off mod BSIZE + Z.of_nat (length bs) ≤ BSIZE → length (fdata w p (off / BSIZE)) = Z.to_nat BSIZE →
  (∀ j, 0 ≤ j < MAXFILE → fdata w' p' j =
     if decide (j = off / BSIZE) then put (off mod BSIZE) bs (fdata w p (off / BSIZE)) else fdata w p j) →
  ∀ k, 0 ≤ k < MAXFILE * BSIZE →
    fbyte w' p' k = if decide (off ≤ k < off + Z.of_nat (length bs)) then default 0 (bs !! Z.to_nat (k - off)) else fbyte w p k.
Proof.
  intros Hoff Hlen Hl Hd k Hk. unfold fbyte. rewrite Hd by by apply bn_range.
  destruct (off_split off) as [Eo Ho]. destruct (off_split k) as [Ek Hkm]. case_decide as E.
  - rewrite E in *. rewrite put_lookup by (rewrite ?Hl; unfold BSIZE in *; lia).
    destruct (decide (off ≤ k < off + Z.of_nat (length bs))).
    + rewrite decide_True by lia. do 2 f_equal. lia.
    + by rewrite decide_False by lia.
  - rewrite decide_False; [done|]. intros Hin. apply E.
    assert (k = off / BSIZE * BSIZE + (k - off / BSIZE * BSIZE)) as -> by lia.
    rewrite Z.div_add_l, (Z.div_small (k - _)) by (done || lia). lia.
Qed.

(** The file as an array of bytes. *)
Definition file_bytes w p : list Z := fbyte w p <$> seqZ 0 (size p).

Lemma file_bytes_length w p : length (file_bytes w p) = Z.to_nat (size p).
Proof. unfold file_bytes. by rewrite length_fmap, length_seqZ. Qed.
Lemma file_bytes_lookup w p k : Z.of_nat k < size p → file_bytes w p !! k = Some (fbyte w p (Z.of_nat k)).
Proof. intros Hk. unfold file_bytes. by rewrite list_lookup_fmap, lookup_seqZ_lt by lia. Qed.

(** ** Writing the inode back *)

Lemma put_uints_length vs o d :
  0 ≤ o → o + 4 * Z.of_nat (length vs) ≤ Z.of_nat (length d) → length (put_uints o vs d) = length d.
Proof.
  revert o d; induction vs as [|v vs IH]; intros o d Ho Hl; [done|]. cbn [put_uints length] in *.
  rewrite IH by (rewrite ?put_uint_length; lia). apply put_uint_length; lia.
Qed.

Lemma put_short_length o v d : 0 ≤ o → o + 2 ≤ Z.of_nat (length d) → length (put_short o v d) = length d.
Proof. intros. apply put_length; [done|]. rewrite le_enc_length. lia. Qed.

Lemma put_dinode_length o p d :
  0 ≤ o → o + 64 ≤ Z.of_nat (length d) → length (addrs p) = 13%nat → length (put_dinode o p d) = length d.
Proof.
  intros Ho Hl Ha. unfold put_dinode.
  assert (length (put_short o (type p) d) = length d) as H1 by (apply put_short_length; lia).
  set (d1 := put_short o (type p) d) in *.
  assert (length (put_short (o + 2) (major p) d1) = length d) as H2 by (rewrite put_short_length; lia).
  set (d2 := put_short (o + 2) (major p) d1) in *.
  assert (length (put_short (o + 4) (minor p) d2) = length d) as H3 by (rewrite put_short_length; lia).
  set (d3 := put_short (o + 4) (minor p) d2) in *.
  assert (length (put_short (o + 6) (nlink p) d3) = length d) as H4 by (rewrite put_short_length; lia).
  set (d4 := put_short (o + 6) (nlink p) d3) in *.
  assert (length (put_uint (o + 8) (size p) d4) = length d) as H5 by (rewrite put_uint_length; lia).
  rewrite put_uints_length; lia.
Qed.

Lemma doff_range n : 0 ≤ doff n ≤ 960.
Proof. unfold doff, DINODE_SIZE. change IPB with 16. pose proof (Z.mod_pos_bound n 16). lia. Qed.

Lemma IBLOCK_range n : 0 ≤ n < ninodes sb → 0 < IBLOCK sb n < bmapstart sb.
Proof.
  intros Hn. destruct Hsb. unfold IBLOCK. pose proof (Z.div_pos n IPB ltac:(lia) ltac:(done)).
  pose proof (Z.div_le_mono n (ninodes sb) IPB ltac:(done) ltac:(lia)). lia.
Qed.

(** Changing the contents of a block that is neither a bitmap nor of the file. *)
Lemma change_other w ip p c d' it' :
  fs_inv w → file_inv w ip p → 0 ≤ c < dstart sb → ¬ is_bitmap sb c → length d' = Z.to_nat BSIZE →
  let w' := mkFsw (<[c := d']> (blk w)) it' in
  fs_inv w' ∧ (∀ j, fblock w' p j = fblock w p j) ∧
  (∀ a, 0 ≤ a < sb_size sb → used sb w' a = used sb w a) ∧ (∀ i, 0 ≤ i < MAXFILE → fdata w' p i = fdata w p i).
Proof.
  intros Hinv Hf Hc Hnb Hl w'. pose proof (dstart_pos sb Hsb) as Hds.
  assert (∀ a, 0 ≤ a < sb_size sb → used sb w' a = used sb w a) as Hu.
  { intros a Ha. apply fs_used_ext; [done|done|]. intros b Hb. cbn [blk w']. apply lookup_insert_ne. intros <-. done. }
  assert (∀ j, 0 ≤ j ≤ MAXFILE → fblock w p j ≠ 0 → fblock w p j ≠ c) as Hno.
  { intros j Hj Hne. pose proof (file_slot_range _ _ _ _ Hf j Hj Hne). lia. }
  assert (∀ j, fblock w' p j = fblock w p j) as Hfb.
  { intros j. unfold fblock. destruct (j <? NDIRECT); [done|]. destruct (j =? MAXFILE); [done|].
    destruct (indirect p =? 0) eqn:E; [done|]. cbn [blk w']. rewrite lookup_insert_ne; [done|].
    apply not_eq_sym, (Hno MAXFILE); [fslia|]. change (fblock w p MAXFILE) with (indirect p). lia. }
  split_and!; [|done|done|].
  - split.
    + intros b Hb. cbn [blk w']. destruct (decide (b = c)) as [->|]; [rewrite lookup_insert_eq; by exists d'|].
      rewrite lookup_insert_ne by done. by apply (fi_block _ _ Hinv).
    + intros b Hb. rewrite Hu by lia. by apply (fi_meta _ _ Hinv).
  - intros i Hi. unfold fdata. rewrite Hfb. destruct (decide (fblock w p i = 0)) as [E|E]; [by rewrite E|].
    rewrite (proj2 (Z.eqb_neq _ 0) E). cbn [blk w']. rewrite lookup_insert_ne; [done|]. apply not_eq_sym, Hno; [lia|done].
Qed.

(** [iupdate] changes the block of the inode only. *)
Lemma iupdate_spec w ip p :
  fs_inv w → file_inv w ip p →
  ∃ d, blk w !! IBLOCK sb (inum p) = Some d ∧ length d = Z.to_nat BSIZE ∧
    let w' := mkFsw (<[IBLOCK sb (inum p) := put_dinode (doff (inum p)) p d]> (blk w)) (itable w) in
    iupdate sb ip w = Some ((), w') ∧ fs_inv w' ∧ file_inv w' ip p ∧
    (∀ i, 0 ≤ i < MAXFILE → fdata w' p i = fdata w p i) ∧ (∀ j, fblock w' p j = fblock w p j) ∧
    (∀ a, 0 ≤ a < sb_size sb → used sb w' a = used sb w a).
Proof.
  intros Hinv Hf. pose proof Hf as [Hip Hlen Hslot Hinj Hdense Hsize Hinum]. pose proof (dstart_pos sb Hsb) as Hds.
  pose proof (IBLOCK_range _ Hinum) as Hib. assert (0 ≤ IBLOCK sb (inum p) < dstart sb) as Hid.
  { unfold dstart. pose proof (Z.div_pos (sb_size sb) BPB ltac:(lia) ltac:(done)). lia. }
  destruct (fi_block _ _ Hinv (IBLOCK sb (inum p))) as (d & Hd & Hdl); [lia|].
  exists d. split_and!; [done|done|]. intros w'.
  destruct (change_other w ip p (IBLOCK sb (inum p)) (put_dinode (doff (inum p)) p d) (itable w)) as (Hi' & Hfb & Hu & Hfd);
    [done|done|done|unfold is_bitmap; lia| |].
  { pose proof (doff_range (inum p)). rewrite put_dinode_length; [done|lia| |done]. rewrite Hdl. change (Z.of_nat (Z.to_nat BSIZE)) with 1024. lia. }
  fold w' in Hi', Hfb, Hu, Hfd. split_and!; [|done| |done|done|done].
  - unfold iupdate. rewrite (bind_eq _ _ _ p w) by (unfold the_ip; by rewrite Hip).
    rewrite (bind_eq _ _ _ _ _ (block_at_eq _ _ _ Hd)). by apply write_block_eq with d.
  - split; try done.
    + intros j Hj. rewrite Hfb. intros Hne. destruct (Hslot j Hj Hne). split; [done|]. rewrite Hu; [done|lia].
    + intros i j Hi Hj. rewrite !Hfb. by apply Hinj.
    + intros i Hi Hlt. rewrite Hfb. by apply Hdense.
Qed.

Section writing.
Context (either_copyin : Z → Z → list Z * bool) (src : Z → Z).
(** Copying in gives a prefix of the bytes asked for, or all of them. *)
Hypothesis Hcopy : ∀ tot m, 0 ≤ tot → 0 < m →
  Z.of_nat (length (either_copyin tot m).1) ≤ m ∧
  ((either_copyin tot m).2 = true → Z.of_nat (length (either_copyin tot m).1) = m) ∧
  ∀ k b, (either_copyin tot m).1 !! k = Some b → b = src (tot + Z.of_nat k).

(** Everything is written, or the disk is full and the last block is complete. *)
Definition stopped w' (off n c : Z) : Prop := c = n ∨ (full sb w' ∧ (c = 0 ∨ (off + c) mod BSIZE = 0)).

(** [c] bytes are counted and [e] are stored. *)
Record wrote_file w ip p w' p' (off tot n c e : Z) : Prop := {
  wf_inv : fs_inv w';
  wf_file : file_inv w' ip p';
  wf_others : others_kept w ip p w' p';
  wf_meta : same_meta p p' ∧ size p' = size p;
  wf_count : 0 ≤ c ≤ e ∧ e ≤ n - tot;
  wf_bytes : ∀ k, 0 ≤ k < MAXFILE * BSIZE →
    fbyte w' p' k = if decide (off ≤ k < off + e) then src (tot + (k - off)) else fbyte w p k;
  wf_blocks : ∀ i, 0 < c → off / BSIZE ≤ i → i * BSIZE < off + c → fblock w' p' i ≠ 0;
  wf_why : (c = e ∧ stopped w' off (n - tot) c) ∨ ∃ t m, (either_copyin t m).2 = false;
}.

Lemma writei_loop_S fuel ip off tot n :
  writei_loop sb either_copyin (S fuel) ip off tot n =
    (if tot <? n then
       addr ← bmap sb ip (off / BSIZE);
       if addr =? 0 then mret (tot, off)
       else
         d ← block_at addr;
         let m := Z.min (n - tot) (BSIZE - off mod BSIZE) in
         let '(bs, ok) := either_copyin tot m in
         write_block addr (put (off mod BSIZE) bs d);;
         if ok : bool then writei_loop sb either_copyin fuel ip (off + m) (tot + m) n else mret (tot, off)
     else mret (tot, off)).
Proof. reflexivity. Qed.

(** One block is written. *)
Lemma write_turn w ip p off tot n m :
  fs_inv w → file_inv w ip p → 0 ≤ off → 0 ≤ tot < n → off + (n - tot) ≤ MAXFILE * BSIZE →
  m = Z.min (n - tot) (BSIZE - off mod BSIZE) →
  ∃ w1 p1, bmap sb ip (off / BSIZE) w = Some (fblock w1 p1 (off / BSIZE), w1) ∧ extends_file sb w ip p w1 p1 ∧
    ((fblock w1 p1 (off / BSIZE) = 0 ∧ full sb w1) ∨
     (fblock w1 p1 (off / BSIZE) ≠ 0 ∧ ∃ d w2, blk w1 !! fblock w1 p1 (off / BSIZE) = Some d ∧
       write_block (fblock w1 p1 (off / BSIZE)) (put (off mod BSIZE) (either_copyin tot m).1 d) w1 = Some ((), w2) ∧
       fs_inv w2 ∧ file_inv w2 ip p1 ∧ others_kept w1 ip p1 w2 p1 ∧
       (∀ j, 0 ≤ j ≤ MAXFILE → fblock w2 p1 j = fblock w1 p1 j) ∧
       ∀ k, 0 ≤ k < MAXFILE * BSIZE → fbyte w2 p1 k =
         if decide (off ≤ k < off + Z.of_nat (length (either_copyin tot m).1)) then src (tot + (k - off)) else fbyte w p k)).
Proof.
  intros Hinv Hf Hoff Htot Hmax Em. destruct (off_split off) as [Eo Ho].
  destruct (bmap_spec sb Hsb w ip p (off / BSIZE) Hinv Hf) as (w1 & p1 & E & Hx & _ & Hz); [apply bn_range; lia|].
  exists w1, p1. split_and!; [done|done|]. pose proof Hx as [Hinv1 Hf1 _ Hd1 _].
  destruct (decide (fblock w1 p1 (off / BSIZE) = 0)) as [E0|E0]; [left; by auto|right]. split; [done|].
  destruct (fdata_block w1 ip p1 (off / BSIZE) Hinv1 Hf1) as (d & Hd & Hdl & Efd); [apply bn_range; lia|done|].
  destruct (Hcopy tot m) as (Hl & _ & Hsrc); [lia|lia|]. set (bs := (either_copyin tot m).1) in *.
  destruct (set_data w1 ip p1 (off / BSIZE) (put (off mod BSIZE) bs d)) as (Hi2 & Hf2 & Ho2 & Hfb2 & Hd2);
    [done|done|apply bn_range; lia|done|rewrite put_length; [done|lia|rewrite Hdl; unfold BSIZE in *; lia]|].
  eexists d, _. split_and!; [done|by apply write_block_eq with d|done|done|done|done|].
  intros k Hk. rewrite (fbyte_put w1 p1 _ p1 off bs); [|lia|lia|by rewrite Efd|by rewrite Efd|done].
  case_decide as Hin.
  - destruct (lookup_lt_is_Some_2 bs (Z.to_nat (k - off))) as [b Hb]; [lia|]. rewrite Hb. cbn [default].
    unfold id. rewrite (Hsrc _ _ Hb). f_equal. lia.
  - unfold fbyte. rewrite Hd1; [done|]. by apply bn_range.
Qed.

Lemma wrote_nothing_file w ip p w' p' off tot n :
  extends_file sb w ip p w' p' → tot ≤ n → 0 ≤ off → (n = tot ∨ full sb w') → wrote_file w ip p w' p' off tot n 0 0.
Proof.
  intros [H1 H2 H3 H4 H5] Hn Hoff Hw. split; try done; [lia| |].
  - intros k Hk. rewrite decide_False by lia. unfold fbyte. rewrite H4; [done|]. by apply bn_range.
  - left. split; [done|]. destruct Hw; [left; lia|right; by auto].
Qed.

(** The first block is written and then the rest. *)
Lemma wrote_file_cons w ip p w1 p1 w2 w' p' off tot n m c e :
  extends_file sb w ip p w1 p1 → file_inv w2 ip p1 → others_kept w1 ip p1 w2 p1 →
  (∀ j, 0 ≤ j ≤ MAXFILE → fblock w2 p1 j = fblock w1 p1 j) → fblock w1 p1 (off / BSIZE) ≠ 0 →
  (∀ k, 0 ≤ k < MAXFILE * BSIZE → fbyte w2 p1 k =
     if decide (off ≤ k < off + m) then src (tot + (k - off)) else fbyte w p k) →
  0 ≤ off → 0 < m ≤ n - tot → off + (n - tot) ≤ MAXFILE * BSIZE → m = Z.min (n - tot) (BSIZE - off mod BSIZE) →
  wrote_file w2 ip p1 w' p' (off + m) (tot + m) n c e → wrote_file w ip p w' p' off tot n (m + c) (m + e).
Proof.
  intros Hx Hf2 Ho2 Hfb2 Hne Hb2 Hoff Hm Hmax Hme [Hi' Hf' Ho' [Hm' Hs'] Hc' Hb' Hbl' Hw'].
  pose proof Hx as [_ Hf1 Ho1 _ [Hm1 Hs1]]. destruct (off_split off) as [Eo Ho].
  assert (others_kept w1 ip p1 w' p') as Ho1'.
  { eapply (others_trans sb Hsb _ _ _ w2 p1); [by eapply file_slot_range|by eapply file_slot_range|done|done]. }
  split; try done.
  - eapply (others_trans sb Hsb _ _ _ w1 p1); [by eapply file_slot_range|by eapply file_slot_range|done|done].
  - unfold same_meta in *. destruct_and!. split_and!; congruence.
  - lia.
  - intros k Hk. rewrite Hb', Hb2 by done. destruct (decide (off + m ≤ k < off + m + e)).
    + rewrite decide_True by lia. f_equal. lia.
    + destruct (decide (off ≤ k < off + m)); [by rewrite decide_True by lia|]. by rewrite decide_False by lia.
  - intros i _ Hi Hlt. destruct (decide (i = off / BSIZE)) as [->|Hin].
    + rewrite (ok_keep _ _ _ _ _ _ Ho1'); [done| |done]. pose proof (bn_range off). lia.
    + assert (0 < c) as Hc0 by (unfold BSIZE in *; lia). apply Hbl'; [done| |lia].
      replace (off + m) with ((off / BSIZE + 1) * BSIZE) by lia. rewrite Z.div_mul by done. lia.
  - destruct Hw' as [[-> Hw']|Hw']; [left; split; [done|]|by right].
    destruct Hw' as [->|[Hful Hc0]]; [left; lia|]. destruct (decide (m = n - tot)) as [Em|Em]; [left; lia|].
    right. split; [done|right]. destruct Hc0 as [->|Hc0]; [|by rewrite Z.add_assoc].
    replace (off + (m + 0)) with ((off / BSIZE + 1) * BSIZE) by lia. by apply Z.mod_mul.
Qed.

Lemma writei_loop_spec fuel w ip p off tot n :
  fs_inv w → file_inv w ip p → 0 ≤ off → 0 ≤ tot ≤ n → off + (n - tot) ≤ MAXFILE * BSIZE →
  (0 < fuel)%nat → (n = tot ∨ off mod BSIZE + (n - tot) ≤ (Z.of_nat fuel - 1) * BSIZE) →
  ∃ c e w' p', writei_loop sb either_copyin fuel ip off tot n w = Some ((tot + c, off + c), w') ∧
    wrote_file w ip p w' p' off tot n c e.
Proof.
  revert w p off tot. induction fuel as [|fuel IH]; intros w p off tot Hinv Hf Hoff Htot Hmax Hpos Hfuel; [lia|].
  rewrite writei_loop_S. destruct (tot <? n) eqn:Et.
  2:{ exists 0, 0, w, p. split; [by rewrite !Z.add_0_r|]. apply wrote_nothing_file; [by apply extends_file_refl|lia|lia|lia]. }
  set (m := Z.min (n - tot) (BSIZE - off mod BSIZE)). destruct (off_split off) as [Eo Ho].
  destruct (write_turn w ip p off tot n m) as (w1 & p1 & E & Hx & Hres); [done|done|lia|lia|lia|done|].
  rewrite (bind_eq _ _ _ _ _ E). destruct Hres as [[E0 Hfull]|(Hne & d & w2 & Hd & E2 & Hi2 & Hf2 & Ho2 & Hfb2 & Hb2)].
  { rewrite E0. exists 0, 0, w1, p1. split; [by rewrite !Z.add_0_r|]. apply wrote_nothing_file; [done|lia|lia|by right]. }
  rewrite (proj2 (Z.eqb_neq _ 0) Hne), (bind_eq _ _ _ _ _ (block_at_eq _ _ _ Hd)). cbv zeta. fold m.
  destruct (Hcopy tot m) as (Hl & Hok & _); [lia|lia|].
  destruct (either_copyin tot m) as [bs ok] eqn:Ec. cbn [fst snd] in *. rewrite (bind_eq _ _ _ _ _ E2). destruct ok.
  2:{ exists 0, (Z.of_nat (length bs)), w2, p1. split; [by rewrite !Z.add_0_r|].
      pose proof Hx as [_ Hf1 Ho1 _ Hm1]. split; try done; [|lia|].
      - eapply (others_trans sb Hsb _ _ _ w1 p1); [by eapply file_slot_range|by eapply file_slot_range|done|done].
      - right. exists tot, m. by rewrite Ec. }
  rewrite Hok in Hb2 by done.
  destruct (IH w2 p1 (off + m) (tot + m)) as (c & e & w' & p' & E' & Hwf); [done|done|lia|lia|lia| | |].
  { unfold BSIZE in *. lia. }
  { destruct (decide (m = n - tot)) as [Em|Em]; [left; lia|right].
    replace (off + m) with ((off / BSIZE + 1) * BSIZE) by lia. rewrite Z.mod_mul by done. lia. }
  exists (m + c), (m + e), w', p'. split; [rewrite E'; do 3 f_equal; lia|].
  eapply wrote_file_cons; try done; lia.
Qed.

(** A larger size, all of whose blocks are there. *)
Lemma resize w ip p s :
  fs_inv w → file_inv w ip p → size p ≤ s ≤ MAXFILE * BSIZE → (∀ i, 0 ≤ i → i * BSIZE < s → fblock w p i ≠ 0) →
  let w' := mkFsw (blk w) (<[ip := set_size s p]> (itable w)) in
  fs_inv w' ∧ file_inv w' ip (set_size s p).
Proof.
  intros [Hi1 Hi2] Hf Hs Hd w'. pose proof Hf as [Hip Hlen Hslot Hinj Hdense Hsize Hinum]. split; [by split|].
  split; try done.
  - cbn [itable w']. apply list_lookup_insert_eq. by eapply lookup_lt_Some.
  - cbn [set_size size]. lia.
Qed.

(** [writei], byte by byte. *)
Lemma writei_bytes w ip p off n :
  fs_inv w → file_inv w ip p → 0 ≤ off ≤ size p → 0 ≤ n → off + n ≤ MAXFILE * BSIZE →
  ∃ c e w' p', writei sb either_copyin ip off n w = Some (c, w') ∧ fs_inv w' ∧ file_inv w' ip p' ∧
    0 ≤ c ≤ e ∧ e ≤ n ∧ size p' = Z.max (size p) (off + c) ∧ same_meta p p' ∧
    (∀ k, 0 ≤ k < size p' → fbyte w' p' k = if decide (off ≤ k < off + e) then src (k - off) else fbyte w p k) ∧
    (∀ a, dstart sb ≤ a < sb_size sb → used sb w a = true → (∀ j, 0 ≤ j ≤ MAXFILE → fblock w p j ≠ a) →
       blk w' !! a = blk w !! a ∧ used sb w' a = true) ∧
    (∀ j, j ≠ ip → itable w' !! j = itable w !! j) ∧
    ((∀ a, 0 ≤ a < sb_size sb → used sb w a = true → used sb w' a = true) ∧
     ∀ j, 0 ≤ j ≤ MAXFILE → fblock w' p' j ≠ 0 → fblock w' p' j = fblock w p j ∨ used sb w (fblock w' p' j) = false) ∧
    ((c = e ∧ stopped w' off n c) ∨ ∃ t m, (either_copyin t m).2 = false).
Proof.
  intros Hinv Hf Hoff Hn Hmax. pose proof Hf as [Hip _ _ _ Hdense _ _]. unfold writei.
  rewrite (bind_eq _ _ _ p w) by (unfold the_ip; by rewrite Hip).
  rewrite u32_id by fslia. rewrite (proj2 (Z.ltb_ge (size p) off)), (proj2 (Z.ltb_ge (off + n) off)) by lia.
  rewrite (proj2 (Z.ltb_ge (MAXFILE * BSIZE) (off + n))) by lia. cbn [orb].
  set (fuel := S (Z.to_nat ((off mod BSIZE + n) / BSIZE + 1))). destruct (off_split off) as [Eo Ho].
  destruct (writei_loop_spec fuel w ip p off 0 n) as (c & e & w1 & p1 & E & Hwf); [done|done|lia|lia|lia|unfold fuel; lia| |].
  { right. unfold fuel. destruct (off_split (off mod BSIZE + n)). pose proof (Z.div_pos (off mod BSIZE + n) BSIZE ltac:(lia) ltac:(done)).
    unfold BSIZE in *. lia. }
  rewrite Z.add_0_l in E. rewrite (bind_eq _ _ _ _ _ E). destruct Hwf as [Hi1 Hf1 Ho1 [Hm1 Hs1] Hc1 Hb1 Hbl1 Hw1].
  rewrite (bind_eq _ _ _ p1 w1) by (unfold the_ip; by rewrite (fv_ip _ _ _ _ Hf1)). cbn [fst snd].
  set (s := Z.max (size p) (off + c)). set (w2 := mkFsw (blk w1) (<[ip := set_size s p1]> (itable w1))).
  assert (∀ i, 0 ≤ i → i * BSIZE < s → fblock w1 p1 i ≠ 0) as Hall.
  { intros i Hi Hlt. destruct (decide (i * BSIZE < size p)) as [Hl|Hl].
    - apply (fv_dense _ _ _ _ Hf1); [done|]. by rewrite Hs1.
    - apply Hbl1; [lia| |lia]. unfold BSIZE in *. lia. }
  pose proof (fv_size _ _ _ _ Hf) as Hszp. destruct (resize w1 ip p1 s Hi1 Hf1) as [Hi2 Hf2]; [lia|done|]. fold w2 in Hi2, Hf2.
  assert ((if size p1 <? off + c then upd_ip ip (set_size (off + c)) else mret ()) w1 = Some ((), w2)) as E2.
  { unfold w2. destruct (size p1 <? off + c) eqn:El.
    - unfold upd_ip. rewrite (fv_ip _ _ _ _ Hf1). by replace s with (off + c) by lia.
    - replace s with (size p1) by lia. assert (set_size (size p1) p1 = p1) as -> by by destruct p1.
      rewrite list_insert_id by apply (fv_ip _ _ _ _ Hf1). by destruct w1. }
  unfold when. rewrite (bind_eq _ _ _ _ _ E2). destruct (iupdate_spec w2 ip _ Hi2 Hf2) as (d & Hd & Hdl & E3 & Hi3 & Hf3 & Hfd3 & Hfb3 & Hu3).
  rewrite (bind_eq _ _ _ _ _ E3). eexists c, e, _, _. split; [reflexivity|].
  split_and!; [done|exact Hf3|lia|lia|lia|done|done| | | | | |].
  - intros k Hk. cbn [set_size size] in Hk. pose proof (fv_size _ _ _ _ Hf2) as Hs2. cbn [set_size size] in Hs2.
    unfold fbyte at 1. rewrite Hfd3 by (apply bn_range; lia). change (fdata w2 (set_size s p1)) with (fdata w1 p1).
    rewrite <-(Z.add_0_l (k - off)). apply Hb1. lia.
  - intros a Ha Hu Hno. rewrite Hu3 by (pose proof (dstart_pos sb Hsb); lia). cbn [blk]. pose proof (dstart_pos sb Hsb) as Hds.
    split; [|by apply (ok_used _ _ _ _ _ _ Ho1); [lia|]].
    pose proof (IBLOCK_range _ (fv_inum _ _ _ _ Hf2)) as Hib.
    rewrite lookup_insert_ne by (unfold dstart in *; pose proof (Z.div_pos (sb_size sb) BPB ltac:(lia) ltac:(done)); lia).
    apply (ok_blocks _ _ _ _ _ _ Ho1); [lia|done|apply data_not_bitmap; lia|done].
  - intros j Hj. cbn [itable w2]. rewrite list_lookup_insert_ne by done. by apply (ok_table _ _ _ _ _ _ Ho1).
  - intros a Ha Hu. rewrite Hu3 by done. by apply (ok_used _ _ _ _ _ _ Ho1).
  - intros j Hj. change (fblock ?w (set_size s p1) j) with (fblock w p1 j). specialize (Hfb3 j). change (fblock ?w (set_size s p1) j) with (fblock w p1 j) in Hfb3.
    rewrite Hfb3. change (fblock w2 p1 j) with (fblock w1 p1 j). by apply (ok_own _ _ _ _ _ _ Ho1).
  - rewrite Z.sub_0_r in Hw1. destruct Hw1 as [[Ece [Hall'|[Hfull Hb0]]]|?]; [left; split; [done|by left]| |by right].
    left. split; [done|right]. split; [|done]. intros a Ha. rewrite Hu3 by done. by apply Hfull.
Qed.

(** C20: [writei] at an offset within the file, when the result would not be
    too long: the array of bytes that the file holds gets the bytes [bs] of the
    source at [off], growing at its end. The count [c] that is returned is at
    most [n], and the other inodes and the blocks of other files stay as they
    are. It is [n] and all bytes are stored, unless the disk is full (and the
    bytes up to a block boundary were) or a copy from the source failed, which
    may store some bytes more than are counted. *)
Theorem writei_writes w ip p off n :
  fs_inv w → file_inv w ip p → 0 ≤ off ≤ size p → 0 ≤ n → off + n ≤ MAXFILE * BSIZE →
  ∃ c bs w' p', writei sb either_copyin ip off n w = Some (c, w') ∧ fs_inv w' ∧ file_inv w' ip p' ∧ same_meta p p' ∧
    0 ≤ c ≤ Z.of_nat (length bs) ∧ Z.of_nat (length bs) ≤ n ∧ (∀ k b, bs !! k = Some b → b = src (Z.of_nat k)) ∧
    size p' = Z.max (size p) (off + c) ∧
    file_bytes w' p' = take (Z.to_nat (size p')) (put off bs (file_bytes w p)) ∧
    (∀ a, dstart sb ≤ a < sb_size sb → used sb w a = true → (∀ j, 0 ≤ j ≤ MAXFILE → fblock w p j ≠ a) →
       blk w' !! a = blk w !! a ∧ used sb w' a = true) ∧
    (∀ j, j ≠ ip → itable w' !! j = itable w !! j) ∧
    ((c = Z.of_nat (length bs) ∧ stopped w' off n c) ∨ ∃ t m, (either_copyin t m).2 = false).
Proof.
  intros Hinv Hf Hoff Hn Hmax.
  destruct (writei_bytes w ip p off n Hinv Hf Hoff Hn Hmax) as (c & e & w' & p' & E & Hi' & Hf' & Hc & He & Hs & Hm & Hb & Ha & Ht & _ & Hw).
  assert (length (src <$> seqZ 0 e) = Z.to_nat e) as Hl by by rewrite length_fmap, length_seqZ.
  exists c, (src <$> seqZ 0 e), w', p'. rewrite Hl. replace (Z.of_nat (Z.to_nat e)) with e by lia.
  split_and!; try done; [lia|lia| |].
  - intros k b Hk. rewrite list_lookup_fmap in Hk. destruct (seqZ 0 e !! k) eqn:El; simplify_eq/=.
    by apply lookup_seqZ in El as [-> _].
  - apply list_eq. intros k. destruct (decide (Z.of_nat k < size p')) as [Hk|Hk].
    + rewrite lookup_take_lt, file_bytes_lookup, Hb by lia. unfold put. case_decide as Hin.
      * rewrite lookup_app_r, lookup_app_l by (rewrite ?length_app, ?length_take, ?file_bytes_length, ?Hl; lia).
        rewrite length_take, file_bytes_length, list_lookup_fmap, lookup_seqZ_lt by lia. cbn. do 2 f_equal. lia.
      * destruct (decide (Z.of_nat k < off)).
        -- rewrite lookup_app_l, lookup_take_lt, file_bytes_lookup by (rewrite ?length_take, ?file_bytes_length; lia). done.
        -- rewrite lookup_app_r by (rewrite length_take, file_bytes_length; lia).
           rewrite lookup_app_r by (rewrite length_take, file_bytes_length, Hl; lia).
           rewrite lookup_drop, length_take, file_bytes_length, Hl.
           replace (_ + (_ - _ - _))%nat with k by lia. rewrite file_bytes_lookup; [done|lia].
    + rewrite lookup_ge_None_2, (lookup_ge_None_2 (take _ _)); [done| |rewrite file_bytes_length; lia].
      rewrite length_take. lia.
Qed.
End writing.

(** ** Reading *)

Section reading.
Context (either_copyout : Z → list Z → bool).

Lemma readi_loop_S fuel ip off tot n acc :
  readi_loop sb either_copyout (S fuel) ip off tot n acc =
    (if tot <? n then
       addr ← bmap sb ip (off / BSIZE);
       if addr =? 0 then mret (tot, acc)
       else
         d ← block_at addr;
         let m := Z.min (n - tot) (BSIZE - off mod BSIZE) in
         let bs := slice (off mod BSIZE) m d in
         if either_copyout tot bs then readi_loop sb either_copyout fuel ip (off + m) (tot + m) n (acc ++ bs)
         else mret (-1, acc)
     else mret (tot, acc)).
Proof. reflexivity. Qed.

(** [bs] are bytes of the file from [off] on. *)
Definition bytes_at w p (off : Z) (bs : list Z) : Prop :=
  ∀ k, (k < length bs)%nat → bs !! k = Some (fbyte w p (off + Z.of_nat k)).

Lemma bytes_at_app w p off bs bs' :
  bytes_at w p off bs → bytes_at w p (off + Z.of_nat (length bs)) bs' → bytes_at w p off (bs ++ bs').
Proof.
  intros H1 H2 k Hk. rewrite length_app in Hk. destruct (decide (k < length bs)%nat).
  - rewrite lookup_app_l by done. by apply H1.
  - rewrite lookup_app_r, H2 by lia. do 2 f_equal. lia.
Qed.

(** One block is read, which changes nothing. *)
Lemma read_block_turn w ip p off m :
  fs_inv w → file_inv w ip p → 0 ≤ off < size p → 0 ≤ m ≤ BSIZE - off mod BSIZE →
  bmap sb ip (off / BSIZE) w = Some (fblock w p (off / BSIZE), w) ∧ fblock w p (off / BSIZE) ≠ 0 ∧
  ∃ d, blk w !! fblock w p (off / BSIZE) = Some d ∧ length (slice (off mod BSIZE) m d) = Z.to_nat m ∧
    bytes_at w p off (slice (off mod BSIZE) m d).
Proof.
  intros Hinv Hf Hoff Hm. destruct (off_split off) as [Eo Ho]. pose proof (fv_size _ _ _ _ Hf) as Hs.
  assert (0 ≤ off / BSIZE < MAXFILE) as Hbn by (apply bn_range; lia).
  assert (fblock w p (off / BSIZE) ≠ 0) as Hne by (apply (fv_dense _ _ _ _ Hf); lia).
  destruct (bmap_spec sb Hsb w ip p (off / BSIZE) Hinv Hf Hbn) as (w' & p' & E & _ & Hsame & _).
  destruct (Hsame Hne) as [-> ->]. split_and!; [done|done|].
  destruct (fdata_block w ip p (off / BSIZE) Hinv Hf Hbn Hne) as (d & Hd & Hdl & Efd).
  assert (Z.of_nat (length d) = BSIZE) as Hdl' by (rewrite Hdl; done). exists d.
  assert (length (slice (off mod BSIZE) m d) = Z.to_nat m) as Hl by (apply slice_length; lia).
  split_and!; [done|done|]. intros k Hk. rewrite Hl in Hk. rewrite slice_lookup, decide_True by done.
  unfold fbyte. replace (off + Z.of_nat k) with (off / BSIZE * BSIZE + (off mod BSIZE + Z.of_nat k)) by lia.
  rewrite Z.div_add_l, (Z.div_small (off mod BSIZE + _)), Z.add_0_r by (done || lia).
  rewrite (Z.add_comm (_ * BSIZE)), Z.mod_add, (Z.mod_small (off mod BSIZE + _)) by (done || lia). rewrite Efd.
  destruct (lookup_lt_is_Some_2 d (Z.to_nat (off mod BSIZE) + k)) as [b Hb]; [lia|].
  rewrite Hb. by replace (Z.to_nat (off mod BSIZE + Z.of_nat k)) with (Z.to_nat (off mod BSIZE) + k)%nat by lia; rewrite Hb.
Qed.

Lemma readi_loop_spec fuel w ip p off tot n acc :
  fs_inv w → file_inv w ip p → 0 ≤ off → 0 ≤ tot ≤ n → off + (n - tot) ≤ size p →
  (0 < fuel)%nat → (n = tot ∨ off mod BSIZE + (n - tot) ≤ (Z.of_nat fuel - 1) * BSIZE) →
  ∃ r bs, readi_loop sb either_copyout fuel ip off tot n acc w = Some ((r, acc ++ bs), w) ∧ bytes_at w p off bs ∧
    ((r = n ∧ Z.of_nat (length bs) = n - tot) ∨
     (r = -1 ∧ Z.of_nat (length bs) < n - tot ∧ ∃ t bs', either_copyout t bs' = false)).
Proof.
  revert off tot acc. induction fuel as [|fuel IH]; intros off tot acc Hinv Hf Hoff Htot Hsz Hpos Hfuel; [lia|].
  rewrite readi_loop_S. destruct (tot <? n) eqn:Et.
  2:{ exists n, []. rewrite app_nil_r. split_and!; [by replace tot with n by lia|intros k Hk; simpl in Hk; lia|].
      left. split; [done|simpl; lia]. }
  set (m := Z.min (n - tot) (BSIZE - off mod BSIZE)). destruct (off_split off) as [Eo Ho].
  destruct (read_block_turn w ip p off m) as (E & Hne & d & Hd & Hl & Hb); [done|done|lia|lia|].
  rewrite (bind_eq _ _ _ _ _ E), (proj2 (Z.eqb_neq _ 0) Hne), (bind_eq _ _ _ _ _ (block_at_eq _ _ _ Hd)). cbv zeta. fold m.
  set (bs := slice (off mod BSIZE) m d) in *. destruct (either_copyout tot bs) eqn:Ec.
  2:{ exists (-1), []. rewrite app_nil_r. split_and!; [done|intros k Hk; simpl in Hk; lia|right]. split_and!; [done|simpl; lia|by exists tot, bs]. }
  destruct (IH (off + m) (tot + m) (acc ++ bs)) as (r & bs' & E' & Hb' & Hr); [done|done|lia|lia|lia|unfold BSIZE in *; lia| |].
  { destruct (decide (m = n - tot)); [left; lia|right].
    replace (off + m) with ((off / BSIZE + 1) * BSIZE) by lia. rewrite Z.mod_mul by done. lia. }
  exists r, (bs ++ bs'). rewrite E', <-app_assoc. split_and!; [done| |].
  - apply bytes_at_app; [done|]. rewrite Hl. replace (Z.of_nat (Z.to_nat m)) with m by lia. done.
  - rewrite length_app, Hl. destruct Hr as [[-> ?]|(-> & ? & ?)]; [left; split; [done|lia]|right; split_and!; [done|lia|done]].
Qed.

(** [readi], byte by byte. *)
Lemma readi_bytes w ip p off n :
  fs_inv w → file_inv w ip p → 0 ≤ off → 0 ≤ n → off + n < 2 ^ 32 →
  let avail := Z.max 0 (Z.min n (size p - off)) in
  ∃ r bs, readi sb either_copyout ip off n w = Some ((r, bs), w) ∧ bytes_at w p off bs ∧
    ((r = avail ∧ Z.of_nat (length bs) = avail) ∨
     (r = -1 ∧ Z.of_nat (length bs) < avail ∧ ∃ t bs', either_copyout t bs' = false)).
Proof.
  intros Hinv Hf Hoff Hn Hmax avail. unfold readi.
  rewrite (bind_eq _ _ _ p w) by (unfold the_ip; by rewrite (fv_ip _ _ _ _ Hf)).
  rewrite u32_id by lia. rewrite (proj2 (Z.ltb_ge (off + n) off)), orb_false_r by lia.
  pose proof (fv_size _ _ _ _ Hf) as Hs. destruct (size p <? off) eqn:E1.
  { exists 0, []. split_and!; [done|intros k Hk; simpl in Hk; lia|left]. simpl. lia. }
  set (n' := if size p <? off + n then size p - off else n).
  assert (n' = avail) as En by (unfold n', avail; destruct (size p <? off + n) eqn:E2; lia).
  destruct (off_split off) as [Eo Ho].
  destruct (readi_loop_spec (S (Z.to_nat ((off mod BSIZE + n') / BSIZE + 1))) w ip p off 0 n' []) as (r & bs & E & Hb & Hr);
    [done|done|lia|lia|lia|lia| |].
  { right. destruct (off_split (off mod BSIZE + n')). pose proof (Z.div_pos (off mod BSIZE + n') BSIZE ltac:(lia) ltac:(done)).
    unfold BSIZE in *. lia. }
  exists r, bs. split_and!; [exact E|done|]. rewrite En in Hr.
  destruct Hr as [[-> ?]|(-> & ? & ?)]; [left; split; [done|lia]|right; split_and!; [done|lia|done]].
Qed.

(** [readi] changes nothing and reads the bytes of the file from [off] on:
    as many as are asked for and there are before the end of the file; -1 when
    they could not be copied out. *)
Theorem readi_reads w ip p off n :
  fs_inv w → file_inv w ip p → 0 ≤ off → 0 ≤ n → off + n < 2 ^ 32 →
  let avail := Z.max 0 (Z.min n (size p - off)) in
  ∃ r bs, readi sb either_copyout ip off n w = Some ((r, bs), w) ∧ bs = slice off (Z.of_nat (length bs)) (file_bytes w p) ∧
    ((r = avail ∧ Z.of_nat (length bs) = avail) ∨
     (r = -1 ∧ Z.of_nat (length bs) < avail ∧ ∃ t bs', either_copyout t bs' = false)).
Proof.
  intros Hinv Hf Hoff Hn Hmax avail.
  destruct (readi_bytes w ip p off n Hinv Hf Hoff Hn Hmax) as (r & bs & E & Hb & Hr). exists r, bs. split_and!; [done| |done].
  assert (Z.of_nat (length bs) ≤ avail) as Hle by (destruct Hr as [[_ ?]|(_ & ? & _)]; lia).
  apply list_eq. intros k. rewrite slice_lookup, Nat2Z.id. case_decide as Hk; [|apply lookup_ge_None_2; lia].
  rewrite Hb, file_bytes_lookup by lia. do 2 f_equal. lia.
Qed.
End reading.
End rw.

(** ** Witnesses *)

(** The bytes 65, 66, ... *)
Definition demo_src (k : Z) : Z := 65 + k.
Definition demo_copyin (tot m : Z) : list Z * bool := ((λ k, demo_src (tot + k)) <$> seqZ 0 m, true).

Lemma demo_copyin_ok tot m :
  0 ≤ tot → 0 < m →
  Z.of_nat (length (demo_copyin tot m).1) ≤ m ∧
  ((demo_copyin tot m).2 = true → Z.of_nat (length (demo_copyin tot m).1) = m) ∧
  ∀ k b, (demo_copyin tot m).1 !! k = Some b → b = demo_src (tot + Z.of_nat k).
Proof.
  intros Ht Hm. cbn [demo_copyin fst snd]. rewrite length_fmap, length_seqZ. split_and!; [lia|lia|].
  intros k b Hb. rewrite list_lookup_fmap in Hb. destruct (seqZ 0 m !! k) as [x|] eqn:E; simplify_eq/=.
  apply lookup_seqZ in E as [-> _]. unfold demo_src. lia.
Qed.

Lemma writei_writes_witness :
  ∃ c bs w' p', writei demo_sb demo_copyin 0 2 1500 demo_fs = Some (c, w') ∧ fs_inv demo_sb w' ∧ file_inv demo_sb w' 0 p' ∧
    same_meta demo_inode p' ∧
    0 ≤ c ≤ Z.of_nat (length bs) ∧ Z.of_nat (length bs) ≤ 1500 ∧ (∀ k b, bs !! k = Some b → b = demo_src (Z.of_nat k)) ∧
    size p' = Z.max (size demo_inode) (2 + c) ∧
    file_bytes w' p' = take (Z.to_nat (size p')) (put 2 bs (file_bytes demo_fs demo_inode)) ∧
    (∀ a, dstart demo_sb ≤ a < sb_size demo_sb → used demo_sb demo_fs a = true →
       (∀ j, 0 ≤ j ≤ MAXFILE → fblock demo_fs demo_inode j ≠ a) →
       blk w' !! a = blk demo_fs !! a ∧ used demo_sb w' a = true) ∧
    (∀ j, j ≠ 0%nat → itable w' !! j = itable demo_fs !! j) ∧
    ((c = Z.of_nat (length bs) ∧ stopped demo_sb w' 2 1500 c) ∨ ∃ t m, (demo_copyin t m).2 = false).
Proof.
  apply (writei_writes demo_sb demo_layout demo_copyin demo_src demo_copyin_ok demo_fs 0 demo_inode 2 1500);
    [exact demo_fs_inv|exact demo_file|cbn [demo_inode size]; lia|lia|fslia].
Defined.

Lemma readi_reads_witness :
  let avail := Z.max 0 (Z.min 100 (size demo_inode - 1)) in
  ∃ r bs, readi demo_sb (λ _ _, true) 0 1 100 demo_fs = Some ((r, bs), demo_fs) ∧
    bs = slice 1 (Z.of_nat (length bs)) (file_bytes demo_fs demo_inode) ∧
    ((r = avail ∧ Z.of_nat (length bs) = avail) ∨
     (r = -1 ∧ Z.of_nat (length bs) < avail ∧ ∃ t bs', (λ (_ : Z) (_ : list Z), true) t bs' = false)).
Proof.
  apply (readi_reads demo_sb demo_layout (λ _ _, true) demo_fs 0 demo_inode 1 100);
    [exact demo_fs_inv|exact demo_file|lia|lia|lia].
Defined.

(** Writing across two blocks and reading back. *)
Example write_read_run :
  (λ x, (x.1.1, x.1.2.1, take 4 x.1.2.2, length x.1.2.2)) <$>
    (c ← writei demo_sb demo_copyin 0 2 1500; r ← readi demo_sb (λ _ _, true) 0 1 4000; mret (c, r)) demo_fs =
  Some (1500, 1501, [105; 65; 66; 67], 1501%nat).
Proof. by vm_compute. Qed.
