(* ===== verification/FsTrunc.v ===== *)
(** Discarding the contents of a file: [itrunc] of [xv6/kernel/fs.c]. *)
From S2P Require Import Prelude Fs FsBlock FsFile FsRw.

Section trunc.
Context (sb : superblock) (Hsb : layout_ok sb).
Implicit Types (w : fsw) (p : inode).

(** ** Freeing the blocks in the order of the slots *)

Section freeing.
Context (w0 : fsw) (ip : nat) (p0 : inode) (Hf : file_inv sb w0 ip p0).

(** [c] is the block of one of the first [k] slots. *)
Definition freed (k c : Z) : Prop := ∃ j, 0 ≤ j < k ∧ fblock w0 p0 j = c ∧ c ≠ 0.

(** The blocks of the first [k] slots have been freed, and nothing else. *)
Record free_state (k : Z) w : Prop := {
  fr_inv : fs_inv sb w;
  fr_used : ∀ c, 0 ≤ c < sb_size sb → (freed k c → used sb w c = false) ∧ (¬ freed k c → used sb w c = used sb w0 c);
  fr_blocks : ∀ c, ¬ is_bitmap sb c → blk w !! c = blk w0 !! c;
}.

Lemma freed_succ k c : 0 ≤ k → freed (k + 1) c ↔ freed k c ∨ (fblock w0 p0 k = c ∧ c ≠ 0).
Proof.
  intros Hk. split.
  - intros (j & Hj & E & Hc). destruct (decide (j = k)) as [->|]; [by right|left]. exists j. split_and!; [lia|lia|done|done].
  - intros [(j & Hj & E & Hc)|[E Hc]]; [exists j|exists k]; split_and!; try done; lia.
Qed.

Lemma free_skip k w : 0 ≤ k → fblock w0 p0 k = 0 → free_state k w → free_state (k + 1) w.
Proof.
  intros Hk E [H1 H2 H3]. split; [done| |done]. intros c Hc. rewrite freed_succ by done.
  destruct (H2 c Hc) as [Ha Hb]. split; [intros [?|[? ?]]; [by apply Ha|congruence]|]. intros Hn. apply Hb. tauto.
Qed.

Lemma free_next k w :
  0 ≤ k ≤ MAXFILE → fblock w0 p0 k ≠ 0 → free_state k w →
  ∃ w', bfree sb (fblock w0 p0 k) w = Some ((), w') ∧ free_state (k + 1) w' ∧ itable w' = itable w.
Proof.
  intros Hk Hne [H1 H2 H3]. destruct (fv_slot _ _ _ _ Hf k Hk Hne) as [Hr Hu]. pose proof (dstart_pos sb Hsb) as Hds.
  destruct (H2 (fblock w0 p0 k)) as [_ Hb]; [lia|].
  assert (¬ freed k (fblock w0 p0 k)) as Hnf.
  { intros (j & Hj & E & _). assert (k = j); [|lia]. eapply (fv_inj _ _ _ _ Hf); [lia|lia|done|done]. }
  destruct (bfree_spec sb Hsb w (fblock w0 p0 k)) as (w' & E & Hi' & Hit' & Hu' & Hfr'); [done|done|by rewrite Hb|].
  exists w'. split_and!; [done| |done]. split; [done| |].
  - intros c Hc. rewrite Hu' by done. rewrite freed_succ by lia. destruct (H2 c Hc) as [Ha Hbc]. case_decide as Ec.
    + split; [done|]. intros Hn. exfalso. apply Hn. right. by subst.
    + split; [intros [?|[? ?]]; [by apply Ha|congruence]|]. intros Hn. apply Hbc. tauto.
  - intros c Hc. rewrite Hfr' by done. by apply H3.
Qed.

(** [when] a slot is taken, its block is freed. *)
Lemma free_when {B} k w a (g : M fsw B) (after : M fsw unit) :
  0 ≤ k ≤ MAXFILE → a = fblock w0 p0 k → free_state k w →
  ∃ w', free_state (k + 1) w' ∧ itable w' = itable w ∧
    (when (negb (a =? 0)) (bfree sb a;; after);; g) w = (if a =? 0 then g else after;; g) w'.
Proof.
  intros Hk -> Hst. destruct (decide (fblock w0 p0 k = 0)) as [E|Hne].
  - exists w. rewrite E. split_and!; [apply free_skip; [lia|done|done]|done|done].
  - destruct (free_next k w Hk Hne Hst) as (w' & E & Hst' & Hit). exists w'. split_and!; [done|done|].
    rewrite (proj2 (Z.eqb_neq _ 0) Hne). cbn [negb when]. rewrite bind_assoc. by rewrite (bind_eq _ _ _ _ _ E).
Qed.

(** The inode with its first [k] addresses cleared. *)
Definition cleared (k : nat) : inode :=
  mkInode (dev p0) (inum p0) (ref p0) (locked p0) (valid p0) (type p0) (major p0) (minor p0) (nlink p0) (size p0)
    (replicate k 0 ++ drop k (addrs p0)).

Lemma cleared_0 : cleared 0 = p0.
Proof. unfold cleared. cbn [replicate app]. rewrite drop_0. by destruct p0. Qed.
Lemma cleared_lookup k : default 0 (addrs (cleared k) !! k) = default 0 (addrs p0 !! k).
Proof.
  cbn [cleared addrs]. rewrite lookup_app_r by (rewrite length_replicate; lia). rewrite length_replicate, lookup_drop.
  by replace (k + (k - k))%nat with k by lia.
Qed.
Lemma cleared_S k : (k < 13)%nat → set_addr k 0 (cleared k) = cleared (S k).
Proof.
  intros Hk. unfold set_addr, cleared. cbn [dev inum ref locked valid type major minor nlink size addrs]. f_equal.
  rewrite insert_app_r_alt by (rewrite length_replicate; lia). rewrite length_replicate, Nat.sub_diag.
  pose proof (fv_len _ _ _ _ Hf) as Hl. destruct (drop k (addrs p0)) as [|x l] eqn:E.
  { apply (f_equal length) in E. rewrite length_drop in E. simpl in E. lia. }
  cbn [insert list_insert]. assert (drop (S k) (addrs p0) = l) as ->.
  { rewrite <-Nat.add_1_r, <-drop_drop, E. done. }
  rewrite replicate_S_end, <-app_assoc. done.
Qed.
Lemma cleared_zero k : (k < 13)%nat → default 0 (addrs p0 !! k) = 0 → cleared (S k) = cleared k.
Proof.
  intros Hk Hz. rewrite <-cleared_S by done. unfold set_addr. rewrite list_insert_id; [by destruct (cleared k)|].
  pose proof (cleared_lookup k) as E. rewrite Hz in E. destruct (addrs (cleared k) !! k) as [v|] eqn:Ev.
  - simpl in E. by rewrite E.
  - apply lookup_ge_None in Ev. cbn [cleared addrs] in Ev. rewrite length_app, length_replicate, length_drop in Ev.
    rewrite (fv_len _ _ _ _ Hf) in Ev. lia.
Qed.

(** One turn of the first loop of [itrunc]. *)
Definition free_one (i : nat) : M fsw unit :=
  p ← the_ip ip;
  let a := default 0 (addrs p !! i) in
  when (negb (a =? 0)) (bfree sb a;; upd_ip ip (set_addr i 0)).

Lemma free_direct n k w :
  (k + n = 12)%nat → free_state (Z.of_nat k) w → itable w = <[ip := cleared k]> (itable w0) →
  ∃ w', mfor (seq k n) free_one w = Some ((), w') ∧
    free_state 12 w' ∧ itable w' = <[ip := cleared 12]> (itable w0).
Proof.
  assert (is_Some (itable w0 !! ip)) as Hip by (rewrite (fv_ip _ _ _ _ Hf); by eexists).
  apply lookup_lt_is_Some in Hip.
  revert k w; induction n as [|n IH]; intros k w Hkn Hst Hit; cbn [seq mfor].
  { assert (k = 12%nat) as -> by lia. by exists w. }
  change (free_one k) with (p ← the_ip ip; let a := default 0 (addrs p !! k) in
    when (negb (a =? 0)) (bfree sb a;; upd_ip ip (set_addr k 0))). rewrite bind_assoc. rewrite (bind_eq _ _ _ (cleared k) w).
  2:{ unfold the_ip. rewrite Hit, list_lookup_insert_eq; done. }
  cbv zeta. rewrite cleared_lookup. set (a := default 0 (addrs p0 !! k)).
  assert (a = fblock w0 p0 (Z.of_nat k)) as Ea.
  { unfold fblock. rewrite (proj2 (Z.ltb_lt _ _)), Nat2Z.id by fslia. done. }
  destruct (free_when (Z.of_nat k) w a (mfor (seq (S k) n) free_one) (upd_ip ip (set_addr k 0)))
    as (w1 & Hst1 & Hit1 & ->); [fslia|done|done|].
  replace (Z.of_nat k + 1) with (Z.of_nat (S k)) in Hst1 by lia. destruct (a =? 0) eqn:E0.
  - apply IH; [lia|done|]. rewrite Hit1, Hit. f_equal. symmetry. apply cleared_zero; [lia|]. fold a. lia.
  - rewrite (bind_eq _ _ _ () (mkFsw (blk w1) (<[ip := cleared (S k)]> (itable w0)))).
    2:{ unfold upd_ip. rewrite Hit1, Hit, list_lookup_insert_eq by done. by rewrite list_insert_insert_eq, cleared_S by lia. }
    apply IH; [lia| |done]. destruct Hst1 as [[H1 H1'] H2 H3]. split; [by split|done|done].
Qed.

Lemma free_entries n k w d :
  (k + n = 256)%nat → indirect p0 ≠ 0 → blk w0 !! indirect p0 = Some d → free_state (12 + Z.of_nat k) w →
  ∃ w', mfor (seq k n) (λ j, let e := get_uint (4 * Z.of_nat j) d in when (negb (e =? 0)) (bfree sb e)) w = Some ((), w') ∧
    free_state MAXFILE w' ∧ itable w' = itable w.
Proof.
  revert k w; induction n as [|n IH]; intros k w Hkn Hi Hd Hst; cbn [seq mfor].
  { exists w. split_and!; [done| |done]. by replace (12 + Z.of_nat k) with MAXFILE in Hst by fslia. }
  cbv zeta. set (e := get_uint (4 * Z.of_nat k) d).
  assert (e = fblock w0 p0 (12 + Z.of_nat k)) as Ee.
  { unfold fblock. rewrite (proj2 (Z.ltb_ge _ _)), (proj2 (Z.eqb_neq _ MAXFILE)), (proj2 (Z.eqb_neq (indirect p0) 0)), Hd by fslia.
    unfold e. f_equal. unfold NDIRECT. lia. }
  assert (∃ w1, when (negb (e =? 0)) (bfree sb e) w = Some ((), w1) ∧ free_state (12 + Z.of_nat (S k)) w1 ∧ itable w1 = itable w)
    as (w1 & E1 & Hst1 & Hit1).
  { replace (12 + Z.of_nat (S k)) with (12 + Z.of_nat k + 1) by lia. destruct (decide (e = 0)) as [E0|E0].
    - rewrite E0. exists w. split_and!; [done| |done]. apply free_skip; [lia|congruence|done].
    - rewrite (proj2 (Z.eqb_neq e 0) E0). cbn [negb when]. rewrite Ee. apply free_next; [fslia|congruence|done]. }
  rewrite (bind_eq _ _ _ _ _ E1). destruct (IH (S k) w1) as (w' & E' & Hst' & Hit'); [lia|done|done|done|].
  exists w'. split_and!; [done|done|congruence].
Qed.

Lemma free_skip_many n k w :
  0 ≤ k → (∀ j, k ≤ j < k + Z.of_nat n → fblock w0 p0 j = 0) → free_state k w → free_state (k + Z.of_nat n) w.
Proof.
  revert k; induction n as [|n IH]; intros k Hk Hz Hst; [by rewrite Z.add_0_r|].
  replace (k + Z.of_nat (S n)) with (k + 1 + Z.of_nat n) by lia. apply IH; [lia|intros; apply Hz; lia|].
  apply free_skip; [done|apply Hz; lia|done].
Qed.
End freeing.

Lemma itrunc_eq ip :
  itrunc sb ip =
    (mfor (seq 0 12) (free_one ip);;
     p ← the_ip ip;
     when (negb (default 0 (addrs p !! 12%nat) =? 0))
       (a ← block_at (default 0 (addrs p !! 12%nat));
        mfor (seq 0 256) (λ j, when (negb (get_uint (4 * Z.of_nat j) a =? 0)) (bfree sb (get_uint (4 * Z.of_nat j) a)));;
        bfree sb (default 0 (addrs p !! 12%nat));;
        upd_ip ip (set_addr 12 0));;
     upd_ip ip (set_size 0);;
     iupdate sb ip).
Proof. reflexivity. Qed.

(** Where the blocks of the file are freed, and the inode is empty in memory. *)
Lemma itrunc_blocks w ip p :
  fs_inv sb w → file_inv sb w ip p →
  ∃ w1, itrunc sb ip w = iupdate sb ip w1 ∧ free_state w p (MAXFILE + 1) w1 ∧
    itable w1 = <[ip := set_size 0 (cleared p 13)]> (itable w).
Proof.
  intros Hinv Hf. assert (ip < length (itable w))%nat as Hip by (by eapply lookup_lt_Some, (fv_ip _ _ _ _ Hf)).
  assert (free_state w p 0 w) as Hst0.
  { split; [done| |done]. intros c Hc. split; [intros (j & ? & _); lia|done]. }
  destruct (free_direct w ip p Hf 12 0 w) as (w1 & E1 & Hst1 & Hit1); [lia|done| |].
  { rewrite (cleared_0 w ip p Hf). symmetry. apply list_insert_id, (fv_ip _ _ _ _ Hf). }
  rewrite itrunc_eq, (bind_eq _ _ _ _ _ E1).
  rewrite (bind_eq _ _ _ (cleared p 12) w1) by (unfold the_ip; by rewrite Hit1, list_lookup_insert_eq).
  rewrite (cleared_lookup p 12). change (default 0 (addrs p !! 12%nat)) with (indirect p).
  assert (∃ w2, when (negb (indirect p =? 0))
     (a ← block_at (indirect p);
      mfor (seq 0 256) (λ j, when (negb (get_uint (4 * Z.of_nat j) a =? 0)) (bfree sb (get_uint (4 * Z.of_nat j) a)));;
      bfree sb (indirect p);; upd_ip ip (set_addr 12 0)) w1 = Some ((), w2) ∧ free_state w p (MAXFILE + 1) w2 ∧
     itable w2 = <[ip := cleared p 13]> (itable w)) as (w2 & E2 & Hst2 & Hit2).
  { destruct (decide (indirect p = 0)) as [E0|E0].
    - rewrite E0. exists w1. split_and!; [done| |rewrite (cleared_zero w ip p Hf 12); [done|lia|exact E0]].
      change (MAXFILE + 1) with (12 + Z.of_nat 257). apply free_skip_many; [lia| |done].
      intros j Hj. unfold fblock. rewrite (proj2 (Z.ltb_ge j NDIRECT)) by fslia. rewrite E0. by destruct (j =? MAXFILE).
    - rewrite (proj2 (Z.eqb_neq _ 0) E0). cbn [negb when].
      pose proof (file_slot_range _ _ _ _ Hf MAXFILE ltac:(fslia) E0) as Hr. change (fblock w p MAXFILE) with (indirect p) in Hr.
      pose proof (dstart_pos sb Hsb) as Hds. destruct (fi_block _ _ Hinv (indirect p)) as (d & Hd & _); [lia|].
      rewrite (bind_eq _ _ _ _ _ (block_at_eq w1 (indirect p) d ltac:(rewrite (fr_blocks _ _ _ _ Hst1); [done|apply data_not_bitmap; lia]))).
      destruct (free_entries w ip p Hf 256 0 w1 d) as (w2 & E2 & Hst2 & Hit2); [lia|done|done|done|].
      rewrite (bind_eq _ _ _ _ _ E2).
      destruct (free_next w ip p Hf MAXFILE w2) as (w3 & E3 & Hst3 & Hit3); [fslia|done|done|].
      change (fblock w p MAXFILE) with (indirect p) in E3. rewrite (bind_eq _ _ _ _ _ E3).
      eexists. split_and!; [unfold upd_ip; rewrite Hit3, Hit2, Hit1, list_lookup_insert_eq by done; reflexivity| |].
      + destruct Hst3 as [[H1 H1'] H2 H3]. split; [by split|done|done].
      + cbn [itable]. by rewrite list_insert_insert_eq, (cleared_S w ip p Hf 12) by lia. }
  rewrite (bind_eq _ _ _ _ _ E2).
  exists (mkFsw (blk w2) (<[ip := set_size 0 (cleared p 13)]> (itable w2))). split_and!.
  - rewrite (bind_eq _ _ _ () (mkFsw (blk w2) (<[ip := set_size 0 (cleared p 13)]> (itable w2)))); [done|].
    unfold upd_ip. by rewrite Hit2, list_lookup_insert_eq.
  - destruct Hst2 as [[H1 H1'] H2 H3]. split; [by split|done|done].
  - cbn [itable]. by rewrite Hit2, list_insert_insert_eq.
Qed.

(** C23: [itrunc] frees exactly the blocks of the file, among them the indirect
    block, leaves every other block as it is, and the file is empty, in memory
    and (by [iupdate]) on disk. *)
Theorem itrunc_frees_blocks w ip p :
  fs_inv sb w → file_inv sb w ip p →
  ∃ w' p', itrunc sb ip w = Some ((), w') ∧ fs_inv sb w' ∧ file_inv sb w' ip p' ∧ size p' = 0 ∧ same_meta p p' ∧
    (∀ j, 0 ≤ j ≤ MAXFILE → fblock w' p' j = 0) ∧
    (∀ c, 0 ≤ c < sb_size sb →
       ((∃ j, 0 ≤ j ≤ MAXFILE ∧ fblock w p j = c ∧ c ≠ 0) → used sb w' c = false) ∧
       (¬ (∃ j, 0 ≤ j ≤ MAXFILE ∧ fblock w p j = c ∧ c ≠ 0) → used sb w' c = used sb w c)) ∧
    (∀ c, dstart sb ≤ c → blk w' !! c = blk w !! c) ∧
    ∃ d, blk w !! IBLOCK sb (inum p) = Some d ∧
      blk w' !! IBLOCK sb (inum p) = Some (put_dinode (doff (inum p)) p' d).
Proof.
  intros Hinv Hf. destruct (itrunc_blocks w ip p Hinv Hf) as (w1 & E & [Hi1 Hu1 Hb1] & Hit1).
  set (p1 := set_size 0 (cleared p 13)) in *. pose proof (fv_inum _ _ _ _ Hf) as Hinum.
  assert (addrs p1 = replicate 13 0) as Ha1.
  { cbn [p1 set_size cleared addrs]. rewrite drop_ge by (by rewrite (fv_len _ _ _ _ Hf)). apply app_nil_r. }
  assert (∀ w0 j, 0 ≤ j ≤ MAXFILE → fblock w0 p1 j = 0) as Hz.
  { intros w0 j Hj. assert (∀ i, default 0 (replicate 13 0 !! i) = 0) as Hr.
    { intros i. destruct (replicate 13 0 !! i) eqn:Ei; [|done]. by apply lookup_replicate in Ei as [-> _]. }
    unfold fblock, indirect. rewrite Ha1, !Hr. cbn [Z.eqb]. by destruct (j <? NDIRECT), (j =? MAXFILE). }
  assert (file_inv sb w1 ip p1) as Hf1.
  { split; try done.
    - rewrite Hit1. apply list_lookup_insert_eq. by eapply lookup_lt_Some, (fv_ip _ _ _ _ Hf).
    - by rewrite Ha1.
    - intros j Hj. by rewrite Hz.
    - intros i j Hi Hj. by rewrite Hz.
    - intros i Hi Hlt. cbn [p1 set_size size] in Hlt. unfold BSIZE in *. lia. }
  destruct (iupdate_spec sb Hsb w1 ip p1 Hi1 Hf1) as (d & Hd & Hdl & E2 & Hi2 & Hf2 & _ & _ & Hu2).
  pose proof (IBLOCK_range sb Hsb _ Hinum) as Hib. pose proof (dstart_pos sb Hsb) as Hds.
  assert (IBLOCK sb (inum p) < dstart sb) as Hid.
  { unfold dstart in *. pose proof (Z.div_pos (sb_size sb) BPB ltac:(lia) ltac:(done)). lia. }
  eexists _, p1. rewrite E. split_and!; [exact E2|exact Hi2|exact Hf2|done|done|by intros; apply Hz| | |].
  - intros c Hc. rewrite Hu2 by done. destruct (Hu1 c Hc) as [H1 H2]. unfold freed in *.
    split; [intros (j & Hj & ?); apply H1|intros Hn; apply H2; intros (j & Hj & ?); apply Hn]; exists j; split; (lia || done).
  - intros c Hc. cbn [blk]. change (inum p1) with (inum p). rewrite lookup_insert_ne by lia. apply Hb1. by apply data_not_bitmap.
  - exists d. change (inum p1) with (inum p) in *. split; [|cbn [blk]; apply lookup_insert_eq].
    rewrite <-Hb1; [done|]. unfold is_bitmap. lia.
Qed.
End trunc.

Lemma itrunc_frees_blocks_witness :
  ∃ w' p', itrunc demo_sb 0 demo_fs = Some ((), w') ∧ fs_inv demo_sb w' ∧ file_inv demo_sb w' 0 p' ∧ size p' = 0 ∧
    same_meta demo_inode p' ∧ (∀ j, 0 ≤ j ≤ MAXFILE → fblock w' p' j = 0) ∧
    (∀ c, 0 ≤ c < sb_size demo_sb →
       ((∃ j, 0 ≤ j ≤ MAXFILE ∧ fblock demo_fs demo_inode j = c ∧ c ≠ 0) → used demo_sb w' c = false) ∧
       (¬ (∃ j, 0 ≤ j ≤ MAXFILE ∧ fblock demo_fs demo_inode j = c ∧ c ≠ 0) → used demo_sb w' c = used demo_sb demo_fs c)) ∧
    (∀ c, dstart demo_sb ≤ c → blk w' !! c = blk demo_fs !! c) ∧
    ∃ d, blk demo_fs !! IBLOCK demo_sb (inum demo_inode) = Some d ∧
      blk w' !! IBLOCK demo_sb (inum demo_inode) = Some (put_dinode (doff (inum demo_inode)) p' d).
Proof.
  apply (itrunc_frees_blocks demo_sb demo_layout demo_fs 0 demo_inode); [exact demo_fs_inv|exact demo_file].
Defined.
