(* ===== verification/FsInode.v ===== *)
(** Inodes on disk: what [iupdate] writes is what [ilock] reads
    ([xv6/kernel/fs.c]), and the other inodes of the block stay as they are. *)
From S2P Require Import Prelude Fs FsBlock FsFile FsRw.

(** ** Bytes *)

Lemma put_put_adj o a b d :
  0 ≤ o → o + Z.of_nat (length a + length b) ≤ Z.of_nat (length d) →
  put (o + Z.of_nat (length a)) b (put o a d) = put o (a ++ b) d.
Proof.
  intros Ho Hl. apply list_eq. intros k.
  assert (length (put o a d) = length d) as Hla by (apply put_length; lia).
  rewrite !put_lookup by (rewrite ?Hla, ?length_app; lia). rewrite length_app.
  destruct (decide (o ≤ Z.of_nat k < o + Z.of_nat (length a))) as [H1|H1].
  - rewrite decide_False, decide_True by lia. by rewrite lookup_app_l by lia.
  - destruct (decide (o + Z.of_nat (length a) ≤ Z.of_nat k < o + Z.of_nat (length a) + Z.of_nat (length b))) as [H2|H2].
    + rewrite decide_True, lookup_app_r by lia. f_equal. lia.
    + by rewrite decide_False by lia.
Qed.

Lemma slice_put_in o i n bs d :
  0 ≤ o → 0 ≤ i → 0 ≤ n → i + n ≤ Z.of_nat (length bs) → o + Z.of_nat (length bs) ≤ Z.of_nat (length d) →
  slice (o + i) n (put o bs d) = slice i n bs.
Proof.
  intros. apply list_eq. intros k. rewrite !slice_lookup. case_decide; [|done].
  rewrite put_lookup, decide_True by lia. f_equal. lia.
Qed.

Lemma slice_app_r i n a b : Z.of_nat (length a) ≤ i → slice i n (a ++ b) = slice (i - Z.of_nat (length a)) n b.
Proof.
  intros. apply list_eq. intros k. rewrite !slice_lookup. case_decide; [|done]. rewrite lookup_app_r by lia. f_equal. lia.
Qed.
Lemma slice_app_l n a b : n = Z.of_nat (length a) → slice 0 n (a ++ b) = a.
Proof. intros ->. unfold slice. rewrite Nat2Z.id, drop_0. apply take_app_length. Qed.

Lemma le_dec_enc_mod n v : le_dec (le_enc n v) = v mod 256 ^ Z.of_nat n.
Proof.
  revert v; induction n as [|n IH]; intros v; cbn [le_enc le_dec]; [by rewrite Z.mod_1_r|].
  rewrite IH, Nat2Z.inj_succ, Z.pow_succ_r by lia.
  rewrite (Z.rem_mul_r v 256 (256 ^ Z.of_nat n)) by (try apply Z.pow_pos_nonneg; lia). lia.
Qed.

(** A [short] and a [uint] as they are stored. *)
Lemma short_roundtrip v : - 2 ^ 15 ≤ v < 2 ^ 15 → swrap 16 (le_dec (le_enc 2 v)) = v.
Proof.
  intros Hv. rewrite le_dec_enc_mod. change (256 ^ Z.of_nat 2) with (2 ^ 16). unfold swrap.
  rewrite Z.add_mod_idemp_l by done. change (16 - 1) with 15. rewrite Z.mod_small by lia. lia.
Qed.

(** ** The encoding of an inode *)

Definition uints_bytes (vs : list Z) : list Z := concat (le_enc 4 <$> vs).
Definition dinode_bytes (p : inode) : list Z :=
  le_enc 2 (type p) ++ le_enc 2 (major p) ++ le_enc 2 (minor p) ++ le_enc 2 (nlink p) ++ le_enc 4 (size p) ++ uints_bytes (addrs p).

Lemma uints_bytes_length vs : length (uints_bytes vs) = (4 * length vs)%nat.
Proof. induction vs as [|v vs IH]; [done|]. unfold uints_bytes in *. cbn [fmap list_fmap concat]. rewrite length_app, le_enc_length, IH. simpl. lia. Qed.
Lemma dinode_bytes_length p : length (addrs p) = 13%nat → length (dinode_bytes p) = 64%nat.
Proof. intros Ha. unfold dinode_bytes. rewrite !length_app, !le_enc_length, uints_bytes_length, Ha. done. Qed.

Lemma put_uints_bytes vs o a d :
  0 ≤ o → o + Z.of_nat (length a + 4 * length vs) ≤ Z.of_nat (length d) →
  put_uints (o + Z.of_nat (length a)) vs (put o a d) = put o (a ++ uints_bytes vs) d.
Proof.
  revert a; induction vs as [|v vs IH]; intros a Ho Hl; cbn [put_uints length] in *; [by rewrite app_nil_r|].
  unfold put_uint. rewrite put_put_adj by (rewrite ?le_enc_length; lia).
  replace (o + Z.of_nat (length a) + 4) with (o + Z.of_nat (length (a ++ le_enc 4 v))) by (rewrite length_app, le_enc_length; lia).
  rewrite IH by (rewrite ?length_app, ?le_enc_length; lia). by rewrite <-app_assoc.
Qed.

Lemma put_dinode_bytes o p d :
  0 ≤ o → length (addrs p) = 13%nat → o + 64 ≤ Z.of_nat (length d) → put_dinode o p d = put o (dinode_bytes p) d.
Proof.
  intros Ho Ha Hl. unfold put_dinode, put_short, dinode_bytes.
  rewrite (put_put_adj o (le_enc 2 (type p)) (le_enc 2 (major p))) by (rewrite ?le_enc_length; lia).
  set (b1 := _ ++ le_enc 2 (major p)).
  replace (o + 4) with (o + Z.of_nat (length b1)) by (unfold b1; rewrite length_app, !le_enc_length; lia).
  rewrite put_put_adj by (unfold b1; rewrite ?length_app, ?le_enc_length; lia).
  set (b2 := b1 ++ _).
  replace (o + 6) with (o + Z.of_nat (length b2)) by (unfold b2, b1; rewrite !length_app, !le_enc_length; lia).
  rewrite put_put_adj by (unfold b2, b1; rewrite ?length_app, ?le_enc_length; lia).
  set (b3 := b2 ++ _). unfold put_uint.
  replace (o + 8) with (o + Z.of_nat (length b3)) by (unfold b3, b2, b1; rewrite !length_app, !le_enc_length; lia).
  rewrite put_put_adj by (unfold b3, b2, b1; rewrite ?length_app, ?le_enc_length; lia).
  set (b4 := b3 ++ _).
  replace (o + 12) with (o + Z.of_nat (length b4)) by (unfold b4, b3, b2, b1; rewrite !length_app, !le_enc_length; lia).
  rewrite put_uints_bytes by (unfold b4, b3, b2, b1; rewrite ?length_app, ?le_enc_length; lia).
  done.
Qed.

Lemma get_uints_bytes vs k v :
  Forall (λ x, 0 ≤ x < 2 ^ 32) vs → vs !! k = Some v → le_dec (slice (4 * Z.of_nat k) 4 (uints_bytes vs)) = v.
Proof.
  revert k; induction vs as [|x vs IH]; intros k Hr Hk; [done|]. inversion_clear Hr. unfold uints_bytes in *. cbn [fmap list_fmap concat].
  destruct k as [|k]; cbn [lookup list_lookup] in Hk; simplify_eq.
  - change (4 * Z.of_nat 0) with 0. rewrite slice_app_l by done. by apply (le_dec_enc 4).
  - rewrite slice_app_r by (rewrite le_enc_length; lia). rewrite le_enc_length.
    replace (4 * Z.of_nat (S k) - Z.of_nat 4) with (4 * Z.of_nat k) by lia. by apply IH.
Qed.

(** The fields that [ilock] reads, from the bytes of the inode. *)
Definition meta_ok (p : inode) : Prop :=
  (- 2 ^ 15 ≤ type p < 2 ^ 15 ∧ - 2 ^ 15 ≤ major p < 2 ^ 15 ∧ - 2 ^ 15 ≤ minor p < 2 ^ 15 ∧ - 2 ^ 15 ≤ nlink p < 2 ^ 15) ∧
  0 ≤ size p < 2 ^ 32 ∧ length (addrs p) = 13%nat ∧ Forall (λ a, 0 ≤ a < 2 ^ 32) (addrs p).

Lemma get_dinode_fields o p d :
  meta_ok p → 0 ≤ o → o + 64 ≤ Z.of_nat (length d) →
  let d' := put_dinode o p d in
  get_short o d' = type p ∧ get_short (o + 2) d' = major p ∧ get_short (o + 4) d' = minor p ∧ get_short (o + 6) d' = nlink p ∧
  get_uint (o + 8) d' = size p ∧ get_uints (o + 12) 13 d' = addrs p.
Proof.
  intros ((Ht & Hma & Hmi & Hnl) & Hs & Ha & Hr) Ho Hl d'. unfold d'. rewrite put_dinode_bytes by done.
  pose proof (dinode_bytes_length p Ha) as Hlb.
  assert (∀ i n, 0 ≤ i → 0 ≤ n → i + n ≤ 64 → slice (o + i) n (put o (dinode_bytes p) d) = slice i n (dinode_bytes p)) as Hin
    by (intros; apply slice_put_in; lia).
  unfold get_short, get_uint, get_uints.
  assert (slice o 2 (put o (dinode_bytes p) d) = slice 0 2 (dinode_bytes p)) as -> by (rewrite <-Hin by lia; by rewrite Z.add_0_r).
  rewrite !Hin by lia. split_and!; try by apply short_roundtrip.
  - exact (le_dec_enc 4 _ Hs).
  - apply list_eq. intros k. rewrite list_lookup_fmap. destruct (decide (k < 13)%nat) as [Hk|Hk].
    2:{ rewrite lookup_seq_ge by lia. symmetry. apply lookup_ge_None_2. lia. }
    rewrite lookup_seq_lt by done. cbn [fmap option_fmap option_map].
    destruct (lookup_lt_is_Some_2 (addrs p) k) as [v Hv]; [lia|]. rewrite Hv. f_equal.
    unfold get_uint. rewrite <-Z.add_assoc, Hin by lia. rewrite <-(get_uints_bytes _ _ _ Hr Hv). f_equal.
    unfold dinode_bytes. rewrite !app_assoc, slice_app_r by (rewrite !length_app, !le_enc_length; lia). f_equal.
    rewrite !length_app, !le_enc_length. lia.
Qed.

(** ** Writing and reading back *)

Section inode.
Context (sb : superblock) (Hsb : layout_ok sb).

(** C24: an inode that [iupdate] writes is the one that [ilock] reads into any
    entry of the table for its number, and the 64 bytes of every other inode
    are what they were. *)
Theorem iupdate_ilock_roundtrip w ip p :
  fs_inv sb w → file_inv sb w ip p → meta_ok p → type p ≠ 0 →
  ∃ w1, iupdate sb ip w = Some ((), w1) ∧ itable w1 = itable w ∧
    (∀ jp q, itable w !! jp = Some q → inum q = inum p → valid q = false → locked q = false → 0 < ref q →
       ilock sb jp w1 = Some ((), mkFsw (blk w1) (<[jp := mkInode (dev q) (inum p) (ref q) true true
         (type p) (major p) (minor p) (nlink p) (size p) (addrs p)]> (itable w)))) ∧
    (∀ n, 0 ≤ n < ninodes sb → n ≠ inum p → ∃ d d', blk w !! IBLOCK sb n = Some d ∧ blk w1 !! IBLOCK sb n = Some d' ∧
       slice (doff n) DINODE_SIZE d' = slice (doff n) DINODE_SIZE d).
Proof.
  intros Hinv Hf Hm Hty. destruct (iupdate_spec sb Hsb w ip p Hinv Hf) as (d & Hd & Hdl & E & _).
  assert (Z.of_nat (length d) = 1024) as Hl by (rewrite Hdl; done). pose proof (doff_range (inum p)) as Ho.
  eexists. split_and!; [exact E|done| |].
  - intros jp q Hq Hn Hv Hlk Hr. set (w1 := mkFsw _ _) in *. pose proof (lookup_lt_Some _ _ _ Hq) as Hlt.
    destruct (get_dinode_fields (doff (inum p)) p d) as (E1 & E2 & E3 & E4 & E5 & E6); [done|lia|lia|].
    unfold ilock. rewrite (bind_eq _ _ _ q w1) by (unfold the_ip; cbn [w1 itable]; by rewrite Hq).
    rewrite Hlk, Hv, (proj2 (Z.ltb_ge (ref q) 1)) by lia. cbn [orb].
    set (w2 := mkFsw (blk w1) (<[jp := set_locked true q]> (itable w))).
    rewrite (bind_eq _ _ _ () w2) by (unfold upd_ip; cbn [w1 itable blk]; by rewrite Hq).
    rewrite Hn, (bind_eq _ _ _ (put_dinode (doff (inum p)) p d) w2)
      by (apply block_at_eq; cbn [w2 w1 blk]; apply lookup_insert_eq).
    cbv zeta. rewrite E1, E2, E3, E4, E5, E6.
    rewrite (bind_eq _ _ _ () (mkFsw (blk w1) (<[jp := mkInode (dev q) (inum p) (ref q) true true
       (type p) (major p) (minor p) (nlink p) (size p) (addrs p)]> (itable w)))).
    + by rewrite (proj2 (Z.eqb_neq _ 0) Hty).
    + unfold upd_ip. cbn [w2 itable blk]. rewrite list_lookup_insert_eq, list_insert_insert_eq by done.
      cbn [set_locked dev inum ref locked]. by rewrite Hn.
  - intros n Hn Hne. pose proof (IBLOCK_range sb Hsb n Hn) as Hib. pose proof (dstart_pos sb Hsb) as Hds. cbn [blk].
    destruct (decide (IBLOCK sb n = IBLOCK sb (inum p))) as [Eb|Eb].
    + rewrite Eb, lookup_insert_eq. eexists d, _. split_and!; [done|done|]. pose proof (doff_range n) as Hon.
      destruct Hm as (_ & _ & Ha & _). rewrite put_dinode_bytes by (done || lia).
      apply slice_put_other; rewrite ?(dinode_bytes_length p Ha); unfold DINODE_SIZE; try lia.
      unfold IBLOCK, doff, DINODE_SIZE in *. change IPB with 16 in *.
      pose proof (Z.div_mod n 16 ltac:(lia)). pose proof (Z.div_mod (inum p) 16 ltac:(lia)). lia.
    + rewrite lookup_insert_ne by done. destruct (fi_block _ _ Hinv (IBLOCK sb n)) as (d' & Hd' & _); [|by exists d', d'].
      unfold dstart in *. pose proof (Z.div_pos (sb_size sb) BPB ltac:(lia) ltac:(done)). lia.
Qed.
End inode.

(** ** Witness *)

(** The file of the small disk, and an entry that has yet to be read. *)
Definition demo_stale : inode := mkInode 1 3 2 false false 0 0 0 0 0 (replicate 13 0).
Definition demo_fs2 : fsw := mkFsw demo_blocks [demo_inode; demo_stale].

Lemma demo_fs2_inv : fs_inv demo_sb demo_fs2 ∧ file_inv demo_sb demo_fs2 0 demo_inode.
Proof. destruct demo_fs_inv, demo_file. split; [by split|]. by split. Qed.

Lemma iupdate_ilock_roundtrip_witness :
  ∃ w1, iupdate demo_sb 0 demo_fs2 = Some ((), w1) ∧
    ilock demo_sb 1 w1 = Some ((), mkFsw (blk w1) [demo_inode; mkInode 1 3 2 true true 2 0 0 1 3 (5 :: replicate 12 0)]).
Proof.
  destruct (iupdate_ilock_roundtrip demo_sb demo_layout demo_fs2 0 demo_inode) as (w1 & E & Hit & Hl & _).
  - apply demo_fs2_inv.
  - apply demo_fs2_inv.
  - split; [cbn; lia|]. split; [cbn; lia|]. split; [done|]. repeat (constructor; [cbn; lia|]). constructor.
  - done.
  - exists w1. split; [exact E|]. apply (Hl 1%nat demo_stale); done.
Defined.
