(* ===== verification/Mkfs.v ===== *)
(** Making the disk image: [xv6/mkfs/mkfs.c].

    The image is a file of blocks. [rsect] fails past its end, [wsect] makes it
    longer. The host is taken to have the byte order of the machine, so that
    [xint] and [xshort] change nothing. An argument of the program is its path
    and the chunks that [read] returns. [None] is a failed assertion, or
    [die]. The theorem at the end says that the image is a file system for the
    kernel, with the arguments as its files. *)
From S2P Require Import Prelude Fs FsBlock FsFile FsRw FsInode.

Definition FSSIZE : Z := 2000.
Definition NINODES : Z := 200.
Definition LOGBLOCKS : Z := 10 * 3.
Definition T_FILE : Z := 2.
Definition nbitmap : Z := FSSIZE / BPB + 1.
Definition ninodeblocks : Z := NINODES / IPB + 1.
Definition nlog : Z := LOGBLOCKS + 1.
Definition nmeta : Z := 2 + nlog + ninodeblocks + nbitmap.
Definition mkfs_sb : superblock :=
  mkSb FSMAGIC FSSIZE (FSSIZE - nmeta) NINODES nlog 2 (2 + nlog) (2 + nlog + ninodeblocks).

Record mkw := mkMkw { img : gmap Z (list Z); freeinode : Z; freeblock : Z }.
Abbreviation mk := (M mkw).

Definition wsect (sec : Z) (buf : list Z) : mk unit := modify (λ w, mkMkw (<[sec := buf]> (img w)) (freeinode w) (freeblock w)).
Definition rsect (sec : Z) : mk (list Z) := λ w, match img w !! sec with Some d => Some (d, w) | None => None end.

(** A [dinode] is the part of an inode that is stored. *)
Definition read_dinode (o : Z) (d : list Z) : inode :=
  mkInode 0 0 0 false false (get_short o d) (get_short (o + 2) d) (get_short (o + 4) d) (get_short (o + 6) d) (get_uint (o + 8) d) (get_uints (o + 12) 13 d).
Definition winode (inum : Z) (ip : inode) : mk unit :=
  let bn := IBLOCK mkfs_sb inum in
  buf ← rsect bn;
  wsect bn (put_dinode (doff inum) ip buf).
Definition rinode (inum : Z) : mk inode :=
  buf ← rsect (IBLOCK mkfs_sb inum); mret (read_dinode (doff inum) buf).

Definition ialloc (ty : Z) : mk Z :=
  inum ← gets freeinode;
  modify (λ w, mkMkw (img w) (u32 (freeinode w + 1)) (freeblock w));;
  winode inum (mkInode 0 0 0 false false ty 0 0 1 0 (replicate 13 0));;
  mret inum.

Definition balloc (used : Z) : mk unit :=
  if used <? BPB then wsect (bmapstart mkfs_sb) (foldl mark_used zeros (seqZ 0 used)) else stuck.

(** [freeblock++] *)
Definition next_block : mk Z :=
  b ← gets freeblock; modify (λ w, mkMkw (img w) (freeinode w) (u32 (freeblock w + 1)));; mret b.
(** Entry [i] of the inode, with a block if it had none. *)
Definition addr_slot (din : inode) (i : nat) : mk (inode * Z) :=
  match addrs din !! i with
  | None => stuck
  | Some a => if a =? 0 then b ← next_block; mret (set_addr i b din, b) else mret (din, a)
  end.
(** The block of the file for [fbn]. *)
Definition append_slot (din : inode) (fbn : Z) : mk (inode * Z) :=
  if fbn <? NDIRECT then addr_slot din (Z.to_nat fbn)
  else
    r ← addr_slot din (Z.to_nat NDIRECT);
    let '(din, ib) := r in
    ind ← rsect ib;
    let o := 4 * (fbn - NDIRECT) in
    if get_uint o ind =? 0 then
      b ← next_block; wsect ib (put_uint o b ind);; mret (din, b)
    else mret (din, get_uint o ind).
Fixpoint iappend_loop (fuel : nat) (din : inode) (off : Z) (p : list Z) : mk (inode * Z) :=
  match p, fuel with
  | [], _ => mret (din, off)
  | _, O => stuck
  | _, S fuel =>
    let fbn := off / BSIZE in
    if fbn <? MAXFILE then
      r ← append_slot din fbn;
      let '(din, x) := r in
      let n1 := Z.min (Z.of_nat (length p)) ((fbn + 1) * BSIZE - off) in
      buf ← rsect x;
      wsect x (put (off - fbn * BSIZE) (take (Z.to_nat n1) p) buf);;
      iappend_loop fuel din (off + n1) (drop (Z.to_nat n1) p)
    else stuck
  end.
Definition iappend (inum : Z) (p : list Z) : mk unit :=
  din ← rinode inum;
  r ← iappend_loop (length p) din (size din) p;
  winode inum (set_size r.2 r.1).

(** A directory entry; [strncpy] pads the name with NULs. *)
Definition dirent (inum : Z) (name : list Z) : list Z :=
  le_enc 2 inum ++ take DIRSIZ (name ++ replicate DIRSIZ 0).
Definition shortname (path : list Z) : list Z :=
  let s := if decide (take 5 path = [117; 115; 101; 114; 47]) then drop 5 path else path in
  match s with 95 :: s' => s' | _ => s end.
Definition add_file (f : list Z * list (list Z)) : mk unit :=
  let name := shortname f.1 in
  if decide (47 ∈ name ∨ (DIRSIZ < length name)%nat) then stuck
  else
    inum ← ialloc T_FILE;
    iappend ROOTINO (dirent inum name);;
    mfor f.2 (λ buf, iappend inum buf).

Definition sb_bytes : list Z :=
  uints_bytes [magic mkfs_sb; sb_size mkfs_sb; nblocks mkfs_sb; ninodes mkfs_sb; Fs.nlog mkfs_sb; logstart mkfs_sb; inodestart mkfs_sb; bmapstart mkfs_sb].
Definition mkfs_main (files : list (list Z * list (list Z))) : mk unit :=
  modify (λ w, mkMkw (img w) (freeinode w) nmeta);;
  mfor (seqZ 0 FSSIZE) (λ i, wsect i zeros);;
  wsect 1 (put 0 sb_bytes zeros);;
  rootino ← ialloc T_DIR;
  if negb (rootino =? ROOTINO) then stuck
  else
    iappend rootino (dirent rootino [46]);;
    iappend rootino (dirent rootino [46; 46]);;
    mfor files add_file;;
    din ← rinode rootino;
    winode rootino (set_size ((size din / BSIZE + 1) * BSIZE) din);;
    b ← gets freeblock;
    balloc b.
(** The image starts empty. *)
Definition mkfs (files : list (list Z * list (list Z))) : option (gmap Z (list Z)) :=
  match mkfs_main files (mkMkw ∅ 1 0) with Some (_, w) => Some (img w) | None => None end.

(** ** The blocks of the files *)

(** The image as the kernel sees it. *)
Definition on_disk (w : mkw) : fsw := mkFsw (img w) [].
Definition fb (w : mkw) (p : inode) (j : Z) : Z := fblock (on_disk w) p j.

Lemma fb_same w w1 p j : (indirect p ≠ 0 → img w1 !! indirect p = img w !! indirect p) → fb w1 p j = fb w p j.
Proof.
  intros E. unfold fb, fblock. cbn [on_disk blk]. destruct (j <? NDIRECT); [done|]. destruct (j =? MAXFILE); [done|].
  destruct (Z.eqb_spec (indirect p) 0) as [|Hi]; [done|]. by rewrite E.
Qed.
Lemma fb_indirect w p : fb w p MAXFILE = indirect p. Proof. done. Qed.

(** The inodes [P] of the image, by their number less one: their slots that are
    taken, those in [al], have blocks of their own among the data blocks that
    were given out; the other data blocks are zero. *)
Record shape (w : mkw) (P : list inode) (al : nat → Z → Prop) : Prop := {
  sh_block : ∀ b, 0 ≤ b < FSSIZE → ∃ d, img w !! b = Some d ∧ length d = Z.to_nat BSIZE;
  sh_free : nmeta ≤ freeblock w ≤ FSSIZE;
  sh_zero : ∀ b, freeblock w ≤ b < FSSIZE → img w !! b = Some zeros;
  sh_addrs : ∀ i p, P !! i = Some p → length (addrs p) = 13%nat;
  sh_slot : ∀ i p j, P !! i = Some p → 0 ≤ j ≤ MAXFILE → (fb w p j ≠ 0 ↔ al i j) ∧ (fb w p j ≠ 0 → nmeta ≤ fb w p j < freeblock w);
  sh_inj : ∀ i p j i' p' j', P !! i = Some p → P !! i' = Some p' → 0 ≤ j ≤ MAXFILE → 0 ≤ j' ≤ MAXFILE →
    fb w p j ≠ 0 → fb w p j = fb w p' j' → i = i' ∧ j = j';
}.

Lemma shape_ext w P al al' : (∀ i j, is_Some (P !! i) → 0 ≤ j ≤ MAXFILE → al i j ↔ al' i j) → shape w P al → shape w P al'.
Proof.
  intros E [H1 H2 H3 H4 H5 H6]. split; try done. intros i p j Hp Hj. rewrite <-E by (done || by exists p). by apply H5.
Qed.

(** A fresh block becomes slot [j0] of file [k]. *)
Lemma shape_grow w P al k p w1 p1 j0 :
  shape w P al → P !! k = Some p → 0 ≤ j0 ≤ MAXFILE → fb w p j0 = 0 →
  freeblock w < FSSIZE → freeblock w1 = freeblock w + 1 → length (addrs p1) = 13%nat →
  (∀ j, 0 ≤ j ≤ MAXFILE → fb w1 p1 j = if decide (j = j0) then freeblock w else fb w p j) →
  (∀ i p', i ≠ k → P !! i = Some p' → ∀ j, fb w1 p' j = fb w p' j) →
  (∀ b, 0 ≤ b < FSSIZE → ∃ d, img w1 !! b = Some d ∧ length d = Z.to_nat BSIZE) →
  (∀ b, freeblock w < b < FSSIZE → img w1 !! b = img w !! b) →
  shape w1 (<[k := p1]> P) (λ i j, al i j ∨ i = k ∧ j = j0).
Proof.
  intros [H1 H2 H3 H4 H5 H6] Hk Hj0 Hz Hlt Hfb Hl Hfk Hfo Hb Hzero.
  assert (0 < nmeta) as Hm by done.
  assert (∀ i q, <[k := p1]> P !! i = Some q → (i = k ∧ q = p1) ∨ (i ≠ k ∧ P !! i = Some q)) as Hins.
  { intros i q [(-> & <- & _)|[? ?]]%list_lookup_insert_Some; [by left|by right]. }
  assert (∀ i q j, <[k := p1]> P !! i = Some q → 0 ≤ j ≤ MAXFILE → ∃ q0, P !! i = Some q0 ∧
    fb w1 q j = if decide (i = k ∧ j = j0) then freeblock w else fb w q0 j) as Hfb1.
  { intros i q j [[-> ->]|[Hne Hq]]%Hins Hj.
    - exists p. split; [done|]. rewrite Hfk by done. destruct (decide (j = j0)); [by rewrite decide_True|by rewrite decide_False by naive_solver].
    - exists q. split; [done|]. rewrite (Hfo i q Hne Hq). by rewrite decide_False by naive_solver. }
  split; try done.
  - lia.
  - intros b Hbb. rewrite Hzero by lia. apply H3. lia.
  - intros i q [[-> ->]|[_ Hq]]%Hins; [done|by eapply H4].
  - intros i q j Hq Hj. destruct (Hfb1 i q j Hq Hj) as (q0 & Hq0 & ->). destruct (H5 i q0 j Hq0 Hj) as [Hiff Hr].
    case_decide as Hd; [split; [split; [by right|lia]|lia]|]. split; [rewrite Hiff; tauto|intros ?%Hr; lia].
  - intros i q j i' q' j' Hq Hq' Hj Hj'. destruct (Hfb1 i q j Hq Hj) as (q0 & Hq0 & ->), (Hfb1 i' q' j' Hq' Hj') as (q0' & Hq0' & ->).
    destruct (H5 i q0 j Hq0 Hj) as [_ Hr], (H5 i' q0' j' Hq0' Hj') as [_ Hr'].
    repeat case_decide; [naive_solver|..]; intros Hn E; [|specialize (Hr Hn); lia|by eapply H6].
    rewrite <-E in Hr'. specialize (Hr' ltac:(lia)). lia.
Qed.

(** What finding a block for a file may change. *)
Record slot_step (w w1 : mkw) (p p1 : inode) : Prop := {
  st_ino : freeinode w1 = freeinode w;
  st_meta : same_meta p p1 ∧ size p1 = size p;
  st_keep : ∀ j, 0 ≤ j ≤ MAXFILE → fb w p j ≠ 0 → fb w1 p1 j = fb w p j;
  st_data : ∀ b, indirect p1 = 0 ∨ b ≠ indirect p1 → img w1 !! b = img w !! b;
}.
Lemma slot_step_refl w p : slot_step w w p p.
Proof. split; try done. Qed.
Lemma slot_step_trans w p w1 p1 w2 p2 : indirect p1 ≠ 0 → slot_step w w1 p p1 → slot_step w1 w2 p1 p2 → slot_step w w2 p p2.
Proof.
  intros Hi [A1 [A2 A3] A4 A5] [B1 [B2 B3] B4 B5]. split.
  - congruence.
  - unfold same_meta in *. destruct_and!. split_and!; congruence.
  - intros j Hj Hn. rewrite B4; [by apply A4|done|]. by rewrite A4.
  - intros b Hb. rewrite B5 by done. apply A5. pose proof (B4 MAXFILE ltac:(done)) as E. rewrite !fb_indirect in E. by rewrite <-E.
Qed.

Lemma slot_of_range i : (i ≤ 12)%nat → 0 ≤ slot_of i ≤ MAXFILE.
Proof. unfold slot_of. rewrite MAXFILE_val. case_decide; lia. Qed.

Lemma addr_slot_spec w P al k p i :
  shape w P al → P !! k = Some p → (i ≤ 12)%nat → (fb w p (slot_of i) = 0 → freeblock w < FSSIZE) →
  ∃ p1 w1, addr_slot p i w = Some ((p1, fb w1 p1 (slot_of i)), w1) ∧ shape w1 (<[k := p1]> P) (λ a j, al a j ∨ a = k ∧ j = slot_of i) ∧
    slot_step w w1 p p1 ∧ img w1 = img w ∧ freeblock w1 = freeblock w + (if fb w p (slot_of i) =? 0 then 1 else 0) ∧
    (fb w p (slot_of i) = 0 → fb w1 p1 (slot_of i) = freeblock w).
Proof.
  intros Hs Hk Hi Hroom. pose proof Hs as [H1 H2 H3 H4 H5 H6]. pose proof (H4 k p Hk) as Hl. unfold addr_slot.
  destruct (lookup_lt_is_Some_2 (addrs p) i) as [a Ha]; [lia|]. rewrite Ha.
  assert (fb w p (slot_of i) = a) as Efb.
  { unfold fb, fblock, slot_of, indirect. change (Z.to_nat NDIRECT) with 12%nat. destruct (decide (i < 12)%nat).
    - rewrite (proj2 (Z.ltb_lt (Z.of_nat i) NDIRECT)), Nat2Z.id, Ha by (unfold NDIRECT; lia). done.
    - assert (i = 12%nat) as -> by lia. change (MAXFILE <? NDIRECT) with false. change (MAXFILE =? MAXFILE) with true. by rewrite Ha. }
  pose proof (slot_of_range i Hi) as Hsl. destruct (Z.eqb_spec a 0) as [->|Hne].
  2:{ exists p, w. rewrite Efb, (proj2 (Z.eqb_neq _ _) Hne), Z.add_0_r. split_and!; [done| |apply slot_step_refl|done|done|congruence].
      rewrite list_insert_id by done. eapply shape_ext; [|exact Hs]. intros c j _ _. split; [by left|]. intros [?|[-> ->]]; [done|].
      destruct (H5 k p (slot_of i) Hk Hsl) as [Hiff _]. apply Hiff. by rewrite Efb. }
  specialize (Hroom Efb). set (r := freeblock w) in *. assert (0 < r < 2000) as Hr by (assert (0 < nmeta) by done; unfold FSSIZE in *; lia).
  set (p1 := set_addr i r p). set (w1 := mkMkw (img w) (freeinode w) (u32 (r + 1))).
  assert (freeblock w1 = r + 1) as Hfree by (cbn; apply u32_id; lia).
  assert (∀ j, 0 ≤ j ≤ MAXFILE → fb w1 p1 j = if decide (j = slot_of i) then r else fb w p j) as Hfb.
  { intros j Hj. apply fblock_set_addr; try done; [lia|]. intros _. apply H3. unfold FSSIZE. lia. }
  exists p1, w1. rewrite Efb. change (0 =? 0) with true. cbn iota.
  assert (addr_slot p i w = Some ((p1, r), w1)) as E by (unfold addr_slot; by rewrite Ha).
  unfold addr_slot in E. rewrite Ha in E. change (0 =? 0) with true in E. cbn iota in E.
  split_and!; [rewrite Hfb, decide_True by done; exact E| | |done|exact Hfree|intros _; by rewrite Hfb, decide_True].
  - apply (shape_grow w P al k p w1 p1 (slot_of i)); try done.
    cbn. by rewrite length_insert.
  - split; try done. intros j Hj Hn. rewrite Hfb by done. rewrite decide_False; [done|]. intros ->. congruence.
Qed.

(** The blocks that writing into block [fbn] of the file takes. *)
Definition cost (w : mkw) (p : inode) (fbn : Z) : Z :=
  (if fb w p fbn =? 0 then 1 else 0) + (if (NDIRECT <=? fbn) && (fb w p MAXFILE =? 0) then 1 else 0).

Lemma fb_entry w p fbn :
  NDIRECT ≤ fbn < MAXFILE → fb w p fbn = if indirect p =? 0 then 0 else get_uint (4 * (fbn - NDIRECT)) (default [] (img w !! indirect p)).
Proof. intros H. unfold fb, fblock. by rewrite (proj2 (Z.ltb_ge _ _)), (proj2 (Z.eqb_neq fbn MAXFILE)) by lia. Qed.

(** A fresh block becomes an entry of the indirect block. *)
Lemma entry_step w P al k p fbn d :
  shape w P al → P !! k = Some p → NDIRECT ≤ fbn < MAXFILE → fb w p fbn = 0 → indirect p ≠ 0 → img w !! indirect p = Some d →
  freeblock w < FSSIZE →
  let w1 := mkMkw (<[indirect p := put_uint (4 * (fbn - NDIRECT)) (freeblock w) d]> (img w)) (freeinode w) (freeblock w + 1) in
  shape w1 P (λ a j, al a j ∨ a = k ∧ j = fbn) ∧ slot_step w w1 p p ∧ fb w1 p fbn = freeblock w ∧ img w1 !! freeblock w = Some zeros.
Proof.
  intros Hs Hk Hf Hz Hi Hd Hlt w1. pose proof Hs as [H1 H2 H3 H4 H5 H6]. pose proof MAXFILE_val as HM. assert (NDIRECT = 12) as HN by done. assert (0 < nmeta) as Hm by done.
  destruct (H5 k p MAXFILE Hk ltac:(lia)) as [_ Hir]. rewrite fb_indirect in Hir. specialize (Hir Hi).
  assert (length d = Z.to_nat BSIZE) as Hdl by (destruct (H1 (indirect p)) as (d' & ? & ?); [lia|congruence]).
  assert (∀ j, 0 ≤ j ≤ MAXFILE → fb w1 p j = if decide (j = fbn) then freeblock w else fb w p j) as Hfb.
  { intros j Hj. transitivity (if decide (j = NDIRECT + (fbn - NDIRECT)) then freeblock w else fb w p j);
      [|by destruct (decide (j = NDIRECT + (fbn - NDIRECT))), (decide (j = fbn)); try lia].
    apply (fblock_set_entry (on_disk w) (on_disk w1) p (fbn - NDIRECT) (freeblock w) j d); try done.
    - change NINDIRECT with 256. fslia.
    - apply lookup_insert_eq.
    - unfold FSSIZE in *. lia. }
  split_and!.
  - rewrite <-(list_insert_id P k p) by done.
    apply (shape_grow w P al k p w1 p fbn); try done; [lia|by eapply H4| | |].
    + intros i p' Hne Hp' j. apply fb_same. intros Hi'. cbn. apply lookup_insert_ne. intros E.
      destruct (H6 k p MAXFILE i p' MAXFILE) as [? _]; (done || lia || congruence).
    + intros b Hb. cbn. destruct (decide (b = indirect p)) as [->|]; [|rewrite lookup_insert_ne by done; by apply H1].
      rewrite lookup_insert_eq. eexists. split; [done|]. rewrite put_uint_length; rewrite ?Hdl; fslia.
    + intros b Hb. cbn. rewrite lookup_insert_ne by lia. done.
  - split; try done; [|intros b [?|Hb]; cbn; [done|by rewrite lookup_insert_ne]].
    intros j Hj Hn. rewrite Hfb by done. rewrite decide_False; [done|]. congruence.
  - rewrite Hfb, decide_True by (done || lia). done.
  - cbn. rewrite lookup_insert_ne by lia. apply H3. lia.
Qed.

Lemma append_slot_spec w P al k p fbn :
  shape w P al → P !! k = Some p → 0 ≤ fbn < MAXFILE → freeblock w + cost w p fbn ≤ FSSIZE →
  ∃ p1 w1, append_slot p fbn w = Some ((p1, fb w1 p1 fbn), w1) ∧
    shape w1 (<[k := p1]> P) (λ a j, al a j ∨ a = k ∧ (j = fbn ∨ NDIRECT ≤ fbn ∧ j = MAXFILE)) ∧
    slot_step w w1 p p1 ∧ freeblock w1 = freeblock w + cost w p fbn ∧ (fb w p fbn = 0 → img w1 !! fb w1 p1 fbn = Some zeros).
Proof.
  intros Hs Hk Hf Hroom. pose proof MAXFILE_val as HM. unfold append_slot, cost in *. destruct (Z.ltb_spec fbn NDIRECT) as [Hlt|Hge].
  { rewrite (proj2 (Z.leb_gt NDIRECT fbn) Hlt) in *. cbn [andb] in *. rewrite Z.add_0_r in *. unfold NDIRECT in *.
    assert (slot_of (Z.to_nat fbn) = fbn) as Esl by (unfold slot_of; rewrite decide_True by lia; lia).
    assert (fb w p fbn = 0 → freeblock w < FSSIZE) as Hr by (destruct (Z.eqb_spec (fb w p fbn) 0); lia).
    destruct (addr_slot_spec w P al k p (Z.to_nat fbn) Hs Hk) as (p1 & w1 & E & Hs1 & Hst & Hi & Hfr & Hnew); [lia|by rewrite Esl|].
    rewrite Esl in *. exists p1, w1. split_and!; [done| |done|done|].
    - eapply shape_ext; [|exact Hs1]. intros a j _ Hj. cbn beta. split; [intros [?|[-> ->]]; [by left|right; tauto]|intros [?|[-> [->|[? _]]]]; [by left|by right|lia]].
    - intros Ez. rewrite Hi, Hnew by done. apply (sh_zero _ _ _ Hs). specialize (Hr Ez). pose proof (sh_free _ _ _ Hs). lia. }
  rewrite (proj2 (Z.leb_le NDIRECT fbn) Hge) in *. cbn [andb] in *. change (Z.to_nat NDIRECT) with 12%nat.
  assert (fb w p MAXFILE = 0 → freeblock w < FSSIZE) as Hr by (destruct (Z.eqb_spec (fb w p fbn) 0), (Z.eqb_spec (fb w p MAXFILE) 0); lia).
  destruct (addr_slot_spec w P al k p 12 Hs Hk) as (p1 & w1 & E & Hs1 & Hst & Hi & Hfr & Hnew); [lia|done|].
  change (slot_of 12) with MAXFILE in *. rewrite (bind_eq _ _ _ _ _ E). clear E. cbn iota beta.
  set (P1 := <[k := p1]> P) in *. assert (NDIRECT = 12) as HN by done. assert (P1 !! k = Some p1) as Hk1 by (apply list_lookup_insert_eq; by eapply lookup_lt_Some).
  assert (0 < nmeta) as Hm by done.
  destruct (sh_slot _ _ _ Hs1 k p1 MAXFILE Hk1 ltac:(lia)) as [Hin Hir]. assert (fb w1 p1 MAXFILE ≠ 0) as Hi0 by (apply Hin; by right).
  specialize (Hir Hi0). rewrite fb_indirect in Hi0, Hir |- *.
  destruct (sh_block _ _ _ Hs1 (indirect p1)) as (d & Hd & Hdl); [pose proof (sh_free _ _ _ Hs1); lia|].
  rewrite (bind_eq _ _ _ d w1) by (unfold rsect; by rewrite Hd). cbv zeta.
  assert (fb w1 p1 fbn = get_uint (4 * (fbn - NDIRECT)) d) as Ee by (rewrite fb_entry, (proj2 (Z.eqb_neq _ _) Hi0), Hd by lia; done).
  assert (fb w1 p1 fbn = fb w p fbn) as Eold.
  { destruct (decide (fb w p fbn = 0)) as [Ez|Hn]; [|apply (st_keep _ _ _ _ Hst); (lia || done)]. rewrite Ez.
    destruct (decide (fb w1 p1 fbn = 0)) as [|Hn]; [done|]. apply (sh_slot _ _ _ Hs1 k p1 fbn Hk1 ltac:(lia)) in Hn as [Hal|[_ ?]]; [|lia].
    apply (sh_slot _ _ _ Hs k p fbn Hk ltac:(lia)) in Hal. done. }
  rewrite <-Ee. destruct (Z.eqb_spec (fb w1 p1 fbn) 0) as [Ez|Hn].
  2:{ exists p1, w1. rewrite <-Eold, (proj2 (Z.eqb_neq _ _) Hn). split_and!; [done| |done|lia|done].
      eapply shape_ext; [|exact Hs1]. intros a j _ _. cbn beta. split; [intros [?|[-> ->]]; [by left|right; by auto]|].
      intros [?|[-> [->|[_ ->]]]]; [by left|left|by right]. apply (sh_slot _ _ _ Hs k p fbn Hk ltac:(lia)). congruence. }
  rewrite <-Eold in Hroom |- *. rewrite Ez in Hroom |- *. change (0 =? 0) with true in *. cbn iota in *.
  assert (freeblock w1 < FSSIZE) as Hlt by lia.
  destruct (entry_step w1 P1 _ k p1 fbn d Hs1 Hk1) as (Hs2 & Hst2 & E2 & Hz2); try done; [lia|].
  eexists p1, _. rewrite E2. split_and!.
  - unfold next_block. rewrite bind_assoc. unfold gets, modify. msimpl. unfold wsect. rewrite u32_id by (unfold FSSIZE in *; pose proof (sh_free _ _ _ Hs1); lia). reflexivity.
  - eapply shape_ext; [|exact Hs2]. intros a j _ _. cbn beta. tauto.
  - by eapply slot_step_trans.
  - cbn. lia.
  - done.
Qed.

(** ** The contents of the files *)

(** The slots that a file of [s] bytes has, and how many blocks these are. *)
Definition need (s j : Z) : Prop := (j < MAXFILE ∧ j * BSIZE < s) ∨ (j = MAXFILE ∧ NDIRECT * BSIZE < s).
Definition nblk (s : Z) : Z := (s + 1023) / BSIZE + (if NDIRECT * BSIZE <? s then 1 else 0).
Definition len (c : list Z) : Z := Z.of_nat (length c).
Definition clen (C : list (list Z)) (i : nat) : Z := len (default [] (C !! i)).

Lemma nblk_mono s s' : s ≤ s' → nblk s ≤ nblk s'.
Proof.
  intros H. unfold nblk. pose proof (Z.div_le_mono (s + 1023) (s' + 1023) BSIZE ltac:(done) ltac:(lia)).
  destruct (Z.ltb_spec (NDIRECT * BSIZE) s), (Z.ltb_spec (NDIRECT * BSIZE) s'); lia.
Qed.

(** The image holds the files of contents [C] with the inodes [P]. *)
Record holds (w : mkw) (P : list inode) (C : list (list Z)) : Prop := {
  ho_shape : shape w P (λ i, need (clen C i));
  ho_len : length P = length C;
  ho_bytes : ∀ i p c k, P !! i = Some p → C !! i = Some c → 0 ≤ k < MAXFILE * BSIZE →
    fbyte (on_disk w) p k = default 0 (c !! Z.to_nat k);
}.

(** Appending within one block: the slots and the blocks it takes. *)
Section chunk.
Context (off n1 : Z) (Hoff : 0 ≤ off < MAXFILE * BSIZE) (Hn : 0 < n1 ≤ (off / BSIZE + 1) * BSIZE - off).

Lemma need_grow j : 0 ≤ j ≤ MAXFILE →
  need (off + n1) j ↔ need off j ∨ (j = off / BSIZE ∨ NDIRECT ≤ off / BSIZE ∧ j = MAXFILE).
Proof using Hoff Hn.
  intros Hj. destruct (off_split off) as [Eo Hm]. pose proof (bn_range off Hoff). unfold need. fslia.
Qed.
Lemma nblk_grow w p :
  (∀ j, 0 ≤ j ≤ MAXFILE → fb w p j ≠ 0 ↔ need off j) → cost w p (off / BSIZE) = nblk (off + n1) - nblk off.
Proof using Hoff Hn.
  intros Hfb. destruct (off_split off) as [Eo Hm]. pose proof (bn_range off Hoff) as Hb. unfold cost, nblk.
  pose proof (Hfb (off / BSIZE) ltac:(lia)) as H1. pose proof (Hfb MAXFILE ltac:(fslia)) as H2. unfold need in H1, H2.
  assert ((off + n1 + 1023) / BSIZE = off / BSIZE + 1) as ->.
  { symmetry. apply (Z.div_unique _ _ _ (off + n1 - 1 - off / BSIZE * BSIZE)); fslia. }
  assert ((off + 1023) / BSIZE = off / BSIZE + (if off =? off / BSIZE * BSIZE then 0 else 1)) as ->.
  { symmetry. destruct (Z.eqb_spec off (off / BSIZE * BSIZE)).
    - apply (Z.div_unique _ _ _ 1023); fslia.
    - apply (Z.div_unique _ _ _ (off - 1 - off / BSIZE * BSIZE)); fslia. }
  destruct (Z.eqb_spec (fb w p (off / BSIZE)) 0), (Z.eqb_spec (fb w p MAXFILE) 0), (Z.leb_spec NDIRECT (off / BSIZE)),
    (Z.eqb_spec off (off / BSIZE * BSIZE)), (Z.ltb_spec (NDIRECT * BSIZE) (off + n1)), (Z.ltb_spec (NDIRECT * BSIZE) off);
    cbn [andb]; fslia.
Qed.
End chunk.

Lemma shape_sep w P al i p j i' p' j' :
  shape w P al → P !! i = Some p → P !! i' = Some p' → 0 ≤ j ≤ MAXFILE → 0 ≤ j' ≤ MAXFILE →
  fb w p j ≠ 0 → (i ≠ i' ∨ j ≠ j') → fb w p j ≠ fb w p' j'.
Proof. intros Hs Hp Hp' Hj Hj' Hn Hd E. destruct (sh_inj _ _ _ Hs i p j i' p' j'); try done. tauto. Qed.

(** Taking blocks changes no contents. *)
Lemma slot_data w w1 P al k p p1 fbn :
  shape w P al → shape w1 (<[k := p1]> P) (λ a j, al a j ∨ a = k ∧ (j = fbn ∨ NDIRECT ≤ fbn ∧ j = MAXFILE)) →
  P !! k = Some p → slot_step w w1 p p1 → (fb w p fbn = 0 → img w1 !! fb w1 p1 fbn = Some zeros) →
  ∀ i q, <[k := p1]> P !! i = Some q → ∃ q0, P !! i = Some q0 ∧ ∀ j, 0 ≤ j < MAXFILE → fdata (on_disk w1) q j = fdata (on_disk w) q0 j.
Proof.
  intros Hs Hs1 Hk Hst Hnew i q Hq. pose proof MAXFILE_val as HM.
  assert (<[k := p1]> P !! k = Some p1) as Hk1 by (apply list_lookup_insert_eq; by eapply lookup_lt_Some).
  assert (∀ j, 0 ≤ j < MAXFILE → fb w1 q j ≠ 0 → img w1 !! fb w1 q j = img w !! fb w1 q j) as Himg.
  { intros j Hj Hn. apply (st_data _ _ _ _ Hst). right. rewrite <-(fb_indirect w1). eapply shape_sep; try done; lia. }
  destruct (decide (i = k)) as [->|Hne].
  - assert (q = p1) as -> by congruence. exists p. split; [done|]. intros j Hj. unfold fdata. fold (fb w1 p1 j) (fb w p j).
    destruct (Z.eqb_spec (fb w p j) 0) as [Ez|Hn].
    + destruct (Z.eqb_spec (fb w1 p1 j) 0) as [|Hn1]; [done|].
      assert (j = fbn) as ->; [|cbn [on_disk blk]; by rewrite Hnew].
      apply (sh_slot _ _ _ Hs1 k p1 j Hk1 ltac:(lia)) in Hn1 as [Hal|(_ & [?|[_ ?]])]; [|done|lia].
      by apply (sh_slot _ _ _ Hs k p j Hk ltac:(lia)) in Hal.
    + assert (fb w1 p1 j = fb w p j) as E by (apply (st_keep _ _ _ _ Hst); [lia|done]).
      rewrite E, (proj2 (Z.eqb_neq _ _) Hn). cbn [on_disk blk]. by rewrite <-E, Himg by (lia || congruence).
  - pose proof Hq as Hq0. rewrite list_lookup_insert_ne in Hq0 by done. exists q. split; [done|]. intros j Hj.
    assert (fb w1 q j = fb w q j) as E.
    { apply fb_same. intros Hi. apply (st_data _ _ _ _ Hst). right. rewrite <-(fb_indirect w1 q), <-(fb_indirect w1 p1).
      eapply shape_sep; try done; (lia || by left). }
    unfold fdata. fold (fb w1 q j) (fb w q j). rewrite <-E. destruct (Z.eqb_spec (fb w1 q j) 0) as [|Hn]; [done|]. cbn [on_disk blk]. by rewrite Himg.
Qed.

(** New contents for block [j] of a file. *)
Lemma data_step w P al k p j d :
  shape w P al → P !! k = Some p → 0 ≤ j < MAXFILE → fb w p j ≠ 0 → length d = Z.to_nat BSIZE →
  let w1 := mkMkw (<[fb w p j := d]> (img w)) (freeinode w) (freeblock w) in
  shape w1 P al ∧ ∀ i q j', P !! i = Some q → 0 ≤ j' < MAXFILE →
    fdata (on_disk w1) q j' = if decide (i = k ∧ j' = j) then d else fdata (on_disk w) q j'.
Proof.
  intros Hs Hk Hj Hn Hd w1. pose proof Hs as [H1 H2 H3 H4 H5 H6]. pose proof MAXFILE_val as HM.
  destruct (H5 k p j Hk ltac:(lia)) as [_ Hr]. specialize (Hr Hn).
  assert (∀ i q j', P !! i = Some q → fb w1 q j' = fb w q j') as Hfb.
  { intros i q j' Hq. apply fb_same. intros Hi. cbn [img w1]. rewrite lookup_insert_ne; [done|]. rewrite <-(fb_indirect w).
    eapply shape_sep; try done; lia. }
  split.
  - split; try done.
    + intros b Hb. cbn [img w1]. destruct (decide (b = fb w p j)) as [->|]; [rewrite lookup_insert_eq; by eauto|]. rewrite lookup_insert_ne by done. by apply H1.
    + intros b Hb. cbn [img freeblock w1] in *. rewrite lookup_insert_ne by lia. by apply H3.
    + intros i q j' Hq Hj'. rewrite (Hfb i) by done. by apply H5.
    + intros i q j1 i' q' j2 Hq Hq'. rewrite (Hfb i q), (Hfb i' q') by done. by apply H6.
  - intros i q j' Hq Hj'. unfold fdata. fold (fb w1 q j') (fb w q j'). rewrite (Hfb i) by done. case_decide as E.
    + destruct E as [-> ->]. assert (q = p) as -> by congruence. rewrite (proj2 (Z.eqb_neq _ _) Hn). cbn [on_disk blk img w1]. by rewrite lookup_insert_eq.
    + destruct (Z.eqb_spec (fb w q j') 0) as [|Hn']; [done|]. cbn [on_disk blk img w1]. rewrite lookup_insert_ne; [done|].
      eapply shape_sep; try done; lia.
Qed.

(** ** Appending *)

(** What appending to a file leaves as it is. *)
Record kept (w w1 : mkw) (p p1 : inode) : Prop := {
  kp_ino : freeinode w1 = freeinode w;
  kp_meta : same_meta p p1 ∧ size p1 = size p;
  kp_img : ∀ b, 0 ≤ b < nmeta → img w1 !! b = img w !! b;
}.
Lemma append_kept_trans w p w1 p1 w2 p2 : kept w w1 p p1 → kept w1 w2 p1 p2 → kept w w2 p p2.
Proof.
  intros [A1 [A2 A3] A4] [B1 [B2 B3] B4]. split; [congruence| |intros b Hb; by rewrite B4, A4].
  unfold same_meta in *. destruct_and!. split_and!; congruence.
Qed.

Lemma clen_insert C k c i : (k < length C)%nat → clen (<[k := c]> C) i = if decide (i = k) then len c else clen C i.
Proof. intros Hk. unfold clen. case_decide; [subst; by rewrite list_lookup_insert_eq|by rewrite list_lookup_insert_ne]. Qed.
Lemma clen_eq C k c : C !! k = Some c → clen C k = len c.
Proof. unfold clen. by intros ->. Qed.

(** The bytes [bs] go into the block [d] in which the contents [c] end. *)
Lemma append_bytes w p w1 p1 w2 p2 c bs d :
  let off := len c in
  off < MAXFILE * BSIZE → off mod BSIZE + len bs ≤ BSIZE →
  (∀ k, 0 ≤ k < MAXFILE * BSIZE → fbyte w p k = default 0 (c !! Z.to_nat k)) →
  (∀ j, 0 ≤ j < MAXFILE → fdata w1 p1 j = fdata w p j) → fdata w1 p1 (off / BSIZE) = d → length d = Z.to_nat BSIZE →
  (∀ j, 0 ≤ j < MAXFILE → fdata w2 p2 j = if decide (j = off / BSIZE) then put (off mod BSIZE) bs d else fdata w1 p1 j) →
  ∀ k, 0 ≤ k < MAXFILE * BSIZE → fbyte w2 p2 k = default 0 ((c ++ bs) !! Z.to_nat k).
Proof.
  intros off Hoff Hbs Hb Hd1 Hd Hdl Hd2 k Hk. unfold off, len in *.
  rewrite (fbyte_put w1 p1 w2 p2 (Z.of_nat (length c)) bs); [|lia|lia|by rewrite Hd|by rewrite Hd|done]. case_decide as Hin.
  - rewrite lookup_app_r by lia. do 2 f_equal. lia.
  - assert (fbyte w1 p1 k = fbyte w p k) as -> by (unfold fbyte; by rewrite Hd1 by by apply bn_range). rewrite Hb by done.
    destruct (decide (k < Z.of_nat (length c))); [by rewrite lookup_app_l by lia|].
    rewrite !lookup_ge_None_2; [done|rewrite length_app; lia|lia].
Qed.

Lemma iappend_turn fuel w P C k p c q :
  holds w P C → P !! k = Some p → C !! k = Some c → q ≠ [] → len c + len q ≤ MAXFILE * BSIZE →
  let n1 := Z.min (len q) ((len c / BSIZE + 1) * BSIZE - len c) in
  let c1 := c ++ take (Z.to_nat n1) q in
  freeblock w + (nblk (len c1) - nblk (len c)) ≤ FSSIZE →
  ∃ p1 w1, iappend_loop (S fuel) p (len c) q w = iappend_loop fuel p1 (len c1) (drop (Z.to_nat n1) q) w1 ∧
    holds w1 (<[k := p1]> P) (<[k := c1]> C) ∧ freeblock w1 = freeblock w + (nblk (len c1) - nblk (len c)) ∧ kept w w1 p p1.
Proof.
  intros [Hs Hl Hb] Hk Hc Hq Hmax n1 c1 Hroom. pose proof MAXFILE_val as HM. set (off := len c) in *. set (fbn := off / BSIZE) in *.
  assert (0 < len q) as Hql by (unfold len; destruct q; [done|cbn; lia]).
  assert (0 ≤ off < MAXFILE * BSIZE) as Hoff by (unfold off, len in *; lia).
  destruct (off_split off) as [Eo Hm]. fold fbn in Eo.
  assert (0 < n1 ≤ (fbn + 1) * BSIZE - off) as Hn1 by (unfold n1; fslia).
  assert (0 ≤ fbn < MAXFILE) as Hf by by apply bn_range.
  assert (length (take (Z.to_nat n1) q) = Z.to_nat n1) as Htl by (rewrite length_take; unfold len in *; lia).
  assert (len c1 = off + n1) as Ec1 by (unfold c1, len; rewrite length_app, Htl; unfold off, len; lia). rewrite Ec1 in *.
  assert (cost w p fbn = nblk (off + n1) - nblk off) as Ecost.
  { apply nblk_grow; [done|done|]. intros j Hj. rewrite (proj1 (sh_slot _ _ _ Hs k p j Hk Hj)). by rewrite (clen_eq C k c). }
  destruct (append_slot_spec w P _ k p fbn Hs Hk Hf) as (p1 & w1 & E & Hs1 & Hst & Hfr & Hz); [lia|].
  pose proof (slot_data w w1 P _ k p p1 fbn Hs Hs1 Hk Hst Hz) as Hdata. set (P1 := <[k := p1]> P) in *.
  assert (P1 !! k = Some p1) as Hk1 by (apply list_lookup_insert_eq; by eapply lookup_lt_Some).
  destruct (sh_slot _ _ _ Hs1 k p1 fbn Hk1 ltac:(lia)) as [Hin Hr]. assert (fb w1 p1 fbn ≠ 0) as Hn0 by (apply Hin; tauto). specialize (Hr Hn0).
  destruct (sh_block _ _ _ Hs1 (fb w1 p1 fbn)) as (d & Hd & Hdl); [pose proof (sh_free _ _ _ Hs1); assert (0 < nmeta) by done; lia|].
  assert (Z.of_nat (length d) = 1024) as Hdl' by (rewrite Hdl; done).
  set (d1 := put (off - fbn * BSIZE) (take (Z.to_nat n1) q) d).
  destruct (data_step w1 P1 _ k p1 fbn d1 Hs1 Hk1 Hf Hn0) as [Hs2 Hdata2]; [unfold d1; rewrite put_length; fslia|].
  set (w2 := mkMkw _ _ _) in *. exists p1, w2. split_and!.
  - cbn [iappend_loop]. destruct q as [|b q]; [done|]. fold fbn. rewrite (proj2 (Z.ltb_lt _ _)) by lia.
    rewrite (bind_eq _ _ _ _ _ E). cbn iota beta zeta. rewrite (bind_eq _ _ _ d w1) by (unfold rsect; by rewrite Hd).
    by rewrite (bind_eq _ _ _ () w2).
  - pose proof (lookup_lt_Some _ _ _ Hc) as Hlt. split.
    + eapply shape_ext; [|exact Hs2]. intros i j _ Hj. cbn beta. rewrite (clen_insert C k c1 i) by done. rewrite Ec1.
      case_decide as Ei; [|tauto]. subst. rewrite (clen_eq C k c) by done. fold off. rewrite (need_grow off n1 Hoff Hn1 j Hj). fold fbn. tauto.
    + by rewrite !length_insert.
    + assert (fdata (on_disk w1) p1 fbn = d) as Efd by (unfold fdata; fold (fb w1 p1 fbn); rewrite (proj2 (Z.eqb_neq _ _) Hn0); cbn [on_disk blk]; by rewrite Hd).
      intros i q' c' j Hq' Hc' Hj. fold P1 in Hq'. destruct (Hdata i q' Hq') as (q0 & Hq0 & Hd0). destruct (decide (i = k)) as [->|Hne];
        [rewrite list_lookup_insert_eq in Hc' by done|rewrite list_lookup_insert_ne in Hc' by done].
      * assert (q0 = p) as -> by congruence. assert (q' = p1) as -> by congruence. assert (c' = c1) as -> by congruence.
        eapply (append_bytes _ p _ p1 _ p1 c _ d); fold off fbn; [lia|by unfold len; rewrite Htl; fslia|intros k'; by apply (Hb k p c)|exact Hd0|exact Efd|done| |done].
        intros j' Hj'. rewrite (Hdata2 k p1 j' Hk1 Hj'). replace (off mod BSIZE) with (off - fbn * BSIZE) by lia.
        fold d1. destruct (decide (j' = fbn)); [by rewrite decide_True|by rewrite decide_False by tauto].
      * unfold fbyte. pose proof (bn_range j Hj) as Hbj.
        rewrite (Hdata2 i q' _ Hq' Hbj), decide_False by naive_solver. rewrite (Hd0 _ Hbj). by apply (Hb i q0 c').
  - cbn [w2 freeblock]. lia.
  - destruct Hst as [S1 S2 S3 S4]. split; [done|done|]. intros b Hbb. cbn [w2 img]. rewrite lookup_insert_ne by lia. apply S4.
    destruct (decide (b = indirect p1)) as [->|]; [left|by right]. rewrite <-(fb_indirect w1) in Hbb. destruct (sh_slot _ _ _ Hs1 k p1 MAXFILE Hk1 ltac:(lia)) as [_ Hr'].
    destruct (decide (fb w1 p1 MAXFILE = 0)) as [E0|Hn']; [done|specialize (Hr' Hn'); lia].
Qed.

Lemma iappend_loop_spec fuel w P C k p c q :
  holds w P C → P !! k = Some p → C !! k = Some c → (length q ≤ fuel)%nat → len (c ++ q) ≤ MAXFILE * BSIZE →
  freeblock w + (nblk (len (c ++ q)) - nblk (len c)) ≤ FSSIZE →
  ∃ p1 w1, iappend_loop fuel p (len c) q w = Some ((p1, len (c ++ q)), w1) ∧
    holds w1 (<[k := p1]> P) (<[k := c ++ q]> C) ∧ freeblock w1 = freeblock w + (nblk (len (c ++ q)) - nblk (len c)) ∧ kept w w1 p p1.
Proof.
  revert w P C p c q; induction fuel as [|fuel IH]; intros w P C p c q Hh Hk Hc Hfuel Hmax Hroom; (destruct (decide (q = [])) as [->|Hq];
    [exists p, w; rewrite app_nil_r, !list_insert_id by done; split_and!; [done|done|lia|by repeat split]|]).
  { destruct q; [done|cbn in Hfuel; lia]. }
  assert (len (c ++ q) = len c + len q) as El by (unfold len; rewrite length_app; lia).
  assert (0 < len q) as Hql by (unfold len; destruct q; [done|cbn; lia]).
  pose proof (iappend_turn fuel w P C k p c q Hh Hk Hc Hq ltac:(lia)) as Ht. cbv zeta in Ht.
  set (n1 := Z.min (len q) _) in Ht. set (c1 := c ++ take (Z.to_nat n1) q) in *.
  destruct (off_split (len c)) as [Eo Hm]. assert (0 < n1 ≤ len q) as Hn1 by (unfold n1; fslia).
  assert (c1 ++ drop (Z.to_nat n1) q = c ++ q) as Ecat by (unfold c1; by rewrite <-app_assoc, take_drop).
  assert (len c1 ≤ len (c ++ q)) as Hle by (rewrite <-Ecat; unfold len; rewrite length_app; lia).
  pose proof (nblk_mono _ _ Hle) as Hmono.
  destruct Ht as (p1 & w1 & E & Hh1 & Hfr1 & Hkp1); [lia|]. rewrite E.
  destruct (IH w1 _ _ p1 c1 (drop (Z.to_nat n1) q) Hh1) as (p2 & w2 & E2 & Hh2 & Hfr2 & Hkp2); rewrite ?Ecat in *.
  - apply list_lookup_insert_eq. by eapply lookup_lt_Some.
  - apply list_lookup_insert_eq. by eapply lookup_lt_Some.
  - rewrite length_drop. unfold len in *. lia.
  - done.
  - lia.
  - rewrite !list_insert_insert_eq in Hh2. exists p2, w2. split_and!; [done|done|lia|by eapply append_kept_trans].
Qed.

(** ** The inodes on the disk *)

Lemma slice_slice o n i m d : 0 ≤ o → 0 ≤ i → 0 ≤ m → i + m ≤ n → slice (o + i) m d = slice i m (slice o n d).
Proof.
  intros. apply list_eq. intros k. rewrite !slice_lookup. case_decide; [|done]. rewrite decide_True by lia. f_equal. lia.
Qed.
Lemma read_dinode_ext o d d' : 0 ≤ o → slice o 64 d = slice o 64 d' → read_dinode o d = read_dinode o d'.
Proof.
  intros Ho E.
  assert (∀ i m, 0 ≤ i → 0 ≤ m → i + m ≤ 64 → slice (o + i) m d = slice (o + i) m d') as Hs
    by (intros; rewrite (slice_slice o 64 i m d), (slice_slice o 64 i m d') by lia; by rewrite E).
  unfold read_dinode, get_short, get_uint, get_uints. pose proof (Hs 0 2) as H0. rewrite Z.add_0_r in H0. rewrite H0, !Hs by lia. f_equal.
  apply map_ext_in. intros k [_ Hk]%in_seq. unfold get_uint. rewrite <-Z.add_assoc, Hs by lia. done.
Qed.

(** Inode [n] of the image is [p]. *)
Definition dinode_at (w : mkw) (n : Z) (p : inode) : Prop :=
  ∃ d, img w !! IBLOCK mkfs_sb n = Some d ∧ length d = Z.to_nat BSIZE ∧ read_dinode (doff n) d = p.
(** An inode as [mkfs] makes them. *)
Definition file_inode (ty s : Z) (a : list Z) : inode := mkInode 0 0 0 false false ty 0 0 1 s a.

Lemma rinode_eq w n p : dinode_at w n p → rinode n w = Some (p, w).
Proof. intros (d & Hd & _ & <-). unfold rinode. by rewrite (bind_eq _ _ _ d w) by (unfold rsect; by rewrite Hd). Qed.

Lemma mkfs_IBLOCK n : 0 ≤ n < NINODES → 33 ≤ IBLOCK mkfs_sb n < 46.
Proof.
  intros Hn. unfold IBLOCK, NINODES in *. change IPB with 16. change (inodestart mkfs_sb) with 33.
  pose proof (Z.div_pos n 16 ltac:(lia) ltac:(done)). assert (n / 16 < 13) by (apply Z.div_lt_upper_bound; lia). lia.
Qed.

Lemma winode_spec w n ty s a d :
  0 ≤ n → img w !! IBLOCK mkfs_sb n = Some d → length d = Z.to_nat BSIZE → meta_ok (file_inode ty s a) →
  ∃ d1, let w1 := mkMkw (<[IBLOCK mkfs_sb n := d1]> (img w)) (freeinode w) (freeblock w) in
    winode n (file_inode ty s a) w = Some ((), w1) ∧ length d1 = Z.to_nat BSIZE ∧ dinode_at w1 n (file_inode ty s a) ∧
    ∀ m q, 0 ≤ m → m ≠ n → dinode_at w m q → dinode_at w1 m q.
Proof.
  intros Hn Hd Hdl Hok. set (p := file_inode ty s a) in *. assert (Z.of_nat (length d) = 1024) as Hl by (rewrite Hdl; done).
  pose proof (doff_range n) as Ho. destruct (get_dinode_fields (doff n) p d Hok) as (E1 & E2 & E3 & E4 & E5 & E6); [lia|lia|].
  pose proof Hok as (_ & _ & Ha & _). set (d1 := put_dinode (doff n) p d) in *.
  assert (length d1 = length d) as Hd1 by (apply put_dinode_length; (lia || done)).
  exists d1. set (w1 := mkMkw _ _ _). split_and!.
  - unfold winode. by rewrite (bind_eq _ _ _ d w) by (unfold rsect; by rewrite Hd).
  - by rewrite Hd1.
  - exists d1. split_and!; [apply lookup_insert_eq|by rewrite Hd1|]. unfold read_dinode. by rewrite E1, E2, E3, E4, E5, E6.
  - intros m q Hm Hne (dm & Hdm & Hdml & Hq). unfold dinode_at. cbn [w1 img]. destruct (decide (IBLOCK mkfs_sb m = IBLOCK mkfs_sb n)) as [E|E].
    + rewrite E in *. assert (dm = d) as -> by congruence. exists d1. split_and!; [apply lookup_insert_eq|by rewrite Hd1|].
      rewrite <-Hq. pose proof (doff_range m). apply read_dinode_ext; [lia|]. unfold d1. rewrite put_dinode_bytes by (done || lia).
      apply slice_put_other; rewrite ?(dinode_bytes_length p Ha); try lia.
      unfold IBLOCK, doff, DINODE_SIZE in *. change IPB with 16 in *.
      pose proof (Z.div_mod n 16 ltac:(lia)). pose proof (Z.div_mod m 16 ltac:(lia)). lia.
    + exists dm. by rewrite lookup_insert_ne.
Qed.

(** Blocks below the data do not matter to the contents. *)
Lemma holds_meta w w1 P C :
  holds w P C → freeblock w1 = freeblock w → (∀ b, nmeta ≤ b → img w1 !! b = img w !! b) →
  (∀ b, 0 ≤ b < nmeta → ∃ d, img w1 !! b = Some d ∧ length d = Z.to_nat BSIZE) → holds w1 P C.
Proof.
  intros [[H1 H2 H3 H4 H5 H6] Hl Hb] Hf Hi Hm.
  assert (∀ i q j, P !! i = Some q → fb w1 q j = fb w q j) as Hfb.
  { intros i q j Hq. apply fb_same. intros Hq0. apply Hi. destruct (H5 i q MAXFILE Hq ltac:(done)) as [_ Hr]. by apply Hr. }
  split; [split|done|].
  - intros b Hbb. destruct (decide (b < nmeta)); [apply Hm; lia|]. rewrite Hi by lia. by apply H1.
  - by rewrite Hf.
  - intros b Hbb. rewrite Hf in Hbb. rewrite Hi by lia. by apply H3.
  - done.
  - intros i q j Hq Hj. rewrite (Hfb i), Hf by done. by apply H5.
  - intros i q j i' q' j' Hq Hq'. rewrite (Hfb i q), (Hfb i' q') by done. by apply H6.
  - intros i q c k Hq Hc Hk. rewrite <-(Hb i q c k) by done. unfold fbyte, fdata. fold (fb w1 q (k / BSIZE)) (fb w q (k / BSIZE)).
    rewrite (Hfb i) by done. destruct (Z.eqb_spec (fb w q (k / BSIZE)) 0) as [|Hn]; [done|]. cbn [on_disk blk]. rewrite Hi; [done|].
    destruct (H5 i q (k / BSIZE) Hq) as [_ Hr]; [pose proof (bn_range k Hk); lia|]. by apply Hr.
Qed.

(** Only the addresses of the inodes matter. *)
Lemma holds_addrs w P P1 C : holds w P C → addrs <$> P1 = addrs <$> P → holds w P1 C.
Proof.
  intros [[H1 H2 H3 H4 H5 H6] Hl Hb] E.
  assert (∀ i q, P1 !! i = Some q → ∃ p, P !! i = Some p ∧ addrs q = addrs p) as HP.
  { intros i q Hq. assert ((addrs <$> P) !! i = Some (addrs q)) as Ha by (rewrite <-E, list_lookup_fmap, Hq; done).
    rewrite list_lookup_fmap in Ha. destruct (P !! i) as [p|]; [|done]. exists p. split; [done|]. by injection Ha. }
  assert (∀ p q j, addrs q = addrs p → fb w q j = fb w p j) as Hfb by (intros p q j Ea; unfold fb, fblock, indirect; by rewrite Ea).
  split; [split|by rewrite <-Hl, <-(length_fmap addrs P1), E, length_fmap|]; try done.
  - intros i q (p & Hp & ->)%HP. by eapply H4.
  - intros i q j (p & Hp & Ea)%HP Hj. rewrite (Hfb p q j Ea). by apply H5.
  - intros i q j i' q' j' (p & Hp & Ea)%HP (p' & Hp' & Ea')%HP. rewrite (Hfb p q j Ea), (Hfb p' q' j' Ea'). by apply H6.
  - intros i q c k (p & Hp & Ea)%HP Hc Hk. rewrite <-(Hb i p c k) by done. unfold fbyte, fdata. fold (fb w q (k / BSIZE)) (fb w p (k / BSIZE)). by rewrite (Hfb p q _ Ea).
Qed.

Lemma shape_meta_ok w P al i ty s a :
  shape w P al → P !! i = Some (file_inode ty s a) → - 2 ^ 15 ≤ ty < 2 ^ 15 → 0 ≤ s < 2 ^ 32 → meta_ok (file_inode ty s a).
Proof.
  intros Hs Hp Ht Hsz. pose proof (sh_addrs _ _ _ Hs i _ Hp) as Hl. cbn [file_inode addrs] in Hl.
  split; [cbn; lia|]. split; [done|]. split; [done|]. cbn [file_inode addrs]. apply Forall_lookup. intros k x Hx. pose proof (lookup_lt_Some _ _ _ Hx) as Hk.
  assert (fb w (file_inode ty s a) (slot_of k) = x) as E.
  { unfold fb, fblock, slot_of, indirect. cbn [file_inode addrs]. change (Z.to_nat NDIRECT) with 12%nat. destruct (decide (k < 12)%nat).
    - rewrite (proj2 (Z.ltb_lt (Z.of_nat k) NDIRECT)), Nat2Z.id, Hx by (unfold NDIRECT; lia). done.
    - assert (k = 12%nat) as -> by lia. change (MAXFILE <? NDIRECT) with false. change (MAXFILE =? MAXFILE) with true. by rewrite Hx. }
  destruct (sh_slot _ _ _ Hs i _ (slot_of k) Hp) as [_ Hr]; [apply slot_of_range; lia|]. rewrite E in Hr.
  destruct (decide (x = 0)) as [->|Hx0]; [lia|]. specialize (Hr Hx0). pose proof (sh_free _ _ _ Hs). assert (0 < nmeta) by done. unfold FSSIZE in *. lia.
Qed.

(** ** The image *)

Definition no_inode : inode := mkInode 0 0 0 false false 0 0 0 0 0 (replicate 13 0).
(** The data blocks of files, which have a type and contents. *)
Definition blocks (F : list (Z * list Z)) : Z := foldr (λ f n, nblk (len f.2) + n) 0 F.

(** The files [F] have been made, with the inodes [P]; they are numbered from 1. *)
Record image (w : mkw) (F : list (Z * list Z)) (P : list inode) : Prop := {
  im_holds : holds w P F.*2;
  im_disk : ∀ i p, P !! i = Some p → dinode_at w (Z.of_nat i + 1) p;
  im_file : ∀ i p f, P !! i = Some p → F !! i = Some f →
    p = file_inode f.1 (len f.2) (addrs p) ∧ - 2 ^ 15 ≤ f.1 < 2 ^ 15 ∧ len f.2 ≤ MAXFILE * BSIZE;
  im_unused : ∀ n, Z.of_nat (length F) < n < NINODES → dinode_at w n no_inode;
  im_count : freeinode w = Z.of_nat (length F) + 1 ∧ Z.of_nat (length F) < NINODES;
  im_free : freeblock w = nmeta + blocks F;
  im_meta : ∀ b, 0 ≤ b < nmeta → ¬ 33 ≤ b < 46 → img w !! b = Some (if b =? 1 then put 0 sb_bytes zeros else zeros);
}.

Lemma nblk_pos s : 0 ≤ s → 0 ≤ nblk s.
Proof. intros H. unfold nblk. pose proof (Z.div_pos (s + 1023) BSIZE ltac:(lia) ltac:(done)). destruct (_ <? s); lia. Qed.
Lemma blocks_app F G : blocks (F ++ G) = blocks F + blocks G.
Proof. induction F as [|f F IH]; [done|]. unfold blocks in *. cbn [app foldr]. lia. Qed.
Lemma blocks_insert F k f g : F !! k = Some f → blocks (<[k := g]> F) = blocks F + (nblk (len g.2) - nblk (len f.2)).
Proof.
  revert k; induction F as [|h F IH]; intros [|k] H; [done|done| |]; cbn in H; simplify_eq.
  - change (blocks (g :: F) = blocks (f :: F) + (nblk (len g.2) - nblk (len f.2))). unfold blocks. cbn [foldr]. lia.
  - change (nblk (len h.2) + blocks (<[k := g]> F) = nblk (len h.2) + blocks F + (nblk (len g.2) - nblk (len f.2))). rewrite (IH k) by done. lia.
Qed.
Lemma blocks_pos F : 0 ≤ blocks F.
Proof. induction F as [|f F IH]; [done|]. unfold blocks in *. cbn [foldr]. pose proof (nblk_pos (len f.2)). unfold len in *. lia. Qed.

Lemma image_block w F P n : image w F P → 0 ≤ n < NINODES → ∃ d, img w !! IBLOCK mkfs_sb n = Some d ∧ length d = Z.to_nat BSIZE.
Proof.
  intros Hi Hn. pose proof (mkfs_IBLOCK n Hn). apply (sh_block _ _ _ (ho_shape _ _ _ (im_holds _ _ _ Hi))). unfold FSSIZE. lia.
Qed.

(** Writing an inode leaves the contents and the other blocks below the data. *)
Lemma winode_holds w P C n d d1 :
  holds w P C → 0 ≤ n < NINODES → img w !! IBLOCK mkfs_sb n = Some d → length d1 = Z.to_nat BSIZE →
  let w1 := mkMkw (<[IBLOCK mkfs_sb n := d1]> (img w)) (freeinode w) (freeblock w) in
  holds w1 P C ∧ ∀ b, ¬ 33 ≤ b < 46 → img w1 !! b = img w !! b.
Proof.
  intros Hh Hn Hd Hl w1. pose proof (mkfs_IBLOCK n Hn) as Hr. assert (∀ b, ¬ 33 ≤ b < 46 → img w1 !! b = img w !! b) as Hi.
  { intros b Hb. cbn [img w1]. apply lookup_insert_ne. lia. }
  split; [|done]. apply (holds_meta w); [done|done| |].
  - intros b Hb. apply Hi. change nmeta with 47 in Hb. lia.
  - intros b Hb. cbn [img w1]. destruct (decide (b = IBLOCK mkfs_sb n)) as [->|]; [rewrite lookup_insert_eq; by eauto|].
    rewrite lookup_insert_ne by done. apply (sh_block _ _ _ (ho_shape _ _ _ Hh)). change nmeta with 47 in Hb. unfold FSSIZE. lia.
Qed.

Lemma fb_no_addrs w ty s j : fb w (file_inode ty s (replicate 13 0)) j = 0.
Proof.
  assert (∀ k, default 0 (replicate 13 0 !! k) = 0) as E.
  { intros k. destruct (replicate 13 0 !! k) eqn:Ek; [|done]. by apply lookup_replicate in Ek as [-> _]. }
  unfold fb, fblock, indirect. cbn [file_inode addrs]. rewrite !E. by destruct (j <? NDIRECT), (j =? MAXFILE).
Qed.

Lemma holds_snoc w P C ty : holds w P C → holds w (P ++ [file_inode ty 0 (replicate 13 0)]) (C ++ [[]]).
Proof.
  intros [[H1 H2 H3 H4 H5 H6] Hl Hb]. set (p0 := file_inode ty 0 _).
  assert (∀ i p, (P ++ [p0]) !! i = Some p → (P !! i = Some p ∧ (i < length C)%nat) ∨ (i = length P ∧ p = p0)) as HP.
  { intros i p [Hp|[Hle Hp]]%lookup_app_Some; [left; split; [done|]; apply lookup_lt_Some in Hp; lia|right].
    destruct (i - length P)%nat eqn:E; [|done]. cbn in Hp. simplify_eq. split; [lia|done]. }
  assert (∀ j, fb w p0 j = 0) as H0 by apply fb_no_addrs.
  assert (∀ i j, (i < length C)%nat → need (clen (C ++ [[]]) i) j ↔ need (clen C i) j) as Hn by (intros; unfold clen; by rewrite lookup_app_l).
  split; [split|rewrite !length_app, Hl; done|]; try done.
  - by intros i p [[Hp _]|[-> ->]]%HP; [eapply H4|].
  - intros i p j [[Hp Hlt]|[-> ->]]%HP Hj; [rewrite Hn by done; by apply H5|]. rewrite H0. split; [|done]. split; [done|].
    unfold clen. rewrite Hl, lookup_app_r, Nat.sub_diag by done. change (len (default [] ([[]] !! 0%nat))) with 0. unfold need. intros Hx. fslia.
  - intros i p j i' p' j' [[Hp _]|[-> ->]]%HP [[Hp' _]|[-> ->]]%HP Hj Hj'; rewrite ?H0; try congruence. by apply H6.
  - intros i p c k [[Hp Hlt]|[-> ->]]%HP Hc Hk.
    + rewrite lookup_app_l in Hc by done. by apply (Hb i).
    + rewrite Hl, lookup_app_r, Nat.sub_diag in Hc by done. cbn in Hc. simplify_eq. unfold fbyte, fdata. fold (fb w p0 (k / BSIZE)).
      rewrite H0. change (0 =? 0) with true. cbn iota. rewrite lookup_nil. unfold zeros.
      destruct (replicate _ 0 !! _) eqn:E; [|done]. by apply lookup_replicate in E as [-> _].
Qed.

Lemma file_type_snoc {A} (P : list A) (F : list (Z * list Z)) i p p0 f f0 :
  length P = length F → (P ++ [p0]) !! i = Some p → (F ++ [f0]) !! i = Some f →
  (P !! i = Some p ∧ F !! i = Some f) ∨ (i = length F ∧ p = p0 ∧ f = f0).
Proof.
  intros Hl Hp Hf. destruct (decide (i < length F)%nat) as [Hlt|Hge].
  - left. rewrite lookup_app_l in Hp by lia. rewrite lookup_app_l in Hf by lia. done.
  - right. rewrite lookup_app_r in Hp by lia. rewrite lookup_app_r in Hf by lia. rewrite Hl in Hp. destruct (i - length F)%nat eqn:E; [|done]. cbn in Hp, Hf. simplify_eq. split_and!; (lia || done).
Qed.

Lemma ialloc_image w F P ty :
  image w F P → Z.of_nat (length F) + 1 < NINODES → - 2 ^ 15 ≤ ty < 2 ^ 15 →
  ∃ w1 P1, ialloc ty w = Some (Z.of_nat (length F) + 1, w1) ∧ image w1 (F ++ [(ty, [])]) P1.
Proof.
  intros Him Hlt Hty. pose proof Him as [Hh Hdk Hfi Hun [Hc _] Hfr Hme]. set (n := Z.of_nat (length F) + 1) in *.
  set (p0 := file_inode ty 0 (replicate 13 0)). assert (NINODES = 200) as HN by done.
  assert (length P = length F) as HlP by (rewrite (ho_len _ _ _ Hh); apply length_fmap).
  set (w0 := mkMkw (img w) (n + 1) (freeblock w)).
  assert (holds w0 P F.*2) as Hh0 by (apply (holds_meta w); try done; intros b Hb; apply (sh_block _ _ _ (ho_shape _ _ _ Hh)); change nmeta with 47 in Hb; unfold FSSIZE; lia).
  destruct (image_block w F P n Him) as (d & Hd & Hdl); [unfold NINODES; lia|].
  assert (meta_ok p0) as Hok by (split; [cbn; lia|]; split; [cbn; lia|]; split; [done|]; cbn; by repeat constructor).
  destruct (winode_spec w0 n ty 0 (replicate 13 0) d) as (d1 & E & Hd1 & Hnew & Hold); [lia|done|done|done|].
  destruct (winode_holds w0 P F.*2 n d d1) as [Hh1 Hi1]; [done|unfold NINODES; lia|done|done|].
  set (w1 := mkMkw (<[_ := d1]> _) _ _) in *. exists w1, (P ++ [p0]). split.
  - unfold ialloc. rewrite (bind_eq _ _ _ n w) by (unfold gets; by rewrite Hc).
    rewrite (bind_eq _ _ _ () w0) by (unfold modify, w0; by rewrite Hc, u32_id by (fold n; lia)).
    by rewrite (bind_eq _ _ _ _ _ E).
  - split.
    + rewrite fmap_app. by apply holds_snoc.
    + intros i p Hp. apply lookup_app_Some in Hp as [Hp|[Hle Hp]].
      * pose proof (lookup_lt_Some _ _ _ Hp). apply Hold; [lia|lia|]. by apply Hdk.
      * destruct (i - length P)%nat eqn:E'; [|done]. cbn in Hp. injection Hp as <-. by replace (Z.of_nat i + 1) with n by lia.
    + intros i p f Hp Hf. destruct (file_type_snoc P F i p p0 f (ty, []) HlP Hp Hf) as [[Hp' Hf']|(-> & -> & ->)]; [by apply (Hfi i)|].
      split_and!; [done|cbn; lia|cbn; lia|done].
    + intros m Hm. rewrite length_app in Hm. cbn in Hm. apply Hold; [lia|lia|]. apply Hun. lia.
    + rewrite length_app. cbn [length]. split; [cbn [w1 w0 freeinode]; lia|unfold NINODES; lia].
    + rewrite blocks_app. cbn [w1 w0 freeblock]. change (blocks [(ty, [])]) with 0. lia.
    + intros b Hb Hnb. rewrite Hi1 by done. by apply Hme.
Qed.

Lemma iappend_image w F P k ty c q :
  image w F P → F !! k = Some (ty, c) → len (c ++ q) ≤ MAXFILE * BSIZE → nmeta + blocks (<[k := (ty, c ++ q)]> F) ≤ FSSIZE →
  ∃ w1 P1, iappend (Z.of_nat k + 1) q w = Some ((), w1) ∧ image w1 (<[k := (ty, c ++ q)]> F) P1.
Proof.
  intros Him Hk Hmax Hroom. pose proof Him as [Hh Hdk Hfi Hun [Hc HcF] Hfr Hme]. pose proof (lookup_lt_Some _ _ _ Hk) as Hlt.
  assert (length P = length F) as HlP by (rewrite (ho_len _ _ _ Hh); apply length_fmap).
  destruct (lookup_lt_is_Some_2 P k) as [p Hp]; [lia|]. destruct (Hfi k p _ Hp Hk) as (Ep & Hty & Hsz). cbn [fst snd] in *.
  rewrite (blocks_insert F k (ty, c)) in Hroom by done. cbn [snd] in *.
  assert (F.*2 !! k = Some c) as HkC by (by rewrite list_lookup_fmap, Hk).
  destruct (iappend_loop_spec (length q) w P F.*2 k p c q Hh Hp HkC) as (p1 & w1 & E & Hh1 & Hfr1 & [K1 [K2 K3] K4]); [lia|done|lia|].
  set (n := Z.of_nat k + 1). set (s := len (c ++ q)) in *.
  assert (set_size s p1 = file_inode ty s (addrs p1)) as Es.
  { rewrite Ep in K2. unfold same_meta in K2. cbn in K2. destruct_and!. unfold set_size, file_inode. by f_equal. }
  assert (holds w1 (<[k := set_size s p1]> P) (<[k := c ++ q]> F.*2)) as Hh1'.
  { eapply holds_addrs; [exact Hh1|]. by rewrite !list_fmap_insert. }
  assert (<[k := set_size s p1]> P !! k = Some (file_inode ty s (addrs p1))) as Hp2 by (rewrite <-Es; apply list_lookup_insert_eq; lia).
  assert (∀ m, 0 ≤ m < NINODES → img w1 !! IBLOCK mkfs_sb m = img w !! IBLOCK mkfs_sb m) as Hib.
  { intros m Hm. apply K4. pose proof (mkfs_IBLOCK m Hm). change nmeta with 47. lia. }
  assert (∀ m x, 0 ≤ m < NINODES → dinode_at w m x → dinode_at w1 m x) as Hdi by (intros m x Hm; unfold dinode_at; by rewrite Hib).
  destruct (image_block w F P n Him) as (d & Hd & Hdl); [lia|]. rewrite <-Hib in Hd by lia.
  destruct (winode_spec w1 n ty s (addrs p1) d) as (d1 & E1 & Hd1 & Hnew & Hold); [lia|done|done| |].
  { eapply shape_meta_ok; [exact (ho_shape _ _ _ Hh1')|exact Hp2|done|]. unfold s, len in *. fslia. }
  destruct (winode_holds w1 _ _ n d d1 Hh1') as [Hh2 Hi2]; [lia|done|done|].
  set (w2 := mkMkw (<[_ := d1]> _) _ _) in *. exists w2, (<[k := set_size s p1]> P). split.
  - unfold iappend. rewrite (bind_eq _ _ _ p w) by (apply rinode_eq, Hdk, Hp).
    assert (size p = len c) as -> by (by rewrite Ep). rewrite (bind_eq _ _ _ _ _ E). cbn [fst snd]. by rewrite Es.
  - split.
    + by rewrite list_fmap_insert.
    + intros i x [(<- & <- & _)|[Hne Hx]]%list_lookup_insert_Some; [by rewrite Es|]. pose proof (lookup_lt_Some _ _ _ Hx).
      apply Hold; [lia|lia|]. apply Hdi; [lia|]. by apply Hdk.
    + intros i x f [(<- & <- & _)|[Hne Hx]]%list_lookup_insert_Some.
      * rewrite list_lookup_insert_eq by done. intros [= <-]. cbn [fst snd]. by rewrite Es.
      * rewrite list_lookup_insert_ne by done. by apply Hfi.
    + intros m Hm. rewrite length_insert in Hm. apply Hold; [lia|lia|]. apply Hdi; [lia|]. by apply Hun.
    + rewrite length_insert. split; [|done]. cbn [w2 freeinode]. congruence.
    + rewrite (blocks_insert F k (ty, c)) by done. cbn [w2 freeblock snd]. fold s. lia.
    + intros b Hb Hnb. rewrite Hi2 by done. rewrite K4 by done. by apply Hme.
Qed.

(** ** Adding the files *)

(** The files of the image: the root directory, then the arguments. *)
Definition root_bytes (files : list (list Z * list (list Z))) : list Z :=
  dirent ROOTINO [46] ++ dirent ROOTINO [46; 46] ++
  concat (imap (λ i f, dirent (Z.of_nat i + 2) (shortname f.1)) files).
Definition tree (files : list (list Z * list (list Z))) : list (Z * list Z) :=
  (T_DIR, root_bytes files) :: ((λ f, (T_FILE, concat f.2)) <$> files).
Definition name_ok (f : list Z * list (list Z)) : Prop :=
  47 ∉ shortname f.1 ∧ (length (shortname f.1) ≤ DIRSIZ)%nat.

Lemma dirent_length n s : length (dirent n s) = 16%nat.
Proof. unfold dirent. rewrite length_app, le_enc_length, length_take, length_app, length_replicate. unfold DIRSIZ. lia. Qed.
Lemma root_bytes_snoc files f : root_bytes (files ++ [f]) = root_bytes files ++ dirent (Z.of_nat (length files) + 2) (shortname f.1).
Proof. unfold root_bytes. rewrite imap_app, concat_app. cbn [imap concat]. rewrite app_nil_r, Nat.add_0_r, !app_assoc. done. Qed.
Lemma root_bytes_length files : length (root_bytes files) = (16 * (length files + 2))%nat.
Proof.
  induction files as [|f files IH] using rev_ind; [done|]. rewrite root_bytes_snoc, !length_app, IH, dirent_length. cbn. lia.
Qed.
Lemma tree_length files : length (tree files) = S (length files).
Proof. unfold tree. cbn. by rewrite length_fmap. Qed.

Lemma iappend_chunks w F P k ty c chunks :
  image w F P → F !! k = Some (ty, c) → len (c ++ concat chunks) ≤ MAXFILE * BSIZE → nmeta + blocks (<[k := (ty, c ++ concat chunks)]> F) ≤ FSSIZE →
  ∃ w1 P1, mfor chunks (λ buf, iappend (Z.of_nat k + 1) buf) w = Some ((), w1) ∧ image w1 (<[k := (ty, c ++ concat chunks)]> F) P1.
Proof.
  revert w F P c; induction chunks as [|q chunks IH]; intros w F P c Him Hk Hmax Hroom; cbn [concat mfor] in *.
  { exists w, P. split; [done|]. by rewrite app_nil_r, list_insert_id. }
  rewrite app_assoc in *. set (F1 := <[k := (ty, c ++ q)]> F).
  assert (F1 !! k = Some (ty, c ++ q)) as Hk1 by (apply list_lookup_insert_eq; by eapply lookup_lt_Some).
  assert (<[k := (ty, (c ++ q) ++ concat chunks)]> F = <[k := (ty, (c ++ q) ++ concat chunks)]> F1) as EF by (unfold F1; by rewrite list_insert_insert_eq).
  assert (len (c ++ q) ≤ len ((c ++ q) ++ concat chunks)) as Hle by (unfold len; rewrite (length_app (c ++ q)); lia).
  rewrite EF in *. pose proof (nblk_mono _ _ Hle). pose proof Hroom as Hroom'. rewrite (blocks_insert F1 k (ty, c ++ q)) in Hroom' by done. cbn [snd] in Hroom'.
  destruct (iappend_image w F P k ty c q Him Hk) as (w1 & P1 & E & Him1); [lia|fold F1; lia|].
  rewrite (bind_eq _ _ _ _ _ E). by eapply IH.
Qed.

Lemma tree_snoc files f : tree (files ++ [f]) =
  <[0%nat := (T_DIR, root_bytes files ++ dirent (Z.of_nat (length files) + 2) (shortname f.1))]> (tree files) ++ [(T_FILE, concat f.2)].
Proof. unfold tree. by rewrite root_bytes_snoc, fmap_app. Qed.

Lemma add_file_image w files f P :
  image w (tree files) P → name_ok f → Z.of_nat (length files) + 2 < NINODES → len (concat f.2) ≤ MAXFILE * BSIZE →
  nmeta + blocks (tree (files ++ [f])) ≤ FSSIZE →
  ∃ w1 P1, add_file f w = Some ((), w1) ∧ image w1 (tree (files ++ [f])) P1.
Proof.
  intros Him [Hn1 Hn2] Hcount Hmax Hroom. set (n := Z.of_nat (length files) + 2) in *.
  set (r := root_bytes files). set (de := dirent n (shortname f.1)). rewrite tree_snoc in *. fold n r de in Hroom |- *.
  unfold add_file. rewrite decide_False by (intros [?|?]; [done|lia]).
  destruct (ialloc_image w (tree files) P T_FILE Him) as (w1 & P1 & E1 & Him1); [rewrite tree_length; lia|done|].
  assert (Z.of_nat (length (tree files)) + 1 = n) as En by (rewrite tree_length; lia). rewrite En in E1. rewrite (bind_eq _ _ _ _ _ E1).
  rewrite blocks_app in Hroom. change (blocks [(T_FILE, concat f.2)]) with (nblk (len (concat f.2)) + 0) in Hroom.
  pose proof (nblk_pos (len (concat f.2)) ltac:(unfold len; lia)).
  destruct (iappend_image w1 _ P1 0 T_DIR r de Him1) as (w2 & P2 & E2 & Him2).
  { done. }
  { pose proof (root_bytes_length files) as Hr. pose proof (dirent_length n (shortname f.1)) as Hd. fold r in Hr. fold de in Hd.
    unfold len. rewrite length_app. unfold NINODES in *. fslia. }
  { rewrite insert_app_l by (rewrite tree_length; lia). rewrite blocks_app. change (blocks [(T_FILE, [])]) with 0. lia. }
  change (Z.of_nat 0 + 1) with ROOTINO in E2. rewrite (bind_eq _ _ _ _ _ E2).
  rewrite insert_app_l in Him2 by (rewrite tree_length; lia). set (F2 := <[0%nat := (T_DIR, r ++ de)]> (tree files)) in *.
  assert (length F2 = S (length files)) as HF2 by (unfold F2; rewrite length_insert; apply tree_length).
  destruct (iappend_chunks w2 _ P2 (S (length files)) T_FILE [] f.2 Him2) as (w3 & P3 & E3 & Him3).
  { by rewrite lookup_app_r, HF2, Nat.sub_diag by lia. }
  { done. }
  { rewrite insert_app_r_alt, HF2, Nat.sub_diag by lia. cbn [insert list_insert app]. rewrite blocks_app. change (blocks [(T_FILE, concat f.2)]) with (nblk (len (concat f.2)) + 0). lia. }
  rewrite insert_app_r_alt, HF2, Nat.sub_diag in Him3 by lia. cbn [insert list_insert app] in Him3.
  exists w3, P3. split; [|done]. rewrite <-E3. by replace (Z.of_nat (S (length files)) + 1) with n by lia.
Qed.

Lemma blocks_tree_snoc files f : blocks (tree files) ≤ blocks (tree (files ++ [f])).
Proof.
  rewrite tree_snoc, blocks_app, (blocks_insert (tree files) 0 (T_DIR, root_bytes files)) by done. cbn [snd].
  set (r := root_bytes files). pose proof (blocks_pos [(T_FILE, concat f.2)]).
  pose proof (nblk_mono (len r) (len (r ++ dirent (Z.of_nat (length files) + 2) (shortname f.1)))) as Hm.
  unfold len in *. rewrite length_app in Hm |- *. lia.
Qed.
Lemma blocks_tree_app files rest : blocks (tree files) ≤ blocks (tree (files ++ rest)).
Proof.
  revert files; induction rest as [|f rest IH]; intros files; [by rewrite app_nil_r|].
  specialize (IH (files ++ [f])). rewrite <-app_assoc in IH. pose proof (blocks_tree_snoc files f). cbn [app] in IH. lia.
Qed.

Lemma add_files_image w files rest P :
  image w (tree files) P → Forall name_ok rest → Z.of_nat (length (files ++ rest)) + 1 < NINODES →
  Forall (λ f, len (concat f.2) ≤ MAXFILE * BSIZE) rest → nmeta + blocks (tree (files ++ rest)) ≤ FSSIZE →
  ∃ w1 P1, mfor rest add_file w = Some ((), w1) ∧ image w1 (tree (files ++ rest)) P1.
Proof.
  revert w files P; induction rest as [|f rest IH]; intros w files P Him Hn Hc Hm Hroom; cbn [mfor].
  { rewrite app_nil_r. by exists w, P. }
  inversion_clear Hn as [|? ? Hf Hn']. inversion_clear Hm as [|? ? Hfm Hm']. rewrite length_app in Hc. cbn [length] in Hc.
  change (f :: rest) with ([f] ++ rest) in *. rewrite app_assoc in *. pose proof (blocks_tree_app (files ++ [f]) rest).
  destruct (add_file_image w files f P Him Hf) as (w1 & P1 & E & Him1); [lia|done|lia|].
  rewrite (bind_eq _ _ _ _ _ E). apply (IH w1 (files ++ [f]) P1); try done. rewrite !length_app. cbn [length]. lia.
Qed.

(** ** The empty image *)

Lemma zero_blocks l w :
  ∃ w1, mfor l (λ i, wsect i zeros) w = Some ((), w1) ∧ freeinode w1 = freeinode w ∧ freeblock w1 = freeblock w ∧
    ∀ b, img w1 !! b = if decide (b ∈ l) then Some zeros else img w !! b.
Proof.
  revert w; induction l as [|x l IH]; intros w; cbn [mfor]; [by exists w|].
  set (w0 := mkMkw (<[x := zeros]> (img w)) (freeinode w) (freeblock w)). rewrite (bind_eq _ _ _ () w0) by done.
  destruct (IH w0) as (w1 & E & Hi & Hf & Hb). exists w1. split_and!; [done|done|done|]. intros b. rewrite Hb. cbn [w0 img].
  destruct (decide (b ∈ l)) as [Hin|Hin]; [by rewrite decide_True by by right|]. destruct (decide (b = x)) as [->|Hne].
  - rewrite decide_True by by left. apply lookup_insert_eq.
  - rewrite decide_False by (rewrite elem_of_cons; tauto). by apply lookup_insert_ne.
Qed.

Lemma le_dec_zeros o n : le_dec (slice o n zeros) = 0.
Proof.
  assert (∀ bs, Forall (λ b, b = 0) bs → le_dec bs = 0) as Hz by (induction 1 as [|b bs -> _ IH]; cbn [le_dec]; lia).
  apply Hz. unfold slice. apply Forall_take, Forall_drop. unfold zeros. by apply Forall_replicate.
Qed.
Lemma read_dinode_zeros o : read_dinode o zeros = no_inode.
Proof.
  unfold read_dinode, get_short, get_uint, get_uints. rewrite !le_dec_zeros. change (swrap 16 0) with 0. unfold no_inode. f_equal.
  transitivity ((λ _ : nat, 0) <$> seq 0 13); [|done]. apply list_fmap_ext. intros i x _. apply le_dec_zeros.
Qed.

Lemma blank_image w :
  (∀ b, 0 ≤ b < FSSIZE → img w !! b = Some (if b =? 1 then put 0 sb_bytes zeros else zeros)) → freeinode w = 1 → freeblock w = nmeta →
  image w [] [].
Proof.
  intros Hb Hi Hf. split; try done.
  - split; [split|done|done]; try done.
    + intros b Hbb. rewrite Hb by done. eexists. split; [done|]. by destruct (b =? 1).
    + by rewrite Hf.
    + intros b Hbb. rewrite Hf in Hbb. change nmeta with 47 in Hbb. rewrite Hb by lia. by rewrite (proj2 (Z.eqb_neq _ _)) by lia.
  - intros n Hn. cbn in Hn. pose proof (mkfs_IBLOCK n ltac:(lia)) as Hr. exists zeros. split_and!; [|done|apply read_dinode_zeros].
    rewrite Hb by (unfold FSSIZE; lia). by rewrite (proj2 (Z.eqb_neq _ _)) by lia.
  - intros b Hbb Hnb. apply Hb. change nmeta with 47 in Hbb. unfold FSSIZE. lia.
Qed.

Lemma new_root w :
  image w [] [] →
  ∃ w1 w2 w3 P, ialloc T_DIR w = Some (ROOTINO, w1) ∧ iappend ROOTINO (dirent ROOTINO [46]) w1 = Some ((), w2) ∧
    iappend ROOTINO (dirent ROOTINO [46; 46]) w2 = Some ((), w3) ∧ image w3 (tree []) P.
Proof.
  intros Him. destruct (ialloc_image w [] [] T_DIR Him) as (w1 & P1 & E1 & Him1); [done|done|].
  destruct (iappend_image w1 _ P1 0 T_DIR [] (dirent ROOTINO [46]) Him1) as (w2 & P2 & E2 & Him2); [done|done|done|].
  destruct (iappend_image w2 _ P2 0 T_DIR (dirent ROOTINO [46]) (dirent ROOTINO [46; 46]) Him2) as (w3 & P3 & E3 & Him3); [done|done|done|].
  by exists w1, w2, w3, P3.
Qed.

(** The bits that [balloc] sets. *)
Lemma mark_range l d x :
  Forall (λ b, 0 ≤ b < BPB) l → length d = Z.to_nat BSIZE → 0 ≤ x →
  length (foldl mark_used d l) = Z.to_nat BSIZE ∧ bit_set (foldl mark_used d l) x = bool_decide (x ∈ l) || bit_set d x.
Proof.
  intros Hl; revert d; induction Hl as [|b l Hb Hl IH]; intros d Hd Hx; cbn [foldl]; [done|].
  destruct (IH (mark_used d b)) as [H1 H2]; [by rewrite (proj1 (mark_length d b))|done|]. split; [done|].
  rewrite H2, bit_mark_used by (try lia; by apply bit_index). destruct (decide (x = b)) as [->|Hne].
  - rewrite orb_true_r. rewrite bool_decide_true by by left. done.
  - f_equal. apply bool_decide_ext. rewrite elem_of_cons. tauto.
Qed.

Lemma bit_zeros x : bit_set zeros x = false.
Proof.
  unfold bit_set, zeros. destruct (replicate _ 0 !! _) eqn:E; [apply lookup_replicate in E as [-> _]|]; apply Z.testbit_0_l.
Qed.

(** ** The finished image *)

(** The size that inode [i] is given for [s] bytes; that of the root is rounded up. *)
Definition fsize (i : nat) (s : Z) : Z := if decide (i = 0%nat) then (s / BSIZE + 1) * BSIZE else s.

Record made (w : mkw) (F : list (Z * list Z)) (P : list inode) : Prop := {
  md_holds : holds w P F.*2;
  md_disk : ∀ i p, P !! i = Some p → dinode_at w (Z.of_nat i + 1) p;
  md_file : ∀ i p f, P !! i = Some p → F !! i = Some f → p = file_inode f.1 (fsize i (len f.2)) (addrs p) ∧ 0 ≤ fsize i (len f.2) ≤ MAXFILE * BSIZE;
  md_unused : ∀ n, Z.of_nat (length F) < n < NINODES → dinode_at w n no_inode;
  md_count : Z.of_nat (length F) < NINODES;
  md_free : freeblock w = nmeta + blocks F;
  md_sb : img w !! 1 = Some (put 0 sb_bytes zeros);
  md_log : img w !! logstart mkfs_sb = Some zeros;
  md_bits : ∀ b, 0 ≤ b < FSSIZE → used mkfs_sb (on_disk w) b = bool_decide (b < freeblock w);
}.

Lemma finish_image w F P r :
  image w F P → F !! 0%nat = Some (T_DIR, r) → len r < (MAXFILE - 1) * BSIZE →
  ∃ w1 P1, (din ← rinode ROOTINO;
    winode ROOTINO (set_size ((size din / BSIZE + 1) * BSIZE) din);; b ← gets freeblock; balloc b) w = Some ((), w1) ∧ made w1 F P1.
Proof.
  intros Him Hr Hlr. pose proof Him as [Hh Hdk Hfi Hun [Hc HcF] Hfr Hme]. pose proof (lookup_lt_Some _ _ _ Hr) as Hlt.
  assert (NINODES = 200) as HN by done.
  assert (length P = length F) as HlP by (rewrite (ho_len _ _ _ Hh); apply length_fmap).
  destruct (lookup_lt_is_Some_2 P 0) as [p Hp]; [lia|]. destruct (Hfi 0%nat p _ Hp Hr) as (Ep & Hty & Hsz). cbn [fst snd] in *.
  rewrite (bind_eq _ _ _ p w) by (apply rinode_eq, (Hdk 0%nat), Hp). assert (size p = len r) as -> by (by rewrite Ep).
  set (s := (len r / BSIZE + 1) * BSIZE). assert (0 ≤ s ≤ MAXFILE * BSIZE) as Hs.
  { destruct (off_split (len r)). pose proof (Z.div_pos (len r) BSIZE ltac:(unfold len; lia) ltac:(done)). unfold s. fslia. }
  assert (set_size s p = file_inode T_DIR s (addrs p)) as Es by (by rewrite Ep). rewrite Es.
  set (P1 := <[0%nat := file_inode T_DIR s (addrs p)]> P).
  assert (holds w P1 F.*2) as Hh1.
  { eapply holds_addrs; [exact Hh|]. by apply (list_insert_fmap_same addrs P 0 p). }
  destruct (image_block w F P ROOTINO Him) as (d & Hd & Hdl); [done|].
  destruct (winode_spec w ROOTINO T_DIR s (addrs p) d) as (d1 & E1 & Hd1 & Hnew & Hold); [done|done|done| |].
  { eapply (shape_meta_ok _ P1 _ 0); [exact (ho_shape _ _ _ Hh1)|apply list_lookup_insert_eq; lia|done|fslia]. }
  destruct (winode_holds w P1 _ ROOTINO d d1 Hh1) as [Hh2 Hi2]; [done|done|done|].
  rewrite (bind_eq _ _ _ _ _ E1). set (w1 := mkMkw (<[_ := d1]> _) _ _) in *.
  rewrite (bind_eq _ _ _ (freeblock w1) w1) by done. pose proof (sh_free _ _ _ (ho_shape _ _ _ Hh2)) as Hfb.
  change nmeta with 47 in Hfb. unfold FSSIZE in Hfb. unfold balloc. rewrite (proj2 (Z.ltb_lt _ _)) by (unfold BPB, BSIZE; lia).
  set (bm := foldl mark_used zeros _).
  assert (∀ x, 0 ≤ x → length bm = Z.to_nat BSIZE ∧ bit_set bm x = bool_decide (x < freeblock w1)) as Hbm.
  { intros x Hx. destruct (mark_range (seqZ 0 (freeblock w1)) zeros x) as [Hb1 Hb2]; [|done|done|].
    - apply Forall_forall. intros b Hb%elem_of_seqZ. unfold BPB, BSIZE. lia.
    - split; [done|]. fold bm in Hb2. rewrite Hb2, bit_zeros, orb_false_r. apply bool_decide_ext. rewrite elem_of_seqZ. lia. }
  set (w2 := mkMkw (<[bmapstart mkfs_sb := bm]> (img w1)) (freeinode w1) (freeblock w1)). exists w2, P1. split; [done|].
  change (bmapstart mkfs_sb) with 46 in *.
  assert (∀ b, b ≠ 46 → img w2 !! b = img w1 !! b) as Hi3 by (intros b Hb; cbn [w2 img]; apply lookup_insert_ne; done).
  assert (∀ n q, 0 ≤ n < NINODES → dinode_at w1 n q → dinode_at w2 n q) as Hdi.
  { intros n q Hn. pose proof (mkfs_IBLOCK n Hn). unfold dinode_at. rewrite Hi3 by lia. done. }
  split.
  - apply (holds_meta w1); [done|done| |].
    + intros b Hb. apply Hi3. change nmeta with 47 in Hb. lia.
    + intros b Hb. destruct (decide (b = 46)) as [->|]; [|rewrite Hi3 by done; apply (sh_block _ _ _ (ho_shape _ _ _ Hh2)); change nmeta with 47 in Hb; unfold FSSIZE; lia].
      exists bm. split; [apply lookup_insert_eq|]. by apply (Hbm 0).
  - intros i x [(<- & <- & _)|[Hne Hx]]%list_lookup_insert_Some; [by apply Hdi|]. pose proof (lookup_lt_Some _ _ _ Hx).
    apply Hdi; [lia|]. apply Hold; [lia|unfold ROOTINO; lia|]. by apply Hdk.
  - intros i x f [(<- & <- & _)|[Hne Hx]]%list_lookup_insert_Some.
    + rewrite Hr. intros [= <-]. cbn [fst snd fsize]. done.
    + intros Hf. destruct (Hfi i x f Hx Hf) as (-> & _ & ?). unfold fsize. rewrite decide_False by done. split; [done|]. unfold len in *. lia.
  - intros n Hn. apply Hdi; [lia|]. apply Hold; [lia|unfold ROOTINO; lia|]. by apply Hun.
  - done.
  - done.
  - rewrite Hi3, Hi2 by lia. by rewrite (Hme 1) by (change nmeta with 47; lia).
  - change (logstart mkfs_sb) with 2. rewrite Hi3, Hi2 by lia. by rewrite (Hme 2) by (change nmeta with 47; lia).
  - intros b Hb. unfold used. unfold FSSIZE in Hb. assert (BBLOCK mkfs_sb b = 46) as ->.
    { unfold BBLOCK, BPB, BSIZE. rewrite Z.div_small by lia. done. }
    cbn [on_disk blk w2 img freeblock]. rewrite lookup_insert_eq. cbn [default]. unfold id. rewrite Z.mod_small by (unfold BPB, BSIZE; lia).
    apply Hbm. lia.
Qed.

Lemma mkfs_layout : layout_ok mkfs_sb.
Proof. split; by vm_compute. Qed.

Lemma made_inv w F P : made w F P → fs_inv mkfs_sb (on_disk w).
Proof.
  intros Hm. pose proof (ho_shape _ _ _ (md_holds _ _ _ Hm)) as Hs. split; [apply (sh_block _ _ _ Hs)|].
  intros b Hb. change (dstart mkfs_sb) with 47 in Hb. pose proof (sh_free _ _ _ Hs) as Hf. change nmeta with 47 in Hf.
  rewrite (md_bits _ _ _ Hm) by (unfold FSSIZE; lia). apply bool_decide_true. lia.
Qed.

Lemma fsize_le i s : 0 ≤ s → s ≤ fsize i s.
Proof. intros Hs. unfold fsize. destruct (off_split s). case_decide; unfold BSIZE in *; lia. Qed.

Lemma made_file_inv w F P i p ty c :
  made w F P → P !! i = Some p → F !! i = Some (ty, c) → (i = 0%nat → len c mod BSIZE ≠ 0) →
  let q := mkInode ROOTDEV (Z.of_nat i + 1) 1 true true ty 0 0 1 (fsize i (len c)) (addrs p) in
  file_inv mkfs_sb (mkFsw (img w) [q]) 0 q.
Proof.
  intros Hm Hp Hf Hr q. pose proof Hm as [Hh Hdk Hfi _ Hc _ _ _ Hbit]. pose proof Hh as [Hs Hl _].
  destruct (Hfi i p _ Hp Hf) as [_ Hsz]. pose proof (sh_free _ _ _ Hs) as Hfb. change nmeta with 47 in Hfb.
  assert (∀ j, fblock (mkFsw (img w) [q]) q j = fb w p j) as E by done.
  split; try done.
  - exact (sh_addrs _ _ _ Hs i p Hp).
  - intros j Hj. rewrite E. intros Hn. destruct (sh_slot _ _ _ Hs i p j Hp Hj) as [_ Hrg]. specialize (Hrg Hn). change nmeta with 47 in Hrg.
    change (dstart mkfs_sb) with 47. change (sb_size mkfs_sb) with FSSIZE. split; [lia|].
    change (used mkfs_sb (on_disk w) (fb w p j) = true). rewrite Hbit by lia. apply bool_decide_true. lia.
  - intros j j' Hj Hj'. rewrite !E. intros Hn Ee. by apply (sh_inj _ _ _ Hs i p j i p j').
  - intros j Hj Hlt. cbn [q size] in Hlt. cbn [snd] in Hsz. assert (0 ≤ j < MAXFILE) as Hj' by fslia. rewrite E.
    apply (sh_slot _ _ _ Hs i p j Hp); [lia|]. rewrite (clen_eq _ i c) by (by rewrite list_lookup_fmap, Hf). left. split; [lia|].
    cbn [snd] in Hlt. unfold fsize in Hlt. case_decide as Ei; [|done]. specialize (Hr Ei). destruct (off_split (len c)). unfold BSIZE in *. lia.
  - cbn [q inum]. apply lookup_lt_Some in Hf. change (ninodes mkfs_sb) with NINODES. lia.
Qed.

Lemma made_bytes w F P i p ty c n :
  made w F P → P !! i = Some p → F !! i = Some (ty, c) →
  let q := mkInode ROOTDEV n 1 true true ty 0 0 1 (fsize i (len c)) (addrs p) in
  file_bytes (mkFsw (img w) [q]) q = c ++ replicate (Z.to_nat (fsize i (len c) - len c)) 0.
Proof.
  intros Hm Hp Hf q. pose proof Hm as [Hh _ Hfi _ _ _ _ _ _]. destruct (Hfi i p _ Hp Hf) as [_ Hsz]. cbn [snd] in Hsz.
  pose proof (fsize_le i (len c) ltac:(unfold len; lia)) as Hle. apply list_eq. intros k. destruct (decide (Z.of_nat k < fsize i (len c))) as [Hk|Hk].
  - rewrite file_bytes_lookup by done. change (fbyte (mkFsw (img w) [q]) q (Z.of_nat k)) with (fbyte (on_disk w) p (Z.of_nat k)).
    rewrite (ho_bytes _ _ _ Hh i p c) by (rewrite ?list_lookup_fmap, ?Hf; (done || lia)). rewrite Nat2Z.id.
    destruct (c !! k) as [x|] eqn:Ex; [by rewrite (lookup_app_l_Some _ _ _ _ Ex)|]. apply lookup_ge_None in Ex.
    rewrite lookup_app_r, lookup_replicate_2 by (unfold len in *; lia). done.
  - rewrite !lookup_ge_None_2; [done|rewrite length_app, length_replicate; unfold len in *; lia|rewrite file_bytes_length; cbn [q size]; lia].
Qed.

(** What the kernel's [ilock] reads for inode [i + 1]. *)
Lemma made_ilock w F P i ty c q :
  made w F P → F !! i = Some (ty, c) → ty ≠ 0 →
  inum q = Z.of_nat i + 1 → dev q = ROOTDEV → ref q = 1 → valid q = false → locked q = false →
  ∃ p, P !! i = Some p ∧ ilock mkfs_sb 0 (mkFsw (img w) [q]) =
    Some ((), mkFsw (img w) [mkInode ROOTDEV (Z.of_nat i + 1) 1 true true ty 0 0 1 (fsize i (len c)) (addrs p)]).
Proof.
  intros Hm Hf Hty Hn Hdev Href Hv Hlk. pose proof Hm as [Hh Hdk Hfi _ _ _ _ _ _].
  destruct (lookup_lt_is_Some_2 P i) as [p Hp]; [rewrite (ho_len _ _ _ Hh), length_fmap; by eapply lookup_lt_Some|].
  exists p. split; [done|]. destruct (Hfi i p _ Hp Hf) as [Ep _]. cbn [fst snd] in Ep. destruct (Hdk i p Hp) as (d & Hd & _ & Hr).
  rewrite <-Hn in Hd, Hr |- *. assert (read_dinode (doff (inum q)) d = file_inode ty (fsize i (len c)) (addrs p)) as Hr' by by rewrite <-Ep.
  unfold read_dinode, file_inode in Hr'. injection Hr' as R1 R2 R3 R4 R5 R6.
  unfold ilock. rewrite (bind_eq _ _ _ q (mkFsw (img w) [q])) by done. rewrite Hlk, Hv, Href. change ((1 <? 1) || false) with false. cbn iota.
  rewrite (bind_eq _ _ _ () (mkFsw (img w) [set_locked true q])) by done.
  rewrite (bind_eq _ _ _ d (mkFsw (img w) [set_locked true q])) by (apply block_at_eq; exact Hd). cbv zeta. rewrite R1, R2, R3, R4, R5, R6.
  rewrite (bind_eq _ _ _ () (mkFsw (img w) [mkInode ROOTDEV (inum q) 1 true true ty 0 0 1 (fsize i (len c)) (addrs p)]))
    by (unfold upd_ip; cbn; by rewrite Href, Hdev).
  by rewrite (proj2 (Z.eqb_neq _ _) Hty).
Qed.

Lemma mkfs_main_makes files :
  Forall name_ok files → Z.of_nat (length files) + 1 < NINODES → Forall (λ f, len (concat f.2) ≤ MAXFILE * BSIZE) files →
  nmeta + blocks (tree files) ≤ FSSIZE →
  ∃ w P, mkfs_main files (mkMkw ∅ 1 0) = Some ((), w) ∧ made w (tree files) P.
Proof.
  intros Hn Hc Hm Hroom. unfold mkfs_main. set (w0 := mkMkw ∅ 1 nmeta). rewrite (bind_eq _ _ _ () w0) by done.
  destruct (zero_blocks (seqZ 0 FSSIZE) w0) as (w1 & E1 & Hi1 & Hf1 & Hb1). rewrite (bind_eq _ _ _ _ _ E1).
  set (w2 := mkMkw (<[1 := put 0 sb_bytes zeros]> (img w1)) (freeinode w1) (freeblock w1)). rewrite (bind_eq _ _ _ () w2) by done.
  assert (image w2 [] []) as Him2.
  { apply blank_image; [|done|done]. intros b Hb. cbn [w2 img]. destruct (Z.eqb_spec b 1) as [->|Hne]; [apply lookup_insert_eq|].
    rewrite lookup_insert_ne, Hb1 by done. apply decide_True. apply elem_of_seqZ. lia. }
  destruct (new_root w2 Him2) as (w3 & w4 & w5 & P5 & E3 & E4 & E5 & Him5). rewrite (bind_eq _ _ _ _ _ E3). change (negb (ROOTINO =? ROOTINO)) with false. cbn iota.
  rewrite (bind_eq _ _ _ _ _ E4), (bind_eq _ _ _ _ _ E5).
  destruct (add_files_image w5 [] files P5 Him5 Hn Hc Hm Hroom) as (w6 & P6 & E6 & Him6). rewrite (bind_eq _ _ _ _ _ E6).
  destruct (finish_image w6 (tree files) P6 (root_bytes files) Him6) as (w7 & P7 & E7 & Hmade); [done| |by exists w7, P7].
  unfold len. rewrite root_bytes_length. unfold NINODES in *. fslia.
Qed.

(** C22: if the names are short and have no slash, the inodes and the blocks
    are enough and no file is too large, [mkfs] makes an image on which the
    kernel finds the super block it was written with, its invariant holds, the
    bitmap marks exactly the blocks that were given out, the log is empty and
    the other inodes are free. From any fresh entry of the inode table [ilock]
    reads the root directory or a file, whose contents are the directory entries
    in the order of the arguments, or the bytes of the argument; the size of the root is rounded up to the next
    multiple of a block, with zeros. Each is a well-formed file, the root if its
    entries do not end on the edge of a block. *)
Theorem mkfs_makes_fs files :
  Forall name_ok files → Z.of_nat (length files) + 1 < NINODES → Forall (λ f, len (concat f.2) ≤ MAXFILE * BSIZE) files →
  nmeta + blocks (tree files) ≤ FSSIZE →
  ∃ im, mkfs files = Some im ∧
    readsb (mkFsw im []) = Some (mkfs_sb, mkFsw im []) ∧ layout_ok mkfs_sb ∧ fs_inv mkfs_sb (mkFsw im []) ∧
    (∀ b, 0 ≤ b < FSSIZE → used mkfs_sb (mkFsw im []) b = bool_decide (b < nmeta + blocks (tree files))) ∧
    im !! logstart mkfs_sb = Some zeros ∧
    (∀ n, Z.of_nat (length files) + 1 < n < NINODES → ∃ d, im !! IBLOCK mkfs_sb n = Some d ∧ get_short (doff n) d = 0) ∧
    ∀ i ty c q, tree files !! i = Some (ty, c) →
      inum q = Z.of_nat i + 1 → dev q = ROOTDEV → ref q = 1 → valid q = false → locked q = false →
      ∃ p, ilock mkfs_sb 0 (mkFsw im [q]) = Some ((), mkFsw im [p]) ∧
        type p = ty ∧ nlink p = 1 ∧ size p = fsize i (len c) ∧
        file_bytes (mkFsw im [p]) p = c ++ replicate (Z.to_nat (fsize i (len c) - len c)) 0 ∧
        ((i = 0%nat → len c mod BSIZE ≠ 0) → file_inv mkfs_sb (mkFsw im [p]) 0 p).
Proof.
  intros Hn Hc Hm Hroom. destruct (mkfs_main_makes files Hn Hc Hm Hroom) as (w & P & E & Hmade). exists (img w).
  split_and!.
  - unfold mkfs. by rewrite E.
  - unfold readsb. rewrite (bind_eq _ _ _ _ _ (block_at_eq (mkFsw (img w) []) 1 _ (md_sb _ _ _ Hmade))). by vm_compute.
  - exact mkfs_layout.
  - exact (made_inv _ _ _ Hmade).
  - intros b Hb. rewrite <-(md_free _ _ _ Hmade). by apply (md_bits _ _ _ Hmade).
  - exact (md_log _ _ _ Hmade).
  - intros n Hnn. destruct (md_unused _ _ _ Hmade n) as (d & Hd & _ & Hr); [rewrite tree_length; lia|]. exists d. split; [done|].
    by injection Hr.
  - intros i ty c q Hf Hq1 Hq2 Hq3 Hq4 Hq5.
    assert (ty ≠ 0) as Hty.
    { unfold tree in Hf. destruct i as [|i]; [by injection Hf as <- _|]. change (((λ f, (T_FILE, concat f.2)) <$> files) !! i = Some (ty, c)) in Hf.
      apply list_lookup_fmap_Some_1 in Hf as (f & [= -> _] & _). done. }
    destruct (made_ilock w _ P i ty c q Hmade Hf Hty Hq1 Hq2 Hq3 Hq4 Hq5) as (p & Hp & Ep).
    eexists. split_and!; [exact Ep|done|done|done|by eapply made_bytes|]. intros Hr. by eapply made_file_inv.
Qed.

(** A program of three bytes. *)
Definition demo_file_arg : list Z * list (list Z) := ([117; 115; 101; 114; 47; 95; 99; 97; 116], [[1; 2]; [3]]).
Lemma mkfs_makes_fs_witness :
  shortname demo_file_arg.1 = [99; 97; 116] ∧ ∃ im, mkfs [demo_file_arg] = Some im ∧ fs_inv mkfs_sb (mkFsw im []) ∧
    ∃ p, ilock mkfs_sb 0 (mkFsw im [mkInode 1 2 1 false false 0 0 0 0 0 []]) = Some ((), mkFsw im [p]) ∧
      file_bytes (mkFsw im [p]) p = [1; 2; 3] ∧ file_inv mkfs_sb (mkFsw im [p]) 0 p.
Proof.
  split; [reflexivity|]. destruct (mkfs_makes_fs [demo_file_arg]) as (im & E & _ & _ & Hi & _ & _ & _ & Hf).
  - constructor; [|constructor]. split; [apply (bool_decide_unpack _); by vm_compute|change (3 <= 14)%nat; lia].
  - by vm_compute.
  - constructor; [by vm_compute|constructor].
  - by vm_compute.
  - exists im. split; [exact E|]. split; [exact Hi|].
    destruct (Hf 1%nat T_FILE [1; 2; 3] (mkInode 1 2 1 false false 0 0 0 0 0 [])) as (p & Ep & _ & _ & _ & Hb & Hinv); try reflexivity.
    exists p. split; [exact Ep|]. split; [exact Hb|]. apply Hinv. discriminate.
Defined.
