(* ===== verification/FsDir.v ===== *)
(** Directories and paths: the upper part of [xv6/kernel/fs.c].

    A directory is a file of entries of 16 bytes, an inode number and a name of
    at most 14 bytes, padded with NULs. Names and paths are C strings, lists of
    bytes without the final NUL. *)
From S2P Require Import Prelude Fs FsBlock FsFile FsRw.

(** ** The code *)

(** [strncmp(s, t, n) == 0], reading NULs past the end of a list. *)
Fixpoint strncmp_eq (n : nat) (s t : list Z) : bool :=
  match n with
  | O => true
  | S n =>
    let a := default 0 (head s) in let b := default 0 (head t) in
    if negb (a =? 0) && (a =? b) then strncmp_eq n (tail s) (tail t) else a =? b
  end.
Definition namecmp (s t : list Z) : bool := strncmp_eq DIRSIZ s t.
(** [strncpy(de.name, name, DIRSIZ)] *)
Definition dirent_name (name : list Z) : list Z := take DIRSIZ (name ++ replicate DIRSIZ 0).

(** [skipelem]: the next element, at most [DIRSIZ] bytes of it, and the rest. *)
Definition slash : Z := 47.
Fixpoint skip_slashes (path : list Z) : list Z :=
  match path with c :: path' => if c =? slash then skip_slashes path' else path | [] => [] end.
Fixpoint take_elem (path : list Z) : list Z * list Z :=
  match path with
  | [] => ([], [])
  | c :: path' => if c =? slash then ([], path) else let '(e, r) := take_elem path' in (c :: e, r)
  end.
Definition skipelem (path : list Z) : option (list Z * list Z) :=
  match skip_slashes path with
  | [] => None
  | path => let '(e, r) := take_elem path in Some (take DIRSIZ e, skip_slashes r)
  end.

Section code.
Context (sb : superblock).

(** [readi(dp, 0, &de, off, sizeof(de))] *)
Definition read_dirent (dp : nat) (off : Z) : fs (Z * list Z) :=
  r ← readi sb (λ _ _, true) dp off DIRENT_SIZE;
  if r.1 =? DIRENT_SIZE then mret (le_dec (slice 0 2 r.2), slice 2 (Z.of_nat DIRSIZ) r.2) else stuck.

(** The loop of [dirlookup]. *)
Fixpoint dirlookup_loop (fuel : nat) (dp : nat) (name : list Z) (off : Z) : fs (option (Z * Z)) :=
  match fuel with
  | O => stuck
  | S fuel =>
    p ← the_ip dp;
    if off <? size p then
      de ← read_dirent dp off;
      if de.1 =? 0 then dirlookup_loop fuel dp name (off + DIRENT_SIZE)
      else if namecmp name de.2 then mret (Some (de.1, off))
      else dirlookup_loop fuel dp name (off + DIRENT_SIZE)
    else mret None
  end.
Definition dirlookup (dp : nat) (name : list Z) : fs (option (nat * Z)) :=
  p ← the_ip dp;
  if negb (type p =? T_DIR) then stuck
  else
    o ← dirlookup_loop (S (Z.to_nat (size p / DIRENT_SIZE + 1))) dp name 0;
    match o with
    | None => mret None
    | Some (n, off) => ip ← iget (dev p) n; mret (Some (ip, off))
    end.

(** The loop of [dirlink]: the first unused entry, or the end. *)
Fixpoint find_empty (fuel : nat) (dp : nat) (off : Z) : fs Z :=
  match fuel with
  | O => stuck
  | S fuel =>
    p ← the_ip dp;
    if off <? size p then
      de ← read_dirent dp off;
      if de.1 =? 0 then mret off else find_empty fuel dp (off + DIRENT_SIZE)
    else mret off
  end.
(** [struct dirent], as the bytes that [writei] copies from. *)
Definition dirent_bytes (n : Z) (name : list Z) : list Z := le_enc 2 n ++ dirent_name name.
(** [either_copyin] from memory of the kernel. *)
Definition kernel_src (mem : list Z) (tot m : Z) : list Z * bool :=
  ((λ k, default 0 (mem !! Z.to_nat k)) <$> seqZ tot m, true).
Definition dirlink (dp : nat) (name : list Z) (n : Z) : fs Z :=
  o ← dirlookup dp name;
  match o with
  | Some (ip, _) => iput sb ip;; mret (-1)
  | None =>
    p ← the_ip dp;
    off ← find_empty (S (Z.to_nat (size p / DIRENT_SIZE + 1))) dp 0;
    r ← writei sb (kernel_src (dirent_bytes n name)) dp off DIRENT_SIZE;
    if r =? DIRENT_SIZE then mret 0 else mret (-1)
  end.

(** The loop of [namex]; each turn removes an element of the path. [cur] is the
    inode reached. *)
Fixpoint namex_loop (fuel : nat) (path : list Z) (nameiparent : bool) (ip : nat) (name : list Z) : fs (option (nat * list Z)) :=
  match fuel with
  | O => stuck
  | S fuel =>
    match skipelem path with
    | None =>
      if nameiparent then iput sb ip;; mret None else mret (Some (ip, name))
    | Some (name, path) =>
      ilock sb ip;;
      p ← the_ip ip;
      if negb (type p =? T_DIR) then iunlockput sb ip;; mret None
      else if nlink p =? 0 then iunlockput sb ip;; mret None
      else if nameiparent && match path with [] => true | _ => false end then
        iunlock ip;; mret (Some (ip, name))
      else
        o ← dirlookup ip name;
        match o with
        | None => iunlockput sb ip;; mret None
        | Some (next, _) => iunlockput sb ip;; namex_loop fuel path nameiparent next name
        end
    end
  end.
Definition namex (cwd : nat) (path : list Z) (nameiparent : bool) : fs (option (nat * list Z)) :=
  ip ← (match path with
        | c :: _ => if c =? slash then iget ROOTDEV ROOTINO else idup cwd
        | [] => idup cwd
        end);
  namex_loop (S (length path)) path nameiparent ip [].
Definition namei (cwd : nat) (path : list Z) : fs (option (nat * list Z)) := namex cwd path false.
Definition nameiparent (cwd : nat) (path : list Z) : fs (option (nat * list Z)) := namex cwd path true.
End code.

(** ** Path elements *)

(** The elements of a path, in full. *)
Fixpoint elems_from (cur path : list Z) : list (list Z) :=
  match path with
  | [] => match cur with [] => [] | _ => [cur] end
  | c :: path' =>
    if c =? slash then match cur with [] => elems_from [] path' | _ => cur :: elems_from [] path' end
    else elems_from (cur ++ [c]) path'
  end.
Definition elems (path : list Z) : list (list Z) := elems_from [] path.

Lemma elems_skip path : elems (skip_slashes path) = elems path.
Proof.
  induction path as [|c path IH]; [done|]. cbn [skip_slashes]. destruct (c =? slash) eqn:E; [|done].
  rewrite IH. unfold elems. cbn [elems_from]. by rewrite E.
Qed.

Lemma elems_take cur path e r :
  take_elem path = (e, r) → cur ++ e ≠ [] → elems_from cur path = (cur ++ e) :: elems r.
Proof.
  revert cur e; induction path as [|c path IH]; intros cur e H Hne; cbn [take_elem elems_from] in *.
  { simplify_eq. rewrite app_nil_r in *. by destruct cur. }
  destruct (c =? slash) eqn:E.
  - simplify_eq. rewrite app_nil_r in *. destruct cur; [done|]. f_equal. unfold elems. cbn [elems_from]. by rewrite E.
  - destruct (take_elem path) as [e' r'] eqn:Et. simplify_eq. rewrite (IH (cur ++ [c]) e' eq_refl).
    + by rewrite <-app_assoc.
    + by destruct cur.
Qed.

(** [skipelem] takes the first element of a path, cut to 14 bytes, and leaves
    the others. *)
Lemma skipelem_spec path :
  match elems path with
  | [] => skipelem path = None
  | e :: es => ∃ rest, skipelem path = Some (take DIRSIZ e, rest) ∧ elems rest = es ∧ (length rest < length path)%nat ∧
      (rest = [] ↔ es = [])
  end.
Proof.
  rewrite <-elems_skip. unfold skipelem.
  assert (length (skip_slashes path) ≤ length path)%nat as Hl.
  { induction path as [|c path IH]; [done|]. cbn [skip_slashes]. destruct (c =? slash); simpl; lia. }
  assert (∀ l c r, skip_slashes l = c :: r → c =? slash = false) as Hns.
  { induction l as [|x l IHl]; intros c r; cbn [skip_slashes]; [done|]. destruct (x =? slash) eqn:Ex; [apply IHl|].
    by intros [= <- _]. }
  destruct (skip_slashes path) as [|c p] eqn:E; [done|]. pose proof (Hns _ _ _ E) as Ec.
  destruct (take_elem (c :: p)) as [e r] eqn:Et.
  assert (e ≠ []) as Hne.
  { cbn [take_elem] in Et. rewrite Ec in Et. destruct (take_elem p). by simplify_eq. }
  unfold elems at 1. rewrite (elems_take [] _ e r Et Hne). cbn [app]. exists (skip_slashes r). rewrite elems_skip.
  assert (∀ l e r, take_elem l = (e, r) → length r = length l - length e ∧ length e ≤ length l)%nat as Htl.
  { induction l as [|x l IHl]; intros e' r'; cbn [take_elem]; [by intros [= <- <-]|]. destruct (x =? slash).
    - intros [= <- <-]. simpl. lia.
    - destruct (take_elem l) as [e2 r2] eqn:E2. intros [= <- <-]. destruct (IHl _ _ eq_refl). simpl. lia. }
  assert (∀ l, length (skip_slashes l) ≤ length l)%nat as Hsl.
  { induction l as [|x l IHl]; [done|]. cbn [skip_slashes]. destruct (x =? slash); simpl; lia. }
  split_and!; [done|done| |].
  - destruct (Htl _ _ _ Et). specialize (Hsl r). destruct e; [done|]. simpl in *. lia.
  - split; [intros Hr; rewrite <-elems_skip, Hr; done|]. intros He. destruct (skip_slashes r) as [|x l] eqn:Es; [done|].
    pose proof (Hns _ _ _ Es) as Ex. rewrite <-elems_skip, Es in He.
    destruct (take_elem (x :: l)) as [e2 r2] eqn:E2. unfold elems in He. rewrite (elems_take [] _ e2 r2 E2) in He; [done|].
    cbn [take_elem] in E2. rewrite Ex in E2. destruct (take_elem l). by simplify_eq.
Qed.
