(* ===== verification/FsDirSpec.v ===== *)
(** Directories as finite maps from names to inode numbers: what [dirlookup] and
    [dirlink] of [xv6/kernel/fs.c] do to them. *)
From S2P Require Import Prelude Fs FsBlock FsFile FsRw FsDir.

(** ** Names *)

(** The bytes up to the first NUL, and the 14 that count. *)
Fixpoint upto_zero (s : list Z) : list Z :=
  match s with [] => [] | c :: s => if c =? 0 then [] else c :: upto_zero s end.
Definition dname (s : list Z) : list Z := take DIRSIZ (upto_zero s).

Lemma strncmp_eq_spec n s t : strncmp_eq n s t = bool_decide (take n (upto_zero s) = take n (upto_zero t)).
Proof.
  revert s t; induction n as [|n IH]; intros s t; cbn [strncmp_eq]; [done|].
  assert (∀ x y l l', bool_decide (x :: l = y :: l') = (x =? y) && bool_decide (l = l')) as Hcons.
  { intros x y l l'. destruct (Z.eqb_spec x y) as [->|Hne]; simpl; [|apply bool_decide_eq_false; congruence].
    apply bool_decide_ext. split; [by intros [=]|by intros ->]. }
  assert (∀ l, upto_zero l = if default 0 (head l) =? 0 then [] else default 0 (head l) :: upto_zero (tail l)) as Hc.
  { intros [|c l]; [done|]. done. }
  rewrite (Hc s), (Hc t). set (a := default 0 (head s)). set (b := default 0 (head t)).
  destruct (Z.eqb_spec a 0) as [->|Ha]; cbn [negb andb].
  - destruct (Z.eqb_spec b 0) as [->|Hb]; [done|]. rewrite (proj2 (Z.eqb_neq 0 b)) by congruence.
    symmetry. by apply bool_decide_eq_false.
  - destruct (Z.eqb_spec a b) as [<-|Hab].
    + rewrite (proj2 (Z.eqb_neq a 0) Ha), IH. cbn [take]. by rewrite Hcons, Z.eqb_refl.
    + symmetry. apply bool_decide_eq_false. destruct (b =? 0); cbn [take]; congruence.
Qed.

(** Two names are the same if their first 14 bytes are. *)
Lemma namecmp_spec s t : namecmp s t = bool_decide (dname s = dname t).
Proof. apply strncmp_eq_spec. Qed.

Lemma take_upto_pad n s m : take n (upto_zero (take n (s ++ replicate m 0))) = take n (upto_zero s).
Proof.
  revert s; induction n as [|n IH]; intros s; [done|]. destruct s as [|c s].
  - destruct m; [done|]. done.
  - cbn. destruct (c =? 0); [done|]. cbn. by rewrite IH.
Qed.
Lemma dname_dirent name : dname (dirent_name name) = dname name.
Proof. apply take_upto_pad. Qed.
Lemma dirent_name_length name : length (dirent_name name) = DIRSIZ.
Proof. unfold dirent_name. rewrite length_take, length_app, length_replicate. lia. Qed.

(** ** Entries *)

(** The first entry in use that has the name. *)
Fixpoint dir_find (es : list (Z * list Z)) (name : list Z) (off : Z) : option (Z * Z) :=
  match es with
  | [] => None
  | e :: es =>
    if decide (e.1 ≠ 0 ∧ dname e.2 = dname name) then Some (e.1, off)
    else dir_find es name (off + DIRENT_SIZE)
  end.
Definition dir_lookup (es : list (Z * list Z)) (name : list Z) : option Z := fst <$> dir_find es name 0.

Lemma dir_find_off es name off off' : fst <$> dir_find es name off = fst <$> dir_find es name off'.
Proof. revert off off'; induction es as [|e es IH]; intros; cbn [dir_find]; [done|]. case_decide; [done|]. apply IH. Qed.

Lemma dir_lookup_nil name : dir_lookup [] name = None.
Proof. done. Qed.
Lemma dir_lookup_cons e es name :
  dir_lookup (e :: es) name = if decide (e.1 ≠ 0 ∧ dname e.2 = dname name) then Some e.1 else dir_lookup es name.
Proof. unfold dir_lookup. cbn [dir_find]. case_decide; [done|]. apply dir_find_off. Qed.
Lemma dir_lookup_app es es' name :
  dir_lookup (es ++ es') name = match dir_lookup es name with Some n => Some n | None => dir_lookup es' name end.
Proof. induction es as [|e es IH]; cbn [app]; [done|]. rewrite !dir_lookup_cons. by case_decide. Qed.

Lemma dir_lookup_dname es name name' : dname name = dname name' → dir_lookup es name = dir_lookup es name'.
Proof. intros Hd. induction es as [|e es IH]; [done|]. by rewrite !dir_lookup_cons, Hd, IH. Qed.

(** Entry [e] is stored at position [k], which was not in use or at the end. *)
Definition dir_put (k : nat) (e : Z * list Z) (es : list (Z * list Z)) : list (Z * list Z) :=
  take k es ++ [e] ++ drop (S k) es.

Lemma dir_lookup_put k e es name :
  (k ≤ length es)%nat → (∀ e', es !! k = Some e' → e'.1 = 0) → e.1 ≠ 0 → dir_lookup es e.2 = None →
  dir_lookup (dir_put k e es) name = if decide (dname e.2 = dname name) then Some e.1 else dir_lookup es name.
Proof.
  intros Hk Hfree He Hnone. unfold dir_put.
  assert (∀ m, dir_lookup es m = match dir_lookup (take k es) m with Some n => Some n | None => dir_lookup (drop (S k) es) m end) as Hes.
  { intros m. rewrite <-(take_drop k es) at 1. rewrite dir_lookup_app. destruct (es !! k) as [e'|] eqn:Ek.
    - rewrite (drop_S _ _ _ Ek), dir_lookup_cons, decide_False; [done|]. intros [? _]. by rewrite (Hfree _ eq_refl) in *.
    - apply lookup_ge_None in Ek. by rewrite !drop_ge by lia. }
  rewrite !dir_lookup_app, dir_lookup_cons, dir_lookup_nil. destruct (decide (dname e.2 = dname name)) as [Hd|Hd].
  - rewrite Hes in Hnone. rewrite <-(dir_lookup_dname _ _ _ Hd). destruct (dir_lookup (take k es) e.2); [done|]. by rewrite decide_True.
  - rewrite Hes. destruct (dir_lookup (take k es) name); [done|]. rewrite decide_False; [done|]. by intros [_ ?].
Qed.

(** The first entry that is not in use, or the place after the last one. *)
Fixpoint first_free (es : list (Z * list Z)) : nat :=
  match es with [] => 0 | e :: es => if e.1 =? 0 then 0 else S (first_free es) end.

Lemma first_free_spec es k :
  (k ≤ length es)%nat → (∀ i e, (i < k)%nat → es !! i = Some e → e.1 ≠ 0) → (∀ e, es !! k = Some e → e.1 = 0) →
  first_free es = k.
Proof.
  revert k. induction es as [|e es IH]; intros k Hk Hused Hfree; cbn [first_free length] in *; [lia|].
  destruct k as [|k].
  - by rewrite (Hfree e eq_refl).
  - rewrite (proj2 (Z.eqb_neq e.1 0)) by (apply (Hused 0%nat); [lia|done]). f_equal.
    apply IH; [lia| |done]. intros i e' Hi. apply (Hused (S i)). lia.
Qed.

(** ** Operations *)

Section dir.
Context (sb : superblock) (Hsb : layout_ok sb).
Implicit Types (w : fsw) (p : inode).

(** A directory, whose size is a whole number of entries. *)
Record dir_inv w (dp : nat) p : Prop := {
  dv_file : file_inv sb w dp p;
  dv_type : type p = T_DIR;
  dv_size : size p mod DIRENT_SIZE = 0;
}.

Definition dentry w p (k : Z) : Z * list Z :=
  (le_dec [fbyte w p (DIRENT_SIZE * k); fbyte w p (DIRENT_SIZE * k + 1)],
   (λ i, fbyte w p (DIRENT_SIZE * k + 2 + i)) <$> seqZ 0 (Z.of_nat DIRSIZ)).
Definition dcount p : Z := size p / DIRENT_SIZE.
Definition dentries w p : list (Z * list Z) := dentry w p <$> seqZ 0 (dcount p).

Lemma dcount_size w dp p : dir_inv w dp p → size p = DIRENT_SIZE * dcount p ∧ 0 ≤ dcount p.
Proof.
  intros [Hf _ Hs]. pose proof (fv_size _ _ _ _ Hf). unfold dcount.
  pose proof (Z.div_mod (size p) DIRENT_SIZE ltac:(done)). split; [lia|]. apply Z.div_pos; [lia|done].
Qed.
Lemma dentries_length w p : length (dentries w p) = Z.to_nat (dcount p).
Proof. unfold dentries. by rewrite length_fmap, length_seqZ. Qed.
Lemma dentries_lookup w p k : Z.of_nat k < dcount p → dentries w p !! k = Some (dentry w p (Z.of_nat k)).
Proof. intros. unfold dentries. by rewrite list_lookup_fmap, lookup_seqZ_lt by lia. Qed.
Lemma dentries_drop w p k :
  0 ≤ k < dcount p → drop (Z.to_nat k) (dentries w p) = dentry w p k :: drop (Z.to_nat (k + 1)) (dentries w p).
Proof.
  intros Hk. rewrite (drop_S _ (dentry w p k) (Z.to_nat k)).
  - by replace (Z.to_nat (k + 1)) with (S (Z.to_nat k)) by lia.
  - rewrite dentries_lookup by lia. do 2 f_equal. lia.
Qed.

(** Reading the entry at an offset. *)
Lemma read_dirent_spec w dp p k :
  fs_inv sb w → dir_inv w dp p → 0 ≤ k < dcount p → read_dirent sb dp (DIRENT_SIZE * k) w = Some (dentry w p k, w).
Proof.
  intros Hinv Hd Hk. destruct (dcount_size _ _ _ Hd) as [Hs _]. destruct Hd as [Hf _ _]. pose proof (fv_size _ _ _ _ Hf) as Hsz.
  destruct (readi_bytes sb Hsb (λ _ _, true) w dp p (DIRENT_SIZE * k) DIRENT_SIZE) as (r & bs & E & Hb & Hr);
    [done|done|unfold DIRENT_SIZE in *; lia|done|unfold DIRENT_SIZE in *; fslia|].
  destruct Hr as [[-> Hl]|(_ & _ & ? & ? & ?)]; [|done].
  assert (Z.max 0 (Z.min DIRENT_SIZE (size p - DIRENT_SIZE * k)) = DIRENT_SIZE) as Ea by (unfold DIRENT_SIZE in *; lia).
  rewrite Ea in *. unfold read_dirent. rewrite (bind_eq _ _ _ _ _ E). cbn [fst snd]. rewrite Z.eqb_refl.
  change DIRENT_SIZE with 16 in Hl. assert (length bs = 16%nat) as Hl' by lia. unfold mret, M_ret. do 2 f_equal. unfold dentry. f_equal.
  - unfold slice. change (Z.to_nat 0) with O. change (Z.to_nat 2) with 2%nat. rewrite drop_0. f_equal.
    apply list_eq. intros i. destruct i as [|[|i]].
    + rewrite lookup_take_lt, Hb by lia. cbn. do 2 f_equal. lia.
    + rewrite lookup_take_lt, Hb by lia. cbn. do 2 f_equal.
    + by rewrite lookup_take_ge by lia.
  - apply list_eq. intros i. rewrite slice_lookup. change (Z.to_nat (Z.of_nat DIRSIZ)) with 14%nat. case_decide as Hi.
    + rewrite Hb by lia. rewrite list_lookup_fmap, lookup_seqZ_lt by (unfold DIRSIZ; lia). cbn. do 2 f_equal. lia.
    + symmetry. apply lookup_ge_None_2. rewrite length_fmap, length_seqZ. unfold DIRSIZ. lia.
Qed.

Lemma the_ip_eq w dp p : file_inv sb w dp p → the_ip dp w = Some (p, w).
Proof. intros Hf. unfold the_ip. by rewrite (fv_ip _ _ _ _ Hf). Qed.

Lemma dirlookup_loop_spec fuel w dp p name k :
  fs_inv sb w → dir_inv w dp p → 0 ≤ k ≤ dcount p → dcount p - k < Z.of_nat fuel →
  dirlookup_loop sb fuel dp name (DIRENT_SIZE * k) w =
    Some (dir_find (drop (Z.to_nat k) (dentries w p)) name (DIRENT_SIZE * k), w).
Proof.
  intros Hinv Hd. destruct (dcount_size _ _ _ Hd) as [Hs _]. revert k. induction fuel as [|fuel IH]; intros k Hk Hfuel; [lia|].
  cbn [dirlookup_loop]. rewrite (bind_eq _ _ _ _ _ (the_ip_eq _ _ _ (dv_file _ _ _ Hd))).
  destruct (decide (k = dcount p)) as [->|Hne].
  { rewrite (proj2 (Z.ltb_ge _ _)) by lia. rewrite drop_ge by (rewrite dentries_length; lia). done. }
  rewrite (proj2 (Z.ltb_lt _ _)) by (unfold DIRENT_SIZE in *; lia).
  rewrite (bind_eq _ _ _ _ _ (read_dirent_spec w dp p k Hinv Hd ltac:(lia))), dentries_drop by lia. cbn [dir_find].
  replace (DIRENT_SIZE * k + DIRENT_SIZE) with (DIRENT_SIZE * (k + 1)) by lia.
  destruct (Z.eqb_spec (dentry w p k).1 0) as [E0|E0]; [rewrite decide_False; [by apply IH; lia|by intros [? _]]|].
  rewrite namecmp_spec. case_bool_decide as En.
  - by rewrite decide_True.
  - rewrite decide_False; [by apply IH; lia|]. by intros [_ ?].
Qed.

Lemma fuel_enough w dp p : dir_inv w dp p → dcount p - 0 < Z.of_nat (S (Z.to_nat (size p / DIRENT_SIZE + 1))).
Proof. intros Hd. destruct (dcount_size _ _ _ Hd). unfold dcount in *. lia. Qed.

(** The first entry that is not in use, or the end. *)
Lemma find_empty_spec fuel w dp p k :
  fs_inv sb w → dir_inv w dp p → 0 ≤ k ≤ dcount p → dcount p - k < Z.of_nat fuel →
  ∃ j, find_empty sb fuel dp (DIRENT_SIZE * k) w = Some (DIRENT_SIZE * j, w) ∧ k ≤ j ≤ dcount p ∧
    (j < dcount p → (dentry w p j).1 = 0) ∧ (∀ i, k ≤ i < j → (dentry w p i).1 ≠ 0).
Proof.
  intros Hinv Hd. destruct (dcount_size _ _ _ Hd) as [Hs _]. revert k. induction fuel as [|fuel IH]; intros k Hk Hfuel; [lia|].
  cbn [find_empty]. rewrite (bind_eq _ _ _ _ _ (the_ip_eq _ _ _ (dv_file _ _ _ Hd))).
  destruct (decide (k = dcount p)) as [->|Hne].
  { rewrite (proj2 (Z.ltb_ge _ _)) by lia. exists (dcount p). split_and!; [done|lia|lia|lia|lia]. }
  rewrite (proj2 (Z.ltb_lt _ _)) by (unfold DIRENT_SIZE in *; lia).
  rewrite (bind_eq _ _ _ _ _ (read_dirent_spec w dp p k Hinv Hd ltac:(lia))).
  destruct (Z.eqb_spec (dentry w p k).1 0) as [E0|E0]; [exists k; split_and!; [done|lia|lia|done|lia]|].
  replace (DIRENT_SIZE * k + DIRENT_SIZE) with (DIRENT_SIZE * (k + 1)) by lia.
  destruct (IH (k + 1)) as (j & E & Hj & Hz & Hu); [lia|lia|]. exists j. split_and!; [done|lia|lia|done|].
  intros i Hi. destruct (decide (i = k)) as [->|]; [done|]. apply Hu. lia.
Qed.

Lemma find_empty_first w dp p :
  fs_inv sb w → dir_inv w dp p →
  find_empty sb (S (Z.to_nat (size p / DIRENT_SIZE + 1))) dp 0 w =
    Some (DIRENT_SIZE * Z.of_nat (first_free (dentries w p)), w).
Proof.
  intros Hinv Hd. destruct (dcount_size _ _ _ Hd) as [Hsz Hc].
  destruct (find_empty_spec _ w dp p 0 Hinv Hd ltac:(lia) (fuel_enough _ _ _ Hd)) as (k & E & Hk & Hfree & Hused).
  rewrite Z.mul_0_r in E. rewrite E, (first_free_spec _ (Z.to_nat k)).
  - by rewrite Z2Nat.id by lia.
  - rewrite dentries_length. lia.
  - intros i e Hi He. rewrite dentries_lookup in He by lia. injection He as <-. apply Hused. lia.
  - intros e He. pose proof (lookup_lt_Some _ _ _ He) as Hlt. rewrite dentries_length in Hlt.
    rewrite dentries_lookup in He by lia. injection He as <-. rewrite Z2Nat.id by lia. apply Hfree. lia.
Qed.
Lemma first_free_range w p : (first_free (dentries w p) ≤ length (dentries w p))%nat.
Proof. induction (dentries w p) as [|e es IH]; cbn [first_free length]; [lia|]. destruct (_ =? _); lia. Qed.
Lemma first_free_free es k e : first_free es = k → es !! k = Some e → e.1 = 0.
Proof.
  intros <-. induction es as [|e' es IH]; cbn [first_free]; [done|].
  destruct (Z.eqb_spec e'.1 0); [by intros [= <-]|]. apply IH.
Qed.

(** The entry whose bytes are those of [f]. *)
Definition mk_dentry (f : Z → Z) : Z * list Z :=
  (le_dec [f 0; f 1], (λ i, f (2 + i)) <$> seqZ 0 (Z.of_nat DIRSIZ)).

Lemma dentry_mk w p k f :
  (∀ b, 0 ≤ b < DIRENT_SIZE → fbyte w p (DIRENT_SIZE * k + b) = f b) → dentry w p k = mk_dentry f.
Proof.
  intros Hf. unfold dentry, mk_dentry. rewrite <-(Hf 0), <-(Hf 1), Z.add_0_r by (unfold DIRENT_SIZE; lia). f_equal.
  apply list_fmap_ext. intros i x Hx. apply lookup_seqZ in Hx as [-> Hi]. rewrite <-Hf; [f_equal; lia|].
  unfold DIRENT_SIZE, DIRSIZ in *. lia.
Qed.

Definition mem_byte (mem : list Z) (k : Z) : Z := default 0 (mem !! Z.to_nat k).

Lemma mk_dentry_bytes n name : 0 ≤ n < 2 ^ 16 → mk_dentry (mem_byte (dirent_bytes n name)) = (n, dirent_name name).
Proof.
  intros Hn. unfold mk_dentry, mem_byte, dirent_bytes. f_equal.
  - change (Z.to_nat 0) with 0%nat. change (Z.to_nat 1) with 1%nat. cbn [le_enc app lookup list_lookup default].
    exact (le_dec_enc 2 n Hn).
  - apply list_eq. intros i. rewrite list_lookup_fmap. destruct (decide (i < DIRSIZ)%nat) as [Hi|Hi].
    + rewrite lookup_seqZ_lt by lia. cbn [fmap option_fmap option_map]. rewrite lookup_app_r by (rewrite le_enc_length; lia).
      rewrite le_enc_length. replace (Z.to_nat _ - 2)%nat with i by lia.
      destruct (lookup_lt_is_Some_2 (dirent_name name) i) as [x ->]; [by rewrite dirent_name_length|done].
    + rewrite lookup_seqZ_ge by lia. symmetry. apply lookup_ge_None_2. rewrite dirent_name_length. lia.
Qed.

Lemma dir_put_lookup k e es i :
  (k ≤ length es)%nat → dir_put k e es !! i = if decide (i = k) then Some e else es !! i.
Proof.
  intros Hk. unfold dir_put. assert (length (take k es) = k) as Hl by (rewrite length_take; lia). case_decide as Hi.
  - subst. rewrite lookup_app_r, Hl, Nat.sub_diag by lia. done.
  - destruct (decide (i < k)%nat).
    + by rewrite lookup_app_l, lookup_take_lt by lia.
    + rewrite lookup_app_r, Hl, lookup_app_r, lookup_drop by (simpl; lia). f_equal. simpl. lia.
Qed.

(** Sixteen bytes at a multiple of sixteen are one entry. *)
Lemma dentries_written w dp p w' p' k f :
  dir_inv w dp p → 0 ≤ k ≤ dcount p → size p' = Z.max (size p) (DIRENT_SIZE * k + DIRENT_SIZE) →
  (∀ i, 0 ≤ i < size p' → fbyte w' p' i =
     if decide (DIRENT_SIZE * k ≤ i < DIRENT_SIZE * k + DIRENT_SIZE) then f (i - DIRENT_SIZE * k) else fbyte w p i) →
  dentries w' p' = dir_put (Z.to_nat k) (mk_dentry f) (dentries w p).
Proof.
  intros Hd Hk Hs Hb. destruct (dcount_size _ _ _ Hd) as [Hsz _].
  assert (dcount p' = Z.max (dcount p) (k + 1)) as Hc.
  { unfold dcount at 1. rewrite Hs, Hsz. replace (Z.max _ _) with (Z.max (dcount p) (k + 1) * DIRENT_SIZE) by (unfold DIRENT_SIZE; lia).
    by apply Z.div_mul. }
  assert (size p' = DIRENT_SIZE * dcount p') as Hsz' by (unfold DIRENT_SIZE in *; lia).
  apply list_eq. intros i. rewrite dir_put_lookup by (rewrite dentries_length; lia).
  destruct (decide (Z.of_nat i < dcount p')) as [Hi|Hi].
  - rewrite dentries_lookup by done. case_decide as Ei.
    + f_equal. apply dentry_mk. intros b Hb'. rewrite Hb by (unfold DIRENT_SIZE in *; lia). subst i.
      rewrite Z2Nat.id by lia. rewrite decide_True by (unfold DIRENT_SIZE in *; lia). f_equal. lia.
    + rewrite dentries_lookup by lia. f_equal. rewrite (dentry_mk w p (Z.of_nat i) (λ b, fbyte w p (DIRENT_SIZE * Z.of_nat i + b))) by done.
      apply dentry_mk. intros b Hb'. rewrite Hb by (unfold DIRENT_SIZE in *; lia). rewrite decide_False; [done|].
      intros Hin. apply Ei. unfold DIRENT_SIZE in *. lia.
  - rewrite decide_False by lia. rewrite !lookup_ge_None_2; [done| |]; rewrite dentries_length; lia.
Qed.

Lemma kernel_src_ok mem tot m :
  0 ≤ tot → 0 < m →
  Z.of_nat (length (kernel_src mem tot m).1) ≤ m ∧
  ((kernel_src mem tot m).2 = true → Z.of_nat (length (kernel_src mem tot m).1) = m) ∧
  ∀ k b, (kernel_src mem tot m).1 !! k = Some b → b = mem_byte mem (tot + Z.of_nat k).
Proof.
  intros Ht Hm. cbn [kernel_src fst snd]. rewrite length_fmap, length_seqZ. split_and!; [lia|lia|].
  intros k b Hb. rewrite list_lookup_fmap in Hb. destruct (seqZ tot m !! k) as [x|] eqn:E; simplify_eq/=.
  by apply lookup_seqZ in E as [-> _].
Qed.

(** The blocks of other files stay, and stay in use. *)
Definition others_blocks w p w' : Prop :=
  ∀ a, dstart sb ≤ a < sb_size sb → used sb w a = true → (∀ j, 0 ≤ j ≤ MAXFILE → fblock w p j ≠ a) →
    blk w' !! a = blk w !! a ∧ used sb w' a = true.

(** An entry lies in one block; if the directory has that block, the entry is
    written, however full the disk is. *)
Lemma entry_block k : DIRENT_SIZE * k mod BSIZE + DIRENT_SIZE ≤ BSIZE.
Proof.
  change BSIZE with (DIRENT_SIZE * 64). rewrite Z.mul_mod_distr_l by done.
  pose proof (Z.mod_pos_bound k 64 ltac:(lia)). unfold DIRENT_SIZE. lia.
Qed.
Lemma write_dirent_room w dp p k mem c w' :
  fs_inv sb w → dir_inv w dp p → 0 ≤ k ≤ dcount p → DIRENT_SIZE * k + DIRENT_SIZE ≤ MAXFILE * BSIZE →
  fblock w p (DIRENT_SIZE * k / BSIZE) ≠ 0 →
  writei sb (kernel_src mem) dp (DIRENT_SIZE * k) DIRENT_SIZE w = Some (c, w') → c = DIRENT_SIZE.
Proof.
  intros Hinv Hd Hk Hmax Hb. destruct (dcount_size _ _ _ Hd) as [Hs Hc]. pose proof (dv_file _ _ _ Hd) as Hf.
  pose proof (entry_block k) as He. unfold writei. rewrite (bind_eq _ _ _ _ _ (the_ip_eq _ _ _ Hf)).
  rewrite u32_id by (change (MAXFILE * BSIZE) with 274432 in *; unfold DIRENT_SIZE in *; lia).
  rewrite (proj2 (Z.ltb_ge (size p) _)), (proj2 (Z.ltb_ge _ (DIRENT_SIZE * k))) by (unfold DIRENT_SIZE in *; lia).
  rewrite (proj2 (Z.ltb_ge (MAXFILE * BSIZE) _)) by lia. cbn [orb].
  intros (r & w1 & El & (p1 & w2 & _ & ([] & w3 & _ & ([] & w4 & _ & [= <- _])%bind_Some)%bind_Some)%bind_Some)%bind_Some.
  rewrite writei_loop_S in El. change (0 <? DIRENT_SIZE) with true in El. cbn iota in El.
  destruct (bmap_spec sb Hsb w dp p (DIRENT_SIZE * k / BSIZE) Hinv Hf) as (w5 & p5 & Eb & _ & Hsame & _);
    [apply bn_range; unfold DIRENT_SIZE in *; lia|].
  destruct (Hsame Hb) as [-> ->]. rewrite (bind_eq _ _ _ _ _ Eb), (proj2 (Z.eqb_neq _ 0) Hb) in El.
  apply bind_Some in El as (d & w6 & _ & El). cbv zeta in El. cbn [kernel_src] in El.
  apply bind_Some in El as ([] & w7 & _ & El).
  replace (Z.min (DIRENT_SIZE - 0) _) with DIRENT_SIZE in El by lia.
  destruct (Z.to_nat _) as [|fuel] eqn:Ef in El.
  { pose proof (Z.div_pos (DIRENT_SIZE * k mod BSIZE + DIRENT_SIZE) BSIZE). pose proof (Z.mod_pos_bound (DIRENT_SIZE * k) BSIZE ltac:(done)).
    unfold DIRENT_SIZE, BSIZE in *. lia. }
  rewrite writei_loop_S, Z.add_0_l, Z.ltb_irrefl in El. by injection El as <- _.
Qed.

(** Writing an entry at its place: it is written, or the directory cannot grow
    and stays as it is. *)
Lemma write_dirent_spec w dp p k n name :
  fs_inv sb w → dir_inv w dp p → 0 ≤ k ≤ dcount p → 0 ≤ n < 2 ^ 16 →
  let bn := DIRENT_SIZE * k / BSIZE in
  ∃ r w' p', writei sb (kernel_src (dirent_bytes n name)) dp (DIRENT_SIZE * k) DIRENT_SIZE w = Some (r, w') ∧
    fs_inv sb w' ∧ dir_inv w' dp p' ∧ others_blocks w p w' ∧ (∀ j, j ≠ dp → itable w' !! j = itable w !! j) ∧
    (r = DIRENT_SIZE ∧ dentries w' p' = dir_put (Z.to_nat k) (n, dirent_name name) (dentries w p) ∨
     r ≠ DIRENT_SIZE ∧ dentries w' p' = dentries w p ∧
       (k = dcount p ∧ size p = MAXFILE * BSIZE ∨ fblock w p bn = 0 ∧ full sb w')) ∧
    (k = dcount p ∧ (size p = MAXFILE * BSIZE ∨ fblock w p bn = 0 ∧ full sb w) → r ≠ DIRENT_SIZE).
Proof.
  intros Hinv Hd Hk Hn bn. destruct (dcount_size _ _ _ Hd) as [Hs Hc]. pose proof Hd as [Hf Hty Hmod]. pose proof (fv_size _ _ _ _ Hf) as Hsz.
  destruct (decide (DIRENT_SIZE * k + DIRENT_SIZE ≤ MAXFILE * BSIZE)) as [Hmax|Hmax].
  2:{ exists (-1), w, p.
      assert (k = dcount p ∧ size p = MAXFILE * BSIZE) as Hfull by (change (MAXFILE * BSIZE) with (16 * 17152) in *; unfold DIRENT_SIZE in *; lia).
      split_and!; [|done|done|by intros ??|done|right; by auto|done]. unfold writei.
      rewrite (bind_eq _ _ _ _ _ (the_ip_eq _ _ _ Hf)), u32_id by (change (MAXFILE * BSIZE) with (16 * 17152) in *; unfold DIRENT_SIZE in *; lia).
      rewrite (proj2 (Z.ltb_ge (size p) _)), (proj2 (Z.ltb_ge _ (DIRENT_SIZE * k))) by (unfold DIRENT_SIZE in *; lia).
      by rewrite (proj2 (Z.ltb_lt (MAXFILE * BSIZE) _)) by lia. }
  destruct (writei_bytes sb Hsb _ _ (kernel_src_ok (dirent_bytes n name)) w dp p (DIRENT_SIZE * k) DIRENT_SIZE)
    as (c & e & w' & p' & E & Hi' & Hf' & Hce & He & Hs' & Hm & Hb & Ho & Ht & [_ Hown] & Hw);
    [done|done|unfold DIRENT_SIZE in *; lia|done|done|].
  destruct Hw as [[<- Hstop]|(? & ? & ?)]; [|done].
  assert (type p' = T_DIR) as Hty' by (unfold same_meta in Hm; destruct_and!; congruence).
  assert (0 ≤ bn < MAXFILE) as Hbn by (apply bn_range; unfold DIRENT_SIZE in *; lia).
  assert (c = DIRENT_SIZE ∨ (c = 0 ∧ fblock w p bn = 0 ∧ full sb w')) as Hcc.
  { destruct (decide (fblock w p bn = 0)) as [Hb0|Hb0]; [|left; exact (write_dirent_room w dp p k _ _ _ Hinv Hd Hk Hmax Hb0 E)].
    destruct Hstop as [->|[Hfull [->|Hmod']]]; [by left|by right|]. destruct (decide (c = 0)) as [->|Hc0]; [by right|left].
    pose proof (Z.div_mod (DIRENT_SIZE * k + c) BSIZE ltac:(done)) as Hdm. unfold DIRENT_SIZE, BSIZE in *. lia. }
  exists c, w', p'. split_and!; [done|done| |done|done| |].
  - split; [done|done|]. rewrite Hs', Hs. destruct Hcc as [->|[-> _]].
    + replace (Z.max _ _) with (Z.max (dcount p) (k + 1) * DIRENT_SIZE) by (unfold DIRENT_SIZE; lia). by apply Z.mod_mul.
    + replace (Z.max _ _) with (dcount p * DIRENT_SIZE) by (unfold DIRENT_SIZE in *; lia). by apply Z.mod_mul.
  - destruct Hcc as [->|(-> & Hb0 & Hfull)]; [left|right]; (split; [done|]).
    + rewrite <-(mk_dentry_bytes n name Hn). by eapply dentries_written.
    + split; [|by right]. replace (Z.max _ _) with (size p) in Hs' by (unfold DIRENT_SIZE in *; lia).
      unfold dentries, dcount. rewrite Hs'. apply list_fmap_ext. intros i x Hx. apply lookup_seqZ in Hx as [-> Hi].
      rewrite (dentry_mk w p _ (λ b, fbyte w p (DIRENT_SIZE * (0 + Z.of_nat i) + b))) by done. apply dentry_mk. intros b Hb'.
      change (size p / DIRENT_SIZE) with (dcount p) in Hi. rewrite Hb by (unfold DIRENT_SIZE in *; lia).
      by rewrite decide_False by lia.
  - intros [Hkd [Hl|[Hb0 Hfull]]] ->; [unfold DIRENT_SIZE in *; lia|].
    assert (fblock w' p' bn ≠ 0) as Hne.
    { apply (fv_dense _ _ _ _ Hf'); [lia|]. unfold bn. pose proof (Z.div_mod (DIRENT_SIZE * k) BSIZE ltac:(done)).
      pose proof (Z.mod_pos_bound (DIRENT_SIZE * k) BSIZE ltac:(done)). unfold DIRENT_SIZE in *. lia. }
    destruct (Hown bn ltac:(lia) Hne) as [?|Hu]; [congruence|].
    pose proof (file_slot_range sb w' dp p' Hf' bn ltac:(lia) Hne) as Hr. pose proof (dstart_pos sb Hsb).
    rewrite Hfull in Hu by lia. done.
Qed.

(** ** The inode table *)

(** An entry that is not in use. *)
Definition room w : Prop := ∃ i q, itable w !! i = Some q ∧ ref q = 0.

Lemma iget_scan_spec tab i d n empty :
  match iget_scan tab i d n empty with
  | inl j => ∃ k q, j = (i + k)%nat ∧ tab !! k = Some q ∧ 0 < ref q ∧ dev q = d ∧ inum q = n
  | inr (Some j) => empty = Some j ∨ ∃ k q, j = (i + k)%nat ∧ tab !! k = Some q ∧ ref q = 0
  | inr None => empty = None ∧ ∀ k q, tab !! k = Some q → ref q ≠ 0
  end.
Proof.
  revert i empty; induction tab as [|p tab IH]; intros i empty; cbn [iget_scan].
  { destruct empty; [by left|done]. }
  destruct ((0 <? ref p) && (dev p =? d) && (inum p =? n)) eqn:E.
  { exists 0%nat, p. rewrite !andb_true_iff in E. split_and!; [lia|done|lia|lia|lia]. }
  set (empty' := match empty with None => if ref p =? 0 then Some i else None | _ => empty end).
  specialize (IH (S i) empty'). destruct (iget_scan tab (S i) d n empty') as [j|[j|]].
  - destruct IH as (k & q & -> & Hq & ?). exists (S k), q. split_and!; [lia|done|lia|lia|lia].
  - destruct IH as [E'|(k & q & -> & Hq & ?)].
    + unfold empty' in E'. destruct empty; [by left|]. destruct (ref p =? 0) eqn:Er; simplify_eq.
      right. exists 0%nat, p. split_and!; [lia|done|lia].
    + right. exists (S k), q. split_and!; [lia|done|done].
  - destruct IH as [E' Hno]. unfold empty' in E'. destruct empty; [done|]. destruct (ref p =? 0) eqn:Er; [done|].
    split; [done|]. intros [|k] q Hq; [simplify_eq/=; lia|by eapply Hno].
Qed.

(** [iget] takes another reference to the entry that has the inode, or makes
    one; the disk is not read. *)
Lemma iget_spec w d n :
  room w →
  ∃ i q0 q, iget d n w = Some (i, mkFsw (blk w) (<[i := q]> (itable w))) ∧ itable w !! i = Some q0 ∧
    dev q = d ∧ inum q = n ∧
    ((0 < ref q0 ∧ dev q0 = d ∧ inum q0 = n ∧ q = set_ref (ref q0 + 1) q0) ∨ (ref q0 = 0 ∧ ref q = 1 ∧ valid q = false)).
Proof.
  intros (i0 & qf & Hi0 & Hr0). unfold iget. rewrite (bind_eq _ _ _ (itable w) w) by done.
  pose proof (iget_scan_spec (itable w) 0 d n None) as Hs.
  destruct (iget_scan (itable w) 0 d n None) as [j|[j|]].
  - destruct Hs as (k & q & -> & Hq & Hr & Hd & Hn). cbn [Nat.add]. exists k, q, (set_ref (ref q + 1) q).
    split_and!; [|done|done|done|by left]. unfold upd_ip.
    by rewrite (bind_eq _ _ _ () (mkFsw (blk w) (<[k := set_ref (ref q + 1) q]> (itable w)))) by by rewrite Hq.
  - destruct Hs as [?|(k & q & -> & Hq & Hr)]; [done|]. cbn [Nat.add].
    set (q' := mkInode d n 1 (locked q) false (type q) (major q) (minor q) (nlink q) (size q) (addrs q)).
    exists k, q, q'. split_and!; [|done|done|done|by right]. unfold upd_ip.
    by rewrite (bind_eq _ _ _ () (mkFsw (blk w) (<[k := q']> (itable w)))) by by rewrite Hq.
  - destruct Hs as [_ Hno]. by destruct (Hno _ _ Hi0).
Qed.

(** A reference that was just taken is given back: nothing happens to inodes in use. *)
Lemma iget_iput w d n :
  room w → ∃ i w1 w2, iget d n w = Some (i, w1) ∧ iput sb i w1 = Some ((), w2) ∧ blk w2 = blk w ∧
    ∀ j q, itable w !! j = Some q → ref q ≠ 0 → itable w2 !! j = Some q.
Proof.
  intros Hroom. destruct (iget_spec w d n Hroom) as (i & q0 & q & E & Hi & _ & _ & Hq). pose proof (lookup_lt_Some _ _ _ Hi) as Hlt.
  eexists i, _, (mkFsw (blk w) (<[i := set_ref (ref q - 1) q]> (itable w))). split_and!; [exact E| |done|].
  - unfold iput, the_ip, upd_ip. set (w1 := mkFsw _ _). assert (itable w1 !! i = Some q) as H1 by by apply list_lookup_insert_eq.
    rewrite (bind_eq _ _ _ q w1) by by rewrite H1.
    assert ((ref q =? 1) && valid q && (nlink q =? 0) = false) as ->.
    { destruct Hq as [(Hr & _ & _ & ->)|(_ & _ & ->)]; [|by rewrite andb_false_r]. cbn [set_ref ref].
      by rewrite (proj2 (Z.eqb_neq _ 1)) by lia. }
    cbv zeta. cbn [when]. rewrite (bind_eq _ _ _ () w1) by done.
    rewrite (bind_eq _ _ _ () (mkFsw (blk w) (<[i := set_ref (ref q - 1) q]> (itable w)))); [done|].
    rewrite H1. by cbn [w1 blk itable]; rewrite list_insert_insert_eq.
  - intros j x Hj Hx. cbn [itable]. destruct (decide (j = i)) as [->|Hne]; [|by rewrite list_lookup_insert_ne].
    rewrite list_lookup_insert_eq by done. assert (x = q0) as -> by congruence. destruct Hq as [(_ & _ & _ & ->)|[? _]]; [|done].
    cbn [set_ref ref]. f_equal. rewrite Z.add_simpl_r. by destruct q0.
Qed.

Lemma dir_find_entry es name off n o :
  dir_find es name off = Some (n, o) →
  ∃ k e, o = off + DIRENT_SIZE * Z.of_nat k ∧ es !! k = Some e ∧ e.1 = n ∧ n ≠ 0 ∧ dname e.2 = dname name.
Proof.
  revert off; induction es as [|e es IH]; intros off; cbn [dir_find]; [done|]. case_decide as He.
  - intros [= <- <-]. destruct He. exists 0%nat, e. split_and!; [lia|done..].
  - intros H. destruct (IH _ H) as (k & e' & -> & ?). exists (S k), e'. split; [lia|done].
Qed.

Lemma dirlookup_eq w dp p name :
  fs_inv sb w → dir_inv w dp p →
  dirlookup sb dp name w =
    match dir_find (dentries w p) name 0 with
    | None => Some (None, w)
    | Some (n, off) => (ip ← iget (dev p) n; mret (Some (ip, off))) w
    end.
Proof.
  intros Hinv Hd. unfold dirlookup. rewrite (bind_eq _ _ _ _ _ (the_ip_eq _ _ _ (dv_file _ _ _ Hd))), (dv_type _ _ _ Hd).
  change (negb (T_DIR =? T_DIR)) with false. cbn iota. destruct (dcount_size _ _ _ Hd) as [_ Hc].
  pose proof (dirlookup_loop_spec _ w dp p name 0 Hinv Hd ltac:(lia) (fuel_enough _ _ _ Hd)) as El.
  rewrite Z.mul_0_r in El. rewrite (bind_eq _ _ _ _ _ El), drop_0. by destruct (dir_find _ _ _) as [[n off]|].
Qed.

(** [dirlookup] of a directory returns nothing when no entry in use has the
    name, up to 14 bytes; otherwise it returns the offset of an entry that has
    it and a new reference to the inode of the first such entry, found or made
    in the inode table. The disk is not changed. *)
Theorem dirlookup_finds w dp p name :
  fs_inv sb w → dir_inv w dp p → room w →
  match dir_lookup (dentries w p) name with
  | None => dirlookup sb dp name w = Some (None, w)
  | Some n => ∃ ip off q0 q e, dirlookup sb dp name w = Some (Some (ip, off), mkFsw (blk w) (<[ip := q]> (itable w))) ∧
      dentries w p !! Z.to_nat (off / DIRENT_SIZE) = Some (n, e) ∧ n ≠ 0 ∧ dname e = dname name ∧
      itable w !! ip = Some q0 ∧ dev q = dev p ∧ inum q = n ∧ ref q = ref q0 + 1 ∧
      (ref q0 ≠ 0 → q = set_ref (ref q) q0) ∧ (ref q0 = 0 → valid q = false)
  end.
Proof.
  intros Hinv Hd Hroom. pose proof (dirlookup_eq w dp p name Hinv Hd) as E.
  unfold dir_lookup. destruct (dir_find (dentries w p) name 0) as [[n off]|] eqn:Ef; cbn [fmap option_fmap option_map fst]; [|done].
  destruct (dir_find_entry _ _ _ _ _ Ef) as (k & [n' e] & -> & He & ? & Hn & Hnm). cbn [fst snd] in *. subst n'.
  destruct (iget_spec w (dev p) n Hroom) as (i & q0 & q & Eg & Hi & Hdev & Hinum & Hq).
  exists i, (0 + DIRENT_SIZE * Z.of_nat k), q0, q, e. rewrite E, (bind_eq _ _ _ _ _ Eg). split_and!; try done.
  - rewrite Z.add_0_l, (Z.mul_comm DIRENT_SIZE), Z.div_mul by done. by rewrite Nat2Z.id.
  - destruct Hq as [(? & _ & _ & ->)|(-> & -> & _)]; [done|lia].
  - intros Hr. destruct Hq as [(_ & _ & _ & ->)|(? & _ & _)]; [|done]. done.
  - intros Hr. destruct Hq as [(? & _)|(_ & _ & ?)]; [lia|done].
Qed.

Lemma dir_inv_blk w dp p w' :
  blk w' = blk w → itable w' !! dp = itable w !! dp → fs_inv sb w → dir_inv w dp p →
  fs_inv sb w' ∧ dir_inv w' dp p ∧ dentries w' p = dentries w p ∧ others_blocks w p w'.
Proof.
  intros Eb Ei [H1 H2] [[Hip Hlen Hslot Hinj Hdense Hsize Hinum] Ht Hm]. destruct w as [b it], w' as [b' it']. cbn [blk itable] in *. subst b'.
  split_and!; [by split| |done|by intros a _ Hu _]. split; [|done|done]. split; try done. cbn [itable]. by rewrite Ei.
Qed.

(** C21: [dirlink] adds an entry to the finite map of a directory. It returns 0
    and the new entry has taken the first unused place, or the place
    after the last one if all are used: the name (up to 14 bytes) now means the inode number and every other
    name what it meant. Or it returns -1 and no entry has changed. It is -1 if
    the name was there already, or if no entry is unused and the directory has
    the largest size or needs another block on a full disk; and it is -1
    only in these cases, where the disk may also have become full by allocating the
    indirect block. So an unused entry is always reused, however full the disk.
    Inodes in use and the blocks of other files stay as they are. *)
Theorem dirlink_adds_name w dp p name n :
  fs_inv sb w → dir_inv w dp p → ref p ≠ 0 → room w → 0 < n < 2 ^ 16 →
  let es := dentries w p in
  let k := first_free es in
  let bn := DIRENT_SIZE * Z.of_nat k / BSIZE in
  ∃ r w' p', dirlink sb dp name n w = Some (r, w') ∧ fs_inv sb w' ∧ dir_inv w' dp p' ∧
    (r = 0 ∨ r = -1) ∧
    dentries w' p' = (if decide (r = 0) then dir_put k (n, dirent_name name) es else es) ∧
    (∀ m, dir_lookup (dentries w' p') m =
       if decide (r = 0 ∧ dname name = dname m) then Some n else dir_lookup es m) ∧
    (is_Some (dir_lookup es name) ∨
       k = length es ∧ (size p = MAXFILE * BSIZE ∨ fblock w p bn = 0 ∧ full sb w) → r = -1) ∧
    (r = -1 → is_Some (dir_lookup es name) ∨
       k = length es ∧ (size p = MAXFILE * BSIZE ∨ fblock w p bn = 0 ∧ full sb w')) ∧
    others_blocks w p w' ∧ ∀ j q, j ≠ dp → itable w !! j = Some q → ref q ≠ 0 → itable w' !! j = Some q.
Proof.
  intros Hinv Hd Hrp Hroom Hn es k bn. pose proof (dirlookup_eq w dp p name Hinv Hd) as El. unfold dirlink.
  pose proof (fv_ip _ _ _ _ (dv_file _ _ _ Hd)) as Hip. destruct (dcount_size _ _ _ Hd) as [Hsz Hc].
  assert (length es = Z.to_nat (dcount p)) as Hlen by apply dentries_length.
  fold es in El. unfold dir_lookup at 3 4. destruct (dir_find es name 0) as [[n0 off]|] eqn:Ef.
  - destruct (iget_iput w (dev p) n0 Hroom) as (i & w1 & w2 & Eg & Ep & Eb & Ht).
    rewrite (bind_eq _ _ _ (Some (i, off)) w1) by by rewrite El, (bind_eq _ _ _ _ _ Eg).
    rewrite (bind_eq _ _ _ _ _ Ep). exists (-1), w2, p.
    destruct (dir_inv_blk w dp p w2 Eb) as (Hi2 & Hd2 & Ee & Ho); [by rewrite Hip; apply Ht|done|done|].
    split_and!; [done|done|done|by right|done| |done|by left|done|by intros j q _; apply Ht].
    intros m. rewrite Ee, decide_False; [done|by intros [? _]].
  - rewrite (bind_eq _ _ _ _ _ El), (bind_eq _ _ _ _ _ (the_ip_eq _ _ _ (dv_file _ _ _ Hd))).
    rewrite (bind_eq _ _ _ _ _ (find_empty_first w dp p Hinv Hd)). fold es k.
    pose proof (first_free_range w p : (k ≤ length es)%nat) as Hk.
    destruct (write_dirent_spec w dp p (Z.of_nat k) n name Hinv Hd ltac:(lia) ltac:(lia)) as (r & w' & p' & Ew & Hi' & Hd' & Ho & Ht & Hr & Hr').
    fold bn in Hr, Hr'. rewrite (bind_eq _ _ _ _ _ Ew). rewrite Nat2Z.id in Hr. fold es in Hr.
    destruct Hr as [[-> Hes]|(Hne & Hes & Hwhy)]; rewrite ?Z.eqb_refl, ?(proj2 (Z.eqb_neq _ _) Hne);
      [exists 0, w', p'|exists (-1), w', p'];
      (split_and!; [done|done|done|by auto|done| | |try done|done|intros j q Hj; by rewrite Ht]).
    + intros m. rewrite Hes, dir_lookup_put.
      * cbn [fst snd]. rewrite dname_dirent. destruct (decide (dname name = dname m)); [by rewrite decide_True|].
        rewrite decide_False; [done|by intros [_ ?]].
      * done.
      * intros e'. by apply first_free_free.
      * cbn [fst]. lia.
      * cbn [snd]. rewrite (dir_lookup_dname _ _ name) by apply dname_dirent. unfold dir_lookup. by rewrite Ef.
    + intros [[? ?]|[Hkl Hfull]]; [done|]. destruct Hr'; [|done]. split; [lia|done].
    + intros m. rewrite Hes, decide_False; [done|by intros [? _]].
    + done.
    + intros _. right. destruct Hwhy as [[Hkd Hmax]|[Hb0 Hfull]]; [split; [lia|by left]|]. split; [|by right].
      destruct (decide (k = length es)) as [|Hne']; [done|]. exfalso. revert Hb0. unfold bn.
      pose proof (Z.div_mod (DIRENT_SIZE * Z.of_nat k) BSIZE ltac:(done)).
      pose proof (Z.mod_pos_bound (DIRENT_SIZE * Z.of_nat k) BSIZE ltac:(done)).
      apply (fv_dense _ _ _ _ (dv_file _ _ _ Hd)); [apply Z.div_pos; [unfold DIRENT_SIZE; lia|done]|]. unfold DIRENT_SIZE in *. lia.
Qed.
End dir.

(** ** Witnesses *)

(** A directory with the entries [.] and [hi] and an unused one between them. *)
Definition demo_dirdata : list Z :=
  put 0 (dirent_bytes 3 [46] ++ dirent_bytes 0 [] ++ dirent_bytes 7 [104; 105]) zeros.
Definition demo_root : inode := mkInode 1 3 1 true true T_DIR 0 0 1 48 (5 :: replicate 12 0).
Definition demo_unused : inode := mkInode 0 0 0 false false 0 0 0 0 0 (replicate 13 0).
Definition demo_dirfs : fsw := mkFsw (<[5 := demo_dirdata]> demo_blocks) [demo_root; demo_unused; demo_unused].

Lemma demo_dirfs_inv : fs_inv demo_sb demo_dirfs.
Proof.
  destruct (set_data demo_sb demo_layout demo_fs 0 demo_inode 0 demo_dirdata) as ([H1 H2] & _);
    [exact demo_fs_inv|exact demo_file|fslia|done|by vm_compute|]. by split.
Qed.

Lemma demo_root_dir : dir_inv demo_sb demo_dirfs 0 demo_root.
Proof.
  assert (∀ j, 0 ≤ j ≤ MAXFILE → fblock demo_dirfs demo_root j = if decide (j = 0) then 5 else 0) as Hfb.
  { intros j Hj. rewrite <-demo_fblock by done. reflexivity. }
  split; [|done|done]. split; try done.
  - intros j Hj. rewrite Hfb by done. case_decide; [|done]. intros _. by vm_compute.
  - intros i j Hi Hj. rewrite !Hfb by done. by repeat case_decide; subst.
  - intros i Hi Hlt. cbn [demo_root size] in Hlt. unfold BSIZE in Hlt. assert (i = 0) as -> by lia. by vm_compute.
Qed.

Lemma demo_room : room demo_dirfs.
Proof. by exists 1%nat, demo_unused. Qed.

Example demo_dirlookup :
  dir_lookup (dentries demo_dirfs demo_root) [104; 105] = Some 7 ∧ dir_lookup (dentries demo_dirfs demo_root) [104] = None ∧
  fst <$> dirlookup demo_sb 0 [104; 105] demo_dirfs = Some (Some (1%nat, 32)).
Proof. by vm_compute. Qed.

(** A new entry takes the unused place, a second one with the same name is refused. *)
Example demo_dirlink :
  fst <$> (r ← dirlink demo_sb 0 [104] 9; s ← dirlink demo_sb 0 [104] 10; o ← dirlookup demo_sb 0 [104]; mret (r, s, o)) demo_dirfs =
  Some (0, -1, Some (1%nat, 16)).
Proof. by vm_compute. Qed.

Lemma dirlookup_finds_witness :
  match dir_lookup (dentries demo_dirfs demo_root) [104; 105] with
  | None => dirlookup demo_sb 0 [104; 105] demo_dirfs = Some (None, demo_dirfs)
  | Some n => ∃ ip off q0 q e,
      dirlookup demo_sb 0 [104; 105] demo_dirfs = Some (Some (ip, off), mkFsw (blk demo_dirfs) (<[ip := q]> (itable demo_dirfs))) ∧
      dentries demo_dirfs demo_root !! Z.to_nat (off / DIRENT_SIZE) = Some (n, e) ∧ n ≠ 0 ∧ dname e = dname [104; 105] ∧
      itable demo_dirfs !! ip = Some q0 ∧ dev q = dev demo_root ∧ inum q = n ∧ ref q = ref q0 + 1 ∧
      (ref q0 ≠ 0 → q = set_ref (ref q) q0) ∧ (ref q0 = 0 → valid q = false)
  end.
Proof.
  apply (dirlookup_finds demo_sb demo_layout demo_dirfs 0 demo_root [104; 105]);
    [exact demo_dirfs_inv|exact demo_root_dir|exact demo_room].
Defined.

Lemma dirlink_adds_name_witness :
  ∃ r w' p', dirlink demo_sb 0 [104] 9 demo_dirfs = Some (r, w') ∧ r = 0 ∧ fs_inv demo_sb w' ∧ dir_inv demo_sb w' 0 p' ∧
    dentries w' p' = [(3, dirent_name [46]); (9, dirent_name [104]); (7, dirent_name [104; 105])].
Proof.
  destruct (dirlink_adds_name demo_sb demo_layout demo_dirfs 0 demo_root [104] 9)
    as (r & w' & p' & E & Hi & Hd & Hr & Hes & _ & _ & Hwhy & _);
    [exact demo_dirfs_inv|exact demo_root_dir|done|exact demo_room|done|].
  assert (r = 0) as ->.
  { destruct Hr as [->| ->]; [done|]. exfalso. destruct (Hwhy eq_refl) as [[x Hx]|[Hk _]]; [by vm_compute in Hx|by vm_compute in Hk]. }
  exists 0, w', p'. split_and!; [exact E|done|exact Hi|exact Hd|]. rewrite Hes. by vm_compute.
Defined.
