(* ===== verification/SysFs.v ===== *)
(** What the system calls on paths do in the file system: the part of
    [xv6/kernel/sysfile.c] between [begin_op] and [end_op].

    Every way out of such a call ends its transaction, so that the definitions
    here, which leave out [begin_op] and [end_op], are called between the two. *)
From S2P Require Import Prelude Fs FsBlock FsFile FsRw FsDir.

Definition T_FILE : Z := 2.
Definition T_DEVICE : Z := 3.
Definition NLINK_MAX : Z := 32767.
Definition dot : list Z := [46].
Definition dotdot : list Z := [46; 46].

(** [ip->nlink], a short, and the device numbers. *)
Definition set_nlink v p := mkInode (dev p) (inum p) (ref p) (locked p) (valid p) (type p) (major p) (minor p) (swrap 16 v) (size p) (addrs p).
Definition set_numbers ma mi p := mkInode (dev p) (inum p) (ref p) (locked p) (valid p) (type p) ma mi (nlink p) (size p) (addrs p).

Section code.
Context (sb : superblock).

(** [sys_link] from [nameiparent] to [bad]: was the name added? *)
Definition link_name (cwd ip : nat) (new : list Z) : fs bool :=
  o ← nameiparent sb cwd new;
  match o with
  | None => mret false
  | Some (dp, name) =>
    ilock sb dp;;
    d ← the_ip dp;
    if nlink d =? 0 then iunlockput sb dp;; mret false
    else
      p ← the_ip ip;
      r ← (if negb (dev d =? dev p) then mret (-1) else dirlink sb dp name (inum p));
      iunlockput sb dp;;
      mret (negb (r <? 0))
  end.
Definition link (cwd : nat) (old new : list Z) : fs Z :=
  o ← namei sb cwd old;
  match o with
  | None => mret (-1)
  | Some (ip, _) =>
    ilock sb ip;;
    p ← the_ip ip;
    if type p =? T_DIR then iunlockput sb ip;; mret (-1)
    else if NLINK_MAX <=? nlink p then iunlockput sb ip;; mret (-1)
    else
      upd_ip ip (λ p, set_nlink (nlink p + 1) p);;
      iupdate sb ip;;
      iunlock ip;;
      ok ← link_name cwd ip new;
      if ok : bool then iput sb ip;; mret 0
      else
        ilock sb ip;;
        upd_ip ip (λ p, set_nlink (nlink p - 1) p);;
        iupdate sb ip;;
        iunlockput sb ip;;
        mret (-1)
  end.

(** The loop of [isdirempty]. *)
Fixpoint isdirempty_loop (fuel : nat) (dp : nat) (off : Z) : fs bool :=
  match fuel with
  | O => stuck
  | S fuel =>
    p ← the_ip dp;
    if off <? size p then
      de ← read_dirent sb dp off;
      if negb (de.1 =? 0) then mret false else isdirempty_loop fuel dp (off + DIRENT_SIZE)
    else mret true
  end.
Definition isdirempty (dp : nat) : fs bool :=
  p ← the_ip dp; isdirempty_loop (S (Z.to_nat (size p / DIRENT_SIZE + 1))) dp (2 * DIRENT_SIZE).

Definition unlink (cwd : nat) (path : list Z) : fs Z :=
  o ← nameiparent sb cwd path;
  match o with
  | None => mret (-1)
  | Some (dp, name) =>
    ilock sb dp;;
    if namecmp name dot || namecmp name dotdot then iunlockput sb dp;; mret (-1)
    else
      o ← dirlookup sb dp name;
      match o with
      | None => iunlockput sb dp;; mret (-1)
      | Some (ip, off) =>
        ilock sb ip;;
        p ← the_ip ip;
        if nlink p <? 1 then stuck
        else
          e ← (if type p =? T_DIR then isdirempty ip else mret true);
          if negb e then iunlockput sb ip;; iunlockput sb dp;; mret (-1)
          else
            r ← writei sb (kernel_src (replicate (Z.to_nat DIRENT_SIZE) 0)) dp off DIRENT_SIZE;
            if negb (r =? DIRENT_SIZE) then stuck
            else
              when (type p =? T_DIR) (upd_ip dp (λ d, set_nlink (nlink d - 1) d);; iupdate sb dp);;
              iunlockput sb dp;;
              upd_ip ip (λ p, set_nlink (nlink p - 1) p);;
              iupdate sb ip;;
              iunlockput sb ip;;
              mret 0
      end
  end.

(** [create] once the name is known to be new and its inode [ip] is allocated
    and locked: the entries, or [fail]. *)
Definition create_new (dp ip : nat) (name : list Z) (ty ma mi : Z) : fs (option nat) :=
  upd_ip ip (set_numbers ma mi);;
  upd_ip ip (set_nlink 1);;
  iupdate sb ip;;
  p ← the_ip ip;
  d ← the_ip dp;
  ok ← (if ty =? T_DIR then
          r ← dirlink sb ip dot (inum p);
          if r <? 0 then mret false
          else r ← dirlink sb ip dotdot (inum d); mret (negb (r <? 0))
        else mret true);
  ok ← (if ok : bool then r ← dirlink sb dp name (inum p); mret (negb (r <? 0)) else mret false);
  if ok : bool then
    when (ty =? T_DIR) (upd_ip dp (λ d, set_nlink (nlink d + 1) d);; iupdate sb dp);;
    iunlockput sb dp;;
    mret (Some ip)
  else
    upd_ip ip (set_nlink 0);;
    iupdate sb ip;;
    iunlockput sb ip;;
    iunlockput sb dp;;
    mret None.
Definition create (cwd : nat) (path : list Z) (ty ma mi : Z) : fs (option nat) :=
  o ← nameiparent sb cwd path;
  match o with
  | None => mret None
  | Some (dp, name) =>
    ilock sb dp;;
    d ← the_ip dp;
    if nlink d =? 0 then iunlockput sb dp;; mret None
    else if (ty =? T_DIR) && (NLINK_MAX <=? nlink d) then iunlockput sb dp;; mret None
    else
      o ← dirlookup sb dp name;
      match o with
      | Some (ip, _) =>
        iunlockput sb dp;;
        ilock sb ip;;
        p ← the_ip ip;
        if (ty =? T_FILE) && ((type p =? T_FILE) || (type p =? T_DEVICE)) then mret (Some ip)
        else iunlockput sb ip;; mret None
      | None =>
        o ← ialloc sb (dev d) ty;
        match o with
        | None => iunlockput sb dp;; mret None
        | Some ip => ilock sb ip;; create_new dp ip name ty ma mi
        end
      end
  end.

(** [sys_open] until a file is allocated: the inode, locked. *)
Definition O_CREATE : Z := 0x200.
Definition NDEV : Z := 10.
Definition open_inode (cwd : nat) (path : list Z) (omode : Z) : fs (option nat) :=
  o ← (if negb (Z.land omode O_CREATE =? 0) then create cwd path T_FILE 0 0
       else
         o ← namei sb cwd path;
         match o with
         | None => mret None
         | Some (ip, _) =>
           ilock sb ip;;
           p ← the_ip ip;
           if (type p =? T_DIR) && negb (omode =? 0) then iunlockput sb ip;; mret None
           else mret (Some ip)
         end);
  match o with
  | None => mret None
  | Some ip =>
    p ← the_ip ip;
    if (type p =? T_DEVICE) && ((major p <? 0) || (NDEV <=? major p)) then iunlockput sb ip;; mret None
    else mret (Some ip)
  end.

(** [sys_mkdir] and [sys_mknod]. *)
Definition make (cwd : nat) (path : list Z) (ty ma mi : Z) : fs Z :=
  o ← create cwd path ty ma mi;
  match o with None => mret (-1) | Some ip => iunlockput sb ip;; mret 0 end.

(** [sys_chdir]: the directory that is current afterwards, if it changes. *)
Definition chdir (cwd : nat) (path : list Z) : fs (option nat) :=
  o ← namei sb cwd path;
  match o with
  | None => mret None
  | Some (ip, _) =>
    ilock sb ip;;
    p ← the_ip ip;
    if negb (type p =? T_DIR) then iunlockput sb ip;; mret None
    else iunlock ip;; iput sb cwd;; mret (Some ip)
  end.
End code.
