(* ===== verification/FsRef.v ===== *)
(** References to inodes and their locks: what the calls of [fs.c] and of
    [sysfile.c] take and give back.

    A pointer to an inode counts as a reference, which [iget] and [idup] give
    and [iput] takes. A specification has the references and locks that a call
    takes and those it gives; what others hold stays theirs, and an inode to
    which others refer stays the same inode. *)
From stdpp Require Import gmultiset.
From S2P Require Import Prelude Fs FsBlock FsFile FsRw FsDir SysFs.

(** ** Resources *)

(** [inl i] is a reference to entry [i] of the inode table, [inr i] its lock. *)
Abbreviation held := (@gmultiset (nat + nat) _ sum_countable).
Definition rf (i : nat) : held := {[+ inl i +]}.
Definition lk (i : nat) : held := {[+ inr i +]}.
Definition opt_rf {A} (f : A → nat) (o : option A) : held := match o with Some a => rf (f a) | None => ∅ end.

(** The inode table has the references and locks of [X], and no others. *)
Definition owns (w : fsw) (X : held) : Prop := ∀ i,
  match itable w !! i with
  | Some p => ref p = Z.of_nat (multiplicity (inl i) X) ∧ multiplicity (inr i) X = (if locked p then 1 else 0)%nat
  | None => multiplicity (inl i) X = 0%nat ∧ multiplicity (inr i) X = 0%nat
  end.
(** The entries to which [F] refers are those of the same inodes. *)
Definition same_inodes (F : held) (w w' : fsw) : Prop := ∀ i p,
  inl i ∈ F → itable w !! i = Some p → ∃ p', itable w' !! i = Some p' ∧ dev p' = dev p ∧ inum p' = inum p.

Definition spec {A} (P : held) (m : fs A) (Q : A → held) : Prop := ∀ F w a w',
  owns w (P ⊎ F) → m w = Some (a, w') → owns w' (Q a ⊎ F) ∧ same_inodes F w w'.

Lemma same_inodes_refl F w : same_inodes F w w.
Proof. intros i p _ Hp. eauto. Qed.
Lemma same_inodes_trans F w1 w2 w3 : same_inodes F w1 w2 → same_inodes F w2 w3 → same_inodes F w1 w3.
Proof. intros H1 H2 i p Hi Hp. destruct (H1 i p Hi Hp) as (q & Hq & E1 & E2). destruct (H2 i q Hi Hq) as (r & Hr & E3 & E4). exists r. split; [done|]. split; congruence. Qed.
Lemma same_inodes_mono F F' w w' : F' ⊆ F → same_inodes F w w' → same_inodes F' w w'.
Proof. intros Hs H i p Hi. apply H. multiset_solver. Qed.

Lemma spec_ret {A} (Q : A → held) a : spec (Q a) (mret a) Q.
Proof. intros F w a' w' Ho [= <- <-]. split; [done|apply same_inodes_refl]. Qed.
Lemma spec_stuck {A} P (Q : A → held) : spec P stuck Q.
Proof. by intros F w a' w' Ho ?. Qed.
Lemma spec_bind {A B} P (m : fs A) R (f : A → fs B) Q : spec P m R → (∀ a, spec (R a) (f a) Q) → spec P (m ≫= f) Q.
Proof.
  intros Hm Hf F w b w' Ho (a & w1 & E1 & E2)%bind_Some. destruct (Hm F w a w1 Ho E1) as [Ho1 Hs1]. destruct (Hf a F w1 b w' Ho1 E2) as [Ho2 Hs2].
  split; [done|by eapply same_inodes_trans].
Qed.
Lemma spec_frame {A} X P (m : fs A) Q P' (Q' : A → held) :
  spec P m Q → P' = P ⊎ X → (∀ a, Q' a = Q a ⊎ X) → spec P' m Q'.
Proof.
  intros Hm -> EQ F w a w' Ho E. rewrite EQ. destruct (Hm (X ⊎ F) w a w') as [Ho' Hs]; [by rewrite (assoc_L _ P)|done|].
  split; [by rewrite <-(assoc_L _ (Q a))|]. eapply same_inodes_mono; [|done]. multiset_solver.
Qed.

(** A call that takes and gives nothing, before others. *)
Lemma spec_quiet {A B} P (m : fs A) (f : A → fs B) Q : spec ∅ m (λ _, ∅) → (∀ a, spec P (f a) Q) → spec P (m ≫= f) Q.
Proof. intros Hm Hf. apply (spec_bind P m (λ _, P)); [|done]. eapply (spec_frame P); [exact Hm|multiset_solver|multiset_solver]. Qed.

(** ** Calls that change no reference and no lock *)

Definition signature (p : inode) : Z * bool * Z * Z := (ref p, locked p, dev p, inum p).
Definition quiet {A} (m : fs A) : Prop := ∀ T, preserves (λ w, signature <$> itable w = T) m.

Lemma quiet_spec {A} (m : fs A) : quiet m → spec ∅ m (λ _, ∅).
Proof.
  intros Hq F w a w' Ho E. pose proof (Hq _ w a w' eq_refl E) as Es. assert (∀ i, signature <$> itable w' !! i = signature <$> itable w !! i) as Hi.
  { intros i. by rewrite <-!list_lookup_fmap, Es. }
  split.
  - intros i. specialize (Hi i). specialize (Ho i). destruct (itable w !! i), (itable w' !! i); try done. injection Hi as -> -> _ _. done.
  - intros i p _ Hp. specialize (Hi i). rewrite Hp in Hi. destruct (itable w' !! i) as [p'|]; [|done]. injection Hi as _ _ E1 E2. eauto.
Qed.

Lemma q_block_at b : quiet (block_at b).
Proof. intros T w a w' Hw. unfold block_at. destruct (blk w !! b); [|done]. by intros [= _ <-]. Qed.
Lemma q_write_block b d : quiet (write_block b d).
Proof. intros T w a w' Hw. unfold write_block. destruct (blk w !! b); [|done]. by intros [= _ <-]. Qed.
Lemma q_the_ip ip : quiet (the_ip ip).
Proof. intros T w a w' Hw. unfold the_ip. destruct (itable w !! ip); [|done]. by intros [= _ <-]. Qed.
Lemma q_upd_ip ip f : (∀ p, signature (f p) = signature p) → quiet (upd_ip ip f).
Proof.
  intros Hf T w a w' Hw. unfold upd_ip. destruct (itable w !! ip) as [p|] eqn:E; [|done]. intros [= _ <-]. cbn [itable]. rewrite <-Hw, list_fmap_insert, Hf.
  apply list_insert_id. by rewrite list_lookup_fmap, E.
Qed.
Lemma q_bind {A B} (m : fs A) (f : A → fs B) : quiet m → (∀ a, quiet (f a)) → quiet (m ≫= f).
Proof. intros Hm Hf T. apply preserves_bind; [apply Hm|intros a; apply Hf]. Qed.
Lemma q_ret {A} (a : A) : quiet (mret a).
Proof. intros T. apply preserves_ret. Qed.
Lemma q_stuck {A} : quiet (stuck (A := A)).
Proof. intros T. apply preserves_stuck. Qed.
Lemma q_when b m : quiet m → quiet (when b m).
Proof. intros Hm. destruct b; [apply Hm|apply q_ret]. Qed.
Lemma q_mfor {A} (xs : list A) body : (∀ x, quiet (body x)) → quiet (mfor xs body).
Proof. intros Hb T. apply preserves_mfor. intros x. apply Hb. Qed.

Create HintDb fsref.
#[export] Hint Resolve q_block_at q_write_block q_the_ip : fsref.
#[export] Hint Extern 1 (quiet (upd_ip _ _)) => apply q_upd_ip; done : fsref.

(** Split a [quiet] goal along the program text. *)
Ltac be_quiet :=
  repeat match goal with
    | |- quiet (let _ := _ in _) => cbv zeta
    | |- quiet (mbind _ _) => apply q_bind; [|intros ?]
    | |- quiet (mret _) => apply q_ret
    | |- quiet stuck => apply q_stuck
    | |- quiet (when _ _) => apply q_when
    | |- quiet (mfor _ _) => apply q_mfor; intros ?
    | |- quiet (match ?x with _ => _ end) => destruct x
    | |- quiet _ => solve [auto with fsref nocore]
    end.

Section quiet_calls.
Context (sb : superblock).

Lemma q_bzero b : quiet (bzero b).
Proof. unfold bzero. be_quiet. Qed.
#[local] Hint Resolve q_bzero : fsref.
Lemma q_balloc : quiet (balloc sb).
Proof.
  unfold balloc. generalize 0 at 1. induction (S _) as [|fuel IH]; intros b; cbn [balloc_loop]; be_quiet.
Qed.
Lemma q_bfree b : quiet (bfree sb b).
Proof. unfold bfree. be_quiet. Qed.
#[local] Hint Resolve q_balloc q_bfree : fsref.
Lemma q_iupdate ip : quiet (iupdate sb ip).
Proof. unfold iupdate. be_quiet. Qed.
Lemma q_ifree n : quiet (ifree sb n).
Proof. unfold ifree. be_quiet. Qed.
Lemma q_bmap_slot ip i : quiet (bmap_slot sb ip i).
Proof. unfold bmap_slot. be_quiet. Qed.
#[local] Hint Resolve q_iupdate q_ifree q_bmap_slot : fsref.
Lemma q_bmap ip bn : quiet (bmap sb ip bn).
Proof. unfold bmap. be_quiet. Qed.
Lemma q_itrunc ip : quiet (itrunc sb ip).
Proof. unfold itrunc. be_quiet. Qed.
#[local] Hint Resolve q_bmap q_itrunc : fsref.
Lemma q_readi_loop ec fuel ip off tot n acc : quiet (readi_loop sb ec fuel ip off tot n acc).
Proof. revert off tot acc; induction fuel as [|fuel IH]; intros off tot acc; cbn [readi_loop]; be_quiet. Qed.
Lemma q_writei_loop ec fuel ip off tot n : quiet (writei_loop sb ec fuel ip off tot n).
Proof. revert off tot; induction fuel as [|fuel IH]; intros off tot; cbn [writei_loop]; be_quiet. Qed.
#[local] Hint Resolve q_readi_loop q_writei_loop : fsref.
Lemma q_readi ec ip off n : quiet (readi sb ec ip off n).
Proof. unfold readi. be_quiet. Qed.
Lemma q_writei ec ip off n : quiet (writei sb ec ip off n).
Proof. unfold writei. be_quiet. Qed.
#[local] Hint Resolve q_readi q_writei : fsref.
Lemma q_read_dirent dp off : quiet (read_dirent sb dp off).
Proof. unfold read_dirent. be_quiet. Qed.
#[local] Hint Resolve q_read_dirent : fsref.
Lemma q_dirlookup_loop fuel dp name off : quiet (dirlookup_loop sb fuel dp name off).
Proof. revert off; induction fuel as [|fuel IH]; intros off; cbn [dirlookup_loop]; be_quiet. Qed.
Lemma q_find_empty fuel dp off : quiet (find_empty sb fuel dp off).
Proof. revert off; induction fuel as [|fuel IH]; intros off; cbn [find_empty]; be_quiet. Qed.
Lemma q_isdirempty_loop fuel dp off : quiet (isdirempty_loop sb fuel dp off).
Proof. revert off; induction fuel as [|fuel IH]; intros off; cbn [isdirempty_loop]; be_quiet. Qed.
#[local] Hint Resolve q_isdirempty_loop : fsref.
Lemma q_isdirempty dp : quiet (isdirempty sb dp).
Proof. unfold isdirempty. be_quiet. Qed.
End quiet_calls.
#[export] Hint Resolve q_bzero q_balloc q_bfree q_iupdate q_ifree q_bmap_slot q_bmap q_itrunc q_readi q_writei
  q_read_dirent q_dirlookup_loop q_find_empty q_isdirempty : fsref.

(** ** References and locks *)

Lemma mult_rf_l i j : multiplicity (inl j) (rf i) = (if decide (j = i) then 1 else 0)%nat.
Proof. unfold rf. rewrite multiplicity_singleton. repeat case_decide; naive_solver. Qed.
Lemma mult_rf_r i j : multiplicity (inr j) (rf i) = 0%nat.
Proof. unfold rf. rewrite multiplicity_singleton. by case_decide. Qed.
Lemma mult_lk_r i j : multiplicity (inr j) (lk i) = (if decide (j = i) then 1 else 0)%nat.
Proof. unfold lk. rewrite multiplicity_singleton. repeat case_decide; naive_solver. Qed.
Lemma mult_lk_l i j : multiplicity (inl j) (lk i) = 0%nat.
Proof. unfold lk. rewrite multiplicity_singleton. by case_decide. Qed.

(** A change of one entry. *)
Lemma owns_upd w b X X' i p p' :
  owns w X → itable w !! i = Some p → ref p' = Z.of_nat (multiplicity (inl i) X') →
  multiplicity (inr i) X' = (if locked p' then 1 else 0)%nat →
  (∀ j, j ≠ i → multiplicity (inl j) X' = multiplicity (inl j) X ∧ multiplicity (inr j) X' = multiplicity (inr j) X) →
  owns (mkFsw b (<[i := p']> (itable w))) X'.
Proof.
  intros Ho Hi Hr Hl Hj j. cbn [itable]. destruct (decide (j = i)) as [->|Hne].
  - rewrite list_lookup_insert_eq by (by eapply lookup_lt_Some). done.
  - rewrite list_lookup_insert_ne by done. specialize (Ho j). destruct (Hj j Hne) as [-> ->]. done.
Qed.
Lemma same_inodes_insert F w b i p p' :
  itable w !! i = Some p → (inl i ∈ F → dev p' = dev p ∧ inum p' = inum p) → same_inodes F w (mkFsw b (<[i := p']> (itable w))).
Proof.
  intros Hi Hp j q Hj Hq. cbn [itable]. destruct (decide (j = i)) as [->|Hne].
  - rewrite list_lookup_insert_eq by (by eapply lookup_lt_Some). exists p'. assert (q = p) as -> by congruence. auto.
  - rewrite list_lookup_insert_ne by done. eauto.
Qed.

(** Multiplicities in the goal and in [owns]. *)
Ltac count :=
  rewrite ?multiplicity_disj_union, ?mult_rf_l, ?mult_rf_r, ?mult_lk_l, ?mult_lk_r, ?multiplicity_empty in *;
  repeat case_decide; try done; try lia.

Lemma spec_upd P Q ip f :
  (∀ F w p, owns w (P ⊎ F) → itable w !! ip = Some p →
     ref (f p) = Z.of_nat (multiplicity (inl ip) (Q ⊎ F)) ∧ multiplicity (inr ip) (Q ⊎ F) = (if locked (f p) then 1 else 0)%nat ∧
     (∀ j, j ≠ ip → multiplicity (inl j) Q = multiplicity (inl j) P ∧ multiplicity (inr j) Q = multiplicity (inr j) P) ∧
     dev (f p) = dev p ∧ inum (f p) = inum p) →
  spec P (upd_ip ip f) (λ _, Q).
Proof.
  intros Hf F w a w' Ho. unfold upd_ip. destruct (itable w !! ip) as [p|] eqn:E; [|done]. intros [= _ <-].
  destruct (Hf F w p Ho E) as (H1 & H2 & H3 & H4). split; [|by eapply same_inodes_insert].
  eapply owns_upd; [exact Ho|done|done|done|]. intros j Hj. rewrite !multiplicity_disj_union. destruct (H3 j Hj) as [-> ->]. done.
Qed.
Lemma s_addref ip : spec ∅ (upd_ip ip (λ p, set_ref (ref p + 1) p)) (λ _, rf ip).
Proof. apply spec_upd. intros F w p Ho E. specialize (Ho ip). rewrite E in Ho. destruct Ho as [H1 H2]. cbn [set_ref ref locked dev inum]. split_and!; try done; [count..|intros j Hj; count]. Qed.
Lemma s_unref ip : spec (rf ip) (upd_ip ip (λ p, set_ref (ref p - 1) p)) (λ _, ∅).
Proof. apply spec_upd. intros F w p Ho E. specialize (Ho ip). rewrite E in Ho. destruct Ho as [H1 H2]. cbn [set_ref ref locked dev inum]. split_and!; try done; [count..|intros j Hj; count]. Qed.
Lemma s_unlock ip : spec (lk ip) (upd_ip ip (set_locked false)) (λ _, ∅).
Proof. apply spec_upd. intros F w p Ho E. specialize (Ho ip). rewrite E in Ho. destruct Ho as [H1 H2]. cbn [set_locked ref locked dev inum]. split_and!; try done; [count|destruct (locked p); count|intros j Hj; count]. Qed.

Lemma spec_read {A} P ip (f : inode → fs A) Q :
  (∀ p F w a w', owns w (P ⊎ F) → itable w !! ip = Some p → f p w = Some (a, w') → owns w' (Q a ⊎ F) ∧ same_inodes F w w') →
  spec P (the_ip ip ≫= f) Q.
Proof.
  intros Hf F w a w' Ho (p & w1 & E1 & E2)%bind_Some. unfold the_ip in E1. destruct (itable w !! ip) as [q|] eqn:E; [|done].
  injection E1 as <- <-. by eapply Hf.
Qed.
(** After taking a lock that is free. *)
Lemma lock_then {A} P ip (f : fs A) Q F w a w' p :
  owns w (P ⊎ F) → itable w !! ip = Some p → locked p = false → spec (lk ip ⊎ P) f Q →
  (upd_ip ip (set_locked true);; f) w = Some (a, w') → owns w' (Q a ⊎ F) ∧ same_inodes F w w'.
Proof.
  intros Ho E Hl Hf (u & w1 & E1 & E2)%bind_Some. unfold upd_ip in E1. rewrite E in E1. injection E1 as <- <-.
  edestruct (Hf F) with (2 := E2) as [Ho' Hs].
  - pose proof (Ho ip) as Hi. rewrite E, Hl in Hi. destruct Hi as [H1 H2].
    eapply owns_upd; [exact Ho|done|..]; cbn [set_locked ref locked]; [count|count|intros j Hj; count].
  - split; [done|]. eapply same_inodes_trans; [|exact Hs]. by apply (same_inodes_insert _ _ _ _ p).
Qed.

(** The resources of [P] without those of [R], up to order. *)
Ltac without P R :=
  match R with
  | ∅ => P
  | ?R1 ⊎ ?R2 => let P1 := without P R1 in without P1 R2
  | _ =>
    match P with
    | R => constr:(∅ : held)
    | R ⊎ ?B => B
    | ?A ⊎ R => A
    | ?A ⊎ ?B => let A' := without A R in constr:(A' ⊎ B)
    | ?A ⊎ ?B => let B' := without B R in constr:(A ⊎ B')
    end
  end.
(** One call of the program text, with its specification; the last call; a call that is quiet. *)
Tactic Notation "call" open_constr(S) :=
  match goal with
  | |- spec ?P (mbind _ ?m) _ =>
    match type of S with
    | spec ?Pm _ ?Qm =>
      let X := without P Pm in
      apply (spec_bind P m (λ a, Qm a ⊎ X)); [eapply (spec_frame X); [exact S|multiset_solver|done]|intros ?; cbn beta]
    end
  end.
Tactic Notation "last_call" open_constr(S) :=
  match goal with
  | |- spec ?P _ _ =>
    match type of S with
    | spec ?Pm _ _ => let X := without P Pm in eapply (spec_frame X); [exact S|multiset_solver|intros ?; cbn [opt_rf fst]; multiset_solver]
    end
  end.
Ltac quietly := repeat (apply spec_quiet; [apply quiet_spec; be_quiet; fail|intros ?]).
Ltac branch := match goal with |- spec _ (match ?x with _ => _ end) _ => destruct x end.
(** The end, with a result. *)
Lemma spec_done {A} P (Q : A → held) a : P = Q a → spec P (mret a) Q.
Proof. intros ->. apply spec_ret. Qed.
Ltac return_ := apply spec_done; cbn [opt_rf fst]; multiset_solver.

Section calls.
Context (sb : superblock).

Lemma s_ilock ip : spec ∅ (ilock sb ip) (λ _, lk ip).
Proof.
  apply spec_read. intros p F w a w' Ho E. destruct ((ref p <? 1) || locked p) eqn:Hl; [done|]. apply orb_false_iff in Hl as [_ Hl].
  apply (lock_then ∅ ip _ (λ _, lk ip) _ _ _ _ _ Ho E Hl). rewrite (right_id_L ∅ (⊎)). destruct (valid p); [apply (spec_ret (λ _ : unit, lk ip))|].
  eapply (spec_frame (lk ip)); [apply quiet_spec; be_quiet|multiset_solver|multiset_solver].
Qed.
Lemma s_iunlock ip : spec (lk ip) (iunlock ip) (λ _, ∅).
Proof.
  apply spec_read. intros p F w a w' Ho E. destruct (negb (locked p) || (ref p <? 1)); [done|]. by apply s_unlock.
Qed.
Lemma s_idup ip : spec ∅ (idup ip) (λ _, rf ip).
Proof. apply (spec_bind _ _ (λ _, rf ip)); [apply s_addref|]. intros _. apply (spec_ret (λ _, rf ip)). Qed.
Lemma s_idup_same ip : spec ∅ (idup ip) rf.
Proof. intros F w a w' Ho E. pose proof (s_idup ip F w a w' Ho E) as Hs. apply bind_Some in E as (u & w1 & _ & [= <- <-]). done. Qed.

Lemma iget_scan_inl tab i d n e k :
  iget_scan tab i d n e = inl k → ∃ p, tab !! (k - i)%nat = Some p ∧ (i ≤ k)%nat ∧ 0 < ref p.
Proof.
  revert i e; induction tab as [|p tab IH]; intros i e; cbn [iget_scan]; [done|].
  destruct ((0 <? ref p) && (dev p =? d) && (inum p =? n)) eqn:Hp.
  - intros [= <-]. rewrite Nat.sub_diag. exists p. apply andb_true_iff in Hp as [[Hp _]%andb_true_iff _]. split_and!; [done|lia|lia].
  - intros (q & Hq & Hk & Hr)%IH. exists q. replace (k - i)%nat with (S (k - S i)) by lia. split_and!; [done|lia|done].
Qed.
Lemma iget_scan_inr tab i d n e k :
  iget_scan tab i d n e = inr (Some k) → e = Some k ∨ ∃ p, tab !! (k - i)%nat = Some p ∧ (i ≤ k)%nat ∧ ref p = 0.
Proof.
  revert i e; induction tab as [|p tab IH]; intros i e; cbn [iget_scan]; [intros [= ->]; by left|].
  destruct ((0 <? ref p) && (dev p =? d) && (inum p =? n)) eqn:Hp; [done|]. intros [He|(q & Hq & Hk & Hr)]%IH.
  - destruct e; [by left|]. destruct (ref p =? 0) eqn:Hr; [|done]. injection He as ->. right. exists p. rewrite Nat.sub_diag. split_and!; [done|lia|lia].
  - right. exists q. replace (k - i)%nat with (S (k - S i)) by lia. split_and!; [done|lia|done].
Qed.
Lemma s_iget d n : spec ∅ (iget d n) rf.
Proof.
  intros F w a w' Ho. unfold iget. rewrite (bind_eq _ _ _ (itable w) w) by done. destruct (iget_scan (itable w) 0 d n None) as [k|[k|]] eqn:E; [| |done].
  - intros (u & w1 & E1 & [= <- <-])%bind_Some. by apply (s_addref k F w u w1).
  - apply iget_scan_inr in E as [|(p & Hp & _ & Hr)]; [done|]. rewrite Nat.sub_0_r in Hp. intros (u & w1 & E1 & [= <- <-])%bind_Some.
    unfold upd_ip in E1. rewrite Hp in E1. injection E1 as <- <-. pose proof (Ho k) as Hk. rewrite Hp in Hk. destruct Hk as [H1 H2]. split.
    + eapply owns_upd; [exact Ho|done|..]; cbn [ref locked]; [count|count|intros j Hj; count].
    + apply (same_inodes_insert _ _ _ _ p); [done|]. intros Hin. exfalso. rewrite elem_of_multiplicity in Hin. count.
Qed.
Lemma s_iput ip : spec (rf ip) (iput sb ip) (λ _, ∅).
Proof.
  apply (spec_read (rf ip)). intros p F w a w' Ho E. set (last := (ref p =? 1) && valid p && (nlink p =? 0)).
  assert (spec (rf ip) (upd_ip ip (λ p, set_ref (ref p - 1) p);; when last (ifree sb (inum p))) (λ _, ∅)) as Hend.
  { apply (spec_bind _ _ (λ _, ∅)); [apply s_unref|]. intros _. apply quiet_spec. be_quiet. }
  destruct last; [|intros E'; rewrite (bind_eq _ _ _ tt w) in E' by done; by eapply Hend].
  cbn [when]. destruct (locked p) eqn:Hl; [done|]. intros (u & w1 & E1 & E2)%bind_Some.
  assert (spec (lk ip ⊎ rf ip) (itrunc sb ip;; upd_ip ip (set_valid false);; upd_ip ip (set_locked false)) (λ _, rf ip)) as Hmid.
  { eapply spec_quiet; [apply quiet_spec; be_quiet|]. intros _. eapply spec_quiet; [apply quiet_spec; be_quiet|]. intros _.
    eapply (spec_frame (rf ip)); [apply s_unlock|multiset_solver|multiset_solver]. }
  destruct (lock_then _ _ _ _ _ _ _ _ _ Ho E Hl Hmid E1) as [Ho1 Hs1].
  destruct (Hend F w1 a w' Ho1 E2) as [Ho2 Hs2]. split; [done|by eapply same_inodes_trans].
Qed.
Lemma s_iunlockput ip : spec (rf ip ⊎ lk ip) (iunlockput sb ip) (λ _, ∅).
Proof.
  eapply (spec_bind _ _ (λ _, rf ip)); [|intros _; apply s_iput]. eapply (spec_frame (rf ip)); [apply s_iunlock|multiset_solver|multiset_solver].
Qed.

Lemma s_ialloc d ty : spec ∅ (ialloc sb d ty) (opt_rf id).
Proof.
  unfold ialloc. generalize 1. induction (Z.to_nat (ninodes sb)) as [|fuel IH]; intros n; cbn [ialloc_loop]; [return_|].
  destruct (n <? ninodes sb); [|return_]. quietly. destruct (_ =? 0); [|apply IH]. quietly. call (s_iget d n). return_.
Qed.
Lemma s_dirlookup dp name : spec ∅ (dirlookup sb dp name) (opt_rf fst).
Proof.
  unfold dirlookup. quietly. destruct (negb _); [apply spec_stuck|]. quietly. destruct a0 as [[n off]|]; [|return_].
  call (s_iget (dev a) n). return_.
Qed.
Lemma s_dirlink dp name n : spec ∅ (dirlink sb dp name n) (λ _, ∅).
Proof.
  unfold dirlink. call (s_dirlookup dp name). destruct a as [[ip off]|]; cbn [opt_rf fst].
  - call (s_iput ip). return_.
  - quietly. destruct (_ =? _); return_.
Qed.

Lemma s_namex_loop fuel path np ip name : spec (rf ip) (namex_loop sb fuel path np ip name) (opt_rf fst).
Proof.
  revert path ip name; induction fuel as [|fuel IH]; intros path ip name; cbn [namex_loop]; [apply spec_stuck|].
  destruct (skipelem path) as [[name' path']|].
  - call (s_ilock ip). quietly. destruct (negb _); [call (s_iunlockput ip); return_|].
    destruct (nlink a0 =? 0); [call (s_iunlockput ip); return_|]. destruct (np && _); [call (s_iunlock ip); return_|].
    call (s_dirlookup ip name'). destruct a1 as [[next off]|]; cbn [opt_rf fst]; call (s_iunlockput ip); [|return_].
    last_call (IH path' next name').
  - destruct np; [call (s_iput ip); return_|return_].
Qed.
Lemma s_namex cwd path np : spec ∅ (namex sb cwd path np) (opt_rf fst).
Proof.
  unfold namex. apply (spec_bind ∅ _ rf); [|intros ip; apply s_namex_loop].
  destruct path as [|c path]; [apply s_idup_same|]. destruct (c =? slash); [apply s_iget|apply s_idup_same].
Qed.

(** ** System calls *)

Lemma s_link_name cwd ip new : spec ∅ (link_name sb cwd ip new) (λ _, ∅).
Proof.
  unfold link_name, nameiparent. call (s_namex cwd new true). destruct a as [[dp name]|]; cbn [opt_rf fst]; [|return_].
  call (s_ilock dp). quietly. destruct (nlink _ =? 0); [call (s_iunlockput dp); return_|]. quietly.
  apply (spec_bind _ _ (λ _, lk dp ⊎ rf dp)).
  - destruct (negb _); [return_|]. last_call (s_dirlink dp name _).
  - intros r. call (s_iunlockput dp). return_.
Qed.
Lemma s_link cwd old new : spec ∅ (link sb cwd old new) (λ _, ∅).
Proof.
  unfold link, namei. call (s_namex cwd old false). destruct a as [[ip nm]|]; cbn [opt_rf fst]; [|return_].
  call (s_ilock ip). quietly. destruct (_ =? T_DIR); [call (s_iunlockput ip); return_|]. destruct (_ <=? _); [call (s_iunlockput ip); return_|].
  quietly. call (s_iunlock ip). call (s_link_name cwd ip new). branch.
  - call (s_iput ip). return_.
  - call (s_ilock ip). quietly. call (s_iunlockput ip). return_.
Qed.
Lemma s_unlink cwd path : spec ∅ (unlink sb cwd path) (λ _, ∅).
Proof.
  unfold unlink, nameiparent. call (s_namex cwd path true). destruct a as [[dp name]|]; cbn [opt_rf fst]; [|return_].
  call (s_ilock dp). destruct (_ || _); [call (s_iunlockput dp); return_|].
  call (s_dirlookup dp name). match goal with |- spec _ (match ?o with _ => _ end) _ => destruct o as [[ip off]|] end; cbn [opt_rf fst]; [|call (s_iunlockput dp); return_].
  call (s_ilock ip). quietly. destruct (_ <? 1); [apply spec_stuck|]. quietly. destruct (negb _).
  - call (s_iunlockput ip). call (s_iunlockput dp). return_.
  - quietly. destruct (negb _); [apply spec_stuck|]. quietly. call (s_iunlockput dp). quietly. call (s_iunlockput ip). return_.
Qed.

(** An inode that is returned locked. *)
Definition opt_locked (o : option nat) : held := match o with Some ip => rf ip ⊎ lk ip | None => ∅ end.

Lemma s_create_new dp ip name ty ma mi :
  spec (rf dp ⊎ lk dp ⊎ (rf ip ⊎ lk ip)) (create_new sb dp ip name ty ma mi) opt_locked.
Proof.
  unfold create_new. quietly. set (P := rf dp ⊎ lk dp ⊎ (rf ip ⊎ lk ip)).
  apply (spec_bind P _ (λ _, P)).
  { destruct (ty =? T_DIR); [|return_]. call (s_dirlink ip dot _). destruct (_ <? 0); [return_|]. call (s_dirlink ip dotdot _). return_. }
  intros ok. apply (spec_bind P _ (λ _, P)).
  { destruct ok; [|return_]. call (s_dirlink dp name _). return_. }
  intros ok'. unfold P. destruct ok'; quietly; [|call (s_iunlockput ip)]; call (s_iunlockput dp); apply spec_done; cbn [opt_locked]; multiset_solver.
Qed.
Lemma s_create cwd path ty ma mi : spec ∅ (create sb cwd path ty ma mi) opt_locked.
Proof.
  unfold create, nameiparent. call (s_namex cwd path true). destruct a as [[dp name]|]; cbn [opt_rf fst]; [|return_].
  call (s_ilock dp). quietly. destruct (nlink _ =? 0); [call (s_iunlockput dp); return_|]. destruct (_ && _); [call (s_iunlockput dp); return_|].
  call (s_dirlookup dp name). match goal with |- spec _ (match ?o with _ => _ end) _ => destruct o as [[ip off]|] end; cbn [opt_rf fst].
  - call (s_iunlockput dp). call (s_ilock ip). quietly. destruct (_ && _); [apply spec_done; cbn [opt_locked]; multiset_solver|].
    call (s_iunlockput ip). return_.
  - call (s_ialloc _ ty). match goal with |- spec _ (match ?o with _ => _ end) _ => destruct o as [ip|] end; cbn [opt_rf id]; [|call (s_iunlockput dp); return_].
    call (s_ilock ip). last_call (s_create_new dp ip name ty ma mi).
Qed.
Lemma s_open_inode cwd path omode : spec ∅ (open_inode sb cwd path omode) opt_locked.
Proof.
  unfold open_inode. apply (spec_bind ∅ _ opt_locked).
  - destruct (negb _); [apply s_create|]. unfold namei. call (s_namex cwd path false). destruct a as [[ip nm]|]; cbn [opt_rf fst]; [|return_].
    call (s_ilock ip). quietly. destruct (_ && _); [call (s_iunlockput ip); return_|]. apply spec_done; cbn [opt_locked]; multiset_solver.
  - intros [ip|]; cbn [opt_locked]; [|return_]. quietly. destruct (_ && _); [call (s_iunlockput ip); return_|apply spec_done; cbn [opt_locked]; multiset_solver].
Qed.
Lemma s_make cwd path ty ma mi : spec ∅ (make sb cwd path ty ma mi) (λ _, ∅).
Proof.
  unfold make. call (s_create cwd path ty ma mi). destruct a as [ip|]; cbn [opt_locked]; [|return_]. call (s_iunlockput ip). return_.
Qed.
(** [chdir] moves the reference of the current directory. *)
Lemma s_chdir cwd path : spec (rf cwd) (chdir sb cwd path) (λ o, rf (default cwd o)).
Proof.
  unfold chdir, namei. call (s_namex cwd path false). destruct a as [[ip nm]|]; cbn [opt_rf fst]; [|return_].
  call (s_ilock ip). quietly. destruct (negb _); [call (s_iunlockput ip); return_|]. call (s_iunlock ip). call (s_iput cwd). return_.
Qed.
End calls.
