(* ===== verification/File.v ===== *)
(** Open files: [xv6/kernel/file.c], the system calls on them in
    [xv6/kernel/sysfile.c], [pipealloc] of [pipe.c], and the parts of [kfork]
    and [kexit] of [proc.c] that are about files.

    The file table and the tables of descriptors of the processes are lists; a
    pointer to a file or to an inode is an index. A system call has its
    arguments as the kernel fetched them: a path is [None] if it cannot be
    copied in. A call runs to its end before the next one begins. Of the log
    the state has the number of calls in a transaction; outside of one nothing
    may be written. *)
From S2P Require Import Prelude Fs FsBlock FsFile FsRw FsDir SysFs.

Inductive ftype := FD_NONE | FD_PIPE | FD_INODE | FD_DEVICE.
#[export] Instance ftype_eq_dec : EqDecision ftype.
Proof. solve_decision. Defined.

Record file := mkFile {
  f_type : ftype; f_ref : Z; readable : bool; writable : bool; f_pipe : Z; f_ip : nat; f_off : Z; f_major : Z;
}.
Definition set_fref v f := mkFile (f_type f) v (readable f) (writable f) (f_pipe f) (f_ip f) (f_off f) (f_major f).
Definition set_ftype v f := mkFile v (f_ref f) (readable f) (writable f) (f_pipe f) (f_ip f) (f_off f) (f_major f).
Definition set_off v f := mkFile (f_type f) (f_ref f) (readable f) (writable f) (f_pipe f) (f_ip f) v (f_major f).

Definition NFILE : nat := 100.
Definition NOFILE : nat := 16.
Definition O_WRONLY : Z := 1.
Definition O_RDWR : Z := 2.
Definition O_TRUNC : Z := 0x400.
Definition MAXOPBLOCKS : Z := 10.

(** What the file layer calls of pipes and devices, on their state [P], for
    the process that calls; a pipe is its address, which is 0 if there is no
    memory for one. *)
Class FileOps (P : Type) := {
  pipe_new : M P Z;
  pipe_close : Z → bool → M P unit;
  pipe_read : nat → Z → Z → Z → M P (Z * list Z);
  pipe_write : nat → Z → Z → Z → M P Z;
  dev_read : Z → option (nat → Z → Z → M P (Z * list Z));
  dev_write : Z → option (nat → Z → Z → M P Z);
}.

(** The descriptors and the current directory of a process. *)
Record pfiles := mkPfiles { ofile : list (option nat); pcwd : option nat }.
Record fworld (P : Type) := mkFworld {
  ftable : list file; fprocs : list pfiles; ffs : fsw; outs : Z; rest : P;
}.
Arguments mkFworld {P}.
Arguments ftable {P}.
Arguments fprocs {P}.
Arguments ffs {P}.
Arguments outs {P}.
Arguments rest {P}.

Section code.
Context {P : Type} `{FileOps P} (sb : superblock).
(** Of the memory of the calling process: can [n] bytes be stored at an
    address; the bytes that are read from it, and whether these are all. *)
Context (copyout_ok : Z → Z → bool) (copyin_at : Z → Z → list Z * bool).
Abbreviation fm := (M (fworld P)).

(** ** Access to the state *)

Definition on_fs {A} (m : fs A) : fm A := λ x,
  match m (ffs x) with
  | Some (a, w) =>
    if (outs x <? 1) && negb (bool_decide (blk w = blk (ffs x))) then None
    else Some (a, mkFworld (ftable x) (fprocs x) w (outs x) (rest x))
  | None => None
  end.
Definition on_rest {A} (m : M P A) : fm A := λ x,
  match m (rest x) with
  | Some (a, p) => Some (a, mkFworld (ftable x) (fprocs x) (ffs x) (outs x) p)
  | None => None
  end.
Definition begin_op : fm unit := modify (λ x, mkFworld (ftable x) (fprocs x) (ffs x) (outs x + 1) (rest x)).
Definition end_op : fm unit := modify (λ x, mkFworld (ftable x) (fprocs x) (ffs x) (outs x - 1) (rest x)).
Definition the_file (f : nat) : fm file := λ x,
  match ftable x !! f with Some fl => Some (fl, x) | None => None end.
Definition upd_file (f : nat) (g : file → file) : fm unit := λ x,
  match ftable x !! f with
  | Some fl => Some ((), mkFworld (<[f := g fl]> (ftable x)) (fprocs x) (ffs x) (outs x) (rest x))
  | None => None
  end.
Definition the_proc (me : nat) : fm pfiles := λ x,
  match fprocs x !! me with Some p => Some (p, x) | None => None end.
Definition set_proc (me : nat) (p : pfiles) : fm unit :=
  modify (λ x, mkFworld (ftable x) (<[me := p]> (fprocs x)) (ffs x) (outs x) (rest x)).
(** [myproc()->ofile[fd] = v] *)
Definition set_ofile (me fd : nat) (v : option nat) : fm unit :=
  p ← the_proc me; set_proc me (mkPfiles (<[fd := v]> (ofile p)) (pcwd p)).

(** ** file.c *)

(** The first place that satisfies [b], from [i] on. *)
Fixpoint find_index {A} (b : A → bool) (l : list A) (i : nat) : option nat :=
  match l with [] => None | a :: l => if b a then Some i else find_index b l (S i) end.

Definition filealloc : fm (option nat) :=
  t ← gets ftable;
  match find_index (λ fl, f_ref fl =? 0) t 0 with
  | Some f => upd_file f (set_fref 1);; mret (Some f)
  | None => mret None
  end.
Definition filedup (f : nat) : fm nat :=
  fl ← the_file f;
  if f_ref fl <? 1 then stuck else upd_file f (set_fref (f_ref fl + 1));; mret f.
Definition fileclose (f : nat) : fm unit :=
  ff ← the_file f;
  if f_ref ff <? 1 then stuck
  else
    upd_file f (set_fref (f_ref ff - 1));;
    if 0 <? f_ref ff - 1 then mret ()
    else
      upd_file f (λ fl, set_ftype FD_NONE (set_fref 0 fl));;
      match f_type ff with
      | FD_PIPE => on_rest (pipe_close (f_pipe ff) (writable ff))
      | FD_INODE | FD_DEVICE => begin_op;; on_fs (iput sb (f_ip ff));; end_op
      | FD_NONE => mret ()
      end.

Definition STAT_SIZE : Z := 24.
(** The result, and the [struct stat] that is copied out. *)
Definition filestat (f : nat) (addr : Z) : fm (Z * option stat) :=
  fl ← the_file f;
  match f_type fl with
  | FD_INODE | FD_DEVICE =>
    st ← on_fs (ilock sb (f_ip fl);; st ← stati (f_ip fl); iunlock (f_ip fl);; mret st);
    if copyout_ok addr STAT_SIZE then mret (0, Some st) else mret (-1, None)
  | _ => mret (-1, None)
  end.

(** The result, and the bytes that are copied out. *)
Definition fileread (me f : nat) (addr n : Z) : fm (Z * list Z) :=
  fl ← the_file f;
  if negb (readable fl) || (n <? 0) then mret (-1, [])
  else
    match f_type fl with
    | FD_PIPE => on_rest (pipe_read me (f_pipe fl) addr n)
    | FD_DEVICE =>
      if (f_major fl <? 0) || (NDEV <=? f_major fl) then mret (-1, [])
      else match dev_read (f_major fl) with None => mret (-1, []) | Some rd => on_rest (rd me addr n) end
    | FD_INODE =>
      r ← on_fs (ilock sb (f_ip fl);;
                 readi sb (λ tot bs, copyout_ok (u64 (addr + tot)) (Z.of_nat (length bs))) (f_ip fl) (f_off fl) n);
      when (0 <? r.1) (upd_file f (set_off (u32 (f_off fl + r.1))));;
      on_fs (iunlock (f_ip fl));;
      mret r
    | FD_NONE => stuck
    end.

(** The loop of [filewrite]: the bytes written. *)
Definition max_write : Z := ((MAXOPBLOCKS - 1 - 1 - 2) / 2) * BSIZE.
Fixpoint filewrite_loop (fuel : nat) (f : nat) (addr i n : Z) : fm Z :=
  match fuel with
  | O => stuck
  | S fuel =>
    if i <? n then
      let n1 := if max_write <? n - i then max_write else n - i in
      fl ← the_file f;
      begin_op;;
      r ← on_fs (ilock sb (f_ip fl);;
                 writei sb (λ tot m, copyin_at (u64 (addr + i + tot)) m) (f_ip fl) (f_off fl) n1);
      when (0 <? r) (upd_file f (set_off (u32 (f_off fl + r))));;
      on_fs (iunlock (f_ip fl));;
      end_op;;
      if negb (r =? n1) then mret i else filewrite_loop fuel f addr (i + r) n
    else mret i
  end.
Definition filewrite (me f : nat) (addr n : Z) : fm Z :=
  fl ← the_file f;
  if negb (writable fl) || (n <? 0) then mret (-1)
  else
    match f_type fl with
    | FD_PIPE => on_rest (pipe_write me (f_pipe fl) addr n)
    | FD_DEVICE =>
      if (f_major fl <? 0) || (NDEV <=? f_major fl) then mret (-1)
      else match dev_write (f_major fl) with None => mret (-1) | Some wr => on_rest (wr me addr n) end
    | FD_INODE =>
      i ← filewrite_loop (S (Z.to_nat (n / max_write + 1))) f addr 0 n;
      mret (if i =? n then n else -1)
    | FD_NONE => stuck
    end.

(** [pipealloc] *)
Definition close_opt (o : option nat) : fm unit := match o with Some f => fileclose f | None => mret () end.
Definition pipealloc : fm (option (nat * nat)) :=
  f0 ← filealloc;
  f1 ← match f0 with Some _ => filealloc | None => mret None end;
  match f0, f1 with
  | Some r, Some w =>
    pi ← on_rest pipe_new;
    if pi =? 0 then fileclose r;; fileclose w;; mret None
    else
      upd_file r (λ fl, mkFile FD_PIPE (f_ref fl) true false pi (f_ip fl) (f_off fl) (f_major fl));;
      upd_file w (λ fl, mkFile FD_PIPE (f_ref fl) false true pi (f_ip fl) (f_off fl) (f_major fl));;
      mret (Some (r, w))
  | _, _ => close_opt f0;; close_opt f1;; mret None
  end.

(** ** sysfile.c, by process [me] *)
Section calls.
Context (me : nat).

Definition argfd (fd : Z) : fm (option (nat * nat)) :=
  if (fd <? 0) || (Z.of_nat NOFILE <=? fd) then mret None
  else
    p ← the_proc me;
    match ofile p !! Z.to_nat fd with
    | Some (Some f) => mret (Some (Z.to_nat fd, f))
    | Some None => mret None
    | None => stuck
    end.
Definition fdalloc (f : nat) : fm (option nat) :=
  p ← the_proc me;
  match find_index (λ o : option nat, match o with None => true | _ => false end) (ofile p) 0 with
  | Some fd => set_ofile me fd (Some f);; mret (Some fd)
  | None => mret None
  end.
Definition my_cwd : fm nat :=
  p ← the_proc me; match pcwd p with Some c => mret c | None => stuck end.

Definition sys_dup (fd : Z) : fm Z :=
  o ← argfd fd;
  match o with
  | None => mret (-1)
  | Some (_, f) =>
    o ← fdalloc f;
    match o with None => mret (-1) | Some fd => filedup f;; mret (Z.of_nat fd) end
  end.
Definition sys_read (fd addr n : Z) : fm (Z * list Z) :=
  o ← argfd fd;
  match o with None => mret (-1, []) | Some (_, f) => fileread me f addr n end.
Definition sys_write (fd addr n : Z) : fm Z :=
  o ← argfd fd;
  match o with None => mret (-1) | Some (_, f) => filewrite me f addr n end.
Definition sys_close (fd : Z) : fm Z :=
  o ← argfd fd;
  match o with
  | None => mret (-1)
  | Some (fd, f) => set_ofile me fd None;; fileclose f;; mret 0
  end.
Definition sys_fstat (fd addr : Z) : fm (Z * option stat) :=
  o ← argfd fd;
  match o with None => mret (-1, None) | Some (_, f) => filestat f addr end.

(** Between [begin_op] and [end_op], in the current directory. *)
Definition in_op {A} (m : nat → fs A) : fm A :=
  begin_op;; cwd ← my_cwd; a ← on_fs (m cwd); end_op;; mret a.
Definition sys_link (old new : option (list Z)) : fm Z :=
  match old, new with
  | Some old, Some new => in_op (λ cwd, link sb cwd old new)
  | _, _ => mret (-1)
  end.
Definition sys_unlink (path : option (list Z)) : fm Z :=
  match path with Some path => in_op (λ cwd, unlink sb cwd path) | None => mret (-1) end.
Definition sys_mkdir (path : option (list Z)) : fm Z :=
  match path with Some path => in_op (λ cwd, make sb cwd path T_DIR 0 0) | None => begin_op;; end_op;; mret (-1) end.
Definition sys_mknod (path : option (list Z)) (ma mi : Z) : fm Z :=
  match path with
  | Some path => in_op (λ cwd, make sb cwd path T_DEVICE (swrap 16 ma) (swrap 16 mi))
  | None => begin_op;; end_op;; mret (-1)
  end.
Definition sys_chdir (path : option (list Z)) : fm Z :=
  match path with
  | Some path =>
    o ← in_op (λ cwd, chdir sb cwd path);
    match o with
    | None => mret (-1)
    | Some ip => p ← the_proc me; set_proc me (mkPfiles (ofile p) (Some ip));; mret 0
    end
  | None => begin_op;; end_op;; mret (-1)
  end.

Definition sys_open (path : option (list Z)) (omode : Z) : fm Z :=
  match path with
  | None => mret (-1)
  | Some path =>
    begin_op;;
    cwd ← my_cwd;
    o ← on_fs (open_inode sb cwd path omode);
    match o with
    | None => end_op;; mret (-1)
    | Some ip =>
      f ← filealloc;
      fd ← match f with Some f => fdalloc f | None => mret None end;
      match f, fd with
      | Some f, Some fd =>
        p ← on_fs (the_ip ip);
        let rd := Z.land omode O_WRONLY =? 0 in
        let wr := negb (Z.land omode O_WRONLY =? 0) || negb (Z.land omode O_RDWR =? 0) in
        upd_file f (λ fl, if type p =? T_DEVICE then mkFile FD_DEVICE (f_ref fl) rd wr (f_pipe fl) ip (f_off fl) (major p)
                          else mkFile FD_INODE (f_ref fl) rd wr (f_pipe fl) ip 0 (f_major fl));;
        on_fs (when (negb (Z.land omode O_TRUNC =? 0) && (type p =? T_FILE)) (itrunc sb ip);; iunlock ip);;
        end_op;;
        mret (Z.of_nat fd)
      | _, _ => close_opt f;; on_fs (iunlockput sb ip);; end_op;; mret (-1)
      end
    end
  end.

(** The two descriptors are stored at [fdarray]. *)
Definition sys_pipe (fdarray : Z) : fm (Z * option (nat * nat)) :=
  o ← pipealloc;
  match o with
  | None => mret (-1, None)
  | Some (rf, wf) =>
    fd0 ← fdalloc rf;
    fd1 ← match fd0 with Some _ => fdalloc wf | None => mret None end;
    match fd0, fd1 with
    | Some fd0, Some fd1 =>
      if copyout_ok fdarray 4 && copyout_ok (u64 (fdarray + 4)) 4 then mret (0, Some (fd0, fd1))
      else set_ofile me fd0 None;; set_ofile me fd1 None;; fileclose rf;; fileclose wf;; mret (-1, None)
    | _, _ =>
      match fd0 with Some fd0 => set_ofile me fd0 None | None => mret () end;;
      fileclose rf;; fileclose wf;; mret (-1, None)
    end
  end.

(** [kfork]: the descriptors and the directory of the child. *)
Definition fork_files (child : nat) : fm unit :=
  mfor (seq 0 NOFILE) (λ i,
    p ← the_proc me;
    match ofile p !! i with
    | Some (Some f) => filedup f;; set_ofile child i (Some f)
    | Some None => mret ()
    | None => stuck
    end);;
  cwd ← my_cwd;
  c ← on_fs (idup cwd);
  np ← the_proc child;
  set_proc child (mkPfiles (ofile np) (Some c)).
(** [kexit] *)
Definition exit_files : fm unit :=
  mfor (seq 0 NOFILE) (λ fd,
    p ← the_proc me;
    match ofile p !! fd with
    | Some (Some f) => fileclose f;; set_ofile me fd None
    | Some None => mret ()
    | None => stuck
    end);;
  begin_op;;
  cwd ← my_cwd;
  on_fs (iput sb cwd);;
  end_op;;
  p ← the_proc me;
  set_proc me (mkPfiles (ofile p) None).
End calls.
End code.
