(* ===== verification/FileRw.v ===== *)
(** Writing to a file through a descriptor: [filewrite] of
    [xv6/kernel/file.c], which cuts the bytes into transactions that fit in the
    log. *)
From S2P Require Import Prelude Fs FsBlock FsFile FsRw FsDir SysFs File.

Section rw.
Context {P : Type} `{FileOps P} (sb : superblock) (Hsb : layout_ok sb).
Implicit Types (x : fworld P) (w : fsw) (p : inode).

(** ** Locking *)

Definition with_lock w (ip : nat) (b : bool) p : fsw := mkFsw (blk w) (<[ip := set_locked b p]> (itable w)).

Lemma lock_inv w ip b p : fs_inv sb w → file_inv sb w ip p →
  fs_inv sb (with_lock w ip b p) ∧ file_inv sb (with_lock w ip b p) ip (set_locked b p).
Proof.
  intros [Hb Hm] [Hip Hl Hs Hi Hd Hz Hn]. split; [by split|]. split; try done.
  cbn [with_lock itable]. apply list_lookup_insert_eq. by eapply lookup_lt_Some.
Qed.
Lemma ilock_valid w ip p : itable w !! ip = Some p → 0 < ref p → locked p = false → valid p = true →
  ilock sb ip w = Some ((), with_lock w ip true p).
Proof.
  intros Hip Hr Hl Hv. unfold ilock. rewrite (bind_eq _ _ _ p w) by (unfold the_ip; by rewrite Hip).
  rewrite (proj2 (Z.ltb_ge (ref p) 1)), Hl, Hv by lia. cbn [orb].
  by rewrite (bind_eq _ _ _ () (with_lock w ip true p)) by (unfold upd_ip; by rewrite Hip).
Qed.
Lemma iunlock_valid w ip p : itable w !! ip = Some p → 0 < ref p → locked p = true →
  iunlock ip w = Some ((), with_lock w ip false p).
Proof.
  intros Hip Hr Hl. unfold iunlock. rewrite (bind_eq _ _ _ p w) by (unfold the_ip; by rewrite Hip).
  rewrite (proj2 (Z.ltb_ge (ref p) 1)), Hl by lia. cbn [orb negb]. unfold upd_ip. by rewrite Hip.
Qed.

(** An inode in use that nobody has locked, and a file open on it. *)
Definition at_rest w (ip : nat) p : Prop :=
  fs_inv sb w ∧ file_inv sb w ip p ∧ 0 < ref p ∧ locked p = false ∧ valid p = true.

(** The blocks of other files, and the other inodes, as [writei] leaves them. *)
Record others_same w (ip : nat) p w' p' : Prop := {
  os_blocks : ∀ a, dstart sb ≤ a < sb_size sb → used sb w a = true → (∀ j, 0 ≤ j ≤ MAXFILE → fblock w p j ≠ a) →
    blk w' !! a = blk w !! a;
  os_inodes : ∀ j, j ≠ ip → itable w' !! j = itable w !! j;
  os_used : ∀ a, 0 ≤ a < sb_size sb → used sb w a = true → used sb w' a = true;
  os_own : ∀ j, 0 ≤ j ≤ MAXFILE → fblock w' p' j ≠ 0 → fblock w' p' j = fblock w p j ∨ used sb w (fblock w' p' j) = false;
}.
Lemma others_same_refl w ip p : others_same w ip p w p.
Proof. split; auto. Qed.
Lemma others_same_trans w ip p w1 p1 w2 p2 :
  file_inv sb w1 ip p1 → file_inv sb w2 ip p2 →
  others_same w ip p w1 p1 → others_same w1 ip p1 w2 p2 → others_same w ip p w2 p2.
Proof.
  intros F1 F2 [B1 I1 U1 O1] [B2 I2 U2 O2]. pose proof (dstart_pos sb Hsb) as Hd. split; [| | |].
  - intros a Ha Hu Hn. rewrite <-B1 by done. apply B2; [done|apply U1; [lia|done]|]. intros j Hj <-.
    destruct (O1 j Hj) as [E|E]; [lia| |congruence]. by apply (Hn j).
  - intros j Hj. by rewrite I2, I1.
  - intros a Ha Hu. by apply U2, U1.
  - intros j Hj Hne. destruct (file_slot_range sb w2 ip p2 F2 j Hj Hne). destruct (O2 j Hj Hne) as [E|E].
    + rewrite E in *. by apply O1.
    + right. destruct (used sb w (fblock w2 p2 j)) eqn:Hu; [|done]. rewrite U1 in E; [done|lia|done].
Qed.

(** ** One transaction *)

Context (copyin_at : Z → Z → list Z * bool) (mem : Z → Z).
(** Copying in gives bytes of the memory [mem] of the process, all of them or a prefix. *)
Hypothesis Hcopy : ∀ a m, 0 < m →
  Z.of_nat (length (copyin_at a m).1) ≤ m ∧
  ((copyin_at a m).2 = true → Z.of_nat (length (copyin_at a m).1) = m) ∧
  ∀ k b, (copyin_at a m).1 !! k = Some b → b = mem (u64 (a + Z.of_nat k)).

(** [e] bytes of the memory from [addr] on are in the file at [off], and [c] of
    them are counted. *)
Record wrote w (ip : nat) p w' p' (addr off n c e : Z) : Prop := {
  wr_rest : at_rest w' ip p';
  wr_meta : same_meta p p';
  wr_count : 0 ≤ c ≤ e ∧ e ≤ n;
  wr_size : size p' = Z.max (size p) (off + c);
  wr_bytes : ∀ k, 0 ≤ k < size p' → fbyte w' p' k = if decide (off ≤ k < off + e) then mem (u64 (addr + (k - off))) else fbyte w p k;
  wr_others : others_same w ip p w' p';
  wr_why : (c = e ∧ (c = n ∨ full sb w')) ∨ ∃ a m, (copyin_at a m).2 = false;
}.

Lemma u64_add a b : u64 (u64 a + b) = u64 (a + b).
Proof. unfold u64. by rewrite Z.add_mod_idemp_l. Qed.

Lemma same_meta_trans p p1 p2 : same_meta p p1 → same_meta p1 p2 → same_meta p p2.
Proof. unfold same_meta. intros. destruct_and!. split_and!; congruence. Qed.

(** What a turn of the loop of [filewrite] does: lock, write, unlock. *)
Lemma write_op_spec w ip p addr off n :
  at_rest w ip p → 0 ≤ off ≤ size p → 0 ≤ n → off + n ≤ MAXFILE * BSIZE →
  ∃ c e w1 w2 p', (ilock sb ip;; writei sb (λ tot m, copyin_at (u64 (addr + tot)) m) ip off n) w = Some (c, w1) ∧
    iunlock ip w1 = Some ((), w2) ∧ blk w2 = blk w1 ∧ wrote w ip p w2 p' addr off n c e.
Proof.
  intros (Hi & Hf & Hr & Hl & Hv) Hoff Hn Hmax. pose proof (fv_ip _ _ _ _ Hf) as Hip.
  rewrite (bind_eq _ _ _ _ _ (ilock_valid w ip p Hip Hr Hl Hv)). destruct (lock_inv w ip true p Hi Hf) as [Hi1 Hf1].
  destruct (writei_bytes sb Hsb (λ tot m, copyin_at (u64 (addr + tot)) m) (λ k, mem (u64 (addr + k)))) with
    (w := with_lock w ip true p) (ip := ip) (p := set_locked true p) (off := off) (n := n)
    as (c & e & w1 & p1 & E & Hi' & Hf' & Hc & He & Hs & Hm & Hb & Ha & Ht & [Hu Ho] & Hw); [|done..|].
  { intros tot m Ht Hm. destruct (Hcopy (u64 (addr + tot)) m Hm) as (H1 & H2 & H3). split_and!; [done..|].
    intros k b Hk. rewrite (H3 k b Hk), u64_add. f_equal. f_equal. lia. }
  assert (locked p1 = true ∧ ref p1 = ref p ∧ valid p1 = true) as (Hl1 & Hr1 & Hv1).
  { unfold same_meta in Hm. cbn in Hm. destruct_and!. split_and!; congruence. }
  exists c, e, w1, (with_lock w1 ip false p1), (set_locked false p1). split_and!; [done|apply iunlock_valid; [by apply fv_ip in Hf'|lia|done]|done|].
  destruct (lock_inv w1 ip false p1 Hi' Hf') as [Hi2 Hf2]. split; try done.
  - split_and!; [done|done|cbn; lia|done|done].
  - unfold same_meta in *. cbn in Hm |- *. destruct_and!. split_and!; congruence.
  - split; [|by intros j Hj; cbn [with_lock itable]; rewrite list_lookup_insert_ne, Ht by done; cbn [with_lock itable]; rewrite list_lookup_insert_ne by done|done|done].
    intros a Ha1 Ha2 Ha3. by destruct (Ha a Ha1 Ha2 Ha3).
  - destruct Hw as [[-> [->|[Hfull _]]]|(t & m & Hw)]; [left; auto..|]. right. by eexists _, _.
Qed.

Lemma wrote_app w ip p w1 p1 w2 p2 addr off m n c e :
  wrote w ip p w1 p1 addr off m m m → wrote w1 ip p1 w2 p2 (addr + m) (off + m) n c e → 0 ≤ off →
  wrote w ip p w2 p2 addr off (m + n) (m + c) (m + e).
Proof.
  intros [R1 M1 C1 S1 B1 O1 W1] [R2 M2 C2 S2 B2 O2 W2] Hoff. split; [done|by eapply same_meta_trans|lia|lia| | |].
  - intros k Hk. rewrite B2 by done. destruct (decide (off + m ≤ k < off + m + e)).
    + rewrite decide_True by lia. f_equal. f_equal. lia.
    + rewrite B1 by lia. destruct (decide (off ≤ k < off + m)); [by rewrite decide_True by lia|by rewrite decide_False by lia].
  - eapply others_same_trans; [apply R1|apply R2|done|done].
  - destruct W2 as [[-> [->|?]]|?]; [left; split; [done|by left]|left; auto|by right].
Qed.

(** ** The loop *)

Lemma max_write_val : max_write = 3072.
Proof. done. Qed.

(** Writing the blocks of the disk is allowed in a transaction. *)
Lemma on_fs_op {A} (m : fs A) x a w : m (ffs x) = Some (a, w) → (0 < outs x ∨ blk w = blk (ffs x)) →
  on_fs m x = Some (a, mkFworld (ftable x) (fprocs x) w (outs x) (rest x)).
Proof.
  intros E Ho. unfold on_fs. rewrite E. destruct (outs x <? 1) eqn:Hlt; [|done]. destruct Ho as [Ho|Ho]; [lia|]. by rewrite bool_decide_true.
Qed.
Lemma the_file_eq x f fl : ftable x !! f = Some fl → the_file f x = Some (fl, x).
Proof. intros E. unfold the_file. by rewrite E. Qed.
Lemma set_off_id fl : set_off (f_off fl) fl = fl.
Proof. by destruct fl. Qed.

Definition moved x f fl (off : Z) w : fworld P := mkFworld (<[f := set_off off fl]> (ftable x)) (fprocs x) w (outs x) (rest x).

Lemma filewrite_loop_spec fuel : ∀ x f fl p addr i n,
  ftable x !! f = Some fl → at_rest (ffs x) (f_ip fl) p → 0 ≤ f_off fl ≤ size p → 0 ≤ i ≤ n → f_off fl + (n - i) ≤ MAXFILE * BSIZE →
  0 ≤ outs x → n - i < (Z.of_nat fuel - 1) * max_write + 1 → (0 < fuel)%nat →
  ∃ r c e w' p', filewrite_loop sb copyin_at fuel f addr i n x = Some (r, moved x f fl (f_off fl + c) w') ∧
    wrote (ffs x) (f_ip fl) p w' p' (addr + i) (f_off fl) (n - i) c e ∧ (r = n ↔ c = n - i).
Proof.
  induction fuel as [|fuel IH]; [lia|]. intros x f fl p addr i n Hfl Hp Hoff Hi Hmax Ho Hfu _. cbn [filewrite_loop].
  rewrite max_write_val in *. destruct (i <? n) eqn:Hlt.
  2:{ assert (i = n) as -> by lia. exists n, 0, 0, (ffs x), p. split_and!.
      - unfold moved. rewrite Z.add_0_r, set_off_id, list_insert_id by done. by destruct x.
      - split; [done|done|lia|lia| |apply others_same_refl|left; split; [done|left; lia]]. intros k Hk. by rewrite decide_False by lia.
      - lia. }
  rewrite (bind_eq _ _ _ _ _ (the_file_eq x f fl Hfl)). set (n1 := if 3072 <? n - i then 3072 else n - i).
  assert (0 < n1 ≤ n - i ∧ (n1 = n - i ∨ n1 = 3072)) as Hn1 by (unfold n1; destruct (3072 <? n - i) eqn:?; lia).
  set (x1 := mkFworld (ftable x) (fprocs x) (ffs x) (outs x + 1) (rest x)).
  rewrite (bind_eq _ _ x () x1) by done.
  destruct (write_op_spec (ffs x) (f_ip fl) p (addr + i) (f_off fl) n1) as (c & e & w1 & w2 & p' & E1 & E2 & Eb & Hw); [done|lia|lia|lia|].
  rewrite (bind_eq _ _ x1 _ _ (on_fs_op _ x1 c w1 E1 ltac:(left; cbn; lia))). cbn [x1 ftable fprocs outs rest].
  pose proof (wr_count _ _ _ _ _ _ _ _ _ _ Hw) as Hc. change (MAXFILE * BSIZE) with 274432 in Hmax.
  assert (u32 (f_off fl + c) = f_off fl + c) as Hu by (apply u32_id; lia).
  set (t2 := <[f := set_off (f_off fl + c) fl]> (ftable x)).
  rewrite (bind_eq _ _ _ () (mkFworld t2 (fprocs x) w1 (outs x + 1) (rest x))).
  2:{ unfold when. destruct (0 <? c) eqn:Hc0.
      - unfold upd_file. cbn [ftable]. by rewrite Hfl, Hu.
      - unfold t2. replace c with 0 by lia. by rewrite Z.add_0_r, set_off_id, list_insert_id by done. }
  rewrite (bind_eq _ _ _ () (mkFworld t2 (fprocs x) w2 (outs x + 1) (rest x))).
  2:{ exact (on_fs_op _ (mkFworld t2 (fprocs x) w1 (outs x + 1) (rest x)) () w2 E2 (or_intror Eb)). }
  rewrite (bind_eq _ _ _ () (moved x f fl (f_off fl + c) w2)).
  2:{ unfold end_op, modify, moved. cbn [ftable fprocs ffs outs rest]. by replace (outs x + 1 - 1) with (outs x) by lia. }
  destruct (c =? n1) eqn:Hcn; cbn [negb].
  2:{ exists i, c, e, w2, p'. split; [done|]. split; [|lia]. destruct Hw as [R M C S B O W]. split; [done|done|lia|done|done|done|].
      destruct W as [[-> [->|W]]|W]; [lia|left; auto|by right]. }
  assert (c = n1) as -> by lia. assert (e = n1) as -> by lia. pose proof (lookup_lt_Some _ _ _ Hfl) as Hlen.
  destruct (IH (moved x f fl (f_off fl + n1) w2) f (set_off (f_off fl + n1) fl) p' addr (i + n1) n) as (r & c' & e' & w' & p2 & E & Hw2 & Hr).
  - cbn [moved ftable]. by apply list_lookup_insert_eq.
  - exact (wr_rest _ _ _ _ _ _ _ _ _ _ Hw).
  - cbn [set_off f_off]. rewrite (wr_size _ _ _ _ _ _ _ _ _ _ Hw). lia.
  - lia.
  - cbn [set_off f_off]. change (MAXFILE * BSIZE) with 274432. lia.
  - done.
  - lia.
  - lia.
  - cbn [set_off f_off f_ip moved ffs] in *. exists r, (n1 + c'), (n1 + e'), w', p2. split_and!; [| |lia].
    + rewrite E. unfold moved. cbn [set_off ftable fprocs outs rest f_type f_ref readable writable f_pipe f_ip f_off f_major].
      rewrite list_insert_insert_eq. by rewrite Z.add_assoc.
    + replace (n - i) with (n1 + (n - (i + n1))) by lia. eapply wrote_app; [exact Hw| |lia]. by rewrite <-Z.add_assoc.
Qed.

(** C19: writing [n] bytes to a file that is open for writing on an inode, at an
    offset within it, when the result would not be too long. The call returns.
    The file then has the bytes of the memory of the process at the old offset,
    the offset is behind those that are counted, and the other inodes and the
    blocks of other files are as they were. The result is [n] if all are
    written and -1 otherwise, which happens only if the disk is full or the
    bytes cannot be read from the process; the file may have grown then, by the
    transactions that were complete and a part of the last one. *)
Theorem filewrite_writes me f x fl p addr n :
  ftable x !! f = Some fl → f_type fl = FD_INODE → writable fl = true → at_rest (ffs x) (f_ip fl) p →
  0 ≤ f_off fl ≤ size p → 0 ≤ n → f_off fl + n ≤ MAXFILE * BSIZE → 0 ≤ outs x →
  ∃ c e w' p', filewrite sb copyin_at me f addr n x =
      Some (if decide (c = n) then n else -1, mkFworld (<[f := set_off (f_off fl + c) fl]> (ftable x)) (fprocs x) w' (outs x) (rest x)) ∧
    at_rest w' (f_ip fl) p' ∧ same_meta p p' ∧ 0 ≤ c ≤ e ∧ e ≤ n ∧ size p' = Z.max (size p) (f_off fl + c) ∧
    (∀ k, 0 ≤ k < size p' →
       fbyte w' p' k = if decide (f_off fl ≤ k < f_off fl + e) then mem (u64 (addr + (k - f_off fl))) else fbyte (ffs x) p k) ∧
    (∀ a, dstart sb ≤ a < sb_size sb → used sb (ffs x) a = true → (∀ j, 0 ≤ j ≤ MAXFILE → fblock (ffs x) p j ≠ a) →
       blk w' !! a = blk (ffs x) !! a ∧ used sb w' a = true) ∧
    (∀ j, j ≠ f_ip fl → itable w' !! j = itable (ffs x) !! j) ∧
    ((c = e ∧ (c = n ∨ full sb w')) ∨ ∃ a m, (copyin_at a m).2 = false).
Proof.
  intros Hfl Ht Hw Hp Hoff Hn Hmax Ho. unfold filewrite. rewrite (bind_eq _ _ _ _ _ (the_file_eq x f fl Hfl)), Hw, Ht, (proj2 (Z.ltb_ge n 0)) by lia. cbn [orb negb].
  destruct (filewrite_loop_spec (S (Z.to_nat (n / max_write + 1))) x f fl p addr 0 n) as (r & c & e & w' & p' & E & [R M C S B [O1 O2 O3 _] W] & Hr); try done; [lia| |lia|].
  { rewrite max_write_val. pose proof (Z.div_mod n 3072 ltac:(lia)). pose proof (Z.mod_pos_bound n 3072 ltac:(lia)). lia. }
  rewrite (bind_eq _ _ _ _ _ E). rewrite ?Z.add_0_r, ?Z.sub_0_r in *. exists c, e, w', p'. pose proof (dstart_pos sb Hsb).
  split_and!; try done; try lia.
  - case_decide as Hc; destruct (r =? n) eqn:?; first [done|lia].
  - intros a Ha Hu Hno. split; [by apply O1|apply O3; [lia|done]].
Qed.
End rw.

(** 4000 bytes from offset 2: two transactions. *)
Definition rw_inode : inode := set_locked false demo_inode.
Definition rw_fs : fsw := mkFsw demo_blocks [rw_inode].
Definition rw_file : file := mkFile FD_INODE 1 true true 0 0 2 0.
Definition rw_world : fworld unit := mkFworld [rw_file] [] rw_fs 0 ().
Definition rw_ops : FileOps unit := {|
  pipe_new := mret 0; pipe_close := λ _ _, mret (); pipe_read := λ _ _ _ _, mret (0, []); pipe_write := λ _ _ _ _, mret 0;
  dev_read := λ _, None; dev_write := λ _, None;
|}.
Definition rw_mem (a : Z) : Z := a mod 256.
Definition rw_copyin (a m : Z) : list Z * bool := ((λ k, rw_mem (u64 (a + k))) <$> seqZ 0 m, true).

Lemma rw_copyin_ok a m : 0 < m →
  Z.of_nat (length (rw_copyin a m).1) ≤ m ∧ ((rw_copyin a m).2 = true → Z.of_nat (length (rw_copyin a m).1) = m) ∧
  ∀ k b, (rw_copyin a m).1 !! k = Some b → b = rw_mem (u64 (a + Z.of_nat k)).
Proof.
  intros Hm. cbn [rw_copyin fst snd]. rewrite length_fmap, length_seqZ. split_and!; [lia|lia|].
  intros k b Hb. rewrite list_lookup_fmap in Hb. destruct (seqZ 0 m !! k) as [y|] eqn:E; simplify_eq/=.
  by apply lookup_seqZ in E as [-> _].
Qed.
Lemma rw_at_rest : at_rest demo_sb rw_fs 0 rw_inode.
Proof.
  destruct (lock_inv demo_sb demo_fs 0 false demo_inode demo_fs_inv demo_file) as [Hi Hf].
  split_and!; [exact Hi|exact Hf|done..].
Qed.

Lemma filewrite_writes_witness :
  ∃ c w' p', @filewrite unit rw_ops demo_sb rw_copyin 0 0 500 4000 rw_world =
      Some (if decide (c = 4000) then 4000 else -1, mkFworld [set_off (2 + c) rw_file] [] w' 0 ()) ∧
    size p' = Z.max 3 (2 + c) ∧ (∀ k, 0 ≤ k < 2 → fbyte w' p' k = fbyte rw_fs rw_inode k).
Proof.
  destruct (@filewrite_writes unit rw_ops demo_sb demo_layout rw_copyin rw_mem rw_copyin_ok 0 0 rw_world rw_file rw_inode 500 4000)
    as (c & e & w' & p' & E & _ & _ & Hc & He & Hs & Hb & _);
    [done|done|done|exact rw_at_rest|done|done|done|done|].
  exists c, w', p'. split; [exact E|]. split; [exact Hs|]. intros k Hk. rewrite Hb by (rewrite Hs; cbn; lia).
  rewrite decide_False; [done|]. cbn [rw_file f_off]. lia.
Defined.
Example filewrite_run :
  (λ r, (r.1, f_off <$> ftable r.2, outs r.2)) <$> @filewrite unit rw_ops demo_sb rw_copyin 0 0 500 4000 rw_world = Some (4000, [4002], 0).
Proof. by vm_compute. Qed.
