(* ===== verification/FileInv.v ===== *)
(** The invariant of open files: what refers to what, and how often.

    A file has as many references as there are descriptors for it. A reference
    to an inode is a file that is open on it or the current directory of a
    process. The open ends of pipes are the open files on them. While a call
    runs it holds some of these itself. *)
From stdpp Require Import gmultiset.
From S2P Require Import Prelude Fs FsBlock FsFile FsRw FsDir SysFs FsRef File.

(** ** Sums *)

Section msum.
Context {A B : Type} `{Countable B} (g : A → gmultiset B).
Definition msum (l : list A) : gmultiset B := foldr (λ a X, g a ⊎ X) ∅ l.
Lemma msum_insert l i x y : l !! i = Some x → g x ⊎ msum (<[i := y]> l) = g y ⊎ msum l.
Proof.
  revert i; induction l as [|z l IH]; intros i Hi; [done|]. destruct i as [|i].
  - injection Hi as <-. change (g z ⊎ (g y ⊎ msum l) = g y ⊎ (g z ⊎ msum l)). multiset_solver.
  - specialize (IH i Hi). change (g x ⊎ (g z ⊎ msum (<[i := y]> l)) = g y ⊎ (g z ⊎ msum l)). multiset_solver.
Qed.
Lemma msum_elem l i x : l !! i = Some x → g x ⊆ msum l.
Proof.
  revert i; induction l as [|z l IH]; intros i Hi; [done|]. change (g x ⊆ g z ⊎ msum l). destruct i as [|i].
  - injection Hi as <-. multiset_solver.
  - specialize (IH i Hi). multiset_solver.
Qed.
End msum.

(** ** What pipes and devices promise *)

Class FileLaws (P : Type) `{FileOps P} := {
  is_caller : nat → Prop;
  rest_ok : P → Prop;
  open_end : P → Z → bool → bool;
  pipe_new_law s : rest_ok s → ∃ pa s', pipe_new s = Some (pa, s') ∧ rest_ok s' ∧
    if decide (pa = 0) then ∀ q e, open_end s' q e = open_end s q e
    else ∀ q e, open_end s pa e = false ∧ open_end s' q e = if decide (q = pa) then true else open_end s q e;
  pipe_close_law s pa e : rest_ok s → open_end s pa e = true → ∃ s', pipe_close pa e s = Some ((), s') ∧ rest_ok s' ∧
    ∀ q e', open_end s' q e' = if decide ((q, e') = (pa, e)) then false else open_end s q e';
  pipe_read_law me pa addr n s r s' : is_caller me → rest_ok s → 0 ≤ n < 2 ^ 31 → pipe_read me pa addr n s = Some (r, s') → rest_ok s' ∧ ∀ q e, open_end s' q e = open_end s q e;
  pipe_write_law me pa addr n s r s' : is_caller me → rest_ok s → 0 ≤ n < 2 ^ 31 → pipe_write me pa addr n s = Some (r, s') → rest_ok s' ∧ ∀ q e, open_end s' q e = open_end s q e;
  dev_read_law me d rd addr n s r s' : is_caller me → dev_read d = Some rd → rest_ok s → 0 ≤ n < 2 ^ 31 → rd me addr n s = Some (r, s') → rest_ok s' ∧ ∀ q e, open_end s' q e = open_end s q e;
  dev_write_law me d wr addr n s r s' : is_caller me → dev_write d = Some wr → rest_ok s → 0 ≤ n < 2 ^ 31 → wr me addr n s = Some (r, s') → rest_ok s' ∧ ∀ q e, open_end s' q e = open_end s q e;
}.

(** ** The invariant *)

(** What a file and a process refer to. *)
Abbreviation ends := (@gmultiset (Z * bool) _ prod_countable).
Definition inode_of (fl : file) : held := match f_type fl with FD_INODE | FD_DEVICE => rf (f_ip fl) | _ => ∅ end.
Definition end_of (fl : file) : ends := match f_type fl with FD_PIPE => {[+ (f_pipe fl, writable fl) +]} | _ => ∅ end.
Definition desc_of (p : pfiles) : gmultiset nat := msum (λ o, match o with Some f => {[+ f +]} | None => ∅ end) (ofile p).
Definition cwd_of (p : pfiles) : held := match pcwd p with Some c => rf c | None => ∅ end.

Section inv.
Context {P : Type} `{FileLaws P}.
Implicit Types (x : fworld P) (fl : file) (D : gmultiset nat) (R : held) (E : ends) (N : gset nat).

(** A running call holds the references [D] to files, [R] to inodes (and
    locks), and the ends [E] of pipes; [N] are files it has allocated and not
    opened yet. [o] calls are in a transaction. *)
Record wf x D R E N (o : Z) : Prop := {
  w_len : length (ftable x) = NFILE;
  w_fds : Forall (λ p, length (ofile p) = NOFILE) (fprocs x);
  w_ref : ∀ f, match ftable x !! f with
               | Some fl => f_ref fl = Z.of_nat (multiplicity f (D ⊎ msum desc_of (fprocs x)))
               | None => multiplicity f (D ⊎ msum desc_of (fprocs x)) = 0%nat
               end;
  w_type : ∀ f fl, ftable x !! f = Some fl → (f_ref fl = 0 → f_type fl = FD_NONE) ∧ (f_type fl = FD_NONE → f_ref fl = 0 ∨ f ∈ N);
  w_inodes : owns (ffs x) (R ⊎ (msum inode_of (ftable x) ⊎ msum cwd_of (fprocs x)));
  w_ends : ∀ q e, multiplicity (q, e) (E ⊎ msum end_of (ftable x)) = (if open_end (rest x) q e then 1 else 0)%nat;
  w_rest : rest_ok (rest x);
  w_outs : outs x = o;
}.

(** One entry of the file table changes. *)
Lemma wf_file x D R E N o f fl fl' D' R' E' N' :
  wf x D R E N o → ftable x !! f = Some fl →
  f_ref fl' + Z.of_nat (multiplicity f D) = f_ref fl + Z.of_nat (multiplicity f D') → (∀ g, g ≠ f → multiplicity g D' = multiplicity g D) →
  inode_of fl' ⊎ R' = inode_of fl ⊎ R → end_of fl' ⊎ E' = end_of fl ⊎ E →
  (f_ref fl' = 0 → f_type fl' = FD_NONE) → (f_type fl' = FD_NONE → f_ref fl' = 0 ∨ f ∈ N') → (∀ g, g ≠ f → g ∈ N → g ∈ N') →
  wf (mkFworld (<[f := fl']> (ftable x)) (fprocs x) (ffs x) (outs x) (rest x)) D' R' E' N' o.
Proof.
  intros Hw Hf Hr HD HR HE Ht1 Ht2 HN. pose proof (msum_insert inode_of _ _ _ fl' Hf) as S1. pose proof (msum_insert end_of _ _ _ fl' Hf) as S2.
  split; cbn [ftable fprocs ffs outs rest]; try apply Hw.
  - rewrite length_insert. apply Hw.
  - intros g. pose proof (w_ref _ _ _ _ _ _ Hw g) as Hg. destruct (decide (g = f)) as [->|Hne].
    + rewrite list_lookup_insert_eq by (by eapply lookup_lt_Some). rewrite Hf in Hg. rewrite multiplicity_disj_union in *. lia.
    + rewrite list_lookup_insert_ne by done. rewrite multiplicity_disj_union in *. by rewrite (HD g Hne).
  - intros g gl Hg. destruct (decide (g = f)) as [->|Hne].
    + rewrite list_lookup_insert_eq in Hg by (by eapply lookup_lt_Some). injection Hg as <-. done.
    + rewrite list_lookup_insert_ne in Hg by done. destruct (w_type _ _ _ _ _ _ Hw g gl Hg) as [H1 H2]. split; [done|]. intros Ht. destruct (H2 Ht); auto.
  - replace (R' ⊎ _) with (R ⊎ (msum inode_of (ftable x) ⊎ msum cwd_of (fprocs x))); [apply Hw|]. clear -S1 HR. multiset_solver.
  - intros q e. rewrite <-(w_ends _ _ _ _ _ _ Hw q e). f_equal. clear -S2 HE. multiset_solver.
Qed.
(** One process changes. *)
Lemma wf_proc x D R E N o me p p' D' R' :
  wf x D R E N o → fprocs x !! me = Some p → length (ofile p') = NOFILE →
  desc_of p' ⊎ D' = desc_of p ⊎ D → cwd_of p' ⊎ R' = cwd_of p ⊎ R →
  wf (mkFworld (ftable x) (<[me := p']> (fprocs x)) (ffs x) (outs x) (rest x)) D' R' E N o.
Proof.
  intros Hw Hp Hl HD HR. pose proof (msum_insert desc_of _ _ _ p' Hp) as S1. pose proof (msum_insert cwd_of _ _ _ p' Hp) as S2.
  assert (D' ⊎ msum desc_of (<[me := p']> (fprocs x)) = D ⊎ msum desc_of (fprocs x)) as EqD by (clear -S1 HD; multiset_solver).
  split; cbn [ftable fprocs ffs outs rest]; try apply Hw.
  - apply Forall_insert; [apply Hw|done].
  - intros g. rewrite EqD. apply (w_ref _ _ _ _ _ _ Hw g).
  - replace (R' ⊎ _) with (R ⊎ (msum inode_of (ftable x) ⊎ msum cwd_of (fprocs x))); [apply Hw|]. clear -S2 HR. multiset_solver.
Qed.
End inv.

(** The operations on open files keep the invariant. *)

Lemma find_index_Some {A} (b : A → bool) l i k :
  find_index b l i = Some k → ∃ a, l !! (k - i)%nat = Some a ∧ (i ≤ k)%nat ∧ b a = true.
Proof.
  revert i; induction l as [|a l IH]; intros i; cbn [find_index]; [done|]. destruct (b a) eqn:E.
  - intros [= <-]. exists a. rewrite Nat.sub_diag. done.
  - intros (c & Hc & Hk & Hb)%IH. exists c. replace (k - i)%nat with (S (k - S i)) by lia. split_and!; [done|lia|done].
Qed.

Set Default Proof Using "Type".
Section ops.
Context {P : Type} `{FileLaws P} (sb : superblock) (copyout_ok : Z → Z → bool) (copyin_at : Z → Z → list Z * bool).
Implicit Types (x : fworld P) (fl : file) (D : gmultiset nat) (R : held) (E : ends) (N : gset nat).
Abbreviation fm := (M (fworld P)).

(** ** A logic for calls *)

(** A call that leaves what is held as it is. *)
Definition still {A} (m : fm A) : Prop := ∀ D R E N o x a x', wf x D R E N o → m x = Some (a, x') → wf x' D R E N o.

Lemma still_ret {A} (a : A) : still (mret a).
Proof. by intros D R E N o x b x' Hw [= _ <-]. Qed.
Lemma still_stuck {A} : still (stuck (A := A)).
Proof. by intros D R E N o x b x' Hw ?. Qed.
Lemma still_bind {A B} (m : fm A) (f : A → fm B) : still m → (∀ a, still (f a)) → still (m ≫= f).
Proof. intros Hm Hf D R E N o x b x' Hw (a & x1 & E1 & E2)%bind_Some. eapply Hf; [|exact E2]. by eapply Hm. Qed.
Lemma still_the_file f : still (the_file f).
Proof. intros D R E N o x b x' Hw. unfold the_file. destruct (ftable x !! f); [|done]. by intros [= _ <-]. Qed.
Lemma still_the_proc me : still (the_proc me).
Proof. intros D R E N o x b x' Hw. unfold the_proc. destruct (fprocs x !! me); [|done]. by intros [= _ <-]. Qed.
Lemma still_argfd me fd : still (argfd me fd).
Proof.
  unfold argfd. destruct (_ || _); [apply still_ret|]. apply still_bind; [apply still_the_proc|]. intros p.
  destruct (ofile p !! _) as [[f|]|]; [apply still_ret..|apply still_stuck].
Qed.

Lemma wf_begin x D R E N o x' u : wf x D R E N o → begin_op x = Some (u, x') → wf x' D R E N (o + 1).
Proof. intros Hw [= _ <-]. split; try apply Hw. cbn. by rewrite (w_outs _ _ _ _ _ _ Hw). Qed.
Lemma wf_end x D R E N o x' u : wf x D R E N o → end_op x = Some (u, x') → wf x' D R E N (o - 1).
Proof. intros Hw [= _ <-]. split; try apply Hw. cbn. by rewrite (w_outs _ _ _ _ _ _ Hw). Qed.

(** A call of the file system, with its specification. *)
Lemma wf_on_fs {A} R0 (m : fs A) Q x D R E N o a x' :
  spec R0 m Q → wf x D (R0 ⊎ R) E N o → on_fs m x = Some (a, x') → wf x' D (Q a ⊎ R) E N o ∧ ftable x' = ftable x ∧ fprocs x' = fprocs x.
Proof.
  intros Hm Hw. unfold on_fs. destruct (m (ffs x)) as [[b w]|] eqn:Em; [|done]. destruct (_ && _); [done|]. intros [= -> <-].
  split; [|done]. split; cbn [ftable fprocs ffs outs rest]; try apply Hw.
  rewrite <-(assoc_L (⊎)). eapply Hm; [|exact Em]. rewrite (assoc_L (⊎)). apply Hw.
Qed.
Lemma wf_on_rest {A} (m : M P A) x D R E N o a x' :
  (∀ s b s', rest_ok s → m s = Some (b, s') → rest_ok s' ∧ ∀ q e, open_end s' q e = open_end s q e) →
  wf x D R E N o → on_rest m x = Some (a, x') → wf x' D R E N o.
Proof.
  intros Hm Hw. unfold on_rest. destruct (m (rest x)) as [[b p]|] eqn:Em; [|done]. intros [= -> <-].
  destruct (Hm _ _ _ (w_rest _ _ _ _ _ _ Hw) Em) as [Hr He]. split; cbn [ftable fprocs ffs outs rest]; try apply Hw; [|done].
  intros q e. rewrite He. apply Hw.
Qed.

(** ** Files *)

Lemma wf_filealloc x D R E N o r x' :
  wf x D R E N o → filealloc x = Some (r, x') →
  match r with
  | Some f => wf x' ({[+ f +]} ⊎ D) R E (N ∪ {[f]}) o ∧ multiplicity f (D ⊎ msum desc_of (fprocs x)) = 0%nat ∧ fprocs x' = fprocs x ∧
              ∃ fl, ftable x' !! f = Some fl ∧ f_type fl = FD_NONE
  | None => x' = x
  end.
Proof.
  intros Hw. unfold filealloc. rewrite (bind_eq _ _ _ (ftable x) x) by done.
  destruct (find_index (λ fl, f_ref fl =? 0) (ftable x) 0) as [f|] eqn:Ef; [|by intros [= <- <-]].
  apply find_index_Some in Ef as (fl & Hf & _ & Hr). rewrite Nat.sub_0_r in Hf. apply Z.eqb_eq in Hr.
  intros (u & x1 & E1 & [= <- <-])%bind_Some. unfold upd_file in E1. rewrite Hf in E1. injection E1 as _ <-.
  pose proof (w_ref _ _ _ _ _ _ Hw f) as Hf'. rewrite Hf in Hf'. destruct (w_type _ _ _ _ _ _ Hw f fl Hf) as [Ht _].
  split_and!; [|lia|done|].
  - eapply wf_file; [exact Hw|exact Hf|..]; cbn [set_fref f_ref f_type]; try done.
    + rewrite multiplicity_disj_union, multiplicity_singleton_eq. lia.
    + intros g Hg. rewrite multiplicity_disj_union, multiplicity_singleton_ne by done. done.
    + intros _. right. apply elem_of_union. right. by apply elem_of_singleton.
    + intros g _ Hg. apply elem_of_union. by left.
  - exists (set_fref 1 fl). split; [|by apply Ht]. cbn [ftable]. by rewrite list_lookup_insert_eq by (by eapply lookup_lt_Some).
Qed.

Lemma wf_filedup x D R E N o f x' r :
  wf x D R E N o → filedup f x = Some (r, x') → wf x' ({[+ f +]} ⊎ D) R E N o ∧ r = f ∧ fprocs x' = fprocs x.
Proof.
  intros Hw. unfold filedup, the_file. intros (fl & x1 & E1 & E2)%bind_Some. destruct (ftable x !! f) as [fl'|] eqn:Hf; [|done]. injection E1 as -> <-.
  destruct (f_ref fl <? 1) eqn:Hr; [done|]. apply bind_Some in E2 as (u & x2 & E2 & [= <- <-]). unfold upd_file in E2. rewrite Hf in E2. injection E2 as _ <-.
  split; [|done]. destruct (w_type _ _ _ _ _ _ Hw f fl Hf) as [Ht1 Ht2].
  eapply wf_file; [exact Hw|exact Hf|..]; cbn [set_fref f_ref f_type]; try done.
  - rewrite multiplicity_disj_union, multiplicity_singleton_eq. lia.
  - intros g Hg. rewrite multiplicity_disj_union, multiplicity_singleton_ne by done. done.
  - lia.
  - intros Ht. destruct (Ht2 Ht); [lia|by right].
Qed.

Lemma mult_single {A} `{Countable A} (a b : A) : multiplicity a {[+ b +]} = (if decide (a = b) then 1 else 0)%nat.
Proof. apply multiplicity_singleton. Qed.

Lemma wf_pipe_close x D R E N o pa e u x' :
  wf x D R ({[+ (pa, e) +]} ⊎ E) N o → on_rest (pipe_close pa e) x = Some (u, x') → wf x' D R E N o.
Proof.
  intros Hw. assert (open_end (rest x) pa e = true) as Ho.
  { pose proof (w_ends _ _ _ _ _ _ Hw pa e) as He. rewrite !multiplicity_disj_union, mult_single, decide_True in He by done. destruct (open_end _ _ _); [done|lia]. }
  destruct (pipe_close_law _ pa e (w_rest _ _ _ _ _ _ Hw) Ho) as (s' & Ec & Hr & Hs). unfold on_rest. rewrite Ec. intros [= _ <-].
  split; cbn [ftable fprocs ffs outs rest]; try apply Hw; [|done]. intros q e'. rewrite Hs. pose proof (w_ends _ _ _ _ _ _ Hw q e') as He.
  rewrite !multiplicity_disj_union, mult_single in He. rewrite multiplicity_disj_union. destruct (decide ((q, e') = (pa, e))) as [[= -> ->]|Hne]; [|done].
  rewrite Ho in He. lia.
Qed.
Lemma wf_pipe_new x D R E N o pa x' :
  wf x D R E N o → on_rest pipe_new x = Some (pa, x') →
  if decide (pa = 0) then wf x' D R E N o else wf x' D R ({[+ (pa, false) +]} ⊎ ({[+ (pa, true) +]} ⊎ E)) N o.
Proof.
  intros Hw. destruct (pipe_new_law _ (w_rest _ _ _ _ _ _ Hw)) as (pa' & s' & Ec & Hr & Hs). unfold on_rest. rewrite Ec. intros [= -> <-].
  destruct (decide (pa = 0)) as [Hz|Hz].
  - split; cbn [ftable fprocs ffs outs rest]; try apply Hw; [|done]. intros q e. rewrite Hs. apply Hw.
  - split; cbn [ftable fprocs ffs outs rest]; try apply Hw; [|done]. intros q e. destruct (Hs q e) as [Hn Hq]. rewrite Hq. pose proof (w_ends _ _ _ _ _ _ Hw q e) as He.
    rewrite !multiplicity_disj_union, !mult_single in *. destruct (decide (q = pa)) as [->|Hne].
    + rewrite Hn in He. destruct e; repeat case_decide; simplify_eq; lia.
    + rewrite !decide_False by congruence. done.
Qed.

(** The last reference to a file goes. *)
Lemma wf_close_last x D R E N o f fl u x' :
  wf x ({[+ f +]} ⊎ D) R E N o → ftable x !! f = Some fl → f_ref fl = 1 →
  (match f_type fl with
   | FD_PIPE => on_rest (pipe_close (f_pipe fl) (writable fl))
   | FD_INODE | FD_DEVICE => begin_op;; on_fs (iput sb (f_ip fl));; end_op
   | FD_NONE => mret ()
   end) (mkFworld (<[f := set_ftype FD_NONE (set_fref 0 fl)]> (ftable x)) (fprocs x) (ffs x) (outs x) (rest x)) = Some (u, x') →
  wf x' D R E N o ∧ fprocs x' = fprocs x.
Proof.
  intros Hw Hf Hr. set (x1 := mkFworld _ _ _ _ _).
  assert (wf x1 D (inode_of fl ⊎ R) (end_of fl ⊎ E) N o) as Hw1.
  { eapply wf_file; [exact Hw|exact Hf|..]; cbn [set_fref set_ftype f_ref f_type]; try done; [..|by left].
    - rewrite multiplicity_disj_union, mult_single, decide_True by done. lia.
    - intros g Hg. rewrite multiplicity_disj_union, mult_single, decide_False by done. done.
    - change (inode_of (set_ftype FD_NONE (set_fref 0 fl))) with (∅ : held). multiset_solver.
    - change (end_of (set_ftype FD_NONE (set_fref 0 fl))) with (∅ : ends). multiset_solver. }
  assert (∀ v, (begin_op;; on_fs (iput sb (f_ip fl));; end_op) x1 = Some (v, x') → inode_of fl = rf (f_ip fl) → end_of fl = ∅ → wf x' D R E N o ∧ fprocs x' = fprocs x) as Hino.
  { intros v (u1 & x2 & E1 & (u2 & x3 & E2 & E3)%bind_Some)%bind_Some Hi He. rewrite Hi, He, (left_id_L ∅ (⊎)) in Hw1.
    pose proof (wf_begin _ _ _ _ _ _ _ _ Hw1 E1) as Hw2. destruct (wf_on_fs _ _ _ _ _ _ _ _ _ _ _ (s_iput sb (f_ip fl)) Hw2 E2) as (Hw3 & _ & Hp).
    pose proof (wf_end _ _ _ _ _ _ _ _ Hw3 E3) as Hw4. rewrite (left_id_L ∅ (⊎)) in Hw4. replace (o + 1 - 1) with o in Hw4 by lia.
    injection E1 as _ <-. injection E3 as _ <-. done. }
  unfold inode_of, end_of in Hw1, Hino. destruct (f_type fl) eqn:Ht; intros Ex.
  - injection Ex as _ <-. rewrite !(left_id_L ∅ (⊎)) in Hw1. done.
  - rewrite (left_id_L ∅ (⊎)) in Hw1. split; [by eapply wf_pipe_close|]. unfold on_rest in Ex. destruct (pipe_close _ _ _) as [[? ?]|]; [|done]. by injection Ex as _ <-.
  - by eapply Hino.
  - by eapply Hino.
Qed.
Lemma wf_fileclose x D R E N o f u x' :
  wf x ({[+ f +]} ⊎ D) R E N o → fileclose sb f x = Some (u, x') → wf x' D R E N o ∧ fprocs x' = fprocs x.
Proof.
  intros Hw. unfold fileclose. intros (fl & x1 & E1 & E2)%bind_Some. unfold the_file in E1. destruct (ftable x !! f) as [fl'|] eqn:Hf; [|done]. injection E1 as -> <-.
  destruct (f_ref fl <? 1) eqn:Hr; [done|]. apply bind_Some in E2 as (v & x2 & E2 & E3). unfold upd_file in E2. rewrite Hf in E2. injection E2 as _ <-.
  destruct (0 <? f_ref fl - 1) eqn:Hr'.
  - injection E3 as _ <-. split; [|done]. destruct (w_type _ _ _ _ _ _ Hw f fl Hf) as [Ht1 Ht2].
    eapply wf_file; [exact Hw|exact Hf|..]; cbn [set_fref f_ref f_type]; try done.
    + rewrite multiplicity_disj_union, mult_single, decide_True by done. lia.
    + intros g Hg. rewrite multiplicity_disj_union, mult_single, decide_False by done. done.
    + lia.
    + intros Ht. destruct (Ht2 Ht); [lia|by right].
  - apply bind_Some in E3 as (v' & x3 & E3 & E4). unfold upd_file in E3. cbn [ftable fprocs ffs outs rest] in E3.
    rewrite list_lookup_insert_eq in E3 by (by eapply lookup_lt_Some). injection E3 as _ <-. rewrite list_insert_insert_eq in E4.
    assert (f_ref fl = 1) as Hr1 by lia. by eapply wf_close_last.
Qed.

(** ** Descriptors *)

Definition od (o : option nat) : gmultiset nat := match o with Some f => {[+ f +]} | None => ∅ end.

Lemma wf_set_ofile x D R E N o me fd p v0 v u x' :
  wf x (od v ⊎ D) R E N o → fprocs x !! me = Some p → ofile p !! fd = Some v0 → set_ofile me fd v x = Some (u, x') →
  wf x' (od v0 ⊎ D) R E N o ∧ fprocs x' = <[me := mkPfiles (<[fd := v]> (ofile p)) (pcwd p)]> (fprocs x).
Proof.
  intros Hw Hp Hfd. unfold set_ofile, the_proc. intros (q & x1 & E1 & E2)%bind_Some. rewrite Hp in E1. injection E1 as <- <-. injection E2 as _ <-.
  split; [|done]. eapply wf_proc; [exact Hw|exact Hp|..]; cbn [ofile]; [| |done].
  - rewrite length_insert. pose proof (w_fds _ _ _ _ _ _ Hw) as Hl. rewrite Forall_lookup in Hl. by eapply Hl.
  - unfold desc_of. cbn [ofile]. pose proof (msum_insert (λ o, match o with Some f => {[+ f +]} | None => ∅ end) _ _ _ v Hfd) as S1.
    change (msum od (<[fd := v]> (ofile p)) ⊎ (od v0 ⊎ D) = msum od (ofile p) ⊎ (od v ⊎ D)). change (od v0 ⊎ msum od (<[fd := v]> (ofile p)) = od v ⊎ msum od (ofile p)) in S1.
    revert S1. generalize (msum od (<[fd := v]> (ofile p))), (msum od (ofile p)), (od v0), (od v). clear. intros. multiset_solver.
Qed.
Lemma argfd_eq me fd x r x' :
  argfd me fd x = Some (r, x') →
  x' = x ∧ match r with Some (i, f) => ∃ p, fprocs x !! me = Some p ∧ ofile p !! i = Some (Some f) | None => True end.
Proof.
  unfold argfd, the_proc. destruct (_ || _); [by intros [= <- <-]|]. intros (p & x1 & E1 & E2)%bind_Some.
  destruct (fprocs x !! me) as [p'|] eqn:Hp; [|done]. injection E1 as -> <-. destruct (ofile p !! Z.to_nat fd) as [[f|]|] eqn:Hf; [| |done]; injection E2 as <- <-; eauto.
Qed.
Lemma wf_fdalloc x D R E N o me f r x' :
  wf x ({[+ f +]} ⊎ D) R E N o → fdalloc me f x = Some (r, x') →
  match r with
  | Some fd => wf x' D R E N o ∧ ∃ p, fprocs x !! me = Some p ∧ ofile p !! fd = Some None ∧
      fprocs x' = <[me := mkPfiles (<[fd := Some f]> (ofile p)) (pcwd p)]> (fprocs x) ∧ ftable x' = ftable x
  | None => x' = x
  end.
Proof.
  intros Hw. unfold fdalloc, the_proc. intros (p & x1 & E1 & E2)%bind_Some. destruct (fprocs x !! me) as [p'|] eqn:Hp; [|done]. injection E1 as -> <-.
  destruct (find_index _ (ofile p) 0) as [fd|] eqn:Ef; [|by injection E2 as <- <-]. apply find_index_Some in Ef as (v & Hv & _ & Hn). rewrite Nat.sub_0_r in Hv.
  destruct v; [done|]. apply bind_Some in E2 as (u & x2 & E2 & [= <- <-]).
  destruct (wf_set_ofile x D R E N o me fd p None (Some f) u x2 Hw Hp Hv E2) as [Hw' Hp']. cbn [od] in Hw'. rewrite (left_id_L ∅ (⊎)) in Hw'.
  split; [done|]. exists p. split_and!; [done|done|done|]. unfold set_ofile in E2. apply bind_Some in E2 as (? & ? & E3 & [= _ <-]). unfold the_proc in E3. destruct (fprocs x !! me); [|done]. by injection E3 as _ <-.
Qed.

(** ** Reading and writing *)

Lemma still_set_off f v : still (upd_file f (set_off v)).
Proof.
  intros D R E N o x u x' Hw. unfold upd_file. destruct (ftable x !! f) as [fl|] eqn:Hf; [|done]. intros [= _ <-].
  destruct (w_type _ _ _ _ _ _ Hw f fl Hf) as [Ht1 Ht2]. eapply wf_file; [exact Hw|exact Hf|..]; try done.
Qed.
Lemma still_filestat f addr : still (filestat sb copyout_ok f addr).
Proof.
  apply still_bind; [apply still_the_file|]. intros fl. assert (still (on_fs (P := P) (ilock sb (f_ip fl);; st ← stati (f_ip fl); iunlock (f_ip fl);; mret st))) as Hs.
  { intros D R E N o x st x' Hw Ex. rewrite <-(left_id_L ∅ (⊎) R) in Hw.
    assert (spec ∅ (ilock sb (f_ip fl);; st ← stati (f_ip fl); iunlock (f_ip fl);; mret st) (λ _, ∅)) as Hsp.
    { call (s_ilock sb (f_ip fl)). unfold stati. apply spec_quiet; [apply quiet_spec; be_quiet|]. intros st'. call (s_iunlock (f_ip fl)). return_. }
    destruct (wf_on_fs _ _ _ _ _ _ _ _ _ _ _ Hsp Hw Ex) as [Hw' _]. by rewrite (left_id_L ∅ (⊎)) in Hw'. }
  destruct (f_type fl); try apply still_ret; apply still_bind; [done| |done|]; intros st; destruct (copyout_ok _ _); apply still_ret.
Qed.
(** An inode is locked, something is done that takes no reference, the offset moves, and the inode is unlocked. *)
Lemma still_locked {A B} ip (m : fs A) (g : A → fm unit) (h : A → B) :
  quiet m → (∀ a, still (g a)) → still (r ← on_fs (ilock sb ip;; m); g r;; on_fs (iunlock ip);; mret (h r)).
Proof.
  intros Hq Hg D R E N o x b x' Hw (r & x1 & E1 & (u & x2 & E2 & (v & x3 & E3 & [= _ <-])%bind_Some)%bind_Some)%bind_Some.
  rewrite <-(left_id_L ∅ (⊎) R) in Hw. assert (spec ∅ (ilock sb ip;; m) (λ _, lk ip)) as Hs.
  { call (s_ilock sb ip). eapply (spec_frame (lk ip)); [by apply quiet_spec|multiset_solver|multiset_solver]. }
  destruct (wf_on_fs _ _ _ _ _ _ _ _ _ _ _ Hs Hw E1) as [Hw1 _]. pose proof (Hg r _ _ _ _ _ _ _ _ Hw1 E2) as Hw2.
  destruct (wf_on_fs _ _ _ _ _ _ _ _ _ _ _ (s_iunlock ip) Hw2 E3) as [Hw3 _]. by rewrite (left_id_L ∅ (⊎)) in Hw3.
Qed.
Lemma still_rest {A} (m : M P A) :
  (∀ s b s', rest_ok s → m s = Some (b, s') → rest_ok s' ∧ ∀ q e, open_end s' q e = open_end s q e) → still (on_rest m).
Proof. intros Hm D R E N o x a x' Hw Ex. by eapply wf_on_rest. Qed.
Lemma still_when b (m : fm unit) : still m → still (when b m).
Proof. intros Hm. destruct b; [done|apply still_ret]. Qed.

Lemma still_fileread me f addr n : is_caller me → n < 2 ^ 31 → still (fileread sb copyout_ok me f addr n).
Proof.
  intros Hme Hn2. apply still_bind; [apply still_the_file|]. intros fl. destruct (negb (readable fl) || (n <? 0)) eqn:En; [apply still_ret|].
  apply orb_false_iff in En as [_ Hn]. destruct (f_type fl).
  - apply still_stuck.
  - apply still_rest. intros s b s' Hs Eb. refine (pipe_read_law _ _ _ _ _ _ _ Hme Hs _ Eb). lia.
  - apply (still_locked _ _ _ (λ r, r)); [apply q_readi|]. intros r. apply still_when, still_set_off.
  - destruct (_ || _); [apply still_ret|]. destruct (dev_read _) as [rd|] eqn:Er; [|apply still_ret].
    apply still_rest. intros s b s' Hs Eb. refine (dev_read_law _ _ _ _ _ _ _ _ Hme Er Hs _ Eb). lia.
Qed.
Lemma still_filewrite_loop fuel f addr i n : still (filewrite_loop sb copyin_at fuel f addr i n).
Proof.
  revert i; induction fuel as [|fuel IH]; intros i; cbn [filewrite_loop]; [apply still_stuck|]. destruct (i <? n); [|apply still_ret].
  apply still_bind; [apply still_the_file|]. intros fl. set (n1 := if max_write <? n - i then max_write else n - i). set (m := writei _ _ _ _ _).
  assert (still (begin_op;; r ← on_fs (ilock sb (f_ip fl);; m); when (0 <? r) (upd_file f (set_off (u32 (f_off fl + r))));; on_fs (iunlock (f_ip fl));; end_op;; mret (r : Z))) as Hs.
  { intros D R E N o x r x' Hw (u & x1 & E1 & E2)%bind_Some. pose proof (wf_begin _ _ _ _ _ _ _ _ Hw E1) as Hw1.
    assert (((r ← on_fs (ilock sb (f_ip fl);; m); when (0 <? r) (upd_file f (set_off (u32 (f_off fl + r))));; on_fs (iunlock (f_ip fl));; mret r) ≫= λ r, end_op;; mret r) x1 = Some (r, x')) as E3.
    { rewrite <-E2. rewrite bind_assoc. apply bind_cong. intros. rewrite bind_assoc. apply bind_cong. intros. by rewrite bind_assoc. }
    apply bind_Some in E3 as (r' & x2 & E3 & (v & x3 & E4 & [= <- <-])%bind_Some).
    assert (wf x2 D R E N (o + 1)) as Hw2.
    { eapply (still_locked _ _ _ (λ r, r)); [apply q_writei| |exact Hw1|exact E3]. intros a. apply still_when, still_set_off. }
    pose proof (wf_end _ _ _ _ _ _ _ _ Hw2 E4) as Hw3. by replace (o + 1 - 1) with o in Hw3 by lia. }
  intros D R E N o x a x' Hw Ex.
  assert (((begin_op;; r ← on_fs (ilock sb (f_ip fl);; m); when (0 <? r) (upd_file f (set_off (u32 (f_off fl + r))));; on_fs (iunlock (f_ip fl));; end_op;; mret (r : Z)) ≫=
    λ r, if negb (r =? n1) then mret i else filewrite_loop sb copyin_at fuel f addr (i + r) n) x = Some (a, x')) as E3.
  { rewrite <-Ex. rewrite bind_assoc. apply bind_cong. intros. rewrite bind_assoc. apply bind_cong. intros. rewrite bind_assoc. apply bind_cong. intros.
    rewrite bind_assoc. apply bind_cong. intros. by rewrite bind_assoc. }
  apply bind_Some in E3 as (r & x1 & E3 & E4). pose proof (Hs _ _ _ _ _ _ _ _ Hw E3) as Hw1. destruct (negb _); [by injection E4 as _ <-|]. by eapply IH.
Qed.
Lemma still_filewrite me f addr n : is_caller me → n < 2 ^ 31 → still (filewrite sb copyin_at me f addr n).
Proof.
  intros Hme Hn2. apply still_bind; [apply still_the_file|]. intros fl. destruct (negb (writable fl) || (n <? 0)) eqn:En; [apply still_ret|].
  apply orb_false_iff in En as [_ Hn]. destruct (f_type fl).
  - apply still_stuck.
  - apply still_rest. intros s b s' Hs Eb. refine (pipe_write_law _ _ _ _ _ _ _ Hme Hs _ Eb). lia.
  - apply still_bind; [apply still_filewrite_loop|]. intros i. apply still_ret.
  - destruct (_ || _); [apply still_ret|]. destruct (dev_write _) as [rd|] eqn:Er; [|apply still_ret].
    apply still_rest. intros s b s' Hs Eb. refine (dev_write_law _ _ _ _ _ _ _ _ Hme Er Hs _ Eb). lia.
Qed.
End ops.
