(* ===== verification/FileCalls.v ===== *)
(** Every system call on files keeps the invariant. *)
From stdpp Require Import gmultiset.
From S2P Require Import Prelude Fs FsBlock FsFile FsRw FsDir SysFs FsRef File FileInv.

Lemma in_difference (N : gset nat) f g : g ≠ f → g ∈ N → g ∈ N ∖ {[f]}.
Proof. set_solver. Qed.
Lemma fresh_gone (f : nat) : (∅ ∪ {[f]}) ∖ {[f]} =@{gset nat} ∅.
Proof. set_solver. Qed.

Set Default Proof Using "Type".
Section calls.
Context {P : Type} `{FileLaws P} (sb : superblock) (copyout_ok : Z → Z → bool) (copyin_at : Z → Z → list Z * bool).
Implicit Types (x : fworld P) (fl : file) (D : gmultiset nat) (R : held) (E : ends) (N : gset nat).
Abbreviation fm := (M (fworld P)).

(** ** Calls that do not look at the processes *)

Definition with_procs (ps : list pfiles) x : fworld P := mkFworld (ftable x) ps (ffs x) (outs x) (rest x).
Definition blind {A} (m : fm A) : Prop := ∀ x a x' ps,
  m x = Some (a, x') → m (with_procs ps x) = Some (a, with_procs ps x') ∧ fprocs x' = fprocs x.

Lemma blind_ret {A} (a : A) : blind (mret a).
Proof. by intros x b x' ps [= <- <-]. Qed.
Lemma blind_stuck {A} : blind (stuck (A := A)).
Proof. by intros x b x' ps ?. Qed.
Lemma blind_bind {A B} (m : fm A) (f : A → fm B) : blind m → (∀ a, blind (f a)) → blind (m ≫= f).
Proof.
  intros Hm Hf x b x' ps (a & x1 & E1 & E2)%bind_Some. destruct (Hm x a x1 ps E1) as [E1' H1]. destruct (Hf a x1 b x' ps E2) as [E2' H2].
  rewrite (bind_eq _ _ _ _ _ E1'). split; [done|congruence].
Qed.
Lemma blind_on_fs {A} (m : fs A) : blind (on_fs m).
Proof. intros x a x' ps. unfold on_fs. cbn [with_procs ffs outs]. destruct (m (ffs x)) as [[b w]|]; [|done]. destruct (_ && _); [done|]. by intros [= <- <-]. Qed.
Lemma blind_on_rest {A} (m : M P A) : blind (on_rest m).
Proof. intros x a x' ps. unfold on_rest. cbn [with_procs rest]. destruct (m (rest x)) as [[b w]|]; [|done]. by intros [= <- <-]. Qed.
Lemma blind_the_file f : blind (the_file f).
Proof. intros x a x' ps. unfold the_file. cbn [with_procs ftable]. destruct (ftable x !! f); [|done]. by intros [= <- <-]. Qed.
Lemma blind_upd_file f g : blind (upd_file f g).
Proof. intros x a x' ps. unfold upd_file. cbn [with_procs ftable]. destruct (ftable x !! f); [|done]. by intros [= <- <-]. Qed.
Lemma blind_op : blind begin_op ∧ blind end_op.
Proof. split; by intros x a x' ps [= <- <-]. Qed.
Lemma blind_fileclose f : blind (fileclose sb f).
Proof.
  apply blind_bind; [apply blind_the_file|]. intros fl. destruct (_ <? 1); [apply blind_stuck|]. apply blind_bind; [apply blind_upd_file|]. intros _.
  destruct (0 <? _); [apply blind_ret|]. apply blind_bind; [apply blind_upd_file|]. intros _.
  assert (blind (begin_op;; on_fs (iput sb (f_ip fl));; end_op)) as Hi.
  { apply blind_bind; [apply blind_op|]. intros _. apply blind_bind; [apply blind_on_fs|]. intros _. apply blind_op. }
  destruct (f_type fl); [apply blind_ret|apply blind_on_rest|done|done].
Qed.

Lemma blind_filedup f : blind (filedup f).
Proof.
  apply blind_bind; [apply blind_the_file|]. intros fl. destruct (_ <? 1); [apply blind_stuck|]. apply blind_bind; [apply blind_upd_file|]. intros _. apply blind_ret.
Qed.
Lemma blind_back {A} (m : fm A) x a x' ps :
  blind m → m (with_procs ps x) = Some (a, x') → ∃ x1, m x = Some (a, x1) ∧ fprocs x1 = fprocs x ∧ x' = with_procs ps x1.
Proof.
  intros Hm Em. destruct (Hm _ _ _ (fprocs x) Em) as [E1 Hp]. assert (with_procs (fprocs x) (with_procs ps x) = x) as Ex by (by destruct x). rewrite Ex in E1.
  eexists. split; [exact E1|]. split; [done|]. destruct x'. cbn in *. by subst.
Qed.

(** A process gives up something before a call that it does not look at. *)
Lemma wf_giving x D R E N o me p p' D' R' :
  wf x D R E N o → fprocs x !! me = Some p → length (ofile p') = NOFILE →
  desc_of p' ⊎ D' = desc_of p ⊎ D → cwd_of p' ⊎ R' = cwd_of p ⊎ R → wf (with_procs (<[me := p']> (fprocs x)) x) D' R' E N o.
Proof. intros. by eapply wf_proc. Qed.

Lemma fds_length x D R E N o me p : wf x D R E N o → fprocs x !! me = Some p → length (ofile p) = NOFILE.
Proof. intros Hw Hp. pose proof (w_fds _ _ _ _ _ _ Hw) as Hl. rewrite Forall_lookup in Hl. by eapply Hl. Qed.
Lemma desc_insert p fd (v0 v : option nat) D : ofile p !! fd = Some v0 →
  desc_of (mkPfiles (<[fd := v]> (ofile p)) (pcwd p)) ⊎ (od v0 ⊎ D) = desc_of p ⊎ (od v ⊎ D).
Proof.
  intros Hf. pose proof (msum_insert od _ _ _ v Hf) as S1. change (desc_of (mkPfiles (<[fd := v]> (ofile p)) (pcwd p))) with (msum od (<[fd := v]> (ofile p))).
  change (desc_of p) with (msum od (ofile p)). revert S1. generalize (msum od (<[fd := v]> (ofile p))), (msum od (ofile p)), (od v0), (od v). clear. intros. multiset_solver.
Qed.
Lemma my_cwd_eq me x c x' : my_cwd me x = Some (c, x') → x' = x ∧ ∃ p, fprocs x !! me = Some p ∧ pcwd p = Some c.
Proof.
  unfold my_cwd, the_proc. intros (p & x1 & E1 & E2)%bind_Some. destruct (fprocs x !! me) as [q|] eqn:Hp; [|done]. injection E1 as -> <-.
  destruct (pcwd p) as [d|] eqn:Hc; [|done]. injection E2 as <- <-. eauto.
Qed.
Lemma wf_unfresh x D R E N o f :
  wf x D R E N o → multiplicity f (D ⊎ msum desc_of (fprocs x)) = 0%nat → wf x D R E (N ∖ {[f]}) o.
Proof.
  intros Hw Hf. split; try apply Hw. intros g gl Hg. destruct (w_type _ _ _ _ _ _ Hw g gl Hg) as [H1 H2]. split; [done|]. intros Ht.
  destruct (H2 Ht) as [?|Hin]; [by left|]. destruct (decide (g = f)) as [->|Hne]; [|right; by apply in_difference]. left.
  pose proof (w_ref _ _ _ _ _ _ Hw f) as Hr. rewrite Hg in Hr. lia.
Qed.

(** ** The calls *)

Abbreviation idle x o := (wf x ∅ ∅ ∅ ∅ o).

Lemma idle_sys_dup me fd x o r x' : idle x o → sys_dup me fd x = Some (r, x') → idle x' o.
Proof.
  intros Hw. unfold sys_dup. intros (a & x1 & E1 & E2)%bind_Some. destruct (argfd_eq _ _ _ _ _ E1) as [-> Ha]. destruct a as [[i f]|]; [|by injection E2 as _ <-].
  apply bind_Some in E2 as (b & x2 & E2 & E3). unfold fdalloc, the_proc in E2. apply bind_Some in E2 as (p & x3 & E4 & E5).
  destruct (fprocs x !! me) as [q|] eqn:Hp; [|done]. injection E4 as -> <-.
  destruct (find_index _ (ofile p) 0) as [j|] eqn:Ef; [|injection E5 as <- <-; by injection E3 as _ <-].
  apply find_index_Some in Ef as (v & Hv & _ & Hn). rewrite Nat.sub_0_r in Hv. destruct v; [done|].
  apply bind_Some in E5 as (u & x4 & E5 & [= <- <-]). unfold set_ofile, the_proc in E5. apply bind_Some in E5 as (q & x5 & E6 & E7). rewrite Hp in E6. injection E6 as <- <-. injection E7 as _ <-.
  apply bind_Some in E3 as (g & x6 & E3 & [= _ <-]).
  destruct (blind_back _ x _ _ _ (blind_filedup f) E3) as (x7 & Ed & Hp7 & ->). destruct (wf_filedup _ _ _ _ _ _ _ _ _ Hw Ed) as (Hw7 & _ & _).
  rewrite <-Hp7. eapply wf_giving; [exact Hw7|by rewrite Hp7| |clear -Hv|done].
  - cbn [ofile]. rewrite length_insert. exact (fds_length _ _ _ _ _ _ _ _ Hw Hp).
  - pose proof (desc_insert p j None (Some f) ∅ Hv) as S1. cbn [od] in S1. rewrite (left_id_L ∅ (⊎)) in S1. exact S1.
Qed.

Lemma still_read me fd addr n : is_caller me → n < 2 ^ 31 → still (sys_read sb copyout_ok me fd addr n).
Proof. intros Hme Hn. apply still_bind; [apply still_argfd|]. intros [[i f]|]; [by apply still_fileread|apply still_ret]. Qed.
Lemma still_write me fd addr n : is_caller me → n < 2 ^ 31 → still (sys_write sb copyin_at me fd addr n).
Proof. intros Hme Hn. apply still_bind; [apply still_argfd|]. intros [[i f]|]; [by apply still_filewrite|apply still_ret]. Qed.
Lemma still_fstat me fd addr : still (sys_fstat sb copyout_ok me fd addr).
Proof. apply still_bind; [apply still_argfd|]. intros [[i f]|]; [apply still_filestat|apply still_ret]. Qed.

Lemma idle_sys_close me fd x o r x' : idle x o → sys_close sb me fd x = Some (r, x') → idle x' o.
Proof.
  intros Hw. unfold sys_close. intros (a & x1 & E1 & E2)%bind_Some. destruct (argfd_eq _ _ _ _ _ E1) as [-> Ha]. destruct a as [[i f]|]; [|by injection E2 as _ <-].
  destruct Ha as (p & Hp & Hf). apply bind_Some in E2 as (u & x2 & E2 & (v & x3 & E3 & [= _ <-])%bind_Some).
  destruct (wf_set_ofile x ∅ ∅ ∅ ∅ o me i p (Some f) None u x2) as [Hw2 _]; [|done|done|done|].
  - cbn [od]. by rewrite (left_id_L ∅ (⊎)).
  - by destruct (wf_fileclose _ _ _ _ _ _ _ _ _ _ Hw2 E3).
Qed.

(** Calls inside a transaction. *)
Lemma wf_in_op {A} me (m : nat → fs A) D R E N o x a x' :
  (∀ cwd, spec ∅ (m cwd) (λ _, ∅)) → wf x D R E N o → in_op me m x = Some (a, x') → wf x' D R E N o.
Proof.
  intros Hm Hw. unfold in_op. intros (u & x1 & E1 & (c & x2 & E2 & (b & x3 & E3 & (v & x4 & E4 & [= _ <-])%bind_Some)%bind_Some)%bind_Some)%bind_Some.
  pose proof (wf_begin _ _ _ _ _ _ _ _ Hw E1) as Hw1. destruct (my_cwd_eq _ _ _ _ E2) as [-> _]. rewrite <-(left_id_L ∅ (⊎) R) in Hw1.
  destruct (wf_on_fs _ _ _ _ _ _ _ _ _ _ _ (Hm c) Hw1 E3) as [Hw3 _]. rewrite (left_id_L ∅ (⊎)) in Hw3.
  pose proof (wf_end _ _ _ _ _ _ _ _ Hw3 E4) as Hw4. by replace (o + 1 - 1) with o in Hw4 by lia.
Qed.
Lemma still_no_op {A} (a : A) : still (begin_op;; end_op;; mret a : fm A).
Proof.
  intros D R E N o x b x' Hw (u & x1 & E1 & (v & x2 & E2 & [= _ <-])%bind_Some)%bind_Some.
  pose proof (wf_end _ _ _ _ _ _ _ _ (wf_begin _ _ _ _ _ _ _ _ Hw E1) E2) as Hw2. by replace (o + 1 - 1) with o in Hw2 by lia.
Qed.
Lemma still_link me old new : still (sys_link sb me old new : fm Z).
Proof. intros D R E N o x a x' Hw. destruct old as [old|]; [destruct new as [new|]|]; [|by apply still_ret..]. apply wf_in_op; [|done]. intros cwd. apply s_link. Qed.
Lemma still_unlink me path : still (sys_unlink sb me path : fm Z).
Proof. intros D R E N o x a x' Hw. destruct path as [path|]; [|by apply still_ret]. apply wf_in_op; [|done]. intros cwd. apply s_unlink. Qed.
Lemma still_mkdir me path : still (sys_mkdir sb me path : fm Z).
Proof. intros D R E N o x a x' Hw. destruct path as [path|]; [|by apply still_no_op]. apply wf_in_op; [|done]. intros cwd. apply s_make. Qed.
Lemma still_mknod me path ma mi : still (sys_mknod sb me path ma mi : fm Z).
Proof. intros D R E N o x a x' Hw. destruct path as [path|]; [|by apply still_no_op]. apply wf_in_op; [|done]. intros cwd. apply s_make. Qed.

(** The reference of the current directory goes to a call. *)
Lemma wf_take_cwd x D R E N o me p c :
  wf x D R E N o → fprocs x !! me = Some p → pcwd p = Some c → wf (with_procs (<[me := mkPfiles (ofile p) None]> (fprocs x)) x) D (rf c ⊎ R) E N o.
Proof.
  intros Hw Hp Hc. eapply wf_giving; [exact Hw|exact Hp|exact (fds_length _ _ _ _ _ _ _ _ Hw Hp)|done|]. unfold cwd_of. rewrite Hc. cbn [pcwd]. by rewrite (left_id_L ∅ (⊎)).
Qed.
Lemma wf_give_cwd x D R E N o me p c :
  wf x D (rf c ⊎ R) E N o → fprocs x !! me = Some p → pcwd p = None → wf (with_procs (<[me := mkPfiles (ofile p) (Some c)]> (fprocs x)) x) D R E N o.
Proof.
  intros Hw Hp Hc. eapply wf_giving; [exact Hw|exact Hp|exact (fds_length _ _ _ _ _ _ _ _ Hw Hp)|done|]. unfold cwd_of. rewrite Hc. cbn [pcwd]. by rewrite (left_id_L ∅ (⊎)).
Qed.
Lemma still_chdir me path : still (sys_chdir sb me path : fm Z).
Proof.
  intros D R E N o x r x' Hw. destruct path as [path|]; [|by apply still_no_op]. unfold sys_chdir, in_op.
  intros (a & x0 & (u & x1 & E1 & (c & x2 & E2 & (b & x3 & E3 & (v & x4 & E4 & [= <- <-])%bind_Some)%bind_Some)%bind_Some)%bind_Some & E5)%bind_Some.
  pose proof (wf_begin _ _ _ _ _ _ _ _ Hw E1) as Hw1. destruct (my_cwd_eq _ _ _ _ E2) as (-> & p & Hp & Hc).
  pose proof (wf_take_cwd _ _ _ _ _ _ _ _ _ Hw1 Hp Hc) as Hv1. set (ps := <[me := mkPfiles (ofile p) None]> (fprocs x1)) in Hv1.
  destruct (blind_on_fs (chdir sb c path) x1 b x3 ps E3) as [E3' Hp3].
  destruct (wf_on_fs _ _ _ _ _ _ _ _ _ _ _ (s_chdir sb c path) Hv1 E3') as [Hv3 _]. assert (end_op (with_procs ps x3) = Some (v, with_procs ps x4)) as E4' by (injection E4 as <- <-; done).
  pose proof (wf_end _ _ _ _ _ _ _ _ Hv3 E4') as Hv4. replace (o + 1 - 1) with o in Hv4 by lia.
  assert (ps !! me = Some (mkPfiles (ofile p) None)) as Hme by (apply list_lookup_insert_eq; by eapply lookup_lt_Some).
  pose proof (wf_give_cwd _ _ _ _ _ _ me _ _ Hv4 Hme eq_refl) as Hv5. cbn [with_procs fprocs ofile ftable ffs outs rest] in Hv5. unfold ps in Hv5. rewrite list_insert_insert_eq in Hv5.
  assert (fprocs x4 = fprocs x1) as Hp4 by (injection E4 as _ <-; exact Hp3).
  destruct b as [ip|]; cbn [default] in Hv5.
  - apply bind_Some in E5 as (q & x5 & E5 & (w & x6 & E6 & [= _ <-])%bind_Some). unfold the_proc in E5. rewrite Hp4, Hp in E5. injection E5 as <- <-. injection E6 as _ <-. rewrite Hp4. exact Hv5.
  - injection E5 as _ <-. replace (<[me := _]> (fprocs x1)) with (fprocs x4) in Hv5; [by destruct x4|]. rewrite Hp4. symmetry. apply list_insert_id. rewrite Hp. destruct p as [ofs pc]. cbn in Hc |- *. by rewrite Hc.
Qed.

(** ** [open] *)

(** A file that was just allocated is opened. *)
Lemma wf_opened x D R E N o f fl fl' R' E' u x' (g : file → file) :
  wf x D R E N o → ftable x !! f = Some fl → f_type fl = FD_NONE → g fl = fl' → f_type fl' ≠ FD_NONE → f_ref fl' = f_ref fl → f_ref fl ≠ 0 →
  inode_of fl' ⊎ R' = R → end_of fl' ⊎ E' = E → upd_file f g x = Some (u, x') → wf x' D R' E' (N ∖ {[f]}) o.
Proof.
  intros Hw Hf Ht <- Ht' Hr Hr0 HR HE. unfold upd_file. rewrite Hf. intros [= _ <-].
  eapply wf_file; [exact Hw|exact Hf|..]; try done; [lia| | |congruence|intros g' Hg'; by apply in_difference].
  - unfold inode_of at 2. rewrite Ht, (left_id_L ∅ (⊎)). done.
  - unfold end_of at 2. rewrite Ht, (left_id_L ∅ (⊎)). done.
Qed.
(** A file that was just allocated is closed again. *)
Lemma wf_close_fresh x D R E N o f u x' :
  wf x ({[+ f +]} ⊎ D) R E N o → multiplicity f (D ⊎ msum desc_of (fprocs x)) = 0%nat → fileclose sb f x = Some (u, x') →
  wf x' D R E (N ∖ {[f]}) o ∧ fprocs x' = fprocs x.
Proof. intros Hw Hf Ex. destruct (wf_fileclose _ _ _ _ _ _ _ _ _ _ Hw Ex) as [Hw' Hp]. split; [|done]. apply wf_unfresh; [done|by rewrite Hp]. Qed.
Lemma fresh_ref x D R E N o f fl : wf x ({[+ f +]} ⊎ D) R E N o → ftable x !! f = Some fl → f_ref fl ≠ 0.
Proof. intros Hw Hf. pose proof (w_ref _ _ _ _ _ _ Hw f) as Hr. rewrite Hf, !multiplicity_disj_union, mult_single, decide_True in Hr by done. lia. Qed.

Lemma idle_sys_open me path omode x o r x' : idle x o → sys_open sb me path omode x = Some (r, x') → idle x' o.
Proof using Type.
  intros Hw. destruct path as [path|]; [|by intros [= _ <-]]. unfold sys_open. intros (u & x1 & E1 & (c & x2 & E2 & (a & x3 & E3 & E4)%bind_Some)%bind_Some)%bind_Some.
  pose proof (wf_begin _ _ _ _ _ _ _ _ Hw E1) as Hw1. destruct (my_cwd_eq _ _ _ _ E2) as [-> _].
  assert (spec (∅ : held) (open_inode sb c path omode) opt_locked) as Hop by apply s_open_inode.
  rewrite <-(left_id_L ∅ (⊎) (∅ : held)) in Hw1. destruct (wf_on_fs _ _ _ _ _ _ _ _ _ _ _ Hop Hw1 E3) as [Hw3 _]. clear Hop.
  assert (∀ y v y', idle y (o + 1) → end_op y = Some (v, y') → idle y' o) as Hend.
  { intros y v y' Hy Ey. pose proof (wf_end _ _ _ _ _ _ _ _ Hy Ey) as Hy'. by replace (o + 1 - 1) with o in Hy' by lia. }
  destruct a as [ip|]; cbn [opt_locked] in Hw3; last first.
  { rewrite (left_id_L ∅ (⊎)) in Hw3. apply bind_Some in E4 as (v & x4 & E4 & [= _ <-]). by eapply Hend. }
  assert (∀ y v y', wf y ∅ (rf ip ⊎ lk ip ⊎ ∅) ∅ ∅ (o + 1) → (on_fs (iunlockput sb ip);; end_op;; mret (-1)) y = Some (v, y') → idle y' o) as Hfail.
  { intros y v y' Hy (v1 & y1 & Ey1 & (v2 & y2 & Ey2 & [= _ <-])%bind_Some)%bind_Some. destruct (wf_on_fs _ _ _ _ _ _ _ _ _ _ _ (s_iunlockput sb ip) Hy Ey1) as [Hy1 _].
    rewrite (left_id_L ∅ (⊎)) in Hy1. by eapply Hend. }
  apply bind_Some in E4 as (f & x4 & E4 & E5). pose proof (wf_filealloc _ _ _ _ _ _ _ _ Hw3 E4) as Hf.
  destruct f as [f|]; [destruct Hf as (Hw4 & Hm & Hp4 & fl & Hfl & Ht)|subst x4; apply bind_Some in E5 as (fd & x5 & [= <- <-] & (v & x6 & [= _ <-] & E6)%bind_Some); by eapply Hfail].
  apply bind_Some in E5 as (fd & x5 & E5 & E6). pose proof (wf_fdalloc _ _ _ _ _ _ _ _ _ _ Hw4 E5) as Hfd. pose proof (fresh_ref _ _ _ _ _ _ _ _ Hw4 Hfl) as Hr0.
  destruct fd as [fd|]; last first.
  { subst x5. apply bind_Some in E6 as (v & x6 & E6 & E7). cbn [close_opt] in E6. rewrite <-Hp4 in Hm. destruct (wf_close_fresh _ _ _ _ _ _ _ _ _ Hw4 Hm E6) as [Hw6 _].
    eapply Hfail; [|exact E7]. by rewrite fresh_gone in Hw6. }
  destruct Hfd as (Hw5 & _ & _ & _ & _ & Ht5). rewrite <-Ht5 in Hfl.
  apply bind_Some in E6 as (p & x6 & E6 & (v1 & x7 & E7 & (v2 & x8 & E8 & (v3 & x9 & E9 & [= _ <-])%bind_Some)%bind_Some)%bind_Some).
  assert (spec (rf ip ⊎ lk ip) (the_ip ip) (λ _, rf ip ⊎ lk ip)) as Hq by (eapply (spec_frame (rf ip ⊎ lk ip)); [apply quiet_spec, q_the_ip|multiset_solver|multiset_solver]).
  destruct (wf_on_fs _ _ _ _ _ _ _ _ _ _ _ Hq Hw5 E6) as (Hw6 & Ht6 & _). rewrite <-Ht6 in Hfl.
  assert (wf x7 ∅ (lk ip ⊎ ∅) ∅ ((∅ ∪ {[f]}) ∖ {[f]}) (o + 1)) as Hw7.
  { eapply wf_opened; [exact Hw6|exact Hfl|done|reflexivity|..|exact E7]; try done; destruct (type p =? T_DEVICE); cbn [inode_of end_of f_type f_ip f_ref]; try done;
      by rewrite (assoc_L (⊎)). }
  rewrite fresh_gone in Hw7.
  assert (spec (lk ip) (when (negb (Z.land omode O_TRUNC =? 0) && (type p =? T_FILE)) (itrunc sb ip);; iunlock ip) (λ _, ∅)) as Hsp.
  { apply spec_quiet; [apply quiet_spec; be_quiet|]. intros _. apply s_iunlock. }
  destruct (wf_on_fs _ _ _ _ _ _ _ _ _ _ _ Hsp Hw7 E8) as [Hw8 _]. rewrite (left_id_L ∅ (⊎)) in Hw8. by eapply Hend.
Qed.

(** ** [pipe] *)

Lemma mult_zero f g D : multiplicity f (({[+ g +]} ⊎ D)) = 0%nat → f ≠ g ∧ multiplicity f D = 0%nat.
Proof. rewrite multiplicity_disj_union, mult_single. destruct (decide (f = g)); [lia|]. split; [done|lia]. Qed.

Lemma idle_pipealloc x o r x' :
  idle x o → pipealloc sb x = Some (r, x') →
  match r with Some (f0, f1) => wf x' ({[+ f0 +]} ⊎ ({[+ f1 +]} ⊎ ∅)) ∅ ∅ ∅ o | None => idle x' o end ∧ fprocs x' = fprocs x.
Proof.
  intros Hw. unfold pipealloc. intros (a0 & x1 & E1 & (a1 & x2 & E2 & E3)%bind_Some)%bind_Some. pose proof (wf_filealloc _ _ _ _ _ _ _ _ Hw E1) as H1.
  destruct a0 as [f0|]; [destruct H1 as (Hw1 & Hm0 & Hp1 & fl0 & Hf0 & Ht0)|subst x1; injection E2 as <- <-; apply bind_Some in E3 as (? & ? & [= _ <-] & (? & ? & [= _ <-] & [= <- <-])%bind_Some); done].
  pose proof (wf_filealloc _ _ _ _ _ _ _ _ Hw1 E2) as H2.
  destruct a1 as [f1|]; last first.
  { subst x2. apply bind_Some in E3 as (? & x3 & E3 & (? & ? & [= _ <-] & [= <- <-])%bind_Some). cbn [close_opt] in E3. rewrite <-Hp1 in Hm0.
    destruct (wf_close_fresh _ _ _ _ _ _ _ _ _ Hw1 Hm0 E3) as [Hw3 Hp3]. rewrite fresh_gone in Hw3. split; [done|congruence]. }
  destruct H2 as (Hw2 & Hm1 & Hp2 & fl1 & Hf1 & Ht1). rewrite <-(assoc_L (⊎)) in Hm1. destruct (mult_zero _ _ _ Hm1) as [Hne Hm1'].
  apply bind_Some in E3 as (pi & x3 & E3 & E4). pose proof (wf_pipe_new _ _ _ _ _ _ _ _ Hw2 E3) as H3. destruct (blind_on_rest pipe_new _ _ _ [] E3) as [_ Hp3].
  assert (ftable x3 = ftable x2) as Hft3 by (unfold on_rest in E3; destruct (pipe_new (rest x2)) as [[? ?]|]; [|done]; by injection E3 as _ <-).
  rewrite (comm_L (⊎) {[+ f1 +]}), <-(assoc_L (⊎)), (comm_L (⊎) ∅ {[+ f1 +]}) in H3.
  destruct (Z.eqb_spec pi 0) as [->|Hpi].
  - rewrite decide_True in H3 by done. apply bind_Some in E4 as (? & x4 & E4 & (? & x5 & E5 & [= <- <-])%bind_Some).
    assert (multiplicity f0 (({[+ f1 +]} ⊎ ∅) ⊎ msum desc_of (fprocs x3)) = 0%nat) as Hz0.
    { rewrite !multiplicity_disj_union, mult_single, decide_False by done. rewrite Hp3, Hp2, Hp1. rewrite multiplicity_disj_union in Hm0. rewrite multiplicity_empty in *. lia. }
    destruct (wf_close_fresh _ _ _ _ _ _ _ _ _ H3 Hz0 E4) as [Hw4 Hp4].
    assert (multiplicity f1 (∅ ⊎ msum desc_of (fprocs x4)) = 0%nat) as Hz1 by (rewrite Hp4, Hp3, Hp2; exact Hm1').
    destruct (wf_close_fresh _ _ _ _ _ _ _ _ _ Hw4 Hz1 E5) as [Hw5 Hp5].
    split; [|congruence]. replace (((∅ ∪ {[f0]}) ∪ {[f1]}) ∖ {[f0]} ∖ {[f1]}) with (∅ : gset nat) in Hw5 by (clear; set_solver). done.
  - rewrite decide_False in H3 by done. apply bind_Some in E4 as (? & x4 & E4 & (? & x5 & E5 & [= <- <-])%bind_Some).
    assert (ftable x2 !! f0 = Some fl0) as Hf0'.
    { unfold filealloc in E2. rewrite (bind_eq _ _ _ (ftable x1) x1) in E2 by done. destruct (find_index _ (ftable x1) 0) as [k|]; [|done].
      apply bind_Some in E2 as (? & ? & E2 & [= -> <-]). unfold upd_file in E2. destruct (ftable x1 !! f1); [|done]. injection E2 as _ <-. cbn [ftable]. by rewrite list_lookup_insert_ne. }
    assert (wf x4 ({[+ f0 +]} ⊎ ({[+ f1 +]} ⊎ ∅)) ∅ ({[+ (pi, true) +]} ⊎ ∅) (((∅ ∪ {[f0]}) ∪ {[f1]}) ∖ {[f0]}) o) as Hw4.
    { eapply wf_opened; [exact H3|by rewrite Hft3|done|reflexivity|..|exact E4]; try done. rewrite <-Hft3 in Hf0'. exact (fresh_ref _ _ _ _ _ _ _ _ H3 Hf0'). }
    assert (ftable x4 !! f1 = Some fl1) as Hf1'.
    { unfold upd_file in E4. rewrite Hft3, Hf0' in E4. injection E4 as _ <-. cbn [ftable]. by rewrite list_lookup_insert_ne. }
    assert (wf x5 ({[+ f0 +]} ⊎ ({[+ f1 +]} ⊎ ∅)) ∅ ∅ (((∅ ∪ {[f0]}) ∪ {[f1]}) ∖ {[f0]} ∖ {[f1]}) o) as Hw5.
    { eapply wf_opened; [exact Hw4|exact Hf1'|done|reflexivity|..|exact E5]; try done. rewrite (comm_L (⊎) {[+ f0 +]}), <-(assoc_L (⊎)) in Hw4. exact (fresh_ref _ _ _ _ _ _ _ _ Hw4 Hf1'). }
    split; [by replace (((∅ ∪ {[f0]}) ∪ {[f1]}) ∖ {[f0]} ∖ {[f1]}) with (∅ : gset nat) in Hw5 by (clear; set_solver)|].
    destruct (blind_upd_file _ _ _ _ _ [] E4) as [_ Hp4]. destruct (blind_upd_file _ _ _ _ _ [] E5) as [_ Hp5]. congruence.
Qed.

Lemma wf_clear_ofile x D R E N o me fd ofs c f u x' :
  wf x D R E N o → fprocs x !! me = Some (mkPfiles ofs c) → ofs !! fd = Some (Some f) → set_ofile me fd None x = Some (u, x') →
  wf x' ({[+ f +]} ⊎ D) R E N o ∧ fprocs x' !! me = Some (mkPfiles (<[fd := None]> ofs) c).
Proof.
  intros Hw Hp Hf Ex. rewrite <-(left_id_L ∅ (⊎) D) in Hw. destruct (wf_set_ofile x D R E N o me fd (mkPfiles ofs c) (Some f) None u x' Hw Hp Hf Ex) as [Hw' Hp'].
  split; [done|]. rewrite Hp'. apply list_lookup_insert_eq. by eapply lookup_lt_Some.
Qed.
(** Both descriptors of a failed [pipe] are closed. *)
Lemma wf_close_two x D R E N o f0 f1 {A} (a : A) r x' :
  wf x ({[+ f0 +]} ⊎ ({[+ f1 +]} ⊎ D)) R E N o → (fileclose sb f0;; fileclose sb f1;; mret a) x = Some (r, x') → wf x' D R E N o.
Proof.
  intros Hw (u & x1 & E1 & (v & x2 & E2 & [= _ <-])%bind_Some)%bind_Some. destruct (wf_fileclose _ _ _ _ _ _ _ _ _ _ Hw E1) as [Hw1 _].
  by destruct (wf_fileclose _ _ _ _ _ _ _ _ _ _ Hw1 E2).
Qed.
Lemma idle_sys_pipe me fdarray x o r x' : idle x o → sys_pipe sb copyout_ok me fdarray x = Some (r, x') → idle x' o.
Proof.
  intros Hw. unfold sys_pipe. intros (a & x1 & E1 & E2)%bind_Some. destruct (idle_pipealloc _ _ _ _ Hw E1) as [H1 _].
  destruct a as [[f0 f1]|]; [|by injection E2 as _ <-]. apply bind_Some in E2 as (a0 & x2 & E2 & (a1 & x3 & E3 & E4)%bind_Some).
  pose proof (wf_fdalloc _ _ _ _ _ _ _ _ _ _ H1 E2) as H2. destruct a0 as [fd0|]; last first.
  { subst x2. injection E3 as <- <-. rewrite (bind_eq _ _ _ tt x1) in E4 by done. by eapply wf_close_two. }
  destruct H2 as (Hw2 & p & Hp & Hfd0 & Hp2 & _). pose proof (wf_fdalloc _ _ _ _ _ _ _ _ _ _ Hw2 E3) as H3.
  assert (fprocs x2 !! me = Some (mkPfiles (<[fd0 := Some f0]> (ofile p)) (pcwd p))) as Hme2.
  { rewrite Hp2. apply list_lookup_insert_eq. by eapply lookup_lt_Some. }
  assert (<[fd0 := Some f0]> (ofile p) !! fd0 = Some (Some f0)) as Hof by (apply list_lookup_insert_eq; by eapply lookup_lt_Some).
  destruct a1 as [fd1|]; last first.
  { subst x3. apply bind_Some in E4 as (u & x4 & E4 & E5).
    destruct (wf_clear_ofile _ _ _ _ _ _ _ _ _ _ _ _ _ Hw2 Hme2 Hof E4) as [Hw4 _]. by eapply wf_close_two. }
  destruct H3 as (Hw3 & p' & Hp' & Hfd1 & Hp3 & _). rewrite Hme2 in Hp'. injection Hp' as <-. cbn [ofile pcwd] in *.
  destruct (_ && _); [by injection E4 as _ <-|]. apply bind_Some in E4 as (u & x4 & E4 & (v & x5 & E5 & E6)%bind_Some).
  assert (fd0 ≠ fd1) as Hne by (intros ->; congruence).
  assert (fprocs x3 !! me = Some (mkPfiles (<[fd1 := Some f1]> (<[fd0 := Some f0]> (ofile p))) (pcwd p))) as Hme3.
  { rewrite Hp3. apply list_lookup_insert_eq. by eapply lookup_lt_Some. }
  destruct (wf_clear_ofile _ _ _ _ _ _ _ _ _ _ _ _ _ Hw3 Hme3 ltac:(by rewrite list_lookup_insert_ne) E4) as [Hw4 Hme4].
  assert (<[fd0 := None]> (<[fd1 := Some f1]> (<[fd0 := Some f0]> (ofile p))) !! fd1 = Some (Some f1)) as Hof1.
  { rewrite list_lookup_insert_ne by done. apply list_lookup_insert_eq. rewrite length_insert. apply lookup_lt_Some in Hfd1. by rewrite length_insert in Hfd1. }
  destruct (wf_clear_ofile _ _ _ _ _ _ _ _ _ _ _ _ _ Hw4 Hme4 Hof1 E5) as [Hw5 _].
  rewrite (assoc_L (⊎)), (comm_L (⊎) {[+ f1 +]}), <-(assoc_L (⊎)) in Hw5. by eapply wf_close_two.
Qed.

(** ** [fork] and [exit] *)

(** A process without files. *)
Definition fresh_proc (k : nat) (p : pfiles) : Prop := pcwd p = None ∧ ∀ j, (k ≤ j < NOFILE)%nat → ofile p !! j = Some None.

Abbreviation fork_body me child := (λ i, p ← the_proc me;
  match ofile p !! i with Some (Some f) => filedup f;; set_ofile child i (Some f) | Some None => mret () | None => stuck end).
Lemma idle_fork_loop me child n k x o np u x' :
  (k + n = NOFILE)%nat → me ≠ child → idle x o → fprocs x !! child = Some np → fresh_proc k np →
  mfor (seq k n) (fork_body me child) x = Some (u, x') → idle x' o ∧ ∃ np', fprocs x' !! child = Some np' ∧ pcwd np' = None.
Proof.
  revert k x np. induction n as [|n IH]; intros k x np Hk Hne Hw Hp Hfr; cbn [seq mfor].
  { intros [= _ <-]. split; [done|]. exists np. split; [done|apply Hfr]. }
  destruct Hfr as [Hc Hfr]. assert (fresh_proc (S k) np) as HfrS by (split; [done|]; intros j Hj; apply Hfr; lia).
  intros (v & x1 & (p & x2 & E2 & E3)%bind_Some & E1)%bind_Some. unfold the_proc in E2. destruct (fprocs x !! me) as [q|]; [|done]. injection E2 as -> <-.
  destruct (ofile p !! k) as [[f|]|]; [|injection E3 as _ <-; apply (IH (S k) x np); [lia|done..]|done].
  apply bind_Some in E3 as (g & x3 & E3 & E4). destruct (wf_filedup _ _ _ _ _ _ _ _ _ Hw E3) as (Hw3 & _ & Hp3). rewrite <-Hp3 in Hp.
  destruct (wf_set_ofile x3 ∅ ∅ ∅ ∅ o child k np None (Some f) v x1 Hw3 Hp (Hfr k ltac:(lia)) E4) as [Hw1 Hp1]. cbn [od] in Hw1. rewrite (left_id_L ∅ (⊎)) in Hw1.
  eapply (IH (S k) x1); [lia|done|done| | |exact E1].
  - rewrite Hp1. apply list_lookup_insert_eq. by eapply lookup_lt_Some.
  - split; [done|]. intros j Hj. cbn [ofile]. rewrite list_lookup_insert_ne by lia. apply Hfr. lia.
Qed.
Lemma idle_fork me child np x o u x' :
  me ≠ child → idle x o → fprocs x !! child = Some np → fresh_proc 0 np → fork_files me child x = Some (u, x') → idle x' o.
Proof.
  intros Hne Hw Hp Hfr. unfold fork_files. intros (v & x1 & E1 & (c & x2 & E2 & (d & x3 & E3 & (q & x4 & E4 & E5)%bind_Some)%bind_Some)%bind_Some)%bind_Some.
  destruct (idle_fork_loop me child NOFILE 0 x o np v x1 eq_refl Hne Hw Hp Hfr E1) as (Hw1 & np' & Hp1 & Hc). destruct (my_cwd_eq _ _ _ _ E2) as [-> _].
  rewrite <-(left_id_L ∅ (⊎) (∅ : held)) in Hw1. destruct (wf_on_fs _ _ _ _ _ _ _ _ _ _ _ (s_idup_same c) Hw1 E3) as (Hw3 & _ & Hp3).
  unfold the_proc in E4. rewrite Hp3, Hp1 in E4. injection E4 as <- <-. injection E5 as _ <-. rewrite <-Hp3 in Hp1. by apply (wf_give_cwd _ _ _ _ _ _ child np' d Hw3 Hp1 Hc).
Qed.

Abbreviation exit_body me := (λ fd, p ← the_proc me;
  match ofile p !! fd with Some (Some f) => fileclose sb f;; set_ofile me fd None | Some None => mret () | None => stuck end).
Lemma idle_exit_loop me n k x o u x' : idle x o → mfor (seq k n) (exit_body me) x = Some (u, x') → idle x' o.
Proof.
  revert k x. induction n as [|n IH]; intros k x Hw; cbn [seq mfor]; [by intros [= _ <-]|].
  intros (v & x1 & (p & x2 & E2 & E3)%bind_Some & E1)%bind_Some. unfold the_proc in E2. destruct (fprocs x !! me) as [q|] eqn:Hp; [|done]. injection E2 as -> <-.
  destruct (ofile p !! k) as [[f|]|] eqn:Hf; [|injection E3 as _ <-; by eapply IH|done]. eapply IH; [|exact E1].
  apply bind_Some in E3 as (g & x3 & E3 & E4). set (ps := <[me := mkPfiles (<[k := None]> (ofile p)) (pcwd p)]> (fprocs x)).
  destruct (blind_fileclose f x g x3 ps E3) as [E3' Hp3].
  assert (wf (with_procs ps x) ({[+ f +]} ⊎ ∅) ∅ ∅ ∅ o) as Hv.
  { eapply wf_giving; [exact Hw|exact Hp| | |done]; [cbn [ofile]; rewrite length_insert; exact (fds_length _ _ _ _ _ _ _ _ Hw Hp)|].
    pose proof (desc_insert p k (Some f) None ∅ Hf) as S1. cbn [od] in S1. rewrite (left_id_L ∅ (⊎) ∅) in S1. exact S1. }
  destruct (wf_fileclose _ _ _ _ _ _ _ _ _ _ Hv E3') as [Hv3 _]. unfold set_ofile, the_proc in E4. apply bind_Some in E4 as (q & x4 & E4 & E5).
  rewrite Hp3, Hp in E4. injection E4 as <- <-. injection E5 as _ <-. by rewrite Hp3.
Qed.
Lemma idle_exit me x o u x' : idle x o → exit_files sb me x = Some (u, x') → idle x' o.
Proof.
  intros Hw. unfold exit_files. intros (v & x1 & E1 & (v1 & x2 & E2 & (c & x3 & E3 & (v2 & x4 & E4 & (v3 & x5 & E5 & (p & x6 & E6 & E7)%bind_Some)%bind_Some)%bind_Some)%bind_Some)%bind_Some)%bind_Some.
  pose proof (idle_exit_loop _ _ _ _ _ _ _ Hw E1) as Hw1. pose proof (wf_begin _ _ _ _ _ _ _ _ Hw1 E2) as Hw2. destruct (my_cwd_eq _ _ _ _ E3) as (-> & q & Hq & Hc).
  pose proof (wf_take_cwd _ _ _ _ _ _ _ _ _ Hw2 Hq Hc) as Hv. set (ps := <[me := mkPfiles (ofile q) None]> (fprocs x2)) in Hv.
  destruct (blind_on_fs (iput sb c) x2 v2 x4 ps E4) as [E4' Hp4]. destruct (wf_on_fs _ _ _ _ _ _ _ _ _ _ _ (s_iput sb c) Hv E4') as [Hv4 _]. rewrite (left_id_L ∅ (⊎)) in Hv4.
  destruct (proj2 blind_op x4 v3 x5 ps E5) as [E5' Hp5]. pose proof (wf_end _ _ _ _ _ _ _ _ Hv4 E5') as Hv5. replace (o + 1 - 1) with o in Hv5 by lia.
  unfold the_proc in E6. rewrite Hp5, Hp4, Hq in E6. injection E6 as <- <-. injection E7 as _ <-. by rewrite Hp5, Hp4.
Qed.
End calls.
