(* ===== verification/Sh.v ===== *)
(** The shell of xv6, [xv6/user/sh.c]: the parser of command lines, the
    NUL-termination of the words in the line buffer, and how a parsed command
    is run.

    A pointer into the line is the list of the characters from there to its
    end; a word is the pair of the offsets of its first character and of the
    one after its last. A call of [panic] is a value, it ends the process. The
    parser runs in a child of its own, which has memory enough for the nodes of
    the tree. *)
From S2P Require Import Prelude.

Definition MAXARGS : nat := 10.
Definition whitespace : list ascii := [c_sp; c_tab; c_cr; c_nl; c_vt].
Definition symbols : list ascii := lit "<|>&;()".
(** [strchr(set, c)], for a [c] that is not NUL, and for the end of the line,
    for which it is 0. *)
Definition in_set (set : list ascii) (c : ascii) : bool := existsb (Ascii.eqb c) set.
Definition is_ws (c : ascii) : bool := in_set whitespace c.
Definition is_word (c : ascii) : bool := negb (is_ws c) && negb (in_set symbols c).

(** ** Commands *)

Record span := Span { w_q : nat; w_eq : nat }.
Record redir := Redir { file : span; mode : Z; fd : nat }.
Definition O_RDONLY : Z := 0.
Definition O_WRONLY : Z := 1.
Definition O_CREATE : Z := 0x200.
Definition O_TRUNC : Z := 0x400.

Inductive cmd :=
| EXEC (argv : list span)
| REDIR (c : cmd) (r : redir)
| PIPE (left right : cmd)
| LIST (left right : cmd)
| BACK (c : cmd).

(** ** A parser *)

(** A parser has an input of type [S], of which it leaves a rest. *)
Inductive pres (S A : Type) := Parsed (a : A) (s : S) | Panicked (msg : list ascii) | OutOfFuel.
Arguments Parsed {S A} _ _.
Arguments Panicked {S A} _.
Arguments OutOfFuel {S A}.
Definition parser (S A : Type) : Type := S → pres S A.
#[export] Instance parser_ret S : MRet (parser S) := λ A a s, Parsed a s.
#[export] Instance parser_bind S : MBind (parser S) := λ A B f m s,
  match m s with Parsed a s' => f a s' | Panicked msg => Panicked msg | OutOfFuel => OutOfFuel end.
Definition ppanic {S A} (msg : list ascii) : parser S A := λ _, Panicked msg.
Definition no_fuel {S A} : parser S A := λ _, OutOfFuel.
Abbreviation line_parser := (parser (list ascii)).
(** A loop that takes at least one character in each turn. *)
Definition looping {A} (f : nat → line_parser A) : line_parser A := λ s, f (S (length s)) s.

(** [peek] *)
Definition peek (toks : list ascii) : line_parser bool := λ s,
  let s := drop_while is_ws s in
  Parsed (match s with c :: _ => in_set toks c | [] => false end) s.

(** The [switch] of [gettoken]: what the token is, and the rest after it. *)
Definition token_at (s : list ascii) : ascii * list ascii :=
  match s with
  | [] => (c_nul, [])
  | c :: s' =>
    if in_set (lit "|();&<") c then (c, s')
    else if c =c ">" then
      match s' with
      | c2 :: s'' => if c2 =c ">" then ("+"%char, s'') else (c, s')
      | [] => (c, s')
      end
    else ("a"%char, drop_while is_word s)
  end.

Section parse.
(** The length of the line. *)
Context (n : nat).

Definition gettoken : line_parser (ascii * span) := λ s,
  let s := drop_while is_ws s in
  let '(ret, s') := token_at s in
  Parsed (ret, Span (n - length s) (n - length s')) (drop_while is_ws s').

(** [parseredirs], as the list of the redirections that it puts around the
    command, the innermost first. *)
Fixpoint redirs_loop (fuel : nat) : line_parser (list redir) :=
  match fuel with
  | O => no_fuel
  | S fuel =>
    b ← peek (lit "<>");
    if b : bool then
      t ← gettoken;
      w ← gettoken;
      if negb (w.1 =c "a") then ppanic (lit "missing file for redirection")
      else
        let r := if t.1 =c "<" then Redir w.2 O_RDONLY 0
                 else if t.1 =c ">" then Redir w.2 (Z.lor (Z.lor O_WRONLY O_CREATE) O_TRUNC) 1
                 else Redir w.2 (Z.lor O_WRONLY O_CREATE) 1 in
        rs ← redirs_loop fuel;
        mret (r :: rs)
    else mret []
  end.
Definition parseredirs : line_parser (list redir) := looping redirs_loop.
Definition redirect (c : cmd) (rs : list redir) : cmd := foldl REDIR c rs.

(** The loop of [parseexec], which puts words into the [execcmd] and
    redirections around it; [argc] words are there. *)
Fixpoint args_loop (fuel : nat) (argc : nat) : line_parser (list span * list redir) :=
  match fuel with
  | O => no_fuel
  | S fuel =>
    b ← peek (lit "|)&;");
    if b : bool then mret ([], [])
    else
      t ← gettoken;
      if t.1 =c c_nul then mret ([], [])
      else if negb (t.1 =c "a") then ppanic (lit "syntax")
      else if bool_decide (MAXARGS ≤ S argc)%nat then ppanic (lit "too many args")
      else
        rs ← parseredirs;
        r ← args_loop fuel (S argc);
        mret (t.2 :: r.1, rs ++ r.2)
  end.

(** The loop of [parseline]. *)
Fixpoint back_loop (fuel : nat) (c : cmd) : line_parser cmd :=
  match fuel with
  | O => no_fuel
  | S fuel =>
    b ← peek (lit "&");
    if b : bool then gettoken;; back_loop fuel (BACK c) else mret c
  end.

Fixpoint parseline (fuel : nat) : line_parser cmd :=
  match fuel with
  | O => no_fuel
  | S fuel =>
    c ← parsepipe fuel;
    c ← looping (λ k, back_loop k c);
    b ← peek (lit ";");
    if b : bool then
      gettoken;;
      r ← parseline fuel;
      mret (LIST c r)
    else mret c
  end
with parsepipe (fuel : nat) : line_parser cmd :=
  match fuel with
  | O => no_fuel
  | S fuel =>
    c ← parseexec fuel;
    b ← peek (lit "|");
    if b : bool then
      gettoken;;
      r ← parsepipe fuel;
      mret (PIPE c r)
    else mret c
  end
with parseexec (fuel : nat) : line_parser cmd :=
  match fuel with
  | O => no_fuel
  | S fuel =>
    b ← peek (lit "(");
    if b : bool then parseblock fuel
    else
      rs ← parseredirs;
      r ← looping (λ k, args_loop k 0);
      mret (redirect (EXEC r.1) (rs ++ r.2))
  end
with parseblock (fuel : nat) : line_parser cmd :=
  match fuel with
  | O => no_fuel
  | S fuel =>
    b ← peek (lit "(");
    if negb b then ppanic (lit "parseblock")
    else
      gettoken;;
      c ← parseline fuel;
      b ← peek (lit ")");
      if negb b then ppanic (lit "syntax - missing )")
      else
        gettoken;;
        rs ← parseredirs;
        mret (redirect c rs)
  end.
End parse.

(** [nulterminate], on the buffer that holds the line. *)
Definition store_nul (mem : list ascii) (i : nat) : list ascii := <[i := c_nul]> mem.
Fixpoint nulterminate (c : cmd) (mem : list ascii) : list ascii :=
  match c with
  | EXEC argv => foldl (λ mem w, store_nul mem (w_eq w)) mem argv
  | REDIR c r => store_nul (nulterminate c mem) (w_eq (file r))
  | PIPE l r => nulterminate r (nulterminate l mem)
  | LIST l r => nulterminate r (nulterminate l mem)
  | BACK c => nulterminate c mem
  end.

(** [parsecmd] of the line in a buffer: the command, and the buffer with its
    words terminated. What is left is printed on a line before the message
    of [panic]. *)
Definition leftovers (c : cmd) (line : list ascii) : line_parser (cmd * list ascii) := λ s,
  match s with
  | [] => Parsed (c, nulterminate c (line ++ [c_nul])) []
  | _ => Panicked (lit "leftovers: " ++ cstring s ++ [c_nl] ++ lit "syntax")
  end.
Definition parsecmd (line : list ascii) : pres (list ascii) (cmd * list ascii) :=
  let n := length line in
  (c ← parseline n (4 * n + 4); peek [];; leftovers c line) line.

(** The string that a word is when the command runs. *)
Definition word_at (mem : list ascii) (w : span) : list ascii := cstring (drop (w_q w) mem).

Example parse_ex : parsecmd (lit "(ls -l<x; b) >> y&") =
  Parsed (BACK (REDIR (LIST (REDIR (EXEC [Span 1 3; Span 4 6]) (Redir (Span 7 8) 0 0)) (EXEC [Span 10 11]))
                      (Redir (Span 16 17) 0x201 1)),
          lit "(ls" ++ [c_nul] ++ lit "-l" ++ [c_nul] ++ lit "x" ++ [c_nul] ++ lit " b" ++ [c_nul] ++ lit " >> y" ++ [c_nul; c_nul]) [].
Proof. by vm_compute. Qed.
