(* ===== verification/ShGrammar.v ===== *)
(** The command language of the xv6 shell: its tokens and its grammar, and that
    the recursive descent of [sh.c] parses it. *)
From S2P Require Import Prelude Sh.

(** ** Tokens *)

Inductive token := TWord (w : list ascii) | TSym (c : ascii).

(** Words are separated by white space and by symbols; [>>] is one symbol,
    which the parser calls [+]. [cur] is the word so far. *)
Definition flush (cur : list ascii) : list token := match cur with [] => [] | _ => [TWord cur] end.
Fixpoint tokens_from (cur s : list ascii) : list token :=
  match s with
  | [] => flush cur
  | c :: s' =>
    if is_ws c then flush cur ++ tokens_from [] s'
    else if c =c ">" then
      flush cur ++
      match s' with
      | c2 :: s'' => if c2 =c ">" then TSym "+" :: tokens_from [] s'' else TSym c :: tokens_from [] s'
      | [] => [TSym c]
      end
    else if in_set symbols c then flush cur ++ TSym c :: tokens_from [] s'
    else tokens_from (cur ++ [c]) s'
  end.
Definition tokens (s : list ascii) : list token := tokens_from [] s.

(** ** Grammar *)

Record sredir := SRedir { r_file : list ascii; r_mode : Z; r_fd : nat }.
Inductive tree :=
| SExec (argv : list (list ascii))
| SRed (t : tree) (r : sredir)
| SPipe (l r : tree)
| SList (l r : tree)
| SBack (t : tree).
Definition sredirect (t : tree) (rs : list sredir) : tree := foldl SRed t rs.
Definition redir_op (c : ascii) : option (Z * nat) :=
  if c =c "<" then Some (0x0, 0%nat) else if c =c ">" then Some (0x601, 1%nat) else if c =c "+" then Some (0x201, 1%nat) else None.

(** Words and redirections in any order. *)
Inductive g_items : list token → list (list ascii) → list sredir → Prop :=
| gi_nil : g_items [] [] []
| gi_word w ts ws rs : g_items ts ws rs → g_items (TWord w :: ts) (w :: ws) rs
| gi_redir c w m f ts ws rs :
  redir_op c = Some (m, f) → g_items ts ws rs → g_items (TSym c :: TWord w :: ts) ws (SRedir w m f :: rs).

Inductive g_line : list token → tree → Prop :=
| gl_one ts k t : g_pipe ts t → g_line (ts ++ replicate k (TSym "&")) (Nat.iter k SBack t)
| gl_list ts k t ts2 t2 : g_pipe ts t → g_line ts2 t2 →
  g_line (ts ++ replicate k (TSym "&") ++ TSym ";" :: ts2) (SList (Nat.iter k SBack t) t2)
with g_pipe : list token → tree → Prop :=
| gp_one ts t : g_exec ts t → g_pipe ts t
| gp_pipe ts t ts2 t2 : g_exec ts t → g_pipe ts2 t2 → g_pipe (ts ++ TSym "|" :: ts2) (SPipe t t2)
with g_exec : list token → tree → Prop :=
| ge_cmd ts ws rs : g_items ts ws rs → (length ws < MAXARGS)%nat → g_exec ts (sredirect (SExec ws) rs)
| ge_block ts t ts2 rs : g_line ts t → g_items ts2 [] rs →
  g_exec (TSym "(" :: ts ++ TSym ")" :: ts2) (sredirect t rs).

Scheme g_line_ind2 := Minimality for g_line Sort Prop
  with g_pipe_ind2 := Minimality for g_pipe Sort Prop
  with g_exec_ind2 := Minimality for g_exec Sort Prop.
Combined Scheme grammar_ind from g_line_ind2, g_pipe_ind2, g_exec_ind2.

(** ** The words of a command *)

Section words.
Context (word : span → list ascii).
Definition redir_words (r : redir) : sredir := SRedir (word (file r)) (mode r) (fd r).
Fixpoint words (c : cmd) : tree :=
  match c with
  | EXEC argv => SExec (word <$> argv)
  | REDIR c r => SRed (words c) (redir_words r)
  | PIPE l r => SPipe (words l) (words r)
  | LIST l r => SList (words l) (words r)
  | BACK c => SBack (words c)
  end.
Lemma words_redirect c rs : words (redirect c rs) = sredirect (words c) (redir_words <$> rs).
Proof. revert c; induction rs as [|r rs IH]; intros c; [done|]. apply IH. Qed.
End words.

Fixpoint spans (c : cmd) : list span :=
  match c with
  | EXEC argv => argv
  | REDIR c r => spans c ++ [file r]
  | PIPE l r | LIST l r => spans l ++ spans r
  | BACK c => spans c
  end.
Lemma spans_redirect c rs : spans (redirect c rs) = spans c ++ (file <$> rs).
Proof.
  revert c; induction rs as [|r rs IH]; intros c; [by rewrite app_nil_r|].
  unfold redirect in *. cbn [foldl fmap list_fmap]. rewrite IH. cbn [spans]. by rewrite <-app_assoc.
Qed.

(** ** Lexical structure *)

Lemma is_word_not c : is_word c = true → is_ws c = false ∧ in_set symbols c = false.
Proof. unfold is_word. destruct (is_ws c), (in_set symbols c); done. Qed.
Lemma ws_not_symbol c : in_set symbols c = true → is_ws c = false.
Proof.
  unfold is_ws, in_set. intros H. apply existsb_exists in H as (x & Hx & ->%Ascii.eqb_eq).
  repeat (destruct Hx as [<-|Hx]; [by vm_compute|]). done.
Qed.

Lemma tokens_skip s : tokens (drop_while is_ws s) = tokens s.
Proof.
  induction s as [|c s IH]; [done|]. cbn [drop_while]. destruct (is_ws c) eqn:E; [|done].
  rewrite IH. unfold tokens. cbn [tokens_from]. by rewrite E.
Qed.

Lemma tokens_word cur w s : Forall (λ c, is_word c = true) w → tokens_from cur (w ++ s) = tokens_from (cur ++ w) s.
Proof.
  intros Hw. revert cur. induction Hw as [|c w Hc Hw IH]; intros cur; [by rewrite app_nil_r|].
  cbn [app tokens_from]. destruct (is_word_not c Hc) as [-> Hs]. rewrite Hs.
  destruct (c =c ">") eqn:E; [apply ceq_true in E; by subst|]. rewrite IH. by rewrite <-app_assoc.
Qed.

Lemma tokens_word_end cur s :
  cur ≠ [] → match s with c :: _ => is_word c = false | [] => True end → tokens_from cur s = TWord cur :: tokens s.
Proof.
  intros Hne Hs. assert (flush cur = [TWord cur]) as Hf by by destruct cur.
  destruct s as [|c s]; cbn [tokens_from]; [by rewrite Hf|]. unfold tokens. cbn [tokens_from].
  unfold is_word in Hs. rewrite Hf. destruct (is_ws c); [done|]. destruct (in_set symbols c); [|done].
  by destruct (c =c ">").
Qed.

(** The character that the parser has for a token. *)
Definition tchar (t : token) : ascii := match t with TWord _ => "a"%char | TSym c => c end.
(** The symbols of tokens. *)
Definition tsyms : list ascii := lit "<|>&;()+".
Definition first_char (c : ascii) : ascii := if c =c "+" then ">"%char else c.

(** What [token_at] finds, at a character that is not white space. *)
Lemma token_at_spec s :
  match s with c :: _ => is_ws c = false | [] => True end →
  match tokens s with
  | [] => s = [] ∧ token_at s = (c_nul, [])
  | t :: ts => ∃ s', token_at s = (tchar t, s') ∧ tokens s' = ts ∧
      match t with
      | TWord w => s = w ++ s' ∧ w ≠ [] ∧ Forall (λ c, is_word c = true) w ∧
          match s' with c :: _ => is_word c = false | [] => True end
      | TSym c => c ∈ tsyms ∧ ∃ x, s = first_char c :: x ++ s'
      end
  end.
Proof.
  destruct s as [|c s]; [done|]. intros Hws. unfold tokens. cbn [tokens_from token_at]. rewrite Hws. cbn [flush app].
  destruct (c =c ">") eqn:Egt.
  { apply ceq_true in Egt as ->. change (in_set (lit "|();&<") ">") with false. cbn iota. destruct s as [|c2 s].
    - exists []. split_and!; [done|done|by apply (bool_decide_unpack _)|by exists []].
    - destruct (c2 =c ">") eqn:E2.
      + exists s. apply ceq_true in E2 as ->. split_and!; [done|done|by apply (bool_decide_unpack _)|by exists [">"%char]].
      + exists (c2 :: s). split_and!; [done|done|by apply (bool_decide_unpack _)|by exists []]. }
  destruct (in_set symbols c) eqn:Esym.
  - assert (in_set (lit "|();&<") c = true ∧ c ∈ tsyms ∧ first_char c = c) as (-> & Hin & Hfc).
    { unfold in_set in Esym. apply existsb_exists in Esym as (x & Hx & ->%Ascii.eqb_eq).
      repeat (destruct Hx as [<-|Hx]; [split_and!; [by vm_compute|by apply (bool_decide_unpack _)|done] || done|]). done. }
    exists s. split_and!; [done|done|done|]. exists []. by rewrite Hfc.
  - assert (in_set (lit "|();&<") c = false) as ->.
    { apply not_true_is_false. intros H. unfold in_set in H. apply existsb_exists in H as (x & Hx & ->%Ascii.eqb_eq).
      repeat (destruct Hx as [<-|Hx]; [done|]). done. }
    assert (is_word c = true) as Hc by (unfold is_word; by rewrite Hws, Esym).
    pose proof (take_drop_while is_word (c :: s)) as Htd. cbn [take_while drop_while] in *. rewrite Hc in *.
    set (w := take_while is_word s) in *. set (r := drop_while is_word s) in *.
    assert (Forall (λ c, is_word c = true) w) as Hw.
    { apply (Forall_impl _ _ _ (take_while_all is_word s)). intros x. apply Is_true_true_1. }
    assert (match r with c :: _ => is_word c = false | [] => True end) as Hr.
    { destruct r as [|x r'] eqn:Er; [done|]. by eapply drop_while_head. }
    assert (s = w ++ r) as Es by (symmetry; apply take_drop_while). clearbody w r. subst s. clear Htd.
    rewrite (tokens_word [c]), tokens_word_end by done. exists r.
    split_and!; [done|done|done|done|by constructor|done].
Qed.
