(* ===== verification/ShSim.v ===== *)
(** The parser of the xv6 shell reads tokens: each function on the characters
    of the line does what a function on the list of tokens does. *)
From S2P Require Import Prelude Sh ShGrammar.

Abbreviation tok_parser := (parser (list token)).

(** ** The parser on tokens *)

Definition head_in (set : list ascii) (ts : list token) : bool :=
  match ts with TSym c :: _ => in_set set (first_char c) | _ => false end.
Definition t_peek (set : list ascii) : tok_parser bool := λ ts, Parsed (head_in set ts) ts.
Definition t_get : tok_parser (option token) := λ ts,
  match ts with [] => Parsed None [] | t :: ts => Parsed (Some t) ts end.

Fixpoint t_redirs (ts : list token) : pres (list token) (list sredir) :=
  match ts with
  | TSym c :: ts' =>
    match redir_op c with
    | Some (m, f) =>
      match ts' with
      | TWord w :: ts'' =>
        match t_redirs ts'' with
        | Parsed rs rest => Parsed (SRedir w m f :: rs) rest
        | r => r
        end
      | _ => Panicked []
      end
    | None => Parsed [] ts
    end
  | _ => Parsed [] ts
  end.

(** The words and redirections of a command that has [argc] words already. *)
Fixpoint t_items (argc : nat) (ts : list token) : pres (list token) (list (list ascii) * list sredir) :=
  match ts with
  | [] => Parsed ([], []) []
  | TWord w :: ts' =>
    if bool_decide (MAXARGS ≤ S argc)%nat then Panicked []
    else match t_items (S argc) ts' with
         | Parsed r rest => Parsed (w :: r.1, r.2) rest
         | r => r
         end
  | TSym c :: ts' =>
    if in_set (lit "|)&;") c then Parsed ([], []) ts
    else match redir_op c, ts' with
         | Some (m, f), TWord w :: ts'' =>
           match t_items argc ts'' with
           | Parsed r rest => Parsed (r.1, SRedir w m f :: r.2) rest
           | r => r
           end
         | _, _ => Panicked []
         end
  end.

Fixpoint t_back (t : tree) (ts : list token) : pres (list token) tree :=
  match ts with
  | TSym c :: ts' => if c =c "&" then t_back (SBack t) ts' else Parsed t ts
  | _ => Parsed t ts
  end.

Fixpoint t_line (fuel : nat) : tok_parser tree :=
  match fuel with
  | O => no_fuel
  | S fuel =>
    t ← t_pipe fuel;
    t ← t_back t;
    b ← t_peek (lit ";");
    if b : bool then t_get;; t2 ← t_line fuel; mret (SList t t2) else mret t
  end
with t_pipe (fuel : nat) : tok_parser tree :=
  match fuel with
  | O => no_fuel
  | S fuel =>
    t ← t_exec fuel;
    b ← t_peek (lit "|");
    if b : bool then t_get;; t2 ← t_pipe fuel; mret (SPipe t t2) else mret t
  end
with t_exec (fuel : nat) : tok_parser tree :=
  match fuel with
  | O => no_fuel
  | S fuel =>
    b ← t_peek (lit "(");
    if b : bool then t_block fuel
    else r ← t_items 0; mret (sredirect (SExec r.1) r.2)
  end
with t_block (fuel : nat) : tok_parser tree :=
  match fuel with
  | O => no_fuel
  | S fuel =>
    b ← t_peek (lit "(");
    if negb b then ppanic []
    else
      t_get;;
      t ← t_line fuel;
      b ← t_peek (lit ")");
      if negb b then ppanic []
      else t_get;; rs ← t_redirs; mret (sredirect t rs)
  end.

(** ** Simulation *)

Section sim.
Context (line : list ascii).
Abbreviation n := (length line).

(** The characters of a word; a word as [gettoken] finds it. *)
Definition text (w : span) : list ascii := take (w_eq w - w_q w) (drop (w_q w) line).
Definition good (w : span) : Prop :=
  (w_q w < w_eq w ≤ n)%nat ∧ Forall (λ c, is_word c = true) (text w) ∧ ∀ c, line !! w_eq w = Some c → is_word c = false.

Definition simr {A B} (R : A → B → Prop) (r : pres (list ascii) A) (r' : pres (list token) B) : Prop :=
  match r' with
  | Parsed b ts => ∃ a s, r = Parsed a s ∧ R a b ∧ tokens s = ts ∧ s `suffix_of` line
  | Panicked _ => ∃ msg, r = Panicked msg
  | OutOfFuel => r = OutOfFuel
  end.
Definition sim {A B} (R : A → B → Prop) (m : line_parser A) (m' : tok_parser B) : Prop :=
  ∀ s, s `suffix_of` line → simr R (m s) (m' (tokens s)).

Lemma sim_ret {A B} (R : A → B → Prop) a b : R a b → sim R (mret a) (mret b).
Proof. intros HR s Hs. by exists a, s. Qed.
Lemma sim_bind {A B C D} (R : A → B → Prop) (R' : C → D → Prop) m m' f f' :
  sim R m m' → (∀ a b, R a b → sim R' (f a) (f' b)) → sim R' (m ≫= f) (m' ≫= f').
Proof.
  intros Hm Hf s Hs. specialize (Hm s Hs). unfold mbind, parser_bind, simr in *.
  destruct (m' (tokens s)) as [b ts|?|].
  - destruct Hm as (a & s1 & -> & HR & <- & Hs1). by apply Hf.
  - destruct Hm as [e ->]. by exists e.
  - by rewrite Hm.
Qed.
Lemma sim_panic {A B} (R : A → B → Prop) msg msg' : sim R (ppanic msg) (ppanic msg').
Proof. intros s Hs. by exists msg. Qed.
Lemma sim_no_fuel {A B} (R : A → B → Prop) : sim R no_fuel no_fuel.
Proof. by intros s Hs. Qed.

(** ** The lexer *)

Lemma suffix_skip (p : ascii → bool) s : s `suffix_of` line → drop_while p s `suffix_of` line.
Proof. intros Hs. trans s; [|done]. exists (take_while p s). symmetry. apply take_drop_while. Qed.
Lemma skip_head s : match drop_while is_ws s with c :: _ => is_ws c = false | [] => True end.
Proof. destruct (drop_while is_ws s) eqn:E; [done|]. by eapply drop_while_head. Qed.

Lemma text_suffix w s :
  (w ++ s) `suffix_of` line → text (Span (n - length (w ++ s)) (n - length s)) = w.
Proof.
  intros [x Hx]. unfold text. cbn [w_q w_eq]. rewrite Hx, !length_app.
  replace (length x + (length w + length s) - (length w + length s))%nat with (length x) by lia.
  rewrite drop_app_length. replace (_ - _)%nat with (length w) by lia. apply take_app_length.
Qed.

Lemma good_suffix w s :
  (w ++ s) `suffix_of` line → w ≠ [] → Forall (λ c, is_word c = true) w →
  match s with c :: _ => is_word c = false | [] => True end →
  good (Span (n - length (w ++ s)) (n - length s)).
Proof.
  intros Hsf Hne Hw Hs. split_and!.
  - destruct Hsf as [x Hx]. cbn [w_q w_eq]. rewrite Hx, !length_app. destruct w; [done|]. simpl. lia.
  - cbn [w_q w_eq]. lia.
  - by rewrite text_suffix.
  - intros c. cbn [w_eq]. destruct Hsf as [x Hx]. rewrite Hx, app_assoc. rewrite length_app, Nat.add_sub.
    rewrite lookup_app_r, Nat.sub_diag by lia. destruct s as [|c' s]; [done|]. cbn. by intros [= <-].
Qed.

(** A token and what [gettoken] returns for it. *)
Definition tok_rel (r : ascii * span) (o : option token) : Prop :=
  match o with
  | None => r.1 = c_nul
  | Some t => r.1 = tchar t ∧ match t with TWord w => text r.2 = w ∧ good r.2 | TSym c => c ∈ tsyms end
  end.

Lemma gettoken_sim : sim tok_rel (gettoken n) t_get.
Proof.
  intros s Hs. unfold gettoken. pose proof (token_at_spec _ (skip_head s)) as Ht. rewrite tokens_skip in Ht.
  apply (suffix_skip is_ws) in Hs. set (s0 := drop_while is_ws s) in *. unfold t_get. destruct (tokens s) as [|t ts].
  - destruct Ht as [E ->]. eexists _, _. split_and!; [done|done|done|]. apply suffix_nil.
  - destruct Ht as (s' & -> & Hts & Htok). assert (s' `suffix_of` line) as Hs'.
    { trans s0; [|done]. destruct t; destruct Htok as (Hc & Htok); [by exists w|]. destruct Htok as [x ->]. by exists (first_char c :: x). }
    eexists _, _. split_and!; [done| |by rewrite tokens_skip|by apply suffix_skip]. split; [done|].
    destruct t as [w|c]; [|by destruct Htok]. destruct Htok as (E & Hne & Hw & Hr). cbn [snd]. rewrite E in *. split.
    + by apply text_suffix.
    + by apply good_suffix.
Qed.

Lemma peek_sim set :
  Forall (λ c, in_set symbols c = true) set → sim Logic.eq (peek set) (t_peek set).
Proof.
  intros Hset s Hs. unfold peek, t_peek. pose proof (token_at_spec _ (skip_head s)) as Ht. rewrite tokens_skip in Ht.
  apply (suffix_skip is_ws) in Hs. set (s0 := drop_while is_ws s) in *. eexists _, _.
  split_and!; [done| |by unfold s0; rewrite tokens_skip|done]. destruct (tokens s) as [|t ts].
  - by destruct Ht as [-> _].
  - destruct Ht as (s' & _ & _ & Htok). destruct t as [w|c].
    + destruct Htok as (-> & Hne & Hw & _). destruct w as [|c w]; [done|]. cbn [app head_in]. inversion_clear Hw as [|? ? Hc _].
      apply not_true_is_false. intros Hin. apply is_word_not in Hc as [_ Hc]. unfold in_set in Hin.
      apply existsb_exists in Hin as (x & Hx & ->%Ascii.eqb_eq). rewrite Forall_forall in Hset.
      rewrite Hset in Hc; [done|]. by apply list_elem_of_In.
    + by destruct Htok as [_ [x ->]].
Qed.
Lemma peek_set_ok (set : list ascii) : forallb (in_set symbols) set = true → Forall (λ c, in_set symbols c = true) set.
Proof. intros H. apply Forall_forall. intros c Hc. rewrite forallb_forall in H. by apply H, list_elem_of_In. Qed.

Lemma tokens_length s : (length (tokens s) ≤ length s)%nat.
Proof.
  assert (∀ k cur s, length s ≤ k → length (tokens_from cur s) ≤ length s + length (flush cur))%nat as H.
  { induction k as [|k IH]; intros cur [|c s0] Hk; cbn [tokens_from length] in *; try lia.
    assert (length (flush (cur ++ [c])) = 1)%nat as Hf by by destruct cur.
    repeat case_match; rewrite ?length_app; cbn [length];
      repeat match goal with |- context [tokens_from ?u ?v] => let H := fresh in
        pose proof (IH u v ltac:(cbn [length] in *; lia)) as H; revert H; generalize (tokens_from u v) end;
      cbn [flush length] in *; intros; lia. }
  specialize (H (length s) [] s). simpl in H. unfold tokens. lia.
Qed.

(** ** Loops *)

Lemma redir_op_Some c m f ts : redir_op c = Some (m, f) → head_in (lit "<>") (TSym c :: ts) = true.
Proof.
  unfold redir_op. destruct (c =c "<") eqn:E1; [by apply ceq_true in E1 as ->|].
  destruct (c =c ">") eqn:E2; [by apply ceq_true in E2 as ->|]. destruct (c =c "+") eqn:E3; [by apply ceq_true in E3 as ->|done].
Qed.
Lemma head_in_redir ts : head_in (lit "<>") ts = true → ∃ c m f ts', ts = TSym c :: ts' ∧ redir_op c = Some (m, f).
Proof.
  destruct ts as [|[w|c] ts]; [done|done|]. cbn [head_in]. unfold first_char, redir_op.
  destruct (c =c "+") eqn:E3; [apply ceq_true in E3 as ->; by eexists _, _, _, _|].
  change (in_set (lit "<>") c) with ((c =c "<") || ((c =c ">") || false)).
  destruct (c =c "<") eqn:E1; [by eexists _, _, _, _; rewrite E1|]. destruct (c =c ">") eqn:E2; [|done].
  by eexists _, _, _, _; rewrite E1, E2.
Qed.
Lemma t_redirs_none ts : head_in (lit "<>") ts = false → t_redirs ts = Parsed [] ts.
Proof.
  destruct ts as [|[w|c] ts]; [done|done|]. intros H. cbn [t_redirs]. destruct (redir_op c) as [[m f]|] eqn:E; [|done].
  by rewrite (redir_op_Some _ _ _ _ E) in H.
Qed.
Lemma t_redirs_rest ts rs rest : t_redirs ts = Parsed rs rest → head_in (lit "<>") rest = false ∧ (length rest ≤ length ts)%nat.
Proof.
  revert rs. induction ts as [ts IH] using (induction_ltof1 _ (@length token)). intros rs Hr. unfold ltof in IH.
  destruct (head_in (lit "<>") ts) eqn:Eh; [|rewrite t_redirs_none in Hr by done; by simplify_eq].
  destruct (head_in_redir _ Eh) as (c & m & f & ts' & -> & Hop). cbn [t_redirs] in Hr. rewrite Hop in Hr.
  destruct ts' as [|[w|?] ts']; simplify_eq. destruct (t_redirs ts') eqn:E; simplify_eq.
  destruct (IH ts' ltac:(simpl; lia) _ E). split; [done|simpl; lia].
Qed.

Lemma t_items_redirs argc ts :
  t_items argc ts =
    match t_redirs ts with
    | Parsed rs rest => match t_items argc rest with Parsed r rest2 => Parsed (r.1, rs ++ r.2) rest2 | r => r end
    | Panicked m => Panicked []
    | OutOfFuel => OutOfFuel
    end.
Proof.
  induction ts as [ts IH] using (induction_ltof1 _ (@length token)). unfold ltof in IH.
  destruct (head_in (lit "<>") ts) eqn:Eh.
  2:{ rewrite t_redirs_none by done. destruct (t_items argc ts) as [[]| |]; done. }
  destruct (head_in_redir _ Eh) as (c & m & f & ts' & -> & Hop). cbn [t_redirs t_items].
  assert (in_set (lit "|)&;") c = false) as ->.
  { unfold redir_op in Hop. destruct (c =c "<") eqn:E1; [by apply ceq_true in E1 as ->|].
    destruct (c =c ">") eqn:E2; [by apply ceq_true in E2 as ->|]. destruct (c =c "+") eqn:E3; [by apply ceq_true in E3 as ->|done]. }
  rewrite Hop. destruct ts' as [|[w|?] ts']; [done| |done]. rewrite (IH ts') by (simpl; lia).
  destruct (t_redirs ts') as [rs rest| |]; [|done..]. by destruct (t_items argc rest).
Qed.

Definition redirs_rel (rs : list redir) (rs' : list sredir) : Prop :=
  redir_words text <$> rs = rs' ∧ Forall good (file <$> rs).

Lemma pbind_eq {A C} (m : line_parser A) (f : A → line_parser C) s a s' : m s = Parsed a s' → (m ≫= f) s = f a s'.
Proof. unfold mbind, parser_bind. by intros ->. Qed.

Lemma run_sim {A B} (R : A → B → Prop) (m : line_parser A) m' s b ts :
  sim R m m' → s `suffix_of` line → m' (tokens s) = Parsed b ts →
  ∃ a s', m s = Parsed a s' ∧ R a b ∧ tokens s' = ts ∧ s' `suffix_of` line.
Proof. intros Hm Hs E. specialize (Hm s Hs). unfold simr in Hm. by rewrite E in Hm. Qed.
Lemma run_peek set s :
  forallb (in_set symbols) set = true → s `suffix_of` line →
  ∃ s', peek set s = Parsed (head_in set (tokens s)) s' ∧ tokens s' = tokens s ∧ s' `suffix_of` line.
Proof.
  intros Hset Hs. destruct (run_sim Logic.eq (peek set) (t_peek set) s (head_in set (tokens s)) (tokens s)) as (b & s' & E & -> & ?);
    [by apply peek_sim, peek_set_ok|done|done|by eauto].
Qed.
Lemma run_gettoken s ts :
  s `suffix_of` line → tokens s = ts →
  ∃ t w s', gettoken n s = Parsed (t, w) s' ∧ tokens s' = tail ts ∧ s' `suffix_of` line ∧ tok_rel (t, w) (head ts).
Proof.
  intros Hs <-. destruct (run_sim tok_rel (gettoken n) t_get s (head (tokens s)) (tail (tokens s))) as ([t w] & s' & E & ?);
    [apply gettoken_sim|done|by destruct (tokens s)|]. exists t, w, s'. naive_solver.
Qed.

Lemma tsym_not_word c : c ∈ tsyms → (c =c "a") = false ∧ (c =c c_nul) = false.
Proof. rewrite list_elem_of_In. intros Hc. repeat (destruct Hc as [<-|Hc]; [done|]). done. Qed.

Lemma redirs_loop_sim fuel s :
  s `suffix_of` line → (length (tokens s) < fuel)%nat → simr redirs_rel (redirs_loop n fuel s) (t_redirs (tokens s)).
Proof.
  revert s; induction fuel as [|fuel IH]; intros s Hs Hf; [lia|]. cbn [redirs_loop].
  destruct (run_peek (lit "<>") s) as (s1 & E1 & Ht1 & Hs1); [done|done|]. rewrite (pbind_eq _ _ _ _ _ E1).
  destruct (head_in (lit "<>") (tokens s)) eqn:Eh; [|rewrite t_redirs_none by done; by exists [], s1].
  destruct (head_in_redir _ Eh) as (c & m & f & ts & Ets & Hop). rewrite Ets in *. cbn [length] in Hf.
  destruct (run_gettoken s1 _ Hs1 Ht1) as (t1 & w1 & s2 & E2 & Ht2 & Hs2 & [Hc _]). cbn [fst tchar tail] in Hc, Ht2. subst t1.
  rewrite (pbind_eq _ _ _ _ _ E2). cbn [t_redirs]. rewrite Hop.
  destruct (run_gettoken s2 _ Hs2 Ht2) as (t2 & w2 & s3 & E3 & Ht3 & Hs3 & Hrel). rewrite (pbind_eq _ _ _ _ _ E3).
  destruct ts as [|t ts]; [cbn in Hrel; subst; by eexists|]. destruct Hrel as [Hc Hw]. cbn [fst snd tail] in *. subst t2.
  destruct t as [w|c2]; cbn [tchar]; [|destruct (tsym_not_word c2 Hw) as [-> _]; by eexists].
  change (negb ("a" =c "a")) with false. cbn iota.
  specialize (IH s3 Hs3 ltac:(rewrite Ht3; simpl in *; lia)). rewrite Ht3 in IH. unfold mbind, parser_bind.
  destruct (t_redirs ts) as [rs rest| |]; cbn [simr] in IH |- *.
  - destruct IH as (rs' & s4 & -> & [Hrs Hg] & Ht4 & Hs4). eexists _, s4. split_and!; [done| |done|done].
    destruct Hw as [Hw Hgood]. split; [|by constructor; [destruct (c =c "<"), (c =c ">")|]].
    cbn [fmap list_fmap]. rewrite Hrs. f_equal. unfold redir_op in Hop. unfold redir_words.
    destruct (c =c "<"); simplify_eq; cbn [file mode fd]; [done|]. destruct (c =c ">"); simplify_eq; [done|].
    destruct (c =c "+"); by simplify_eq.
  - destruct IH as [e ->]. by eexists.
  - by rewrite IH.
Qed.

Lemma parseredirs_sim : sim redirs_rel (parseredirs n) t_redirs.
Proof. intros s Hs. apply redirs_loop_sim; [done|]. pose proof (tokens_length s). lia. Qed.

Definition items_rel (r : list span * list redir) (r' : list (list ascii) * list sredir) : Prop :=
  (text <$> r.1 = r'.1 ∧ Forall good r.1) ∧ redirs_rel r.2 r'.2.

Lemma redirs_rel_app rs1 rs1' rs2 rs2' : redirs_rel rs1 rs1' → redirs_rel rs2 rs2' → redirs_rel (rs1 ++ rs2) (rs1' ++ rs2').
Proof. intros [<- H1] [<- H2]. split; rewrite fmap_app; [done|]. by apply Forall_app. Qed.

Lemma args_loop_sim fuel argc s :
  s `suffix_of` line → (length (tokens s) < fuel)%nat → head_in (lit "<>") (tokens s) = false →
  simr items_rel (args_loop n fuel argc s) (t_items argc (tokens s)).
Proof.
  revert argc s; induction fuel as [|fuel IH]; intros argc s Hs Hf Hh; [lia|]. cbn [args_loop].
  destruct (run_peek (lit "|)&;") s) as (s1 & E1 & Ht1 & Hs1); [done|done|]. rewrite (pbind_eq _ _ _ _ _ E1).
  destruct (run_gettoken s1 _ Hs1 Ht1) as (t1 & w1 & s2 & E2 & Ht2 & Hs2 & Hrel).
  destruct (tokens s) as [|[w|c] ts]; cbn [head_in head tail length t_items] in *.
  - rewrite (pbind_eq _ _ _ _ _ E2). cbn in Hrel. subst t1. by exists ([], []), s2.
  - rewrite (pbind_eq _ _ _ _ _ E2). destruct Hrel as [Hc [Hw Hgood]]. cbn [fst snd tchar] in *. subst t1.
    change ("a" =c c_nul) with false. change (negb ("a" =c "a")) with false. cbn iota.
    destruct (bool_decide (MAXARGS ≤ S argc)%nat); [by eexists|]. rewrite t_items_redirs.
    pose proof (parseredirs_sim s2 Hs2) as Hr. rewrite Ht2 in Hr. destruct (t_redirs ts) as [rs rest|e|] eqn:Er; cbn [simr] in Hr.
    + destruct Hr as (rs' & s3 & E3 & Hrs & Ht3 & Hs3). rewrite (pbind_eq _ _ _ _ _ E3).
      destruct (t_redirs_rest _ _ _ Er) as [Hh3 Hl3].
      specialize (IH (S argc) s3 Hs3). rewrite Ht3 in IH. specialize (IH ltac:(lia) Hh3).
      destruct (t_items (S argc) rest) as [r rest2|e|]; cbn [simr] in IH |- *.
      * destruct IH as (r' & s4 & E4 & [[Hws Hg] Hr2] & Ht4 & Hs4). rewrite (pbind_eq _ _ _ _ _ E4).
        eexists _, s4. split_and!; [done| |done|done]. split; [|by apply redirs_rel_app].
        cbn [fst fmap list_fmap]. rewrite Hws, Hw. split; [done|by constructor].
      * destruct IH as [e' E4]. unfold mbind, parser_bind. rewrite E4. by eexists.
      * unfold mbind, parser_bind. by rewrite IH.
    + destruct Hr as [e' E3]. unfold mbind, parser_bind. rewrite E3. by eexists.
    + unfold mbind, parser_bind. by rewrite Hr.
  - destruct Hrel as [Hc Hsym]. cbn [fst snd tchar] in *. subst t1. destruct (tsym_not_word c Hsym) as [Ea En].
    assert (in_set (lit "|)&;") (first_char c) = in_set (lit "|)&;") c) as ->.
    { unfold first_char. destruct (c =c "+") eqn:E; [|done]. by apply ceq_true in E as ->. }
    destruct (in_set (lit "|)&;") c) eqn:Ein.
    { exists ([], []), s1. by split_and!. }
    rewrite (pbind_eq _ _ _ _ _ E2). cbn [fst]. rewrite Ea, En. cbn [negb].
    destruct (redir_op c) as [[m f]|] eqn:Eop; [|by eexists].
    pose proof (redir_op_Some _ _ _ ts Eop) as Hr. cbn [head_in] in Hr. congruence.
Qed.

Lemma items_sim : sim items_rel (rs ← parseredirs n; r ← looping (λ k, args_loop n k 0); mret (r.1, rs ++ r.2)) (t_items 0).
Proof.
  intros s Hs. rewrite t_items_redirs. pose proof (parseredirs_sim s Hs) as Hr.
  destruct (t_redirs (tokens s)) as [rs rest|e|] eqn:Er; cbn [simr] in Hr.
  - destruct Hr as (rs' & s3 & E3 & Hrs & Ht3 & Hs3). rewrite (pbind_eq _ _ _ _ _ E3).
    destruct (t_redirs_rest _ _ _ Er) as [Hh3 Hl3]. pose proof (args_loop_sim (S (length s3)) 0 s3 Hs3) as Ha.
    pose proof (tokens_length s3) as Htl. rewrite Ht3 in *. specialize (Ha ltac:(lia) Hh3).
    change (args_loop n (S (length s3)) 0 s3) with (looping (λ k, args_loop n k 0) s3) in Ha.
    destruct (t_items 0 rest) as [r rest2|e|]; cbn [simr] in Ha |- *.
    + destruct Ha as (r' & s4 & E4 & [Hws Hr2] & Ht4 & Hs4). rewrite (pbind_eq _ _ _ _ _ E4).
      eexists _, s4. split_and!; [done| |done|done]. split; [done|by apply redirs_rel_app].
    + destruct Ha as [e' E4]. unfold mbind, parser_bind. rewrite E4. by eexists.
    + unfold mbind, parser_bind. by rewrite Ha.
  - destruct Hr as [e' E3]. unfold mbind, parser_bind. rewrite E3. by eexists.
  - unfold mbind, parser_bind. by rewrite Hr.
Qed.

(** A command and the tree of its words. *)
Definition cmd_rel (c : cmd) (t : tree) : Prop := words text c = t ∧ Forall good (spans c).

Lemma cmd_rel_redirect c t rs rs' : cmd_rel c t → redirs_rel rs rs' → cmd_rel (redirect c rs) (sredirect t rs').
Proof.
  intros [<- Hc] [<- Hrs]. split; [apply words_redirect|]. rewrite spans_redirect. by apply Forall_app.
Qed.

Lemma back_loop_sim fuel c t s :
  s `suffix_of` line → (length (tokens s) < fuel)%nat → cmd_rel c t → simr cmd_rel (back_loop n fuel c s) (t_back t (tokens s)).
Proof.
  revert c t s; induction fuel as [|fuel IH]; intros c t s Hs Hf Hc; [lia|]. cbn [back_loop].
  destruct (run_peek (lit "&") s) as (s1 & E1 & Ht1 & Hs1); [done|done|]. rewrite (pbind_eq _ _ _ _ _ E1).
  destruct (run_gettoken s1 _ Hs1 Ht1) as (t1 & w1 & s2 & E2 & Ht2 & Hs2 & Hrel).
  destruct (tokens s) as [|[w|ch] ts]; cbn [head_in head tail length t_back] in *; [by exists c, s1..|].
  assert (in_set (lit "&") (first_char ch) = (ch =c "&")) as ->.
  { unfold first_char. destruct (ch =c "+") eqn:E; [by apply ceq_true in E as ->|].
    change (in_set (lit "&") ch) with ((ch =c "&") || false). by destruct (ch =c "&"). }
  destruct (ch =c "&"); [|by exists c, s1]. rewrite (pbind_eq _ _ _ _ _ E2). rewrite <-Ht2. apply IH; [done|rewrite Ht2; lia|].
  destruct Hc as [<- Hg]. by split.
Qed.
Lemma back_sim c t : cmd_rel c t → sim cmd_rel (looping (λ k, back_loop n k c)) (t_back t).
Proof. intros Hc s Hs. apply back_loop_sim; [done| |done]. pose proof (tokens_length s). lia. Qed.

Lemma parsers_sim fuel :
  sim cmd_rel (parseline n fuel) (t_line fuel) ∧ sim cmd_rel (parsepipe n fuel) (t_pipe fuel) ∧
  sim cmd_rel (parseexec n fuel) (t_exec fuel) ∧ sim cmd_rel (parseblock n fuel) (t_block fuel).
Proof.
  induction fuel as [|fuel (IHl & IHp & IHe & IHb)]; [split_and!; apply sim_no_fuel|].
  assert (∀ set, forallb (in_set symbols) set = true → sim Logic.eq (peek set) (t_peek set)) as Hpk.
  { intros set Hset. by apply peek_sim, peek_set_ok. }
  split_and!; cbn [parseline parsepipe parseexec parseblock t_line t_pipe t_exec t_block].
  - eapply sim_bind; [exact IHp|]. intros c t Hc. eapply sim_bind; [by apply back_sim|]. clear c t Hc. intros c t Hc.
    eapply sim_bind; [by apply Hpk|]. intros b ? <-. destruct b; [|by apply sim_ret].
    eapply sim_bind; [apply gettoken_sim|]. intros _ _ _. eapply sim_bind; [exact IHl|]. intros c2 t2 Hc2. apply sim_ret.
    destruct Hc as [<- Hg], Hc2 as [<- Hg2]. split; [done|]. by apply Forall_app.
  - eapply sim_bind; [exact IHe|]. intros c t Hc.
    eapply sim_bind; [by apply Hpk|]. intros b ? <-. destruct b; [|by apply sim_ret].
    eapply sim_bind; [apply gettoken_sim|]. intros _ _ _. eapply sim_bind; [exact IHp|]. intros c2 t2 Hc2. apply sim_ret.
    destruct Hc as [<- Hg], Hc2 as [<- Hg2]. split; [done|]. by apply Forall_app.
  - eapply sim_bind; [by apply Hpk|]. intros b ? <-. destruct b; [done|].
    assert (sim cmd_rel (r ← (rs ← parseredirs n; r ← looping (λ k, args_loop n k 0); mret (r.1, rs ++ r.2));
      mret (redirect (EXEC r.1) r.2)) (r ← t_items 0; mret (sredirect (SExec r.1) r.2))) as H.
    { eapply sim_bind; [apply items_sim|]. intros r r' [[Hws Hg] Hrs]. apply sim_ret. apply cmd_rel_redirect; [|done].
      split; [cbn [words]; by rewrite Hws|done]. }
    intros s Hs. specialize (H s Hs). unfold mbind, parser_bind in H |- *.
    destruct (parseredirs n s) as [rs s1| |]; [|done..]. by destruct (looping _ s1).
  - eapply sim_bind; [by apply Hpk|]. intros b ? <-. destruct b; [|apply sim_panic].
    eapply sim_bind; [apply gettoken_sim|]. intros _ _ _. eapply sim_bind; [exact IHl|]. intros c t Hc.
    eapply sim_bind; [by apply Hpk|]. intros b ? <-. destruct b; [|apply sim_panic].
    eapply sim_bind; [apply gettoken_sim|]. intros _ _ _. eapply sim_bind; [apply parseredirs_sim|]. intros rs rs' Hrs.
    apply sim_ret. by apply cmd_rel_redirect.
Qed.
End sim.
