(* ===== verification/ShParse.v ===== *)
(** The xv6 shell parses exactly the command language, and the strings it runs a
    command with are the words of the line. *)
From S2P Require Import Prelude Sh ShGrammar ShSim.

(** ** Loops *)

(** A token after which a command ends. *)
Definition stop (ts : list token) : Prop :=
  match ts with [] => True | TSym c :: _ => in_set (lit "|)&;") c = true | TWord _ :: _ => False end.

Lemma redir_not_stop c m f : redir_op c = Some (m, f) → in_set (lit "|)&;") c = false.
Proof.
  unfold redir_op. destruct (c =c "<") eqn:E1; [by apply ceq_true in E1 as ->|].
  destruct (c =c ">") eqn:E2; [by apply ceq_true in E2 as ->|]. destruct (c =c "+") eqn:E3; [by apply ceq_true in E3 as ->|done].
Qed.

Lemma t_items_sound argc ts r rest :
  t_items argc ts = Parsed r rest →
  ∃ ts1, ts = ts1 ++ rest ∧ g_items ts1 r.1 r.2 ∧ stop rest ∧ (r.1 = [] ∨ argc + length r.1 < MAXARGS)%nat.
Proof.
  revert argc r. induction ts as [ts IH] using (induction_ltof1 _ (@length token)). unfold ltof in IH. intros argc r H.
  destruct ts as [|[w|c] ts]; cbn [t_items] in H.
  - simplify_eq. exists []. split_and!; [done|constructor|done|by left].
  - case_bool_decide as Hmax; [done|]. destruct (t_items (S argc) ts) as [r' rest'| |] eqn:E; simplify_eq.
    destruct (IH ts ltac:(simpl; lia) _ _ E) as (ts1 & -> & Hg & Hst & Hl). exists (TWord w :: ts1).
    split_and!; [done|by constructor|done|]. right. cbn [fst length]. destruct Hl as [->|Hl]; simpl; lia.
  - destruct (in_set (lit "|)&;") c) eqn:Ein; simplify_eq.
    { exists []. split_and!; [done|constructor|done|by left]. }
    destruct (redir_op c) as [[m f]|] eqn:Eop; [|done]. destruct ts as [|[w|?] ts]; [done| |done].
    destruct (t_items argc ts) as [r' rest'| |] eqn:E; simplify_eq.
    destruct (IH ts ltac:(simpl; lia) _ _ E) as (ts1 & -> & Hg & Hst & Hl). exists (TSym c :: TWord w :: ts1).
    split_and!; [done|by econstructor|done|done].
Qed.

Lemma t_items_complete ts ws rs argc rest :
  g_items ts ws rs → stop rest → (argc + length ws < MAXARGS)%nat → t_items argc (ts ++ rest) = Parsed (ws, rs) rest.
Proof.
  intros Hg Hst. revert argc. induction Hg as [|w ts ws rs Hg IH|c w m f ts ws rs Hop Hg IH]; intros argc Hl; cbn [app t_items].
  - destruct rest as [|[w|c] rest]; [done|done|]. cbn [t_items]. by rewrite Hst.
  - cbn [length] in Hl. rewrite bool_decide_eq_false_2 by lia. by rewrite IH by lia.
  - rewrite (redir_not_stop _ _ _ Hop), Hop. by rewrite IH by lia.
Qed.

Lemma t_redirs_sound ts rs rest : t_redirs ts = Parsed rs rest → ∃ ts1, ts = ts1 ++ rest ∧ g_items ts1 [] rs.
Proof.
  revert rs. induction ts as [ts IH] using (induction_ltof1 _ (@length token)). unfold ltof in IH. intros rs H.
  destruct (head_in (lit "<>") ts) eqn:Eh.
  2:{ rewrite t_redirs_none in H by done. simplify_eq. exists []. split; [done|constructor]. }
  destruct (head_in_redir _ Eh) as (c & m & f & ts' & -> & Hop). cbn [t_redirs] in H. rewrite Hop in H.
  destruct ts' as [|[w|?] ts']; simplify_eq. destruct (t_redirs ts') as [rs' rest'| |] eqn:E; simplify_eq.
  destruct (IH ts' ltac:(simpl; lia) _ E) as (ts1 & -> & Hg). exists (TSym c :: TWord w :: ts1). split; [done|by econstructor].
Qed.

Lemma t_redirs_complete ts rs rest :
  g_items ts [] rs → head_in (lit "<>") rest = false → t_redirs (ts ++ rest) = Parsed rs rest.
Proof.
  intros Hg Hh. remember [] as ws eqn:Ews. revert Ews.
  induction Hg as [|w ts ws rs Hg IH|c w m f ts ws rs Hop Hg IH]; intros Ews; [by apply t_redirs_none|done|].
  cbn [app t_redirs]. by rewrite Hop, IH.
Qed.

Lemma loops_return argc ts : t_items argc ts ≠ OutOfFuel ∧ t_redirs ts ≠ OutOfFuel.
Proof.
  revert argc. induction ts as [ts IH] using (induction_ltof1 _ (@length token)). unfold ltof in IH. intros argc.
  destruct ts as [|[w|c] ts]; cbn [t_items t_redirs]; [done| |].
  - split; [|done]. case_bool_decide; [done|]. destruct (IH ts ltac:(simpl; lia) (S argc)). by destruct (t_items (S argc) ts).
  - destruct (redir_op c) as [[m f]|] eqn:Eop; [|by destruct (in_set _ c)]. rewrite (redir_not_stop _ _ _ Eop).
    destruct ts as [|[w|?] ts]; [done| |done]. destruct (IH ts ltac:(simpl; lia) argc). by destruct (t_items argc ts), (t_redirs ts).
Qed.

Abbreviation amp := (TSym "&").
Definition not_amp (ts : list token) : Prop := match ts with TSym c :: _ => c ≠ "&"%char | _ => True end.

Lemma t_back_sound t ts : ∃ k rest, t_back t ts = Parsed (Nat.iter k SBack t) rest ∧ ts = replicate k amp ++ rest ∧ not_amp rest.
Proof.
  revert t; induction ts as [|[w|c] ts IH]; intros t; cbn [t_back]; [by exists 0%nat, []|by exists 0%nat, (TWord w :: ts)|].
  destruct (c =c "&") eqn:E; [|apply ceq_false in E; by exists 0%nat, (TSym c :: ts)]. apply ceq_true in E as ->.
  destruct (IH (SBack t)) as (k & rest & -> & -> & Hn). exists (S k), rest. split_and!; [|done|done]. f_equal. by rewrite Nat.iter_succ_r.
Qed.
Lemma t_back_complete k t rest : not_amp rest → t_back t (replicate k amp ++ rest) = Parsed (Nat.iter k SBack t) rest.
Proof.
  intros Hn. revert t; induction k as [|k IH]; intros t; cbn [replicate app].
  - destruct rest as [|[w|c] rest]; [done|done|]. cbn [t_back]. by rewrite (proj2 (ceq_false _ _) Hn).
  - cbn [t_back]. change ("&" =c "&") with true. cbn iota. rewrite IH. by rewrite Nat.iter_succ_r.
Qed.

(** ** Soundness *)

Lemma tbind_Parsed {A B} (m : tok_parser A) (f : A → tok_parser B) ts b rest :
  (m ≫= f) ts = Parsed b rest → ∃ a ts', m ts = Parsed a ts' ∧ f a ts' = Parsed b rest.
Proof. unfold mbind, parser_bind. destruct (m ts) as [a ts'| |]; [by eauto|done..]. Qed.
Lemma tbind_eq {A B} (m : tok_parser A) (f : A → tok_parser B) ts a ts' : m ts = Parsed a ts' → (m ≫= f) ts = f a ts'.
Proof. unfold mbind, parser_bind. by intros ->. Qed.

Lemma tpeek_bind {B} set (f : bool → tok_parser B) ts : (t_peek set ≫= f) ts = f (head_in set ts) ts.
Proof. done. Qed.
Lemma tget_bind {B} t (f : option token → tok_parser B) ts : (t_get ≫= f) (t :: ts) = f (Some t) ts.
Proof. done. Qed.

(** The only symbol that starts with a character other than [>] is that character. *)
Lemma head_in_one x ts : (x =c ">") = false → head_in [x] ts = true → ∃ ts', ts = TSym x :: ts'.
Proof.
  destruct ts as [|[w|c] ts]; [done|done|]. unfold head_in, first_char, in_set. cbn [existsb]. rewrite orb_false_r.
  destruct (c =c "+"); intros Hx H; [by rewrite Ascii.eqb_sym, Hx in H|]. apply ceq_true in H as ->. by exists ts.
Qed.
Lemma parsers_sound fuel :
  (∀ ts t rest, t_line fuel ts = Parsed t rest → ∃ ts1, ts = ts1 ++ rest ∧ g_line ts1 t) ∧
  (∀ ts t rest, t_pipe fuel ts = Parsed t rest → ∃ ts1, ts = ts1 ++ rest ∧ g_pipe ts1 t) ∧
  (∀ ts t rest, t_exec fuel ts = Parsed t rest → ∃ ts1, ts = ts1 ++ rest ∧ g_exec ts1 t) ∧
  (∀ ts t rest, t_block fuel ts = Parsed t rest → ∃ ts1, ts = ts1 ++ rest ∧ g_exec ts1 t).
Proof.
  induction fuel as [|fuel (IHl & IHp & IHe & IHb)]; [done|].
  split_and!; intros ts t rest H; cbn [t_line t_pipe t_exec t_block] in H.
  - apply tbind_Parsed in H as (t1 & r1 & (ts1 & -> & Hg1)%IHp & H).
    destruct (t_back_sound t1 r1) as (k & r2 & E & -> & _). rewrite (tbind_eq _ _ _ _ _ E) in H.
    rewrite ?tpeek_bind, ?tget_bind in H. destruct (head_in (lit ";") r2) eqn:Eh.
    + apply head_in_one in Eh as [r3 ->]; [|done]. rewrite ?tpeek_bind, ?tget_bind in H.
      apply tbind_Parsed in H as (t2 & r4 & (ts2 & -> & Hg2)%IHl & [= <- <-]).
      exists (ts1 ++ replicate k amp ++ TSym ";" :: ts2). split; [by rewrite <-!app_assoc|by constructor].
    + injection H as <- <-. exists (ts1 ++ replicate k amp). split; [by rewrite <-app_assoc|by constructor].
  - apply tbind_Parsed in H as (t1 & r1 & (ts1 & -> & Hg1)%IHe & H). rewrite ?tpeek_bind, ?tget_bind in H.
    destruct (head_in (lit "|") r1) eqn:Eh; [|injection H as <- <-; exists ts1; split; [done|by constructor]].
    apply head_in_one in Eh as [r3 ->]; [|done]. rewrite ?tpeek_bind, ?tget_bind in H.
    apply tbind_Parsed in H as (t2 & r4 & (ts2 & -> & Hg2)%IHp & [= <- <-]).
    exists (ts1 ++ TSym "|" :: ts2). split; [by rewrite <-app_assoc|by constructor].
  - rewrite ?tpeek_bind, ?tget_bind in H. destruct (head_in (lit "(") ts); [by apply IHb|].
    apply tbind_Parsed in H as (r & r1 & (ts1 & -> & Hg & Hst & Hl)%t_items_sound & [= <- <-]). exists ts1. split; [done|].
    constructor; [done|]. destruct Hl as [->|Hl]; [unfold MAXARGS; simpl; lia|lia].
  - rewrite ?tpeek_bind, ?tget_bind in H. destruct (head_in (lit "(") ts) eqn:Eh; [|done]. cbn [negb] in H.
    apply head_in_one in Eh as [r0 ->]; [|done]. rewrite ?tpeek_bind, ?tget_bind in H.
    apply tbind_Parsed in H as (t1 & r1 & (ts1 & -> & Hg1)%IHl & H). rewrite ?tpeek_bind, ?tget_bind in H.
    destruct (head_in (lit ")") r1) eqn:Eh; [|done]. cbn [negb] in H. apply head_in_one in Eh as [r2 ->]; [|done].
    rewrite ?tpeek_bind, ?tget_bind in H. apply tbind_Parsed in H as (rs & r3 & (ts2 & -> & Hg2)%t_redirs_sound & [= <- <-]).
    exists (TSym "(" :: ts1 ++ TSym ")" :: ts2). split; [cbn [app]; by rewrite <-app_assoc|by constructor].
Qed.

(** ** Completeness *)

(** What may follow a line and a pipeline. *)
Definition line_end (ts : list token) : Prop := match ts with [] => True | t :: _ => t = TSym ")" end.
Definition pipe_end (ts : list token) : Prop :=
  match ts with [] => True | t :: _ => t = TSym ")" ∨ t = TSym "&" ∨ t = TSym ";" end.

Lemma pipe_end_amps k ts : line_end ts ∨ (∃ ts', ts = TSym ";" :: ts') → pipe_end (replicate k amp ++ ts) ∧ not_amp ts.
Proof.
  intros H. split.
  - destruct k; [|by right; left]. destruct H as [H|[ts' ->]]; [destruct ts; [done|by left]|by right; right].
  - destruct H as [H|[ts' ->]]; [|done]. destruct ts as [|t ts]; [done|]. cbn in H. by subst t.
Qed.
Lemma pipe_end_stop ts : pipe_end ts → stop ts ∧ head_in (lit "|") ts = false.
Proof. destruct ts as [|t ts]; [done|]. by intros [->|[->| ->]]. Qed.
Lemma stop_no_redir ts : stop ts → head_in (lit "<>") ts = false.
Proof.
  destruct ts as [|[w|c] ts]; [done|done|]. intros H. cbn [stop] in H.
  change (in_set (lit "|)&;") c) with ((c =c "|") || ((c =c ")") || ((c =c "&") || ((c =c ";") || false)))) in H.
  destruct (c =c "|") eqn:E1; [by apply ceq_true in E1 as ->|]. destruct (c =c ")") eqn:E2; [by apply ceq_true in E2 as ->|].
  destruct (c =c "&") eqn:E3; [by apply ceq_true in E3 as ->|]. destruct (c =c ";") eqn:E4; [by apply ceq_true in E4 as ->|done].
Qed.

(** A command that is not a block does not start with a parenthesis. *)
Lemma items_no_paren ts ws rs rest : g_items ts ws rs → stop rest → head_in (lit "(") (ts ++ rest) = false.
Proof.
  intros Hg Hst. destruct Hg as [|w ts ws rs Hg|c w m f ts ws rs Hop Hg]; cbn [app].
  - destruct rest as [|[w|c] rest]; [done|done|]. destruct (head_in (lit "(") (TSym c :: rest)) eqn:E; [|done].
    apply head_in_one in E as [? [= -> ->]]; done.
  - done.
  - destruct (head_in (lit "(") _) eqn:E; [|done]. apply head_in_one in E as [? [= -> _]]; done.
Qed.

Lemma parsers_complete :
  (∀ ts t, g_line ts t → ∀ fuel rest, line_end rest → (4 * length ts + 4 ≤ fuel)%nat → t_line fuel (ts ++ rest) = Parsed t rest) ∧
  (∀ ts t, g_pipe ts t → ∀ fuel rest, pipe_end rest → (4 * length ts + 3 ≤ fuel)%nat → t_pipe fuel (ts ++ rest) = Parsed t rest) ∧
  (∀ ts t, g_exec ts t → ∀ fuel rest, stop rest → (4 * length ts + 2 ≤ fuel)%nat → t_exec fuel (ts ++ rest) = Parsed t rest).
Proof.
  apply grammar_ind.
  - intros ts k t Hg IH [|fuel] rest Hr Hf; [lia|]. cbn [t_line]. rewrite length_app in Hf.
    destruct (pipe_end_amps k rest) as [Hp Hn]; [by left|].
    rewrite <-app_assoc, (tbind_eq _ _ _ _ _ (IH fuel _ Hp ltac:(lia))), (tbind_eq _ _ _ _ _ (t_back_complete k t rest Hn)), tpeek_bind.
    by destruct rest as [|t' rest]; [|cbn in Hr; subst t'].
  - intros ts k t ts2 t2 Hg IH Hg2 IH2 [|fuel] rest Hr Hf; [lia|]. cbn [t_line]. rewrite !length_app in Hf. cbn [length] in Hf.
    destruct (pipe_end_amps k (TSym ";" :: ts2 ++ rest)) as [Hp Hn]; [by right; eauto|].
    rewrite <-!app_assoc. cbn [app].
    rewrite (tbind_eq _ _ _ _ _ (IH fuel _ Hp ltac:(lia))), (tbind_eq _ _ _ _ _ (t_back_complete k t _ Hn)), tpeek_bind.
    change (head_in (lit ";") (TSym ";" :: ts2 ++ rest)) with true. cbn iota. rewrite tget_bind. by rewrite (tbind_eq _ _ _ _ _ (IH2 fuel rest Hr ltac:(lia))).
  - intros ts t Hg IH [|fuel] rest Hr Hf; [lia|]. cbn [t_pipe]. destruct (pipe_end_stop _ Hr) as [Hst Hb].
    by rewrite (tbind_eq _ _ _ _ _ (IH fuel rest Hst ltac:(lia))), tpeek_bind, Hb.
  - intros ts t ts2 t2 Hg IH Hg2 IH2 [|fuel] rest Hr Hf; [lia|]. cbn [t_pipe]. rewrite length_app in Hf. cbn [length] in Hf.
    rewrite <-app_assoc. cbn [app]. rewrite (tbind_eq _ _ _ _ _ (IH fuel (TSym "|" :: ts2 ++ rest) eq_refl ltac:(lia))), tpeek_bind.
    change (head_in (lit "|") (TSym "|" :: ts2 ++ rest)) with true. cbn iota. rewrite tget_bind. by rewrite (tbind_eq _ _ _ _ _ (IH2 fuel rest Hr ltac:(lia))).
  - intros ts ws rs Hg Hl [|fuel] rest Hr Hf; [lia|]. cbn [t_exec]. rewrite tpeek_bind, (items_no_paren _ _ _ _ Hg Hr).
    by rewrite (tbind_eq _ _ _ _ _ (t_items_complete _ _ _ 0 rest Hg Hr ltac:(lia))).
  - intros ts t ts2 rs Hg IH Hg2 [|[|fuel]] rest Hr Hf; [lia|simpl in Hf; lia|]. cbn [t_exec t_block].
    cbn [length app] in *. rewrite length_app in Hf. cbn [length] in Hf.
    rewrite tpeek_bind. change (head_in (lit "(") (TSym "(" :: (ts ++ TSym ")" :: ts2) ++ rest)) with true. cbn iota.
    rewrite tpeek_bind. change (negb (head_in (lit "(") (TSym "(" :: (ts ++ TSym ")" :: ts2) ++ rest))) with false. cbn iota.
    rewrite tget_bind, <-app_assoc. cbn [app].
    rewrite (tbind_eq _ _ _ _ _ (IH fuel (TSym ")" :: ts2 ++ rest) eq_refl ltac:(lia))), tpeek_bind.
    change (negb (head_in (lit ")") (TSym ")" :: ts2 ++ rest))) with false. cbn iota. rewrite tget_bind.
    by rewrite (tbind_eq _ _ _ _ _ (t_redirs_complete _ _ rest Hg2 (stop_no_redir _ Hr))).
Qed.

(** ** Termination *)

Lemma tbind_returns {A B} (m : tok_parser A) (f : A → tok_parser B) ts :
  m ts ≠ OutOfFuel → (∀ a ts', m ts = Parsed a ts' → f a ts' ≠ OutOfFuel) → (m ≫= f) ts ≠ OutOfFuel.
Proof. unfold mbind, parser_bind. destruct (m ts); auto. Qed.

Lemma parsers_return fuel :
  (∀ ts, (4 * length ts + 4 ≤ fuel)%nat → t_line fuel ts ≠ OutOfFuel) ∧
  (∀ ts, (4 * length ts + 3 ≤ fuel)%nat → t_pipe fuel ts ≠ OutOfFuel) ∧
  (∀ ts, (4 * length ts + 2 ≤ fuel)%nat → t_exec fuel ts ≠ OutOfFuel) ∧
  (∀ ts, (4 * length ts + 1 ≤ fuel)%nat → t_block fuel ts ≠ OutOfFuel).
Proof.
  induction fuel as [|fuel (IHl & IHp & IHe & IHb)]; [split_and!; lia|]. destruct (parsers_sound fuel) as (Sl & Sp & Se & _).
  split_and!; intros ts Hf; cbn [t_line t_pipe t_exec t_block].
  - apply tbind_returns; [apply IHp; lia|]. intros t r (ts1 & -> & _)%Sp. rewrite length_app in Hf.
    destruct (t_back_sound t r) as (k & r2 & E & -> & _). rewrite (tbind_eq _ _ _ _ _ E), tpeek_bind. rewrite length_app in Hf.
    destruct (head_in (lit ";") r2) eqn:Eh; [|done]. apply head_in_one in Eh as [r3 ->]; [|done]. rewrite tget_bind. cbn [length] in Hf.
    apply tbind_returns; [apply IHl; lia|done].
  - apply tbind_returns; [apply IHe; lia|]. intros t r (ts1 & -> & _)%Se. rewrite length_app in Hf. rewrite tpeek_bind.
    destruct (head_in (lit "|") r) eqn:Eh; [|done]. apply head_in_one in Eh as [r3 ->]; [|done]. rewrite tget_bind. cbn [length] in Hf.
    apply tbind_returns; [apply IHp; lia|done].
  - rewrite tpeek_bind. destruct (head_in (lit "(") ts); [apply IHb; lia|]. apply tbind_returns; [apply loops_return|done].
  - rewrite tpeek_bind. destruct (head_in (lit "(") ts) eqn:Eh; [|done]. cbn [negb]. apply head_in_one in Eh as [r3 ->]; [|done].
    rewrite tget_bind. cbn [length] in Hf. apply tbind_returns; [apply IHl; lia|]. intros t r _. rewrite tpeek_bind.
    destruct (head_in (lit ")") r) eqn:Eh; [|done]. cbn [negb]. apply head_in_one in Eh as [r4 ->]; [|done]. rewrite tget_bind.
    apply tbind_returns; [apply (loops_return 0)|done].
Qed.

(** ** The words in the buffer *)

Lemma nulterminate_spans c mem : nulterminate c mem = foldl store_nul mem (w_eq <$> spans c).
Proof.
  revert mem; induction c as [argv|c IH r|l IHl r IHr|l IHl r IHr|c IH]; intros mem; cbn [nulterminate spans]; [|by rewrite ?fmap_app, ?foldl_app, ?IHl, ?IHr, ?IH..].
  revert mem; induction argv as [|w argv IH]; intros mem; [done|]. apply IH.
Qed.

Lemma store_nuls_lookup ps mem i :
  (i < length mem)%nat → foldl store_nul mem ps !! i = if decide (i ∈ ps) then Some c_nul else mem !! i.
Proof.
  revert mem; induction ps as [|j ps IH]; intros mem Hi; cbn [foldl]; [done|].
  unfold store_nul at 2. rewrite IH by by rewrite length_insert.
  destruct (decide (i ∈ ps)) as [Hin|Hin]; [by rewrite decide_True by by right|].
  destruct (decide (i = j)) as [->|Hij].
  - by rewrite decide_True, list_lookup_insert_eq by (done || by left).
  - rewrite list_lookup_insert_ne, decide_False; [done| |done]. by intros [?|?]%elem_of_cons.
Qed.
Lemma store_nuls_length ps mem : length (foldl store_nul mem ps) = length mem.
Proof. revert mem; induction ps as [|j ps IH]; intros mem; [done|]. cbn [foldl]. rewrite IH. apply length_insert. Qed.

Lemma words_ext f g c : (∀ w, w ∈ spans c → f w = g w) → words f c = words g c.
Proof.
  induction c as [argv|c IH r|l IHl r IHr|l IHl r IHr|c IH]; cbn [spans words]; intros H.
  - f_equal. apply list_fmap_ext. intros i w Hw. apply H. by eapply list_elem_of_lookup_2.
  - rewrite IH by (intros; apply H; set_solver). unfold redir_words. rewrite (H (file r)); [done|set_solver].
  - by rewrite IHl, IHr by (intros; apply H; set_solver).
  - by rewrite IHl, IHr by (intros; apply H; set_solver).
  - by rewrite IH.
Qed.

Section buffer.
Context (line : list ascii) (Hnul : no_nul line).

Lemma text_lookup w i c : text line w !! i = Some c → line !! (w_q w + i)%nat = Some c ∧ (w_q w + i < w_eq w)%nat.
Proof. unfold text. intros [Hl Hi]%lookup_take_Some. rewrite lookup_drop in Hl. split; [done|lia]. Qed.

(** A NUL is stored at the end of words, never in one. *)
Lemma words_untouched ws w i :
  Forall (good line) ws → good line w → (w_q w ≤ i < w_eq w)%nat → i ∉ w_eq <$> ws.
Proof.
  intros Hws (Hr & Hw & _) Hi (w' & -> & Hw')%list_elem_of_fmap. rewrite Forall_forall in Hws. destruct (Hws _ Hw') as (_ & _ & He).
  destruct (lookup_lt_is_Some_2 line (w_eq w')) as [c Hc]; [lia|]. specialize (He c Hc).
  rewrite Forall_lookup in Hw. rewrite (Hw (w_eq w' - w_q w)%nat c) in He; [done|].
  unfold text. rewrite lookup_take_lt, lookup_drop by lia. by replace (w_q w + (w_eq w' - w_q w))%nat with (w_eq w') by lia.
Qed.

Lemma word_at_text ws w :
  Forall (good line) ws → w ∈ ws → word_at (foldl store_nul (line ++ [c_nul]) (w_eq <$> ws)) w = text line w.
Proof.
  intros Hws Hw. pose proof Hws as Hws'. rewrite Forall_forall in Hws'. pose proof (Hws' w Hw) as Hg. destruct Hg as (Hr & Hwc & _).
  set (mem := foldl _ _ _). assert (∃ r, drop (w_q w) mem = text line w ++ c_nul :: r) as [r Er].
  { exists (drop (S (w_eq w)) mem). assert (length (text line w) = w_eq w - w_q w)%nat as Hl.
    { unfold text. rewrite length_take, length_drop. lia. }
    assert (length mem = S (length line)) as Hlm by (unfold mem; rewrite store_nuls_length, length_app; simpl; lia).
    apply list_eq. intros i. rewrite lookup_drop. destruct (decide (i < w_eq w - w_q w)%nat) as [Hi|Hi].
    - rewrite lookup_app_l by lia. unfold mem. rewrite store_nuls_lookup by (rewrite length_app; simpl; lia).
      rewrite decide_False by (apply (words_untouched ws w); [done|by apply Hws'|lia]). rewrite lookup_app_l by lia.
      unfold text. by rewrite lookup_take_lt, lookup_drop by lia.
    - rewrite lookup_app_r, Hl by lia. destruct (i - (w_eq w - w_q w))%nat as [|j] eqn:Ej; rewrite lookup_cons.
      + unfold mem. rewrite store_nuls_lookup by (rewrite length_app; simpl; lia). rewrite decide_True; [done|].
        apply list_elem_of_fmap. exists w. split; [lia|done].
      + rewrite lookup_drop. f_equal. lia. }
  unfold word_at. rewrite Er. assert (no_nul (text line w)) as Hn.
  { unfold text, no_nul. by apply Forall_take, Forall_drop. }
  clear Er. revert Hn. generalize (text line w). induction 1 as [|c l Hc _ IH]; [done|]. cbn [app cstring].
  by rewrite (proj2 (ceq_false _ _) Hc), IH.
Qed.

(** What [parsecmd] does, in terms of the parser on tokens. *)
Lemma parsecmd_tokens :
  match t_line (4 * length line + 4) (tokens line) with
  | Parsed t [] => ∃ c, parsecmd line = Parsed (c, nulterminate c (line ++ [c_nul])) [] ∧ words (text line) c = t ∧
                     Forall (good line) (spans c)
  | Parsed t _ => ∃ msg, parsecmd line = Panicked msg
  | Panicked _ => ∃ msg, parsecmd line = Panicked msg
  | OutOfFuel => parsecmd line = OutOfFuel
  end.
Proof.
  destruct (parsers_sim line (4 * length line + 4)) as (Hs & _). specialize (Hs line ltac:(reflexivity)). unfold parsecmd. cbv zeta.
  destruct (t_line _ _) as [t ts|e|]; cbn [simr] in Hs.
  - destruct Hs as (c & s & E & [Hw Hg] & Ht & Hsf). rewrite (pbind_eq _ _ _ _ _ E).
    unfold mbind, parser_bind, peek, leftovers. pose proof (token_at_spec _ (skip_head s)) as Hk. rewrite tokens_skip, Ht in Hk.
    destruct ts as [|t1 ts]; [destruct Hk as [-> _]; by exists c|]. destruct Hk as (s' & _ & _ & Hk).
    destruct (drop_while is_ws s); [|by eexists]. exfalso. destruct t1 as [w|ch].
    + destruct Hk as (Hk & Hne & _). destruct w; [done|discriminate].
    + destruct Hk as (_ & x & Hk). discriminate.
  - destruct Hs as [msg E]. unfold mbind, parser_bind. rewrite E. by eexists.
  - unfold mbind, parser_bind. by rewrite Hs.
Qed.
End buffer.

(** A line of the language is parsed to the command of its derivation. *)
Lemma parsecmd_complete line t :
  no_nul line → g_line (tokens line) t → ∃ c mem, parsecmd line = Parsed (c, mem) [] ∧ words (word_at mem) c = t.
Proof.
  intros Hnul Hg. pose proof (parsecmd_tokens line) as Hp. pose proof (tokens_length line) as Hlen.
  assert (t_line (4 * length line + 4) (tokens line) = Parsed t []) as E.
  { rewrite <-(app_nil_r (tokens line)). apply (proj1 parsers_complete _ _ Hg); [done|lia]. }
  rewrite E in Hp. destruct Hp as (c & Ep & Hw & Hgood). eexists c, _. split; [exact Ep|]. rewrite <-Hw.
  apply words_ext. intros w Hin. rewrite nulterminate_spans. by apply word_at_text.
Qed.

(** A command that is parsed is that of a derivation. *)
Lemma parsecmd_sound line c mem :
  no_nul line → parsecmd line = Parsed (c, mem) [] → g_line (tokens line) (words (word_at mem) c) ∧ Forall (good line) (spans c).
Proof.
  intros Hnul E. pose proof (parsecmd_tokens line) as Hp. rewrite E in Hp.
  destruct (t_line _ _) as [t [|t1 ts]| |] eqn:Et; [|by destruct Hp..|done].
  destruct Hp as (c' & [= <- ->] & Hw & Hg). split; [|done].
  destruct (proj1 (parsers_sound _) _ _ _ Et) as (ts1 & -> & Hgl). rewrite app_nil_r, <-Hw in *.
  erewrite words_ext; [exact Hgl|]. intros w Hin. rewrite nulterminate_spans. by apply word_at_text.
Qed.

(** C12: the shell parses the command language. A line that the grammar derives
    is parsed, to the command whose words, as the strings that are in the
    buffer when it runs, are those of the derivation; so a line has one
    derivation. Any other line is reported as an error, and the NULs are stored
    within the buffer. *)
Theorem parsecmd_grammar line :
  no_nul line →
  (∀ t, g_line (tokens line) t ↔ ∃ c mem, parsecmd line = Parsed (c, mem) [] ∧ words (word_at mem) c = t) ∧
  ((∀ t, ¬ g_line (tokens line) t) → ∃ msg, parsecmd line = Panicked msg) ∧
  (∀ c mem, parsecmd line = Parsed (c, mem) [] → Forall (λ w, w_eq w ≤ length line)%nat (spans c)).
Proof.
  intros Hnul. split_and!.
  - intros t. split; [by apply parsecmd_complete|]. intros (c & mem & E & <-). by apply parsecmd_sound.
  - intros Hno. pose proof (parsecmd_tokens line) as Hp. pose proof (tokens_length line) as Hlen.
    pose proof (proj1 (parsers_return (4 * length line + 4)) (tokens line) ltac:(lia)) as Hret.
    destruct (t_line _ _) as [t [|t1 ts]| |] eqn:Et; [|done..].
    destruct Hp as (c & E & _). destruct (parsecmd_sound _ _ _ Hnul E) as [Hg _]. by destruct (Hno _ Hg).
  - intros c mem E. destruct (parsecmd_sound _ _ _ Hnul E) as [_ Hg]. eapply Forall_impl; [exact Hg|]. intros w (? & _). lia.
Qed.

(** ** Witness *)

Definition demo_line : list ascii := lit "(ls -l; cat<in) | wc >>out &".
Lemma demo_line_tree :
  g_line (tokens demo_line)
    (SBack (SPipe (SList (SExec [lit "ls"; lit "-l"]) (SRed (SExec [lit "cat"]) (SRedir (lit "in") 0 0)))
                  (SRed (SExec [lit "wc"]) (SRedir (lit "out") 0x201 1)))).
Proof. by apply (parsecmd_sound demo_line _ _ ltac:(by apply (bool_decide_unpack _)) eq_refl). Qed.

Lemma parsecmd_grammar_witness :
  ∃ c mem, parsecmd demo_line = Parsed (c, mem) [] ∧ words (word_at mem) c =
    SBack (SPipe (SList (SExec [lit "ls"; lit "-l"]) (SRed (SExec [lit "cat"]) (SRedir (lit "in") 0 0)))
                 (SRed (SExec [lit "wc"]) (SRedir (lit "out") 0x201 1))).
Proof.
  apply (parsecmd_grammar demo_line); [by apply (bool_decide_unpack _)|exact demo_line_tree].
Defined.
