(* ===== verification/ShRun.v ===== *)
(** How the xv6 shell runs commands: [runcmd], [getcmd] and [main] of
    [xv6/user/sh.c], and [gets] of [ulib.c].

    What a process does is a tree: its system calls that other processes see,
    with the processes that it forks and the descriptors it has while it
    waits. Its descriptors are a table, in which
    [open], [dup] and [pipe] take the lowest free places. Whether a call can
    succeed otherwise is up to the system, for the process and its place in the
    command. *)
From S2P Require Import Prelude Sh ShGrammar ShSim ShParse.

(** ** Descriptors *)

Inductive obj :=
| OInit (k : nat)
| OFile (name : list ascii) (mode : Z)
| OPipeR (id : list nat)
| OPipeW (id : list nat).

Definition NOFILE : nat := 16.
Abbreviation fdtable := (list (option obj)).
Definition close (fd : nat) (t : fdtable) : fdtable := <[fd := None]> t.
Fixpoint lowest (t : fdtable) : option nat :=
  match t with [] => None | None :: _ => Some O | Some _ :: t => S <$> lowest t end.
Definition fd_alloc (o : obj) (t : fdtable) : option (nat * fdtable) :=
  i ← lowest t; Some (i, <[i := Some o]> t).
Definition dup (fd : nat) (t : fdtable) : fdtable :=
  match t !! fd with
  | Some (Some o) => match fd_alloc o t with Some (_, t') => t' | None => t end
  | _ => t
  end.

(** What a process does; [RLoop] is the shell that goes on with its next line. *)
Inductive run :=
| RExec (argv : list (list ascii)) (fds : fdtable)
| RExit (status : Z)
| RMsg (msg : list ascii) (r : run)
| RFork (child : run) (r : run)
| RWait (fds : fdtable) (r : run)
| RLoop.

Section run.
Context (exec_ok : list (list ascii) → bool) (open_ok : list ascii → Z → bool)
  (fork_ok : list nat → bool) (pipe_ok : list nat → bool).

Definition panic (s : list ascii) : run := RMsg (s ++ [c_nl]) (RExit 1).
Definition fork1 (id : list nat) (child r : run) : run := if fork_ok id then RFork child r else panic (lit "fork").
Definition open (name : list ascii) (mode : Z) (t : fdtable) : option fdtable :=
  if open_ok name mode then snd <$> fd_alloc (OFile name mode) t else None.
Definition pipe (id : list nat) (t : fdtable) : option (nat * nat * fdtable) :=
  if pipe_ok id then
    p0 ← fd_alloc (OPipeR id) t;
    p1 ← fd_alloc (OPipeW id) p0.2;
    Some (p0.1, p1.1, p1.2)
  else None.

Section runcmd.
Context (word : span → list ascii).

(** [runcmd]; [id] is the place of the command in the line. *)
Fixpoint runcmd (id : list nat) (t : fdtable) (c : cmd) : run :=
  match c with
  | EXEC argv =>
    match argv with
    | [] => RExit 1
    | w :: _ =>
      if exec_ok (word <$> argv) then RExec (word <$> argv) t
      else RMsg (lit "exec " ++ word w ++ lit " failed" ++ [c_nl]) (RExit 0)
    end
  | REDIR c r =>
    match open (word (file r)) (mode r) (close (fd r) t) with
    | None => RMsg (lit "open " ++ word (file r) ++ lit " failed" ++ [c_nl]) (RExit 1)
    | Some t => runcmd (0%nat :: id) t c
    end
  | LIST lc rc =>
    fork1 (0%nat :: id) (runcmd (1%nat :: id) t lc)
      (RWait t (runcmd (2%nat :: id) t rc))
  | PIPE lc rc =>
    match pipe id t with
    | None => panic (lit "pipe")
    | Some (p0, p1, t) =>
      fork1 (0%nat :: id)
        (runcmd (1%nat :: id) (close p1 (close p0 (dup p1 (close 1 t)))) lc)
        (fork1 (3%nat :: id)
          (runcmd (2%nat :: id) (close p1 (close p0 (dup p0 (close 0 t)))) rc)
          (let t := close p1 (close p0 t) in RWait t (RWait t (RExit 0))))
    end
  | BACK c => fork1 (0%nat :: id) (runcmd (1%nat :: id) t c) (RExit 0)
  end.
End runcmd.

(** ** The main loop *)

(** [gets(buf, max)]: the characters stored before the NUL, and the input
    after them. *)
Fixpoint gets_loop (room : nat) (input : list ascii) : list ascii * list ascii :=
  match room, input with
  | S room, c :: rest =>
    if (c =c c_nl) || (c =c c_cr) then ([c], rest)
    else let '(buf, rest) := gets_loop room rest in (c :: buf, rest)
  | _, _ => ([], input)
  end.
Definition gets (max : nat) (input : list ascii) : list ascii * list ascii := gets_loop (max - 1) input.
Definition BUFSIZE : nat := 100.
Definition getcmd (input : list ascii) : option (list ascii * list ascii) :=
  let '(buf, rest) := gets BUFSIZE input in
  match cstring buf with [] => None | line => Some (line, rest) end.

(** What the shell does with a line: [chdir] (with a message if it fails), or
    a process of its own. *)
Inductive action := ACd (dir : list ascii) | ARun (r : run).
Definition is_blank (c : ascii) : bool := (c =c c_sp) || (c =c c_tab).

(** The child: [runcmd(parsecmd(cmd))]. *)
Definition child (t : fdtable) (line : list ascii) : run :=
  match parsecmd line with
  | Parsed (c, mem) _ => runcmd (word_at mem) [] t c
  | Panicked msg => panic msg
  | OutOfFuel => RExit 0
  end.

Fixpoint main_loop (fuel : nat) (t : fdtable) (input : list ascii) : list action :=
  match fuel with
  | O => []
  | S fuel =>
    match getcmd input with
    | None => []
    | Some (buf, rest) =>
      let line := drop_while is_blank buf in
      if char_at line 0 =c c_nl then main_loop fuel t rest
      else if (char_at line 0 =c "c") && (char_at line 1 =c "d") && (char_at line 2 =c " ") then
        ACd (drop 3 (take (length line - 1) line)) :: main_loop fuel t rest
      else if fork_ok [] then ARun (RFork (child t line) (RWait t RLoop)) :: main_loop fuel t rest
      else [ARun (panic (lit "fork"))]
    end
  end.
Definition sh_main (t : fdtable) (input : list ascii) : list action := main_loop (S (length input)) t input.

(** ** What a command means *)

(** The descriptors of a process with standard input, output and error only. *)
Definition fds3 (i o e : obj) : fdtable := Some i :: Some o :: Some e :: replicate (NOFILE - 3) None.

Fixpoint meaning (id : list nat) (i o e : obj) (t : tree) : run :=
  match t with
  | SExec [] => RExit 1
  | SExec (w :: ws) =>
    if exec_ok (w :: ws) then RExec (w :: ws) (fds3 i o e)
    else RMsg (lit "exec " ++ w ++ lit " failed" ++ [c_nl]) (RExit 0)
  | SRed t r =>
    if open_ok (r_file r) (r_mode r) then
      let f := OFile (r_file r) (r_mode r) in
      if bool_decide (r_fd r = 0%nat) then meaning (0%nat :: id) f o e t else meaning (0%nat :: id) i f e t
    else RMsg (lit "open " ++ r_file r ++ lit " failed" ++ [c_nl]) (RExit 1)
  | SList l r => fork1 (0%nat :: id) (meaning (1%nat :: id) i o e l) (RWait (fds3 i o e) (meaning (2%nat :: id) i o e r))
  | SPipe l r =>
    if pipe_ok id then
      fork1 (0%nat :: id) (meaning (1%nat :: id) i (OPipeW id) e l)
        (fork1 (3%nat :: id) (meaning (2%nat :: id) (OPipeR id) o e r)
          (RWait (fds3 i o e) (RWait (fds3 i o e) (RExit 0))))
    else panic (lit "pipe")
  | SBack t => fork1 (0%nat :: id) (meaning (1%nat :: id) i o e t) (RExit 0)
  end.

(** Redirections are of standard input and output. *)
Fixpoint std_redirs (t : tree) : Prop :=
  match t with
  | SExec _ => True
  | SRed t r => (r_fd r ≤ 1)%nat ∧ std_redirs t
  | SPipe l r | SList l r => std_redirs l ∧ std_redirs r
  | SBack t => std_redirs t
  end.

Lemma items_std ts ws rs : g_items ts ws rs → Forall (λ r, r_fd r ≤ 1)%nat rs.
Proof.
  induction 1 as [| |c w m f ts ws rs Hop _ IH]; [constructor|done|]. constructor; [|done]. cbn. unfold redir_op in Hop.
  destruct (c =c "<"), (c =c ">"), (c =c "+"); simplify_eq; lia.
Qed.
Lemma redirect_std t rs : std_redirs t → Forall (λ r, r_fd r ≤ 1)%nat rs → std_redirs (sredirect t rs).
Proof. intros Ht Hrs. revert t Ht. induction Hrs as [|r rs Hr _ IH]; intros t Ht; [done|]. by apply IH. Qed.
Lemma grammar_std :
  (∀ ts t, g_line ts t → std_redirs t) ∧ (∀ ts t, g_pipe ts t → std_redirs t) ∧ (∀ ts t, g_exec ts t → std_redirs t).
Proof.
  assert (∀ k t, std_redirs t → std_redirs (Nat.iter k SBack t)) as Hit by (intros k t; induction k; auto).
  apply grammar_ind; intros; cbn [std_redirs]; auto; by apply redirect_std; [|by eapply items_std].
Qed.

(** The descriptors of the processes of a command. *)
Lemma runcmd_meaning word c id i o e :
  std_redirs (words word c) → runcmd word id (fds3 i o e) c = meaning id i o e (words word c).
Proof.
  revert id i o e. induction c as [argv|c IH r|l IHl r IHr|l IHl r IHr|c IH]; intros id i o e; cbn [words runcmd std_redirs meaning].
  - destruct argv as [|w argv]; [done|]. by cbn [fmap list_fmap].
  - intros [Hfd Hc]. cbn [redir_words r_fd r_file r_mode] in *. unfold open.
    destruct (open_ok (word (file r)) (mode r)); [|done]. destruct (fd r) as [|[|k]]; [| |lia].
    + rewrite bool_decide_eq_true_2 by done. by apply IH.
    + rewrite bool_decide_eq_false_2 by done. by apply IH.
  - intros [Hl Hr]. unfold pipe. destruct (pipe_ok id); [|done]. rewrite <-IHl, <-IHr by done. reflexivity.
  - intros [Hl Hr]. by rewrite IHl, IHr.
  - intros Hc. by rewrite IH.
Qed.

(** Some process of [r] has [o] open while it waits or runs a program. *)
Fixpoint holds (o : obj) (r : run) : Prop :=
  match r with
  | RExec _ t => Some o ∈ t
  | RExit _ | RLoop => False
  | RMsg _ r => holds o r
  | RFork c r => holds o c ∨ holds o r
  | RWait t r => Some o ∈ t ∨ holds o r
  end.

Lemma fds3_elem x i o e : Some x ∈ fds3 i o e ↔ x = i ∨ x = o ∨ x = e.
Proof.
  unfold fds3. rewrite !elem_of_cons. split; [|naive_solver].
  intros [?|[?|[?|[? _]%elem_of_replicate]]]; naive_solver.
Qed.
Lemma fork1_holds x id c r : holds x (fork1 id c r) → holds x c ∨ holds x r.
Proof. unfold fork1. by destruct (fork_ok id). Qed.

(** The ends of a pipe that the processes of a command have open are those
    they start with and those of the pipes of the command. *)
Lemma meaning_holds t k (b : bool) :
  let x := if b then OPipeW k else OPipeR k in
  ∀ id i o e, holds x (meaning id i o e t) → x = i ∨ x = o ∨ x = e ∨ id `suffix_of` k.
Proof.
  intros x. assert (∀ j id, (j :: id) `suffix_of` k → id `suffix_of` k) as Hsuf.
  { intros j id. apply suffix_cons_l. }
  assert (∀ f m, x ≠ OFile f m) as Hf by (intros; by destruct b).
  induction t as [ws|t IH r|l IHl r IHr|l IHl r IHr|t IH]; intros id i o e; cbn [meaning].
  - destruct ws as [|w ws]; [done|]. destruct (exec_ok _); [|done]. cbn [holds]. rewrite fds3_elem. naive_solver.
  - destruct (open_ok _ _); [|done]. case_bool_decide; intros Hx%IH; naive_solver.
  - destruct (pipe_ok id); [|done].
    assert (∀ y, y = OPipeR id ∨ y = OPipeW id → x = y → id `suffix_of` k) as Hid.
    { intros y [-> | ->] Ex; unfold x in Ex; destruct b; simplify_eq; done. }
    intros [Hx%IHl|[Hx%IHr|Hx]%fork1_holds]%fork1_holds; [naive_solver..|].
    cbn [holds] in Hx. rewrite !fds3_elem in Hx. naive_solver.
  - intros [Hx%IHl|Hx]%fork1_holds; [naive_solver|]. cbn [holds] in Hx. rewrite fds3_elem in Hx.
    destruct Hx as [Hx|Hx%IHr]; naive_solver.
  - intros [Hx%IH|Hx]%fork1_holds; naive_solver.
Qed.

(** Of a pipeline, only the left side has the write end of the pipe open, and
    only the right side its read end: the reader sees the end of the file when the
    left side is gone. *)
Lemma pipe_ends id i o e l r :
  (∀ x, x = i ∨ x = o ∨ x = e → x ≠ OPipeR id ∧ x ≠ OPipeW id) →
  ¬ holds (OPipeW id) (meaning (2%nat :: id) (OPipeR id) o e r) ∧
  ¬ holds (OPipeR id) (meaning (1%nat :: id) i (OPipeW id) e l).
Proof.
  intros Hx. assert (∀ j, ¬ (j :: id) `suffix_of` id) as Hns.
  { intros j Hs%suffix_length. cbn in Hs. lia. }
  split; intros Hh.
  - apply (meaning_holds r id true) in Hh as [?|[?|[?|?]]]; naive_solver.
  - apply (meaning_holds l id false) in Hh as [?|[?|[?|?]]]; naive_solver.
Qed.

(** C13: a line of the command language, run by a process that has standard
    input, output and error open, does what its derivation means: each program
    of a pipeline has the ends of the pipes it is between as input and output,
    or the files of its redirections, and no other descriptor; a process waits
    for what it has to, and the one that waits for a pipeline has closed both
    ends of the pipe before, so that the reader can see the end of the file.
    A line that is not of the language ends in an error
    message and status 1. (The calls [exec], [open], [fork] and [pipe] succeed
    or fail as given, and a place in the table is free for each descriptor.) *)
Theorem sh_runs_line line i o e :
  no_nul line →
  (∀ t, g_line (tokens line) t → child (fds3 i o e) line = meaning [] i o e t) ∧
  ((∀ t, ¬ g_line (tokens line) t) → ∃ msg, child (fds3 i o e) line = RMsg msg (RExit 1)).
Proof.
  intros Hnul. unfold child. split.
  - intros t Hg. destruct (parsecmd_complete line t Hnul Hg) as (c & mem & -> & <-). apply runcmd_meaning. by eapply (proj1 grammar_std).
  - intros Hno. destruct (parsecmd line) as [[c mem] rest|msg|] eqn:E.
    + assert (rest = []) as ->.
      { unfold parsecmd in E. unfold mbind, parser_bind, leftovers, peek in E. destruct (parseline _ _ _) as [c0 s0| |]; [|done..].
        by destruct (drop_while is_ws s0); simplify_eq. }
      destruct (parsecmd_sound line c mem Hnul E) as [Hg _]. by destruct (Hno _ Hg).
    + by eexists.
    + pose proof (parsecmd_tokens line) as Hp. pose proof (tokens_length line) as Hl.
      destruct (proj1 (parsers_return (4 * length line + 4)) (tokens line) ltac:(lia)).
      destruct (t_line _ _) as [t [|t1 ts]| |]; [by destruct Hp as (? & ? & _); congruence|by destruct Hp; congruence..|done].
Qed.

(** ** The lines of the input *)

(** What the shell does with a line, without its end. *)
Definition line_action (t : fdtable) (l : list ascii) : list action :=
  let l := drop_while is_blank l in
  match l with
  | [] => []
  | _ =>
    if bool_decide (lit "cd " `prefix_of` l) then [ACd (drop 3 l)]
    else [ARun (RFork (child t (l ++ [c_nl])) (RWait t RLoop))]
  end.

Definition plain (l : list ascii) : Prop := Forall (λ c, c ≠ c_nl ∧ c ≠ c_cr ∧ c ≠ c_nul) l.

Lemma gets_line max l rest : plain l → (length l + 2 ≤ max)%nat → gets max (l ++ c_nl :: rest) = (l ++ [c_nl], rest).
Proof.
  intros Hl Hm. unfold gets. assert (length l < max - 1)%nat as Hr by lia. revert Hr. generalize (max - 1)%nat. clear Hm.
  induction Hl as [|c l (H1 & H2 & _) Hl IH]; intros [|room] Hr; cbn [length] in Hr; [lia|done|lia|].
  cbn [app gets_loop]. rewrite (proj2 (ceq_false _ _) H1), (proj2 (ceq_false _ _) H2). cbn [orb]. by rewrite IH by lia.
Qed.

Lemma blank_nl l : plain l → drop_while is_blank (l ++ [c_nl]) = drop_while is_blank l ++ [c_nl].
Proof. induction 1 as [|c l _ _ IH]; [done|]. cbn [app drop_while]. by destruct (is_blank c). Qed.

Lemma cd_prefix l : plain l →
  (char_at (l ++ [c_nl]) 0 =c "c") && (char_at (l ++ [c_nl]) 1 =c "d") && (char_at (l ++ [c_nl]) 2 =c " ") =
  bool_decide (lit "cd " `prefix_of` l).
Proof.
  intros Hp. destruct (bool_decide (lit "cd " `prefix_of` l)) eqn:E.
  - apply bool_decide_eq_true in E as [k ->]. done.
  - apply bool_decide_eq_false in E. apply not_true_is_false. intros H. apply E. clear E.
    destruct l as [|c0 [|c1 [|c2 l]]]; cbn in H; rewrite ?andb_true_iff in H; destruct_and?; try done.
    repeat match goal with H : (_ =c _) = true |- _ => apply ceq_true in H as -> end. by exists l.
Qed.

Lemma main_loop_line fuel t l rest :
  fork_ok [] = true → plain l → (length l ≤ 98)%nat →
  main_loop (S fuel) t (l ++ c_nl :: rest) = line_action t l ++ main_loop fuel t rest.
Proof.
  intros Hok Hp Hl. cbn [main_loop]. rewrite Hok. unfold getcmd. rewrite gets_line by (done || unfold BUFSIZE; lia).
  rewrite cstring_no_nul by (apply Forall_app; split; [eapply Forall_impl; [exact Hp|]; naive_solver|by constructor]).
  destruct (l ++ [c_nl]) as [|c0 l0] eqn:E; [by destruct l|]. rewrite <-E, blank_nl by done. unfold line_action.
  assert (plain (drop_while is_blank l)) as Hp'.
  { unfold plain in *. rewrite <-(take_drop_while is_blank l) in Hp. by apply Forall_app in Hp as [_ ?]. }
  destruct (drop_while is_blank l) as [|c l'] eqn:Ed; [done|]. rewrite <-Ed in *.
  assert (char_at (drop_while is_blank l ++ [c_nl]) 0 =c c_nl = false) as ->.
  { rewrite Ed in *. inversion_clear Hp' as [|? ? (Hc & _) _]. by apply ceq_false. }
  rewrite cd_prefix by done. case_bool_decide as Hcd; [|done]. cbn [app]. do 2 f_equal.
  rewrite length_app, Nat.add_sub. by rewrite take_app_length.
Qed.

(** the shell takes its input a line at a time, when lines are at most 98
    characters long: a blank line does nothing, [cd] changes the directory of
    the shell itself, and any other line is run by a child, for which it waits,
    as long as it can fork. *)
Theorem sh_main_lines t ls :
  fork_ok [] = true → Forall (λ l, plain l ∧ (length l ≤ 98)%nat) ls →
  sh_main t (concat ((λ l, l ++ [c_nl]) <$> ls)) = concat (line_action t <$> ls).
Proof.
  intros Hok Hls. unfold sh_main. set (input := concat _).
  assert (length ls ≤ length input)%nat as Hlen.
  { unfold input. clear. induction ls as [|l ls IH]; [done|]. cbn [fmap list_fmap concat length]. rewrite !length_app. simpl. lia. }
  unfold input in *. clear input. revert Hlen. generalize (length (concat ((λ l, l ++ [c_nl]) <$> ls))). intros fuel.
  revert fuel. induction Hls as [|l ls [Hp Hl] _ IH]; intros fuel Hf; [done|]. cbn [fmap list_fmap concat length] in *.
  destruct fuel as [|fuel]; [lia|]. rewrite <-app_assoc. cbn [app]. rewrite main_loop_line by done. f_equal. by apply IH; lia.
Qed.

(** The last line is cut when it has no end: [cd ab] changes to [a]. *)
Lemma cd_at_eof_chops t : sh_main t (lit "cd ab") = [ACd (lit "a")].
Proof. by vm_compute. Qed.

(** A line of 99 characters is run as two. *)
Lemma long_line_splits : fork_ok [] = true → ∃ l1 l2, plain (l1 ++ l2) ∧ length (l1 ++ l2) = 100%nat ∧
  ∀ t, sh_main t (l1 ++ l2 ++ [c_nl]) =
    [ARun (RFork (child t l1) (RWait t RLoop)); ARun (RFork (child t (l2 ++ [c_nl])) (RWait t RLoop))].
Proof.
  intros Hok. exists (replicate 99 "x"%char), ["y"%char]. split_and!; [by apply (bool_decide_unpack _)|done|].
  intros t. set (a l := ARun (RFork (child t l) (RWait t RLoop))).
  trans (if fork_ok [] then a (replicate 99 "x"%char) :: (if fork_ok [] then [a ["y"%char; c_nl]] else [ARun (panic (lit "fork"))])
         else [ARun (panic (lit "fork"))]); [reflexivity|by rewrite Hok].
Qed.
End run.

(** ** Witnesses *)

Lemma sh_runs_line_witness :
  child (λ _, true) (λ _ _, true) (λ _, true) (λ _, true) (fds3 (OInit 0) (OInit 1) (OInit 2)) demo_line =
  RFork
    (RFork
      (RFork (RExec [lit "ls"; lit "-l"] (fds3 (OInit 0) (OPipeW [1%nat]) (OInit 2)))
        (RWait (fds3 (OInit 0) (OPipeW [1%nat]) (OInit 2))
          (RExec [lit "cat"] (fds3 (OFile (lit "in") 0) (OPipeW [1%nat]) (OInit 2)))))
      (RFork (RExec [lit "wc"] (fds3 (OPipeR [1%nat]) (OFile (lit "out") 0x201) (OInit 2)))
        (RWait (fds3 (OInit 0) (OInit 1) (OInit 2)) (RWait (fds3 (OInit 0) (OInit 1) (OInit 2)) (RExit 0)))))
    (RExit 0).
Proof.
  rewrite (proj1 (sh_runs_line (λ _, true) (λ _ _, true) (λ _, true) (λ _, true) demo_line (OInit 0) (OInit 1) (OInit 2)
    ltac:(by apply (bool_decide_unpack _))) _ demo_line_tree). by vm_compute.
Defined.

Lemma sh_main_lines_witness (T := fds3 (OInit 0) (OInit 1) (OInit 2)) :
  sh_main (λ _, true) (λ _ _, true) (λ _, true) (λ _, true) T (concat ((λ l, l ++ [c_nl]) <$> [lit " cd tmp"; []; lit "ls"])) =
  concat (line_action (λ _, true) (λ _ _, true) (λ _, true) (λ _, true) T <$> [lit " cd tmp"; []; lit "ls"]).
Proof.
  apply (sh_main_lines (λ _, true) (λ _ _, true) (λ _, true) (λ _, true) T [lit " cd tmp"; []; lit "ls"]).
  - reflexivity.
  - repeat constructor; by vm_compute.
Defined.
