(* ===== verification/Console.v ===== *)
(** The console of the kernel, [xv6/kernel/console.c]: editing of the line that
    is typed, and reading of lines.

    The input is a ring of 128 bytes with three counters of 32 bits, that only
    grow (but for editing) and wrap around: what was read, what may be read and
    what was typed. [consoleread] holds the lock but while it sleeps, so a pass
    is what it does until it sleeps or returns. The process table is known
    through [SleepChan]; whether a byte can be copied out, and whether the
    process was killed, are arguments. *)
From S2P Require Import Prelude Proc ProcSync.

Definition INPUT_BUF_SIZE : Z := 128.
Definition BACKSPACE : Z := 0x100.
(** Control characters. *)
Definition Ctl_D : Z := 4.
Definition Ctl_H : Z := 8.
Definition Ctl_P : Z := 16.
Definition Ctl_U : Z := 21.
Definition DEL : Z := 0x7f.
Definition NL : Z := 10.
Definition CR : Z := 13.

Record cons := mkCons { buf : list Z; r : Z; w : Z; e : Z }.
Record cworld (S : Type) := mkCworld { ctable : S; dev : cons; uart : list Z }.
Arguments mkCworld {S}.
Arguments ctable {S}.
Arguments dev {S}.
Arguments uart {S}.

(** How a pass of [consoleread] ends: with a result, killed, or asleep with [n]
    bytes wanted still. *)
Inductive cstatus := CDone (ret : Z) | CKilled | CAsleep (n : nat).

Section code.
Context {S : Type} `{SleepChan S}.
(** What [procdump] prints, and the address of [cons.r]. *)
Context (procdump : S → list Z) (cons_r : Z).
Definition chan_cons : channel := ChOther cons_r.
Abbreviation cm := (M (cworld S)).

Definition on_ctable {A} (m : M S A) : cm A := λ x,
  match m (ctable x) with Some (a, s) => Some (a, mkCworld s (dev x) (uart x)) | None => None end.
Definition uartputc_sync (c : Z) : cm unit := modify (λ x, mkCworld (ctable x) (dev x) (uart x ++ [c])).
Definition set_dev (k : cons) : cm unit := modify (λ x, mkCworld (ctable x) k (uart x)).

Definition consputc (c : Z) : cm unit :=
  if c =? BACKSPACE then uartputc_sync 8;; uartputc_sync 32;; uartputc_sync 8 else uartputc_sync c.

(** [cons.buf[i % INPUT_BUF_SIZE]] *)
Definition ring (k : cons) (i : Z) : Z := default 0 (buf k !! Z.to_nat (i mod INPUT_BUF_SIZE)).

(** The loop that kills the line. *)
Fixpoint kill_loop (fuel : nat) : cm unit :=
  match fuel with
  | O => stuck
  | Datatypes.S fuel =>
    k ← gets dev;
    if negb (e k =? w k) && negb (ring k (u32 (e k - 1)) =? NL) then
      set_dev (mkCons (buf k) (r k) (w k) (u32 (e k - 1)));; consputc BACKSPACE;; kill_loop fuel
    else mret ()
  end.

Definition consoleintr (c : Z) : cm unit :=
  k ← gets dev;
  if c =? Ctl_P then modify (λ x, mkCworld (ctable x) (dev x) (uart x ++ procdump (ctable x)))
  else if c =? Ctl_U then kill_loop (Datatypes.S (Z.to_nat INPUT_BUF_SIZE))
  else if (c =? Ctl_H) || (c =? DEL) then
    if negb (e k =? w k) then set_dev (mkCons (buf k) (r k) (w k) (u32 (e k - 1)));; consputc BACKSPACE
    else mret ()
  else if negb (c =? 0) && (u32 (e k - r k) <? INPUT_BUF_SIZE) then
    let c := if c =? CR then NL else c in
    consputc c;;
    let k := mkCons (<[Z.to_nat (e k mod INPUT_BUF_SIZE) := c]> (buf k)) (r k) (w k) (u32 (e k + 1)) in
    set_dev k;;
    if (c =? NL) || (c =? Ctl_D) || (u32 (e k - r k) =? INPUT_BUF_SIZE) then
      set_dev (mkCons (buf k) (r k) (e k) (e k));; on_ctable (chan_wakeup chan_cons)
    else mret ()
  else mret ().

Section read.
Context (killed : bool) (t : nat) (copyout_ok : nat → bool).
(** [consoleread] by process [t], with [n] of [target] bytes wanted: the bytes
    that are copied out. *)
Fixpoint consoleread_pass (target n : nat) : cm (list Z * cstatus) :=
  match n with
  | O => mret ([], CDone (Z.of_nat target))
  | Datatypes.S n' =>
    k ← gets dev;
    if r k =? w k then
      if killed then mret ([], CKilled)
      else on_ctable (chan_prepare t chan_cons);; mret ([], CAsleep n)
    else
      let c := ring k (r k) in
      set_dev (mkCons (buf k) (u32 (r k + 1)) (w k) (e k));;
      if c =? Ctl_D then
        when (bool_decide (n < target)%nat)
          (k ← gets dev; set_dev (mkCons (buf k) (u32 (r k - 1)) (w k) (e k)));;
        mret ([], CDone (Z.of_nat target - Z.of_nat n))
      else if negb (copyout_ok n) then mret ([], CDone (Z.of_nat target - Z.of_nat n))
      else if c =? NL then mret ([c], CDone (Z.of_nat target - Z.of_nat n'))
      else
        x ← consoleread_pass target n';
        mret (c :: x.1, x.2)
  end.
End read.

(** [consolewrite]; [either_copyin i nn] gives the bytes, or fails. *)
Section write.
Context (either_copyin : Z → Z → option (list Z)).
Fixpoint consolewrite_loop (fuel : nat) (i n : Z) : cm Z :=
  match fuel with
  | O => stuck
  | Datatypes.S fuel =>
    if i <? n then
      let nn := if n - i <? 32 then n - i else 32 in
      match either_copyin i nn with
      | None => mret i
      | Some bs => mfor bs uartputc_sync;; consolewrite_loop fuel (i + nn) n
      end
    else mret i
  end.
Definition consolewrite (n : Z) : cm Z := consolewrite_loop (Datatypes.S (Z.to_nat n)) 0 n.
End write.
End code.
