(* ===== verification/ConsoleSpec.v ===== *)
(** The console as a line discipline: the lines that may be read and the line
    that is being typed. *)
From S2P Require Import Prelude Proc ProcSync Console.

(** ** What the console promises *)

(** The bytes that may be read, and the line that is typed. *)
Record discipline := Disc { ready : list Z; line : list Z }.

Definition rubout : list Z := [8; 32; 8].
(** A key is typed: the new state, what is echoed, and whether readers wake. *)
Definition key (dump : list Z) (c : Z) (d : discipline) : discipline * list Z * bool :=
  if c =? Ctl_P then (d, dump, false)
  else if c =? Ctl_U then (Disc (ready d) [], concat (replicate (length (line d)) rubout), false)
  else if (c =? Ctl_H) || (c =? DEL) then
    match line d with
    | [] => (d, [], false)
    | _ => (Disc (ready d) (removelast (line d)), rubout, false)
    end
  else if (c =? 0) || bool_decide (128 ≤ length (ready d) + length (line d))%nat then (d, [], false)
  else
    let c := if c =? CR then NL else c in
    let l := line d ++ [c] in
    if (c =? NL) || (c =? Ctl_D) || bool_decide (128 ≤ length (ready d) + length l)%nat
    then (Disc (ready d ++ l) [], [c], true)
    else (Disc (ready d) l, [c], false).

(** A read takes bytes up to the end of a line, or up to an end of file, which
    it takes only if it is the first. *)
Fixpoint read (killed : bool) (copyout_ok : nat → bool) (target n : nat) (bs : list Z) : list Z * cstatus * list Z :=
  match n with
  | O => ([], CDone (Z.of_nat target), bs)
  | S n' =>
    match bs with
    | [] => ([], if killed then CKilled else CAsleep n, [])
    | c :: bs' =>
      if c =? Ctl_D then ([], CDone (Z.of_nat target - Z.of_nat n), if bool_decide (n < target)%nat then bs else bs')
      else if negb (copyout_ok n) then ([], CDone (Z.of_nat target - Z.of_nat n), bs')
      else if c =? NL then ([c], CDone (Z.of_nat target - Z.of_nat n'), bs')
      else let '(got, st, rest) := read killed copyout_ok target n' bs' in (c :: got, st, rest)
    end
  end.

(** ** The ring *)

Lemma u32_mod_ring i : u32 i mod INPUT_BUF_SIZE = i mod INPUT_BUF_SIZE.
Proof. unfold u32, INPUT_BUF_SIZE. apply Z.mod_mod_divide. exists (2 ^ 25). reflexivity. Qed.
Lemma ring_u32 k i : ring k (u32 i) = ring k i.
Proof. unfold ring. by rewrite u32_mod_ring. Qed.

(** The [n] bytes from counter [i] on. *)
Definition seg (k : cons) (i n : Z) : list Z := (λ j, ring k j) <$> seqZ i n.

Lemma seg_length k i n : length (seg k i n) = Z.to_nat n.
Proof. unfold seg. by rewrite length_fmap, length_seqZ. Qed.
Lemma seg_nil k i : seg k i 0 = [].
Proof. done. Qed.
Lemma seg_cons k i n : 0 < n → seg k i n = ring k i :: seg k (i + 1) (n - 1).
Proof. intros. unfold seg. rewrite seqZ_cons by lia. cbn. by rewrite <-Z.add_1_r, Z.sub_1_r. Qed.
Lemma seg_app k i n m : 0 ≤ n → 0 ≤ m → seg k i (n + m) = seg k i n ++ seg k (i + n) m.
Proof. intros. unfold seg. by rewrite seqZ_app, fmap_app by lia. Qed.
Lemma seg_snoc k i n : 0 ≤ n → seg k i (n + 1) = seg k i n ++ [ring k (i + n)].
Proof. intros. by rewrite seg_app by lia. Qed.
Lemma seg_same k k' i n : buf k' = buf k → seg k' i n = seg k i n.
Proof. intros E. unfold seg, ring. by rewrite E. Qed.
Lemma seg_put k k' i n j c :
  buf k' = <[Z.to_nat (j mod INPUT_BUF_SIZE) := c]> (buf k) → i + n ≤ j → j < i + INPUT_BUF_SIZE → seg k' i n = seg k i n.
Proof.
  intros E H1 H2. apply list_fmap_ext. intros a x Hx. apply lookup_seqZ in Hx as [-> Ha]. unfold ring. rewrite E.
  rewrite list_lookup_insert_ne; [done|]. unfold INPUT_BUF_SIZE in *.
  pose proof (Z.mod_pos_bound j 128 ltac:(lia)). pose proof (Z.mod_pos_bound (i + Z.of_nat a) 128 ltac:(lia)).
  pose proof (Z.div_mod j 128 ltac:(lia)). pose proof (Z.div_mod (i + Z.of_nat a) 128 ltac:(lia)). lia.
Qed.
Lemma ring_put k k' j c :
  length (buf k) = 128%nat → buf k' = <[Z.to_nat (j mod INPUT_BUF_SIZE) := c]> (buf k) → ring k' j = c.
Proof.
  intros Hl E. unfold ring. rewrite E, list_lookup_insert_eq; [done|]. rewrite Hl. unfold INPUT_BUF_SIZE.
  pose proof (Z.mod_pos_bound j 128 ltac:(lia)). lia.
Qed.

(** The counters without wrapping. *)
Record cons_is (k : cons) (R W E : Z) (d : discipline) : Prop := {
  ci_buf : length (buf k) = 128%nat;
  ci_r : r k = u32 R; ci_w : w k = u32 W; ci_e : e k = u32 E;
  ci_order : R ≤ W ≤ E; ci_size : E ≤ R + 128;
  ci_ready : ready d = seg k R (W - R);
  ci_line : line d = seg k W (E - W);
  ci_nl : NL ∉ line d;
}.

Lemma u32_eqb a b : Z.abs (a - b) < 2 ^ 32 → (u32 a =? u32 b) = (a =? b).
Proof.
  intros Hab. unfold u32. destruct (Z.eqb_spec a b) as [->|Hne]; [by rewrite Z.eqb_refl|]. apply Z.eqb_neq. intros E.
  pose proof (Z.div_mod a (2 ^ 32) ltac:(lia)). pose proof (Z.div_mod b (2 ^ 32) ltac:(lia)).
  assert (a - b = 2 ^ 32 * (a / 2 ^ 32 - b / 2 ^ 32)) as Hd by lia. nia.
Qed.
Lemma u32_diff a b : 0 ≤ a - b < 2 ^ 32 → u32 (u32 a - u32 b) = a - b.
Proof. intros Hab. unfold u32. rewrite <-Zminus_mod. by apply Z.mod_small. Qed.
Lemma u32_step a x : u32 (u32 a + x) = u32 (a + x).
Proof. unfold u32. by rewrite Zplus_mod_idemp_l. Qed.

(** ** The code *)

Section spec.
Context {S : Type} `{SleepChan S} (procdump : S → list Z) (cons_r : Z).
Abbreviation intr := (consoleintr procdump cons_r).
Abbreviation chan := (chan_cons cons_r).

(** The ring holds the discipline, and nobody waits while there is something
    to read. *)
Record cons_ok (x : cworld S) (d : discipline) : Prop := {
  co_cons : ∃ R W E, cons_is (dev x) R W E d;
  co_table : chan_ok (ctable x);
  co_waits : ∀ t, waiting (ctable x) t chan → ready d = [];
}.

Lemma putc_eq c (x : cworld S) : uartputc_sync c x = Some ((), mkCworld (ctable x) (dev x) (uart x ++ [c])).
Proof. done. Qed.
Lemma rubout_eq (x : cworld S) : consputc BACKSPACE x = Some ((), mkCworld (ctable x) (dev x) (uart x ++ rubout)).
Proof. unfold consputc. cbn. unfold uartputc_sync, mbind, M_bind, modify. cbn. by rewrite <-!app_assoc. Qed.

(** One character of the line is taken back. *)
Lemma rub_one k R W E d :
  cons_is k R W E d → W < E →
  ∃ l c, line d = l ++ [c] ∧ ring k (u32 (e k - 1)) = c ∧ c ≠ NL ∧
    cons_is (mkCons (buf k) (r k) (w k) (u32 (e k - 1))) R W (E - 1) (Disc (ready d) l).
Proof.
  intros [Hb Hr Hw He Ho Hs Hrd Hl Hn] Hlt. exists (seg k W (E - 1 - W)), (ring k (E - 1)).
  assert (line d = seg k W (E - 1 - W) ++ [ring k (E - 1)]) as El.
  { rewrite Hl. replace (E - W) with (E - 1 - W + 1) by lia. rewrite seg_snoc by lia. do 3 f_equal. lia. }
  rewrite El in Hn. split_and!; [done| |set_solver|].
  - rewrite ring_u32, He. replace (u32 E - 1) with (u32 E + -1) by lia. rewrite <-(ring_u32 k (_ + -1)), u32_step, ring_u32. f_equal; lia.
  - split; cbn [buf r w e ready line]; try done; [|lia|lia|set_solver].
    rewrite He. replace (u32 E - 1) with (u32 E + -1) by lia. rewrite u32_step. f_equal; lia.
Qed.

Lemma kill_loop_spec fuel (x : cworld S) R W E d :
  cons_is (dev x) R W E d → E - W < Z.of_nat fuel →
  ∃ k', kill_loop fuel x = Some ((), mkCworld (ctable x) k' (uart x ++ concat (replicate (length (line d)) rubout))) ∧
    cons_is k' R W W (Disc (ready d) []).
Proof.
  revert x E d. induction fuel as [|fuel IH]; intros x E d Hk Hf; [pose proof (ci_order _ _ _ _ _ Hk); lia|].
  cbn [kill_loop]. rewrite (bind_eq _ _ _ (dev x) x) by done. pose proof Hk as [Hb Hr Hw He Ho Hs Hrd Hl Hn].
  rewrite He, Hw, u32_eqb by lia. destruct (Z.eqb_spec E W) as [->|Hne]; cbn [negb andb].
  - exists (dev x). rewrite Z.sub_diag in Hl. rewrite Hl. cbn. rewrite app_nil_r. split; [by destruct x|]. split; cbn; try done; [lia..|by rewrite Z.sub_diag|set_solver].
  - destruct (rub_one _ _ _ _ _ Hk ltac:(lia)) as (l & c & El & Ec & Hc & Hk'). rewrite He in Ec, Hk'. rewrite Ec, (proj2 (Z.eqb_neq _ _) Hc). cbn [negb].
    set (x1 := mkCworld (ctable x) (mkCons (buf (dev x)) (r (dev x)) (u32 W) (u32 (u32 E - 1))) (uart x)).
    rewrite (bind_eq _ _ _ () x1) by done. rewrite (bind_eq _ _ _ _ _ (rubout_eq x1)).
    destruct (IH (mkCworld (ctable x1) (dev x1) (uart x1 ++ rubout)) (E - 1) (Disc (ready d) l)) as (k' & E' & Hk2).
    + cbn [dev x1]. by rewrite <-Hw.
    + lia.
    + exists k'. rewrite E'. split; [|done]. cbn [ctable uart line x1]. rewrite El, length_app, Nat.add_1_r. cbn [replicate concat]. by rewrite app_assoc.
Qed.

Lemma room_test k R W E d :
  cons_is k R W E d → u32 (e k - r k) = E - R ∧ Z.of_nat (length (ready d) + length (line d)) = E - R.
Proof.
  intros [Hb Hr Hw He Ho Hs Hrd Hl Hn]. rewrite He, Hr, u32_diff by lia. split; [done|]. rewrite Hrd, Hl, !seg_length. lia.
Qed.

(** A character is stored at the end of the line. *)
Lemma store_one k R W E d c :
  cons_is k R W E d → E - R < 128 →
  let k' := mkCons (<[Z.to_nat (e k mod INPUT_BUF_SIZE) := c]> (buf k)) (r k) (w k) (u32 (e k + 1)) in
  length (buf k') = 128%nat ∧ e k' = u32 (E + 1) ∧ seg k' R (W - R) = ready d ∧ seg k' W (E + 1 - W) = line d ++ [c].
Proof.
  intros [Hb Hr Hw He Ho Hs Hrd Hl Hn] Hroom k'.
  assert (buf k' = <[Z.to_nat (E mod INPUT_BUF_SIZE) := c]> (buf k)) as Eb by (cbn [k' buf]; by rewrite He, u32_mod_ring).
  split_and!.
  - by rewrite Eb, length_insert.
  - cbn [k' e]. by rewrite He, u32_step.
  - rewrite Hrd. eapply seg_put; [exact Eb|lia|unfold INPUT_BUF_SIZE; lia].
  - replace (E + 1 - W) with (E - W + 1) by lia. rewrite seg_snoc, Hl by lia.
    rewrite (seg_put k k' W (E - W) E c) by (done || unfold INPUT_BUF_SIZE; lia). f_equal.
    replace (W + (E - W)) with E by lia. by rewrite (ring_put k k' E c).
Qed.

(** A key. *)
Lemma consoleintr_spec c (x : cworld S) d :
  0 ≤ c < 256 → cons_ok x d →
  let '(d', echo, wake) := key (procdump (ctable x)) c d in
  ∃ x', intr c x = Some ((), x') ∧ cons_ok x' d' ∧ uart x' = uart x ++ echo ∧
    (wake = true → ∀ t, ¬ waiting (ctable x') t chan) ∧ (wake = false → ctable x' = ctable x).
Proof.
  intros Hbyte [(R & W & E & Hk) Ht Hwt]. pose proof Hk as [Hb Hr Hw He Ho Hs Hrd Hl Hn]. destruct (room_test _ _ _ _ _ Hk) as [Hroom Hlen].
  unfold key, consoleintr. rewrite (bind_eq _ _ _ (dev x) x) by done.
  destruct (c =? Ctl_P). { eexists. split_and!; [reflexivity| |done|done|done]. split; [by exists R, W, E|done|done]. }
  destruct (c =? Ctl_U).
  { destruct (kill_loop_spec (Datatypes.S (Z.to_nat INPUT_BUF_SIZE)) x R W E d Hk) as (k' & -> & Hk'); [unfold INPUT_BUF_SIZE; lia|].
    eexists. split_and!; [reflexivity| |done|done|done]. split; [by exists R, W, W|done|done]. }
  destruct ((c =? Ctl_H) || (c =? DEL)).
  { rewrite He, Hw, u32_eqb by lia. destruct (Z.eqb_spec E W) as [->|Hne]; cbn [negb].
    - rewrite Z.sub_diag in Hl. rewrite Hl. cbn. exists x. split_and!; [done| |by rewrite app_nil_r|done|done]. split; [by exists R, W, W|done|done].
    - destruct (rub_one _ _ _ _ _ Hk ltac:(lia)) as (l & c' & El & _ & _ & Hk'). rewrite He, Hw in Hk'.
      rewrite (bind_eq _ _ _ () (mkCworld (ctable x) (mkCons (buf (dev x)) (r (dev x)) (u32 W) (u32 (u32 E - 1))) (uart x))) by done.
      rewrite rubout_eq. rewrite El, removelast_last. destruct (l ++ [c']) eqn:Ec; [by destruct l|].
      eexists. split_and!; [reflexivity| |done|done|done]. split; [by exists R, W, (E - 1)|done|done]. }
  rewrite Hroom. replace ((c =? 0) || bool_decide (128 ≤ length (ready d) + length (line d))%nat)
    with (negb (negb (c =? 0) && (E - R <? INPUT_BUF_SIZE))).
  2:{ unfold INPUT_BUF_SIZE. destruct (c =? 0); cbn; [done|]. destruct (E - R <? 128) eqn:El; cbn;
      [rewrite bool_decide_eq_false_2 by lia|rewrite bool_decide_eq_true_2 by lia]; done. }
  destruct (negb (c =? 0) && (E - R <? INPUT_BUF_SIZE)) eqn:Eok; cbn [negb].
  2:{ exists x. split_and!; [done| |by rewrite app_nil_r|done|done]. split; [by exists R, W, E|done|done]. }
  apply andb_true_iff in Eok as [_ Hfit%Z.ltb_lt]. unfold INPUT_BUF_SIZE in Hfit. cbv zeta.
  set (c1 := if c =? CR then NL else c).
  set (k' := mkCons (<[Z.to_nat (e (dev x) mod INPUT_BUF_SIZE) := c1]> (buf (dev x))) (r (dev x)) (w (dev x)) (u32 (e (dev x) + 1))).
  destruct (store_one _ _ _ _ _ c1 Hk Hfit) as (Hb' & He' & Hs1 & Hs2). fold k' in Hb', He', Hs1, Hs2.
  assert (consputc c1 x = Some ((), mkCworld (ctable x) (dev x) (uart x ++ [c1]))) as Eput.
  { unfold consputc. rewrite (proj2 (Z.eqb_neq c1 BACKSPACE)); [done|]. unfold c1, BACKSPACE, NL. destruct (c =? CR); lia. }
  rewrite (bind_eq _ _ _ _ _ Eput). set (x1 := mkCworld (ctable x) k' (uart x ++ [c1])). rewrite (bind_eq _ _ _ () x1) by done.
  assert (u32 (e k' - r k') = E + 1 - R) as Hd by (rewrite He'; cbn [k' r]; rewrite Hr; apply u32_diff; lia).
  rewrite Hd. replace (bool_decide (128 ≤ length (ready d) + length (line d ++ [c1]))%nat) with (E + 1 - R =? INPUT_BUF_SIZE).
  2:{ rewrite length_app. unfold INPUT_BUF_SIZE. simpl. destruct (Z.eqb_spec (E + 1 - R) 128);
      [rewrite bool_decide_eq_true_2 by lia|rewrite bool_decide_eq_false_2 by lia]; done. }
  destruct ((c1 =? NL) || (c1 =? Ctl_D) || (E + 1 - R =? INPUT_BUF_SIZE)) eqn:Ecommit.
  - set (x2 := mkCworld (ctable x) (mkCons (buf k') (r k') (e k') (e k')) (uart x ++ [c1])).
    rewrite (bind_eq _ _ _ () x2) by done. destruct (chan_wakeup_spec chan (ctable x) Ht) as (s' & Ew & Hok & Hwait).
    exists (mkCworld s' (dev x2) (uart x2)). split_and!; [unfold on_ctable; cbn [x2 ctable]; by rewrite Ew| |done| |done].
    + split; [|done|].
      * exists R, (E + 1), (E + 1). split; cbn [dev x2 buf r w e ready line]; try done; [lia|lia| |by rewrite Z.sub_diag|set_solver].
        replace (E + 1 - R) with ((W - R) + (E + 1 - W)) by lia. rewrite seg_app by lia.
        replace (R + (W - R)) with W by lia. rewrite <-Hs1 at 1. by rewrite <-Hs2.
      * intros t Hw'. cbn [ctable] in Hw'. by apply Hwait in Hw' as [_ ?].
    + intros _ t Hw'. cbn [ctable] in Hw'. by apply Hwait in Hw' as [_ ?].
  - exists x1. rewrite !orb_false_iff in Ecommit. destruct Ecommit as [[Hnl _] Hlt]. unfold INPUT_BUF_SIZE in Hlt.
    split_and!; [done| |done|done|done]. split; [|done|done].
    exists R, W, (E + 1). split; cbn [dev x1 ready line]; try done; [lia|lia|]. apply Z.eqb_neq in Hnl. set_solver.
Qed.

Section reads.
Context (killed : bool) (t : nat) (copyout_ok : nat → bool) (Ht : chan_is_proc t).

Lemma take_one k R W E d :
  cons_is k R W E d → R < W →
  ∃ c bs, ready d = c :: bs ∧ ring k (r k) = c ∧
    cons_is (mkCons (buf k) (u32 (r k + 1)) (w k) (e k)) (R + 1) W E (Disc bs (line d)) ∧
    u32 (u32 (r k + 1) - 1) = r k.
Proof.
  intros [Hb Hr Hw He Ho Hs Hrd Hl Hn] Hlt. exists (ring k R), (seg k (R + 1) (W - (R + 1))). split_and!.
  - rewrite Hrd, seg_cons by lia. do 2 f_equal. lia.
  - by rewrite Hr, ring_u32.
  - split; cbn; try done; [by rewrite Hr, u32_step|lia|lia].
  - rewrite Hr, u32_step. replace (u32 (R + 1) - 1) with (u32 (R + 1) + -1) by lia. rewrite u32_step. f_equal; lia.
Qed.

(** A pass of a read. *)
Lemma consoleread_spec target n (x : cworld S) d :
  cons_ok x d →
  let '(got, st, rest) := read killed copyout_ok target n (ready d) in
  ∃ x', consoleread_pass cons_r killed t copyout_ok target n x = Some ((got, st), x') ∧
    cons_ok x' (Disc rest (line d)) ∧ uart x' = uart x ∧
    match st with CAsleep _ => waiting (ctable x') t chan | _ => ctable x' = ctable x end.
Proof.
  revert x d. induction n as [|n IH]; intros x d Hok; cbn [read consoleread_pass].
  { exists x. split_and!; [done| |done|done]. destruct Hok as [(R & W & E & [])]. split; [|done|done]. exists R, W, E. by split. }
  destruct Hok as [(R & W & E & Hk) Htab Hwt]. pose proof Hk as [Hb Hr Hw He Ho Hs Hrd Hl Hn].
  rewrite (bind_eq _ _ _ (dev x) x) by done. rewrite Hr, Hw, u32_eqb by lia. destruct (Z.eqb_spec R W) as [->|Hne].
  - rewrite Z.sub_diag in Hrd. rewrite Hrd. cbn [seg seqZ]. change (seg (dev x) W 0) with (@nil Z). destruct killed.
    { exists x. split_and!; [done| |done|done]. split; [|done|done]. exists W, W, E. split; try done; by rewrite Z.sub_diag. }
    destruct (chan_prepare_spec t chan (ctable x) Htab Ht) as (s' & Ep & Hok & Hwait).
    exists (mkCworld s' (dev x) (uart x)). split_and!; [|  |done|].
    + rewrite (bind_eq _ _ _ () (mkCworld s' (dev x) (uart x))) by (unfold on_ctable; by rewrite Ep). done.
    + split; [|done|done]. exists W, W, E. split; try done; by rewrite Z.sub_diag.
    + cbn [ctable]. apply Hwait. by rewrite decide_True.
  - destruct (take_one _ _ _ _ _ Hk ltac:(lia)) as (c & bs & Ebs & Ec & Hk1 & Eback). rewrite Ebs. rewrite Hr in Ec, Hk1, Eback. rewrite Ec.
    set (x1 := mkCworld (ctable x) (mkCons (buf (dev x)) (u32 (u32 R + 1)) (u32 W) (e (dev x))) (uart x)).
    rewrite Hw in Hk1. rewrite (bind_eq _ _ _ () x1) by done.
    assert (cons_ok x1 (Disc bs (line d))) as Hok1.
    { split; [by exists (R + 1), W, E|done|]. intros t' Hw'. apply Hwt in Hw'. by rewrite Ebs in Hw'. }
    destruct (c =? Ctl_D) eqn:Ed.
    { case_bool_decide; cbn [when].
      - set (x2 := mkCworld (ctable x) (mkCons (buf (dev x)) (u32 (u32 (u32 R + 1) - 1)) (u32 W) (e (dev x))) (uart x)).
        rewrite (bind_eq _ _ _ () x2) by done. exists x2. split_and!; [done| |done|done]. split; [|done|by rewrite <-Ebs].
        exists R, W, E. rewrite <-Ebs. split; cbn [dev x2 buf r w e ready line]; try done; by rewrite Eback.
      - exists x1. by split_and!. }
    destruct (copyout_ok (Datatypes.S n)); cbn [negb]; [|by exists x1]. destruct (c =? NL); [by exists x1|].
    specialize (IH x1 _ Hok1). cbn [ready line] in IH. destruct (read killed copyout_ok target n bs) as [[got st] rest].
    destruct IH as (x' & Er & Hok' & Hu & Hst). exists x'. rewrite (bind_eq _ _ _ _ _ Er). by split_and!.
Qed.
End reads.

(** ** Sequences of keys and reads *)

Inductive event := Key (c : Z) | Read (t : nat) (killed : bool) (copyout_ok : nat → bool) (target n : nat).
Definition event_ok (ev : event) : Prop :=
  match ev with Key c => 0 ≤ c < 256 | Read t _ _ _ _ => chan_is_proc t end.

(** What each read yields. *)
Fixpoint run_events (evs : list event) : M (cworld S) (list (list Z * cstatus)) :=
  match evs with
  | [] => mret []
  | Key c :: evs => intr c;; run_events evs
  | Read t killed ok target n :: evs =>
    x ← consoleread_pass cons_r killed t ok target n;
    xs ← run_events evs;
    mret (x :: xs)
  end.
Fixpoint disc_events (evs : list event) (d : discipline) : list (list Z * cstatus) * discipline :=
  match evs with
  | [] => ([], d)
  | Key c :: evs => disc_events evs (key [] c d).1.1
  | Read _ killed ok target n :: evs =>
    let '(got, st, rest) := read killed ok target n (ready d) in
    let '(xs, d') := disc_events evs (Disc rest (line d)) in ((got, st) :: xs, d')
  end.

Lemma key_dump dump c d : (key dump c d).1.1 = (key [] c d).1.1.
Proof. unfold key. by destruct (c =? Ctl_P). Qed.

(** C15: the console is a line discipline. For any sequence of keys and reads,
    with the counters wrapping around, each read gets the bytes that it would
    get of a list of finished lines, to which the line that is typed is added
    when it is ended, and the code never fails; nobody sleeps while there is
    something to read. *)
Theorem console_line_discipline evs (x : cworld S) d :
  Forall event_ok evs → cons_ok x d →
  ∃ x', run_events evs x = Some ((disc_events evs d).1, x') ∧ cons_ok x' (disc_events evs d).2.
Proof.
  intros Hevs. revert x d. induction Hevs as [|[c|t killed ok target n] evs Hev _ IH]; intros x d Hok; cbn [run_events disc_events].
  - by exists x.
  - pose proof (consoleintr_spec c x d Hev Hok) as Hs. rewrite <-(key_dump (procdump (ctable x))).
    destruct (key (procdump (ctable x)) c d) as [[d' echo] wake]. destruct Hs as (x1 & E & Hok1 & _).
    rewrite (bind_eq _ _ _ _ _ E). by apply IH.
  - pose proof (consoleread_spec killed t ok Hev target n x d Hok) as Hs.
    destruct (read killed ok target n (ready d)) as [[got st] rest]. destruct Hs as (x1 & E & Hok1 & _).
    rewrite (bind_eq _ _ _ _ _ E). destruct (IH x1 _ Hok1) as (x' & E' & Hok').
    destruct (disc_events evs _) as [xs d'] eqn:Ed. exists x'. by rewrite (bind_eq _ _ _ _ _ E').
Qed.

(** ** A line that is edited *)

(** What the keys of a line leave of it. *)
Fixpoint edit (l ks : list Z) : list Z :=
  match ks with
  | [] => l
  | c :: ks =>
    if c =? Ctl_U then edit [] ks
    else if (c =? Ctl_H) || (c =? DEL) then edit (removelast l) ks
    else if (c =? 0) || (c =? Ctl_P) then edit l ks
    else edit (l ++ [c]) ks
  end.
Definition inner_key (c : Z) : Prop := 0 ≤ c < 256 ∧ c ≠ NL ∧ c ≠ CR ∧ c ≠ Ctl_D.

Lemma removelast_length (l : list Z) : (length (removelast l) ≤ length l)%nat.
Proof. induction l as [|c [|c' l] IH]; simpl in *; lia. Qed.
Lemma edit_length l ks : (length (edit l ks) ≤ length l + length ks)%nat.
Proof.
  revert l; induction ks as [|c ks IH]; intros l; cbn [edit length]; [lia|]. pose proof (removelast_length l).
  repeat case_match; [specialize (IH [])|specialize (IH (removelast l))|specialize (IH l)|specialize (IH (l ++ [c])); rewrite length_app in IH]; simpl in *; lia.
Qed.

Lemma edit_keys ks l (x : cworld S) :
  Forall inner_key ks → cons_ok x (Disc [] l) → (length l + length ks < 127)%nat →
  ∃ x', mfor ks intr x = Some ((), x') ∧ cons_ok x' (Disc [] (edit l ks)).
Proof.
  intros Hks. revert l x. induction Hks as [|c ks (Hb & Hnl & Hcr & Hcd) _ IH]; intros l x Hok Hlen; [by exists x|].
  pose proof (consoleintr_spec c x (Disc [] l) Hb Hok) as Hs. cbn [mfor edit length] in *.
  assert (∃ echo wake l', key (procdump (ctable x)) c (Disc [] l) = (Disc [] l', echo, wake) ∧ (length l' ≤ length l + 1)%nat ∧
    edit l (c :: ks) = edit l' ks) as (echo & wake & l' & Ek & Hl' & Eed).
  { unfold key. cbn [edit ready line]. destruct (Z.eqb_spec c Ctl_P) as [->|HP].
    - eexists _, _, l. split_and!; [done|lia|done].
    - destruct (c =? Ctl_U); [eexists _, _, []; split_and!; [done|simpl; lia|done]|].
      destruct ((c =? Ctl_H) || (c =? DEL)).
      + pose proof (removelast_length l). destruct l as [|c' l]; [by eexists _, _, []; split_and!; [done|simpl; lia|]|].
        eexists _, _, _. split_and!; [done|lia|done].
      + destruct (c =? 0) eqn:E0; cbn [orb]; [eexists _, _, l; split_and!; [done|lia|done]|].
        rewrite bool_decide_eq_false_2 by (simpl; lia). rewrite (proj2 (Z.eqb_neq c CR)) by done. cbv zeta.
        rewrite (proj2 (Z.eqb_neq c NL)), (proj2 (Z.eqb_neq c Ctl_D)), bool_decide_eq_false_2 by (done || rewrite length_app; simpl; lia).
        eexists _, _, (l ++ [c]). split_and!; [done|rewrite length_app; simpl; lia|done]. }
  rewrite Ek in Hs. destruct Hs as (x1 & E & Hok1 & _). rewrite (bind_eq _ _ _ _ _ E).
  change (if c =? Ctl_U then _ else _) with (edit l (c :: ks)). rewrite Eed. apply IH; [done|lia].
Qed.

(** Reading a line that fits. *)
Lemma read_line killed ok target n l rest :
  Forall (λ c, c ≠ NL ∧ c ≠ Ctl_D) l → (length l < n ≤ target)%nat → (∀ m, ok m = true) →
  read killed ok target n (l ++ NL :: rest) = (l ++ [NL], CDone (Z.of_nat (target - n + length l + 1)), rest).
Proof.
  intros Hl. revert n. induction Hl as [|c l [H1 H2] _ IH]; intros [|n] Hn Hok; cbn [length] in Hn; try lia; cbn [app read].
  - rewrite Hok. cbn. do 3 f_equal. simpl. lia.
  - rewrite (proj2 (Z.eqb_neq _ _) H1), (proj2 (Z.eqb_neq _ _) H2), Hok, IH by (done || lia). cbn [negb length]. do 3 f_equal. lia.
Qed.

Lemma edit_plain l ks : Forall inner_key ks → Forall (λ c, c ≠ NL ∧ c ≠ Ctl_D) l → Forall (λ c, c ≠ NL ∧ c ≠ Ctl_D) (edit l ks).
Proof.
  intros Hks. revert l. induction Hks as [|c ks (_ & H1 & _ & H2) _ IH]; intros l Hl; [done|]. cbn [edit].
  assert (Forall (λ c, c ≠ NL ∧ c ≠ Ctl_D) (removelast l)) as Hrl.
  { destruct l as [|c0 l _] using rev_ind; [done|]. rewrite removelast_last. by apply Forall_app in Hl as [? _]. }
  repeat case_match; apply IH; [constructor|done|done|by apply Forall_app_2; [|by constructor]].
Qed.

(** a line is typed, with corrections, and ended by return, when nothing
    else is there to read; then a read that asks for enough bytes gets the
    line as it was corrected, with a newline, and everything is as before. *)
Theorem console_reads_edited_line ks enter (x : cworld S) t killed target :
  Forall inner_key ks → (length ks < 127)%nat → enter = NL ∨ enter = CR → (length ks < target)%nat →
  cons_ok x (Disc [] []) → chan_is_proc t →
  ∃ x1 x2, mfor (ks ++ [enter]) intr x = Some ((), x1) ∧ (∀ u, ¬ waiting (ctable x1) u chan) ∧
    consoleread_pass cons_r killed t (λ _, true) target target x1 =
      Some ((edit [] ks ++ [NL], CDone (Z.of_nat (length (edit [] ks) + 1))), x2) ∧ cons_ok x2 (Disc [] []).
Proof.
  intros Hks Hlen Hent Htar Hok Ht. destruct (edit_keys ks [] x Hks Hok) as (x0 & E0 & Hok0); [simpl; lia|].
  pose proof (edit_length [] ks) as Hel. cbn [length] in Hel.
  assert (0 ≤ enter < 256) as Hb by (unfold NL, CR in *; lia).
  pose proof (consoleintr_spec enter x0 _ Hb Hok0) as Hs.
  assert (key (procdump (ctable x0)) enter (Disc [] (edit [] ks)) = (Disc (edit [] ks ++ [NL]) [], [NL], true)) as Ek.
  { unfold key. cbn [ready line]. rewrite (bool_decide_eq_false_2 (128 ≤ _)%nat) by (simpl; lia). by destruct Hent as [-> | ->]. }
  rewrite Ek in Hs. destruct Hs as (x1 & E1 & Hok1 & _ & Hwake & _).
  pose proof (consoleread_spec killed t (λ _, true) Ht target target x1 _ Hok1) as Hr. cbn [ready line] in Hr.
  rewrite (read_line killed (λ _, true) target target (edit [] ks) []) in Hr by (done || lia || by apply edit_plain).
  destruct Hr as (x2 & E2 & Hok2 & _). exists x1, x2. rewrite mfor_app, (bind_eq _ _ _ _ _ E0).
  split_and!; [cbn [mfor]; by rewrite (bind_eq _ _ _ _ _ E1)|by apply Hwake| |done]. rewrite E2. do 4 f_equal. lia.
Qed.

Lemma mfor_putc bs (x : cworld S) : mfor bs uartputc_sync x = Some ((), mkCworld (ctable x) (dev x) (uart x ++ bs)).
Proof.
  revert x; induction bs as [|b bs IH]; intros x; cbn [mfor]; [rewrite app_nil_r; by destruct x|].
  rewrite (bind_eq _ _ _ _ _ (putc_eq b x)), IH. cbn [ctable dev uart]. by rewrite <-app_assoc.
Qed.

(** A write appears in whole and in order, however it is cut into batches; it
    ends early only at a batch that cannot be copied in. *)
Lemma consolewrite_writes either_copyin src (x : cworld S) :
  (∀ i nn, 0 ≤ i → 0 < nn ≤ 32 → i + nn ≤ Z.of_nat (length src) →
     either_copyin i nn = None ∨ either_copyin i nn = Some (take (Z.to_nat nn) (drop (Z.to_nat i) src))) →
  ∃ k, consolewrite either_copyin (Z.of_nat (length src)) x =
      Some (k, mkCworld (ctable x) (dev x) (uart x ++ take (Z.to_nat k) src)) ∧ 0 ≤ k ≤ Z.of_nat (length src) ∧
    (k = Z.of_nat (length src) ∨ ∃ nn, either_copyin k nn = None).
Proof.
  intros Hc. set (n := Z.of_nat (length src)) in *.
  assert (∀ fuel i (x : cworld S), 0 ≤ i ≤ n → n - i < Z.of_nat fuel →
    ∃ k, consolewrite_loop either_copyin fuel i n x =
      Some (k, mkCworld (ctable x) (dev x) (uart x ++ take (Z.to_nat (k - i)) (drop (Z.to_nat i) src))) ∧ i ≤ k ≤ n ∧
      (k = n ∨ ∃ nn, either_copyin k nn = None)) as Hloop.
  2:{ destruct (Hloop (Datatypes.S (Z.to_nat n)) 0 x) as (k & E & Hk & Hw); [lia|lia|]. rewrite Z.sub_0_r, drop_0 in E. exists k. split_and!; [exact E|lia|lia|done]. }
  clear x. induction fuel as [|fuel IH]; intros i x Hi Hf; [lia|]. cbn [consolewrite_loop].
  assert (∀ y : cworld S, mkCworld (ctable y) (dev y) (uart y ++ take (Z.to_nat (i - i)) (drop (Z.to_nat i) src)) = y) as Hnone.
  { intros []. rewrite Z.sub_diag. cbn. by rewrite app_nil_r. }
  destruct (i <? n) eqn:Elt; [|exists i; rewrite Hnone; split_and!; [done|lia|lia|left; lia]]. cbv zeta.
  set (nn := if n - i <? 32 then n - i else 32). assert (0 < nn ≤ 32 ∧ i + nn ≤ n) as Hnn by (unfold nn; destruct (n - i <? 32) eqn:E; lia).
  destruct (Hc i nn) as [E|E]; [lia|lia|lia| |]; rewrite E.
  { exists i. rewrite Hnone. split_and!; [done|lia|lia|right; by eauto]. }
  rewrite (bind_eq _ _ _ _ _ (mfor_putc _ x)). destruct (IH (i + nn) (mkCworld (ctable x) (dev x) (uart x ++ take (Z.to_nat nn) (drop (Z.to_nat i) src)))) as (k & Ek & Hk & Hw); [lia|lia|].
  exists k. rewrite Ek. split_and!; [|lia|lia|done]. cbn [ctable dev uart]. rewrite <-app_assoc. do 4 f_equal.
  replace (Z.to_nat (k - i)) with (Z.to_nat nn + Z.to_nat (k - (i + nn)))%nat by lia.
  rewrite <-take_take_drop, drop_drop. by replace (Z.to_nat (i + nn)) with (Z.to_nat i + Z.to_nat nn)%nat by lia.
Qed.
End spec.

(** ** Witnesses *)

Definition cons_proc : proc := mkproc RUNNING None false 0 1 None 0 0 0 0 [] (0, 0) [] 0 [] 0 0 0.
(** An idle console whose counters are about to wrap around. *)
Definition demo_cons : cworld (kstate unit) :=
  mkCworld (mkKstate (replicate NPROC cons_proc) [] None 2 1 0 0 ())
    (mkCons (replicate 128 0) (2 ^ 32 - 2) (2 ^ 32 - 2) (2 ^ 32 - 2)) [].

Lemma demo_cons_ok : cons_ok 0 demo_cons (Disc [] []).
Proof.
  split; [|done|].
  - exists (2 ^ 32 - 2), (2 ^ 32 - 2), (2 ^ 32 - 2). split; try done; set_solver.
  - intros t (p & Hp & Hc). apply lookup_replicate in Hp as [-> _]. done.
Qed.

(** Typed: a, x, backspace, b, return; and read. *)
Example demo_typed :
  fst <$> run_events (λ _, []) 0 [Key 97; Key 120; Key 8; Key 98; Key 13; Read 1 false (λ _, true) 10 10; Key 99; Read 1 false (λ _, true) 10 10] demo_cons =
  Some [([97; 98; 10], CDone 3); ([], CAsleep 10)].
Proof. by vm_compute. Qed.

Lemma console_line_discipline_witness :
  ∃ x', run_events (λ _, []) 0 [Key 97; Key 13; Read 1 false (λ _, true) 10 10] demo_cons =
    Some ((disc_events [Key 97; Key 13; Read 1 false (λ _, true) 10 10] (Disc [] [])).1, x') ∧
    cons_ok 0 x' (disc_events [Key 97; Key 13; Read 1 false (λ _, true) 10 10] (Disc [] [])).2.
Proof.
  apply (console_line_discipline (λ _, []) 0 [Key 97; Key 13; Read 1 false (λ _, true) 10 10] demo_cons (Disc [] [])).
  - repeat constructor; try lia. all: change (1 < 64)%nat; lia.
  - exact demo_cons_ok.
Defined.

Lemma console_reads_edited_line_witness :
  ∃ x1 x2 : cworld (kstate unit), mfor ([97; 120; 8; 98] ++ [13]) (consoleintr (λ _, []) 0) demo_cons = Some ((), x1) ∧
    (∀ u, ¬ waiting (ctable x1) u (chan_cons 0)) ∧
    consoleread_pass 0 false 1 (λ _, true) 10 10 x1 = Some ((edit [] [97; 120; 8; 98] ++ [NL], CDone (Z.of_nat (length (edit [] [97; 120; 8; 98]) + 1))), x2) ∧
    cons_ok 0 x2 (Disc [] []).
Proof.
  apply (console_reads_edited_line (λ _, []) 0 [97; 120; 8; 98] 13 demo_cons 1 false 10).
  - repeat constructor; done.
  - simpl; lia.
  - by right.
  - simpl; lia.
  - exact demo_cons_ok.
  - change (1 < 64)%nat; lia.
Defined.
