(* ===== verification/KFiles.v ===== *)
(** Pipes and the console as the file layer sees them: [pipe.c] and
    [console.c] implement the interface [FileOps] of [File] and keep its laws. *)
From S2P Require Import Prelude Kalloc Proc ProcSync Pipe Console Fs FsBlock FsFile FsRw FsDir SysFs FsRef File FileInv.

(** The process table, the free pages, the pipes and the console. *)
Record kworld (S : Type) := mkKworld { k_table : S; k_pages : kmem; k_pipes : gmap Z pipe; k_cons : cons; k_uart : list Z }.
Arguments mkKworld {S}.
Arguments k_table {S}.
Arguments k_pages {S}.
Arguments k_pipes {S}.
Arguments k_cons {S}.
Arguments k_uart {S}.

Definition CONSOLE : Z := 1.

Section ops.
Context {S : Type} `{SleepChan S} {U : Type} `{UserMem U} (kernel_end : Z) (procdump : S → list Z) (cons_r : Z).
(** The memory of the processes, and whether they were killed. *)
Context (u : nat → U) (killed : nat → bool) (copyout_ok : nat → nat → bool) (either_copyin : nat → Z → Z → Z → option (list Z)).
Abbreviation km := (M (kworld S)).

Definition on_pipes {A} (m : M (pworld S) A) : km A := λ k,
  match m (mkPworld (k_table k) (k_pages k) (k_pipes k)) with
  | Some (a, w) => Some (a, mkKworld (table w) (kpages w) (pipes w) (k_cons k) (k_uart k))
  | None => None
  end.
Definition on_cons {A} (m : M (cworld S) A) : km A := λ k,
  match m (mkCworld (k_table k) (k_cons k) (k_uart k)) with
  | Some (a, w) => Some (a, mkKworld (ctable w) (k_pages k) (k_pipes k) (Console.dev w) (Console.uart w))
  | None => None
  end.

(** [pipealloc]: the page of the pipe, which [kalloc] has filled with 5. *)
Definition pipe_create : M (pworld S) Z :=
  pa ← on_pages kalloc;
  if pa =? 0 then mret 0
  else set_pipe pa (mkPipe (replicate (Z.to_nat PIPESIZE) "005"%char) 0 0 true true);; mret pa.
Definition Z_of_ascii (c : ascii) : Z := Z.of_N (N_of_ascii c).

Definition kworld_ops : FileOps (kworld S) := {|
  pipe_new := on_pipes pipe_create;
  pipe_close := λ pa e, on_pipes (pipeclose kernel_end pa e);
  pipe_read := λ me pa addr n,
    r ← on_pipes (piperead_pass (u me) (killed me) me pa addr n);
    match r.2 with
    | RDone u' k => mret (k, Z_of_ascii <$> user_bytes u' addr 0 r.1)
    | RKilled => mret (-1, [])
    | RAsleep => stuck
    end;
  pipe_write := λ me pa addr n,
    r ← on_pipes (pipewrite_pass (u me) (λ _, killed me) me pa addr n 0);
    match r.2 with WDone k => mret k | WAborted => mret (-1) | WAsleep => stuck end;
  dev_read := λ d,
    if d =? CONSOLE then Some (λ me addr n,
      r ← on_cons (consoleread_pass cons_r (killed me) me (copyout_ok me) (Z.to_nat n) (Z.to_nat n));
      match r.2 with CDone k => mret (k, r.1) | CKilled => mret (-1, []) | CAsleep _ => stuck end)
    else None;
  dev_write := λ d,
    if d =? CONSOLE then Some (λ me addr n, on_cons (consolewrite (either_copyin me addr) n)) else None;
|}.
End ops.

Section laws.
Context {S : Type} `{SleepChan S} {U : Type} `{UserMem U} (kernel_end : Z) (Hend : 0 < kernel_end < PHYSTOP) (procdump : S → list Z) (cons_r : Z).
Context (u : nat → U) (killed : nat → bool) (copyout_ok : nat → nat → bool) (either_copyin : nat → Z → Z → Z → option (list Z)).
Implicit Types (k : kworld S) (p : pipe).

(** Pipes are well-formed, lie in pages of their own that are not free, and have an open end. *)
Definition pipes_in (m : gmap Z pipe) (l : list Z) : Prop := ∀ pa p, m !! pa = Some p →
  pipe_ok p ∧ Kalloc.valid kernel_end pa ∧ pa ∉ l ∧ readopen p || writeopen p = true.
Definition kworld_ok k : Prop := chan_ok (k_table k) ∧ ∃ l, kmem_ok kernel_end (k_pages k) l ∧ pipes_in (k_pipes k) l.
Definition kworld_end k (pa : Z) (e : bool) : bool :=
  match k_pipes k !! pa with Some p => if e then writeopen p else readopen p | None => false end.

Lemma new_law k : kworld_ok k → ∃ pa k', on_pipes pipe_create k = Some (pa, k') ∧ kworld_ok k' ∧
  if decide (pa = 0) then ∀ q e, kworld_end k' q e = kworld_end k q e
  else ∀ q e, kworld_end k pa e = false ∧ kworld_end k' q e = if decide (q = pa) then true else kworld_end k q e.
Proof.
  intros (Hok & l & Hl & Hp). unfold on_pipes, pipe_create. set (w := mkPworld _ _ _). destruct l as [|pa l].
  - rewrite (bind_eq _ _ _ 0 w) by (unfold on_pages; cbn [w kpages]; by rewrite (kalloc_empty _ _ Hl)).
    exists 0. eexists. split; [reflexivity|]. split; [split; [done|by exists []]|]. rewrite decide_True by done. done.
  - destruct (kalloc_spec _ pa l _ Hl) as (s' & E & Hl' & _ & _). rewrite (bind_eq _ _ _ pa (mkPworld (k_table k) s' (k_pipes k))) by (unfold on_pages; cbn [w kpages]; by rewrite E).
    assert (pa ≠ 0) as Hne by (destruct Hl as [Hc _ _]; cbn in Hc; by destruct Hc as (_ & ? & _)). rewrite (proj2 (Z.eqb_neq pa 0)) by done.
    exists pa. eexists. split; [reflexivity|]. cbn [k_table k_pages k_pipes table kpages pipes]. destruct Hl as [_ Hnd Hv]. apply NoDup_cons in Hnd as [Hni Hnd].
    apply Forall_cons in Hv as [Hv1 Hv2]. split.
    + split; [done|]. exists l. split; [done|]. intros q p. cbn [k_pipes]. intros [[<- <-]|[Hq Hq']]%lookup_insert_Some.
      * by split_and!.
      * destruct (Hp q p Hq') as (? & ? & Hn & ?). split_and!; try done. by apply not_elem_of_cons in Hn as [_ ?].
    + rewrite decide_False by done. intros q e. unfold kworld_end. cbn [k_pipes]. split.
      * destruct (k_pipes k !! pa) as [p|] eqn:Ep; [|done]. destruct (Hp pa p Ep) as (_ & _ & Hn & _). exfalso. apply Hn. left.
      * destruct (decide (q = pa)) as [->|Hqp]; [rewrite lookup_insert_eq; by destruct e|by rewrite lookup_insert_ne].
Qed.

Lemma close_law k pa e : kworld_ok k → kworld_end k pa e = true → ∃ k', on_pipes (pipeclose kernel_end pa e) k = Some ((), k') ∧ kworld_ok k' ∧
  ∀ q e', kworld_end k' q e' = if decide ((q, e') = (pa, e)) then false else kworld_end k q e'.
Proof.
  intros (Hok & l & Hl & Hp) He. unfold kworld_end in He. destruct (k_pipes k !! pa) as [p|] eqn:Ep; [|done]. destruct (Hp pa p Ep) as (Hpo & Hv & Hni & Hro).
  set (p' := mkPipe (data p) (nread p) (nwrite p) (if e then readopen p else false) (if e then false else writeopen p)).
  unfold on_pipes, pipeclose. set (w := mkPworld _ _ _). rewrite (the_pipe_eq _ p w) by done.
  destruct (chan_wakeup_spec (if e then chan_nread pa else chan_nwrite pa) _ Hok) as (s' & Ew & Hok' & _).
  rewrite (bind_eq _ _ _ () (mkPworld s' (k_pages k) (<[pa := p']> (k_pipes k)))) by (destruct e; unfold on_table, mbind, M_bind, set_pipe, modify, w; cbn [table kpages pipes]; rewrite Ew; reflexivity).
  rewrite (the_pipe_eq _ p') by (cbn [pipes]; by rewrite lookup_insert_eq).
  assert (∀ q e', (if decide ((q, e') = (pa, e)) then false else kworld_end k q e') =
    match <[pa := p']> (k_pipes k) !! q with Some r => if e' : bool then writeopen r else readopen r | None => false end) as Hends.
  { intros q e'. unfold kworld_end. destruct (decide (q = pa)) as [->|Hq]; [|rewrite lookup_insert_ne, decide_False by congruence; done].
    rewrite lookup_insert_eq, Ep. destruct e, e'; cbn; repeat case_decide; congruence. }
  destruct (negb (readopen p') && negb (writeopen p')) eqn:Eo.
  - destruct (kfree_spec _ Hend pa l _ Hl Hv Hni) as (s2 & Ek & Hl2 & _).
    rewrite (bind_eq _ _ _ () (mkPworld s' s2 (<[pa := p']> (k_pipes k)))) by (unfold on_pages; cbn [kpages]; by rewrite Ek).
    eexists. split; [reflexivity|]. cbn [table kpages pipes]. split.
    + split; [done|]. exists (pa :: l). split; [done|]. intros q r. cbn [k_pipes]. intros [Hq Hr]%lookup_delete_Some. rewrite lookup_insert_ne in Hr by done.
      destruct (Hp q r Hr) as (? & ? & ? & ?). split_and!; try done. apply not_elem_of_cons. split; [congruence|done].
    + intros q e'. rewrite Hends. unfold kworld_end. cbn [k_pipes]. destruct (decide (q = pa)) as [->|Hq]; [|by rewrite lookup_delete_ne].
      rewrite lookup_delete_eq, lookup_insert_eq. apply andb_true_iff in Eo as [?%negb_true_iff ?%negb_true_iff]. by destruct e'.
  - eexists. split; [reflexivity|]. cbn [table kpages pipes]. split.
    + split; [done|]. exists l. split; [done|]. intros q r. cbn [k_pipes]. intros [[<- <-]|[Hq Hr]]%lookup_insert_Some; [|by apply Hp].
      split_and!; try done; [destruct Hpo; by split|]. destruct (readopen p'), (writeopen p'); done.
    + intros q e'. by rewrite Hends.
Qed.

(** A pass on a pipe keeps its ends. *)
Lemma pass_keeps {A} k pa p p' ws w' (m : M (pworld S) A) a k' :
  kworld_ok k → k_pipes k !! pa = Some p → m (mkPworld (k_table k) (k_pages k) (k_pipes k)) = Some (a, w') →
  after pa p' ws (mkPworld (k_table k) (k_pages k) (k_pipes k)) w' → pipe_ok p' → same_ends p p' →
  on_pipes m k = Some (a, k') → kworld_ok k' ∧ ∀ q e, kworld_end k' q e = kworld_end k q e.
Proof.
  intros (Hok & l & Hl & Hp) Ep Em [Hpi Hpa Hch _] Hpo [Hs1 Hs2]. unfold on_pipes. rewrite Em. intros [= <-]. destruct (Hp pa p Ep) as (_ & Hv & Hni & Hro). split.
  - split; [done|]. exists l. cbn [k_pages k_pipes]. rewrite Hpa, Hpi. split; [done|]. cbn [pipes]. intros q r [[<- <-]|[Hq Hr]]%lookup_insert_Some; [|by apply Hp].
    split_and!; try done. by rewrite Hs1, Hs2.
  - intros q e. unfold kworld_end. cbn [k_pipes]. rewrite Hpi. cbn [pipes]. destruct (decide (q = pa)) as [->|Hq]; [|by rewrite lookup_insert_ne].
    rewrite lookup_insert_eq, Ep. destruct e; congruence.
Qed.
Lemma read_law me pa addr n k r k' :
  chan_is_proc me → kworld_ok k → 0 ≤ n < 2 ^ 31 → on_pipes (piperead_pass (u me) (killed me) me pa addr n) k = Some (r, k') → kworld_ok k' ∧ ∀ q e, kworld_end k' q e = kworld_end k q e.
Proof.
  intros Hme Hk Hn Ek. destruct (k_pipes k !! pa) as [p|] eqn:Ep; [|unfold on_pipes, piperead_pass, the_pipe, mbind, M_bind in Ek; cbn [pipes] in Ek; by rewrite Ep in Ek].
  destruct Hk as (Hok & l & Hl & Hp). destruct (Hp pa p Ep) as (Hpo & _).
  destruct (piperead_pass_spec (u me) (killed me) me pa addr n (mkPworld (k_table k) (k_pages k) (k_pipes k)) p Hok Hme Ep Hpo Hn) as (i & st & w' & p' & bs & Er & Haf & Hpo' & Hs & _).
  eapply pass_keeps; [by split; [|exists l]|exact Ep|exact Er|exact Haf|done|done|]. unfold on_pipes in Ek |- *. rewrite Er in Ek |- *. by injection Ek as <- <-.
Qed.
Lemma write_law me pa addr n k r k' :
  chan_is_proc me → kworld_ok k → 0 ≤ n < 2 ^ 31 → on_pipes (pipewrite_pass (u me) (λ _, killed me) me pa addr n 0) k = Some (r, k') → kworld_ok k' ∧ ∀ q e, kworld_end k' q e = kworld_end k q e.
Proof.
  intros Hme Hk Hn Ek. destruct (k_pipes k !! pa) as [p|] eqn:Ep; [|unfold on_pipes, pipewrite_pass, the_pipe, mbind, M_bind in Ek; cbn [pipes] in Ek; by rewrite Ep in Ek].
  destruct Hk as (Hok & l & Hl & Hp). destruct (Hp pa p Ep) as (Hpo & _).
  destruct (write_loop_spec (u me) (λ _, killed me) me pa addr n (Z.to_nat (n - 0)) 0 (mkPworld (k_table k) (k_pages k) (k_pipes k)) p Hok Hme Ep Hpo ltac:(lia) eq_refl)
    as (i & st & w' & p' & Er & Haf & Hpo' & Hs & _).
  assert (pipewrite_pass (u me) (λ _, killed me) me pa addr n 0 (mkPworld (k_table k) (k_pages k) (k_pipes k)) = Some ((i, st), w')) as Ew.
  { unfold pipewrite_pass. by rewrite (the_pipe_eq _ p) by done. }
  eapply pass_keeps; [by split; [|exists l]|exact Ep|exact Ew|exact Haf|done|done|]. unfold on_pipes in Ek |- *. rewrite Ew in Ek |- *. by injection Ek as <- <-.
Qed.

(** The console leaves pipes alone. *)
Lemma cons_keeps {A} (m : M (cworld S) A) k a k' :
  preserves (λ x, chan_ok (ctable x)) m → kworld_ok k → on_cons m k = Some (a, k') → kworld_ok k' ∧ ∀ q e, kworld_end k' q e = kworld_end k q e.
Proof.
  intros Hm (Hok & l & Hl & Hp). unfold on_cons. destruct (m _) as [[b w]|] eqn:Em; [|done]. intros [= -> <-]. split; [|done].
  split; [|by exists l]. eapply Hm; [|exact Em]. exact Hok.
Qed.
Lemma consoleread_keeps me target n : chan_is_proc me → preserves (λ x : cworld S, chan_ok (ctable x)) (consoleread_pass cons_r (killed me) me (copyout_ok me) target n).
Proof.
  intros Hme. assert (∀ c, preserves (λ x : cworld S, chan_ok (ctable x)) (set_dev c)) as Hdev by (intros c; by apply preserves_modify).
  assert (preserves (λ x : cworld S, chan_ok (ctable x)) (on_ctable (chan_prepare me (chan_cons cons_r)))) as Hprep.
  { intros x a x' Hx. unfold on_ctable. destruct (chan_prepare_spec me (chan_cons cons_r) _ Hx Hme) as (s' & E & Hs & _). rewrite E. by intros [= _ <-]. }
  induction n as [|n IH]; cbn [consoleread_pass]; preserve; try apply Hdev; try apply Hprep; try apply IH. all: unfold when; preserve; apply Hdev.
Qed.
Lemma consolewrite_keeps ec n : preserves (λ x : cworld S, chan_ok (ctable x)) (consolewrite ec n).
Proof.
  unfold consolewrite. generalize 0 at 1. induction (Datatypes.S (Z.to_nat n)) as [|fuel IH]; intros i; cbn [consolewrite_loop]; preserve; try apply IH.
  by apply preserves_modify.
Qed.

(** [pipe.c] and [console.c] keep the laws of the file layer. *)
Definition kworld_laws : @FileLaws (kworld S) (kworld_ops kernel_end cons_r u killed copyout_ok either_copyin).
Proof.
  refine {| is_caller := chan_is_proc; rest_ok := kworld_ok : kworld S → Prop; open_end := kworld_end : kworld S → Z → bool → bool |}.
  - exact new_law.
  - exact close_law.
  - intros me pa addr n k r k' Hme Hk Hn Ek. cbn [pipe_read kworld_ops] in Ek. apply bind_Some in Ek as (x & k1 & E1 & E2). destruct (read_law _ _ _ _ _ _ _ Hme Hk Hn E1) as [H1 H2].
    destruct (x.2); [| |done]; injection E2 as _ <-; done.
  - intros me pa addr n k r k' Hme Hk Hn Ek. cbn [pipe_write kworld_ops] in Ek. apply bind_Some in Ek as (x & k1 & E1 & E2). destruct (write_law _ _ _ _ _ _ _ Hme Hk Hn E1) as [H1 H2].
    destruct (x.2); [| |done]; injection E2 as _ <-; done.
  - intros me d rd addr n k r k' Hme Hd Hk Hn Ek. cbn [dev_read kworld_ops] in Hd. destruct (d =? CONSOLE); [|done]. injection Hd as <-. apply bind_Some in Ek as (x & k1 & E1 & E2).
    destruct (cons_keeps _ _ _ _ (consoleread_keeps _ _ _ Hme) Hk E1) as [H1 H2]. destruct (x.2); [| |done]; injection E2 as _ <-; done.
  - intros me d wr addr n k r k' Hme Hd Hk Hn Ek. cbn [dev_write kworld_ops] in Hd. destruct (d =? CONSOLE); [|done]. injection Hd as <-.
    exact (cons_keeps _ _ _ _ (consolewrite_keeps _ _) Hk Ek).
Defined.
End laws.
