(* ===== verification/FileRun.v ===== *)
(** Programs that open, share and close files: the counts of references are
    right after any sequence of system calls. *)
From stdpp Require Import gmultiset.
From S2P Require Import Prelude Kalloc Proc ProcSync Pipe Console Fs FsBlock FsFile FsRw FsDir SysFs FsRef File FileInv FileCalls KFiles.

(** ** Counting *)

Lemma msum_count {A B} `{Countable B} (g : A → gmultiset B) b (Q : A → Prop) `{!∀ a, Decision (Q a)} l :
  (∀ a, multiplicity b (g a) = if decide (Q a) then 1 else 0)%nat → multiplicity b (msum g l) = length (filter Q l).
Proof.
  intros Hg. induction l as [|a l IH]; [done|]. change (msum g (a :: l)) with (g a ⊎ msum g l). rewrite multiplicity_disj_union, Hg, IH, filter_cons.
  by destruct (decide (Q a)).
Qed.
Lemma msum_concat {A B} `{Countable B} (g : A → gmultiset B) (ls : list (list A)) : msum (msum g) ls = msum g (concat ls).
Proof.
  induction ls as [|l ls IH]; [done|]. change (msum (msum g) (l :: ls)) with (msum g l ⊎ msum (msum g) ls). rewrite IH. cbn [concat]. clear IH.
  induction l as [|a l IHl]; [apply (left_id_L ∅ (⊎))|]. change (msum g (a :: l)) with (g a ⊎ msum g l). change (msum g ((a :: l) ++ concat ls)) with (g a ⊎ msum g (l ++ concat ls)).
  by rewrite <-(assoc_L (⊎)), IHl.
Qed.
Lemma count_ext {A} (Q : A → Prop) `{!∀ a, Decision (Q a)} l : length (filter Q l) = 0%nat ↔ ∀ a, a ∈ l → ¬ Q a.
Proof.
  rewrite length_zero_iff_nil. split.
  - intros E a Ha HQ. assert (a ∈ filter Q l) as Hin by (by apply list_elem_of_filter). rewrite E in Hin. by apply elem_of_nil in Hin.
  - intros Hn. destruct (filter Q l) as [|a r] eqn:E; [done|]. assert (a ∈ filter Q l) as [HQ Ha]%list_elem_of_filter by (rewrite E; left). by destruct (Hn a Ha).
Qed.

Section run.
Context {P : Type} `{FileLaws P} (sb : superblock).
Implicit Types (x : fworld P).

(** The descriptors for [f]; the files open on inode [i]; the processes in directory [i]. *)
Definition descriptors x (f : nat) : nat := length (filter (λ o, o = Some f) (concat (ofile <$> fprocs x))).
Definition opens x (i : nat) : nat := length (filter (λ fl, (f_type fl = FD_INODE ∨ f_type fl = FD_DEVICE) ∧ f_ip fl = i) (ftable x)).
Definition cwds x (i : nat) : nat := length (filter (λ p, pcwd p = Some i) (fprocs x)).
Definition pipe_files x (q : Z) (e : bool) : nat := length (filter (λ fl, f_type fl = FD_PIPE ∧ f_pipe fl = q ∧ writable fl = e) (ftable x)).

(** A system call on files by some process, whatever its arguments and its memory. *)
Inductive step : fworld P → fworld P → Prop :=
  | st_dup me fd x r x' : sys_dup me fd x = Some (r, x') → step x x'
  | st_read cok me fd addr n x r x' : is_caller me → n < 2 ^ 31 → sys_read sb cok me fd addr n x = Some (r, x') → step x x'
  | st_write cin me fd addr n x r x' : is_caller me → n < 2 ^ 31 → sys_write sb cin me fd addr n x = Some (r, x') → step x x'
  | st_close me fd x r x' : sys_close sb me fd x = Some (r, x') → step x x'
  | st_fstat cok me fd addr x r x' : sys_fstat sb cok me fd addr x = Some (r, x') → step x x'
  | st_link me old new x r x' : sys_link sb me old new x = Some (r, x') → step x x'
  | st_unlink me path x r x' : sys_unlink sb me path x = Some (r, x') → step x x'
  | st_open me path omode x r x' : sys_open sb me path omode x = Some (r, x') → step x x'
  | st_mkdir me path x r x' : sys_mkdir sb me path x = Some (r, x') → step x x'
  | st_mknod me path ma mi x r x' : sys_mknod sb me path ma mi x = Some (r, x') → step x x'
  | st_chdir me path x r x' : sys_chdir sb me path x = Some (r, x') → step x x'
  | st_pipe cok me fdarray x r x' : sys_pipe sb cok me fdarray x = Some (r, x') → step x x'
  | st_fork me child np x r x' : me ≠ child → fprocs x !! child = Some np → fresh_proc 0 np → fork_files me child x = Some (r, x') → step x x'
  | st_exit me x r x' : exit_files sb me x = Some (r, x') → step x x'.

(** No file is open; one process has the root directory [root]. *)
Definition closed_file : file := mkFile FD_NONE 0 false false 0 0 0 0.
Definition no_files (c : option nat) : pfiles := mkPfiles (replicate NOFILE None) c.
Record booted x (root : nat) : Prop := {
  bo_files : ftable x = replicate NFILE closed_file;
  bo_procs : ∃ n, fprocs x = no_files (Some root) :: replicate n (no_files None);
  bo_inodes : (root < length (itable (ffs x)))%nat ∧ ∀ i p, itable (ffs x) !! i = Some p → locked p = false ∧ ref p = if decide (i = root) then 1 else 0;
  bo_rest : rest_ok (rest x) ∧ ∀ q e, open_end (rest x) q e = false;
  bo_outs : outs x = 0;
}.

Lemma msum_none {A B} `{Countable B} (g : A → gmultiset B) n a : g a = ∅ → msum g (replicate n a) = ∅.
Proof. intros E. induction n as [|n IH]; [done|]. change (msum g (replicate (S n) a)) with (g a ⊎ msum g (replicate n a)). rewrite E, IH. apply (left_id_L ∅ (⊎)). Qed.
Lemma booted_wf x root : booted x root → wf x ∅ ∅ ∅ ∅ 0.
Proof.
  intros [Hf (n & Hp) [Hr Hi] [Hro He] Ho].
  assert (∀ c, desc_of (no_files c) = ∅) as Hd by (intros c; by apply (msum_none _ NOFILE)).
  assert (msum desc_of (fprocs x) = ∅) as EqD.
  { rewrite Hp. change (desc_of (no_files (Some root)) ⊎ msum desc_of (replicate n (no_files None)) = ∅). rewrite Hd, (left_id_L ∅ (⊎)). by apply msum_none. }
  assert (msum cwd_of (fprocs x) = rf root) as EqC.
  { rewrite Hp. change (rf root ⊎ msum cwd_of (replicate n (no_files None)) = rf root). rewrite msum_none by done. apply (right_id_L ∅ (⊎)). }
  split; try done.
  - by rewrite Hf, length_replicate.
  - rewrite Hp. constructor; [apply length_replicate|]. apply Forall_replicate. apply length_replicate.
  - intros f. rewrite EqD, Hf. destruct (replicate NFILE closed_file !! f) as [fl|] eqn:E; [|done]. by apply lookup_replicate in E as [-> _].
  - intros f fl E. rewrite Hf in E. apply lookup_replicate in E as [-> _]. split; [done|]. by left.
  - rewrite EqC, Hf. assert (msum inode_of (replicate NFILE closed_file) = ∅) as -> by (by apply msum_none). rewrite !(left_id_L ∅ (⊎)). intros i. rewrite mult_rf_l, mult_rf_r.
    destruct (itable (ffs x) !! i) as [p|] eqn:E.
    + destruct (Hi i p E) as [-> ->]. split; [by destruct (decide (i = root))|done].
    + split; [|done]. destruct (decide (i = root)) as [->|]; [|done]. apply lookup_ge_None in E. lia.
  - intros q e. rewrite He, Hf. assert (msum end_of (replicate NFILE closed_file) = ∅) as -> by (by apply msum_none). done.
Qed.

Lemma step_wf x x' : wf x ∅ ∅ ∅ ∅ 0 → step x x' → wf x' ∅ ∅ ∅ ∅ 0.
Proof.
  intros Hw Hs. destruct Hs.
  - by eapply idle_sys_dup.
  - by eapply still_read.
  - by eapply still_write.
  - by eapply idle_sys_close.
  - by eapply still_fstat.
  - by eapply still_link.
  - by eapply still_unlink.
  - by eapply idle_sys_open.
  - by eapply still_mkdir.
  - by eapply still_mknod.
  - by eapply still_chdir.
  - by eapply idle_sys_pipe.
  - by eapply (idle_fork me child).
  - by eapply idle_exit.
Qed.

(** ** What the invariant says *)

Lemma wf_descriptors x f : multiplicity f (∅ ⊎ msum desc_of (fprocs x)) = descriptors x f.
Proof.
  rewrite (left_id_L ∅ (⊎)). unfold descriptors. rewrite <-(msum_count od f (λ o, o = Some f)).
  - rewrite <-msum_concat. f_equal. generalize (fprocs x). intros l. induction l as [|p l IH]; [done|]. change (desc_of p ⊎ msum desc_of l = msum od (ofile p) ⊎ msum (msum od) (ofile <$> l)). by rewrite IH.
  - intros [g|]; cbn [od]; [|done]. rewrite mult_single. repeat case_decide; congruence.
Qed.
Lemma wf_opens x i : multiplicity (inl i) (msum inode_of (ftable x)) = opens x i.
Proof.
  apply msum_count. intros fl. unfold inode_of. destruct (f_type fl); rewrite ?mult_rf_l; repeat case_decide; naive_solver.
Qed.
Lemma wf_cwds x i : multiplicity (inl i) (msum cwd_of (fprocs x)) = cwds x i.
Proof. apply msum_count. intros p. unfold cwd_of. destruct (pcwd p); rewrite ?mult_rf_l; repeat case_decide; naive_solver. Qed.
Lemma wf_locks x i : multiplicity (inr i) (msum inode_of (ftable x) ⊎ msum cwd_of (fprocs x)) = 0%nat.
Proof.
  rewrite multiplicity_disj_union, (msum_count inode_of (inr i) (λ _, False)), (msum_count cwd_of (inr i) (λ _, False)).
  - rewrite !(proj2 (count_ext _ _)); [done|naive_solver|naive_solver].
  - intros p. unfold cwd_of. destruct (pcwd p); [apply mult_rf_r|done].
  - intros fl. unfold inode_of. destruct (f_type fl); [done|done|apply mult_rf_r|apply mult_rf_r].
Qed.
Lemma wf_pipe_files x q e : multiplicity (q, e) (∅ ⊎ msum end_of (ftable x)) = pipe_files x q e.
Proof.
  rewrite (left_id_L ∅ (⊎)). apply msum_count. intros fl. unfold end_of. destruct (f_type fl); rewrite ?mult_single; repeat case_decide; naive_solver.
Qed.
Lemma has_descriptor x me p fd f : fprocs x !! me = Some p → ofile p !! fd = Some (Some f) → descriptors x f ≠ 0%nat.
Proof.
  intros Hp Hf Hz. unfold descriptors in Hz. rewrite count_ext in Hz. apply (Hz (Some f)); [|done]. apply list_elem_of_In, in_concat. exists (ofile p).
  split; apply list_elem_of_In; [apply list_elem_of_fmap; exists p; split; [done|]|]; by eapply list_elem_of_lookup_2.
Qed.
(** A descriptor can be duplicated: its file is open. *)
Lemma dup_returns x me fd : wf x ∅ ∅ ∅ ∅ 0 → (me < length (fprocs x))%nat → ∃ r x', sys_dup me fd x = Some (r, x').
Proof.
  intros Hw Hme. apply lookup_lt_is_Some in Hme as [p Hp]. unfold sys_dup, argfd. destruct ((fd <? 0) || _) eqn:Efd; [by eexists _, _|].
  apply orb_false_iff in Efd as [H1%Z.ltb_ge H2%Z.leb_gt]. pose proof (fds_length _ _ _ _ _ _ _ _ Hw Hp) as Hl.
  assert (the_proc me x = Some (p, x)) as Ep by (unfold the_proc; by rewrite Hp). rewrite bind_assoc, (bind_eq _ _ _ _ _ Ep).
  destruct (lookup_lt_is_Some_2 (ofile p) (Z.to_nat fd) ltac:(lia)) as [[f|] Hf]; rewrite Hf; [|by eexists _, _].
  rewrite (bind_eq _ _ _ _ _ eq_refl). unfold fdalloc. rewrite bind_assoc, (bind_eq _ _ _ _ _ Ep).
  destruct (find_index _ (ofile p) 0) as [j|]; [|by eexists _, _]. set (x1 := mkFworld (ftable x) (<[me := mkPfiles (<[j := Some f]> (ofile p)) (pcwd p)]> (fprocs x)) (ffs x) (outs x) (rest x)).
  assert ((set_ofile me j (Some f) ≫= λ _, mret (Some j)) x = Some (Some j, x1)) as Es by (unfold set_ofile; rewrite bind_assoc, (bind_eq _ _ _ _ _ Ep); done).
  rewrite (bind_eq _ _ _ _ _ Es). pose proof (w_ref _ _ _ _ _ _ Hw f) as Hr. rewrite wf_descriptors in Hr.
  pose proof (has_descriptor _ _ _ _ _ Hp Hf) as Hd. unfold filedup, the_file, upd_file. destruct (ftable x !! f) as [fl|] eqn:Ef; [|done].
  unfold mbind, M_bind. change (ftable x1) with (ftable x). rewrite Ef. rewrite (proj2 (Z.ltb_ge (f_ref fl) 1)) by lia. change (ftable x1) with (ftable x). rewrite Ef. by eexists _, _.
Qed.

(** C18: After any sequence of system calls on files, with forks and exits, by any
    processes: a descriptor refers to an open file; a file has as many
    references as descriptors and is closed exactly when it has none; an inode
    has as many references as there are files open on it and processes in it,
    and it is not locked; an end of a pipe is open exactly if one open file is
    for it, and no two are; no transaction is left open; and a descriptor can
    be duplicated without a panic. *)
Theorem references_counted x root x' :
  booted x root → rtc step x x' →
  (∀ me p fd f, fprocs x' !! me = Some p → ofile p !! fd = Some (Some f) → ∃ fl, ftable x' !! f = Some fl ∧ f_type fl ≠ FD_NONE) ∧
  (∀ f fl, ftable x' !! f = Some fl → f_ref fl = Z.of_nat (descriptors x' f) ∧ (f_type fl = FD_NONE ↔ descriptors x' f = 0%nat)) ∧
  (∀ i p, itable (ffs x') !! i = Some p → ref p = Z.of_nat (opens x' i + cwds x' i) ∧ locked p = false) ∧
  (∀ q e, pipe_files x' q e = if open_end (rest x') q e then 1 else 0)%nat ∧
  outs x' = 0 ∧ (∀ me fd, (me < length (fprocs x'))%nat → ∃ r x'', sys_dup me fd x' = Some (r, x'')).
Proof.
  intros Hb Hs. assert (wf x' ∅ ∅ ∅ ∅ 0) as Hw.
  { apply booted_wf in Hb. revert Hb. induction Hs as [|x y z Hxy _ IH]; [done|]. intros Hb. apply IH. by eapply step_wf. }
  assert (∀ f fl, ftable x' !! f = Some fl → f_ref fl = Z.of_nat (descriptors x' f) ∧ (f_type fl = FD_NONE ↔ descriptors x' f = 0%nat)) as Hfl.
  { intros f fl Hf. pose proof (w_ref _ _ _ _ _ _ Hw f) as Hr. rewrite Hf, wf_descriptors in Hr. split; [done|].
    destruct (w_type _ _ _ _ _ _ Hw f fl Hf) as [H1 H2]. split; [|intros; apply H1; lia]. intros Ht. destruct (H2 Ht) as [?|?%not_elem_of_empty]; [lia|done]. }
  split_and!; [|done| | |apply Hw|intros; by apply dup_returns].
  - intros me p fd f Hp Hf. pose proof (has_descriptor _ _ _ _ _ Hp Hf) as Hd. pose proof (w_ref _ _ _ _ _ _ Hw f) as Hr. rewrite wf_descriptors in Hr.
    destruct (ftable x' !! f) as [fl|] eqn:Ef; [|done]. exists fl. split; [done|]. intros Ht. by apply Hd, (Hfl f fl Ef).
  - intros i p Hi. pose proof (w_inodes _ _ _ _ _ _ Hw i) as Ho. rewrite Hi, (left_id_L ∅ (⊎)), wf_locks in Ho. destruct Ho as [Hr Hl].
    rewrite multiplicity_disj_union, wf_opens, wf_cwds in Hr. split; [done|]. by destruct (locked p).
  - intros q e. rewrite <-wf_pipe_files. apply Hw.
Qed.
End run.

(** ** A run *)

(** One free page, no pipe, two processes; the root directory is inode 3. *)
Definition run_end : Z := PHYSTOP - PGSIZE.
Definition run_pages : kmem := match kinit run_end (mkKmem 0 ∅) with Some (_, s) => s | None => mkKmem 0 ∅ end.
Definition run_kworld : kworld (kstate unit) :=
  mkKworld (table demo_world) run_pages ∅ (mkCons (replicate (Z.to_nat INPUT_BUF_SIZE) 0) 0 0 0) [].
Definition run_root : inode := mkInode 1 3 1 false true T_DIR 0 0 1 0 (replicate 13 0).
Definition run_unused : inode := mkInode 0 0 0 false false 0 0 0 0 0 (replicate 13 0).
Definition run_start : fworld (kworld (kstate unit)) :=
  mkFworld (replicate NFILE closed_file) [no_files (Some 0%nat); no_files None] (mkFsw demo_blocks [run_root; run_unused; run_unused]) 0 run_kworld.

Definition run_ops : FileOps (kworld (kstate unit)) :=
  kworld_ops (U := gmap Z ascii) run_end 0 (λ _, demo_user) (λ _, false) (λ _ _, true) (λ _ _ _ _, None).
Lemma run_end_ok : 0 < run_end < PHYSTOP.
Proof. by vm_compute. Qed.
Definition run_laws : @FileLaws (kworld (kstate unit)) run_ops :=
  kworld_laws run_end run_end_ok 0 (λ _, demo_user) (λ _, false) (λ _ _, true) (λ _ _ _ _, None).

Lemma run_booted : @booted _ run_ops run_laws run_start 0.
Proof.
  split; try done.
  - by exists 1%nat.
  - split; [cbn; lia|]. intros i p Hi. cbn [run_start ffs itable] in Hi. destruct i as [|[|[|i]]]; [injection Hi as <-; done..|done].
  - split; [|done]. split; [done|]. destruct (kinit_spec run_end run_end_ok (mkKmem 0 ∅) eq_refl) as (s' & E & Hk).
    exists (reverse (all_pages run_end)). split; [|intros pa p Hp; done]. cbn [run_start rest run_kworld k_pages]. unfold run_pages. by rewrite E.
Qed.

(** Process 0 creates a file "a", makes a pipe, forks, and the child closes the
    end of the pipe that it does not use. *)
Definition after_call {A} (o : option (A * fworld (kworld (kstate unit)))) : fworld (kworld (kstate unit)) :=
  match o with Some (_, x) => x | None => run_start end.
#[local] Existing Instance run_ops.
#[local] Existing Instance run_laws.
Definition run1 := after_call (sys_open demo_sb 0 (Some [97]) (Z.lor O_CREATE O_RDWR) run_start).
Definition run2 := after_call (sys_pipe demo_sb (λ _ _, true) 0 0 run1).
Definition run3 := after_call (fork_files 0 1 run2).
Definition run4 := after_call (sys_close demo_sb 1 2 run3).

Lemma references_counted_witness :
  descriptors run4 0 = 2%nat ∧ descriptors run4 2 = 1%nat ∧ ∃ fl, ftable run4 !! 0%nat = Some fl ∧ f_ref fl = 2.
Proof.
  assert (rtc (step demo_sb) run_start run4) as Hs.
  { apply (rtc_l _ _ run1); [eapply (st_open demo_sb 0 (Some [97]) (Z.lor O_CREATE O_RDWR) _ 0); vm_compute; reflexivity|].
    apply (rtc_l _ _ run2); [eapply (st_pipe demo_sb (λ _ _, true) 0 0 _ (0, Some (1%nat, 2%nat))); vm_compute; reflexivity|].
    apply (rtc_l _ _ run3); [eapply (st_fork demo_sb 0 1 (no_files None) _ ()); [done|vm_compute; reflexivity| |vm_compute; reflexivity]|].
    { split; [done|]. intros j Hj. cbn [no_files ofile]. apply lookup_replicate_2. lia. }
    apply (rtc_l _ _ run4); [eapply (st_close demo_sb 1 2 _ 0); vm_compute; reflexivity|]. apply rtc_refl. }
  destruct (references_counted demo_sb run_start 0 run4 run_booted Hs) as (_ & Hf & _).
  split; [by vm_compute|]. split; [by vm_compute|]. destruct (ftable run4 !! 0%nat) as [fl|] eqn:E; [|by vm_compute in E].
  exists fl. split; [done|]. destruct (Hf 0%nat fl E) as [-> _]. by vm_compute.
Defined.
