(* ===== verification/Exec.v ===== *)
(** Running a program: [xv6/kernel/exec.c], with the page table of a process
    ([proc_pagetable] and [proc_freepagetable] of [proc.c]).

    The state has the file system, memory and what the call changes of the
    process. As in [File], nothing may be written to the disk outside of a
    transaction. A program is loaded from the bytes of its file; a C string is
    the list of its characters without the final NUL. *)
From S2P Require Import Prelude Kalloc Proc Vm VmBytes Fs FsBlock FsFile FsRw FsDir.

(** ** ELF files: [elf.h] *)

Definition ELF_MAGIC : Z := 0x464C457F.
Definition ELF_PROG_LOAD : Z := 1.
Definition EH_SIZE : Z := 64.
Definition PH_SIZE : Z := 56.
Definition get_u64 (o : Z) (bs : list Z) : Z := le_dec (slice o 8 bs).
(** The fields that are used. *)
Record elfhdr := mkElf { e_magic : Z; e_entry : Z; e_phoff : Z; e_phnum : Z }.
Definition get_elf (bs : list Z) : elfhdr :=
  mkElf (get_uint 0 bs) (get_u64 24 bs) (get_u64 32 bs) (le_dec (slice 56 2 bs)).
Record proghdr := mkPh { ph_type : Z; ph_flags : Z; ph_off : Z; ph_vaddr : Z; ph_filesz : Z; ph_memsz : Z }.
Definition get_ph (bs : list Z) : proghdr :=
  mkPh (get_uint 0 bs) (get_uint 4 bs) (get_u64 8 bs) (get_u64 16 bs) (get_u64 32 bs) (get_u64 40 bs).

Definition USERSTACK : Z := 1.
Definition MAXARG : Z := 32.
Definition flags2perm (flags : Z) : Z :=
  let perm := if Z.testbit flags 0 then PTE_X else 0 in
  if Z.testbit flags 1 then Z.lor perm PTE_W else perm.

(** Of the process: its page table and size, its trapframe page, the registers
    that are set in it, and its name. *)
Record eproc := mkEproc { x_pagetable : Z; x_sz : Z; x_trapframe : Z; x_a1 : Z; x_epc : Z; x_sp : Z; x_name : list Z }.
Record eworld (A : Type) := mkEworld { e_fs : fsw; e_outs : Z; e_vm : vworld A; e_proc : eproc }.
Arguments mkEworld {A}.
Arguments e_fs {A}.
Arguments e_outs {A}.
Arguments e_vm {A}.
Arguments e_proc {A}.

(** ** proc.c *)
Section pagetable.
Context {A : Type} `{PageAlloc A} (trampoline : Z).
Abbreviation vm := (M (vworld A)).

Definition proc_pagetable (tf : Z) : vm Z :=
  pt ← uvmcreate;
  if pt =? 0 then mret 0
  else
    r ← mappages pt TRAMPOLINE PGSIZE trampoline (Z.lor PTE_R PTE_X);
    if r <? 0 then uvmfree pt 0;; mret 0
    else
      r ← mappages pt TRAPFRAME PGSIZE tf (Z.lor PTE_R PTE_W);
      if r <? 0 then uvmunmap pt TRAMPOLINE 1 false;; uvmfree pt 0;; mret 0
      else mret pt.
Definition proc_freepagetable (pt sz : Z) : vm unit :=
  uvmunmap pt TRAMPOLINE 1 false;;
  uvmunmap pt TRAPFRAME 1 false;;
  uvmfree pt sz.
End pagetable.

(** ** exec.c *)
Section exec.
Context {A : Type} `{PageAlloc A} (sb : superblock) (trampoline : Z).
Abbreviation em := (M (eworld A)).

Definition on_fs {B} (m : fs B) : em B := λ x,
  match m (e_fs x) with
  | Some (a, w) =>
    if (e_outs x <? 1) && negb (bool_decide (blk w = blk (e_fs x))) then None
    else Some (a, mkEworld w (e_outs x) (e_vm x) (e_proc x))
  | None => None
  end.
Definition on_vm {B} (m : M (vworld A) B) : em B := λ x,
  match m (e_vm x) with
  | Some (a, w) => Some (a, mkEworld (e_fs x) (e_outs x) w (e_proc x))
  | None => None
  end.
Definition begin_op : em unit := modify (λ x, mkEworld (e_fs x) (e_outs x + 1) (e_vm x) (e_proc x)).
Definition end_op : em unit := modify (λ x, mkEworld (e_fs x) (e_outs x - 1) (e_vm x) (e_proc x)).

(** [readi] into a buffer of the kernel: the bytes, if there are [n] of them. *)
Definition read_at (ip : nat) (off n : Z) : em (option (list Z)) :=
  r ← on_fs (readi sb (λ _ _, true) ip off n);
  mret (if r.1 =? n then Some r.2 else None).

(** The loop of [loadseg]: [readi] copies into the page. *)
Fixpoint loadseg_loop (fuel : nat) (pt va : Z) (ip : nat) (offset sz i : Z) : em Z :=
  match fuel with
  | O => stuck
  | S fuel =>
    if i <? sz then
      pa ← on_vm (walkaddr pt (u64 (va + i)));
      if pa =? 0 then stuck
      else
        let n := if sz - i <? PGSIZE then sz - i else PGSIZE in
        r ← on_fs (readi sb (λ _ _, true) ip (u32 (offset + i)) n);
        on_vm (store_bytes pa 0 r.2);;
        if negb (r.1 =? n) then mret (-1)
        else loadseg_loop fuel pt va ip offset sz (u32 (i + PGSIZE))
    else mret 0
  end.
Definition loadseg (pt va : Z) (ip : nat) (offset sz : Z) : em Z :=
  loadseg_loop (S (Z.to_nat (sz / PGSIZE + 1))) pt va ip offset sz 0.

(** The loop over the [n] program headers that are left: the size that is
    reached, and whether there was no error. *)
Fixpoint load_loop (n : nat) (pt : Z) (ip : nat) (off sz : Z) : em (Z * bool) :=
  match n with
  | O => mret (sz, true)
  | S n =>
    o ← read_at ip (u32 off) PH_SIZE;
    match o with
    | None => mret (sz, false)
    | Some bs =>
      let ph := get_ph bs in
      let next := int32 (off + PH_SIZE) in
      if negb (ph_type ph =? ELF_PROG_LOAD) then load_loop n pt ip next sz
      else if ph_memsz ph <? ph_filesz ph then mret (sz, false)
      else if u64 (ph_vaddr ph + ph_memsz ph) <? ph_vaddr ph then mret (sz, false)
      else if negb (ph_vaddr ph mod PGSIZE =? 0) then mret (sz, false)
      else
        sz1 ← on_vm (uvmalloc pt sz (u64 (ph_vaddr ph + ph_memsz ph)) (flags2perm (ph_flags ph)));
        if sz1 =? 0 then mret (sz, false)
        else
          r ← loadseg pt (ph_vaddr ph) ip (u32 (ph_off ph)) (u32 (ph_filesz ph));
          if r <? 0 then mret (sz1, false) else load_loop n pt ip next sz1
    end
  end.

(** [ustack[argc] = v], in an array of [MAXARG]. *)
Definition ustack_put (ustack : list Z) (v : Z) : option (list Z) :=
  if Z.of_nat (length ustack) <? MAXARG then Some (ustack ++ [v]) else None.
(** The loop that copies the argument strings to the stack: the stack pointer
    and [ustack]. *)
Fixpoint push_args (pt sz stackbase : Z) (argv : list (list Z)) (sp : Z) (ustack : list Z) : em (option (Z * list Z)) :=
  match argv with
  | [] => mret (Some (sp, ustack))
  | s :: argv =>
    let sp := u64 (sp - (Z.of_nat (length s) + 1)) in
    let sp := sp - sp mod 16 in
    if sp <? stackbase then mret None
    else
      r ← on_vm (copyout (S (S (length s))) pt sz sp (s ++ [0]));
      if r <? 0 then mret None
      else match ustack_put ustack sp with
           | Some ustack => push_args pt sz stackbase argv sp ustack
           | None => stuck
           end
  end.

(** What follows the last slash. *)
Fixpoint last_elem (last s : list Z) : list Z :=
  match s with
  | [] => last
  | c :: s => if c =? 47 then last_elem s s else last_elem last s
  end.

(** [kexec] after the file is closed: the stack, and the commit. *)
Definition exec_stack (path : list Z) (argv : list (list Z)) (entry pt sz : Z) : em Z :=
  let bad sz := on_vm (proc_freepagetable pt sz);; mret (-1) in
  let sz := PGROUNDUP sz in
  sz1 ← on_vm (uvmalloc pt sz (u64 (sz + (USERSTACK + 1) * PGSIZE)) PTE_W);
  if sz1 =? 0 then bad sz
  else
    on_vm (uvmclear pt (u64 (sz1 - (USERSTACK + 1) * PGSIZE)));;
    let stackbase := u64 (sz1 - USERSTACK * PGSIZE) in
    o ← push_args pt sz1 stackbase argv sz1 [];
    match o with
    | None => bad sz1
    | Some (sp, ustack) =>
     let argc := Z.of_nat (length ustack) in
     match ustack_put ustack 0 with
     | None => stuck
     | Some ustack =>
      let sp := u64 (sp - (argc + 1) * 8) in
      let sp := sp - sp mod 16 in
      if sp <? stackbase then bad sz1
      else
        let bytes := concat (le_enc 8 <$> ustack) in
        r ← on_vm (copyout (S (length bytes)) pt sz1 sp bytes);
        if r <? 0 then bad sz1
        else
          p ← gets e_proc;
          modify (λ x, mkEworld (e_fs x) (e_outs x) (e_vm x)
            (mkEproc pt sz1 (x_trapframe p) sp entry sp (take 15 (last_elem path path))));;
          on_vm (proc_freepagetable (x_pagetable p) (x_sz p));;
          mret argc
     end
    end.

Definition kexec (cwd : nat) (path : list Z) (argv : list (list Z)) : em Z :=
  begin_op;;
  o ← on_fs (namei sb cwd path);
  match o with
  | None => end_op;; mret (-1)
  | Some (ip, _) =>
    let bad := on_fs (iunlockput sb ip);; end_op;; mret (-1) in
    on_fs (ilock sb ip);;
    o ← read_at ip 0 EH_SIZE;
    match o with
    | None => bad
    | Some bs =>
      let elf := get_elf bs in
      if negb (e_magic elf =? ELF_MAGIC) then bad
      else
        p ← gets e_proc;
        pt ← on_vm (proc_pagetable trampoline (x_trapframe p));
        if pt =? 0 then bad
        else
          r ← load_loop (Z.to_nat (e_phnum elf)) pt ip (int32 (e_phoff elf)) 0;
          if negb r.2 then on_vm (proc_freepagetable pt r.1);; bad
          else
            on_fs (iunlockput sb ip);;
            end_op;;
            exec_stack path argv (e_entry elf) pt r.1
    end
  end.
End exec.
