(* ===== verification/ExecSpace.v ===== *)
(** The address space of a process: making it and taking it down, and running
    out of memory while it grows ([proc.c], [vm.c]). *)
From S2P Require Import Prelude Kalloc Proc Vm VmSpec VmUser VmAlloc VmKmem VmLife VmBytes VmCopyio Fs FsBlock FsFile FsRw FsDir Exec.

(** The first page number above user memory. *)
Definition lim : Z := TRAPFRAME / PGSIZE.
Abbreviation user := (user_page_no lim).

Section space.
Context {A : Type} `{PageAlloc A} (trampoline : Z) (Htramp : 0 ≤ trampoline < 2 ^ 56).
Implicit Types (w : vworld A) (T : tree) (F : gset Z).

(** Unmapping a page that is not freed. *)
Lemma unmap_keep w F T va :
  vm_inv w F T → 0 ≤ va → va mod PGSIZE = 0 → va + PGSIZE ≤ MAXVA →
  (∀ e, L T !! (va / PGSIZE) = Some e → Z.testbit e 0 = true) →
  ∃ w', uvmunmap (root T) va 1 false w = Some ((), w') ∧ vm_inv w' F (without (va / PGSIZE) T) ∧ frame w w' F T.
Proof.
  intros Hinv Hva Hal Hmax Hbit. unfold uvmunmap. rewrite Hal. change (negb (0 =? 0)) with false. cbn iota.
  rewrite Z.mul_1_l, u64_id by (unfold MAXVA, PGSIZE in *; lia). change (S (Z.to_nat 1)) with 2%nat.
  rewrite unmap_loop_S, (proj2 (Z.ltb_lt va _)) by (unfold PGSIZE; lia).
  assert (∃ w', unmap_one (root T) va false w = Some ((), w') ∧ vm_inv w' F (without (va / PGSIZE) T) ∧ frame w w' F T) as (w' & E & Hinv' & Hfr).
  { unfold unmap_one. pose proof (walk_entry w F T va Hinv ltac:(unfold PGSIZE in *; lia)) as Hw.
    destruct (leaves T !! (PX 2 va, PX 1 va)) as [p|] eqn:Ep; destruct Hw as [Ew El]; rewrite (bind_eq _ _ _ _ _ Ew).
    2:{ exists w. split_and!; [done| |by intros ???]. unfold without. rewrite delete_id by done. by destruct T. }
    rewrite (bind_eq _ _ _ _ _ El). destruct (L T !! (va / PGSIZE)) as [e|] eqn:Ee.
    - change (default 0 (Some e)) with e. rewrite (Hbit e eq_refl). cbn [when].
      destruct (store_leaf w F T (PX 2 va) (PX 1 va) (PX 0 va) p None Hinv Ep (PX_range 0 va ltac:(lia))) as (w' & E & Hinv' & Hfr & _).
      rewrite vpn_of_PX in Hinv' by (unfold PGSIZE in *; lia). exists w'. by rewrite (bind_eq _ _ _ () w) by done.
    - change (default 0 None) with 0. rewrite Z.bits_0. exists w. split_and!; [done| |by intros ???].
      unfold without. rewrite delete_id by done. by destruct T. }
  exists w'. split_and!; [|done|done]. rewrite (bind_eq _ _ _ _ _ E), u64_id by (unfold MAXVA, PGSIZE in *; lia).
  by rewrite unmap_loop_S, Z.ltb_irrefl.
Qed.

Lemma tramp_no : TRAMPOLINE / PGSIZE = lim + 1.
Proof. done. Qed.
Lemma lim_range n : user n ↔ 0 ≤ n < 2 ^ 26 - 2.
Proof. done. Qed.
Lemma PGROUNDUP_lim sz : 0 ≤ sz ≤ lim * PGSIZE → 0 ≤ PGROUNDUP sz / PGSIZE ≤ lim ∧ PGROUNDUP sz / PGSIZE * PGSIZE = PGROUNDUP sz ∧ sz ≤ PGROUNDUP sz < sz + PGSIZE.
Proof.
  change (lim * PGSIZE) with (67108862 * 4096). change lim with 67108862. unfold PGSIZE at 1.
  intros Hsz. destruct (PGROUNDUP_spec sz ltac:(lia)) as [H1 H2]. unfold PGSIZE in *.
  pose proof (Z.div_mod (PGROUNDUP sz) 4096 ltac:(lia)). lia.
Qed.

Lemma owns_without_kern F T n : owns F T user → owns F (without n T) user.
Proof.
  intros [H1 H2 H3 H4]. unfold without. split; cbn [set_L L]; setoid_rewrite lookup_delete_Some.
  - intros m e Hm [_ He]. by eapply H1.
  - intros m e Hm [_ He]. by eapply H2.
  - intros m e k Hm [_ He]. assert (addr (set_L (delete n (L T)) T) k = addr T k) as -> by by destruct k. by eapply H3.
  - intros m e m' e' Hm Hm' [_ He] [_ He']. by eapply H4.
Qed.
Lemma pages_without_kern F T n p : ¬ user n → pages_of user F (without n T) p ↔ pages_of user F T p.
Proof.
  intros Hn. unfold pages_of, mapped_by, without. cbn [set_L L]. assert (∀ k, addr (set_L (delete n (L T)) T) k = addr T k) as Ha by by intros [].
  setoid_rewrite Ha. split; (intros [?|[?|(m & e & Hm & He & ->)]]; [by left|by right; left|right; right; exists m, e; split_and!; try done]).
  - by apply lookup_delete_Some in He as [_ He].
  - apply lookup_delete_Some. split; [by intros ->|done].
Qed.

(** A whole address space of size [sz]: user memory below [sz], and the two
    pages above it that belong to the kernel. *)
Record space w F T (sz : Z) : Prop := {
  as_inv : vm_inv w F T;
  as_owns : owns F T user;
  as_sz : 0 ≤ sz ≤ lim * PGSIZE;
  as_low : ∀ n e, user n → L T !! n = Some e → n < PGROUNDUP sz / PGSIZE;
  as_kern : ∀ n e, ¬ user n → L T !! n = Some e →
    (n = TRAMPOLINE / PGSIZE ∨ n = TRAPFRAME / PGSIZE) ∧ Z.testbit e 0 = true ∧ Z.testbit e 4 = false;
}.

Lemma frame_pages w w' F T p : frame w w' F T → ¬ pages_of user F T p → words w' !! p = words w !! p.
Proof. intros Hf Hp. apply Hf; [intros ?; apply Hp; by left|intros n ?; apply Hp; right; left; by exists n]. Qed.

Lemma freepagetable_spec w F T sz :
  space w F T sz →
  ∃ w' F', proc_freepagetable (root T) sz w = Some ((), w') ∧ pa_ok (alloc w') F' ∧
    (∀ p, p ∈ F' ↔ pages_of user F T p) ∧ ∀ p, ¬ pages_of user F T p → words w' !! p = words w !! p.
Proof.
  intros [Hinv Hown Hsz Hlow Hk]. unfold proc_freepagetable.
  assert (¬ user (TRAMPOLINE / PGSIZE)) as N1 by (rewrite tramp_no; intros [_ ?]; lia).
  assert (¬ user (TRAPFRAME / PGSIZE)) as N2 by (intros [_ ?]; change (TRAPFRAME / PGSIZE) with lim in *; lia).
  destruct (unmap_keep w F T TRAMPOLINE Hinv) as (w1 & E1 & Hi1 & Hf1); [done..|intros e He; by apply (Hk _ e N1 He)|].
  rewrite (bind_eq _ _ _ _ _ E1). set (T1 := without (TRAMPOLINE / PGSIZE) T) in *. change (root T) with (root T1).
  destruct (unmap_keep w1 F T1 TRAPFRAME Hi1) as (w2 & E2 & Hi2 & Hf2); [done..| |].
  { unfold T1, without. cbn [set_L L]. intros e [_ He]%lookup_delete_Some. by apply (Hk _ e N2 He). }
  rewrite (bind_eq _ _ _ _ _ E2). set (T2 := without (TRAPFRAME / PGSIZE) T1) in *. change (root T1) with (root T2).
  destruct (PGROUNDUP_lim sz Hsz) as (Hr & _ & _).
  destruct (uvmfree_pages user w2 F T2 sz) as (w3 & F3 & E3 & Hok & HF & Hf3).
  - done.
  - by apply owns_without_kern, owns_without_kern.
  - change MAXVA with (lim * PGSIZE + 8192). lia.
  - intros n Hn. split; lia.
  - unfold T2, T1, without. cbn [set_L L]. intros n e [Hn1 [Hn2 He]%lookup_delete_Some]%lookup_delete_Some. destruct (decide (user n)) as [Hu|Hu].
    + split; [apply Hu|by eapply Hlow].
    + destruct (Hk n e Hu He) as [[-> | ->] _]; done.
  - exists w3, F3. assert (∀ p, pages_of user F T2 p ↔ pages_of user F T p) as Hp.
    { intros p. unfold T2, T1. by rewrite !pages_without_kern. }
    split_and!; [done|done|intros p; by rewrite HF, Hp|]. intros p Hno. rewrite Hf3 by (by rewrite Hp).
    rewrite (frame_pages _ _ _ _ _ Hf2) by (unfold T1; by rewrite pages_without_kern). by apply (frame_pages _ _ _ _ _ Hf1).
Qed.

(** No page of user memory is mapped. *)
Definition bare T : Prop := ∀ n e, user n → L T !! n ≠ Some e.
Lemma bare_owns F T : bare T → owns F T user.
Proof. intros Hb. split; intros n e; intros; by destruct (Hb n e). Qed.
Lemma bare_pages F T p : bare T → pages_of user F T p ↔ p ∈ F ∨ ∃ n, addr T n = Some p.
Proof. intros Hb. unfold pages_of. split; [|tauto]. intros [?|[?|(n & e & Hn & He & _)]]; [tauto|tauto|by destruct (Hb n e)]. Qed.
Lemma evolves_pages w F T w' F' T' p : bare T → bare T' → evolves w F T w' F' T' → pages_of user F' T' p ↔ pages_of user F T p.
Proof. intros Hb Hb' Hev. rewrite !bare_pages by done. apply (ev_pages _ _ _ _ _ _ Hev). Qed.
Lemma leaf_bit0 p perm : Z.testbit (leaf_pte p perm) 0 = true.
Proof. unfold leaf_pte. rewrite Z.lor_spec. apply orb_true_r. Qed.
Lemma bare_free w F T :
  vm_inv w F T → L T = ∅ →
  ∃ w' F', uvmfree (root T) 0 w = Some ((), w') ∧ pa_ok (alloc w') F' ∧
    (∀ p, p ∈ F' ↔ pages_of user F T p) ∧ ∀ p, ¬ pages_of user F T p → words w' !! p = words w !! p.
Proof.
  intros Hinv HL. apply uvmfree_pages; [done| |done| |].
  - apply bare_owns. intros n e _. by rewrite HL, lookup_empty.
  - change (PGROUNDUP 0 / PGSIZE) with 0. intros n Hn. lia.
  - intros n e. by rewrite HL, lookup_empty.
Qed.

(** Mapping one page of the kernel above user memory. *)
Lemma map_kern w F T va pa perm :
  vm_inv w F T → bare T → ¬ user (va / PGSIZE) → 0 ≤ va → va mod PGSIZE = 0 → va + PGSIZE ≤ MAXVA → 0 ≤ pa < 2 ^ 56 →
  L T !! (va / PGSIZE) = None →
  ∃ r w' F' T', mappages (root T) va PGSIZE pa perm w = Some (r, w') ∧ vm_inv w' F' T' ∧ root T' = root T ∧ bare T' ∧
    (∀ p, pages_of user F' T' p ↔ pages_of user F T p) ∧ (∀ p, ¬ pages_of user F T p → words w' !! p = words w !! p) ∧
    ((r = 0 ∧ L T' = <[va / PGSIZE := leaf_pte pa perm]> (L T)) ∨ (r = -1 ∧ L T' = L T)).
Proof.
  intros Hinv Hb Hu Hva Hal Hmax Hpa Hnone.
  destruct (mappages_maps w F T va 1 pa perm) as (r & m & w' & F' & T' & E & Hi & Hev & HL & Hr); try done; [unfold PGSIZE in *; lia..| |].
  { intros k Hk. replace (va / PGSIZE + k) with (va / PGSIZE) by lia. done. }
  rewrite Z.mul_1_l in E.
  assert ((r = 0 ∧ L T' = <[va / PGSIZE := leaf_pte pa perm]> (L T)) ∨ (r = -1 ∧ L T' = L T)) as Hres.
  { destruct Hr as [[-> Hm]|(-> & Hm & _)]; [left|right]; (split; [done|]).
    - assert (m = 1%nat) as -> by lia. by rewrite HL.
    - assert (m = 0%nat) as -> by lia. by rewrite HL. }
  assert (bare T') as Hb'.
  { intros n e Hn He. destruct Hres as [[_ HL']|[_ HL']]; rewrite HL' in He; [|by apply (Hb n e)].
    apply lookup_insert_Some in He as [[<- _]|[_ He]]; [done|by apply (Hb n e)]. }
  exists r, w', F', T'. split_and!; [done|done|apply (ev_root _ _ _ _ _ _ Hev)|done|intros p; by eapply evolves_pages| |done].
  intros p Hp. by apply (frame_pages _ _ _ _ _ (ev_frame _ _ _ _ _ _ Hev)).
Qed.

(** The page table of a new process is empty but for the two kernel pages; if
    memory runs out, all pages are given back. *)
Lemma pagetable_spec w F0 tf :
  pa_ok (alloc w) F0 → 0 ≤ tf < 2 ^ 56 →
  ∃ pt w', proc_pagetable trampoline tf w = Some (pt, w') ∧ (∀ p, p ∉ F0 → words w' !! p = words w !! p) ∧
    ((pt = 0 ∧ pa_ok (alloc w') F0) ∨
     (pt ≠ 0 ∧ ∃ F T, root T = pt ∧ space w' F T 0 ∧ ∀ p, pages_of user F T p ↔ p ∈ F0)).
Proof.
  intros Hok Htf. unfold proc_pagetable.
  destruct (uvmcreate_spec w F0 Hok) as [[-> E]|(pt & w1 & HpF & Hp0 & E & Hi1 & Hw1)].
  { exists 0, w. rewrite (bind_eq _ _ _ _ _ E). split_and!; [done|done|by left]. }
  rewrite (bind_eq _ _ _ _ _ E), (proj2 (Z.eqb_neq _ _) Hp0). set (T1 := mkTree pt ∅ ∅ ∅) in *. set (F1 := F0 ∖ {[pt]}) in *.
  assert (bare T1) as Hb1 by (intros n e _; cbn [T1 L]; by rewrite lookup_empty).
  assert (∀ p, pages_of user F1 T1 p ↔ p ∈ F0) as Hp1.
  { intros p. rewrite bare_pages by done. unfold F1. rewrite elem_of_difference, elem_of_singleton. split.
    - intros [[? _]|([|i|i j] & Ha)]; [done|by simplify_eq/=|done..].
    - intros Hp. destruct (decide (p = pt)) as [->|]; [right; by exists NRoot|by left]. }
  assert (∀ p, p ∉ F0 → words w1 !! p = words w !! p) as Hf1 by (intros p Hp; apply Hw1; by intros ->).
  assert (∀ wa Fa Ta, vm_inv wa Fa Ta → root Ta = pt → L Ta = ∅ → (∀ p, pages_of user Fa Ta p ↔ p ∈ F0) → (∀ p, p ∉ F0 → words wa !! p = words w !! p) →
    ∃ w', (uvmfree pt 0;; mret 0) wa = Some (0, w') ∧ pa_ok (alloc w') F0 ∧ ∀ p, p ∉ F0 → words w' !! p = words w !! p) as Hback.
  { intros wa Fa Ta Hi Hr HL Hp Hf. destruct (bare_free wa Fa Ta Hi HL) as (w' & F' & E' & Hok' & HF' & Hf'). rewrite Hr in E'.
    exists w'. rewrite (bind_eq _ _ _ _ _ E'). assert (F' = F0) as -> by (apply set_eq; intros p; by rewrite HF', Hp).
    split_and!; [done|done|]. intros p Hn. rewrite Hf', Hf; [done|done|by rewrite Hp]. }
  assert (¬ user (TRAMPOLINE / PGSIZE)) as N1 by (rewrite tramp_no; intros [_ ?]; lia).
  assert (¬ user (TRAPFRAME / PGSIZE)) as N2 by (intros [_ ?]; change (TRAPFRAME / PGSIZE) with lim in *; lia).
  destruct (map_kern w1 F1 T1 TRAMPOLINE trampoline (Z.lor PTE_R PTE_X)) as (r & w2 & F2 & T2 & E2 & Hi2 & Hr2 & Hb2 & Hp2 & Hf2 & Hres); try done.
  change (root T1) with pt in *. rewrite (bind_eq _ _ _ _ _ E2).
  assert (∀ p, p ∉ F0 → words w2 !! p = words w !! p) as Hf2' by (intros p Hp; rewrite Hf2, Hf1; [done|done|by rewrite Hp1]).
  destruct Hres as [[-> HL2]|[-> HL2]].
  2:{ change (-1 <? 0) with true. cbn iota. destruct (Hback w2 F2 T2) as (w' & E' & Hok' & Hf'); [done|done|done|intros p; by rewrite Hp2, Hp1|done|].
      exists 0, w'. split_and!; [done|done|by left]. }
  change (0 <? 0) with false. cbn iota.
  destruct (map_kern w2 F2 T2 TRAPFRAME tf (Z.lor PTE_R PTE_W)) as (r & w3 & F3 & T3 & E3 & Hi3 & Hr3 & Hb3 & Hp3 & Hf3 & Hres); try done.
  { rewrite HL2. by rewrite lookup_insert_ne. }
  rewrite Hr2 in E3. rewrite (bind_eq _ _ _ _ _ E3).
  assert (∀ p, p ∉ F0 → words w3 !! p = words w !! p) as Hf3' by (intros p Hp; rewrite Hf3, Hf2'; [done|done|by rewrite Hp2, Hp1]).
  assert (∀ p, pages_of user F3 T3 p ↔ p ∈ F0) as Hp3' by (intros p; by rewrite Hp3, Hp2, Hp1).
  destruct Hres as [[-> HL3]|[-> HL3]].
  - change (0 <? 0) with false. exists pt, w3. split_and!; [done|done|right]. split; [done|]. exists F3, T3. split_and!; [congruence| |done].
    split; [done|by apply bare_owns|done|intros n e Hn He; by destruct (Hb3 n e)|].
    intros n e _ He. rewrite HL3, HL2 in He. apply lookup_insert_Some in He as [[<- <-]|[_ He]].
    + split_and!; [by right|apply leaf_bit0|by rewrite leaf_pte_bit].
    + apply lookup_insert_Some in He as [[<- <-]|[_ He]]; [|done]. split_and!; [by left|apply leaf_bit0|by rewrite leaf_pte_bit].
  - change (-1 <? 0) with true. cbn iota.
    destruct (unmap_keep w3 F3 T3 TRAMPOLINE Hi3) as (w4 & E4 & Hi4 & Hf4); [done..| |].
    { intros e. rewrite HL3, HL2, lookup_insert_eq. intros [= <-]. apply leaf_bit0. }
    rewrite Hr3, Hr2 in E4. rewrite (bind_eq _ _ _ _ _ E4).
    destruct (Hback w4 F3 (without (TRAMPOLINE / PGSIZE) T3)) as (w' & E' & Hok' & Hf'); [done|cbn; congruence| | | |].
    + unfold without. cbn [set_L L]. by rewrite HL3, HL2, delete_insert_id.
    + intros p. by rewrite pages_without_kern.
    + intros p Hp. rewrite (frame_pages _ _ _ _ _ Hf4), Hf3'; [done|done|by rewrite Hp3'].
    + exists 0, w'. split_and!; [done|done|by left].
Qed.
End space.

(** Growing the image of a program to any size that its file asks for. *)

Section grow.
Context {A : Type} `{PageAlloc A}.
Implicit Types (w : vworld A) (T : tree) (F : gset Z).

Lemma lim_val : lim = 67108862.
Proof. done. Qed.
Lemma MAXVA_val : MAXVA = 67108864 * 4096.
Proof. done. Qed.

(** The number of pages in a set. *)
Definition count F : nat := length (elements F).
Lemma count_subset F F' p : (∀ q, q ∈ F' → q ∈ F) → p ∈ F → p ∉ F' → (count F' < count F)%nat.
Proof. intros Hs Hp Hn. apply (subset_size F' F). split; [exact Hs|]. intros Hc. by apply Hn, Hc. Qed.

(** Mapping a free page leaves fewer of them. *)
Lemma fewer_free w F T w' F' T' mem n perm :
  vm_inv w F T → vm_inv w' F' T' → owns F' T' user → accounts user (λ _, False) w F T w' F' T' → mem ∈ F → user n → 0 ≤ perm < 1024 →
  L T' !! n = Some (leaf_pte mem perm) → (count F' < count F)%nat.
Proof.
  intros Hinv Hinv' Hown Hac Hm Hn Hperm HL. apply (count_subset _ _ mem); [|done|].
  - intros q Hq. destruct (ac_sub _ _ _ _ _ _ _ _ Hac q (or_introl Hq)) as [?|[[k Hk]|(? & ? & [] & _)]]; [done|].
    apply (ac_addr _ _ _ _ _ _ _ _ Hac) in Hk. by apply (vm_inv_disjoint _ _ _ Hinv') in Hk.
  - destruct (pa_valid_range mem (pa_ok_valid _ _ _ (vi_alloc _ _ _ Hinv) Hm)) as [Hr Hma].
    destruct (leaf_pte_parts mem perm Hma ltac:(lia) Hperm) as (_ & Hpa & _).
    rewrite <-Hpa. by apply (ow_valid _ _ _ Hown n _ Hn HL).
Qed.

(** A size that memory does not allow: all that was mapped is taken back. *)
Lemma uvmalloc_loop_oom k : ∀ fuel w F T lo a newsz xperm,
  (count F ≤ k)%nat → vm_inv w F T → owns F T user → 0 ≤ lo ≤ a → lo mod PGSIZE = 0 → a mod PGSIZE = 0 → 0 ≤ xperm < 1024 →
  a / PGSIZE + Z.of_nat k < lim → a + Z.of_nat k * PGSIZE < newsz → (k < fuel)%nat →
  (∀ n, a / PGSIZE ≤ n → user n → L T !! n = None) →
  ∃ w' F' T', uvmalloc_loop fuel (root T) lo a newsz xperm w = Some (0, w') ∧ vm_inv w' F' T' ∧ owns F' T' user ∧
    alloc_failed user w F T w' F' T' lo a 0.
Proof.
  induction k as [k IH] using lt_wf_ind. intros fuel w F T lo a newsz xperm Hk Hinv Hown Hlo Hlom Ham Hx Hlim Hnew Hfuel Hnone.
  destruct fuel as [|fuel]; [lia|]. rewrite uvmalloc_loop_S, (proj2 (Z.ltb_lt a newsz)) by (unfold PGSIZE in *; lia).
  assert (0 ≤ lo / PGSIZE ≤ a / PGSIZE) as Hla by (split; [apply Z.div_pos; [lia|done]|apply Z.div_le_mono; [done|lia]]).
  pose proof (Z.div_mod a PGSIZE ltac:(done)) as Hd. rewrite Ham, Z.add_0_r in Hd.
  assert (a + PGSIZE ≤ MAXVA) as Hmax by (rewrite lim_val in Hlim; rewrite MAXVA_val; unfold PGSIZE in *; lia).
  set (perm := Z.lor (Z.lor PTE_R PTE_U) xperm). assert (0 ≤ perm < 1024) as Hperm by by apply lor_flags.
  assert (user (a / PGSIZE)) as Hu by (split; lia).
  assert (∀ n, lo / PGSIZE ≤ n < a / PGSIZE → user n) as HPa by (intros n ?; split; lia).
  destruct (user_page user w F T a perm (replicate 512 0)) as [[-> E]|(mem & w1 & r & w2 & HmF & Hm0 & E & E2 & Hres)];
    [done|done|done|lia|done|done|by apply Hnone|done| |].
  { rewrite (bind_eq _ _ _ _ _ E). change (0 =? 0) with true.
    destruct (alloc_back user w ∅ T w ∅ T lo a) as (w' & F' & T' & Ed & ? & ? & ?);
      [apply accounts_refl|done|done|done|lia|done|done|unfold PGSIZE in *; lia|done|]. by exists w', F', T'. }
  rewrite (bind_eq _ _ _ _ _ E), (proj2 (Z.eqb_neq _ _) Hm0). unfold clear_page. rewrite <-bind_assoc, (bind_eq _ _ _ _ _ E2).
  destruct Hres as [(-> & Hz & F1 & T1 & Hinv1 & Hown1 & Hac1 & HL1)|(-> & w3 & F1 & T1 & E3 & Hinv1 & Hown1 & Hac1 & HL1)].
  2:{ change (-1 =? 0) with false. cbn iota. rewrite (bind_eq _ _ _ _ _ E3).
      destruct (alloc_back user w F T w3 F1 T1 lo a) as (w' & F' & T' & Ed & ? & ? & ?);
        [done|done|done|done|lia|done|done|unfold PGSIZE in *; lia|done|]. by exists w', F', T'. }
  change (0 =? 0) with true. cbn iota. rewrite u64_id by (unfold MAXVA, PGSIZE in *; lia).
  assert (count F1 < count F)%nat as Hlt.
  { eapply (fewer_free w F T w2 F1 T1 mem (a / PGSIZE) perm); try done. by rewrite HL1, lookup_insert_eq. }
  destruct (IH (count F1) ltac:(lia) fuel w2 F1 T1 lo (a + PGSIZE) newsz xperm) as (w' & F' & T' & Er & Hi' & Ho' & (_ & Hac2 & HL2));
    [done|done|done|unfold PGSIZE; lia|done|by apply page_succ_mod|done|rewrite page_succ; lia|unfold PGSIZE in *; lia|lia| |].
  { rewrite page_succ. intros n Hn Hun. rewrite HL1, lookup_insert_ne by lia. apply Hnone; [lia|done]. }
  rewrite (ac_root _ _ _ _ _ _ _ _ Hac1) in Er. exists w', F', T'. split_and!; [done|done|done|]. rewrite page_succ in Hac2, HL2. split_and!; [done| |].
  - pose proof (pa_ok_valid _ _ _ (vi_alloc _ _ _ Hinv) HmF) as Hv. destruct (pa_valid_range mem Hv) as [Hr Hma].
    destruct (leaf_pte_parts mem perm Hma ltac:(lia) Hperm) as (_ & Hpa & _).
    eapply (accounts_trans _ _ (λ n, lo / PGSIZE ≤ n < a / PGSIZE + 1)); [by apply accounts_weaken|exact Hac2|].
    intros p (n & e & Hn & He & ->). rewrite HL1 in He. apply lookup_insert_Some in He as [[<- <-]|[Hne He]]; [left; by rewrite Hpa|].
    right. right. exists n, e. split_and!; [lia|lia|done|done].
  - intros n. rewrite HL2, HL1. destruct (decide (n = a / PGSIZE)) as [->|Hne].
    + rewrite decide_True, decide_False by lia. symmetry. by apply Hnone.
    + rewrite lookup_insert_ne by done. apply decide_ext. lia.
Qed.

Lemma accounts_none (Q : Z → Prop) w F T w' F' T' : (∀ n, ¬ Q n) → accounts user Q w F T w' F' T' → accounts user (λ _, False) w F T w' F' T'.
Proof.
  intros HQ [H1 H2 H3 H4 H5]. split; [done|done|done| |].
  - intros p Hp. destruct (H4 p Hp) as [?|[?|(n & e & ? & _)]]; [by left|by right; left|by destruct (HQ n)].
  - intros p HF Hn _. apply H5; [done|done|]. intros (n & e & ? & _). by destruct (HQ n).
Qed.

(** [uvmalloc] for any new size, on an address space that is mapped up to
    [sz], when the pages that are left are fewer than the addresses. *)
Lemma uvmalloc_any w F T sz newsz xperm :
  space w F T sz → Z.of_nat (count F) + PGROUNDUP sz / PGSIZE < lim → 0 ≤ newsz < 2 ^ 64 → 0 ≤ xperm < 1024 →
  ∃ r w' F' T', uvmalloc (root T) sz newsz xperm w = Some (r, w') ∧ vm_inv w' F' T' ∧ owns F' T' user ∧ accounts user (λ _, False) w F T w' F' T' ∧
    ((r = Z.max sz newsz ∧ newsz ≤ lim * PGSIZE ∧ (∀ n, ¬ between sz newsz n → L T' !! n = L T !! n) ∧
      ∀ n, between sz newsz n → zero_page F w' T' (Z.lor (Z.lor PTE_R PTE_U) xperm) n) ∨
     (r = 0 ∧ ∀ n, L T' !! n = L T !! n)).
Proof.
  intros [Hinv Hown Hsz Hlow _] Hc Hnew Hx. destruct (PGROUNDUP_lim sz Hsz) as (Hr & Hm & Hle).
  assert (∀ n, PGROUNDUP sz / PGSIZE ≤ n → user n → L T !! n = None) as Hnone.
  { intros n Hn Hu. destruct (L T !! n) as [e|] eqn:E; [|done]. specialize (Hlow n e Hu E). lia. }
  destruct (decide (newsz < sz)) as [Hlt|Hge].
  { unfold uvmalloc. rewrite (proj2 (Z.ltb_lt _ _) Hlt). exists sz, w, F, T. split_and!; [done|done|done|apply accounts_refl|left].
    split_and!; [lia|rewrite lim_val in *; unfold PGSIZE in *; lia|done|]. intros n Hb. exfalso. revert Hb. apply between_empty. apply PGROUNDUP_mono; [lia|].
    rewrite lim_val in Hsz. unfold PGSIZE in Hsz. lia. }
  destruct (decide (newsz ≤ lim * PGSIZE)) as [Hfit|Hbig].
  - destruct (PGROUNDUP_lim newsz ltac:(lia)) as (Hr' & _ & _).
    destruct (uvmalloc_grows user w F T sz newsz xperm) as (r & w' & F' & T' & E & Hi & Ho & Hac & Hres);
      [done|done|lia|rewrite MAXVA_val; rewrite lim_val in Hfit; unfold PGSIZE in Hfit; lia|done|unfold between; intros n ?; split; lia| |].
    { unfold between. intros n Hn. apply Hnone; [lia|split; lia]. }
    exists r, w', F', T'. split_and!; [done|done|done|done|]. destruct Hres as [(-> & H1 & H2)|?]; [left|by right]. split_and!; [lia|done|done|done].
  - unfold uvmalloc. rewrite (proj2 (Z.ltb_ge newsz sz)) by lia. set (lo := PGROUNDUP sz) in *. rewrite lim_val in *.
    assert (0 ≤ lo) as Hlo by lia. assert (lo mod PGSIZE = 0) as Hlm by (rewrite <-Hm; by apply Z.mod_mul).
    pose proof (Z.div_mod (newsz - sz) PGSIZE ltac:(done)) as Hd. pose proof (Z.mod_pos_bound (newsz - sz) PGSIZE ltac:(done)).
    destruct (uvmalloc_loop_oom (count F) (S (Z.to_nat ((newsz - sz) / PGSIZE + 1))) w F T lo lo newsz xperm) as (w' & F' & T' & E & Hi & Ho & (_ & Hac & HL));
      [done|done|done|lia|done|done|done|rewrite lim_val; lia|unfold PGSIZE in *; lia|unfold PGSIZE in *; lia|done|].
    exists 0, w', F', T'. split_and!; [done|done|done| |right].
    + eapply accounts_none; [|exact Hac]. intros n ?. lia.
    + split; [done|]. intros n. rewrite HL. by rewrite decide_False by lia.
Qed.

(** ** The image *)

(** The image of a program under construction: the address space is mapped up
    to [sz] and shows the bytes [img]; it has its pages from [F0], and the
    others are as in [w0]. *)
Record image F0 w0 w F T (sz : Z) (img : Z → Z) : Prop := {
  im_space : space w F T sz;
  im_words : ∀ n e, user n → L T !! n = Some e → ∃ ws, words w !! PTE2PA e = Some ws ∧ length ws = 512%nat;
  im_all : ∀ n, 0 ≤ n < PGROUNDUP sz / PGSIZE → ∃ e, L T !! n = Some e ∧ Z.testbit e 4 = true;
  im_pages : ∀ p, pages_of user F T p ↔ p ∈ F0;
  im_frame : ∀ p, p ∉ F0 → words w !! p = words w0 !! p;
  im_view : ∀ va, 0 ≤ va < PGROUNDUP sz → view lim 0 w T va = Some (img va);
  im_zero : ∀ va, PGROUNDUP sz ≤ va → img va = 0;
}.

Lemma space_user w F T sz :
  space w F T sz → (∀ n e, user n → L T !! n = Some e → ∃ ws, words w !! PTE2PA e = Some ws ∧ length ws = 512%nat) → user_inv lim w F T.
Proof. intros [Hi Ho _ _ Hk] Hw. split; [done|done|done|]. intros n e Hu He. destruct (Hk n e Hu He) as (_ & -> & ->). done. Qed.
Lemma image_user F0 w0 w F T sz img : image F0 w0 w F T sz img → user_inv lim w F T.
Proof. intros [Hs Hw _ _ _ _ _]. by eapply space_user. Qed.

(** Pages of the image and free pages together are at most those there were. *)
Lemma image_count F0 w0 w F T sz img : image F0 w0 w F T sz img → Z.of_nat (count F) + PGROUNDUP sz / PGSIZE ≤ Z.of_nat (count F0).
Proof.
  intros [[Hi Ho Hsz _ _] _ Ha Hp _ _ _]. destruct (PGROUNDUP_lim sz Hsz) as (Hr & _ & _). set (N := PGROUNDUP sz / PGSIZE) in *.
  set (l := (λ n, PTE2PA (default 0 (L T !! n))) <$> seqZ 0 N).
  assert (∀ n, n ∈ seqZ 0 N → user n ∧ L T !! n = Some (default 0 (L T !! n))) as Hn.
  { intros n Hn%elem_of_seqZ. destruct (Ha n ltac:(lia)) as (e & He & _). rewrite He. split; [split; lia|done]. }
  assert (NoDup (elements F ++ l)) as Hnd.
  { apply NoDup_app. split_and!; [apply NoDup_elements| |].
    - intros p HpF%elem_of_elements Hpl. apply list_elem_of_fmap in Hpl as (n & -> & [Hu He]%Hn). by apply (ow_valid _ _ _ Ho n _ Hu He).
    - apply NoDup_fmap_2_strong; [|apply NoDup_seqZ]. intros n m [Hu1 He1]%Hn [Hu2 He2]%Hn E. by apply (ow_inj _ _ _ Ho n _ m _ Hu1 Hu2 He1 He2). }
  assert (∀ p, p ∈ elements F ++ l → p ∈ elements F0) as Hsub.
  { intros p [HpF|Hpl]%elem_of_app; apply elem_of_elements, Hp; [left; by apply elem_of_elements|].
    apply list_elem_of_fmap in Hpl as (n & -> & [Hu He]%Hn). right. right. by exists n, (default 0 (L T !! n)). }
  pose proof (submseteq_length _ _ (NoDup_submseteq _ _ Hnd Hsub)) as Hl. unfold l in Hl. rewrite length_app, length_fmap, length_seqZ in Hl.
  unfold count. lia.
Qed.

Definition zero_perm (xperm : Z) : Z := Z.lor (Z.lor PTE_R PTE_U) xperm.
Lemma zero_perm_bits xperm i : 0 ≤ xperm < 1024 → (0 ≤ i → Z.testbit xperm i = true → Z.testbit (zero_perm xperm) i = true) ∧ Z.testbit (zero_perm xperm) 4 = true ∧ 0 ≤ zero_perm xperm < 1024.
Proof.
  intros Hx. unfold zero_perm. rewrite !Z.lor_spec. split_and!; [intros _ ->; apply orb_true_r|done|by apply lor_flags..].
Qed.

Lemma pages_frame w F T w' F' T' p : accounts user (λ _, False) w F T w' F' T' → ¬ pages_of user F T p → words w' !! p = words w !! p.
Proof.
  intros Hac Hp. apply (ac_frame _ _ _ _ _ _ _ _ Hac); [intros ?; apply Hp; by left|intros n ?; apply Hp; right; left; by exists n|].
  by intros (? & ? & [] & _).
Qed.

Lemma image_grow F0 w0 w F T sz img newsz xperm :
  image F0 w0 w F T sz img → Z.of_nat (count F0) < lim → 0 ≤ newsz < 2 ^ 64 → 0 ≤ xperm < 1024 →
  ∃ r w' F' T', uvmalloc (root T) sz newsz xperm w = Some (r, w') ∧ root T' = root T ∧
    ((r = Z.max sz newsz ∧ newsz ≤ lim * PGSIZE ∧ image F0 w0 w' F' T' r img ∧
      ∀ n, between sz newsz n → ∃ p, L T' !! n = Some (leaf_pte p (zero_perm xperm))) ∨
     (r = 0 ∧ image F0 w0 w' F' T' sz img)).
Proof.
  intros Him HF Hnew Hx. pose proof (image_count _ _ _ _ _ _ _ Him) as Hc. pose proof (image_user _ _ _ _ _ _ _ Him) as Hui.
  destruct Him as [Hs Hw Ha Hp Hf Hv Hz]. pose proof (as_sz _ _ _ _ Hs) as Hsz.
  destruct (uvmalloc_any w F T sz newsz xperm Hs ltac:(lia) Hnew Hx) as (r & w' & F' & T' & E & Hi' & Ho' & Hac & Hres).
  exists r, w', F', T'. split_and!; [done|apply (ac_root _ _ _ _ _ _ _ _ Hac)|].
  pose proof (accounts_keeps _ _ _ _ _ _ _ Hui Hac) as Hk.
  assert (∀ p, pages_of user F' T' p ↔ p ∈ F0) as Hp' by (intros p; by rewrite (ac_pages _ _ _ _ _ _ _ _ Hac)).
  assert (∀ p, p ∉ F0 → words w' !! p = words w0 !! p) as Hf'.
  { intros p Hn. rewrite (pages_frame _ _ _ _ _ _ _ Hac), Hf; [done|done|by rewrite Hp]. }
  destruct Hres as [(-> & Hfit & Hout & Hin)|[-> HL]]; [left|right].
  - split_and!; [done|done| |intros n Hn; destruct (Hin n Hn) as (p & HLp & _); by exists p].
    destruct (PGROUNDUP_lim sz Hsz) as (Hr & Hm & _). destruct (PGROUNDUP_lim (Z.max sz newsz) ltac:(lia)) as (Hr1 & Hm1 & _).
    assert (PGROUNDUP sz ≤ PGROUNDUP (Z.max sz newsz)) as Hmono.
    { apply PGROUNDUP_mono; [lia|]. rewrite lim_val in *. unfold PGSIZE in *. lia. }
    assert (∀ n, between sz newsz n ↔ between sz (Z.max sz newsz) n) as Hbet.
    { intros n. destruct (decide (sz ≤ newsz)); [by rewrite Z.max_r|]. rewrite Z.max_l by lia. split; intros Hb; exfalso; revert Hb; apply between_empty; [|done].
      apply PGROUNDUP_mono; [lia|]. rewrite lim_val in *. unfold PGSIZE in *. lia. }
    set (sz1 := Z.max sz newsz) in *. destruct (zero_perm_bits xperm 0 Hx) as (_ & Hpb & Hpr).
    assert (∀ n, between sz sz1 n → user n) as Hbu by (unfold between; intros n ?; split; lia).
    assert (∀ n e, user n → L T' !! n = Some e → (between sz sz1 n ∧ ∃ p, e = leaf_pte p (zero_perm xperm) ∧ PTE2PA e = p ∧ words w' !! p = Some (replicate 512 0)) ∨
      (¬ between sz sz1 n ∧ L T !! n = Some e)) as Hcase.
    { intros n e Hu He. destruct (decide (between sz sz1 n)) as [Hb|Hb]; [left|right].
      - split; [done|]. destruct (Hin n (proj2 (Hbet n) Hb)) as (p & HLp & HpF & Hpz). fold (zero_perm xperm) in HLp. exists p. rewrite He in HLp. simplify_eq.
        destruct (pa_valid_range p (pa_ok_valid _ _ _ (vi_alloc _ _ _ (as_inv _ _ _ _ Hs)) HpF)) as [Hpp Hpm].
        destruct (leaf_pte_parts p (zero_perm xperm) Hpm ltac:(lia) Hpr) as (_ & Hpa & _). done.
      - split; [done|]. rewrite <-Hout; [done|by rewrite Hbet]. }
    split; [split; [done|done|lia| |]| | |done|done| |].
    + intros n e Hu He. destruct (Hcase n e Hu He) as [[[_ ?] _]|[_ He']]; [done|]. pose proof (as_low _ _ _ _ Hs n e Hu He').
      assert (PGROUNDUP sz / PGSIZE ≤ PGROUNDUP sz1 / PGSIZE) by (by apply Z.div_le_mono). lia.
    + intros n e Hu He. apply (as_kern _ _ _ _ Hs n e Hu). rewrite <-Hout; [done|]. rewrite Hbet. by intros ?%Hbu.
    + intros n e Hu He. destruct (Hcase n e Hu He) as [[_ (p & -> & -> & Hpz)]|[_ He']]; [by eexists|].
      rewrite (Hk n e Hu He'). by apply (Hw n e).
    + intros n Hn. destruct (decide (between sz sz1 n)) as [Hb|Hb].
      * destruct (Hin n (proj2 (Hbet n) Hb)) as (p & HLp & _). exists (leaf_pte p (zero_perm xperm)). split; [done|]. by rewrite leaf_pte_bit by lia.
      * destruct (Ha n) as (e & He & Hb4); [unfold between in Hb; lia|]. exists e. split; [|done]. rewrite Hout; [done|by rewrite Hbet].
    + intros va Hva. pose proof (Z.div_mod va PGSIZE ltac:(done)) as Hd. pose proof (Z.mod_pos_bound va PGSIZE ltac:(done)) as Hmod.
      assert (0 ≤ va / PGSIZE < PGROUNDUP sz1 / PGSIZE) as Hn by (split; [apply Z.div_pos; [lia|done]|apply Z.div_lt_upper_bound; [done|lia]]).
      assert (user (va / PGSIZE)) as Hu by (split; lia).
      destruct (decide (between sz sz1 (va / PGSIZE))) as [Hb|Hb].
      * destruct (Hin _ (proj2 (Hbet _) Hb)) as (p & HLp & _). fold (zero_perm xperm) in HLp.
        destruct (Hcase _ _ Hu HLp) as [[_ (p' & _ & Hpa & Hpz)]|[? _]]; [|done]. unfold view. rewrite decide_True, HLp, leaf_pte_bit, Hpb, Hpa, Hpz by (done || lia).
        cbn [fmap option_fmap option_map]. rewrite get_byte_zero, Hz; [done|]. unfold between in Hb. unfold PGSIZE in *. lia.
      * assert (va < PGROUNDUP sz) as Hlow.
        { unfold between in Hb. assert (va / PGSIZE < PGROUNDUP sz / PGSIZE) by lia. unfold PGSIZE in *. lia. }
        rewrite <-(Hv va) by lia. unfold view. rewrite decide_True, Hout by (done || by rewrite Hbet). rewrite (decide_True (P := user (va / PGSIZE))) by done.
        destruct (L T !! (va / PGSIZE)) as [e|] eqn:Ee; [|done]. destruct (Z.testbit e 4); [|done]. by rewrite (Hk _ _ Hu Ee).
    + intros va Hva. apply Hz. lia.
  - split; [done|]. destruct Hs as [_ _ _ Hlow Hkern]. split; [split; [done|done|done| |]| | |done|done| |done]; try setoid_rewrite HL.
    + done.
    + done.
    + intros n e Hu He. rewrite (Hk n e Hu He). by apply (Hw n e).
    + done.
    + intros va Hva. rewrite <-Hv by done. apply view_same; [done|]. apply map_eq. done.
Qed.
End grow.
