(* ===== verification/ExecLoad.v ===== *)
(** Loading a program: [loadseg] and the loop over the program headers of
    [kexec] ([xv6/kernel/exec.c]). *)
From S2P Require Import Prelude Kalloc Proc Vm VmSpec VmUser VmAlloc VmKmem VmLife VmBytes VmCopyio Fs FsBlock FsFile FsRw FsDir Exec ExecSpace.

(** ** What the program asks for *)

(** The program headers, from [off] on. *)
Fixpoint headers (bytes : list Z) (off : Z) (n : nat) : list proghdr :=
  match n with
  | O => []
  | S n => get_ph (slice (u32 off) PH_SIZE bytes) :: headers bytes (off + PH_SIZE) n
  end.
Definition is_load (ph : proghdr) : Prop := ph_type ph = ELF_PROG_LOAD.
#[export] Instance is_load_dec ph : Decision (is_load ph) := _.

(** Memory with the bytes of a segment of the file [bytes] in it. *)
Definition add_bytes (bytes : list Z) (va off n : Z) (img : Z → Z) (a : Z) : Z :=
  if decide (va ≤ a < va + n) then default 0 (bytes !! Z.to_nat (off + (a - va))) else img a.
Definition add_seg (bytes : list Z) (img : Z → Z) (ph : proghdr) : Z → Z :=
  if decide (is_load ph) then add_bytes bytes (ph_vaddr ph) (u32 (ph_off ph)) (ph_filesz ph) img else img.
(** Memory after all segments are loaded, in order, over zeros; and its size. *)
Definition program (bytes : list Z) (phs : list proghdr) : Z → Z := foldl (add_seg bytes) (λ _, 0) phs.
Definition top_seg (sz : Z) (ph : proghdr) : Z := if decide (is_load ph) then Z.max sz (ph_vaddr ph + ph_memsz ph) else sz.
Definition top (phs : list proghdr) : Z := foldl top_seg 0 phs.
(** A segment that can be loaded. *)
Definition seg_ok (bytes : list Z) (ph : proghdr) : Prop := is_load ph →
  ph_filesz ph ≤ ph_memsz ph ∧ ph_vaddr ph + ph_memsz ph < 2 ^ 64 ∧ ph_vaddr ph mod PGSIZE = 0 ∧
  (0 < ph_filesz ph → u32 (ph_off ph) + ph_filesz ph ≤ Z.of_nat (length bytes)).

Section load.
Context {A : Type} `{PageAlloc A} (sb : superblock) (Hsb : layout_ok sb).
Implicit Types (w : vworld A) (T : tree) (F : gset Z) (x : eworld A).

(** ** Reading *)

Lemma le_dec_range bs : Forall is_byte bs → 0 ≤ le_dec bs < 256 ^ Z.of_nat (length bs).
Proof.
  induction 1 as [|b bs Hb _ IH]; [done|]. change (le_dec (b :: bs)) with (b + 256 * le_dec bs). cbn [length]. rewrite Nat2Z.inj_succ, Z.pow_succ_r by lia. unfold is_byte in Hb. lia.
Qed.
Lemma Forall_slice {B} (Q : B → Prop) o n (l : list B) : Forall Q l → Forall Q (take (Z.to_nat n) (drop (Z.to_nat o) l)).
Proof. intros Hl. by apply Forall_take, Forall_drop. Qed.
Lemma field_range o n bytes : Forall is_byte bytes → 0 ≤ n → 0 ≤ le_dec (slice o n bytes) < 256 ^ n.
Proof.
  intros Hb Hn. destruct (le_dec_range (slice o n bytes)) as [H1 H2]; [by apply Forall_slice|]. split; [done|]. eapply Z.lt_le_trans; [exact H2|].
  apply Z.pow_le_mono_r; [lia|]. unfold slice. rewrite length_take. lia.
Qed.

Lemma readi_any fw ip q off n :
  fs_inv sb fw → file_inv sb fw ip q → 0 ≤ off < 2 ^ 32 → 0 < n < 2 ^ 32 →
  ∃ r bs, readi sb (λ _ _, true) ip off n fw = Some ((r, bs), fw) ∧ bs = slice off (Z.of_nat (length bs)) (file_bytes fw q) ∧
    Z.of_nat (length bs) ≤ n ∧ (r = n → Z.of_nat (length bs) = n ∧ off + n ≤ Z.of_nat (length (file_bytes fw q))).
Proof.
  intros Hi Hf Ho Hn. pose proof (fv_size _ _ _ _ Hf) as Hs. rewrite file_bytes_length.
  destruct (decide (off + n < 2 ^ 32)) as [Hlt|Hge].
  - destruct (readi_reads sb Hsb (λ _ _, true) fw ip q off n Hi Hf) as (r & bs & E & Hb & Hr); [lia..|].
    exists r, bs. destruct Hr as [[-> Hl]|(_ & _ & ? & ? & ?)]; [|done]. split_and!; [done|done|lia|]. intros Hrn. split; lia.
  - exists 0, []. unfold readi. rewrite (bind_eq _ _ _ q fw) by (unfold the_ip; by rewrite (fv_ip _ _ _ _ Hf)).
    assert (u32 (off + n) = off + n - 2 ^ 32) as -> by (unfold u32; symmetry; apply (Z.mod_unique _ _ 1); lia).
    rewrite (proj2 (Z.ltb_lt (off + n - 2 ^ 32) off)), orb_true_r by lia. split_and!; [done|done|simpl; lia|lia].
Qed.
Lemma on_fs_eq {B} (m : fs B) x a : m (e_fs x) = Some (a, e_fs x) → on_fs m x = Some (a, x).
Proof. intros E. unfold on_fs. rewrite E, bool_decide_true, andb_false_r by done. by destruct x. Qed.
Lemma on_vm_eq {B} (m : M (vworld A) B) x a w : m (e_vm x) = Some (a, w) → on_vm m x = Some (a, mkEworld (e_fs x) (e_outs x) w (e_proc x)).
Proof. intros E. unfold on_vm. by rewrite E. Qed.
Definition with_vm x w : eworld A := mkEworld (e_fs x) (e_outs x) w (e_proc x).

(** ** Storing *)

Lemma image_ext F0 w0 w F T sz img img' : (∀ a, img a = img' a) → image F0 w0 w F T sz img → image F0 w0 w F T sz img'.
Proof. intros E [H1 H2 H3 H4 H5 H6 H7]. split; try done; intros a Ha; rewrite <-E; auto. Qed.

Lemma image_store F0 w0 w F T sz img n e off bs :
  image F0 w0 w F T sz img → 0 ≤ n < PGROUNDUP sz / PGSIZE → L T !! n = Some e → 0 ≤ off → off + Z.of_nat (length bs) ≤ PGSIZE → Forall is_byte bs →
  ∃ w', store_bytes (PTE2PA e) off bs w = Some ((), w') ∧
    image F0 w0 w' F T sz (λ a, if decide (n * PGSIZE + off ≤ a < n * PGSIZE + off + Z.of_nat (length bs))
                                then default 0 (bs !! Z.to_nat (a - (n * PGSIZE + off))) else img a).
Proof.
  intros Him Hn He Ho Hl Hb. pose proof (image_user _ _ _ _ _ _ _ Him) as Hui. destruct Him as [Hs Hw Ha Hp Hf Hv Hz].
  pose proof (as_sz _ _ _ _ Hs) as Hsz. destruct (PGROUNDUP_lim sz Hsz) as (Hr & Hm & _).
  assert (user n) as Hu by (split; lia). destruct (Ha n Hn) as (e' & He' & Hb4). assert (e' = e) as -> by congruence.
  destruct (store_bytes_spec lim 0 w F T n e off bs) as (w' & E & Hui' & Hv'); try done.
  exists w'. split; [done|]. pose proof Hui' as [Hi' Ho' Hw' _]. destruct Hs as [_ _ _ Hlow Hk]. split; [by split|done|done|done| | |].
  - intros p Hp0. rewrite <-Hf by done. unfold store_bytes in E. destruct (words w !! PTE2PA e) as [ws|]; [|done]. injection E as <-. cbn [words].
    apply lookup_insert_ne. intros <-. apply Hp0, Hp. right. right. by exists n, e.
  - intros a Ha'. rewrite Hv', Hv by done. case_decide as Hin; [|done].
    destruct (lookup_lt_is_Some_2 bs (Z.to_nat (a - (n * PGSIZE + off)))) as [b Eb]; [lia|]. by rewrite Eb.
  - intros a Ha'. rewrite decide_False; [by apply Hz|]. unfold PGSIZE in *. lia.
Qed.

(** ** Segments *)

Lemma loadseg_loop_spec fuel : ∀ F0 w0 F T sz img x ip q va offset n i,
  image F0 w0 (e_vm x) F T sz img → fs_inv sb (e_fs x) → file_inv sb (e_fs x) ip q → Forall is_byte (file_bytes (e_fs x) q) →
  0 ≤ va → va mod PGSIZE = 0 → va + n ≤ PGROUNDUP sz → 0 ≤ n < 2 ^ 32 - PGSIZE → 0 ≤ i → i mod PGSIZE = 0 → 0 ≤ offset → offset + i < 2 ^ 32 →
  n - i ≤ (Z.of_nat fuel - 1) * PGSIZE → (0 < fuel)%nat →
  ∃ r w' img', loadseg_loop sb fuel (root T) va ip offset n i x = Some (r, with_vm x w') ∧ image F0 w0 w' F T sz img' ∧
    (r = -1 ∨ (r = 0 ∧ (i < n → offset + n ≤ Z.of_nat (length (file_bytes (e_fs x) q))) ∧
      ∀ a, img' a = add_bytes (file_bytes (e_fs x) q) (va + i) (offset + i) (n - i) img a)).
Proof.
  induction fuel as [|fuel IH]; [lia|]. intros F0 w0 F T sz img x ip q va offset n i Him Hi Hf Hby Hva Hvm Hfit Hn Hi0 Him0 Hoff Hoi Hfu _. cbn [loadseg_loop].
  destruct (i <? n) eqn:Hlt.
  2:{ exists 0, (e_vm x), img. split_and!; [by destruct x|done|right]. split_and!; [done|lia|]. intros a. unfold add_bytes. by rewrite decide_False by lia. }
  pose proof (image_user _ _ _ _ _ _ _ Him) as Hui. pose proof (as_sz _ _ _ _ (im_space _ _ _ _ _ _ _ Him)) as Hsz.
  destruct (PGROUNDUP_lim sz Hsz) as (Hr & Hm & _). rewrite lim_val in Hr, Hsz.
  assert ((va + i) mod PGSIZE = 0) as Hvi by (rewrite Z.add_mod, Hvm, Him0 by done; done).
  pose proof (Z.div_mod (va + i) PGSIZE ltac:(done)) as Hd. rewrite Hvi, Z.add_0_r in Hd.
  assert (0 ≤ (va + i) / PGSIZE < PGROUNDUP sz / PGSIZE) as Hpn by (unfold PGSIZE in *; lia).
  destruct (im_all _ _ _ _ _ _ _ Him _ Hpn) as (e & He & Hb4).
  assert (user ((va + i) / PGSIZE)) as Hu by (unfold user_page_no; rewrite lim_val; lia).
  rewrite u64_id by (unfold PGSIZE in *; lia).
  assert (walkaddr (root T) (va + i) (e_vm x) = Some (PTE2PA e, e_vm x)) as Ew.
  { rewrite (walkaddr_spec lim 0 ltac:(done) (e_vm x) F T) by (done || lia). rewrite He, decide_True, Hb4; [done|]. split; [rewrite MAXVA_val; unfold PGSIZE in *; lia|done]. }
  rewrite (bind_eq _ _ _ _ _ (on_vm_eq _ x _ _ Ew)).
  assert (PTE2PA e ≠ 0) as Hpa.
  { destruct (ow_valid _ _ _ (ui_owns _ _ _ _ Hui) _ _ Hu He) as [Hv _]. pose proof (pa_valid_range _ Hv). lia. }
  rewrite (proj2 (Z.eqb_neq _ _) Hpa). change (mkEworld (e_fs x) (e_outs x) (e_vm x) (e_proc x)) with (with_vm x (e_vm x)).
  assert (with_vm x (e_vm x) = x) as -> by by destruct x.
  set (m := if n - i <? PGSIZE then n - i else PGSIZE). assert (m = Z.min (n - i) PGSIZE) as Hmv by (unfold m; destruct (n - i <? PGSIZE) eqn:?; lia). clearbody m.
  rewrite (u32_id (offset + i)) by lia.
  destruct (readi_any (e_fs x) ip q (offset + i) m) as (r & bs & E & Hbs & Hbl & Hfull); [done|done|lia|unfold PGSIZE in *; lia|].
  rewrite (bind_eq _ _ _ _ _ (on_fs_eq _ x _ E)). cbn [fst snd].
  assert (Forall is_byte bs) as Hbb by (rewrite Hbs; by apply Forall_slice).
  destruct (image_store F0 w0 (e_vm x) F T sz img ((va + i) / PGSIZE) e 0 bs) as (w' & E' & Him'); [done|done|done|done|lia|done|].
  rewrite (bind_eq _ _ _ _ _ (on_vm_eq _ x _ _ E')). fold (with_vm x w'). rewrite Z.add_0_r in Him'.
  destruct (r =? m) eqn:Hrm; cbn [negb].
  2:{ eexists (-1), w', _. split_and!; [done|exact Him'|by left]. }
  destruct (Hfull ltac:(lia)) as [Hbn Hsz']. set (bytes := file_bytes (e_fs x) q) in *.
  assert (Z.of_nat (length bytes) < 2 ^ 20) as Hlb.
  { unfold bytes. rewrite file_bytes_length. pose proof (fv_size _ _ _ _ Hf) as Hq. change (MAXFILE * BSIZE) with 274432 in Hq. lia. }
  rewrite (u32_id (i + PGSIZE)) by (unfold PGSIZE in *; lia).
  destruct (IH F0 w0 F T sz _ (with_vm x w') ip q va offset n (i + PGSIZE) Him') as (r2 & w2 & img2 & E2 & Him2 & Hr2); try done.
  { unfold PGSIZE. lia. } { by apply page_succ_mod. } { unfold PGSIZE in *. lia. } { unfold PGSIZE in *. lia. } { unfold PGSIZE in *. lia. }
  exists r2, w2, img2. split_and!; [exact E2|done|]. destruct Hr2 as [->|(-> & Hle & Himg)]; [by left|right].
  change (file_bytes (e_fs (with_vm x w')) q) with bytes in *. split_and!; [done|intros _; destruct (decide (i + PGSIZE < n)); [by apply Hle|lia]|].
  intros a. rewrite Himg. unfold add_bytes. replace ((va + i) / PGSIZE * PGSIZE) with (va + i) by lia.
  destruct (decide (va + (i + PGSIZE) ≤ a < va + (i + PGSIZE) + (n - (i + PGSIZE)))) as [Ha|Ha].
  - rewrite decide_True by (unfold PGSIZE in *; lia). do 3 f_equal. lia.
  - destruct (decide (va + i ≤ a < va + i + Z.of_nat (length bs))) as [Hb|Hb]; [|by rewrite decide_False by lia].
    rewrite decide_True by lia. rewrite Hbs. unfold slice. rewrite lookup_take_lt by lia. rewrite lookup_drop. do 2 f_equal. lia.
Qed.

Lemma loadseg_spec F0 w0 F T sz img x ip q va offset n :
  image F0 w0 (e_vm x) F T sz img → fs_inv sb (e_fs x) → file_inv sb (e_fs x) ip q → Forall is_byte (file_bytes (e_fs x) q) →
  0 ≤ va → va mod PGSIZE = 0 → va + n ≤ PGROUNDUP sz → 0 ≤ n < 2 ^ 32 - PGSIZE → 0 ≤ offset < 2 ^ 32 →
  ∃ r w' img', loadseg sb (root T) va ip offset n x = Some (r, with_vm x w') ∧ image F0 w0 w' F T sz img' ∧
    (r = -1 ∨ (r = 0 ∧ (0 < n → offset + n ≤ Z.of_nat (length (file_bytes (e_fs x) q))) ∧
      ∀ a, img' a = add_bytes (file_bytes (e_fs x) q) va offset n img a)).
Proof.
  intros Him Hi Hf Hby Hva Hvm Hfit Hn Hoff. unfold loadseg. pose proof (Z.div_mod n PGSIZE ltac:(done)). pose proof (Z.mod_pos_bound n PGSIZE ltac:(done)).
  destruct (loadseg_loop_spec (S (Z.to_nat (n / PGSIZE + 1))) F0 w0 F T sz img x ip q va offset n 0) as (r & w' & img' & E & Him' & Hr);
    try done; [unfold PGSIZE in *; lia..|].
  rewrite !Z.add_0_r, !Z.sub_0_r in Hr. by exists r, w', img'.
Qed.

Lemma flags2perm_range fl : 0 ≤ flags2perm fl < 1024.
Proof. unfold flags2perm. by destruct (Z.testbit fl 0), (Z.testbit fl 1). Qed.
Lemma u64_add_lt a b : 0 ≤ a < 2 ^ 64 → 0 ≤ b < 2 ^ 64 → (u64 (a + b) <? a) = false → a + b < 2 ^ 64 ∧ u64 (a + b) = a + b.
Proof.
  intros Ha Hb Hc. destruct (decide (a + b < 2 ^ 64)); [split; [done|apply u64_id; lia]|].
  assert (u64 (a + b) = a + b - 2 ^ 64) by (unfold u64; symmetry; apply (Z.mod_unique _ _ 1); lia). lia.
Qed.
Lemma add_seg_ext bytes phs : ∀ img img', (∀ a, img a = img' a) → ∀ a, foldl (add_seg bytes) img phs a = foldl (add_seg bytes) img' phs a.
Proof.
  induction phs as [|ph phs IH]; [done|]. intros img img' E a. cbn [foldl]. apply IH. intros b. unfold add_seg, add_bytes. by repeat case_decide.
Qed.
Lemma u32_int32 a : u32 (int32 a) = u32 a.
Proof. unfold u32, int32, swrap. rewrite Zminus_mod_idemp_l. f_equal. lia. Qed.
Lemma u32_next off off' : u32 off' = u32 off → u32 (off' + PH_SIZE) = u32 (int32 (off + PH_SIZE)).
Proof.
  intros E. rewrite u32_int32. unfold u32 in *. by rewrite (Z.add_mod off'), E, <-Z.add_mod.
Qed.

(** The loop: on success every segment of the program is in memory. *)
Lemma load_loop_spec F0 w0 ip q (HF : Z.of_nat (count F0) < 2 ^ 20 - 1) n : ∀ F T sz img x off off',
  image F0 w0 (e_vm x) F T sz img → fs_inv sb (e_fs x) → file_inv sb (e_fs x) ip q → Forall is_byte (file_bytes (e_fs x) q) → u32 off' = u32 off →
  let bytes := file_bytes (e_fs x) q in let phs := headers bytes off' n in
  ∃ sz' ok w' F' T' img', load_loop sb n (root T) ip off sz x = Some ((sz', ok), with_vm x w') ∧ root T' = root T ∧
    image F0 w0 w' F' T' sz' img' ∧
    (ok = true → Forall (seg_ok bytes) phs ∧ sz' = foldl top_seg sz phs ∧ ∀ a, img' a = foldl (add_seg bytes) img phs a).
Proof.
  induction n as [|n IH]; intros F T sz img x off off' Him Hi Hf Hby Hoff bytes phs.
  { exists sz, true, (e_vm x), F, T, img. split_and!; [by destruct x|done|done|]. intros _. by split_and!; [constructor| |]. }
  cbn [load_loop]. unfold read_at. rewrite <-Hoff.
  assert (0 ≤ u32 off' < 2 ^ 32) as Huo by (unfold u32; by apply Z.mod_pos_bound).
  destruct (readi_any (e_fs x) ip q (u32 off') PH_SIZE) as (r & bs & E & Hbs & Hbl & Hfull); [done|done|done|done|].
  rewrite (bind_eq _ _ x (if r =? PH_SIZE then Some bs else None) x) by (rewrite (bind_eq _ _ _ _ _ (on_fs_eq _ x _ E)); done).
  assert (with_vm x (e_vm x) = x) as Hx by by destruct x.
  assert (∃ sz' ok w' F' T' img', Some ((sz, false), x) = Some ((sz', ok), with_vm x w') ∧ root T' = root T ∧ image F0 w0 w' F' T' sz' img' ∧
    (ok = true → Forall (seg_ok bytes) phs ∧ sz' = foldl top_seg sz phs ∧ ∀ a, img' a = foldl (add_seg bytes) img phs a)) as Hbad.
  { exists sz, false, (e_vm x), F, T, img. by rewrite Hx. }
  destruct (r =? PH_SIZE) eqn:Hr; [|exact Hbad].
  destruct (Hfull ltac:(lia)) as [Hbn _]. assert (bs = slice (u32 off') PH_SIZE bytes) as Hbs' by (rewrite Hbs, Hbn; done). clear Hbs.
  set (ph := get_ph bs). assert (phs = ph :: headers bytes (off' + PH_SIZE) n) as Hphs by (unfold phs, ph; cbn [headers]; by rewrite Hbs').
  assert (Forall is_byte bs) as Hbb by (rewrite Hbs'; by apply Forall_slice).
  assert (0 ≤ ph_vaddr ph < 2 ^ 64 ∧ 0 ≤ ph_memsz ph < 2 ^ 64 ∧ 0 ≤ ph_filesz ph < 2 ^ 64) as (Rv & Rm & Rf).
  { unfold ph, get_ph, get_u64. cbn [ph_vaddr ph_memsz ph_filesz]. split_and!; by apply field_range. }
  destruct (ph_type ph =? ELF_PROG_LOAD) eqn:Hty; cbn [negb].
  2:{ destruct (IH F T sz img x (int32 (off + PH_SIZE)) (off' + PH_SIZE) Him Hi Hf Hby (u32_next _ _ Hoff)) as (sz' & ok & w' & F' & T' & img' & E' & Hr' & Him' & Hok).
      exists sz', ok, w', F', T', img'. split_and!; [done|done|done|]. intros Ht. destruct (Hok Ht) as (Hs & -> & Himg). rewrite Hphs. cbn [foldl].
      assert (¬ is_load ph) as Hnl by (unfold is_load; lia). split_and!.
      - constructor; [by intros ?|done].
      - unfold top_seg at 3. by rewrite decide_False.
      - intros a. rewrite Himg. unfold add_seg at 3. by rewrite decide_False. }
  assert (is_load ph) as Hld by (unfold is_load; lia).
  destruct (ph_memsz ph <? ph_filesz ph) eqn:C1; [exact Hbad|]. destruct (u64 _ <? _) eqn:C2; [exact Hbad|].
  destruct (u64_add_lt _ _ Rv Rm C2) as [Hend Hu]. rewrite Hu in *.
  destruct (ph_vaddr ph mod PGSIZE =? 0) eqn:C3; cbn [negb]; [|exact Hbad].
  destruct (image_grow F0 w0 (e_vm x) F T sz img (ph_vaddr ph + ph_memsz ph) (flags2perm (ph_flags ph)) Him) as (sz1 & w1 & F1 & T1 & E1 & Hr1 & Hres);
    [rewrite lim_val; lia|lia|apply flags2perm_range|].
  rewrite (bind_eq _ _ _ _ _ (on_vm_eq _ x _ _ E1)). fold (with_vm x w1).
  pose proof (as_sz _ _ _ _ (im_space _ _ _ _ _ _ _ Him)) as Hsz.
  assert (sz1 = 0 → image F0 w0 w1 F1 T1 sz img) as Hfail.
  { intros ->. destruct Hres as [(Hm & _ & Him1 & _)|[_ Him1]]; [|done]. by replace sz with 0 by lia. }
  destruct (sz1 =? 0) eqn:C4.
  { exists sz, false, w1, F1, T1, img. split_and!; [done|done|apply Hfail; lia|done]. }
  destruct Hres as [(Hm & Hfit & Him1 & _)|[? _]]; [|lia].
  pose proof (image_count _ _ _ _ _ _ _ Him1) as Hcnt. pose proof (as_sz _ _ _ _ (im_space _ _ _ _ _ _ _ Him1)) as Hsz1.
  destruct (PGROUNDUP_lim sz1 Hsz1) as (Hq1 & Hq2 & Hq3).
  assert (ph_vaddr ph + ph_memsz ph ≤ PGROUNDUP sz1 < 2 ^ 32 - PGSIZE) as Hbound by (unfold PGSIZE in *; lia).
  rewrite (u32_id (ph_filesz ph)) by (unfold PGSIZE in *; lia). rewrite <-Hr1.
  destruct (loadseg_spec F0 w0 F1 T1 sz1 img (with_vm x w1) ip q (ph_vaddr ph) (u32 (ph_off ph)) (ph_filesz ph)) as (r2 & w2 & img2 & E2 & Him2 & Hr2);
    try done; [lia|lia|lia|lia|unfold u32; by apply Z.mod_pos_bound|].
  rewrite (bind_eq _ _ _ _ _ E2). change (with_vm (with_vm x w1) w2) with (with_vm x w2). change (file_bytes (e_fs (with_vm x w1)) q) with bytes in Hr2.
  destruct Hr2 as [->|(-> & Hlen & Himg2)].
  { change (-1 <? 0) with true. exists sz1, false, w2, F1, T1, img2. by split_and!. }
  change (0 <? 0) with false. cbn iota.
  destruct (IH F1 T1 sz1 img2 (with_vm x w2) (int32 (off + PH_SIZE)) (off' + PH_SIZE) Him2 Hi Hf Hby (u32_next _ _ Hoff)) as (sz' & ok & w' & F' & T' & img' & E' & Hr' & Him' & Hok).
  exists sz', ok, w', F', T', img'. split_and!; [exact E'|congruence|done|]. intros Ht. destruct (Hok Ht) as (Hs & -> & Himg). rewrite Hphs. cbn [foldl].
  change (file_bytes (e_fs (with_vm x w2)) q) with bytes in *. split_and!.
  - constructor; [|done]. intros _. split_and!; [lia|lia|lia|done].
  - unfold top_seg at 3. rewrite decide_True by done. by rewrite <-Hm.
  - intros a. rewrite Himg. apply add_seg_ext. intros b. rewrite Himg2. unfold add_seg. by rewrite decide_True.
Qed.
End load.

(** The stack of a new program: the guard page, the argument strings and the
    array of pointers to them ([xv6/kernel/exec.c]). *)

Section stack.
Context {A : Type} `{PageAlloc A}.
Implicit Types (w : vworld A) (T : tree) (F : gset Z) (x : eworld A).

(** ** The guard page *)

Definition no_user (e : Z) : Z := Z.land e (Z.lnot PTE_U).
Lemma no_user_bits e : PTE2PA (no_user e) = PTE2PA e ∧ Z.testbit (no_user e) 4 = false ∧ Z.testbit (no_user e) 0 = Z.testbit e 0.
Proof.
  unfold no_user, PTE2PA. rewrite Z.shiftr_land. change (Z.shiftr (Z.lnot PTE_U) 10) with (-1). rewrite Z.land_m1_r, !Z.land_spec.
  change (Z.testbit (Z.lnot PTE_U) 4) with false. change (Z.testbit (Z.lnot PTE_U) 0) with true. by rewrite andb_false_r, andb_true_r.
Qed.
Definition guarded (n e : Z) T : tree := set_L (<[n := no_user e]> (L T)) T.

Lemma uvmclear_spec w F T va e :
  vm_inv w F T → 0 ≤ va < MAXVA → L T !! (va / PGSIZE) = Some e →
  ∃ w', uvmclear (root T) va w = Some ((), w') ∧ vm_inv w' F (guarded (va / PGSIZE) e T) ∧ frame w w' F T.
Proof.
  intros Hinv Hva He. unfold uvmclear. pose proof (walk_entry w F T va Hinv Hva) as Hw.
  destruct (leaves T !! (PX 2 va, PX 1 va)) as [p|] eqn:Ep; destruct Hw as [Ew El]; [|congruence].
  rewrite (bind_eq _ _ _ _ _ Ew), (bind_eq _ _ _ _ _ El), He. change (default 0 (Some e)) with e.
  destruct (store_leaf w F T (PX 2 va) (PX 1 va) (PX 0 va) p (Some (no_user e)) Hinv Ep (PX_range 0 va ltac:(lia))) as (w' & E & Hinv' & Hfr & _).
  rewrite vpn_of_PX in Hinv' by done. by exists w'.
Qed.

(** ** Copying to pages that are there *)

(** The address space while the stack is filled: the user may write from
    [base] to [sz]. *)
Record stage F0 w0 w F T (base sz : Z) : Prop := {
  sg_space : space w F T sz;
  sg_words : ∀ n e, user n → L T !! n = Some e → ∃ ws, words w !! PTE2PA e = Some ws ∧ length ws = 512%nat;
  sg_pages : ∀ p, pages_of user F T p ↔ p ∈ F0;
  sg_frame : ∀ p, p ∉ F0 → words w !! p = words w0 !! p;
  sg_stack : ∀ va, base ≤ va < sz → writable lim T va;
}.
Lemma stage_user F0 w0 w F T base sz : stage F0 w0 w F T base sz → user_inv lim w F T.
Proof. intros [Hs Hw _ _ _]. by eapply space_user. Qed.

Lemma stage_store F0 w0 w F T base sz va bs :
  stage F0 w0 w F T base sz → base ≤ va < sz → 0 ≤ va → va mod PGSIZE + Z.of_nat (length bs) ≤ PGSIZE → Forall is_byte bs →
  ∃ e w', L T !! (va / PGSIZE) = Some e ∧ accessible lim T (va / PGSIZE) e ∧ Z.testbit e 2 = true ∧ PTE2PA e ≠ 0 ∧
    store_bytes (PTE2PA e) (va mod PGSIZE) bs w = Some ((), w') ∧ stage F0 w0 w' F T base sz ∧
    ∀ a, view lim 0 w' T a = if decide (va ≤ a < va + Z.of_nat (length bs)) then bs !! Z.to_nat (a - va) else view lim 0 w T a.
Proof.
  intros Hst Hva H0 Hl Hb. pose proof (stage_user _ _ _ _ _ _ _ Hst) as Hui. destruct Hst as [Hs Hw Hp Hf Hst].
  destruct (Hst va Hva) as (e & Hacc & Hb2). pose proof Hacc as (Hu & He & Hb4).
  pose proof (Z.mod_pos_bound va PGSIZE ltac:(done)) as Hm. pose proof (Z.div_mod va PGSIZE ltac:(done)) as Hd.
  destruct (store_bytes_spec lim 0 w F T (va / PGSIZE) e (va mod PGSIZE) bs) as (w' & E & Hui' & Hv'); [done|done|lia|done|done|].
  replace (va / PGSIZE * PGSIZE + va mod PGSIZE) with va in Hv' by lia.
  exists e, w'. split_and!; try done.
  - destruct (ow_valid _ _ _ (as_owns _ _ _ _ Hs) _ _ Hu He) as [Hv _]. pose proof (pa_valid_range _ Hv). lia.
  - destruct Hs as [_ _ Hsz Hlow Hk]. destruct Hui' as [Hi' Ho' Hw' _]. split; [by split|done|done| |done].
    intros p Hp0. rewrite <-Hf by done. unfold store_bytes in E. destruct (words w !! PTE2PA e) as [ws|]; [|done]. injection E as <-. cbn [words].
    apply lookup_insert_ne. intros <-. apply Hp0, Hp. right. right. by exists (va / PGSIZE), e.
Qed.

Lemma copyout_stage fuel : ∀ F0 w0 w F T base sz dst src,
  stage F0 w0 w F T base sz → base ≤ dst → 0 ≤ dst → dst + Z.of_nat (length src) ≤ sz → Forall is_byte src → (length src < fuel)%nat →
  ∃ w', copyout fuel (root T) sz dst src w = Some (0, w') ∧ stage F0 w0 w' F T base sz ∧
    ∀ a, view lim 0 w' T a = if decide (dst ≤ a < dst + Z.of_nat (length src)) then src !! Z.to_nat (a - dst) else view lim 0 w T a.
Proof.
  induction fuel as [|fuel IH]; intros F0 w0 w F T base sz dst src Hst Hbase H0 Hfit Hb Hfuel; [lia|].
  destruct (decide (src = [])) as [->|Hne].
  { exists w. split_and!; [done|done|]. intros a. by rewrite decide_False by (simpl; lia). }
  assert (0 < length src)%nat as Hpos by (destruct src; [done|simpl; lia]). rewrite copyout_S by done. cbv zeta.
  pose proof (as_sz _ _ _ _ (sg_space _ _ _ _ _ _ _ Hst)) as Hsz. rewrite lim_val in Hsz.
  destruct (page_split dst H0) as (H1 & H2 & H3 & H4 & H5 & H6). set (va0 := PGROUNDDOWN dst) in *.
  assert (va0 < MAXVA) as Hmx by (rewrite MAXVA_val; unfold PGSIZE in *; lia). rewrite (proj2 (Z.leb_gt _ _)) by lia.
  set (n := Nat.min (Z.to_nat (PGSIZE - (dst - va0))) (length src)).
  destruct (stage_store F0 w0 w F T base sz dst (take n src)) as (e & w1 & He & Hacc & Hb2 & Hpa & E1 & Hst1 & Hv1);
    [done|lia|done|rewrite length_take; lia|by apply Forall_take|].
  pose proof (stage_user _ _ _ _ _ _ _ Hst) as Hui. pose proof Hacc as (Hu & _ & Hb4).
  assert (fetch_page (root T) sz va0 w = Some (PTE2PA e, w)) as Ef.
  { unfold fetch_page. rewrite (bind_eq _ _ _ _ _ (walkaddr_spec lim 0 ltac:(done) w F T va0 Hui H6)), H4, He, decide_True, Hb4 by done.
    by rewrite (proj2 (Z.eqb_neq _ _) Hpa). }
  rewrite (bind_eq _ _ _ _ _ Ef), (proj2 (Z.eqb_neq _ _) Hpa). rewrite <-H4 in He.
  erewrite (walk_mapped w F T va0 e); [|apply (ui_inv _ _ _ _ Hui)|lia|done|reflexivity]. cbn beta. rewrite Hb2. cbn [negb].
  rewrite H2, (bind_eq _ _ _ _ _ E1), u64_id by (rewrite MAXVA_val in Hmx; unfold PGSIZE in *; lia).
  assert (n = length src ∨ va0 + PGSIZE = dst + Z.of_nat n) as Hnext by lia.
  rewrite length_take_le in Hv1 by lia.
  destruct (decide (n = length src)) as [En|En].
  - rewrite drop_ge by lia. destruct fuel as [|fuel]; [lia|]. exists w1. split_and!; [done|done|]. rewrite En in Hv1. intros a. rewrite Hv1. rewrite take_ge by lia. done.
  - destruct (IH F0 w0 w1 F T base sz (va0 + PGSIZE) (drop n src)) as (w' & E' & Hst' & Hv'); [done|lia|lia|rewrite length_drop; lia|by apply Forall_drop|rewrite length_drop; lia|].
    exists w'. split_and!; [done|done|]. destruct Hnext as [|Hnext]; [done|]. rewrite length_drop, Hnext in Hv'. intros a. rewrite Hv', Hv1.
    destruct (decide (dst + Z.of_nat n ≤ a < dst + Z.of_nat n + Z.of_nat (length src - n))).
    + rewrite decide_True by lia. rewrite lookup_drop. f_equal. lia.
    + destruct (decide (dst ≤ a < dst + Z.of_nat n)); [|by rewrite decide_False by lia]. rewrite decide_True by lia. apply lookup_take_lt. lia.
Qed.

(** ** Arguments *)

Definition arg_ok (s : list Z) : Prop := Forall is_byte s ∧ Z.of_nat (length s) < PGSIZE.

(** The strings are in memory at the pointers, between [lo] and [hi]. *)
Definition strings w T (lo hi : Z) (ptrs : list Z) (argv : list (list Z)) : Prop :=
  Forall2 (λ q s, lo ≤ q ∧ q + Z.of_nat (length s) + 1 ≤ hi ∧ seen lim 0 w T q (s ++ [0])) ptrs argv.

Lemma seen_kept w w' T q bs : (∀ a, q ≤ a < q + Z.of_nat (length bs) → view lim 0 w' T a = view lim 0 w T a) → seen lim 0 w T q bs → seen lim 0 w' T q bs.
Proof. intros Hv Hs k Hk. rewrite Hv by lia. by apply Hs. Qed.
Lemma strings_kept w w' T lo lo' hi ptrs argv :
  lo' ≤ lo → (∀ a, lo ≤ a < hi → view lim 0 w' T a = view lim 0 w T a) → strings w T lo hi ptrs argv → strings w' T lo' hi ptrs argv.
Proof.
  intros Hlo Hv Hs. eapply Forall2_impl; [exact Hs|]. intros q s (H1 & H2 & H3). split_and!; [lia|lia|].
  eapply seen_kept; [|exact H3]. intros a. rewrite length_app. cbn [length]. intros Ha. apply Hv. lia.
Qed.
Lemma strings_app w T lo hi p1 p2 a1 a2 : strings w T lo hi p1 a1 → strings w T lo hi p2 a2 → strings w T lo hi (p1 ++ p2) (a1 ++ a2).
Proof. apply Forall2_app. Qed.

Lemma push_args_spec F0 w0 F T base sz (Hbase : PGSIZE ≤ base) argv : ∀ sp x ustack done,
  stage F0 w0 (e_vm x) F T base sz → base ≤ sp ≤ sz → Forall arg_ok argv → strings (e_vm x) T sp sz ustack done → Z.of_nat (length ustack + length argv) < MAXARG →
  ∃ o w', push_args (root T) sz base argv sp ustack x = Some (o, with_vm x w') ∧ stage F0 w0 w' F T base sz ∧
    (∀ a, ¬ (base ≤ a < sp) → view lim 0 w' T a = view lim 0 (e_vm x) T a) ∧
    match o with
    | None => True
    | Some (sp', us) => base ≤ sp' ≤ sp ∧ strings w' T sp' sz us (done ++ argv)
    end.
Proof.
  induction argv as [|s argv IH]; intros sp x ustack done Hst Hsp Hargs Hstr Hnum.
  { exists (Some (sp, ustack)), (e_vm x). split_and!; [by destruct x|done|done|lia|lia|by rewrite app_nil_r]. }
  apply Forall_cons in Hargs as [[Hby Hlen] Hargs]. cbn [push_args].
  pose proof (as_sz _ _ _ _ (sg_space _ _ _ _ _ _ _ Hst)) as Hsz. rewrite lim_val in Hsz.
  rewrite u64_id by (unfold PGSIZE in *; lia). set (sp0 := sp - (Z.of_nat (length s) + 1)).
  pose proof (Z.mod_pos_bound sp0 16 ltac:(done)) as Hmod. set (sp1 := sp0 - sp0 mod 16).
  destruct (sp1 <? base) eqn:Hlow.
  { exists None, (e_vm x). split_and!; [by destruct x|done|done|done]. }
  assert (length (s ++ [0]) = S (length s)) as Hl1 by (rewrite length_app; simpl; lia).
  destruct (copyout_stage (S (S (length s))) F0 w0 (e_vm x) F T base sz sp1 (s ++ [0])) as (w1 & E & Hst1 & Hv1);
    [done|lia|unfold PGSIZE in *; lia|rewrite Hl1; lia|apply Forall_app; split; [done|repeat constructor; done]|lia|].
  rewrite (bind_eq _ _ _ _ _ (on_vm_eq _ x _ _ E)). change (0 <? 0) with false. cbn iota. fold (with_vm x w1). rewrite Hl1 in Hv1.
  unfold ustack_put. cbn [length] in Hnum. rewrite (proj2 (Z.ltb_lt _ MAXARG)) by lia.
  destruct (IH sp1 (with_vm x w1) (ustack ++ [sp1]) (done ++ [s])) as (o & w' & E' & Hst' & Hv' & Ho); [done|lia|done| |rewrite length_app; cbn [length]; lia|].
  { apply strings_app.
    - eapply strings_kept; [|..|exact Hstr]; [lia|]. intros a Ha. cbn [with_vm e_vm]. rewrite Hv1. rewrite decide_False by lia. done.
    - constructor; [|constructor]. split_and!; [lia|lia|]. intros k Hk. cbn [with_vm e_vm]. rewrite Hv1, decide_True by lia. f_equal. lia. }
  exists o, w'. split_and!; [exact E'|done| |].
  - intros a Ha. rewrite Hv' by lia. cbn [with_vm e_vm]. rewrite Hv1. by rewrite decide_False by lia.
  - destruct o as [[sp' us]|]; [|done]. destruct Ho as [Hr Hs]. split; [lia|]. by rewrite <-app_assoc in Hs.
Qed.
End stack.
