(* ===== verification/ExecSpec.v ===== *)
(** Running a program: what [kexec] of [xv6/kernel/exec.c] leaves behind, with
    and without success. *)
From S2P Require Import Prelude Kalloc Proc Vm VmSpec VmUser VmAlloc VmKmem VmLife VmBytes VmCopyio Fs FsBlock FsFile FsRw FsDir Exec ExecSpace ExecLoad FileRw.

Section exec.
Context {A : Type} `{PageAlloc A} (sb : superblock) (Hsb : layout_ok sb) (trampoline : Z) (Htramp : 0 ≤ trampoline < 2 ^ 56).
Implicit Types (w : vworld A) (T : tree) (F : gset Z) (x : eworld A).

(** ** From the image to the stack *)

Lemma image_round F0 w0 w F T sz img : image F0 w0 w F T sz img → image F0 w0 w F T (PGROUNDUP sz) img ∧ PGROUNDUP (PGROUNDUP sz) = PGROUNDUP sz.
Proof.
  intros [[H1 H2 Hsz H4 H5] H6 H7 H8 H9 H10 H11]. destruct (PGROUNDUP_lim sz Hsz) as (Hr & Hm & Hle). rewrite lim_val in *.
  assert (PGROUNDUP (PGROUNDUP sz) = PGROUNDUP sz) as E.
  { apply PGROUNDUP_aligned; [unfold PGSIZE in *; lia|]. rewrite <-Hm. by apply Z.mod_mul. }
  split; [|done]. split; rewrite ?E; try done. split; rewrite ?E; try done. rewrite lim_val. unfold PGSIZE in *. lia.
Qed.

Lemma guarded_owns F T n e : owns F T user → L T !! n = Some e → owns F (guarded n e T) user.
Proof.
  intros [H1 H2 H3 H4] He. destruct (no_user_bits e) as (Hp & _ & Hb0).
  assert (∀ m e', L (guarded n e T) !! m = Some e' → ∃ e1, L T !! m = Some e1 ∧ PTE2PA e' = PTE2PA e1 ∧ Z.testbit e' 0 = Z.testbit e1 0) as Hc.
  { intros m e'. cbn [guarded set_L L]. intros [[<- <-]|[_ Hm]]%lookup_insert_Some; [by exists e|by exists e']. }
  assert (∀ k, addr (guarded n e T) k = addr T k) as Ha by by intros [].
  split.
  - intros m e' Hm (e1 & He1 & _ & ->)%Hc. by eapply H1.
  - intros m e' Hm (e1 & He1 & -> & _)%Hc. by eapply H2.
  - intros m e' k Hm (e1 & He1 & -> & _)%Hc. rewrite Ha. by eapply H3.
  - intros m e' m' e2 Hm Hm' (e1 & He1 & -> & _)%Hc (e3 & He3 & -> & _)%Hc. by eapply H4.
Qed.
Lemma guarded_pages F T n e p : user n → L T !! n = Some e → pages_of user F (guarded n e T) p ↔ pages_of user F T p.
Proof.
  intros Hu He. destruct (no_user_bits e) as (Hp & _ & _). unfold pages_of, mapped_by. assert (∀ k, addr (guarded n e T) k = addr T k) as Ha by by intros [].
  setoid_rewrite Ha. cbn [guarded set_L L]. split; (intros [?|[?|(m & e' & Hm & He' & ->)]]; [by left|by right; left|right; right]).
  - apply lookup_insert_Some in He' as [[<- <-]|[_ He']]; [by exists n, e|by exists m, e'].
  - destruct (decide (m = n)) as [->|Hne]; [exists n, (no_user e)|exists m, e']; [rewrite lookup_insert_eq|rewrite lookup_insert_ne by done; done].
    split_and!; [done|done|]. rewrite Hp. congruence.
Qed.

(** The two pages above the image: the guard, and the stack. *)
Lemma stack_stage F0 w0 w F T t img :
  image F0 w0 w F T (t + 2 * PGSIZE) img → 0 ≤ t → t mod PGSIZE = 0 →
  (∀ n, t / PGSIZE ≤ n < t / PGSIZE + 2 → ∃ p, L T !! n = Some (leaf_pte p (zero_perm PTE_W))) →
  ∃ w' T', uvmclear (root T) t w = Some ((), w') ∧ root T' = root T ∧ stage F0 w0 w' F T' (t + PGSIZE) (t + 2 * PGSIZE) ∧
    (∀ a, 0 ≤ a < t → view lim 0 w' T' a = Some (img a)) ∧ ∀ a, t ≤ a < t + PGSIZE → view lim 0 w' T' a = None.
Proof.
  intros Him Ht Hal Hperm. pose proof (image_user _ _ _ _ _ _ _ Him) as Hui. destruct Him as [Hs Hw Ha Hp Hf Hv Hz].
  pose proof (as_sz _ _ _ _ Hs) as Hsz. rewrite lim_val in Hsz. pose proof (Z.div_mod t PGSIZE ltac:(done)) as Hd. rewrite Hal, Z.add_0_r in Hd.
  assert (PGROUNDUP (t + 2 * PGSIZE) = t + 2 * PGSIZE) as Hr.
  { apply PGROUNDUP_aligned; [unfold PGSIZE in *; lia|]. by rewrite Z.mod_add. }
  rewrite Hr in *. destruct (Hperm (t / PGSIZE) ltac:(lia)) as (pg & Hg). set (e := leaf_pte pg (zero_perm PTE_W)) in *.
  assert (user (t / PGSIZE)) as Hu by (unfold user_page_no; rewrite lim_val; unfold PGSIZE in *; lia).
  destruct (uvmclear_spec w F T t e (as_inv _ _ _ _ Hs)) as (w' & E & Hi' & Hfr); [rewrite MAXVA_val; unfold PGSIZE in *; lia|done|].
  destruct (no_user_bits e) as (Hnp & Hn4 & Hn0). exists w', (guarded (t / PGSIZE) e T).
  assert (∀ n e', user n → L T !! n = Some e' → words w' !! PTE2PA e' = words w !! PTE2PA e') as Hk.
  { intros n e' Hn He'. apply Hfr; [by apply (ow_valid _ _ _ (as_owns _ _ _ _ Hs) n e')|intros m; by apply (ow_tree _ _ _ (as_owns _ _ _ _ Hs) n e' m)]. }
  split_and!; [done|done| | |].
  - split.
    + split; [done|by apply guarded_owns; [apply (as_owns _ _ _ _ Hs)|]|rewrite lim_val; done| |].
      * intros n e' Hn. cbn [guarded set_L L]. intros [[<- <-]|[_ He']]%lookup_insert_Some; [|by apply (as_low _ _ _ _ Hs n e' Hn)].
        by apply (as_low _ _ _ _ Hs _ e Hu).
      * intros n e' Hn. cbn [guarded set_L L]. intros [[<- <-]|[_ He']]%lookup_insert_Some; [done|by apply (as_kern _ _ _ _ Hs n e' Hn)].
    + intros n e' Hn. cbn [guarded set_L L]. intros [[<- <-]|[_ He']]%lookup_insert_Some.
      * rewrite Hnp, (Hk _ _ Hu Hg). by apply (Hw _ _ Hu Hg).
      * rewrite (Hk _ _ Hn He'). by apply (Hw _ _ Hn He').
    + intros p. by rewrite guarded_pages.
    + intros p Hp0. rewrite <-Hf by done. apply (frame_pages _ _ F T); [done|by rewrite Hp].
    + intros va Hva. assert (va / PGSIZE = t / PGSIZE + 1) as Ev.
      { pose proof (Z.div_mod va PGSIZE ltac:(done)). pose proof (Z.mod_pos_bound va PGSIZE ltac:(done)). unfold PGSIZE in *. lia. }
      destruct (Hperm (t / PGSIZE + 1) ltac:(lia)) as (p1 & H1). exists (leaf_pte p1 (zero_perm PTE_W)). rewrite Ev. split; [|by rewrite leaf_pte_bit].
      split_and!; [unfold user_page_no; rewrite lim_val; unfold PGSIZE in *; lia| |by rewrite leaf_pte_bit].
      cbn [guarded set_L L]. by rewrite lookup_insert_ne by lia.
  - intros a Ha'. rewrite <-Hv by (unfold PGSIZE in *; lia). unfold view. cbn [guarded set_L L].
    assert (a / PGSIZE ≠ t / PGSIZE) as Hne.
    { pose proof (Z.div_mod a PGSIZE ltac:(done)). pose proof (Z.mod_pos_bound a PGSIZE ltac:(done)). unfold PGSIZE in *. lia. }
    rewrite lookup_insert_ne by done. case_decide as Hua; [|done]. destruct (L T !! (a / PGSIZE)) as [e'|] eqn:Ee; [|done].
    destruct (Z.testbit e' 4); [|done]. by rewrite (Hk _ _ Hua Ee).
  - intros a Ha'. assert (a / PGSIZE = t / PGSIZE) as Ea.
    { pose proof (Z.div_mod a PGSIZE ltac:(done)). pose proof (Z.mod_pos_bound a PGSIZE ltac:(done)). unfold PGSIZE in *. lia. }
    unfold view. rewrite Ea. cbn [guarded set_L L]. rewrite lookup_insert_eq, Hn4. by case_decide.
Qed.

(** ** Failure, and commit *)

(** All pages that were free are free again, and no other has changed. *)
Definition restored F0 w0 w : Prop := pa_ok (alloc w) F0 ∧ ∀ p, p ∉ F0 → words w !! p = words w0 !! p.

Lemma give_back F0 w0 w F T sz :
  space w F T sz → (∀ p, pages_of user F T p ↔ p ∈ F0) → (∀ p, p ∉ F0 → words w !! p = words w0 !! p) →
  ∃ w', proc_freepagetable (root T) sz w = Some ((), w') ∧ restored F0 w0 w'.
Proof.
  intros Hs Hp Hf. destruct (freepagetable_spec w F T sz Hs) as (w' & F' & E & Hok & HF & Hf'). exists w'. split; [done|].
  assert (F' = F0) as -> by (apply set_eq; intros p; by rewrite HF, Hp). split; [done|].
  intros p Hn. rewrite Hf' by (by rewrite Hp). by apply Hf.
Qed.

(** Another address space whose pages are not among [F0]. *)
Lemma other_space F0 w0 w F To sz :
  space w0 F0 To sz → (∀ p, p ∉ F0 → words w !! p = words w0 !! p) → pa_ok (alloc w) F → (∀ p, p ∈ F → p ∈ F0) → space w F To sz.
Proof.
  intros [[_ [H1 H2 H3 H4 H5 H6]] [O1 O2 O3 O4] Hsz Hl Hk] Hf Hok Hsub. split; [|split; try done|done|done|done].
  - split; [done|]. split; try done.
    + intros n p Hp. destruct (H1 n p Hp) as (ws & Hws & Hr). exists ws. split; [|done]. rewrite Hf; [done|]. by apply (H2 n p).
    + intros n p Hp. destruct (H2 n p Hp) as [Hv Hn]. split; [done|]. by intros ?%Hsub.
  - intros n e Hn He. destruct (O2 n e Hn He) as [Hv HnF]. split; [done|]. by intros ?%Hsub.
Qed.

(** The old address space is freed; the new one keeps what it shows. *)
Lemma free_old F0 w0 w F T To sz so base :
  space w0 F0 To so → stage F0 w0 w F T base sz →
  ∃ w' F', proc_freepagetable (root To) so w = Some ((), w') ∧ space w' F' T sz ∧
    (∀ p, pages_of user F' T p ↔ pages_of user F0 To p) ∧ ∀ a, view lim 0 w' T a = view lim 0 w T a.
Proof.
  intros Ho [Hs Hw Hp Hf _]. destruct Hs as [[Hok HT] Hown Hsz Hl Hk].
  assert (∀ p, p ∈ F → p ∈ F0) as Hsub by (intros p Hin; apply Hp; by left).
  assert (∀ p, pages_of user F0 To p → p ∈ F0 ∨ ((p ∉ F0) ∧ ((∃ n, addr To n = Some p) ∨ mapped_by To user p))) as Hcase.
  { intros p [?|[[n Hn]|(n & e & Hn & He & ->)]]; [by left|right|right]; destruct Ho as [Hoi Hoo _ _ _].
    - split; [by apply (vm_inv_disjoint _ _ _ Hoi) in Hn|left; by exists n].
    - split; [by apply (ow_valid _ _ _ Hoo n e)|right; by exists n, e]. }
  destruct (freepagetable_spec w F To so) as (w' & F' & E & Hok' & HF & Hf'); [by eapply other_space|].
  assert (∀ p, p ∈ F0 → p ∉ F → ¬ pages_of user F To p) as Hno.
  { intros p Hp0 HpF [?|[[n Hn]|(n & e & Hn & He & ->)]]; [done| |]; destruct Ho as [Hoi Hoo _ _ _].
    - by apply (vm_inv_disjoint _ _ _ Hoi) in Hn.
    - by apply (ow_valid _ _ _ Hoo n e) in Hp0. }
  assert (∀ n p, addr T n = Some p → p ∉ F' ∧ words w' !! p = words w !! p) as Htree.
  { intros n p Hn. assert (p ∈ F0) as Hp0 by (apply Hp; right; left; by exists n). assert (p ∉ F) as HpF by by apply (ti_valid _ _ _ HT n p).
    split; [rewrite HF; by apply Hno|by apply Hf', Hno]. }
  assert (∀ n e, user n → L T !! n = Some e → PTE2PA e ∉ F' ∧ words w' !! PTE2PA e = words w !! PTE2PA e) as Huser.
  { intros n e Hn He. assert (PTE2PA e ∈ F0) as Hp0 by (apply Hp; right; right; by exists n, e).
    assert (PTE2PA e ∉ F) as HpF by by apply (ow_valid _ _ _ Hown n e). split; [rewrite HF; by apply Hno|by apply Hf', Hno]. }
  exists w', F'. split_and!; [done| | |].
  - split; [|destruct Hown as [O1 O2 O3 O4]; split; try done|done|done|done].
    + split; [done|]. destruct HT as [H1 H2 H3 H4 H5 H6]. split; try done.
      * intros n p Hn. destruct (H1 n p Hn) as (ws & Hws & Hr). exists ws. split; [|done]. destruct (Htree n p Hn) as [_ ->]. done.
      * intros n p Hn. split; [by apply (H2 n p)|by apply (Htree n p)].
    + intros n e Hn He. split; [by apply (O2 n e)|by apply (Huser n e)].
  - intros p. unfold pages_of at 1. rewrite HF. unfold pages_of at 1 2. specialize (Hp p). unfold pages_of in Hp. specialize (Hsub p). tauto.
  - intros a. unfold view. case_decide as Hu; [|done]. destruct (L T !! (a / PGSIZE)) as [e|] eqn:Ee; [|done].
    destruct (Z.testbit e 4); [|done]. by destruct (Huser _ _ Hu Ee) as [_ ->].
Qed.

(** ** The stack *)

Lemma pointer_bytes l : length (concat (le_enc 8 <$> l)) = (8 * length l)%nat ∧ Forall is_byte (concat (le_enc 8 <$> l)).
Proof.
  assert (∀ n v, Forall is_byte (le_enc n v)) as Hb.
  { induction n as [|n IH]; intros v; [constructor|]. constructor; [|apply IH]. unfold is_byte. by apply Z.mod_pos_bound. }
  induction l as [|v l [IHl IHb]]; [done|]. cbn [fmap list_fmap concat]. rewrite length_app, le_enc_length, IHl. split; [cbn [length]; lia|].
  apply Forall_app. by split.
Qed.

(** A process [p] that starts a program: [img] are the bytes that were loaded,
    up to the page boundary [t]. Above them are a page that the user cannot
    access and the stack, with the strings of [argv] and an array of pointers
    to them at the stack pointer. *)
Definition set_up (t : Z) (img : Z → Z) (argv : list (list Z)) w T (sz sp : Z) : Prop := ∃ ptrs,
  sz = t + 2 * PGSIZE ∧ (∀ a, 0 ≤ a < t → view lim 0 w T a = Some (img a)) ∧
  (∀ a, t ≤ a < t + PGSIZE → view lim 0 w T a = None) ∧ t + PGSIZE ≤ sp ∧ sp mod 16 = 0 ∧
  seen lim 0 w T sp (concat (le_enc 8 <$> (ptrs ++ [0]))) ∧
  strings w T (sp + 8 * Z.of_nat (length argv + 1)) sz ptrs argv.

Definition failed F0 w0 p x' (r : Z) : Prop := r = -1 ∧ e_proc x' = p ∧ restored F0 w0 (e_vm x').
Definition started F0 To (t : Z) (img : Z → Z) (path : list Z) (argv : list (list Z)) (entry : Z) p x' (r : Z) : Prop :=
  r = Z.of_nat (length argv) ∧ ∃ F' T' sp sz, e_proc x' = mkEproc (root T') sz (x_trapframe p) sp entry sp (take 15 (last_elem path path)) ∧
    space (e_vm x') F' T' sz ∧ (∀ q, pages_of user F' T' q ↔ pages_of user F0 To q) ∧ set_up t img argv (e_vm x') T' sz sp.

Lemma set_up_view t img argv w w' T sz sp : (∀ a, view lim 0 w' T a = view lim 0 w T a) → set_up t img argv w T sz sp → set_up t img argv w' T sz sp.
Proof.
  intros Hv (ptrs & H1 & H2 & H3 & H4 & H5 & H6 & H7). exists ptrs. split_and!; [done|intros a Ha; rewrite Hv; auto|intros a Ha; rewrite Hv; auto|done|done| |].
  - by eapply seen_kept; [|exact H6].
  - by eapply strings_kept; [..|exact H7].
Qed.

Lemma free_bad F0 w0 x F T sz :
  space (e_vm x) F T sz → (∀ p, pages_of user F T p ↔ p ∈ F0) → (∀ p, p ∉ F0 → words (e_vm x) !! p = words w0 !! p) →
  ∃ w', (on_vm (proc_freepagetable (root T) sz);; mret (-1)) x = Some (-1, with_vm x w') ∧ restored F0 w0 w'.
Proof.
  intros Hs Hp Hf. destruct (give_back F0 w0 (e_vm x) F T sz Hs Hp Hf) as (w' & E & Hr). exists w'. by rewrite (bind_eq _ _ _ _ _ (on_vm_eq _ x _ _ E)).
Qed.

Lemma exec_stack_spec F0 w0 x F T To sz img path argv entry :
  image F0 w0 (e_vm x) F T sz img → space w0 F0 To (x_sz (e_proc x)) → root To = x_pagetable (e_proc x) → Z.of_nat (count F0) < 2 ^ 20 - 1 →
  Forall arg_ok argv → Z.of_nat (length argv) < MAXARG →
  ∃ r x', exec_stack path argv entry (root T) sz x = Some (r, x') ∧ e_fs x' = e_fs x ∧ e_outs x' = e_outs x ∧
    (failed F0 w0 (e_proc x) x' r ∨ started F0 To (PGROUNDUP sz) img path argv entry (e_proc x) x' r).
Proof.
  intros Him Ho HrTo HF Hargs Hargc. unfold exec_stack. destruct (image_round _ _ _ _ _ _ _ Him) as [Him0 Hrr]. set (t := PGROUNDUP sz) in *.
  pose proof (as_sz _ _ _ _ (im_space _ _ _ _ _ _ _ Him0)) as Ht. rewrite lim_val in Ht. change ((USERSTACK + 1) * PGSIZE) with (2 * PGSIZE).
  rewrite (u64_id (t + 2 * PGSIZE)) by (unfold PGSIZE in *; lia). assert (t mod PGSIZE = 0) as Hal.
  { destruct (PGROUNDUP_spec t ltac:(unfold PGSIZE in *; lia)) as [_ Hm]. by rewrite Hrr in Hm. }
  pose proof (Z.div_mod t PGSIZE ltac:(done)) as Hd. rewrite Hal, Z.add_0_r in Hd.
  destruct (image_grow F0 w0 (e_vm x) F T t img (t + 2 * PGSIZE) PTE_W Him0) as (r & w1 & F1 & T1 & E1 & Hr1 & Hres); [rewrite lim_val; lia|unfold PGSIZE in *; lia|done|].
  rewrite (bind_eq _ _ _ _ _ (on_vm_eq _ x _ _ E1)). fold (with_vm x w1). rewrite <-Hr1.
  destruct Hres as [(-> & Hfit & Him1 & Hperm)|[-> Him1]].
  2:{ change (0 =? 0) with true. cbn iota. destruct Him1 as [Hs _ _ Hp Hf _ _]. destruct (free_bad F0 w0 (with_vm x w1) F1 T1 t Hs Hp Hf) as (w' & E & Hr).
      exists (-1), (with_vm x w'). split_and!; [exact E|done|done|by left]. }
  rewrite Z.max_r in * by (unfold PGSIZE; lia). rewrite (proj2 (Z.eqb_neq (t + 2 * PGSIZE) 0)) by (unfold PGSIZE; lia).
  replace (t + 2 * PGSIZE - 2 * PGSIZE) with t by lia. rewrite (u64_id t) by (unfold PGSIZE in *; lia). rewrite lim_val in Hfit.
  destruct (stack_stage F0 w0 w1 F1 T1 t img Him1) as (w2 & T2 & E2 & Hr2 & Hst & Hvl & Hvg); [lia|done| |].
  { intros n Hn. apply Hperm. unfold between. rewrite Hrr, PGROUNDUP_aligned; [|unfold PGSIZE in *; lia|by rewrite Z.mod_add].
    rewrite Z.div_add by done. lia. }
  rewrite (bind_eq _ _ _ _ _ (on_vm_eq _ (with_vm x w1) _ _ E2)). fold (with_vm x w2). change (mkEworld (e_fs (with_vm x w1)) (e_outs (with_vm x w1)) w2 (e_proc (with_vm x w1))) with (with_vm x w2).
  change (USERSTACK * PGSIZE) with PGSIZE. replace (t + 2 * PGSIZE - PGSIZE) with (t + PGSIZE) by lia. rewrite (u64_id (t + PGSIZE)) by (unfold PGSIZE in *; lia).
  set (s := t + 2 * PGSIZE) in *. rewrite <-Hr2.
  destruct (push_args_spec F0 w0 F1 T2 (t + PGSIZE) s ltac:(unfold PGSIZE in *; lia) argv s (with_vm x w2) [] []) as (o & w3 & E3 & Hst3 & Hv3 & Hres);
    [done|unfold s, PGSIZE; lia|done|constructor|done|].
  rewrite (bind_eq _ _ _ _ _ E3). change (with_vm (with_vm x w2) w3) with (with_vm x w3).
  assert (∀ w4, stage F0 w0 w4 F1 T2 (t + PGSIZE) s → ∃ r x', (on_vm (proc_freepagetable (root T2) s);; mret (-1)) (with_vm x w4) = Some (r, x') ∧ e_fs x' = e_fs x ∧ e_outs x' = e_outs x ∧
    (failed F0 w0 (e_proc x) x' r ∨ started F0 To t img path argv entry (e_proc x) x' r)) as Hbad.
  { intros w4 [Hs _ Hp Hf _]. destruct (free_bad F0 w0 (with_vm x w4) F1 T2 s Hs Hp Hf) as (w' & E & Hr). exists (-1), (with_vm x w'). split_and!; [exact E|done|done|by left]. }
  destruct o as [[sp us]|]; [|by apply Hbad]. destruct Hres as [Hsp Hstr]. cbn [app] in Hstr. pose proof (Forall2_length _ _ _ Hstr) as Hlen.
  unfold ustack_put. rewrite Hlen, (proj2 (Z.ltb_lt _ MAXARG) Hargc). cbn beta iota. unfold MAXARG in Hargc. rewrite u64_id by (unfold s, PGSIZE in *; lia). set (sp0 := sp - (Z.of_nat (length argv) + 1) * 8).
  pose proof (Z.mod_pos_bound sp0 16 ltac:(done)) as Hmod. set (sp1 := sp0 - sp0 mod 16). destruct (sp1 <? t + PGSIZE) eqn:Hlow; [by apply Hbad|].
  destruct (pointer_bytes (us ++ [0])) as [Hbl Hbb]. set (bytes := concat (le_enc 8 <$> (us ++ [0]))) in *. rewrite length_app, Hlen in Hbl. cbn [length] in Hbl.
  destruct (copyout_stage (S (length bytes)) F0 w0 w3 F1 T2 (t + PGSIZE) s sp1 bytes) as (w4 & E4 & Hst4 & Hv4); [done|lia|unfold PGSIZE in *; lia|rewrite Hbl; lia|done|lia|].
  rewrite (bind_eq _ _ _ _ _ (on_vm_eq _ (with_vm x w3) _ _ E4)). change (0 <? 0) with false. cbn iota.
  change (mkEworld (e_fs (with_vm x w3)) (e_outs (with_vm x w3)) w4 (e_proc (with_vm x w3))) with (with_vm x w4).
  rewrite (bind_eq _ _ (with_vm x w4) (e_proc x) (with_vm x w4)) by done.
  set (p' := mkEproc (root T2) s (x_trapframe (e_proc x)) sp1 entry sp1 (take 15 (last_elem path path))).
  rewrite (bind_eq _ _ (with_vm x w4) () (mkEworld (e_fs x) (e_outs x) w4 p')) by done.
  destruct (free_old F0 w0 w4 F1 T2 To s (x_sz (e_proc x)) (t + PGSIZE) Ho Hst4) as (w5 & F5 & E5 & Hs5 & Hp5 & Hv5).
  rewrite <-HrTo, (bind_eq _ _ _ _ _ (on_vm_eq _ (mkEworld (e_fs x) (e_outs x) w4 p') _ _ E5)).
  eexists _, _. split; [reflexivity|]. split_and!; [done|done|right]. split; [done|]. exists F5, T2, sp1, s. split_and!; [done|done|done|].
  apply (set_up_view _ _ _ w4); [done|]. exists us.
  assert (∀ a, ¬ (t + PGSIZE ≤ a < s) → view lim 0 w4 T2 a = view lim 0 w2 T2 a) as Hsame.
  { intros a Ha. rewrite Hv4, decide_False by (unfold s, PGSIZE in *; lia). apply Hv3. exact Ha. }
  split_and!; [done| | |lia| | |].
  - intros a Ha. rewrite Hsame by (unfold PGSIZE in *; lia). by apply Hvl.
  - intros a Ha. rewrite Hsame by (unfold PGSIZE in *; lia). by apply Hvg.
  - unfold sp1. rewrite Zminus_mod_idemp_r, Z.sub_diag. done.
  - fold bytes. intros k Hk. rewrite Hv4, decide_True by lia. f_equal. lia.
  - eapply (Forall2_impl _ _ _ _ (strings_kept w3 w4 T2 sp sp s us argv ltac:(lia) ltac:(intros a Ha; rewrite Hv4; apply decide_False; lia) Hstr)).
    intros q str (H1 & H2 & H3). split_and!; [lia|done|done].
Qed.

(** ** The whole call *)

Lemma empty_image F0 w0 w F T :
  space w F T 0 → (∀ p, pages_of user F T p ↔ p ∈ F0) → (∀ p, p ∉ F0 → words w !! p = words w0 !! p) → image F0 w0 w F T 0 (λ _, 0).
Proof.
  intros Hs Hp Hf. pose proof (as_low _ _ _ _ Hs) as Hl. change (PGROUNDUP 0 / PGSIZE) with 0 in Hl.
  split; [done| |change (PGROUNDUP 0 / PGSIZE) with 0; lia|done|done|change (PGROUNDUP 0) with 0; lia|done].
  intros n e Hn He. specialize (Hl n e Hn He). destruct Hn. lia.
Qed.

(** The file after the call: one reference less. *)
Definition released (fw : fsw) (ip : nat) (q : inode) : fsw := mkFsw (blk fw) (<[ip := set_ref (ref q - 1) q]> (itable fw)).

Lemma put_inode fw ip q :
  itable fw !! ip = Some q → 0 < ref q → locked q = false → nlink q ≠ 0 → iunlockput sb ip (with_lock fw ip true q) = Some ((), released fw ip q).
Proof.
  intros Hq Hr Hl Hn. pose proof (lookup_lt_Some _ _ _ Hq) as Hlt. unfold iunlockput.
  assert (itable (with_lock fw ip true q) !! ip = Some (set_locked true q)) as Hq1 by by apply list_lookup_insert_eq.
  rewrite (bind_eq _ _ _ _ _ (iunlock_valid _ ip _ Hq1 Hr eq_refl)). unfold iput.
  assert (itable (with_lock (with_lock fw ip true q) ip false (set_locked true q)) = itable fw) as Hit.
  { cbn [with_lock itable]. rewrite list_insert_insert_eq. apply list_insert_id. rewrite Hq. destruct q; cbn in Hl; by subst. }
  rewrite (bind_eq _ _ _ q (with_lock (with_lock fw ip true q) ip false (set_locked true q))) by (unfold the_ip; by rewrite Hit, Hq).
  rewrite (proj2 (Z.eqb_neq _ _) Hn), andb_false_r. cbn [when]. rewrite (bind_eq _ _ _ () (with_lock (with_lock fw ip true q) ip false (set_locked true q))) by done.
  rewrite (bind_eq _ _ _ () (released fw ip q)); [done|]. unfold upd_ip. by rewrite Hit, Hq.
Qed.

(** The inode of an entry of the table once it is locked: the one it has, or
    the one on disk. *)
Definition inode_of (fw : fsw) (q : inode) : option inode :=
  if valid q then Some q
  else
    d ← blk fw !! IBLOCK sb (inum q);
    let o := doff (inum q) in
    if get_short o d =? 0 then None
    else Some (mkInode (dev q) (inum q) (ref q) (locked q) true
      (get_short o d) (get_short (o + 2) d) (get_short (o + 4) d) (get_short (o + 6) d)
      (get_uint (o + 8) d) (get_uints (o + 12) 13 d)).
Definition with_ip (fw : fsw) (ip : nat) (q : inode) : fsw := mkFsw (blk fw) (<[ip := q]> (itable fw)).

(** A file that [namei] has found: its entry may just have been made, so that
    the inode [q] has yet to be read from disk, or be in use already. *)
Definition ready (fw : fsw) (ip : nat) (q : inode) : Prop :=
  (∃ q0, itable fw !! ip = Some q0 ∧ inode_of fw q0 = Some q) ∧ at_rest sb (with_ip fw ip q) ip q.

Lemma at_rest_ready fw ip q : at_rest sb fw ip q → ready fw ip q.
Proof.
  intros Hr. pose proof Hr as (_ & Hf & _ & _ & Hv). pose proof (fv_ip _ _ _ _ Hf) as Hip. split.
  - exists q. split; [done|]. unfold inode_of. by rewrite Hv.
  - unfold with_ip. rewrite list_insert_id by done. by destruct fw.
Qed.

(** [ilock] of such a file reads the inode if it has to. *)
Lemma ilock_ready fw ip q : ready fw ip q → ilock sb ip fw = Some ((), with_lock (with_ip fw ip q) ip true q).
Proof.
  intros [(q0 & Hq0 & Ei) (_ & _ & Hr & Hl & _)]. pose proof (lookup_lt_Some _ _ _ Hq0) as Hlt.
  unfold with_lock. cbn [with_ip blk itable]. rewrite list_insert_insert_eq.
  unfold inode_of in Ei. destruct (valid q0) eqn:Hv.
  { injection Ei as ->. by rewrite (ilock_valid sb fw ip q Hq0 Hr Hl Hv). }
  destruct (blk fw !! IBLOCK sb (inum q0)) as [d|] eqn:Hd; [|done]. cbn [mbind option_bind] in Ei.
  destruct (get_short (doff (inum q0)) d =? 0) eqn:E0; [done|]. injection Ei as <-. cbn [ref locked] in Hr, Hl.
  unfold ilock. rewrite (bind_eq _ _ _ q0 fw) by (unfold the_ip; by rewrite Hq0).
  rewrite (proj2 (Z.ltb_ge (ref q0) 1)), Hl, Hv by lia. cbn [orb].
  rewrite (bind_eq _ _ _ () (with_lock fw ip true q0)) by (unfold upd_ip; by rewrite Hq0).
  rewrite (bind_eq _ _ _ _ _ (block_at_eq (with_lock fw ip true q0) _ _ Hd)). cbv zeta.
  erewrite (bind_eq (upd_ip _ _)).
  2:{ unfold upd_ip. cbn [with_lock itable blk]. rewrite list_lookup_insert_eq by done. reflexivity. }
  rewrite E0. cbn [with_lock itable blk]. by rewrite list_insert_insert_eq.
Qed.

Section call.
Context (F0 : gset Z) (fw : fsw) (ip : nat) (q : inode) (x : eworld A).
Hypothesis (Hrest : at_rest sb fw ip q) (Hnl : nlink q ≠ 0) (Houts : 0 ≤ e_outs x).
(** During the call: the file is locked, in a transaction. *)
Definition during w : eworld A := mkEworld (with_lock fw ip true q) (e_outs x + 1) w (e_proc x).
Definition closed w : eworld A := mkEworld (released fw ip q) (e_outs x) w (e_proc x).

Lemma close_file {B} (k : M (eworld A) B) w : (on_fs (iunlockput sb ip);; end_op;; k) (during w) = k (closed w).
Proof.
  destruct Hrest as (_ & Hf & Hr & Hl & _). pose proof (put_inode fw ip q (fv_ip _ _ _ _ Hf) Hr Hl Hnl) as E.
  assert (on_fs (iunlockput sb ip) (during w) = Some ((), mkEworld (released fw ip q) (e_outs x + 1) w (e_proc x))) as E1.
  { unfold on_fs. cbn [during e_fs e_outs e_vm e_proc]. rewrite E. by rewrite (proj2 (Z.ltb_ge (e_outs x + 1) 1)) by lia. }
  rewrite (bind_eq _ _ _ _ _ E1). rewrite (bind_eq _ _ _ () (closed w)); [done|]. unfold end_op, modify, closed. cbn. by replace (e_outs x + 1 - 1) with (e_outs x) by lia.
Qed.
Lemma close_bad w : (on_fs (iunlockput sb ip);; end_op;; mret (-1)) (during w) = Some (-1, closed w).
Proof. by rewrite close_file. Qed.
End call.

(** [kexec] on a file that is found and is not being removed; its inode may
    have to be read from disk. It returns.
    Either the result is -1: the process is what it was, the free pages are
    those that were free, and no other page has changed. Or the file is an ELF
    file whose segments can be loaded, and the result is the number of
    arguments: the memory of the process shows the segments over zeros, in the
    order of the file, above them an inaccessible page and a stack with the
    arguments; the registers are set for the start of the program; the old
    address space is freed and no page is lost. In both cases the file is
    closed and the transaction over. *)
Theorem kexec_replaces_program F0 To fw ip nm q x cwd path argv :
  namei sb cwd path (e_fs x) = Some (Some (ip, nm), fw) → ready fw ip q → nlink q ≠ 0 → Forall is_byte (file_bytes fw q) → 0 ≤ e_outs x →
  space (e_vm x) F0 To (x_sz (e_proc x)) → root To = x_pagetable (e_proc x) → 0 ≤ x_trapframe (e_proc x) < 2 ^ 56 → Z.of_nat (count F0) < 2 ^ 20 - 1 →
  Forall arg_ok argv → Z.of_nat (length argv) < MAXARG →
  let bytes := file_bytes fw q in let elf := get_elf (slice 0 EH_SIZE bytes) in let phs := headers bytes (e_phoff elf) (Z.to_nat (e_phnum elf)) in
  ∃ r x', kexec sb trampoline cwd path argv x = Some (r, x') ∧ e_fs x' = released fw ip q ∧ e_outs x' = e_outs x ∧
    (failed F0 (e_vm x) (e_proc x) x' r ∨
     e_magic elf = ELF_MAGIC ∧ Forall (seg_ok bytes) phs ∧ started F0 To (PGROUNDUP (top phs)) (program bytes phs) path argv (e_entry elf) (e_proc x) x' r).
Proof.
  intros Hnamei Hready Hnl Hby Hout Ho HrTo Htf HF Hargs Hargc bytes elf phs. pose proof (proj2 Hready) as Hrest. pose proof Hrest as (Hi & Hf & Hr & Hl & Hv). set (fw1 := with_ip fw ip q) in *. unfold kexec.
  assert (released fw ip q = released fw1 ip q) as -> by (unfold released, fw1; cbn [with_ip blk itable]; by rewrite list_insert_insert_eq).
  assert (∀ y : eworld A, e_outs y = e_outs x + 1 → ∀ B (m : fs B) a (w' : fsw), m (e_fs y) = Some (a, w') → on_fs m y = Some (a, mkEworld w' (e_outs y) (e_vm y) (e_proc y))) as Hon.
  { intros y Hy B m a w' E. unfold on_fs. rewrite E, Hy. by rewrite (proj2 (Z.ltb_ge (e_outs x + 1) 1)) by lia. }
  set (x1 := mkEworld (e_fs x) (e_outs x + 1) (e_vm x) (e_proc x)). rewrite (bind_eq _ _ x () x1) by done.
  rewrite (bind_eq _ _ _ _ _ (Hon x1 eq_refl _ _ _ _ Hnamei)). cbn beta iota. cbn [x1 e_outs e_vm e_proc].
  pose proof (ilock_ready fw ip q Hready) as El. fold fw1 in El.
  rewrite (bind_eq _ _ _ _ _ (Hon (mkEworld fw (e_outs x + 1) (e_vm x) (e_proc x)) eq_refl _ _ _ _ El)). cbn [e_outs e_vm e_proc]. fold (during fw1 ip q x (e_vm x)).
  destruct (lock_inv sb fw1 ip true q Hi Hf) as [Hi1 Hf1]. change (file_bytes fw q) with (file_bytes (with_lock fw1 ip true q) (set_locked true q)) in *.
  assert (∀ w, restored F0 (e_vm x) w → ∃ r x', (on_fs (iunlockput sb ip);; end_op;; mret (-1)) (during fw1 ip q x w) = Some (r, x') ∧ e_fs x' = released fw1 ip q ∧ e_outs x' = e_outs x ∧
    (failed F0 (e_vm x) (e_proc x) x' r ∨
     e_magic elf = ELF_MAGIC ∧ Forall (seg_ok bytes) phs ∧ started F0 To (PGROUNDUP (top phs)) (program bytes phs) path argv (e_entry elf) (e_proc x) x' r)) as Hbad.
  { intros w Hw. exists (-1), (closed fw1 ip q x w). split_and!; [by apply close_bad|done|done|by left]. }
  assert (pa_ok (alloc (e_vm x)) F0) as Hok by apply (vi_alloc _ _ _ (as_inv _ _ _ _ Ho)).
  destruct (readi_any sb Hsb (with_lock fw1 ip true q) ip (set_locked true q) 0 EH_SIZE) as (r & bs & Er & Hbs & Hbl & Hfull); [done|done|done|done|].
  unfold read_at. rewrite (bind_eq _ _ _ (if r =? EH_SIZE then Some bs else None) (during fw1 ip q x (e_vm x)))
    by (rewrite (bind_eq _ _ _ _ _ (on_fs_eq _ (during fw1 ip q x (e_vm x)) _ Er)); done).
  destruct (r =? EH_SIZE) eqn:Hre; [|by apply Hbad]. destruct (Hfull ltac:(lia)) as [Hbn _].
  assert (bs = slice 0 EH_SIZE bytes) as -> by (rewrite Hbs, Hbn; done). fold elf. destruct (e_magic elf =? ELF_MAGIC) eqn:Hmag; cbn [negb]; [|by apply Hbad].
  rewrite (bind_eq _ _ (during fw1 ip q x (e_vm x)) (e_proc x) (during fw1 ip q x (e_vm x))) by done.
  destruct (pagetable_spec trampoline Htramp (e_vm x) F0 (x_trapframe (e_proc x)) Hok Htf) as (pt & w1 & E1 & Hf1' & Hres).
  rewrite (bind_eq _ _ _ _ _ (on_vm_eq _ (during fw1 ip q x (e_vm x)) _ _ E1)). change (mkEworld _ _ w1 _) with (during fw1 ip q x w1).
  destruct Hres as [[-> Hok1]|(Hpt & F & T & HrT & Hs1 & Hp1)]; [by apply Hbad|]. rewrite (proj2 (Z.eqb_neq _ _) Hpt).
  destruct (load_loop_spec sb Hsb F0 (e_vm x) ip (set_locked true q) HF (Z.to_nat (e_phnum elf)) F T 0 (λ _, 0) (during fw1 ip q x w1) (int32 (e_phoff elf)) (e_phoff elf))
    as (sz & ok & w2 & F2 & T2 & img & E2 & Hr2 & Him2 & Hokk); [by apply empty_image|done|done|done|by rewrite u32_int32|].
  change (file_bytes (e_fs (during fw1 ip q x w1)) (set_locked true q)) with bytes in *. rewrite HrT in E2, Hr2.
  rewrite (bind_eq _ _ _ _ _ E2). cbn [fst snd]. change (with_vm (during fw1 ip q x w1) w2) with (during fw1 ip q x w2).
  destruct ok; cbn [negb].
  2:{ destruct Him2 as [Hs _ _ Hp Hfr _ _]. destruct (give_back F0 (e_vm x) w2 F2 T2 sz Hs Hp Hfr) as (w3 & E3 & Hw3). rewrite Hr2 in E3.
      rewrite (bind_eq _ _ _ _ _ (on_vm_eq _ (during fw1 ip q x w2) _ _ E3)). by apply Hbad. }
  destruct (Hokk eq_refl) as (Hseg & Hsz & Himg). fold phs in Hseg, Hsz, Himg. fold (top phs) in Hsz. rewrite close_file by done.
  destruct (exec_stack_spec F0 (e_vm x) (closed fw1 ip q x w2) F2 T2 To sz (program bytes phs) path argv (e_entry elf)) as (r' & x' & E' & Hfs & Hou & Hfin);
    [by eapply image_ext|done|done|done|done|done|].
  rewrite Hr2 in E'. exists r', x'. split_and!; [exact E'|done|done|]. rewrite <-Hsz. destruct Hfin as [Hfin|Hfin]; [by left|right]. split_and!; [lia|done|exact Hfin].
Qed.

(** [kexec] of a path that names no file. *)
Lemma kexec_not_found fw x cwd path argv :
  namei sb cwd path (e_fs x) = Some (None, fw) → 0 ≤ e_outs x →
  kexec sb trampoline cwd path argv x = Some (-1, mkEworld fw (e_outs x) (e_vm x) (e_proc x)).
Proof.
  intros E Ho. unfold kexec. erewrite (bind_eq begin_op) by reflexivity.
  rewrite (bind_eq _ _ _ None (mkEworld fw (e_outs x + 1) (e_vm x) (e_proc x))).
  2:{ unfold on_fs. cbn [e_fs e_outs e_vm e_proc]. by rewrite E, (proj2 (Z.ltb_ge (e_outs x + 1) 1)) by lia. }
  rewrite (bind_eq _ _ _ () (mkEworld fw (e_outs x) (e_vm x) (e_proc x))); [done|].
  unfold end_op, modify. cbn. by replace (e_outs x + 1 - 1) with (e_outs x) by lia.
Qed.
End exec.

(** A small program, run by [kexec]. *)

(** The file "a" in the root directory: an ELF header, one program header and
    four bytes of code, for address 0. *)
Definition exe_bytes : list Z :=
  le_enc 4 ELF_MAGIC ++ replicate 20 0 ++ le_enc 8 2 ++ le_enc 8 64 ++ replicate 16 0 ++ le_enc 2 1 ++ replicate 6 0 ++
  le_enc 4 ELF_PROG_LOAD ++ le_enc 4 1 ++ le_enc 8 120 ++ le_enc 8 0 ++ le_enc 8 0 ++ le_enc 8 4 ++ le_enc 8 8 ++ le_enc 8 4096 ++ [10; 20; 30; 40].
Definition exe_inode (r : Z) : inode := mkInode 1 3 r false true 2 0 0 1 124 (6 :: replicate 12 0).
Definition exe_blocks : gmap Z (list Z) :=
  <[2 := put_dinode (doff 3) (exe_inode 1) zeros]> (<[4 := put 0 [127] zeros]> (<[5 := put 0 [3; 0; 97] zeros]> (<[6 := put 0 exe_bytes zeros]> (list_to_map ((λ b, (b, zeros)) <$> seqZ 0 16))))).
Definition exe_root : inode := mkInode 1 1 1 false true T_DIR 0 0 1 16 (5 :: replicate 12 0).
Definition exe_fs (r : Z) : fsw := mkFsw exe_blocks [exe_root; exe_inode r].
(** The same with the inode of the file on disk only: an unused entry of the
    table, which [iget] takes. *)
Definition exe_unused (n r : Z) : inode := mkInode n (3 * n) r false false 0 0 0 0 0 (replicate 13 0).
Definition exe_cold (n r : Z) : fsw := mkFsw exe_blocks [exe_root; exe_unused n r].

Lemma exe_fs_inv r : fs_inv demo_sb (exe_fs r).
Proof.
  assert (Forall (λ b, match exe_blocks !! b with Some d => length d = Z.to_nat BSIZE | None => False end) (seqZ 0 16)) as H1.
  { repeat (constructor; [by vm_compute|]). constructor. }
  assert (Forall (λ b, used demo_sb (exe_fs 0) b = true) (seqZ 0 5)) as H2.
  { repeat (constructor; [by vm_compute|]). constructor. }
  split.
  - intros b Hb. change (sb_size demo_sb) with 16 in Hb. rewrite Forall_forall in H1. specialize (H1 b ltac:(apply elem_of_seqZ; lia)). cbn beta in H1.
    change (blk (exe_fs r)) with exe_blocks. destruct (exe_blocks !! b) as [d|]; [by exists d|done].
  - intros b Hb. change (dstart demo_sb) with 5 in Hb. rewrite Forall_forall in H2. apply (H2 b), elem_of_seqZ. lia.
Qed.
Lemma exe_fblock r j : 0 ≤ j ≤ MAXFILE → fblock (exe_fs r) (exe_inode r) j = if decide (j = 0) then 6 else 0.
Proof.
  intros Hj. unfold fblock, indirect. cbn [exe_inode addrs]. change (Z.to_nat NDIRECT) with 12%nat.
  destruct (decide (j = 0)) as [->|Hne]; [done|]. destruct (j <? NDIRECT) eqn:E.
  - destruct (Z.to_nat j) as [|k] eqn:Ek; [lia|]. cbn [lookup list_lookup].
    destruct (replicate 12 0 !! k) eqn:El; [|done]. by apply lookup_replicate in El as [-> _].
  - by destruct (j =? MAXFILE).
Qed.
Lemma exe_file r : file_inv demo_sb (exe_fs r) 1 (exe_inode r).
Proof.
  split; try done.
  - intros j Hj. rewrite exe_fblock by done. case_decide; [|done]. intros _. by vm_compute.
  - intros i j Hi Hj. rewrite !exe_fblock by done. by repeat case_decide; subst.
  - intros i Hi Hlt. cbn [exe_inode size] in Hlt. unfold BSIZE in Hlt. assert (i = 0) as -> by lia. by vm_compute.
Qed.

Lemma exe_ready : ready demo_sb (exe_cold 1 1) 1 (exe_inode 1).
Proof.
  split; [exists (exe_unused 1 1); split; [done|by vm_compute]|].
  change (with_ip (exe_cold 1 1) 1 (exe_inode 1)) with (exe_fs 1). split_and!; [apply exe_fs_inv|apply exe_file|done|done|done].
Qed.

(** Ten free pages beside the address space of [VmKmem]. *)
Definition exe_free : list Z := [pg 10; pg 11; pg 12; pg 13; pg 14; pg 15; pg 16; pg 17; pg 18; pg 19].
Definition exe_kmem : kmem := mkKmem (pg 10) (list_to_map ((λ k, (pg k, mkPage (pg (k + 1)) 1)) <$> seqZ 10 9) ∪ {[pg 19 := mkPage 0 1]}).
Definition exe_F : gset Z := list_to_set exe_free.
Definition exe_mem : vworld kmem := mkVworld exe_kmem (words demo_world).

Lemma exe_free_ok : free_set demo_end exe_kmem exe_F.
Proof.
  exists exe_free. split; [|done]. split.
  - cbn [chain exe_free]. repeat (split_and!; [done|done|]; eexists; split; [vm_compute; reflexivity|]). done.
  - by apply (bool_decide_unpack _).
  - repeat constructor; by vm_compute.
Qed.
Lemma exe_space : space exe_mem exe_F demo_tree 4096.
Proof.
  destruct demo_inv as [_ [H1 H2 H3 H4 H5 H6]]. destruct demo_owns as [O1 O2 O3 O4]. split.
  - split; [exact exe_free_ok|]. split; try done. intros n p Hp. split; [by apply (H2 n p)|].
    apply demo_addr in Hp as [[_ ->]|[[_ ->]|[_ ->]]]; by apply (bool_decide_unpack _).
  - assert (∀ n e, L demo_tree !! n = Some e → demo_user n) as Hu by (intros n e; cbn [demo_tree L]; intros [<- _]%lookup_singleton_Some; unfold demo_user; lia). split.
    + intros n e _ He. eapply O1; [by eapply Hu|done].
    + intros n e _ He. split; [by apply (O2 n e); [eapply Hu|]|]. cbn [demo_tree L] in He. apply lookup_singleton_Some in He as [_ <-]. by apply (bool_decide_unpack _).
    + intros n e m _ He. eapply O3; [by eapply Hu|done].
    + intros n e n' e' _ _ He He'. eapply O4; [by eapply Hu|by eapply Hu|done|done].
  - done.
  - intros n e _. cbn [demo_tree L]. intros [<- _]%lookup_singleton_Some. done.
  - intros n e Hn. cbn [demo_tree L]. intros [<- _]%lookup_singleton_Some. destruct Hn. done.
Qed.

Definition exe_proc : eproc := mkEproc (pg 0) 4096 (pg 5) 0 0 0 [].
Definition exe_world : eworld kmem := mkEworld (exe_cold 0 0) 0 exe_mem exe_proc.
Definition exe_argv : list (list Z) := [[97]; [120; 121]].

(** The call succeeds: the program starts at address 2 with two arguments. *)
Example kexec_run :
  (λ r, (r.1, x_epc (e_proc r.2), x_sz (e_proc r.2), x_sp (e_proc r.2), x_name (e_proc r.2))) <$>
    kexec demo_sb (pg 6) 0 [97] exe_argv exe_world = Some (2, 2, 12288, 12224, [97]).
Proof. by vm_compute. Qed.

(** The bytes of the program. *)
Definition exe_view : Z → Z :=
  let bytes := file_bytes (exe_cold 1 1) (exe_inode 1) in
  program bytes (headers bytes (e_phoff (get_elf (slice 0 EH_SIZE bytes))) (Z.to_nat (e_phnum (get_elf (slice 0 EH_SIZE bytes))))).
Lemma exe_top :
  PGROUNDUP (top (headers (file_bytes (exe_cold 1 1) (exe_inode 1)) (e_phoff (get_elf (slice 0 EH_SIZE (file_bytes (exe_cold 1 1) (exe_inode 1)))))
    (Z.to_nat (e_phnum (get_elf (slice 0 EH_SIZE (file_bytes (exe_cold 1 1) (exe_inode 1)))))))) = 4096.
Proof. by vm_compute. Qed.

Lemma kexec_replaces_program_witness :
  ∃ x' F' T' sz, kexec demo_sb (pg 6) 0 [97] exe_argv exe_world = Some (2, x') ∧ root T' = x_pagetable (e_proc x') ∧ space (e_vm x') F' T' sz ∧
    view lim 0 (e_vm x') T' 1 = Some 20 ∧ view lim 0 (e_vm x') T' 4 = Some 0.
Proof.
  destruct (kexec_replaces_program demo_sb demo_layout (pg 6) ltac:(done) exe_F demo_tree (exe_cold 1 1) 1 [97] (exe_inode 1) exe_world 0 [97] exe_argv)
    as (r & x' & E & _ & _ & Hres).
  - vm_compute. reflexivity.
  - exact exe_ready.
  - done.
  - apply (bool_decide_unpack _). by vm_compute.
  - done.
  - exact exe_space.
  - done.
  - done.
  - by vm_compute.
  - repeat constructor; by vm_compute.
  - done.
  - rewrite exe_top in Hres. assert (r = 2) as ->.
    { pose proof kexec_run as Hr. rewrite E in Hr. by injection Hr. }
    destruct Hres as [[Hm _]|[_ [_ Hres]]]; [discriminate Hm|]. destruct Hres as [_ (F' & T' & sp & sz & Hp & Hs & _ & Hup)].
    destruct Hup as (ptrs & _ & Hv & _). exists x', F', T', sz.
    assert (∀ a b, 0 ≤ a < 4096 → exe_view a = b → view lim 0 (e_vm x') T' a = Some b) as Hview.
    { intros a b Ha <-. exact (Hv a Ha). }
    split; [exact E|]. split; [by rewrite Hp|]. split; [exact Hs|]. split; apply Hview; first [lia|by vm_compute].
Defined.
