(* ===== verification/Syscall.v ===== *)
(** System calls: their arguments and numbers ([xv6/kernel/syscall.c]), and
    [sys_exec] of [sysfile.c] on top of them.

    The registers of the process at the call are an argument of the functions.
    The characters that are copied to a page of the kernel are kept beside the
    address of the page. *)
From S2P Require Import Prelude Kalloc Proc Vm VmSpec VmUser VmAlloc VmKmem VmLife VmBytes VmCopyio Fs FsBlock FsFile FsRw FsDir Exec ExecSpace ExecLoad ExecSpec FileRw.

(** ** Arguments *)

(** The registers [a0] to [a5] and [a7] of the trapframe. *)
Record trapframe := mkTrapframe { tf_a : list Z; tf_a7 : Z }.

Section arguments.
Context (tf : trapframe).
(** [None] is a panic. *)
Definition argraw (n : nat) : option Z := if decide (n < 6)%nat then tf_a tf !! n else None.
Definition argint (n : nat) : option Z := int32 <$> argraw n.
Definition argaddr (n : nat) : option Z := argraw n.

Section code.
Context {A : Type} `{PageAlloc A}.
Abbreviation em := (M (eworld A)).

Definition fetchaddr (addr : Z) : em (Z * Z) :=
  p ← gets e_proc;
  if (x_sz p <=? addr) || (x_sz p <? u64 (addr + 8)) then mret (-1, 0)
  else
    r ← on_vm (copyin 9 (x_pagetable p) (x_sz p) addr 8);
    mret (if negb (r.1 =? 0) then (-1, 0) else (0, le_dec r.2)).
(** The string in a buffer. *)
Fixpoint cstr (bs : list Z) : list Z :=
  match bs with [] => [] | b :: bs => if b =? 0 then [] else b :: cstr bs end.
(** The result and the string that is in the buffer then. *)
Definition fetchstr (addr : Z) (max : nat) : em (Z * list Z) :=
  p ← gets e_proc;
  r ← on_vm (copyinstr (S max) (x_pagetable p) (x_sz p) addr max);
  mret (if r.1 <? 0 then (-1, []) else (Z.of_nat (length (cstr r.2)), cstr r.2)).
Definition argstr (n max : nat) : em (Z * list Z) :=
  match argaddr n with Some addr => fetchstr addr max | None => stuck end.

(** ** [sys_exec] *)

Definition MAXPATH : nat := 128.
(** The loop over the pointers, with [n] places of [argv] left: whether it
    reached the null pointer, the pages it has allocated and their strings. *)
Fixpoint fetch_args (n : nat) (uargv i : Z) (pages : list Z) (argv : list (list Z)) : em (bool * list Z * list (list Z)) :=
  match n with
  | O => mret (false, pages, argv)
  | S n =>
    r ← fetchaddr (u64 (uargv + 8 * i));
    if r.1 <? 0 then mret (false, pages, argv)
    else if r.2 =? 0 then mret (true, pages, argv)
    else
      page ← on_vm kalloc_page;
      if page =? 0 then mret (false, pages, argv)
      else
        s ← fetchstr r.2 (Z.to_nat PGSIZE);
        if s.1 <? 0 then mret (false, pages ++ [page], argv)
        else fetch_args n uargv (i + 1) (pages ++ [page]) (argv ++ [s.2])
  end.
Definition sys_exec (sb : superblock) (trampoline : Z) (cwd : nat) : em Z :=
  match argaddr 1 with
  | None => stuck
  | Some uargv =>
    path ← argstr 0 MAXPATH;
    if path.1 <? 0 then mret (-1)
    else
      r ← fetch_args (Z.to_nat MAXARG) uargv 0 [] [];
      let '(ok, pages, argv) := r in
      if ok : bool then
        ret ← kexec sb trampoline cwd path.2 argv;
        mfor pages (λ p, on_vm (kfree_page p));;
        mret ret
      else
        mfor pages (λ p, on_vm (kfree_page p));;
        mret (-1)
  end.
End code.
End arguments.

(** ** Numbers *)

Inductive sysno := SysFork | SysExit | SysWait | SysPipe | SysRead | SysKill | SysExec | SysFstat
  | SysChdir | SysDup | SysGetpid | SysSbrk | SysPause | SysUptime | SysOpen | SysWrite | SysMknod
  | SysUnlink | SysLink | SysMkdir | SysClose | SysSync | SysGetmlfq.
Definition syscalls : list (option sysno) :=
  None :: (Some <$> [SysFork; SysExit; SysWait; SysPipe; SysRead; SysKill; SysExec; SysFstat;
    SysChdir; SysDup; SysGetpid; SysSbrk; SysPause; SysUptime; SysOpen; SysWrite; SysMknod;
    SysUnlink; SysLink; SysMkdir; SysClose; SysSync; SysGetmlfq]).

Section dispatch.
(** The functions of the calls, and the message about an unknown number. *)
Context {S : Type} (handler : sysno → M S Z) (unknown : Z → M S unit).
(** What [a0] is set to. *)
Definition syscall (tf : trapframe) : M S Z :=
  let num := int32 (tf_a7 tf) in
  if (0 <? num) && (num <? Z.of_nat (length syscalls)) then
    match syscalls !! Z.to_nat num with
    | Some (Some c) => r ← handler c; mret (u64 r)
    | _ => unknown num;; mret (u64 (-1))
    end
  else unknown num;; mret (u64 (-1)).

(** Every call is reached by one number only, the one of [syscall.h]. *)
Lemma syscalls_inj n m c : syscalls !! n = Some (Some c) → syscalls !! m = Some (Some c) → n = m.
Proof.
  assert (∀ k d, syscalls !! k = Some (Some d) → (k < 24)%nat) as Hb by (intros k d Hk; apply lookup_lt_Some in Hk; exact Hk).
  intros Hn Hm. pose proof (Hb _ _ Hn). pose proof (Hb _ _ Hm).
  do 24 (destruct n as [|n]; [cbn in Hn; do 24 (destruct m as [|m]; [cbn in Hm; congruence|]); lia|]). lia.
Qed.
(** A number that is no call runs no handler and returns -1. *)
Lemma syscall_unknown tf s : ¬ (1 ≤ int32 (tf_a7 tf) ≤ 23) → syscall tf s = (unknown (int32 (tf_a7 tf));; mret (u64 (-1))) s.
Proof.
  intros Hn. unfold syscall. destruct ((0 <? int32 (tf_a7 tf)) && (int32 (tf_a7 tf) <? Z.of_nat (length syscalls))) eqn:E; [|done].
  change (Z.of_nat (length syscalls)) with 24 in E. lia.
Qed.
Lemma syscall_known tf c s : 0 ≤ int32 (tf_a7 tf) → syscalls !! Z.to_nat (int32 (tf_a7 tf)) = Some (Some c) →
  syscall tf s = (r ← handler c; mret (u64 r)) s.
Proof.
  intros Hn Hc. unfold syscall. rewrite Hc. pose proof (lookup_lt_Some _ _ _ Hc) as Hl.
  assert (int32 (tf_a7 tf) ≠ 0) by (intros E; by rewrite E in Hc).
  destruct ((0 <? int32 (tf_a7 tf)) && (int32 (tf_a7 tf) <? Z.of_nat (length syscalls))) eqn:E; [done|]. lia.
Qed.
End dispatch.

(** ** What the calls find in user memory *)

Section spec.
Context {A : Type} `{PageAlloc A}.
Implicit Types (w : vworld A) (T : tree) (F : gset Z) (x : eworld A).

(** Pages that the kernel holds for itself are given back. *)
Lemma free_pages pages : ∀ x F T sz,
  space (e_vm x) F T sz → NoDup pages → (∀ p, p ∈ pages → pa_valid p ∧ ¬ pages_of user F T p) →
  ∃ w' F', mfor pages (λ p, on_vm (kfree_page p)) x = Some ((), with_vm x w') ∧ space w' F' T sz ∧
    (∀ p, pages_of user F' T p ↔ pages_of user F T p ∨ p ∈ pages) ∧ ∀ p, p ∉ pages → words w' !! p = words (e_vm x) !! p.
Proof.
  induction pages as [|p pages IH]; intros x F T sz Hs Hd Hf.
  { exists (e_vm x), F. split_and!; [by destruct x|done|intros p; rewrite elem_of_nil; tauto|done]. }
  apply NoDup_cons in Hd as [Hp Hd]. destruct (Hf p ltac:(by left)) as [Hv Hn]. destruct Hs as [H1 H2 H3 H4 H5].
  destruct (free_page (e_vm x) F T p H1 Hv) as (w1 & E & Hi1 & Hw1); [intros ?; apply Hn; by left|intros n ?; apply Hn; right; left; by exists n|].
  assert (∀ q, pages_of user (F ∪ {[p]}) T q ↔ pages_of user F T q ∨ q = p) as Hpg by (intros q; unfold pages_of; set_solver).
  destruct (IH (with_vm x w1) (F ∪ {[p]}) T sz) as (w' & F' & E' & Hs' & Hp' & Hw'); [|done| |].
  - split; [done| |done|done|done]. destruct H2 as [O1 O2 O3 O4]. split; try done. intros n e Hu He. destruct (O2 n e Hu He) as [? Hnf].
    split; [done|]. rewrite elem_of_union, elem_of_singleton. intros [?|Heq]; [done|]. apply Hn. right. right. by exists n, e.
  - intros q Hq. split; [by apply Hf; right|]. rewrite Hpg. intros [?| ->]; [|done]. destruct (Hf q ltac:(by right)). done.
  - exists w', F'. split_and!; [|done| |].
    + cbn [mfor]. rewrite (bind_eq _ _ _ _ _ (on_vm_eq _ x _ _ E)). fold (with_vm x w1). exact E'.
    + intros q. rewrite Hp', Hpg, elem_of_cons. tauto.
    + intros q Hq. rewrite not_elem_of_cons in Hq. rewrite Hw' by tauto. cbn [with_vm e_vm]. apply Hw1. tauto.
Qed.

Section process.
Context (psz : Z) (Hpsz : 0 ≤ psz ≤ lim * PGSIZE).

(** A word, a string and a list of pointers to strings that ends in a null
    pointer, in user memory. *)
Definition word_at w T (a v : Z) : Prop := ∃ bs, seen lim psz w T a bs ∧ length bs = 8%nat ∧ le_dec bs = v.
Definition str_at w T (a : Z) (s : list Z) : Prop := seen lim psz w T a (s ++ [0]) ∧ Forall (λ b, b ≠ 0) s.
Fixpoint args_at w T (a i : Z) (argv : list (list Z)) : Prop :=
  match argv with
  | [] => word_at w T (u64 (a + 8 * i)) 0
  | s :: argv => (∃ q, q ≠ 0 ∧ word_at w T (u64 (a + 8 * i)) q ∧ str_at w T q s) ∧ args_at w T a (i + 1) argv
  end.

Lemma view_byte w T a b : view lim psz w T a = Some b → is_byte b.
Proof.
  unfold view, is_byte. case_decide; [|done]. destruct (L T !! _) as [e|]; [destruct (Z.testbit e 4); [|done]|case_decide; [by intros [= <-]|done]].
  destruct (words w !! _); [|done]. cbn. intros [= <-]. unfold get_byte. change 255 with (Z.ones 8). rewrite Z.land_ones by done. by apply Z.mod_pos_bound.
Qed.
Lemma seen_bytes w T a bs : seen lim psz w T a bs → Forall is_byte bs.
Proof.
  intros Hs. apply Forall_lookup. intros k b Hk. eapply (view_byte w T). rewrite <-(Hs k); [done|by eapply lookup_lt_Some].
Qed.
Lemma seen_view w w0 T T0 a bs : (∀ b, view lim psz w T b = view lim psz w0 T0 b) → seen lim psz w T a bs → seen lim psz w0 T0 a bs.
Proof. intros Hv Hs k Hk. rewrite <-Hv. by apply Hs. Qed.
Lemma cstr_str s : Forall (λ b, b ≠ 0) s → cstr (s ++ [0]) = s.
Proof.
  induction s as [|b s IH]; intros Hs; [done|]. apply Forall_cons in Hs as [Hb Hs]. cbn.
  by rewrite (proj2 (Z.eqb_neq b 0) Hb), IH.
Qed.
(** A string in memory is determined by its address. *)
Lemma str_unique w T a s s' : str_at w T a s → str_at w T a s' → s = s'.
Proof.
  intros Hs Hs'. assert (∀ s s', str_at w T a s → str_at w T a s' → (length s' ≤ length s)%nat) as Hle.
  { clear. intros s s' [Hs Hn] [Hs' Hn']. destruct (decide (length s' ≤ length s)%nat) as [|Hlt]; [done|exfalso].
    destruct (lookup_lt_is_Some_2 s' (length s)) as [b Hb]; [lia|]. apply (Forall_lookup_1 _ _ _ _ Hn' Hb).
    pose proof (Hs (length s) ltac:(rewrite length_app; cbn; lia)) as E1. pose proof (Hs' (length s) ltac:(rewrite length_app; cbn; lia)) as E2.
    rewrite lookup_app_l, Hb in E2 by lia. rewrite list_lookup_middle in E1 by done. congruence. }
  pose proof (Hle _ _ Hs Hs'). pose proof (Hle _ _ Hs' Hs). destruct Hs as [Hs _], Hs' as [Hs' _].
  apply (list_eq_same_length _ _ (length s)); [lia|done|]. intros k b c Hk Hb Hc.
  pose proof (Hs k ltac:(rewrite length_app; cbn; lia)) as E1. pose proof (Hs' k ltac:(rewrite length_app; cbn; lia)) as E2.
  rewrite lookup_app_l in E1, E2 by lia. congruence.
Qed.

(** ** While the arguments are fetched *)

(** Beside the address space there are pages that the kernel holds for the
    arguments. The user sees what it saw, and no page is lost. *)
Record fetching w0 F0 T0 w F T (pages : list Z) : Prop := {
  fe_space : space w F T psz;
  fe_user : user_inv lim w F T;
  fe_root : root T = root T0;
  fe_view : ∀ a, view lim psz w T a = view lim psz w0 T0 a;
  fe_nodup : NoDup pages;
  fe_fresh : ∀ p, p ∈ pages → pa_valid p ∧ ¬ pages_of user F T p;
  fe_pages : ∀ p, pages_of user F T p ∨ p ∈ pages ↔ pages_of user F0 T0 p;
  fe_sub : F ⊆ F0;
}.

Lemma fetching_faulted w0 F0 T0 w F T pages w' F' T' :
  fetching w0 F0 T0 w F T pages → user_inv lim w' F' T' → faulted lim psz w F T w' F' T' →
  (∀ a, view lim psz w' T' a = view lim psz w T a) → fetching w0 F0 T0 w' F' T' pages.
Proof.
  intros [[H1 H2 H3 H4 H5] Hu Hr Hv Hd Hf Hp Hsub] Hu' [[A1 A2 A3 A4 A5] Ho Hn] Hv'.
  split; [|done|congruence|by intros; rewrite Hv'|done|by intros p; rewrite A3; apply Hf|by intros p; rewrite A3|].
  split; [apply (ui_inv _ _ _ _ Hu')|apply (ui_owns _ _ _ _ Hu')|done| |].
  - intros n e Hun [He|[_ Hlt]]%Hn; [by eapply H4|]. destruct (PGROUNDUP_lim psz Hpsz) as (_ & HR & HL).
    unfold PGSIZE in *. lia.
  - intros n e Hun [He|[? _]]%Hn; [by eapply H5|done].
  - intros p Hin. destruct (A4 p (or_introl Hin)) as [?|[[n Hadd]|(? & ? & [] & _)]]; [by apply Hsub|].
    apply A2 in Hadd. by apply (ti_valid _ _ _ (vi_tree _ _ _ (ui_inv _ _ _ _ Hu'))) in Hadd as [_ ?].
Qed.

Lemma fetching_kalloc w0 F0 T0 w F T pages :
  fetching w0 F0 T0 w F T pages →
  kalloc_page w = Some (0, w) ∨
  ∃ p w' F', kalloc_page w = Some (p, w') ∧ p ≠ 0 ∧ fetching w0 F0 T0 w' F' T (pages ++ [p]).
Proof.
  intros [[H1 H2 H3 H4 H5] Hu Hr Hv Hd Hf Hp Hsub]. unfold kalloc_page.
  destruct (pa_kalloc_spec _ _ (vi_alloc _ _ _ H1)) as [[-> E]|(p & a' & HpF & E & Hok')]; rewrite E; [left; by destruct w|right].
  pose proof (pa_ok_valid _ _ _ (vi_alloc _ _ _ H1) HpF) as Hval. pose proof (pa_valid_range _ Hval).
  assert (∀ n, addr T n ≠ Some p) as Hpt.
  { intros n Hn. by apply (ti_valid _ _ _ (vi_tree _ _ _ H1)) in Hn as [_ ?]. }
  assert (¬ mapped_by T user p) as Hpm.
  { intros (n & e & Hn & He & ->). by apply (ow_valid _ _ _ H2 n e Hn He). }
  assert (¬ pages_of user (F ∖ {[p]}) T p) as Hpn.
  { intros [?|[[n ?]|?]]; [set_solver|by apply (Hpt n)|done]. }
  assert (vm_inv (mkVworld a' (words w)) (F ∖ {[p]}) T) as Hi.
  { split; [done|]. destruct (vi_tree _ _ _ H1) as [I1 I2 I3 I4 I5 I6]. split; try done.
    intros n q Hq. destruct (I2 n q Hq). split; [done|set_solver]. }
  assert (owns (F ∖ {[p]}) T user) as Hown.
  { destruct H2 as [O1 O2 O3 O4]. split; try done. intros n e Hn He. destruct (O2 n e Hn He). split; [done|set_solver]. }
  assert (∀ q, q ≠ p → pages_of user (F ∖ {[p]}) T q ↔ pages_of user F T q) as Hoth.
  { intros q Hq. unfold pages_of. set_solver. }
  exists p, (mkVworld a' (words w)), (F ∖ {[p]}). split_and!; [done|lia|].
  split; [by split|destruct Hu; by split|done|done| | | |set_solver].
  - apply NoDup_app. split_and!; [done| |apply NoDup_singleton]. intros q Hq ->%list_elem_of_singleton. apply (Hf p Hq). by left.
  - intros q [Hq| ->%list_elem_of_singleton]%elem_of_app; [|done]. destruct (Hf q Hq) as [? Hq']. split; [done|].
    rewrite Hoth; [done|]. intros ->. apply Hq'. by left.
  - intros q. rewrite <-Hp, elem_of_app, list_elem_of_singleton. destruct (decide (q = p)) as [->|Hne].
    + split; [intros _; left; by left|tauto].
    + rewrite Hoth by done. tauto.
Qed.


(** The steps of the calls, which leave the process and the files alone. *)
Section steps.
Context (w0 : vworld A) (F0 : gset Z) (T0 : tree).

Record at_call x : Prop := { ac_sz : x_sz (e_proc x) = psz; ac_pt : x_pagetable (e_proc x) = root T0 }.

Lemma fetchaddr_spec x F T pages addr :
  at_call x → fetching w0 F0 T0 (e_vm x) F T pages → 0 ≤ addr < 2 ^ 64 →
  ∃ r v w' F' T', fetchaddr addr x = Some ((r, v), with_vm x w') ∧ fetching w0 F0 T0 w' F' T' pages ∧
    (r = -1 ∨ r = 0 ∧ 0 ≤ v < 2 ^ 64 ∧ word_at w0 T0 addr v).
Proof.
  intros [Hsz Hpt] Hf Ha. unfold fetchaddr. rewrite (bind_eq _ _ x (e_proc x) x) by done. rewrite Hsz, Hpt.
  destruct ((psz <=? addr) || (psz <? u64 (addr + 8))).
  { exists (-1), 0, (e_vm x), F, T. split_and!; [by destruct x|done|by left]. }
  destruct (copyin_reads lim psz Hpsz ltac:(by vm_compute) 9 (e_vm x) F T addr 8 (fe_user _ _ _ _ _ _ _ Hf) Ha ltac:(lia))
    as (r & bs & w' & F' & T' & E & Hu' & Hfa & Hr' & Hv & Hseen & Hres).
  rewrite (fe_root _ _ _ _ _ _ _ Hf) in E. rewrite (bind_eq _ _ _ _ _ (on_vm_eq _ x _ _ E)). fold (with_vm x w'). cbn [fst snd].
  pose proof (fetching_faulted _ _ _ _ _ _ _ _ _ _ Hf Hu' Hfa Hv) as Hf'.
  assert (∀ a, view lim psz (e_vm x) T a = view lim psz w0 T0 a) as Hv0 by apply Hf.
  destruct Hres as [[-> Hl]|(-> & _)]; [|by exists (-1), 0, w', F', T'; split_and!; [done|done|left]].
  exists 0, (le_dec bs), w', F', T'. split_and!; [done|done|right]. split_and!; [done|..].
  - pose proof (le_dec_range bs (seen_bytes _ _ _ _ Hseen)) as Hb. rewrite Hl in Hb. apply Hb.
  - pose proof (le_dec_range bs (seen_bytes _ _ _ _ Hseen)) as Hb. rewrite Hl in Hb. apply Hb.
  - exists bs. split; [by eapply seen_view|done].
Qed.

Lemma fetchstr_spec x F T pages addr max :
  at_call x → fetching w0 F0 T0 (e_vm x) F T pages → 0 ≤ addr < 2 ^ 64 →
  ∃ r s w' F' T', fetchstr addr max x = Some ((r, s), with_vm x w') ∧ fetching w0 F0 T0 w' F' T' pages ∧
    (r = -1 ∨ 0 ≤ r ∧ str_at w0 T0 addr s ∧ (length s < max)%nat ∧ Forall is_byte s).
Proof.
  intros [Hsz Hpt] Hf Ha. unfold fetchstr. rewrite (bind_eq _ _ x (e_proc x) x) by done. rewrite Hsz, Hpt.
  destruct (copyinstr_spec lim psz Hpsz ltac:(by vm_compute) (S max) (e_vm x) F T addr max (fe_user _ _ _ _ _ _ _ Hf) Ha ltac:(lia))
    as (r & bs & w' & F' & T' & E & Hu' & Hfa & Hr' & Hv & Hseen & Hl & Hres).
  rewrite (fe_root _ _ _ _ _ _ _ Hf) in E. rewrite (bind_eq _ _ _ _ _ (on_vm_eq _ x _ _ E)). fold (with_vm x w'). cbn [fst snd].
  pose proof (fetching_faulted _ _ _ _ _ _ _ _ _ _ Hf Hu' Hfa Hv) as Hf'.
  assert (∀ a, view lim psz (e_vm x) T a = view lim psz w0 T0 a) as Hv0 by apply Hf.
  destruct Hres as [(-> & s & -> & Hs)|(-> & _)]; [|by exists (-1), [], w', F', T'; split_and!; [done|done|left]].
  rewrite cstr_str by done. change (0 <? 0) with false. cbn iota.
  exists (Z.of_nat (length s)), s, w', F', T'. rewrite length_app in Hl. cbn [length] in Hl.
  split_and!; [done|done|right]. split_and!; [lia|split; [by eapply seen_view|done]|lia|].
  by apply seen_bytes, Forall_app in Hseen as [? _].
Qed.

Lemma fetch_args_spec n : ∀ x F T uargv i pages argv,
  at_call x → fetching w0 F0 T0 (e_vm x) F T pages →
  ∃ ok pages' argv' w' F' T', fetch_args n uargv i pages argv x = Some ((ok, pages', argv ++ argv'), with_vm x w') ∧
    fetching w0 F0 T0 w' F' T' pages' ∧
    (ok = true → args_at w0 T0 uargv i argv' ∧ Forall arg_ok argv' ∧ (length argv' < n)%nat).
Proof.
  induction n as [|n IH]; intros x F T uargv i pages argv Hc Hf; cbn [fetch_args].
  { exists false, pages, [], (e_vm x), F, T. split_and!; [rewrite app_nil_r; by destruct x|done|done]. }
  destruct (fetchaddr_spec x F T pages (u64 (uargv + 8 * i)) Hc Hf (u64_range _)) as (r & q & w1 & F1 & T1 & E1 & Hf1 & Hr1).
  rewrite (bind_eq _ _ _ _ _ E1). cbn [fst snd].
  assert (∀ pg w2 F2 T2, fetching w0 F0 T0 w2 F2 T2 pg → ∃ ok pages' argv' w' F' T',
    Some ((false, pg, argv), with_vm x w2) = Some ((ok, pages', argv ++ argv'), with_vm x w') ∧ fetching w0 F0 T0 w' F' T' pages' ∧
    (ok = true → args_at w0 T0 uargv i argv' ∧ Forall arg_ok argv' ∧ (length argv' < S n)%nat)) as Hbad.
  { intros pg w2 F2 T2 Hf2. exists false, pg, [], w2, F2, T2. by rewrite app_nil_r. }
  destruct Hr1 as [->|(-> & Hq & Hword)]; [by eapply Hbad|]. change (0 <? 0) with false. cbn iota.
  destruct (Z.eqb_spec q 0) as [->|Hq0].
  { exists true, pages, [], w1, F1, T1. split_and!; [by rewrite app_nil_r|done|]. intros _. split_and!; [done|constructor|cbn; lia]. }
  destruct (fetching_kalloc _ _ _ _ _ _ _ Hf1) as [E2|(p & w2 & F2 & E2 & Hp0 & Hf2)].
  { rewrite (bind_eq _ _ _ _ _ (on_vm_eq _ (with_vm x w1) _ _ E2)). change (0 =? 0) with true. by eapply Hbad. }
  rewrite (bind_eq _ _ _ _ _ (on_vm_eq _ (with_vm x w1) _ _ E2)), (proj2 (Z.eqb_neq _ _) Hp0).
  change (mkEworld _ _ w2 _) with (with_vm x w2).
  destruct (fetchstr_spec (with_vm x w2) F2 T1 (pages ++ [p]) q (Z.to_nat PGSIZE)) as (r & s & w3 & F3 & T3 & E3 & Hf3 & Hr3);
    [by destruct Hc|done|done|].
  rewrite (bind_eq _ _ _ _ _ E3). cbn [fst snd]. change (with_vm (with_vm x w2) w3) with (with_vm x w3).
  destruct Hr3 as [->|(Hr0 & Hstr & Hlen & Hby)]; [by eapply Hbad|]. rewrite (proj2 (Z.ltb_ge _ _) Hr0).
  destruct (IH (with_vm x w3) F3 T3 uargv (i + 1) (pages ++ [p]) (argv ++ [s])) as (ok & pg & argv' & w' & F' & T' & E' & Hf' & Hok);
    [by destruct Hc|done|].
  exists ok, pg, (s :: argv'), w', F', T'. rewrite <-app_assoc in E'. split_and!; [exact E'|done|]. intros [Ha [Hb Hl]]%Hok.
  split_and!; [cbn; split; [by exists q|done]|constructor; [|done]|cbn; lia].
  split; [done|unfold PGSIZE in *; lia].
Qed.
End steps.
End process.

(** The process is as it was: the user sees the same bytes and no page is
    lost. *)
Definition unchanged w0 F0 T0 (p : eproc) x : Prop :=
  e_proc x = p ∧ ∃ F T, space (e_vm x) F T (x_sz p) ∧ root T = root T0 ∧
    (∀ a, view lim (x_sz p) (e_vm x) T a = view lim (x_sz p) w0 T0 a) ∧ ∀ q, pages_of user F T q ↔ pages_of user F0 T0 q.

Lemma free_view psz x F T sz pages :
  space (e_vm x) F T sz → NoDup pages → (∀ p, p ∈ pages → pa_valid p ∧ ¬ pages_of user F T p) →
  ∃ w' F', mfor pages (λ p, on_vm (kfree_page p)) x = Some ((), with_vm x w') ∧ space w' F' T sz ∧
    (∀ p, pages_of user F' T p ↔ pages_of user F T p ∨ p ∈ pages) ∧ ∀ a, view lim psz w' T a = view lim psz (e_vm x) T a.
Proof.
  intros Hs Hd Hf. destruct (free_pages pages x F T sz Hs Hd Hf) as (w' & F' & E & Hs' & Hp & Hw).
  exists w', F'. split_and!; [done|done|done|]. intros a. apply view_same; [|done]. intros n e Hn He. apply Hw.
  intros Hin. apply (Hf _ Hin). right. right. by exists n, e.
Qed.

(** The pages of the arguments are given back. *)
Lemma finish_unchanged w0 F0 T0 x w F T pages :
  fetching (x_sz (e_proc x)) w0 F0 T0 w F T pages → (∀ q, q ∉ F → words (e_vm x) !! q = words w !! q) → pa_ok (alloc (e_vm x)) F →
  ∃ w', (mfor pages (λ p, on_vm (kfree_page p));; mret (-1)) x = Some (-1, with_vm x w') ∧ unchanged w0 F0 T0 (e_proc x) (with_vm x w').
Proof.
  intros [Hs Hu Hr Hv Hd Hf Hp _] Hw Hok.
  assert (space (e_vm x) F T (x_sz (e_proc x))) as Hs1 by by eapply other_space.
  destruct (free_view (x_sz (e_proc x)) x F T _ pages Hs1 Hd Hf) as (w' & F' & E & Hs' & Hp' & Hv').
  exists w'. rewrite (bind_eq _ _ _ _ _ E). split; [done|]. split; [done|]. exists F', T. split_and!; [done|done| |].
  - intros a. cbn [with_vm e_vm]. rewrite Hv', <-Hv. apply view_same; [|done]. intros n e Hn He. apply Hw.
    by apply (ow_valid _ _ _ (as_owns _ _ _ _ Hs) n e).
  - intros q. by rewrite Hp', Hp.
Qed.

(** They are given back after the new program has replaced the old one. *)
Lemma finish_started w0 F0 T0 psz w F T pages t img path argv entry p x r :
  fetching psz w0 F0 T0 w F T pages → started F T t img path argv entry p x r →
  ∃ w', (mfor pages (λ p, on_vm (kfree_page p));; mret r) x = Some (r, with_vm x w') ∧ started F0 T0 t img path argv entry p (with_vm x w') r.
Proof.
  intros [Hs Hu Hr Hv Hd Hf Hp _] (Hrr & F' & T' & sp & sz & Ep & Hs' & Hp' & Hset).
  destruct (free_view 0 x F' T' sz pages Hs' Hd) as (w' & F2 & E & Hs2 & Hp2 & Hv2).
  { intros g. rewrite Hp'. by apply Hf. }
  exists w'. rewrite (bind_eq _ _ _ _ _ E). split; [done|]. split; [done|]. exists F2, T', sp, sz. split_and!; [done|done| |by eapply set_up_view].
  intros g. by rewrite Hp2, Hp', Hp.
Qed.

(** The file system after an [exec] of [path]: the lookup of the path, and one
    reference to the file less. *)
Definition fs_after (sb : superblock) (fs0 : fsw) (cwd : nat) (path : list Z) (fs' : fsw) : Prop :=
  ∃ o fw, namei sb cwd path fs0 = Some (o, fw) ∧
    match o with
    | None => fs' = fw
    | Some (ip, _) => ∃ q, ready sb fw ip q ∧ fs' = released fw ip q
    end.

(** C16: [exec] as the user calls it. The path and the list of arguments are in
    user memory, where any part of them may be missing, too long or not
    allocated yet. If the path is there, its lookup must not panic, and if it
    names a file, the file must be whole and not being removed; its inode may
    be in the table already or be read from the disk. The call returns. Either
    the result is -1 and the process is unchanged: it sees the
    same bytes and has lost no page. Or the path and the list were there, the
    file is an ELF file that can be loaded, and the result is the number of arguments: the
    process now shows the segments of the file over zeros, a guard page, and a
    stack with the very strings that were in its memory before; its registers
    are those of the start of the program, and every page of the old address
    space, the new one and the argument buffers is accounted for. *)
Theorem sys_exec_runs_program (sb : superblock) (trampoline : Z) (tf : trapframe) F T x cwd a0 uargv :
  layout_ok sb → 0 ≤ trampoline < 2 ^ 56 →
  tf_a tf !! 0%nat = Some a0 → tf_a tf !! 1%nat = Some uargv → 0 ≤ a0 < 2 ^ 64 →
  let p := e_proc x in let psz := x_sz p in
  (∀ path, str_at psz (e_vm x) T a0 path → ∃ o fw, namei sb cwd path (e_fs x) = Some (o, fw) ∧
     ∀ ip nm, o = Some (ip, nm) → ∃ q, ready sb fw ip q ∧ nlink q ≠ 0 ∧ Forall is_byte (file_bytes fw q)) →
  0 ≤ e_outs x →
  space (e_vm x) F T psz → user_inv lim (e_vm x) F T → root T = x_pagetable p → 0 ≤ x_trapframe p < 2 ^ 56 →
  Z.of_nat (count F) < 2 ^ 20 - 1 →
  ∃ r x', sys_exec tf sb trampoline cwd x = Some (r, x') ∧ e_outs x' = e_outs x ∧
    (e_fs x' = e_fs x ∨ ∃ path, str_at psz (e_vm x) T a0 path ∧ fs_after sb (e_fs x) cwd path (e_fs x')) ∧
    (r = -1 ∧ unchanged (e_vm x) F T p x' ∨
     ∃ path ip nm fw q argv, str_at psz (e_vm x) T a0 path ∧ args_at psz (e_vm x) T uargv 0 argv ∧
       namei sb cwd path (e_fs x) = Some (Some (ip, nm), fw) ∧ ready sb fw ip q ∧
       let bytes := file_bytes fw q in let elf := get_elf (slice 0 EH_SIZE bytes) in
       let phs := headers bytes (e_phoff elf) (Z.to_nat (e_phnum elf)) in
       e_magic elf = ELF_MAGIC ∧ Forall (seg_ok bytes) phs ∧
       started F T (PGROUNDUP (top phs)) (program bytes phs) path argv (e_entry elf) p x' r).
Proof.
  intros Hsb Htr Ha0 Ha1 Hr0 p psz Hlook Hout Hs Hu HrT Htf HF.
  unfold sys_exec, argstr, argaddr, argraw. rewrite !decide_True, Ha0, Ha1 by lia.
  pose proof (as_sz _ _ _ _ Hs) as Hpsz.
  assert (at_call psz T x) as Hc by by split.
  assert (fetching psz (e_vm x) F T (e_vm x) F T []) as Hf0.
  { split; [done|done|done|done|constructor|by intros ? ?%elem_of_nil|intros g; rewrite elem_of_nil; tauto|done]. }
  destruct (fetchstr_spec psz Hpsz (e_vm x) F T x F T [] a0 MAXPATH Hc Hf0 Hr0) as (r1 & path & w1 & F1 & T1 & E1 & Hf1 & Hres1).
  rewrite (bind_eq _ _ _ _ _ E1). cbn [fst snd]. destruct Hres1 as [->|(Hr1 & Hpath & _ & _)].
  { exists (-1), (with_vm x w1). split_and!; [done|done|by left|left]. split; [done|]. split; [done|].
    destruct Hf1 as [G1 G2 G3 G4 G5 G6 G7 G8]. exists F1, T1. split_and!; [done|done|done|]. intros g. rewrite <-G7, elem_of_nil. tauto. }
  rewrite (proj2 (Z.ltb_ge _ _) Hr1).
  destruct (fetch_args_spec psz Hpsz (e_vm x) F T (Z.to_nat MAXARG) (with_vm x w1) F1 T1 uargv 0 [] [])
    as (ok & pages & argv & w2 & F2 & T2 & E2 & Hf2 & Hok); [by destruct Hc|done|].
  rewrite (bind_eq _ _ _ _ _ E2). cbn [app]. change (with_vm (with_vm x w1) w2) with (with_vm x w2). destruct ok.
  2:{ destruct (finish_unchanged (e_vm x) F T (with_vm x w2) w2 F2 T2 pages Hf2) as (w' & E & Hun); [done|apply Hf2|].
      exists (-1), (with_vm (with_vm x w2) w'). split_and!; [exact E|done|by left|by left]. }
  destruct (Hok eq_refl) as (Hargs & Haok & Hlen).
  assert (Z.of_nat (count F2) < 2 ^ 20 - 1) as HF2.
  { assert (count F2 ≤ count F)%nat; [|lia]. apply (subseteq_size F2 F). apply Hf2. }
  destruct (Hlook path Hpath) as ([[ip nm]|] & fw & Hnamei & Hfile).
  2:{ rewrite (bind_eq _ _ _ _ _ (kexec_not_found sb trampoline fw (with_vm x w2) cwd path argv Hnamei Hout)).
      cbn [with_vm e_outs e_vm e_proc]. set (x' := mkEworld _ _ _ _).
      destruct (finish_unchanged (e_vm x) F T x' w2 F2 T2 pages Hf2) as (w' & E & Hun); [done|apply Hf2|].
      exists (-1), (with_vm x' w'). split_and!; [exact E|done| |by left].
      right. exists path. split; [done|]. by exists None, fw. }
  destruct (Hfile ip nm eq_refl) as (q & Hready & Hnl & Hby).
  destruct (kexec_replaces_program sb Hsb trampoline Htr F2 T2 fw ip nm q (with_vm x w2) cwd path argv)
    as (r & x' & E & Efs & Eo & Hres); try done; [apply Hf2|by rewrite (fe_root _ _ _ _ _ _ _ _ Hf2)|unfold MAXARG in *; lia|].
  assert (fs_after sb (e_fs x) cwd path (e_fs x')) as Hafter.
  { exists (Some (ip, nm)), fw. split; [done|]. by exists q. }
  rewrite (bind_eq _ _ _ _ _ E). destruct Hres as [(-> & Ep & Hok' & Hw)|(Hm & Hseg & Hst)].
  - cbn [with_vm e_proc e_vm] in Ep, Hw. fold p in Ep. assert (fetching (x_sz (e_proc x')) (e_vm x) F T w2 F2 T2 pages) as Hf2' by by rewrite Ep.
    destruct (finish_unchanged (e_vm x) F T x' w2 F2 T2 pages Hf2' Hw Hok') as (w' & E' & Hun).
    exists (-1), (with_vm x' w'). split_and!; [exact E'|exact Eo|right; by exists path|left]. by rewrite Ep in Hun.
  - destruct (finish_started _ _ _ _ _ _ _ _ _ _ _ _ _ _ _ _ Hf2 Hst) as (w' & E' & Hst').
    exists r, (with_vm x' w'). split_and!; [exact E'|exact Eo|right; by exists path|right].
    exists path, ip, nm, fw, q, argv. split_and!; done.
Qed.
End spec.

(** ** A run *)

(** The program of [ExecSpec], whose inode is on disk, called with the path "a" at address 0 and, at
    address 16, a list of one argument "xy", which is at address 8. *)
Definition call_page : list Z := [97; 120 + 121 * 256; 8; 0] ++ replicate 508 0.
Definition call_mem : vworld kmem := mkVworld exe_kmem (<[pg 3 := call_page]> (words demo_world)).
Definition call_world : eworld kmem := mkEworld (exe_cold 0 0) 0 call_mem exe_proc.
Definition call_tf : trapframe := mkTrapframe [0; 16; 0; 0; 0; 0] 7.

Example sys_exec_run :
  (λ r, (r.1, x_epc (e_proc r.2), x_sz (e_proc r.2), x_sp (e_proc r.2))) <$> sys_exec call_tf demo_sb (pg 6) 0 call_world =
  Some (1, 2, 12288, 12256).
Proof. by vm_compute. Qed.

Lemma call_space : space call_mem exe_F demo_tree 4096 ∧ user_inv lim call_mem exe_F demo_tree.
Proof.
  assert (space call_mem exe_F demo_tree 4096) as Hs.
  { destruct exe_space as [[Hok [H1 H2 H3 H4 H5 H6]] Ho Hsz Hl Hk]. split; try done. split; [done|]. split; try done.
    intros n p Hp. apply page_is_other; [|by apply H1]. apply demo_addr in Hp as [[_ ->]|[[_ ->]|[_ ->]]]; by vm_compute. }
  split; [done|]. eapply space_user; [exact Hs|]. intros n e _. cbn [demo_tree L]. intros [_ <-]%lookup_singleton_Some.
  exists call_page. by vm_compute.
Qed.

Lemma call_path path : str_at 4096 call_mem demo_tree 0 path → path = [97].
Proof.
  intros Hp. apply (str_unique 4096 call_mem demo_tree 0 path [97] Hp).
  split; [|by repeat constructor]. intros k Hk. destruct k as [|[|k]]; [by vm_compute..|cbn in Hk; lia].
Qed.

Lemma sys_exec_runs_program_witness :
  ∃ x' argv, sys_exec call_tf demo_sb (pg 6) 0 call_world = Some (1, x') ∧ args_at 4096 call_mem demo_tree 16 0 argv ∧ length argv = 1%nat.
Proof.
  destruct (sys_exec_runs_program demo_sb (pg 6) call_tf exe_F demo_tree call_world 0 0 16)
    as (r & x' & E & Eo & _ & Hres).
  - exact demo_layout.
  - done.
  - reflexivity.
  - reflexivity.
  - lia.
  - intros path ->%call_path. exists (Some (1%nat, [97])), (exe_cold 1 1). split; [vm_compute; reflexivity|].
    intros ip nm [= <- <-]. exists (exe_inode 1). split; [exact exe_ready|]. split; [done|].
    apply (bool_decide_unpack _). by vm_compute.
  - done.
  - apply call_space.
  - apply call_space.
  - done.
  - done.
  - by vm_compute.
  - assert (r = 1) as ->.
    { pose proof sys_exec_run as Hr. rewrite E in Hr. by injection Hr. }
    destruct Hres as [[Hm _]|(path & ip & nm & fw & q & argv & _ & Ha & _ & _ & _ & _ & Hlen & _)]; [discriminate Hm|].
    exists x', argv. split; [exact E|]. split; [exact Ha|lia].
Defined.
