(* ===== verification/Printf.v ===== *)
(** Formatted output: [xv6/user/printf.c] and [xv6/kernel/printk.c], and
    [atoi] of [xv6/user/ulib.c].

    A string is the list of its bytes without the final NUL; reading past its
    end gives the NUL. The output is the bytes that are written, to a
    descriptor or to the console. An argument is a 64-bit value or a pointer
    to a string; [None] is an argument that is missing or of the wrong kind, or
    a write outside of the buffer of [printint]. The lock of [printk] is not
    state here. The two programs have a [printint], a [printptr] and a cascade
    of conversions each; those of the kernel are in [Section kernel]. *)
From S2P Require Import Prelude.

Inductive arg := AInt (v : Z) | AStr (s : option (list Z)).
(** The arguments that are left, and the output. *)
Record pst := mkPst { pargs : list arg; pout : list Z }.
Abbreviation pm := (M pst).

Definition putc (c : Z) : pm unit := modify (λ s, mkPst (pargs s) (pout s ++ [c])).
Definition va_int : pm Z := λ s,
  match pargs s with AInt v :: l => Some (v, mkPst l (pout s)) | _ => None end.
Definition va_str : pm (option (list Z)) := λ s,
  match pargs s with AStr v :: l => Some (v, mkPst l (pout s)) | _ => None end.

Definition digits_upper : list Z := [48; 49; 50; 51; 52; 53; 54; 55; 56; 57; 65; 66; 67; 68; 69; 70].
Definition digits_lower : list Z := [48; 49; 50; 51; 52; 53; 54; 55; 56; 57; 97; 98; 99; 100; 101; 102].
Definition BUF : nat := 20.
Definition c_null : list Z := [40; 110; 117; 108; 108; 41].

Section print.
(** The digits, and the bytes [%c] writes for its argument. *)
Context (digits : list Z) (cc : Z → list Z).

(** [buf[i++] = c]; the buffer is kept with its last character first. *)
Definition push (c : Z) (buf : list Z) : option (list Z) :=
  if decide (length buf < BUF)%nat then Some (c :: buf) else None.
(** The loop that fills the buffer. *)
Fixpoint digit_loop (fuel : nat) (base x : Z) (buf : list Z) : option (list Z) :=
  match fuel with
  | O => None
  | S fuel =>
    d ← digits !! Z.to_nat (x mod base);
    buf ← push d buf;
    if x / base =? 0 then Some buf else digit_loop fuel base (x / base) buf
  end.
(** [- xx] of the smallest [long long] is an overflow that C leaves undefined;
    here it wraps around, which is what the compilers for the machine do. *)
Definition printint (xx base : Z) (sgn : bool) : pm unit :=
  let neg := sgn && (xx <? 0) in
  let x := if neg then u64 (- xx) else u64 xx in
  match digit_loop 64 base x [] ≫= (λ buf, if neg then push 45 buf else Some buf) with
  | Some buf => mfor buf putc
  | None => stuck
  end.

(** The loop of [printptr]. *)
Fixpoint ptr_loop (n : nat) (x : Z) : pm unit :=
  match n with
  | O => mret ()
  | S n =>
    match digits !! Z.to_nat (Z.shiftr x 60) with
    | Some d => putc d;; ptr_loop n (u64 (Z.shiftl x 4))
    | None => stuck
    end
  end.
Definition printptr (x : Z) : pm unit := putc 48;; putc 120;; ptr_loop 16 x.

(** The conversion of [vprintf] that [c0], [c1] and [c2] ask for: how many
    characters it has beside [c0]. [va_arg] takes 64 bits, which the type of
    the argument cuts. *)
Definition convert (c0 c1 c2 : Z) : pm nat :=
  if c0 =? 100 then v ← va_int; printint (int32 v) 10 true;; mret 0%nat
  else if (c0 =? 108) && (c1 =? 100) then v ← va_int; printint (swrap 64 v) 10 true;; mret 1%nat
  else if (c0 =? 108) && (c1 =? 108) && (c2 =? 100) then v ← va_int; printint (swrap 64 v) 10 true;; mret 2%nat
  else if c0 =? 117 then v ← va_int; printint (u32 v) 10 false;; mret 0%nat
  else if (c0 =? 108) && (c1 =? 117) then v ← va_int; printint (swrap 64 v) 10 false;; mret 1%nat
  else if (c0 =? 108) && (c1 =? 108) && (c2 =? 117) then v ← va_int; printint (swrap 64 v) 10 false;; mret 2%nat
  else if c0 =? 120 then v ← va_int; printint (u32 v) 16 false;; mret 0%nat
  else if (c0 =? 108) && (c1 =? 120) then v ← va_int; printint (swrap 64 v) 16 false;; mret 1%nat
  else if (c0 =? 108) && (c1 =? 108) && (c2 =? 120) then v ← va_int; printint (swrap 64 v) 16 false;; mret 2%nat
  else if c0 =? 112 then v ← va_int; printptr (u64 v);; mret 0%nat
  else if c0 =? 99 then v ← va_int; mfor (cc (u32 v)) putc;; mret 0%nat
  else if c0 =? 115 then s ← va_str; mfor (default c_null s) putc;; mret 0%nat
  else if c0 =? 37 then putc 37;; mret 0%nat
  else putc 37;; putc c0;; mret 0%nat.

(** The same parts of [printk.c]. *)
Section kernel.
Fixpoint kdigit_loop (fuel : nat) (base x : Z) (buf : list Z) : option (list Z) :=
  match fuel with
  | O => None
  | S fuel =>
    d ← digits !! Z.to_nat (x mod base);
    buf ← push d buf;
    if x / base =? 0 then Some buf else kdigit_loop fuel base (x / base) buf
  end.
(** [sign] is set to the sign of the number in the test. *)
Definition kprintint (xx base : Z) (sign : bool) : pm unit :=
  let sign := if sign then xx <? 0 else sign in
  let x := if sign then u64 (- xx) else u64 xx in
  match kdigit_loop 64 base x [] ≫= (λ buf, if sign then push 45 buf else Some buf) with
  | Some buf => mfor buf putc
  | None => stuck
  end.
Fixpoint kptr_loop (n : nat) (x : Z) : pm unit :=
  match n with
  | O => mret ()
  | S n =>
    match digits !! Z.to_nat (Z.shiftr x 60) with
    | Some d => putc d;; kptr_loop n (u64 (Z.shiftl x 4))
    | None => stuck
    end
  end.
Definition kprintptr (x : Z) : pm unit := putc 48;; putc 120;; kptr_loop 16 x.

(** The cascade of [printk]; [None] leaves the loop, at the end of the format. *)
Definition kconvert (c0 c1 c2 : Z) : pm (option nat) :=
  if c0 =? 100 then v ← va_int; kprintint (int32 v) 10 true;; mret (Some 0%nat)
  else if (c0 =? 108) && (c1 =? 100) then v ← va_int; kprintint (swrap 64 v) 10 true;; mret (Some 1%nat)
  else if (c0 =? 108) && (c1 =? 108) && (c2 =? 100) then v ← va_int; kprintint (swrap 64 v) 10 true;; mret (Some 2%nat)
  else if c0 =? 117 then v ← va_int; kprintint (u32 v) 10 false;; mret (Some 0%nat)
  else if (c0 =? 108) && (c1 =? 117) then v ← va_int; kprintint (swrap 64 v) 10 false;; mret (Some 1%nat)
  else if (c0 =? 108) && (c1 =? 108) && (c2 =? 117) then v ← va_int; kprintint (swrap 64 v) 10 false;; mret (Some 2%nat)
  else if c0 =? 120 then v ← va_int; kprintint (u32 v) 16 false;; mret (Some 0%nat)
  else if (c0 =? 108) && (c1 =? 120) then v ← va_int; kprintint (swrap 64 v) 16 false;; mret (Some 1%nat)
  else if (c0 =? 108) && (c1 =? 108) && (c2 =? 120) then v ← va_int; kprintint (swrap 64 v) 16 false;; mret (Some 2%nat)
  else if c0 =? 112 then v ← va_int; kprintptr (u64 v);; mret (Some 0%nat)
  else if c0 =? 99 then v ← va_int; mfor (cc (u32 v)) putc;; mret (Some 0%nat)
  else if c0 =? 115 then s ← va_str; mfor (default c_null s) putc;; mret (Some 0%nat)
  else if c0 =? 37 then putc 37;; mret (Some 0%nat)
  else if c0 =? 0 then mret None
  else putc 37;; putc c0;; mret (Some 0%nat).
End kernel.

Section format.
Context (fmt : list Z).
Definition at_ (i : nat) : Z := default 0 (fmt !! i).
(** [c1] and [c2], which are not read past the end. *)
Definition ahead1 (i : nat) : Z := if at_ i =? 0 then 0 else at_ (i + 1).
Definition ahead2 (i : nat) : Z := if ahead1 i =? 0 then 0 else at_ (i + 2).

(** [vprintf]: [state] is set after a percent sign. *)
Fixpoint vprintf_loop (fuel i : nat) (state : bool) : pm unit :=
  match fuel with
  | O => stuck
  | S fuel =>
    if at_ i =? 0 then mret ()
    else if negb state then
      if at_ i =? 37 then vprintf_loop fuel (i + 1) true
      else putc (at_ i);; vprintf_loop fuel (i + 1) false
    else
      k ← convert (at_ i) (ahead1 i) (ahead2 i);
      vprintf_loop fuel (i + k + 1) false
  end.
Definition vprintf : pm unit := vprintf_loop (S (length fmt)) 0 false.

(** The loop of [printk]. *)
Fixpoint printk_loop (fuel i : nat) : pm unit :=
  match fuel with
  | O => stuck
  | S fuel =>
    if at_ i =? 0 then mret ()
    else if negb (at_ i =? 37) then putc (at_ i);; printk_loop fuel (i + 1)
    else
      r ← kconvert (at_ (i + 1)) (ahead1 (i + 1)) (ahead2 (i + 1));
      match r with
      | Some k => printk_loop fuel (i + 1 + k + 1)
      | None => mret ()
      end
  end.
Definition printk : pm unit := printk_loop (S (length fmt)) 0.
End format.
End print.

(** In user programs a character is cut to a byte; [consputc] of the kernel
    erases a character if it is told to. *)
Definition user_char (v : Z) : list Z := [v mod 256].
Definition cons_char (v : Z) : list Z := if v =? 0x100 then [8; 32; 8] else [v mod 256].
Definition fprintf (fmt : list Z) : pm unit := vprintf digits_upper user_char fmt.
Definition kprintk (fmt : list Z) : pm unit := printk digits_lower cons_char fmt.

(** [atoi]; [None] is an overflow of [int]. *)
Fixpoint atoi_loop (s : list Z) (n : Z) : option Z :=
  match s with
  | c :: s => if (48 <=? c) && (c <=? 57) then
                let n := n * 10 + c - 48 in
                if n <? 2 ^ 31 then atoi_loop s n else None
              else Some n
  | [] => Some n
  end.
Definition atoi (s : list Z) : option Z := atoi_loop s 0.

(** ** Numbers *)

(** The number that a list of digits denotes, the first being the highest. *)
Definition value (base : Z) (ds : list Z) : Z := foldl (λ n d, n * base + d) 0 ds.
Definition chars (digits ds : list Z) : list Z := (λ d, default 0 (digits !! Z.to_nat d)) <$> ds.

(** The digits of [x], without leading zeros. *)
Record digits_of (base x : Z) (ds : list Z) : Prop := {
  do_value : value base ds = x;
  do_range : Forall (λ d, 0 ≤ d < base) ds;
  do_head : ds = [0] ∨ ∃ d r, ds = d :: r ∧ d ≠ 0;
}.

Section numbers.
Context (digits : list Z) (Hdig : length digits = 16%nat).

Lemma digit_loop_spec k : ∀ fuel base x buf,
  2 ≤ base ≤ 16 → 0 ≤ x < base ^ Z.of_nat k → (0 < k ≤ fuel)%nat → (length buf + k ≤ BUF)%nat →
  ∃ ds, digit_loop digits fuel base x buf = Some (chars digits ds ++ buf) ∧ digits_of base x ds ∧ (length ds ≤ k)%nat.
Proof.
  induction k as [|k IH]; [lia|]. intros fuel base x buf Hb Hx Hk Hl. destruct fuel as [|fuel]; [lia|]. cbn [digit_loop].
  pose proof (Z.mod_pos_bound x base ltac:(lia)) as Hm. pose proof (Z.div_mod x base ltac:(lia)) as Hd.
  destruct (lookup_lt_is_Some_2 digits (Z.to_nat (x mod base))) as [c Hc]; [lia|]. rewrite Hc. cbn [mbind option_bind].
  unfold push. rewrite decide_True by lia. cbn [mbind option_bind].
  assert (chars digits [x mod base] = [c]) as Hch by (cbn [chars fmap list_fmap]; by rewrite Hc).
  destruct (x / base =? 0) eqn:E.
  - exists [x mod base]. rewrite Hch. split_and!; [done| |cbn; lia]. split.
    + cbn. lia.
    + by repeat constructor; lia.
    + destruct (decide (x mod base = 0)) as [->|]; [by left|right; by exists (x mod base), []].
  - assert (0 < x / base) as Hq by (pose proof (Z.div_pos x base ltac:(lia) ltac:(lia)); lia).
    rewrite Nat2Z.inj_succ, Z.pow_succ_r in Hx by lia. destruct k as [|k].
    { change (Z.of_nat 0) with 0 in Hx. rewrite Z.pow_0_r in Hx. assert (x / base = 0) by (apply Z.div_small; lia). lia. }
    destruct (IH fuel base (x / base) (c :: buf) Hb) as (ds & E' & [Hv Hr Hh] & Hl'); [|lia|cbn; lia|].
    { split; [lia|]. apply Z.div_lt_upper_bound; lia. }
    exists (ds ++ [x mod base]). split_and!; [|split|rewrite length_app; cbn; lia].
    + rewrite E'. unfold chars in *. rewrite fmap_app, Hch, <-app_assoc. done.
    + unfold value in *. rewrite foldl_app, Hv. cbn. lia.
    + apply Forall_app. split; [done|by repeat constructor; lia].
    + destruct Hh as [->|(d & r & -> & Hd0)]; [cbn in Hv; lia|right]. by exists d, (r ++ [x mod base]).
Qed.

Lemma putall l s : mfor l putc s = Some ((), mkPst (pargs s) (pout s ++ l)).
Proof.
  revert s. induction l as [|c l IH]; intros s; [by destruct s; cbn; rewrite app_nil_r|]. cbn [mfor].
  rewrite (bind_eq _ _ _ () (mkPst (pargs s) (pout s ++ [c]))) by done. rewrite IH. cbn. by rewrite <-app_assoc.
Qed.

Lemma printint_spec xx base sgn s :
  - 2 ^ 63 ≤ xx < 2 ^ 63 → base = 10 ∨ base = 16 ∧ sgn = false →
  let neg := sgn && (xx <? 0) in
  ∃ ds, printint digits xx base sgn s = Some ((), mkPst (pargs s) (pout s ++ (if neg then [45] else []) ++ chars digits ds)) ∧
    digits_of base (if neg then - xx else u64 xx) ds ∧ (length ds + (if neg then 1 else 0) ≤ BUF)%nat.
Proof.
  intros Hx Hb neg. unfold printint. fold neg. set (x := if neg then u64 (- xx) else u64 xx).
  assert (neg = true → x = - xx ∧ base = 10 ∧ 0 ≤ - xx < 10 ^ 19) as Hneg.
  { intros E. unfold x. rewrite E. unfold neg in E. destruct sgn; [|done]. cbn in E. rewrite u64_id by lia. split_and!; [done|lia|lia|lia]. }
  assert (0 ≤ x < 2 ^ 64) as Hxr by (unfold x; destruct neg; apply u64_range).
  set (k := if neg then 19%nat else 20%nat).
  assert (0 ≤ x < base ^ Z.of_nat k) as Hk.
  { split; [lia|]. unfold k. destruct neg.
    - destruct (Hneg eq_refl) as (-> & -> & ?). change (Z.of_nat 19) with 19. lia.
    - eapply Z.lt_trans; [apply Hxr|]. destruct Hb as [->|[-> _]]; by vm_compute. }
  destruct (digit_loop_spec k 64 base x []) as (ds & E & Hds & Hl); [lia|done|unfold k; destruct neg; lia|unfold k, BUF; cbn; destruct neg; lia|].
  rewrite E, app_nil_r. cbn [mbind option_bind]. exists ds.
  assert (digits_of base (if neg then - xx else u64 xx) ds) as Hds'.
  { unfold x in Hds. destruct neg eqn:En; [|done]. destruct (Hneg eq_refl) as (Hx' & _ & _). unfold x in Hx'. by rewrite Hx' in Hds. }
  unfold k in Hl. destruct neg.
  - unfold push. rewrite decide_True by (unfold chars, BUF; rewrite length_fmap; lia). rewrite putall. split_and!; [done|done|unfold BUF; lia].
  - rewrite putall. split_and!; [done|done|unfold BUF; lia].
Qed.

(** C39: [printint] never writes outside of its buffer of 20 bytes, whatever
    the 64-bit value, in base 10 or 16. It prints the digits of the value
    without leading zeros, after a minus sign if it is signed and negative. *)
Theorem printint_prints xx base sgn s :
  - 2 ^ 63 ≤ xx < 2 ^ 63 → base = 10 ∨ base = 16 ∧ sgn = false →
  let neg := sgn && (xx <? 0) in
  ∃ ds, printint digits xx base sgn s = Some ((), mkPst (pargs s) (pout s ++ (if neg then [45] else []) ++ chars digits ds)) ∧
    digits_of base (if neg then - xx else u64 xx) ds ∧ (length ds + (if neg then 1 else 0) ≤ BUF)%nat.
Proof. apply printint_spec. Qed.
End numbers.

Lemma printint_prints_witness :
  ∃ ds, printint digits_upper (- 2 ^ 63) 10 true (mkPst [] []) = Some ((), mkPst [] ([] ++ [45] ++ chars digits_upper ds)) ∧
    digits_of 10 (2 ^ 63) ds ∧ (length ds + 1 ≤ BUF)%nat.
Proof.
  refine (printint_prints digits_upper eq_refl (- 2 ^ 63) 10 true (mkPst [] []) _ (or_introl eq_refl)). by vm_compute.
Defined.

(** ** What a format means *)

(** The parts of a format: a character, a number of [w] bits (signed in
    decimal, or unsigned in a base), a pointer, a character and a string. *)
Inductive item :=
  | ILit (c : Z) | ISigned (w : Z) | IUnsigned (w base : Z) | IPtr | IChr | IStr.
Definition conversions : list (list Z * item) :=
  [ ([100], ISigned 32); ([108; 100], ISigned 64); ([108; 108; 100], ISigned 64);
    ([117], IUnsigned 32 10); ([108; 117], IUnsigned 64 10); ([108; 108; 117], IUnsigned 64 10);
    ([120], IUnsigned 32 16); ([108; 120], IUnsigned 64 16); ([108; 108; 120], IUnsigned 64 16);
    ([112], IPtr); ([99], IChr); ([115], IStr); ([37], ILit 37) ].

(** The format up to its NUL; an unknown conversion stands for itself and a
    percent sign at the end for nothing. *)
Inductive parses : list Z → list item → Prop :=
  | pa_end : parses [] []
  | pa_nul r : parses (0 :: r) []
  | pa_char c r its : c ≠ 0 → c ≠ 37 → parses r its → parses (c :: r) (ILit c :: its)
  | pa_conv key it r its : (key, it) ∈ conversions → parses r its → parses (37 :: key ++ r) (it :: its)
  | pa_unknown c r its :
      c ≠ 0 → (∀ key it, (key, it) ∈ conversions → ¬ key `prefix_of` c :: r) →
      parses r its → parses (37 :: c :: r) (ILit 37 :: ILit c :: its)
  | pa_last : parses [37] []
  | pa_last_nul r : parses (37 :: 0 :: r) [].

(** The 16 hexadecimal digits of a pointer. *)
Definition hex16 (v : Z) : list Z := (λ i, u64 v / 16 ^ (15 - i) mod 16) <$> seqZ 0 16.

Section meaning.
Context (digits : list Z) (cc : Z → list Z).

(** What an item prints, and the arguments it leaves. *)
Inductive shows : item → list arg → list Z → list arg → Prop :=
  | sh_lit c l : shows (ILit c) l [c] l
  | sh_signed w v l ds :
      digits_of 10 (Z.abs (swrap w v)) ds →
      shows (ISigned w) (AInt v :: l) ((if swrap w v <? 0 then [45] else []) ++ chars digits ds) l
  | sh_unsigned w base v l ds :
      digits_of base (v mod 2 ^ w) ds → shows (IUnsigned w base) (AInt v :: l) (chars digits ds) l
  | sh_ptr v l : shows IPtr (AInt v :: l) (48 :: 120 :: chars digits (hex16 v)) l
  | sh_chr v l : shows IChr (AInt v :: l) (cc (u32 v)) l
  | sh_str o l : shows IStr (AStr o :: l) (default c_null o) l.
Inductive formats : list item → list arg → list Z → list arg → Prop :=
  | fo_nil l : formats [] l [] l
  | fo_cons it its l out l1 out1 l2 :
      shows it l out l1 → formats its l1 out1 l2 → formats (it :: its) l (out ++ out1) l2.

(** The result of printing [its] from [s]: what they show, or nothing if the
    arguments are too few or of the wrong kinds. *)
Definition printed (its : list item) (s : pst) (r : option (unit * pst)) : Prop :=
  match r with
  | Some (_, s') => ∃ out, pout s' = pout s ++ out ∧ formats its (pargs s) out (pargs s')
  | None => ∀ out l, ¬ formats its (pargs s) out l
  end.
End meaning.

Section items.
Context (digits : list Z) (cc : Z → list Z) (Hdig : length digits = 16%nat).
Abbreviation prn := (printed digits cc).
Abbreviation shows := (shows digits cc).
Abbreviation formats := (formats digits cc).

(** [m] prints the item [it]. *)
Definition item_does (it : item) (m : pm unit) : Prop := ∀ s,
  match m s with
  | Some (_, s') => ∃ out, pout s' = pout s ++ out ∧ shows it (pargs s) out (pargs s')
  | None => ∀ out l, ¬ shows it (pargs s) out l
  end.

Lemma shows_rest it l o1 l1 o2 l2 : shows it l o1 l1 → shows it l o2 l2 → l1 = l2.
Proof. destruct 1; inversion 1; congruence. Qed.

Lemma printed_cons {A} it its m (a : A) (k : A → pm unit) s :
  item_does it m → (∀ s, prn its s (k a s)) → prn (it :: its) s (((m;; mret a) ≫= k) s).
Proof.
  intros Hm Hk. specialize (Hm s). rewrite bind_assoc. destruct (m s) as [[[] s1]|] eqn:E.
  - rewrite (bind_eq _ _ _ _ _ E). destruct Hm as (out & Ho & Hs). specialize (Hk s1).
    change (prn (it :: its) s (k a s1)). unfold printed in *. destruct (k a s1) as [[[] s2]|].
    + destruct Hk as (out1 & Ho1 & Hf). exists (out ++ out1). rewrite Ho1, Ho, app_assoc. split; [done|by econstructor].
    + intros o l Hf. inversion_clear Hf as [|? ? ? o1 l1 o2 ? Hs1 Hf1].
      rewrite (shows_rest _ _ _ _ _ _ Hs1 Hs) in Hf1. by eapply Hk.
  - unfold mbind, M_bind. rewrite E. intros o l Hf. inversion_clear Hf. by eapply Hm.
Qed.

Lemma does_lit c : item_does (ILit c) (putc c).
Proof. intros s. exists [c]. split; [done|]. constructor. Qed.

(** An item that takes a number. *)
Lemma does_int it (f : Z → pm unit) :
  (∀ o l, ¬ shows it [] o l) → (∀ st l o l', ¬ shows it (AStr st :: l) o l') →
  (∀ v s, ∃ out, f v s = Some ((), mkPst (pargs s) (pout s ++ out)) ∧ shows it (AInt v :: pargs s) out (pargs s)) →
  item_does it (v ← va_int; f v).
Proof.
  intros Hnil Hstr Hf s. destruct s as [[|[v|st] l] o]; [by intros out l'; apply Hnil| |by intros out l'; apply Hstr].
  rewrite (bind_eq _ _ _ v (mkPst l o)) by done. destruct (Hf v (mkPst l o)) as (out & E & Hs). rewrite E.
  by exists out.
Qed.

Lemma swrap_range w v : 0 < w → - 2 ^ (w - 1) ≤ swrap w v < 2 ^ (w - 1).
Proof.
  intros Hw. unfold swrap. assert (2 ^ w = 2 * 2 ^ (w - 1)) as Ep by (rewrite <-Z.pow_succ_r by lia; f_equal; lia).
  pose proof (Z.pow_pos_nonneg 2 (w - 1)). pose proof (Z.mod_pos_bound (v + 2 ^ (w - 1)) (2 ^ w)). lia.
Qed.

Lemma does_signed w : w = 32 ∨ w = 64 → item_does (ISigned w) (v ← va_int; printint digits (swrap w v) 10 true).
Proof.
  intros Hw. apply does_int; [by inversion 1|by inversion 1|]. intros v s.
  assert (- 2 ^ 63 ≤ swrap w v < 2 ^ 63) as Hr.
  { destruct Hw as [->| ->]; [pose proof (swrap_range 32 v)|pose proof (swrap_range 64 v)]; lia. }
  destruct (printint_spec digits Hdig (swrap w v) 10 true s Hr (or_introl eq_refl)) as (ds & E & Hds & _).
  eexists. split; [exact E|]. constructor. cbn [andb] in Hds.
  destruct (Z.ltb_spec (swrap w v) 0); [by rewrite Z.abs_neq by lia|].
  rewrite Z.abs_eq by lia. by rewrite u64_id in Hds by lia.
Qed.

Lemma does_unsigned w base (x : Z → Z) :
  base = 10 ∨ base = 16 → (∀ v, - 2 ^ 63 ≤ x v < 2 ^ 63 ∧ u64 (x v) = v mod 2 ^ w) →
  item_does (IUnsigned w base) (v ← va_int; printint digits (x v) base false).
Proof.
  intros Hb Hx. apply does_int; [by inversion 1|by inversion 1|]. intros v s. destruct (Hx v) as [Hr Hu].
  destruct (printint_spec digits Hdig (x v) base false s Hr) as (ds & E & Hds & _); [naive_solver|].
  eexists. split; [exact E|]. constructor. cbn [andb] in Hds. by rewrite Hu in Hds.
Qed.

Lemma u32_as_int v : - 2 ^ 63 ≤ u32 v < 2 ^ 63 ∧ u64 (u32 v) = v mod 2 ^ 32.
Proof. pose proof (u32_range v). split; [lia|]. by rewrite u64_id by lia. Qed.
Lemma swrap64_as_int v : - 2 ^ 63 ≤ swrap 64 v < 2 ^ 63 ∧ u64 (swrap 64 v) = v mod 2 ^ 64.
Proof.
  pose proof (swrap_range 64 v). split; [lia|]. unfold u64, swrap. rewrite Zminus_mod_idemp_l. f_equal. lia.
Qed.

Lemma hex16_step v k :
  0 ≤ v < 2 ^ 64 → 1 ≤ k ≤ 15 → u64 (Z.shiftl v 4) / 16 ^ k mod 16 = v / 16 ^ (k - 1) mod 16.
Proof.
  intros Hv Hk. unfold u64. change 16 with (2 ^ 4). rewrite <-!Z.pow_mul_r by lia. apply Z.bits_inj'. intros n Hn.
  destruct (decide (n < 4)).
  - rewrite !Z.mod_pow2_bits_low, !Z.div_pow2_bits, Z.mod_pow2_bits_low, Z.shiftl_spec by lia. f_equal. lia.
  - by rewrite !Z.mod_pow2_bits_high by lia.
Qed.

Lemma ptr_loop_spec n : ∀ x s, (n ≤ 16)%nat → 0 ≤ x < 2 ^ 64 →
  ptr_loop digits n x s = Some ((), mkPst (pargs s)
    (pout s ++ chars digits ((λ i, x / 16 ^ (15 - i) mod 16) <$> seqZ 0 (Z.of_nat n)))).
Proof.
  induction n as [|n IH]; intros x s Hn Hx.
  { cbn. rewrite app_nil_r. by destruct s. }
  cbn [ptr_loop]. rewrite Z.shiftr_div_pow2 by lia. change (2 ^ 60) with (16 ^ 15).
  assert (0 ≤ x / 16 ^ 15 < 16) as Hd by (split; [apply Z.div_pos; lia|apply Z.div_lt_upper_bound; lia]).
  destruct (lookup_lt_is_Some_2 digits (Z.to_nat (x / 16 ^ 15))) as [c Hc]; [lia|]. rewrite Hc.
  erewrite (bind_eq (putc _)) by reflexivity. rewrite IH; [|lia|apply u64_range]. cbn [pargs pout].
  rewrite (seqZ_cons 0 (Z.of_nat (S n))) by lia. replace (Z.pred (Z.of_nat (S n))) with (Z.of_nat n) by lia.
  rewrite <-(fmap_add_seqZ 1 0), fmap_cons, <-list_fmap_compose. unfold chars at 2. rewrite fmap_cons.
  change (15 - 0) with 15. rewrite (Z.mod_small (x / 16 ^ 15)), Hc by lia. cbn [default].
  rewrite <-app_assoc. do 5 f_equal. unfold chars. f_equal.
  apply list_fmap_ext. intros i y Hi%list_elem_of_lookup_2%elem_of_seqZ. cbn.
  rewrite hex16_step by lia. do 3 f_equal. lia.
Qed.

Lemma does_ptr : item_does IPtr (v ← va_int; printptr digits (u64 v)).
Proof.
  apply does_int; [by inversion 1|by inversion 1|]. intros v s. exists (48 :: 120 :: chars digits (hex16 v)).
  split; [|constructor]. unfold printptr. do 2 erewrite (bind_eq (putc _)) by reflexivity.
  rewrite ptr_loop_spec by (lia || apply u64_range). cbn [pargs pout]. by rewrite <-!app_assoc.
Qed.
Lemma does_chr : item_does IChr (v ← va_int; mfor (cc (u32 v)) putc).
Proof.
  apply does_int; [by inversion 1|by inversion 1|]. intros v s. exists (cc (u32 v)). rewrite putall. split; [done|constructor].
Qed.
Lemma does_str : item_does IStr (s ← va_str; mfor (default c_null s) putc).
Proof.
  intros s. destruct s as [[|[v|st] l] o]; [by inversion 1|by inversion 1|].
  rewrite (bind_eq _ _ _ st (mkPst l o)), putall by done. exists (default c_null st). split; [done|constructor].
Qed.

(** ** The cascades *)

Lemma prefix_key a k b (l : list Z) : a :: k `prefix_of` b :: l → b = a ∧ k `prefix_of` l.
Proof. intros H. split; [by apply prefix_cons_inv_1 in H|by apply prefix_cons_inv_2 in H]. Qed.

(** A conversion of the table, which the first characters are. *)
Lemma convert_key key it c0 c1 c2 :
  (key, it) ∈ conversions → key `prefix_of` [c0; c1; c2] →
  ∃ m, item_does it m ∧ ∀ s, convert digits cc c0 c1 c2 s = (m;; mret (length key - 1)%nat) s.
Proof.
  unfold conversions. rewrite !elem_of_cons, elem_of_nil. intros Hin Hp.
  repeat destruct Hin as [[= -> ->]|Hin]; [..|done];
    repeat (apply prefix_key in Hp as [-> Hp]); eexists;
    (split; [first [apply does_signed; auto | apply (does_unsigned 32 _ u32); auto using u32_as_int
      | apply (does_unsigned 64 _ (swrap 64)); auto using swrap64_as_int
      | apply does_ptr | apply does_chr | apply does_str | apply does_lit]|]);
    intros s; rewrite ?bind_assoc; reflexivity.
Qed.

(** No conversion of the table: every test of the cascade fails. *)
Lemma not_key1 a c0 l : ¬ [a] `prefix_of` c0 :: l → (c0 =? a) = false.
Proof. intros H. apply Z.eqb_neq. intros ->. by apply H, prefix_cons, prefix_nil. Qed.
Lemma not_key2 a b c0 c1 l : ¬ [a; b] `prefix_of` c0 :: c1 :: l → (c0 =? a) && (c1 =? b) = false.
Proof.
  intros H. destruct (Z.eqb_spec c0 a) as [->|]; [|done]. apply (not_key1 b c1 l). intros Hp. by apply H, prefix_cons.
Qed.
Lemma not_key3 a b c c0 c1 c2 :
  ¬ [a; b; c] `prefix_of` [c0; c1; c2] → (c0 =? a) && (c1 =? b) && (c2 =? c) = false.
Proof.
  intros H. rewrite <-andb_assoc. destruct (Z.eqb_spec c0 a) as [->|]; [|done]. apply (not_key2 b c c1 c2 []).
  intros Hp. by apply H, prefix_cons.
Qed.

Lemma convert_unknown c0 c1 c2 :
  (∀ key it, (key, it) ∈ conversions → ¬ key `prefix_of` [c0; c1; c2]) →
  convert digits cc c0 c1 c2 = (putc 37;; putc c0;; mret 0%nat).
Proof.
  intros Hno. assert (Forall (λ e, ¬ e.1 `prefix_of` [c0; c1; c2]) conversions) as HF.
  { apply Forall_forall. intros [key it]. apply Hno. }
  unfold convert. repeat (apply Forall_cons in HF as [Hk HF]; cbn [fst] in Hk;
    rewrite ?(not_key1 _ _ _ Hk), ?(not_key2 _ _ _ _ _ Hk), ?(not_key3 _ _ _ _ _ _ Hk); clear Hk). done.
Qed.

(** *** Both of them *)

Lemma kdigit_loop_eq fuel : ∀ base x buf, kdigit_loop digits fuel base x buf = digit_loop digits fuel base x buf.
Proof.
  induction fuel as [|fuel IH]; intros base x buf; [done|]. cbn. destruct (digits !! _); [|done]. cbn.
  destruct (push _ _); [|done]. cbn. by rewrite IH.
Qed.
Lemma kprintint_eq xx base sgn : kprintint digits xx base sgn = printint digits xx base sgn.
Proof. unfold kprintint, printint. by destruct sgn; rewrite kdigit_loop_eq. Qed.
Lemma kptr_loop_eq n : ∀ x s, kptr_loop digits n x s = ptr_loop digits n x s.
Proof.
  induction n as [|n IH]; intros x s; [done|]. cbn [kptr_loop ptr_loop]. destruct (digits !! _) as [z|]; [|done].
  exact (IH _ (mkPst (pargs s) (pout s ++ [z]))).
Qed.
Lemma kprintptr_eq x s : kprintptr digits x s = printptr digits x s.
Proof. exact (kptr_loop_eq 16 x (mkPst (pargs s) ((pout s ++ [48]) ++ [120]))). Qed.

Lemma bind_same {A B} (m m' : pm A) s (f : A → pm B) : m s = m' s → (m ≫= f) s = (m' ≫= f) s.
Proof. intros E. unfold mbind, M_bind. by rewrite E. Qed.

(** The second cascade does what the first does, and stops at the NUL. *)
Lemma kconvert_eq c0 c1 c2 s :
  kconvert digits cc c0 c1 c2 s =
    (if c0 =? 0 then mret None else k ← convert digits cc c0 c1 c2; mret (Some k)) s.
Proof.
  clear Hdig.
  destruct (Z.eqb_spec c0 0) as [->|Hc]; [done|]. unfold kconvert, convert.
  repeat case_match; try lia; rewrite ?bind_assoc; unfold mbind, M_bind, mret, M_ret;
    repeat (match goal with |- context [va_int ?s] => destruct (va_int s) as [[? ?]|]
      | |- context [va_str ?s] => destruct (va_str s) as [[? ?]|] end);
    rewrite ?kprintint_eq, ?kprintptr_eq; try done;
    match goal with |- match ?x with _ => _ end = _ => by destruct x as [[[] ?]|] end.
Qed.

(** ** The loops *)

Context (fmt : list Z).

Lemma at_drop i j : at_ fmt (i + j) = default 0 (drop i fmt !! j).
Proof. unfold at_. by rewrite lookup_drop. Qed.
Lemma at_drop0 i : at_ fmt i = default 0 (drop i fmt !! 0%nat).
Proof. rewrite <-at_drop. by rewrite Nat.add_0_r. Qed.
Lemma drop_next i c r : drop i fmt = c :: r → at_ fmt i = c ∧ drop (i + 1) fmt = r.
Proof.
  intros E. split.
  - by rewrite at_drop0, E.
  - rewrite <-drop_drop, E. done.
Qed.
Lemma at_end i : drop i fmt = [] → at_ fmt i = 0.
Proof. intros E. by rewrite at_drop0, E. Qed.

Lemma conv_key key it : (key, it) ∈ conversions → 0 ∉ key ∧ (1 ≤ length key ≤ 3)%nat.
Proof.
  intros Hin. assert (Forall (λ e, 0 ∉ e.1 ∧ (1 ≤ length e.1 ≤ 3)%nat) conversions) as HF.
  { unfold conversions. repeat (constructor; [split; [set_solver|cbn; lia]|]). constructor. }
  by apply (Forall_forall _ _) with (x := (key, it)) in HF.
Qed.

Lemma prefix_key_iff a k b (l : list Z) : a :: k `prefix_of` b :: l ↔ b = a ∧ k `prefix_of` l.
Proof. split; [apply prefix_key|]. intros [-> Hk]. by apply prefix_cons. Qed.

(** What is looked at of the rest of the format decides. *)
Lemma look_prefix i key :
  0 ∉ key → (length key ≤ 3)%nat →
  key `prefix_of` [at_ fmt i; ahead1 fmt i; ahead2 fmt i] ↔ key `prefix_of` drop i fmt.
Proof.
  intros H0 Hl. unfold ahead2, ahead1. rewrite (at_drop0 i), !at_drop. clear Hdig.
  assert (∀ a k, a :: k `prefix_of` ([] : list Z) ↔ False) as Hnil by (split; [by intros ?%prefix_nil_inv|done]).
  assert (∀ l : list Z, [] `prefix_of` l ↔ True) as Htop by (split; [done|intros _; apply prefix_nil]).
  destruct key as [|a [|b [|c [|]]]]; [..|cbn in Hl; lia]; rewrite ?not_elem_of_cons in H0;
    destruct (drop i fmt) as [|x [|y [|z L]]]; cbn;
    repeat match goal with |- context [?u =? 0] => destruct (Z.eqb_spec u 0) end; cbn;
    rewrite ?prefix_key_iff, ?Hnil, ?Htop; clear Hnil Htop; lia.
Qed.

(** [vprintf] prints what the format means. *)
Lemma vprintf_loop_prints L its :
  parses L its → ∀ f i s, drop i fmt = L → (length L < f)%nat →
  prn its s (vprintf_loop digits cc fmt f i false s).
Proof.
  assert (∀ s, prn [] s (Some ((), s))) as Hnil.
  { intros s. exists []. rewrite app_nil_r. split; [done|constructor]. }
  induction 1 as [|r|c r its Hc0 Hc _ IH|key it r its Hin _ IH|c r its Hc0 Hno _ IH| |r]; intros f i s E Hf;
    (destruct f as [|f]; [cbn in Hf; lia|]); cbn [vprintf_loop length] in *.
  - by rewrite (at_end i E).
  - by apply drop_next in E as [-> _].
  - apply drop_next in E as [-> E]. destruct (Z.eqb_spec c 0); [done|]. destruct (Z.eqb_spec c 37); [done|]. cbn [negb].
    refine (printed_cons _ _ _ () (λ _, vprintf_loop digits cc fmt f (i + 1) false) s (does_lit c) _).
    intros s'. apply IH; [done|lia].
  - apply drop_next in E as [-> E]. cbn [Z.eqb Pos.eqb negb]. destruct (conv_key _ _ Hin) as [H0 Hl].
    rewrite length_app in Hf. destruct f as [|f]; [lia|]. cbn [vprintf_loop].
    assert (at_ fmt (i + 1) ≠ 0) as Hat.
    { destruct key as [|a key]; [cbn in Hl; lia|]. apply drop_next in E as [-> _]. set_solver. }
    destruct (Z.eqb_spec (at_ fmt (i + 1)) 0); [done|]. cbn [negb].
    destruct (convert_key key it (at_ fmt (i + 1)) (ahead1 fmt (i + 1)) (ahead2 fmt (i + 1)) Hin) as (m & Hm & Ec).
    { apply look_prefix; [done|lia|]. rewrite E. by apply prefix_app_r. }
    rewrite (bind_same _ _ s _ (Ec s)).
    apply (printed_cons it its m (length key - 1)%nat (λ k, vprintf_loop digits cc fmt f (i + 1 + k + 1) false) s Hm).
    intros s'. apply IH; [|lia]. replace (i + 1 + (length key - 1) + 1)%nat with (i + 1 + length key)%nat by lia.
    by rewrite <-drop_drop, E, drop_app_length.
  - apply drop_next in E as [-> E]. cbn [Z.eqb Pos.eqb negb]. destruct f as [|f]; [lia|]. cbn [vprintf_loop].
    pose proof E as [Ec Er]%drop_next. rewrite Ec. destruct (Z.eqb_spec c 0); [done|]. cbn [negb].
    rewrite convert_unknown.
    2:{ intros key it Hin. destruct (conv_key _ _ Hin). rewrite <-Ec, look_prefix, E by (done || lia). by eapply Hno. }
    refine (printed_cons _ _ _ () (λ _, (putc c;; mret 0%nat) ≫=
      λ k, vprintf_loop digits cc fmt f (i + 1 + k + 1) false) s (does_lit 37) _).
    intros s'. apply printed_cons; [apply does_lit|]. intros s2. apply IH; [|lia]. by rewrite Nat.add_0_r.
  - apply drop_next in E as [-> E]. cbn [Z.eqb Pos.eqb negb]. destruct f as [|f]; [lia|]. cbn [vprintf_loop].
    by rewrite (at_end _ E).
  - apply drop_next in E as [-> E]. cbn [Z.eqb Pos.eqb negb]. destruct f as [|f]; [lia|]. cbn [vprintf_loop].
    by apply drop_next in E as [-> _].
Qed.

Lemma at_lt i : (at_ fmt i =? 0) = false → (i < length fmt)%nat.
Proof. unfold at_. intros E. destruct (fmt !! i) eqn:L; [|done]. by eapply lookup_lt_Some. Qed.

(** How far a conversion advances: only over characters that are there. *)
Lemma convert_ahead c0 c1 c2 s k s' :
  convert digits cc c0 c1 c2 s = Some (k, s') →
  k = 0%nat ∨ k = 1%nat ∧ c1 ≠ 0 ∨ k = 2%nat ∧ c1 ≠ 0 ∧ c2 ≠ 0.
Proof.
  clear Hdig.
  unfold convert. repeat case_match; intros E;
    repeat (apply bind_Some in E as (? & ? & _ & E)); injection E as <- <-; lia.
Qed.
Lemma convert_in i s k s' :
  convert digits cc (at_ fmt i) (ahead1 fmt i) (ahead2 fmt i) s = Some (k, s') →
  (i < length fmt)%nat → (i + k < length fmt)%nat.
Proof.
  clear Hdig.
  intros E Hi. apply convert_ahead in E. unfold ahead1, ahead2 in E.
  destruct E as [->|[[-> H1]|(-> & H1 & H2)]]; [lia|apply at_lt|apply at_lt].
  - destruct (at_ fmt i =? 0); [done|]. lia.
  - unfold ahead1 in H2. destruct (at_ fmt i =? 0); [done|]. destruct (at_ fmt (i + 1) =? 0); [done|]. lia.
Qed.

(** The loops agree between two conversions, if the fuel of each reaches the
    end of the format. *)
Lemma loops_agree n : ∀ f g i s,
  (length fmt < i + n)%nat → (i ≤ length fmt)%nat → (n ≤ f)%nat → (n ≤ g)%nat →
  vprintf_loop digits cc fmt f i false s = printk_loop digits cc fmt g i s.
Proof.
  clear Hdig.
  induction n as [n IH] using lt_wf_ind. intros f g i s Hn Hi Hf Hg.
  destruct f as [|f], g as [|g]; [lia..|]. cbn [vprintf_loop printk_loop].
  destruct (at_ fmt i =? 0) eqn:E0; [done|]. pose proof (at_lt _ E0).
  cbn [negb]. destruct (at_ fmt i =? 37); cbn [negb]; [|apply (IH (n - 1)%nat); lia].
  destruct f as [|f]; [lia|]. cbn [vprintf_loop].
  rewrite (bind_same _ _ s _ (kconvert_eq _ _ _ s)).
  destruct (at_ fmt (i + 1) =? 0) eqn:E1; [done|]. pose proof (at_lt _ E1). cbn [negb].
  destruct (convert digits cc (at_ fmt (i + 1)) (ahead1 fmt (i + 1)) (ahead2 fmt (i + 1)) s) as [[k s']|] eqn:Ec.
  - rewrite bind_assoc, !(bind_eq _ _ _ _ _ Ec). pose proof (convert_in _ _ _ _ Ec). apply (IH (n - 2 - k)%nat); lia.
  - unfold mbind, M_bind. by rewrite Ec.
Qed.
Lemma vprintf_printk s : vprintf digits cc fmt s = printk digits cc fmt s.
Proof. clear Hdig. unfold vprintf, printk. apply (loops_agree (S (length fmt))); lia. Qed.
End items.

(** Every format means something. *)
Lemma parses_total L : ∃ its, parses L its.
Proof.
  induction L as [L IH] using (induction_ltof1 _ length). unfold ltof in IH.
  destruct L as [|c r]; [by exists []; constructor|].
  destruct (decide (c = 0)) as [->|Hc0]; [by exists []; constructor|].
  destruct (decide (c = 37)) as [->|Hc].
  2:{ destruct (IH r) as [its Hp]; [cbn; lia|]. exists (ILit c :: its). by constructor. }
  destruct (decide (Exists (λ e : list Z * item, e.1 `prefix_of` r) conversions)) as [[[key it] [Hin [r' ->]]]%Exists_exists|Hno].
  { destruct (IH r') as [its Hp]; [cbn; rewrite length_app; lia|]. exists (it :: its). by constructor. }
  destruct r as [|c r]; [by exists []; constructor|].
  destruct (decide (c = 0)) as [->|Hc0']; [by exists []; constructor|].
  destruct (IH r) as [its Hp]; [cbn; lia|]. exists (ILit 37 :: ILit c :: its). constructor; [done| |done].
  intros key it Hin Hpre. apply Hno, Exists_exists. by exists (key, it).
Qed.


(** A run: width, strings, a null string, an unknown conversion. *)
Example printf_run :
  fprintf [120; 61; 37; 100; 32; 37; 108; 120; 32; 37; 115; 37; 115; 37; 122; 33; 37]
    (mkPst [AInt (- 42); AInt 0xbeef; AStr (Some [104; 105]); AStr None] []) =
  Some ((), mkPst [] ([120; 61; 45; 52; 50; 32; 66; 69; 69; 70; 32; 104; 105] ++ c_null ++ [37; 122; 33])).
Proof. by vm_compute. Qed.

(** ** Reading numbers back *)

Section readback.
Context (digits : list Z) (Hdec : ∀ d, 0 ≤ d < 10 → digits !! Z.to_nat d = Some (48 + d)).

Lemma value_mono ds : ∀ n, 0 ≤ n → Forall (λ d, 0 ≤ d < 10) ds → n ≤ foldl (λ n d, n * 10 + d) n ds.
Proof.
  induction ds as [|d ds IH]; intros n Hn Hds; [done|]. apply Forall_cons in Hds as [Hd Hds]. cbn.
  specialize (IH (n * 10 + d)). pose proof (IH ltac:(lia) Hds). lia.
Qed.

Lemma atoi_loop_value ds : ∀ n, 0 ≤ n → Forall (λ d, 0 ≤ d < 10) ds →
  foldl (λ n d, n * 10 + d) n ds < 2 ^ 31 →
  atoi_loop (chars digits ds) n = Some (foldl (λ n d, n * 10 + d) n ds).
Proof.
  induction ds as [|d ds IH]; intros n Hn Hds Hv; [done|]. apply Forall_cons in Hds as [Hd Hds]. cbn in Hv |- *.
  rewrite (Hdec d Hd). cbn. pose proof (value_mono ds (n * 10 + d) ltac:(lia) Hds) as Hm.
  replace (n * 10 + (48 + d) - 48) with (n * 10 + d) by lia.
  destruct (48 <=? 48 + d) eqn:E1; [|lia]. destruct (48 + d <=? 57) eqn:E2; [|lia]. cbn [andb].
  destruct (n * 10 + d <? 2 ^ 31) eqn:E3; [|lia]. apply IH; [lia|done|done].
Qed.

(** [atoi] reads back what [%d] prints of a number that is not negative. *)
Lemma atoi_digits x ds : digits_of 10 x ds → x < 2 ^ 31 → atoi (chars digits ds) = Some x.
Proof.
  intros [Hv Hr _] Hx. unfold atoi. rewrite atoi_loop_value; [|done|done|by unfold value in Hv; rewrite Hv].
  by f_equal.
Qed.
End readback.
