(* ===== verification/Spinlock.v ===== *)
(** Spinlocks of the kernel: [xv6/kernel/spinlock.c].

    The CPUs run one instruction at a time, in any order, and memory is
    sequentially consistent. [acquire] and [release] are cut at each access to
    the lock, which other CPUs may reach in between; what concerns only the CPU
    itself ([push_off], [pop_off]) is one step. Interrupts and the code that
    turns them on and off are steps between calls, when no lock is held.

    Two parts of the state are histories, which no step looks at: the locks
    that a CPU has acquired and not released, and whether the code outside of
    all locks wants interrupts. *)
From stdpp Require Import functions.
From S2P Require Import Prelude.

Record spinlock := mkSpinlock { lk_locked : bool; lk_cpu : option nat }.
(** [struct cpu], and the bit [SIE] of its register [sstatus]. *)
Record cpu := mkCpu { noff : Z; intena : bool; sie : bool }.

Definition initlock : spinlock := mkSpinlock false None.

Definition push_off (c : cpu) : cpu :=
  let old := sie c in
  mkCpu (int32 (noff c + 1)) (if noff c =? 0 then old else intena c) false.
(** [None] is a panic. *)
Definition pop_off (c : cpu) : option cpu :=
  if sie c then None
  else if noff c <? 1 then None
  else
    let n := noff c - 1 in
    Some (mkCpu n (intena c) (if (n =? 0) && intena c then true else sie c)).

(** Where a CPU is: outside of this file, or before an access to lock [l]. *)
Inductive point :=
  | Out
  | AcqLocked (l : nat)  (** [holding] reads [lk->locked] *)
  | AcqCpu (l : nat)     (** and [lk->cpu] *)
  | AcqSwap (l : nat)    (** the atomic exchange *)
  | AcqOwn (l : nat)     (** [lk->cpu = mycpu()] *)
  | RelLocked (l : nat) | RelCpu (l : nat)
  | RelDisown (l : nat)  (** [lk->cpu = 0] *)
  | RelStore (l : nat)   (** the atomic store *)
  | RelPop               (** [pop_off] *)
  | AcqPanic (l : nat) | RelPanic (l : nat) | PopPanic.
#[export] Instance point_eq_dec : EqDecision point.
Proof. solve_decision. Defined.

(** The lock that the next instruction accesses. *)
Definition target (p : point) : option nat :=
  match p with
  | AcqLocked l | AcqCpu l | AcqSwap l | AcqOwn l | RelLocked l | RelCpu l | RelDisown l | RelStore l => Some l
  | _ => None
  end.

(** An instruction of CPU [c] on the lock. *)
Definition access (c : nat) (p : point) (lk : spinlock) : point * spinlock :=
  match p with
  | AcqLocked l => (if lk_locked lk then AcqCpu l else AcqSwap l, lk)
  | AcqCpu l => (if bool_decide (lk_cpu lk = Some c) then AcqPanic l else AcqSwap l, lk)
  | AcqSwap l => (if lk_locked lk then AcqSwap l else AcqOwn l, mkSpinlock true (lk_cpu lk))
  | AcqOwn _ => (Out, mkSpinlock (lk_locked lk) (Some c))
  | RelLocked l => (if lk_locked lk then RelCpu l else RelPanic l, lk)
  | RelCpu l => (if bool_decide (lk_cpu lk = Some c) then RelDisown l else RelPanic l, lk)
  | RelDisown l => (RelStore l, mkSpinlock (lk_locked lk) None)
  | RelStore _ => (RelPop, mkSpinlock false (lk_cpu lk))
  | p => (p, lk)
  end.

Record lstate := mkLstate {
  locks : nat → spinlock;
  cpus : nat → cpu;
  at_ : nat → point;
  held : nat → list nat;   (** history *)
  want : nat → bool;       (** history *)
}.

(** What is held after the instruction at [p]. *)
Definition hold (p : point) (h : list nat) : list nat :=
  match p with
  | AcqOwn l => l :: h
  | RelStore l => filter (λ l', l' ≠ l) h
  | _ => h
  end.

(** What the CPU does next: code outside of this file calls [acquire] or
    [release], or turns interrupts on or off; or the call goes on. *)
Inductive action := CallAcquire (l : nat) | CallRelease (l : nat) | Interrupts (b : bool) | Go.

Definition go (c : nat) (s : lstate) : lstate :=
  match target (at_ s c) with
  | Some l =>
    let r := access c (at_ s c) (locks s l) in
    mkLstate (<[l := r.2]> (locks s)) (cpus s) (<[c := r.1]> (at_ s)) (<[c := hold (at_ s c) (held s c)]> (held s)) (want s)
  | None =>
    match at_ s c, pop_off (cpus s c) with
    | RelPop, Some k => mkLstate (locks s) (<[c := k]> (cpus s)) (<[c := Out]> (at_ s)) (held s) (want s)
    | RelPop, None => mkLstate (locks s) (cpus s) (<[c := PopPanic]> (at_ s)) (held s) (want s)
    | _, _ => s
    end
  end.

(** There are [nlock] locks. *)
Section locks.
Context (nlock : nat).

Definition act (c : nat) (a : action) (s : lstate) : option lstate :=
  match a with
  | Go => Some (go c s)
  | CallAcquire l => if decide (at_ s c = Out ∧ (l < nlock)%nat) then
      Some (mkLstate (locks s) (<[c := push_off (cpus s c)]> (cpus s)) (<[c := AcqLocked l]> (at_ s)) (held s) (want s)) else None
  | CallRelease l => if decide (at_ s c = Out ∧ (l < nlock)%nat) then
      Some (mkLstate (locks s) (cpus s) (<[c := RelLocked l]> (at_ s)) (held s) (want s)) else None
  | Interrupts b => if decide (at_ s c = Out ∧ noff (cpus s c) = 0) then
      Some (mkLstate (locks s) (<[c := mkCpu 0 (intena (cpus s c)) b]> (cpus s)) (at_ s) (held s) (<[c := b]> (want s))) else None
  end.
Fixpoint run (l : list (nat * action)) (s : lstate) : option lstate :=
  match l with
  | [] => Some s
  | (c, a) :: l => s ← act c a s; run l s
  end.

End locks.

Definition start (b : nat → bool) : lstate :=
  mkLstate (λ _, initlock) (λ c, mkCpu 0 false (b c)) (λ _, Out) (λ _, []) b.

(** ** The invariant *)

(** CPU [c] has the lock, from the exchange to the store. *)
Definition has (s : lstate) (c l : nat) : Prop := at_ s c = AcqOwn l ∨ l ∈ held s c.
(** The calls to [push_off] that are pending, beside one for each lock held. *)
Definition pending (p : point) : Z :=
  match p with AcqLocked _ | AcqCpu _ | AcqSwap _ | AcqOwn _ | AcqPanic _ | RelPop => 1 | _ => 0 end.
(** What the point says about a lock. *)
Definition knows (p : point) (h : list nat) : Prop :=
  match p with
  | AcqSwap l | AcqOwn l | RelPanic l => l ∉ h
  | RelDisown l | RelStore l | AcqPanic l => l ∈ h
  | PopPanic => False
  | _ => True
  end.

Section inv.
Context (nlock : nat) (Hn : Z.of_nat nlock < 2 ^ 31 - 1).

Record local_ok (p : point) (h : list nat) (k : cpu) (w : bool) : Prop := {
  lo_nodup : NoDup h;
  lo_range : ∀ l, l ∈ h ∨ target p = Some l → (l < nlock)%nat;
  lo_noff : noff k = Z.of_nat (length h) + pending p;
  lo_sie : if decide (noff k = 0) then sie k = w else sie k = false ∧ intena k = w;
  lo_knows : knows p h;
}.
Record lock_ok (s : lstate) (l : nat) (o : option nat) : Prop := {
  lk_has : ∀ c, has s c l ↔ o = Some c;
  lk_lock : lk_locked (locks s l) = bool_decide (is_Some o);
  lk_owner : ∀ c, lk_cpu (locks s l) = Some c ↔ l ∈ held s c ∧ at_ s c ≠ RelStore l;
}.
Record ok (s : lstate) : Prop := {
  ok_local : ∀ c, local_ok (at_ s c) (held s c) (cpus s c) (want s c);
  ok_lock : ∀ l, ∃ o, lock_ok s l o;
}.

Lemma ok_start b : ok (start b).
Proof.
  split.
  - intros c. split; cbn; [constructor|intros l [H|H]; [by apply elem_of_nil in H|done]|done|done|done].
  - intros l. exists None. split; cbn; [|done|].
    + intros c. split; [intros [H|H]; [done|by apply elem_of_nil in H]|done].
    + intros c. split; [done|intros [H _]; by apply elem_of_nil in H].
Qed.

Lemma held_short h : NoDup h → (∀ l, l ∈ h → (l < nlock)%nat) → (length h ≤ nlock)%nat.
Proof.
  intros Hd Hr. assert (h ⊆+ seq 0 nlock) as Hs; [|apply submseteq_length in Hs; by rewrite length_seq in Hs].
  apply NoDup_submseteq; [done|]. intros l Hl%Hr. apply elem_of_seq. lia.
Qed.

(** A CPU moves without touching a lock. *)
Lemma ok_move s s' c :
  ok s → locks s' = locks s → held s' = held s →
  (∀ c', c' ≠ c → at_ s' c' = at_ s c' ∧ cpus s' c' = cpus s c' ∧ want s' c' = want s c') →
  (∀ l, at_ s' c ≠ AcqOwn l ∧ at_ s' c ≠ RelStore l ∧ at_ s c ≠ AcqOwn l ∧ at_ s c ≠ RelStore l) →
  local_ok (at_ s' c) (held s c) (cpus s' c) (want s' c) → ok s'.
Proof.
  intros [Hl Ho] El Eh Hsame Hp Hc. split.
  - intros c'. rewrite Eh. destruct (decide (c' = c)) as [->|Hne]; [done|]. destruct (Hsame c' Hne) as (-> & -> & ->). apply Hl.
  - intros l. destruct (Ho l) as [o [H1 H2 H3]]. exists o. destruct (Hp l) as (P1 & P2 & P3 & P4).
    split; rewrite ?El; [|done|]; intros c'; [rewrite <-H1|rewrite H3]; unfold has; rewrite Eh;
      (destruct (decide (c' = c)) as [->|Hne]; [naive_solver|by rewrite (proj1 (Hsame c' Hne))]).
Qed.

(** An access to lock [l] keeps the other locks, and the other CPUs. *)
Lemma ok_access s c l o' :
  ok s → target (at_ s c) = Some l →
  let r := access c (at_ s c) (locks s l) in let h := hold (at_ s c) (held s c) in
  local_ok r.1 h (cpus s c) (want s c) → lock_ok (go c s) l o' → ok (go c s).
Proof.
  intros [Hl Ho] Ht r h Hc Hlk. split.
  - intros c'. unfold go. rewrite Ht. cbn. destruct (decide (c' = c)) as [->|Hne]; [by rewrite !fn_lookup_insert|by rewrite !fn_lookup_insert_ne].
  - intros l'. destruct (decide (l' = l)) as [->|Hne]; [by exists o'|]. destruct (Ho l') as [o [H1 H2 H3]]. exists o.
    assert (l' ∈ h ↔ l' ∈ held s c) as Hh.
    { unfold h. destruct (at_ s c); cbn in Ht |- *; try done; injection Ht as ->; [rewrite elem_of_cons; naive_solver|].
      rewrite list_elem_of_filter. naive_solver. }
    assert (at_ s c ≠ AcqOwn l' ∧ at_ s c ≠ RelStore l' ∧ r.1 ≠ AcqOwn l' ∧ r.1 ≠ RelStore l') as (P1 & P2 & P3 & P4).
    { unfold r. destruct (at_ s c); cbn in Ht |- *; try done; injection Ht as ->; repeat case_match; naive_solver. }
    unfold go. rewrite Ht. split; cbn; rewrite ?fn_lookup_insert_ne by done; [|done|]; intros c'; [rewrite <-H1|rewrite H3]; unfold has; cbn;
      (destruct (decide (c' = c)) as [->|Hne']; [rewrite !fn_lookup_insert; fold r h; naive_solver|by rewrite !fn_lookup_insert_ne]).
Qed.

(** What an access must do to its lock. *)
Lemma lock_after s c l o o' :
  lock_ok s l o → target (at_ s c) = Some l →
  let r := access c (at_ s c) (locks s l) in let h := hold (at_ s c) (held s c) in
  (r.1 = AcqOwn l ∨ l ∈ h ↔ o' = Some c) → (∀ c', c' ≠ c → o = Some c' ↔ o' = Some c') →
  lk_locked r.2 = bool_decide (is_Some o') → (lk_cpu r.2 = Some c ↔ l ∈ h ∧ r.1 ≠ RelStore l) →
  (∀ c', c' ≠ c → lk_cpu r.2 = Some c' ↔ lk_cpu (locks s l) = Some c') → lock_ok (go c s) l o'.
Proof.
  intros [H1 H2 H3] Ht r h A1 A2 A3 A4 A5. unfold go. rewrite Ht.
  split; unfold has; cbn [locks at_ held]; [|by rewrite fn_lookup_insert|]; intros c'; fold r h;
    (destruct (decide (c' = c)) as [->|Hne]; [rewrite !fn_lookup_insert|specialize (A2 c' Hne); specialize (A5 c' Hne)]).
  - done.
  - rewrite !(fn_lookup_insert_ne _ c c') by done. rewrite <-A2. apply H1.
  - done.
  - rewrite !(fn_lookup_insert_ne _ c c'), fn_lookup_insert by done. rewrite A5. apply H3.
Qed.

(** Who has the lock after an access. *)
Definition next_owner (c : nat) (p : point) (o : option nat) : option nat :=
  match p, o with
  | AcqSwap _, None => Some c
  | RelStore _, _ => None
  | _, _ => o
  end.

Lemma access_lock s c l o :
  ok s → lock_ok s l o → target (at_ s c) = Some l → lock_ok (go c s) l (next_owner c (at_ s c) o).
Proof.
  intros Hok Hlk Ht. pose proof Hlk as [H1 H2 H3].
  assert (∀ c', lk_cpu (locks s l) = Some c' → o = Some c') as Hx.
  { intros c' [Hc' _]%H3. apply H1. by right. }
  specialize (H1 c). specialize (H3 c). unfold has in H1.
  pose proof (lo_knows _ _ _ _ (ok_local _ Hok c)) as Hk.
  apply (lock_after s c l o); [done|done|..]; clear Hok Hlk;
    (destruct (at_ s c) eqn:Ea; cbn in Ht; try done; injection Ht as ->; cbn in * );
    rewrite ?elem_of_cons, ?list_elem_of_filter, ?H2; clear H2 Ea; destruct o as [c1|]; cbn;
    repeat case_bool_decide; try (intros c' ?; specialize (Hx c')); try done; intuition congruence.
Qed.
Lemma length_filter_ne (l : nat) (h : list nat) : NoDup h → l ∈ h → length h = S (length (filter (λ l', l' ≠ l) h)).
Proof.
  intros Hd Hl. change (S (length (filter (λ l', l' ≠ l) h))) with (length (l :: filter (λ l', l' ≠ l) h)).
  apply Permutation_length, NoDup_Permutation; [done|constructor; [rewrite list_elem_of_filter; naive_solver|by apply NoDup_filter]|].
  intros x. rewrite elem_of_cons, list_elem_of_filter. destruct (decide (x = l)); naive_solver.
Qed.

Lemma access_local s c l :
  ok s → target (at_ s c) = Some l →
  local_ok (access c (at_ s c) (locks s l)).1 (hold (at_ s c) (held s c)) (cpus s c) (want s c).
Proof.
  intros Hok Ht. destruct (ok_lock _ Hok l) as [o [H1 H2 H3]]. specialize (H1 c). specialize (H3 c). unfold has in H1.
  pose proof (ok_local _ Hok c) as [L1 L2 L3 L4 L5]. clear Hok.
  assert (l ∈ held s c → lk_locked (locks s l) = true) as Hlk.
  { intros Hin. rewrite H2, (proj1 H1) by by right. by apply bool_decide_eq_true. }
  clear H1 H2.
  split; [..|done|].
  - destruct (at_ s c) eqn:Ea; cbn in Ht |- *; try done; injection Ht as ->; [by apply NoDup_cons|by apply NoDup_filter].
  - intros l' [Hl'|Hl']; apply L2.
    + destruct (at_ s c) eqn:Ea; cbn in Ht, Hl' |- *; try (by left); injection Ht as ->.
      * apply elem_of_cons in Hl' as [->|]; [by right|by left].
      * apply list_elem_of_filter in Hl' as [_ ?]. by left.
    + right. destruct (at_ s c) eqn:Ea; cbn in Ht |- *; try done; injection Ht as ->; cbn in Hl'; repeat case_match; done.
  - destruct (at_ s c) eqn:Ea; cbn in Ht, L3, L5 |- *; try done; injection Ht as ->; try (repeat case_match; cbn; lia).
    rewrite L3, (length_filter_ne l (held s c) L1 L5). lia.
  - destruct (at_ s c) eqn:Ea; cbn in Ht, L5, Hlk, H3 |- *; try done; injection Ht as ->; repeat case_bool_decide;
      destruct (lk_locked (locks s l)) eqn:El; cbn; try done; try (intros ?; naive_solver). all: naive_solver.
Qed.

Lemma ok_go s c : ok s → ok (go c s).
Proof.
  intros Hok. destruct (target (at_ s c)) as [l|] eqn:Ht.
  - destruct (ok_lock _ Hok l) as [o Hlk]. eapply ok_access; [done|done|by apply access_local|by apply access_lock].
  - unfold go. rewrite Ht. destruct (at_ s c) eqn:Ea; try done.
    pose proof (ok_local _ Hok c) as [L1 L2 L3 L4 _]. rewrite Ea in L2, L3. cbn in L3.
    rewrite decide_False in L4 by lia. destruct L4 as [L4 L4']. unfold pop_off. rewrite L4.
    destruct (noff (cpus s c) <? 1) eqn:E; [lia|].
    apply (ok_move s _ c); cbn; rewrite ?fn_lookup_insert, ?Ea; try done.
    { intros c' Hne. by rewrite !fn_lookup_insert_ne. }
    split; cbn; [done|intros l [?|?]; [by apply L2; left|done]|lia| |done].
    destruct (decide (noff (cpus s c) - 1 = 0)) as [->|Hz]; [cbn|rewrite (proj2 (Z.eqb_neq _ 0) Hz); by cbn].
    rewrite L4'. by destruct (want s c).
Qed.

Lemma ok_act c a s s' : ok s → act nlock c a s = Some s' → ok s'.
Proof.
  intros Hok E.
  destruct a as [l|l|b|]; cbn in E; [..|injection E as <-; by apply ok_go]; case_decide as Hd; simplify_eq; destruct Hd as [Ha Hd];
    pose proof (ok_local _ Hok c) as [L1 L2 L3 L4 _]; rewrite Ha in L2, L3; cbn in L3; (apply (ok_move s _ c); cbn; rewrite ?fn_lookup_insert, ?Ha; try done);
    try (intros c' Hne; by rewrite !fn_lookup_insert_ne).
  - pose proof (held_short _ L1 ltac:(intros l' ?; apply L2; by left)) as Hs.
    split; cbn; [done|intros l' [?|?]; [apply L2; by left|congruence]|rewrite int32_id; lia| |done].
    rewrite int32_id, decide_False by lia. split; [done|].
    destruct (decide (noff (cpus s c) = 0)) as [Hz|Hz]; [by rewrite (proj2 (Z.eqb_eq _ 0) Hz)|rewrite (proj2 (Z.eqb_neq _ 0) Hz); apply L4].
  - split; cbn; [done|intros l' [?|?]; [apply L2; by left|congruence]|lia|done|done].
  - split; cbn; [done|intros l' [?|?]; [apply L2; by left|done]|lia|done|done].
Qed.

Lemma ok_run l : ∀ s s', ok s → run nlock l s = Some s' → ok s'.
Proof.
  induction l as [|[c a] l IH]; intros s s' Hok; cbn; [by intros [= <-]|].
  destruct (act nlock c a s) as [s1|] eqn:E; [|done]. cbn. apply IH. by eapply ok_act.
Qed.
End inv.

(** C11: spinlocks exclude. Any number of CPUs run calls of [acquire] and
    [release], instruction by instruction and in any order, from a state where
    no lock is held. Then at any moment a lock is held by at most one CPU; a CPU
    that holds a lock, or waits for one, has interrupts off, and one that is
    outside of all calls and locks has them as that code left them;
    [acquire] panics only on a lock that the CPU holds already, and a CPU never
    waits for a lock that it holds itself; [release] panics only on a lock that the
    CPU does not hold, and [pop_off] never; and a CPU that waits for a lock that
    no CPU has gets it in one step. *)
Theorem spinlocks_exclude nlock b l s :
  Z.of_nat nlock < 2 ^ 31 - 1 → run nlock l (start b) = Some s →
  (∀ k c1 c2, k ∈ held s c1 → k ∈ held s c2 → c1 = c2) ∧
  (∀ c, held s c ≠ [] ∨ (∃ k, at_ s c = AcqSwap k) → sie (cpus s c) = false) ∧
  (∀ c, at_ s c = Out → held s c = [] → noff (cpus s c) = 0 ∧ sie (cpus s c) = want s c) ∧
  (∀ c k, at_ s c = AcqPanic k → k ∈ held s c) ∧ (∀ c k, at_ s c = AcqSwap k → k ∉ held s c) ∧
  (∀ c k, at_ s c = RelPanic k → k ∉ held s c) ∧ (∀ c, at_ s c ≠ PopPanic) ∧
  (∀ c k, at_ s c = AcqSwap k → (∀ c', ¬ has s c' k) → has (go c s) c k).
Proof.
  intros Hn E. pose proof (ok_run nlock Hn l _ _ (ok_start nlock b) E) as [Hl Ho].
  assert (∀ c p, at_ s c = p → knows p (held s c)) as Hk by (intros c p <-; by apply (Hl c)).
  split_and!.
  - intros k c1 c2 H1 H2. destruct (Ho k) as [o [Hh _ _]].
    pose proof (proj1 (Hh c1) (or_intror H1)). pose proof (proj1 (Hh c2) (or_intror H2)). congruence.
  - intros c Hc. destruct (Hl c) as [_ _ L3 L4 _]. rewrite decide_False in L4; [by destruct L4|].
    destruct Hc as [Hc|[k Hk']]; [destruct (held s c); [done|cbn in L3; destruct (at_ s c); cbn in L3; lia]|rewrite Hk' in L3; cbn in L3; lia].
  - intros c Ha Hh. destruct (Hl c) as [_ _ L3 L4 _]. rewrite Ha, Hh in L3. cbn in L3. by rewrite decide_True in L4 by lia.
  - intros c k Ha. apply (Hk _ _ Ha).
  - intros c k Ha. apply (Hk _ _ Ha).
  - intros c k Ha. apply (Hk _ _ Ha).
  - intros c Ha. apply (Hk _ _ Ha).
  - intros c k Ha Hfree. left. destruct (Ho k) as [o [Hh Hlk _]].
    unfold go. rewrite Ha. cbn. rewrite fn_lookup_insert, Hlk. destruct o as [c'|]; [|done].
    destruct (Hfree c'). by apply Hh.
Qed.

(** Two CPUs compete for a lock; the one that loses waits with interrupts off. *)
Definition race : list (nat * action) :=
  [(0, CallAcquire 3); (1, CallAcquire 3); (0, Go); (1, Go); (1, Go); (0, Go); (1, Go); (0, Go); (0, Go)]%nat.
Lemma spinlocks_exclude_witness :
  match run 8 race (start (λ _, true)) with
  | Some s => (held s 0 = [] ∧ held s 1 = [3] ∧ at_ s 0 = AcqSwap 3)%nat ∧ sie (cpus s 0%nat) = false
  | None => False
  end.
Proof.
  destruct (run 8 race (start (λ _, true))) as [s|] eqn:E; [|by vm_compute in E].
  pose proof (spinlocks_exclude 8 (λ _, true) race s eq_refl E) as (_ & H & _).
  vm_compute in E. injection E as <-. split; [done|]. apply H. right. by exists 3%nat.
Defined.
