(* ===== verification/Virtio.v ===== *)
(** The driver of the disk: [xv6/kernel/virtio_disk.c] and [virtio.h].

    A request is a chain of three descriptors; the driver puts the number of its
    first into the [avail] ring and the device, when it is done, into the
    [used] ring. A pointer in a descriptor is modelled by what it points to. A
    function that sleeps is cut into the passes it makes under [vdisk_lock]; a
    pass says whether it has to be made again. The state records the channels
    that were woken and the device registers that were written.

    [None] is a panic, or an access out of bounds.

    The device is described as the virtio specification does: it takes entries
    of the [avail] ring, follows the chains, transfers the data, stores the
    status 0, and may be done with requests in any order. What is on its medium is a
    parameter. *)
From S2P Require Import Prelude.

Definition NUM : Z := 8.
Definition BSIZE : Z := 1024.
Definition VRING_DESC_F_NEXT : Z := 1.
Definition VRING_DESC_F_WRITE : Z := 2.
Definition VIRTIO_BLK_T_IN : Z := 0.
Definition VIRTIO_BLK_T_OUT : Z := 1.
Definition u16 (z : Z) : Z := z mod 2 ^ 16.

(** [&disk.ops[i]], [b->data] and [&disk.info[i].status]. *)
Inductive ptr := PNull | POps (i : Z) | PData (b : nat) | PStatus (i : Z).
Record virtq_desc := mkDesc { addr : ptr; dlen : Z; flags : Z; next : Z }.
Record virtio_blk_req := mkReq { rtype : Z; reserved : Z; sector : Z }.
Record vinfo := mkInfo { info_b : option nat; status : Z }.
(** The fields of [struct buf] that the driver uses. *)
Record vbuf := mkVbuf { bdisk : Z; blockno : Z; data : list Z }.

Inductive chan := ChFree | ChBuf (b : nat).
Record vdisk := mkVdisk {
  desc : list virtq_desc;
  avail_idx : Z; avail_ring : list Z;
  used_dev_idx : Z; used_ring : list Z;
  free : list bool; used_idx : Z; info : list vinfo; ops : list virtio_blk_req;
  bufs : list vbuf;
  woken : list chan; regs : list (Z * Z);
}.
Abbreviation vm := (M vdisk).

Definition set_desc v d := mkVdisk v (avail_idx d) (avail_ring d) (used_dev_idx d) (used_ring d) (free d) (used_idx d) (info d) (ops d) (bufs d) (woken d) (regs d).
Definition set_avail i r d := mkVdisk (desc d) i r (used_dev_idx d) (used_ring d) (free d) (used_idx d) (info d) (ops d) (bufs d) (woken d) (regs d).
Definition set_used i r d := mkVdisk (desc d) (avail_idx d) (avail_ring d) i r (free d) (used_idx d) (info d) (ops d) (bufs d) (woken d) (regs d).
Definition set_free v d := mkVdisk (desc d) (avail_idx d) (avail_ring d) (used_dev_idx d) (used_ring d) v (used_idx d) (info d) (ops d) (bufs d) (woken d) (regs d).
Definition set_used_idx v d := mkVdisk (desc d) (avail_idx d) (avail_ring d) (used_dev_idx d) (used_ring d) (free d) v (info d) (ops d) (bufs d) (woken d) (regs d).
Definition set_info v d := mkVdisk (desc d) (avail_idx d) (avail_ring d) (used_dev_idx d) (used_ring d) (free d) (used_idx d) v (ops d) (bufs d) (woken d) (regs d).
Definition set_ops v d := mkVdisk (desc d) (avail_idx d) (avail_ring d) (used_dev_idx d) (used_ring d) (free d) (used_idx d) (info d) v (bufs d) (woken d) (regs d).
Definition set_bufs v d := mkVdisk (desc d) (avail_idx d) (avail_ring d) (used_dev_idx d) (used_ring d) (free d) (used_idx d) (info d) (ops d) v (woken d) (regs d).
Definition wake (c : chan) : vm unit := modify (λ d, mkVdisk (desc d) (avail_idx d) (avail_ring d) (used_dev_idx d) (used_ring d) (free d) (used_idx d) (info d) (ops d) (bufs d) (woken d ++ [c]) (regs d)).
Definition write_reg (r v : Z) : vm unit := modify (λ d, mkVdisk (desc d) (avail_idx d) (avail_ring d) (used_dev_idx d) (used_ring d) (free d) (used_idx d) (info d) (ops d) (bufs d) (woken d) (regs d ++ [(r, v)])).

(** Element [i] of an array, and storing into it. *)
Definition elem {A} (f : vdisk → list A) (i : Z) : vm A := λ d,
  if i <? 0 then None else match f d !! Z.to_nat i with Some x => Some (x, d) | None => None end.
Definition store {A} (f : vdisk → list A) (g : list A → vdisk → vdisk) (i : Z) (x : A) : vm unit :=
  elem f i;; modify (λ d, g (<[Z.to_nat i := x]> (f d)) d).

(** ** Descriptors *)

Definition alloc_desc : vm Z :=
  fr ← gets free;
  match index_of (λ b, b) fr with
  | Some i => modify (set_free (<[i := false]> fr));; mret (Z.of_nat i)
  | None => mret (-1)
  end.
Definition no_desc : virtq_desc := mkDesc PNull 0 0 0.
Definition free_desc (i : Z) : vm unit :=
  if NUM <=? i then stuck
  else
    f ← elem free i;
    if f : bool then stuck
    else store desc set_desc i no_desc;; store free set_free i true;; wake ChFree.
(** The fuel is the number of descriptors. *)
Fixpoint free_chain (fuel : nat) (i : Z) : vm unit :=
  match fuel with
  | O => stuck
  | S fuel =>
    de ← elem desc i;
    free_desc i;;
    if Z.land (flags de) VRING_DESC_F_NEXT =? 0 then mret () else free_chain fuel (next de)
  end.
(** [n] more descriptors; [idx] are the ones found. *)
Fixpoint alloc3_loop (n : nat) (idx : list Z) : vm (option (list Z)) :=
  match n with
  | O => mret (Some idx)
  | S n =>
    i ← alloc_desc;
    if i <? 0 then mfor idx free_desc;; mret None else alloc3_loop n (idx ++ [i])
  end.
Definition alloc3_desc : vm (option (list Z)) := alloc3_loop 3 [].

(** ** Requests *)

Definition VIRTIO_MMIO_QUEUE_NOTIFY : Z := 0x50.
(** From the formatting of the descriptors to the notification of the device,
    as one step: the lock is held, and the device looks at the new entry of the
    ring only when it sees the index, which a fence puts after it. *)
Definition submit (b : nat) (write : bool) (i0 i1 i2 : Z) : vm unit :=
  bf ← elem bufs (Z.of_nat b);
  store ops set_ops i0 (mkReq (if write then VIRTIO_BLK_T_OUT else VIRTIO_BLK_T_IN) 0 (u32 (blockno bf * (BSIZE / 512))));;
  store desc set_desc i0 (mkDesc (POps i0) 16 VRING_DESC_F_NEXT i1);;
  store desc set_desc i1 (mkDesc (PData b) BSIZE (Z.lor (if write then 0 else VRING_DESC_F_WRITE) VRING_DESC_F_NEXT) i2);;
  inf ← elem info i0;
  store info set_info i0 (mkInfo (info_b inf) 0xff);;
  store desc set_desc i2 (mkDesc (PStatus i0) 1 VRING_DESC_F_WRITE 0);;
  store bufs set_bufs (Z.of_nat b) (mkVbuf 1 (blockno bf) (data bf));;
  store info set_info i0 (mkInfo (Some b) 0xff);;
  ai ← gets avail_idx;
  elem avail_ring (ai mod NUM);;
  modify (λ d, set_avail ai (<[Z.to_nat (ai mod NUM) := i0]> (avail_ring d)) d);;
  modify (λ d, set_avail (u16 (ai + 1)) (avail_ring d) d);;
  write_reg VIRTIO_MMIO_QUEUE_NOTIFY 0.

(** A turn of the first loop of [virtio_disk_rw], with the request if there were
    descriptors: the result is the head of the chain, or that it must sleep on
    [&disk.free[0]]. *)
Definition rw_start_pass (b : nat) (write : bool) : vm (option Z) :=
  r ← alloc3_desc;
  match r with
  | Some [i0; i1; i2] => submit b write i0 i1 i2;; mret (Some i0)
  | Some _ => stuck
  | None => mret None
  end.
(** A turn of the second loop, with the end of the function: is it done? *)
Definition rw_wait_pass (b : nat) (i0 : Z) : vm bool :=
  bf ← elem bufs (Z.of_nat b);
  if bdisk bf =? 1 then mret false
  else
    inf ← elem info i0;
    store info set_info i0 (mkInfo None (status inf));;
    free_chain (Z.to_nat NUM) i0;;
    mret true.

(** ** The interrupt *)

(** The fuel is how far the device is ahead. *)
Fixpoint intr_loop (fuel : nat) : vm unit :=
  u ← gets used_idx;
  v ← gets used_dev_idx;
  if u =? v then mret ()
  else
    match fuel with
    | O => stuck
    | S fuel =>
      id ← elem used_ring (u mod NUM);
      inf ← elem info id;
      if negb (status inf =? 0) then stuck
      else
        match info_b inf with
        | None => stuck
        | Some b =>
          bf ← elem bufs (Z.of_nat b);
          store bufs set_bufs (Z.of_nat b) (mkVbuf 0 (blockno bf) (data bf));;
          wake (ChBuf b);;
          modify (set_used_idx (u16 (u + 1)));;
          intr_loop fuel
        end
    end.
Definition VIRTIO_MMIO_INTERRUPT_ACK : Z := 0x64.
(** [pending] is what the device has in [VIRTIO_MMIO_INTERRUPT_STATUS]. *)
Definition virtio_disk_intr (pending : Z) : vm unit :=
  write_reg VIRTIO_MMIO_INTERRUPT_ACK (Z.land pending 3);;
  u ← gets used_idx;
  v ← gets used_dev_idx;
  intr_loop (Z.to_nat (u16 (v - u))).

(** ** Start-up *)

(** The values of the device registers are parameters; they may depend on
    what was written before. *)
Section init.
Context (reg : list (Z * Z) → Z → Z).
Definition read_reg (r : Z) : vm Z := ws ← gets regs; mret (reg ws r).

(** Clearing bit [k] of the features. *)
Definition clear_feature (k : Z) (f : Z) : Z := Z.land f (Z.lnot (Z.shiftl 1 k)).
Definition wanted (f : Z) : Z := u32 (clear_feature 28 (clear_feature 29 (clear_feature 27 (clear_feature 12 (clear_feature 11 (clear_feature 9 (clear_feature 7 (clear_feature 5 f)))))))).
Definition low32 (a : Z) : Z := u32 a.
Definition high32 (a : Z) : Z := u32 (Z.shiftr a 32).
(** The pages that [kalloc] gave. *)
Definition virtio_disk_init (pages : option (Z * Z * Z)) : vm unit :=
  magic ← read_reg 0x000; version ← read_reg 0x004; device_id ← read_reg 0x008; vendor ← read_reg 0x00c;
  if negb (magic =? 0x74726976) || negb (version =? 2) || negb (device_id =? 2) || negb (vendor =? 0x554d4551) then stuck
  else
    write_reg 0x070 0;;
    write_reg 0x070 1;;
    write_reg 0x070 3;;
    features ← read_reg 0x010;
    write_reg 0x020 (wanted features);;
    write_reg 0x070 11;;
    status ← read_reg 0x070;
    if Z.land status 8 =? 0 then stuck
    else
      write_reg 0x030 0;;
      ready ← read_reg 0x044;
      if negb (ready =? 0) then stuck
      else
        max ← read_reg 0x034;
        if max <? NUM then stuck
        else
          match pages with
          | None => stuck
          | Some (pd, pa, pu) =>
            modify (set_desc (replicate (Z.to_nat NUM) no_desc));;
            modify (set_avail 0 (replicate (Z.to_nat NUM) 0));;
            modify (set_used 0 (replicate (Z.to_nat NUM) 0));;
            write_reg 0x038 NUM;;
            write_reg 0x080 (low32 pd);; write_reg 0x084 (high32 pd);;
            write_reg 0x090 (low32 pa);; write_reg 0x094 (high32 pa);;
            write_reg 0x0a0 (low32 pu);; write_reg 0x0a4 (high32 pu);;
            write_reg 0x044 1;;
            modify (set_free (replicate (Z.to_nat NUM) true));;
            write_reg 0x070 (Z.lor status 4)
          end.
End init.
(** The driver before it starts; [disk] is zero. *)
Definition disk_zero (bs : list vbuf) : vdisk :=
  mkVdisk [] 0 [] 0 [] (replicate (Z.to_nat NUM) false) 0 (replicate (Z.to_nat NUM) (mkInfo None 0)) (replicate (Z.to_nat NUM) (mkReq 0 0 0)) bs [] [].

(** ** The system: processes, driver and device *)

Section system.
Context {S : Type} (dread : S → Z → list Z) (dwrite : S → Z → list Z → S).

(** The device has taken the entries of the [avail] ring before [pos]; it is at
    work on the chains [work]. *)
Record device := mkDev { pos : Z; work : list Z; medium : S }.

(** A chain as the device reads it: the header, the buffer and whether it is to be
    filled, and where the status goes. *)
Definition decode (d : vdisk) (h : Z) : option (virtio_blk_req * nat * bool * Z) :=
  d0 ← desc d !! Z.to_nat h;
  d1 ← desc d !! Z.to_nat (next d0);
  d2 ← desc d !! Z.to_nat (next d1);
  if negb (Z.testbit (flags d0) 0) || Z.testbit (flags d0) 1 || negb (Z.testbit (flags d1) 0) || Z.testbit (flags d2) 0 || negb (Z.testbit (flags d2) 1) then None
  else
    match addr d0, addr d1, addr d2 with
    | POps i, PData b, PStatus j => r ← ops d !! Z.to_nat i; Some (r, b, Z.testbit (flags d1) 1, j)
    | _, _, _ => None
    end.

(** Take the next entry of the [avail] ring. *)
Definition take_entry (x : vdisk * device) : option (vdisk * device) :=
  let '(d, v) := x in
  if pos v =? avail_idx d then None
  else h ← avail_ring d !! Z.to_nat (pos v mod NUM); Some (d, mkDev (u16 (pos v + 1)) (work v ++ [h]) (medium v)).
(** Be done with entry [k] of [work]. *)
Definition serve (k : nat) (x : vdisk * device) : option (vdisk * device) :=
  let '(d, v) := x in
  match work v !! k with
  | None => None
  | Some h =>
    match decode d h with
    | None => None
    | Some (req, b, fill, j) =>
      match bufs d !! b, info d !! Z.to_nat j with
      | Some bf, Some inf =>
        let finish m bf := Some
          (set_used (u16 (used_dev_idx d + 1)) (<[Z.to_nat (used_dev_idx d mod NUM) := h]> (used_ring d))
            (set_info (<[Z.to_nat j := mkInfo (info_b inf) 0]> (info d)) (set_bufs (<[b := bf]> (bufs d)) d)),
           mkDev (pos v) (delete k (work v)) m) in
        if fill then
          if rtype req =? VIRTIO_BLK_T_IN then finish (medium v) (mkVbuf (bdisk bf) (blockno bf) (dread (medium v) (sector req))) else None
        else
          if rtype req =? VIRTIO_BLK_T_OUT then finish (dwrite (medium v) (sector req) (data bf)) bf else None
      | _, _ => None
      end
    end
  end.

(** A process is not in [virtio_disk_rw], in its first loop, or in its second. *)
Inductive pstate := PIdle | PStart (b : nat) (write : bool) | PWait (b : nat) (write : bool) (i0 : Z).
Definition uses (p : pstate) : option nat :=
  match p with PIdle => None | PStart b _ | PWait b _ _ => Some b end.
Record sys := mkSys { drv : vdisk; dev : device; procs : list pstate }.

(** A caller of [virtio_disk_rw] holds the lock of the buffer, so that no two
    callers have the same one, and may have changed it. *)
Inductive vstep (s : sys) : sys → Prop :=
  | st_call p b write n dat bf :
    procs s !! p = Some PIdle → (∀ q x, procs s !! q = Some x → uses x ≠ Some b) → bufs (drv s) !! b = Some bf →
    vstep s (mkSys (set_bufs (<[b := mkVbuf (bdisk bf) n dat]> (bufs (drv s))) (drv s)) (dev s) (<[p := PStart b write]> (procs s)))
  | st_start p b write r d :
    procs s !! p = Some (PStart b write) → rw_start_pass b write (drv s) = Some (r, d) →
    vstep s (mkSys d (dev s) (match r with Some i0 => <[p := PWait b write i0]> (procs s) | None => procs s end))
  | st_wait p b write i0 (r : bool) d :
    procs s !! p = Some (PWait b write i0) → rw_wait_pass b i0 (drv s) = Some (r, d) →
    vstep s (mkSys d (dev s) (if r then <[p := PIdle]> (procs s) else procs s))
  | st_intr pending d :
    virtio_disk_intr pending (drv s) = Some ((), d) → vstep s (mkSys d (dev s) (procs s))
  | st_take d v :
    take_entry (drv s, dev s) = Some (d, v) → vstep s (mkSys d v (procs s))
  | st_serve k d v :
    serve k (drv s, dev s) = Some (d, v) → vstep s (mkSys d v (procs s)).
End system.

(** ** Descriptors are taken and given back *)

Lemma elem_eq {A} (f : vdisk → list A) i x d : 0 ≤ i → f d !! Z.to_nat i = Some x → elem f i d = Some (x, d).
Proof. intros Hi Hx. unfold elem. by rewrite (proj2 (Z.ltb_ge i 0)), Hx by done. Qed.
Lemma array_store_eq {A} (f : vdisk → list A) g i x d :
  0 ≤ i < Z.of_nat (length (f d)) → store f g i x d = Some ((), g (<[Z.to_nat i := x]> (f d)) d).
Proof.
  intros Hi. unfold store. destruct (lookup_lt_is_Some_2 (f d) (Z.to_nat i)) as [y Hy]; [lia|].
  by rewrite (bind_eq _ _ _ _ _ (elem_eq f i y d ltac:(lia) Hy)).
Qed.

(** The sizes of the arrays. *)
Record sized (d : vdisk) : Prop := {
  sz_desc : length (desc d) = 8%nat;
  sz_free : length (free d) = 8%nat;
  sz_info : length (info d) = 8%nat;
  sz_ops : length (ops d) = 8%nat;
  sz_avail : length (avail_ring d) = 8%nat;
  sz_used : length (used_ring d) = 8%nat;
}.

(** From [d0] the descriptors [idx] were taken; only free descriptors were
    written. *)
Record taking (d0 d : vdisk) (idx : list Z) : Prop := {
  tk_nodup : NoDup idx;
  tk_in : ∀ i, i ∈ idx → 0 ≤ i < 8 ∧ free d0 !! Z.to_nat i = Some true;
  tk_free : ∀ k, free d !! k = if decide (Z.of_nat k ∈ idx) then Some false else free d0 !! k;
  tk_desc : ∀ k, free d0 !! k = Some false → desc d !! k = desc d0 !! k;
  tk_size : sized d;
  tk_rest : avail_idx d = avail_idx d0 ∧ avail_ring d = avail_ring d0 ∧ used_dev_idx d = used_dev_idx d0 ∧ used_ring d = used_ring d0 ∧
    used_idx d = used_idx d0 ∧ info d = info d0 ∧ ops d = ops d0 ∧ bufs d = bufs d0;
}.

Lemma taking_refl d : sized d → taking d d [].
Proof. intros Hs. split; try done; [apply NoDup_nil_2|by intros i Hi%elem_of_nil]. Qed.

Lemma alloc_desc_spec d0 d idx :
  taking d0 d idx →
  (∃ i d1, alloc_desc d = Some (i, d1) ∧ 0 ≤ i ∧ taking d0 d1 (idx ++ [i])) ∨
  (alloc_desc d = Some (-1, d) ∧ ∀ k, (k < 8)%nat → free d !! k = Some false).
Proof.
  intros [H1 H2 H3 H4 H5 H6]. unfold alloc_desc. rewrite (bind_eq _ _ _ (free d) d) by done. destruct (index_of (λ b, b) (free d)) as [i|] eqn:E.
  - left. pose proof (index_of_lt _ _ _ E) as Hlt. apply index_of_Some in E as (x & Hx & -> & _). rewrite (sz_free _ H5) in Hlt.
    assert (Z.of_nat i ∉ idx) as Hni by (intros Hin; rewrite H3, decide_True in Hx by done; done).
    rewrite H3, decide_False in Hx by done. exists (Z.of_nat i), (set_free (<[i := false]> (free d)) d). split_and!; [done|lia|].
    destruct H5. split; try done.
    + apply NoDup_app. split_and!; [done|set_solver|apply NoDup_singleton].
    + intros j [Hj| ->%list_elem_of_singleton]%elem_of_app; [by apply H2|]. rewrite Nat2Z.id. split; [lia|done].
    + intros k. cbn [free set_free]. destruct (decide (k = i)) as [->|Hne].
      * rewrite list_lookup_insert_eq by lia. rewrite decide_True by set_solver. done.
      * rewrite list_lookup_insert_ne, H3 by done. destruct (decide (Z.of_nat k ∈ idx)); [rewrite decide_True by set_solver; done|].
        rewrite decide_False; [done|]. intros [?|?%list_elem_of_singleton]%elem_of_app; [done|lia].
    + split; cbn [set_free desc free info ops avail_ring used_ring]; rewrite ?length_insert; done.
  - right. split; [done|]. intros k Hk. destruct (lookup_lt_is_Some_2 (free d) k) as [x Hx]; [rewrite (sz_free _ H5); lia|].
    rewrite Hx. f_equal. rewrite index_of_None in E. apply E. by eapply list_elem_of_lookup_2.
Qed.

(** The fields that [free_desc] does not touch. *)
Definition same_queue (d d1 : vdisk) : Prop :=
  avail_idx d1 = avail_idx d ∧ avail_ring d1 = avail_ring d ∧ used_dev_idx d1 = used_dev_idx d ∧ used_ring d1 = used_ring d ∧
  used_idx d1 = used_idx d ∧ info d1 = info d ∧ ops d1 = ops d ∧ bufs d1 = bufs d.

Lemma free_desc_eq d i :
  sized d → 0 ≤ i < 8 → free d !! Z.to_nat i = Some false →
  ∃ d1, free_desc i d = Some ((), d1) ∧ desc d1 = <[Z.to_nat i := no_desc]> (desc d) ∧ free d1 = <[Z.to_nat i := true]> (free d) ∧
    sized d1 ∧ same_queue d d1.
Proof.
  intros [S1 S2 S3 S4 S5 S6] Hi Hf. unfold free_desc. rewrite (proj2 (Z.leb_gt _ _)) by (unfold NUM; lia).
  rewrite (bind_eq _ _ _ _ _ (elem_eq free i false d ltac:(lia) Hf)).
  rewrite (bind_eq _ _ _ _ _ (array_store_eq desc set_desc i no_desc d ltac:(lia))).
  set (d1 := set_desc _ d). rewrite (bind_eq _ _ _ _ _ (array_store_eq free set_free i true d1 ltac:(cbn; lia))).
  eexists. split; [reflexivity|]. split_and!; [done|done| |by repeat split]. split; cbn; rewrite ?length_insert; done.
Qed.

Lemma free_desc_spec d0 d i idx :
  taking d0 d (i :: idx) → ∃ d1, free_desc i d = Some ((), d1) ∧ taking d0 d1 idx.
Proof.
  intros [H1 H2 H3 H4 H5 H6]. destruct (H2 i) as [Hi Hf]; [by left|]. pose proof H5 as [S1 S2 S3 S4 S5 S6]. apply NoDup_cons in H1 as [Hni Hnd].
  destruct (free_desc_eq d i H5 Hi) as (d1 & E & Ed & Ef & Hs & Hq); [rewrite H3, decide_True; [done|rewrite Z2Nat.id by lia; by left]|].
  exists d1. split; [done|]. split; [done| | | |done|].
  - intros j Hj. apply H2. by right.
  - intros k. rewrite Ef. destruct (decide (k = Z.to_nat i)) as [->|Hne].
    + rewrite list_lookup_insert_eq by lia. rewrite decide_False by (rewrite Z2Nat.id by lia; done). done.
    + rewrite list_lookup_insert_ne, H3 by done. destruct (decide (Z.of_nat k ∈ idx)); [by rewrite decide_True by by right|].
      rewrite decide_False; [done|]. intros [?|?]%elem_of_cons; [lia|done].
  - intros k Hk. rewrite Ed, list_lookup_insert_ne; [by apply H4|]. intros <-. congruence.
  - unfold same_queue in Hq. destruct_and!. split_and!; congruence.
Qed.

Lemma free_descs_spec d0 d idx : taking d0 d idx → ∃ d1, mfor idx free_desc d = Some ((), d1) ∧ taking d0 d1 [].
Proof.
  revert d; induction idx as [|i idx IH]; intros d H; cbn [mfor]; [by exists d|].
  destruct (free_desc_spec d0 d i idx H) as (d1 & E & H1). rewrite (bind_eq _ _ _ _ _ E). by apply IH.
Qed.

Lemma alloc3_loop_spec n d0 d idx :
  taking d0 d idx →
  (∃ idx1 d1, alloc3_loop n idx d = Some (Some (idx ++ idx1), d1) ∧ length idx1 = n ∧ taking d0 d1 (idx ++ idx1)) ∨
  (∃ d1, alloc3_loop n idx d = Some (None, d1) ∧ taking d0 d1 [] ∧
     ∃ idx1, (length idx1 < length idx + n)%nat ∧ ∀ k, (k < 8)%nat → free d0 !! k = Some true → Z.of_nat k ∈ idx1).
Proof.
  revert d idx; induction n as [|n IH]; intros d idx H; cbn [alloc3_loop].
  { left. exists [], d. rewrite app_nil_r. done. }
  destruct (alloc_desc_spec d0 d idx H) as [(i & d1 & E & Hi & H1)|[E Hfull]]; rewrite (bind_eq _ _ _ _ _ E).
  - rewrite (proj2 (Z.ltb_ge i 0)) by done. destruct (IH d1 _ H1) as [(idx1 & d2 & E2 & Hl & H2)|(d2 & E2 & H2 & idx1 & Hl & Hk)].
    + left. exists (i :: idx1), d2. rewrite <-app_assoc in E2, H2. cbn [app] in E2, H2. split_and!; [done|cbn; lia|done].
    + right. exists d2. split_and!; [done|done|]. exists idx1. rewrite length_app in Hl. cbn in Hl. split; [lia|done].
  - right. change (-1 <? 0) with true. cbn iota. destruct (free_descs_spec d0 d idx H) as (d1 & E1 & H1). rewrite (bind_eq _ _ _ _ _ E1).
    exists d1. split_and!; [done|done|]. exists idx. split; [lia|]. intros k Hk Hf. specialize (Hfull k Hk). rewrite (tk_free _ _ _ H) in Hfull.
    destruct (decide (Z.of_nat k ∈ idx)); [done|congruence].
Qed.
