(* ===== verification/VirtioInv.v ===== *)
(** The disk driver and the device keep their queues in order, and together
    carry out each request once ([xv6/kernel/virtio_disk.c]). *)
From S2P Require Import Prelude Virtio.

(** ** The invariant *)

(** The chain of a request of buffer [b] with the descriptors [t]. *)
Record chain (d : vdisk) (b : nat) (write : bool) (t : Z * Z * Z) : Prop := {
  ch_range : 0 ≤ t.1.1 < 8 ∧ 0 ≤ t.1.2 < 8 ∧ 0 ≤ t.2 < 8 ∧ t.1.1 ≠ t.1.2 ∧ t.1.1 ≠ t.2 ∧ t.1.2 ≠ t.2;
  ch_d0 : desc d !! Z.to_nat t.1.1 = Some (mkDesc (POps t.1.1) 16 1 t.1.2);
  ch_d1 : desc d !! Z.to_nat t.1.2 = Some (mkDesc (PData b) 1024 (if write then 1 else 3) t.2);
  ch_d2 : desc d !! Z.to_nat t.2 = Some (mkDesc (PStatus t.1.1) 1 2 0);
  ch_op : ∃ bf, bufs d !! b = Some bf ∧
    ops d !! Z.to_nat t.1.1 = Some (mkReq (if write then 1 else 0) 0 (u32 (blockno bf * 2)));
  ch_info : ∃ st, info d !! Z.to_nat t.1.1 = Some (mkInfo (Some b) st);
}.
Definition descs (t : Z * Z * Z) : list Z := [t.1.1; t.1.2; t.2].

(** A chain depends on its own descriptors and its buffer only. *)
Lemma chain_frame d d1 b write t :
  chain d b write t → (∀ k, k ∈ descs t → desc d1 !! Z.to_nat k = desc d !! Z.to_nat k) →
  ops d1 !! Z.to_nat t.1.1 = ops d !! Z.to_nat t.1.1 →
  info_b <$> info d1 !! Z.to_nat t.1.1 = info_b <$> info d !! Z.to_nat t.1.1 →
  blockno <$> bufs d1 !! b = blockno <$> bufs d !! b → chain d1 b write t.
Proof.
  intros [H1 H2 H3 H4 (bf & Hb & Ho) (st & Hi)] Hd Eo Ei Eb. unfold descs in Hd. rewrite Hb in Eb. rewrite Hi in Ei. split; [done|..].
  - rewrite Hd by set_solver. done.
  - rewrite Hd by set_solver. done.
  - rewrite Hd by set_solver. done.
  - destruct (bufs d1 !! b) as [bf1|]; [|done]. cbn in Eb. exists bf1. split; [done|]. rewrite Eo, Ho. by injection Eb as ->.
  - destruct (info d1 !! Z.to_nat t.1.1) as [[ib st1]|]; [|done]. cbn in Ei. exists st1. by injection Ei as ->.
Qed.

(** The entries of a ring from [start] on. *)
Definition in_ring (ring : list Z) (start : Z) (l : list Z) : Prop :=
  ∀ k h, l !! k = Some h → ring !! Z.to_nat ((start + Z.of_nat k) mod 8) = Some h.

Section inv.
Context {S : Type} (dread : S → Z → list Z) (dwrite : S → Z → list Z → S).
Abbreviation device := (device (S := S)).
Abbreviation sys := (sys (S := S)).
Implicit Types (d : vdisk) (v : device) (s : sys) (G : gmap nat (Z * Z * Z)).

(** [G] has the descriptors of the requests; [pend] are the ones that the device has
    yet to take, and [fin] the ones it is done with that the driver has yet to see. *)
Record vinv (s : sys) G (pend fin : list Z) : Prop := {
  vi_size : sized (drv s);
  vi_procs : ∀ p b write i, procs s !! p = Some (PWait b write i) → ∃ t, G !! p = Some t ∧ t.1.1 = i ∧ chain (drv s) b write t;
  vi_dom : ∀ p t, G !! p = Some t → ∃ b write, procs s !! p = Some (PWait b write t.1.1);
  vi_disj : ∀ p q t u k, G !! p = Some t → G !! q = Some u → k ∈ descs t → k ∈ descs u → p = q;
  vi_free : ∀ k, 0 ≤ k < 8 → free (drv s) !! Z.to_nat k = Some false ↔ ∃ p t, G !! p = Some t ∧ k ∈ descs t;
  vi_bufs : ∀ p q x y b, procs s !! p = Some x → procs s !! q = Some y → uses x = Some b → uses y = Some b → p = q;
  vi_buf : ∀ p x b, procs s !! p = Some x → uses x = Some b → is_Some (bufs (drv s) !! b);
  vi_nodup : NoDup (pend ++ work (dev s) ++ fin);
  vi_heads : ∀ h, h ∈ pend ++ work (dev s) ++ fin ↔
    ∃ p b write bf, procs s !! p = Some (PWait b write h) ∧ bufs (drv s) !! b = Some bf ∧ bdisk bf = 1;
  vi_status : ∀ p b write i inf, procs s !! p = Some (PWait b write i) → info (drv s) !! Z.to_nat i = Some inf →
    status inf = if decide (i ∈ pend ++ work (dev s)) then 255 else 0;
  vi_avail : avail_idx (drv s) = u16 (pos (dev s) + Z.of_nat (length pend)) ∧ 0 ≤ pos (dev s) < 2 ^ 16 ∧ in_ring (avail_ring (drv s)) (pos (dev s)) pend;
  vi_used : used_dev_idx (drv s) = u16 (used_idx (drv s) + Z.of_nat (length fin)) ∧ 0 ≤ used_idx (drv s) < 2 ^ 16 ∧ in_ring (used_ring (drv s)) (used_idx (drv s)) fin;
}.

(** The requests that are under way. *)
Lemma heads_range s G pend fin h : vinv s G pend fin → h ∈ pend ++ work (dev s) ++ fin → 0 ≤ h < 8.
Proof.
  intros Hv (p & b & write & bf & Hp & _)%(vi_heads _ _ _ _ Hv). destruct (vi_procs _ _ _ _ Hv p b write h Hp) as (t & _ & <- & Hc).
  destruct (ch_range _ _ _ _ Hc). done.
Qed.

Lemma nodup_bound (l : list Z) n : NoDup l → (∀ h, h ∈ l → 0 ≤ h < Z.of_nat n) → (length l ≤ n)%nat.
Proof.
  intros Hnd Hr. assert (l ⊆+ seqZ 0 (Z.of_nat n)) as Hs by (apply NoDup_submseteq; [done|]; intros h Hh; apply elem_of_seqZ; specialize (Hr h Hh); lia).
  apply submseteq_length in Hs. rewrite length_seqZ in Hs. lia.
Qed.

(** A change that only writes free descriptors. *)
Lemma vinv_taking s G pend fin d :
  vinv s G pend fin → taking (drv s) d [] → vinv (mkSys d (dev s) (procs s)) G pend fin.
Proof.
  intros [V1 V2 V3 V4 V5 V6 V7 V8 V9 V10 V11 V12] [_ _ T3 T4 T5 (E1 & E2 & E3 & E4 & E5 & E6 & E7 & E8)]. split; cbn [drv dev procs].
  - done.
  - intros p b write i Hp. destruct (V2 p b write i Hp) as (t & Ht & Ei & Hc). exists t. split_and!; [done|done|].
    apply (chain_frame (drv s)); [done| |by rewrite E7|by rewrite E6|by rewrite E8]. intros k Hk. apply T4. apply V5; [|by exists p, t].
    pose proof (ch_range _ _ _ _ Hc). unfold descs in Hk. set_solver by lia.
  - done.
  - done.
  - intros k Hk. rewrite T3, decide_False by apply not_elem_of_nil. by apply V5.
  - done.
  - intros p x b. rewrite E8. apply V7.
  - done.
  - intros h. rewrite E8. apply V9.
  - intros p b write i inf. rewrite E6. apply V10.
  - by rewrite E1, E2.
  - by rewrite E3, E4, E5.
Qed.

(** What a caller sees: contents of buffers, the medium, and which requests
    have been carried out. *)
Inductive astate := AIdle | AReq (b : nat) (write : bool) | ADone (b : nat) (write : bool).
Record asys := mkAsys { a_bufs : list (Z * list Z); a_medium : S; a_procs : list astate }.
Definition abs_state d (x : pstate) : astate :=
  match x with
  | PIdle => AIdle
  | PStart b write => AReq b write
  | PWait b write i => if decide (status <$> info d !! Z.to_nat i = Some 0) then ADone b write else AReq b write
  end.
Definition contents (bf : vbuf) : Z * list Z := (blockno bf, data bf).
Definition abs s : asys := mkAsys (contents <$> bufs (drv s)) (medium (dev s)) (abs_state (drv s) <$> procs s).

(** ** Starting a request *)

Lemma submit_eq d b write i0 i1 i2 bf :
  sized d → 0 ≤ i0 < 8 → 0 ≤ i1 < 8 → 0 ≤ i2 < 8 → bufs d !! b = Some bf → 0 ≤ avail_idx d →
  ∃ d1, submit b write i0 i1 i2 d = Some ((), d1) ∧
    desc d1 = <[Z.to_nat i2 := mkDesc (PStatus i0) 1 2 0]> (<[Z.to_nat i1 := mkDesc (PData b) 1024 (if write then 1 else 3) i2]>
      (<[Z.to_nat i0 := mkDesc (POps i0) 16 1 i1]> (desc d))) ∧
    ops d1 = <[Z.to_nat i0 := mkReq (if write then 1 else 0) 0 (u32 (blockno bf * 2))]> (ops d) ∧
    info d1 = <[Z.to_nat i0 := mkInfo (Some b) 255]> (info d) ∧ bufs d1 = <[b := mkVbuf 1 (blockno bf) (data bf)]> (bufs d) ∧
    avail_idx d1 = u16 (avail_idx d + 1) ∧ avail_ring d1 = <[Z.to_nat (avail_idx d mod 8) := i0]> (avail_ring d) ∧
    free d1 = free d ∧ used_dev_idx d1 = used_dev_idx d ∧ used_ring d1 = used_ring d ∧ used_idx d1 = used_idx d.
Proof.
  intros [S1 S2 S3 S4 S5 S6] H0 H1 H2 Hb Ha. unfold submit.
  rewrite (bind_eq _ _ _ bf d) by (apply elem_eq; [lia|by rewrite Nat2Z.id]).
  pose proof (lookup_lt_Some _ _ _ Hb) as Hlt. destruct (lookup_lt_is_Some_2 (info d) (Z.to_nat i0)) as [inf Hinf]; [lia|].
  pose proof (Z.mod_pos_bound (avail_idx d) 8 ltac:(lia)) as Hm.
  destruct (lookup_lt_is_Some_2 (avail_ring d) (Z.to_nat (avail_idx d mod 8))) as [x Hx]; [lia|].
  repeat match goal with
  | |- context [(store ?f ?g ?i ?x ≫= ?k) ?s] =>
    rewrite (bind_eq (store f g i x) k s () (g (<[Z.to_nat i := x]> (f s)) s)) by (apply array_store_eq; cbn; rewrite ?length_insert; lia)
  | |- context [(elem info i0 ≫= ?k) ?s] => rewrite (bind_eq (elem info i0) k s inf s) by (apply elem_eq; [lia|exact Hinf])
  | |- context [(gets avail_idx ≫= ?k) ?s] => rewrite (bind_eq (gets avail_idx) k s (avail_idx d) s) by done
  | |- context [(elem avail_ring ?i ≫= ?k) ?s] => rewrite (bind_eq (elem avail_ring i) k s x s) by (apply elem_eq; [unfold NUM; lia|exact Hx])
  | |- context [(modify ?f ≫= ?k) ?s] => rewrite (bind_eq (modify f) k s () (f s)) by done
  end.
  eexists. split; [reflexivity|]. cbn. rewrite !list_insert_insert_eq, Nat2Z.id. by destruct write.
Qed.

(** The descriptors of a request are in range and in use. *)
Lemma descs_used s G pend fin p u k : vinv s G pend fin → G !! p = Some u → k ∈ descs u → 0 ≤ k < 8 ∧ free (drv s) !! Z.to_nat k = Some false.
Proof.
  intros Hv Hp Hk. destruct (vi_dom _ _ _ _ Hv p u Hp) as (b & write & Hpr). destruct (vi_procs _ _ _ _ Hv p b write _ Hpr) as (t & Ht & _ & Hc).
  assert (t = u) as -> by congruence. assert (0 ≤ k < 8) as Hr by (pose proof (ch_range _ _ _ _ Hc); unfold descs in Hk; set_solver by lia).
  split; [done|]. apply (vi_free _ _ _ _ Hv); [done|]. by exists p, u.
Qed.

Lemma in_ring_snoc ring start l h :
  length ring = 8%nat → 0 ≤ start → (length l < 8)%nat → in_ring ring start l →
  in_ring (<[Z.to_nat ((start + Z.of_nat (length l)) mod 8) := h]> ring) start (l ++ [h]).
Proof.
  intros Hr Hs Hl H k x Hk. pose proof (Z.mod_pos_bound (start + Z.of_nat (length l)) 8 ltac:(lia)). pose proof (Z.mod_pos_bound (start + Z.of_nat k) 8 ltac:(lia)).
  apply lookup_app_Some in Hk as [Hk|[Hge Hk]].
  - pose proof (lookup_lt_Some _ _ _ Hk). rewrite list_lookup_insert_ne; [by apply H|]. intros E. apply Z2Nat.inj in E; [|lia|lia].
    pose proof (Z.div_mod (start + Z.of_nat (length l)) 8 ltac:(lia)). pose proof (Z.div_mod (start + Z.of_nat k) 8 ltac:(lia)). lia.
  - apply list_lookup_singleton_Some in Hk as [Hk ->]. assert (k = length l) as -> by lia. apply list_lookup_insert_eq. lia.
Qed.
Lemma u16_mod8 z : u16 z mod 8 = z mod 8.
Proof. unfold u16. symmetry. apply Znumtheory.Zmod_div_mod; [lia|lia|]. by exists (2 ^ 13). Qed.
Lemma u16_range z : 0 ≤ u16 z < 2 ^ 16.
Proof. apply Z.mod_pos_bound. lia. Qed.
Lemma u16_add a b : u16 (u16 a + b) = u16 (a + b).
Proof. unfold u16. by rewrite Z.add_mod_idemp_l by lia. Qed.

(** A new chain leaves the others as they are. *)
Section submitted.
Context (s : sys) (G : gmap nat (Z * Z * Z)) (pend fin : list Z) (p b : nat) (write : bool) (t : Z * Z * Z) (bf : vbuf) (d : vdisk).
Context (Hv : vinv s G pend fin) (Hp : procs s !! p = Some (PStart b write)) (Hb : bufs (drv s) !! b = Some bf).
Context (Hr : 0 ≤ t.1.1 < 8 ∧ 0 ≤ t.1.2 < 8 ∧ 0 ≤ t.2 < 8 ∧ t.1.1 ≠ t.1.2 ∧ t.1.1 ≠ t.2 ∧ t.1.2 ≠ t.2).
Context (Hfree : ∀ k, k ∈ descs t → free (drv s) !! Z.to_nat k = Some true) (Hsz : sized d).
Context (Hdesc : desc d !! Z.to_nat t.1.1 = Some (mkDesc (POps t.1.1) 16 1 t.1.2) ∧
  desc d !! Z.to_nat t.1.2 = Some (mkDesc (PData b) 1024 (if write then 1 else 3) t.2) ∧
  desc d !! Z.to_nat t.2 = Some (mkDesc (PStatus t.1.1) 1 2 0)).
Context (Hkeep : ∀ k, 0 ≤ k < 8 → k ∉ descs t → free (drv s) !! Z.to_nat k = Some false → desc d !! Z.to_nat k = desc (drv s) !! Z.to_nat k).
Context (Hfr : ∀ k, 0 ≤ k < 8 → free d !! Z.to_nat k = if decide (k ∈ descs t) then Some false else free (drv s) !! Z.to_nat k).
Context (Hops : ops d = <[Z.to_nat t.1.1 := mkReq (if write then 1 else 0) 0 (u32 (blockno bf * 2))]> (ops (drv s))).
Context (Hinfo : info d = <[Z.to_nat t.1.1 := mkInfo (Some b) 255]> (info (drv s))).
Context (Hbufs : bufs d = <[b := mkVbuf 1 (blockno bf) (data bf)]> (bufs (drv s))).
Context (Hav : avail_idx d = u16 (avail_idx (drv s) + 1)) (Hring : avail_ring d = <[Z.to_nat (avail_idx (drv s) mod 8) := t.1.1]> (avail_ring (drv s))).
Context (Hus : used_dev_idx d = used_dev_idx (drv s) ∧ used_ring d = used_ring (drv s) ∧ used_idx d = used_idx (drv s)).

Lemma fresh_chain q u k : G !! q = Some u → k ∈ descs u → k ∉ descs t.
Proof using Hv Hfree. intros Hq Hk Hin. destruct (descs_used _ _ _ _ _ _ _ Hv Hq Hk) as [_ Hf]. rewrite Hfree in Hf by done. done. Qed.

Lemma fresh_head q b' write' i : q ≠ p → procs s !! q = Some (PWait b' write' i) → 0 ≤ i < 8 ∧ i ≠ t.1.1 ∧ b' ≠ b.
Proof using Hv Hfree Hp.
  clear -Hv Hfree Hp. intros Hne Hq. destruct (vi_procs _ _ _ _ Hv _ _ _ _ Hq) as (u & Hu & <- & Hc). split; [|split].
  - apply (descs_used _ _ _ _ _ _ _ Hv Hu). unfold descs. set_solver.
  - intros E. apply (fresh_chain q u u.1.1 Hu); [unfold descs; set_solver|]. rewrite E. unfold descs. set_solver.
  - intros ->. apply Hne. by eapply (vi_bufs _ _ _ _ Hv q p).
Qed.

Lemma head_not_listed : t.1.1 ∉ pend ++ work (dev s) ++ fin.
Proof using Hv Hfree Hp.
  clear -Hv Hfree Hp. intros (q & b' & w' & bf' & Hq & _)%(vi_heads _ _ _ _ Hv). destruct (decide (q = p)) as [->|Hne]; [congruence|]. by destruct (fresh_head q b' w' _ Hne Hq) as (_ & ? & _).
Qed.

Lemma vinv_submitted : vinv (mkSys d (dev s) (<[p := PWait b write t.1.1]> (procs s))) (<[p := t]> G) (pend ++ [t.1.1]) fin.
Proof using All.
  pose proof Hv as [V1 V2 V3 V4 V5 V6 V7 V8 V9 V10 (V11 & V12 & V13) V14]. pose proof (lookup_lt_Some _ _ _ Hp) as Hlt. pose proof (lookup_lt_Some _ _ _ Hb) as Hblt.
  pose proof head_not_listed as Hnl. pose proof V1 as [S1 S2 S3 S4 S5 S6]. destruct Hr as (R0 & R1 & R2 & R3 & R4 & R5). destruct Hdesc as (D0 & D1 & D2).
  assert (∀ q x, <[p := PWait b write t.1.1]> (procs s) !! q = Some x → (q = p ∧ x = PWait b write t.1.1) ∨ (q ≠ p ∧ procs s !! q = Some x)) as Hpr.
  { intros q x [(<- & <- & _)|[Hne Hx]]%list_lookup_insert_Some; [by left|by right]. }
  split; cbn [drv dev procs].
  - done.
  - intros q b' w' i [[-> [= -> -> ->]]|[Hne Hq]]%Hpr.
    + exists t. split_and!; [by rewrite lookup_insert_eq|done|]. split; [done|done|done|done| |].
      * rewrite Hbufs, Hops. exists (mkVbuf 1 (blockno bf) (data bf)). split; [by apply list_lookup_insert_eq|apply list_lookup_insert_eq; lia].
      * exists 255. rewrite Hinfo. apply list_lookup_insert_eq. lia.
    + destruct (V2 q b' w' i Hq) as (u & Hu & Ei & Hc). destruct (fresh_head q b' w' i Hne Hq) as (Hi & Hi0 & Hbne). exists u.
      split_and!; [by rewrite lookup_insert_ne|done|]. apply (chain_frame (drv s)); [done| | | |].
      * intros k Hk. destruct (descs_used _ _ _ _ _ _ _ Hv Hu Hk). apply Hkeep; [done|by eapply fresh_chain|done].
      * rewrite Hops, list_lookup_insert_ne; [done|lia].
      * rewrite Hinfo, list_lookup_insert_ne; [done|lia].
      * by rewrite Hbufs, list_lookup_insert_ne.
  - intros q u [[<- <-]|[Hne Hq]]%lookup_insert_Some.
    + exists b, write. by apply list_lookup_insert_eq.
    + destruct (V3 q u Hq) as (b' & w' & Hq'). exists b', w'. by rewrite list_lookup_insert_ne.
  - intros q q' u u' k [[<- <-]|[Hne Hq]]%lookup_insert_Some [[<- <-]|[Hne' Hq']]%lookup_insert_Some Hk Hk'; [done| | |by eapply V4].
    + by destruct (fresh_chain q' u' k Hq' Hk').
    + by destruct (fresh_chain q u k Hq Hk).
  - intros k Hk. rewrite Hfr by done. case_decide as Hin.
    + split; [|done]. intros _. exists p, t. by rewrite lookup_insert_eq.
    + rewrite V5 by done. split; intros (q & u & Hq & Hku).
      * exists q, u. split; [|done]. rewrite lookup_insert_ne; [done|]. intros ->. destruct (V3 _ _ Hq) as (? & ? & ?). congruence.
      * apply lookup_insert_Some in Hq as [[<- <-]|[Hne Hq]]; [done|by exists q, u].
  - intros q q' x y c [[-> ->]|[Hne Hq]]%Hpr [[-> ->]|[Hne' Hq']]%Hpr Hx Hy; [done| | |by eapply V6].
    + by eapply (V6 p q').
    + by eapply (V6 q p).
  - intros q x c Hq Hx. rewrite Hbufs. apply lookup_lt_is_Some. rewrite length_insert. apply lookup_lt_is_Some.
    apply Hpr in Hq as [[-> ->]|[Hne Hq]]; [by eapply (V7 p)|by eapply V7].
  - rewrite <-!app_assoc. change ([t.1.1] ++ work (dev s) ++ fin) with (t.1.1 :: work (dev s) ++ fin).
    rewrite <-Permutation_middle. by apply NoDup_cons.
  - intros h. assert (h ∈ (pend ++ [t.1.1]) ++ work (dev s) ++ fin ↔ h = t.1.1 ∨ h ∈ pend ++ work (dev s) ++ fin) as -> by set_solver.
    rewrite V9, Hbufs. split.
    + intros [->|(q & b' & w' & bf' & Hq & Hb' & Hd')].
      * exists p, b, write, (mkVbuf 1 (blockno bf) (data bf)). by rewrite !list_lookup_insert_eq.
      * destruct (decide (q = p)) as [->|Hne]; [congruence|]. destruct (fresh_head q b' w' h Hne Hq) as (_ & _ & Hbne).
        exists q, b', w', bf'. by rewrite !list_lookup_insert_ne.
    + intros (q & b' & w' & bf' & [[-> [= -> -> ->]]|[Hne Hq]]%Hpr & Hb' & Hd'); [by left|right].
      destruct (fresh_head q b' w' h Hne Hq) as (_ & _ & Hbne). rewrite list_lookup_insert_ne in Hb' by done. by exists q, b', w', bf'.
  - intros q b' w' i inf [[-> [= -> -> ->]]|[Hne Hq]]%Hpr Hi; rewrite Hinfo in Hi.
    + rewrite list_lookup_insert_eq in Hi by lia. injection Hi as <-. rewrite decide_True by set_solver. done.
    + destruct (fresh_head q b' w' i Hne Hq) as (Hir & Hi0 & _). rewrite list_lookup_insert_ne in Hi by lia. rewrite (V10 q b' w' i inf Hq Hi).
      destruct (decide (i ∈ pend ++ work (dev s))); [rewrite decide_True by set_solver; done|rewrite decide_False by set_solver; done].
  - rewrite Hav, Hring, V11, u16_mod8, u16_add, length_app. split_and!; [f_equal; cbn; lia|lia|lia|]. apply in_ring_snoc; [done|lia| |done].
    assert (length (t.1.1 :: pend) ≤ 8)%nat; [|cbn in *; lia]. apply nodup_bound.
    + apply NoDup_cons. split; [set_solver|]. by apply NoDup_app in V8 as (? & _).
    + intros h [->|Hh]%elem_of_cons; [lia|]. eapply (heads_range s); [done|]. set_solver.
  - destruct Hus as (-> & -> & ->). done.
Qed.
End submitted.

(** With more than five descriptors in use there are two requests under way. *)
Lemma two_chains s G pend fin (idx : list Z) :
  vinv s G pend fin → (length idx < 3)%nat → (∀ k, (k < 8)%nat → free (drv s) !! k = Some true → Z.of_nat k ∈ idx) →
  ∃ p q b b' w w' i j, p ≠ q ∧ procs s !! p = Some (PWait b w i) ∧ procs s !! q = Some (PWait b' w' j).
Proof.
  intros Hv Hl Hk. pose proof (sz_free _ (vi_size _ _ _ _ Hv)) as Hsz.
  assert (seqZ 0 8 ⊆+ idx ++ concat (descs <$> (map_to_list G).*2)) as Hs.
  { apply NoDup_submseteq; [apply NoDup_seqZ|]. intros k Hin%elem_of_seqZ. apply elem_of_app.
    destruct (lookup_lt_is_Some_2 (free (drv s)) (Z.to_nat k)) as [[] Hf]; [lia|left|right].
    - replace k with (Z.of_nat (Z.to_nat k)) by lia. apply Hk; [lia|done].
    - apply (vi_free _ _ _ _ Hv) in Hf as (p & t & Hp & Hkt); [|lia]. apply list_elem_of_In, in_concat. exists (descs t). rewrite <-!list_elem_of_In. split; [|done].
      apply list_elem_of_fmap. exists t. split; [done|]. apply list_elem_of_fmap. exists (p, t). split; [done|]. by apply elem_of_map_to_list. }
  apply submseteq_length in Hs. rewrite length_seqZ, length_app in Hs.
  assert (length (concat (descs <$> (map_to_list G).*2)) = 3 * length (map_to_list G))%nat as Ec.
  { clear. induction (map_to_list G) as [|x l IH]; [done|]. cbn [fmap list_fmap concat]. rewrite length_app, IH. cbn. lia. }
  destruct (map_to_list G) as [|[p t] [|[q u] l]] eqn:E; [cbn in *; lia|cbn in *; lia|].
  assert (G !! p = Some t) as Hp by (apply elem_of_map_to_list; rewrite E; by left).
  assert (G !! q = Some u) as Hq by (apply elem_of_map_to_list; rewrite E; right; by left).
  pose proof (NoDup_fst_map_to_list G) as Hnd. rewrite E in Hnd. cbn in Hnd. apply NoDup_cons in Hnd as [Hni _].
  destruct (vi_dom _ _ _ _ Hv p t Hp) as (b & w & Hpp), (vi_dom _ _ _ _ Hv q u Hq) as (b' & w' & Hqq).
  exists p, q, b, b', w, w', t.1.1, u.1.1. split_and!; [|done|done]. intros ->. apply Hni. by left.
Qed.

(** What the requests of other processes look like does not change. *)
Lemma abs_insert s d p x i :
  (∀ k, k ≠ Z.to_nat i → info d !! k = info (drv s) !! k) → 0 ≤ i → (p < length (procs s))%nat →
  (∀ q b w j, q ≠ p → procs s !! q = Some (PWait b w j) → 0 ≤ j ∧ j ≠ i) →
  abs_state d <$> <[p := x]> (procs s) = <[p := abs_state d x]> (abs_state (drv s) <$> procs s).
Proof.
  intros Hi Hi0 Hlt Ho. apply list_eq. intros q. rewrite list_lookup_fmap. destruct (decide (q = p)) as [->|Hne].
  - rewrite !list_lookup_insert_eq by (rewrite ?length_fmap; done). done.
  - rewrite !list_lookup_insert_ne, list_lookup_fmap by done. destruct (procs s !! q) as [z|] eqn:Hq; [|done]. cbn. f_equal.
    destruct z as [| |b w j]; [done|done|]. destruct (Ho q b w j Hne Hq). unfold abs_state. rewrite Hi by lia. done.
Qed.

Lemma start_spec s G pend fin p b write :
  vinv s G pend fin → procs s !! p = Some (PStart b write) →
  ∃ r d, rw_start_pass b write (drv s) = Some (r, d) ∧
    let s1 := mkSys d (dev s) (match r with Some i => <[p := PWait b write i]> (procs s) | None => procs s end) in
    (∃ G1 pend1, vinv s1 G1 pend1 fin) ∧ abs s1 = abs s ∧
    (r = None → ∃ q q' c c' w w' i j, q ≠ q' ∧ procs s !! q = Some (PWait c w i) ∧ procs s !! q' = Some (PWait c' w' j)).
Proof.
  intros Hv Hp. destruct (vi_buf _ _ _ _ Hv p _ b Hp eq_refl) as [bf Hb]. pose proof (vi_size _ _ _ _ Hv) as Hsz.
  unfold rw_start_pass, alloc3_desc. destruct (alloc3_loop_spec 3 (drv s) (drv s) [] (taking_refl _ Hsz)) as
    [(idx & d0 & E & Hl & Ht)|(d0 & E & Ht & idx & Hl & Hk)]; rewrite (bind_eq _ _ _ _ _ E).
  2:{ exists None, d0. split; [done|]. cbn zeta. split_and!; [exists G, pend; by apply vinv_taking| |intros _; by eapply two_chains].
      destruct (tk_rest _ _ _ Ht) as (_ & _ & _ & _ & _ & Ei & _ & Eb). unfold abs. cbn [drv dev procs]. rewrite Eb. f_equal.
      apply list_fmap_ext. intros q x _. destruct x as [| |c w i]; [done|done|]. cbn. by rewrite Ei. }
  cbn [app] in *. destruct idx as [|i0 [|i1 [|i2 [|]]]]; try done. pose proof Ht as [T1 T2 T3 T4 T5 (R1 & R2 & R3 & R4 & R5 & R6 & R7 & R8)].
  assert (0 ≤ i0 < 8 ∧ 0 ≤ i1 < 8 ∧ 0 ≤ i2 < 8) as (H0 & H1 & H2) by (split_and!; apply T2; set_solver).
  apply NoDup_cons in T1 as [N1 [N2 _]%NoDup_cons]. assert (i0 ≠ i1 ∧ i0 ≠ i2 ∧ i1 ≠ i2) as (Hn1 & Hn2 & Hn3) by set_solver.
  destruct (submit_eq d0 b write i0 i1 i2 bf T5 H0 H1 H2) as (d1 & Es & E1 & E2 & E3 & E4 & E5 & E6 & E7 & E8 & E9 & E10);
    [by rewrite R8|rewrite R1, (proj1 (vi_avail _ _ _ _ Hv)); apply u16_range|].
  rewrite (bind_eq _ _ _ _ _ Es). exists (Some i0), d1. split; [done|]. cbn zeta.
  pose proof T5 as [Z1 Z2 Z3 Z4 Z5 Z6].
  assert (vinv (mkSys d1 (dev s) (<[p := PWait b write i0]> (procs s))) (<[p := (i0, i1, i2)]> G) (pend ++ [i0]) fin) as Hv1.
  { apply (vinv_submitted s G pend fin p b write (i0, i1, i2) bf d1 Hv Hp Hb); cbn [fst snd]; unfold descs; cbn [fst snd].
    - done.
    - intros k Hk. by apply T2.
    - split; rewrite ?E1, ?E2, ?E3, ?E6, ?E7, ?E9, ?length_insert; done.
    - rewrite E1. split_and!.
      + rewrite !list_lookup_insert_ne by lia. apply list_lookup_insert_eq. lia.
      + rewrite list_lookup_insert_ne by lia. apply list_lookup_insert_eq. rewrite length_insert. lia.
      + apply list_lookup_insert_eq. rewrite !length_insert. lia.
    - intros k Hk Hni Hf. rewrite E1, !list_lookup_insert_ne by (apply not_elem_of_cons in Hni as [? [? [? _]%not_elem_of_cons]%not_elem_of_cons]; lia). by apply T4.
    - intros k Hk. rewrite E7, T3, Z2Nat.id by lia. done.
    - by rewrite E2, R7.
    - by rewrite E3, R6.
    - by rewrite E4, R8.
    - by rewrite E5, R1.
    - by rewrite E6, R1, R2.
    - by rewrite E8, E9, E10, R3, R4, R5. }
  split_and!; [by eexists _, _| |done]. unfold abs. cbn [drv dev procs]. f_equal.
  - rewrite E4, R8. by apply (list_insert_fmap_same contents _ _ bf).
  - rewrite (abs_insert s d1 p _ i0); [|intros k Hk; by rewrite E3, R6, list_lookup_insert_ne|lia|by eapply lookup_lt_Some|].
    + apply list_insert_id. rewrite list_lookup_fmap, Hp. cbn. rewrite E3, list_lookup_insert_eq by lia. done.
    + intros q c w j Hne Hq. assert (i0 ∈ descs (i0, i1, i2)) as Hin by (unfold descs; set_solver).
      destruct (vi_procs _ _ _ _ Hv _ _ _ _ Hq) as (u & Hu & <- & _). destruct (descs_used _ _ _ _ _ _ u.1.1 Hv Hu) as [Hr Hf]; [unfold descs; set_solver|].
      split; [lia|]. intros E'. rewrite E' in Hf. destruct (T2 i0) as [_ Hf']; [set_solver|]. congruence.
Qed.

(** ** The end of a request *)

Lemma free_chain_eq d0 d b write t :
  sized d → chain d0 b write t → desc d = desc d0 → (∀ k, k ∈ descs t → free d !! Z.to_nat k = Some false) →
  ∃ d1, free_chain (Z.to_nat NUM) t.1.1 d = Some ((), d1) ∧ sized d1 ∧ same_queue d d1 ∧
    (∀ k, free d1 !! k = if decide (Z.of_nat k ∈ descs t) then Some true else free d !! k) ∧
    (∀ k, Z.of_nat k ∉ descs t → desc d1 !! k = desc d !! k).
Proof.
  intros Hs [(R0 & R1 & R2 & N1 & N2 & N3) D0 D1 D2 _ _] Ed Hf. rewrite <-Ed in D0, D1, D2. change (Z.to_nat NUM) with 8%nat. unfold descs in *.
  destruct (free_desc_eq d t.1.1 Hs R0) as (d1 & E1 & Ed1 & Ef1 & Hs1 & Q1); [apply Hf; set_solver|].
  destruct (free_desc_eq d1 t.1.2 Hs1 R1) as (d2 & E2 & Ed2 & Ef2 & Hs2 & Q2); [rewrite Ef1, list_lookup_insert_ne by lia; apply Hf; set_solver|].
  destruct (free_desc_eq d2 t.2 Hs2 R2) as (d3 & E3 & Ed3 & Ef3 & Hs3 & Q3); [rewrite Ef2, Ef1, !list_lookup_insert_ne by lia; apply Hf; set_solver|].
  exists d3. split_and!.
  - cbn [free_chain]. rewrite (bind_eq _ _ _ _ _ (elem_eq desc t.1.1 _ d ltac:(lia) D0)), (bind_eq _ _ _ _ _ E1). cbn [flags next].
    change (Z.land 1 VRING_DESC_F_NEXT =? 0) with false. cbn iota.
    rewrite (bind_eq (elem desc t.1.2) _ _ (mkDesc (PData b) 1024 (if write then 1 else 3) t.2) d1)
      by (apply elem_eq; [lia|]; rewrite Ed1, list_lookup_insert_ne by lia; exact D1).
    rewrite (bind_eq _ _ _ _ _ E2). assert (Z.land (if write then 1 else 3) VRING_DESC_F_NEXT =? 0 = false) as Ew by by destruct write. cbn [flags next]. rewrite Ew.
    rewrite (bind_eq (elem desc t.2) _ _ (mkDesc (PStatus t.1.1) 1 2 0) d2)
      by (apply elem_eq; [lia|]; rewrite Ed2, Ed1, !list_lookup_insert_ne by lia; exact D2).
    rewrite (bind_eq _ _ _ _ _ E3). done.
  - done.
  - unfold same_queue in *. destruct_and!. split_and!; congruence.
  - intros k. rewrite Ef3, Ef2, Ef1. pose proof (sz_free _ Hs) as Hl.
    destruct (decide (k = Z.to_nat t.2)) as [->|K2]; [rewrite list_lookup_insert_eq by (rewrite !length_insert; lia); rewrite decide_True; [done|rewrite Z2Nat.id by lia; set_solver]|rewrite list_lookup_insert_ne by done].
    destruct (decide (k = Z.to_nat t.1.2)) as [->|K1]; [rewrite list_lookup_insert_eq by (rewrite !length_insert; lia); rewrite decide_True; [done|rewrite Z2Nat.id by lia; set_solver]|rewrite list_lookup_insert_ne by done].
    destruct (decide (k = Z.to_nat t.1.1)) as [->|K0]; [rewrite list_lookup_insert_eq by lia; rewrite decide_True; [done|rewrite Z2Nat.id by lia; set_solver]|rewrite list_lookup_insert_ne by done].
    rewrite decide_False; [done|]. rewrite !elem_of_cons, elem_of_nil. lia.
  - intros k Hk. rewrite !elem_of_cons, elem_of_nil in Hk. rewrite Ed3, Ed2, Ed1, !list_lookup_insert_ne by lia. done.
Qed.

(** Requests have descriptors, heads and buffers of their own. *)
Lemma requests_apart s G pend fin p q b c w w' i j :
  vinv s G pend fin → p ≠ q → procs s !! p = Some (PWait b w i) → procs s !! q = Some (PWait c w' j) →
  0 ≤ i < 8 ∧ 0 ≤ j < 8 ∧ i ≠ j ∧ b ≠ c.
Proof.
  intros Hv Hne Hp Hq. destruct (vi_procs _ _ _ _ Hv _ _ _ _ Hp) as (t & Ht & <- & _), (vi_procs _ _ _ _ Hv _ _ _ _ Hq) as (u & Hu & <- & _).
  assert (∀ x : Z * Z * Z, x.1.1 ∈ descs x) as Hin by (intros x; unfold descs; set_solver).
  destruct (descs_used _ _ _ _ _ _ _ Hv Ht (Hin t)) as [Ht0 _], (descs_used _ _ _ _ _ _ _ Hv Hu (Hin u)) as [Hu0 _].
  split; [done|]. split; [done|]. split.
  - intros E. apply Hne. eapply (vi_disj _ _ _ _ Hv p q t u); [done|done|apply Hin|]. rewrite E. apply Hin.
  - intros ->. apply Hne. by eapply (vi_bufs _ _ _ _ Hv p q).
Qed.

Lemma vinv_finished s G pend fin p b write t d bf :
  vinv s G pend fin → procs s !! p = Some (PWait b write t.1.1) → G !! p = Some t → bufs (drv s) !! b = Some bf → bdisk bf ≠ 1 →
  sized d → (∀ k, free d !! k = if decide (Z.of_nat k ∈ descs t) then Some true else free (drv s) !! k) →
  (∀ k, Z.of_nat k ∉ descs t → desc d !! k = desc (drv s) !! k) →
  (∀ k, k ≠ Z.to_nat t.1.1 → info d !! k = info (drv s) !! k) → ops d = ops (drv s) → bufs d = bufs (drv s) →
  avail_idx d = avail_idx (drv s) → avail_ring d = avail_ring (drv s) → used_dev_idx d = used_dev_idx (drv s) →
  used_ring d = used_ring (drv s) → used_idx d = used_idx (drv s) →
  vinv (mkSys d (dev s) (<[p := PIdle]> (procs s))) (delete p G) pend fin.
Proof.
  intros Hv Hp Ht Hb Hnd Hsz Hfr Hde Hin Hop Hbu Ha1 Ha2 Hu1 Hu2 Hu3. pose proof Hv as [V1 V2 V3 V4 V5 V6 V7 V8 V9 V10 V11 V12].
  assert (∀ q x, <[p := PIdle]> (procs s) !! q = Some x → x ≠ PIdle → q ≠ p ∧ procs s !! q = Some x) as Hpr.
  { intros q x [(<- & <- & _)|[Hne Hx]]%list_lookup_insert_Some Hx'; [done|by split]. }
  split; cbn [drv dev procs].
  - done.
  - intros q c w i [Hne Hq]%Hpr; [|done]. destruct (V2 q c w i Hq) as (u & Hu & <- & Hc). exists u. split_and!; [by rewrite lookup_delete_ne|done|].
    destruct (requests_apart s G pend fin q p c b w write _ _ Hv Hne Hq Hp) as (R1 & R2 & R3 & R4).
    apply (chain_frame (drv s)); [done| |by rewrite Hop|rewrite Hin; [done|lia]|by rewrite Hbu]. intros k Hk. apply Hde.
    destruct (descs_used _ _ _ _ _ _ _ Hv Hu Hk). rewrite Z2Nat.id by lia. intros Hk'. apply Hne. by eapply V4.
  - intros q u [Hne Hq]%lookup_delete_Some. destruct (V3 q u Hq) as (c & w & Hqq). exists c, w. by rewrite list_lookup_insert_ne.
  - intros q r u u' k [_ Hq]%lookup_delete_Some [_ Hr]%lookup_delete_Some. by eapply V4.
  - intros k Hk. rewrite Hfr, Z2Nat.id by lia. case_decide as Hkt.
    + split; [done|]. intros (q & u & [Hne Hq]%lookup_delete_Some & Hku). destruct Hne. by eapply V4.
    + rewrite V5 by done. split; intros (q & u & Hq & Hku).
      * exists q, u. split; [|done]. rewrite lookup_delete_ne; [done|]. intros <-. congruence.
      * apply lookup_delete_Some in Hq as [_ Hq]. by exists q, u.
  - intros q r x y c Hq Hr Hx Hy. apply Hpr in Hq as [_ Hq]; [|by intros ->]. apply Hpr in Hr as [_ Hr]; [|by intros ->]. by eapply V6.
  - intros q x c Hq Hx. rewrite Hbu. apply Hpr in Hq as [_ Hq]; [by eapply V7|by intros ->].
  - done.
  - intros h. rewrite V9, Hbu. split; intros (q & c & w & bf' & Hq & Hc & Hd).
    + exists q, c, w, bf'. rewrite list_lookup_insert_ne; [done|]. intros <-. congruence.
    + apply Hpr in Hq as [_ Hq]; [|done]. by exists q, c, w, bf'.
  - intros q c w i inf [Hne Hq]%Hpr Hi; [|done]. destruct (requests_apart s G pend fin q p c b w write _ _ Hv Hne Hq Hp) as (R1 & R2 & R3 & R4).
    rewrite Hin in Hi by lia. by eapply V10.
  - by rewrite Ha1, Ha2.
  - by rewrite Hu1, Hu2, Hu3.
Qed.

Lemma wait_spec s G pend fin p b write i :
  vinv s G pend fin → procs s !! p = Some (PWait b write i) →
  ∃ r d, rw_wait_pass b i (drv s) = Some (r, d) ∧
    let s1 := mkSys d (dev s) (if r then <[p := PIdle]> (procs s) else procs s) in
    (∃ G1, vinv s1 G1 pend fin) ∧ (r = false → i ∈ pend ++ work (dev s) ++ fin) ∧
    if r then a_procs (abs s) !! p = Some (ADone b write) ∧ abs s1 = mkAsys (a_bufs (abs s)) (a_medium (abs s)) (<[p := AIdle]> (a_procs (abs s)))
    else abs s1 = abs s.
Proof.
  intros Hv Hp. destruct (vi_procs _ _ _ _ Hv _ _ _ _ Hp) as (t & Ht & <- & Hc). pose proof (vi_size _ _ _ _ Hv) as Hsz.
  destruct (ch_op _ _ _ _ Hc) as (bf & Hb & _). destruct (ch_info _ _ _ _ Hc) as (st & Hi). destruct (ch_range _ _ _ _ Hc) as (R0 & _).
  unfold rw_wait_pass. rewrite (bind_eq _ _ _ bf (drv s)) by (apply elem_eq; [lia|by rewrite Nat2Z.id]).
  destruct (Z.eqb_spec (bdisk bf) 1) as [|Hnd]. { exists false, (drv s). split; [done|]. cbn zeta. split_and!; [exists G; by destruct s| |done].
    intros _. apply (vi_heads _ _ _ _ Hv). by exists p, b, write, bf. }
  assert (t.1.1 ∉ pend ++ work (dev s) ++ fin) as Hnl.
  { intros (q & c & w & bf' & Hq & Hb' & Hd)%(vi_heads _ _ _ _ Hv). destruct (decide (q = p)) as [->|Hne]; [congruence|].
    by destruct (requests_apart s G pend fin q p c b w write _ _ Hv Hne Hq Hp) as (_ & _ & ? & _). }
  assert (st = 0) as -> by (pose proof (vi_status _ _ _ _ Hv _ _ _ _ _ Hp Hi) as Es; rewrite decide_False in Es by set_solver; exact Es).
  rewrite (bind_eq _ _ _ _ _ (elem_eq info t.1.1 _ (drv s) ltac:(lia) Hi)).
  rewrite (bind_eq _ _ _ _ _ (array_store_eq info set_info t.1.1 (mkInfo None 0) (drv s) ltac:(rewrite (sz_info _ Hsz); lia))). set (d1 := set_info _ (drv s)).
  assert (sized d1) as Hsz1 by (destruct Hsz; split; cbn; rewrite ?length_insert; done).
  destruct (free_chain_eq (drv s) d1 b write t Hsz1 Hc eq_refl) as (d2 & E2 & Hsz2 & (Q1 & Q2 & Q3 & Q4 & Q5 & Q6 & Q7 & Q8) & Hf2 & Hd2).
  { intros k Hk. by apply (descs_used s G pend fin p t k). }
  rewrite (bind_eq _ _ _ _ _ E2). exists true, d2. split; [done|]. cbn zeta iota. cbn in Q1, Q2, Q3, Q4, Q5, Q6, Q7, Q8.
  pose proof (lookup_lt_Some _ _ _ Hp) as Hlt. split_and!.
  - exists (delete p G). eapply vinv_finished; try done. intros k Hk. by rewrite Q6, list_lookup_insert_ne.
  - done.
  - unfold abs. cbn [a_procs]. rewrite list_lookup_fmap, Hp. cbn. by rewrite Hi.
  - unfold abs. cbn [drv dev procs a_bufs a_medium a_procs]. rewrite Q8. f_equal.
    rewrite (abs_insert s d2 p _ t.1.1); [done|intros k Hk; by rewrite Q6, list_lookup_insert_ne|lia|done|].
    intros q c w j Hne Hq. destruct (requests_apart s G pend fin q p c b w write _ _ Hv Hne Hq Hp) as (? & _ & ? & _). split; [lia|done].
Qed.

(** ** The device *)

Lemma u16_mod8_add a k : (u16 a + k) mod 8 = (a + k) mod 8.
Proof. rewrite <-Z.add_mod_idemp_l, u16_mod8, Z.add_mod_idemp_l by lia. done. Qed.
Lemma u16_id a : 0 ≤ a < 2 ^ 16 → u16 a = a.
Proof. apply Z.mod_small. Qed.
Lemma u16_ahead a n : 0 ≤ a < 2 ^ 16 → (n ≤ 8)%nat → u16 (u16 (a + Z.of_nat n) - a) = Z.of_nat n.
Proof. intros Ha Hn. unfold u16. rewrite Zminus_mod_idemp_l. replace (a + Z.of_nat n - a) with (Z.of_nat n) by lia. apply Z.mod_small. lia. Qed.
Lemma in_ring_tail ring start h l : in_ring ring start (h :: l) → in_ring ring (u16 (start + 1)) l.
Proof. intros H k x Hk. rewrite u16_mod8_add. specialize (H (1 + k)%nat x Hk). rewrite <-H. do 2 f_equal. f_equal. lia. Qed.
Lemma in_ring_head ring start h l : in_ring ring start (h :: l) → ring !! Z.to_nat (start mod 8) = Some h.
Proof. intros H. specialize (H 0%nat h eq_refl). by rewrite Z.add_0_r in H. Qed.

Lemma take_spec s G pend fin d v :
  vinv s G pend fin → take_entry (drv s, dev s) = Some (d, v) →
  ∃ pend1, vinv (mkSys d v (procs s)) G pend1 fin ∧ abs (mkSys d v (procs s)) = abs s.
Proof.
  intros Hv E. pose proof Hv as [V1 V2 V3 V4 V5 V6 V7 V8 V9 V10 (V11 & V12 & V13) V14]. unfold take_entry in E.
  destruct (Z.eqb_spec (pos (dev s)) (avail_idx (drv s))) as [|Hne]; [done|]. destruct pend as [|h pend1].
  { exfalso. apply Hne. rewrite V11, Z.add_0_r. symmetry. by apply u16_id. }
  change NUM with 8 in E. rewrite (in_ring_head _ _ _ _ V13) in E. cbn in E. injection E as <- <-.
  exists pend1. split; [|done]. split; cbn [drv dev procs pos work]; try done.
  - revert V8. cbn [app]. rewrite <-app_assoc. change ([h] ++ fin) with (h :: fin). rewrite !app_assoc. by rewrite <-Permutation_middle.
  - intros x. rewrite <-V9. set_solver.
  - intros p b write i inf Hp Hi. rewrite (V10 p b write i inf Hp Hi).
    destruct (decide (i ∈ (h :: pend1) ++ work (dev s))); [rewrite decide_True by set_solver; done|rewrite decide_False by set_solver; done].
  - split_and!; [rewrite V11, u16_add; f_equal; cbn; lia|apply u16_range|apply u16_range|by eapply in_ring_tail].
Qed.

(** The device reads a chain as the driver meant it. *)
Lemma decode_chain d b write t :
  chain d b write t → ∃ bf, bufs d !! b = Some bf ∧
    decode d t.1.1 = Some (mkReq (if write then 1 else 0) 0 (u32 (blockno bf * 2)), b, negb write, t.1.1).
Proof.
  intros [_ D0 D1 D2 (bf & Hb & Ho) _]. exists bf. split; [done|]. unfold decode. rewrite D0. cbn [mbind option_bind next flags addr].
  rewrite D1. cbn [mbind option_bind next flags addr]. rewrite D2. cbn [mbind option_bind next flags addr]. rewrite Ho. by destruct write.
Qed.

(** The entry that is served leaves [work] and joins [fin]. *)
Lemma heads_served (pend w fin : list Z) k h :
  w !! k = Some h → pend ++ delete k w ++ fin ++ [h] ≡ₚ pend ++ w ++ fin.
Proof.
  intros Hk. rewrite (Permutation_app_comm fin [h]). change ([h] ++ fin) with (h :: fin). rewrite <-(Permutation_middle (delete k w) fin h).
  by rewrite (delete_Permutation w k h Hk) at 2.
Qed.

(** Carrying out the request of process [p]. *)
Definition set_contents s b write (bf : vbuf) : list (Z * list Z) * S :=
  let m := medium (dev s) in
  if write : bool then (contents <$> bufs (drv s), dwrite m (u32 (blockno bf * 2)) (data bf))
  else (<[b := (blockno bf, dread m (u32 (blockno bf * 2)))]> (contents <$> bufs (drv s)), m).

Lemma vinv_served s G pend fin p b write (t : Z * Z * Z) k bf bf1 inf d v :
  vinv s G pend fin → procs s !! p = Some (PWait b write t.1.1) → work (dev s) !! k = Some t.1.1 →
  bufs (drv s) !! b = Some bf → bdisk bf1 = bdisk bf → blockno bf1 = blockno bf → info (drv s) !! Z.to_nat t.1.1 = Some inf → 0 ≤ t.1.1 < 8 →
  d = set_used (u16 (used_dev_idx (drv s) + 1)) (<[Z.to_nat (used_dev_idx (drv s) mod 8) := t.1.1]> (used_ring (drv s)))
    (set_info (<[Z.to_nat t.1.1 := mkInfo (info_b inf) 0]> (info (drv s))) (set_bufs (<[b := bf1]> (bufs (drv s))) (drv s))) →
  pos v = pos (dev s) → work v = delete k (work (dev s)) →
  vinv (mkSys d v (procs s)) G pend (fin ++ [t.1.1]).
Proof.
  intros Hv Hp Hk Hb Hbd Hbn Hi Hr -> Hpos Hwork. pose proof Hv as [V1 V2 V3 V4 V5 V6 V7 V8 V9 V10 V11 (V12 & V13 & V14)].
  pose proof (heads_served pend (work (dev s)) fin k t.1.1 Hk) as Hperm. pose proof V1 as [S1 S2 S3 S4 S5 S6]. pose proof (lookup_lt_Some _ _ _ Hb) as Hblt.
  assert (∀ q c w j, procs s !! q = Some (PWait c w j) → q ≠ p → 0 ≤ j < 8 ∧ j ≠ t.1.1 ∧ c ≠ b) as Ho.
  { intros q c w j Hq Hne. by destruct (requests_apart s G pend fin q p c b w write _ _ Hv Hne Hq Hp) as (? & _ & ? & ?). }
  split; cbn [drv dev procs set_used set_info set_bufs desc free info ops bufs avail_idx avail_ring used_dev_idx used_ring used_idx].
  - split; cbn [set_used set_info set_bufs desc free info ops avail_ring used_ring]; rewrite ?length_insert; done.
  - intros q c w j Hq. destruct (V2 q c w j Hq) as (u & Hu & Ej & Hc). exists u. split_and!; [done|done|].
    apply (chain_frame (drv s)); [done|done|done| |]; cbn [set_used set_info set_bufs desc info ops bufs].
    + destruct (decide (u.1.1 = t.1.1)) as [->|Hne]; [rewrite list_lookup_insert_eq by lia; by rewrite Hi|].
      destruct (descs_used s G pend fin q u u.1.1 Hv Hu) as [? _]; [unfold descs; set_solver|]. by rewrite list_lookup_insert_ne by lia.
    + destruct (decide (c = b)) as [->|Hne]; [rewrite list_lookup_insert_eq by done; rewrite Hb; cbn; by rewrite Hbn|by rewrite list_lookup_insert_ne].
  - done.
  - done.
  - done.
  - done.
  - intros q x c Hq Hx. apply lookup_lt_is_Some. rewrite length_insert. apply lookup_lt_is_Some. by eapply V7.
  - rewrite Hwork. by rewrite Hperm.
  - intros h. rewrite Hwork, Hperm, V9. split; intros (q & c & w & bf' & Hq & Hc & Hd).
    + destruct (decide (c = b)) as [->|Hne].
      * exists q, b, w, bf1. rewrite list_lookup_insert_eq by done. split_and!; [done|done|congruence].
      * exists q, c, w, bf'. by rewrite list_lookup_insert_ne.
    + apply list_lookup_insert_Some in Hc as [(<- & <- & _)|[Hne Hc]]; [exists q, b, w, bf|exists q, c, w, bf']; split_and!; done || congruence.
  - intros q c w j inf' Hq Hj. rewrite Hwork. destruct (decide (q = p)) as [->|Hne].
    + assert (j = t.1.1) as -> by congruence. rewrite list_lookup_insert_eq in Hj by lia. injection Hj as <-. rewrite decide_False; [done|].
      rewrite elem_of_app. pose proof V8 as Hnd. rewrite (delete_Permutation _ _ _ Hk) in Hnd.
      rewrite (app_assoc pend), <-Permutation_middle in Hnd. apply NoDup_cons in Hnd as [Hni _]. set_solver.
    + destruct (Ho q c w j Hq Hne) as (Hjr & Hjne & _). rewrite list_lookup_insert_ne in Hj by lia. rewrite (V10 q c w j inf' Hq Hj).
      assert (j ∈ work (dev s) ↔ j ∈ delete k (work (dev s))) as Hiff by (rewrite (delete_Permutation _ _ _ Hk) at 1; set_solver).
      destruct (decide (j ∈ pend ++ work (dev s))); [rewrite decide_True by set_solver; done|rewrite decide_False by set_solver; done].
  - by rewrite Hpos.
  - rewrite V12, u16_mod8, u16_add, length_app. split_and!; [f_equal; cbn; lia|lia|lia|]. apply in_ring_snoc; [done|lia| |done].
    assert (length (t.1.1 :: fin) ≤ 8)%nat; [|cbn in *; lia].
    apply NoDup_app in V8 as (_ & _ & (_ & Hdis & Hnd)%NoDup_app). pose proof (list_elem_of_lookup_2 _ _ _ Hk) as Hw.
    apply nodup_bound; [apply NoDup_cons; by auto|]. intros h [->|Hh]%elem_of_cons; [lia|]. eapply (heads_range s); [done|set_solver].
Qed.

Lemma abs_served s p b write (t : Z * Z * Z) inf d :
  (∀ q c w j, q ≠ p → procs s !! q = Some (PWait c w j) → 0 ≤ j ∧ j ≠ t.1.1) →
  procs s !! p = Some (PWait b write t.1.1) → 0 ≤ t.1.1 → (Z.to_nat t.1.1 < length (info (drv s)))%nat →
  info d = <[Z.to_nat t.1.1 := mkInfo (info_b inf) 0]> (info (drv s)) →
  abs_state d <$> procs s = <[p := ADone b write]> (abs_state (drv s) <$> procs s).
Proof.
  intros Ho Hp H0 Hl Hi. rewrite <-(list_insert_id (procs s) p (PWait b write t.1.1) Hp) at 1.
  rewrite (abs_insert s d p _ t.1.1); [|intros k Hk; by rewrite Hi, list_lookup_insert_ne|done|by eapply lookup_lt_Some|done].
  f_equal. unfold abs_state. rewrite Hi, list_lookup_insert_eq by done. done.
Qed.

(** What the device does with an entry of [work] is what the process asked for. *)
Lemma serve_spec s G pend fin k :
  vinv s G pend fin → (k < length (work (dev s)))%nat →
  ∃ p b write bf d v, serve dread dwrite k (drv s, dev s) = Some (d, v) ∧ a_procs (abs s) !! p = Some (AReq b write) ∧ bufs (drv s) !! b = Some bf ∧
    (∃ fin1, vinv (mkSys d v (procs s)) G pend fin1) ∧
    abs (mkSys d v (procs s)) = mkAsys (set_contents s b write bf).1 (set_contents s b write bf).2 (<[p := ADone b write]> (a_procs (abs s))).
Proof.
  intros Hv Hk. destruct (lookup_lt_is_Some_2 _ _ Hk) as [h Hh]. pose proof (list_elem_of_lookup_2 _ _ _ Hh) as Hin.
  destruct (proj1 (vi_heads _ _ _ _ Hv h) ltac:(set_solver)) as (p & b & write & bf & Hp & Hb & Hbd).
  destruct (vi_procs _ _ _ _ Hv _ _ _ _ Hp) as (t & Ht & <- & Hc). destruct (decode_chain _ _ _ _ Hc) as (bf' & Hb' & Hdec). assert (bf' = bf) as -> by congruence.
  destruct (ch_info _ _ _ _ Hc) as (st & Hi). destruct (ch_range _ _ _ _ Hc) as (R0 & _).
  assert (∀ q c w j, q ≠ p → procs s !! q = Some (PWait c w j) → 0 ≤ j ∧ j ≠ t.1.1) as Ho.
  { intros q c w j Hne Hq. destruct (requests_apart s G pend fin q p c b w write _ _ Hv Hne Hq Hp) as (? & _ & ? & _). split; [lia|done]. }
  assert (a_procs (abs s) !! p = Some (AReq b write)) as Ha.
  { unfold abs. cbn [a_procs]. rewrite list_lookup_fmap, Hp. cbn. rewrite Hi. cbn.
    pose proof (vi_status _ _ _ _ Hv _ _ _ _ _ Hp Hi) as Es. cbn in Es. rewrite decide_True in Es by set_solver. by rewrite Es. }
  assert (Z.to_nat t.1.1 < length (info (drv s)))%nat as Hil by (by eapply lookup_lt_Some).
  unfold serve. rewrite Hh, Hdec, Hb, Hi. cbn [info_b]. change NUM with 8. pose proof (lookup_lt_Some _ _ _ Hb) as Hlt.
  destruct write; cbn [negb rtype sector]; change (1 =? VIRTIO_BLK_T_OUT) with true; change (0 =? VIRTIO_BLK_T_IN) with true; cbn iota.
  - eexists p, b, true, bf, _, _. split_and!; [reflexivity|done|done| |].
    + eexists. eapply (vinv_served s G pend fin p b true t k bf bf); try done.
    + unfold abs. cbn [drv dev procs set_used set_info set_bufs bufs medium set_contents fst snd a_procs]. f_equal.
      * by apply (list_insert_fmap_same contents _ _ bf).
      * eapply (abs_served s p b true t (mkInfo (Some b) st)); (done || lia).
  - eexists p, b, false, bf, _, _. split_and!; [reflexivity|done|done| |].
    + eexists. eapply (vinv_served s G pend fin p b false t k bf (mkVbuf (bdisk bf) (blockno bf) (dread (medium (dev s)) (u32 (blockno bf * 2))))); try done.
    + unfold abs. cbn [drv dev procs set_used set_info set_bufs bufs medium set_contents fst snd a_procs]. f_equal.
      * by rewrite list_fmap_insert.
      * eapply (abs_served s p b false t (mkInfo (Some b) st)); (done || lia).
Qed.

(** ** The interrupt *)

(** One entry of the [used] ring is seen. *)
Lemma vinv_seen s G pend fin p b write i bf :
  vinv s G pend (i :: fin) → procs s !! p = Some (PWait b write i) → bufs (drv s) !! b = Some bf → ∀ d,
  desc d = desc (drv s) → free d = free (drv s) → info d = info (drv s) → ops d = ops (drv s) → bufs d = <[b := mkVbuf 0 (blockno bf) (data bf)]> (bufs (drv s)) →
  avail_idx d = avail_idx (drv s) → avail_ring d = avail_ring (drv s) → used_dev_idx d = used_dev_idx (drv s) → used_ring d = used_ring (drv s) →
  used_idx d = u16 (used_idx (drv s) + 1) →
  vinv (mkSys d (dev s) (procs s)) G pend fin.
Proof.
  intros Hv Hp Hb d Ed Ef Ei Eo Eb Ea1 Ea2 Eu1 Eu2 Eu3. pose proof Hv as [V1 V2 V3 V4 V5 V6 V7 V8 V9 V10 V11 (V12 & V13 & V14)].
  pose proof V1 as [S1 S2 S3 S4 S5 S6]. pose proof (lookup_lt_Some _ _ _ Hb) as Hblt.
  assert (NoDup (i :: pend ++ work (dev s) ++ fin)) as Hnd by (revert V8; by rewrite !app_assoc, <-Permutation_middle).
  apply NoDup_cons in Hnd as [Hni Hnd].
  split; cbn [drv dev procs].
  - split; congruence.
  - intros q c w j Hq. destruct (V2 q c w j Hq) as (u & Hu & Ej & Hc). exists u. split_and!; [done|done|].
    apply (chain_frame (drv s)); rewrite ?Ed, ?Eo, ?Ei; try done. rewrite Eb.
    destruct (decide (c = b)) as [->|Hne]; [rewrite list_lookup_insert_eq by done; by rewrite Hb|by rewrite list_lookup_insert_ne].
  - done.
  - done.
  - by rewrite Ef.
  - done.
  - intros q x c Hq Hx. rewrite Eb. apply lookup_lt_is_Some. rewrite length_insert. apply lookup_lt_is_Some. by eapply V7.
  - done.
  - intros h. rewrite Eb. split.
    + intros Hh. destruct (proj1 (V9 h) ltac:(set_solver)) as (q & c & w & bf' & Hq & Hc & Hd).
      exists q, c, w, bf'. rewrite list_lookup_insert_ne; [done|]. intros <-. assert (q = p) as -> by (by eapply (V6 q p)).
      apply Hni. congruence.
    + intros (q & c & w & bf' & Hq & Hc & Hd). apply list_lookup_insert_Some in Hc as [(<- & <- & _)|[Hne Hc]]; [done|].
      assert (h ∈ pend ++ work (dev s) ++ i :: fin) as Hin by (apply V9; by exists q, c, w, bf').
      assert (h ≠ i) by (intros ->; apply Hne; assert (q = p) as ->; [|congruence];
        destruct (V2 _ _ _ _ Hq) as (u & Hu & Eu & _), (V2 _ _ _ _ Hp) as (t & Ht & Et & _);
        eapply (V4 q p u t i); [done|done|rewrite <-Eu|rewrite <-Et]; unfold descs; set_solver).
      set_solver.
  - by rewrite Ei.
  - by rewrite Ea1, Ea2.
  - rewrite Eu1, Eu2, Eu3, V12, u16_add. split_and!; [f_equal; cbn; lia|apply u16_range|apply u16_range|by eapply in_ring_tail].
Qed.

Lemma fin_bound s G pend fin : vinv s G pend fin → (length fin ≤ 8)%nat.
Proof.
  intros Hv. apply nodup_bound.
  - pose proof (vi_nodup _ _ _ _ Hv) as (_ & _ & (_ & _ & ?)%NoDup_app)%NoDup_app. done.
  - intros h Hh. eapply (heads_range s); [done|set_solver].
Qed.

Lemma intr_loop_spec n s G pend fin :
  vinv s G pend fin → (length fin ≤ n)%nat →
  ∃ d, intr_loop n (drv s) = Some ((), d) ∧ vinv (mkSys d (dev s) (procs s)) G pend [] ∧ abs (mkSys d (dev s) (procs s)) = abs s.
Proof.
  revert s fin; induction n as [|n IH]; intros s fin Hv Hn; pose proof (vi_used _ _ _ _ Hv) as (U1 & U2 & U3); cbn [intr_loop];
    rewrite (bind_eq _ _ _ (used_idx (drv s)) (drv s)), (bind_eq _ _ _ (used_dev_idx (drv s)) (drv s)) by done;
    (destruct fin as [|i fin]; [rewrite U1, Z.add_0_r, u16_id, Z.eqb_refl by done; exists (drv s); destruct s; by split_and!|]).
  { cbn in Hn. lia. }
  pose proof (fin_bound _ _ _ _ Hv) as Hle. cbn [length] in *. rewrite (proj2 (Z.eqb_neq _ _)).
  2:{ rewrite U1. pose proof (u16_ahead (used_idx (drv s)) (Datatypes.S (length fin)) U2 Hle) as E. intros E'. rewrite <-E', Z.sub_diag in E. change (u16 0) with 0 in E. lia. }
  destruct (proj1 (vi_heads _ _ _ _ Hv i) ltac:(set_solver)) as (p & b & write & bf & Hp & Hb & Hbd).
  destruct (vi_procs _ _ _ _ Hv _ _ _ _ Hp) as (t & Ht & <- & Hc). destruct (ch_info _ _ _ _ Hc) as (st & Hi). destruct (ch_range _ _ _ _ Hc) as (R0 & _).
  assert (st = 0) as ->.
  { pose proof (vi_status _ _ _ _ Hv _ _ _ _ _ Hp Hi) as Es. cbn in Es. rewrite decide_False in Es; [done|].
    pose proof (vi_nodup _ _ _ _ Hv) as Hnd. rewrite app_assoc in Hnd. apply NoDup_app in Hnd as (_ & Hdis & _). intros Hin. apply (Hdis _ Hin). by left. }
  rewrite (bind_eq _ _ _ t.1.1 (drv s)) by (apply elem_eq; [apply Z.mod_pos_bound; done|by eapply in_ring_head]).
  rewrite (bind_eq _ _ _ _ _ (elem_eq info t.1.1 _ (drv s) ltac:(lia) Hi)). change (negb (status (mkInfo (Some b) 0) =? 0)) with false. cbn [info_b]. cbn iota.
  pose proof (lookup_lt_Some _ _ _ Hb) as Hlt. rewrite (bind_eq _ _ _ bf (drv s)) by (apply elem_eq; [lia|by rewrite Nat2Z.id]).
  rewrite (bind_eq _ _ _ _ _ (array_store_eq bufs set_bufs (Z.of_nat b) (mkVbuf 0 (blockno bf) (data bf)) (drv s) ltac:(lia))). rewrite Nat2Z.id.
  unfold wake. erewrite (bind_eq (modify _)) by reflexivity. erewrite (bind_eq (modify _)) by reflexivity.
  set (d := set_used_idx _ _).
  assert (vinv (mkSys d (dev s) (procs s)) G pend fin) as Hv1 by (by eapply (vinv_seen s G pend fin p b write t.1.1 bf)).
  destruct (IH _ _ Hv1) as (d2 & E2 & Hv2 & Ha2); [lia|]. exists d2. split; [exact E2|]. split; [exact Hv2|]. cbn [drv dev procs] in Ha2.
  rewrite Ha2. unfold abs. cbn [drv dev procs]. f_equal. by apply (list_insert_fmap_same contents _ _ bf).
Qed.

Lemma intr_spec s G pend fin pending :
  vinv s G pend fin →
  ∃ d, virtio_disk_intr pending (drv s) = Some ((), d) ∧ vinv (mkSys d (dev s) (procs s)) G pend [] ∧ abs (mkSys d (dev s) (procs s)) = abs s.
Proof.
  intros Hv. set (d0 := mkVdisk (desc (drv s)) (avail_idx (drv s)) (avail_ring (drv s)) (used_dev_idx (drv s)) (used_ring (drv s)) (free (drv s)) (used_idx (drv s))
    (info (drv s)) (ops (drv s)) (bufs (drv s)) (woken (drv s)) (regs (drv s) ++ [(VIRTIO_MMIO_INTERRUPT_ACK, Z.land pending 3)])).
  assert (vinv (mkSys d0 (dev s) (procs s)) G pend fin) as Hv0.
  { destruct Hv as [V1 V2 V3 V4 V5 V6 V7 V8 V9 V10 V11 V12]. split; cbn [drv dev procs]; try done; [by destruct V1; split|].
    intros p b w i Hp. destruct (V2 p b w i Hp) as (t & Ht & Et & Hc). exists t. split_and!; [done|done|by apply (chain_frame (drv s))]. }
  destruct (intr_loop_spec (length fin) _ G pend fin Hv0 ltac:(lia)) as (d & E & Hv1 & Ha). exists d. split_and!; [|done|exact Ha].
  unfold virtio_disk_intr, write_reg. rewrite (bind_eq _ _ _ () d0) by done.
  rewrite (bind_eq _ _ _ (used_idx (drv s)) d0), (bind_eq _ _ _ (used_dev_idx (drv s)) d0) by done.
  pose proof (vi_used _ _ _ _ Hv) as (U1 & U2 & U3). rewrite U1, u16_ahead by (done || by eapply fin_bound).
  by rewrite Nat2Z.id.
Qed.

(** ** Callers *)

Lemma vinv_called s G pend fin p b write n dat bf :
  vinv s G pend fin → procs s !! p = Some PIdle → (∀ q x, procs s !! q = Some x → uses x ≠ Some b) → bufs (drv s) !! b = Some bf →
  vinv (mkSys (set_bufs (<[b := mkVbuf (bdisk bf) n dat]> (bufs (drv s))) (drv s)) (dev s) (<[p := PStart b write]> (procs s))) G pend fin.
Proof.
  intros [V1 V2 V3 V4 V5 V6 V7 V8 V9 V10 V11 V12] Hp Hu Hb. pose proof (lookup_lt_Some _ _ _ Hb) as Hblt. pose proof (lookup_lt_Some _ _ _ Hp) as Hlt.
  assert (∀ q x, <[p := PStart b write]> (procs s) !! q = Some x → (q = p ∧ x = PStart b write) ∨ (q ≠ p ∧ procs s !! q = Some x ∧ uses x ≠ Some b)) as Hpr.
  { intros q x [(<- & <- & _)|[Hne Hx]]%list_lookup_insert_Some; [by left|right]. split_and!; [done|done|by eapply Hu]. }
  split; cbn [drv dev procs set_bufs desc free info ops bufs avail_idx avail_ring used_dev_idx used_ring used_idx]; try done.
  - by destruct V1; split.
  - intros q c w i [[_ [=]]|(Hne & Hq & Hc0)]%Hpr. destruct (V2 q c w i Hq) as (u & Hgu & Ei & Hc). exists u. split_and!; [done|done|].
    apply (chain_frame (drv s)); try done. cbn. rewrite list_lookup_insert_ne; [done|]. intros <-. done.
  - intros q u Hq. destruct (V3 q u Hq) as (c & w & Hqq). exists c, w. rewrite list_lookup_insert_ne; [done|]. intros <-. congruence.
  - intros q r x y c [[-> ->]|(Hne & Hq & Hx0)]%Hpr [[-> ->]|(Hne' & Hr & Hy0)]%Hpr Hx Hy; [done|cbn in Hx; congruence|cbn in Hy; congruence|by eapply V6].
  - intros q x c [[-> ->]|(Hne & Hq & Hx0)]%Hpr Hx; apply lookup_lt_is_Some; rewrite length_insert; [cbn in Hx; congruence|].
    apply lookup_lt_is_Some. by eapply V7.
  - intros h. rewrite V9. split; intros (q & c & w & bf' & Hq & Hc & Hd).
    + exists q, c, w, bf'. pose proof (Hu _ _ Hq) as Hcb. cbn in Hcb. rewrite !list_lookup_insert_ne; [done|congruence|intros <-; congruence].
    + apply Hpr in Hq as [[_ [=]]|(Hne & Hq & Hcb)]. cbn in Hcb. rewrite list_lookup_insert_ne in Hc by congruence. by exists q, c, w, bf'.
  - intros q c w i inf [[_ [=]]|(Hne & Hq & _)]%Hpr. by apply V10 with q c w.
Qed.

(** The specification: requests are carried out one at a time. *)
Definition auses (x : astate) : option nat := match x with AIdle => None | AReq b _ | ADone b _ => Some b end.
Inductive astep (a : asys) : asys → Prop :=
  | as_call p b write n dat :
    a_procs a !! p = Some AIdle → (∀ q x, a_procs a !! q = Some x → auses x ≠ Some b) → (b < length (a_bufs a))%nat →
    astep a (mkAsys (<[b := (n, dat)]> (a_bufs a)) (a_medium a) (<[p := AReq b write]> (a_procs a)))
  | as_write p b n dat :
    a_procs a !! p = Some (AReq b true) → a_bufs a !! b = Some (n, dat) →
    astep a (mkAsys (a_bufs a) (dwrite (a_medium a) (u32 (n * 2)) dat) (<[p := ADone b true]> (a_procs a)))
  | as_read p b n dat :
    a_procs a !! p = Some (AReq b false) → a_bufs a !! b = Some (n, dat) →
    astep a (mkAsys (<[b := (n, dread (a_medium a) (u32 (n * 2)))]> (a_bufs a)) (a_medium a) (<[p := ADone b false]> (a_procs a)))
  | as_return p b write :
    a_procs a !! p = Some (ADone b write) → astep a (mkAsys (a_bufs a) (a_medium a) (<[p := AIdle]> (a_procs a))).

Lemma uses_abs d x : auses (abs_state d x) = uses x.
Proof. destruct x as [| |b w i]; [done|done|]. cbn. by case_decide. Qed.

Lemma vstep_spec s s1 G pend fin :
  vinv s G pend fin → vstep dread dwrite s s1 →
  (∃ G1 pend1 fin1, vinv s1 G1 pend1 fin1) ∧ (abs s1 = abs s ∨ astep (abs s) (abs s1)).
Proof.
  intros Hv [p b write n dat bf Hp Hu Hb|p b write r d Hp E|p b write i r d Hp E|pending d E|d v E|k d v E].
  - split; [by eexists _, _, _; eapply vinv_called|right]. assert (abs (mkSys (set_bufs (<[b := mkVbuf (bdisk bf) n dat]> (bufs (drv s))) (drv s)) (dev s)
      (<[p := PStart b write]> (procs s))) = mkAsys (<[b := (n, dat)]> (a_bufs (abs s))) (a_medium (abs s)) (<[p := AReq b write]> (a_procs (abs s)))) as ->.
    { unfold abs. cbn [drv dev procs set_bufs bufs a_bufs a_medium a_procs]. f_equal; by rewrite list_fmap_insert. }
    apply as_call.
    + cbn. by rewrite list_lookup_fmap, Hp.
    + intros q x. cbn. rewrite list_lookup_fmap. intros (y & Hy & ->)%fmap_Some. rewrite uses_abs. by eapply Hu.
    + cbn. rewrite length_fmap. by eapply lookup_lt_Some.
  - destruct (start_spec s G pend fin p b write Hv Hp) as (r' & d' & E' & (G1 & pend1 & Hv1) & Ha & _). rewrite E in E'. injection E' as <- <-.
    split; [by exists G1, pend1, fin|by left].
  - destruct (wait_spec s G pend fin p b write i Hv Hp) as (r' & d' & E' & (G1 & Hv1) & _ & Ha). rewrite E in E'. injection E' as <- <-.
    split; [by exists G1, pend, fin|]. destruct r; [right|by left]. destruct Ha as [Hd ->]. by apply as_return with b write.
  - destruct (intr_spec s G pend fin pending Hv) as (d' & E' & Hv1 & Ha). rewrite E in E'. injection E' as <-. split; [by exists G, pend, []|by left].
  - destruct (take_spec s G pend fin d v Hv E) as (pend1 & Hv1 & Ha). split; [by exists G, pend1, fin|by left].
  - assert (k < length (work (dev s)))%nat as Hk.
    { apply lookup_lt_is_Some. unfold serve in E. destruct (work (dev s) !! k); [by eexists|done]. }
    destruct (serve_spec s G pend fin k Hv Hk) as (p & b & write & bf & d' & v' & E' & Hreq & Hb & (fin1 & Hv1) & Ha). rewrite E in E'. injection E' as <- <-.
    split; [by exists G, pend, fin1|right]. rewrite Ha. assert (a_bufs (abs s) !! b = Some (blockno bf, data bf)) as Hab by (cbn; by rewrite list_lookup_fmap, Hb).
    destruct write; [by eapply as_write|by eapply as_read].
Qed.

(** ** Start-up *)

Lemma init_state reg pages bs d :
  virtio_disk_init reg pages (disk_zero bs) = Some ((), d) →
  ∃ rs, d = mkVdisk (replicate 8 no_desc) 0 (replicate 8 0) 0 (replicate 8 0) (replicate 8 true) 0
    (replicate 8 (mkInfo None 0)) (replicate 8 (mkReq 0 0 0)) bs [] rs.
Proof.
  set (D := λ ds av us fr rs, mkVdisk ds 0 av 0 us fr 0 (replicate 8 (mkInfo None 0)) (replicate 8 (mkReq 0 0 0)) bs [] rs).
  change (disk_zero bs) with (D [] [] [] (replicate 8 false) []). unfold virtio_disk_init. generalize (@nil (Z * Z)) as rs0. intros rs0.
  repeat match goal with
  | |- context [(read_reg reg ?r ≫= ?k) (D ?ds ?av ?us ?fr ?rs)] =>
    rewrite (bind_eq (read_reg reg r) k (D ds av us fr rs) (reg rs r) (D ds av us fr rs)) by reflexivity; generalize (reg rs r); intros ?
  | |- context [(write_reg ?r ?v ≫= ?k) (D ?ds ?av ?us ?fr ?rs)] =>
    rewrite (bind_eq (write_reg r v) k (D ds av us fr rs) () (D ds av us fr (rs ++ [(r, v)]))) by reflexivity; generalize (rs ++ [(r, v)]); intros ?
  | |- context [(modify (set_desc ?x) ≫= ?k) (D ?ds ?av ?us ?fr ?rs)] =>
    rewrite (bind_eq (modify (set_desc x)) k (D ds av us fr rs) () (D x av us fr rs)) by reflexivity
  | |- context [(modify (set_avail 0 ?x) ≫= ?k) (D ?ds ?av ?us ?fr ?rs)] =>
    rewrite (bind_eq (modify (set_avail 0 x)) k (D ds av us fr rs) () (D ds x us fr rs)) by reflexivity
  | |- context [(modify (set_used 0 ?x) ≫= ?k) (D ?ds ?av ?us ?fr ?rs)] =>
    rewrite (bind_eq (modify (set_used 0 x)) k (D ds av us fr rs) () (D ds av x fr rs)) by reflexivity
  | |- context [(modify (set_free ?x) ≫= ?k) (D ?ds ?av ?us ?fr ?rs)] =>
    rewrite (bind_eq (modify (set_free x)) k (D ds av us fr rs) () (D ds av us x rs)) by reflexivity
  | |- context [if ?c then stuck else _] => destruct c; [discriminate|]
  | |- context [match pages with _ => _ end] => destruct pages as [[[pd pa] pu]|]; [|discriminate]
  end.
  intros [= <-]. by eexists.
Qed.

Lemma init_vinv d m n bs rs :
  d = mkVdisk (replicate 8 no_desc) 0 (replicate 8 0) 0 (replicate 8 0) (replicate 8 true) 0
    (replicate 8 (mkInfo None 0)) (replicate 8 (mkReq 0 0 0)) bs [] rs →
  vinv (mkSys d (mkDev 0 [] m) (replicate n PIdle)) ∅ [] [].
Proof.
  intros ->. assert (∀ p x, replicate n PIdle !! p = Some x → x = PIdle) as Hidle by (by intros p x [-> _]%lookup_replicate).
  split; cbn [drv dev procs bufs info free avail_idx avail_ring used_idx used_dev_idx used_ring pos work]; try done.
  - by intros p b write i Hp%Hidle.
  - intros k Hk. split; [|by intros (p & t & ? & _)]. by intros [? _]%lookup_replicate.
  - by intros p q x y b ->%Hidle.
  - by intros p x b ->%Hidle.
  - apply NoDup_nil_2.
  - intros h. split; [by intros ?%elem_of_nil|]. by intros (p & b & write & bf & Hp%Hidle & _).
  - by intros p b write i inf Hp%Hidle.
Qed.

Lemma reachable_vinv s0 s G pend fin :
  rtc (vstep dread dwrite) s0 s → vinv s0 G pend fin → ∃ G1 pend1 fin1, vinv s G1 pend1 fin1.
Proof.
  intros Hr. revert G pend fin. induction Hr as [s|s s1 s2 Hst _ IH]; intros G pend fin Hv; [by eexists _, _, _|].
  destruct (vstep_spec _ _ _ _ _ Hv Hst) as [(G1 & pend1 & fin1 & Hv1) _]. by eapply IH.
Qed.

(** A request is never lost: the device has it or can take it, or after an
    interrupt its process finds it done. *)
Lemma request_advances s G pend fin p b write i pending :
  vinv s G pend fin → procs s !! p = Some (PWait b write i) →
  i ∈ work (dev s) ∨ is_Some (take_entry (drv s, dev s)) ∨
  ∃ d1 d2, virtio_disk_intr pending (drv s) = Some ((), d1) ∧ rw_wait_pass b i d1 = Some (true, d2).
Proof.
  intros Hv Hp. destruct (decide (i ∈ work (dev s))) as [|Hnw]; [by left|right]. destruct (intr_spec s G pend fin pending Hv) as (d1 & E1 & Hv1 & _).
  destruct (wait_spec _ G pend [] p b write i Hv1 Hp) as (r & d2 & E2 & _ & Hw & _). cbn [drv dev] in *.
  destruct r; [right; by exists d1, d2|left]. specialize (Hw eq_refl). assert (i ∈ pend) as Hin by set_solver.
  pose proof (vi_avail _ _ _ _ Hv) as (V1 & V2 & V3). unfold take_entry. destruct pend as [|h pend]; [by apply elem_of_nil in Hin|].
  assert (length (h :: pend) ≤ 8)%nat as Hl.
  { apply nodup_bound; [pose proof (vi_nodup _ _ _ _ Hv) as (? & _)%NoDup_app; done|]. intros x Hx. eapply (heads_range s); [done|set_solver]. }
  rewrite (proj2 (Z.eqb_neq _ _)).
  - change NUM with 8. rewrite (in_ring_head _ _ _ _ V3). by eexists.
  - intros E. pose proof (u16_ahead (pos (dev s)) _ V2 Hl) as Ha. rewrite <-V1, <-E, Z.sub_diag in Ha. change (u16 0) with 0 in Ha. cbn in Ha. lia.
Qed.

(** C17: in every state that processes, interrupts and the device can bring about after
    [virtio_disk_init], no pass of the driver panics and the device finds every chain
    well formed. Every step is a step of the specification, in which a request
    reads or writes the block of its buffer once, between call and return, or
    is invisible. A process waits for descriptors only when two others
    have requests under way, and no request is lost. (The device acts between
    the passes of the driver; the stores of one pass, which the fences order, are one step.) *)
Theorem virtio_serves_requests reg pages bs m n d s :
  virtio_disk_init reg pages (disk_zero bs) = Some ((), d) →
  rtc (vstep dread dwrite) (mkSys d (mkDev 0 [] m) (replicate n PIdle)) s →
  (∀ p b write, procs s !! p = Some (PStart b write) → ∃ r d1, rw_start_pass b write (drv s) = Some (r, d1) ∧
     (r = None → ∃ q q' c c' w w' i j, q ≠ q' ∧ procs s !! q = Some (PWait c w i) ∧ procs s !! q' = Some (PWait c' w' j))) ∧
  (∀ p b write i, procs s !! p = Some (PWait b write i) → is_Some (rw_wait_pass b i (drv s)) ∧ ∀ pending,
     i ∈ work (dev s) ∨ is_Some (take_entry (drv s, dev s)) ∨
     ∃ d1 d2, virtio_disk_intr pending (drv s) = Some ((), d1) ∧ rw_wait_pass b i d1 = Some (true, d2)) ∧
  (∀ pending, is_Some (virtio_disk_intr pending (drv s))) ∧
  (∀ k, (k < length (work (dev s)))%nat → is_Some (serve dread dwrite k (drv s, dev s))) ∧
  ∀ s1, vstep dread dwrite s s1 → abs s1 = abs s ∨ astep (abs s) (abs s1).
Proof.
  intros (rs & Hd)%init_state Hr. destruct (reachable_vinv _ _ _ _ _ Hr (init_vinv d m n bs rs Hd)) as (G & pend & fin & Hv). split_and!.
  - intros p b write Hp. destruct (start_spec s G pend fin p b write Hv Hp) as (r & d1 & E & _ & _ & Hw). by exists r, d1.
  - intros p b write i Hp. split; [|intros pending; by eapply request_advances].
    destruct (wait_spec s G pend fin p b write i Hv Hp) as (r & d1 & E & _). by eexists.
  - intros pending. destruct (intr_spec s G pend fin pending Hv) as (d1 & E & _). by eexists.
  - intros k Hk. destruct (serve_spec s G pend fin k Hv Hk) as (p & b & write & bf & d1 & v & E & _). by eexists.
  - intros s1 Hst. by destruct (vstep_spec s s1 G pend fin Hv Hst).
Qed.
End inv.

(** ** A request from start to end *)

(** Registers of a disk. *)
Definition demo_reg (_ : list (Z * Z)) (r : Z) : Z :=
  if r =? 0 then 0x74726976 else if r =? 4 then 2 else if r =? 8 then 2 else if r =? 12 then 0x554d4551
  else if r =? 0x70 then 8 else if r =? 0x34 then 1024 else 0.
Definition demo_buf : vbuf := mkVbuf 0 3 [].
Definition demo_pages : option (Z * Z * Z) := Some (0x87fff000, 0x87ffe000, 0x87ffd000).
(** Sector [n] of the medium holds [n]. *)
Definition demo_read (_ : unit) (n : Z) : list Z := [n].

Example read_request_run :
  (_ ← virtio_disk_init demo_reg demo_pages; r ← rw_start_pass 0 false; mret r) (disk_zero [demo_buf]) ≫= (λ x,
    take_entry (x.2, mkDev 0 [] ()) ≫= λ y, serve demo_read (λ _ _ _, ()) 0 y ≫= λ z,
    (virtio_disk_intr 1;; rw_wait_pass 0 0) z.1 ≫= λ u, Some (x.1, u.1, bufs u.2, forallb id (free u.2), woken u.2)) =
  Some (Some 0, true, [mkVbuf 0 3 [6]], true, [ChBuf 0; ChFree; ChFree; ChFree]).
Proof. by vm_compute. Qed.

Definition demo_call (d : vdisk) : sys (S := unit) :=
  mkSys (set_bufs (<[0%nat := mkVbuf (bdisk demo_buf) 3 []]> (bufs d)) d) (mkDev 0 [] ()) (<[0%nat := PStart 0 false]> [PIdle; PIdle]).

Lemma demo_init : ∃ d, virtio_disk_init demo_reg demo_pages (disk_zero [demo_buf]) = Some ((), d) ∧ bufs d !! 0%nat = Some demo_buf.
Proof.
  assert (match virtio_disk_init demo_reg demo_pages (disk_zero [demo_buf]) with Some _ => true | None => false end = true) as Hs by by vm_compute.
  destruct (virtio_disk_init demo_reg demo_pages (disk_zero [demo_buf])) as [[[] d]|] eqn:E; [|done].
  exists d. split; [done|]. by destruct (init_state _ _ _ _ E) as (rs & ->).
Qed.

Lemma virtio_serves_requests_witness :
  ∃ d, virtio_disk_init demo_reg demo_pages (disk_zero [demo_buf]) = Some ((), d) ∧
    rtc (vstep demo_read (λ _ _ _, ())) (mkSys d (mkDev 0 [] ()) [PIdle; PIdle]) (demo_call d) ∧
    ∃ r d1, rw_start_pass 0 false (drv (demo_call d)) = Some (r, d1) ∧ r ≠ None.
Proof.
  destruct demo_init as (d & Hi & Hb). exists d.
  assert (rtc (vstep demo_read (λ _ _ _, ())) (mkSys d (mkDev 0 [] ()) [PIdle; PIdle]) (demo_call d)) as Hr.
  { apply rtc_once, (st_call demo_read (λ _ _ _, ()) (mkSys d (mkDev 0 [] ()) [PIdle; PIdle]) 0 0 false 3 [] demo_buf); [reflexivity| |exact Hb].
    intros [|[|q]] x [= <-]; discriminate. }
  split; [exact Hi|]. split; [exact Hr|].
  destruct (virtio_serves_requests demo_read (λ _ _ _, ()) demo_reg demo_pages [demo_buf] () 2 d (demo_call d) Hi Hr) as (H & _).
  destruct (H 0%nat 0%nat false eq_refl) as (r & d1 & E & Hw). exists r, d1. split; [exact E|]. intros ->.
  destruct (Hw eq_refl) as (q & q' & c & c' & w & w' & i & j & _ & Hq & _). by destruct q as [|[|]].
Defined.
