(* ===== verification/Sleeplock.v ===== *)
(** Sleep locks of the kernel: [xv6/kernel/sleeplock.c].

    The fields of a sleep lock are only used under its spinlock, so the model
    has a definition for what a process does from taking the spinlock until it
    sleeps or returns: a pass, as in [Pipe]. A process that was woken makes
    another pass. The process table is known through [SleepChan]. *)
From S2P Require Import Prelude Proc ProcSync Pipe.

Record sleeplock := mkSleeplock { sl_locked : bool; sl_pid : Z }.
Definition initsleeplock : sleeplock := mkSleeplock false 0.

Record sworld (S : Type) := mkSworld { s_table : S; s_lock : sleeplock }.
Arguments mkSworld {S}.
Arguments s_table {S}.
Arguments s_lock {S}.

Section code.
Context {S : Type} `{SleepChan S} (lk : channel).
Abbreviation sm := (M (sworld S)).

Definition on_table {A} (m : M S A) : sm A := λ w,
  match m (s_table w) with Some (a, s) => Some (a, mkSworld s (s_lock w)) | None => None end.
Definition set_lock (l : sleeplock) : sm unit := modify (λ w, mkSworld (s_table w) l).

(** A pass of [acquiresleep] by process [t]: whether it has the lock now. *)
Definition acquiresleep_pass (t : nat) (pid : Z) : sm bool :=
  l ← gets s_lock;
  if sl_locked l then on_table (chan_prepare t lk);; mret false
  else set_lock (mkSleeplock true pid);; mret true.
Definition releasesleep : sm unit :=
  set_lock (mkSleeplock false 0);;
  on_table (chan_wakeup lk).
Definition holdingsleep (pid : Z) : sm bool :=
  l ← gets s_lock;
  mret (sl_locked l && (sl_pid l =? pid)).
End code.

(** ** Runs *)

Section runs.
Context {S : Type} `{SleepChan S} (lk : channel) (pid : nat → Z) (Hpid : ∀ t u, pid t = pid u → t = u).
Implicit Types (w : sworld S).

(** A step: a pass of a process that got the lock or fell asleep, the release
    by the process that has it, or a change of the process table by others, in
    which no process begins to wait for the lock. *)
Inductive label := LGot (t : nat) | LSleep (t : nat) | LRelease (t : nat) | LOther.
Inductive sstep : sworld S → label → sworld S → Prop :=
  | sstep_acquire w t b w' : chan_is_proc t → acquiresleep_pass lk t (pid t) w = Some (b, w') → sstep w (if b then LGot t else LSleep t) w'
  | sstep_release w t w1 w' : holdingsleep (pid t) w = Some (true, w1) → releasesleep lk w1 = Some ((), w') → sstep w (LRelease t) w'
  | sstep_other w s : chan_ok s → (∀ t, waiting s t lk → waiting (s_table w) t lk) → sstep w LOther (mkSworld s (s_lock w)).
Inductive srun : sworld S → list label → sworld S → Prop :=
  | srun_nil w : srun w [] w
  | srun_snoc w ls w1 l w2 : srun w ls w1 → sstep w1 l w2 → srun w (ls ++ [l]) w2.

(** Who has the lock, from what happened. *)
Definition holder (ls : list label) : option nat :=
  foldl (λ h l, match l with LGot t => Some t | LRelease _ => None | _ => h end) None ls.
(** Never got by a process while another one had it, and released by the one that had it. *)
Fixpoint alternates (h : option nat) (ls : list label) : Prop :=
  match ls with
  | [] => True
  | LGot t :: ls => h = None ∧ alternates (Some t) ls
  | LRelease t :: ls => h = Some t ∧ alternates None ls
  | _ :: ls => alternates h ls
  end.

Lemma alternates_snoc ls l : ∀ h,
  alternates h (ls ++ [l]) ↔ alternates h ls ∧ alternates (foldl (λ h l, match l with LGot t => Some t | LRelease _ => None | _ => h end) h ls) [l].
Proof. induction ls as [|[t|t|t|] ls IH]; intros h; cbn; [naive_solver|rewrite IH; cbn; naive_solver..]. Qed.

Lemma holder_snoc ls l : holder (ls ++ [l]) = match l with LGot t => Some t | LRelease _ => None | _ => holder ls end.
Proof. unfold holder. by rewrite foldl_app. Qed.

Definition lock_of (h : option nat) : sleeplock :=
  match h with Some t => mkSleeplock true (pid t) | None => initsleeplock end.
Record lock_inv w (ls : list label) : Prop := {
  li_chan : chan_ok (s_table w);
  li_alt : alternates None ls;
  li_lock : s_lock w = lock_of (holder ls);
  li_wait : ∀ t, waiting (s_table w) t lk → sl_locked (s_lock w) = true;
}.

Lemma holdingsleep_eq w h t : s_lock w = lock_of h → holdingsleep (pid t) w = Some (bool_decide (h = Some t), w).
Proof.
  intros E. unfold holdingsleep, gets, mbind, M_bind, mret, M_ret. rewrite E. destruct h as [u|]; cbn; [|done].
  do 2 f_equal. destruct (Z.eqb_spec (pid u) (pid t)) as [Hu%Hpid|Hne]; [by rewrite Hu, bool_decide_true|].
  rewrite bool_decide_false; [done|congruence].
Qed.

Lemma acquire_pass w ls t :
  lock_inv w ls → chan_is_proc t → ∃ b w2, acquiresleep_pass lk t (pid t) w = Some (b, w2) ∧
    lock_inv w2 (ls ++ [if b then LGot t else LSleep t]) ∧ (b = false → waiting (s_table w2) t lk).
Proof.
  intros [Hc Ha Hl Hw] Ht. unfold acquiresleep_pass, gets, mbind, M_bind, mret, M_ret.
  destruct (holder ls) as [u|] eqn:Eh; rewrite Hl; cbn [lock_of sl_locked initsleeplock].
  - destruct (chan_prepare_spec t lk (s_table w) Hc Ht) as (s' & E & Hc' & Hw'). unfold on_table. rewrite E.
    eexists false, _. split_and!; [done| |intros _; cbn; rewrite Hw'; by rewrite decide_True].
    split; cbn; [done|by apply alternates_snoc|by rewrite holder_snoc, Eh|by rewrite Hl].
  - eexists true, _. split_and!; [done| |done]. split; cbn; [done| |by rewrite holder_snoc|done].
    apply alternates_snoc. split; [done|]. cbn. by unfold holder in Eh; rewrite Eh.
Qed.

Lemma step_inv w ls l w' : lock_inv w ls → sstep w l w' → lock_inv w' (ls ++ [l]).
Proof.
  intros Hi Hs. destruct Hs as [w t b w' Ht E|w t w1 w' E1 E2|w s Hc Hs].
  - destruct (acquire_pass w ls t Hi Ht) as (b' & w2 & E' & Hi' & _). rewrite E' in E. by injection E as <- <-.
  - destruct Hi as [Hc Ha Hl Hw]. rewrite (holdingsleep_eq _ _ _ Hl) in E1. injection E1 as Hh%bool_decide_eq_true <-.
    unfold releasesleep, mbind, M_bind, set_lock, modify, on_table in E2. cbn [s_table s_lock] in E2.
    destruct (chan_wakeup_spec lk (s_table w) Hc) as (s' & E & Hc' & Hw'). rewrite E in E2. injection E2 as <-.
    split; cbn; [done| |by rewrite holder_snoc|by intros u [_ Hu]%Hw'].
    apply alternates_snoc. split; [done|]. cbn. by unfold holder in Hh.
  - destruct Hi as [Hc' Ha Hl Hw]. split; cbn; [done|by apply alternates_snoc|by rewrite holder_snoc|]. intros t ?%Hs. by eapply Hw.
Qed.

Lemma run_inv w ls w' : lock_inv w [] → srun w ls w' → lock_inv w' ls.
Proof. intros Hi Hr. induction Hr as [|w ls w1 l w2 _ IH Hs]; [done|]. eapply step_inv; eauto. Qed.

(** C33: a sleep lock excludes and loses no wakeup. Processes acquire and
    release it, in any interleaving of their passes and with any other changes
    of the process table, from a state where it is free. Then it is got only
    when no process has it; [holdingsleep] tells which process has it; a
    process that finds it taken waits for it; and a process that waits has a
    reason to: the lock is taken. Releasing it wakes all that wait. *)
Theorem sleeplock_excludes w ls w' :
  chan_ok (s_table w) → s_lock w = initsleeplock → (∀ t, ¬ waiting (s_table w) t lk) → srun w ls w' →
  alternates None ls ∧ (∀ t, holdingsleep (pid t) w' = Some (bool_decide (holder ls = Some t), w')) ∧
  (∀ t, waiting (s_table w') t lk → sl_locked (s_lock w') = true) ∧
  ∀ t, chan_is_proc t → ∃ b w2, acquiresleep_pass lk t (pid t) w' = Some (b, w2) ∧ (b = false → waiting (s_table w2) t lk).
Proof.
  intros Hc Hl Hw Hr. assert (lock_inv w' ls) as Hi.
  { eapply run_inv; [|done]. split; [done|done|done|]. intros t Ht. by destruct (Hw t). }
  pose proof Hi as [_ Ha Hl' Hw']. split_and!; [done|intros t; by apply holdingsleep_eq|done|].
  intros t Ht. destruct (acquire_pass w' ls t Hi Ht) as (b & w2 & E & _ & Hb). by exists b, w2.
Qed.
End runs.

(** Process 1 gets the lock, process 2 waits for it and gets it when it is
    released. *)
Definition sleep_demo : sworld (kstate unit) :=
  mkSworld (mkKstate (replicate NPROC idle_proc) [] None 3 1 0 0 ()) initsleeplock.
Definition sleep_lk : channel := ChOther 0x88000000.
Definition after {A} (m : M (sworld (kstate unit)) A) (w : sworld (kstate unit)) : sworld (kstate unit) := default w (snd <$> m w).
Definition sleep_w1 : sworld (kstate unit) := after (acquiresleep_pass sleep_lk 1 1) sleep_demo.
Definition sleep_w2 : sworld (kstate unit) := after (acquiresleep_pass sleep_lk 2 2) sleep_w1.
Definition sleep_w3 : sworld (kstate unit) := after (releasesleep sleep_lk) sleep_w2.
Definition sleep_w4 : sworld (kstate unit) := after (acquiresleep_pass sleep_lk 2 2) sleep_w3.

Lemma sleep_demo_run :
  srun sleep_lk Z.of_nat sleep_demo [LGot 1; LSleep 2; LRelease 1; LGot 2] sleep_w4.
Proof.
  assert (∀ t, (t < 64)%nat → chan_is_proc (S := kstate unit) t) as Hpr by done.
  change [LGot 1; LSleep 2; LRelease 1; LGot 2] with (((([] ++ [LGot 1]) ++ [LSleep 2]) ++ [LRelease 1]) ++ [LGot 2]).
  eapply (srun_snoc _ _ _ _ sleep_w3); [eapply (srun_snoc _ _ _ _ sleep_w2); [eapply (srun_snoc _ _ _ _ sleep_w1); [eapply srun_snoc; [constructor|]|]|]|].
  - apply (sstep_acquire _ Z.of_nat _ 1 true); [apply Hpr; lia|by vm_compute].
  - apply (sstep_acquire _ Z.of_nat _ 2 false); [apply Hpr; lia|by vm_compute].
  - apply (sstep_release _ _ _ _ sleep_w2); by vm_compute.
  - apply (sstep_acquire _ Z.of_nat _ 2 true); [apply Hpr; lia|by vm_compute].
Qed.

Lemma sleeplock_excludes_witness : holdingsleep (Z.of_nat 2) sleep_w4 = Some (true, sleep_w4).
Proof.
  destruct (sleeplock_excludes sleep_lk Z.of_nat Nat2Z.inj sleep_demo [LGot 1; LSleep 2; LRelease 1; LGot 2] sleep_w4)
    as (_ & H & _); [done|done| |exact sleep_demo_run|apply (H 2%nat)].
  intros t (p & Hp & Hc). apply lookup_replicate in Hp as [-> _]. done.
Defined.
