(* ===== verification/Umalloc.v ===== *)
(** The memory allocator of user programs, [xv6/user/umalloc.c].

    The free blocks form a circular list in the order of their addresses, with
    [base], which has size 0, as the first. A block starts with a header of 16
    bytes and its size counts units of that; pointers are addresses in bytes.
    The memory is modelled as far as it holds headers; [None] is an access to a
    header that was never written. *)
From S2P Require Import Prelude.

Definition HEADER : Z := 16.
Record hdr := Hdr { s_ptr : Z; s_size : Z }.
Record ustate := mkUstate { hmem : gmap Z hdr; freep : Z; brk : Z }.

Section code.
(** The address of [base]; whether the system grows the process by [n] bytes. *)
Context (base : Z) (sbrk_ok : Z → Z → bool).
Abbreviation um := (M ustate).

Definition header (a : Z) : um hdr := λ s, match hmem s !! a with Some h => Some (h, s) | None => None end.
Definition store (a : Z) (h : hdr) : um unit := modify (λ s, mkUstate (<[a := h]> (hmem s)) (freep s) (brk s)).
Definition set_freep (p : Z) : um unit := modify (λ s, mkUstate (hmem s) p (brk s)).

(** The loop of [free]: the block after which [bp] is put. *)
Fixpoint free_loop (fuel : nat) (bp p : Z) : um Z :=
  match fuel with
  | O => stuck
  | S fuel =>
    h ← header p;
    if (p <? bp) && (bp <? s_ptr h) then mret p
    else if (s_ptr h <=? p) && ((p <? bp) || (bp <? s_ptr h)) then mret p
    else free_loop fuel bp (s_ptr h)
  end.

Definition free (ap : Z) : um unit :=
  let bp := ap - HEADER in
  s ← gets id;
  p ← free_loop (S (2 * size (hmem s))) bp (freep s);
  hb ← header bp;
  hp ← header p;
  (if bp + HEADER * s_size hb =? s_ptr hp then
     hn ← header (s_ptr hp);
     store bp (Hdr (s_ptr hn) (u32 (s_size hb + s_size hn)))
   else store bp (Hdr (s_ptr hp) (s_size hb)));;
  hb ← header bp;
  hp ← header p;
  (if p + HEADER * s_size hp =? bp then store p (Hdr (s_ptr hb) (u32 (s_size hp + s_size hb)))
   else store p (Hdr bp (s_size hp)));;
  set_freep p.

(** [sbrk], whose argument is an [int]: the kernel also takes memory back, unless the size would be negative. *)
Definition sbrk (n : Z) : um Z := λ s,
  if n <? 0 then Some (brk s, mkUstate (hmem s) (freep s) (if brk s + n <? 0 then brk s else brk s + n))
  else if sbrk_ok (brk s) n then Some (brk s, mkUstate (hmem s) (freep s) (brk s + n)) else Some (-1, s).

Definition morecore (nu : Z) : um Z :=
  let nu := if nu <? 4096 then 4096 else nu in
  p ← sbrk (int32 (nu * HEADER));
  if p =? -1 then mret 0
  else
    s ← gets id;
    store p (Hdr (default 0 (s_ptr <$> hmem s !! p)) nu);;
    free (p + HEADER);;
    gets freep.

Fixpoint malloc_loop (fuel : nat) (nunits prevp p : Z) : um Z :=
  match fuel with
  | O => stuck
  | S fuel =>
    h ← header p;
    if nunits <=? s_size h then
      if s_size h =? nunits then
        hv ← header prevp;
        store prevp (Hdr (s_ptr h) (s_size hv));;
        set_freep prevp;;
        mret (p + HEADER)
      else
        store p (Hdr (s_ptr h) (s_size h - nunits));;
        let p := p + HEADER * (s_size h - nunits) in
        s ← gets id;
        store p (Hdr (default 0 (s_ptr <$> hmem s !! p)) nunits);;
        set_freep prevp;;
        mret (p + HEADER)
    else
      fp ← gets freep;
      if p =? fp then
        p ← morecore nunits;
        if p =? 0 then mret 0
        else h ← header p; malloc_loop fuel nunits p (s_ptr h)
      else malloc_loop fuel nunits p (s_ptr h)
  end.

Definition units (nbytes : Z) : Z := (nbytes + HEADER - 1) / HEADER + 1.
Definition malloc (nbytes : Z) : um Z :=
  let nunits := u32 (units nbytes) in
  s ← gets id;
  when (freep s =? 0) (store base (Hdr base 0);; set_freep base);;
  s ← gets id;
  h ← header (freep s);
  malloc_loop (2 * size (hmem s) + 4) nunits (freep s) (s_ptr h).
End code.

(** The free list of the user allocator and the invariant of its heap. *)

Abbreviation block := (Z * Z)%type.
Implicit Types (m : gmap Z hdr) (l N L : list block) (A : gmap Z Z).

(** ** Linked lists *)

(** The list [l] of blocks starts at [a] and its last pointer is [z]. *)
Fixpoint lseg m (a : Z) l (z : Z) : Prop :=
  match l with
  | [] => a = z
  | b :: l => a = b.1 ∧ ∃ nx, m !! b.1 = Some (Hdr nx b.2) ∧ lseg m nx l z
  end.

Lemma lseg_app m a l1 l2 z : lseg m a (l1 ++ l2) z ↔ ∃ x, lseg m a l1 x ∧ lseg m x l2 z.
Proof.
  revert a; induction l1 as [|b l1 IH]; intros a; cbn [app lseg]; [naive_solver|]. split.
  - intros (-> & nx & Hm & (x & H1 & H2)%IH). exists x. naive_solver.
  - intros (x & (-> & nx & Hm & H1) & H2). split; [done|]. exists nx. split; [done|]. apply IH. by exists x.
Qed.
Lemma lseg_insert m a l z i h : i ∉ l.*1 → lseg m a l z → lseg (<[i := h]> m) a l z.
Proof.
  revert a; induction l as [|b l IH]; intros a Hi; cbn [lseg fmap list_fmap] in *; [done|]. apply not_elem_of_cons in Hi as [H1 H2].
  intros (-> & nx & Hm & Hl). split; [done|]. exists nx. rewrite lookup_insert_ne by congruence. auto.
Qed.
Lemma lseg_lookup m a l z b : lseg m a l z → b ∈ l → ∃ nx, m !! b.1 = Some (Hdr nx b.2).
Proof.
  revert a; induction l as [|c l IH]; intros a; cbn [lseg]; [by intros _ ?%elem_of_nil|].
  intros (_ & nx & Hm & Hl) [->|Hb]%elem_of_cons; [by exists nx|by eapply IH].
Qed.
Lemma lseg_size m a l z : lseg m a l z → NoDup l.*1 → (length l ≤ size m)%nat.
Proof.
  intros Hl Hnd. rewrite <-(length_fmap fst l), <-size_dom. rewrite <-(size_list_to_set (C := gset Z) _ Hnd).
  apply subseteq_size. intros x Hx. apply elem_of_list_to_set, list_elem_of_fmap in Hx as (b & -> & Hb).
  destruct (lseg_lookup _ _ _ _ _ Hl Hb) as [nx E]. by apply elem_of_dom_2 in E.
Qed.
Lemma lseg_nth m a l z i c :
  lseg m a l z → l !! i = Some c → m !! c.1 = Some (Hdr (match l !! S i with Some d => d.1 | None => z end) c.2).
Proof.
  revert a i; induction l as [|b l IH]; intros a i; [done|]. intros (_ & nx & Hm & Hl) Hi. destruct i as [|i].
  - injection Hi as <-. rewrite Hm. do 2 f_equal. destruct l as [|d l]; cbn in Hl |- *; [done|]. by destruct Hl.
  - by apply (IH nx i).
Qed.
(** In a list without repetitions one block points to a given block. *)
Lemma lseg_next m a l z v sv b sb :
  lseg m a l z → NoDup l.*1 → v ∈ l.*1 → m !! v = Some (Hdr b sv) → (b, sb) ∈ l → b ≠ z →
  ∃ l1 l2, l = l1 ++ (v, sv) :: (b, sb) :: l2.
Proof.
  intros Hl Hnd ([v' s'] & -> & Hv)%list_elem_of_fmap Hm Hb Hne. cbn [fst] in *.
  apply list_elem_of_lookup in Hv as [i Hi]. apply list_elem_of_lookup in Hb as [j Hj].
  pose proof (lseg_nth _ _ _ _ _ _ Hl Hi) as Hn. cbn [fst snd] in Hn. rewrite Hm in Hn.
  destruct (l !! S i) as [d|] eqn:Ed; [|congruence]. injection Hn as -> ->.
  assert (S i = j) as <-.
  { eapply (NoDup_lookup l.*1); [done| |]; rewrite list_lookup_fmap, ?Ed, ?Hj; done. }
  exists (take i l), (drop (S (S i)) l). rewrite <-(take_drop i l) at 1. f_equal.
  rewrite (drop_S _ _ _ Hi). f_equal. rewrite Ed in Hj. by rewrite (drop_S l (d.1, sb) (S i)) by congruence.
Qed.

(** ** Order *)

(** A block ends before the next one starts. *)
Definition before (x y : block) : Prop := x.1 + HEADER * x.2 < y.1.
Fixpoint ordered l : Prop :=
  match l with
  | x :: ((y :: _) as l') => before x y ∧ ordered l'
  | _ => True
  end.

Lemma ordered_cons x l : ordered (x :: l) ↔ match l with y :: _ => before x y | [] => True end ∧ ordered l.
Proof. destruct l; cbn; naive_solver. Qed.
Lemma ordered_split l1 x l2 : ordered (l1 ++ x :: l2) ↔ ordered (l1 ++ [x]) ∧ ordered (x :: l2).
Proof.
  induction l1 as [|y l1 IH]; cbn [app]; [cbn; tauto|]. rewrite !(ordered_cons y), IH.
  destruct l1; cbn [app]; tauto.
Qed.
Lemma ordered_last l1 x y : x.1 = y.1 → ordered (l1 ++ [x]) → ordered (l1 ++ [y]).
Proof.
  intros E. induction l1 as [|z l1 IH]; cbn [app]; [done|]. rewrite !(ordered_cons z). intros [H1 H2]. split; [|by apply IH].
  destruct l1; cbn [app] in *; [|done]. unfold before in *. by rewrite <-E.
Qed.
Lemma ordered_lt x l y : ordered (x :: l) → Forall (λ b, 0 ≤ b.2) (x :: l) → y ∈ l → before x y.
Proof.
  revert x; induction l as [|z l IH]; intros x Ho Hs Hy; [by apply elem_of_nil in Hy|].
  apply ordered_cons in Ho as [Hxz Ho]. inversion_clear Hs as [|? ? Hx Hs']. apply elem_of_cons in Hy as [->|Hy]; [done|].
  specialize (IH z Ho Hs' Hy). inversion_clear Hs'. unfold before, HEADER in *. lia.
Qed.
Lemma ordered_NoDup l : ordered l → Forall (λ b, 0 ≤ b.2) l → NoDup l.*1.
Proof.
  induction l as [|x l IH]; intros Ho Hs; [constructor|]. cbn [fmap list_fmap]. constructor.
  - intros (y & E & Hy)%list_elem_of_fmap. pose proof (ordered_lt _ _ _ Ho Hs Hy) as Hb. inversion_clear Hs. unfold before, HEADER in *. lia.
  - apply IH; [by apply ordered_cons in Ho as [_ ?]|by inversion Hs].
Qed.
(** The blocks below and above an address. *)
Lemma ordered_cut l (bp : Z) :
  ordered l → Forall (λ b, 0 ≤ b.2) l → bp ∉ l.*1 →
  ∃ lo hi, l = lo ++ hi ∧ Forall (λ b, b.1 < bp) lo ∧ Forall (λ b, bp < b.1) hi.
Proof.
  induction l as [|x l IH]; intros Ho Hs Hni; [by exists [], []|]. cbn [fmap list_fmap] in Hni. apply not_elem_of_cons in Hni as [Hx Hni].
  destruct (decide (x.1 < bp)) as [Hlt|Hge].
  - destruct IH as (lo & hi & -> & Hlo & Hhi); [by apply ordered_cons in Ho as [_ ?]|by inversion Hs|done|].
    exists (x :: lo), hi. split_and!; [done|by constructor|done].
  - exists [], (x :: l). split_and!; [done|constructor|]. constructor; [lia|]. apply Forall_forall. intros y Hy.
    pose proof (ordered_lt _ _ _ Ho Hs Hy) as Hb. inversion_clear Hs. unfold before, HEADER in *. lia.
Qed.

(** ** The heap *)

(** The bytes of a block, of the free blocks and of those in use. *)
Definition covers (b : block) (x : Z) : Prop := b.1 ≤ x < b.1 + HEADER * b.2.
Definition free_at L (x : Z) : Prop := ∃ b, b ∈ L ∧ covers b x.
Definition live_at A (x : Z) : Prop := ∃ a sz, A !! a = Some sz ∧ covers (a, sz) x.

Lemma free_at_cons b l x : free_at (b :: l) x ↔ covers b x ∨ free_at l x.
Proof. unfold free_at. split; [intros (c & [->|Hc]%elem_of_cons & H); naive_solver|]. intros [H|(c & Hc & H)]; [by exists b; set_solver|by exists c; set_solver]. Qed.
Lemma free_at_app l1 l2 x : free_at (l1 ++ l2) x ↔ free_at l1 x ∨ free_at l2 x.
Proof. unfold free_at. split; [intros (c & [Hc|Hc]%elem_of_app & H); naive_solver|]. intros [(c & Hc & H)|(c & Hc & H)]; exists c; set_solver. Qed.


Section inv.
Context (base : Z).

(** [L] are the free blocks, [A] those in use. *)
Record heap_inv (s : ustate) L A : Prop := {
  hi_base : 0 < base < brk s;
  hi_list : lseg (hmem s) base ((base, 0) :: L) base;
  hi_ord : ordered ((base, 0) :: L);
  hi_sz : Forall (λ b, 1 ≤ b.2) L;
  hi_freep : freep s ∈ base :: L.*1;
  hi_alloc : ∀ a sz, A !! a = Some sz → 1 ≤ sz ∧ base < a ∧ ∃ p, hmem s !! a = Some (Hdr p sz);
  hi_disj : ∀ x, free_at L x → ¬ live_at A x;
  hi_live : ∀ a1 z1 a2 z2 x, A !! a1 = Some z1 → A !! a2 = Some z2 → covers (a1, z1) x → covers (a2, z2) x → a1 = a2;
  hi_top : ∀ x, free_at L x ∨ live_at A x → x < brk s;
  hi_brk : brk s ≤ 2 ^ 36;
}.

Lemma heap_nonneg s L A : heap_inv s L A → Forall (λ b, 0 ≤ b.2) ((base, 0) :: L).
Proof. intros Hi. constructor; [done|]. eapply Forall_impl; [apply (hi_sz _ _ _ Hi)|]. cbn. lia. Qed.
Lemma heap_above s L A b : heap_inv s L A → b ∈ L → base < b.1 ∧ 1 ≤ b.2 ∧ b.1 + HEADER * b.2 ≤ brk s.
Proof.
  intros Hi Hb. pose proof (ordered_lt _ _ _ (hi_ord _ _ _ Hi) (heap_nonneg _ _ _ Hi) Hb) as H1.
  pose proof (hi_sz _ _ _ Hi) as Hs. rewrite Forall_forall in Hs. specialize (Hs b Hb).
  unfold before in H1. cbn in H1. split_and!; [lia|done|].
  pose proof (hi_top _ _ _ Hi (b.1 + HEADER * b.2 - 1)) as Ht. assert (b.1 + HEADER * b.2 - 1 < brk s); [|lia].
  apply Ht. left. exists b. split; [done|]. unfold covers, HEADER in *. lia.
Qed.
Lemma heap_alloc_top s L A a sz : heap_inv s L A → A !! a = Some sz → a + HEADER * sz ≤ brk s.
Proof.
  intros Hi Ha. destruct (hi_alloc _ _ _ Hi _ _ Ha) as (Hs & _). assert (a + HEADER * sz - 1 < brk s); [|lia].
  apply (hi_top _ _ _ Hi). right. exists a, sz. split; [done|]. unfold covers, HEADER. cbn. lia.
Qed.
(** A block in use and a free one do not overlap. *)
Lemma heap_apart s L A a sz b :
  heap_inv s L A → A !! a = Some sz → b ∈ L → b.1 + HEADER * b.2 ≤ a ∨ a + HEADER * sz ≤ b.1.
Proof.
  intros Hi Ha Hb. destruct (heap_above _ _ _ _ Hi Hb) as (_ & Hb2 & _). destruct (hi_alloc _ _ _ Hi _ _ Ha) as (Hs & _).
  destruct (decide (b.1 + HEADER * b.2 ≤ a)); [by left|]. destruct (decide (a + HEADER * sz ≤ b.1)); [by right|].
  destruct (hi_disj _ _ _ Hi (Z.max a b.1)).
  - exists b. split; [done|]. unfold covers, HEADER in *. lia.
  - exists a, sz. split; [done|]. unfold covers, HEADER in *. cbn. lia.
Qed.
End inv.
