(* ===== verification/UmallocFree.v ===== *)
(** [free] of [xv6/user/umalloc.c]: the block joins the free list, in order and
    merged with its neighbours. *)
From S2P Require Import Prelude Umalloc.

Section free.
Context (base : Z).
Implicit Types (l L : list block) (A : gmap Z Z) (s : ustate).

Lemma header_eq s a h : hmem s !! a = Some h → header a s = Some (h, s).
Proof. unfold header. by intros ->. Qed.
Lemma store_eq s a h : store a h s = Some ((), mkUstate (<[a := h]> (hmem s)) (freep s) (brk s)).
Proof. done. Qed.

(** ** The walk *)

Lemma hi_walk s l bp x fuel :
  lseg (hmem s) x l base → ordered l → Forall (λ b, 0 ≤ b.2) l → Forall (λ b, bp < b.1) l → base < bp →
  free_loop (length l + fuel) bp x s = free_loop fuel bp base s.
Proof.
  intros Hl Ho Hs Hb Hbase. revert x Hl. induction l as [|c l IH]; intros x Hl; [cbn in Hl; by subst|].
  destruct Hl as (-> & nx & Hm & Hl). cbn [length plus free_loop]. rewrite (bind_eq _ _ _ _ _ (header_eq _ _ _ Hm)). cbn [s_ptr].
  inversion_clear Hb as [|? ? Hc Hb']. inversion_clear Hs as [|? ? Hc2 Hs'].
  rewrite (proj2 (Z.ltb_ge c.1 bp)) by lia. cbn [andb orb].
  assert ((nx <=? c.1) && (bp <? nx) = false) as ->.
  { destruct l as [|d l]; cbn [lseg] in Hl; [subst nx; rewrite (proj2 (Z.ltb_ge bp base)) by lia; by rewrite andb_false_r|].
    destruct Hl as [-> _]. apply ordered_cons in Ho as [Hcd _]. unfold before, HEADER in Hcd. by rewrite (proj2 (Z.leb_gt d.1 c.1)) by lia. }
  apply IH; [by apply ordered_cons in Ho as [_ ?]|done|done|done].
Qed.

Lemma lo_walk s l p sp hi bp x fuel :
  lseg (hmem s) x (l ++ (p, sp) :: hi) base → ordered (l ++ (p, sp) :: hi) → Forall (λ b, 0 ≤ b.2) (l ++ (p, sp) :: hi) →
  Forall (λ b, b.1 < bp) l → p < bp → Forall (λ b, bp < b.1) hi → base ≤ p → (length l < fuel)%nat →
  free_loop fuel bp x s = Some (p, s).
Proof.
  intros Hl Ho Hs Hb Hp Hhi Hbase. revert x fuel Hl. induction l as [|c l IH]; intros x fuel Hl Hf; destruct fuel as [|fuel]; try (simpl in Hf; lia).
  - cbn [app lseg] in Hl. destruct Hl as (-> & nx & Hm & Hl). cbn [fst snd] in *. cbn [free_loop].
    rewrite (bind_eq _ _ _ _ _ (header_eq _ _ _ Hm)). cbn [s_ptr]. rewrite (proj2 (Z.ltb_lt p bp)) by lia. cbn [andb orb].
    destruct (bp <? nx) eqn:E; [done|]. rewrite (proj2 (Z.leb_le nx p)); [done|].
    destruct hi as [|d hi]; cbn [lseg] in Hl; [lia|]. destruct Hl as [-> _]. inversion_clear Hhi. lia.
  - cbn [app lseg] in Hl. destruct Hl as (-> & nx & Hm & Hl). cbn [free_loop]. rewrite (bind_eq _ _ _ _ _ (header_eq _ _ _ Hm)). cbn [s_ptr].
    cbn [app] in Ho, Hs. inversion_clear Hb as [|? ? Hc Hb']. inversion_clear Hs as [|? ? Hc2 Hs']. cbn [length] in Hf.
    assert (∃ d r, l ++ (p, sp) :: hi = d :: r ∧ nx = d.1 ∧ d.1 < bp) as (d & r & El & -> & Hd).
    { destruct l as [|d l]; cbn [app lseg] in Hl |- *; destruct Hl as [-> _]; [by exists (p, sp), hi|].
      exists d, (l ++ (p, sp) :: hi). inversion_clear Hb'. done. }
    rewrite El in Ho. apply ordered_cons in Ho as [Hcd Ho]. unfold before, HEADER in Hcd. rewrite <-El in Ho.
    rewrite (proj2 (Z.ltb_ge bp d.1)) by lia. rewrite (proj2 (Z.leb_gt d.1 c.1)) by lia. rewrite andb_false_r. cbn [andb].
    apply IH; [done|done|done|done|lia].
Qed.

(** The place of a block in the list. *)
Lemma free_loop_spec s L A bp sz :
  heap_inv base s L A → A !! bp = Some sz →
  ∃ lo p sp hi, (base, 0) :: L = lo ++ (p, sp) :: hi ∧ p < bp ∧ Forall (λ b, b.1 < bp) lo ∧ Forall (λ b, bp < b.1) hi ∧
    base ≤ p ∧ free_loop (S (2 * size (hmem s))) bp (freep s) s = Some (p, s).
Proof.
  intros Hi Ha. destruct (hi_alloc _ _ _ _ Hi _ _ Ha) as (Hsz & Hbp & _). set (N := (base, 0) :: L).
  pose proof (hi_ord _ _ _ _ Hi) as Ho. pose proof (heap_nonneg _ _ _ _ Hi) as Hs. pose proof (hi_list _ _ _ _ Hi) as Hl. fold N in Ho, Hs, Hl.
  assert (bp ∉ N.*1) as Hni.
  { cbn [N fmap list_fmap]. apply not_elem_of_cons. split; [cbn; lia|]. intros (b & E & Hb)%list_elem_of_fmap.
    pose proof (heap_apart _ _ _ _ _ _ _ Hi Ha Hb). destruct (heap_above _ _ _ _ _ Hi Hb) as (_ & ? & _). unfold HEADER in *. lia. }
  destruct (ordered_cut N bp Ho Hs Hni) as (lo0 & hi & E & Hlo & Hhi).
  destruct lo0 as [|[p sp] lo _] using rev_ind; [cbn in E; rewrite <-E in Hhi; inversion_clear Hhi; simpl in *; lia|].
  rewrite <-app_assoc in E. cbn [app] in E. apply Forall_app in Hlo as [Hlo Hp]. inversion_clear Hp as [|? ? Hp' _]. cbn [fst] in Hp'.
  assert (base ≤ p) as Hbase.
  { destruct lo as [|d lo]; cbn [app] in E; injection E as <- E'; [lia|]. assert ((p, sp) ∈ L) as Hin by (rewrite E'; set_solver).
    destruct (heap_above _ _ _ _ _ Hi Hin). cbn in *. lia. }
  exists lo, p, sp, hi. split_and!; try done.
  pose proof (lseg_size _ _ _ _ Hl (ordered_NoDup _ Ho Hs)) as Hsize. rewrite E, length_app in Hsize. cbn [length] in Hsize.
  pose proof (hi_freep _ _ _ _ Hi) as Hf. change (base :: L.*1) with N.*1 in Hf. apply list_elem_of_fmap in Hf as (f & Ef & Hf). rewrite E in Hf.
  assert (∀ fuel, (length lo < fuel)%nat → free_loop fuel bp base s = Some (p, s)) as Hfrom.
  { intros fuel Hfu. apply (lo_walk s lo p sp hi); try done; by rewrite <-E. }
  apply elem_of_app in Hf as [Hf|Hf]; [|apply elem_of_cons in Hf as [->|Hf]].
  - apply list_elem_of_split in Hf as (l1 & l2 & ->). rewrite <-app_assoc in E. cbn [app] in E. rewrite E in Hl, Ho, Hs. apply lseg_app in Hl as (y & _ & Hl).
    assert (y = f.1) as -> by (cbn [lseg] in Hl; by destruct Hl). rewrite Ef.
    apply ordered_split in Ho as [_ Ho]. apply Forall_app in Hs as [_ Hs]. apply Forall_app in Hlo as [_ Hlo]. rewrite length_app in Hsize. cbn [length] in Hsize.
    change (f :: l2 ++ (p, sp) :: hi) with ((f :: l2) ++ (p, sp) :: hi) in *. apply (lo_walk s (f :: l2) p sp hi); try done. simpl. lia.
  - rewrite E in Hl, Ho, Hs. apply lseg_app in Hl as (y & _ & Hl). assert (y = p) as -> by (cbn [lseg] in Hl; by destruct Hl). rewrite Ef.
    apply ordered_split in Ho as [_ Ho]. apply Forall_app in Hs as [_ Hs]. apply (lo_walk s [] p sp hi); try done. simpl. lia.
  - apply list_elem_of_split in Hf as (h1 & h2 & ->). rewrite length_app in Hsize. cbn [length] in Hsize.
    assert ((base, 0) :: L = (lo ++ (p, sp) :: h1) ++ f :: h2) as E2 by (rewrite <-app_assoc; exact E). fold N in E2. rewrite E2 in Hl, Ho, Hs.
    apply lseg_app in Hl as (y & _ & Hl). assert (y = f.1) as -> by (cbn [lseg] in Hl; by destruct Hl). rewrite Ef.
    apply ordered_split in Ho as [_ Ho]. apply Forall_app in Hs as [_ Hs]. apply Forall_app in Hhi as [_ Hhi].
    replace (S (2 * size (hmem s))) with (length (f :: h2) + (S (2 * size (hmem s)) - length (f :: h2)))%nat by (simpl; lia).
    rewrite hi_walk by done. apply Hfrom. simpl. lia.
Qed.

(** ** Joining the neighbours *)

(** The block above. *)
Lemma join_up s bp sz q p sp nx hi :
  hmem s !! bp = Some (Hdr q sz) → hmem s !! p = Some (Hdr nx sp) → lseg (hmem s) nx hi base → bp ∉ hi.*1 → base < bp → 0 < bp → 1 ≤ sz →
  ordered hi → Forall (λ b, 1 ≤ b.2) hi → Forall (λ b, bp + HEADER * sz ≤ b.1 ∧ b.1 + HEADER * b.2 ≤ 2 ^ 36) hi →
  ∃ nx' sz' hi', (if bp + HEADER * sz =? nx then
      hn ← header nx; store bp (Hdr (s_ptr hn) (u32 (sz + s_size hn)))
    else store bp (Hdr nx sz)) s = Some ((), mkUstate (<[bp := Hdr nx' sz']> (hmem s)) (freep s) (brk s)) ∧
    lseg (<[bp := Hdr nx' sz']> (hmem s)) bp ((bp, sz') :: hi') base ∧ ordered ((bp, sz') :: hi') ∧
    (∀ x, free_at ((bp, sz') :: hi') x ↔ covers (bp, sz) x ∨ free_at hi x) ∧ sz ≤ sz' ∧ (length hi' ≤ length hi)%nat ∧ hi' ⊆ hi.
Proof.
  intros Hb Hp Hl Hni Hbase Hpos Hsz Ho Hs1 Hhi. destruct (Z.eqb_spec (bp + HEADER * sz) nx) as [E|E].
  - destruct hi as [|[n sn] hi]; cbn [lseg] in Hl; [unfold HEADER in *; lia|]. destruct Hl as (En & nx2 & Hn & Hl). cbn [fst snd] in *.
    rewrite En in E |- *. rewrite (bind_eq _ _ _ _ _ (header_eq _ _ _ Hn)). cbn [s_ptr s_size].
    inversion_clear Hhi as [|? ? [_ Htop] Hhi']. inversion_clear Hs1 as [|? ? Hsn Hs1']. cbn [fst snd] in *.
    rewrite u32_id by (unfold HEADER in *; lia). exists nx2, (sz + sn), hi. split_and!; [done| | | |lia|simpl; lia|set_solver].
    + cbn [lseg fst snd]. split; [done|]. exists nx2. rewrite lookup_insert_eq. split; [done|]. apply lseg_insert; [|done].
      cbn [fmap list_fmap] in Hni. by apply not_elem_of_cons in Hni as [_ ?].
    + apply ordered_cons. apply ordered_cons in Ho as [Hh Ho]. split; [|done]. destruct hi; [done|]. unfold before, HEADER in *. cbn in *. lia.
    + intros x. rewrite !free_at_cons. unfold covers, HEADER in *. cbn [fst snd]. split.
      * intros [Hx|?]; [|tauto]. destruct (decide (x < n)); [left; lia|right; left; lia].
      * intros [Hx|[Hx|?]]; [left; lia|left; lia|by right].
  - exists nx, sz, hi. split_and!; [done| | | |lia|done|done].
    + cbn [lseg fst snd]. split; [done|]. exists nx. rewrite lookup_insert_eq. split; [done|]. by apply lseg_insert.
    + apply ordered_cons. split; [|done]. destruct hi as [|d hi]; [done|]. cbn [lseg] in Hl. destruct Hl as [-> _].
      inversion_clear Hhi as [|? ? [Hd _] _]. unfold before. cbn [fst snd]. lia.
    + intros x. by rewrite free_at_cons.
Qed.

(** The block below. *)
Lemma join_down s bp sz lo p sp nx tl hp :
  hmem s !! p = Some hp → s_size hp = sp → lseg (hmem s) base lo p → lseg (hmem s) bp ((bp, sz) :: tl) base →
  hmem s !! bp = Some (Hdr nx sz) → p ∉ lo.*1 → p ∉ bp :: tl.*1 → ordered (lo ++ [(p, sp)]) → ordered ((bp, sz) :: tl) → Forall (λ b, 1 ≤ b.2) tl →
  p + HEADER * sp ≤ bp → 0 ≤ sp → 1 ≤ sz → 0 < p → bp + HEADER * sz ≤ 2 ^ 36 →
  ∃ h l, (if p + HEADER * sp =? bp then store p (Hdr nx (u32 (sp + sz))) else store p (Hdr bp sp)) s =
      Some ((), mkUstate (<[p := h]> (hmem s)) (freep s) (brk s)) ∧
    lseg (<[p := h]> (hmem s)) base (lo ++ l) base ∧ ordered (lo ++ l) ∧ p ∈ l.*1 ∧ Forall (λ b, (b.1 = p ∧ sp ≤ b.2) ∨ 1 ≤ b.2) l ∧
    (∀ x, free_at l x ↔ covers (p, sp) x ∨ free_at ((bp, sz) :: tl) x) ∧ (∃ b, b ∈ l ∧ sz ≤ b.2) ∧
    (length l ≤ S (S (length tl)))%nat ∧ (p + HEADER * sp < bp → ∃ l', l = (p, sp) :: l') ∧ (∀ b, b ∈ l → b.1 = p ∨ b.1 = bp ∨ b ∈ tl).
Proof.
  intros Hp Hsp Hlo Htl Hbp Hn1 Hn2 Ho1 Ho2 Hsz Hle Hsp0 Hsz1 Hpos Htop. apply not_elem_of_cons in Hn2 as [Hpb Hn2].
  destruct (Z.eqb_spec (p + HEADER * sp) bp) as [E|E].
  - rewrite u32_id by (unfold HEADER in *; lia). exists (Hdr nx (sp + sz)), ((p, sp + sz) :: tl). split_and!; [done| | |set_solver| | | | |lia|].
    + apply lseg_app. exists p. split; [by apply lseg_insert|]. cbn [lseg fst snd]. split; [done|]. exists nx. rewrite lookup_insert_eq. split; [done|].
      apply lseg_insert; [done|]. cbn [lseg] in Htl. destruct Htl as (_ & nx' & Hb' & Htl). cbn in Hb'. rewrite Hbp in Hb'. by injection Hb' as <-.
    + apply ordered_split. split; [by apply (ordered_last lo (p, sp))|]. apply ordered_cons. apply ordered_cons in Ho2 as [H1 H2]. split; [|done].
      destruct tl; [done|]. unfold before, HEADER in *. cbn in *. lia.
    + constructor; [left; cbn; lia|]. eapply Forall_impl; [exact Hsz|]. auto.
    + intros x. rewrite !free_at_cons. unfold covers, HEADER in *. cbn [fst snd]. split.
      * intros [Hx|?]; [|tauto]. destruct (decide (x < bp)); [left; lia|right; left; lia].
      * intros [Hx|[Hx|?]]; [left; lia|left; lia|by right].
    + exists (p, sp + sz). split; [set_solver|cbn; lia].
    + simpl; lia.
    + intros b [->|Hb]%elem_of_cons; [by left|by right; right].
  - exists (Hdr bp sp), ((p, sp) :: (bp, sz) :: tl). split_and!; [done| | |set_solver| | | |done|by eauto|].
    + apply lseg_app. exists p. split; [by apply lseg_insert|]. cbn [lseg fst snd]. split; [done|]. exists bp. rewrite lookup_insert_eq. split; [done|].
      split; [done|]. exists nx. rewrite lookup_insert_ne by done. split; [done|].
      apply lseg_insert; [done|]. cbn [lseg] in Htl. destruct Htl as (_ & nx' & Hb' & Htl). cbn in Hb'. rewrite Hbp in Hb'. by injection Hb' as <-.
    + apply ordered_split. split; [done|]. apply ordered_cons. split; [|done]. unfold before. cbn [fst snd]. lia.
    + constructor; [left; cbn; lia|]. constructor; [right; cbn; lia|]. eapply Forall_impl; [exact Hsz|]. auto.
    + intros x. by rewrite (free_at_cons (p, sp)).
    + exists (bp, sz). split; [set_solver|cbn; lia].
    + intros b [->|[->|Hb]%elem_of_cons]%elem_of_cons; [by left|by right; left|by right; right].
Qed.

Lemma free_at_base l x : free_at ((base, 0) :: l) x ↔ free_at l x.
Proof. rewrite free_at_cons. unfold covers, HEADER. cbn [fst snd]. split; [intros [?|?]; [lia|done]|by right]. Qed.

(** A list that starts with [base] still does when its end is replaced. *)
Lemma keep_base L lo p sp hi l :
  (base, 0) :: L = lo ++ (p, sp) :: hi → (p = base → ∃ l', l = (p, sp) :: l') → base ∉ L.*1 → l ≠ [] →
  ∃ L', (base, 0) :: L' = lo ++ l.
Proof.
  intros E Hl Hni Hne. destruct lo as [|d lo]; cbn [app] in *; injection E as E1 E2.
  - destruct Hl as [l' ->]; [done|]. exists l'. by subst.
  - exists (lo ++ l). by subst.
Qed.

(** A block in use joins the free list. *)
Lemma heap_inv_put s L A s' L' bp sz :
  heap_inv base s L A → A !! bp = Some sz → brk s' = brk s → lseg (hmem s') base ((base, 0) :: L') base → ordered ((base, 0) :: L') →
  Forall (λ b, 1 ≤ b.2) L' → freep s' ∈ base :: L'.*1 → (∀ x, free_at L' x ↔ free_at L x ∨ covers (bp, sz) x) →
  (∀ a z, A !! a = Some z → a ≠ bp → hmem s' !! a = hmem s !! a) → heap_inv base s' L' (delete bp A).
Proof.
  intros Hi Ha Hbrk Hl Ho Hs Hf Hfree Hframe. split; rewrite ?Hbrk; try done.
  - apply (hi_base _ _ _ _ Hi).
  - intros a z [Hne Haz]%lookup_delete_Some. rewrite (Hframe a z Haz (not_eq_sym Hne)). by apply (hi_alloc _ _ _ _ Hi).
  - intros x Hx (a & z & [Hne Haz]%lookup_delete_Some & Hc). apply Hfree in Hx as [Hx|Hx].
    + apply (hi_disj _ _ _ _ Hi x Hx). by exists a, z.
    + apply Hne. eapply (hi_live _ _ _ _ Hi); eauto.
  - intros a1 z1 a2 z2 x [_ H1]%lookup_delete_Some [_ H2]%lookup_delete_Some. by apply (hi_live _ _ _ _ Hi).
  - intros x [Hx|(a & z & [_ Haz]%lookup_delete_Some & Hc)].
    + apply Hfree in Hx as [Hx|Hx]; apply (hi_top _ _ _ _ Hi); [by left|right; by exists bp, sz].
    + apply (hi_top _ _ _ _ Hi). right. by exists a, z.
  - apply (hi_brk _ _ _ _ Hi).
Qed.

(** The blocks around the place of [bp], the first of which, [p], may be [base]. *)
Record place s L (bp sz : Z) lo (p sp : Z) hi nx : Prop := {
  pl_eq : (base, 0) :: L = lo ++ (p, sp) :: hi;
  pl_lo : lseg (hmem s) base lo p;
  pl_p : hmem s !! p = Some (Hdr nx sp);
  pl_hi : lseg (hmem s) nx hi base;
  pl_olo : ordered (lo ++ [(p, sp)]);
  pl_ohi : ordered hi;
  pl_nlo : p ∉ lo.*1;
  pl_nhi : p ∉ hi.*1;
  pl_bp : bp ∉ lo.*1 ∧ bp ∉ hi.*1 ∧ p < bp;
  pl_sp : 0 ≤ sp ∧ p + HEADER * sp ≤ bp ∧ base ≤ p;
  pl_base : p = base → lo = [] ∧ sp = 0;
  pl_in : p ≠ base → (p, sp) ∈ L;
  pl_sz : Forall (λ b, 0 ≤ b.2) lo;
  pl_above : Forall (λ b, b ∈ L ∧ bp + HEADER * sz ≤ b.1) hi;
}.
Lemma free_place s L A bp sz :
  heap_inv base s L A → A !! bp = Some sz →
  ∃ lo p sp hi nx, place s L bp sz lo p sp hi nx ∧ free_loop (S (2 * size (hmem s))) bp (freep s) s = Some (p, s).
Proof.
  intros Hi Ha. destruct (free_loop_spec s L A bp sz Hi Ha) as (lo & p & sp & hi & EN & Hpb & Hlo & Hhi & Hbp & Eloop).
  pose proof (hi_ord _ _ _ _ Hi) as Ho. pose proof (heap_nonneg _ _ _ _ Hi) as Hnn. pose proof (hi_list _ _ _ _ Hi) as Hl.
  pose proof (ordered_NoDup _ Ho Hnn) as Hnd. destruct (hi_alloc _ _ _ _ Hi _ _ Ha) as (Hsz & Hbase & _).
  assert (∀ b, b ∈ lo ++ (p, sp) :: hi → b.1 ≠ base → b ∈ L) as HinL.
  { intros b Hb Hne. rewrite <-EN in Hb. apply elem_of_cons in Hb as [->|Hb]; done. }
  rewrite EN in Ho, Hnn, Hl, Hnd. apply lseg_app in Hl as (p' & Hl1 & Hl2). cbn [lseg fst snd] in Hl2. destruct Hl2 as (-> & nx & Hmp & Hl2).
  rewrite fmap_app in Hnd. cbn [fmap list_fmap fst] in Hnd. apply NoDup_app in Hnd as (_ & Hdis & Hnd2). apply NoDup_cons in Hnd2 as [Hphi _].
  apply ordered_split in Ho as [Ho1 Ho2]. apply ordered_cons in Ho2 as [_ Ho2]. apply Forall_app in Hnn as [Hnlo Hnn]. inversion_clear Hnn as [|? ? Hsp0 _].
  assert (p = base → lo = [] ∧ sp = 0) as Hpbase.
  { intros ->. destruct lo as [|d lo]; cbn [app] in EN; injection EN as E1 E2; [done|]. destruct (Hdis base); [rewrite <-E1; set_solver|left]. }
  assert (p ≠ base → (p, sp) ∈ L) as Hpin by (intros Hne; apply HinL; [set_solver|done]).
  rewrite Forall_forall in Hlo, Hhi. exists lo, p, sp, hi, nx. split; [|done]. split; try done.
  - intros Hin. apply (Hdis p Hin). left.
  - split_and!; [intros (b & E & Hb)%list_elem_of_fmap; specialize (Hlo b Hb); lia|intros (b & E & Hb)%list_elem_of_fmap; specialize (Hhi b Hb); lia|done].
  - split_and!; [done| |done]. destruct (decide (p = base)) as [E|Hne]; [destruct (Hpbase E) as [_ ->]; unfold HEADER; lia|].
    pose proof (heap_apart _ _ _ _ _ _ _ Hi Ha (Hpin Hne)) as Hap. cbn in Hap. unfold HEADER in *. lia.
  - apply Forall_forall. intros b Hb. specialize (Hhi b Hb). assert (b ∈ L) as HbL by (apply HinL; [set_solver|lia]). split; [done|].
    pose proof (heap_apart _ _ _ _ _ _ _ Hi Ha HbL) as Hap. destruct (heap_above _ _ _ _ _ Hi HbL) as (_ & ? & _). unfold HEADER in *. lia.
Qed.

(** The two joins at that place. *)
Lemma free_joins s L A bp sz q lo p sp hi nx :
  heap_inv base s L A → A !! bp = Some sz → hmem s !! bp = Some (Hdr q sz) → place s L bp sz lo p sp hi nx →
  ∃ nx' sz' h l, let s1 := mkUstate (<[bp := Hdr nx' sz']> (hmem s)) (freep s) (brk s) in
    (if bp + HEADER * sz =? nx then hn ← header nx; store bp (Hdr (s_ptr hn) (u32 (sz + s_size hn)))
     else store bp (Hdr nx sz)) s = Some ((), s1) ∧
    (if p + HEADER * sp =? bp then store p (Hdr nx' (u32 (sp + sz'))) else store p (Hdr bp sp)) s1 =
      Some ((), mkUstate (<[p := h]> (hmem s1)) (freep s) (brk s)) ∧
    lseg (<[p := h]> (hmem s1)) base (lo ++ l) base ∧ ordered (lo ++ l) ∧ p ∈ l.*1 ∧ Forall (λ b, (b.1 = p ∧ sp ≤ b.2) ∨ 1 ≤ b.2) l ∧
    (∀ x, free_at l x ↔ covers (p, sp) x ∨ covers (bp, sz) x ∨ free_at hi x) ∧ (∃ b, b ∈ l ∧ sz ≤ b.2) ∧
    (length l ≤ S (S (length hi)))%nat ∧ (p = base → ∃ l', l = (p, sp) :: l').
Proof.
  intros Hi Ha Hmb Hpl. pose proof (hi_base _ _ _ _ Hi) as Hb0. pose proof (hi_brk _ _ _ _ Hi) as Hbrk. destruct (hi_alloc _ _ _ _ Hi _ _ Ha) as (Hsz & Hbase & _).
  pose proof (heap_alloc_top _ _ _ _ _ _ Hi Ha) as Htop. destruct (pl_bp _ _ _ _ _ _ _ _ _ Hpl) as (Hnlo & Hnhi & Hpb).
  destruct (pl_sp _ _ _ _ _ _ _ _ _ Hpl) as (Hsp0 & Hle & Hbp). pose proof (pl_above _ _ _ _ _ _ _ _ _ Hpl) as Hab. rewrite Forall_forall in Hab.
  assert (∀ b, b ∈ hi → 1 ≤ b.2 ∧ b.1 + HEADER * b.2 ≤ brk s) as Hh.
  { intros b Hb. destruct (Hab b Hb) as [HbL _]. by destruct (heap_above _ _ _ _ _ Hi HbL) as (_ & ? & ?). }
  destruct (join_up s bp sz q p sp nx hi) as (nx' & sz' & hi' & E1 & Hl3 & Ho3 & Hf3 & Hsz' & Hlen3 & Hsub);
    [done|apply Hpl|apply Hpl|done|done|lia|done|apply Hpl| | |].
  { apply Forall_forall. intros b Hb. by apply Hh. }
  { apply Forall_forall. intros b Hb. destruct (Hh b Hb). split; [by apply Hab|lia]. }
  assert (bp + HEADER * sz' ≤ brk s) as Htop'.
  { destruct (proj1 (Hf3 (bp + HEADER * sz' - 1))) as [Hc|(b & Hb & Hc)].
    - apply free_at_cons. left. unfold covers, HEADER in *. cbn. lia.
    - unfold covers, HEADER in *. cbn in *. lia.
    - destruct (Hh b Hb). unfold covers, HEADER in *. lia. }
  destruct (join_down (mkUstate (<[bp := Hdr nx' sz']> (hmem s)) (freep s) (brk s)) bp sz' lo p sp nx' hi' (Hdr nx sp))
    as (h & l & E2 & Hl4 & Ho4 & Hpl4 & Hs4 & Hf4 & Hbig & Hlen4 & Hkeep & _); cbn [hmem]; try done; try lia.
  { rewrite lookup_insert_ne by lia. apply Hpl. } { apply lseg_insert; [done|apply Hpl]. } { by rewrite lookup_insert_eq. } { apply Hpl. }
  { apply not_elem_of_cons. split; [lia|]. intros (b & E & Hb)%list_elem_of_fmap. apply (pl_nhi _ _ _ _ _ _ _ _ _ Hpl), list_elem_of_fmap. eauto. }
  { apply Hpl. } { apply Forall_forall. intros b Hb. by apply Hh, Hsub. }
  exists nx', sz', h, l. split_and!; try done; [| |lia|].
  - intros x. by rewrite Hf4, Hf3.
  - destruct Hbig as (b & Hb & Hbs). exists b. split; [done|lia].
  - intros E. apply Hkeep. destruct (pl_base _ _ _ _ _ _ _ _ _ Hpl E) as [_ ->]. unfold HEADER. lia.
Qed.

(** [free] of a block in use: its bytes are free now, nothing else changes. *)
Lemma free_spec s L A bp sz :
  heap_inv base s L A → A !! bp = Some sz →
  ∃ s' L', free (bp + HEADER) s = Some ((), s') ∧ heap_inv base s' L' (delete bp A) ∧ brk s' = brk s ∧
    (∀ x, free_at L' x ↔ free_at L x ∨ covers (bp, sz) x) ∧ (∃ b, b ∈ L' ∧ sz ≤ b.2) ∧ (length L' ≤ S (length L))%nat.
Proof.
  intros Hi Ha. destruct (free_place s L A bp sz Hi Ha) as (lo & p & sp & hi & nx & Hpl & Eloop).
  destruct (hi_alloc _ _ _ _ Hi _ _ Ha) as (Hsz & Hbase & q & Hmb). destruct (pl_bp _ _ _ _ _ _ _ _ _ Hpl) as (_ & _ & Hpb).
  destruct (free_joins s L A bp sz q lo p sp hi nx Hi Ha Hmb Hpl) as (nx' & sz' & h & l & E1 & E2 & Hl & Ho & Hin & Hs & Hf & Hbig & Hlen & Hkeep).
  pose proof (pl_eq _ _ _ _ _ _ _ _ _ Hpl) as EN. destruct (keep_base L lo p sp hi l EN) as [L' EL']; [done| |by intros ->; apply elem_of_nil in Hin|].
  { intros (b & E & Hb)%list_elem_of_fmap. destruct (heap_above _ _ _ _ _ Hi Hb). lia. }
  set (s1 := mkUstate (<[bp := Hdr nx' sz']> (hmem s)) (freep s) (brk s)) in *.
  exists (mkUstate (<[p := h]> (hmem s1)) p (brk s)), L'.
  assert (∀ x, free_at L' x ↔ free_at L x ∨ covers (bp, sz) x) as Hfree.
  { intros x. rewrite <-(free_at_base L'), <-(free_at_base L), EL', EN, !free_at_app, Hf, (free_at_cons (p, sp)). tauto. }
  split_and!; [| |done|done| |].
  - unfold free. replace (bp + HEADER - HEADER) with bp by lia. rewrite (bind_eq _ _ _ s s) by done.
    rewrite (bind_eq _ _ _ _ _ Eloop), (bind_eq _ _ _ _ _ (header_eq _ _ _ Hmb)), (bind_eq _ _ _ _ _ (header_eq _ _ _ (pl_p _ _ _ _ _ _ _ _ _ Hpl))). cbn [s_ptr s_size].
    rewrite (bind_eq _ _ _ _ _ E1). rewrite (bind_eq _ _ _ (Hdr nx' sz') s1) by (apply header_eq; cbn [s1 hmem]; apply lookup_insert_eq).
    rewrite (bind_eq _ _ _ (Hdr nx sp) s1) by (apply header_eq; cbn [s1 hmem]; rewrite lookup_insert_ne by lia; apply Hpl). cbn [s_ptr s_size].
    by rewrite (bind_eq _ _ _ _ _ E2).
  - apply (heap_inv_put s L A _ L' bp sz); cbn [hmem freep brk]; try done; [by rewrite EL'|by rewrite EL'| | |].
    + assert (base ∉ L'.*1) as Hbase'.
      { assert (NoDup ((base, 0) :: L').*1) as Hnd'; [|by apply NoDup_cons in Hnd' as [? _]]. rewrite EL'. apply ordered_NoDup; [done|].
        apply Forall_app. split; [apply Hpl|]. destruct (pl_sp _ _ _ _ _ _ _ _ _ Hpl). eapply Forall_impl; [exact Hs|]. cbn. intros b. lia. }
      apply Forall_forall. intros b Hb. assert (b ∈ lo ++ l) as Hb' by (rewrite <-EL'; set_solver).
      assert (b.1 ≠ base) as Hbne by (intros E; apply Hbase', list_elem_of_fmap; eauto).
      apply elem_of_app in Hb' as [Hb'|Hb'].
      * assert (b ∈ (base, 0) :: L) as [->|HbL]%elem_of_cons by (rewrite EN; set_solver); [done|]. by destruct (heap_above _ _ _ _ _ Hi HbL) as (_ & ? & _).
      * rewrite Forall_forall in Hs. destruct (Hs b Hb') as [[Eb Hsp]|?]; [|done].
        destruct (heap_above _ _ _ _ _ Hi (pl_in _ _ _ _ _ _ _ _ _ Hpl ltac:(congruence))) as (_ & ? & _). cbn in *. lia.
    + change (base :: L'.*1) with (((base, 0) :: L').*1). rewrite EL', fmap_app. apply elem_of_app. by right.
    + intros a z Haz Hne. cbn [s1 hmem]. rewrite !lookup_insert_ne; [done|done|]. intros <-.
      destruct (hi_alloc _ _ _ _ Hi _ _ Haz) as (Hz & Hab & _). assert (p ≠ base) as Hpne by lia.
      pose proof (heap_apart _ _ _ _ _ _ _ Hi Haz (pl_in _ _ _ _ _ _ _ _ _ Hpl Hpne)) as Hap.
      destruct (heap_above _ _ _ _ _ Hi (pl_in _ _ _ _ _ _ _ _ _ Hpl Hpne)) as (_ & ? & _). cbn in *. unfold HEADER in *. lia.
  - destruct Hbig as (b & Hb & Hbsz). exists b. split; [|lia]. assert (b ∈ (base, 0) :: L') as Hb' by (rewrite EL'; set_solver).
    apply elem_of_cons in Hb' as [->|?]; [cbn in Hbsz; lia|done].
  - pose proof (f_equal length EL') as El1. pose proof (f_equal length EN) as El2. rewrite length_app in El1, El2. cbn [length] in *. lia.
Qed.
End free.

(** The end of [malloc] of [xv6/user/umalloc.c]: a block of the free list is taken. *)

Section malloc.
Context (base : Z).
Implicit Types (l L : list block) (A : gmap Z Z) (s : ustate).
Abbreviation heap_inv := (heap_inv base).

(** A block leaves the free list. *)
Lemma heap_inv_take s L A s' L' a n :
  heap_inv s L A → brk s' = brk s → lseg (hmem s') base ((base, 0) :: L') base → ordered ((base, 0) :: L') →
  Forall (λ b, 1 ≤ b.2) L' → freep s' ∈ base :: L'.*1 → (∀ x, free_at L x ↔ free_at L' x ∨ covers (a, n) x) →
  (∀ x, free_at L' x → ¬ covers (a, n) x) → 1 ≤ n → base < a → (∃ p, hmem s' !! a = Some (Hdr p n)) →
  (∀ a0 z, A !! a0 = Some z → hmem s' !! a0 = hmem s !! a0) → heap_inv s' L' (<[a := n]> A) ∧ A !! a = None.
Proof.
  intros Hi Hbrk Hl Ho Hs Hf Hfr Hdis Hn Hb Hp Hframe.
  assert (∀ a0 z x, A !! a0 = Some z → covers (a0, z) x → ¬ covers (a, n) x) as Hnew.
  { intros a0 z x Ha0 Hc Hc'. apply (hi_disj _ _ _ _ Hi x); [apply Hfr; by right|by exists a0, z]. }
  assert (A !! a = None) as HaN.
  { destruct (A !! a) as [z|] eqn:E; [|done]. destruct (hi_alloc _ _ _ _ Hi _ _ E) as (Hz & _).
    destruct (Hnew a z a E); unfold covers, HEADER; cbn; lia. }
  split; [|done]. split; rewrite ?Hbrk; try done.
  - apply (hi_base _ _ _ _ Hi).
  - intros a0 z [[<- <-]|[Hne Ha0]]%lookup_insert_Some; [done|]. rewrite (Hframe _ _ Ha0). by apply (hi_alloc _ _ _ _ Hi).
  - intros x Hx (a0 & z & [[<- <-]|[Hne Ha0]]%lookup_insert_Some & Hc); [by apply (Hdis x)|].
    apply (hi_disj _ _ _ _ Hi x); [apply Hfr; by left|by exists a0, z].
  - intros a1 z1 a2 z2 x [[<- <-]|[H1 H1']]%lookup_insert_Some [[<- <-]|[H2 H2']]%lookup_insert_Some Hc1 Hc2; [done|..].
    + by destruct (Hnew _ _ _ H2' Hc2).
    + by destruct (Hnew _ _ _ H1' Hc1).
    + by apply (hi_live _ _ _ _ Hi a1 z1 a2 z2 x).
  - intros x [Hx|(a0 & z & [[<- <-]|[Hne Ha0]]%lookup_insert_Some & Hc)]; apply (hi_top _ _ _ _ Hi).
    + left. apply Hfr. by left.
    + left. apply Hfr. by right.
    + right. by exists a0, z.
  - apply (hi_brk _ _ _ _ Hi).
Qed.

(** What a successful [malloc] of [n] units does: the block at [a] is now in use. *)
Record taken s L A s' (n a : Z) : Prop := {
  tk_inv : ∃ L', heap_inv s' L' (<[a := n]> A) ∧ ∀ x, free_at L x ↔ free_at L' x ∨ covers (a, n) x;
  tk_new : A !! a = None;
  tk_brk : brk s' = brk s;
}.

(** The end of [malloc], at a block that is large enough. *)
Definition take_block (nunits prevp p : Z) (h : hdr) : M ustate Z :=
  if s_size h =? nunits then
    hv ← header prevp;
    store prevp (Hdr (s_ptr h) (s_size hv));;
    set_freep prevp;;
    mret (p + HEADER)
  else
    store p (Hdr (s_ptr h) (s_size h - nunits));;
    let p := p + HEADER * (s_size h - nunits) in
    s ← gets id;
    store p (Hdr (default 0 (s_ptr <$> hmem s !! p)) nunits);;
    set_freep prevp;;
    mret (p + HEADER).

(** The free list around a block [b] and the one that points to it. *)
Lemma split_prev s L A prevp sv b sb :
  heap_inv s L A → prevp ∈ base :: L.*1 → hmem s !! prevp = Some (Hdr b sv) → (b, sb) ∈ L →
  ∃ k0 k l2, L = k ++ (b, sb) :: l2 ∧ (base, 0) :: k = k0 ++ [(prevp, sv)].
Proof.
  intros Hi Hpv Hmv Hb. pose proof (ordered_NoDup _ (hi_ord _ _ _ _ Hi) (heap_nonneg _ _ _ _ Hi)) as Hnd.
  destruct (heap_above _ _ _ _ _ Hi Hb) as (Hbb & _ & _). cbn in Hbb.
  destruct (lseg_next _ _ _ _ prevp sv b sb (hi_list _ _ _ _ Hi) Hnd) as (l1 & l2 & EN); [done|done|set_solver|lia|].
  destruct l1 as [|d l1]; cbn [app] in EN.
  - injection EN as E1 E2 E3. exists [], [], l2. split; [done|]. cbn. by subst.
  - injection EN as E1 E2. exists (d :: l1), (l1 ++ [(prevp, sv)]), l2. split; [by rewrite <-app_assoc|by subst].
Qed.

(** Blocks of an ordered list do not overlap. *)
Lemma ordered_disj l1 c l2 d x :
  ordered (l1 ++ c :: l2) → Forall (λ b, 0 ≤ b.2) (l1 ++ c :: l2) → d ∈ l1 ++ l2 → covers d x → ¬ covers c x.
Proof.
  intros Ho Hs Hd Hdx Hcx. apply elem_of_app in Hd as [Hd|Hd].
  - apply list_elem_of_split in Hd as (k1 & k2 & ->). rewrite <-app_assoc in Ho, Hs. cbn [app] in Ho, Hs. apply ordered_split in Ho as [_ Ho].
    apply Forall_app in Hs as [_ Hs]. pose proof (ordered_lt d (k2 ++ c :: l2) c Ho Hs ltac:(set_solver)) as H. unfold before, covers, HEADER in *. lia.
  - apply ordered_split in Ho as [_ Ho]. apply Forall_app in Hs as [_ Hs]. pose proof (ordered_lt c l2 d Ho Hs Hd) as H.
    unfold before, covers, HEADER in *. lia.
Qed.

(** Addresses of blocks in use are not in the free list, nor in a free block. *)
Lemma live_apart s L A a z : heap_inv s L A → A !! a = Some z → a ∉ base :: L.*1 ∧ ¬ free_at L a.
Proof.
  intros Hi Ha. destruct (hi_alloc _ _ _ _ Hi _ _ Ha) as (Hz & Hab & _). split.
  - apply not_elem_of_cons. split; [lia|]. intros (c & Ec & Hc)%list_elem_of_fmap.
    pose proof (heap_apart _ _ _ _ _ _ _ Hi Ha Hc). destruct (heap_above _ _ _ _ _ Hi Hc) as (_ & ? & _). unfold HEADER in *. lia.
  - intros Hf. apply (hi_disj _ _ _ _ Hi a Hf). exists a, z. split; [done|]. unfold covers, HEADER. cbn. lia.
Qed.

(** A block that is as large as wanted is unlinked. *)
Lemma take_whole s L A n prevp sv b nx :
  heap_inv s L A → 1 ≤ n → prevp ∈ base :: L.*1 → hmem s !! prevp = Some (Hdr b sv) → (b, n) ∈ L → hmem s !! b = Some (Hdr nx n) →
  taken s L A (mkUstate (<[prevp := Hdr nx sv]> (hmem s)) prevp (brk s)) n b.
Proof.
  intros Hi Hn Hpv Hmv Hb Hmb. destruct (split_prev _ _ _ _ _ _ _ Hi Hpv Hmv Hb) as (k0 & k & l2 & EL & Ek).
  pose proof (hi_ord _ _ _ _ Hi) as Ho. pose proof (heap_nonneg _ _ _ _ Hi) as Hnn. pose proof (hi_list _ _ _ _ Hi) as Hl.
  pose proof (ordered_NoDup _ Ho Hnn) as Hnd. assert ((base, 0) :: L = k0 ++ (prevp, sv) :: (b, n) :: l2) as EN.
  { rewrite EL, app_comm_cons, Ek, <-app_assoc. done. }
  assert ((base, 0) :: k ++ l2 = k0 ++ (prevp, sv) :: l2) as EN' by (by rewrite app_comm_cons, Ek, <-app_assoc).
  destruct (heap_above _ _ _ _ _ Hi Hb) as (Hbb & _ & _). cbn in Hbb.
  assert (heap_inv (mkUstate (<[prevp := Hdr nx sv]> (hmem s)) prevp (brk s)) (k ++ l2) (<[b := n]> A) ∧ A !! b = None) as [Hi' HN].
  2:{ split; [|done|done]. exists (k ++ l2). split; [done|]. intros x. rewrite EL, !free_at_app, free_at_cons. tauto. }
  rewrite EN in Hl, Ho, Hnd. apply lseg_app in Hl as (x & Hl1 & Hl2). cbn [lseg fst snd] in Hl2.
  destruct Hl2 as (-> & x2 & _ & _ & x3 & Hx3 & Hl2). rewrite Hmb in Hx3. injection Hx3 as <-.
  rewrite fmap_app in Hnd. cbn [fmap list_fmap fst] in Hnd. apply NoDup_app in Hnd as (_ & Hd1 & Hd2). apply NoDup_cons in Hd2 as [Hd3 Hd2].
  apply (heap_inv_take s L A); cbn [hmem freep brk]; try done.
  - rewrite EN'. apply lseg_app. exists prevp. split; [apply lseg_insert; [set_solver|done]|]. cbn [lseg fst snd]. split; [done|]. exists nx.
    rewrite lookup_insert_eq. split; [done|]. apply lseg_insert; [set_solver|done].
  - rewrite EN'. apply ordered_split in Ho as [Ho1 Ho2]. apply ordered_split. split; [done|].
    apply ordered_cons in Ho2 as [Hvb Ho2]. apply ordered_cons in Ho2 as [Hb2 Ho2].
    apply ordered_cons. split; [|done]. destruct l2; [done|]. unfold before, HEADER in *. cbn in *. lia.
  - pose proof (hi_sz _ _ _ _ Hi) as Hs. rewrite EL in Hs. apply Forall_app in Hs as [? Hs]. inversion_clear Hs. by apply Forall_app.
  - change (base :: (k ++ l2).*1) with (((base, 0) :: k ++ l2).*1). rewrite EN', fmap_app. set_solver.
  - intros x. rewrite EL, !free_at_app, free_at_cons. tauto.
  - intros x (c & Hc & Hx). apply (ordered_disj ((base, 0) :: k) (b, n) l2 c x); [|rewrite <-app_comm_cons, <-EL; done|set_solver|done].
    rewrite <-app_comm_cons, <-EL. apply (hi_ord _ _ _ _ Hi).
  - exists nx. rewrite lookup_insert_ne by set_solver. done.
  - intros a0 z Ha0. destruct (live_apart _ _ _ _ _ Hi Ha0) as [Hni _]. rewrite lookup_insert_ne; [done|]. intros <-. done.
Qed.

(** Of a larger block the end is taken. *)
Lemma take_split s L A n prevp b sb nx q :
  heap_inv s L A → 1 ≤ n < sb → prevp ∈ base :: L.*1 → (b, sb) ∈ L → hmem s !! b = Some (Hdr nx sb) →
  let a := b + HEADER * (sb - n) in
  taken s L A (mkUstate (<[a := Hdr q n]> (<[b := Hdr nx (sb - n)]> (hmem s))) prevp (brk s)) n a.
Proof.
  intros Hi Hn Hpv Hb Hmb a. destruct (heap_above _ _ _ _ _ Hi Hb) as (Hbb & _ & _). cbn in Hbb.
  assert (a ∉ base :: L.*1) as Hna.
  { apply not_elem_of_cons. split; [subst a; unfold HEADER; lia|]. intros (c & Ec & Hc)%list_elem_of_fmap. pose proof Hb as Hb'.
    apply list_elem_of_split in Hb' as (k1 & k2 & EL). destruct (heap_above _ _ _ _ _ Hi Hc) as (_ & Hc2 & _).
    assert (c ∈ ((base, 0) :: k1) ++ k2 ∨ c = (b, sb)) as [Hc'| ->] by (rewrite EL in Hc; set_solver); [|subst a; unfold HEADER in *; cbn in *; lia].
    apply (ordered_disj ((base, 0) :: k1) (b, sb) k2 c a); try done; rewrite <-?app_comm_cons, <-?EL;
      [apply (hi_ord _ _ _ _ Hi)|apply (heap_nonneg _ _ _ _ Hi)| |]; unfold covers; subst a; unfold HEADER in *; cbn in *; lia. }
  pose proof (hi_ord _ _ _ _ Hi) as Ho. pose proof (heap_nonneg _ _ _ _ Hi) as Hnn. pose proof (hi_list _ _ _ _ Hi) as Hl.
  pose proof (ordered_NoDup _ Ho Hnn) as Hnd. pose proof Hb as Hb'. apply list_elem_of_split in Hb' as (k & l2 & EL).
  set (L' := k ++ (b, sb - n) :: l2). assert (L'.*1 = L.*1) as Efst by (by rewrite EL; unfold L'; rewrite !fmap_app).
  assert (∀ x, free_at L x ↔ free_at L' x ∨ covers (a, n) x) as Hfr.
  { intros x. rewrite EL. unfold L'. rewrite !free_at_app, !free_at_cons. unfold covers. subst a. unfold HEADER. cbn [fst snd].
    destruct (decide (x < b + 16 * (sb - n))); split; intros; destruct_or!; try tauto; first [left; lia|right; left; lia|left; right; left; lia|right; lia]. }
  assert (heap_inv (mkUstate (<[a := Hdr q n]> (<[b := Hdr nx (sb - n)]> (hmem s))) prevp (brk s)) L' (<[a := n]> A) ∧ A !! a = None) as [Hi' HN];
    [|split; [by exists L'|done|done]].
  rewrite EL in Hnd, Hl, Ho. rewrite app_comm_cons in Hnd, Hl, Ho. apply lseg_app in Hl as (x & Hl1 & Hl2). cbn [lseg fst snd] in Hl2.
  destruct Hl2 as (-> & x2 & Hx2 & Hl2). rewrite Hmb in Hx2. injection Hx2 as <-.
  rewrite fmap_app in Hnd. apply NoDup_app in Hnd as (_ & Hd1 & Hd2). cbn [fmap list_fmap fst] in Hd2. apply NoDup_cons in Hd2 as [Hd3 _].
  apply (heap_inv_take s L A); cbn [hmem freep brk]; try done; [| | |by rewrite Efst| |lia| |eexists; apply lookup_insert_eq|].
  - apply lseg_insert; [cbn; by rewrite Efst|]. unfold L'. rewrite app_comm_cons. apply lseg_app. exists b. split; [apply lseg_insert; [|done]; set_solver|].
    cbn [lseg fst snd]. split; [done|]. exists nx. rewrite lookup_insert_eq. split; [done|]. by apply lseg_insert.
  - unfold L'. rewrite app_comm_cons. apply ordered_split in Ho as [Ho1 Ho2]. apply ordered_split. split; [by apply (ordered_last _ (b, sb))|].
    apply ordered_cons in Ho2 as [Hb2 Ho2]. apply ordered_cons. split; [|done]. destruct l2; [done|]. unfold before, HEADER in *. cbn in *. lia.
  - pose proof (hi_sz _ _ _ _ Hi) as Hs. rewrite EL in Hs. apply Forall_app in Hs as [? Hs]. inversion_clear Hs. apply Forall_app. split; [done|]. constructor; [cbn; lia|done].
  - intros x (c & Hc & Hx) Hxa. assert (c = (b, sb - n) ∨ c ∈ ((base, 0) :: k) ++ l2) as [->|Hc'] by (unfold L' in Hc; set_solver).
    + unfold covers in *. subst a. unfold HEADER in *. cbn in *. lia.
    + apply (ordered_disj ((base, 0) :: k) (b, sb) l2 c x); try done; [rewrite <-app_comm_cons, <-EL; done|].
      unfold covers in *. subst a. unfold HEADER in *. cbn in *. lia.
  - subst a. unfold HEADER. lia.
  - intros a0 z Ha0. destruct (live_apart _ _ _ _ _ Hi Ha0) as [Hni Hnf]. rewrite lookup_insert_ne.
    + rewrite lookup_insert_ne; [done|]. intros <-. apply Hni. right. apply list_elem_of_fmap. by exists (b, sb).
    + intros <-. apply Hnf, Hfr. right. unfold covers, HEADER. cbn. lia.
Qed.

Lemma take_block_spec s L A n prevp sv b sb nx :
  heap_inv s L A → 1 ≤ n ≤ sb → prevp ∈ base :: L.*1 → hmem s !! prevp = Some (Hdr b sv) → (b, sb) ∈ L → hmem s !! b = Some (Hdr nx sb) →
  ∃ a s', take_block n prevp b (Hdr nx sb) s = Some (a + HEADER, s') ∧ taken s L A s' n a.
Proof.
  intros Hi Hn Hpv Hmv Hb Hmb. unfold take_block. cbn [s_size s_ptr]. destruct (Z.eqb_spec sb n) as [->|Hne].
  - rewrite (bind_eq _ _ _ _ _ (header_eq _ _ _ Hmv)). do 2 eexists. split; [reflexivity|]. apply (take_whole s L A n prevp sv b nx); (done || lia).
  - do 2 eexists. split; [reflexivity|]. apply (take_split s L A n prevp b sb nx); (done || lia).
Qed.
End malloc.
