(* ===== verification/UmallocRun.v ===== *)
(** [malloc] of [xv6/user/umalloc.c] and programs that use it. *)
From S2P Require Import Prelude Umalloc UmallocFree.

(** ** The walk of [malloc] *)

Section scan.
Context (base : Z) (sbrk_ok : Z → Z → bool).
Implicit Types (l L : list block) (A : gmap Z Z) (s : ustate).
Abbreviation heap_inv := (heap_inv base).
Abbreviation malloc_loop := (malloc_loop sbrk_ok).
Abbreviation morecore := (morecore sbrk_ok).

Lemma malloc_loop_fits fuel n prevp p h s :
  hmem s !! p = Some h → n ≤ s_size h → malloc_loop (S fuel) n prevp p s = take_block n prevp p h s.
Proof.
  intros Hp Hn. cbn [Umalloc.malloc_loop]. rewrite (bind_eq _ _ _ _ _ (header_eq _ _ _ Hp)). by rewrite (proj2 (Z.leb_le n (s_size h))) by lia.
Qed.
Lemma malloc_loop_next fuel n prevp p h s :
  hmem s !! p = Some h → s_size h < n → p ≠ freep s → malloc_loop (S fuel) n prevp p s = malloc_loop fuel n p (s_ptr h) s.
Proof.
  intros Hp Hn Hf. cbn [Umalloc.malloc_loop]. rewrite (bind_eq _ _ _ _ _ (header_eq _ _ _ Hp)). rewrite (proj2 (Z.leb_gt n (s_size h))) by lia.
  rewrite (bind_eq _ _ _ (freep s) s) by done. by rewrite (proj2 (Z.eqb_neq p (freep s))) by done.
Qed.
Lemma malloc_loop_more fuel n prevp h s :
  hmem s !! freep s = Some h → s_size h < n →
  malloc_loop (S fuel) n prevp (freep s) s = (p ← morecore n; if p =? 0 then mret 0 else h ← header p; malloc_loop fuel n p (s_ptr h)) s.
Proof.
  intros Hp Hn. cbn [Umalloc.malloc_loop]. rewrite (bind_eq _ _ _ _ _ (header_eq _ _ _ Hp)). rewrite (proj2 (Z.leb_gt n (s_size h))) by lia.
  rewrite (bind_eq _ _ _ (freep s) s) by done. by rewrite Z.eqb_refl.
Qed.

(** Blocks that are too small are passed. *)
Lemma malloc_scan s l n prevp sv p z fuel :
  hmem s !! prevp = Some (Hdr p sv) → lseg (hmem s) p l z → Forall (λ b, b.2 < n) l → freep s ∉ l.*1 →
  ∃ v sv', (v = prevp ∨ v ∈ l.*1) ∧ hmem s !! v = Some (Hdr z sv') ∧ malloc_loop (length l + fuel) n prevp p s = malloc_loop fuel n v z s.
Proof.
  revert prevp sv p; induction l as [|b l IH]; intros prevp sv p Hv Hl Hs Hf; [cbn in Hl; subst; exists prevp, sv; auto|].
  destruct Hl as (-> & nx & Hm & Hl). cbn [fmap list_fmap] in Hf. apply not_elem_of_cons in Hf as [Hf1 Hf2]. inversion_clear Hs as [|? ? Hb Hs'].
  destruct (IH b.1 b.2 nx Hm Hl Hs' Hf2) as (v & sv' & Hin & Hmv & E). exists v, sv'. split_and!; [|done|].
  - right. cbn [fmap list_fmap]. destruct Hin as [->|?]; [left|by right].
  - cbn [length plus]. rewrite (malloc_loop_next _ _ _ _ _ _ Hm) by (cbn; congruence || lia). exact E.
Qed.

(** The circular list, from the block after [f] on. *)
Lemma rotate m l1 f sf l2 :
  lseg m base (l1 ++ (f, sf) :: l2) base → ∃ nx, m !! f = Some (Hdr nx sf) ∧ lseg m nx (l2 ++ l1) f.
Proof.
  intros (x & H1 & H2)%lseg_app. cbn [lseg fst snd] in H2. destruct H2 as (-> & nx & Hm & H2). exists nx. split; [done|]. apply lseg_app. eauto.
Qed.
(** The first of the blocks that are large enough. *)
Lemma first_fit l (n : Z) :
  Forall (λ b, b.2 < n) l ∨ ∃ r1 b r2, l = r1 ++ b :: r2 ∧ Forall (λ b, b.2 < n) r1 ∧ n ≤ b.2.
Proof.
  induction l as [|b l [IH|(r1 & c & r2 & -> & Hr & Hc)]]; [by left| |].
  - destruct (decide (n ≤ b.2)); [right; exists [], b, l; auto|left; constructor; [lia|done]].
  - right. destruct (decide (n ≤ b.2)); [exists [], b, (r1 ++ c :: r2); auto|]. exists (b :: r1), c, r2. split_and!; [done|constructor; [lia|done]|done].
Qed.

(** One round of [malloc], from the block after [freep]: the first block that
    is large enough is taken, else the system is asked for memory. *)
Lemma malloc_round s L A n :
  heap_inv s L A → 1 ≤ n → ∃ nx sf, hmem s !! freep s = Some (Hdr nx sf) ∧
    ((∃ b, b ∈ L ∧ n ≤ b.2) → ∀ fuel, (S (length L) ≤ fuel)%nat → ∃ a s', malloc_loop fuel n (freep s) nx s = Some (a + HEADER, s') ∧ taken base s L A s' n a) ∧
    (Forall (λ b, b.2 < n) L → ∀ fuel, malloc_loop (length L + S fuel) n (freep s) nx s =
       (p ← morecore n; if p =? 0 then mret 0 else h ← header p; malloc_loop fuel n p (s_ptr h)) s).
Proof.
  intros Hi Hn. pose proof (hi_freep _ _ _ _ Hi) as Hf. change (base :: L.*1) with ((base, 0) :: L).*1 in Hf.
  apply list_elem_of_fmap in Hf as ([f sf] & Ef & Hf). cbn [fst] in Ef. rewrite Ef.
  pose proof (ordered_NoDup _ (hi_ord _ _ _ _ Hi) (heap_nonneg _ _ _ _ Hi)) as Hnd. pose proof (hi_list _ _ _ _ Hi) as Hl.
  apply list_elem_of_split in Hf as (l1 & l2 & EN). rewrite EN in Hnd, Hl. destruct (rotate _ _ _ _ _ Hl) as (nx & Hm & Hr).
  assert (f ∉ (l2 ++ l1).*1) as Hni.
  { rewrite fmap_app in Hnd |- *. apply NoDup_app in Hnd as (_ & Hd & Hnd). cbn [fmap list_fmap fst] in Hnd, Hd. apply NoDup_cons in Hnd as [Hnd _].
    rewrite elem_of_app. intros [?|Hin]; [done|]. apply (Hd f Hin). left. }
  assert (length (l2 ++ l1) = length L) as Elen.
  { pose proof (f_equal length EN) as E. rewrite length_app in *. cbn [length] in E. lia. }
  assert (∀ b, b ∈ l2 ++ l1 ∨ b = (f, sf) ↔ b ∈ (base, 0) :: L) as Hall by (intros b; rewrite EN; set_solver).
  assert (∀ b, b ∈ (base, 0) :: L → n ≤ b.2 → b ∈ L) as HL by (intros b [->|?]%elem_of_cons; [cbn; lia|done]).
  assert (∀ v, v = f ∨ v ∈ (l2 ++ l1).*1 → v ∈ base :: L.*1) as Hin.
  { intros v Hv. change (base :: L.*1) with ((base, 0) :: L).*1. rewrite EN. set_solver. }
  exists nx, sf. split; [done|]. split.
  - intros (b0 & Hb0 & Hbn) fuel Hfu. destruct (first_fit (l2 ++ l1 ++ [(f, sf)]) n) as [Hno|(r1 & b & r2 & Er & Hr1 & Hb)].
    { rewrite app_assoc, Forall_app, !Forall_forall in Hno. destruct Hno as [Hno1 Hno2]. assert (b0 ∈ l2 ++ l1 ∨ b0 = (f, sf)) as [Hb'| ->] by (apply Hall; by right).
      - specialize (Hno1 b0 Hb'). lia. - specialize (Hno2 (f, sf) ltac:(set_solver)). cbn in *. lia. }
    assert (lseg (hmem s) nx (r1 ++ b :: r2) nx) as Hlr.
    { rewrite <-Er, app_assoc. apply lseg_app. exists f. split; [done|]. cbn. split; [done|]. by exists nx. }
    assert (freep s ∉ r1.*1) as Hnf.
    { rewrite Ef. intros Hfr. destruct r2 as [|c r3 _] using rev_ind; rewrite app_assoc in Er.
      - apply app_inj_tail in Er as [<- _]. done.
      - change (b :: r3 ++ [c]) with ((b :: r3) ++ [c]) in Er. rewrite (app_assoc r1) in Er. apply app_inj_tail in Er as [Er _]. apply Hni. rewrite Er, fmap_app. set_solver. }
    apply lseg_app in Hlr as (x & Hl1 & Hl2). destruct Hl2 as (-> & nb & Hmb & _).
    destruct (malloc_scan s r1 n f sf nx b.1 (S (fuel - S (length r1))) Hm Hl1 Hr1 Hnf) as (v & sv & Hv & Hmv & E).
    assert (length (r1 ++ b :: r2) = S (length L)) as El by (rewrite <-Er, app_assoc, length_app, Elen; cbn; lia). rewrite length_app in El. cbn [length] in El.
    replace (length r1 + S (fuel - S (length r1)))%nat with fuel in E by lia. rewrite E, (malloc_loop_fits _ _ _ _ _ _ Hmb) by (cbn; lia).
    assert (∀ c, c ∈ r1 ++ b :: r2 → c ∈ (base, 0) :: L) as Hsub by (intros c Hc; apply Hall; rewrite <-Er in Hc; set_solver).
    apply (take_block_spec base s L A n v sv b.1 b.2 nb); [done|lia| |done| |done].
    + destruct Hv as [->|(c & -> & Hc)%list_elem_of_fmap]; [by apply Hin; left|]. change (base :: L.*1) with ((base, 0) :: L).*1. apply list_elem_of_fmap. exists c. split; [done|]. apply Hsub. set_solver.
    + rewrite <-surjective_pairing. apply HL; [|lia]. apply Hsub. set_solver.
  - intros Hno fuel. rewrite Forall_forall in Hno. assert (∀ b, b ∈ (base, 0) :: L → b.2 < n) as Hsm by (intros b [->|?]%elem_of_cons; [cbn; lia|auto]).
    destruct (malloc_scan s (l2 ++ l1) n f sf nx f (S fuel) Hm Hr) as (v & sv & Hv & Hmv & E); [|by rewrite Ef|].
    { apply Forall_forall. intros b Hb. apply Hsm, Hall. by left. }
    rewrite Elen in E. rewrite E, <-Ef. apply (malloc_loop_more _ _ _ (Hdr nx sf)); [by rewrite Ef|]. apply (Hsm (f, sf)), Hall. by right.
Qed.
End scan.

(** ** [malloc] *)

Section malloc.
Context (base : Z) (sbrk_ok : Z → Z → bool).
Implicit Types (l L : list block) (A : gmap Z Z) (s : ustate).
Abbreviation heap_inv := (heap_inv base).
Abbreviation morecore := (morecore sbrk_ok).

(** The system allocates the memory that [sbrk] asks for, and has less than 64 GB of it. *)
Definition bounded_growth : Prop := ∀ b n, sbrk_ok b n = true → b + n ≤ 2 ^ 36.
Hypothesis Hgrow : bounded_growth.

(** The bytes [morecore] asks for. *)
Definition more (nu : Z) : Z := HEADER * Z.max nu 4096.

Lemma heap_inv_grow s L A q nu :
  heap_inv s L A → 1 ≤ nu → brk s + HEADER * nu ≤ 2 ^ 36 →
  heap_inv (mkUstate (<[brk s := Hdr q nu]> (hmem s)) (freep s) (brk s + HEADER * nu)) L (<[brk s := nu]> A) ∧ A !! brk s = None.
Proof.
  intros Hi Hn Hb. assert (∀ x, free_at L x ∨ live_at A x → x < brk s) as Htop by apply (hi_top _ _ _ _ Hi).
  assert (∀ a z, A !! a = Some z → a < brk s) as HA.
  { intros a z Ha. apply Htop. right. exists a, z. destruct (hi_alloc _ _ _ _ Hi _ _ Ha). split; [done|]. unfold covers, HEADER. cbn. lia. }
  split; [|destruct (A !! brk s) as [z|] eqn:E; [specialize (HA _ _ E); lia|done]].
  split; cbn [hmem freep brk]; try apply Hi; try done.
  - pose proof (hi_base _ _ _ _ Hi). unfold HEADER. lia.
  - apply lseg_insert; [|apply Hi]. cbn [fmap list_fmap fst]. apply not_elem_of_cons. split; [pose proof (hi_base _ _ _ _ Hi); lia|].
    intros (b & E & Hb')%list_elem_of_fmap. destruct (heap_above _ _ _ _ _ Hi Hb') as (_ & ? & ?). unfold HEADER in *. lia.
  - intros a z [[<- <-]|[Hne Ha]]%lookup_insert_Some.
    + split_and!; [done|pose proof (hi_base _ _ _ _ Hi); lia|]. rewrite lookup_insert_eq. eauto.
    + rewrite lookup_insert_ne by done. by apply (hi_alloc _ _ _ _ Hi).
  - intros x Hx (a & z & [[<- <-]|[Hne Ha]]%lookup_insert_Some & Hc).
    + specialize (Htop x (or_introl Hx)). unfold covers in Hc. cbn in Hc. lia.
    + apply (hi_disj _ _ _ _ Hi x Hx). by exists a, z.
  - intros a1 z1 a2 z2 x [[<- <-]|[H1 H1']]%lookup_insert_Some [[<- <-]|[H2 H2']]%lookup_insert_Some Hc1 Hc2; [done|..].
    + assert (x < brk s) by (apply Htop; right; by exists a2, z2). unfold covers in Hc1. cbn in Hc1. lia.
    + assert (x < brk s) by (apply Htop; right; by exists a1, z1). unfold covers in Hc2. cbn in Hc2. lia.
    + by apply (hi_live _ _ _ _ Hi a1 z1 a2 z2 x).
  - intros x [Hx|(a & z & [[<- <-]|[Hne Ha]]%lookup_insert_Some & Hc)].
    + specialize (Htop x (or_introl Hx)). unfold HEADER. lia.
    + unfold covers in Hc. cbn in Hc. lia.
    + assert (x < brk s) by (apply Htop; right; by exists a, z). unfold HEADER. lia.
Qed.

Lemma freep_nonzero s L A : heap_inv s L A → freep s ≠ 0.
Proof.
  intros Hi. pose proof (hi_base _ _ _ _ Hi). pose proof (hi_freep _ _ _ _ Hi) as Hf.
  apply elem_of_cons in Hf as [->|(b & -> & Hb)%list_elem_of_fmap]; [lia|]. destruct (heap_above _ _ _ _ _ Hi Hb). lia.
Qed.

(** [morecore]: a block of the new memory is freed. *)
Lemma morecore_spec s L A nu :
  heap_inv s L A → 1 ≤ nu → HEADER * nu < 2 ^ 31 →
  (sbrk_ok (brk s) (more nu) = false ∧ morecore nu s = Some (0, s)) ∨
  ∃ s' L', sbrk_ok (brk s) (more nu) = true ∧ morecore nu s = Some (freep s', s') ∧ heap_inv s' L' A ∧ brk s' = brk s + more nu ∧
    (∀ x, free_at L' x ↔ free_at L x ∨ brk s ≤ x < brk s') ∧ (∃ b, b ∈ L' ∧ nu ≤ b.2) ∧ (length L' ≤ S (length L))%nat.
Proof.
  intros Hi Hn Hsm. pose proof (hi_base _ _ _ _ Hi) as Hb. unfold Umalloc.morecore. set (m := if nu <? 4096 then 4096 else nu).
  assert (more nu = HEADER * m ∧ 1 ≤ m ∧ nu ≤ m ∧ HEADER * m < 2 ^ 31) as (Em & Hm1 & Hmn & Hm2).
  { unfold more, m, HEADER in *. destruct (Z.ltb_spec nu 4096); lia. }
  rewrite int32_id by (unfold HEADER in *; lia). rewrite Em, (Z.mul_comm m).
  destruct (sbrk_ok (brk s) (HEADER * m)) eqn:Eok.
  - right. rewrite (bind_eq _ _ _ (brk s) (mkUstate (hmem s) (freep s) (brk s + HEADER * m)))
      by (unfold sbrk; rewrite (proj2 (Z.ltb_ge _ 0)) by (unfold HEADER; lia); by rewrite Eok).
    rewrite (proj2 (Z.eqb_neq (brk s) (-1))) by lia.
    destruct (heap_inv_grow s L A (default 0 (s_ptr <$> hmem s !! brk s)) m Hi Hm1) as [Hi1 HN]; [by apply Hgrow|].
    destruct (free_spec base _ _ _ (brk s) m Hi1 (lookup_insert_eq _ _ _)) as (s' & L' & Ef & Hi' & Hbrk & Hfr & (b & Hbin & Hbs) & Hlen).
    rewrite delete_insert_id in Hi' by done. exists s', L'. cbn [brk] in Hbrk. split_and!; try done.
    + rewrite (bind_eq _ _ _ _ _ eq_refl), (bind_eq _ _ _ _ _ eq_refl). rewrite (bind_eq _ _ _ _ _ Ef). done.
    + intros x. rewrite Hfr, Hbrk. unfold covers. cbn. tauto.
    + exists b. split; [done|lia].
  - left. split; [done|]. rewrite (bind_eq _ _ _ (-1) s); [done|]. unfold sbrk. rewrite (proj2 (Z.ltb_ge _ 0)) by (unfold HEADER; lia). by rewrite Eok.
Qed.

(** The heap before or after the first [malloc]. *)
Definition ready s L A : Prop :=
  heap_inv s L A ∨ (freep s = 0 ∧ L = [] ∧ A = ∅ ∧ 0 < base < brk s ∧ brk s ≤ 2 ^ 36).

(** What [malloc] of [n] units does: nothing if no free block is large enough
    and the system has no memory; else a block of the free or of the new memory
    is in use, the rest of it is free. *)
Definition malloc_result s L A (n r : Z) s' : Prop :=
  (r = 0 ∧ heap_inv s' L A ∧ brk s' = brk s ∧ Forall (λ b, b.2 < n) L ∧ sbrk_ok (brk s) (more n) = false) ∨
  ∃ a L', r = a + HEADER ∧ heap_inv s' L' (<[a := n]> A) ∧ A !! a = None ∧ brk s ≤ brk s' ∧
    ∀ x, free_at L x ∨ brk s ≤ x < brk s' ↔ free_at L' x ∨ covers (a, n) x.

Lemma malloc_from_spec s L A n nx sf :
  heap_inv s L A → 1 ≤ n → HEADER * n < 2 ^ 31 → hmem s !! freep s = Some (Hdr nx sf) →
  ∃ r s', malloc_loop sbrk_ok (2 * size (hmem s) + 4) n (freep s) nx s = Some (r, s') ∧ malloc_result s L A n r s'.
Proof.
  intros Hi Hn Hsm Hm. pose proof (lseg_size _ _ _ _ (hi_list _ _ _ _ Hi) (ordered_NoDup _ (hi_ord _ _ _ _ Hi) (heap_nonneg _ _ _ _ Hi))) as Hsz. cbn [length] in Hsz.
  destruct (malloc_round base sbrk_ok s L A n Hi Hn) as (nx' & sf' & Hm' & Hfit & Hno). rewrite Hm in Hm'. injection Hm' as <- <-.
  destruct (first_fit L n) as [Hsmall|(r1 & b & r2 & EL & _ & Hb)].
  - replace (2 * size (hmem s) + 4)%nat with (length L + S (2 * size (hmem s) + 3 - length L))%nat by lia. rewrite (Hno Hsmall). clear Hno Hfit.
    destruct (morecore_spec s L A n Hi Hn Hsm) as [[Eok E]|(s1 & L1 & Eok & E & Hi1 & Hbrk & Hfr & Hex & Hlen)]; rewrite (bind_eq _ _ _ _ _ E).
    + exists 0, s. split; [done|]. by left.
    + rewrite (proj2 (Z.eqb_neq (freep s1) 0)) by (by eapply freep_nonzero).
      destruct (malloc_round base sbrk_ok s1 L1 A n Hi1 Hn) as (nx1 & sf1 & Hm1 & Hfit & _). rewrite (bind_eq _ _ _ _ _ (header_eq _ _ _ Hm1)).
      destruct (Hfit Hex (2 * size (hmem s) + 3 - length L)%nat ltac:(lia)) as (a & s' & E' & [(L' & Hi' & Hx) HN Hb']). cbn [s_ptr].
      exists (a + HEADER), s'. split; [done|]. right. exists a, L'. split_and!; try done; [rewrite Hb', Hbrk; unfold more, HEADER; lia|].
      intros x. rewrite <-Hx, Hfr, Hb'. done.
  - destruct (Hfit) with (fuel := (2 * size (hmem s) + 4)%nat) as (a & s' & E' & [(L' & Hi' & Hx) HN Hb']); [|lia|].
    { exists b. split; [rewrite EL; set_solver|done]. }
    exists (a + HEADER), s'. split; [done|]. right. exists a, L'. split_and!; try done; [lia|]. intros x. rewrite <-Hx, Hb'. split; [intros [?|?]; [done|lia]|by left].
Qed.

Lemma malloc_spec s L A nbytes :
  ready s L A → 0 ≤ nbytes < 2 ^ 31 - 31 →
  ∃ r s', malloc base sbrk_ok nbytes s = Some (r, s') ∧ malloc_result s L A (units nbytes) r s'.
Proof.
  intros Hr Hn. assert (1 ≤ units nbytes ∧ HEADER * units nbytes < 2 ^ 31) as [Hu1 Hu2].
  { unfold units, HEADER. pose proof (Z.div_pos (nbytes + 16 - 1) 16 ltac:(lia) ltac:(lia)). pose proof (Z.mul_div_le (nbytes + 16 - 1) 16 ltac:(lia)). lia. }
  unfold malloc. rewrite u32_id by (unfold HEADER in Hu2; lia). rewrite (bind_eq _ _ _ s s) by done. destruct Hr as [Hi|(Hf & -> & -> & Hb & Htop)].
  - rewrite (proj2 (Z.eqb_neq (freep s) 0)) by (by eapply freep_nonzero). rewrite (bind_eq _ _ _ tt s) by done. rewrite (bind_eq _ _ _ s s) by done.
    destruct (malloc_round base sbrk_ok s L A _ Hi Hu1) as (nx & sf & Hm & _). rewrite (bind_eq _ _ _ _ _ (header_eq _ _ _ Hm)). by eapply malloc_from_spec.
  - rewrite Hf. set (s0 := mkUstate (<[base := Hdr base 0]> (hmem s)) base (brk s)). rewrite (bind_eq _ _ _ tt s0) by done. rewrite (bind_eq _ _ _ s0 s0) by done.
    rewrite (bind_eq _ _ _ (Hdr base 0) s0) by (apply header_eq; apply lookup_insert_eq). cbn [s_ptr].
    assert (heap_inv s0 [] ∅) as Hi.
    { split; cbn [s0 hmem freep brk]; try done; [|set_solver| |].
      - cbn. split; [done|]. exists base. rewrite lookup_insert_eq. done.
      - intros x (b & Hb' & _). by apply elem_of_nil in Hb'.
      - intros x [(b & Hb' & _)|(a & z & Ha & _)]; [by apply elem_of_nil in Hb'|done]. }
    apply (malloc_from_spec s0 [] ∅ _ base 0 Hi Hu1 Hu2). apply lookup_insert_eq.
Qed.
End malloc.

(** ** Programs *)

Section uses.
Context (base : Z) (sbrk_ok : Z → Z → bool) (brk0 : Z).
Implicit Types (L : list block) (A : gmap Z Z) (s : ustate).
Abbreviation malloc := (malloc base sbrk_ok).

(** A program that asks for blocks of less than 2 GB and frees those it has,
    each once; [A] are the blocks it has, [brk0] the end of its memory when it starts. *)
Inductive uses : ustate → gmap Z Z → Prop :=
  | uses_start m : 0 < base < brk0 → brk0 ≤ 2 ^ 36 → uses (mkUstate m 0 brk0) ∅
  | uses_malloc s A n r s' : uses s A → 0 ≤ n < 2 ^ 31 - 31 → malloc n s = Some (r, s') →
      uses s' (if r =? 0 then A else <[r - HEADER := units n]> A)
  | uses_free s A ap sz s' : uses s A → A !! (ap - HEADER) = Some sz → free ap s = Some ((), s') →
      uses s' (delete (ap - HEADER) A).

(** The free list in memory is [L]. *)
Definition free_list s L : Prop := freep s = 0 ∧ L = [] ∨ lseg (hmem s) base ((base, 0) :: L) base.

Definition good s L A : Prop :=
  ready base s L A ∧ brk0 ≤ brk s ∧ ∀ x, brk0 ≤ x < brk s ↔ free_at L x ∨ live_at A x.

Lemma live_at_insert A a n x : A !! a = None → live_at (<[a := n]> A) x ↔ covers (a, n) x ∨ live_at A x.
Proof.
  intros HN. unfold live_at. split.
  - intros (a0 & z & [[<- <-]|[Hne Ha]]%lookup_insert_Some & Hc); eauto.
  - intros [Hc|(a0 & z & Ha & Hc)]; [exists a, n; by rewrite lookup_insert_eq|]. exists a0, z. rewrite lookup_insert_ne by congruence. done.
Qed.
Lemma live_at_delete A a n x : A !! a = Some n → live_at A x ↔ covers (a, n) x ∨ live_at (delete a A) x.
Proof. intros Ha. rewrite <-live_at_insert by apply lookup_delete_eq. by rewrite insert_delete_id. Qed.
Lemma ready_inv s L A a z : ready base s L A → A !! a = Some z → heap_inv base s L A.
Proof. intros [Hi|(_ & _ & -> & _)]; done. Qed.

Lemma malloc_block s L A n r s' :
  ready base s L A → malloc_result base sbrk_ok s L A n r s' → r ≠ 0 →
  A !! (r - HEADER) = None ∧ ∃ L', heap_inv base s' L' (<[r - HEADER := n]> A) ∧ brk s ≤ brk s' ∧
    ∀ x, free_at L x ∨ brk s ≤ x < brk s' ↔ free_at L' x ∨ covers (r - HEADER, n) x.
Proof.
  intros Hr [(-> & _)|(a & L' & -> & Hi & HN & Hb & Hx)] Hne; [done|]. replace (a + HEADER - HEADER) with a by lia. split; [done|]. by exists L'.
Qed.
Lemma result_nonzero A n a s' L' :
  heap_inv base s' L' (<[a := n]> A) → a + HEADER ≠ 0.
Proof. intros Hi. destruct (hi_alloc _ _ _ _ Hi a n (lookup_insert_eq _ _ _)) as (_ & ? & _). pose proof (hi_base _ _ _ _ Hi). unfold HEADER. lia. Qed.

Lemma uses_good s A : bounded_growth sbrk_ok → uses s A → ∃ L, good s L A.
Proof.
  intros Hg Hu. induction Hu as [m Hb Ht|s A n r s' Hu (L & Hr & Hbrk & Hx) Hn E|s A ap sz s' Hu (L & Hr & Hbrk & Hx) Ha E].
  - exists []. split; [by right|]. split; [done|]. intros x. cbn [brk]. split; [lia|]. intros [(b & ?%elem_of_nil & _)|(a & z & ? & _)]; done.
  - destruct (malloc_spec base sbrk_ok Hg s L A n Hr Hn) as (r' & s0 & E' & Hres). rewrite E in E'. injection E' as <- <-.
    destruct (Z.eqb_spec r 0) as [->|Hne].
    + destruct Hres as [(_ & Hi & Hb & _)|(a & L' & E0 & Hi & _)]; [|by destruct (result_nonzero A _ _ _ _ Hi)].
      exists L. split; [by left|]. by rewrite Hb.
    + destruct (malloc_block _ _ _ _ _ _ Hr Hres Hne) as (HN & L' & Hi & Hb & Hx'). exists L'. split; [by left|]. split; [lia|].
      intros x. rewrite live_at_insert by done. specialize (Hx x). specialize (Hx' x).
      assert (brk0 ≤ x < brk s' ↔ brk0 ≤ x < brk s ∨ brk s ≤ x < brk s') as -> by lia. tauto.
  - pose proof (ready_inv _ _ _ _ _ Hr Ha) as Hi. destruct (free_spec base s L A _ sz Hi Ha) as (s0 & L' & E' & Hi' & Hb & Hfr & _).
    replace (ap - HEADER + HEADER) with ap in E' by lia. rewrite E in E'. injection E' as <-. exists L'. split; [by left|]. rewrite Hb. split; [done|].
    intros x. rewrite Hx, Hfr, (live_at_delete A _ _ _ Ha). tauto.
Qed.

(** C14: The user allocator is safe for every sequence of calls in which each
    request is for less than 2^31 - 31 bytes, each block is freed at most once,
    and memory ends below 2^36 ([huge_malloc_shrinks] shows what a larger
    request does): [malloc] returns,
    either 0, and then no free block is large enough and the system has no
    memory for more, or a block of at least [n] bytes of the process with its
    header before it, no byte of which is in use; [free] of a block in use
    returns; and the bytes the process got are those of the free blocks, listed
    from [base] by address without overlap, and of the blocks in use, none of
    them lost and none counted twice. *)
Theorem umalloc_safe s A :
  bounded_growth sbrk_ok → uses s A →
  ∃ L, free_list s L ∧ ordered ((base, 0) :: L) ∧
    (∀ x, brk0 ≤ x < brk s ↔ free_at L x ∨ live_at A x) ∧ (∀ x, free_at L x → ¬ live_at A x) ∧
    (∀ a1 z1 a2 z2 x, A !! a1 = Some z1 → A !! a2 = Some z2 → covers (a1, z1) x → covers (a2, z2) x → a1 = a2) ∧
    (∀ ap sz, A !! (ap - HEADER) = Some sz → ∃ s', free ap s = Some ((), s')) ∧
    (∀ n, 0 ≤ n < 2 ^ 31 - 31 → ∃ r s', malloc n s = Some (r, s') ∧
       if r =? 0 then Forall (λ b, b.2 < units n) L ∧ sbrk_ok (brk s) (more (units n)) = false
       else ∀ x, r - HEADER ≤ x < r + n → brk0 ≤ x < brk s' ∧ ¬ live_at A x).
Proof.
  intros Hg Hu. destruct (uses_good s A Hg Hu) as (L & Hr & Hb & Hx). exists L. split_and!; [| |done| | | |].
  - destruct Hr as [Hi|(? & ? & _)]; [right; apply Hi|by left].
  - destruct Hr as [Hi|(? & -> & _)]; [apply Hi|done].
  - destruct Hr as [Hi|(? & -> & -> & _)]; [apply Hi|]. intros x (b & ?%elem_of_nil & _); done.
  - intros a1 z1 a2 z2 x H1. apply (hi_live _ _ _ _ (ready_inv _ _ _ _ _ Hr H1) a1 z1 a2 z2 x H1).
  - intros ap sz Ha. destruct (free_spec base s L A _ sz (ready_inv _ _ _ _ _ Hr Ha) Ha) as (s' & L' & E & _).
    replace (ap - HEADER + HEADER) with ap in E by lia. by exists s'.
  - intros n Hn. destruct (malloc_spec base sbrk_ok Hg s L A n Hr Hn) as (r & s' & E & Hres). exists r, s'. split; [done|].
    destruct (Z.eqb_spec r 0) as [->|Hne].
    + destruct Hres as [(_ & _ & _ & ? & ?)|(a & L' & E0 & Hi & _)]; [done|by destruct (result_nonzero A _ _ _ _ Hi)].
    + destruct (malloc_block _ _ _ _ _ _ Hr Hres Hne) as (HN & L' & Hi & Hb' & Hx'). intros x Hxr.
      assert (covers (r - HEADER, units n) x) as Hc.
      { unfold covers, units, HEADER in *. cbn. pose proof (Z.div_mod (n + 16 - 1) 16 ltac:(lia)). pose proof (Z.mod_pos_bound (n + 16 - 1) 16 ltac:(lia)). lia. }
      assert (x < brk s') by (apply (hi_top _ _ _ _ Hi); right; apply live_at_insert; auto).
      pose proof (proj2 (Hx' x) (or_intror Hc)) as [Hfx|Hnew].
      * pose proof (proj2 (Hx x) (or_introl Hfx)). split; [lia|]. destruct Hr as [Hi0|(_ & -> & -> & _)]; [by apply (hi_disj _ _ _ _ Hi0)|].
        destruct Hfx as (b & ?%elem_of_nil & _); done.
      * split; [lia|]. intros Hl. pose proof (proj2 (Hx x) (or_intror Hl)). lia.
Qed.
End uses.

(** Two blocks of a process that may grow to 1 MB; the first is freed. *)
Definition demo_ok (b n : Z) : bool := b + n <=? 2 ^ 20.
Definition demo_state (ops : list (Z + Z)) : ustate :=
  foldl (λ s op, match op with
                 | inl n => match malloc 4000 demo_ok n s with Some (_, s) => s | None => s end
                 | inr p => match free p s with Some (_, s) => s | None => s end
                 end) (mkUstate ∅ 0 4096) ops.
Lemma umalloc_safe_witness :
  bounded_growth demo_ok ∧ ∃ s', malloc 4000 demo_ok 100 (demo_state [inl 10; inl 100; inr (4096 + 65536 - 16)]) = Some (4096 + 65536 - 272, s').
Proof.
  assert (bounded_growth demo_ok) as Hg by (intros b n H; unfold demo_ok in H; apply Z.leb_le in H; lia).
  split; [exact Hg|]. set (p1 := 4096 + 65536 - 16).
  assert (uses 4000 demo_ok 4096 (demo_state [inl 10; inl 100; inr p1])
            (delete (p1 - HEADER) (<[4096 + 65536 - 32 - 128 := units 100]> (<[p1 - HEADER := units 10]> ∅)))) as Hu.
  { apply (uses_free _ _ _ (demo_state [inl 10; inl 100]) _ p1 2); [|reflexivity|reflexivity].
    apply (uses_malloc _ _ _ (demo_state [inl 10]) _ 100 (4096 + 65536 - 32 - 128 + HEADER) (demo_state [inl 10; inl 100])); [|lia|reflexivity].
    apply (uses_malloc _ _ _ (demo_state []) ∅ 10 p1 (demo_state [inl 10])); [|lia|reflexivity].
    apply uses_start; lia. }
  destruct (umalloc_safe 4000 demo_ok 4096 _ _ Hg Hu) as (L & _ & _ & _ & _ & _ & _ & Hm).
  destruct (Hm 100 ltac:(lia)) as (r & s' & E & _). exists s'. rewrite E. do 2 f_equal.
  vm_compute in E. injection E as <- _. reflexivity.
Defined.

(** A request whose size in bytes is at least 2 GB gives [sbrk] a negative
    number: the process shrinks, and [malloc] returns a block above its end. *)
Lemma huge_malloc_shrinks :
  ∃ r s', malloc 4000 demo_ok (2 ^ 32 - 4096) (mkUstate ∅ 0 65536) = Some (r, s') ∧ r ≠ 0 ∧ brk s' < 65536 ∧ brk s' ≤ r.
Proof. vm_compute. do 2 eexists. split; [reflexivity|]. done. Qed.
